(* ===== verification/_CoqProject ===== *)
-Q . S2P
Prelude.v
Checksum.v
IdBitmap.v
Addresses.v
PoolBasics.v
Storage.v
RedBlackTree.v
RedBlackTreeShape.v
RedBlackTreeBalance.v
RedBlackTreeWalks.v
RedBlackTreeInsert.v
RedBlackTreeRemove.v
RedBlackTreeStorage.v
RedBlackTreeTheorems.v
PoolElement.v
PoolPolicy.v
HandlespaceState.v
PoolNode.v
PoolEffects.v
PoolSelection.v
HandlespaceNode.v
HandlespaceInv.v
HandlespaceOps.v
HandlespaceEffects.v
HandlespaceWalks.v
HandlespaceVerify.v
HandlespaceUpdate.v
HandlespaceMgt.v
HandlespaceMgtInv.v
HandlespaceNotifications.v
HandlespaceRegistration.v
HandlespaceSteps.v
HandlespaceTheorems.v
PeerList.v
PeerListInv.v
PeerListOps.v
PeerListSteps.v
PeerListRegister.v
PeerListTheorems.v
HandlespacePeers.v
Message.v
MessageCreator.v
MessageParser.v
MessageWire.v
MessageWrites.v
MessageCreate.v
MessageScan.v
MessageScanBlocks.v
MessageTransmit.v
MessageTheorems.v
PoolUsers.v
Registrar.v
RegistrarSend.v
RegistrarAsap.v
RegistrarTakeover.v
RegistrarEnrp.v
RegistrarCore.v
RegistrarQuiet.v
RegistrarInv.v
RegistrarSteps.v
RegistrarPackets.v
RegistrarAsapSteps.v
RegistrarEnrpSteps.v
RegistrarTakeoverSteps.v
RegistrarEnrpHandlers.v
RegistrarEvents.v
RegistrarDemo.v
RegistrarTheorems.v
AsapInstance.v
AsapClient.v
AsapInv.v
AsapSteps.v
AsapEvents.v
AsapLoop.v
AsapTheorems.v
MessageBuffer.v
NotificationQueue.v
TagList.v
