(* ===== verification/Prelude.v ===== *)
(** * Verification of rsplib

    rsplib implements Reliable Server Pooling (RSerPool): servers, called
    pool elements, register under a pool handle at a registrar; clients ask
    a registrar to resolve a handle and get some of its elements, chosen by
    the pool's policy.  Registrars own the elements registered with them,
    tell each other about changes, and compare checksums of what they own.
    The implementation is C; its data structures are templates that are
    instantiated with one of several storages.

    ** Components, and the files that model them

    - Machine integers, the state and error monad [M] with its rule [wp],
      CHECK, doubles: this file.  A program is a function from the state to
      [Some (result, state)]; [None] is a failed CHECK (which ends the
      process), an access through an invalid pointer, or a loop that has run
      out of fuel.  [wp c Q s] says that [c] ends, with [Q].
    - Handlespace checksum (poolhandlespacechecksum.c): Checksum.
    - Identifier bitmap (identifierbitmap.c): IdBitmap.
    - Addresses and transport address blocks (netutilities.c,
      transportaddressblock.c): Addresses.
    - Pool handles, policy settings, error codes (poolhandle.c,
      poolpolicysettings.c, poolhandlespacemanagement-basics.c): PoolBasics.
    - Storages (redblacktree_impl.h in its two variants,
      doublelinkedringlist.c): the interface between the handlespace and its
      storage is the class [Storage] with the laws [StorageLaws], in file
      Storage, with a sorted list as its reference instance.  RedBlackTree
      models the tree the build uses, in an explicit memory with one map per
      structure member; RedBlackTreeShape, ...Balance, ...Walks, ...Insert
      and ...Remove relate the memory to a tree seen through a zipper,
      RedBlackTreeStorage discharges the laws, RedBlackTreeTheorems states
      the results.
    - Pool elements (poolelementnode-template_impl.h): PoolElement; pool
      policies (poolpolicy-template_impl.h): PoolPolicy (sorting orders and
      updates), PoolSelection (the two selection procedures).
    - Pools (poolnode-template_impl.h): HandlespaceState (heap and storages),
      PoolNode (operations), PoolEffects (what they do).
    - Handlespace (poolhandlespacenode-template_impl.h): HandlespaceNode
      (operations), HandlespaceInv (the invariant), ...Ops, ...Effects,
      ...Update (every operation keeps it), ...Walks, ...Verify.
    - Handlespace management (poolhandlespacemanagement-template_impl.h):
      HandlespaceMgt (operations), ...MgtInv, ...Registration (refinement of
      a map), ...Steps (sequences), HandlespaceTheorems (results).
    - Peer list (peerlistnode-, peerlist- and
      peerlistmanagement-template_impl.h): PeerList (operations),
      PeerListInv, ...Ops, ...Steps, ...Register, PeerListTheorems.  The
      handlespace notifies the peer list of every change:
      HandlespaceNotifications, HandlespacePeers.
    - Messages (rserpoolmessage.c, rserpoolmessagecreator.c,
      rserpoolmessageparser.c): Message (structure and buffer),
      MessageCreator, MessageParser (the code), MessageWire (the format),
      MessageWrites, MessageCreate (creators write it), MessageScan,
      MessageScanBlocks (the parser reads it), MessageTransmit,
      MessageTheorems (results).
    - Pool users and the rates of their requests (pooluserlist- and
      poolusernode-template_impl.h, timestamphashtable.c,
      rspregistrar-security.c): PoolUsers.
    - Registrar (rspregistrar-core.c, -asap.c, -enrp.c, -takeover.c,
      -global.c, takeoverprocess.c, timer.c): Registrar (state, environment,
      timers), RegistrarSend (the messages it sends), RegistrarAsap,
      RegistrarTakeover, RegistrarEnrp (one definition per handler),
      RegistrarCore (dispatch of packets and timers, construction,
      destruction).  It joins handlespace, peer list, pool users, creator
      and parser.  Proofs: RegistrarQuiet (what only observes and sends),
      RegistrarInv (the invariant), ...Steps and ...Packets (rules for the
      operations), ...AsapSteps, ...EnrpSteps, ...TakeoverSteps,
      ...EnrpHandlers (handlers), ...Events (sequences), ...Demo (concrete
      runs), RegistrarTheorems (results).
    - ASAP instance, the side of pool elements and pool users
      (asapinstance.c, asapinterthreadmessage.c, interthreadmessageport.c):
      AsapInstance (the queue of requests, connection, responses, timeouts,
      keep-alives), AsapClient (registration, deregistration, resolution,
      failure reports, events of the connection).  It uses two handlespaces
      (cache and own elements), creator and parser; the search for a
      registrar is an answer of an [AsapEnvironment].  Proofs: AsapInv (the
      invariant), AsapSteps (rounds and responses), AsapEvents (threads and
      events), AsapLoop (interleaving, rounds without a registrar),
      AsapTheorems (results).

    Definitions keep the names of the source; a template's operations take
    the storage as a class argument, as the C macros do.  Heap objects are
    [ptr]s into finite maps; a structure linked in several storages is one
    object, and comparison functions read the heap of the moment.  Results
    of [malloc], random numbers, the time and user data disposers are
    arguments; the registrar asks an [Environment] for them, which answers
    by the number of questions asked so far, and records what it sends.

    ** What the theorems show

    - Registrar: after any sequence of packets, lost associations, timers
      and configured peers, the handlespace passes its verification, the
      ownership checksum of every peer is the one of its elements, no peer
      is the registrar itself, and takeover processes and takeover timers
      belong together.  The messages are those for which [message_ok]
      holds: what it excludes (static entries that are configured twice,
      server information under a wrong identifier, and the like) is stated
      per message in RegistrarAsapSteps and RegistrarEnrpHandlers.  The
      takeover handlers are described completely, termination included:
      who acknowledges, who gives up, which elements get which home.  The
      takeover of the only peer is never completed.
    - ASAP instance: main loop, events and threads are the steps of
      [asap_step]; the port of the main loop is unlocked between the parts of
      a round, where operations of threads come in between.  In every state
      that can be reached requests are neither lost nor doubled nor sent too
      often, the main loop comes to the end of its round, responses go to
      the threads in the order of their requests, and without a registrar
      every request is refused after its trials.  A reachable state in which
      the expiry of the timeout ends the process is exhibited.
    - Pool users: what the time stamp tables keep, and when a request is
      permitted.
    - Peer list: as for the handlespace; a peer's checksum follows the
      handlespace.
    - Handlespace: after any sequence of operations from the empty
      handlespace the invariant holds, no CHECK fails, nothing is lost, and
      the consistency check of the code succeeds; registration and
      deregistration refine insertion and deletion in a map from handle and
      identifier; what handle resolution, purging, marking and the change of
      ownership do; round robin rotates; sequence numbers keep their order.
    - Trees: insertion and removal refine those of a sorted list and keep a
      balanced tree; searches are logarithmic; the tree's own verification
      succeeds; the selection by value is proportional.
    - Messages: the creators write the wire format or report that the buffer
      is full; sending and receiving gives back the data, per kind of
      message; four kinds of packets that the parser mistreats.
    - Checksums form a group, their wire form does not depend on the byte
      order; the bitmap allocates the smallest free identifier; addresses
      are totally ordered.

    ** Bounds and fuel

    Every loop that is not structural has fuel, and running out of it is a
    failure ([None]); since the theorems show that the operations return,
    they show that the fuel is enough.  It is the number of elements of the
    storage for walks ([storageFuel]), of the tree plus two for paths in it
    ([treeFuel]: a path has at most one node per element), the length of the
    packet for the parser (every round consumes at least one byte), the
    bitmap's size, two rounds for folding a checksum, and the length of the
    queue for the requests of the ASAP instance.  The timers of
    elements are handled with twice, those of peers with three times the
    number of running timers: a timer that is started again within a round
    has another code, and there are two and three codes.  The handlers of
    the registrar may end the process where the creation of a packet fails
    (an element that does not fit into 1400 bytes, for example), so that
    [registrar_reachable] is about the handlers that return; the theorems
    about takeovers show that their handlers do.  Unsigned integers
    wrap at their width; counters of objects in memory do not.

    ** Not modelled

    System calls, the creation of threads and the event loop (an event is
    handed to its handler), logging, printing, statistics and status
    reports, the main program of the registrar, the registrar table and the
    configuration of the ASAP instance, the session layer, example programs
    and tests.  An operation of a thread of the ASAP instance up to its wait
    is one step, and what it does after the wait another.  In the messages, clearing and freeing of a
    message. *)

From Stdlib Require Import ZArith Lia.
From stdpp Require Import base list gmap numbers option.

#[global] Open Scope Z_scope.

(** ** Machine integers

    A C unsigned integer of [w] bits is a [Z] in [0 .. 2^w); every
    operation that can leave this range is followed by the [wrap] that the
    C conversion performs. *)

Definition wrap (w z : Z) : Z := z mod 2 ^ w.

Abbreviation u8 := (wrap 8).
Abbreviation u16 := (wrap 16).
Abbreviation u32 := (wrap 32).
Abbreviation u64 := (wrap 64).

Definition in_width (w z : Z) : Prop := 0 <= z < 2 ^ w.

Abbreviation is_u8 := (in_width 8).
Abbreviation is_u16 := (in_width 16).
Abbreviation is_u32 := (in_width 32).
Abbreviation is_u64 := (in_width 64).

#[global] Instance in_width_dec w z : Decision (in_width w z).
Proof. unfold in_width. apply _. Defined.

Lemma wrap_in_width w z : 0 <= w -> in_width w (wrap w z).
Proof. intros Hw. apply Z.mod_pos_bound, Z.pow_pos_nonneg; lia. Qed.

Lemma wrap_small w z : in_width w z -> wrap w z = z.
Proof. apply Z.mod_small. Qed.

Lemma wrap_wrap w z : wrap w (wrap w z) = wrap w z.
Proof. unfold wrap. destruct (decide (2 ^ w = 0)) as [->|]; [by rewrite !Z.mod_0_r|]. by rewrite Z.mod_mod. Qed.

Lemma wrap_add_l w a b : wrap w (wrap w a + b) = wrap w (a + b).
Proof. apply Zplus_mod_idemp_l. Qed.

Lemma wrap_add_r w a b : wrap w (a + wrap w b) = wrap w (a + b).
Proof. apply Zplus_mod_idemp_r. Qed.

Lemma wrap_sub_l w a b : wrap w (wrap w a - b) = wrap w (a - b).
Proof. apply Zminus_mod_idemp_l. Qed.

Lemma wrap_sub_r w a b : wrap w (a - wrap w b) = wrap w (a - b).
Proof. apply Zminus_mod_idemp_r. Qed.

Lemma wrap_sub_add w x a b : wrap w (wrap w x - a + b) = wrap w (x - a + b).
Proof. by rewrite <- wrap_add_l, wrap_sub_l, wrap_add_l. Qed.

Create HintDb wrap discriminated.
Create Rewrite HintDb wrap.
#[export] Hint Rewrite wrap_wrap wrap_add_l wrap_add_r wrap_sub_l wrap_sub_r : wrap.
#[export] Hint Resolve wrap_in_width wrap_small : wrap.

(** Conversion to a 32-bit [int] (two's complement). *)
Definition s32 (z : Z) : Z := let r := u32 z in if r <? 2147483648 then r else r - 4294967296.

Lemma s32_small z : 0 <= z < 2147483648 → s32 z = z.
Proof.
  intros Hz. unfold s32. rewrite wrap_small by (unfold in_width; lia).
  destruct (Z.ltb_spec z 2147483648); lia.
Qed.

(** Number of [x] in [0 .. n) with [f x]. *)
Fixpoint countBelow (f : Z → bool) (n : nat) : Z :=
  match n with
  | O => 0
  | S n' => countBelow f n' + (if f (Z.of_nat n') then 1 else 0)
  end.

Lemma countBelow_ext f g n : (∀ x, 0 <= x < Z.of_nat n → f x = g x) → countBelow f n = countBelow g n.
Proof.
  induction n as [|n IH]; intros Hfg; simpl; [done|].
  rewrite IH, (Hfg (Z.of_nat n)) by (intros; lia || (apply Hfg; lia)). done.
Qed.

Lemma countBelow_bounds f n : 0 <= countBelow f n <= Z.of_nat n.
Proof. induction n; simpl; [lia|]. case_match; lia. Qed.

Lemma countBelow_false n : countBelow (λ _, false) n = 0.
Proof. induction n; simpl; lia. Qed.

Lemma countBelow_set f g id n : 0 <= id < Z.of_nat n → f id = false →
  (∀ x, 0 <= x < Z.of_nat n → g x = (x =? id) || f x) → countBelow g n = countBelow f n + 1.
Proof.
  induction n as [|n IH]; intros Hid Hf Hg; simpl; [lia|].
  rewrite (Hg (Z.of_nat n)) by lia.
  destruct (Z.eqb_spec (Z.of_nat n) id) as [Heq|Hne]; simpl.
  - rewrite (countBelow_ext g f n), Heq, Hf; [lia|].
    intros x Hx. rewrite Hg by lia. destruct (Z.eqb_spec x id); [lia|done].
  - rewrite IH; [lia|lia|done|]. intros x Hx. apply Hg. lia.
Qed.

Lemma countBelow_free f n : countBelow f n < Z.of_nat n → ∃ x, 0 <= x < Z.of_nat n ∧ f x = false.
Proof.
  induction n as [|n IH]; intros Hlt; simpl in *; [lia|].
  destruct (f (Z.of_nat n)) eqn:E.
  - destruct IH as (x & Hx & Hfx); [lia|]. exists x. split; [lia|done].
  - exists (Z.of_nat n). split; [lia|done].
Qed.

Lemma countBelow_full f n x : countBelow f n = Z.of_nat n → 0 <= x < Z.of_nat n → f x = true.
Proof.
  induction n as [|n IH]; intros Hc Hx; simpl in *; [lia|].
  pose proof (countBelow_bounds f n). destruct (f (Z.of_nat n)) eqn:E; [|lia].
  destruct (decide (x = Z.of_nat n)) as [->|]; [done|]. apply IH; lia.
Qed.

(** ** Bytes and host byte order

    The C code reads multi-byte integers from memory in the byte order of
    the host; [little_endian] is that choice, an argument of every
    definition that depends on it. *)

Class Endian := little_endian : bool.

Definition ld16 `{Endian} (b0 b1 : Z) : Z :=
  if little_endian then b0 + 256 * b1 else 256 * b0 + b1.

Definition st16 `{Endian} (z : Z) : list Z :=
  if little_endian then [z mod 256; z / 256 mod 256] else [z / 256 mod 256; z mod 256].

Definition ld32 `{Endian} (b0 b1 b2 b3 : Z) : Z :=
  if little_endian then b0 + 256 * b1 + 65536 * b2 + 16777216 * b3
  else 16777216 * b0 + 65536 * b1 + 256 * b2 + b3.

(** ** Failing, state-passing computations

    [CHECK(cond)] of debug.h aborts the process; reading through a NULL or
    dangling pointer is undefined.  Both are the failure [None] of the
    monad [M], so that a theorem of the form [wp m Q s] states that [m] run
    in [s] neither aborts nor reads an invalid pointer nor runs out of the
    fuel of a loop, and that its result satisfies [Q]. *)

Definition M (S A : Type) : Type := S → option (A * S).

#[global] Instance M_ret S : MRet (M S) := λ A a s, Some (a, s).
#[global] Instance M_bind S : MBind (M S) := λ A B f m s,
  match m s with Some (a, s') => f a s' | None => None end.

Definition get {S} : M S S := λ s, Some (s, s).
Definition put {S} (s : S) : M S () := λ _, Some (tt, s).
Definition modify {S} (f : S → S) : M S () := λ s, Some (tt, f s).
Definition gets {S A} (f : S → A) : M S A := λ s, Some (f s, s).
Definition abort {S A} : M S A := λ _, None.
(** [CHECK(cond)] of debug.h. *)
Definition CHECK {S} (b : bool) : M S () := λ s, if b then Some (tt, s) else None.
(** Dereferencing a pointer: [None] when nothing is stored there. *)
Definition deref {S A} (f : S → option A) : M S A := λ s,
  match f s with Some a => Some (a, s) | None => None end.

Definition wp {S A} (m : M S A) (Q : A → S → Prop) (s : S) : Prop :=
  ∃ a s', m s = Some (a, s') ∧ Q a s'.

Section wp.
Context {S A B : Type}.
Implicit Types (s : S) (m : M S A).

Lemma wp_mono m (Q Q' : A → S → Prop) s :
  wp m Q s → (∀ a s', Q a s' → Q' a s') → wp m Q' s.
Proof. intros (a & s' & Hm & HQ) HQQ. exists a, s'. auto. Qed.

Lemma wp_ret (a : A) (Q : A → S → Prop) s : Q a s → wp (mret a) Q s.
Proof. intros HQ. by exists a, s. Qed.

Lemma wp_bind m (k : A → M S B) (Q : B → S → Prop) s :
  wp m (λ a s', wp (k a) Q s') s → wp (m ≫= k) Q s.
Proof.
    intros (a & s' & Hm & b & s'' & Hk & HQ). exists b, s''. split; [|done].
    unfold mbind, M_bind. by rewrite Hm.
Qed.

Lemma wp_bind_inv m (k : A → M S B) (Q : B → S → Prop) s :
  wp (m ≫= k) Q s → wp m (λ a s', wp (k a) Q s') s.
Proof.
    intros (b & s'' & Hmk & HQ). unfold mbind, M_bind in Hmk.
    destruct (m s) as [[a s']|] eqn:Hm; [|done].
    exists a, s'. split; [done|]. by exists b, s''.
Qed.

Lemma wp_get (Q : S → S → Prop) s : Q s s → wp get Q s.
Proof. intros. by exists s, s. Qed.

Lemma wp_gets (f : S → A) (Q : A → S → Prop) s : Q (f s) s → wp (gets f) Q s.
Proof. intros. by exists (f s), s. Qed.

Lemma wp_put s0 (Q : unit → S → Prop) s : Q tt s0 → wp (put s0) Q s.
Proof. intros. by exists tt, s0. Qed.

Lemma wp_modify (f : S → S) (Q : unit → S → Prop) s : Q tt (f s) → wp (modify f) Q s.
Proof. intros. by exists tt, (f s). Qed.

Lemma wp_check (b : bool) (Q : unit → S → Prop) s : b = true → Q tt s → wp (CHECK b) Q s.
Proof. intros -> ?. by exists tt, s. Qed.

Lemma wp_deref (f : S → option A) a (Q : A → S → Prop) s :
  f s = Some a → Q a s → wp (deref f) Q s.
Proof. intros Hf ?. exists a, s. unfold deref. by rewrite Hf. Qed.

Lemma wp_run m (Q : A → S → Prop) s : wp m Q s → ∃ a s', m s = Some (a, s') ∧ Q a s'.
Proof. done. Qed.
End wp.

(** ** Lists *)

Section lists.
Context {A : Type}.
Implicit Types (l : list A).

Lemma sum_list_with_Permutation_Z (f : A → Z) l1 l2 :
  l1 ≡ₚ l2 → foldr (λ x acc, f x + acc) 0 l1 = foldr (λ x acc, f x + acc) 0 l2.
Proof. induction 1; simpl; lia. Qed.
End lists.

(** ** Comparison results

    C comparison functions return a negative, zero or positive [int];
    the model returns -1, 0 or 1.  [lexcmp] compares two sequences of keys
    lexicographically; on sequences of one length it is [memcmp]. *)

Fixpoint lexcmp (l1 l2 : list Z) : Z :=
  match l1, l2 with
  | [], [] => 0
  | [], _ :: _ => -1
  | _ :: _, [] => 1
  | x :: l1', y :: l2' => if x <? y then -1 else if y <? x then 1 else lexcmp l1' l2'
  end.

Lemma lexcmp_refl l : lexcmp l l = 0.
Proof. induction l as [|x l IH]; simpl; [done|]. by rewrite Z.ltb_irrefl. Qed.

Lemma lexcmp_eq l1 l2 : lexcmp l1 l2 = 0 ↔ l1 = l2.
Proof.
  split; [|intros ->; apply lexcmp_refl].
  revert l2. induction l1 as [|x l1 IH]; intros [|y l2]; simpl; try done.
  destruct (Z.ltb_spec x y), (Z.ltb_spec y x); try done.
  intros Heq. f_equal; [lia|by apply IH].
Qed.

Lemma lexcmp_opp l1 l2 : lexcmp l2 l1 = - lexcmp l1 l2.
Proof.
  revert l2. induction l1 as [|x l1 IH]; intros [|y l2]; simpl; try done.
  destruct (Z.ltb_spec x y), (Z.ltb_spec y x); try done; try lia; apply IH.
Qed.

Lemma lexcmp_trans l1 l2 l3 : lexcmp l1 l2 < 0 → lexcmp l2 l3 < 0 → lexcmp l1 l3 < 0.
Proof.
  revert l2 l3. induction l1 as [|x l1 IH]; intros [|y l2] [|z l3]; simpl; try done.
  destruct (Z.ltb_spec x y), (Z.ltb_spec y x), (Z.ltb_spec y z), (Z.ltb_spec z y),
    (Z.ltb_spec x z), (Z.ltb_spec z x); try lia; try done.
  apply IH.
Qed.

Lemma lexcmp_cases l1 l2 : lexcmp l1 l2 = -1 ∨ lexcmp l1 l2 = 0 ∨ lexcmp l1 l2 = 1.
Proof.
  revert l2. induction l1 as [|x l1 IH]; intros [|y l2]; simpl; auto.
  destruct (x <? y); [auto|]. destruct (y <? x); auto.
Qed.

Lemma lexcmp_app l1 l2 k1 k2 : length l1 = length l2 →
  lexcmp (l1 ++ k1) (l2 ++ k2) = if lexcmp l1 l2 =? 0 then lexcmp k1 k2 else lexcmp l1 l2.
Proof.
  revert l2. induction l1 as [|x l1 IH]; intros [|y l2] Hlen; simpl in *; try done.
  destruct (x <? y); [done|]. destruct (y <? x); [done|]. apply IH. lia.
Qed.

(** The macros of poolpolicy-template_impl.h: compare one key, go on with
    [rest] when it is equal. *)
Definition COMPARE_KEY_ASCENDING (a b rest : Z) : Z :=
  if a <? b then -1 else if b <? a then 1 else rest.

Definition COMPARE_KEY_DESCENDING (a b rest : Z) : Z :=
  if b <? a then -1 else if a <? b then 1 else rest.

Lemma compare_asc_lexcmp a b l1 l2 :
  COMPARE_KEY_ASCENDING a b (lexcmp l1 l2) = lexcmp (a :: l1) (b :: l2).
Proof. done. Qed.

Lemma compare_desc_lexcmp a b l1 l2 :
  COMPARE_KEY_DESCENDING a b (lexcmp l1 l2) = lexcmp (- a :: l1) (- b :: l2).
Proof.
  unfold COMPARE_KEY_DESCENDING. simpl.
  destruct (Z.ltb_spec b a), (Z.ltb_spec a b), (Z.ltb_spec (-a) (-b)), (Z.ltb_spec (-b) (-a)); done || lia.
Qed.

(** ** Running a computation step by step *)

(** A step that is known to run. *)
Lemma wp_step {S A B} (m : M S A) (f : A → M S B) s a s' (Q : B → S → Prop) :
  m s = Some (a, s') → wp (f a) Q s' → wp (m ≫= f) Q s.
Proof. intros Hm HQ. apply wp_bind. exists a, s'. done. Qed.
Lemma run_bind {S A B} (m : M S A) (k : A → M S B) s a s' :
  m s = Some (a, s') → (m ≫= k) s = k a s'.
Proof. intros Hm. unfold mbind, M_bind. by rewrite Hm. Qed.

Lemma run_check {S} (b : bool) (s : S) : b = true → CHECK b s = Some (tt, s).
Proof. by intros ->. Qed.

Lemma wp_eq {S A} (m : M S A) (Q : A → S → Prop) s a s' : m s = Some (a, s') → Q a s' → wp m Q s.
Proof. intros. by exists a, s'. Qed.

(** ** Counting and numbering *)

Lemma nodup_bounded (l : list Z) a b : NoDup l → (∀ x, x ∈ l → a <= x < b) →
  Z.of_nat (length l) <= Z.max 0 (b - a).
Proof.
  intros Hnd Hb.
  assert (length l <= length (seq 0 (Z.to_nat (b - a))))%nat as Hlen; [|rewrite length_seq in Hlen; lia].
  rewrite <- (length_fmap (λ x, Z.to_nat (x - a)) l). apply submseteq_length, NoDup_submseteq.
  - apply NoDup_fmap_2_strong; [|done]. intros x y Hx Hy Heq. pose proof (Hb x Hx). pose proof (Hb y Hy). lia.
  - intros k Hk. apply list_elem_of_fmap in Hk as (x & -> & Hx). specialize (Hb x Hx). apply elem_of_seq. lia.
Qed.

Lemma nodup_fmap_inj_on {A B} (f : A → B) (l : list A) : NoDup l →
  (∀ x y, x ∈ l → y ∈ l → f x = f y → x = y) → NoDup (f <$> l).
Proof. intros Hnd Hinj. by apply NoDup_fmap_2_strong. Qed.

Lemma filter_all {A} (P : A → Prop) `{∀ x, Decision (P x)} l : Forall P l → filter P l = l.
Proof. induction 1 as [|x l Hx Hl IH]; [done|]. by rewrite filter_cons_True, IH. Qed.

Lemma filter_none {A} (P : A → Prop) `{∀ x, Decision (P x)} l : Forall (λ x, ¬ P x) l → filter P l = [].
Proof. induction 1 as [|x l Hx Hl IH]; [done|]. by rewrite filter_cons_False. Qed.

Lemma list_filter_ext_in {A} (P Q : A → Prop) `{∀ x, Decision (P x)} `{∀ x, Decision (Q x)} (l : list A) :
  (∀ x, x ∈ l → P x ↔ Q x) → filter P l = filter Q l.
Proof.
  induction l as [|x l IH]; intros HPQ; [done|]. rewrite !filter_cons, IH by (intros; apply HPQ; by right).
  pose proof (HPQ x ltac:(left)). by do 2 case_decide; try tauto.
Qed.

(** The position of [x] in [l]. *)
Fixpoint position {A} `{EqDecision A} (x : A) (l : list A) : option Z :=
  match l with
  | [] => None
  | y :: l' => if decide (y = x) then Some 0 else Z.succ <$> position x l'
  end.

Lemma position_Some {A} `{EqDecision A} (x : A) l i : position x l = Some i →
  x ∈ l ∧ 0 <= i < Z.of_nat (length l).
Proof.
  revert i. induction l as [|y l IH]; intros i; simpl; [done|].
  destruct (decide (y = x)) as [->|]; [intros [= <-]; split; [left|lia]|].
  intros (j & Hj & ->)%fmap_Some. destruct (IH j Hj) as [Hin Hb]. split; [by right|lia].
Qed.

Lemma position_elem {A} `{EqDecision A} (x : A) l : x ∈ l → ∃ i, position x l = Some i.
Proof.
  induction l as [|y l IH]; intros Hx; [by apply not_elem_of_nil in Hx|]. simpl.
  destruct (decide (y = x)); [eauto|]. apply elem_of_cons in Hx as [->|Hx]; [done|].
  destruct (IH Hx) as [i ->]. eauto.
Qed.

Lemma position_None {A} `{EqDecision A} (x : A) l : x ∉ l → position x l = None.
Proof.
  induction l as [|y l IH]; intros Hx; [done|]. simpl. rewrite elem_of_cons in Hx.
  rewrite decide_False by naive_solver. rewrite IH; naive_solver.
Qed.

Lemma position_snoc {A} `{EqDecision A} (x y : A) l : y ∉ l →
  position x (l ++ [y]) = if decide (x = y) then Some (Z.of_nat (length l)) else position x l.
Proof.
  induction l as [|z l IH]; intros Hy; simpl.
  - by destruct (decide (y = x)), (decide (x = y)); congruence || done.
  - rewrite elem_of_cons in Hy. rewrite IH by naive_solver.
    destruct (decide (z = x)), (decide (x = y)); subst; [naive_solver|done| |done].
    simpl. f_equal. lia.
Qed.

Lemma position_app_lt {A} `{EqDecision A} (x y : A) l1 l2 i j : NoDup (l1 ++ x :: l2) → y ∈ l2 →
  position x (l1 ++ x :: l2) = Some i → position y (l1 ++ x :: l2) = Some j → i < j.
Proof.
  revert i j. induction l1 as [|z l1 IH]; intros i j Hnd Hy; simpl.
  - pose proof (NoDup_cons_1_1 _ _ Hnd) as Hx. rewrite decide_True by done. intros [= <-].
    rewrite decide_False by (intros ->; done). intros (k & Hk & ->)%fmap_Some.
    apply position_Some in Hk. lia.
  - pose proof (NoDup_cons_1_1 _ _ Hnd) as Hz. apply NoDup_cons_1_2 in Hnd. rewrite !decide_False by set_solver.
    intros (i' & Hi & ->)%fmap_Some (j' & Hj & ->)%fmap_Some. specialize (IH i' j' Hnd Hy Hi Hj). lia.
Qed.

Lemma position_inj {A} `{EqDecision A} (x y : A) l i : position x l = Some i → position y l = Some i → x = y.
Proof.
  revert i. induction l as [|z l IH]; intros i; simpl; [done|].
  destruct (decide (z = x)) as [Hzx|], (decide (z = y)) as [Hzy|]; [congruence| | |].
  - intros [= <-] (k & Hp & Hk)%fmap_Some. apply position_Some in Hp. lia.
  - intros (k & Hp & Hk)%fmap_Some [= <-]. apply position_Some in Hp. lia.
  - intros (k & Hk & ->)%fmap_Some (k' & Hk' & Hkk)%fmap_Some. apply Z.succ_inj in Hkk as <-. by eapply IH.
Qed.

Lemma run_seq3 {S A} (m1 m2 m3 : M S ()) (k : M S A) s s' :
  (m1;; m2;; m3) s = Some (tt, s') → (m1;; m2;; m3;; k) s = k s'.
Proof.
  unfold mbind, M_bind. destruct (m1 s) as [[u1 s1]|]; [|done]. destruct (m2 s1) as [[u2 s2]|]; [|done].
  by intros ->.
Qed.

Lemma run_seq2 {S A} (m1 m2 : M S ()) (k : M S A) s s' :
  (m1;; m2) s = Some (tt, s') → (m1;; m2;; k) s = k s'.
Proof. unfold mbind, M_bind. destruct (m1 s) as [[u1 s1]|]; [|done]. by intros ->. Qed.
