(* ===== verification/Checksum.v ===== *)
(** * Handlespace checksum (poolhandlespacechecksum.c)

    A registrar keeps, for its handlespace and for the pool elements it
    owns, the sum of the checksums of the pool elements in a 32-bit
    accumulator, and compares the folded 16-bit form with its peers.  The
    file models the four functions of poolhandlespacechecksum.c and shows
    that the accumulator is an abelian group under [handlespaceChecksumAdd]
    and [handlespaceChecksumSub] (so that adding and removing pool elements
    in any order leaves the same value), that the folding loop ends, what
    it computes, and that the 16 bits put on the wire do not depend on the
    byte order of the host. *)

From S2P Require Import Prelude.
From stdpp Require Import base list numbers.
#[local] Open Scope Z_scope.

Definition HandlespaceChecksumMask : Z := 65535.
Definition INITIAL_HANDLESPACE_CHECKSUM : Z := 0.

Definition handlespaceChecksumAdd (a b : Z) : Z := u32 (a + b).

Definition handlespaceChecksumSub (a b : Z) : Z := u32 (a - b).

(** The loop over [uint16_t]s; a single byte left at the end is copied to
    the first byte of a zeroed [tmp]. *)
Fixpoint handlespaceChecksumCompute `{Endian} (sum : Z) (buffer : list Z) : Z :=
  match buffer with
  | b0 :: b1 :: rest => handlespaceChecksumCompute (u32 (sum + ld16 b0 b1)) rest
  | [b0] => u32 (sum + ld16 b0 0)
  | [] => sum
  end.

(** [while(sum >> 16) sum = (sum & 0xffff) + (sum >> 16)], at most [fuel]
    times. *)
Fixpoint foldCarry (fuel : nat) (sum : Z) : Z :=
  match fuel with
  | O => sum
  | S fuel' =>
    if Z.shiftr sum 16 =? 0 then sum
    else foldCarry fuel' (u32 (Z.land sum HandlespaceChecksumMask + Z.shiftr sum 16))
  end.

Definition handlespaceChecksumFinish (sum : Z) : Z := u16 (Z.lnot (foldCarry 2 sum)).

(** ** The accumulator is a group *)

Lemma checksum_add_comm a b : handlespaceChecksumAdd a b = handlespaceChecksumAdd b a.
Proof. unfold handlespaceChecksumAdd. by rewrite Z.add_comm. Qed.

Lemma checksum_add_assoc a b c :
  handlespaceChecksumAdd a (handlespaceChecksumAdd b c)
  = handlespaceChecksumAdd (handlespaceChecksumAdd a b) c.
Proof. unfold handlespaceChecksumAdd. autorewrite with wrap. by rewrite Z.add_assoc. Qed.

Lemma checksum_add_width a b : is_u32 (handlespaceChecksumAdd a b).
Proof. apply wrap_in_width. lia. Qed.

Lemma checksum_sub_width a b : is_u32 (handlespaceChecksumSub a b).
Proof. apply wrap_in_width. lia. Qed.

Lemma checksum_sub_add a b : is_u32 a →
  handlespaceChecksumSub (handlespaceChecksumAdd a b) b = a.
Proof.
  intros Ha. unfold handlespaceChecksumSub, handlespaceChecksumAdd.
  autorewrite with wrap. rewrite Z.add_simpl_r. by apply wrap_small.
Qed.

Lemma checksum_add_sub a b : is_u32 a →
  handlespaceChecksumAdd (handlespaceChecksumSub a b) b = a.
Proof.
  intros Ha. unfold handlespaceChecksumSub, handlespaceChecksumAdd.
  autorewrite with wrap. rewrite Z.sub_simpl_r. by apply wrap_small.
Qed.

Lemma checksum_add_0_l a : is_u32 a → handlespaceChecksumAdd 0 a = a.
Proof. intros Ha. unfold handlespaceChecksumAdd. by apply wrap_small. Qed.

(** The sum of a list of accumulators, in the order of the list. *)
Definition checksumSum (l : list Z) : Z := foldr handlespaceChecksumAdd 0 l.

Lemma checksumSum_width l : is_u32 (checksumSum l).
Proof. destruct l; simpl; [done|apply checksum_add_width]. Qed.

Lemma checksumSum_app l1 l2 :
  checksumSum (l1 ++ l2) = handlespaceChecksumAdd (checksumSum l1) (checksumSum l2).
Proof.
  induction l1 as [|x l1 IH]; simpl.
  - by rewrite checksum_add_0_l by apply checksumSum_width.
  - by rewrite IH, checksum_add_assoc.
Qed.

#[global] Instance checksumSum_Permutation : Proper ((≡ₚ) ==> (=)) checksumSum.
Proof.
  intros l1 l2 Hp. induction Hp; simpl; [done|by f_equal| |congruence].
  by rewrite !checksum_add_assoc, (checksum_add_comm y x).
Qed.

Lemma checksumSum_fold_left l a : is_u32 a →
  foldl handlespaceChecksumAdd a l = handlespaceChecksumAdd a (checksumSum l).
Proof.
  revert a. induction l as [|x l IH]; intros a Ha; simpl.
  - unfold handlespaceChecksumAdd. rewrite Z.add_0_r. symmetry. by apply wrap_small.
  - rewrite IH by apply checksum_add_width. by rewrite checksum_add_assoc.
Qed.

(** C-claim numbering is in the manifest; the claims of this file follow. *)

Section compute.
Context `{Endian}.

Lemma compute_width sum buf : is_u32 sum → is_u32 (handlespaceChecksumCompute sum buf).
Proof.
  remember (length buf) as n eqn:Hn. assert (length buf <= n)%nat as Hle by lia. clear Hn.
  revert sum buf Hle. induction n as [|n IH]; intros sum [|b0 [|b1 buf]] Hle Hs;
    simpl in *; try lia; auto; try (apply wrap_in_width; lia).
  apply IH; [lia|]. apply wrap_in_width. lia.
Qed.

Lemma compute_additive sum buf : is_u32 sum →
  handlespaceChecksumCompute sum buf
  = handlespaceChecksumAdd sum (handlespaceChecksumCompute 0 buf).
Proof.
  remember (length buf) as n eqn:Hn. assert (length buf <= n)%nat as Hle by lia. clear Hn.
  revert sum buf Hle. induction n as [|n IH]; intros sum [|b0 [|b1 buf]] Hle Hs;
    simpl in *; try lia.
  1,2: unfold handlespaceChecksumAdd; rewrite Z.add_0_r; symmetry; by apply wrap_small.
  - unfold handlespaceChecksumAdd. by rewrite wrap_add_r.
  - rewrite IH by (first [lia | apply wrap_in_width; lia]).
    rewrite (IH (u32 (0 + ld16 b0 b1))) by (first [lia | apply wrap_in_width; lia]).
    rewrite checksum_add_assoc. f_equal. unfold handlespaceChecksumAdd.
    by rewrite wrap_add_r.
Qed.
End compute.

(** ** The folding loop *)

Lemma foldCarry_step s : is_u32 s →
  u32 (Z.land s HandlespaceChecksumMask + Z.shiftr s 16) = s mod 65536 + s / 65536.
Proof.
  intros Hs. unfold HandlespaceChecksumMask, in_width in *.
  change 65535 with (Z.ones 16). rewrite Z.land_ones, Z.shiftr_div_pow2 by lia.
  change (2 ^ 16) with 65536. apply wrap_small. unfold in_width.
  pose proof (Z.mod_pos_bound s 65536). pose proof (Z.div_lt_upper_bound s 65536 65536).
  pose proof (Z.div_pos s 65536). change (2 ^ 32) with 4294967296 in *. lia.
Qed.

Lemma foldCarry_small n s : 0 <= s < 65536 → foldCarry n s = s.
Proof.
  intros Hs. destruct n; simpl; [done|].
  rewrite Z.shiftr_div_pow2, Z.div_small by lia. done.
Qed.

Lemma foldCarry_big n s : is_u32 s → 65536 <= s →
  foldCarry (S n) s = foldCarry n (s mod 65536 + s / 65536).
Proof.
  intros Hs Hb. cbn [foldCarry]. rewrite foldCarry_step by done.
  destruct (Z.eqb_spec (Z.shiftr s 16) 0) as [E|]; [|done].
  rewrite Z.shiftr_div_pow2 in E by lia. change (2 ^ 16) with 65536 in E.
  pose proof (Z.div_le_lower_bound s 65536 1). lia.
Qed.

(** The one's-complement sum that the loop leaves: the representative of
    [s] modulo 65535 in 1..65535, and 0 only for 0. *)
Definition onesFold (s : Z) : Z := if s =? 0 then 0 else (s - 1) mod 65535 + 1.

Lemma onesFold_small s : 0 <= s < 65536 → onesFold s = s.
Proof.
  intros Hs. unfold onesFold. destruct (Z.eqb_spec s 0); [done|].
  rewrite Z.mod_small; lia.
Qed.

Lemma onesFold_carry s : 0 < s → onesFold (s mod 65536 + s / 65536) = onesFold s.
Proof.
  intros Hs. unfold onesFold. pose proof (Z_div_mod_eq_full s 65536) as Hdm.
  pose proof (Z.mod_pos_bound s 65536). pose proof (Z.div_pos s 65536).
  destruct (Z.eqb_spec (s mod 65536 + s / 65536) 0); [lia|].
  destruct (Z.eqb_spec s 0); [lia|]. f_equal.
  replace (s - 1) with (s mod 65536 + s / 65536 - 1 + s / 65536 * 65535) by lia.
  by rewrite Z.mod_add by lia.
Qed.

Lemma foldCarry_fold n s : is_u32 s → (2 <= n)%nat → foldCarry n s = onesFold s.
Proof.
  intros Hs Hn. destruct n as [|[|n]]; [lia|lia|].
  destruct (decide (s < 65536)) as [Hlt|Hge].
  { unfold in_width in Hs. rewrite foldCarry_small, onesFold_small by lia. done. }
  rewrite foldCarry_big by (done || lia).
  rewrite <- onesFold_carry by lia.
  set (t := s mod 65536 + s / 65536).
  assert (0 < t < 131071) as Ht.
  { unfold in_width in Hs. change (2 ^ 32) with 4294967296 in Hs.
    pose proof (Z.mod_pos_bound s 65536). pose proof (Z.div_lt_upper_bound s 65536 65536).
    pose proof (Z.div_le_lower_bound s 65536 1). unfold t. lia. }
  destruct (decide (t < 65536)).
  { by rewrite foldCarry_small, onesFold_small by lia. }
  rewrite foldCarry_big by (unfold in_width; lia).
  rewrite <- (onesFold_carry t) by lia.
  pose proof (Z.mod_pos_bound t 65536). pose proof (Z.div_lt_upper_bound t 65536 2).
  pose proof (Z.div_le_lower_bound t 65536 1).
  assert (t / 65536 = 1) as E by lia. rewrite E.
  pose proof (Z_div_mod_eq_full t 65536).
  by rewrite foldCarry_small, onesFold_small by lia.
Qed.

(** C34: [handlespaceChecksumFinish] ends on every 32-bit accumulator: two
    iterations of its loop leave no carry (more iterations change nothing),
    and the result is the complement of the 16-bit one's-complement sum,
    that is 65535 minus the representative of the accumulator modulo 65535
    in 1..65535 (0 for the accumulator 0). *)
Theorem handlespaceChecksumFinish_spec (sum : Z) : is_u32 sum →
  (∀ n, (2 <= n)%nat → foldCarry n sum = foldCarry 2 sum) ∧
  Z.shiftr (foldCarry 2 sum) 16 = 0 ∧
  handlespaceChecksumFinish sum = 65535 - (if sum =? 0 then 0 else (sum - 1) mod 65535 + 1).
Proof.
  intros Hs. fold (onesFold sum).
  assert (0 <= onesFold sum < 65536) as Hb.
  { unfold onesFold. destruct (Z.eqb_spec sum 0); [lia|].
    pose proof (Z.mod_pos_bound (sum - 1) 65535). lia. }
  repeat split.
  - intros n Hn. by rewrite !foldCarry_fold by (done || lia).
  - rewrite foldCarry_fold, Z.shiftr_div_pow2, Z.div_small by (done || lia). done.
  - unfold handlespaceChecksumFinish, wrap. rewrite foldCarry_fold by (done || lia).
    unfold Z.lnot. change (2 ^ 16) with 65536.
    rewrite <- (Z.mod_add _ 1) by lia. rewrite Z.mod_small; lia.
Qed.

Lemma handlespaceChecksumFinish_spec_witness :
  is_u32 4294967295 ∧ handlespaceChecksumFinish 4294967295 = 0.
Proof.
  assert (is_u32 4294967295) as H by (vm_compute; split; congruence).
  split; [exact H|].
  exact (proj2 (proj2 (handlespaceChecksumFinish_spec 4294967295 H))).
Defined.

(** ** Byte order *)

(** The exact (unbounded) sum of the 16-bit words of a buffer. *)
Fixpoint exactSum `{Endian} (buffer : list Z) : Z :=
  match buffer with
  | b0 :: b1 :: rest => ld16 b0 b1 + exactSum rest
  | [b0] => ld16 b0 0
  | [] => 0
  end.

Lemma exactSum_compute `{Endian} sum buf :
  is_u32 sum → handlespaceChecksumCompute sum buf = u32 (sum + exactSum buf).
Proof.
  remember (length buf) as n eqn:Hn. assert (length buf <= n)%nat as Hle by lia. clear Hn.
  revert sum buf Hle. induction n as [|n IH]; intros sum [|b0 [|b1 buf]] Hle Hs;
    simpl in *; try lia; try done.
  1,2: rewrite Z.add_0_r; symmetry; by apply wrap_small.
  rewrite IH by (first [lia | apply wrap_in_width; lia]).
  rewrite wrap_add_l. f_equal. lia.
Qed.

Lemma exactSum_bound `{Endian} buf : Forall is_u8 buf →
  0 <= exactSum buf <= 65535 * (Z.of_nat (length buf) + 1) / 2.
Proof.
  intros Hb. assert (0 <= exactSum buf ∧ 2 * exactSum buf <= 65535 * (Z.of_nat (length buf) + 1)) as [H1 H2].
  { remember (length buf) as n eqn:Hn. revert buf Hn Hb.
    induction (lt_wf n) as [n _ IH]. intros [|b0 [|b1 buf]] Hn Hb; simpl in *.
    - lia.
    - apply Forall_cons_iff in Hb as [H0 _]. unfold ld16, in_width in *. destruct little_endian; lia.
    - apply Forall_cons_iff in Hb as [H0 Hb]. apply Forall_cons_iff in Hb as [H1 Hb].
      destruct (IH (length buf) ltac:(lia) buf eq_refl Hb).
      unfold ld16, in_width in *. destruct little_endian; lia. }
  split; [done|]. apply Z.div_le_lower_bound; lia.
Qed.

Lemma exactSum_swap buf :
  ∃ k, 256 * exactSum (H:=false) buf = exactSum (H:=true) buf + 65535 * k.
Proof.
  remember (length buf) as n eqn:Hn. revert buf Hn.
  induction (lt_wf n) as [n _ IH]. intros [|b0 [|b1 buf]] Hn; simpl in *.
  - by exists 0.
  - exists b0. unfold ld16, little_endian. lia.
  - destruct (IH (length buf) ltac:(lia) buf eq_refl) as [k Hk].
    exists (b0 + k). unfold ld16, little_endian in *. lia.
Qed.

Lemma onesFold_swap a b k : 0 <= a → 0 <= b → (a = 0 ↔ b = 0) →
  256 * b = a + 65535 * k →
  onesFold a = 256 * (onesFold b mod 256) + onesFold b / 256.
Proof.
  intros Ha Hb Hz Hk. unfold onesFold.
  destruct (Z.eqb_spec a 0) as [->|Ha0]; destruct (Z.eqb_spec b 0) as [->|Hb0]; try (exfalso; lia).
  { done. }
  set (q := (b - 1) mod 65535 + 1).
  assert (1 <= q <= 65535 ∧ b = q + 65535 * ((b - 1) / 65535)) as [Hq Hbq].
  { pose proof (Z.mod_pos_bound (b - 1) 65535). pose proof (Z_div_mod_eq_full (b - 1) 65535).
    unfold q. lia. }
  pose proof (Z_div_mod_eq_full q 256). pose proof (Z.mod_pos_bound q 256).
  pose proof (Z.div_pos q 256). pose proof (Z.div_lt_upper_bound q 256 256).
  replace (a - 1) with ((256 * (q mod 256) + q / 256 - 1) + (q / 256 + 256 * ((b - 1) / 65535) - k) * 65535) by lia.
  rewrite Z.mod_add, Z.mod_small by lia. lia.
Qed.

Lemma exactSum_zero `{Endian} buf : Forall is_u8 buf → exactSum buf = 0 → Forall (λ b, b = 0) buf.
Proof.
  remember (length buf) as n eqn:Hn. revert buf Hn.
  induction (lt_wf n) as [n _ IH]. intros [|b0 [|b1 buf]] Hn Hb H0; simpl in *; [done| |].
  - apply Forall_cons_iff in Hb as [? _]. unfold ld16, in_width in *.
    repeat constructor. destruct little_endian; lia.
  - apply Forall_cons_iff in Hb as [? Hb]. apply Forall_cons_iff in Hb as [? Hb].
    pose proof (exactSum_bound buf Hb). unfold ld16, in_width in *.
    assert (exactSum buf = 0) by (destruct little_endian; lia).
    constructor; [destruct little_endian; lia|]. constructor; [destruct little_endian; lia|].
    apply (IH (length buf)); (done || lia).
Qed.

Lemma exactSum_all_zero `{Endian} buf : Forall (λ b, b = 0) buf → exactSum buf = 0.
Proof.
  remember (length buf) as n eqn:Hn. revert buf Hn.
  induction (lt_wf n) as [n _ IH]. intros [|b0 [|b1 buf]] Hn Hb; simpl in *; [done| |].
  - apply Forall_cons_iff in Hb as [-> _]. unfold ld16. by destruct little_endian.
  - apply Forall_cons_iff in Hb as [-> Hb]. apply Forall_cons_iff in Hb as [-> Hb].
    rewrite (IH (length buf)) by (done || lia). unfold ld16. by destruct little_endian.
Qed.

Lemma finish_bytes (le : Endian) x : 0 <= x < 65536 →
  st16 (u16 (Z.lnot x)) =
  if le then [255 - x mod 256; 255 - x / 256] else [255 - x / 256; 255 - x mod 256].
Proof.
  intros Hx. unfold st16, little_endian.
  pose proof (Z_div_mod_eq_full x 256). pose proof (Z.mod_pos_bound x 256).
  pose proof (Z.div_pos x 256). pose proof (Z.div_lt_upper_bound x 256 256).
  assert (u16 (Z.lnot x) = (255 - x mod 256) + (255 - x / 256) * 256) as ->.
  { unfold wrap, Z.lnot. change (2 ^ 16) with 65536.
    rewrite <- (Z.mod_add _ 1) by lia. rewrite Z.mod_small; lia. }
  rewrite Z.div_add, Z.mod_add, (Z.div_small (255 - x mod 256)), (Z.mod_small (255 - x mod 256)),
    (Z.mod_small (0 + _)) by lia.
  by destruct le.
Qed.

(** C35: the checksum put on the wire does not depend on the byte order of
    the host.  For any buffer of bytes short enough for the 32-bit
    accumulator to stay exact, the two bytes that a little-endian host
    writes for [handlespaceChecksumFinish] of the buffer's sum are those a
    big-endian host writes (the message code copies the 16 bits without
    [htons]). *)
Theorem handlespaceChecksum_wire_endian_independent (buf : list Z) :
  Forall is_u8 buf → Z.of_nat (length buf) <= 131000 →
  st16 (H:=true) (handlespaceChecksumFinish (handlespaceChecksumCompute (H:=true) 0 buf))
  = st16 (H:=false) (handlespaceChecksumFinish (handlespaceChecksumCompute (H:=false) 0 buf)).
Proof.
  intros Hb Hlen.
  assert (∀ le : Endian, is_u32 (exactSum (H:=le) buf)) as Hw.
  { intros le. pose proof (exactSum_bound (H:=le) buf Hb). unfold in_width. split; [lia|].
    pose proof (Z.div_le_upper_bound (65535 * (Z.of_nat (length buf) + 1)) 2 4292640000).
    lia. }
  rewrite !exactSum_compute by done. rewrite !Z.add_0_l, !wrap_small by done.
  unfold handlespaceChecksumFinish. rewrite !foldCarry_fold by (done || lia).
  pose proof (Hw true). pose proof (Hw false). destruct (exactSum_swap buf) as [k Hk].
  assert (exactSum (H:=true) buf = 0 ↔ exactSum (H:=false) buf = 0) as Hz.
  { split; intros E; apply exactSum_zero in E; try done; by apply exactSum_all_zero. }
  assert (∀ le : Endian, 0 <= onesFold (exactSum (H:=le) buf) < 65536) as Hf.
  { intros le. pose proof (Hw le). unfold onesFold, in_width in *. case_match; [lia|].
    pose proof (Z.mod_pos_bound (exactSum (H:=le) buf - 1) 65535). lia. }
  pose proof (onesFold_swap _ _ k (proj1 (Hw true)) (proj1 (Hw false)) Hz Hk) as Hs.
  rewrite !finish_bytes by apply Hf. rewrite Hs.
  set (q := onesFold (exactSum (H:=false) buf)). pose proof (Hf false) as Hq. fold q in Hq.
  pose proof (Z.mod_pos_bound q 256). pose proof (Z.div_pos q 256). pose proof (Z.div_lt_upper_bound q 256 256).
  replace (256 * (q mod 256) + q / 256) with (q / 256 + q mod 256 * 256) by lia.
  rewrite Z.mod_add, Z.div_add, (Z.mod_small (q / 256)), (Z.div_small (q / 256)) by lia.
  simpl. done.
Qed.

Lemma handlespaceChecksum_wire_endian_independent_witness :
  st16 (H:=true) (handlespaceChecksumFinish (handlespaceChecksumCompute (H:=true) 0 [1; 2; 200; 7; 9]))
  = st16 (H:=false) (handlespaceChecksumFinish (handlespaceChecksumCompute (H:=false) 0 [1; 2; 200; 7; 9])).
Proof.
  apply handlespaceChecksum_wire_endian_independent; [|vm_compute; congruence].
  repeat (apply Forall_cons_iff; split; [split; vm_compute; congruence|]). constructor.
Defined.
