(* ===== verification/IdBitmap.v ===== *)
(** * Identifier bitmap (identifierbitmap.c)

    The allocator of small integer identifiers that the socket layer uses
    for its descriptors: a bitmap of 64-bit words ([unsigned long] on LP64
    hosts) with the number of entries and of free entries.  The set of
    allocated identifiers, [isAllocated], is the abstract state; the
    theorems state what each operation does to it, that the smallest free
    identifier is allocated, and that no operation reads outside of the
    bitmap or fails a [CHECK] on a well-formed bitmap. *)

From S2P Require Import Prelude.
From stdpp Require Import base list numbers option.
#[local] Open Scope Z_scope.

Definition IdentifierBitmapSlotsize : Z := 64.
Definition allOnes : Z := 18446744073709551615.

Record IdentifierBitmap := MkIdentifierBitmap {
  Entries : Z;
  Available : Z;
  Slots : Z;
  Bitmap : list Z
}.

Definition setBitmap (b : IdentifierBitmap) (i w a : Z) : IdentifierBitmap :=
  {| Entries := Entries b; Available := a; Slots := Slots b;
     Bitmap := <[Z.to_nat i := w]> (Bitmap b) |}.

(** [malloc_ok] is whether [malloc] succeeded; [None] is the NULL that is
    returned when it did not. *)
Definition identifierBitmapNew (malloc_ok : bool) (entries : Z) : option IdentifierBitmap :=
  let slots := (entries + (IdentifierBitmapSlotsize - entries mod IdentifierBitmapSlotsize))
                 / IdentifierBitmapSlotsize in
  if malloc_ok then
    Some {| Entries := entries; Available := entries; Slots := slots;
            Bitmap := replicate (Z.to_nat (slots + 1)) 0 |}
  else None.

Definition word (i : Z) : M IdentifierBitmap Z := deref (λ b, Bitmap b !! Z.to_nat i).

(** [while(Bitmap[i] == ~((size_t)0)) i++], at most [fuel] times. *)
Fixpoint skipFullSlots (fuel : nat) (i : Z) : M IdentifierBitmap Z :=
  match fuel with
  | O => abort
  | S fuel' => w ← word i; if w =? allOnes then skipFullSlots fuel' (u32 (i + 1)) else mret i
  end.

(** [while((j < 64) && (id < (int)Entries) && (Bitmap[i] & (1UL << j))) { j++; id++; }]. *)
Fixpoint skipSetBits (fuel : nat) (i j id : Z) : M IdentifierBitmap (Z * Z) :=
  match fuel with
  | O => abort
  | S fuel' =>
    b ← get;
    if j <? IdentifierBitmapSlotsize then
      if id <? s32 (Entries b) then
        w ← word i;
        if negb (Z.land w (Z.shiftl 1 j) =? 0) then skipSetBits fuel' i (u32 (j + 1)) (id + 1)
        else mret (j, id)
      else mret (j, id)
    else mret (j, id)
  end.

Definition identifierBitmapAllocateID : M IdentifierBitmap Z :=
  b ← get;
  if 0 <? Available b then
    i ← skipFullSlots (length (Bitmap b)) 0;
    '(j, id) ← skipSetBits 65 i 0 (s32 (i * IdentifierBitmapSlotsize));
    CHECK (id <? s32 (Entries b));;
    w ← word i;
    put (setBitmap b i (Z.lor w (Z.shiftl 1 j)) (Available b - 1));;
    mret id
  else mret (-1).

Definition identifierBitmapAllocateSpecificID (id : Z) : M IdentifierBitmap Z :=
  b ← get;
  CHECK ((0 <=? id) && (id <? s32 (Entries b)));;
  let i := id / IdentifierBitmapSlotsize in
  let j := id mod IdentifierBitmapSlotsize in
  w ← word i;
  if negb (Z.land w (Z.shiftl 1 j) =? 0) then mret (-1)
  else put (setBitmap b i (Z.lor w (Z.shiftl 1 j)) (Available b - 1));; mret id.

Definition identifierBitmapFreeID (id : Z) : M IdentifierBitmap () :=
  b ← get;
  CHECK ((0 <=? id) && (id <? s32 (Entries b)));;
  let i := id / IdentifierBitmapSlotsize in
  let j := id mod IdentifierBitmapSlotsize in
  w ← word i;
  CHECK (negb (Z.land w (Z.shiftl 1 j) =? 0));;
  put (setBitmap b i (Z.land w (u64 (Z.lnot (Z.shiftl 1 j)))) (Available b + 1)).

(** ** The abstract state and the invariant *)

Definition isAllocated (b : IdentifierBitmap) (id : Z) : bool :=
  match Bitmap b !! Z.to_nat (id / IdentifierBitmapSlotsize) with
  | Some w => Z.testbit w (id mod IdentifierBitmapSlotsize)
  | None => false
  end.

Record bitmap_wf (b : IdentifierBitmap) : Prop := {
  wf_entries : 0 <= Entries b < 2147483648;
  wf_slots : Slots b = Entries b / IdentifierBitmapSlotsize + 1;
  wf_length : Z.of_nat (length (Bitmap b)) = Slots b + 1;
  wf_words : Forall is_u64 (Bitmap b);
  wf_range : ∀ id, 0 <= id → isAllocated b id = true → id < Entries b;
  wf_available : Available b = Entries b - countBelow (isAllocated b) (Z.to_nat (Entries b))
}.

Lemma land_bit_spec w j : 0 <= j → negb (Z.land w (Z.shiftl 1 j) =? 0) = Z.testbit w j.
Proof.
  intros Hj. rewrite Z.shiftl_1_l. destruct (Z.testbit w j) eqn:E.
  - destruct (Z.eqb_spec (Z.land w (2 ^ j)) 0) as [H|]; [|done].
    assert (Z.testbit (Z.land w (2 ^ j)) j = true) as H'.
    { by rewrite Z.land_spec, E, Z.pow2_bits_true. }
    rewrite H, Z.bits_0 in H'. done.
  - destruct (Z.eqb_spec (Z.land w (2 ^ j)) 0) as [|H]; [done|]. exfalso. apply H.
    apply Z.bits_inj'. intros n Hn. rewrite Z.land_spec, Z.bits_0, Z.pow2_bits_eqb by lia.
    destruct (Z.eqb_spec j n) as [->|]; [by rewrite E|by rewrite andb_false_r].
Qed.

Lemma word_spec b i (Q : Z → IdentifierBitmap → Prop) :
  0 <= i < Z.of_nat (length (Bitmap b)) →
  (∀ w, Bitmap b !! Z.to_nat i = Some w → Q w b) → wp (word i) Q b.
Proof.
  intros Hi HQ. destruct (lookup_lt_is_Some_2 (Bitmap b) (Z.to_nat i)) as [w Hw]; [lia|].
  eapply wp_deref; [exact Hw|]. by apply HQ.
Qed.

Lemma testbit_high w n : is_u64 w → 64 <= n → Z.testbit w n = false.
Proof.
  intros [Hw1 Hw2] Hn. destruct (decide (w = 0)) as [->|]; [apply Z.bits_0|].
  apply Z.bits_above_log2; [done|]. apply Z.log2_lt_pow2; [lia|].
  eapply Z.lt_le_trans; [exact Hw2|]. apply Z.pow_le_mono_r; lia.
Qed.

Lemma lor_bit_width w j : is_u64 w → 0 <= j < 64 → is_u64 (Z.lor w (Z.shiftl 1 j)).
Proof.
  intros Hw Hj. destruct Hw as [Hw1 Hw2]. rewrite Z.shiftl_1_l.
  assert (0 <= Z.lor w (2 ^ j)) by (apply Z.lor_nonneg; split; [lia|apply Z.pow_nonneg; lia]).
  split; [done|]. destruct (decide (Z.lor w (2 ^ j) = 0)) as [->|]; [done|].
  apply Z.log2_lt_cancel. rewrite Z.log2_pow2 by lia. rewrite Z.log2_lor by lia || (apply Z.pow_nonneg; lia).
  rewrite Z.log2_pow2 by lia. destruct (decide (w = 0)) as [->|].
  - rewrite Z.log2_nonpos by lia. lia.
  - assert (Z.log2 w < 64) by (apply Z.log2_lt_pow2; lia). lia.
Qed.

Lemma land_width w m : is_u64 w → is_u64 m → is_u64 (Z.land w m).
Proof.
  intros [Hw1 Hw2] [Hm1 Hm2]. assert (0 <= Z.land w m) by (apply Z.land_nonneg; lia).
  split; [done|]. destruct (decide (Z.land w m = 0)) as [->|]; [done|].
  apply Z.log2_lt_cancel. pose proof (Z.log2_land w m Hw1 Hm1) as Hl.
  destruct (decide (w = 0)) as [->|]; [by rewrite Z.land_0_l in *|].
  assert (Z.log2 w < 64) by (apply Z.log2_lt_pow2; lia). rewrite Z.log2_pow2 by lia. lia.
Qed.

Lemma slot_index b id : bitmap_wf b → 0 <= id <= Entries b →
  0 <= id / IdentifierBitmapSlotsize < Z.of_nat (length (Bitmap b)).
Proof.
  intros Hwf Hid. rewrite (wf_length b Hwf), (wf_slots b Hwf). unfold IdentifierBitmapSlotsize in *.
  split; [apply Z.div_pos; lia|]. pose proof (Z.div_le_mono id (Entries b) 64). lia.
Qed.

(** Setting or clearing one bit changes [isAllocated] at one identifier. *)
Lemma isAllocated_update b i j w w' a (v : bool) :
  0 <= i → 0 <= j < 64 → Bitmap b !! Z.to_nat i = Some w →
  (∀ n, 0 <= n < 64 → Z.testbit w' n = if n =? j then v else Z.testbit w n) →
  ∀ x, 0 <= x →
  isAllocated (setBitmap b i w' a) x = if x =? i * 64 + j then v else isAllocated b x.
Proof.
  intros Hi Hj Hw Hbits x Hx. unfold isAllocated, setBitmap, IdentifierBitmapSlotsize. simpl.
  pose proof (Z_div_mod_eq_full x 64). pose proof (Z.mod_pos_bound x 64). pose proof (Z.div_pos x 64).
  apply lookup_lt_Some in Hw as Hlt.
  destruct (decide (x / 64 = i)) as [E|E].
  - rewrite E, list_lookup_insert_eq by done. rewrite Hbits, Hw by lia.
    destruct (Z.eqb_spec (x mod 64) j), (Z.eqb_spec x (i * 64 + j)); (done || lia).
  - rewrite list_lookup_insert_ne by lia.
    destruct (Z.eqb_spec x (i * 64 + j)) as [E'|]; [|done].
    exfalso. apply E. rewrite E', Z.add_comm, Z.div_add, Z.div_small by lia. lia.
Qed.

Lemma testbit_lor_bit w j n : 0 <= j → 0 <= n →
  Z.testbit (Z.lor w (Z.shiftl 1 j)) n = if n =? j then true else Z.testbit w n.
Proof.
  intros. rewrite Z.shiftl_1_l, Z.lor_spec, Z.pow2_bits_eqb by lia.
  rewrite (Z.eqb_sym j n). destruct (n =? j); [apply orb_true_r|apply orb_false_r].
Qed.

Lemma testbit_clear_bit w j n : 0 <= j → 0 <= n < 64 →
  Z.testbit (Z.land w (u64 (Z.lnot (Z.shiftl 1 j)))) n = if n =? j then false else Z.testbit w n.
Proof.
  intros. unfold wrap. rewrite Z.shiftl_1_l, Z.land_spec, Z.mod_pow2_bits_low by lia.
  rewrite Z.lnot_spec, Z.pow2_bits_eqb by lia.
  rewrite (Z.eqb_sym j n). destruct (n =? j); simpl; [apply andb_false_r|apply andb_true_r].
Qed.

(** One step of [isAllocated] that keeps the bitmap well-formed. *)
Lemma bitmap_update_wf b id w w' a (v : bool) :
  bitmap_wf b → 0 <= id < Entries b →
  Bitmap b !! Z.to_nat (id / 64) = Some w → is_u64 w' →
  (∀ n, 0 <= n < 64 → Z.testbit w' n = if n =? id mod 64 then v else Z.testbit w n) →
  isAllocated b id = negb v → a = Available b + (if v then -1 else 1) →
  bitmap_wf (setBitmap b (id / 64) w' a) ∧
  ∀ x, 0 <= x → isAllocated (setBitmap b (id / 64) w' a) x = if x =? id then v else isAllocated b x.
Proof.
  intros Hwf Hid Hw Hw' Hbits Hid' Ha.
  pose proof (Z_div_mod_eq_full id 64). pose proof (Z.mod_pos_bound id 64).
  pose proof (Z.div_pos id 64).
  assert (∀ x, 0 <= x →
    isAllocated (setBitmap b (id / 64) w' a) x = if x =? id then v else isAllocated b x) as Hupd.
  { intros x Hx. rewrite (isAllocated_update b (id / 64) (id mod 64) w w' a v); try lia; try done.
    replace (id / 64 * 64 + id mod 64) with id by lia. done. }
  split; [|exact Hupd]. split; simpl.
  - apply Hwf.
  - apply Hwf.
  - rewrite length_insert. apply Hwf.
  - apply Forall_insert; [apply Hwf|done].
  - intros x Hx Hal. rewrite Hupd in Hal by done.
    destruct (Z.eqb_spec x id); [lia|]. by apply (wf_range b).
  - pose proof (wf_available b Hwf). set (b' := setBitmap b (id / 64) w' a) in *.
    destruct v; simpl in Hid'.
    + rewrite (countBelow_set (isAllocated b) (isAllocated b') id); [lia|lia|done|].
      intros x Hx. rewrite Hupd by lia. by destruct (x =? id).
    + assert (countBelow (isAllocated b) (Z.to_nat (Entries b))
        = countBelow (isAllocated b') (Z.to_nat (Entries b)) + 1); [|lia].
      apply (countBelow_set _ _ id); [lia| |].
      * rewrite Hupd, Z.eqb_refl by lia. done.
      * intros x Hx. rewrite Hupd by lia. by destruct (Z.eqb_spec x id) as [->|].
Qed.

Lemma isAllocated_bit b id w : 0 <= id →
  Bitmap b !! Z.to_nat (id / 64) = Some w → isAllocated b id = Z.testbit w (id mod 64).
Proof. intros ? Hw. unfold isAllocated, IdentifierBitmapSlotsize. by rewrite Hw. Qed.

Lemma bitmap_word_width b i w : bitmap_wf b → Bitmap b !! i = Some w → is_u64 w.
Proof. intros Hwf Hw. eapply Forall_lookup_1; [apply (wf_words b Hwf)|done]. Qed.

(** A word that is not all ones has a clear bit, and one that is has none. *)
Lemma allOnes_bits w : is_u64 w → (w = allOnes ↔ ∀ n, 0 <= n < 64 → Z.testbit w n = true).
Proof.
  intros Hw. change allOnes with (Z.ones 64). split.
  - intros -> n Hn. apply Z.ones_spec_low. lia.
  - intros Hall. apply Z.bits_inj'. intros n Hn. destruct (decide (n < 64)).
    + rewrite Hall, Z.ones_spec_low by lia. done.
    + rewrite testbit_high, Z.ones_spec_high by (done || lia). done.
Qed.

Lemma clear_bit_exists w : is_u64 w → w ≠ allOnes → ∃ n, 0 <= n < 64 ∧ Z.testbit w n = false.
Proof.
  intros Hw Ho. pose proof (countBelow_bounds (Z.testbit w) 64).
  destruct (decide (countBelow (Z.testbit w) 64 = 64)) as [E|].
  - exfalso. apply Ho, allOnes_bits; [done|]. intros n Hn. by apply (countBelow_full _ 64).
  - destruct (countBelow_free (Z.testbit w) 64) as (m & Hm & Hb); [lia|]. by exists m.
Qed.

(** The slot loop stops at the first slot with a clear bit. *)
Lemma skipFullSlots_spec b fuel i f (Q : Z → IdentifierBitmap → Prop) :
  bitmap_wf b → 0 <= i <= f / 64 → 0 <= f < Entries b → isAllocated b f = false →
  (∀ x, 0 <= x < i * 64 → isAllocated b x = true) →
  f / 64 - i < Z.of_nat fuel →
  (∀ i' w, i <= i' <= f / 64 → Bitmap b !! Z.to_nat i' = Some w → w ≠ allOnes →
     (∀ x, 0 <= x < i' * 64 → isAllocated b x = true) → Q i' b) →
  wp (skipFullSlots fuel i) Q b.
Proof.
  intros Hwf. revert i. induction fuel as [|fuel IH]; intros i Hi Hf Hff Hall Hfuel HQ; [lia|].
  pose proof (slot_index b f Hwf ltac:(lia)) as Hidx. unfold IdentifierBitmapSlotsize in Hidx.
  cbn [skipFullSlots]. apply wp_bind, word_spec; [lia|]. intros w Hw.
  pose proof (bitmap_word_width b _ w Hwf Hw) as Hww.
  destruct (Z.eqb_spec w allOnes) as [Eo|Eo].
  - assert (∀ x, 0 <= x < (i + 1) * 64 → isAllocated b x = true) as Hall'.
    { intros x Hx. destruct (decide (x < i * 64)); [apply Hall; lia|].
      assert (x / 64 = i) as Ex by (symmetry; apply (Z.div_unique x 64 i (x - i * 64)); lia).
      rewrite (isAllocated_bit b x w) by (lia || by rewrite Ex).
      apply (allOnes_bits w Hww); [done|]. apply Z.mod_pos_bound. lia. }
    assert (i < f / 64).
    { destruct (decide (i = f / 64)) as [->|]; [|lia].
      rewrite Hall' in Hff; [done|]. pose proof (Z_div_mod_eq_full f 64).
      pose proof (Z.mod_pos_bound f 64). lia. }
    pose proof (wf_entries b Hwf). pose proof (Z.div_le_upper_bound f 64 f).
    rewrite wrap_small by (unfold in_width; lia).
    apply IH; try done; try lia. intros i' w' Hi' Hw' Ho' Hal'. apply (HQ i' w'); (done || lia).
  - apply wp_ret. apply (HQ i w); (done || lia).
Qed.

(** The bit loop stops at the first clear bit of a slot that has one. *)
Lemma skipSetBits_spec b fuel i j w (Q : Z * Z → IdentifierBitmap → Prop) f :
  bitmap_wf b → 0 <= i → Bitmap b !! Z.to_nat i = Some w →
  0 <= j <= f → f < 64 → Z.testbit w f = false →
  (∀ n, 0 <= n < j → Z.testbit w n = true) →
  i * 64 + f < Entries b → f - j < Z.of_nat fuel →
  (∀ j', 0 <= j' <= f → Z.testbit w j' = false → (∀ n, 0 <= n < j' → Z.testbit w n = true) →
     Q (j', i * 64 + j') b) →
  wp (skipSetBits fuel i j (i * 64 + j)) Q b.
Proof.
  intros Hwf Hi Hw. revert j. induction fuel as [|fuel IH]; intros j Hj Hf Hbit Hall Hlt Hfuel HQ; [lia|].
  cbn [skipSetBits]. apply wp_bind, wp_get. pose proof (wf_entries b Hwf).
  rewrite s32_small by lia. unfold IdentifierBitmapSlotsize.
  destruct (Z.ltb_spec j 64); [|lia]. destruct (Z.ltb_spec (i * 64 + j) (Entries b)); [|lia].
  apply wp_bind. eapply wp_deref; [exact Hw|]. rewrite land_bit_spec by lia.
  destruct (Z.testbit w j) eqn:Ej.
  - assert (j ≠ f) by congruence.
    rewrite wrap_small by (unfold in_width; lia). rewrite <- Z.add_assoc.
    apply IH; try done; try lia. intros n Hn. destruct (decide (n = j)) as [->|]; [done|].
    apply Hall. lia.
  - apply wp_ret. apply HQ; (done || lia).
Qed.

Lemma identifierBitmapNew_wf entries : 0 <= entries < 2147483648 →
  ∃ b, identifierBitmapNew true entries = Some b ∧ bitmap_wf b ∧ Entries b = entries ∧
       ∀ id, isAllocated b id = false.
Proof.
  intros He. eexists. split; [reflexivity|].
  assert ((entries + (64 - entries mod 64)) / 64 = entries / 64 + 1) as Hs.
  { pose proof (Z_div_mod_eq_full entries 64).
    replace (entries + (64 - entries mod 64)) with ((entries / 64 + 1) * 64) by lia.
    by rewrite Z.div_mul by lia. }
  match goal with |- bitmap_wf ?b ∧ _ => assert (∀ id, isAllocated b id = false) as Hfree end.
  { intros id. unfold isAllocated. simpl.
    destruct (replicate _ _ !! _) as [w|] eqn:E; [|done].
    apply lookup_replicate in E as [-> _]. apply Z.bits_0. }
  split; [|split; [done|exact Hfree]].
  pose proof (Z.div_pos entries 64). split; simpl; unfold IdentifierBitmapSlotsize; try lia.
  - rewrite length_replicate. lia.
  - apply Forall_replicate. unfold in_width. lia.
  - intros id _ Hal. by rewrite Hfree in Hal.
  - rewrite (countBelow_ext _ (λ _, false)), countBelow_false by (intros; apply Hfree). lia.
Qed.

(** C36: on a well-formed bitmap [identifierBitmapAllocateID] neither fails
    its [CHECK] nor reads outside of the bitmap; it returns -1 and changes
    nothing exactly when every identifier is allocated, and otherwise
    returns the smallest free identifier, which becomes the only one whose
    state changes; the bitmap stays well-formed and [Available] is one
    lower. *)
Theorem identifierBitmapAllocateID_spec (b : IdentifierBitmap) : bitmap_wf b →
  wp identifierBitmapAllocateID (λ id b',
    (id = -1 ∧ b' = b ∧ ∀ x, 0 <= x < Entries b → isAllocated b x = true) ∨
    (0 <= id < Entries b ∧ isAllocated b id = false ∧
     (∀ x, 0 <= x < id → isAllocated b x = true) ∧
     bitmap_wf b' ∧ Available b' = Available b - 1 ∧
     ∀ x, 0 <= x → isAllocated b' x = if x =? id then true else isAllocated b x)) b.
Proof.
  intros Hwf. unfold identifierBitmapAllocateID. apply wp_bind, wp_get.
  pose proof (wf_available b Hwf) as Hav. pose proof (wf_entries b Hwf) as He.
  destruct (Z.ltb_spec 0 (Available b)) as [Hpos|Hzero].
  2: { apply wp_ret. left. split; [done|]. split; [done|]. intros x Hx.
       pose proof (countBelow_bounds (isAllocated b) (Z.to_nat (Entries b))).
       apply (countBelow_full _ (Z.to_nat (Entries b))); lia. }
  destruct (countBelow_free (isAllocated b) (Z.to_nat (Entries b))) as (f & Hf & Hff); [lia|].
  pose proof (slot_index b f Hwf ltac:(lia)) as Hidx. unfold IdentifierBitmapSlotsize in *.
  apply wp_bind. apply (skipFullSlots_spec b _ 0 f); try done; try lia.
  intros i w Hi Hw Hones Hbelow.
  pose proof (bitmap_word_width b _ w Hwf Hw) as Hww.
  assert (∃ n, 0 <= n < 64 ∧ Z.testbit w n = false ∧ i * 64 + n < Entries b) as (n & Hn & Hbn & Hin).
  { destruct (decide (i = f / 64)) as [->|].
    - exists (f mod 64). pose proof (Z.mod_pos_bound f 64). pose proof (Z_div_mod_eq_full f 64).
      split; [lia|]. split; [|lia]. by rewrite <- (isAllocated_bit b f w) by (done || lia).
    - destruct (clear_bit_exists w Hww Hones) as (m & Hm & Hb). exists m.
      pose proof (Z_div_mod_eq_full f 64). pose proof (Z.mod_pos_bound f 64).
      split; [done|]. split; [done|]. lia. }
  pose proof (Z_div_mod_eq_full f 64). pose proof (Z.mod_pos_bound f 64).
  apply wp_bind. rewrite s32_small by lia. rewrite <- (Z.add_0_r (i * 64)) at 1.
  apply (skipSetBits_spec b _ i 0 w _ n); try done; try lia.
  intros j Hj Hbj Hjall. set (id := i * 64 + j).
  assert (id / 64 = i ∧ id mod 64 = j) as [Ei Ej].
  { split; [symmetry; apply (Z.div_unique id 64 i j)|symmetry; apply (Z.mod_unique id 64 i j)]; unfold id; lia. }
  apply wp_bind, wp_check.
  { apply Z.ltb_lt. rewrite s32_small; unfold id; lia. }
  apply wp_bind. eapply wp_deref; [exact Hw|]. apply wp_bind, wp_put, wp_ret. right.
  assert (isAllocated b id = false) as Hidf.
  { rewrite (isAllocated_bit b id w) by ((unfold id; lia) || by rewrite Ei). by rewrite Ej. }
  destruct (bitmap_update_wf b id w (Z.lor w (Z.shiftl 1 j)) (Available b - 1) true) as [Hwf' Hupd];
    try done.
  { unfold id. lia. } { by rewrite Ei. } { apply lor_bit_width; [done|lia]. }
  { intros m Hm. rewrite Ej. apply testbit_lor_bit; lia. }
  rewrite Ei in Hwf', Hupd. split; [unfold id; lia|]. split; [done|]. split; [|done].
  intros x Hx. destruct (decide (x < i * 64)); [apply Hbelow; lia|].
  assert (x / 64 = i) as Ex by (symmetry; apply (Z.div_unique x 64 i (x - i * 64)); unfold id in Hx; lia).
  rewrite (isAllocated_bit b x w) by (lia || by rewrite Ex). apply Hjall.
  pose proof (Z_div_mod_eq_full x 64). unfold id in Hx. pose proof (Z.mod_pos_bound x 64). lia.
Qed.

Definition exampleBitmap : IdentifierBitmap :=
  {| Entries := 70; Available := 69; Slots := 2; Bitmap := [1; 0; 0] |}.

Lemma exampleBitmap_wf : bitmap_wf exampleBitmap.
Proof.
  assert (∀ id, 0 <= id → isAllocated exampleBitmap id = (id =? 0)) as Hal.
  { intros id Hid. unfold isAllocated, IdentifierBitmapSlotsize. simpl.
    pose proof (Z_div_mod_eq_full id 64). pose proof (Z.mod_pos_bound id 64). pose proof (Z.div_pos id 64).
    destruct (Z.to_nat (id / 64)) as [|[|[|n]]] eqn:E; simpl.
    - destruct (id mod 64) eqn:E'; [|by destruct (Z.eqb_spec id 0); try lia|lia].
      destruct (Z.eqb_spec id 0); [done|lia].
    - rewrite Z.bits_0. destruct (Z.eqb_spec id 0); [lia|done].
    - rewrite Z.bits_0. destruct (Z.eqb_spec id 0); [lia|done].
    - destruct (Z.eqb_spec id 0); [lia|done]. }
  split; try done.
  - repeat (constructor; [vm_compute; split; congruence|]). constructor.
  - intros id Hid Ha. rewrite Hal in Ha by done. simpl. apply Z.eqb_eq in Ha. lia.
Defined.

Lemma identifierBitmapAllocateID_spec_witness :
  wp identifierBitmapAllocateID (λ id b',
    (id = -1 ∧ b' = exampleBitmap ∧ ∀ x, 0 <= x < 70 → isAllocated exampleBitmap x = true) ∨
    (0 <= id < 70 ∧ isAllocated exampleBitmap id = false ∧
     (∀ x, 0 <= x < id → isAllocated exampleBitmap x = true) ∧
     bitmap_wf b' ∧ Available b' = Available exampleBitmap - 1 ∧
     ∀ x, 0 <= x → isAllocated b' x = if x =? id then true else isAllocated exampleBitmap x)) exampleBitmap.
Proof. apply (identifierBitmapAllocateID_spec exampleBitmap). apply exampleBitmap_wf. Defined.

(** [identifierBitmapFreeID] undoes [identifierBitmapAllocateSpecificID]:
    allocating a free identifier of a well-formed bitmap succeeds, keeps the
    bitmap well-formed and marks exactly that identifier; freeing it again
    succeeds and restores the allocation state of every identifier and the
    number of available ones. *)
Theorem identifierBitmap_allocate_free (b : IdentifierBitmap) (id : Z) :
  bitmap_wf b → 0 <= id < Entries b → isAllocated b id = false →
  wp (identifierBitmapAllocateSpecificID id) (λ r b1,
    r = id ∧ bitmap_wf b1 ∧ Available b1 = Available b - 1 ∧
    (∀ x, 0 <= x → isAllocated b1 x = if x =? id then true else isAllocated b x) ∧
    wp (identifierBitmapAllocateSpecificID id) (λ r' b1', r' = -1 ∧ b1' = b1) b1 ∧
    wp (identifierBitmapFreeID id) (λ _ b2,
      bitmap_wf b2 ∧ Available b2 = Available b ∧
      ∀ x, 0 <= x → isAllocated b2 x = isAllocated b x) b1) b.
Proof.
  intros Hwf Hid Hfree. pose proof (wf_entries b Hwf) as He.
  pose proof (Z.mod_pos_bound id 64). pose proof (Z.div_pos id 64).
  assert (∀ b', bitmap_wf b' → Entries b' = Entries b → ∃ w,
    Bitmap b' !! Z.to_nat (id / 64) = Some w ∧ isAllocated b' id = Z.testbit w (id mod 64) ∧ is_u64 w) as Hword.
  { intros b' Hwf' HE. pose proof (slot_index b' id Hwf' ltac:(lia)) as Hi.
    destruct (lookup_lt_is_Some_2 (Bitmap b') (Z.to_nat (id / 64))) as [w Hw]; [unfold IdentifierBitmapSlotsize in Hi; lia|].
    exists w. split; [done|]. split; [apply isAllocated_bit; (lia || done)|by eapply bitmap_word_width]. }
  assert ((0 <=? id) && (id <? s32 (Entries b)) = true) as Hchk.
  { rewrite s32_small by lia. apply andb_true_iff. split; [apply Z.leb_le; lia|apply Z.ltb_lt; lia]. }
  destruct (Hword b Hwf eq_refl) as (w & Hw & Hbit & Hww).
  unfold identifierBitmapAllocateSpecificID at 1. apply wp_bind, wp_get, wp_bind, wp_check; [done|].
  apply wp_bind. unfold word. eapply wp_deref; [exact Hw|].
  unfold IdentifierBitmapSlotsize. rewrite land_bit_spec, <- Hbit, Hfree by lia.
  apply wp_bind, wp_put, wp_ret. split; [done|].
  destruct (bitmap_update_wf b id w (Z.lor w (Z.shiftl 1 (id mod 64))) (Available b - 1) true) as [Hwf1 Hupd1];
    try done; [apply lor_bit_width; (done || lia)|intros; apply testbit_lor_bit; lia|].
  set (b1 := setBitmap b (id / 64) (Z.lor w (Z.shiftl 1 (id mod 64))) (Available b - 1)) in *.
  assert (isAllocated b1 id = true) as Hal1 by (rewrite Hupd1, Z.eqb_refl by lia; done).
  destruct (Hword b1 Hwf1 eq_refl) as (w1 & Hw1 & Hbit1 & Hww1).
  do 3 (split; [done|]). split.
  - unfold identifierBitmapAllocateSpecificID. apply wp_bind, wp_get, wp_bind, wp_check; [done|].
    apply wp_bind. unfold word. eapply wp_deref; [exact Hw1|].
    unfold IdentifierBitmapSlotsize. rewrite land_bit_spec, <- Hbit1, Hal1 by lia. by apply wp_ret.
  - unfold identifierBitmapFreeID. apply wp_bind, wp_get, wp_bind, wp_check; [done|].
    apply wp_bind. unfold word. eapply wp_deref; [exact Hw1|].
    unfold IdentifierBitmapSlotsize. apply wp_bind, wp_check; [by rewrite land_bit_spec, <- Hbit1 by lia|].
    apply wp_put.
    destruct (bitmap_update_wf b1 id w1 (Z.land w1 (u64 (Z.lnot (Z.shiftl 1 (id mod 64))))) (Available b1 + 1) false)
      as [Hwf2 Hupd2]; try done.
    { apply land_width; [done|apply wrap_in_width; lia]. }
    { intros n Hn. apply testbit_clear_bit; lia. }
    split; [done|]. split; [simpl; lia|]. intros x Hx. rewrite Hupd2, Hupd1 by done.
    destruct (Z.eqb_spec x id) as [->|]; [by rewrite Hfree|done].
Qed.

Lemma identifierBitmap_allocate_free_witness :
  wp (identifierBitmapAllocateSpecificID 65) (λ r b1,
    r = 65 ∧ bitmap_wf b1 ∧ Available b1 = Available exampleBitmap - 1 ∧
    (∀ x, 0 <= x → isAllocated b1 x = if x =? 65 then true else isAllocated exampleBitmap x) ∧
    wp (identifierBitmapAllocateSpecificID 65) (λ r' b1', r' = -1 ∧ b1' = b1) b1 ∧
    wp (identifierBitmapFreeID 65) (λ _ b2,
      bitmap_wf b2 ∧ Available b2 = Available exampleBitmap ∧
      ∀ x, 0 <= x → isAllocated b2 x = isAllocated exampleBitmap x) b1) exampleBitmap.
Proof.
  apply (identifierBitmap_allocate_free exampleBitmap 65);
    [apply exampleBitmap_wf|vm_compute; split; congruence|reflexivity].
Defined.
