(* ===== verification/Addresses.v ===== *)
(** * Socket addresses and transport address blocks
    (netutilities.c, transportaddressblock.c)

    Addresses as the C union has them (the bytes of the address in network
    order, the port as [getPort] returns it), their scope and comparison,
    and the transport address blocks that pool elements and registrars
    carry. *)

From S2P Require Import Prelude.
From stdpp Require Import base list numbers option.
#[local] Open Scope Z_scope.

Definition AF_INET : Z := 2.
Definition AF_INET6 : Z := 10.

Definition IPPROTO_TCP : Z := 6.
Definition IPPROTO_UDP : Z := 17.
Definition IPPROTO_DCCP : Z := 33.
Definition IPPROTO_SCTP : Z := 132.

Inductive sockaddr_union :=
| sockaddr_in (sin_addr : list Z) (sin_port : Z)
| sockaddr_in6 (sin6_addr : list Z) (sin6_port : Z)
| sockaddr_other (sa_family : Z).

#[global] Instance sockaddr_union_eq_dec : EqDecision sockaddr_union.
Proof. solve_decision. Defined.

Definition AS_UNSPECIFIED : Z := 0.
Definition AS_MULTICAST_NODELOCAL : Z := 1.
Definition AS_LOOPBACK : Z := 2.
Definition AS_MULTICAST_LINKLOCAL : Z := 3.
Definition AS_UNICAST_LINKLOCAL : Z := 4.
Definition AS_MULTICAST_SITELOCAL : Z := 5.
Definition AS_UNICAST_SITELOCAL : Z := 6.
Definition AS_MULTICAST_ORGLOCAL : Z := 7.
Definition AS_MULTICAST_GLOBAL : Z := 8.
Definition AS_UNICAST_GLOBAL : Z := 10.

(** Big-endian value of a byte sequence ([ntohl] of the four bytes read
    from memory). *)
Definition be_value (l : list Z) : Z := foldl (λ acc b, acc * 256 + b) 0 l.

Definition getScopeIPv4 (address : list Z) : Z :=
  let a := be_value address in
  if a =? 0 then 0
  else if Z.land a 0x7f000000 =? 0x7f000000 then 2
  else
    let b1 := u8 (Z.shiftr a 24) in
    if b1 =? 10 then AS_UNICAST_SITELOCAL
    else
      let b2 := u8 (Z.land (Z.shiftr a 16) 0x00ff) in
      if (b1 =? 172) && (16 <=? b2) && (b2 <=? 31) then AS_UNICAST_SITELOCAL
      else if (b1 =? 169) && (b2 =? 254) then AS_UNICAST_LINKLOCAL
      else if (b1 =? 192) && (b2 =? 168) then AS_UNICAST_SITELOCAL
      else if Z.land a 0xf0000000 =? 0xe0000000 then AS_MULTICAST_GLOBAL
      else AS_UNICAST_GLOBAL.

Definition byteAt (l : list Z) (i : nat) : Z := default 0 (l !! i).

(** The macros [IN6_IS_ADDR_...] of netinet/in.h. *)
Definition IN6_IS_ADDR_V4MAPPED (a : list Z) : bool :=
  bool_decide (take 12 a = replicate 10 0 ++ [255; 255]).
Definition IN6_IS_ADDR_UNSPECIFIED (a : list Z) : bool := bool_decide (a = replicate 16 0).
Definition IN6_IS_ADDR_LOOPBACK (a : list Z) : bool := bool_decide (a = replicate 15 0 ++ [1]).
Definition IN6_IS_ADDR_MULTICAST (a : list Z) : bool := byteAt a 0 =? 255.
Definition IN6_IS_ADDR_MC (scope : Z) (a : list Z) : bool :=
  IN6_IS_ADDR_MULTICAST a && (Z.land (byteAt a 1) 15 =? scope).
Definition IN6_IS_ADDR_LINKLOCAL (a : list Z) : bool :=
  (byteAt a 0 =? 254) && (Z.land (byteAt a 1) 192 =? 128).
Definition IN6_IS_ADDR_SITELOCAL (a : list Z) : bool :=
  (byteAt a 0 =? 254) && (Z.land (byteAt a 1) 192 =? 192).

Definition getScopeIPv6 (address : list Z) : Z :=
  if IN6_IS_ADDR_V4MAPPED address then getScopeIPv4 (drop 12 address)
  else if IN6_IS_ADDR_UNSPECIFIED address then AS_UNSPECIFIED
  else if IN6_IS_ADDR_MC 1 address then AS_MULTICAST_NODELOCAL
  else if IN6_IS_ADDR_LOOPBACK address then AS_LOOPBACK
  else if IN6_IS_ADDR_MC 2 address then AS_MULTICAST_LINKLOCAL
  else if IN6_IS_ADDR_LINKLOCAL address then AS_UNICAST_LINKLOCAL
  else if IN6_IS_ADDR_MC 5 address then AS_MULTICAST_SITELOCAL
  else if IN6_IS_ADDR_SITELOCAL address then AS_UNICAST_SITELOCAL
  else if IN6_IS_ADDR_MC 8 address then AS_MULTICAST_ORGLOCAL
  else if IN6_IS_ADDR_MC 14 address then AS_MULTICAST_GLOBAL
  else AS_UNICAST_GLOBAL.

(** [LOG_END_FATAL] ends the process: [None]. *)
Definition getScope (address : sockaddr_union) : option Z :=
  match address with
  | sockaddr_in a _ => Some (getScopeIPv4 a)
  | sockaddr_in6 a _ => Some (getScopeIPv6 a)
  | sockaddr_other _ => None
  end.

Definition getPort (address : sockaddr_union) : option Z :=
  match address with
  | sockaddr_in _ p | sockaddr_in6 _ p => Some p
  | sockaddr_other _ => None
  end.

Definition setPort (address : sockaddr_union) (port : Z) : option sockaddr_union :=
  match address with
  | sockaddr_in a _ => Some (sockaddr_in a port)
  | sockaddr_in6 a _ => Some (sockaddr_in6 a port)
  | sockaddr_other _ => None
  end.

Definition getFamily (address : sockaddr_union) : Z :=
  match address with
  | sockaddr_in _ _ => AF_INET
  | sockaddr_in6 _ _ => AF_INET6
  | sockaddr_other f => f
  end.

(** The sixteen bytes [x1]/[x2] of [addresscmp]. *)
Definition mappedBytes (address : sockaddr_union) : list Z :=
  match address with
  | sockaddr_in6 a _ => a
  | sockaddr_in a _ => replicate 10 0 ++ [255; 255] ++ a
  | sockaddr_other _ => []
  end.

Definition addresscmp (a1 a2 : sockaddr_union) (port : bool) : option Z :=
  s1 ← getScope a1;
  s2 ← getScope a2;
  let s1 := 1000000 - s1 in
  let s2 := 1000000 - s2 in
  if s1 <? s2 then Some (-1)
  else if s2 <? s1 then Some 1
  else
    let result := lexcmp (mappedBytes a1) (mappedBytes a2) in
    if negb (result =? 0) then Some result
    else if port then
      p1 ← getPort a1;
      p2 ← getPort a2;
      Some (if p1 <? p2 then -1 else if p2 <? p1 then 1 else 0)
    else Some 0.

Definition getPadding (size alignment : Z) : Z :=
  let padding := alignment - size mod alignment in
  if padding =? alignment then 0 else padding.

(** ** Transport address blocks *)

Definition TABF_CONTROLCHANNEL : Z := 1.

Record TransportAddressBlock := MkTAB {
  tab_Protocol : Z;
  tab_Port : Z;
  tab_Flags : Z;
  tab_AddressArray : list sockaddr_union
}.

#[global] Instance TransportAddressBlock_eq_dec : EqDecision TransportAddressBlock.
Proof. solve_decision. Defined.

Definition tab_Addresses (t : TransportAddressBlock) : Z := Z.of_nat (length (tab_AddressArray t)).

Definition transportAddressBlockNew (protocol port flags : Z)
    (addressArray : list sockaddr_union) (maxAddresses : Z) : TransportAddressBlock :=
  {| tab_Protocol := protocol; tab_Port := port; tab_Flags := flags;
     tab_AddressArray :=
       (λ a, match a with
             | sockaddr_in x _ => sockaddr_in x port
             | sockaddr_in6 x _ => sockaddr_in6 x port
             | sockaddr_other f => sockaddr_other f
             end) <$> take (Z.to_nat maxAddresses) addressArray |}.

(** [malloc_ok] is whether [malloc] succeeded. *)
Definition transportAddressBlockDuplicate (malloc_ok : bool) (t : option TransportAddressBlock) :
    option TransportAddressBlock :=
  match t with
  | Some t => if malloc_ok then Some t else None
  | None => None
  end.

(** The pairwise loop at the end of the comparisons. *)
Fixpoint addressArrayComparison (l1 l2 : list sockaddr_union) : option Z :=
  match l1, l2 with
  | a1 :: l1', a2 :: l2' =>
    result ← addresscmp a1 a2 false;
    if negb (result =? 0) then Some result else addressArrayComparison l1' l2'
  | _, _ => Some 0
  end.

Definition transportAddressBlockComparison (t1 t2 : option TransportAddressBlock) : option Z :=
  match t1, t2 with
  | None, Some _ => Some (-1)
  | Some _, None => Some 1
  | None, None => Some 0
  | Some t1, Some t2 =>
    if tab_Port t1 <? tab_Port t2 then Some (-1)
    else if tab_Port t2 <? tab_Port t1 then Some 1
    else if tab_Flags t1 <? tab_Flags t2 then Some (-1)
    else if tab_Flags t2 <? tab_Flags t1 then Some 1
    else if tab_Addresses t1 <? tab_Addresses t2 then Some (-1)
    else if tab_Addresses t2 <? tab_Addresses t1 then Some 1
    else addressArrayComparison (tab_AddressArray t1) (tab_AddressArray t2)
  end.

(** ** Properties *)

Lemma getPadding_bounds size a : 0 < a → 0 <= getPadding size a < a.
Proof.
  intros Ha. unfold getPadding. pose proof (Z.mod_pos_bound size a Ha).
  destruct (Z.eqb_spec (a - size mod a) a); lia.
Qed.

Lemma getPadding_aligns size a : 0 < a → (size + getPadding size a) mod a = 0.
Proof.
  intros Ha. unfold getPadding. pose proof (Z_div_mod_eq_full size a).
  destruct (Z.eqb_spec (a - size mod a) a).
  - rewrite Z.add_0_r. lia.
  - replace (size + (a - size mod a)) with ((size / a + 1) * a) by lia. apply Z.mod_mul. lia.
Qed.

(** ** Filters (transportaddressblock.c) *)

Definition MAX_ADDRESSES : Z := 128.

(** Is [a] one of the addresses? *)
Fixpoint matchesAny (filterPort : bool) (a : sockaddr_union) (l : list sockaddr_union) : option bool :=
  match l with
  | [] => Some false
  | b :: l' => c ← addresscmp a b filterPort; if c =? 0 then Some true else matchesAny filterPort a l'
  end.

Fixpoint selectAddresses (association : option TransportAddressBlock) (filterPort : bool) (minScope : Z)
    (l : list sockaddr_union) : option (list sockaddr_union) :=
  match l with
  | [] => Some []
  | a :: l' =>
      scope ← getScope a;
      selected ← (if minScope <=? scope then
                    match association with
                    | Some t => matchesAny filterPort a (tab_AddressArray t)
                    | None => Some true
                    end
                  else Some false);
      rest ← selectAddresses association filterPort minScope l';
      Some (if selected : bool then a :: rest else rest)
  end.

(** The inner option is [None] when no address is selected: the filtered
    block is then not written.  An array index that is too large fails. *)
Definition transportAddressBlockFilter (original : TransportAddressBlock) (association : option TransportAddressBlock)
    (maxAddresses : Z) (filterPort : bool) (minScope : Z) : option (option TransportAddressBlock) :=
  if (MAX_ADDRESSES <? maxAddresses) || (MAX_ADDRESSES <? tab_Addresses original) then None
  else
    l ← selectAddresses association filterPort minScope (tab_AddressArray original);
    Some (match l with
          | [] => None
          | _ => Some {| tab_Protocol := tab_Protocol original; tab_Port := tab_Port original;
                         tab_Flags := tab_Flags original; tab_AddressArray := l |}
          end).

(** [endpointAddresses] is what [getladdrsplus] or [getpaddrsplus] returned;
    without addresses the block is not written. *)
Definition transportAddressBlockGetAddressesFromSCTPSocket (endpointAddresses : list sockaddr_union) (maxAddresses : Z) :
    option (option TransportAddressBlock) :=
  let l := take (Z.to_nat (Z.min maxAddresses MAX_ADDRESSES)) endpointAddresses in
  match endpointAddresses with
  | [] => Some None
  | _ =>
      port ← match l with a :: _ => getPort a | [] => None end;
      Some (Some (transportAddressBlockNew IPPROTO_SCTP port 0 l maxAddresses))
  end.


(** The key [addresscmp] compares lexicographically. *)
Definition addressKey (port : bool) (a : sockaddr_union) : option (list Z) :=
  s ← getScope a; p ← getPort a;
  Some ([- s] ++ mappedBytes a ++ (if port then [p] else [])).

Definition address_wf (a : sockaddr_union) : Prop :=
  match a with
  | sockaddr_in x p => length x = 4%nat ∧ Forall is_u8 x ∧ is_u16 p
  | sockaddr_in6 x p => length x = 16%nat ∧ Forall is_u8 x ∧ is_u16 p
  | sockaddr_other _ => False
  end.

#[global] Instance address_wf_dec a : Decision (address_wf a).
Proof. destruct a; apply _. Defined.

Lemma mappedBytes_length a : address_wf a → length (mappedBytes a) = 16%nat.
Proof.
  destruct a; simpl; [|tauto|tauto]. intros (H & _). rewrite H. done.
Qed.

Lemma addresscmp_key a1 a2 port : address_wf a1 → address_wf a2 → ∃ k1 k2,
  addressKey port a1 = Some k1 ∧ addressKey port a2 = Some k2 ∧
  addresscmp a1 a2 port = Some (lexcmp k1 k2).
Proof.
  intros H1 H2. pose proof (mappedBytes_length _ H1) as L1. pose proof (mappedBytes_length _ H2) as L2.
  destruct (getScope a1) as [s1|] eqn:S1; [|by destruct a1].
  destruct (getScope a2) as [s2|] eqn:S2; [|by destruct a2].
  destruct (getPort a1) as [p1|] eqn:P1; [|by destruct a1].
  destruct (getPort a2) as [p2|] eqn:P2; [|by destruct a2].
  unfold addressKey, addresscmp. rewrite S1, S2, P1, P2. simpl.
  eexists _, _. split; [reflexivity|]. split; [reflexivity|]. cbn [lexcmp app]. rewrite lexcmp_app by congruence.
  destruct (Z.ltb_spec (1000000 - s1) (1000000 - s2)), (Z.ltb_spec (-s1) (-s2)); try lia; [done|].
  destruct (Z.ltb_spec (1000000 - s2) (1000000 - s1)), (Z.ltb_spec (-s2) (-s1)); try lia; [done|].
  destruct (Z.eqb_spec (lexcmp (mappedBytes a1) (mappedBytes a2)) 0); simpl; [|done].
  destruct port; simpl; [|done]. by destruct (p1 <? p2), (p2 <? p1).
Qed.

(** [addresscmp] orders supported addresses: swapping the arguments
    changes the sign, the order is transitive, and two addresses compare
    equal exactly when they have the same scope and the same sixteen bytes
    (an IPv4 address counts as its IPv4-mapped IPv6 form) and, when [port]
    is set, the same port. *)
Theorem addresscmp_order (port : bool) (a b c : sockaddr_union) :
  address_wf a → address_wf b → address_wf c → ∃ rab rba rbc rac,
  addresscmp a b port = Some rab ∧ addresscmp b a port = Some rba ∧
  addresscmp b c port = Some rbc ∧ addresscmp a c port = Some rac ∧
  rba = - rab ∧ (rab < 0 → rbc < 0 → rac < 0) ∧
  (rab = 0 ↔ getScope a = getScope b ∧ mappedBytes a = mappedBytes b ∧
             (port = true → getPort a = getPort b)).
Proof.
  intros Ha Hb Hc.
  destruct (addresscmp_key a b port Ha Hb) as (ka & kb & Eka & Ekb & Eab).
  destruct (addresscmp_key b a port Hb Ha) as (kb' & ka' & Ekb' & Eka' & Eba).
  destruct (addresscmp_key b c port Hb Hc) as (kb'' & kc & Ekb'' & Ekc & Ebc).
  destruct (addresscmp_key a c port Ha Hc) as (ka'' & kc' & Eka'' & Ekc' & Eac).
  simplify_eq. eexists _, _, _, _. do 4 (split; [eassumption|]).
  split; [apply lexcmp_opp|]. split; [apply lexcmp_trans|]. rewrite lexcmp_eq.
  unfold addressKey in Eka, Ekb.
  destruct (getScope a) as [sa|]; [|done]. destruct (getScope b) as [sb|]; [|done].
  destruct (getPort a) as [pa|]; [|done]. destruct (getPort b) as [pb|]; [|done].
  simpl in Eka, Ekb. injection Eka as <-. injection Ekb as <-.
  pose proof (mappedBytes_length _ Ha). pose proof (mappedBytes_length _ Hb). split.
  - intros Heq. injection Heq as Hs Happ. apply app_inj_1 in Happ as [-> Hp]; [|congruence].
    split; [f_equal; lia|]. split; [done|]. intros ->. by injection Hp as ->.
  - intros (Hs & -> & Hp). injection Hs as ->. f_equal. f_equal.
    destruct port; [|done]. by injection (Hp eq_refl) as ->.
Qed.

Lemma addresscmp_order_witness :
  addresscmp (sockaddr_in [10; 0; 0; 1] 80) (sockaddr_in6 (replicate 10 0 ++ [255; 255; 10; 0; 0; 1]) 81) false = Some 0.
Proof.
  destruct (addresscmp_order false (sockaddr_in [10; 0; 0; 1] 80)
    (sockaddr_in6 (replicate 10 0 ++ [255; 255; 10; 0; 0; 1]) 81) (sockaddr_in [1; 2; 3; 4] 5))
    as (rab & rba & rbc & rac & -> & _ & _ & _ & _ & _ & Hz).
  - apply (bool_decide_unpack _). by vm_compute.
  - apply (bool_decide_unpack _). by vm_compute.
  - apply (bool_decide_unpack _). by vm_compute.
  - f_equal. apply Hz. repeat split. done.
Defined.
