(* ===== verification/PoolBasics.v ===== *)
(** * Pool handles, policy settings and identifiers
    (poolhandle.c, poolpolicysettings.c, poolhandlespacemanagement-basics.c,
    rserpoolerror.h, rserpool-policytypes.h) *)

From S2P Require Import Prelude.
From stdpp Require Import base list numbers option.
#[local] Open Scope Z_scope.

(** ** Error codes (rserpoolerror.h) *)

Definition RSPERR_OKAY : Z := 0.
Definition RSPERR_UNRECOGNIZED_PARAMETER : Z := 0x0001.
Definition RSPERR_UNRECOGNIZED_MESSAGE : Z := 0x0002.
Definition RSPERR_INVALID_TLV : Z := 0x0003.
Definition RSPERR_INCOMPATIBLE_POOL_POLICY : Z := 0x0005.
Definition RSPERR_OUT_OF_RESOURCES : Z := 0x0006.
Definition RSPERR_WRONG_CONTROLCHANNEL_HANDLING : Z := 0x0008.
Definition RSPERR_NOT_FOUND : Z := 0x0009.
Definition RSPERR_INVALID_MESSAGE : Z := 0x0010.
Definition RSPERR_INVALID_VALUE : Z := 0x0011.
Definition RSPERR_BUFFERSIZE_EXCEEDED : Z := 0x1001.
Definition RSPERR_UNRECOGNIZED_PARAMETER_SILENT : Z := 0x1009.
Definition RSPERR_WRONG_PROTOCOL : Z := 0x100a.
Definition RSPERR_INVALID_ID : Z := 0xf000.
Definition RSPERR_DUPLICATE_ID : Z := 0xf002.
Definition RSPERR_INVALID_POOL_POLICY : Z := 0xf003.
Definition RSPERR_INVALID_POOL_HANDLE : Z := 0xf004.
Definition RSPERR_INVALID_ADDRESSES : Z := 0xf005.
Definition RSPERR_INVALID_REGISTRATOR : Z := 0xf006.
Definition RSPERR_OUT_OF_MEMORY : Z := RSPERR_OUT_OF_RESOURCES.

(** ** Pool handles *)

Definition MAX_POOLHANDLESIZE : Z := 32.

(** [ph_Handle] holds the first [ph_Size] bytes of the C array; the bytes
    behind them are never read. *)
Record PoolHandle := MkPoolHandle { ph_Size : Z; ph_Handle : list Z }.

#[global] Instance PoolHandle_eq_dec : EqDecision PoolHandle.
Proof. solve_decision. Defined.

(** [None] is a failed [CHECK]. *)
Definition poolHandleNew (handle : list Z) (size : Z) : option PoolHandle :=
  if (0 <? size) && (size <=? MAX_POOLHANDLESIZE) then
    Some {| ph_Size := size; ph_Handle := take (Z.to_nat size) handle |}
  else None.

Definition poolHandleComparison (h1 h2 : PoolHandle) : Z :=
  if ph_Size h1 <? ph_Size h2 then -1
  else if ph_Size h2 <? ph_Size h1 then 1
  else lexcmp (ph_Handle h1) (ph_Handle h2).

Definition handle_wf (h : PoolHandle) : Prop :=
  0 < ph_Size h <= MAX_POOLHANDLESIZE ∧ Z.of_nat (length (ph_Handle h)) = ph_Size h ∧
  Forall is_u8 (ph_Handle h).

#[global] Instance handle_wf_dec h : Decision (handle_wf h).
Proof. unfold handle_wf, MAX_POOLHANDLESIZE. apply _. Defined.

Definition handleKey (h : PoolHandle) : list Z := ph_Size h :: ph_Handle h.

Lemma poolHandleComparison_key h1 h2 : poolHandleComparison h1 h2 = lexcmp (handleKey h1) (handleKey h2).
Proof. done. Qed.

Lemma handleKey_inj h1 h2 : handleKey h1 = handleKey h2 → h1 = h2.
Proof. destruct h1, h2. unfold handleKey. simpl. intros [= -> ->]. done. Qed.

Lemma poolHandleNew_self h : handle_wf h → poolHandleNew (ph_Handle h) (ph_Size h) = Some h.
Proof.
  intros (Hs & Hl & _). unfold poolHandleNew, MAX_POOLHANDLESIZE in *.
  destruct (Z.ltb_spec 0 (ph_Size h)), (Z.leb_spec (ph_Size h) 32); try lia. simpl.
  rewrite take_ge by lia. by destruct h.
Qed.

(** ** Policy settings *)

Definition PPV_MIN_WEIGHT : Z := 0.
Definition PPV_MAX_WEIGHT : Z := 0xffffffff.
Definition PPV_MIN_LOAD : Z := 0.
Definition PPV_MAX_LOAD : Z := 0xffffffff.
Definition PPV_MIN_LOAD_DEGRADATION : Z := 0.
Definition PPV_MAX_LOAD_DEGRADATION : Z := 0xffffffff.
Definition PPV_MAX_LOADDPF : Z := 0xffffffff.
Definition PPV_MAX_WEIGHTDPF : Z := 0xffffffff.

Definition PPT_UNDEFINED : Z := 0x00000000.
Definition PPT_ROUNDROBIN : Z := 0x00000001.
Definition PPT_WEIGHTED_ROUNDROBIN : Z := 0x00000002.
Definition PPT_RANDOM : Z := 0x00000003.
Definition PPT_WEIGHTED_RANDOM : Z := 0x00000004.
Definition PPT_PRIORITY : Z := 0x00000005.
Definition PPT_LEASTUSED : Z := 0x40000001.
Definition PPT_LEASTUSED_DEGRADATION : Z := 0x40000002.
Definition PPT_PRIORITY_LEASTUSED : Z := 0x40000003.
Definition PPT_RANDOMIZED_LEASTUSED : Z := 0x40000004.
Definition PPT_RANDOMIZED_PRIORITY_LEASTUSED : Z := 0xb0001001.
Definition PPT_RANDOMIZED_LEASTUSED_DEGRADATION : Z := 0xb0001002.
Definition PPT_PRIORITY_LEASTUSED_DEGRADATION : Z := 0xb0001003.
Definition PPT_RANDOMIZED_PRIORITY_LEASTUSED_DEGRADATION : Z := 0xb0001004.
Definition PPT_WEIGHTED_RANDOM_DPF : Z := 0xb0002001.
Definition PPT_LEASTUSED_DPF : Z := 0xb0002002.
Definition PPT_LEASTUSED_DEGRADATION_DPF : Z := 0xb0002003.
Definition PPT_PRIORITY_LEASTUSED_DPF : Z := 0xb0002004.
Definition PPT_PRIORITY_LEASTUSED_DEGRADATION_DPF : Z := 0xb0002005.

Record PoolPolicySettings := MkPPS {
  pps_PolicyType : Z;
  pps_Weight : Z;
  pps_Load : Z;
  pps_LoadDegradation : Z;
  pps_LoadDPF : Z;
  pps_WeightDPF : Z;
  pps_Distance : Z
}.

#[global] Instance PoolPolicySettings_eq_dec : EqDecision PoolPolicySettings.
Proof. solve_decision. Defined.

Definition poolPolicySettingsNew : PoolPolicySettings :=
  {| pps_PolicyType := 0; pps_Weight := 0; pps_Load := 0; pps_LoadDegradation := 0;
     pps_LoadDPF := 0; pps_WeightDPF := 0; pps_Distance := 0 |}.

Definition poolPolicySettingsDelete (pps : PoolPolicySettings) : PoolPolicySettings :=
  poolPolicySettingsNew.

(** Nonzero (true) when the settings differ; the policy type is not
    compared. *)
Definition poolPolicySettingsComparison (pps1 pps2 : PoolPolicySettings) : bool :=
  negb (pps_Weight pps1 =? pps_Weight pps2) ||
  negb (pps_Load pps1 =? pps_Load pps2) ||
  negb (pps_LoadDegradation pps1 =? pps_LoadDegradation pps2) ||
  negb (pps_LoadDPF pps1 =? pps_LoadDPF pps2) ||
  negb (pps_WeightDPF pps1 =? pps_WeightDPF pps2) ||
  negb (pps_Distance pps1 =? pps_Distance pps2).

Definition poolPolicySettingsIsValid (pps : PoolPolicySettings) : bool :=
  (PPV_MIN_WEIGHT <=? pps_Weight pps) && (pps_Weight pps <=? PPV_MAX_WEIGHT) &&
  (PPV_MIN_LOAD <=? pps_Load pps) && (pps_Load pps <=? PPV_MAX_LOAD) &&
  (PPV_MIN_LOAD_DEGRADATION <=? pps_LoadDegradation pps) &&
  (pps_LoadDegradation pps <=? PPV_MAX_LOAD_DEGRADATION).

Definition poolPolicySettingsAdapt (pps : PoolPolicySettings) (destinationType : Z) : bool :=
  pps_PolicyType pps =? destinationType.

Definition pps_wf (pps : PoolPolicySettings) : Prop :=
  is_u32 (pps_PolicyType pps) ∧ is_u32 (pps_Weight pps) ∧ is_u32 (pps_Load pps) ∧
  is_u32 (pps_LoadDegradation pps) ∧ is_u32 (pps_LoadDPF pps) ∧ is_u32 (pps_WeightDPF pps) ∧
  is_u32 (pps_Distance pps).

#[global] Instance pps_wf_dec pps : Decision (pps_wf pps).
Proof. unfold pps_wf. apply _. Defined.

Lemma pps_wf_valid pps : pps_wf pps → poolPolicySettingsIsValid pps = true.
Proof.
  intros (_ & Hw & Hl & Hd & _). unfold in_width, poolPolicySettingsIsValid in *.
  unfold PPV_MIN_WEIGHT, PPV_MAX_WEIGHT, PPV_MIN_LOAD, PPV_MAX_LOAD,
    PPV_MIN_LOAD_DEGRADATION, PPV_MAX_LOAD_DEGRADATION.
  change (2 ^ 32) with 4294967296 in *.
  repeat (apply andb_true_iff; split); apply Z.leb_le; lia.
Qed.

(** ** Identifiers *)

Definition UNDEFINED_POOL_ELEMENT_IDENTIFIER : Z := 0.
Definition UNDEFINED_REGISTRAR_IDENTIFIER : Z := 0.
Definition MAX_PE_TRANSPORTADDRESSES : Z := 64.

(** [(~0) ^ 0xf] as [uint32_t]. *)
Definition SeqNumberStart : Z := 0xfffffff0.

(** [random32] is the value the randomizer returned. *)
Definition getPoolElementIdentifier (random32 : Z) : Z := u32 (1 + random32 mod 0xfffffffe).

Fixpoint hashWords `{Endian} (hash : Z) (bytes : list Z) : Z :=
  match bytes with
  | b0 :: b1 :: b2 :: b3 :: rest => hashWords (Z.lxor hash (ld32 b0 b1 b2 b3)) rest
  | [] => hash
  | b0 :: rest => Z.lxor hash (ld32 b0 (default 0 (rest !! 0%nat)) (default 0 (rest !! 1%nat)) 0)
  end.

Definition computePHPEHash `{Endian} (h : PoolHandle) (identifier : Z) : Z :=
  Z.lxor (hashWords 0 (take (Z.to_nat (ph_Size h)) (ph_Handle h))) identifier.

Lemma getPoolElementIdentifier_defined r : is_u32 r →
  is_u32 (getPoolElementIdentifier r) ∧ getPoolElementIdentifier r ≠ UNDEFINED_POOL_ELEMENT_IDENTIFIER.
Proof.
  intros Hr. unfold getPoolElementIdentifier, UNDEFINED_POOL_ELEMENT_IDENTIFIER.
  pose proof (Z.mod_pos_bound r 0xfffffffe). rewrite wrap_small; unfold in_width; lia.
Qed.
