(* ===== verification/Storage.v ===== *)
(** * Storage: the interface between the handlespace and its trees

    The handlespace code is a C template over the storage class
    ([ST_METHOD(Insert)] etc., instantiated with the red-black trees of
    redblacktree_impl.h).  [Storage] is that interface: a storage of node
    pointers with the operations of redblacktree.h, and [StorageLaws] what
    an implementation promises, stated over [st_list], the nodes in the
    order of the storage.  Comparison functions are passed as the function
    [cmp] that compares the searched or inserted node with a stored one
    (the first argument of every call of [ComparisonFunction] is that
    node); node values as the function [value].

    The client's theorems are proved for every storage that satisfies the
    laws: [ListStorage], the reference implementation by an ordered list, and
    the red-black tree (RedBlackTreeStorage). *)

From S2P Require Import Prelude.
From stdpp Require Import base list numbers option sorting sets.
#[local] Open Scope Z_scope.

Abbreviation ptr := positive.

Class Storage (S : Type) := {
  ST_New : S;
  st_list : S → list ptr;
  ST_IsEmpty : S → bool;
  ST_GetFirst : S → option ptr;
  ST_GetLast : S → option ptr;
  ST_GetPrev : S → ptr → option ptr;
  ST_GetNext : S → ptr → option ptr;
  ST_GetNearestPrev : (ptr → Z) → S → option ptr;
  ST_GetNearestNext : (ptr → Z) → S → option ptr;
  ST_GetElements : S → Z;
  ST_Insert : (ptr → Z) → (ptr → Z) → ptr → S → option (ptr * S);
  ST_Remove : (ptr → Z) → ptr → S → option (ptr * S);
  ST_Find : (ptr → Z) → S → option ptr;
  ST_GetValueSum : S → Z;
  ST_GetNodeByValue : (ptr → Z) → Z → S → option ptr;
  (** [STN_METHOD(IsLinked)]: is the node in this storage? *)
  STN_IsLinked : S → ptr → bool;
  (** [ST_METHOD(Verify)]: do all its CHECKs hold? *)
  ST_Verify : (ptr → ptr → Z) → (ptr → Z) → S → bool
}.

(** ** Reference operations on the ordered list of nodes *)

(** The comparison [cmp] splits the list: smaller nodes ([cmp > 0]), at
    most one equal node, larger nodes. *)
Inductive probe_ok (cmp : ptr → Z) (l : list ptr) : Prop :=
| probe_found l1 q l2 : l = l1 ++ q :: l2 → Forall (λ p, 0 < cmp p) l1 → cmp q = 0 →
    Forall (λ p, cmp p < 0) l2 → probe_ok cmp l
| probe_missing l1 l2 : l = l1 ++ l2 → Forall (λ p, 0 < cmp p) l1 →
    Forall (λ p, cmp p < 0) l2 → probe_ok cmp l.

Definition l_find (cmp : ptr → Z) (l : list ptr) : option ptr :=
  head (filter (λ p, cmp p = 0) l).

Definition l_nearest_prev (cmp : ptr → Z) (l : list ptr) : option ptr :=
  last (filter (λ p, 0 < cmp p) l).

Definition l_nearest_next (cmp : ptr → Z) (l : list ptr) : option ptr :=
  head (filter (λ p, cmp p < 0) l).

Fixpoint l_insert (cmp : ptr → Z) (node : ptr) (l : list ptr) : list ptr :=
  match l with
  | [] => [node]
  | q :: l' => if cmp q <? 0 then node :: q :: l' else q :: l_insert cmp node l'
  end.

Definition l_remove (node : ptr) (l : list ptr) : list ptr := filter (λ q, q ≠ node) l.

Fixpoint l_next (node : ptr) (l : list ptr) : option ptr :=
  match l with
  | [] => None
  | q :: l' => if bool_decide (q = node) then head l' else l_next node l'
  end.

Definition l_prev (node : ptr) (l : list ptr) : option ptr := l_next node (reverse l).

Definition l_valuesum (value : ptr → Z) (l : list ptr) : Z := foldr (λ p acc, value p + acc) 0 l.

Fixpoint l_by_value (value : ptr → Z) (v : Z) (l : list ptr) : option ptr :=
  match l with
  | [] => None
  | q :: l' => if v <? value q then Some q else l_by_value value (v - value q) l'
  end.

(** The comparison function agrees with the order of the list. *)
Definition ordered (cmp : ptr → ptr → Z) (l : list ptr) : Prop :=
  ∀ l1 p l2 q l3, l = l1 ++ p :: l2 ++ q :: l3 → cmp p q < 0 ∧ 0 < cmp q p.

(** ** The laws *)

Class StorageLaws (S : Type) `{Storage S} := {
  (** [st_ok value s]: the storage is intact, with value sums of [value]. *)
  st_ok : (ptr → Z) → S → Prop;
  st_ok_nodup value s : st_ok value s → NoDup (st_list s);
  st_ok_value value value' s :
    st_ok value s → (∀ p, p ∈ st_list s → value p = value' p) → st_ok value' s;
  st_new_ok value : st_ok value ST_New ∧ st_list ST_New = [];
  st_isempty_law value s : st_ok value s → ST_IsEmpty s = bool_decide (st_list s = []);
  st_first_law value s : st_ok value s → ST_GetFirst s = head (st_list s);
  st_last_law value s : st_ok value s → ST_GetLast s = last (st_list s);
  st_prev_law value s p : st_ok value s → p ∈ st_list s → ST_GetPrev s p = l_prev p (st_list s);
  st_next_law value s p : st_ok value s → p ∈ st_list s → ST_GetNext s p = l_next p (st_list s);
  st_elements_law value s : st_ok value s → ST_GetElements s = Z.of_nat (length (st_list s));
  st_linked_law value s p : st_ok value s → STN_IsLinked s p = bool_decide (p ∈ st_list s);
  st_find_law value cmp s : st_ok value s → probe_ok cmp (st_list s) →
    ST_Find cmp s = l_find cmp (st_list s);
  st_nearest_prev_law value cmp s : st_ok value s → probe_ok cmp (st_list s) →
    ST_GetNearestPrev cmp s = l_nearest_prev cmp (st_list s);
  st_nearest_next_law value cmp s : st_ok value s → probe_ok cmp (st_list s) →
    ST_GetNearestNext cmp s = l_nearest_next cmp (st_list s);
  st_insert_law value cmp s node : st_ok value s → probe_ok cmp (st_list s) → node ∉ st_list s →
    match l_find cmp (st_list s) with
    | Some q => ST_Insert cmp value node s = Some (q, s)
    | None => ∃ s', ST_Insert cmp value node s = Some (node, s') ∧
                st_list s' = l_insert cmp node (st_list s) ∧ st_ok value s'
    end;
  st_remove_law value value' s node : st_ok value s → node ∈ st_list s →
    (∀ p, p ∈ st_list s → p ≠ node → value p = value' p) →
    ∃ s', ST_Remove value' node s = Some (node, s') ∧
      st_list s' = l_remove node (st_list s) ∧ st_ok value' s';
  st_valuesum_law value s : st_ok value s → ST_GetValueSum s = u64 (l_valuesum value (st_list s));
  st_by_value_law value s v : st_ok value s →
    (∀ p, p ∈ st_list s → 0 <= value p) → l_valuesum value (st_list s) < 2 ^ 64 →
    0 <= v < l_valuesum value (st_list s) →
    ST_GetNodeByValue value v s = l_by_value value v (st_list s);
  st_verify_law value cmp s : st_ok value s → ordered cmp (st_list s) → ST_Verify cmp value s = true
}.

(** ** Facts about the reference operations *)

Lemma l_find_found cmp l1 q l2 : Forall (λ p, 0 < cmp p) l1 → cmp q = 0 →
  l_find cmp (l1 ++ q :: l2) = Some q.
Proof.
  intros H1 Hq. unfold l_find. induction H1 as [|p l1 Hp H1 IH]; cbn [app].
  - by rewrite filter_cons_True by done.
  - by rewrite filter_cons_False by lia.
Qed.

Lemma l_find_missing cmp l1 l2 : Forall (λ p, 0 < cmp p) l1 → Forall (λ p, cmp p < 0) l2 →
  l_find cmp (l1 ++ l2) = None.
Proof.
  intros H1 H2. unfold l_find. induction H1 as [|p l1 Hp H1 IH]; cbn [app].
  - induction H2 as [|p l2 Hp H2 IH]; [done|]. by rewrite filter_cons_False by lia.
  - by rewrite filter_cons_False by lia.
Qed.

Lemma l_find_Some cmp l q : l_find cmp l = Some q → q ∈ l ∧ cmp q = 0.
Proof.
  unfold l_find. intros Hf. destruct (filter _ l) as [|x f] eqn:E; simpl in Hf; [done|].
  injection Hf as ->. assert (q ∈ filter (λ p, cmp p = 0) l) as Hin by (rewrite E; left).
  apply list_elem_of_filter in Hin. tauto.
Qed.

Lemma l_find_None cmp l : l_find cmp l = None ↔ ∀ q, q ∈ l → cmp q ≠ 0.
Proof.
  unfold l_find. split.
  - intros Hf q Hq Hz. destruct (filter (λ p, cmp p = 0) l) eqn:E; [|done].
    assert (q ∈ filter (λ p, cmp p = 0) l) as Hin by (apply list_elem_of_filter; auto).
    rewrite E in Hin. by apply not_elem_of_nil in Hin.
  - intros Hall. induction l as [|x l IH]; [done|].
    rewrite filter_cons_False by (apply Hall; left). apply IH. intros q Hq. apply Hall. by right.
Qed.

Lemma l_insert_app cmp node l1 l2 : Forall (λ p, 0 < cmp p) l1 → Forall (λ p, cmp p < 0) l2 →
  l_insert cmp node (l1 ++ l2) = l1 ++ node :: l2.
Proof.
  intros H1 H2. induction H1 as [|p l1 Hp H1 IH]; simpl.
  - destruct H2 as [|q l2 Hq H2]; simpl; [done|]. by destruct (Z.ltb_spec (cmp q) 0); [|lia].
  - destruct (Z.ltb_spec (cmp p) 0); [lia|]. by rewrite IH.
Qed.

Lemma l_insert_Permutation cmp node l : l_insert cmp node l ≡ₚ node :: l.
Proof.
  induction l as [|q l IH]; simpl; [done|]. destruct (cmp q <? 0); [done|].
  rewrite IH. apply Permutation_swap.
Qed.

Lemma l_insert_elem cmp node l p : p ∈ l_insert cmp node l ↔ p = node ∨ p ∈ l.
Proof. rewrite l_insert_Permutation. apply elem_of_cons. Qed.

Lemma l_remove_elem node l p : p ∈ l_remove node l ↔ p ≠ node ∧ p ∈ l.
Proof. unfold l_remove. by rewrite list_elem_of_filter. Qed.

Lemma l_remove_Permutation node l : NoDup l → node ∈ l → l ≡ₚ node :: l_remove node l.
Proof.
  intros Hnd Hin. apply NoDup_Permutation; [done| |].
  - apply NoDup_cons. split; [rewrite l_remove_elem; tauto|]. by apply NoDup_filter.
  - intros p. rewrite elem_of_cons, l_remove_elem. destruct (decide (p = node)); set_solver.
Qed.

Lemma l_remove_not_elem node l : node ∉ l → l_remove node l = l.
Proof.
  intros Hn. unfold l_remove. induction l as [|q l IH]; [done|].
  rewrite filter_cons_True by set_solver. f_equal. apply IH. set_solver.
Qed.

Lemma l_remove_middle p l1 l2 : p ∉ l1 → p ∉ l2 → l_remove p (l1 ++ p :: l2) = l1 ++ l2.
Proof.
  intros H1 H2. unfold l_remove. rewrite filter_app, filter_cons_False by tauto.
  fold (l_remove p l1) (l_remove p l2). by rewrite !l_remove_not_elem.
Qed.

Lemma l_next_app node l1 l2 : node ∉ l1 → l_next node (l1 ++ node :: l2) = head l2.
Proof.
  intros Hn. induction l1 as [|q l1 IH]; simpl.
  - by rewrite bool_decide_true.
  - rewrite bool_decide_false by set_solver. apply IH. set_solver.
Qed.

(** ** Sorted lists of nodes

    [key] maps a node to the keys its comparison function compares; a list
    is sorted when its keys increase strictly. *)

Section sorted.
Context (key : ptr → list Z).

Definition key_lt (p q : ptr) : Prop := lexcmp (key p) (key q) < 0.

Definition key_sorted (l : list ptr) : Prop := StronglySorted key_lt l.

Lemma key_lt_irrefl p : ¬ key_lt p p.
Proof. unfold key_lt. rewrite lexcmp_refl. lia. Qed.

#[global] Instance key_lt_trans : Transitive key_lt.
Proof. intros p q r. apply lexcmp_trans. Qed.

Lemma key_sorted_app l1 l2 : key_sorted (l1 ++ l2) ↔
  key_sorted l1 ∧ key_sorted l2 ∧ ∀ p q, p ∈ l1 → q ∈ l2 → key_lt p q.
Proof.
  unfold key_sorted. rewrite StronglySorted_app. naive_solver.
Qed.

Lemma key_sorted_cons p l : key_sorted (p :: l) ↔ (∀ q, q ∈ l → key_lt p q) ∧ key_sorted l.
Proof.
  split.
  - intros Hs. apply StronglySorted_inv in Hs as [Hs Hf]. split; [|done].
    intros q Hq. by eapply Forall_forall in Hf.
  - intros [Hf Hs]. constructor; [done|]. by apply Forall_forall.
Qed.

Lemma key_sorted_nodup l : key_sorted l → NoDup l.
Proof.
  induction l as [|p l IH]; [constructor|]. rewrite key_sorted_cons. intros [Hf Hs].
  constructor; [|by apply IH]. intros Hin. by apply (key_lt_irrefl p), Hf.
Qed.

(** A probe by key splits a sorted list. *)
Lemma key_sorted_probe (k : list Z) l : key_sorted l → probe_ok (λ q, lexcmp k (key q)) l.
Proof.
  induction l as [|p l IH]; intros Hs.
  { by apply (probe_missing _ _ [] []). }
  apply key_sorted_cons in Hs as [Hf Hs]. specialize (IH Hs).
  assert (lexcmp k (key p) <= 0 → Forall (λ q, lexcmp k (key q) < 0) l) as Hle.
  { intros Hk. apply Forall_forall. intros q Hq. specialize (Hf q Hq). unfold key_lt in Hf.
    destruct (decide (lexcmp k (key p) = 0)) as [E|E]; [apply lexcmp_eq in E as ->; done|].
    eapply lexcmp_trans; [|exact Hf]. lia. }
  destruct (lexcmp_cases k (key p)) as [E|[E|E]].
  - apply (probe_missing _ _ [] (p :: l)); [done|constructor|]. constructor; [lia|]. apply Hle. lia.
  - apply (probe_found _ _ [] p l); [done|constructor|done|]. apply Hle. lia.
  - destruct IH as [l1 q l2 -> H1 Hq H2|l1 l2 -> H1 H2].
    + apply (probe_found _ _ (p :: l1) q l2); [done|constructor; [lia|done]|done|done].
    + apply (probe_missing _ _ (p :: l1) l2); [done|constructor; [lia|done]|done].
Qed.

Lemma key_sorted_insert node l : key_sorted l → (∀ q, q ∈ l → key q ≠ key node) →
  key_sorted (l_insert (λ q, lexcmp (key node) (key q)) node l).
Proof.
  intros Hs Hne. destruct (key_sorted_probe (key node) l Hs) as [l1 q l2 -> H1 Hq H2|l1 l2 -> H1 H2].
  - apply lexcmp_eq in Hq. exfalso. apply (Hne q); [set_solver|done].
  - rewrite l_insert_app by done. apply key_sorted_app in Hs as (Hs1 & Hs2 & H12).
    rewrite Forall_forall in H1, H2.
    apply key_sorted_app. split; [done|]. split.
    + apply key_sorted_cons. split; [|done]. intros q Hq. by apply H2.
    + intros p q Hp Hq. apply elem_of_cons in Hq as [->|Hq]; [|by apply H12].
      unfold key_lt. rewrite lexcmp_opp. specialize (H1 p Hp). simpl in H1. lia.
Qed.

Lemma key_sorted_filter (P : ptr → Prop) `{∀ p, Decision (P p)} l : key_sorted l → key_sorted (filter P l).
Proof.
  induction l as [|p l IH]; [done|]. rewrite key_sorted_cons. intros [Hf Hs].
  rewrite filter_cons. case_decide; [|by apply IH]. apply key_sorted_cons.
  split; [|by apply IH]. intros q Hq. apply list_elem_of_filter in Hq as [_ Hq]. by apply Hf.
Qed.

Lemma key_sorted_remove node l : key_sorted l → key_sorted (l_remove node l).
Proof. apply key_sorted_filter. Qed.

Lemma key_sorted_find_self l p : key_sorted l → p ∈ l →
  l_find (λ q, lexcmp (key p) (key q)) l = Some p.
Proof.
  intros Hs Hp. apply list_elem_of_split in Hp as (l1 & l2 & ->).
  apply l_find_found; [|apply lexcmp_refl].
  apply key_sorted_app in Hs as (_ & _ & H12). apply Forall_forall. intros q Hq.
  specialize (H12 q p Hq ltac:(set_solver)). unfold key_lt in H12.
  rewrite lexcmp_opp. lia.
Qed.

Lemma key_sorted_inj l p q : key_sorted l → p ∈ l → q ∈ l → key p = key q → p = q.
Proof.
  intros Hs Hp Hq Hk. pose proof (key_sorted_find_self l p Hs Hp) as E1.
  pose proof (key_sorted_find_self l q Hs Hq) as E2. rewrite Hk in E1. congruence.
Qed.

Lemma key_sorted_find (k : list Z) l q : key_sorted l →
  l_find (λ p, lexcmp k (key p)) l = Some q ↔ q ∈ l ∧ key q = k.
Proof.
  intros Hs. split.
  - intros Hf%l_find_Some. destruct Hf as [Hq Hk]. apply lexcmp_eq in Hk. auto.
  - intros [Hq <-]. by apply key_sorted_find_self.
Qed.
End sorted.

Lemma key_sorted_ext key key' l : (∀ p, p ∈ l → key p = key' p) → key_sorted key l → key_sorted key' l.
Proof.
  intros Hk. induction l as [|p l IH]; [constructor|]. rewrite !key_sorted_cons. intros [Hf Hs]. split.
  - intros q Hq. unfold key_lt. rewrite <- (Hk p), <- (Hk q) by set_solver. by apply Hf.
  - apply IH; [|done]. intros q Hq. apply Hk. set_solver.
Qed.

Lemma probe_ext (cmp cmp' : ptr → Z) l : (∀ q, q ∈ l → cmp q = cmp' q) → probe_ok cmp l → probe_ok cmp' l.
Proof.
  intros Heq [l1 q l2 -> H1 Hq H2|l1 l2 -> H1 H2].
  - apply (probe_found _ _ l1 q l2); [done| | |].
    + rewrite Forall_forall in *. intros x Hx. rewrite <- Heq by set_solver. auto.
    + by rewrite <- Heq by set_solver.
    + rewrite Forall_forall in *. intros x Hx. rewrite <- Heq by set_solver. auto.
  - apply (probe_missing _ _ l1 l2); [done| |].
    + rewrite Forall_forall in *. intros x Hx. rewrite <- Heq by set_solver. auto.
    + rewrite Forall_forall in *. intros x Hx. rewrite <- Heq by set_solver. auto.
Qed.

Lemma l_find_ext (cmp cmp' : ptr → Z) l : (∀ q, q ∈ l → cmp q = cmp' q) → l_find cmp l = l_find cmp' l.
Proof.
  unfold l_find. induction l as [|q l IH]; intros Heq; [done|].
  assert (cmp q = cmp' q) as Hq by (apply Heq; left). rewrite !filter_cons, Hq.
  case_decide; [done|]. apply IH. intros x Hx. apply Heq. by right.
Qed.

Lemma l_nearest_next_ext (cmp cmp' : ptr → Z) l :
  (∀ q, q ∈ l → cmp q = cmp' q) → l_nearest_next cmp l = l_nearest_next cmp' l.
Proof.
  unfold l_nearest_next. induction l as [|q l IH]; intros Heq; [done|].
  assert (cmp q = cmp' q) as Hq by (apply Heq; left). rewrite !filter_cons, Hq.
  case_decide; [done|]. apply IH. intros x Hx. apply Heq. by right.
Qed.

Lemma l_nearest_prev_ext (cmp cmp' : ptr → Z) l :
  (∀ q, q ∈ l → cmp q = cmp' q) → l_nearest_prev cmp l = l_nearest_prev cmp' l.
Proof.
  intros Heq. unfold l_nearest_prev. f_equal. induction l as [|q l IH]; [done|].
  rewrite !filter_cons, (Heq q) by left. rewrite IH; [done|]. intros x Hx. apply Heq. by right.
Qed.

Lemma l_insert_ext (cmp cmp' : ptr → Z) p l :
  (∀ q, q ∈ l → cmp q = cmp' q) → l_insert cmp p l = l_insert cmp' p l.
Proof.
  induction l as [|q l IH]; intros Heq; [done|]. simpl. rewrite (Heq q) by left.
  rewrite IH; [done|]. intros x Hx. apply Heq. by right.
Qed.

(** ** Storages sorted by a key

    What the operations do when the comparison function compares keys. *)

Section keyed.
Context {S : Type} `{SL : StorageLaws S} (key : ptr → list Z) (value cmp : ptr → Z) (s : S).
Hypotheses (Hok : st_ok value s) (Hs : key_sorted key (st_list s)).

Lemma keyed_insert_new p : (∀ q, q ∈ st_list s → cmp q = lexcmp (key p) (key q)) → p ∉ st_list s →
  (∀ q, q ∈ st_list s → key q ≠ key p) →
  ∃ s', ST_Insert cmp value p s = Some (p, s') ∧ st_ok value s' ∧ key_sorted key (st_list s') ∧
    st_list s' = l_insert (λ q, lexcmp (key p) (key q)) p (st_list s).
Proof.
  intros Hcmp Hn Hnew. pose proof (st_insert_law value cmp s p Hok) as Hlaw.
  rewrite (l_find_ext _ _ _ Hcmp), (proj2 (l_find_None _ _)) in Hlaw.
  - destruct Hlaw as (s' & -> & Hl & Hok'); [|done|].
    { eapply probe_ext; [|by apply (key_sorted_probe key (key p))]. intros q Hq. by rewrite Hcmp. }
    rewrite (l_insert_ext _ _ _ _ Hcmp) in Hl. exists s'. split_and!; [done..|rewrite Hl; by apply key_sorted_insert|done].
  - intros q Hq Hz%lexcmp_eq. by apply (Hnew q).
Qed.

Lemma keyed_insert_dup p q : (∀ q, q ∈ st_list s → cmp q = lexcmp (key p) (key q)) → p ∉ st_list s →
  q ∈ st_list s → key q = key p → ST_Insert cmp value p s = Some (q, s).
Proof.
  intros Hcmp Hn Hq Hk. pose proof (st_insert_law value cmp s p Hok) as Hlaw.
  rewrite (l_find_ext _ _ _ Hcmp), (proj2 (key_sorted_find key (key p) _ q Hs)) in Hlaw by done.
  apply Hlaw; [|done]. eapply probe_ext; [|by apply (key_sorted_probe key (key p))]. intros x Hx. by rewrite Hcmp.
Qed.

Lemma keyed_find k r : (∀ q, q ∈ st_list s → cmp q = lexcmp k (key q)) →
  ST_Find cmp s = r ↔
  match r with Some q => q ∈ st_list s ∧ key q = k | None => ∀ q, q ∈ st_list s → key q ≠ k end.
Proof.
  intros Hcmp. rewrite (st_find_law _ _ _ Hok).
  - rewrite (l_find_ext _ _ _ Hcmp). destruct r as [q|]; [by apply key_sorted_find|].
    rewrite l_find_None. setoid_rewrite lexcmp_eq. naive_solver.
  - eapply probe_ext; [|by apply (key_sorted_probe key k)]. intros q Hq. by rewrite Hcmp.
Qed.

Lemma keyed_nearest_next k : (∀ q, q ∈ st_list s → cmp q = lexcmp k (key q)) →
  ST_GetNearestNext cmp s = l_nearest_next (λ q, lexcmp k (key q)) (st_list s).
Proof.
  intros Hcmp. rewrite (st_nearest_next_law _ _ _ Hok); [by apply l_nearest_next_ext|].
  eapply probe_ext; [|by apply (key_sorted_probe key k)]. intros q Hq. by rewrite Hcmp.
Qed.

Lemma keyed_nearest_prev k : (∀ q, q ∈ st_list s → cmp q = lexcmp k (key q)) →
  ST_GetNearestPrev cmp s = l_nearest_prev (λ q, lexcmp k (key q)) (st_list s).
Proof.
  intros Hcmp. rewrite (st_nearest_prev_law _ _ _ Hok); [by apply l_nearest_prev_ext|].
  eapply probe_ext; [|by apply (key_sorted_probe key k)]. intros q Hq. by rewrite Hcmp.
Qed.

Lemma keyed_verify (cmp2 : ptr → ptr → Z) :
  (∀ p q, p ∈ st_list s → q ∈ st_list s → cmp2 p q = lexcmp (key p) (key q)) → ST_Verify cmp2 value s = true.
Proof.
  clear cmp. intros Hcmp. apply (st_verify_law value); [done|]. intros l1 p l2 q l3 Hl. rewrite Hl in Hs, Hcmp.
  rewrite !Hcmp by set_solver. apply key_sorted_app in Hs as (_ & Hs' & _). apply key_sorted_cons in Hs' as [Hlt _].
  specialize (Hlt q ltac:(set_solver)). unfold key_lt in Hlt. split; [done|]. rewrite lexcmp_opp. lia.
Qed.
End keyed.

Lemma keyed_remove {S : Type} `{SL : StorageLaws S} key key' value value' (s : S) p : st_ok value s → key_sorted key (st_list s) →
  p ∈ st_list s → (∀ q, q ∈ st_list s → q ≠ p → key q = key' q ∧ value q = value' q) →
  ∃ s', ST_Remove value' p s = Some (p, s') ∧ st_ok value' s' ∧ key_sorted key' (st_list s') ∧
    st_list s' = l_remove p (st_list s).
Proof.
  intros Hok Hs Hp Hsame. destruct (st_remove_law value value' s p Hok Hp) as (s' & -> & Hl & Hok').
  { intros q Hq Hne. by apply Hsame. }
  exists s'. split_and!; [done..| |done]. rewrite Hl. apply (key_sorted_ext key); [|by apply key_sorted_remove].
  intros q [Hne Hq]%l_remove_elem. by apply Hsame.
Qed.

(** ** Walking a storage

    The loops of the form [node = first; while(node != NULL) { ...; node =
    next(node); }], with the fuel of the model; running out of it is a
    failure. *)

Fixpoint walk {St A} (fuel : nat) (next : ptr → M St (option ptr)) (f : A → ptr → M St A)
    (cur : option ptr) (acc : A) : M St A :=
  match cur with
  | None => mret acc
  | Some p =>
      match fuel with
      | O => abort
      | S fuel' => acc' ← f acc p; nxt ← next p; walk fuel' next f nxt acc'
      end
  end.

(** A walk along [l], with an invariant over the part that was visited. *)
Lemma wp_walk {St A} (next : ptr → M St (option ptr)) (f : A → ptr → M St A)
    (I : list ptr → A → St → Prop) (l : list ptr) :
  (∀ l1 p l2 acc st, l = l1 ++ p :: l2 → I l1 acc st →
     wp (f acc p) (λ acc' st', I (l1 ++ [p]) acc' st' ∧ wp (next p) (λ r st'', r = head l2 ∧ st'' = st') st') st) →
  ∀ fuel acc st, (length l <= fuel)%nat → I [] acc st →
  wp (walk fuel next f (head l) acc) (λ acc' st', I l acc' st') st.
Proof.
  intros Hstep.
  assert (∀ l2 l1 fuel acc st, l = l1 ++ l2 → (length l2 <= fuel)%nat → I l1 acc st →
    wp (walk fuel next f (head l2) acc) (λ acc' st', I l acc' st') st) as Hgen.
  { intros l2. induction l2 as [|p l2 IH]; intros l1 fuel acc st Hl Hfuel HI.
    - rewrite app_nil_r in Hl. subst l1. destruct fuel; by apply wp_ret.
    - simpl in Hfuel. destruct fuel as [|fuel]; [lia|]. simpl. apply wp_bind.
      eapply wp_mono; [by apply (Hstep l1 p l2)|]. intros acc' st' [HI' Hn].
      apply wp_bind. eapply wp_mono; [exact Hn|]. intros r st'' [-> ->].
      apply (IH (l1 ++ [p])); [by rewrite <- app_assoc|lia|done]. }
  intros fuel acc st Hf HI. by apply (Hgen l []).
Qed.

(** ** The reference implementation *)

Module ListStorage.

(** The nodes in order, each with the value it had when it was inserted. *)
Definition storage : Type := list (ptr * Z).

Fixpoint insert (cmp : ptr → Z) (node : ptr) (v : Z) (s : storage) : storage :=
  match s with
  | [] => [(node, v)]
  | q :: s' => if cmp q.1 <? 0 then (node, v) :: q :: s' else q :: insert cmp node v s'
  end.

Definition remove (node : ptr) (s : storage) : storage := filter (λ x, x.1 ≠ node) s.

#[export] Instance list_storage : Storage storage := {
  ST_New := [];
  st_list := λ s, s.*1;
  ST_IsEmpty := λ s, match s with [] => true | _ => false end;
  ST_GetFirst := λ s, head s.*1;
  ST_GetLast := λ s, last s.*1;
  ST_GetPrev := λ s p, l_prev p s.*1;
  ST_GetNext := λ s p, l_next p s.*1;
  ST_GetNearestPrev := λ cmp s, l_nearest_prev cmp s.*1;
  ST_GetNearestNext := λ cmp s, l_nearest_next cmp s.*1;
  ST_GetElements := λ s, Z.of_nat (length s);
  ST_Insert := λ cmp value node s,
    match l_find cmp s.*1 with
    | Some q => Some (q, s)
    | None => Some (node, insert cmp node (value node) s)
    end;
  ST_Remove := λ _ node s,
    if bool_decide (node ∈ s.*1) then Some (node, remove node s) else None;
  ST_Find := λ cmp s, l_find cmp s.*1;
  ST_GetValueSum := λ s, u64 (foldr (λ x acc, x.2 + acc) 0 s);
  ST_GetNodeByValue := λ value v s, l_by_value value v s.*1;
  STN_IsLinked := λ s p, bool_decide (p ∈ s.*1);
  ST_Verify := λ cmp _ s, forallb (λ x, cmp x.1 x.2 <? 0) (zip s.*1 (tail s.*1))
}.

Definition ok (value : ptr → Z) (s : storage) : Prop :=
  NoDup s.*1 ∧ Forall (λ x, x.2 = value x.1) s.

Lemma insert_fst cmp node v s : (insert cmp node v s).*1 = l_insert cmp node s.*1.
Proof.
  induction s as [|[q w] s IH]; [done|]. simpl. destruct (cmp q <? 0); simpl; [done|]. by f_equal.
Qed.

Lemma insert_Permutation cmp node v s : insert cmp node v s ≡ₚ (node, v) :: s.
Proof.
  induction s as [|q s IH]; simpl; [done|]. destruct (cmp q.1 <? 0); [done|].
  rewrite IH. apply Permutation_swap.
Qed.

Lemma remove_fst node s : (remove node s).*1 = l_remove node s.*1.
Proof.
  unfold remove, l_remove. induction s as [|[q w] s IH]; [done|]. rewrite fmap_cons.
  destruct (decide (q = node)) as [->|Hne].
  - rewrite (filter_cons_False (λ x : ptr * Z, x.1 ≠ node)) by (simpl; tauto).
    by rewrite filter_cons_False by (simpl; tauto).
  - rewrite (filter_cons_True (λ x : ptr * Z, x.1 ≠ node)) by done.
    rewrite (filter_cons_True (λ q, q ≠ node)) by done. simpl. f_equal. exact IH.
Qed.

Lemma values_sum value s : Forall (λ x, x.2 = value x.1) s →
  foldr (λ x acc, x.2 + acc) 0 s = l_valuesum value s.*1.
Proof. induction 1 as [|[p v] s Hx Hs IH]; simpl in *; [done|]. by rewrite IH, Hx. Qed.

#[export] Program Instance list_storage_laws : StorageLaws storage := { st_ok := ok }.
Next Obligation. by intros value s [Hnd _]. Qed.
Next Obligation.
  intros value value' s [Hnd Hv] Heq. split; [done|]. rewrite Forall_forall in *. intros [p v] Hx.
  rewrite (Hv _ Hx). apply Heq. apply list_elem_of_fmap. by exists (p, v).
Qed.
Next Obligation. intros value. repeat split; constructor. Qed.
Next Obligation. by intros value [|x s] _. Qed.
Next Obligation. done. Qed.
Next Obligation. done. Qed.
Next Obligation. done. Qed.
Next Obligation. done. Qed.
Next Obligation. intros value s _. simpl. by rewrite length_fmap. Qed.
Next Obligation. done. Qed.
Next Obligation. done. Qed.
Next Obligation. done. Qed.
Next Obligation. done. Qed.
Next Obligation.
  intros value cmp s node [Hnd Hv] _ Hn. simpl. destruct (l_find cmp s.*1) eqn:E; [done|].
  eexists. split; [done|]. split; [apply insert_fst|]. split.
  - rewrite insert_fst, l_insert_Permutation. by constructor.
  - rewrite insert_Permutation. by constructor.
Qed.
Next Obligation.
  intros value value' s node [Hnd Hv] Hin Heq. simpl. rewrite bool_decide_true by done.
  eexists. split; [done|]. split; [apply remove_fst|]. split.
  - rewrite remove_fst. by apply NoDup_filter.
  - rewrite Forall_forall in *. intros [p v] [Hne Hx]%list_elem_of_filter. simpl in *.
    pose proof (Hv _ Hx) as Hvx. simpl in Hvx. rewrite Hvx. apply Heq; [|done]. apply list_elem_of_fmap. by exists (p, v).
Qed.
Next Obligation. intros value s [_ Hv]. simpl. by rewrite (values_sum value). Qed.
Next Obligation. done. Qed.
Next Obligation.
  intros value cmp s _ Hord. simpl. simpl in Hord. induction s.*1 as [|p l IH]; [done|]. destruct l as [|q l]; [done|].
  simpl. apply andb_true_iff. split; [apply Z.ltb_lt, (Hord [] p [] q l); done|].
  apply IH. intros l1 x l2 y l3 Hl. apply (Hord (p :: l1) x l2 y l3). by rewrite Hl.
Qed.
End ListStorage.
