(* ===== verification/RedBlackTree.v ===== *)
(** * Red-black trees (redblacktree.h, redblacktree_impl.h,
    doublelinkedringlist.c)

    The storage of the handlespace: a red-black tree with parent pointers,
    whose nodes also carry the sum of the values of their subtree.  The code
    is a template with two instances: the simple tree, which the build uses
    (simpleredblacktree.c), and the leaf-linked tree, whose nodes are also
    linked in a double-linked ring list in the order of the tree
    (leaflinkedredblacktree.c).  The preprocessor symbol that selects them
    is the class argument [USE_LEAFLINKED].

    The memory has one map per member of the node structure.  The address
    [LTree] is the tree's own node: [NullNode] in the members of the tree,
    [List.Node] (to which [List.Head] always points) in [Prev] and [Next].
    Mirrored code is one definition with a direction [d]; [Subtree Left]
    and [Subtree Right] are the members [LeftSubtree] and [RightSubtree].
    The member [Value] belongs to the client, who passes it as the function
    [value]; [cmp p] is the result of [ComparisonFunction] on the searched
    node and [p].  [Elements] counts nodes that are in memory at the same
    time and does not wrap. *)

From S2P Require Import Prelude Storage.
From stdpp Require Import base list gmap numbers option countable.
#[local] Open Scope Z_scope.

(** [#ifdef USE_LEAFLINKED] *)
Class LeafLinked := USE_LEAFLINKED : bool.

(** ** Memory *)

Inductive RedBlackTreeNodeColorType := Red | Black.

Inductive dir := Left | Right.

Definition other (d : dir) : dir := match d with Left => Right | Right => Left end.

Inductive link := LNull | LTree | LNode (p : ptr).

#[export] Instance color_eq_dec : EqDecision RedBlackTreeNodeColorType.
Proof. solve_decision. Defined.
#[export] Instance dir_eq_dec : EqDecision dir.
Proof. solve_decision. Defined.
#[export] Instance link_eq_dec : EqDecision link.
Proof. solve_decision. Defined.

#[export] Instance dir_countable : Countable dir :=
  inj_countable' (λ d, match d with Left => true | Right => false end)
    (λ b : bool, if b then Left else Right) ltac:(by intros []).

#[export] Instance link_countable : Countable link :=
  inj_countable' (λ x, match x with LNull => None | LTree => Some None | LNode p => Some (Some p) end)
    (λ o : option (option ptr), match o with None => LNull | Some None => LTree | Some (Some p) => LNode p end)
    ltac:(by intros []).

Record RedBlackTree := {
  rbt_Parent : gmap link link;
  rbt_Subtree : gmap (dir * link) link;
  rbt_Color : gmap link RedBlackTreeNodeColorType;
  rbt_ValueSum : gmap link Z;
  rbt_Prev : gmap link link;
  rbt_Next : gmap link link;
  rbt_Elements : Z
}.

(** An entry that was never written has the value [NodeNew] gives it. *)
Definition field `{Countable K} {A} (dflt : A) (m : gmap K A) (x : K) : A := default dflt (m !! x).

Definition Parent (s : RedBlackTree) (x : link) : link := field LNull (rbt_Parent s) x.
Definition Subtree (d : dir) (s : RedBlackTree) (x : link) : link := field LNull (rbt_Subtree s) (d, x).
Definition Color (s : RedBlackTree) (x : link) : RedBlackTreeNodeColorType := field Black (rbt_Color s) x.
Definition ValueSum (s : RedBlackTree) (x : link) : Z := field 0 (rbt_ValueSum s) x.
Definition Prev (s : RedBlackTree) (x : link) : link := field LNull (rbt_Prev s) x.
Definition Next (s : RedBlackTree) (x : link) : link := field LNull (rbt_Next s) x.

Definition set_Parent (x v : link) (s : RedBlackTree) : RedBlackTree :=
  {| rbt_Parent := <[x := v]> (rbt_Parent s); rbt_Subtree := rbt_Subtree s; rbt_Color := rbt_Color s;
     rbt_ValueSum := rbt_ValueSum s; rbt_Prev := rbt_Prev s; rbt_Next := rbt_Next s; rbt_Elements := rbt_Elements s |}.
Definition set_Subtree (d : dir) (x v : link) (s : RedBlackTree) : RedBlackTree :=
  {| rbt_Parent := rbt_Parent s; rbt_Subtree := <[(d, x) := v]> (rbt_Subtree s); rbt_Color := rbt_Color s;
     rbt_ValueSum := rbt_ValueSum s; rbt_Prev := rbt_Prev s; rbt_Next := rbt_Next s; rbt_Elements := rbt_Elements s |}.
Definition set_Color (x : link) (v : RedBlackTreeNodeColorType) (s : RedBlackTree) : RedBlackTree :=
  {| rbt_Parent := rbt_Parent s; rbt_Subtree := rbt_Subtree s; rbt_Color := <[x := v]> (rbt_Color s);
     rbt_ValueSum := rbt_ValueSum s; rbt_Prev := rbt_Prev s; rbt_Next := rbt_Next s; rbt_Elements := rbt_Elements s |}.
Definition set_ValueSum (x : link) (v : Z) (s : RedBlackTree) : RedBlackTree :=
  {| rbt_Parent := rbt_Parent s; rbt_Subtree := rbt_Subtree s; rbt_Color := rbt_Color s;
     rbt_ValueSum := <[x := v]> (rbt_ValueSum s); rbt_Prev := rbt_Prev s; rbt_Next := rbt_Next s; rbt_Elements := rbt_Elements s |}.
Definition set_Prev (x v : link) (s : RedBlackTree) : RedBlackTree :=
  {| rbt_Parent := rbt_Parent s; rbt_Subtree := rbt_Subtree s; rbt_Color := rbt_Color s;
     rbt_ValueSum := rbt_ValueSum s; rbt_Prev := <[x := v]> (rbt_Prev s); rbt_Next := rbt_Next s; rbt_Elements := rbt_Elements s |}.
Definition set_Next (x v : link) (s : RedBlackTree) : RedBlackTree :=
  {| rbt_Parent := rbt_Parent s; rbt_Subtree := rbt_Subtree s; rbt_Color := rbt_Color s;
     rbt_ValueSum := rbt_ValueSum s; rbt_Prev := rbt_Prev s; rbt_Next := <[x := v]> (rbt_Next s); rbt_Elements := rbt_Elements s |}.
Definition set_Elements (v : Z) (s : RedBlackTree) : RedBlackTree :=
  {| rbt_Parent := rbt_Parent s; rbt_Subtree := rbt_Subtree s; rbt_Color := rbt_Color s;
     rbt_ValueSum := rbt_ValueSum s; rbt_Prev := rbt_Prev s; rbt_Next := rbt_Next s; rbt_Elements := v |}.

(** [x->member] and [x->member = v], undefined on a NULL pointer. *)
Definition rd {A} (member : RedBlackTree → link → A) (x : link) : M RedBlackTree A :=
  match x with LNull => abort | _ => gets (λ s, member s x) end.

Definition wr {A} (member : link → A → RedBlackTree → RedBlackTree) (x : link) (v : A) : M RedBlackTree () :=
  match x with LNull => abort | _ => modify (member x v) end.

#[global] Arguments rd : simpl never.
#[global] Arguments wr : simpl never.

(** Enough for every loop: a path of the tree has at most one node per element. *)
Definition treeFuel (s : RedBlackTree) : nat := S (S (Z.to_nat (rbt_Elements s))).

#[global] Arguments treeFuel : simpl never.

(** ** The ring list *)

Definition doubleLinkedRingListNodeNew (node : link) : M RedBlackTree () :=
  wr set_Prev node LNull;; wr set_Next node LNull.

Definition doubleLinkedRingListNodeDelete (node : link) : M RedBlackTree () :=
  wr set_Prev node LNull;; wr set_Next node LNull.

Definition doubleLinkedRingListNew : M RedBlackTree () :=
  wr set_Prev LTree LTree;; wr set_Next LTree LTree.

Definition doubleLinkedRingListDelete : M RedBlackTree () :=
  wr set_Prev LTree LNull;; wr set_Next LTree LNull.

Definition doubleLinkedRingListAddAfter (after node : link) : M RedBlackTree () :=
  x ← rd Next after; wr set_Next node x;;
  wr set_Prev node after;;
  x ← rd Next after; wr set_Prev x node;;
  wr set_Next after node.

Definition doubleLinkedRingListAddHead (node : link) : M RedBlackTree () :=
  doubleLinkedRingListAddAfter LTree node.

Definition doubleLinkedRingListAddTail (node : link) : M RedBlackTree () :=
  x ← rd Prev LTree; doubleLinkedRingListAddAfter x node.

Definition doubleLinkedRingListRemNode (node : link) : M RedBlackTree () :=
  prev ← rd Prev node; next ← rd Next node; wr set_Next prev next;;
  next ← rd Next node; prev ← rd Prev node; wr set_Prev next prev;;
  wr set_Prev node LNull;;
  wr set_Next node LNull.

(** ** Nodes and trees *)

Definition RedBlackTreeNodeNew `{LeafLinked} (node : link) : M RedBlackTree () :=
  (if USE_LEAFLINKED then doubleLinkedRingListNodeNew node else mret tt);;
  wr set_Parent node LNull;;
  wr (set_Subtree Left) node LNull;;
  wr (set_Subtree Right) node LNull;;
  wr set_Color node Black;;
  wr set_ValueSum node 0.

Definition RedBlackTreeNodeDelete `{LeafLinked} (node : link) : M RedBlackTree () :=
  wr set_Parent node LNull;;
  wr (set_Subtree Left) node LNull;;
  wr (set_Subtree Right) node LNull;;
  wr set_Color node Black;;
  wr set_ValueSum node 0;;
  (if USE_LEAFLINKED then doubleLinkedRingListNodeDelete node else mret tt).

Definition RedBlackTreeNodeIsLinked (s : RedBlackTree) (node : link) : bool :=
  bool_decide (Subtree Left s node ≠ LNull).

Definition RedBlackTreeNew : RedBlackTree := {|
  rbt_Parent := {[ LTree := LTree ]};
  rbt_Subtree := {[ (Left, LTree) := LTree; (Right, LTree) := LTree ]};
  rbt_Color := {[ LTree := Black ]};
  rbt_ValueSum := {[ LTree := 0 ]};
  rbt_Prev := {[ LTree := LTree ]};
  rbt_Next := {[ LTree := LTree ]};
  rbt_Elements := 0
|}.

Definition RedBlackTreeDelete `{LeafLinked} : M RedBlackTree () :=
  modify (set_Elements 0);;
  wr set_Parent LTree LNull;;
  wr (set_Subtree Left) LTree LNull;;
  wr (set_Subtree Right) LTree LNull;;
  (if USE_LEAFLINKED then doubleLinkedRingListDelete else mret tt).

Definition RedBlackTreeIsEmpty (s : RedBlackTree) : bool := bool_decide (Subtree Left s LTree = LTree).

Definition RedBlackTreeGetElements (s : RedBlackTree) : Z := rbt_Elements s.

(** ** Walks in the tree *)

(** [while(node->XSubtree != &NullNode) node = node->XSubtree;] *)
Fixpoint descend (fuel : nat) (d : dir) (node : link) : M RedBlackTree link :=
  x ← rd (Subtree d) node;
  if decide (x = LTree) then mret node
  else match fuel with O => abort | S fuel' => descend fuel' d x end.

(** [while((parent != &NullNode) && (node == parent->XSubtree)) ...] *)
Fixpoint climb (fuel : nat) (d : dir) (node parent : link) : M RedBlackTree link :=
  if decide (parent = LTree) then mret parent
  else
    x ← rd (Subtree d) parent;
    if decide (node = x) then
      match fuel with
      | O => abort
      | S fuel' => up ← rd Parent parent; climb fuel' d parent up
      end
    else mret parent.

(** The neighbour on side [d] in the order of the tree. *)
Definition RedBlackTreeInternalFind (d : dir) (cmpNode : link) : M RedBlackTree link :=
  fuel ← gets treeFuel;
  node ← rd (Subtree d) cmpNode;
  if decide (node = LTree) then
    parent ← rd Parent cmpNode;
    climb fuel d cmpNode parent
  else descend fuel (other d) node.

Definition RedBlackTreeInternalFindPrev : link → M RedBlackTree link := RedBlackTreeInternalFind Left.
Definition RedBlackTreeInternalFindNext : link → M RedBlackTree link := RedBlackTreeInternalFind Right.

(** A node pointer that is returned: NULL for [NullNode] and for the head of
    the list. *)
Definition unlessHead (x : link) : link := if decide (x = LTree) then LNull else x.

(** The first node of the simple tree; the last one for [Right]. *)
Definition outermost (d : dir) : M RedBlackTree link :=
  fuel ← gets treeFuel;
  node ← rd (Subtree d) LTree;
  node ← (if decide (node = LTree) then rd (Subtree (other d)) LTree else mret node);
  x ← descend fuel d node;
  mret (unlessHead x).

Definition RedBlackTreeGetFirst `{LeafLinked} : M RedBlackTree link :=
  if USE_LEAFLINKED then x ← rd Next LTree; mret (unlessHead x) else outermost Left.

Definition RedBlackTreeGetLast `{LeafLinked} : M RedBlackTree link :=
  if USE_LEAFLINKED then x ← rd Prev LTree; mret (unlessHead x) else outermost Right.

Definition RedBlackTreeGetPrev `{LeafLinked} (node : link) : M RedBlackTree link :=
  x ← (if USE_LEAFLINKED then rd Prev node else RedBlackTreeInternalFindPrev node); mret (unlessHead x).

Definition RedBlackTreeGetNext `{LeafLinked} (node : link) : M RedBlackTree link :=
  x ← (if USE_LEAFLINKED then rd Next node else RedBlackTreeInternalFindNext node); mret (unlessHead x).

(** [rbt->ComparisonFunction(cmpNode, x)] *)
Definition compare (cmp : ptr → Z) (x : link) : M RedBlackTree Z :=
  match x with LNode p => mret (cmp p) | _ => abort end.

Fixpoint findFrom (fuel : nat) (cmp : ptr → Z) (node : link) : M RedBlackTree link :=
  if decide (node = LTree) then mret LNull
  else match fuel with
  | O => abort
  | S fuel' =>
      cmpResult ← compare cmp node;
      if cmpResult =? 0 then mret node
      else if cmpResult <? 0 then x ← rd (Subtree Left) node; findFrom fuel' cmp x
      else x ← rd (Subtree Right) node; findFrom fuel' cmp x
  end.

Definition RedBlackTreeFind (cmp : ptr → Z) : M RedBlackTree link :=
  fuel ← gets treeFuel;
  root ← rd (Subtree Left) LTree;
  findFrom fuel cmp root.

(** The descent of [GetNearestPrev] and [GetNearestNext].  [nodePtr] points
    to a subtree member: side [e] of the node [q] is the pair [(e, q)]. *)
Fixpoint nearestFrom (fuel : nat) (cmp : ptr → Z) (nodePtr : dir * link) (parentPtr : option (dir * link)) :
    M RedBlackTree (link + (dir * link) * option (dir * link)) :=
  node ← rd (Subtree nodePtr.1) nodePtr.2;
  if decide (node = LTree) then mret (inr (nodePtr, parentPtr))
  else match fuel with
  | O => abort
  | S fuel' =>
      cmpResult ← compare cmp node;
      if cmpResult <? 0 then nearestFrom fuel' cmp (Left, node) (Some nodePtr)
      else if 0 <? cmpResult then nearestFrom fuel' cmp (Right, node) (Some nodePtr)
      else mret (inl node)
  end.

(** The nearest node on side [d]: [GetNearestPrev] for [Left],
    [GetNearestNext] for [Right]. *)
Definition RedBlackTreeGetNearest `{LeafLinked} (d : dir) (cmp : ptr → Z) : M RedBlackTree link :=
  fuel ← gets treeFuel;
  r ← nearestFrom fuel cmp (Left, LTree) None;
  match r with
  | inl node => match d with Left => RedBlackTreeGetPrev node | Right => RedBlackTreeGetNext node end
  | inr (nodePtr, None) => mret LNull
  | inr (nodePtr, Some parentPtr) =>
      parent ← rd (Subtree parentPtr.1) parentPtr.2;
      if decide (nodePtr = (other d, parent)) then mret parent
      else
        node ← rd (Subtree d) parent;
        if decide (node = LTree) then
          up ← rd Parent parent;
          x ← climb fuel d parent up;
          mret (unlessHead x)
        else
          x ← descend fuel (other d) node;
          mret (unlessHead x)
  end.

Definition RedBlackTreeGetNearestPrev `{LeafLinked} : (ptr → Z) → M RedBlackTree link := RedBlackTreeGetNearest Left.
Definition RedBlackTreeGetNearestNext `{LeafLinked} : (ptr → Z) → M RedBlackTree link := RedBlackTreeGetNearest Right.

(** ** Value sums *)

(** [x->Value], an [unsigned long long] *)
Definition Value (value : ptr → Z) (x : link) : Z := match x with LNode p => u64 (value p) | _ => 0 end.

Definition RedBlackTreeUpdateValueSum (value : ptr → Z) (node : link) : M RedBlackTree () :=
  l ← rd (Subtree Left) node;
  ls ← rd ValueSum l;
  r ← rd (Subtree Right) node;
  rs ← rd ValueSum r;
  wr set_ValueSum node (u64 (ls + Value value node + rs)).

Fixpoint RedBlackTreeUpdateValueSumsUpToRoot (fuel : nat) (value : ptr → Z) (node : link) : M RedBlackTree () :=
  if decide (node = LTree) then mret tt
  else match fuel with
  | O => abort
  | S fuel' =>
      RedBlackTreeUpdateValueSum value node;;
      up ← rd Parent node;
      RedBlackTreeUpdateValueSumsUpToRoot fuel' value up
  end.

Definition RedBlackTreeGetValueSum : M RedBlackTree Z :=
  root ← rd (Subtree Left) LTree;
  rd ValueSum root.

Fixpoint byValueFrom (fuel : nat) (value : ptr → Z) (v : Z) (node : link) : M RedBlackTree link :=
  l ← rd (Subtree Left) node;
  ls ← rd ValueSum l;
  if v <? ls then
    if decide (l = LTree) then mret node
    else match fuel with O => abort | S fuel' => byValueFrom fuel' value v l end
  else if v <? u64 (ls + Value value node) then mret node
  else
    r ← rd (Subtree Right) node;
    if decide (r = LTree) then mret node
    else match fuel with
    | O => abort
    | S fuel' => byValueFrom fuel' value (u64 (v - u64 (ls + Value value node))) r
    end.

Definition RedBlackTreeGetNodeByValue (value : ptr → Z) (v : Z) : M RedBlackTree link :=
  fuel ← gets treeFuel;
  root ← rd (Subtree Left) LTree;
  node ← byValueFrom fuel value v root;
  mret (unlessHead node).

(** ** Rotation *)

(** Replaces [node] by [lower] as a child of [upparent]; the side [d] is
    tested first. *)
Definition replaceChild (d : dir) (upparent node lower : link) : M RedBlackTree () :=
  x ← rd (Subtree d) upparent;
  if decide (node = x) then wr (set_Subtree d) upparent lower
  else
    y ← rd (Subtree (other d)) upparent;
    CHECK (bool_decide (node = y));;
    wr (set_Subtree (other d)) upparent lower.

Definition RedBlackTreeRotate (d : dir) (value : ptr → Z) (node : link) : M RedBlackTree () :=
  lower ← rd (Subtree (other d)) node;
  low ← rd (Subtree d) lower;
  wr (set_Subtree (other d)) node low;;
  wr set_Parent low node;;
  upparent ← rd Parent node;
  wr set_Parent lower upparent;;
  replaceChild d upparent node lower;;
  wr (set_Subtree d) lower node;;
  wr set_Parent node lower;;
  RedBlackTreeUpdateValueSum value node;;
  up ← rd Parent node;
  RedBlackTreeUpdateValueSum value up.

Definition RedBlackTreeRotateLeft : (ptr → Z) → link → M RedBlackTree () := RedBlackTreeRotate Left.
Definition RedBlackTreeRotateRight : (ptr → Z) → link → M RedBlackTree () := RedBlackTreeRotate Right.

(** ** Insertion *)

(** The search for the location: a node with the same key, or the parent of
    the new node and the last result of the comparison. *)
Fixpoint locate (fuel : nat) (cmp : ptr → Z) (where_ parent : link) (cmpResult : Z) :
    M RedBlackTree (link + link * Z) :=
  if decide (where_ = LTree) then mret (inr (parent, cmpResult))
  else match fuel with
  | O => abort
  | S fuel' =>
      cmpResult ← compare cmp where_;
      if cmpResult <? 0 then x ← rd (Subtree Left) where_; locate fuel' cmp x where_ cmpResult
      else if 0 <? cmpResult then x ← rd (Subtree Right) where_; locate fuel' cmp x where_ cmpResult
      else mret (inl where_)
  end.

(** Links the node into tree and list. *)
Definition linkNode `{LeafLinked} (value : ptr → Z) (parent : link) (cmpResult : Z) (node : link) : M RedBlackTree () :=
  wr (set_Subtree (if cmpResult <? 0 then Left else Right)) parent node;;
  wr set_Parent node parent;;
  wr (set_Subtree Left) node LTree;;
  wr (set_Subtree Right) node LTree;;
  wr set_ValueSum node (Value value node);;
  (if USE_LEAFLINKED then
     prev ← RedBlackTreeInternalFindPrev node;
     if decide (prev = LTree) then doubleLinkedRingListAddHead node
     else doubleLinkedRingListAddAfter prev node
   else mret tt);;
  modify (λ s, set_Elements (rbt_Elements s + 1) s).

(** The loop that restores the red-black properties.  [d] is the side of
    the parent. *)
Fixpoint insertFixup (fuel : nat) (value : ptr → Z) (node parent : link) : M RedBlackTree () :=
  color ← rd Color parent;
  if decide (color = Red) then
    match fuel with
    | O => abort
    | S fuel' =>
        grandpa ← rd Parent parent;
        left ← rd (Subtree Left) grandpa;
        let d := if decide (parent = left) then Left else Right in
        uncle ← rd (Subtree (other d)) grandpa;
        uncleColor ← rd Color uncle;
        if decide (uncleColor = Red) then
          wr set_Color parent Black;;
          wr set_Color uncle Black;;
          wr set_Color grandpa Red;;
          up ← rd Parent grandpa;
          insertFixup fuel' value grandpa up
        else
          inner ← rd (Subtree (other d)) parent;
          parent ← (if decide (node = inner) then
                      RedBlackTreeRotate d value parent;;
                      up ← rd Parent node;
                      CHECK (bool_decide (grandpa = up));;
                      mret node
                    else mret parent);
          wr set_Color parent Black;;
          wr set_Color grandpa Red;;
          RedBlackTreeRotate (other d) value grandpa
    end
  else mret tt.

(** [rbt->NullNode.LeftSubtree->Color = color] *)
Definition colorRoot (color : RedBlackTreeNodeColorType) : M RedBlackTree () :=
  root ← rd (Subtree Left) LTree;
  wr set_Color root color.

Definition RedBlackTreeInsert `{LeafLinked} (cmp value : ptr → Z) (node : link) : M RedBlackTree link :=
  fuel ← gets treeFuel;
  root ← rd (Subtree Left) LTree;
  r ← locate fuel cmp root LTree (-1);
  match r with
  | inl result => mret result
  | inr (parent, cmpResult) =>
      linkNode value parent cmpResult node;;
      up ← rd Parent node;
      RedBlackTreeUpdateValueSumsUpToRoot fuel value up;;
      wr set_Color node Red;;
      insertFixup fuel value node parent;;
      colorRoot Black;;
      mret node
  end.

(** ** Removal *)

(** Puts [next] in the place of [node]; they exchange their colors. *)
Definition replaceNode (node next : link) (nextColor : RedBlackTreeNodeColorType) : M RedBlackTree () :=
  delParent ← rd Parent node;
  wr set_Parent next delParent;;
  x ← rd (Subtree Left) node; wr (set_Subtree Left) next x;;
  x ← rd (Subtree Right) node; wr (set_Subtree Right) next x;;
  x ← rd (Subtree Left) next; wr set_Parent x next;;
  x ← rd (Subtree Right) next; wr set_Parent x next;;
  color ← rd Color node; wr set_Color next color;;
  wr set_Color node nextColor;;
  replaceChild Left delParent node next.

(** Takes a node with two children out of the tree: the next node takes its
    place and its color.  Returns the child that moved up to the place of
    the next node. *)
Definition unlinkInner `{LeafLinked} (fuel : nat) (value : ptr → Z) (node : link) : M RedBlackTree link :=
  next ← RedBlackTreeGetNext node;
  nextParent ← rd Parent next;
  nextColor ← rd Color next;
  CHECK (bool_decide (next ≠ LTree));;
  up ← rd Parent next;
  CHECK (bool_decide (up ≠ LTree));;
  left ← rd (Subtree Left) next;
  CHECK (bool_decide (left = LTree));;
  child ← rd (Subtree Right) next;
  wr set_Parent child nextParent;;
  replaceChild Left nextParent next child;;
  replaceNode node next nextColor;;
  RedBlackTreeUpdateValueSumsUpToRoot fuel value next;;
  RedBlackTreeUpdateValueSumsUpToRoot fuel value nextParent;;
  mret child.

(** Takes a node with at most one child out of the tree. *)
Definition unlinkOuter (fuel : nat) (value : ptr → Z) (node : link) : M RedBlackTree link :=
  CHECK (bool_decide (node ≠ LTree));;
  left ← rd (Subtree Left) node;
  right ← rd (Subtree Right) node;
  CHECK (bool_decide (left = LTree) || bool_decide (right = LTree));;
  let child := if decide (left = LTree) then right else left in
  delParent ← rd Parent node;
  wr set_Parent child delParent;;
  replaceChild Left delParent node child;;
  RedBlackTreeUpdateValueSumsUpToRoot fuel value delParent;;
  mret child.

(** One round on the side [d] of [child]: the sister is made black. *)
Definition blackSister (d : dir) (value : ptr → Z) (parent : link) : M RedBlackTree link :=
  sister ← rd (Subtree (other d)) parent;
  CHECK (bool_decide (sister ≠ LTree));;
  color ← rd Color sister;
  if decide (color = Red) then
    wr set_Color sister Black;;
    wr set_Color parent Red;;
    RedBlackTreeRotate d value parent;;
    sister ← rd (Subtree (other d)) parent;
    CHECK (bool_decide (sister ≠ LTree));;
    mret sister
  else mret sister.

(** The end of the loop: the sister has a red child. *)
Definition borrowBlack (d : dir) (value : ptr → Z) (parent sister : link) : M RedBlackTree () :=
  far ← rd (Subtree (other d)) sister;
  farColor ← rd Color far;
  sister ← (if decide (farColor = Black) then
              near ← rd (Subtree d) sister;
              nearColor ← rd Color near;
              CHECK (bool_decide (nearColor = Red));;
              wr set_Color near Black;;
              wr set_Color sister Red;;
              RedBlackTreeRotate (other d) value sister;;
              sister ← rd (Subtree (other d)) parent;
              CHECK (bool_decide (sister ≠ LTree));;
              mret sister
            else mret sister);
  color ← rd Color parent;
  wr set_Color sister color;;
  far ← rd (Subtree (other d)) sister;
  wr set_Color far Black;;
  wr set_Color parent Black;;
  RedBlackTreeRotate d value parent.

(** The loop; it returns the last value of [child]. *)
Fixpoint removeFixup (fuel : nat) (value : ptr → Z) (child : link) : M RedBlackTree link :=
  color ← rd Color child;
  if decide (color = Black) then
    match fuel with
    | O => abort
    | S fuel' =>
        parent ← rd Parent child;
        left ← rd (Subtree Left) parent;
        d ← (if decide (child = left) then mret Left
             else right ← rd (Subtree Right) parent; CHECK (bool_decide (child = right));; mret Right);
        sister ← blackSister d value parent;
        near ← rd (Subtree d) sister;
        nearColor ← rd Color near;
        far ← rd (Subtree (other d)) sister;
        farColor ← rd Color far;
        if decide (nearColor = Black ∧ farColor = Black) then
          wr set_Color sister Red;;
          removeFixup fuel' value parent
        else
          borrowBlack d value parent sister;;
          mret child
    end
  else mret child.

Definition RedBlackTreeRemove `{LeafLinked} (value : ptr → Z) (node : link) : M RedBlackTree link :=
  fuel ← gets treeFuel;
  linked ← rd RedBlackTreeNodeIsLinked node;
  CHECK linked;;
  left ← rd (Subtree Left) node;
  right ← rd (Subtree Right) node;
  child ← (if decide (left ≠ LTree ∧ right ≠ LTree) then unlinkInner fuel value node
           else unlinkOuter fuel value node);
  wr set_Parent node LNull;;
  wr (set_Subtree Right) node LNull;;
  wr (set_Subtree Left) node LNull;;
  (if USE_LEAFLINKED then
     doubleLinkedRingListRemNode node;;
     wr set_Prev node LNull;;
     wr set_Next node LNull
   else mret tt);;
  s ← get;
  CHECK (0 <? rbt_Elements s);;
  modify (λ s, set_Elements (rbt_Elements s - 1) s);;
  color ← rd Color node;
  (if decide (color = Black) then
     colorRoot Red;;
     child ← removeFixup fuel value child;
     wr set_Color child Black;;
     colorRoot Black
   else mret tt);;
  mret node.

(** ** Verification *)

(** The list of a leaf-linked tree at [node], behind [lastListNode]. *)
Definition verifyList (node lastListNode : link) : M RedBlackTree link :=
  x ← rd Next lastListNode;
  CHECK (bool_decide (x ≠ LTree));;
  CHECK (bool_decide (x = node));;
  prev ← RedBlackTreeInternalFindPrev node;
  y ← rd Prev x;
  CHECK (bool_decide (y = prev));;
  next ← RedBlackTreeInternalFindNext node;
  y ← rd Next x;
  CHECK (bool_decide (y = next));;
  mret x.

(** [compareNodes a b] is the result of [ComparisonFunction] on two nodes of
    the tree.  The result is the black height, with the last visited node of
    the list and the number of nodes. *)
Fixpoint RedBlackTreeInternalVerify `{LeafLinked} (fuel : nat) (compareNodes : ptr → ptr → Z) (value : ptr → Z)
    (parent node lastListNode : link) (counter : Z) : M RedBlackTree (Z * link * Z) :=
  match node with
  | LNode p =>
      match fuel with
      | O => abort
      | S fuel' =>
          up ← rd Parent node;
          CHECK (bool_decide (up = parent));;
          left ← rd (Subtree Left) node;
          (match left with
           | LTree => mret tt
           | _ => c ← compare (compareNodes p) left; CHECK (0 <? c)
           end);;
          right ← rd (Subtree Right) node;
          (match right with
           | LTree => mret tt
           | _ => c ← compare (compareNodes p) right; CHECK (c <? 0)
           end);;
          sum ← rd ValueSum node;
          ls ← rd ValueSum left;
          rs ← rd ValueSum right;
          CHECK (sum =? u64 (ls + Value value node + rs));;
          r ← RedBlackTreeInternalVerify fuel' compareNodes value node left lastListNode counter;
          let '(leftHeight, lastListNode, counter) := r in
          lastListNode ← (if USE_LEAFLINKED then verifyList node lastListNode else mret lastListNode);
          r ← RedBlackTreeInternalVerify fuel' compareNodes value node right lastListNode (counter + 1);
          let '(rightHeight, lastListNode, counter) := r in
          CHECK (negb (leftHeight =? 0) || negb (rightHeight =? 0));;
          CHECK (leftHeight =? rightHeight);;
          color ← rd Color node;
          if decide (color = Red) then
            lc ← rd Color left;
            CHECK (bool_decide (lc = Black));;
            rc ← rd Color right;
            CHECK (bool_decide (rc = Black));;
            mret (leftHeight, lastListNode, counter)
          else mret (leftHeight + 1, lastListNode, counter)
      end
  | LTree => mret (1, lastListNode, counter)
  | LNull => abort
  end.

Definition RedBlackTreeVerify `{LeafLinked} (compareNodes : ptr → ptr → Z) (value : ptr → Z) : M RedBlackTree () :=
  fuel ← gets treeFuel;
  color ← rd Color LTree;
  CHECK (bool_decide (color = Black));;
  sum ← rd ValueSum LTree;
  CHECK (sum =? 0);;
  root ← rd (Subtree Left) LTree;
  r ← RedBlackTreeInternalVerify fuel compareNodes value LTree root LTree 0;
  let '(height, _, counter) := r in
  CHECK (negb (height =? 0));;
  s ← get;
  CHECK (counter =? rbt_Elements s).
