(* ===== verification/RedBlackTreeShape.v ===== *)
(** * Functional trees and their representation in memory

    [tree] is the tree the pointers form; a [frame] is a node without one of
    its subtrees, and a list of frames (innermost first) is the context of a
    subtree.  [zipper X s t k]: the memory [s] holds the tree [t] in the context
    [k]; a node that is neither in this tree nor in [X] is unlinked.  The
    focus moves freely ([zip_up], [zip_down]), so that each piece of code
    is described where it works, and rotation is the same in every context. *)

From S2P Require Import Prelude Storage RedBlackTree.
From stdpp Require Import base list gmap numbers option sets.
#[local] Open Scope Z_scope.

(** ** Trees *)

Inductive tree := E | T (c : RedBlackTreeNodeColorType) (l : tree) (p : ptr) (r : tree).

#[export] Instance tree_E_dec (t : tree) : Decision (t = E).
Proof. destruct t; [by left|by right]. Defined.

(** The node with [x] on side [d]. *)
Definition node (d : dir) (c : RedBlackTreeNodeColorType) (x : tree) (p : ptr) (y : tree) : tree :=
  match d with Left => T c x p y | Right => T c y p x end.

Fixpoint nodes (t : tree) : list ptr :=
  match t with E => [] | T _ l p r => nodes l ++ p :: nodes r end.

Definition root (t : tree) : link := match t with E => LTree | T _ _ p _ => LNode p end.

Definition color (t : tree) : RedBlackTreeNodeColorType := match t with E => Black | T c _ _ _ => c end.

(** The tree with its root painted. *)
Definition paint (c : RedBlackTreeNodeColorType) (t : tree) : tree :=
  match t with E => E | T _ l p r => T c l p r end.

Record frame := F { f_side : dir; f_color : RedBlackTreeNodeColorType; f_node : ptr; f_sister : tree }.

Definition fill (f : frame) (t : tree) : tree := node (f_side f) (f_color f) t (f_node f) (f_sister f).

Fixpoint plug (t : tree) (k : list frame) : tree :=
  match k with [] => t | f :: k' => plug (fill f t) k' end.

(** The nodes left and right of the hole. *)
Fixpoint lefts (k : list frame) : list ptr :=
  match k with
  | [] => []
  | F Left _ _ _ :: k' => lefts k'
  | F Right _ p u :: k' => lefts k' ++ nodes u ++ [p]
  end.

Fixpoint rights (k : list frame) : list ptr :=
  match k with
  | [] => []
  | F Left _ p u :: k' => p :: nodes u ++ rights k'
  | F Right _ _ _ :: k' => rights k'
  end.

Definition parent (k : list frame) : link := match k with [] => LTree | f :: _ => LNode (f_node f) end.

(** The member of the parent that points to the hole. *)
Definition side (k : list frame) : dir := match k with [] => Left | f :: _ => f_side f end.

Lemma other_other d : other (other d) = d.
Proof. by destruct d. Qed.

Lemma other_ne d : other d ≠ d.
Proof. by destruct d. Qed.

Lemma dir_cases d e : e = d ∨ e = other d.
Proof. destruct d, e; auto. Qed.

Lemma node_other d c x p y : node (other d) c x p y = node d c y p x.
Proof. by destruct d. Qed.

Lemma root_node d c x p y : root (node d c x p y) = LNode p.
Proof. by destruct d. Qed.

Lemma color_node d c x p y : color (node d c x p y) = c.
Proof. by destruct d. Qed.

Lemma nodes_paint c t : nodes (paint c t) = nodes t.
Proof. by destruct t. Qed.

Lemma paint_node c d c' x p y : paint c (node d c' x p y) = node d c x p y.
Proof. by destruct d. Qed.

Lemma root_not_null t : root t ≠ LNull.
Proof. by destruct t. Qed.

Lemma parent_not_null k : parent k ≠ LNull.
Proof. by destruct k. Qed.

Lemma nodes_plug t k : nodes (plug t k) = lefts k ++ nodes t ++ rights k.
Proof.
  revert t. induction k as [|[[] c p u] k IH]; intros t; simpl; [by rewrite app_nil_r|..]; rewrite IH; simpl.
  - by rewrite <- app_assoc.
  - by rewrite <- !app_assoc.
Qed.

Lemma nodes_node d c x p y :
  nodes (node d c x p y) = match d with Left => nodes x ++ p :: nodes y | Right => nodes y ++ p :: nodes x end.
Proof. by destruct d. Qed.

Lemma nodes_rotate d c c' x p y q z :
  nodes (node d c x p (node d c' y q z)) = nodes (node d c' (node d c x p y) q z).
Proof. destruct d; simpl; by rewrite <- !app_assoc. Qed.

Lemma plug_app t k k' : plug t (k ++ k') = plug (plug t k) k'.
Proof. revert t. by induction k as [|f k IH]; intros t; simpl. Qed.

Lemma length_plug t k : (length k + length (nodes t) <= length (nodes (plug t k)))%nat.
Proof.
  revert t. induction k as [|f k IH]; intros t; simpl; [lia|].
  assert (length (nodes (fill f t)) >= S (length (nodes t)))%nat.
  { unfold fill. rewrite nodes_node. destruct (f_side f); rewrite length_app; simpl; lia. }
  specialize (IH (fill f t)). lia.
Qed.

(** ** Fields *)

Lemma field_insert `{Countable K} {A} (d : A) (m : gmap K A) x y v :
  field d (<[x := v]> m) y = if decide (y = x) then v else field d m y.
Proof.
  unfold field. destruct (decide (y = x)) as [->|Hne]; [by rewrite lookup_insert_eq|].
  by rewrite lookup_insert_ne by done.
Qed.

Lemma Subtree_insert e d x y v s :
  Subtree e (set_Subtree d x v s) y = if decide (y = x) then if decide (e = d) then v else Subtree e s y else Subtree e s y.
Proof.
  unfold Subtree; simpl. rewrite field_insert. repeat case_decide; congruence.
Qed.

Section reads.
Context {A B : Type}.

Lemma wp_rd (f : RedBlackTree → link → A) x (K : A → M RedBlackTree B) Q s :
  x ≠ LNull → wp (K (f s x)) Q s → wp (rd f x ≫= K) Q s.
Proof. intros Hx Hwp. apply wp_bind. destruct x; [done|..]; by apply wp_gets. Qed.

Lemma wp_wr (f : link → A → RedBlackTree → RedBlackTree) x v (K : unit → M RedBlackTree B) Q s :
  x ≠ LNull → wp (K tt) Q (f x v s) → wp (wr f x v ≫= K) Q s.
Proof. intros Hx Hwp. apply wp_bind. destruct x; [done|..]; by apply wp_modify. Qed.

Lemma wp_wr_last (f : link → A → RedBlackTree → RedBlackTree) x v (Q : unit → RedBlackTree → Prop) s :
  x ≠ LNull → Q tt (f x v s) → wp (wr f x v) Q s.
Proof. intros Hx HQ. destruct x; [done|..]; by apply wp_modify. Qed.

Lemma wp_check_bind (b : bool) (K : unit → M RedBlackTree B) Q s :
  b = true → wp (K tt) Q s → wp (CHECK b ≫= K) Q s.
Proof. intros Hb Hwp. apply wp_bind. by apply wp_check. Qed.
End reads.

(** ** Representation *)

Fixpoint rep (s : RedBlackTree) (par : link) (t : tree) : Prop :=
  match t with
  | E => True
  | T c l p r => Parent s (LNode p) = par ∧ Subtree Left s (LNode p) = root l ∧ Subtree Right s (LNode p) = root r ∧
      Color s (LNode p) = c ∧ rep s (LNode p) l ∧ rep s (LNode p) r
  end.

Fixpoint rep_ctx (s : RedBlackTree) (k : list frame) (x : link) : Prop :=
  match k with
  | [] => Subtree Left s LTree = x
  | F d c p u :: k' => Parent s (LNode p) = parent k' ∧ Subtree d s (LNode p) = x ∧
      Subtree (other d) s (LNode p) = root u ∧ Color s (LNode p) = c ∧ rep s (LNode p) u ∧ rep_ctx s k' (LNode p)
  end.

Record zipper (X : list ptr) (s : RedBlackTree) (t : tree) (k : list frame) : Prop := {
  z_rep : rep s (parent k) t;
  z_ctx : rep_ctx s k (root t);
  z_nodup : NoDup (nodes (plug t k));
  z_right : Subtree Right s LTree = LTree;
  z_unlinked : ∀ p, p ∉ nodes (plug t k) → p ∉ X → Subtree Left s (LNode p) = LNull
}.

Lemma rep_node s par d c x p y : rep s par (node d c x p y) ↔
  Parent s (LNode p) = par ∧ Subtree d s (LNode p) = root x ∧ Subtree (other d) s (LNode p) = root y ∧
  Color s (LNode p) = c ∧ rep s (LNode p) x ∧ rep s (LNode p) y.
Proof. destruct d; simpl; tauto. Qed.

Lemma zip_up X s t d c p u k : zipper X s t (F d c p u :: k) ↔ zipper X s (node d c t p u) k.
Proof.
  split; intros [Hr Hc Hn Hb Hu].
  - destruct Hc as (? & ? & ? & ? & ? & ?). split; try done.
    + by apply rep_node.
    + by rewrite root_node.
  - apply rep_node in Hr as (? & ? & ? & ? & ? & ?). rewrite root_node in Hc. by split.
Qed.

Lemma zip_plug X s t k : zipper X s (plug t k) [] ↔ zipper X s t k.
Proof.
  revert t. induction k as [|[d c p u] k IH]; intros t; [done|]. simpl. rewrite IH. symmetry. apply zip_up.
Qed.

Lemma zip_down X s d c x p y k : zipper X s (node d c x p y) k ↔ zipper X s y (F (other d) c p x :: k).
Proof. by rewrite zip_up, node_other. Qed.

(** ** Changes of the memory outside a tree *)

Definition same_node (s s' : RedBlackTree) (x : link) : Prop :=
  Parent s' x = Parent s x ∧ Color s' x = Color s x ∧ ∀ d, Subtree d s' x = Subtree d s x.

(** Reads of an updated memory. *)
Ltac fields :=
  unfold same_node, Parent, Subtree, Color, ValueSum, Prev, Next in *;
  cbn [rbt_Parent rbt_Subtree rbt_Color rbt_ValueSum rbt_Prev rbt_Next rbt_Elements
       set_Parent set_Subtree set_Color set_ValueSum set_Prev set_Next set_Elements] in *;
  rewrite ?field_insert.

Ltac fields_solve :=
  unfold same_node; repeat match goal with |- _ ∧ _ => split | |- ∀ _, _ => intros end;
  fields; repeat case_decide; simplify_eq; try done; try congruence.

Definition ctxnodes (k : list frame) : list ptr := lefts k ++ rights k.

Lemma ctxnodes_cons f k x :
  x ∈ ctxnodes (f :: k) ↔ x = f_node f ∨ x ∈ nodes (f_sister f) ∨ x ∈ ctxnodes k.
Proof. unfold ctxnodes. destruct f as [[] c p u]; simpl; set_solver. Qed.

Lemma parent_ctx k : k ≠ [] → ∃ g, parent k = LNode g ∧ g ∈ ctxnodes k.
Proof. destruct k as [|f k]; [done|]. intros _. exists (f_node f). rewrite ctxnodes_cons. simpl. auto. Qed.

Lemma elem_plug t k p : p ∈ nodes (plug t k) ↔ p ∈ nodes t ∨ p ∈ ctxnodes k.
Proof. rewrite nodes_plug. unfold ctxnodes. set_solver. Qed.

Lemma parent_elem k g : parent k = LNode g → g ∈ ctxnodes k.
Proof. destruct k as [|f k]; [done|]. intros [= <-]. rewrite ctxnodes_cons. auto. Qed.

Lemma nodup_plug t k : NoDup (nodes (plug t k)) →
  NoDup (nodes t) ∧ NoDup (ctxnodes k) ∧ ∀ p, p ∈ nodes t → p ∉ ctxnodes k.
Proof.
  rewrite nodes_plug. unfold ctxnodes. rewrite !NoDup_app. intros (? & H1 & ? & H2 & ?).
  split; [done|]. split; [|set_solver]. split; [done|]. split; [set_solver|done].
Qed.

Lemma nodup_plug_intro t k : NoDup (nodes t) → NoDup (ctxnodes k) → (∀ p, p ∈ nodes t → p ∉ ctxnodes k) →
  NoDup (nodes (plug t k)).
Proof.
  rewrite nodes_plug. unfold ctxnodes. rewrite !NoDup_app. intros ? (? & ? & ?) Hd.
  setoid_rewrite elem_of_app in Hd. setoid_rewrite elem_of_app. split_and!; try done; naive_solver.
Qed.

Lemma nodup_node d c x p y : NoDup (nodes (node d c x p y)) ↔
  NoDup (nodes x) ∧ NoDup (nodes y) ∧ p ∉ nodes x ∧ p ∉ nodes y ∧ ∀ q, q ∈ nodes x → q ∉ nodes y.
Proof. rewrite nodes_node. destruct d; rewrite NoDup_app, NoDup_cons; set_solver. Qed.

Lemma nodup_frame f k : NoDup (ctxnodes (f :: k)) →
  NoDup (nodes (f_sister f)) ∧ NoDup (ctxnodes k) ∧ f_node f ∉ nodes (f_sister f) ∧ f_node f ∉ ctxnodes k ∧
  ∀ q, q ∈ nodes (f_sister f) → q ∉ ctxnodes k.
Proof.
  unfold ctxnodes. destruct f as [[] c p u]; simpl.
  - rewrite !NoDup_app, NoDup_cons, NoDup_app. intros (? & ? & ? & ? & ? & ?). repeat split; set_solver.
  - rewrite !NoDup_app, NoDup_cons. intros ((? & ? & ? & ? & ?) & ? & ?).
    repeat split; [done|done| |done|set_solver..]. set_solver.
Qed.

Lemma elem_nodes_node d c x p y q : q ∈ nodes (node d c x p y) ↔ q = p ∨ q ∈ nodes x ∨ q ∈ nodes y.
Proof. rewrite nodes_node. destruct d; set_solver. Qed.

Lemma root_elem t q : root t = LNode q → q ∈ nodes t.
Proof. destruct t as [|c l p r]; simpl; [done|]. intros [= ->]. set_solver. Qed.

Lemma rep_ext s s' par t : (∀ p, p ∈ nodes t → same_node s s' (LNode p)) → rep s par t → rep s' par t.
Proof.
  revert par. induction t as [|c l IHl p r IHr]; intros par Hs; simpl; [done|].
  destruct (Hs p) as (HP & HC & HS); [simpl; set_solver|]. rewrite HP, HC, !HS.
  intros (? & ? & ? & ? & ? & ?). repeat split; try done.
  - apply IHl; [|done]. intros q Hq. apply Hs. simpl. set_solver.
  - apply IHr; [|done]. intros q Hq. apply Hs. simpl. set_solver.
Qed.

(** A subtree that gets a new parent. *)
Lemma rep_reparent s s' par par' t : NoDup (nodes t) →
  (∀ p, p ∈ nodes t → LNode p ≠ root t → same_node s s' (LNode p)) →
  (root t ≠ LTree → Parent s' (root t) = par' ∧ Color s' (root t) = Color s (root t) ∧
                    ∀ d, Subtree d s' (root t) = Subtree d s (root t)) →
  rep s par t → rep s' par' t.
Proof.
  destruct t as [|c l p r]; simpl; [done|]. rewrite (nodup_node Left c l p r).
  intros (? & ? & ? & ? & ?) Hs (HP & HC & HS); [done|]. rewrite HP, HC, !HS.
  intros (? & ? & ? & ? & ? & ?). repeat split; try done.
  - eapply rep_ext; [|done]. intros q Hq. apply Hs; set_solver.
  - eapply rep_ext; [|done]. intros q Hq. apply Hs; set_solver.
Qed.

Lemma rep_ctx_ext s s' k x : (∀ p, p ∈ ctxnodes k → same_node s s' (LNode p)) →
  Subtree Left s' LTree = Subtree Left s LTree → rep_ctx s k x → rep_ctx s' k x.
Proof.
  intros Hs HL. revert x. induction k as [|[d c p u] k IH]; intros x; simpl; [by rewrite HL|].
  destruct (Hs p) as (HP & HC & HS); [rewrite ctxnodes_cons; auto|]. rewrite HP, HC, !HS.
  intros (? & ? & ? & ? & ? & ?). repeat split; try done.
  - eapply rep_ext; [|done]. intros q Hq. apply Hs. rewrite ctxnodes_cons. auto.
  - apply IH; [|done]. intros q Hq. apply Hs. rewrite ctxnodes_cons. auto.
Qed.

(** A context whose hole gets another tree. *)
Lemma rep_ctx_replace s s' k x x' : NoDup (ctxnodes k) →
  (∀ p, p ∈ ctxnodes k → LNode p ≠ parent k → same_node s s' (LNode p)) →
  (k ≠ [] → Parent s' (parent k) = Parent s (parent k) ∧ Color s' (parent k) = Color s (parent k) ∧
            Subtree (other (side k)) s' (parent k) = Subtree (other (side k)) s (parent k) ∧
            Subtree Left s' LTree = Subtree Left s LTree) →
  Subtree (side k) s' (parent k) = x' → rep_ctx s k x → rep_ctx s' k x'.
Proof.
  destruct k as [|[d c p u] k]; simpl; [done|]. intros Hnd%nodup_frame Hs (HP & HC & HO & HL) Hx; [done|].
  simpl in Hnd. destruct Hnd as (? & ? & ? & ? & ?). rewrite HP, HC, HO.
  intros (? & ? & ? & ? & ? & ?). repeat split; try done.
  - eapply rep_ext; [|done]. intros q Hq. apply Hs; [rewrite ctxnodes_cons; auto|]. intros [= ->]. done.
  - eapply rep_ctx_ext; [|done..]. intros q Hq. apply Hs; [rewrite ctxnodes_cons; auto|]. intros [= ->]. done.
Qed.

(** The memory around the focus. *)
Lemma zip_hole X s t k : zipper X s t k → Subtree (side k) s (parent k) = root t.
Proof. intros [_ Hc _ _ _]. by destruct k as [|[d c p u] k]; simpl in Hc; [|destruct Hc as (_ & ? & _)]. Qed.

Lemma zip_parent X s t k : zipper X s t k → t ≠ E → Parent s (root t) = parent k.
Proof. intros [Hr _ _ _ _] Ht. destruct t; [done|]. by destruct Hr as [? _]. Qed.

Lemma zip_frame X s t d c p u k : zipper X s t (F d c p u :: k) →
  Parent s (LNode p) = parent k ∧ Subtree d s (LNode p) = root t ∧ Subtree (other d) s (LNode p) = root u ∧
  Color s (LNode p) = c.
Proof. intros [_ (? & ? & ? & ? & _) _ _ _]. done. Qed.

Lemma zip_node X s d c x p y k : zipper X s (node d c x p y) k →
  Parent s (LNode p) = parent k ∧ Subtree d s (LNode p) = root x ∧ Subtree (other d) s (LNode p) = root y ∧
  Color s (LNode p) = c.
Proof. rewrite <- zip_up. apply zip_frame. Qed.

Lemma zip_color X s t k : zipper X s t k → Color s LTree = Black → Color s (root t) = color t.
Proof. intros [Hr _ _ _ _] HB. destruct t; [done|]. by destruct Hr as (_ & _ & _ & ? & _). Qed.

(** The other child of the parent is another one. *)
Lemma zip_sister_ne X s t k : zipper X s t k → t ≠ E → Subtree (other (side k)) s (parent k) ≠ root t.
Proof.
  intros Hz Ht. destruct k as [|[d c p u] k].
  - simpl. rewrite (z_right _ _ _ _ Hz). by destruct t.
  - pose proof (z_nodup _ _ _ _ Hz) as Hnd. apply nodup_plug in Hnd as (_ & _ & Hd).
    destruct Hz as [_ (_ & _ & HO & _) _ _ _]. simpl. rewrite HO. intros Heq.
    destruct t as [|ct l q r]; [done|]. simpl in Heq. apply root_elem in Heq.
    apply (Hd q); [simpl; set_solver|]. rewrite ctxnodes_cons. auto.
Qed.

Lemma zip_same X s s' t k : (∀ x, same_node s s' x) → zipper X s t k → zipper X s' t k.
Proof.
  intros Hs [Hr Hc Hn Hb Hu]. split.
  - eapply rep_ext; [|done]. auto.
  - eapply rep_ctx_ext; [|apply Hs|done]. auto.
  - done.
  - by rewrite (proj2 (proj2 (Hs LTree))).
  - intros p Hp HX. rewrite (proj2 (proj2 (Hs (LNode p)))). by apply Hu.
Qed.

(** Painting the node in focus. *)
Lemma zip_paint X s c l p r k c' : zipper X s (T c l p r) k → zipper X (set_Color (LNode p) c' s) (T c' l p r) k.
Proof.
  intros Hz. pose proof (nodup_plug _ _ (z_nodup _ _ _ _ Hz)) as (Hn & Hk & Hd).
  apply (nodup_node Left c l p r) in Hn as (? & ? & ? & ? & ?). destruct Hz as [(? & ? & ? & ? & ? & ?) Hc Hn Hb Hu].
  split.
  - simpl. repeat split; try done.
    + fields_solve.
    + eapply rep_ext; [|done]. intros q Hq. fields_solve.
    + eapply rep_ext; [|done]. intros q Hq. fields_solve.
  - eapply (rep_ctx_ext s); [|done..]. intros q Hq.
    assert (q ≠ p) by (intros ->; apply (Hd p); [simpl; set_solver|done]). fields_solve.
  - rewrite nodes_plug in Hn |- *. exact Hn.
  - done.
  - intros q Hq. apply Hu. rewrite nodes_plug in Hq |- *. exact Hq.
Qed.

(** ** Value sums *)

Definition csum (value : ptr → Z) (l : list ptr) : Z := u64 (l_valuesum value l).

Fixpoint sums (value : ptr → Z) (s : RedBlackTree) (t : tree) : Prop :=
  match t with
  | E => True
  | T c l p r => ValueSum s (LNode p) = csum value (nodes l ++ p :: nodes r) ∧ sums value s l ∧ sums value s r
  end.

(** The nodes of the parent's subtree, given those in the hole. *)
Definition around (f : frame) (l : list ptr) : list ptr :=
  match f_side f with Left => l ++ f_node f :: nodes (f_sister f) | Right => nodes (f_sister f) ++ f_node f :: l end.

Fixpoint sums_ctx (value : ptr → Z) (s : RedBlackTree) (k : list frame) (l : list ptr) : Prop :=
  match k with
  | [] => True
  | f :: k' => ValueSum s (LNode (f_node f)) = csum value (around f l) ∧ sums value s (f_sister f) ∧
      sums_ctx value s k' (around f l)
  end.

Definition same_list (s s' : RedBlackTree) : Prop :=
  rbt_Prev s' = rbt_Prev s ∧ rbt_Next s' = rbt_Next s ∧ rbt_Elements s' = rbt_Elements s.

#[export] Instance same_list_preorder : PreOrder same_list.
Proof. split; [done|]. unfold same_list. intros s1 s2 s3 ? ?. intuition congruence. Qed.

(** The tree with everything but its order and balance. *)
Record zipv (X : list ptr) (value : ptr → Z) (s : RedBlackTree) (t : tree) (k : list frame) : Prop := {
  zv_zip : zipper X s t k;
  zv_sums : sums value s (plug t k);
  zv_null : ValueSum s LTree = 0;
  zv_black : Color s LTree = Black
}.

Lemma l_valuesum_app value l1 l2 : l_valuesum value (l1 ++ l2) = l_valuesum value l1 + l_valuesum value l2.
Proof. induction l1 as [|p l1 IH]; simpl; [done|]. unfold l_valuesum in *. simpl. lia. Qed.

Lemma csum_node value l1 p l2 :
  u64 (csum value l1 + u64 (value p) + csum value l2) = csum value (l1 ++ p :: l2).
Proof.
  unfold csum. rewrite l_valuesum_app, wrap_add_r, <- Z.add_assoc, wrap_add_l, Z.add_assoc.
  rewrite (Z.add_comm (l_valuesum value l1)), <- Z.add_assoc, wrap_add_l. f_equal. unfold l_valuesum. simpl. lia.
Qed.

Lemma sums_node value s d c x p y : sums value s (node d c x p y) ↔
  ValueSum s (LNode p) = csum value (nodes (node d c x p y)) ∧ sums value s x ∧ sums value s y.
Proof. destruct d; simpl; tauto. Qed.

Lemma sums_plug value s t k : sums value s (plug t k) ↔ sums value s t ∧ sums_ctx value s k (nodes t).
Proof.
  revert t. induction k as [|[d c p u] k IH]; intros t; simpl; [tauto|]. rewrite IH. unfold fill. simpl.
  rewrite sums_node. unfold around. simpl. rewrite nodes_node. destruct d; tauto.
Qed.

Lemma sums_ext value s s' t : (∀ p, p ∈ nodes t → ValueSum s' (LNode p) = ValueSum s (LNode p)) →
  sums value s t → sums value s' t.
Proof.
  induction t as [|c l IHl p r IHr]; intros Hs; simpl; [done|]. rewrite (Hs p) by (simpl; set_solver).
  intros (? & ? & ?). split; [done|]. split.
  - apply IHl; [|done]. intros q Hq. apply Hs. simpl. set_solver.
  - apply IHr; [|done]. intros q Hq. apply Hs. simpl. set_solver.
Qed.

Lemma sums_ctx_ext value s s' k l : (∀ p, p ∈ ctxnodes k → ValueSum s' (LNode p) = ValueSum s (LNode p)) →
  sums_ctx value s k l → sums_ctx value s' k l.
Proof.
  revert l. induction k as [|f k IH]; intros l Hs; simpl; [done|].
  rewrite (Hs (f_node f)) by (rewrite ctxnodes_cons; auto). intros (? & ? & ?). split; [done|]. split.
  - eapply sums_ext; [|done]. intros p Hp. apply Hs. rewrite ctxnodes_cons. auto.
  - apply IH; [|done]. intros p Hp. apply Hs. rewrite ctxnodes_cons. auto.
Qed.

Lemma sums_root value s t : sums value s t → ValueSum s LTree = 0 → ValueSum s (root t) = csum value (nodes t).
Proof. destruct t; simpl; [by intros _ ->|]. by intros [? _]. Qed.

(** Computing the sum of a node; it is right when its subtrees have theirs. *)
Lemma wp_updateValueSum_any value s d c x p y (Q : unit → RedBlackTree → Prop) :
  Subtree d s (LNode p) = root x → Subtree (other d) s (LNode p) = root y →
  (∀ v, (sums value s x → sums value s y → ValueSum s LTree = 0 → v = csum value (nodes (node d c x p y))) →
     Q tt (set_ValueSum (LNode p) v s)) →
  wp (RedBlackTreeUpdateValueSum value (LNode p)) Q s.
Proof.
  intros Hx Hy HQ. unfold RedBlackTreeUpdateValueSum.
  assert (∃ l r, Subtree Left s (LNode p) = root l ∧ Subtree Right s (LNode p) = root r ∧
     (sums value s x → sums value s y → sums value s l ∧ sums value s r) ∧
     nodes (node d c x p y) = nodes l ++ p :: nodes r)
    as (l & r & Hl & Hr & Hs & Hn) by (destruct d; simpl in *; eauto 10).
  apply wp_rd; [done|]. rewrite Hl. apply wp_rd; [apply root_not_null|].
  apply wp_rd; [done|]. rewrite Hr. apply wp_rd; [apply root_not_null|].
  apply wp_wr_last; [done|]. apply HQ. intros Sx Sy S0. destruct (Hs Sx Sy).
  rewrite !(sums_root value s) by done. cbn [Value]. by rewrite csum_node, <- Hn.
Qed.

Lemma wp_updateValueSum value s d c x p y (Q : unit → RedBlackTree → Prop) :
  Subtree d s (LNode p) = root x → Subtree (other d) s (LNode p) = root y →
  sums value s x → sums value s y → ValueSum s LTree = 0 →
  Q tt (set_ValueSum (LNode p) (csum value (nodes (node d c x p y))) s) →
  wp (RedBlackTreeUpdateValueSum value (LNode p)) Q s.
Proof.
  intros Hx Hy Sx Sy S0 HQ. apply (wp_updateValueSum_any _ _ d c x p y); [done..|]. intros v Hv. by rewrite (Hv Sx Sy S0).
Qed.

(** ** Rotation *)

Lemma wp_replaceChild d s k x x' (Q : unit → RedBlackTree → Prop) :
  Subtree (side k) s (parent k) = x → Subtree (other (side k)) s (parent k) ≠ x →
  Q tt (set_Subtree (side k) (parent k) x' s) →
  wp (replaceChild d (parent k) x x') Q s.
Proof.
  intros Hx Ho Hwp. unfold replaceChild. apply wp_rd; [apply parent_not_null|].
  destruct (dir_cases d (side k)) as [Hd|Hd].
  - rewrite <- Hd, Hx. rewrite decide_True by done. by apply wp_wr_last; [apply parent_not_null|].
  - rewrite Hd, other_other in Ho. rewrite decide_False by done.
    apply wp_rd; [apply parent_not_null|]. rewrite <- Hd, Hx.
    apply wp_check_bind; [by apply bool_decide_true|]. by apply wp_wr_last; [apply parent_not_null|].
Qed.

(** The memory after the links of a rotation have changed. *)
Definition rotated (d : dir) (p q : ptr) (low : link) (k : list frame) (s : RedBlackTree) : RedBlackTree :=
  set_Parent (LNode p) (LNode q) (set_Subtree d (LNode q) (LNode p)
    (set_Subtree (side k) (parent k) (LNode q) (set_Parent (LNode q) (parent k)
       (set_Parent low (LNode p) (set_Subtree (other d) (LNode p) low s))))).

Lemma zip_rotated X s d c x p c' y q z k : zipper X s (node d c x p (node d c' y q z)) k →
  zipper X (rotated d p q (root y) k s) (node d c' (node d c x p y) q z) k.
Proof.
  intros Hz. pose proof (nodup_plug _ _ (z_nodup _ _ _ _ Hz)) as (Hn & Hk & Hd).
  apply nodup_node in Hn as (Hnx & Hn & Hpx & Hp & Hxy). apply nodup_node in Hn as (Hny & Hnz & Hqy & Hqz & Hyz).
  destruct Hz as [Hr Hc Hn Hb Hu]. apply rep_node in Hr as (HP & HD & HO & HC & Hx & Hr).
  apply rep_node in Hr as (HP' & HD' & HO' & HC' & Hy & Hzz). rewrite !root_node in *.
  setoid_rewrite elem_nodes_node in Hd. setoid_rewrite elem_nodes_node in Hd.
  rewrite elem_nodes_node in Hp. setoid_rewrite elem_nodes_node in Hxy.
  assert (parent k ≠ LNode p ∧ parent k ≠ LNode q ∧ ∀ g, g ∈ nodes x ∨ g ∈ nodes y ∨ g ∈ nodes z → parent k ≠ LNode g)
    as (Hkp & Hkq & Hkg).
  { destruct k as [|f k]; [done|]. destruct (parent_ctx (f :: k)) as (g & Hg & Hin); [done|]. rewrite Hg.
    split; [|split]; [intros [= ->]; by apply (Hd p); auto|intros [= ->]; by apply (Hd q); auto|].
    intros g' Hg' [= ->]. apply (Hd g'); tauto. }
  assert (∀ g, root y = LNode g → g ∈ nodes y) as Hroot by apply root_elem.
  assert (p ≠ q) as Hpq by naive_solver.
  assert (∀ g, LNode g ≠ parent k → g ≠ p → g ≠ q → LNode g ≠ root y →
    same_node s (rotated d p q (root y) k s) (LNode g)) as Hsame by (intros; unfold rotated; fields_solve).
  split.
  - rewrite !rep_node, root_node. unfold rotated. repeat split; try (fields_solve; done).
    all: try (by pose proof (other_ne d); fields_solve).
    + apply (rep_ext s); [|done]. intros g Hg. apply Hsame; naive_solver.
    + apply (rep_reparent s _ (LNode q)); [done| | |done].
      * intros g Hg Hne. apply Hsame; naive_solver.
      * intros Hne. destruct y as [|cy ly g ry]; [done|]. simpl in *. specialize (Hroot g eq_refl).
        assert (g ≠ p ∧ g ≠ q ∧ parent k ≠ LNode g) as (? & ? & ?) by naive_solver. fields_solve.
    + apply (rep_ext s); [|done]. intros g Hg. apply Hsame; naive_solver.
  - rewrite root_node. apply (rep_ctx_replace s _ _ (LNode p)); [done| | | |done].
    + intros g Hg Hne. apply Hsame; naive_solver.
    + intros Hne. destruct (parent_ctx k Hne) as (g & Hg & Hin). pose proof (other_ne (side k)).
      assert (LNode g ≠ root y) by naive_solver. rewrite Hg in *.
      unfold rotated. rewrite Hg. fields_solve.
    + unfold rotated. fields_solve.
  - rewrite nodes_plug in Hn |- *. by rewrite <- nodes_rotate.
  - unfold rotated. destruct k as [|f k]; simpl; fields_solve.
  - intros g Hg HX. rewrite nodes_plug, <- nodes_rotate, <- nodes_plug in Hg.
    rewrite <- (Hu g Hg HX). rewrite elem_plug, !elem_nodes_node in Hg.
    apply Hsame; [intros Heq; symmetry in Heq; apply parent_elem in Heq|..]; naive_solver.
Qed.

Lemma same_node_ValueSum s x v y : same_node s (set_ValueSum x v s) y.
Proof. done. Qed.

Lemma wp_rotate X value s d c x p c' y q z k (Q : unit → RedBlackTree → Prop) :
  zipv X value s (node d c x p (node d c' y q z)) k →
  (∀ s', zipv X value s' (node d c' (node d c x p y) q z) k → same_list s s' → Q tt s') →
  wp (RedBlackTreeRotate d value (LNode p)) Q s.
Proof.
  intros [Hz HS H0 HB] HQ. pose proof (zip_rotated _ _ _ _ _ _ _ _ _ _ _ Hz) as Hz'.
  pose proof (zip_sister_ne _ _ _ _ Hz ltac:(by destruct d)) as Hne.
  pose proof (zip_hole _ _ _ _ Hz) as Hh. rewrite root_node in Hne, Hh.
  pose proof (nodup_plug _ _ (z_nodup _ _ _ _ Hz)) as (Hn & Hk & Hd).
  apply zip_node in Hz as Hp. destruct Hp as (HPp & HDp & HOp & HCp). rewrite root_node in HOp.
  apply zip_down, zip_node in Hz as Hq. destruct Hq as (HPq & HDq & HOq & HCq).
  assert (root y ≠ LNode p ∧ parent k ≠ LNode p ∧ parent k ≠ LNode q) as (Hyp & Hkp & Hkq).
  { apply nodup_node in Hn as (? & ? & ? & Hpy & ?). rewrite elem_nodes_node in Hpy. setoid_rewrite elem_nodes_node in Hd.
    setoid_rewrite elem_nodes_node in Hd. pose proof (parent_elem k). pose proof (root_elem y).
    split_and!; naive_solver. }
  unfold RedBlackTreeRotate. apply wp_rd; [done|]. rewrite HOp. apply wp_rd; [done|]. rewrite HDq.
  apply wp_wr; [done|]. apply wp_wr; [apply root_not_null|]. apply wp_rd; [done|].
  replace (Parent _ (LNode p)) with (parent k) by (symmetry; fields_solve).
  apply wp_wr; [done|]. apply wp_bind, wp_replaceChild; [fields_solve..|].
  apply wp_wr; [done|]. apply wp_wr; [done|]. fold (rotated d p q (root y) k s).
  apply sums_plug in HS as [HS HK]. apply sums_node in HS as (HSp & Sx & HS). apply sums_node in HS as (HSq & Sy & Sz).
  assert (∀ x, ValueSum (rotated d p q (root y) k s) x = ValueSum s x) as Hsame by done.
  apply wp_bind. apply zip_node in Hz' as Hq'. destruct Hq' as (_ & HDq' & HOq' & _).
  apply zip_up, zip_node in Hz' as Hp'. destruct Hp' as (HPp' & HDp' & HOp' & _).
  apply (wp_updateValueSum _ _ d c x p y); [done|done|by apply (sums_ext _ s)..|by rewrite Hsame|].
  set (s1 := rotated d p q (root y) k s) in *.
  set (s2 := set_ValueSum (LNode p) (csum value (nodes (node d c x p y))) s1) in *.
  assert (sums value s2 (node d c x p y)) as Sp.
  { apply nodup_node in Hn as (? & Hn & ? & Hpy & ?). rewrite elem_nodes_node in Hpy.
    apply sums_node. split; [by unfold s2; fields; rewrite decide_True|].
    split; apply (sums_ext _ s); try done; intros g Hg; unfold s2, s1, rotated; fields_solve; naive_solver. }
  apply wp_rd; [done|]. change (Parent s2 (LNode p)) with (Parent s1 (LNode p)). rewrite HPp'.
  apply nodup_node in Hn as (? & Hn & ? & Hpy & Hxy). apply nodup_node in Hn as (? & ? & ? & ? & ?).
  rewrite elem_nodes_node in Hpy. setoid_rewrite elem_nodes_node in Hxy. setoid_rewrite elem_nodes_node in Hd.
  setoid_rewrite elem_nodes_node in Hd.
  apply (wp_updateValueSum _ _ d c' (node d c x p y) q z); [done|done|done| | |].
  { apply (sums_ext _ s); [|done]. intros g Hg. unfold s2, s1, rotated. fields_solve. naive_solver. }
  { unfold s2. fields_solve. }
  apply HQ; [|done]. split.
  - apply (zip_same _ s1); [|by apply zip_up]. intros g. done.
  - apply sums_plug. split; [apply sums_node; split; [by fields; rewrite decide_True|split]|].
    + apply (sums_ext _ s2); [|done]. intros g [->|[Hg|Hg]]%elem_nodes_node; fields_solve; naive_solver.
    + apply (sums_ext _ s); [|done]. intros g Hg. unfold s2, s1, rotated. fields_solve; naive_solver.
    + rewrite <- nodes_rotate. apply (sums_ctx_ext _ s); [|done]. intros g Hg.
      assert (g ≠ p ∧ g ≠ q) as [? ?] by (split; intros ->; [apply (Hd p)|apply (Hd q)]; tauto).
      unfold s2, s1, rotated. fields_solve.
  - unfold s2. fields_solve.
  - done.
Qed.

(** ** Moving and painting with all the sums in place *)

Lemma zipv_up X value s t d c p u k : zipv X value s t (F d c p u :: k) ↔ zipv X value s (node d c t p u) k.
Proof. split; intros [Hz HS H0 HB]; split; try done; by apply zip_up. Qed.

Lemma zipv_down X value s d c x p y k : zipv X value s (node d c x p y) k ↔ zipv X value s y (F (other d) c p x :: k).
Proof. by rewrite zipv_up, node_other. Qed.

Lemma zipv_plug X value s t k : zipv X value s (plug t k) [] ↔ zipv X value s t k.
Proof. split; intros [Hz HS H0 HB]; split; try done; by apply zip_plug. Qed.

Lemma zipv_paint X value s t k c : zipv X value s t k → t ≠ E →
  zipv X value (set_Color (root t) c s) (paint c t) k.
Proof.
  intros [Hz HS H0 HB] Ht. destruct t as [|c' l p r]; [done|]. split.
  - by eapply zip_paint.
  - apply sums_plug in HS as [HS HK]. apply sums_plug. split.
    + apply (sums_ext _ s); [done|exact HS].
    + apply (sums_ctx_ext _ s); [done|exact HK].
  - done.
  - fields_solve.
Qed.

Lemma zipv_paint_node X value s d c x p y k c' : zipv X value s (node d c x p y) k →
  zipv X value (set_Color (LNode p) c' s) (node d c' x p y) k.
Proof.
  intros Hz. apply (zipv_paint _ _ _ _ _ c') in Hz; [|by destruct d]. by rewrite root_node, paint_node in Hz.
Qed.

Lemma zipv_paint_frame X value s t d c p u k c' : zipv X value s t (F d c p u :: k) →
  zipv X value (set_Color (LNode p) c' s) t (F d c' p u :: k).
Proof. rewrite !zipv_up. apply zipv_paint_node. Qed.

Lemma zipv_paint_sister X value s t d c p u k c' : zipv X value s t (F d c p u :: k) → u ≠ E →
  zipv X value (set_Color (root u) c' s) t (F d c p (paint c' u) :: k).
Proof. rewrite !zipv_up, !zipv_down. apply zipv_paint. Qed.

Lemma zipv_frame X value s t d c p u k : zipv X value s t (F d c p u :: k) →
  Parent s (LNode p) = parent k ∧ Subtree d s (LNode p) = root t ∧ Subtree (other d) s (LNode p) = root u ∧
  Color s (LNode p) = c ∧ Color s (root t) = color t ∧ Color s (root u) = color u.
Proof.
  intros [Hz _ _ HB]. pose proof (zip_frame _ _ _ _ _ _ _ _ Hz) as (? & ? & ? & ?).
  split_and!; try done; [by eapply zip_color|]. apply zip_up, zip_down in Hz. by eapply zip_color.
Qed.

(** Which side the focus is on is seen by comparing pointers. *)
Lemma zip_left X s t d c p u k : zipper X s t (F d c p u :: k) → t ≠ E ∨ u ≠ E →
  (root t = Subtree Left s (LNode p) ↔ d = Left).
Proof.
  intros Hz Hne. pose proof (zip_frame _ _ _ _ _ _ _ _ Hz) as (_ & HD & HO & _).
  destruct d; [by rewrite HD|]. simpl in HO. rewrite HO. split; [|done]. intros Heq. exfalso.
  destruct (decide (t = E)) as [->|Ht]; [destruct u; naive_solver|].
  apply (zip_sister_ne _ _ _ _ Hz Ht). by simpl; rewrite HO.
Qed.

Lemma zip_side X s t d c p u k : zipper X s t (F d c p u :: k) → t ≠ E ∨ u ≠ E →
  (if decide (root t = Subtree Left s (LNode p)) then Left else Right) = d.
Proof.
  intros Hz Hne. pose proof (zip_left _ _ _ _ _ _ _ _ Hz Hne). case_decide; destruct d; naive_solver.
Qed.
