(* ===== verification/RedBlackTreeBalance.v ===== *)
(** * Red-black balance

    [rb t n]: [t] is a red-black tree with [n] black nodes on every path to
    a leaf (the leaves included, as the verification of the code counts).
    [insertFixup] and [removeFixup] restore it: the loops run to their end
    and change neither the nodes, nor their order, nor the value sums. *)

From S2P Require Import Prelude Storage RedBlackTree RedBlackTreeShape.
From stdpp Require Import base list gmap numbers option sets.
#[local] Open Scope Z_scope.

Inductive rb : tree → nat → Prop :=
| rb_E : rb E 1
| rb_Red l p r n : rb l n → rb r n → color l = Black → color r = Black → rb (T Red l p r) n
| rb_Black l p r n : rb l n → rb r n → rb (T Black l p r) (S n).

Lemma rb_node_red d x p y n : rb (node d Red x p y) n ↔ rb x n ∧ rb y n ∧ color x = Black ∧ color y = Black.
Proof.
  destruct d; simpl; (split; [inversion 1; subst; auto|intros (? & ? & ? & ?); by constructor]).
Qed.

Lemma rb_node_black d x p y n : rb (node d Black x p y) n ↔ ∃ m, n = S m ∧ rb x m ∧ rb y m.
Proof.
  destruct d; simpl; (split; [inversion 1; subst; eauto|intros (m & -> & ? & ?); by constructor]).
Qed.

Lemma rb_pos t n : rb t n → (1 <= n)%nat.
Proof. induction 1; lia. Qed.

Lemma rb_ne_E t n : rb t (S n) → (1 <= n)%nat → t ≠ E.
Proof. intros Ht Hn ->. inversion Ht. lia. Qed.

(** A tree of height at least two, seen from side [d]. *)
Lemma tree_node d t : t ≠ E → ∃ x p y, t = node d (color t) x p y.
Proof. destruct t as [|c l p r]; [done|]. intros _. destruct d; simpl; eauto. Qed.

Lemma rb_blacken t n : rb t n → color t = Red → rb (paint Black t) (S n).
Proof. intros Ht Hc. destruct Ht; try done. by constructor. Qed.

Lemma rb_redden t n : rb t (S n) → color t = Black → t ≠ E → (∀ d x p y, t = node d Black x p y → color x = Black) →
  rb (paint Red t) n.
Proof.
  intros Ht Hc Hne Hx. destruct t as [|c l p r]; [done|]. simpl in Hc. subst. inversion Ht; subst.
  constructor; [done..|by apply (Hx Left _ p r)|by apply (Hx Right _ p l)].
Qed.

Definition topblack (k : list frame) : Prop :=
  match k with F _ Black _ _ :: _ => True | _ => False end.

(** The context of a subtree of height [n] in a red-black tree with a black
    root. *)
Fixpoint ctx (k : list frame) (n : nat) : Prop :=
  match k with
  | [] => True
  | F _ Red _ u :: k' => rb u n ∧ color u = Black ∧ topblack k' ∧ ctx k' n
  | F _ Black _ u :: k' => rb u n ∧ ctx k' (S n)
  end.

Lemma plug_rb t k n : rb t n → ctx k n → color t = Black ∨ topblack k →
  ∃ m, rb (plug t k) m ∧ color (plug t k) = Black.
Proof.
  revert t n. induction k as [|[d c p u] k IH]; intros t n Ht Hk Hc; simpl; [destruct Hc as [Hc|[]]; eauto|].
  destruct c; simpl in Hk.
  - destruct Hk as (? & ? & ? & ?), Hc as [Hc|[]]. apply (IH _ n); [|done|by right]. by apply rb_node_red.
  - destruct Hk as [? ?]. apply (IH _ (S n)); [|done|left; apply color_node]. apply rb_node_black. eauto.
Qed.

Lemma unplug_rb t k m : rb (plug t k) m → color (plug t k) = Black →
  ∃ n, rb t n ∧ ctx k n ∧ (color t = Red → topblack k).
Proof.
  revert t. induction k as [|[d c p u] k IH]; intros t Hm Hc; simpl in *; [exists m; split_and!; [done..|congruence]|].
  destruct (IH _ Hm Hc) as (n & Hn & Hk & Ht). unfold fill in Hn, Ht; simpl in *. rewrite color_node in Ht.
  destruct c.
  - apply rb_node_red in Hn as (? & ? & HB & ?). exists n. split_and!; auto. congruence.
  - apply rb_node_black in Hn as (n' & -> & ? & ?). exists n'. split_and!; auto.
Qed.

(** ** Insertion *)

Section fixup.
Context (X : list ptr) (value : ptr → Z).

(** What the loops establish. *)
Definition balanced (s : RedBlackTree) (t : tree) (s' : RedBlackTree) : Prop :=
  ∃ t' m, zipv X value s' t' [] ∧ nodes t' = nodes t ∧ rb (paint Black t') m ∧ same_list s s'.

Lemma balanced_plug s t t' k s' : zipv X value s' t' k → nodes t' = nodes t → same_list s s' →
  (∃ m, rb (paint Black (plug t' k)) m) → balanced s (plug t k) s'.
Proof.
  intros Hz Hn Hl [m Hm]. exists (plug t' k), m. rewrite zipv_plug. split_and!; try done.
  by rewrite !nodes_plug, Hn.
Qed.

Lemma rb_paint_black t m : rb t m → color t = Black → rb (paint Black t) m.
Proof. intros Ht Hc. destruct t; [done|]. simpl in Hc. by subst. Qed.

Lemma plug_balanced t k n : rb t n → color t = Black ∨ topblack k → ctx k n → ∃ m, rb (paint Black (plug t k)) m.
Proof.
  intros Ht Hc Hk. destruct (plug_rb t k n) as (m & ? & ?); [done..|]. exists m. by apply rb_paint_black.
Qed.

Lemma insert_recolor s t d p u e g v k : zipv X value s t (F d Red p u :: F e Black g v :: k) → color v = Red →
  zipv X value (set_Color (LNode g) Red (set_Color (root v) Black (set_Color (LNode p) Black s)))
    (node e Red (node d Black t p u) g (paint Black v)) k.
Proof.
  intros Hz Hv. apply (zipv_paint_frame _ _ _ _ _ _ _ _ _ Black) in Hz. rewrite zipv_up in Hz.
  apply (zipv_paint_sister _ _ _ _ _ _ _ _ _ Black) in Hz; [|by intros ->].
  apply (zipv_paint_frame _ _ _ _ _ _ _ _ _ Red) in Hz. by rewrite zipv_up in Hz.
Qed.

(** The last rotation: the parent is on the outer side. *)
Lemma insert_rotate_outer s0 s t p u e g v k n t0 : zipv X value s (node e Red t p u) (F e Black g v :: k) →
  rb t n → rb u n → color u = Black → rb v n → color v = Black → ctx k (S n) →
  nodes t0 = nodes (node e Black (node e Red t p u) g v) → same_list s0 s →
  wp (wr set_Color (LNode p) Black;; wr set_Color (LNode g) Red;; RedBlackTreeRotate (other e) value (LNode g))
    (λ _ s', balanced s0 (plug t0 k) s') s.
Proof.
  intros Hz Ht Hu Hcu Hv Hcv Hk Hn Hl. apply wp_wr; [done|]. apply wp_wr; [done|].
  apply (zipv_paint_node _ _ _ _ _ _ _ _ _ Black) in Hz. apply (zipv_paint_frame _ _ _ _ _ _ _ _ _ Red) in Hz.
  rewrite zipv_up, <- node_other, <- (node_other e Black) in Hz. eapply wp_rotate; [done|]. intros s' Hz' Hl'.
  rewrite !node_other in Hz'. eapply balanced_plug; [done| |by etrans; [done|]|].
  - rewrite Hn, !nodes_node. destruct e; by rewrite <- !app_assoc.
  - eapply (plug_balanced _ _ (S n)); [|left; apply color_node|done]. apply rb_node_black. exists n.
    split_and!; try done. by apply rb_node_red.
Qed.

(** The loop ends at a black parent. *)
Lemma wp_insertFixup_end fuel s node k (Q : unit → RedBlackTree → Prop) : Color s (parent k) = Black → Q tt s →
  wp (insertFixup fuel value node (parent k)) Q s.
Proof. intros Hc HQ. destruct fuel; simpl; (apply wp_rd; [apply parent_not_null|]); rewrite Hc; by apply wp_ret. Qed.

Lemma wp_insertFixup fuel t k n s : zipv X value s t k → rb t n → color t = Red → ctx k n → (length k <= fuel)%nat →
  wp (insertFixup fuel value (root t) (parent k)) (λ _ s', balanced s (plug t k) s') s.
Proof.
  revert t k n s. induction fuel as [|fuel IH]; intros t k n s Hz Ht Hc Hk Hf.
  all: destruct k as [|[d c p u] k]; [|simpl in Hf; try lia].
  1, 2: apply wp_insertFixup_end; [apply Hz|]; apply (balanced_plug _ t t []); try done;
    destruct t; [done|]; simpl in *; subst; inversion Ht; subst; eexists; by constructor.
  pose proof (zipv_frame _ _ _ _ _ _ _ _ _ Hz) as (HPp & HDp & HOp & HCp & HCt & HCu).
  assert (t ≠ E) as Hne by (by intros ->).
  destruct c.
  2: { apply wp_insertFixup_end; [done|]. eapply balanced_plug; [done..|].
       eapply plug_balanced; [done|by right|done]. }
  destruct Hk as (Hu & Hcu & Htop & Hk). destruct k as [|[e c g v] k]; [done|]. destruct c; [done|].
  destruct Hk as [Hv Hk]. pose proof (proj1 (zipv_up _ _ _ _ _ _ _ _ _) Hz) as Hz1.
  pose proof (zipv_frame _ _ _ _ _ _ _ _ _ Hz1) as (HPg & HDg & HOg & HCg & HCp' & HCv).
  rewrite root_node in *. simpl parent. cbn [insertFixup]. apply wp_rd; [done|]. rewrite HCp.
  rewrite decide_True by done. apply wp_rd; [done|]. rewrite HPp. simpl parent. apply wp_rd; [done|].
  pose proof (zip_side _ _ _ _ _ _ _ _ (zv_zip _ _ _ _ _ Hz1) ltac:(left; by destruct d)) as Hside.
  rewrite root_node in Hside. rewrite Hside. clear Hside. cbn zeta.
  apply wp_rd; [done|]. rewrite HOg. apply wp_rd; [apply root_not_null|]. rewrite HCv.
  case_decide as Hcv.
  - pose proof (insert_recolor _ _ _ _ _ _ _ _ _ Hz Hcv) as Hz2.
    apply wp_wr; [done|]. apply wp_wr; [apply root_not_null|]. apply wp_wr; [done|]. apply wp_rd; [done|].
    pose proof (zip_node _ _ _ _ _ _ _ _ (zv_zip _ _ _ _ _ Hz2)) as (HPg' & _). rewrite HPg'.
    pose proof (IH _ _ (S n) _ Hz2) as Hwp. rewrite root_node in Hwp.
    eapply wp_mono; [apply Hwp; [|apply color_node|done|simpl in Hf; lia]|].
    + apply rb_node_red. rewrite color_node. split_and!; [apply rb_node_black; eauto| |done|].
      * by apply rb_blacken.
      * by destruct v.
    + intros _ s' (t' & m & ? & Hn & ? & ?). exists t', m. split_and!; try done.
      rewrite Hn. simpl. rewrite !nodes_plug. unfold fill. simpl. by rewrite !nodes_node, nodes_paint.
  - assert (color v = Black) as Hcv' by (destruct (color v); done). apply wp_rd; [done|].
    destruct (dir_cases e d) as [-> | ->].
    + rewrite HOp. rewrite decide_False by
        (intros Heq; apply (zip_sister_ne _ _ _ _ (zv_zip _ _ _ _ _ Hz)); [done|]; simpl; congruence).
      apply wp_bind, wp_ret. by apply (insert_rotate_outer s s t p u e g v k n).
    + rewrite HDp, decide_True by done. apply wp_bind, wp_bind.
      destruct (tree_node e t Hne) as (x & q & y & Ht'). rewrite Hc in Ht'. subst t. rewrite root_node in *.
      rewrite node_other in Hz1. eapply wp_rotate; [done|]. intros s' Hz2 Hl.
      apply wp_rd; [done|].
      pose proof (zip_node _ _ _ _ _ _ _ _ (zv_zip _ _ _ _ _ Hz2)) as (HPq & _). rewrite HPq.
      apply wp_check_bind; [by apply bool_decide_true|]. apply wp_ret.
      apply rb_node_red in Ht as (? & ? & ? & ?).
      apply (insert_rotate_outer _ _ (node e Red u p x) q y e g v k n); try done.
      * by apply rb_node_red.
      * unfold fill. simpl. rewrite node_other. destruct e; simpl; by repeat (rewrite <- app_assoc; simpl).
Qed.

(** ** Removal

    While the loop runs, the root is painted red (it counts as black), so
    that the loop ends there.  [dctx k n]: such a context of a subtree that
    should have height [n]. *)

Definition topd (k : list frame) : Prop :=
  match k with [_] => True | F _ Black _ _ :: _ => True | _ => False end.

Fixpoint dctx (k : list frame) (n : nat) : Prop :=
  match k with
  | [] => False
  | F _ c _ u :: k' =>
      rb u n ∧
      match k', c with
      | [], _ => c = Red
      | _, Red => color u = Black ∧ topd k' ∧ dctx k' n
      | _, Black => dctx k' (S n)
      end
  end.

(** [k] makes a red-black tree of every subtree of height [n] and color [c]. *)
Definition accepts (k : list frame) (n : nat) (c : RedBlackTreeNodeColorType) : Prop :=
  ∀ t, rb t n → color t = c → ∃ m, rb (paint Black (plug t k)) m.

(** The height of a node of color [c] over subtrees of height [n]. *)
Definition over (c : RedBlackTreeNodeColorType) (n : nat) : nat := match c with Red => n | Black => S n end.

Lemma rb_over d c x p y n : rb x n → rb y n → color x = Black → color y = Black → rb (node d c x p y) (over c n).
Proof. intros. destruct c; [by apply rb_node_red|]. apply rb_node_black. eauto. Qed.

Lemma dctx_plug k n t : dctx k n → rb t n → color t = Black ∨ topd k → ∃ m, rb (paint Black (plug t k)) m.
Proof.
  revert n t. induction k as [|[d c p u] k IH]; intros n t; [done|]. intros [Hu Hk] Ht Hc. simpl.
  destruct k as [|f k].
  - subst. simpl. unfold fill. simpl. rewrite paint_node. exists (S n). apply rb_node_black. eauto.
  - destruct c.
    + destruct Hk as (? & ? & ?), Hc as [Hc|[]]. apply (IH n); [done| |by right]. by apply rb_node_red.
    + apply (IH (S n)); [done| |left; apply color_node]. apply rb_node_black. eauto.
Qed.

Lemma dctx_accepts k n : dctx k n → accepts k n Black.
Proof. intros Hk t Ht Hc. eapply dctx_plug; eauto. Qed.

Lemma dctx_frame d c p u k n : dctx (F d c p u :: k) n → accepts k (over c n) c.
Proof.
  intros [Hu Hk] t Ht Hc. destruct k as [|f k].
  - subst. exists (S n). by apply rb_blacken.
  - destruct c; [destruct Hk as (? & ? & ?)|]; eapply dctx_plug; eauto.
Qed.

(** The result, with the child still in focus. *)
Definition balanced_at (s : RedBlackTree) (t : tree) (k : list frame) (s' : RedBlackTree) : Prop :=
  ∃ k' m, zipv X value s' t k' ∧ nodes (plug t k') = nodes (plug t k) ∧ rb (paint Black (plug t k')) m ∧ same_list s s'.

Lemma nodes_plug_eq t t' k : nodes t = nodes t' → nodes (plug t k) = nodes (plug t' k).
Proof. rewrite !nodes_plug. by intros ->. Qed.

Lemma borrow_far s t d c p x q y k n : zipv X value s t (F d c p (node d Black x q y) :: k) →
  rb t n → rb x n → rb y n → color y = Red → accepts k (over c (S n)) c →
  wp (color ← rd Color (LNode p);
      wr set_Color (LNode q) color;;
      far ← rd (Subtree (other d)) (LNode q);
      wr set_Color far Black;;
      wr set_Color (LNode p) Black;;
      RedBlackTreeRotate d value (LNode p))
    (λ _ s', balanced_at s t (F d c p (node d Black x q y) :: k) s') s.
Proof.
  intros Hz Ht Hx Hy Hcy Hk. pose proof (zipv_frame _ _ _ _ _ _ _ _ _ Hz) as (_ & _ & _ & HC & _).
  apply wp_rd; [done|]. rewrite HC. apply wp_wr; [done|].
  rewrite zipv_up, zipv_down in Hz. apply (zipv_paint_node _ _ _ _ _ _ _ _ _ c) in Hz.
  pose proof (zip_node _ _ _ _ _ _ _ _ (zv_zip _ _ _ _ _ Hz)) as (_ & _ & HO & _).
  apply wp_rd; [done|]. rewrite HO. apply wp_wr; [apply root_not_null|].
  rewrite zipv_down in Hz. apply (zipv_paint _ _ _ _ _ Black) in Hz; [|by intros ->]. rewrite <- zipv_down in Hz.
  apply wp_wr; [done|]. apply (zipv_paint_frame _ _ _ _ _ _ _ _ _ Black) in Hz. rewrite <- zipv_down in Hz.
  eapply wp_rotate; [done|]. intros s' Hz' Hl. rewrite <- !zipv_up in Hz'.
  destruct (Hk (node d c (node d Black t p x) q (paint Black y))) as [m Hm].
  { apply rb_over; [apply rb_node_black; eauto|by apply rb_blacken|apply color_node|by destruct y]. }
  { apply color_node. }
  exists (F d Black p x :: F d c q (paint Black y) :: k), m. split_and!; try done.
  simpl. apply nodes_plug_eq. unfold fill. simpl. rewrite <- nodes_rotate, !nodes_node, nodes_paint. done.
Qed.

Lemma wp_borrowBlack s t d c p x q y k n : zipv X value s t (F d c p (node d Black x q y) :: k) →
  rb t n → rb x n → rb y n → color x = Red ∨ color y = Red → accepts k (over c (S n)) c →
  wp (borrowBlack d value (LNode p) (LNode q)) (λ _ s', balanced_at s t (F d c p (node d Black x q y) :: k) s') s.
Proof.
  intros Hz Ht Hx Hy Hc Hk. unfold borrowBlack.
  pose proof (proj1 (zipv_up _ _ _ _ _ _ _ _ _) Hz) as Hz1. rewrite zipv_down, <- zipv_up in Hz1.
  pose proof (zipv_frame _ _ _ _ _ _ _ _ _ Hz1) as (_ & HD & HO & _ & HCx & HCy).
  apply wp_rd; [done|]. rewrite HO. apply wp_rd; [apply root_not_null|]. rewrite HCy. case_decide as Hcy.
  2: { apply wp_bind, wp_ret. eapply borrow_far; try done. by destruct (color y). }
  destruct Hc as [Hcx|]; [|congruence]. apply wp_bind.
  apply wp_rd; [done|]. rewrite HD. apply wp_rd; [apply root_not_null|]. rewrite HCx.
  apply wp_check_bind; [by apply bool_decide_true|]. apply wp_wr; [apply root_not_null|]. apply wp_wr; [done|].
  destruct (tree_node d x) as (a & r & b & Hxx); [by intros ->|]. rewrite Hcx in Hxx. subst x. rewrite root_node.
  apply (zipv_paint_node _ _ _ _ _ _ _ _ _ Black) in Hz1. apply (zipv_paint_frame _ _ _ _ _ _ _ _ _ Red) in Hz1.
  rewrite zipv_up, <- node_other, <- (node_other d Black) in Hz1. apply wp_bind. eapply wp_rotate; [done|]. intros s' Hz2 Hl.
  rewrite !node_other in Hz2.
  pose proof (zipv_frame _ _ _ _ _ _ _ _ _ Hz2) as (_ & HD' & _). rewrite root_node in HD'.
  apply wp_rd; [done|]. rewrite HD'. apply wp_check_bind; [by apply bool_decide_true|]. apply wp_ret.
  rewrite <- zipv_down, <- zipv_up in Hz2. apply rb_node_red in Hx as (? & ? & ? & ?).
  eapply wp_mono; [eapply (borrow_far _ _ _ _ _ _ _ _ _ n)|]; try done.
  - by apply rb_node_red.
  - apply color_node.
  - intros _ s'' (k' & m & ? & Hn & ? & ?). exists k', m. split_and!; try done; [|by etrans].
    rewrite Hn. simpl. apply nodes_plug_eq. unfold fill. simpl.
    destruct d; simpl; by repeat (rewrite <- app_assoc; simpl).
Qed.

(** The sister is black, or a rotation makes it so and the parent red. *)
Lemma wp_blackSister s t d c p u k n (Q : link → RedBlackTree → Prop) : zipv X value s t (F d c p u :: k) →
  (1 <= n)%nat → rb t n → color t = Black → dctx (F d c p u :: k) (S n) →
  (∀ s' c' x q y k', zipv X value s' t (F d c' p (node d Black x q y) :: k') → same_list s s' →
     nodes (plug t (F d c' p (node d Black x q y) :: k')) = nodes (plug t (F d c p u :: k)) →
     rb x n → rb y n → accepts k' (over c' (S n)) c' → (c' = Red → accepts k' (S n) Black) →
     (c' = Black → k' = k ∧ dctx k (S (S n))) → Q (LNode q) s') →
  wp (blackSister d value (LNode p)) Q s.
Proof.
  intros Hz Hn Ht Hct Hk HQ. pose proof (zipv_frame _ _ _ _ _ _ _ _ _ Hz) as (_ & _ & HO & _ & _ & HCu).
  pose proof (proj1 Hk) as Hu. assert (u ≠ E) as Hne by (by eapply rb_ne_E).
  destruct (tree_node d u Hne) as (x & q & y & Hux).
  unfold blackSister. apply wp_rd; [done|]. rewrite HO.
  apply wp_check_bind; [apply bool_decide_true; by destruct u|].
  apply wp_rd; [apply root_not_null|]. rewrite HCu. rewrite Hux, root_node in *. rewrite color_node in *. case_decide as Hcu.
  - rewrite Hcu in *. apply rb_node_red in Hu as (Hx & Hy & Hcx & Hcy).
    apply wp_wr; [done|]. apply wp_wr; [done|].
    rewrite zipv_up, zipv_down in Hz. apply (zipv_paint_node _ _ _ _ _ _ _ _ _ Black) in Hz.
    apply (zipv_paint_frame _ _ _ _ _ _ _ _ _ Red) in Hz. rewrite <- zipv_down in Hz.
    apply wp_bind. eapply wp_rotate; [done|]. intros s' Hz' Hl.
    destruct (tree_node d x) as (x' & q' & y' & Hxx); [by eapply rb_ne_E|]. rewrite Hcx in Hxx. subst x.
    rewrite <- !zipv_up in Hz'. pose proof (zipv_frame _ _ _ _ _ _ _ _ _ Hz') as (_ & _ & HO' & _).
    rewrite root_node in HO'. apply wp_rd; [done|]. rewrite HO'.
    apply wp_check_bind; [by apply bool_decide_true|]. apply wp_ret.
    apply rb_node_black in Hx as (m & Hm & ? & ?). injection Hm as <-.
    assert (∀ t', rb t' (S n) → ∃ m, rb (paint Black (plug t' (F d Black q y :: k))) m) as Hacc.
    { intros t' Ht'. pose proof (rb_node_black d t' q y (S (S n))) as Hrb. simpl. unfold fill. simpl.
      destruct k as [|f k]; [simpl; rewrite paint_node; exists (S (S n)); apply Hrb; by eauto|]. destruct c.
      - destruct Hk as (_ & Hb & _). rewrite color_node in Hb. done.
      - destruct Hk as [_ Hk]. apply (dctx_accepts _ _ Hk); [apply Hrb; eauto|apply color_node]. }
    eapply HQ; try done.
    + simpl. apply nodes_plug_eq. unfold fill. simpl. by rewrite <- nodes_rotate, !nodes_node.
    + intros t' Ht' _. by apply Hacc.
    + intros _ t' Ht' _. by apply Hacc.
  - assert (color u = Black) as Hcu' by (destruct (color u); done). rewrite Hcu' in *.
    apply rb_node_black in Hu as (m & Hm & ? & ?). injection Hm as <-. apply wp_ret. eapply HQ; try done.
    + by eapply dctx_frame.
    + intros ->. destruct Hk as [_ Hk]. destruct k as [|f k]; [|by apply dctx_accepts, Hk].
      intros t' Ht' Hct'. exists (S n). by apply rb_paint_black.
    + intros ->. destruct Hk as [_ Hk]. by destruct k as [|f k].
Qed.

(** The invariant of the loop: the child misses a black node, or painting it
    black completes the tree. *)
Definition deficient (t : tree) (k : list frame) : Prop :=
  (color t = Black ∧ ∃ n, rb t n ∧ dctx k (S n)) ∨
  (color t = Red ∧ ∃ n, rb (paint Black t) n ∧ accepts k n Black).

(** [child->Color = Black] at the end of the loop. *)
Lemma wp_paintChild s0 s t0 t k : zipv X value s t k → nodes (plug t k) = nodes t0 →
  (∃ m, rb (paint Black (plug (paint Black t) k)) m) → same_list s0 s →
  wp (wr set_Color (root t) Black) (λ _ s', balanced s0 t0 s') s.
Proof.
  intros Hz Hn [m Hm] Hl. apply wp_wr_last; [apply root_not_null|].
  destruct (decide (t = E)) as [->|Ht].
  - exists (plug E k), m. rewrite zipv_plug. split_and!; try done. destruct Hz as [Hz HS H0 HB]. split.
    + apply (zip_same _ s); [|done]. intros x. fields_solve.
    + apply (sums_ext _ s); [|done]. intros x Hx. done.
    + done.
    + fields_solve.
  - exists (plug (paint Black t) k), m. rewrite zipv_plug. split_and!; try done; [by apply zipv_paint|].
    rewrite <- Hn. apply nodes_plug_eq. apply nodes_paint.
Qed.

Lemma paint_same c t : color t = c → paint c t = t.
Proof. destruct t; simpl; [done|]. by intros ->. Qed.

Lemma wp_removeFixup fuel t k s : zipv X value s t k → deficient t k → (color t = Black → length k <= fuel)%nat →
  (t = E → Parent s LTree = parent k) →
  wp (child ← removeFixup fuel value (root t); wr set_Color child Black) (λ _ s', balanced s (plug t k) s') s.
Proof.
  revert t k s. induction fuel as [|fuel IH]; intros t k s Hz Hdef Hf HE;
    pose proof (zip_color _ _ _ _ (zv_zip _ _ _ _ _ Hz) (zv_black _ _ _ _ _ Hz)) as Hc.
  all: destruct Hdef as [(Hct & n & Ht & Hk)|(Hct & n & Ht & Hk)]; simpl removeFixup.
  2, 4: apply wp_bind, wp_rd; [apply root_not_null|]; rewrite Hc, Hct, decide_False by done; apply wp_ret;
    eapply wp_paintChild; [done..| |done]; apply Hk; [done|by destruct t].
  { destruct k; [done|]. specialize (Hf Hct). simpl in Hf. lia. }
  destruct k as [|[d c p u] k]; [done|]. apply wp_bind, wp_rd; [apply root_not_null|]. rewrite Hc, Hct.
  rewrite decide_True by done. pose proof (rb_pos _ _ Ht) as Hn. pose proof (proj1 Hk) as Hu.
  assert (u ≠ E) as Hne by (by eapply rb_ne_E).
  pose proof (zipv_frame _ _ _ _ _ _ _ _ _ Hz) as (_ & HD & HO & _).
  apply wp_rd; [apply root_not_null|].
  assert (Parent s (root t) = LNode p) as ->.
  { destruct (decide (t = E)) as [->|Hte]; [by apply HE|]. by apply (zip_parent _ _ _ _ (zv_zip _ _ _ _ _ Hz)). }
  apply wp_rd; [done|].
  pose proof (zip_left _ _ _ _ _ _ _ _ (zv_zip _ _ _ _ _ Hz) ltac:(by right)) as Hside.
  apply wp_bind. assert (∀ (K : dir → M RedBlackTree link) Q, wp (K d) Q s →
    wp ((if decide (root t = Subtree Left s (LNode p)) then mret Left
         else right ← rd (Subtree Right) (LNode p); CHECK (bool_decide (root t = right));; mret Right)) (λ a s', wp (K a) Q s') s) as Hdir.
  { intros K Q HK. case_decide as Hl.
    - apply Hside in Hl as ->. by apply wp_ret.
    - assert (d = Right) as -> by (destruct d; naive_solver). apply wp_rd; [done|]. rewrite HD.
      apply wp_check_bind; [by apply bool_decide_true|]. by apply wp_ret. }
  apply (Hdir (λ d, _)). clear Hdir Hside. apply wp_bind.
  eapply wp_blackSister; [done..|]. intros s' c' x q y k' Hz' Hl Hn' Hx Hy Hacc Hred Hblack.
  pose proof (proj1 (zipv_up _ _ _ _ _ _ _ _ _) Hz') as Hz1. rewrite zipv_down, <- zipv_up in Hz1.
  pose proof (zipv_frame _ _ _ _ _ _ _ _ _ Hz1) as (_ & HDq & HOq & _ & HCx & HCy).
  apply wp_rd; [done|]. rewrite HDq. apply wp_rd; [apply root_not_null|]. rewrite HCx.
  apply wp_rd; [done|]. rewrite HOq. apply wp_rd; [apply root_not_null|]. rewrite HCy.
  case_decide as Hxy.
  - destruct Hxy as [Hcx Hcy]. apply wp_wr; [done|].
    apply (zipv_paint_sister _ _ _ _ _ _ _ _ _ Red) in Hz'; [|by destruct d]. rewrite root_node, paint_node in Hz'.
    rewrite zipv_up in Hz'. pose proof (IH _ _ _ Hz') as Hwp. rewrite root_node in Hwp.
    assert (rb (node d Red x q y) n) by (by apply rb_node_red).
    apply wp_bind_inv. eapply wp_mono; [apply Hwp|].
    + destruct c'.
      * right. rewrite color_node. split; [done|]. exists (S n). split; [|by apply Hred].
        rewrite paint_node. apply rb_node_black. eauto.
      * left. rewrite color_node. split; [done|]. exists (S n). destruct (Hblack eq_refl) as [-> ?].
        split; [|done]. apply rb_node_black. eauto.
    + rewrite color_node. intros ->. destruct (Hblack eq_refl) as [-> _]. specialize (Hf Hct). simpl in Hf. lia.
    + by destruct d.
    + intros _ s'' (t' & m & ? & Hn'' & ? & ?). exists t', m. split_and!; try done; [|by etrans].
      rewrite Hn'', <- Hn'. simpl. apply nodes_plug_eq. unfold fill. simpl. by rewrite !nodes_node.
  - apply wp_bind. eapply wp_mono; [eapply (wp_borrowBlack _ _ _ _ _ _ _ _ _ n); try done|].
    { destruct (color x), (color y); tauto. }
    intros _ s'' (k'' & m & Hz'' & Hn'' & Hm & Hl''). apply wp_ret. eapply wp_paintChild; [done|congruence| |by etrans].
    rewrite (paint_same Black t) by done. eauto.
Qed.
End fixup.
