(* ===== verification/RedBlackTreeWalks.v ===== *)
(** * Walks in the tree and along its list

    The loops of the code that follow pointers: what they return in terms of
    the functional tree, and the ring list through the nodes. *)

From S2P Require Import Prelude Storage RedBlackTree RedBlackTreeShape.
From stdpp Require Import base list gmap numbers option sets.
#[local] Open Scope Z_scope.

(** ** Value sums up to the root *)

Definition spine (k : list frame) : list link := (λ f, LNode (f_node f)) <$> k.

Definition sister_sums (value : ptr → Z) (s : RedBlackTree) (k : list frame) : Prop :=
  Forall (λ f, sums value s (f_sister f)) k.

(** Only value sums on the spine of [k] have changed. *)
Definition only_sums (k : list frame) (s s' : RedBlackTree) : Prop :=
  (∀ x, same_node s s' x) ∧ same_list s s' ∧ ∀ x, x ∉ spine k → ValueSum s' x = ValueSum s x.

Lemma spine_ctx k p : LNode p ∈ spine k → p ∈ ctxnodes k.
Proof.
  induction k as [|f k IH]; simpl; [by intros ?%not_elem_of_nil|]. rewrite ctxnodes_cons, elem_of_cons.
  intros [[= ->]|?]; auto.
Qed.

Lemma tree_spine k : LTree ∉ spine k.
Proof. unfold spine. rewrite list_elem_of_fmap. by intros (f & ? & _). Qed.

Lemma sister_ctx k f p : f ∈ k → p ∈ nodes (f_sister f) → p ∈ ctxnodes k.
Proof.
  intros Hf Hp. induction k as [|g k IH]; [by apply not_elem_of_nil in Hf|]. rewrite ctxnodes_cons.
  apply elem_of_cons in Hf as [->|Hf]; auto.
Qed.

Lemma only_sums_sisters k k' value s s' : only_sums k' s s' → (∀ f, f ∈ k → ∀ p, p ∈ nodes (f_sister f) → LNode p ∉ spine k') →
  sister_sums value s k → sister_sums value s' k.
Proof.
  intros (_ & _ & HS) Hd. unfold sister_sums. rewrite !Forall_forall. intros Hk f Hf.
  eapply sums_ext; [|by apply Hk]. intros p Hp. apply HS. by eapply Hd.
Qed.

Lemma sister_spine k f p : NoDup (ctxnodes k) → f ∈ k → p ∈ nodes (f_sister f) → LNode p ∉ spine k.
Proof.
  induction k as [|g k IH]; [by intros _ ?%not_elem_of_nil|]. intros (? & Hk & Hg & Hgk & Hs)%nodup_frame Hf Hp.
  simpl. rewrite elem_of_cons. apply elem_of_cons in Hf as [->|Hf].
  - intros [[= ->]|Hin%spine_ctx]; [done|]. by apply (Hs p).
  - intros [[= ->]|Hin]; [|by apply IH]. apply Hgk.
    by eapply sister_ctx.
Qed.

Lemma wp_upToRoot X value fuel t k s (Q : unit → RedBlackTree → Prop) : zipper X s t k → (length k <= fuel)%nat →
  (∀ s', only_sums k s s' →
     (sums value s t → sister_sums value s k → ValueSum s LTree = 0 → sums value s' (plug t k)) → Q tt s') →
  wp (RedBlackTreeUpdateValueSumsUpToRoot fuel value (parent k)) Q s.
Proof.
  revert t k s. induction fuel as [|fuel IH]; intros t k s Hz Hf HQ.
  all: destruct k as [|[d c p u] k]; [|simpl in Hf; try lia].
  1, 2: by simpl; apply wp_ret; apply HQ.
  pose proof (zip_frame _ _ _ _ _ _ _ _ Hz) as (HP & HD & HO & _).
  pose proof (nodup_plug _ _ (z_nodup _ _ _ _ Hz)) as (_ & Hk & Hd).
  pose proof (Hd p) as Hpt. rewrite ctxnodes_cons in Hpt. simpl in Hpt.
  pose proof (nodup_frame _ _ Hk) as (_ & _ & Hpu & Hpk & Huk); simpl in *.
  apply wp_bind. eapply (wp_updateValueSum_any _ _ d c t p u); [done..|]. intros v Hv.
  apply wp_rd; [done|]. change (Parent (set_ValueSum _ _ s) (LNode p)) with (Parent s (LNode p)). rewrite HP.
  set (s1 := set_ValueSum (LNode p) v s) in *.
  apply (IH (node d c t p u) k); [|lia|].
  { apply (zip_same _ s); [done|]. by apply zip_up. }
  intros s' (Hsame & Hl & HS) Hsums. apply HQ.
  - split_and!; [done|done|]. intros x Hx. simpl in Hx. rewrite elem_of_cons in Hx.
    rewrite HS by tauto. unfold s1. fields_solve. tauto.
  - intros St Sk S0. apply Forall_cons in Sk as [Su Sk]. simpl in Su. apply Hsums.
    + apply sums_node. split; [unfold s1; fields; rewrite decide_True by done; by apply Hv|].
      split; (apply (sums_ext _ s); [|done]); intros g Hg; unfold s1; fields_solve; tauto.
    + unfold sister_sums in *. rewrite Forall_forall in *. intros f Hf'. eapply sums_ext; [|by apply Sk].
      intros g Hg. unfold s1. assert (g ≠ p); [|fields_solve]. intros ->. apply Hpk. by eapply sister_ctx.
    + unfold s1. fields_solve.
Qed.

(** ** The ring list *)

Definition headl (l : list ptr) : link := match head l with Some p => LNode p | None => LTree end.
Definition lastl (l : list ptr) : link := match last l with Some p => LNode p | None => LTree end.

(** At every cut of the list, the two sides point to each other. *)
Definition ring (s : RedBlackTree) (l : list ptr) : Prop :=
  ∀ l1 l2, l = l1 ++ l2 → Next s (lastl l1) = headl l2 ∧ Prev s (headl l2) = lastl l1.

Lemma lastl_snoc l p : lastl (l ++ [p]) = LNode p.
Proof. unfold lastl. by rewrite last_snoc. Qed.

Lemma lastl_app_cons l1 p l2 : lastl (l1 ++ p :: l2) = lastl (p :: l2).
Proof. unfold lastl. by rewrite last_app_cons. Qed.

Lemma lastl_elem l p : lastl l = LNode p → p ∈ l.
Proof. unfold lastl. destruct (last l) eqn:Hl; [|done]. intros [= ->]. by apply last_Some_elem_of. Qed.

Lemma headl_elem l p : headl l = LNode p → p ∈ l.
Proof. unfold headl. destruct l; [done|]. intros [= ->]. left. Qed.

Lemma headl_not_null l : headl l ≠ LNull.
Proof. unfold headl. by destruct l. Qed.

Lemma lastl_not_null l : lastl l ≠ LNull.
Proof. unfold lastl. by destruct (last l). Qed.

(** Parts of a list without duplicates end in different nodes. *)
Lemma lastl_disj l l' : l ≠ [] → (∀ x, x ∈ l → x ∉ l') → lastl l ≠ lastl l'.
Proof.
  intros Hne Hd. destruct (last l) as [x|] eqn:Hx; [|by apply last_None in Hx].
  assert (lastl l = LNode x) as Hl by (unfold lastl; by rewrite Hx). rewrite Hl. intros Heq. symmetry in Heq.
  apply lastl_elem in Hl, Heq. by apply (Hd x).
Qed.

Lemma headl_disj l l' : l ≠ [] → (∀ x, x ∈ l → x ∉ l') → headl l ≠ headl l'.
Proof.
  intros Hne Hd. destruct l as [|x l]; [done|]. unfold headl at 1. simpl. intros Heq. symmetry in Heq.
  apply headl_elem in Heq. apply (Hd x); [left|done].
Qed.

Lemma lastl_app l1 l2 : l2 ≠ [] → lastl (l1 ++ l2) = lastl l2.
Proof. destruct l2; [done|]. intros _. apply lastl_app_cons. Qed.

Lemma headl_app l1 l2 : l1 ≠ [] → headl (l1 ++ l2) = headl l1.
Proof. by destruct l1. Qed.

Lemma lastl_node l p : p ∉ l → lastl l ≠ LNode p.
Proof. intros Hp Heq. by apply Hp, lastl_elem. Qed.

Lemma headl_node l p : p ∉ l → headl l ≠ LNode p.
Proof. intros Hp Heq. by apply Hp, headl_elem. Qed.

Lemma ring_next s l1 p l2 : ring s (l1 ++ p :: l2) → Next s (LNode p) = headl l2.
Proof. intros Hr. destruct (Hr (l1 ++ [p]) l2) as [HN _]; [by rewrite <- app_assoc|]. by rewrite lastl_snoc in HN. Qed.

Lemma ring_prev s l1 p l2 : ring s (l1 ++ p :: l2) → Prev s (LNode p) = lastl l1.
Proof. intros Hr. by destruct (Hr l1 (p :: l2)). Qed.

Lemma ring_same s s' l : same_list s s' → ring s l → ring s' l.
Proof. intros (HP & HN & _) Hr l1 l2 Hl. unfold Next, Prev. rewrite HP, HN. by apply Hr. Qed.

(** Both ways to cut a list whose element [p] is known. *)
Lemma cut_cases {A} (l1 l2 a b : list A) p : l1 ++ p :: l2 = a ++ b →
  (∃ c, l1 = a ++ c ∧ b = c ++ p :: l2) ∨ (∃ c, a = l1 ++ p :: c ∧ l2 = c ++ b).
Proof.
  intros Heq. apply app_eq_inv in Heq as [(c & -> & Hb)|(c & -> & Hc)].
  - left. eauto.
  - destruct c as [|x c]; [simplify_eq/=; left; exists []; by rewrite !app_nil_r|]. simplify_eq/=. right. eauto.
Qed.

Definition only_list (s s' : RedBlackTree) : Prop :=
  (∀ x, same_node s s' x ∧ ValueSum s' x = ValueSum s x) ∧ rbt_Elements s' = rbt_Elements s.

(** The memory after linking [p] at a cut, and after unlinking it. *)
Definition linked (l1 : list ptr) (p : ptr) (l2 : list ptr) (s : RedBlackTree) : RedBlackTree :=
  set_Next (lastl l1) (LNode p) (set_Prev (headl l2) (LNode p) (set_Prev (LNode p) (lastl l1) (set_Next (LNode p) (headl l2) s))).

Definition unlinked (l1 : list ptr) (p : ptr) (l2 : list ptr) (s : RedBlackTree) : RedBlackTree :=
  set_Next (LNode p) LNull (set_Prev (LNode p) LNull (set_Prev (headl l2) (lastl l1) (set_Next (lastl l1) (headl l2) s))).

Lemma nodup_middle {A} (l1 : list A) p l2 : NoDup (l1 ++ p :: l2) ↔
  NoDup l1 ∧ NoDup l2 ∧ p ∉ l1 ∧ p ∉ l2 ∧ ∀ x, x ∈ l1 → x ∉ l2.
Proof. rewrite NoDup_app, NoDup_cons. set_solver. Qed.

Lemma ring_linked s l1 p l2 : ring s (l1 ++ l2) → NoDup (l1 ++ p :: l2) → ring (linked l1 p l2 s) (l1 ++ p :: l2).
Proof.
  intros Hr (Hn1 & Hn2 & Hp1 & Hp2 & H12)%nodup_middle a b Hab.
  pose proof (lastl_node _ _ Hp1). pose proof (headl_node _ _ Hp2).
  destruct (cut_cases _ _ _ _ _ Hab) as [(c & -> & ->)|(c & -> & ->)].
  - destruct (decide (c = [])) as [->|Hc]; [rewrite app_nil_r in *; unfold linked; cbn [headl head app]; fields_solve|].
    destruct (Hr a (c ++ l2)) as [HN HP]; [by rewrite <- app_assoc|]. apply NoDup_app in Hn1 as (_ & Hac & _).
    rewrite headl_app in HN, HP |- * by done.
    assert (lastl (a ++ c) ≠ lastl a) by (rewrite lastl_app by done; apply lastl_disj; set_solver).
    assert (headl c ≠ headl l2) by (apply headl_disj; set_solver).
    pose proof (lastl_node a p ltac:(set_solver)). pose proof (headl_node c p ltac:(set_solver)).
    unfold linked. fields_solve.
  - destruct (decide (c = [])) as [->|Hc]; [rewrite lastl_snoc; unfold linked; simpl; fields_solve|].
    destruct (Hr (l1 ++ c) b) as [HN HP]; [by rewrite <- app_assoc|]. apply NoDup_app in Hn2 as (_ & Hcb & _).
    rewrite !lastl_app in HN, HP by done. rewrite lastl_app by done.
    change (p :: c) with ([p] ++ c). rewrite lastl_app by done.
    assert (lastl c ≠ lastl l1) by (apply lastl_disj; set_solver).
    assert (headl (c ++ b) ≠ headl b) by (rewrite headl_app by done; apply headl_disj; set_solver).
    pose proof (lastl_node c p ltac:(set_solver)). pose proof (headl_node b p ltac:(set_solver)).
    unfold linked. fields_solve.
Qed.

Lemma ring_unlinked s l1 p l2 : ring s (l1 ++ p :: l2) → NoDup (l1 ++ p :: l2) → ring (unlinked l1 p l2 s) (l1 ++ l2).
Proof.
  intros Hr (Hn1 & Hn2 & Hp1 & Hp2 & H12)%nodup_middle a b Hab.
  pose proof (lastl_node _ _ Hp1). pose proof (headl_node _ _ Hp2).
  apply app_eq_inv in Hab as [(c & -> & ->)|(c & -> & ->)].
  - destruct (decide (c = [])) as [->|Hc]; [rewrite app_nil_r in *; unfold unlinked; simpl; fields_solve|].
    destruct (Hr a (c ++ p :: l2)) as [HN HP]; [by rewrite <- app_assoc|]. apply NoDup_app in Hn1 as (_ & Hac & _).
    rewrite headl_app in HN, HP |- * by done.
    assert (lastl (a ++ c) ≠ lastl a) by (rewrite lastl_app by done; apply lastl_disj; set_solver).
    assert (headl c ≠ headl l2) by (apply headl_disj; set_solver).
    pose proof (lastl_node a p ltac:(set_solver)). pose proof (headl_node c p ltac:(set_solver)).
    unfold unlinked. fields_solve.
  - destruct (decide (c = [])) as [->|Hc]; [rewrite app_nil_r in *; unfold unlinked; simpl; fields_solve|].
    destruct (Hr (l1 ++ p :: c) b) as [HN HP]; [by rewrite <- app_assoc|]. apply NoDup_app in Hn2 as (_ & Hcb & _).
    rewrite lastl_app in HN, HP by done. change (p :: c) with ([p] ++ c) in HN, HP. rewrite lastl_app in HN, HP by done.
    rewrite lastl_app by done.
    assert (lastl c ≠ lastl l1) by (apply lastl_disj; set_solver).
    assert (headl (c ++ b) ≠ headl b) by (rewrite headl_app by done; apply headl_disj; set_solver).
    pose proof (lastl_node c p ltac:(set_solver)). pose proof (headl_node b p ltac:(set_solver)).
    unfold unlinked. fields_solve.
Qed.

Lemma wp_addAfter s l1 p l2 (Q : unit → RedBlackTree → Prop) : ring s (l1 ++ l2) → p ∉ l1 →
  Q tt (linked l1 p l2 s) → wp (doubleLinkedRingListAddAfter (lastl l1) (LNode p)) Q s.
Proof.
  intros Hr Hp HQ. destruct (Hr l1 l2) as [HN _]; [done|]. pose proof (lastl_node _ _ Hp).
  unfold doubleLinkedRingListAddAfter. apply wp_rd; [apply lastl_not_null|]. rewrite HN.
  apply wp_wr; [done|]. apply wp_wr; [done|]. apply wp_rd; [apply lastl_not_null|].
  replace (Next _ (lastl l1)) with (headl l2) by (symmetry; fields_solve).
  apply wp_wr; [apply headl_not_null|]. apply wp_wr_last; [apply lastl_not_null|]. exact HQ.
Qed.

Lemma wp_remNode s l1 p l2 (Q : unit → RedBlackTree → Prop) : ring s (l1 ++ p :: l2) → NoDup (l1 ++ p :: l2) →
  Q tt (unlinked l1 p l2 s) → wp (doubleLinkedRingListRemNode (LNode p)) Q s.
Proof.
  intros Hr (_ & _ & Hp1 & Hp2 & _)%nodup_middle HQ. pose proof (lastl_node _ _ Hp1). pose proof (headl_node _ _ Hp2).
  pose proof (ring_next _ _ _ _ Hr) as HN. pose proof (ring_prev _ _ _ _ Hr) as HP.
  unfold doubleLinkedRingListRemNode. apply wp_rd; [done|]. rewrite HP. apply wp_rd; [done|]. rewrite HN.
  apply wp_wr; [apply lastl_not_null|]. apply wp_rd; [done|].
  replace (Next _ (LNode p)) with (headl l2) by (symmetry; fields_solve).
  apply wp_rd; [done|]. replace (Prev _ (LNode p)) with (lastl l1) by (symmetry; fields_solve).
  apply wp_wr; [apply headl_not_null|]. apply wp_wr; [done|]. apply wp_wr_last; [done|]. exact HQ.
Qed.

(** ** Neighbours in the tree *)

(** The end of a list on side [d]. *)
Definition endl (d : dir) (l : list ptr) : link := match d with Left => headl l | Right => lastl l end.

(** The nodes on side [d] of the hole: the nearest is at the other end. *)
Definition beside (d : dir) (k : list frame) : list ptr := match d with Left => lefts k | Right => rights k end.

Lemma wp_descend X fuel d s t k (Q : link → RedBlackTree → Prop) : zipper X s t k → t ≠ E →
  (length (nodes t) <= fuel)%nat → Q (endl d (nodes t)) s → wp (descend fuel d (root t)) Q s.
Proof.
  revert t k. induction fuel as [|fuel IH]; intros t k Hz Hne Hf HQ.
  all: destruct t as [|c l p r]; [done|].
  { simpl in Hf. rewrite length_app in Hf. simpl in Hf. lia. }
  simpl in Hf. rewrite length_app in Hf. simpl in Hf.
  assert (∃ x y, T c l p r = node d c x p y ∧ (length (nodes x) <= fuel)%nat ∧
    endl d (nodes (T c l p r)) = if decide (x = E) then LNode p else endl d (nodes x)) as (x & y & Hxy & Hfx & He).
  { destruct d; [exists l, r|exists r, l]; (split; [done|]; split; [lia|]); simpl; case_decide as Hx.
    - by subst.
    - apply headl_app. destruct l; [done|]. simpl. by destruct (nodes l1).
    - subst. simpl. apply lastl_snoc.
    - rewrite lastl_app_cons. change (p :: nodes r) with ([p] ++ nodes r). apply lastl_app.
      destruct r; [done|]. simpl. by destruct (nodes r1). }
  rewrite Hxy in Hz. pose proof (zip_node _ _ _ _ _ _ _ _ Hz) as (_ & HD & _).
  simpl. apply wp_rd; [done|]. rewrite HD. rewrite He in HQ. case_decide as Hx; case_decide; try (by subst).
  - by apply wp_ret.
  - by destruct x.
  - apply (IH x _ (proj2 (zip_up _ _ _ _ _ _ _ _) Hz)); done.
Qed.

Lemma wp_climb X fuel d s t k (Q : link → RedBlackTree → Prop) : zipper X s t k → t ≠ E →
  (length k <= fuel)%nat → Q (endl (other d) (beside d k)) s → wp (climb fuel d (root t) (parent k)) Q s.
Proof.
  revert t k. induction fuel as [|fuel IH]; intros t k Hz Hne Hf HQ.
  all: destruct k as [|[e c p u] k]; [by simpl; destruct d; apply wp_ret|simpl in Hf; try lia].
  pose proof (zip_frame _ _ _ _ _ _ _ _ Hz) as (HP & HD & HO & _).
  simpl. apply wp_rd; [done|]. destruct (dir_cases d e) as [-> | ->].
  - rewrite HD, decide_True by done. apply wp_rd; [done|]. rewrite HP.
    pose proof (proj1 (zip_up _ _ _ _ _ _ _ _) Hz) as Hz'. specialize (IH _ _ Hz'). rewrite root_node in IH.
    apply IH; [by destruct d|lia|]. by destruct d.
  - rewrite other_other in HO. rewrite HO, decide_False.
    2: { intros Heq. apply (zip_sister_ne _ _ _ _ Hz Hne). simpl. by rewrite other_other, HO. }
    apply wp_ret. destruct d; simpl in *; [|done]. by rewrite app_assoc, lastl_snoc in HQ.
Qed.

Lemma wp_internalFind X d s c x p y k (Q : link → RedBlackTree → Prop) : zipper X s (node d c x p y) k →
  (length (nodes (plug (node d c x p y) k)) <= treeFuel s)%nat →
  Q (match d with Left => lastl (lefts k ++ nodes x) | Right => headl (nodes x ++ rights k) end) s →
  wp (RedBlackTreeInternalFind d (LNode p)) Q s.
Proof.
  intros Hz Hf HQ. pose proof (length_plug (node d c x p y) k) as Hlen.
  pose proof (zip_node _ _ _ _ _ _ _ _ Hz) as (HP & HD & _).
  assert (length (nodes x) <= length (nodes (node d c x p y)))%nat.
  { rewrite nodes_node. destruct d; rewrite length_app; simpl; lia. }
  unfold RedBlackTreeInternalFind. apply wp_bind, wp_gets. apply wp_rd; [done|]. rewrite HD. case_decide as Hx.
  - apply wp_rd; [done|]. rewrite HP. rewrite <- (root_node d c x p y).
    eapply wp_climb; [done|by destruct d|lia|]. destruct x; [|done]. destruct d; simpl in *; [|done].
    by rewrite app_nil_r in HQ.
  - assert (x ≠ E) by (by intros ->). assert (nodes x ≠ []) by (destruct x; [done|simpl; by destruct (nodes x1)]).
    eapply wp_descend; [by apply zip_up|done|lia|]. destruct d; simpl.
    + by rewrite lastl_app in HQ.
    + by rewrite headl_app in HQ.
Qed.

(** The list of a leaf-linked tree. *)
Definition ringed `{LeafLinked} (s : RedBlackTree) (l : list ptr) : Prop := USE_LEAFLINKED = true → ring s l.

Lemma nodes_focus c l p r k : nodes (plug (T c l p r) k) = (lefts k ++ nodes l) ++ p :: nodes r ++ rights k.
Proof. rewrite nodes_plug. simpl. by repeat (rewrite <- app_assoc; simpl). Qed.

Section neighbours.
Context `{LL : LeafLinked} (X : list ptr) (s : RedBlackTree).

Lemma wp_getNext c l p r k (Q : link → RedBlackTree → Prop) : zipper X s (T c l p r) k →
  ringed s (nodes (plug (T c l p r) k)) → (length (nodes (plug (T c l p r) k)) <= treeFuel s)%nat →
  Q (unlessHead (headl (nodes r ++ rights k))) s → wp (RedBlackTreeGetNext (LNode p)) Q s.
Proof.
  intros Hz Hr Hf HQ. unfold RedBlackTreeGetNext. apply wp_bind. unfold ringed in Hr. rewrite nodes_focus in Hr.
  destruct USE_LEAFLINKED.
  - apply wp_gets. rewrite (ring_next _ _ _ _ (Hr eq_refl)). by apply wp_ret.
  - eapply (wp_internalFind _ Right _ c r p l); [done|done|]. by apply wp_ret.
Qed.

Lemma wp_getPrev c l p r k (Q : link → RedBlackTree → Prop) : zipper X s (T c l p r) k →
  ringed s (nodes (plug (T c l p r) k)) → (length (nodes (plug (T c l p r) k)) <= treeFuel s)%nat →
  Q (unlessHead (lastl (lefts k ++ nodes l))) s → wp (RedBlackTreeGetPrev (LNode p)) Q s.
Proof.
  intros Hz Hr Hf HQ. unfold RedBlackTreeGetPrev. apply wp_bind. unfold ringed in Hr. rewrite nodes_focus in Hr.
  destruct USE_LEAFLINKED.
  - apply wp_gets. rewrite (ring_prev _ _ _ _ (Hr eq_refl)). by apply wp_ret.
  - eapply (wp_internalFind _ Left _ c l p r); [done|done|]. by apply wp_ret.
Qed.

(** The ends of the order. *)
Lemma wp_outermost d t (Q : link → RedBlackTree → Prop) : zipper X s t [] → (length (nodes t) <= treeFuel s)%nat →
  Q (unlessHead (endl d (nodes t))) s → wp (outermost d) Q s.
Proof.
  intros Hz Hf HQ. unfold outermost. apply wp_bind, wp_gets. pose proof (zip_hole _ _ _ _ Hz) as Hh. simpl in Hh.
  pose proof (z_right _ _ _ _ Hz) as HR. apply wp_rd; [done|]. apply wp_bind.
  assert (wp (if decide (Subtree d s LTree = LTree) then rd (Subtree (other d)) LTree else mret (Subtree d s LTree))
    (λ x s', x = root t ∧ s' = s) s) as Hroot.
  { destruct d.
    - rewrite Hh. case_decide as Ht; [|by apply wp_ret]. apply wp_gets. simpl. by rewrite HR.
    - rewrite HR. rewrite decide_True by done. apply wp_gets. by rewrite <- Hh. }
  eapply wp_mono; [exact Hroot|]. intros x s' [-> ->]. apply wp_bind. destruct (decide (t = E)) as [->|Hne].
  - destruct (treeFuel s); simpl; (apply wp_rd; [done|]); destruct d; rewrite ?Hh, ?HR; by apply wp_ret, wp_ret.
  - eapply wp_descend; [done..|]. by apply wp_ret.
Qed.
End neighbours.

(** ** Searches

    A search that has come to the hole of [k] has compared all nodes on the
    way: those to the left are smaller, those to the right larger. *)

Definition searched (cmp : ptr → Z) (k : list frame) : Prop :=
  Forall (λ p, 0 < cmp p) (lefts k) ∧ Forall (λ p, cmp p < 0) (rights k).

Lemma probe_split cmp l1 p l2 : probe_ok cmp (l1 ++ p :: l2) →
  (cmp p <= 0 → Forall (λ q, cmp q < 0) l2) ∧ (0 <= cmp p → Forall (λ q, 0 < cmp q) l1).
Proof.
  intros Hpr. assert (∃ a b, l1 ++ p :: l2 = a ++ b ∧ Forall (λ q, 0 < cmp q) a ∧ Forall (λ q, cmp q < 0) (tail b))
    as (a & b & Hab & Ha & Hb).
  { destruct Hpr as [a q b Hab Ha Hq Hb|a b Hab Ha Hb]; [by exists a, (q :: b)|]. exists a, b. split_and!; try done.
    destruct Hb; [constructor|done]. }
  destruct (cut_cases _ _ _ _ _ Hab) as [(c & -> & ->)|(c & -> & ->)].
  - destruct c as [|x c]; simpl in Hb; [by rewrite app_nil_r|]. rewrite Forall_app, Forall_cons in Hb.
    split; [tauto|lia].
  - rewrite Forall_app, Forall_cons in Ha. split; [lia|tauto].
Qed.

Lemma probe_right cmp l1 p l2 : probe_ok cmp (l1 ++ p :: l2) → cmp p <= 0 → Forall (λ q, cmp q < 0) l2.
Proof. intros Hpr. apply (probe_split _ _ _ _ Hpr). Qed.

Lemma probe_left cmp l1 p l2 : probe_ok cmp (l1 ++ p :: l2) → 0 <= cmp p → Forall (λ q, 0 < cmp q) l1.
Proof. intros Hpr. apply (probe_split _ _ _ _ Hpr). Qed.

Lemma searched_left cmp c l p r k : probe_ok cmp (nodes (plug (T c l p r) k)) → searched cmp k → cmp p < 0 →
  searched cmp (F Left c p r :: k).
Proof.
  rewrite nodes_plug. simpl. rewrite <- app_assoc, app_assoc. intros Hpr [Hl Hr] Hp. split; simpl; [done|].
  constructor; [done|]. eapply probe_right in Hpr; [done|lia].
Qed.

Lemma searched_right cmp c l p r k : probe_ok cmp (nodes (plug (T c l p r) k)) → searched cmp k → 0 < cmp p →
  searched cmp (F Right c p l :: k).
Proof.
  rewrite nodes_plug. simpl. rewrite <- app_assoc, app_assoc. intros Hpr [Hl Hr] Hp. split; simpl; [|done].
  rewrite app_assoc, Forall_app. split; [|by constructor]. eapply probe_left in Hpr; [done|lia].
Qed.

(** A search ends at an equal node or at a leaf. *)
Lemma searched_found cmp c l p r k : probe_ok cmp (nodes (plug (T c l p r) k)) → cmp p = 0 →
  l_find cmp (nodes (plug (T c l p r) k)) = Some p.
Proof.
  rewrite nodes_plug. simpl. rewrite <- app_assoc, app_assoc. simpl. intros Hpr Hp. apply l_find_found; [|done].
  eapply probe_left in Hpr; [done|lia].
Qed.

Lemma searched_missing cmp k : searched cmp k → l_find cmp (nodes (plug E k)) = None.
Proof. intros [Hl Hr]. rewrite nodes_plug. by apply l_find_missing. Qed.

Section search.
Context (X : list ptr) (cmp : ptr → Z) (s : RedBlackTree).

Lemma wp_findFrom fuel t k (Q : link → RedBlackTree → Prop) : zipper X s t k → searched cmp k →
  probe_ok cmp (nodes (plug t k)) → (length (nodes t) <= fuel)%nat →
  Q (match l_find cmp (nodes (plug t k)) with Some p => LNode p | None => LNull end) s →
  wp (findFrom fuel cmp (root t)) Q s.
Proof.
  revert t k. induction fuel as [|fuel IH]; intros t k Hz Hk Hpr Hf HQ.
  all: destruct t as [|c l p r]; [rewrite searched_missing in HQ by done; by apply wp_ret|].
  all: simpl in Hf; rewrite length_app in Hf; simpl in Hf; try lia.
  pose proof (zip_node _ _ Left _ _ _ _ _ Hz) as (_ & HL & HR & _). simpl in HR.
  simpl. apply wp_bind, wp_ret. destruct (Z.eqb_spec (cmp p) 0) as [Hp|Hp].
  { rewrite searched_found in HQ by done. by apply wp_ret. }
  destruct (Z.ltb_spec (cmp p) 0); (apply wp_rd; [done|]).
  - rewrite HL. apply (IH l (F Left c p r :: k)); [by apply (zip_up _ _ _ Left)|by eapply searched_left|done|lia|done].
  - rewrite HR. apply (IH r (F Right c p l :: k)); [by apply (zip_up _ _ _ Right)|eapply searched_right; [done..|lia]|done|lia|done].
Qed.

Lemma wp_locate fuel t k c0 (Q : link + link * Z → RedBlackTree → Prop) : zipper X s t k → searched cmp k →
  probe_ok cmp (nodes (plug t k)) → (length (nodes t) <= fuel)%nat → (if c0 <? 0 then Left else Right) = side k →
  (∀ p, l_find cmp (nodes (plug t k)) = Some p → Q (inl (LNode p)) s) →
  (∀ k' c', plug E k' = plug t k → searched cmp k' → (if c' <? 0 then Left else Right) = side k' →
     Q (inr (parent k', c')) s) →
  wp (locate fuel cmp (root t) (parent k) c0) Q s.
Proof.
  revert t k c0. induction fuel as [|fuel IH]; intros t k c0 Hz Hk Hpr Hf Hc HQ1 HQ2.
  all: destruct t as [|c l p r]; [by apply wp_ret; apply HQ2|].
  all: simpl in Hf; rewrite length_app in Hf; simpl in Hf; try lia.
  pose proof (zip_node _ _ Left _ _ _ _ _ Hz) as (_ & HL & HR & _). simpl in HR.
  simpl. apply wp_bind, wp_ret. destruct (Z.ltb_spec (cmp p) 0) as [Hp|Hp].
  { apply wp_rd; [done|]. rewrite HL.
    apply (IH l (F Left c p r :: k)); try done; [by apply (zip_up _ _ _ Left)|by eapply searched_left|lia|].
    by destruct (Z.ltb_spec (cmp p) 0); [|lia]. }
  destruct (Z.ltb_spec 0 (cmp p)) as [Hp'|Hp'].
  { apply wp_rd; [done|]. rewrite HR.
    apply (IH r (F Right c p l :: k)); try done; [by apply (zip_up _ _ _ Right)|by eapply searched_right|lia|].
    by destruct (Z.ltb_spec (cmp p) 0); [lia|]. }
  apply wp_ret, HQ1. apply searched_found; [done|lia].
Qed.

(** The members the search for a nearest node holds: that with the hole, and
    the one above. *)
Definition above (k : list frame) : option (dir * link) :=
  match k with [] => None | _ :: k' => Some (side k', parent k') end.

Lemma wp_nearestFrom fuel t k (Q : link + (dir * link) * option (dir * link) → RedBlackTree → Prop) :
  zipper X s t k → searched cmp k → probe_ok cmp (nodes (plug t k)) → (length (nodes t) <= fuel)%nat →
  (∀ c l p r k', plug (T c l p r) k' = plug t k → cmp p = 0 → Q (inl (LNode p)) s) →
  (∀ k', plug E k' = plug t k → searched cmp k' → Q (inr ((side k', parent k'), above k')) s) →
  wp (nearestFrom fuel cmp (side k, parent k) (above k)) Q s.
Proof.
  revert t k. induction fuel as [|fuel IH]; intros t k Hz Hk Hpr Hf HQ1 HQ2.
  all: pose proof (zip_hole _ _ _ _ Hz) as Hh; cbn [nearestFrom fst snd];
    apply wp_rd; [apply parent_not_null|]; rewrite Hh.
  all: destruct t as [|c l p r]; [by apply wp_ret; apply HQ2|].
  all: simpl in Hf; rewrite length_app in Hf; simpl in Hf; try lia.
  simpl. apply wp_bind, wp_ret. destruct (Z.ltb_spec (cmp p) 0) as [Hp|Hp].
  { apply (IH l (F Left c p r :: k)); try done; [by apply (zip_up _ _ _ Left)|by eapply searched_left|lia]. }
  destruct (Z.ltb_spec 0 (cmp p)) as [Hp'|Hp'].
  { apply (IH r (F Right c p l :: k)); try done; [by apply (zip_up _ _ _ Right)|by eapply searched_right|lia]. }
  apply wp_ret. apply (HQ1 c l p r k); [done|lia].
Qed.
End search.

(** ** The nearest node and the node by value *)

Definition link_ptr (x : link) : option ptr := match x with LNode p => Some p | _ => None end.

Lemma link_ptr_unlessHead x : link_ptr (unlessHead x) = link_ptr x.
Proof. unfold unlessHead. case_decide; by subst. Qed.

Lemma link_ptr_headl l : link_ptr (headl l) = head l.
Proof. unfold headl. by destruct l. Qed.

Lemma link_ptr_lastl l : link_ptr (lastl l) = last l.
Proof. unfold lastl. by destruct (last l). Qed.

Lemma length_ctx k : (length k <= length (nodes (plug E k)))%nat.
Proof. pose proof (length_plug E k). simpl in *. lia. Qed.

(** What the search returns on side [d]. *)
Lemma wp_getNearest `{LL : LeafLinked} X d cmp s t (Q : link → RedBlackTree → Prop) : zipper X s t [] → ringed s (nodes t) →
  probe_ok cmp (nodes t) → (length (nodes t) <= treeFuel s)%nat →
  (∀ l1 l2 x, nodes t = l1 ++ l2 → Forall (λ p, 0 < cmp p) l1 → Forall (λ p, cmp p <= 0) l2 →
     Forall (λ p, cmp p < 0) (tail l2) →
     link_ptr x = (match d with Left => last l1 | Right => head (if decide (Exists (λ p, cmp p = 0) l2) then tail l2 else l2) end) →
     Q x s) →
  wp (RedBlackTreeGetNearest d cmp) Q s.
Proof.
  intros Hz Hr Hpr Hf HQ. unfold RedBlackTreeGetNearest. apply wp_bind, wp_gets, wp_bind.
  eapply (wp_nearestFrom _ _ _ _ t []); [done|by split|done|done|..].
  - intros c l p r k Hl Hp. change (plug t []) with t in Hl. subst t. rewrite zip_plug in Hz. pose proof Hpr as Hpr'.
    rewrite nodes_focus in Hpr'. destruct (probe_split _ _ _ _ Hpr') as [H2 H1].
    assert (Forall (λ p, cmp p <= 0) (p :: nodes r ++ rights k)).
    { constructor; [lia|]. eapply Forall_impl; [by apply H2; lia|]. simpl; intros; lia. }
    destruct d; [eapply wp_getPrev|eapply wp_getNext]; try done;
      apply (HQ _ _ _ (nodes_focus c l p r k)); try done; try (apply H1; lia); try (apply H2; lia); rewrite link_ptr_unlessHead.
    + by rewrite link_ptr_lastl.
    + rewrite link_ptr_headl. by rewrite decide_True by (by constructor).
  - intros k Hk [Hs1 Hs2]. change (plug t []) with t in Hk.
    assert (nodes t = lefts k ++ rights k) as Hn by (by rewrite <- Hk, nodes_plug).
    assert (∀ x, link_ptr x = link_ptr (endl (other d) (beside d k)) → Q x s) as HQ'.
    { intros x Hx. apply (HQ _ _ _ Hn); try done.
      - eapply Forall_impl; [done|]. simpl; intros; lia.
      - by destruct Hs2.
      - rewrite Hx. destruct d; simpl; [apply link_ptr_lastl|]. rewrite link_ptr_headl.
        rewrite decide_False; [done|]. intros Hex. apply Exists_exists in Hex as (y & Hy & Hy0).
        rewrite Forall_forall in Hs2. specialize (Hs2 y Hy). simpl in *. lia. }
    destruct k as [|[e c p u] k]; [apply wp_ret, HQ'; by destruct d|].
    rewrite <- Hk, zip_plug in Hz. pose proof (zip_frame _ _ _ _ _ _ _ _ Hz) as (HP & HD & _).
    pose proof (proj1 (zip_up _ _ _ _ _ _ _ _) Hz) as Hz'. pose proof (zip_hole _ _ _ _ Hz') as Hh. rewrite root_node in Hh.
    cbn [above fst snd side parent f_side f_node]. apply wp_rd; [apply parent_not_null|]. rewrite Hh. case_decide as He.
    + injection He as ->. apply wp_ret, HQ'. destruct d; simpl; [|done]. by rewrite app_assoc, lastl_snoc.
    + assert (e = d) as -> by (destruct d, e; done). apply wp_rd; [done|]. rewrite HD, decide_True by done.
      apply wp_rd; [done|]. rewrite HP. apply wp_bind. rewrite <- (root_node d c E p u).
      eapply wp_climb; [done|by destruct d| |].
      * pose proof (length_ctx (F d c p u :: k)) as Hlen. rewrite Hk in Hlen. simpl in Hlen. lia.
      * apply wp_ret, HQ'. rewrite link_ptr_unlessHead. by destruct d.
Qed.

Lemma l_by_value_left value l1 l2 v : (∀ p, p ∈ l1 → 0 <= value p) → 0 <= v < l_valuesum value l1 →
  l_by_value value v (l1 ++ l2) = l_by_value value v l1.
Proof.
  revert v. induction l1 as [|q l1 IH]; intros v Hnn Hv; unfold l_valuesum in *; simpl in *; [lia|].
  destruct (Z.ltb_spec v (value q)); [done|]. apply IH; [|lia]. intros p Hp. apply Hnn. by right.
Qed.

Lemma l_by_value_right value l1 l2 v : (∀ p, p ∈ l1 → 0 <= value p) → l_valuesum value l1 <= v →
  l_by_value value v (l1 ++ l2) = l_by_value value (v - l_valuesum value l1) l2.
Proof.
  revert v. induction l1 as [|q l1 IH]; intros v Hnn Hv; unfold l_valuesum in *; simpl in *; [f_equal; lia|].
  assert (0 <= foldr (λ p acc, value p + acc) 0 l1).
  { clear -Hnn. induction l1 as [|x l1 IH]; simpl; [lia|].
    pose proof (Hnn x ltac:(set_solver)). assert (0 <= foldr (λ p acc, value p + acc) 0 l1); [|lia].
    apply IH. intros p Hp. apply Hnn. set_solver. }
  destruct (Z.ltb_spec v (value q)); [lia|]. rewrite IH; [f_equal; lia| |lia]. intros p Hp. apply Hnn. by right.
Qed.

Lemma l_valuesum_nonneg value l : (∀ p, p ∈ l → 0 <= value p) → 0 <= l_valuesum value l.
Proof.
  unfold l_valuesum. induction l as [|x l IH]; simpl; intros Hnn; [lia|].
  pose proof (Hnn x ltac:(set_solver)). assert (0 <= foldr (λ p acc, value p + acc) 0 l); [|lia].
  apply IH. intros p Hp. apply Hnn. set_solver.
Qed.

Lemma wp_byValueFrom X value fuel t k s v (Q : link → RedBlackTree → Prop) : zipper X s t k → sums value s t →
  ValueSum s LTree = 0 → (length (nodes t) <= fuel)%nat →
  (∀ p, p ∈ nodes t → 0 <= value p) → l_valuesum value (nodes t) < 2 ^ 64 → 0 <= v < l_valuesum value (nodes t) →
  (∀ p, l_by_value value v (nodes t) = Some p → Q (LNode p) s) →
  wp (byValueFrom fuel value v (root t)) Q s.
Proof.
  revert t k v. induction fuel as [|fuel IH]; intros t k v Hz HS H0 Hf Hnn Hsum Hv HQ.
  all: destruct t as [|c l p r]; [unfold l_valuesum in Hv; simpl in Hv; lia|].
  all: simpl in Hf; rewrite length_app in Hf; simpl in Hf; try lia.
  pose proof (zip_node _ _ Left _ _ _ _ _ Hz) as (_ & HL & HR & _). simpl in HR. destruct HS as (_ & Sl & Sr).
  simpl in Hsum, Hv, HQ, Hnn. rewrite l_valuesum_app in Hsum, Hv. unfold l_valuesum in Hsum at 2, Hv at 2.
  simpl in Hsum, Hv. fold (l_valuesum value (nodes r)) in Hsum, Hv.
  assert (∀ q, q ∈ nodes l → 0 <= value q) as Hnl by (intros q Hq; apply Hnn; set_solver).
  assert (∀ q, q ∈ nodes r → 0 <= value q) as Hnr by (intros q Hq; apply Hnn; set_solver).
  pose proof (Hnn p ltac:(set_solver)). pose proof (l_valuesum_nonneg _ _ Hnl). pose proof (l_valuesum_nonneg _ _ Hnr).
  simpl. apply wp_rd; [done|]. rewrite HL. apply wp_rd; [apply root_not_null|]. rewrite (sums_root value s l) by done.
  unfold csum. rewrite (wrap_small 64 (l_valuesum value (nodes l))) by (unfold in_width; lia).
  rewrite (wrap_small 64 (value p)), (wrap_small 64 (l_valuesum value (nodes l) + value p)) by (unfold in_width; lia).
  destruct (Z.ltb_spec v (l_valuesum value (nodes l))) as [Hl|Hl].
  { rewrite decide_False by (destruct l; [unfold l_valuesum in Hl; simpl in Hl; lia|done]).
    apply (IH l (F Left c p r :: k)); try done; [by apply (zip_up _ _ _ Left)|lia..|].
    intros q Hq. apply HQ. rewrite l_by_value_left; [done|done|lia]. }
  rewrite l_by_value_right in HQ by done. simpl in HQ.
  destruct (Z.ltb_spec v (l_valuesum value (nodes l) + value p)) as [Hp|Hp].
  { apply wp_ret. apply HQ. by destruct (Z.ltb_spec (v - l_valuesum value (nodes l)) (value p)); [|lia]. }
  apply wp_rd; [done|]. rewrite HR.
  rewrite decide_False by (destruct r; [change (l_valuesum value (nodes E)) with 0 in Hv; lia|done]).
  rewrite wrap_small by (unfold in_width; lia).
  apply (IH r (F Right c p l :: k)); try done; [by apply (zip_up _ _ _ Right)|lia..|].
  intros q Hq. apply HQ. destruct (Z.ltb_spec (v - l_valuesum value (nodes l)) (value p)); [lia|].
  rewrite <- Hq. f_equal. lia.
Qed.
