(* ===== verification/RedBlackTreeInsert.v ===== *)
(** * Insertion into the tree

    [tree_ok value s t]: the memory is a red-black tree with the nodes of
    [t], its value sums, its ring list and its counter.  An insertion finds
    an equal node, or adds the new node at its place. *)

From S2P Require Import Prelude Storage RedBlackTree RedBlackTreeShape RedBlackTreeBalance RedBlackTreeWalks.
From stdpp Require Import base list gmap numbers option sets.
#[local] Open Scope Z_scope.

Section variant.
Context `{LL : LeafLinked}.

Record tree_ok (value : ptr → Z) (s : RedBlackTree) (t : tree) : Prop := {
  ok_zip : zipv [] value s t [];
  ok_ring : ringed s (nodes t);
  ok_elements : rbt_Elements s = Z.of_nat (length (nodes t));
  ok_balance : ∃ n, rb t n;
  ok_root : color t = Black
}.

Lemma tree_fuel value s t : tree_ok value s t → (S (length (nodes t)) <= treeFuel s)%nat.
Proof. intros Hok. unfold treeFuel. rewrite (ok_elements _ _ _ Hok). lia. Qed.

(** The memory after the new leaf has been linked. *)
Definition leafed (p : ptr) (k : list frame) (s : RedBlackTree) : RedBlackTree :=
  set_Subtree Right (LNode p) LTree (set_Subtree Left (LNode p) LTree
    (set_Parent (LNode p) (parent k) (set_Subtree (side k) (parent k) (LNode p) s))).

Lemma zip_leafed s p k : zipper [] s E k → p ∉ nodes (plug E k) →
  zipper [] (leafed p k s) (T (Color s (LNode p)) E p E) k.
Proof.
  intros Hz Hp. pose proof (nodup_plug _ _ (z_nodup _ _ _ _ Hz)) as (_ & Hk & _).
  destruct Hz as [_ Hc Hn Hb Hu]. rewrite elem_plug in Hp.
  assert (parent k ≠ LNode p) as Hkp by (intros Heq%parent_elem; tauto).
  split.
  - simpl. unfold leafed. fields_solve.
  - apply (rep_ctx_replace s _ _ LTree); [done| | | |done].
    + intros g Hg Hne. assert (g ≠ p) by (intros ->; tauto). unfold leafed. fields_solve.
    + intros Hne. destruct (parent_ctx k Hne) as (g & Hg & Hin). pose proof (other_ne (side k)).
      unfold leafed. rewrite Hg in *. fields_solve.
    + unfold leafed. simpl. fields_solve.
  - rewrite nodes_plug in Hn |- *. simpl. rewrite nodup_middle. apply NoDup_app in Hn as (? & ? & ?).
    unfold ctxnodes in Hp. set_solver.
  - unfold leafed. destruct k as [|f k]; simpl; fields_solve.
  - intros g Hg _. rewrite elem_plug in Hg. simpl in Hg. rewrite <- (Hu g).
    + unfold leafed. assert (g ≠ p) by set_solver.
      assert (parent k ≠ LNode g) by (intros Heq%parent_elem; tauto). fields_solve.
    + rewrite elem_plug. set_solver.
    + set_solver.
Qed.

Lemma sister_sums_ctx value s k l : sums_ctx value s k l → sister_sums value s k.
Proof.
  revert l. induction k as [|f k IH]; intros l; simpl; [constructor|]. intros (_ & ? & ?). constructor; [done|by eapply IH].
Qed.

Lemma sister_sums_ext value s s' k : (∀ p, p ∈ ctxnodes k → ValueSum s' (LNode p) = ValueSum s (LNode p)) →
  sister_sums value s k → sister_sums value s' k.
Proof.
  unfold sister_sums. rewrite !Forall_forall. intros Hs Hk f Hf. eapply sums_ext; [|by apply Hk].
  intros p Hp. apply Hs. by eapply sister_ctx.
Qed.

(** The new node is linked behind its predecessor. *)
Lemma wp_linkList s c p k (Q : unit → RedBlackTree → Prop) : zipper [] s (T c E p E) k →
  ringed s (lefts k ++ rights k) → (length (nodes (plug (T c E p E) k)) <= treeFuel s)%nat →
  (∀ s', only_list s s' → ringed s' (nodes (plug (T c E p E) k)) → Q tt s') →
  wp (if USE_LEAFLINKED then
        prev ← RedBlackTreeInternalFindPrev (LNode p);
        if decide (prev = LTree) then doubleLinkedRingListAddHead (LNode p)
        else doubleLinkedRingListAddAfter prev (LNode p)
      else mret tt) Q s.
Proof.
  intros Hz Hr Hf HQ. pose proof (z_nodup _ _ _ _ Hz) as Hnd. unfold ringed in *. destruct USE_LEAFLINKED.
  2: { apply wp_ret, HQ; [done|done]. }
  specialize (Hr eq_refl). rewrite nodes_plug in Hnd. simpl in Hnd.
  pose proof Hnd as (_ & _ & Hp & _ & _)%nodup_middle. apply wp_bind. unfold RedBlackTreeInternalFindPrev.
  eapply (wp_internalFind _ Left _ _ E p E); [done|done|]. simpl. rewrite app_nil_r.
  assert (wp (doubleLinkedRingListAddAfter (lastl (lefts k)) (LNode p)) Q s) as Hadd.
  { eapply wp_addAfter; [done|done|]. apply HQ; [done|]. intros _. rewrite nodes_plug. simpl. by apply ring_linked. }
  case_decide as Hl; [|done]. unfold doubleLinkedRingListAddHead. by rewrite <- Hl.
Qed.

Lemma only_list_same s s' : only_list s s' → ∀ x, same_node s s' x.
Proof. intros [Hs _] x. apply Hs. Qed.

Lemma wp_linkNode value s p k c (Q : unit → RedBlackTree → Prop) : zipv [] value s E k →
  ringed s (nodes (plug E k)) → rbt_Elements s = Z.of_nat (length (nodes (plug E k))) → p ∉ nodes (plug E k) →
  (if c <? 0 then Left else Right) = side k →
  (∀ s' c', zipper [] s' (T c' E p E) k → sums value s' (T c' E p E) → sister_sums value s' k →
     ValueSum s' LTree = 0 → Color s' LTree = Black → ringed s' (nodes (plug (T c' E p E) k)) →
     rbt_Elements s' = Z.of_nat (length (nodes (plug (T c' E p E) k))) → Q tt s') →
  wp (linkNode value (parent k) c (LNode p)) Q s.
Proof.
  intros [Hz HS H0 HB] Hr He Hp Hc HQ. unfold linkNode. rewrite Hc.
  apply wp_wr; [apply parent_not_null|]. do 4 (apply wp_wr; [done|]). fold (leafed p k s).
  pose proof (zip_leafed _ _ _ Hz Hp) as Hz1. set (s1 := set_ValueSum (LNode p) _ (leafed p k s)).
  assert (zipper [] s1 (T (Color s (LNode p)) E p E) k) as Hz2 by (by apply (zip_same _ (leafed p k s))).
  rewrite nodes_plug in Hp, Hr, He. simpl in Hp, Hr, He. rewrite elem_of_app in Hp.
  assert (Z.of_nat (length (nodes (plug (T (Color s (LNode p)) E p E) k))) = rbt_Elements s + 1) as Hlen.
  { rewrite nodes_plug. simpl. rewrite length_app in *. simpl. lia. }
  apply wp_bind. eapply wp_linkList; [done|done| |].
  { unfold treeFuel. change (rbt_Elements s1) with (rbt_Elements s). lia. }
  intros s2 Hl Hr2. pose proof Hl as [Hv He2]. apply wp_modify. apply (HQ _ (Color s (LNode p))).
  - apply (zip_same _ s2); [done|]. apply (zip_same _ s1); [by apply only_list_same|done].
  - simpl. split_and!; try done. change (ValueSum s2 (LNode p) = csum value [p]). rewrite (proj2 (Hv (LNode p))). unfold s1, leafed. fields. rewrite decide_True by done.
    simpl. unfold csum, l_valuesum. simpl. by rewrite Z.add_0_r.
  - apply sums_plug in HS as [_ HS]. apply sister_sums_ctx in HS. eapply sister_sums_ext; [|done]. intros g Hg.
    assert (g ≠ p) by (intros ->; unfold ctxnodes in Hg; set_solver).
    change (ValueSum s2 (LNode g) = ValueSum s (LNode g)). rewrite (proj2 (Hv (LNode g))). unfold s1, leafed. fields_solve.
  - change (ValueSum s2 LTree = 0). rewrite (proj2 (Hv LTree)). unfold s1, leafed. fields_solve.
  - change (Color s2 LTree = Black). by rewrite (proj1 (proj2 (proj1 (Hv LTree)))).
  - exact Hr2.
  - change (rbt_Elements s2 + 1 = Z.of_nat (length (nodes (plug (T (Color s (LNode p)) E p E) k)))).
    rewrite He2, Hlen. done.
Qed.

(** The end of both operations: the root is painted black. *)
Lemma wp_colorRoot_black X value s0 t0 s (Q : unit → RedBlackTree → Prop) : balanced X value s0 t0 s → nodes t0 ≠ [] →
  (∀ s' t' n, zipv X value s' t' [] → nodes t' = nodes t0 → rb t' n → color t' = Black → same_list s0 s' → Q tt s') →
  wp (colorRoot Black) Q s.
Proof.
  intros (t & m & Hz & Hn & Hm & Hl) Hne HQ. assert (t ≠ E) by (by intros ->).
  unfold colorRoot. apply wp_rd; [done|]. pose proof (zip_hole _ _ _ _ (zv_zip _ _ _ _ _ Hz)) as Hh. simpl in Hh. rewrite Hh.
  apply wp_wr_last; [apply root_not_null|]. apply (HQ _ (paint Black t) m).
  - by apply zipv_paint.
  - by rewrite nodes_paint.
  - done.
  - by destruct t.
  - destruct Hl as (? & ? & ?). done.
Qed.

Lemma wp_insert value cmp s t p : tree_ok value s t → probe_ok cmp (nodes t) → p ∉ nodes t →
  wp (RedBlackTreeInsert cmp value (LNode p))
    (λ r s', match l_find cmp (nodes t) with
             | Some q => r = LNode q ∧ s' = s
             | None => r = LNode p ∧ ∃ t', tree_ok value s' t' ∧ nodes t' = l_insert cmp p (nodes t)
             end) s.
Proof.
  intros Hok Hpr Hp. pose proof (tree_fuel _ _ _ Hok) as Hf. destruct Hok as [Hz Hr He [n Hn] Hc].
  unfold RedBlackTreeInsert. apply wp_bind, wp_gets. apply wp_rd; [done|].
  pose proof (zip_hole _ _ _ _ (zv_zip _ _ _ _ _ Hz)) as Hh. simpl in Hh. rewrite Hh. apply wp_bind.
  eapply (wp_locate _ _ _ _ t []); [apply Hz|by split|done|lia|done|..].
  { intros q Hq. simpl in Hq. rewrite Hq. by apply wp_ret. }
  simpl plug. intros k c' <- Hs Hside. rewrite searched_missing by done. rewrite zipv_plug in Hz.
  apply wp_bind. apply wp_linkNode; [done..|]. intros s1 c1 Hz1 St Sk S0 HB Hr1 He1.
  apply wp_rd; [done|]. pose proof (zip_node _ _ Left _ _ _ _ _ Hz1) as (HP & _). rewrite HP.
  pose proof (length_ctx k) as Hlen.
  apply wp_bind. eapply wp_upToRoot; [done|lia|]. intros s2 (Hsame & Hl & HS) Hsums.
  apply wp_wr; [done|]. set (s3 := set_Color (LNode p) Red s2).
  assert (zipv [] value s3 (T Red E p E) k) as Hz3.
  { apply (zipv_paint _ _ _ (T c1 E p E)); [|done]. split.
    - by apply (zip_same _ s1).
    - by apply Hsums.
    - rewrite HS by apply tree_spine. done.
    - by rewrite (proj1 (proj2 (Hsame LTree))). }
  destruct (unplug_rb E k n) as (n' & HE & Hk & _); [done..|]. inversion HE; subst.
  apply wp_bind. eapply wp_mono; [apply (wp_insertFixup _ _ _ _ _ 1 _ Hz3); try done; [by repeat constructor|lia]|].
  intros u s4 Hb; cbn beta in Hb. apply wp_bind. eapply wp_colorRoot_black; [done|by rewrite nodes_plug; simpl; destruct (lefts k)|].
  intros s5 t' m Hz5 Hn5 Hm5 Hc5 Hl5. apply wp_ret. split; [done|]. exists t'. split.
  - split; [done| | |by exists m|done].
    + rewrite Hn5, nodes_plug. rewrite nodes_plug in Hr1. intros Hu. apply (ring_same s3); [done|].
      apply (ring_same s2); [done|]. apply (ring_same s1); [done|by apply Hr1].
    + rewrite Hn5, nodes_plug. rewrite nodes_plug in He1. destruct Hl5 as (_ & _ & ->).
      change (rbt_Elements s3) with (rbt_Elements s2). by destruct Hl as (_ & _ & ->).
  - rewrite Hn5, !nodes_plug. simpl. symmetry. destruct Hs. by apply l_insert_app.
Qed.
End variant.
