(* ===== verification/RedBlackTreeRemove.v ===== *)
(** * Removal from the tree

    A node with at most one child is replaced by the child; a node with two
    children by the next node, which is taken out of its place first.  Both
    leave a tree in which the removed color may be missing at one place
    ([removed]); the loop of [removeFixup] then restores the balance. *)

From S2P Require Import Prelude Storage RedBlackTree RedBlackTreeShape RedBlackTreeBalance RedBlackTreeWalks RedBlackTreeInsert.
From stdpp Require Import base list gmap numbers option sets.
#[local] Open Scope Z_scope.

Section variant.
Context `{LL : LeafLinked}.

(** ** A child takes the place of its parent *)

Definition spliced (y : tree) (k : list frame) (s : RedBlackTree) : RedBlackTree :=
  set_Subtree (side k) (parent k) (root y) (set_Parent (root y) (parent k) s).

Lemma zip_spliced X s d c p y k : zipper X s (node d c E p y) k → zipper (p :: X) (spliced y k s) y k.
Proof.
  intros Hz. pose proof (nodup_plug _ _ (z_nodup _ _ _ _ Hz)) as (Hn & Hk & Hd).
  apply nodup_node in Hn as (_ & Hny & _ & Hpy & _). setoid_rewrite elem_nodes_node in Hd.
  destruct Hz as [Hr Hc Hn Hb Hu]. apply rep_node in Hr as (_ & _ & _ & _ & _ & Hr).
  assert (∀ g, g ∈ nodes y → parent k ≠ LNode g) as Hkg.
  { intros g Hg Heq%parent_elem. apply (Hd g); auto. }
  split.
  - apply (rep_reparent s _ (LNode p)); [done| | |done].
    + intros g Hg Hne. specialize (Hkg g Hg). unfold spliced. fields_solve.
    + intros Hne. destruct y as [|cy ly g ry]; [done|]. specialize (Hkg g ltac:(simpl; set_solver)).
      unfold spliced. simpl in *. fields_solve.
  - apply (rep_ctx_replace s _ _ (LNode p)); [done| | | |by rewrite <- (root_node d c E p y)].
    + intros g Hg Hne. assert (root y ≠ LNode g) by (intros Heq%root_elem; by apply (Hd g); auto).
      unfold spliced. fields_solve.
    + intros Hne. destruct (parent_ctx k Hne) as (g & Hg & Hin). pose proof (other_ne (side k)).
      assert (root y ≠ LNode g) by (intros Heq%root_elem; by apply (Hd g); auto).
      unfold spliced. rewrite Hg in *. fields_solve.
    + unfold spliced. fields_solve.
  - apply nodup_plug_intro; [done..|]. auto.
  - unfold spliced. destruct k as [|f k]; simpl; fields_solve.
  - intros g Hg Hx. rewrite elem_plug in Hg. rewrite elem_of_cons in Hx. rewrite <- (Hu g).
    + assert (parent k ≠ LNode g) by (intros Heq%parent_elem; tauto). unfold spliced. fields_solve.
    + rewrite elem_plug, elem_nodes_node. simpl. set_solver.
    + tauto.
Qed.

(** ** A node takes the place of another one *)

Definition replaced (c c' : RedBlackTreeNodeColorType) (l : tree) (p q : ptr) (r : tree) (k : list frame) (s : RedBlackTree) :
    RedBlackTree :=
  set_Subtree (side k) (parent k) (LNode q) (set_Color (LNode p) c' (set_Color (LNode q) c
    (set_Parent (root r) (LNode q) (set_Parent (root l) (LNode q)
      (set_Subtree Right (LNode q) (root r) (set_Subtree Left (LNode q) (root l)
        (set_Parent (LNode q) (parent k) s))))))).

Lemma zip_replaced X s c c' l p q r k : zipper (q :: X) s (T c l p r) k → q ∉ nodes (plug (T c l p r) k) →
  zipper (p :: X) (replaced c c' l p q r k s) (T c l q r) k.
Proof.
  intros Hz Hq. pose proof (nodup_plug _ _ (z_nodup _ _ _ _ Hz)) as (Hn & Hk & Hd).
  apply (nodup_node Left c l p r) in Hn as (Hnl & Hnr & Hpl & Hpr & Hlr).
  rewrite elem_plug, (elem_nodes_node Left c l p r) in Hq.
  assert (∀ g, g = p ∨ g ∈ nodes l ∨ g ∈ nodes r → g ∉ ctxnodes k) as Hd'.
  { intros g Hg. apply Hd. by apply (elem_nodes_node Left c l p r). }
  destruct Hz as [(HP & HL & HR & HC & Rl & Rr) Hc Hn Hb Hu].
  assert (parent k ≠ LNode p ∧ parent k ≠ LNode q ∧ ∀ g, g ∈ nodes l ∨ g ∈ nodes r → parent k ≠ LNode g) as (Hkp & Hkq & Hkg).
  { split_and!; [intros Heq%parent_elem; apply (Hd' p); auto|intros Heq%parent_elem; tauto|].
    intros g Hg Heq%parent_elem. apply (Hd' g); tauto. }
  assert (root l ≠ LNode q ∧ root r ≠ LNode q ∧ root l ≠ LNode p ∧ root r ≠ LNode p) as (? & ? & ? & ?).
  { pose proof (root_elem l). pose proof (root_elem r). split_and!; naive_solver. }
  assert (q ≠ p) by tauto.
  assert (∀ g, g ∈ nodes l → root r ≠ LNode g) as Hlr1 by (intros g Hg Heq%root_elem; by apply (Hlr g)).
  assert (∀ g, g ∈ nodes r → root l ≠ LNode g) as Hlr2 by (intros g Hg Heq%root_elem; by apply (Hlr g)).
  split.
  - simpl. split_and!; try (unfold replaced; fields_solve; done).
    + apply (rep_reparent s _ (LNode p)); [done| | |done].
      * intros g Hg Hne. specialize (Hkg g ltac:(auto)). specialize (Hlr1 g Hg).
        assert (g ≠ p ∧ g ≠ q) as [? ?] by naive_solver. unfold replaced. fields_solve.
      * intros Hne. destruct l as [|cl ll g lr]; [done|]. simpl root in *. 
        specialize (Hkg g ltac:(simpl; set_solver)). specialize (Hlr1 g ltac:(simpl; set_solver)).
        unfold replaced. fields_solve.
    + apply (rep_reparent s _ (LNode p)); [done| | |done].
      * intros g Hg Hne. specialize (Hkg g ltac:(auto)). specialize (Hlr2 g Hg).
        assert (g ≠ p ∧ g ≠ q) as [? ?] by naive_solver. unfold replaced. fields_solve.
      * intros Hne. destruct r as [|cl ll g lr]; [done|]. simpl root in *.
        specialize (Hkg g ltac:(simpl; set_solver)). unfold replaced. fields_solve.
  - apply (rep_ctx_replace s _ _ (LNode p)); [done| | | |done].
    + intros g Hg Hne. assert (root l ≠ LNode g) by (intros Heq%root_elem; by apply (Hd' g); auto).
      assert (root r ≠ LNode g) by (intros Heq%root_elem; by apply (Hd' g); auto).
      assert (g ≠ p ∧ g ≠ q) as [? ?] by (split; intros ->; [by apply (Hd' p); auto|tauto]).
      unfold replaced. fields_solve.
    + intros Hne. destruct (parent_ctx k Hne) as (g & Hg & Hin). pose proof (other_ne (side k)).
      assert (root l ≠ LNode g) by (intros Heq%root_elem; by apply (Hd' g); auto).
      assert (root r ≠ LNode g) by (intros Heq%root_elem; by apply (Hd' g); auto).
      unfold replaced. rewrite Hg in *. fields_solve.
    + unfold replaced. simpl. fields_solve.
  - apply nodup_plug_intro; [apply (nodup_node Left c l q r); split_and!; tauto|done|].
    intros g [->|Hg]%(elem_nodes_node Left c l q r); [tauto|]. apply Hd'. auto.
  - unfold replaced. destruct k as [|f k]; simpl; fields_solve.
  - intros g Hg Hx. rewrite elem_plug, (elem_nodes_node Left c l q r) in Hg. rewrite elem_of_cons in Hx. rewrite <- (Hu g).
    + assert (parent k ≠ LNode g) by (intros Heq%parent_elem; tauto). assert (g ≠ q) by tauto.
      unfold replaced. fields_solve.
    + rewrite elem_plug, (elem_nodes_node Left c l p r). tauto.
    + rewrite elem_of_cons. tauto.
Qed.

(** ** What unlinking leaves *)

Lemma l_valuesum_ext value value' l : (∀ p, p ∈ l → value p = value' p) → l_valuesum value l = l_valuesum value' l.
Proof.
  unfold l_valuesum. induction l as [|x l IH]; intros Hv; simpl; [done|]. rewrite (Hv x) by set_solver.
  f_equal. apply IH. set_solver.
Qed.

Lemma sums_value value value' s t : (∀ p, p ∈ nodes t → value p = value' p) → sums value s t → sums value' s t.
Proof.
  induction t as [|c l IHl p r IHr]; intros Hv; simpl; [done|]. simpl in Hv. intros (HS & Sl & Sr). split_and!.
  - rewrite HS. unfold csum. f_equal. by apply l_valuesum_ext.
  - apply IHl; [|done]. intros q Hq. apply Hv. set_solver.
  - apply IHr; [|done]. intros q Hq. apply Hv. set_solver.
Qed.

Lemma sister_sums_value value value' s k : (∀ p, p ∈ ctxnodes k → p ∉ f_node <$> k → value p = value' p) →
  NoDup (ctxnodes k) → sister_sums value s k → sister_sums value' s k.
Proof.
  unfold sister_sums. rewrite !Forall_forall. intros Hv Hnd Hk f Hf. eapply sums_value; [|by apply Hk].
  intros p Hp. apply Hv; [by eapply sister_ctx|]. intros Hin. eapply (sister_spine k f p); [done..|].
  unfold spine. apply list_elem_of_fmap in Hin as (g & -> & Hg). apply list_elem_of_fmap. eauto.
Qed.

(** Node [p] is out of the tree; the subtree [y] stands where a node of color
    [c] was removed. *)
Record removed (value : ptr → Z) (p : ptr) (s s' : RedBlackTree) (y : tree) (K : list frame) (c : RedBlackTreeNodeColorType) : Prop := {
  rm_zip : zipper [p] s' y K;
  rm_sums : sums value s' (plug y K);
  rm_null : ValueSum s' LTree = 0;
  rm_black : Color s' LTree = Black;
  rm_list : same_list s s';
  rm_color : Color s' (LNode p) = c;
  rm_parent : y = E → Parent s' LTree = parent K;
  rm_balance : ∃ n, rb y n ∧ ctx K (over c n) ∧ (c = Red → color y = Black ∧ topblack K)
}.

(** What the context of a node with a missing child says about the other one. *)
Lemma unplug_spliced d c p y k m : rb (plug (node d c E p y) k) m → color (plug (node d c E p y) k) = Black →
  ∃ n, rb y n ∧ ctx k (over c n) ∧ (c = Red → color y = Black ∧ topblack k).
Proof.
  intros Hm Hc. destruct (unplug_rb _ _ _ Hm Hc) as (n & Hn & Hk & Ht). rewrite color_node in Ht. destruct c.
  - apply rb_node_red in Hn as (_ & ? & _ & ?). exists n. auto.
  - apply rb_node_black in Hn as (n' & -> & _ & ?). exists n'. done.
Qed.

Lemma parent_spliced y k s : Parent (spliced y k s) (root y) = parent k.
Proof. unfold spliced. fields_solve. Qed.

(** The replacement of a child in the tree. *)
Lemma wp_splice {B} X s d c p y k (K : unit → M RedBlackTree B) Q : zipper X s (node d c E p y) k →
  wp (K tt) Q (spliced y k s) →
  wp (wr set_Parent (root y) (parent k) ≫= λ _, replaceChild Left (parent k) (LNode p) (root y) ≫= K) Q s.
Proof.
  intros Hz Hwp. pose proof (zip_hole _ _ _ _ Hz) as Hh. pose proof (zip_sister_ne _ _ _ _ Hz ltac:(by destruct d)) as Hne.
  rewrite root_node in Hh, Hne. apply wp_wr; [apply root_not_null|]. by apply wp_bind, wp_replaceChild.
Qed.

Lemma wp_unlinkOuter value value' fuel s c l p r k n (Q : link → RedBlackTree → Prop) :
  zipv [] value s (T c l p r) k → l = E ∨ r = E → rb (plug (T c l p r) k) n → color (plug (T c l p r) k) = Black →
  (∀ q, q ∈ nodes (plug (T c l p r) k) → q ≠ p → value q = value' q) → (length k <= fuel)%nat →
  (∀ s' y, removed value' p s s' y k c → nodes y = nodes l ++ nodes r → Q (root y) s') →
  wp (unlinkOuter fuel value' (LNode p)) Q s.
Proof.
  intros Hz Hlr Hn Hcol Hv Hf HQ.
  assert (∃ d y, T c l p r = node d c E p y ∧ nodes y = nodes l ++ nodes r ∧
    (if decide (root l = LTree) then root r else root l) = root y) as (d & y & Hy & Hny & Hchild).
  { destruct (decide (l = E)) as [->|Hl]; [by exists Left, r|]. destruct Hlr as [? | ->]; [done|].
    exists Right, l. rewrite decide_False by (by destruct l). simpl. by rewrite app_nil_r. }
  pose proof (zip_node _ _ Left _ _ _ _ _ (zv_zip _ _ _ _ _ Hz)) as (HP & HL & HR & _). simpl in HR.
  unfold unlinkOuter. apply wp_check_bind; [done|]. apply wp_rd; [done|]. rewrite HL. apply wp_rd; [done|]. rewrite HR.
  apply wp_check_bind; [destruct Hlr as [-> | ->]; simpl; [done|apply orb_true_r]|]. cbn zeta. rewrite Hchild.
  apply wp_rd; [done|]. rewrite HP. rewrite Hy in *. destruct Hz as [Hz HS H0 HB].
  eapply wp_splice; [done|]. pose proof (zip_spliced _ _ _ _ _ _ _ Hz) as Hz1.
  apply wp_bind. eapply wp_upToRoot; [done..|]. intros s' (Hsame & Hl & Hspine) Hsums. apply wp_ret. apply HQ; [|done].
  pose proof (nodup_plug _ _ (z_nodup _ _ _ _ Hz)) as (Hnd & Hk & Hd).
  apply nodup_node in Hnd as (_ & _ & _ & Hpy & _). setoid_rewrite elem_plug in Hv. setoid_rewrite elem_nodes_node in Hv.
  apply sums_plug in HS as [(_ & _ & Sy)%sums_node Sk%sister_sums_ctx].
  split.
  - by apply (zip_same _ (spliced y k s)).
  - apply Hsums; [| |done].
    + eapply (sums_value value); [|by apply (sums_ext _ s)]. intros q Hq. apply Hv; [auto|by intros ->].
    + eapply (sister_sums_value value); [|done|by apply (sister_sums_ext _ s)]. intros q Hq _. apply Hv; [auto|].
      intros ->. eapply Hd; [|done]. rewrite elem_nodes_node. auto.
  - rewrite Hspine by apply tree_spine. done.
  - by rewrite (proj1 (proj2 (Hsame LTree))).
  - by etrans; [|done].
  - rewrite (proj1 (proj2 (Hsame (LNode p)))). by apply (zip_node _ _ _ _ _ _ _ _ Hz).
  - intros ->. rewrite (proj1 (Hsame LTree)). apply (parent_spliced E).
  - by eapply unplug_spliced.
Qed.

(** ** The next node takes the place of the removed one *)

Lemma lefts_app k k' : lefts (k ++ k') = lefts k' ++ lefts k.
Proof.
  induction k as [|[[] c p u] k IH]; simpl; [by rewrite app_nil_r|done|]. by rewrite IH, <- app_assoc.
Qed.

Lemma rights_app k k' : rights (k ++ k') = rights k ++ rights k'.
Proof. induction k as [|[[] c p u] k IH]; simpl; [done| |done]. by rewrite IH, <- app_assoc. Qed.

Lemma leftmost r : r ≠ E → ∃ kr c q y, r = plug (T c E q y) kr ∧ lefts kr = [].
Proof.
  induction r as [|c l IH q y _]; [done|]. intros _. destruct (decide (l = E)) as [->|Hl]; [by exists [], c, q, y|].
  destruct (IH Hl) as (kr & c' & q' & y' & -> & Hkr). exists (kr ++ [F Left c q y]), c', q', y'.
  by rewrite plug_app, lefts_app.
Qed.

Lemma zip_app X s t k1 k2 : zipper X s t (k1 ++ k2) ↔ zipper X s (plug t k1) k2.
Proof. by rewrite <- (zip_plug X s t), <- (zip_plug X s (plug t k1)), plug_app. Qed.

Lemma ctx_rename kr d c p q u k m : ctx (kr ++ F d c p u :: k) m → ctx (kr ++ F d c q u :: k) m.
Proof.
  revert m. induction kr as [|[e c' g v] kr IH]; intros m; [done|]. simpl. destruct c'.
  - intros (? & ? & Ht & ?). split_and!; auto. by destruct kr as [|f kr].
  - intros [? ?]. auto.
Qed.

Lemma topblack_rename kr d c p q u k : topblack (kr ++ F d c p u :: k) → topblack (kr ++ F d c q u :: k).
Proof. by destruct kr. Qed.

Lemma only_sums_sums value k s s' t : only_sums k s s' → (∀ p, p ∈ nodes t → p ∉ ctxnodes k) →
  sums value s t → sums value s' t.
Proof.
  intros (_ & _ & HS) Hd. apply sums_ext. intros p Hp. apply HS. intros Hin%spine_ctx. by apply (Hd p).
Qed.

Section rename.
Context (value : ptr → Z) (c : RedBlackTreeNodeColorType) (l : tree) (p q : ptr) (y : tree) (kr k : list frame).

Abbreviation K := (kr ++ F Right c q l :: k).

(** The value sums are computed from the node that moved up, and then from
    its former parent: for [kr = []] this is the removed node itself. *)
Lemma wp_resum fuel s (Q : link → RedBlackTree → Prop) : zipper [p] s (T c l q (plug y kr)) k →
  p ∉ nodes (plug y K) → Parent s (LNode p) = parent k → Subtree Left s (LNode p) = root l →
  (kr = [] → Subtree Right s (LNode p) = root y) →
  sums value s y → sister_sums value s K → ValueSum s LTree = 0 → (length K <= fuel)%nat →
  (∀ s', (∀ x, same_node s s' x) → same_list s s' → ValueSum s' LTree = 0 → sums value s' (plug y K) → Q (root y) s') →
  wp (RedBlackTreeUpdateValueSumsUpToRoot fuel value (LNode q);;
      RedBlackTreeUpdateValueSumsUpToRoot fuel value (parent (kr ++ F Right c p l :: k));;
      mret (root y)) Q s.
Proof.
  intros Hz Hp HP HL HR Sy Sk S0 Hf HQ. pose proof Hz as Hzk. apply (zip_up _ _ _ Right) in Hz.
  rewrite length_app in Hf. simpl in Hf.
  change (LNode q) with (parent (F Right c q l :: k)). apply wp_bind.
  eapply wp_upToRoot; [done|simpl; lia|]. intros s1 Hs1 Hsums1. pose proof Hs1 as (Hsame1 & Hl1 & HS1).
  assert (ValueSum s1 LTree = 0) as S01 by (rewrite HS1 by apply tree_spine; done).
  apply (zip_same _ _ _ _ _ Hsame1) in Hz as Hz1.
  destruct kr as [|f kr'].
  - simpl plug in *. simpl parent. destruct fuel as [|fuel]; [lia|]. simpl.
    destruct (Hsame1 (LNode p)) as (HP1 & _ & HT1).
    apply wp_bind, wp_bind. apply (wp_updateValueSum_any _ _ Left c l p y).
    { by rewrite HT1. }
    { rewrite HT1. by apply HR. }
    intros v _. apply wp_rd; [done|]. change (Parent (set_ValueSum _ _ s1) (LNode p)) with (Parent s1 (LNode p)).
    rewrite HP1, HP. set (s2 := set_ValueSum (LNode p) v s1).
    assert (zipper [p] s2 (T c l q y) k) as Hz2.
    { apply (zip_same _ s1); [done|]. by apply (zip_up _ _ _ Right). }
    assert (sums value s2 (plug y (F Right c q l :: k))) as HS2.
    { apply (sums_ext _ s1); [|by apply Hsums1]. intros g Hg. assert (g ≠ p) by (by intros ->). unfold s2. fields_solve. }
    eapply wp_upToRoot; [done|lia|]. intros s3 (Hsame3 & Hl3 & HS3) Hsums3. apply wp_ret.
    assert (ValueSum s2 LTree = 0) as S02 by (unfold s2; fields_solve).
    apply (HQ s3).
    + intros x. destruct (Hsame1 x) as (? & ? & Ht), (Hsame3 x) as (? & ? & Ht'). unfold s2 in *.
      split_and!; try (by etrans). intros d. by rewrite Ht', <- Ht.
    + etrans; [exact Hl1|]. exact Hl3.
    + rewrite HS3 by apply tree_spine. done.
    + simpl in HS2. apply sums_plug in HS2 as [HS2 HK2]. apply Hsums3; [done|by eapply sister_sums_ctx|done].
  - assert (zipper [p] s1 y (f :: kr' ++ F Right c q l :: k)) as Hz2.
    { by apply (zip_app _ _ _ (f :: kr')). }
    change (parent ((f :: kr') ++ F Right c p l :: k)) with (parent (f :: kr' ++ F Right c q l :: k)).
    pose proof (nodup_plug _ _ (z_nodup _ _ _ _ Hz)) as (_ & _ & Hd).
    apply wp_bind. eapply wp_upToRoot; [done|simpl; rewrite length_app; simpl in *; lia|].
    intros s2 (Hsame2 & Hl2 & HS2) Hsums2. apply wp_ret. apply HQ.
    + intros x. destruct (Hsame1 x) as (? & ? & Ht), (Hsame2 x) as (? & ? & Ht'). split_and!; try (by etrans).
      intros d. by rewrite Ht', <- Ht.
    + by etrans.
    + rewrite HS2 by apply tree_spine. done.
    + apply Hsums2; [| |done].
      * eapply only_sums_sums; [exact Hs1| |done]. intros g Hg. apply Hd. rewrite elem_plug. auto.
      * apply Forall_app in Sk as [Skr Sk]. apply (Forall_app _ (f :: kr')). split.
        -- unfold sister_sums in *. rewrite Forall_forall in *. intros h Hh.
           eapply only_sums_sums; [exact Hs1| |by apply Skr]. intros g Hg. apply Hd. rewrite elem_plug. right.
           by eapply sister_ctx.
        -- eapply only_sums_sisters; [exact Hs1| |done]. intros h Hh g Hg. 
           eapply sister_spine; [|done..]. apply (nodup_plug _ _ (z_nodup _ _ _ _ Hz)).
Qed.
End rename.

Lemma wp_replaceNode s c c' l p q r k (Q : unit → RedBlackTree → Prop) : zipper [q] s (T c l p r) k →
  q ∉ nodes (plug (T c l p r) k) → Q tt (replaced c c' l p q r k s) →
  wp (replaceNode (LNode p) (LNode q) c') Q s.
Proof.
  intros Hz Hq HQ. pose proof (zip_node _ _ Left _ _ _ _ _ Hz) as (HP & HL & HR & HC). simpl in HR.
  pose proof (zip_hole _ _ _ _ Hz) as Hh. pose proof (zip_sister_ne _ _ _ _ Hz ltac:(done)) as Hne. simpl root in Hh, Hne.
  rewrite elem_plug in Hq. assert (q ≠ p) by (intros ->; apply Hq; left; simpl; set_solver).
  assert (parent k ≠ LNode q) by (intros Heq%parent_elem; tauto).
  unfold replaceNode. apply wp_rd; [done|]. rewrite HP. apply wp_wr; [done|]. apply wp_rd; [done|].
  replace (Subtree Left _ (LNode p)) with (root l) by (symmetry; fields_solve). apply wp_wr; [done|]. apply wp_rd; [done|].
  replace (Subtree Right _ (LNode p)) with (root r) by (symmetry; fields_solve). apply wp_wr; [done|]. apply wp_rd; [done|].
  replace (Subtree Left _ (LNode q)) with (root l) by (symmetry; fields_solve). apply wp_wr; [apply root_not_null|].
  apply wp_rd; [done|]. replace (Subtree Right _ (LNode q)) with (root r) by (symmetry; fields_solve).
  apply wp_wr; [apply root_not_null|]. apply wp_rd; [done|].
  replace (Color _ (LNode p)) with c by (symmetry; fields_solve). apply wp_wr; [done|]. apply wp_wr; [done|].
  apply wp_replaceChild; [fields_solve..|]. exact HQ.
Qed.

(** The removed node keeps its pointers for now. *)
Lemma replaced_old X s c c' l p q r k : zipper X s (T c l p r) k → q ∉ nodes (plug (T c l p r) k) →
  Parent (replaced c c' l p q r k s) (LNode p) = parent k ∧ Subtree Left (replaced c c' l p q r k s) (LNode p) = root l ∧
  Subtree Right (replaced c c' l p q r k s) (LNode p) = root r ∧ Color (replaced c c' l p q r k s) (LNode p) = c'.
Proof.
  intros Hz Hq. pose proof (zip_node _ _ Left _ _ _ _ _ Hz) as (HP & HL & HR & HC). simpl in HR.
  pose proof (nodup_plug _ _ (z_nodup _ _ _ _ Hz)) as (Hn & Hk & Hd).
  apply (nodup_node Left c l p r) in Hn as (_ & _ & Hpl & Hpr & _). rewrite elem_plug in Hq.
  assert (q ≠ p) by (intros ->; apply Hq; left; simpl; set_solver).
  assert (parent k ≠ LNode p) by (intros Heq%parent_elem; apply (Hd p); [simpl; set_solver|done]).
  assert (root l ≠ LNode p ∧ root r ≠ LNode p) as [? ?] by (split; intros Heq%root_elem; done).
  unfold replaced. fields_solve.
Qed.

Lemma sister_sums_rename value s kr d c p q u k :
  sister_sums value s (kr ++ F d c p u :: k) ↔ sister_sums value s (kr ++ F d c q u :: k).
Proof. unfold sister_sums. by rewrite !Forall_app, !Forall_cons. Qed.

Lemma wp_unlinkInner value value' fuel s c l p r k n (Q : link → RedBlackTree → Prop) :
  zipv [] value s (T c l p r) k → l ≠ E → r ≠ E → ringed s (nodes (plug (T c l p r) k)) → (length (nodes (plug (T c l p r) k)) <= treeFuel s)%nat →
  rb (plug (T c l p r) k) n → color (plug (T c l p r) k) = Black →
  (∀ q, q ∈ nodes (plug (T c l p r) k) → q ≠ p → value q = value' q) → (length (nodes (plug (T c l p r) k)) <= fuel)%nat →
  (∀ s' y K c', removed value' p s s' y K c' → nodes (plug y K) = lefts k ++ nodes l ++ nodes r ++ rights k →
     Q (root y) s') →
  wp (unlinkInner fuel value' (LNode p)) Q s.
Proof.
  intros [Hz HS S0 HB] Hl Hr Hring Hfuel Hn Hcol Hv Hf HQ.
  destruct (leftmost r Hr) as (kr & c' & q & y & -> & Hkr).
  assert (nodes (plug (T c' E q y) kr) = q :: nodes y ++ rights kr) as Hnr by (by rewrite nodes_plug, Hkr).
  set (K0 := kr ++ F Right c p l :: k). set (K := kr ++ F Right c q l :: k).
  assert (plug (T c l p (plug (T c' E q y) kr)) k = plug (T c' E q y) K0) as Hplug by (unfold K0; by rewrite plug_app).
  rewrite Hplug in *. assert (zipper [] s (T c' E q y) K0) as Hz0.
  { apply zip_app. by apply (zip_up _ _ _ Right). }
  pose proof (z_nodup _ _ _ _ Hz0) as Hnd0. pose proof (nodup_plug _ _ Hnd0) as (Hndq & HndK & HdK).
  assert (nodes (plug (T c' E q y) K0) = (lefts k ++ nodes l) ++ p :: q :: nodes y ++ rights kr ++ rights k) as Hlist.
  { rewrite <- Hplug, nodes_plug. simpl. rewrite Hnr. by repeat (rewrite <- app_assoc; simpl). }
  assert (q ≠ p ∧ q ∉ nodes y ∧ p ∉ nodes y) as (Hqp & Hqy & Hpy).
  { rewrite Hlist in Hnd0. apply nodup_middle in Hnd0 as (_ & (Hq & _)%NoDup_cons & _ & Hp & _). set_solver. }
  unfold unlinkInner. apply wp_bind. eapply wp_getNext; [exact Hz|by rewrite Hplug|by rewrite Hplug|].
  rewrite Hnr. change (unlessHead _) with (LNode q).
  pose proof (zip_node _ _ Left _ _ _ _ _ Hz0) as (HPq & HLq & HRq & HCq). simpl in HRq, HLq.
  assert (∃ g, parent K0 = LNode g) as [g Hg] by (unfold K0; destruct kr; simpl; eauto).
  apply wp_rd; [done|]. rewrite HPq. apply wp_rd; [done|]. rewrite HCq.
  apply wp_check_bind; [done|]. apply wp_rd; [done|]. rewrite HPq, Hg. apply wp_check_bind; [done|].
  apply wp_rd; [done|]. rewrite HLq. apply wp_check_bind; [done|]. apply wp_rd; [done|]. rewrite HRq, <- Hg.
  eapply (wp_splice _ _ Left); [done|]. pose proof (zip_spliced _ _ Left _ _ _ _ Hz0) as Hz1.
  set (s1 := spliced y K0 s) in *. pose proof Hz1 as Hz1'. apply zip_app, zip_up in Hz1'. simpl in Hz1'.
  assert (q ∉ nodes (plug (T c l p (plug y kr)) k)) as Hq1.
  { replace (plug (T c l p (plug y kr)) k) with (plug y K0) by (unfold K0; by rewrite plug_app).
    rewrite elem_plug. intros [?|Hin]; [done|]. apply (HdK q); [simpl; set_solver|done]. }
  apply wp_bind. eapply wp_replaceNode; [done..|].
  pose proof (zip_replaced _ _ _ c' _ _ _ _ _ Hz1' Hq1) as Hz2. set (s2 := replaced c c' l p q (plug y kr) k s1) in *.
  pose proof (replaced_old _ _ _ c' _ _ _ _ _ Hz1' Hq1) as (HPp & HLp & HRp & HCp). fold s2 in HPp, HLp, HRp, HCp.
  assert (nodes (plug y K) = (lefts k ++ nodes l) ++ q :: nodes y ++ rights kr ++ rights k) as HlistK.
  { unfold K. rewrite nodes_plug, lefts_app, rights_app, Hkr. simpl. by rewrite app_nil_r, <- !app_assoc. }
  assert (p ∉ nodes (plug y K)) as HpK.
  { rewrite HlistK. rewrite Hlist in Hnd0. apply nodup_middle in Hnd0 as (_ & _ & Hp1 & Hp2 & _). set_solver. }
  apply sums_plug in HS as [(_ & _ & Sy) Sk%sister_sums_ctx].
  eapply (wp_resum value' c l p q y kr k); try done.
  { by intros ->. }
  { eapply (sums_value value); [|by apply (sums_ext _ s)]. intros g' Hg'. apply Hv; [|by intros ->].
    rewrite elem_plug. left. simpl. set_solver. }
  { apply (sister_sums_rename _ _ _ _ _ p). eapply (sister_sums_value value); [|done|by apply (sister_sums_ext _ s)].
    intros g' Hg' Hne. apply Hv; [rewrite elem_plug; auto|]. intros ->. apply Hne. unfold K0. rewrite fmap_app. set_solver. }
  { pose proof (length_plug (T c' E q y) K0) as Hlen.
    assert (length K = length K0) as HK by (unfold K, K0; by rewrite !length_app). fold K. lia. }
  intros s4 Hsame Hl4 S04 Hsums4. apply (HQ s4 y K c').
  - split; try done.
    + apply zip_app. apply (zip_up _ _ _ Right). by apply (zip_same _ s2).
    + rewrite (proj1 (proj2 (Hsame LTree))). unfold s2, s1, replaced, spliced. fields_solve.
    + rewrite (proj1 (proj2 (Hsame (LNode p)))). done.
    + intros ->. rewrite (proj1 (Hsame LTree)). destruct l as [|cl ll pl lr]; [done|].
      destruct kr as [|f kr']; [unfold s2, replaced; simpl; fields_solve|].
      change (parent K) with (parent K0). rewrite <- (parent_spliced E K0 s). fold s1.
      assert (root (plug E (f :: kr')) ≠ LTree).
      { pose proof (length_plug E (f :: kr')) as Hlen. destruct (plug E (f :: kr')); simpl in *; [lia|done]. }
      unfold s2, replaced. simpl root in *. fields_solve.
    + destruct (unplug_spliced Left c' q y K0 n) as (m & ? & Hk & Hred); [done..|]. exists m. split; [done|]. split.
      * by eapply ctx_rename.
      * intros ->. destruct (Hred eq_refl). split; [done|]. by eapply topblack_rename.
  - rewrite HlistK, Hnr. by repeat (rewrite <- app_assoc; simpl).
Qed.

(** ** Restoring the balance *)

Fixpoint redroot (k : list frame) : list frame :=
  match k with
  | [] => []
  | [F d _ p u] => [F d Red p u]
  | f :: k' => f :: redroot k'
  end.

Lemma plug_redroot t k : k ≠ [] → plug t (redroot k) = paint Red (plug t k).
Proof.
  revert t. induction k as [|[d c p u] k IH]; intros t Hk; [done|].
  destruct k as [|f k]; [by destruct d|]. change (redroot _) with (F d c p u :: redroot (f :: k)). simpl plug at 1.
  by rewrite IH.
Qed.

Lemma redroot_parent k : parent (redroot k) = parent k ∧ length (redroot k) = length k.
Proof.
  induction k as [|[d c p u] [|f k] IH]; [done|done|]. change (redroot _) with (F d c p u :: redroot (f :: k)).
  split; [done|]. change (length (?x :: ?y)) with (S (length y)). by rewrite (proj2 IH).
Qed.

Lemma topd_black d p u k : topd (F d Black p u :: k).
Proof. by destruct k. Qed.

Lemma ctx_redroot k n : k ≠ [] → ctx k n → dctx (redroot k) n.
Proof.
  revert n. induction k as [|[d c p u] k IH]; intros n Hk Hc; [done|]. destruct k as [|f k].
  - destruct c; simpl in *; tauto.
  - change (redroot _) with (F d c p u :: redroot (f :: k)). specialize (IH (over c n) ltac:(done)).
    destruct (redroot (f :: k)) as [|f' k'] eqn:Hrr.
    { apply (f_equal length) in Hrr. rewrite (proj2 (redroot_parent _)) in Hrr. done. }
    destruct c.
    + destruct Hc as (? & ? & Ht & ?). simpl over in IH. split; [done|]. split_and!; try done; [|by apply IH].
      destruct f as [e c' g v]. destruct c'; [done|]. destruct k as [|f'' k]; [simpl in Hrr; by simplify_eq|].
      change (redroot _) with (F e Black g v :: redroot (f'' :: k)) in Hrr. injection Hrr as <- <-. apply topd_black.
    + destruct Hc as (? & ?). split; [done|]. by apply IH.
Qed.

Lemma wp_rebalance value fuel s y K n : zipv [] value s y K → rb y n → ctx K (S n) →
  (y = E → Parent s LTree = parent K) → (length K <= fuel)%nat →
  wp (colorRoot Red;;
      child ← removeFixup fuel value (root y);
      wr set_Color child Black;;
      colorRoot Black)
    (λ _ s', ∃ t m, zipv [] value s' t [] ∧ nodes t = nodes (plug y K) ∧ rb t m ∧ color t = Black ∧ same_list s s') s.
Proof.
  intros Hz Hn HK HE Hf. pose proof (proj2 (zipv_plug _ _ _ _ _) Hz) as Ht.
  unfold colorRoot at 1. apply wp_bind. apply wp_rd; [done|].
  pose proof (zip_hole _ _ _ _ (zv_zip _ _ _ _ _ Ht)) as Hh. simpl in Hh. rewrite Hh.
  apply wp_wr_last; [apply root_not_null|].
  destruct (decide (plug y K = E)) as [Hemp|Hne].
  - (** the tree has become empty: [NullNode] is painted red and black again *)
    assert (y = E ∧ K = []) as [-> ->].
    { pose proof (length_plug y K) as Hlen. rewrite Hemp in Hlen. destruct K; simpl in *; [done|lia]. }
    simpl. set (s1 := set_Color LTree Red s).
    assert (Color s1 LTree = Red) as HR by (unfold s1; fields_solve).
    apply wp_bind. eapply (wp_mono _ (λ r s', r = LTree ∧ s' = s1)).
    { destruct fuel; simpl; (apply wp_rd; [done|]); rewrite HR; by apply wp_ret. }
    intros r s' [-> ->]. apply wp_wr; [done|]. unfold colorRoot. apply wp_rd; [done|].
    change (Subtree Left _ LTree) with (Subtree Left s LTree). rewrite Hh. apply wp_wr_last; [done|].
    exists E, 1%nat. split_and!; try done; [|constructor]. destruct Hz as [Hz HS S0 HB].
    split; [|done|done|unfold s1; fields_solve]. apply (zip_same _ s); [|done]. intros x. unfold s1. fields_solve.
  - assert (∃ y' K', zipv [] value (set_Color (root (plug y K)) Red s) y' K' ∧ deficient y' K' ∧ root y' = root y ∧
      nodes (plug y' K') = nodes (plug y K) ∧ (y' = E → y = E ∧ parent K' = parent K) ∧ (length K' <= fuel)%nat)
      as (y' & K' & Hz' & Hdef & Hroot & Hnodes & HE' & Hlen).
    { apply (zipv_paint _ _ _ _ _ Red) in Ht; [|done]. destruct K as [|f K].
      - simpl in *. exists (paint Red y), []. split_and!; try done; [|by destruct y|apply nodes_paint|by destruct y].
        right. split; [by destruct y|].
        assert (∃ m, rb (paint Black y) m) as [m Hm].
        { destruct (color y) eqn:Hc; [exists (S n); by apply rb_blacken|exists n; by apply rb_paint_black]. }
        exists m. split; [by destruct y|]. intros t' Ht' Hc'. exists m. by apply rb_paint_black.
      - rewrite <- plug_redroot, zipv_plug in Ht by done. exists y, (redroot (f :: K)).
        destruct (redroot_parent (f :: K)) as [HP HL]. rewrite HP, HL.
        split_and!; try done; [|by rewrite plug_redroot, nodes_paint by done].
        assert (dctx (redroot (f :: K)) (S n)) as Hd by (by apply ctx_redroot). destruct (color y) eqn:Hc.
        + right. split; [done|]. exists (S n). split; [by apply rb_blacken|by apply dctx_accepts].
        + left. split; [done|]. eauto. }
    rewrite <- Hroot. set (s1 := set_Color (root (plug y K)) Red s) in *.
    assert (wp (child ← removeFixup fuel value (root y'); wr set_Color child Black)
      (λ _ s', balanced [] value s1 (plug y' K') s') s1) as Hwp.
    { apply wp_removeFixup; [done..|]. intros HyE. destruct (HE' HyE) as [Hy HPK]. rewrite HPK.
      change (Parent s1 LTree) with (Parent s LTree). by apply HE. }
    apply wp_bind. apply wp_bind_inv in Hwp. eapply wp_mono; [exact Hwp|]. intros child s2 Hwp2.
    apply wp_bind. eapply wp_mono; [exact Hwp2|]. intros u s3 Hb; cbn beta in Hb.
    eapply wp_colorRoot_black; [exact Hb| |].
    { rewrite Hnodes. destruct (plug y K) as [|? a ? ?]; [done|]. simpl. by destruct (nodes a). }
    intros s4 t' m Hz4 Hn4 Hm4 Hc4 Hl4. exists t', m. rewrite Hn4. split_and!; try done.
Qed.

(** ** The whole operation *)

Lemma find_node t p : p ∈ nodes t → ∃ c l r k, t = plug (T c l p r) k.
Proof.
  induction t as [|c l IHl q r IHr]; simpl; [by intros ?%not_elem_of_nil|].
  rewrite elem_of_app, elem_of_cons. intros [Hl|[->|Hr]].
  - destruct (IHl Hl) as (c' & l' & r' & k & ->). exists c', l', r', (k ++ [F Left c q r]). by rewrite plug_app.
  - by exists c, l, r, [].
  - destruct (IHr Hr) as (c' & l' & r' & k & ->). exists c', l', r', (k ++ [F Right c q l]). by rewrite plug_app.
Qed.

(** The pointers of the removed node are cleared. *)
Definition cleared (p : ptr) (s : RedBlackTree) : RedBlackTree :=
  set_Subtree Left (LNode p) LNull (set_Subtree Right (LNode p) LNull (set_Parent (LNode p) LNull s)).

Lemma zip_cleared s p y K : zipper [p] s y K → p ∉ nodes (plug y K) → zipper [] (cleared p s) y K.
Proof.
  intros [Hr Hc Hn Hb Hu] Hp. rewrite elem_plug in Hp.
  assert (∀ g, g ≠ p → same_node s (cleared p s) (LNode g)) as Hsame by (intros; unfold cleared; fields_solve).
  split.
  - eapply rep_ext; [|done]. intros g Hg. apply Hsame. intros ->. tauto.
  - apply (rep_ctx_ext s); [|unfold cleared; fields_solve|done]. intros g Hg. apply Hsame. intros ->. tauto.
  - done.
  - unfold cleared. fields_solve.
  - intros g Hg _. destruct (decide (g = p)) as [->|Hne]; [unfold cleared; fields_solve|].
    rewrite <- (Hu g Hg); [apply Hsame|]; set_solver.
Qed.

Lemma ring_outside s l p : ring s l → p ∉ l → ring (set_Next (LNode p) LNull (set_Prev (LNode p) LNull s)) l.
Proof.
  intros Hr Hp l1 l2 ->. destruct (Hr l1 l2 eq_refl) as [HN HP]. rewrite elem_of_app in Hp.
  pose proof (lastl_node l1 p ltac:(tauto)). pose proof (headl_node l2 p ltac:(tauto)). fields_solve.
Qed.

Lemma wp_unlinkList s l1 p l2 (Q : unit → RedBlackTree → Prop) : ringed s (l1 ++ p :: l2) → NoDup (l1 ++ p :: l2) →
  (∀ s', only_list s s' → ringed s' (l1 ++ l2) → Q tt s') →
  wp (if USE_LEAFLINKED then
        doubleLinkedRingListRemNode (LNode p);; wr set_Prev (LNode p) LNull;; wr set_Next (LNode p) LNull
      else mret tt) Q s.
Proof.
  unfold ringed. intros Hr Hnd HQ. destruct USE_LEAFLINKED; [|by apply wp_ret, HQ].
  apply wp_bind. eapply wp_remNode; [by apply Hr|done|]. apply wp_wr; [done|]. apply wp_wr_last; [done|].
  apply HQ; [done|]. intros _. apply ring_outside; [by apply ring_unlinked, Hnd; apply Hr|].
  apply nodup_middle in Hnd as (_ & _ & ? & ? & _). set_solver.
Qed.

Lemma wp_remove value value' s t p : tree_ok value s t → p ∈ nodes t →
  (∀ q, q ∈ nodes t → q ≠ p → value q = value' q) →
  wp (RedBlackTreeRemove value' (LNode p))
    (λ r s', r = LNode p ∧ ∃ t', tree_ok value' s' t' ∧ nodes t' = l_remove p (nodes t)) s.
Proof.
  intros Hok Hp Hv. pose proof (tree_fuel _ _ _ Hok) as Hf. destruct Hok as [Hz Hr He [n Hn] Hc].
  destruct (find_node t p Hp) as (c & l & r & k & ->). rewrite zipv_plug in Hz.
  pose proof (z_nodup _ _ _ _ (zv_zip _ _ _ _ _ Hz)) as Hnd. 
  assert (nodes (plug (T c l p r) k) = (lefts k ++ nodes l) ++ p :: nodes r ++ rights k) as Hlist.
  { rewrite nodes_plug. simpl. by repeat (rewrite <- app_assoc; simpl). }
  rewrite Hlist in Hnd, Hr. pose proof Hnd as (_ & _ & Hp1 & Hp2 & _)%nodup_middle.
  assert (l_remove p (nodes (plug (T c l p r) k)) = (lefts k ++ nodes l) ++ nodes r ++ rights k) as Hrem.
  { rewrite Hlist. by apply l_remove_middle. }
  pose proof (zip_node _ _ Left _ _ _ _ _ (zv_zip _ _ _ _ _ Hz)) as (HP & HL & HR & HC). simpl in HR.
  unfold RedBlackTreeRemove. apply wp_bind, wp_gets. apply wp_rd; [done|].
  apply wp_check_bind. { unfold RedBlackTreeNodeIsLinked. apply bool_decide_true. rewrite HL. apply root_not_null. }
  apply wp_rd; [done|]. rewrite HL. apply wp_rd; [done|]. rewrite HR. apply wp_bind.
  assert (wp (if decide (root l ≠ LTree ∧ root r ≠ LTree) then unlinkInner (treeFuel s) value' (LNode p)
              else unlinkOuter (treeFuel s) value' (LNode p))
    (λ x s', ∃ y K c', x = root y ∧ removed value' p s s' y K c' ∧ nodes (plug y K) = (lefts k ++ nodes l) ++ nodes r ++ rights k) s) as Hun.
  { pose proof (length_plug (T c l p r) k). case_decide as Hlr.
    - eapply wp_unlinkInner; try done; try lia; [by intros ->; tauto..|by rewrite Hlist|].
      intros s' y K c' Hrm Hny. exists y, K, c'. split_and!; [done|done|]. by rewrite Hny, <- !app_assoc.
    - eapply wp_unlinkOuter; try done; try lia; [destruct l, r; simpl in Hlr; tauto || naive_solver|].
      intros s' y Hrm Hny. exists y, k, c. split_and!; [done|done|]. by rewrite nodes_plug, Hny, <- !app_assoc. }
  eapply wp_mono; [exact Hun|]. clear Hun. intros x s1 (y & K & c' & -> & Hrm & HyK).
  destruct Hrm as [Hz1 HS1 S01 HB1 Hl1 HC1 HE1 (m & Hm & HK & Hred)].
  assert (p ∉ nodes (plug y K)) as HpK by (rewrite HyK; set_solver).
  apply zip_cleared in Hz1; [|done]. do 3 (apply wp_wr; [done|]). fold (cleared p s1).
  assert (ringed (cleared p s1) ((lefts k ++ nodes l) ++ p :: nodes r ++ rights k)) as Hr1.
  { intros Hu. apply (ring_same s); [exact Hl1|by apply Hr]. }
  apply wp_bind. eapply wp_unlinkList; [exact Hr1|done|]. intros s2 Hs2 Hr2. rewrite <- HyK in Hr2.
  pose proof Hs2 as [Hv2 He2].
  apply wp_bind, wp_get. assert (rbt_Elements s2 = Z.of_nat (length (nodes (plug y K))) + 1) as He2'.
  { destruct Hl1 as (_ & _ & Hel). rewrite He2. change (rbt_Elements (cleared p s1)) with (rbt_Elements s1).
    rewrite Hel, He, Hlist, HyK, !length_app. simpl. rewrite !length_app. lia. }
  apply wp_check_bind; [apply Z.ltb_lt; lia|]. apply wp_bind, wp_modify. set (s3 := set_Elements _ s2).
  assert (∀ x, same_node (cleared p s1) s3 x ∧ ValueSum s3 x = ValueSum s1 x) as Hv3 by exact Hv2.
  apply wp_rd; [done|]. rewrite (proj1 (proj2 (proj1 (Hv3 (LNode p))))).
  change (Color (cleared p s1) (LNode p)) with (Color s1 (LNode p)). rewrite HC1.
  assert (zipv [] value' s3 y K) as Hz3.
  { split.
    - apply (zip_same _ (cleared p s1)); [intros x; apply Hv3|done].
    - apply (sums_ext _ s1); [intros q _; apply Hv3|done].
    - by rewrite (proj2 (Hv3 LTree)).
    - by rewrite (proj1 (proj2 (proj1 (Hv3 LTree)))). }
  assert (rbt_Elements s3 = Z.of_nat (length (nodes (plug y K)))) as He3 by (change (rbt_Elements s3) with (rbt_Elements s2 - 1); lia).
  assert (ringed s3 (nodes (plug y K))) as Hr3 by exact Hr2. rewrite Hrem, <- HyK. apply wp_bind.
  destruct (decide (c' = Black)) as [->|Hc'].
  - eapply wp_mono; [apply (wp_rebalance value' (treeFuel s) s3 y K m); try done|].
    { intros HyE. rewrite (proj1 (proj1 (Hv3 LTree))), <- (HE1 HyE). unfold cleared. fields_solve. }
    { pose proof (length_plug y K). rewrite HyK in *. rewrite Hlist in Hf. rewrite !length_app in *. simpl in *. rewrite !length_app in *. lia. }
    intros _ s4 (t' & m' & Hz4 & Hn4 & Hm4 & Hc4 & Hl4). apply wp_ret. split; [done|]. exists t'. split; [|done].
    split; [done| | |by exists m'|done]; rewrite Hn4; [|by destruct Hl4 as (_ & _ & ->)].
    intros Hu. apply (ring_same s3); [done|by apply Hr3].
  - apply wp_ret, wp_ret. split; [done|]. exists (plug y K). split; [|done]. destruct c'; [|done].
    destruct (Hred eq_refl) as [Hcy Htop]. destruct (plug_rb y K m) as (m' & ? & ?); [done..|by left|].
    split; [by apply zipv_plug|done|done|by exists m'|done].
Qed.
End variant.
