(* ===== verification/RedBlackTreeStorage.v ===== *)
(** * The red-black tree as a storage

    The operations of the tree behind the interface [Storage], and the
    proof that they obey [StorageLaws]: everything shown for the handlespace
    with an arbitrary storage holds with this tree. *)

From S2P Require Import Prelude Storage RedBlackTree RedBlackTreeShape RedBlackTreeBalance RedBlackTreeWalks RedBlackTreeInsert RedBlackTreeRemove.
From stdpp Require Import base list gmap numbers option sets.
#[local] Open Scope Z_scope.

Section variant.
Context `{LL : LeafLinked}.

(** The result of an operation that returns a node pointer or NULL. *)
Definition result (m : M RedBlackTree link) (s : RedBlackTree) : option ptr :=
  match m s with Some (x, _) => link_ptr x | None => None end.

(** An operation that returns a node and changes the tree. *)
Definition update (m : M RedBlackTree link) (s : RedBlackTree) : option (ptr * RedBlackTree) :=
  match m s with Some (LNode p, s') => Some (p, s') | _ => None end.

(** The nodes in the order of a walk with [GetFirst] and [GetNext]. *)
Fixpoint listFrom (fuel : nat) (s : RedBlackTree) (x : option ptr) : list ptr :=
  match fuel, x with
  | S fuel', Some p => p :: listFrom fuel' s (result (RedBlackTreeGetNext (LNode p)) s)
  | _, _ => []
  end.

#[export] Instance rbt_storage : Storage RedBlackTree := {
  ST_New := RedBlackTreeNew;
  st_list := λ s, listFrom (Z.to_nat (rbt_Elements s)) s (result RedBlackTreeGetFirst s);
  ST_IsEmpty := RedBlackTreeIsEmpty;
  ST_GetFirst := result RedBlackTreeGetFirst;
  ST_GetLast := result RedBlackTreeGetLast;
  ST_GetPrev := λ s p, result (RedBlackTreeGetPrev (LNode p)) s;
  ST_GetNext := λ s p, result (RedBlackTreeGetNext (LNode p)) s;
  ST_GetNearestPrev := λ cmp, result (RedBlackTreeGetNearestPrev cmp);
  ST_GetNearestNext := λ cmp, result (RedBlackTreeGetNearestNext cmp);
  ST_GetElements := RedBlackTreeGetElements;
  ST_Insert := λ cmp value node, update (RedBlackTreeInsert cmp value (LNode node));
  ST_Remove := λ value node, update (RedBlackTreeRemove value (LNode node));
  ST_Find := λ cmp, result (RedBlackTreeFind cmp);
  ST_GetValueSum := λ s, match RedBlackTreeGetValueSum s with Some (v, _) => v | None => 0 end;
  ST_GetNodeByValue := λ value v, result (RedBlackTreeGetNodeByValue value v);
  STN_IsLinked := λ s p, RedBlackTreeNodeIsLinked s (LNode p);
  ST_Verify := λ cmp value s, match RedBlackTreeVerify cmp value s with Some _ => true | None => false end
}.

Lemma result_wp (m : M RedBlackTree link) s r : wp m (λ x _, link_ptr x = r) s → result m s = r.
Proof. intros (x & s' & Hm & Hr). unfold result. by rewrite Hm. Qed.

Lemma result_first value s t : tree_ok value s t → result RedBlackTreeGetFirst s = head (nodes t).
Proof.
  intros Hok. apply result_wp. pose proof (tree_fuel _ _ _ Hok). unfold RedBlackTreeGetFirst.
  pose proof (ok_ring _ _ _ Hok) as Hr. unfold ringed in Hr. destruct USE_LEAFLINKED.
  - apply wp_rd; [done|]. destruct (Hr eq_refl [] (nodes t) eq_refl) as [HN _]. change (lastl []) with LTree in HN.
    apply wp_ret. by rewrite link_ptr_unlessHead, HN, link_ptr_headl.
  - eapply wp_outermost; [apply (zv_zip _ _ _ _ _ (ok_zip _ _ _ Hok))|lia|]. by rewrite link_ptr_unlessHead, <- link_ptr_headl.
Qed.

Lemma result_last value s t : tree_ok value s t → result RedBlackTreeGetLast s = last (nodes t).
Proof.
  intros Hok. apply result_wp. pose proof (tree_fuel _ _ _ Hok). unfold RedBlackTreeGetLast.
  pose proof (ok_ring _ _ _ Hok) as Hr. unfold ringed in Hr. destruct USE_LEAFLINKED.
  - apply wp_rd; [done|]. destruct (Hr eq_refl (nodes t) []) as [_ HP]; [by rewrite app_nil_r|].
    change (headl []) with LTree in HP. apply wp_ret. by rewrite link_ptr_unlessHead, HP, link_ptr_lastl.
  - eapply wp_outermost; [apply (zv_zip _ _ _ _ _ (ok_zip _ _ _ Hok))|lia|]. by rewrite link_ptr_unlessHead, <- link_ptr_lastl.
Qed.

Lemma result_neighbours value s t p : tree_ok value s t → p ∈ nodes t →
  result (RedBlackTreeGetNext (LNode p)) s = l_next p (nodes t) ∧ result (RedBlackTreeGetPrev (LNode p)) s = l_prev p (nodes t).
Proof.
  intros Hok Hp. pose proof (tree_fuel _ _ _ Hok). pose proof (ok_ring _ _ _ Hok) as Hr.
  pose proof (zv_zip _ _ _ _ _ (ok_zip _ _ _ Hok)) as Hz. pose proof (z_nodup _ _ _ _ Hz) as Hnd. simpl in Hnd.
  destruct (find_node t p Hp) as (c & l & r & k & ->). rewrite zip_plug in Hz.
  split; apply result_wp; [eapply wp_getNext|eapply wp_getPrev]; try done; try lia;
    rewrite link_ptr_unlessHead, ?link_ptr_headl, ?link_ptr_lastl; rewrite nodes_focus in *;
    apply nodup_middle in Hnd as (_ & _ & H1 & H2 & _).
  - by rewrite l_next_app.
  - unfold l_prev. rewrite reverse_app, reverse_cons, <- app_assoc. simpl.
    rewrite l_next_app by (by rewrite elem_of_reverse). by rewrite head_reverse.
Qed.

Lemma listFrom_nodes value s t l1 l2 : tree_ok value s t → nodes t = l1 ++ l2 → listFrom (length l2) s (head l2) = l2.
Proof.
  intros Hok. pose proof (z_nodup _ _ _ _ (zv_zip _ _ _ _ _ (ok_zip _ _ _ Hok))) as Hnd. simpl in Hnd.
  revert l1. induction l2 as [|p l2 IH]; intros l1 Hl; [done|]. simpl.
  destruct (result_neighbours _ _ _ p Hok) as [-> _]; [rewrite Hl; set_solver|].
  rewrite Hl in Hnd |- *. apply nodup_middle in Hnd as (_ & _ & H1 & _). rewrite l_next_app by done.
  f_equal. apply (IH (l1 ++ [p])). by rewrite Hl, <- app_assoc.
Qed.

Lemma tree_list value s t : tree_ok value s t → st_list s = nodes t.
Proof.
  intros Hok. simpl. rewrite (ok_elements _ _ _ Hok), Nat2Z.id, (result_first _ _ _ Hok).
  by apply (listFrom_nodes value s t []).
Qed.

Lemma tree_hole value s t : tree_ok value s t → Subtree Left s LTree = root t.
Proof. intros Hok. apply (zip_hole _ _ _ _ (zv_zip _ _ _ _ _ (ok_zip _ _ _ Hok))). Qed.

Lemma tree_linked value s t p : tree_ok value s t → RedBlackTreeNodeIsLinked s (LNode p) = bool_decide (p ∈ nodes t).
Proof.
  intros Hok. pose proof (zv_zip _ _ _ _ _ (ok_zip _ _ _ Hok)) as Hz. unfold RedBlackTreeNodeIsLinked. apply bool_decide_ext.
  split; intros Hp.
  - destruct (decide (p ∈ nodes t)) as [|Hn]; [done|]. exfalso. apply Hp.
    apply (z_unlinked _ _ _ _ Hz); [done|set_solver].
  - destruct (find_node t p Hp) as (c & l & r & k & ->). rewrite zip_plug in Hz.
    pose proof (zip_node _ _ Left _ _ _ _ _ Hz) as (_ & HL & _). rewrite HL. apply root_not_null.
Qed.

Lemma tree_ok_value value value' s t : tree_ok value s t → (∀ p, p ∈ nodes t → value p = value' p) → tree_ok value' s t.
Proof.
  intros [[Hz HS H0 HB] Hr He Hn Hc] Hv. split; try done. split; try done. by eapply sums_value.
Qed.

Lemma tree_ok_new value : tree_ok value RedBlackTreeNew E.
Proof.
  split; [|intros _ l1 l2 Hl; symmetry in Hl; by apply app_nil in Hl as [-> ->]|done|exists 1%nat; constructor|done].
  split; [|done..]. split; try done; [constructor|]. intros p _ _.
  unfold Subtree, field. simpl. by rewrite lookup_insert_ne, lookup_singleton_ne by done.
Qed.

Lemma filter_nearest cmp l1 l2 : Forall (λ p, 0 < cmp p) l1 → Forall (λ p, cmp p <= 0) l2 → Forall (λ p, cmp p < 0) (tail l2) →
  l_nearest_next cmp (l1 ++ l2) = head (if decide (Exists (λ p, cmp p = 0) l2) then tail l2 else l2).
Proof.
  intros H1 H2 H3. unfold l_nearest_next. rewrite filter_app.
  rewrite (filter_none _ l1) by (eapply Forall_impl; [done|]; simpl; lia).
  simpl. destruct l2 as [|q l2]; [by case_decide|]. simpl in H3. apply Forall_cons in H2 as [Hq _]. case_decide as Hex.
  - assert (cmp q = 0) as Hq0.
    { apply Exists_cons in Hex as [|Hex]; [done|]. apply Exists_exists in Hex as (x & Hx & Hx0).
      rewrite Forall_forall in H3. specialize (H3 x Hx). simpl in H3. lia. }
    by rewrite filter_cons_False, filter_all by lia || done.
  - assert (cmp q < 0).
    { assert (cmp q ≠ 0); [|lia]. intros Hq0. apply Hex. by left. }
    by rewrite filter_cons_True, filter_all by done.
Qed.

(** ** The verification of the tree *)

Lemma ordered_child cmp l1 x l2 l3 q : ordered cmp (l1 ++ (x ++ q :: l2) ++ l3) →
  (∀ p, p ∈ x → 0 < cmp q p) ∧ (∀ p, p ∈ l2 → cmp q p < 0).
Proof.
  intros Hord. split; intros p Hp; apply list_elem_of_split in Hp as (a & b & ->).
  - apply (Hord (l1 ++ a) p b q (l2 ++ l3)). by repeat (rewrite <- app_assoc; simpl).
  - apply (Hord (l1 ++ x) q a p (b ++ l3)). by repeat (rewrite <- app_assoc; simpl).
Qed.

(** The last node of the ring list that was visited; the simple tree has no list. *)
Definition visited (l : list ptr) : link := if USE_LEAFLINKED then lastl l else LTree.

Lemma wp_verifyList s c l p r k : zipper [] s (T c l p r) k → ringed s (nodes (plug (T c l p r) k)) →
  (length (nodes (plug (T c l p r) k)) <= treeFuel s)%nat →
  wp (if USE_LEAFLINKED then verifyList (LNode p) (visited (lefts k ++ nodes l)) else mret (visited (lefts k ++ nodes l)))
    (λ x s', s' = s ∧ x = visited ((lefts k ++ nodes l) ++ [p])) s.
Proof.
  intros Hz Hr Hf. unfold visited, ringed in *. rewrite nodes_focus in Hr. destruct USE_LEAFLINKED; [|by apply wp_ret].
  specialize (Hr eq_refl). pose proof (ring_next _ _ _ _ Hr) as HN'.
  destruct (Hr (lefts k ++ nodes l) (p :: nodes r ++ rights k) eq_refl) as [HN HPv].
  change (headl (p :: _)) with (LNode p) in HN, HPv. rewrite lastl_snoc. unfold verifyList.
  apply wp_rd; [apply lastl_not_null|]. rewrite HN.
  apply wp_check_bind; [done|]. apply wp_check_bind; [by apply bool_decide_true|].
  apply wp_bind. eapply (wp_internalFind _ Left _ c l p r); [done|done|]. apply wp_rd; [done|].
  apply wp_check_bind; [by apply bool_decide_true|].
  apply wp_bind. eapply (wp_internalFind _ Right _ c r p l); [done|done|]. apply wp_rd; [done|]. rewrite HN'.
  apply wp_check_bind; [by apply bool_decide_true|]. by apply wp_ret.
Qed.

Lemma wp_internalVerify cmp value fuel t k n s counter : zipv [] value s t k → ringed s (nodes (plug t k)) →
  rb t n → ordered cmp (nodes (plug t k)) → (length (nodes t) <= fuel)%nat →
  (length (nodes (plug t k)) <= treeFuel s)%nat →
  wp (RedBlackTreeInternalVerify fuel cmp value (parent k) (root t) (visited (lefts k)) counter)
    (λ r s', s' = s ∧ r = (Z.of_nat n, visited (lefts k ++ nodes t), counter + Z.of_nat (length (nodes t)))) s.
Proof.
  revert t k n counter. induction fuel as [|fuel IH]; intros t k n counter Hz Hr Hn Hord Hf Hft.
  all: destruct t as [|c l p r];
    [inversion Hn; subst; simpl; apply wp_ret; rewrite app_nil_r, Z.add_0_r; done|].
  all: simpl in Hf; rewrite length_app in Hf; simpl in Hf; try lia.
  destruct Hz as [Hz HS H0 HB]. pose proof (zip_node _ _ Left _ _ _ _ _ Hz) as (HP & HL & HR & HC). simpl in HR.
  assert (∃ m, rb l m ∧ rb r m ∧ n = over c m ∧ (c = Red → color l = Black ∧ color r = Black)) as (m & Hl & Hrr & -> & Hred).
  { inversion Hn; subst; eexists; split_and!; try done; auto. }
  pose proof Hord as Hord'. rewrite nodes_plug in Hord'. simpl in Hord'.
  pose proof (ordered_child _ _ _ _ _ _ Hord') as [Hol Hor]. clear Hord'.
  pose proof HS as HSS. apply sums_plug in HSS as [(HSp & Sl & Sr) _].
  simpl. apply wp_rd; [done|]. rewrite HP. apply wp_check_bind; [by apply bool_decide_true|].
  apply wp_rd; [done|]. rewrite HL. apply wp_bind.
  eapply (wp_mono _ (λ _ s', s' = s)).
  { destruct l as [|? ? q ?]; simpl; [by apply wp_ret|]. apply wp_bind, wp_ret. apply wp_check; [|done].
    apply Z.ltb_lt, Hol. simpl. set_solver. }
  intros _ ? ->. apply wp_rd; [done|]. rewrite HR. apply wp_bind. eapply (wp_mono _ (λ _ s', s' = s)).
  { destruct r as [|? ? q ?]; simpl; [by apply wp_ret|]. apply wp_bind, wp_ret. apply wp_check; [|done].
    apply Z.ltb_lt, Hor. simpl. set_solver. }
  intros _ ? ->. apply wp_rd; [done|]. apply wp_rd; [apply root_not_null|]. apply wp_rd; [apply root_not_null|].
  rewrite HSp, !(sums_root value s) by done. rewrite csum_node. apply wp_check_bind; [by apply Z.eqb_eq|].
  assert (zipv [] value s l (F Left c p r :: k)) as Hzl by (by apply (zipv_up _ _ _ _ Left)).
  assert (zipv [] value s r (F Right c p l :: k)) as Hzr by (by apply (zipv_up _ _ _ _ Right)).
  apply wp_bind. eapply wp_mono; [apply (IH l (F Left c p r :: k) m); try done; lia|].
  intros [[h x] cnt] s' [-> [= -> -> ->]]. simpl lefts. apply wp_bind.
  eapply wp_mono; [apply (wp_verifyList s c l p r k); try done; lia|]. intros x s' [-> ->].
  pose proof (IH r (F Right c p l :: k) m (counter + Z.of_nat (length (nodes l)) + 1)) as IHr.
  simpl lefts in IHr. rewrite app_assoc in IHr. apply wp_bind. eapply wp_mono; [apply IHr; try done; lia|].
  intros [[h x] cnt] s' [-> [= -> -> ->]]. pose proof (rb_pos _ _ Hl).
  apply wp_check_bind; [apply orb_true_iff; left; apply negb_true_iff, Z.eqb_neq; lia|].
  apply wp_check_bind; [by apply Z.eqb_eq|]. apply wp_rd; [done|]. rewrite HC.
  assert (visited (((lefts k ++ nodes l) ++ [p]) ++ nodes r) = visited (lefts k ++ nodes l ++ p :: nodes r)) as Hlast.
  { f_equal. by repeat (rewrite <- app_assoc; simpl). }
  assert (counter + Z.of_nat (length (nodes l)) + 1 + Z.of_nat (length (nodes r)) =
    counter + Z.of_nat (length (nodes l ++ p :: nodes r))) as Hcnt by (rewrite length_app; simpl; lia).
  case_decide as Hc.
  - destruct (Hred Hc) as [Hcl Hcr].
    apply wp_rd; [apply root_not_null|]. rewrite (zip_color _ _ _ _ (zv_zip _ _ _ _ _ Hzl)) by done.
    apply wp_check_bind; [by apply bool_decide_true|].
    apply wp_rd; [apply root_not_null|]. rewrite (zip_color _ _ _ _ (zv_zip _ _ _ _ _ Hzr)) by done.
    apply wp_check_bind; [by apply bool_decide_true|]. apply wp_ret. split; [done|]. by rewrite Hlast, Hcnt, Hc.
  - apply wp_ret. split; [done|]. rewrite Hlast, Hcnt. destruct c; [done|]. simpl over. f_equal. f_equal. lia.
Qed.

Lemma wp_verify cmp value s t : tree_ok value s t → ordered cmp (nodes t) →
  wp (RedBlackTreeVerify cmp value) (λ _ s', s' = s) s.
Proof.
  intros Hok Hord. pose proof (tree_fuel _ _ _ Hok) as Hf. pose proof (tree_hole _ _ _ Hok) as Hh.
  destruct Hok as [Hz Hr He [n Hn] Hc]. unfold RedBlackTreeVerify. apply wp_bind, wp_gets.
  apply wp_rd; [done|]. rewrite (zv_black _ _ _ _ _ Hz). apply wp_check_bind; [done|].
  apply wp_rd; [done|]. rewrite (zv_null _ _ _ _ _ Hz). apply wp_check_bind; [done|].
  apply wp_rd; [done|]. rewrite Hh. apply wp_bind.
  assert (visited (lefts []) = LTree) as Hvis by (unfold visited; by destruct USE_LEAFLINKED). rewrite <- Hvis at 2.
  eapply wp_mono; [apply (wp_internalVerify cmp value _ t [] n); try done; simpl; lia|].
  intros [[h x] cnt] s' [-> [= -> -> ->]]. pose proof (rb_pos _ _ Hn).
  apply wp_check_bind; [apply negb_true_iff, Z.eqb_neq; lia|]. apply wp_bind, wp_get.
  apply wp_check; [|done]. rewrite He. by apply Z.eqb_eq.
Qed.

(** ** The laws *)

Lemma update_wp (m : M RedBlackTree link) s p (Q : RedBlackTree → Prop) :
  wp m (λ r s', r = LNode p ∧ Q s') s → ∃ s', update m s = Some (p, s') ∧ Q s'.
Proof. intros (r & s' & Hm & -> & HQ). exists s'. unfold update. by rewrite Hm. Qed.

#[export] Program Instance rbt_storage_laws : StorageLaws RedBlackTree := { st_ok value s := ∃ t, tree_ok value s t }.
Next Obligation.
  intros value s [t Hok]. rewrite (tree_list _ _ _ Hok). apply (z_nodup _ _ _ _ (zv_zip _ _ _ _ _ (ok_zip _ _ _ Hok))).
Qed.
Next Obligation.
  intros value value' s [t Hok] Hv. rewrite (tree_list _ _ _ Hok) in Hv. exists t. by eapply tree_ok_value.
Qed.
Next Obligation. intros value. split; [exists E; apply tree_ok_new|]. apply (tree_list value RedBlackTreeNew E), tree_ok_new. Qed.
Next Obligation.
  intros value s [t Hok]. rewrite (tree_list _ _ _ Hok). simpl. unfold RedBlackTreeIsEmpty. apply bool_decide_ext.
  rewrite (tree_hole _ _ _ Hok). destruct t as [|c l p r]; [done|]. simpl. split; [done|]. by destruct (nodes l).
Qed.
Next Obligation. intros value s [t Hok]. rewrite (tree_list _ _ _ Hok). by eapply result_first. Qed.
Next Obligation. intros value s [t Hok]. rewrite (tree_list _ _ _ Hok). by eapply result_last. Qed.
Next Obligation. intros value s p [t Hok] Hp. rewrite (tree_list _ _ _ Hok) in *. by eapply result_neighbours. Qed.
Next Obligation. intros value s p [t Hok] Hp. rewrite (tree_list _ _ _ Hok) in *. by eapply result_neighbours. Qed.
Next Obligation. intros value s [t Hok]. rewrite (tree_list _ _ _ Hok). apply Hok. Qed.
Next Obligation. intros value s p [t Hok]. rewrite (tree_list _ _ _ Hok). by eapply tree_linked. Qed.
Next Obligation.
  intros value cmp s [t Hok] Hpr. rewrite (tree_list _ _ _ Hok) in *. simpl. apply result_wp.
  pose proof (tree_fuel _ _ _ Hok). apply wp_bind, wp_gets. apply wp_rd; [done|]. rewrite (tree_hole _ _ _ Hok).
  eapply (wp_findFrom _ _ _ _ t []); [apply (zv_zip _ _ _ _ _ (ok_zip _ _ _ Hok))|by split|done|lia|].
  simpl. by destruct (l_find cmp (nodes t)).
Qed.
Next Obligation.
  intros value cmp s [t Hok] Hpr. rewrite (tree_list _ _ _ Hok) in *. simpl. apply result_wp.
  pose proof (tree_fuel _ _ _ Hok). unfold RedBlackTreeGetNearestPrev.
  eapply wp_getNearest; [apply (zv_zip _ _ _ _ _ (ok_zip _ _ _ Hok))|apply Hok|done|lia|].
  intros l1 l2 x Hl H1 H2 H3 ->. rewrite Hl. unfold l_nearest_prev. rewrite filter_app.
  by rewrite (filter_all _ l1), (filter_none _ l2), app_nil_r by (eapply Forall_impl; [done|]; simpl; lia).
Qed.
Next Obligation.
  intros value cmp s [t Hok] Hpr. rewrite (tree_list _ _ _ Hok) in *. simpl. apply result_wp.
  pose proof (tree_fuel _ _ _ Hok). unfold RedBlackTreeGetNearestNext.
  eapply wp_getNearest; [apply (zv_zip _ _ _ _ _ (ok_zip _ _ _ Hok))|apply Hok|done|lia|].
  intros l1 l2 x Hl H1 H2 H3 ->. by rewrite Hl, filter_nearest.
Qed.
Next Obligation.
  intros value cmp s node [t Hok] Hpr Hn. rewrite (tree_list _ _ _ Hok) in *. simpl.
  pose proof (wp_insert _ _ _ _ _ Hok Hpr Hn) as Hwp. destruct (l_find cmp (nodes t)) as [q|].
  - apply update_wp in Hwp as (s' & ? & ->). done.
  - apply update_wp in Hwp as (s' & ? & t' & Hok' & Hl). exists s'. split; [done|].
    split; [|by exists t']. rewrite <- Hl. by apply (tree_list value).
Qed.
Next Obligation.
  intros value value' s node [t Hok] Hin Hv. rewrite (tree_list _ _ _ Hok) in *. simpl.
  pose proof (wp_remove _ _ _ _ _ Hok Hin Hv) as Hwp. apply update_wp in Hwp as (s' & ? & t' & Hok' & Hl).
  exists s'. split; [done|]. split; [|by exists t']. rewrite <- Hl. by apply (tree_list value').
Qed.
Next Obligation.
  intros value s [t Hok]. rewrite (tree_list _ _ _ Hok). simpl.
  assert (wp RedBlackTreeGetValueSum (λ v _, v = u64 (l_valuesum value (nodes t))) s) as (v & s' & -> & ->); [|done].
  apply wp_rd; [done|]. rewrite (tree_hole _ _ _ Hok).
  destruct (ok_zip _ _ _ Hok) as [_ HS H0 _]. pose proof (sums_root _ _ _ HS H0) as Hs. simpl in Hs.
  exists (ValueSum s (root t)), s. split; [by destruct t|done].
Qed.
Next Obligation.
  intros value s v [t Hok] Hnn Hsum Hv. rewrite (tree_list _ _ _ Hok) in *. simpl. apply result_wp.
  pose proof (tree_fuel _ _ _ Hok). destruct (ok_zip _ _ _ Hok) as [Hz HS H0 _].
  apply wp_bind, wp_gets. apply wp_rd; [done|]. rewrite (tree_hole _ _ _ Hok). apply wp_bind.
  eapply wp_byValueFrom; [done|exact HS|done|lia|done..|]. intros p ->. by apply wp_ret.
Qed.
Next Obligation.
  intros value cmp s [t Hok] Hord. rewrite (tree_list _ _ _ Hok) in Hord. simpl.
  destruct (wp_verify _ _ _ _ Hok Hord) as (? & ? & -> & _). done.
Qed.
End variant.
