(* ===== verification/RedBlackTreeTheorems.v ===== *)
(** * What the red-black tree guarantees

    The theorems about both variants of the tree, stated over [st_list], the
    nodes in the order of a walk, each with an application to a concrete
    tree. *)

From S2P Require Import Prelude Storage RedBlackTree RedBlackTreeShape RedBlackTreeBalance RedBlackTreeWalks RedBlackTreeInsert RedBlackTreeRemove RedBlackTreeStorage.
From stdpp Require Import base list gmap numbers option sets sorting.
#[local] Open Scope Z_scope.

(** ** Height *)

Fixpoint height (t : tree) : nat := match t with E => 0 | T _ l _ r => S (max (height l) (height r)) end.

Lemma rb_size t n : rb t n → (2 ^ (n - 1) <= S (length (nodes t)))%nat.
Proof.
  induction 1 as [|l p r n Hl IHl Hr IHr _ _|l p r n Hl IHl Hr IHr]; simpl; rewrite ?length_app; simpl; [lia..|].
  rewrite Nat.sub_0_r. pose proof (rb_pos _ _ Hl). replace n with (S (n - 1)) at 1 by lia. simpl. lia.
Qed.

Lemma rb_height t n : rb t n → (height t + 2 <= 2 * n + (if decide (color t = Red) then 1 else 0))%nat.
Proof.
  induction 1 as [|l p r n Hl IHl Hr IHr Hcl Hcr|l p r n Hl IHl Hr IHr]; simpl; [lia| |].
  - rewrite Hcl, Hcr in *. simpl in *. lia.
  - repeat case_decide; lia.
Qed.

Lemma tree_height `{LeafLinked} value s t : tree_ok value s t → (height t <= 2 * Nat.log2 (S (length (nodes t))))%nat.
Proof.
  intros Hok. destruct (ok_balance _ _ _ Hok) as [n Hn]. pose proof (rb_height _ _ Hn) as Hh.
  rewrite (ok_root _ _ _ Hok) in Hh. simpl in Hh. pose proof (rb_size _ _ Hn) as Hs. apply Nat.log2_le_mono in Hs.
  rewrite Nat.log2_pow2 in Hs by lia. lia.
Qed.

(** A search needs one round per level, for any comparison function. *)
Lemma findFrom_height X cmp s t k : zipper X s t k →
  ∃ x, ∀ fuel', (height t <= fuel')%nat → findFrom fuel' cmp (root t) s = Some (x, s).
Proof.
  revert k. induction t as [|c l IHl p r IHr]; intros k Hz.
  { exists LNull. intros fuel' _. by destruct fuel'. }
  pose proof (zip_node _ _ Left _ _ _ _ _ Hz) as (_ & HL & HR & _). simpl in HR.
  destruct (IHl (F Left c p r :: k)) as [xl Hl]; [by apply (zip_up _ _ _ Left)|].
  destruct (IHr (F Right c p l :: k)) as [xr Hr]; [by apply (zip_up _ _ _ Right)|].
  exists (if cmp p =? 0 then LNode p else if cmp p <? 0 then xl else xr).
  intros [|fuel'] Hf; simpl in Hf; [lia|]. cbn [findFrom root compare]. rewrite decide_False by done.
  unfold mbind at 1, M_bind, mret, M_ret.
  destruct (cmp p =? 0); [done|]. destruct (cmp p <? 0); unfold rd, mbind, M_bind, gets; rewrite ?HL, ?HR; [apply Hl|apply Hr]; lia.
Qed.

(** The interval of the node that a value selects. *)
Lemma l_by_value_interval value l v : (∀ p, p ∈ l → 0 <= value p) → 0 <= v < l_valuesum value l →
  ∃ l1 p l2, l = l1 ++ p :: l2 ∧ l_by_value value v l = Some p ∧ l_valuesum value l1 <= v < l_valuesum value l1 + value p.
Proof.
  revert v. induction l as [|q l IH]; intros v Hnn Hv; unfold l_valuesum in *; simpl in *; [lia|].
  destruct (Z.ltb_spec v (value q)); [exists [], q, l; simpl; auto with lia|].
  destruct (IH (v - value q)) as (l1 & p & l2 & -> & Hby & Hint); [set_solver|lia|].
  exists (q :: l1), p, l2. split; [done|]. split; [done|]. simpl. lia.
Qed.

Section claims.
Context `{LL : LeafLinked} (value : ptr → Z).
Implicit Types (s : RedBlackTree).

(** C37: Inserting a node into the tree finds the node that is equal, and
    then changes nothing, or links the new node at its place in the order
    of the comparison function; the tree is then again a balanced
    red-black tree with all value sums, its counter and, in the leaf-linked variant, its
    ring list. *)
Theorem redBlackTreeInsert_refines cmp s p : st_ok value s → probe_ok cmp (st_list s) → p ∉ st_list s →
  ∃ r s', RedBlackTreeInsert cmp value (LNode p) s = Some (r, s') ∧ st_ok value s' ∧
  match l_find cmp (st_list s) with
  | Some q => r = LNode q ∧ s' = s
  | None => r = LNode p ∧ st_list s' = l_insert cmp p (st_list s)
  end.
Proof.
  intros [t Hok] Hpr Hp. rewrite (tree_list _ _ _ Hok) in *.
  destruct (wp_insert _ _ _ _ _ Hok Hpr Hp) as (r & s' & Hrun & HQ). exists r, s'. split; [done|].
  destruct (l_find cmp (nodes t)) as [q|]; [destruct HQ as [-> ->]; split; [by exists t|done]|].
  destruct HQ as (-> & t' & Hok' & Hl). split; [by exists t'|]. split; [done|]. rewrite <- Hl. by eapply tree_list.
Qed.

(** C38: Removing a node of the tree succeeds, with no failing CHECK,
    whatever the client has stored as the node's value in the meantime; the
    other nodes keep their order, the node is unlinked, and the tree is
    again a balanced red-black tree with all value sums and counter, and
    the ring list of the leaf-linked variant. *)
Theorem redBlackTreeRemove_refines value' s p : st_ok value s → p ∈ st_list s →
  (∀ q, q ∈ st_list s → q ≠ p → value q = value' q) →
  ∃ s', RedBlackTreeRemove value' (LNode p) s = Some (LNode p, s') ∧ st_ok value' s' ∧
    st_list s' = l_remove p (st_list s) ∧ RedBlackTreeNodeIsLinked s' (LNode p) = false.
Proof.
  intros [t Hok] Hp Hv. rewrite (tree_list _ _ _ Hok) in *.
  destruct (wp_remove _ _ _ _ _ Hok Hp Hv) as (r & s' & Hrun & -> & t' & Hok' & Hl). exists s'. split; [done|].
  split; [by exists t'|]. split; [rewrite <- Hl; by eapply tree_list|].
  rewrite (tree_linked _ _ _ _ Hok'), Hl. apply bool_decide_eq_false. rewrite l_remove_elem. tauto.
Qed.


(** The verification of the tree succeeds and changes nothing, on every
    tree whose order is that of the comparison function: parent pointers,
    order, value sums, black height, colors, counter, and the ring list of
    the leaf-linked variant. *)
Theorem redBlackTreeVerify_succeeds compareNodes s : st_ok value s → ordered compareNodes (st_list s) →
  RedBlackTreeVerify compareNodes value s = Some (tt, s).
Proof.
  intros [t Hok] Hord. rewrite (tree_list _ _ _ Hok) in Hord.
  destruct (wp_verify _ _ _ _ Hok Hord) as ([] & s' & Hrun & ->). done.
Qed.

(** C40: The node by value is the one in whose interval the value falls when
    the nodes are laid out in their order, each as long as its value: a
    uniformly distributed value selects every node with a probability
    proportional to its own value. *)
Theorem redBlackTreeGetNodeByValue_interval s v : st_ok value s → (∀ p, p ∈ st_list s → 0 <= value p) →
  l_valuesum value (st_list s) < 2 ^ 64 → 0 <= v < l_valuesum value (st_list s) →
  ∃ l1 p l2, st_list s = l1 ++ p :: l2 ∧ RedBlackTreeGetNodeByValue value v s = Some (LNode p, s) ∧
    l_valuesum value l1 <= v < l_valuesum value l1 + value p.
Proof.
  intros [t Hok] Hnn Hsum Hv. rewrite (tree_list _ _ _ Hok) in *. pose proof (tree_fuel _ _ _ Hok).
  destruct (ok_zip _ _ _ Hok) as [Hz HS H0 _].
  destruct (l_by_value_interval value (nodes t) v) as (l1 & p & l2 & Hl & Hby & Hint); [done..|].
  exists l1, p, l2. split; [done|]. split; [|done].
  assert (wp (RedBlackTreeGetNodeByValue value v) (λ x s', x = LNode p ∧ s' = s) s) as (x & s' & Hrun & -> & ->); [|done].
  apply wp_bind, wp_gets. apply wp_rd; [done|]. rewrite (tree_hole _ _ _ Hok). apply wp_bind.
  eapply wp_byValueFrom; [done|exact HS|done|lia|done..|]. intros q Hq. apply wp_ret.
  rewrite Hby in Hq. by injection Hq as ->.
Qed.

(** Removing a node that was just inserted gives back the list of the
    nodes as it was. *)
Theorem redBlackTree_insert_remove cmp s p : st_ok value s → probe_ok cmp (st_list s) → p ∉ st_list s →
  l_find cmp (st_list s) = None →
  ∃ s1 s2, RedBlackTreeInsert cmp value (LNode p) s = Some (LNode p, s1) ∧
    RedBlackTreeRemove value (LNode p) s1 = Some (LNode p, s2) ∧ st_ok value s2 ∧ st_list s2 = st_list s.
Proof.
  intros [t Hok] Hpr Hp Hf. rewrite (tree_list _ _ _ Hok) in *.
  destruct (wp_insert _ _ _ _ _ Hok Hpr Hp) as (r & s1 & Hrun1 & HQ). rewrite Hf in HQ.
  destruct HQ as (-> & t1 & Hok1 & Hl1).
  destruct (wp_remove _ value _ _ p Hok1) as (r & s2 & Hrun2 & -> & t2 & Hok2 & Hl2); [|done|].
  { rewrite Hl1. apply l_insert_elem. auto. }
  exists s1, s2. split_and!; [done|done|by exists t2|]. rewrite (tree_list _ _ _ Hok2), Hl2, Hl1.
  destruct Hpr as [a q b Hl Ha Hq Hb|a b Hl Ha Hb]; rewrite Hl in Hf, Hp |- *; [by rewrite l_find_found in Hf|].
  rewrite l_insert_app by done. apply l_remove_middle; set_solver.
Qed.
End claims.

(** ** A concrete tree *)

Module Demo.
Section tree5.
Context `{LL : LeafLinked}.

Definition compareNodes (p q : ptr) : Z := Zpos p - Zpos q.
Definition value (p : ptr) : Z := 10 * Zpos p.

Definition insert (p : ptr) (s : RedBlackTree) : RedBlackTree :=
  match RedBlackTreeInsert (compareNodes p) value (LNode p) s with Some (_, s') => s' | None => s end.

(** Five nodes: the last insertions recolor and rotate. *)
Definition tree5 : RedBlackTree := insert 4 (insert 3 (insert 5 (insert 1 (insert 2 RedBlackTreeNew)))).

Lemma insert_ok s p l1 l2 : st_ok value s ∧ st_list s = l1 ++ l2 → Forall (λ q, 0 < compareNodes p q) l1 →
  Forall (λ q, compareNodes p q < 0) l2 → p ∉ l1 ++ l2 → st_ok value (insert p s) ∧ st_list (insert p s) = l1 ++ p :: l2.
Proof.
  intros [[t Hok] Hl] H1 H2 Hp. rewrite (tree_list _ _ _ Hok) in Hl.
  assert (probe_ok (compareNodes p) (nodes t)) as Hpr by (by apply (probe_missing _ _ l1 l2)). rewrite <- Hl in Hp.
  destruct (wp_insert _ _ _ _ _ Hok Hpr Hp) as (r & s' & Hrun & HQ). rewrite Hl, l_find_missing in HQ by done.
  destruct HQ as (-> & t' & Hok' & Hl'). unfold insert. rewrite Hrun. split; [by exists t'|].
  rewrite l_insert_app in Hl' by done. rewrite <- Hl'. by eapply tree_list.
Qed.

Lemma tree5_ok : st_ok value tree5 ∧ st_list tree5 = [1; 2; 3; 4; 5]%positive.
Proof.
  unfold tree5. apply (insert_ok _ _ [1; 2; 3]%positive [5]%positive); [|by apply (bool_decide_unpack _)..].
  apply (insert_ok _ _ [1; 2]%positive [5]%positive); [|by apply (bool_decide_unpack _)..].
  apply (insert_ok _ _ [1; 2]%positive []); [|by apply (bool_decide_unpack _)..].
  apply (insert_ok _ _ [] [2]%positive); [|by apply (bool_decide_unpack _)..].
  apply (insert_ok _ _ [] []); [|by apply (bool_decide_unpack _)..].
  exact (st_new_ok (S := RedBlackTree) value).
Qed.

Lemma tree5_ordered : ordered compareNodes (st_list tree5).
Proof.
  destruct tree5_ok as [_ ->].
  assert (StronglySorted (λ p q, compareNodes p q < 0 ∧ 0 < compareNodes q p) [1; 2; 3; 4; 5]%positive) as Hs.
  { unfold compareNodes. repeat (constructor; try done). }
  intros l1 p l2 q l3 Hl. rewrite Hl in Hs. apply StronglySorted_app in Hs as (_ & _ & Hs).
  apply StronglySorted_inv in Hs as [_ Hs]. rewrite Forall_forall in Hs. apply Hs. set_solver.
Qed.
End tree5.
End Demo.

(** The build uses the simple tree (simpleredblacktree.c). *)
#[local] Instance simple : LeafLinked := false.

(** Inserting node 6. *)
Lemma redBlackTreeInsert_refines_witness : ∃ r s',
  RedBlackTreeInsert (Demo.compareNodes 6) Demo.value (LNode 6) Demo.tree5 = Some (r, s') ∧ st_ok Demo.value s' ∧
  r = LNode 6 ∧ st_list s' = [1; 2; 3; 4; 5; 6]%positive.
Proof.
  destruct Demo.tree5_ok as [Hok Hl].
  destruct (redBlackTreeInsert_refines Demo.value (Demo.compareNodes 6) Demo.tree5 6 Hok) as (r & s' & Hrun & Hok' & HQ).
  - rewrite Hl. apply (probe_missing _ _ [1; 2; 3; 4; 5]%positive []); [done|by apply (bool_decide_unpack _)..].
  - rewrite Hl. by apply (bool_decide_unpack _).
  - rewrite Hl in HQ. exists r, s'. split; [exact Hrun|]. split; [exact Hok'|]. exact HQ.
Defined.

(** Removing node 2, which has two children. *)
Lemma redBlackTreeRemove_refines_witness : ∃ s',
  RedBlackTreeRemove Demo.value (LNode 2) Demo.tree5 = Some (LNode 2, s') ∧ st_list s' = [1; 3; 4; 5]%positive.
Proof.
  destruct Demo.tree5_ok as [Hok Hl].
  destruct (redBlackTreeRemove_refines Demo.value Demo.value Demo.tree5 2 Hok) as (s' & Hrun & _ & HL & _).
  - rewrite Hl. by apply (bool_decide_unpack _).
  - reflexivity.
  - exists s'. split; [exact Hrun|]. by rewrite Hl in HL.
Defined.


(** Both variants. *)
Lemma redBlackTreeVerify_succeeds_witness :
  RedBlackTreeVerify Demo.compareNodes Demo.value Demo.tree5 = Some (tt, Demo.tree5) ∧
  RedBlackTreeVerify (H := true) Demo.compareNodes Demo.value (Demo.tree5 (LL := true)) = Some (tt, Demo.tree5 (LL := true)).
Proof.
  split; apply redBlackTreeVerify_succeeds;
    [exact (proj1 Demo.tree5_ok)|exact Demo.tree5_ordered|exact (proj1 Demo.tree5_ok)|exact Demo.tree5_ordered].
Defined.

(** Value 35 of 0 .. 149 is in the interval of node 3. *)
Lemma redBlackTreeGetNodeByValue_interval_witness : ∃ l1 p l2, [1; 2; 3; 4; 5]%positive = l1 ++ p :: l2 ∧
  RedBlackTreeGetNodeByValue Demo.value 35 Demo.tree5 = Some (LNode p, Demo.tree5) ∧
  l_valuesum Demo.value l1 <= 35 < l_valuesum Demo.value l1 + Demo.value p.
Proof.
  destruct Demo.tree5_ok as [Hok Hl].
  destruct (redBlackTreeGetNodeByValue_interval Demo.value Demo.tree5 35 Hok) as (l1 & p & l2 & HL & Hrun & Hint).
  - intros p _. unfold Demo.value. lia.
  - rewrite Hl. reflexivity.
  - rewrite Hl. vm_compute. split; [discriminate|reflexivity].
  - exists l1, p, l2. rewrite Hl in HL. split; [exact HL|]. split; [exact Hrun|exact Hint].
Defined.

Lemma redBlackTree_insert_remove_witness : ∃ s1 s2,
  RedBlackTreeInsert (Demo.compareNodes 6) Demo.value (LNode 6) Demo.tree5 = Some (LNode 6, s1) ∧
  RedBlackTreeRemove Demo.value (LNode 6) s1 = Some (LNode 6, s2) ∧ st_list s2 = [1; 2; 3; 4; 5]%positive.
Proof.
  destruct Demo.tree5_ok as [Hok Hl].
  destruct (redBlackTree_insert_remove Demo.value (Demo.compareNodes 6) Demo.tree5 6 Hok) as (s1 & s2 & H1 & H2 & _ & H3).
  - rewrite Hl. apply (probe_missing _ _ [1; 2; 3; 4; 5]%positive []); [done|by apply (bool_decide_unpack _)..].
  - rewrite Hl. by apply (bool_decide_unpack _).
  - rewrite Hl. reflexivity.
  - exists s1, s2. split; [exact H1|]. split; [exact H2|]. by rewrite <- Hl.
Defined.
