(* ===== verification/PoolElement.v ===== *)
(** * Pool elements (poolelementnode-template.h, poolelementnode-template_impl.h)

    The record of a pool element, its checksum contribution, its update by
    a re-registration, and the comparison functions of the storages it is
    linked in.  Every comparison is the lexicographic comparison of a list
    of keys ([selection] comparisons are in PoolPolicy). *)

From S2P Require Import Prelude Checksum Addresses PoolBasics Storage.
From stdpp Require Import base list numbers option.
#[local] Open Scope Z_scope.

Definition PENT_EXPIRY : Z := 1000.
Definition PENT_KEEPALIVE_TRANSMISSION : Z := 1001.
Definition PENT_KEEPALIVE_TIMEOUT : Z := 1002.

Definition PENF_MARKED : Z := 1.
Definition PENF_UPDATED : Z := 16384.
Definition PENF_NEW : Z := 32768.

(** [flags |= f] and [flags &= ~f]. *)
Definition flag_set (flags f : Z) : Z := Z.lor flags f.
Definition flag_clear (flags f : Z) : Z := Z.ldiff flags f.
Definition flag_test (flags f : Z) : bool := negb (Z.land flags f =? 0).

(** The storage nodes of the structure are the node's membership in the
    storages; [pen_Value] is the [Value] of its selection storage node. *)
Record PoolElementNode := MkPoolElementNode {
  pen_OwnerPoolNode : option ptr;
  pen_Identifier : Z;
  pen_Checksum : Z;
  pen_HomeRegistrarIdentifier : Z;
  pen_RegistrationLife : Z;
  pen_PolicySettings : PoolPolicySettings;
  pen_Flags : Z;
  pen_SeqNumber : Z;
  pen_RoundCounter : Z;
  pen_VirtualCounter : Z;
  pen_Degradation : Z;
  pen_UnreachabilityReports : Z;
  pen_SelectionCounter : Z;
  pen_LastUpdateTimeStamp : Z;
  pen_TimerCode : Z;
  pen_TimerTimeStamp : Z;
  pen_ConnectionSocketDescriptor : Z;
  pen_ConnectionAssocID : Z;
  pen_UserTransport : TransportAddressBlock;
  pen_RegistratorTransport : option TransportAddressBlock;
  pen_UserData : Z;
  pen_LastKeepAliveTransmission : Z;
  pen_Value : Z
}.

#[global] Instance PoolElementNode_eq_dec : EqDecision PoolElementNode.
Proof. solve_decision. Defined.

(** Assignments to one member. *)
Definition set_OwnerPoolNode (v : option ptr) (n : PoolElementNode) : PoolElementNode :=
  {| pen_OwnerPoolNode := v; pen_Identifier := pen_Identifier n; pen_Checksum := pen_Checksum n; pen_HomeRegistrarIdentifier := pen_HomeRegistrarIdentifier n; pen_RegistrationLife := pen_RegistrationLife n; pen_PolicySettings := pen_PolicySettings n; pen_Flags := pen_Flags n; pen_SeqNumber := pen_SeqNumber n; pen_RoundCounter := pen_RoundCounter n; pen_VirtualCounter := pen_VirtualCounter n; pen_Degradation := pen_Degradation n; pen_UnreachabilityReports := pen_UnreachabilityReports n; pen_SelectionCounter := pen_SelectionCounter n; pen_LastUpdateTimeStamp := pen_LastUpdateTimeStamp n; pen_TimerCode := pen_TimerCode n; pen_TimerTimeStamp := pen_TimerTimeStamp n; pen_ConnectionSocketDescriptor := pen_ConnectionSocketDescriptor n; pen_ConnectionAssocID := pen_ConnectionAssocID n; pen_UserTransport := pen_UserTransport n; pen_RegistratorTransport := pen_RegistratorTransport n; pen_UserData := pen_UserData n; pen_LastKeepAliveTransmission := pen_LastKeepAliveTransmission n; pen_Value := pen_Value n |}.

Definition set_Checksum (v : Z) (n : PoolElementNode) : PoolElementNode :=
  {| pen_OwnerPoolNode := pen_OwnerPoolNode n; pen_Identifier := pen_Identifier n; pen_Checksum := v; pen_HomeRegistrarIdentifier := pen_HomeRegistrarIdentifier n; pen_RegistrationLife := pen_RegistrationLife n; pen_PolicySettings := pen_PolicySettings n; pen_Flags := pen_Flags n; pen_SeqNumber := pen_SeqNumber n; pen_RoundCounter := pen_RoundCounter n; pen_VirtualCounter := pen_VirtualCounter n; pen_Degradation := pen_Degradation n; pen_UnreachabilityReports := pen_UnreachabilityReports n; pen_SelectionCounter := pen_SelectionCounter n; pen_LastUpdateTimeStamp := pen_LastUpdateTimeStamp n; pen_TimerCode := pen_TimerCode n; pen_TimerTimeStamp := pen_TimerTimeStamp n; pen_ConnectionSocketDescriptor := pen_ConnectionSocketDescriptor n; pen_ConnectionAssocID := pen_ConnectionAssocID n; pen_UserTransport := pen_UserTransport n; pen_RegistratorTransport := pen_RegistratorTransport n; pen_UserData := pen_UserData n; pen_LastKeepAliveTransmission := pen_LastKeepAliveTransmission n; pen_Value := pen_Value n |}.

Definition set_HomeRegistrarIdentifier (v : Z) (n : PoolElementNode) : PoolElementNode :=
  {| pen_OwnerPoolNode := pen_OwnerPoolNode n; pen_Identifier := pen_Identifier n; pen_Checksum := pen_Checksum n; pen_HomeRegistrarIdentifier := v; pen_RegistrationLife := pen_RegistrationLife n; pen_PolicySettings := pen_PolicySettings n; pen_Flags := pen_Flags n; pen_SeqNumber := pen_SeqNumber n; pen_RoundCounter := pen_RoundCounter n; pen_VirtualCounter := pen_VirtualCounter n; pen_Degradation := pen_Degradation n; pen_UnreachabilityReports := pen_UnreachabilityReports n; pen_SelectionCounter := pen_SelectionCounter n; pen_LastUpdateTimeStamp := pen_LastUpdateTimeStamp n; pen_TimerCode := pen_TimerCode n; pen_TimerTimeStamp := pen_TimerTimeStamp n; pen_ConnectionSocketDescriptor := pen_ConnectionSocketDescriptor n; pen_ConnectionAssocID := pen_ConnectionAssocID n; pen_UserTransport := pen_UserTransport n; pen_RegistratorTransport := pen_RegistratorTransport n; pen_UserData := pen_UserData n; pen_LastKeepAliveTransmission := pen_LastKeepAliveTransmission n; pen_Value := pen_Value n |}.

Definition set_PolicySettings (v : PoolPolicySettings) (n : PoolElementNode) : PoolElementNode :=
  {| pen_OwnerPoolNode := pen_OwnerPoolNode n; pen_Identifier := pen_Identifier n; pen_Checksum := pen_Checksum n; pen_HomeRegistrarIdentifier := pen_HomeRegistrarIdentifier n; pen_RegistrationLife := pen_RegistrationLife n; pen_PolicySettings := v; pen_Flags := pen_Flags n; pen_SeqNumber := pen_SeqNumber n; pen_RoundCounter := pen_RoundCounter n; pen_VirtualCounter := pen_VirtualCounter n; pen_Degradation := pen_Degradation n; pen_UnreachabilityReports := pen_UnreachabilityReports n; pen_SelectionCounter := pen_SelectionCounter n; pen_LastUpdateTimeStamp := pen_LastUpdateTimeStamp n; pen_TimerCode := pen_TimerCode n; pen_TimerTimeStamp := pen_TimerTimeStamp n; pen_ConnectionSocketDescriptor := pen_ConnectionSocketDescriptor n; pen_ConnectionAssocID := pen_ConnectionAssocID n; pen_UserTransport := pen_UserTransport n; pen_RegistratorTransport := pen_RegistratorTransport n; pen_UserData := pen_UserData n; pen_LastKeepAliveTransmission := pen_LastKeepAliveTransmission n; pen_Value := pen_Value n |}.

Definition set_Flags (v : Z) (n : PoolElementNode) : PoolElementNode :=
  {| pen_OwnerPoolNode := pen_OwnerPoolNode n; pen_Identifier := pen_Identifier n; pen_Checksum := pen_Checksum n; pen_HomeRegistrarIdentifier := pen_HomeRegistrarIdentifier n; pen_RegistrationLife := pen_RegistrationLife n; pen_PolicySettings := pen_PolicySettings n; pen_Flags := v; pen_SeqNumber := pen_SeqNumber n; pen_RoundCounter := pen_RoundCounter n; pen_VirtualCounter := pen_VirtualCounter n; pen_Degradation := pen_Degradation n; pen_UnreachabilityReports := pen_UnreachabilityReports n; pen_SelectionCounter := pen_SelectionCounter n; pen_LastUpdateTimeStamp := pen_LastUpdateTimeStamp n; pen_TimerCode := pen_TimerCode n; pen_TimerTimeStamp := pen_TimerTimeStamp n; pen_ConnectionSocketDescriptor := pen_ConnectionSocketDescriptor n; pen_ConnectionAssocID := pen_ConnectionAssocID n; pen_UserTransport := pen_UserTransport n; pen_RegistratorTransport := pen_RegistratorTransport n; pen_UserData := pen_UserData n; pen_LastKeepAliveTransmission := pen_LastKeepAliveTransmission n; pen_Value := pen_Value n |}.

Definition set_SeqNumber (v : Z) (n : PoolElementNode) : PoolElementNode :=
  {| pen_OwnerPoolNode := pen_OwnerPoolNode n; pen_Identifier := pen_Identifier n; pen_Checksum := pen_Checksum n; pen_HomeRegistrarIdentifier := pen_HomeRegistrarIdentifier n; pen_RegistrationLife := pen_RegistrationLife n; pen_PolicySettings := pen_PolicySettings n; pen_Flags := pen_Flags n; pen_SeqNumber := v; pen_RoundCounter := pen_RoundCounter n; pen_VirtualCounter := pen_VirtualCounter n; pen_Degradation := pen_Degradation n; pen_UnreachabilityReports := pen_UnreachabilityReports n; pen_SelectionCounter := pen_SelectionCounter n; pen_LastUpdateTimeStamp := pen_LastUpdateTimeStamp n; pen_TimerCode := pen_TimerCode n; pen_TimerTimeStamp := pen_TimerTimeStamp n; pen_ConnectionSocketDescriptor := pen_ConnectionSocketDescriptor n; pen_ConnectionAssocID := pen_ConnectionAssocID n; pen_UserTransport := pen_UserTransport n; pen_RegistratorTransport := pen_RegistratorTransport n; pen_UserData := pen_UserData n; pen_LastKeepAliveTransmission := pen_LastKeepAliveTransmission n; pen_Value := pen_Value n |}.

Definition set_RoundCounter (v : Z) (n : PoolElementNode) : PoolElementNode :=
  {| pen_OwnerPoolNode := pen_OwnerPoolNode n; pen_Identifier := pen_Identifier n; pen_Checksum := pen_Checksum n; pen_HomeRegistrarIdentifier := pen_HomeRegistrarIdentifier n; pen_RegistrationLife := pen_RegistrationLife n; pen_PolicySettings := pen_PolicySettings n; pen_Flags := pen_Flags n; pen_SeqNumber := pen_SeqNumber n; pen_RoundCounter := v; pen_VirtualCounter := pen_VirtualCounter n; pen_Degradation := pen_Degradation n; pen_UnreachabilityReports := pen_UnreachabilityReports n; pen_SelectionCounter := pen_SelectionCounter n; pen_LastUpdateTimeStamp := pen_LastUpdateTimeStamp n; pen_TimerCode := pen_TimerCode n; pen_TimerTimeStamp := pen_TimerTimeStamp n; pen_ConnectionSocketDescriptor := pen_ConnectionSocketDescriptor n; pen_ConnectionAssocID := pen_ConnectionAssocID n; pen_UserTransport := pen_UserTransport n; pen_RegistratorTransport := pen_RegistratorTransport n; pen_UserData := pen_UserData n; pen_LastKeepAliveTransmission := pen_LastKeepAliveTransmission n; pen_Value := pen_Value n |}.

Definition set_VirtualCounter (v : Z) (n : PoolElementNode) : PoolElementNode :=
  {| pen_OwnerPoolNode := pen_OwnerPoolNode n; pen_Identifier := pen_Identifier n; pen_Checksum := pen_Checksum n; pen_HomeRegistrarIdentifier := pen_HomeRegistrarIdentifier n; pen_RegistrationLife := pen_RegistrationLife n; pen_PolicySettings := pen_PolicySettings n; pen_Flags := pen_Flags n; pen_SeqNumber := pen_SeqNumber n; pen_RoundCounter := pen_RoundCounter n; pen_VirtualCounter := v; pen_Degradation := pen_Degradation n; pen_UnreachabilityReports := pen_UnreachabilityReports n; pen_SelectionCounter := pen_SelectionCounter n; pen_LastUpdateTimeStamp := pen_LastUpdateTimeStamp n; pen_TimerCode := pen_TimerCode n; pen_TimerTimeStamp := pen_TimerTimeStamp n; pen_ConnectionSocketDescriptor := pen_ConnectionSocketDescriptor n; pen_ConnectionAssocID := pen_ConnectionAssocID n; pen_UserTransport := pen_UserTransport n; pen_RegistratorTransport := pen_RegistratorTransport n; pen_UserData := pen_UserData n; pen_LastKeepAliveTransmission := pen_LastKeepAliveTransmission n; pen_Value := pen_Value n |}.

Definition set_Degradation (v : Z) (n : PoolElementNode) : PoolElementNode :=
  {| pen_OwnerPoolNode := pen_OwnerPoolNode n; pen_Identifier := pen_Identifier n; pen_Checksum := pen_Checksum n; pen_HomeRegistrarIdentifier := pen_HomeRegistrarIdentifier n; pen_RegistrationLife := pen_RegistrationLife n; pen_PolicySettings := pen_PolicySettings n; pen_Flags := pen_Flags n; pen_SeqNumber := pen_SeqNumber n; pen_RoundCounter := pen_RoundCounter n; pen_VirtualCounter := pen_VirtualCounter n; pen_Degradation := v; pen_UnreachabilityReports := pen_UnreachabilityReports n; pen_SelectionCounter := pen_SelectionCounter n; pen_LastUpdateTimeStamp := pen_LastUpdateTimeStamp n; pen_TimerCode := pen_TimerCode n; pen_TimerTimeStamp := pen_TimerTimeStamp n; pen_ConnectionSocketDescriptor := pen_ConnectionSocketDescriptor n; pen_ConnectionAssocID := pen_ConnectionAssocID n; pen_UserTransport := pen_UserTransport n; pen_RegistratorTransport := pen_RegistratorTransport n; pen_UserData := pen_UserData n; pen_LastKeepAliveTransmission := pen_LastKeepAliveTransmission n; pen_Value := pen_Value n |}.

Definition set_SelectionCounter (v : Z) (n : PoolElementNode) : PoolElementNode :=
  {| pen_OwnerPoolNode := pen_OwnerPoolNode n; pen_Identifier := pen_Identifier n; pen_Checksum := pen_Checksum n; pen_HomeRegistrarIdentifier := pen_HomeRegistrarIdentifier n; pen_RegistrationLife := pen_RegistrationLife n; pen_PolicySettings := pen_PolicySettings n; pen_Flags := pen_Flags n; pen_SeqNumber := pen_SeqNumber n; pen_RoundCounter := pen_RoundCounter n; pen_VirtualCounter := pen_VirtualCounter n; pen_Degradation := pen_Degradation n; pen_UnreachabilityReports := pen_UnreachabilityReports n; pen_SelectionCounter := v; pen_LastUpdateTimeStamp := pen_LastUpdateTimeStamp n; pen_TimerCode := pen_TimerCode n; pen_TimerTimeStamp := pen_TimerTimeStamp n; pen_ConnectionSocketDescriptor := pen_ConnectionSocketDescriptor n; pen_ConnectionAssocID := pen_ConnectionAssocID n; pen_UserTransport := pen_UserTransport n; pen_RegistratorTransport := pen_RegistratorTransport n; pen_UserData := pen_UserData n; pen_LastKeepAliveTransmission := pen_LastKeepAliveTransmission n; pen_Value := pen_Value n |}.

Definition set_LastUpdateTimeStamp (v : Z) (n : PoolElementNode) : PoolElementNode :=
  {| pen_OwnerPoolNode := pen_OwnerPoolNode n; pen_Identifier := pen_Identifier n; pen_Checksum := pen_Checksum n; pen_HomeRegistrarIdentifier := pen_HomeRegistrarIdentifier n; pen_RegistrationLife := pen_RegistrationLife n; pen_PolicySettings := pen_PolicySettings n; pen_Flags := pen_Flags n; pen_SeqNumber := pen_SeqNumber n; pen_RoundCounter := pen_RoundCounter n; pen_VirtualCounter := pen_VirtualCounter n; pen_Degradation := pen_Degradation n; pen_UnreachabilityReports := pen_UnreachabilityReports n; pen_SelectionCounter := pen_SelectionCounter n; pen_LastUpdateTimeStamp := v; pen_TimerCode := pen_TimerCode n; pen_TimerTimeStamp := pen_TimerTimeStamp n; pen_ConnectionSocketDescriptor := pen_ConnectionSocketDescriptor n; pen_ConnectionAssocID := pen_ConnectionAssocID n; pen_UserTransport := pen_UserTransport n; pen_RegistratorTransport := pen_RegistratorTransport n; pen_UserData := pen_UserData n; pen_LastKeepAliveTransmission := pen_LastKeepAliveTransmission n; pen_Value := pen_Value n |}.

Definition set_TimerCode (v : Z) (n : PoolElementNode) : PoolElementNode :=
  {| pen_OwnerPoolNode := pen_OwnerPoolNode n; pen_Identifier := pen_Identifier n; pen_Checksum := pen_Checksum n; pen_HomeRegistrarIdentifier := pen_HomeRegistrarIdentifier n; pen_RegistrationLife := pen_RegistrationLife n; pen_PolicySettings := pen_PolicySettings n; pen_Flags := pen_Flags n; pen_SeqNumber := pen_SeqNumber n; pen_RoundCounter := pen_RoundCounter n; pen_VirtualCounter := pen_VirtualCounter n; pen_Degradation := pen_Degradation n; pen_UnreachabilityReports := pen_UnreachabilityReports n; pen_SelectionCounter := pen_SelectionCounter n; pen_LastUpdateTimeStamp := pen_LastUpdateTimeStamp n; pen_TimerCode := v; pen_TimerTimeStamp := pen_TimerTimeStamp n; pen_ConnectionSocketDescriptor := pen_ConnectionSocketDescriptor n; pen_ConnectionAssocID := pen_ConnectionAssocID n; pen_UserTransport := pen_UserTransport n; pen_RegistratorTransport := pen_RegistratorTransport n; pen_UserData := pen_UserData n; pen_LastKeepAliveTransmission := pen_LastKeepAliveTransmission n; pen_Value := pen_Value n |}.

Definition set_TimerTimeStamp (v : Z) (n : PoolElementNode) : PoolElementNode :=
  {| pen_OwnerPoolNode := pen_OwnerPoolNode n; pen_Identifier := pen_Identifier n; pen_Checksum := pen_Checksum n; pen_HomeRegistrarIdentifier := pen_HomeRegistrarIdentifier n; pen_RegistrationLife := pen_RegistrationLife n; pen_PolicySettings := pen_PolicySettings n; pen_Flags := pen_Flags n; pen_SeqNumber := pen_SeqNumber n; pen_RoundCounter := pen_RoundCounter n; pen_VirtualCounter := pen_VirtualCounter n; pen_Degradation := pen_Degradation n; pen_UnreachabilityReports := pen_UnreachabilityReports n; pen_SelectionCounter := pen_SelectionCounter n; pen_LastUpdateTimeStamp := pen_LastUpdateTimeStamp n; pen_TimerCode := pen_TimerCode n; pen_TimerTimeStamp := v; pen_ConnectionSocketDescriptor := pen_ConnectionSocketDescriptor n; pen_ConnectionAssocID := pen_ConnectionAssocID n; pen_UserTransport := pen_UserTransport n; pen_RegistratorTransport := pen_RegistratorTransport n; pen_UserData := pen_UserData n; pen_LastKeepAliveTransmission := pen_LastKeepAliveTransmission n; pen_Value := pen_Value n |}.

Definition set_ConnectionSocketDescriptor (v : Z) (n : PoolElementNode) : PoolElementNode :=
  {| pen_OwnerPoolNode := pen_OwnerPoolNode n; pen_Identifier := pen_Identifier n; pen_Checksum := pen_Checksum n; pen_HomeRegistrarIdentifier := pen_HomeRegistrarIdentifier n; pen_RegistrationLife := pen_RegistrationLife n; pen_PolicySettings := pen_PolicySettings n; pen_Flags := pen_Flags n; pen_SeqNumber := pen_SeqNumber n; pen_RoundCounter := pen_RoundCounter n; pen_VirtualCounter := pen_VirtualCounter n; pen_Degradation := pen_Degradation n; pen_UnreachabilityReports := pen_UnreachabilityReports n; pen_SelectionCounter := pen_SelectionCounter n; pen_LastUpdateTimeStamp := pen_LastUpdateTimeStamp n; pen_TimerCode := pen_TimerCode n; pen_TimerTimeStamp := pen_TimerTimeStamp n; pen_ConnectionSocketDescriptor := v; pen_ConnectionAssocID := pen_ConnectionAssocID n; pen_UserTransport := pen_UserTransport n; pen_RegistratorTransport := pen_RegistratorTransport n; pen_UserData := pen_UserData n; pen_LastKeepAliveTransmission := pen_LastKeepAliveTransmission n; pen_Value := pen_Value n |}.

Definition set_ConnectionAssocID (v : Z) (n : PoolElementNode) : PoolElementNode :=
  {| pen_OwnerPoolNode := pen_OwnerPoolNode n; pen_Identifier := pen_Identifier n; pen_Checksum := pen_Checksum n; pen_HomeRegistrarIdentifier := pen_HomeRegistrarIdentifier n; pen_RegistrationLife := pen_RegistrationLife n; pen_PolicySettings := pen_PolicySettings n; pen_Flags := pen_Flags n; pen_SeqNumber := pen_SeqNumber n; pen_RoundCounter := pen_RoundCounter n; pen_VirtualCounter := pen_VirtualCounter n; pen_Degradation := pen_Degradation n; pen_UnreachabilityReports := pen_UnreachabilityReports n; pen_SelectionCounter := pen_SelectionCounter n; pen_LastUpdateTimeStamp := pen_LastUpdateTimeStamp n; pen_TimerCode := pen_TimerCode n; pen_TimerTimeStamp := pen_TimerTimeStamp n; pen_ConnectionSocketDescriptor := pen_ConnectionSocketDescriptor n; pen_ConnectionAssocID := v; pen_UserTransport := pen_UserTransport n; pen_RegistratorTransport := pen_RegistratorTransport n; pen_UserData := pen_UserData n; pen_LastKeepAliveTransmission := pen_LastKeepAliveTransmission n; pen_Value := pen_Value n |}.

Definition set_UserTransport (v : TransportAddressBlock) (n : PoolElementNode) : PoolElementNode :=
  {| pen_OwnerPoolNode := pen_OwnerPoolNode n; pen_Identifier := pen_Identifier n; pen_Checksum := pen_Checksum n; pen_HomeRegistrarIdentifier := pen_HomeRegistrarIdentifier n; pen_RegistrationLife := pen_RegistrationLife n; pen_PolicySettings := pen_PolicySettings n; pen_Flags := pen_Flags n; pen_SeqNumber := pen_SeqNumber n; pen_RoundCounter := pen_RoundCounter n; pen_VirtualCounter := pen_VirtualCounter n; pen_Degradation := pen_Degradation n; pen_UnreachabilityReports := pen_UnreachabilityReports n; pen_SelectionCounter := pen_SelectionCounter n; pen_LastUpdateTimeStamp := pen_LastUpdateTimeStamp n; pen_TimerCode := pen_TimerCode n; pen_TimerTimeStamp := pen_TimerTimeStamp n; pen_ConnectionSocketDescriptor := pen_ConnectionSocketDescriptor n; pen_ConnectionAssocID := pen_ConnectionAssocID n; pen_UserTransport := v; pen_RegistratorTransport := pen_RegistratorTransport n; pen_UserData := pen_UserData n; pen_LastKeepAliveTransmission := pen_LastKeepAliveTransmission n; pen_Value := pen_Value n |}.

Definition set_RegistratorTransport (v : option TransportAddressBlock) (n : PoolElementNode) : PoolElementNode :=
  {| pen_OwnerPoolNode := pen_OwnerPoolNode n; pen_Identifier := pen_Identifier n; pen_Checksum := pen_Checksum n; pen_HomeRegistrarIdentifier := pen_HomeRegistrarIdentifier n; pen_RegistrationLife := pen_RegistrationLife n; pen_PolicySettings := pen_PolicySettings n; pen_Flags := pen_Flags n; pen_SeqNumber := pen_SeqNumber n; pen_RoundCounter := pen_RoundCounter n; pen_VirtualCounter := pen_VirtualCounter n; pen_Degradation := pen_Degradation n; pen_UnreachabilityReports := pen_UnreachabilityReports n; pen_SelectionCounter := pen_SelectionCounter n; pen_LastUpdateTimeStamp := pen_LastUpdateTimeStamp n; pen_TimerCode := pen_TimerCode n; pen_TimerTimeStamp := pen_TimerTimeStamp n; pen_ConnectionSocketDescriptor := pen_ConnectionSocketDescriptor n; pen_ConnectionAssocID := pen_ConnectionAssocID n; pen_UserTransport := pen_UserTransport n; pen_RegistratorTransport := v; pen_UserData := pen_UserData n; pen_LastKeepAliveTransmission := pen_LastKeepAliveTransmission n; pen_Value := pen_Value n |}.

Definition set_Value (v : Z) (n : PoolElementNode) : PoolElementNode :=
  {| pen_OwnerPoolNode := pen_OwnerPoolNode n; pen_Identifier := pen_Identifier n; pen_Checksum := pen_Checksum n; pen_HomeRegistrarIdentifier := pen_HomeRegistrarIdentifier n; pen_RegistrationLife := pen_RegistrationLife n; pen_PolicySettings := pen_PolicySettings n; pen_Flags := pen_Flags n; pen_SeqNumber := pen_SeqNumber n; pen_RoundCounter := pen_RoundCounter n; pen_VirtualCounter := pen_VirtualCounter n; pen_Degradation := pen_Degradation n; pen_UnreachabilityReports := pen_UnreachabilityReports n; pen_SelectionCounter := pen_SelectionCounter n; pen_LastUpdateTimeStamp := pen_LastUpdateTimeStamp n; pen_TimerCode := pen_TimerCode n; pen_TimerTimeStamp := pen_TimerTimeStamp n; pen_ConnectionSocketDescriptor := pen_ConnectionSocketDescriptor n; pen_ConnectionAssocID := pen_ConnectionAssocID n; pen_UserTransport := pen_UserTransport n; pen_RegistratorTransport := pen_RegistratorTransport n; pen_UserData := pen_UserData n; pen_LastKeepAliveTransmission := pen_LastKeepAliveTransmission n; pen_Value := v |}.

Definition set_UnreachabilityReports (v : Z) (n : PoolElementNode) : PoolElementNode :=
  {| pen_OwnerPoolNode := pen_OwnerPoolNode n; pen_Identifier := pen_Identifier n; pen_Checksum := pen_Checksum n; pen_HomeRegistrarIdentifier := pen_HomeRegistrarIdentifier n; pen_RegistrationLife := pen_RegistrationLife n; pen_PolicySettings := pen_PolicySettings n; pen_Flags := pen_Flags n; pen_SeqNumber := pen_SeqNumber n; pen_RoundCounter := pen_RoundCounter n; pen_VirtualCounter := pen_VirtualCounter n; pen_Degradation := pen_Degradation n; pen_UnreachabilityReports := v; pen_SelectionCounter := pen_SelectionCounter n; pen_LastUpdateTimeStamp := pen_LastUpdateTimeStamp n; pen_TimerCode := pen_TimerCode n; pen_TimerTimeStamp := pen_TimerTimeStamp n; pen_ConnectionSocketDescriptor := pen_ConnectionSocketDescriptor n; pen_ConnectionAssocID := pen_ConnectionAssocID n; pen_UserTransport := pen_UserTransport n; pen_RegistratorTransport := pen_RegistratorTransport n; pen_UserData := pen_UserData n; pen_LastKeepAliveTransmission := pen_LastKeepAliveTransmission n; pen_Value := pen_Value n |}.

Definition set_LastKeepAliveTransmission (v : Z) (n : PoolElementNode) : PoolElementNode :=
  {| pen_OwnerPoolNode := pen_OwnerPoolNode n; pen_Identifier := pen_Identifier n; pen_Checksum := pen_Checksum n; pen_HomeRegistrarIdentifier := pen_HomeRegistrarIdentifier n; pen_RegistrationLife := pen_RegistrationLife n; pen_PolicySettings := pen_PolicySettings n; pen_Flags := pen_Flags n; pen_SeqNumber := pen_SeqNumber n; pen_RoundCounter := pen_RoundCounter n; pen_VirtualCounter := pen_VirtualCounter n; pen_Degradation := pen_Degradation n; pen_UnreachabilityReports := pen_UnreachabilityReports n; pen_SelectionCounter := pen_SelectionCounter n; pen_LastUpdateTimeStamp := pen_LastUpdateTimeStamp n; pen_TimerCode := pen_TimerCode n; pen_TimerTimeStamp := pen_TimerTimeStamp n; pen_ConnectionSocketDescriptor := pen_ConnectionSocketDescriptor n; pen_ConnectionAssocID := pen_ConnectionAssocID n; pen_UserTransport := pen_UserTransport n; pen_RegistratorTransport := pen_RegistratorTransport n; pen_UserData := pen_UserData n; pen_LastKeepAliveTransmission := v; pen_Value := pen_Value n |}.

Definition poolElementNodeNew (identifier homeRegistrarIdentifier registrationLife : Z)
    (pps : PoolPolicySettings) (userTransport : TransportAddressBlock)
    (registratorTransport : option TransportAddressBlock)
    (connectionSocketDescriptor connectionAssocID : Z) : PoolElementNode :=
  {| pen_OwnerPoolNode := None;
     pen_Checksum := INITIAL_HANDLESPACE_CHECKSUM;
     pen_Identifier := identifier;
     pen_HomeRegistrarIdentifier := homeRegistrarIdentifier;
     pen_RegistrationLife := registrationLife;
     pen_PolicySettings := pps;
     pen_Flags := 0;
     pen_SeqNumber := 0;
     pen_RoundCounter := 0;
     pen_VirtualCounter := 0;
     pen_SelectionCounter := 0;
     pen_Degradation := 0;
     pen_UnreachabilityReports := 0;
     pen_LastUpdateTimeStamp := 0;
     pen_TimerTimeStamp := 0;
     pen_TimerCode := 0;
     pen_ConnectionSocketDescriptor := connectionSocketDescriptor;
     pen_ConnectionAssocID := connectionAssocID;
     pen_UserTransport := userTransport;
     pen_RegistratorTransport := registratorTransport;
     pen_UserData := 0;
     pen_LastKeepAliveTransmission := 0;
     pen_Value := 0 |}.

(** The assignments of [poolElementNodeDelete]; its CHECKs are part of the
    operation on the handlespace. *)
Definition poolElementNodeReset (n : PoolElementNode) : PoolElementNode :=
  {| pen_OwnerPoolNode := None;
     pen_Checksum := 0;
     pen_Identifier := pen_Identifier n;
     pen_HomeRegistrarIdentifier := pen_HomeRegistrarIdentifier n;
     pen_RegistrationLife := 0;
     pen_PolicySettings := poolPolicySettingsDelete (pen_PolicySettings n);
     pen_Flags := pen_Flags n;
     pen_SeqNumber := 0;
     pen_RoundCounter := 0;
     pen_VirtualCounter := 0;
     pen_SelectionCounter := 0;
     pen_Degradation := 0;
     pen_UnreachabilityReports := 0;
     pen_LastUpdateTimeStamp := 0;
     pen_TimerTimeStamp := 0;
     pen_TimerCode := 0;
     pen_ConnectionSocketDescriptor := -1;
     pen_ConnectionAssocID := 0;
     pen_UserTransport := pen_UserTransport n;
     pen_RegistratorTransport := pen_RegistratorTransport n;
     pen_UserData := pen_UserData n;
     pen_LastKeepAliveTransmission := pen_LastKeepAliveTransmission n;
     pen_Value := 0 |}.

(** The bytes of [htonl(identifier)] in memory. *)
Definition htonl_bytes (z : Z) : list Z :=
  [z / 16777216 mod 256; z / 65536 mod 256; z / 256 mod 256; z mod 256].

(** [h] is the handle of the owner pool. *)
Definition poolElementNodeComputeChecksum `{Endian} (h : PoolHandle) (n : PoolElementNode) : Z :=
  let checksum := handlespaceChecksumCompute INITIAL_HANDLESPACE_CHECKSUM
                    (take (Z.to_nat (ph_Size h)) (ph_Handle h)) in
  handlespaceChecksumCompute checksum (htonl_bytes (pen_Identifier n)).

(** The result tells whether the policy information has changed. *)
Definition poolElementNodeUpdate (n source : PoolElementNode) : bool * PoolElementNode :=
  let n := set_Flags (flag_clear (pen_Flags n) PENF_MARKED) n in
  if poolPolicySettingsComparison (pen_PolicySettings n) (pen_PolicySettings source) ||
     negb (pen_Degradation n =? 0) then
    let n := set_PolicySettings (pen_PolicySettings source) n in
    let n := set_Degradation 0 n in
    let n := if pps_Weight (pen_PolicySettings n) <? pen_VirtualCounter n
             then set_VirtualCounter (pps_Weight (pen_PolicySettings n)) n else n in
    (true, set_Flags (flag_set (pen_Flags n) PENF_UPDATED) n)
  else
    (false, set_Flags (flag_clear (pen_Flags n) PENF_UPDATED) n).

(** ** Comparison functions

    [h1], [h2] are the handles of the owner pools of [n1], [n2]. *)

Definition poolElementIndexStorageNodeComparison (n1 n2 : PoolElementNode) : Z :=
  if pen_Identifier n1 <? pen_Identifier n2 then -1
  else if pen_Identifier n2 <? pen_Identifier n1 then 1
  else 0.

Definition poolElementTimerStorageNodeComparison (h1 : PoolHandle) (n1 : PoolElementNode)
    (h2 : PoolHandle) (n2 : PoolElementNode) : Z :=
  if pen_TimerTimeStamp n1 <? pen_TimerTimeStamp n2 then -1
  else if pen_TimerTimeStamp n2 <? pen_TimerTimeStamp n1 then 1
  else if pen_Identifier n1 <? pen_Identifier n2 then -1
  else if pen_Identifier n2 <? pen_Identifier n1 then 1
  else poolHandleComparison h1 h2.

Definition poolElementOwnershipStorageNodeComparison (h1 : PoolHandle) (n1 : PoolElementNode)
    (h2 : PoolHandle) (n2 : PoolElementNode) : Z :=
  if pen_HomeRegistrarIdentifier n1 <? pen_HomeRegistrarIdentifier n2 then -1
  else if pen_HomeRegistrarIdentifier n2 <? pen_HomeRegistrarIdentifier n1 then 1
  else if pen_Identifier n1 <? pen_Identifier n2 then -1
  else if pen_Identifier n2 <? pen_Identifier n1 then 1
  else poolHandleComparison h1 h2.

Definition poolElementConnectionStorageNodeComparison (h1 : PoolHandle) (n1 : PoolElementNode)
    (h2 : PoolHandle) (n2 : PoolElementNode) : Z :=
  if pen_ConnectionSocketDescriptor n1 <? pen_ConnectionSocketDescriptor n2 then -1
  else if pen_ConnectionSocketDescriptor n2 <? pen_ConnectionSocketDescriptor n1 then 1
  else if pen_ConnectionAssocID n1 <? pen_ConnectionAssocID n2 then -1
  else if pen_ConnectionAssocID n2 <? pen_ConnectionAssocID n1 then 1
  else if pen_Identifier n1 <? pen_Identifier n2 then -1
  else if pen_Identifier n2 <? pen_Identifier n1 then 1
  else poolHandleComparison h1 h2.

(** The keys the comparison functions compare. *)
Definition indexKey (n : PoolElementNode) : list Z := [pen_Identifier n].

Definition timerKey (h : PoolHandle) (n : PoolElementNode) : list Z :=
  pen_TimerTimeStamp n :: pen_Identifier n :: handleKey h.

Definition ownershipKey (h : PoolHandle) (n : PoolElementNode) : list Z :=
  pen_HomeRegistrarIdentifier n :: pen_Identifier n :: handleKey h.

Definition connectionKey (h : PoolHandle) (n : PoolElementNode) : list Z :=
  pen_ConnectionSocketDescriptor n :: pen_ConnectionAssocID n :: pen_Identifier n :: handleKey h.

Lemma indexComparison_key n1 n2 :
  poolElementIndexStorageNodeComparison n1 n2 = lexcmp (indexKey n1) (indexKey n2).
Proof. done. Qed.

Lemma timerComparison_key h1 n1 h2 n2 :
  poolElementTimerStorageNodeComparison h1 n1 h2 n2 = lexcmp (timerKey h1 n1) (timerKey h2 n2).
Proof. done. Qed.

Lemma ownershipComparison_key h1 n1 h2 n2 :
  poolElementOwnershipStorageNodeComparison h1 n1 h2 n2 = lexcmp (ownershipKey h1 n1) (ownershipKey h2 n2).
Proof. done. Qed.

Lemma connectionComparison_key h1 n1 h2 n2 :
  poolElementConnectionStorageNodeComparison h1 n1 h2 n2 = lexcmp (connectionKey h1 n1) (connectionKey h2 n2).
Proof. done. Qed.

Lemma computeChecksum_width `{Endian} h n : is_u32 (poolElementNodeComputeChecksum h n).
Proof.
  unfold poolElementNodeComputeChecksum. apply compute_width, compute_width.
  apply (bool_decide_unpack _). by vm_compute.
Qed.

(** What a re-registration never changes. *)
Lemma poolElementNodeUpdate_frame n source b n' : poolElementNodeUpdate n source = (b, n') →
  pen_Identifier n' = pen_Identifier n ∧ pen_SeqNumber n' = pen_SeqNumber n ∧
  pen_OwnerPoolNode n' = pen_OwnerPoolNode n ∧ pen_Checksum n' = pen_Checksum n ∧
  pen_HomeRegistrarIdentifier n' = pen_HomeRegistrarIdentifier n ∧
  pen_TimerTimeStamp n' = pen_TimerTimeStamp n ∧
  pen_ConnectionSocketDescriptor n' = pen_ConnectionSocketDescriptor n ∧
  pen_ConnectionAssocID n' = pen_ConnectionAssocID n ∧ pen_Value n' = pen_Value n ∧
  pen_UserTransport n' = pen_UserTransport n ∧
  pen_RegistratorTransport n' = pen_RegistratorTransport n ∧
  pen_RoundCounter n' = pen_RoundCounter n.
Proof.
  unfold poolElementNodeUpdate. destruct (_ || _); [|by intros [= <- <-]].
  destruct (_ <? _); by intros [= <- <-].
Qed.
