(* ===== verification/PoolPolicy.v ===== *)
(** * Pool policies (poolpolicy-template.h, poolpolicy-template_impl.h)

    The comparison and update functions of the 18 policies, their table
    [PoolPolicyArray] and its lookups.  The selection functions, which work
    on a pool, are in PoolSelection; a policy names them by [SelectBy...].

    The distance-penalty policies compute with [double]: [spec_float] with
    53 bits of precision, the IEEE 754 binary64 of the Standard Library.

    The last part states what the handlespace needs from a policy: its
    comparison is the lexicographic comparison of a list of keys that ends
    in the sequence number, or consists of the identifier. *)

From S2P Require Import Prelude Checksum Addresses PoolBasics Storage PoolElement.
From stdpp Require Import base list numbers option strings.
From Stdlib Require Import SpecFloat.
#[local] Open Scope Z_scope.

(** ** Arithmetic *)

(** [long long] sums of three [unsigned int]s cannot overflow. *)
Definition getSum (v1 v2 v3 : Z) : Z :=
  let v := v1 + v2 + v3 in
  u32 (if v <? 0 then 0 else if PPV_MAX_LOAD <? v then PPV_MAX_LOAD else v).

Definition getValueFraction (base v1 v2 v3 : Z) : Z :=
  let v := base - v1 - v2 - v3 in
  u64 (if v <? 1 then 1 else if PPV_MAX_WEIGHT <? v then PPV_MAX_WEIGHT else v).

Definition double_of_uint (z : Z) : spec_float := binary_normalize 53 1024 z 0 false.
Definition double_mul : spec_float → spec_float → spec_float := SFmul 53 1024.
Definition double_div : spec_float → spec_float → spec_float := SFdiv 53 1024.
Definition double_add : spec_float → spec_float → spec_float := SFadd 53 1024.

(** [rint] in the default rounding mode (to nearest, ties to even),
    followed by the conversion to an integer type.  A conversion that
    overflows the C type is undefined; the model keeps the exact value. *)
Definition rint (x : spec_float) : Z :=
  match x with
  | S754_finite s m e =>
      let r :=
        if 0 <=? e then Z.pos m * 2 ^ e
        else
          let d := 2 ^ (- e) in
          let q := Z.pos m / d in
          let r := Z.pos m mod d in
          if 2 * r <? d then q else if d <? 2 * r then q + 1 else if Z.even q then q else q + 1 in
      if s then - r else r
  | _ => 0
  end.

(** [distance * (dpf / max)] *)
Definition penaltyFactor (distance dpf max : Z) : spec_float :=
  double_mul (double_of_uint distance) (double_div (double_of_uint dpf) (double_of_uint max)).

Definition clampLoad (v : Z) : Z := if PPV_MAX_LOAD <? v then PPV_MAX_LOAD else v.

(** ** Comparison functions *)

Definition roundRobinComparison (n1 n2 : PoolElementNode) : Z :=
  COMPARE_KEY_ASCENDING (pen_SeqNumber n1) (pen_SeqNumber n2) 0.

Definition weightedRoundRobinComparison (n1 n2 : PoolElementNode) : Z :=
  COMPARE_KEY_ASCENDING (pen_RoundCounter n1) (pen_RoundCounter n2)
  (COMPARE_KEY_ASCENDING (pen_VirtualCounter n1) (pen_VirtualCounter n2)
  (COMPARE_KEY_ASCENDING (pen_SeqNumber n1) (pen_SeqNumber n2) 0)).

Definition randomComparison (n1 n2 : PoolElementNode) : Z :=
  COMPARE_KEY_ASCENDING (pen_Identifier n1) (pen_Identifier n2) 0.

Definition weightedRandomComparison (n1 n2 : PoolElementNode) : Z :=
  COMPARE_KEY_ASCENDING (pen_Identifier n1) (pen_Identifier n2) 0.

Definition weightedRandomDPFComparison (n1 n2 : PoolElementNode) : Z :=
  COMPARE_KEY_ASCENDING (pen_Identifier n1) (pen_Identifier n2) 0.

Definition priorityComparison (n1 n2 : PoolElementNode) : Z :=
  COMPARE_KEY_DESCENDING (pps_Weight (pen_PolicySettings n1)) (pps_Weight (pen_PolicySettings n2))
  (COMPARE_KEY_ASCENDING (pen_SeqNumber n1) (pen_SeqNumber n2) 0).

Definition leastUsedComparison (n1 n2 : PoolElementNode) : Z :=
  COMPARE_KEY_ASCENDING (pps_Load (pen_PolicySettings n1)) (pps_Load (pen_PolicySettings n2))
  (COMPARE_KEY_ASCENDING (pen_SeqNumber n1) (pen_SeqNumber n2) 0).

(** [dpf * PPV_MAX_LOAD] of one element. *)
Definition loadPenalty (n : PoolElementNode) (max : Z) : spec_float :=
  double_mul (penaltyFactor (pps_Distance (pen_PolicySettings n)) (pps_LoadDPF (pen_PolicySettings n)) PPV_MAX_LOADDPF)
    (double_of_uint max).

Definition leastUsedDPFComparison (n1 n2 : PoolElementNode) : Z :=
  let v1 := clampLoad (rint (double_add (double_of_uint (pps_Load (pen_PolicySettings n1)))
              (loadPenalty n1 PPV_MAX_LOAD))) in
  let v2 := clampLoad (rint (double_add (double_of_uint (pps_Load (pen_PolicySettings n2)))
              (loadPenalty n2 PPV_MAX_LOAD))) in
  COMPARE_KEY_ASCENDING v1 v2
  (COMPARE_KEY_ASCENDING (pen_SeqNumber n1) (pen_SeqNumber n2) 0).

Definition priorityLeastUsedDPFComparison (n1 n2 : PoolElementNode) : Z :=
  let v1 := clampLoad (rint (double_add
              (double_add (double_of_uint (pps_Load (pen_PolicySettings n1)))
                          (double_of_uint (pps_LoadDegradation (pen_PolicySettings n1))))
              (loadPenalty n1 PPV_MAX_LOAD))) in
  let v2 := clampLoad (rint (double_add
              (double_add (double_of_uint (pps_Load (pen_PolicySettings n2)))
                          (double_of_uint (pps_LoadDegradation (pen_PolicySettings n2))))
              (loadPenalty n2 PPV_MAX_LOAD))) in
  COMPARE_KEY_ASCENDING v1 v2
  (COMPARE_KEY_ASCENDING (pen_SeqNumber n1) (pen_SeqNumber n2) 0).

Definition leastUsedDegradationComparison (n1 n2 : PoolElementNode) : Z :=
  let v1 := getSum (pps_Load (pen_PolicySettings n1)) (pen_Degradation n1) 0 in
  let v2 := getSum (pps_Load (pen_PolicySettings n2)) (pen_Degradation n2) 0 in
  COMPARE_KEY_ASCENDING v1 v2
  (COMPARE_KEY_ASCENDING (pen_SeqNumber n1) (pen_SeqNumber n2) 0).

(** The first argument is scaled by [PPV_MAX_LOADDPF], the second by
    [PPV_MAX_LOAD]; the two constants are equal. *)
Definition leastUsedDegradationDPFComparison (n1 n2 : PoolElementNode) : Z :=
  let v1 := clampLoad (rint (double_add
              (double_add (double_of_uint (pps_Load (pen_PolicySettings n1)))
                          (double_of_uint (pen_Degradation n1)))
              (loadPenalty n1 PPV_MAX_LOADDPF))) in
  let v2 := clampLoad (rint (double_add
              (double_add (double_of_uint (pps_Load (pen_PolicySettings n2)))
                          (double_of_uint (pen_Degradation n2)))
              (loadPenalty n2 PPV_MAX_LOAD))) in
  COMPARE_KEY_ASCENDING v1 v2
  (COMPARE_KEY_ASCENDING (pen_SeqNumber n1) (pen_SeqNumber n2) 0).

Definition priorityLeastUsedComparison (n1 n2 : PoolElementNode) : Z :=
  let v1 := getSum (pps_Load (pen_PolicySettings n1)) (pps_LoadDegradation (pen_PolicySettings n1)) 0 in
  let v2 := getSum (pps_Load (pen_PolicySettings n2)) (pps_LoadDegradation (pen_PolicySettings n2)) 0 in
  COMPARE_KEY_ASCENDING v1 v2
  (COMPARE_KEY_ASCENDING (pen_SeqNumber n1) (pen_SeqNumber n2) 0).

Definition priorityLeastUsedDegradationComparison (n1 n2 : PoolElementNode) : Z :=
  let v1 := getSum (pps_Load (pen_PolicySettings n1)) (pps_LoadDegradation (pen_PolicySettings n1))
              (pen_Degradation n1) in
  let v2 := getSum (pps_Load (pen_PolicySettings n2)) (pps_LoadDegradation (pen_PolicySettings n2))
              (pen_Degradation n2) in
  COMPARE_KEY_ASCENDING v1 v2
  (COMPARE_KEY_ASCENDING (pen_SeqNumber n1) (pen_SeqNumber n2) 0).

Definition priorityLeastUsedDegradationDPFComparison (n1 n2 : PoolElementNode) : Z :=
  let v1 := clampLoad (rint (double_add
              (double_add
                (double_add (double_of_uint (pps_Load (pen_PolicySettings n1)))
                            (double_of_uint (pps_LoadDegradation (pen_PolicySettings n1))))
                (double_of_uint (pen_Degradation n1)))
              (loadPenalty n1 PPV_MAX_LOADDPF))) in
  let v2 := clampLoad (rint (double_add
              (double_add
                (double_add (double_of_uint (pps_Load (pen_PolicySettings n2)))
                            (double_of_uint (pps_LoadDegradation (pen_PolicySettings n2))))
                (double_of_uint (pen_Degradation n2)))
              (loadPenalty n2 PPV_MAX_LOAD))) in
  COMPARE_KEY_ASCENDING v1 v2
  (COMPARE_KEY_ASCENDING (pen_SeqNumber n1) (pen_SeqNumber n2) 0).

Definition randomizedLeastUsedComparison (n1 n2 : PoolElementNode) : Z :=
  COMPARE_KEY_ASCENDING (pen_Identifier n1) (pen_Identifier n2) 0.

Definition randomizedLeastUsedDegradationComparison (n1 n2 : PoolElementNode) : Z :=
  COMPARE_KEY_ASCENDING (pen_Identifier n1) (pen_Identifier n2) 0.

Definition randomizedPriorityLeastUsedComparison (n1 n2 : PoolElementNode) : Z :=
  COMPARE_KEY_ASCENDING (pen_Identifier n1) (pen_Identifier n2) 0.

Definition randomizedPriorityLeastUsedDegradationComparison (n1 n2 : PoolElementNode) : Z :=
  COMPARE_KEY_ASCENDING (pen_Identifier n1) (pen_Identifier n2) 0.

(** ** Update functions *)

Definition weightedRoundRobinUpdatePoolElementNode (n : PoolElementNode) : PoolElementNode :=
  if 1 <? pen_VirtualCounter n then
    set_VirtualCounter (u32 (pen_VirtualCounter n - 1)) n
  else
    set_VirtualCounter (pps_Weight (pen_PolicySettings n)) (set_RoundCounter (u32 (pen_RoundCounter n + 1)) n).

Definition randomUpdatePoolElementNode (n : PoolElementNode) : PoolElementNode := set_Value 1 n.

Definition weightedRandomUpdatePoolElementNode (n : PoolElementNode) : PoolElementNode :=
  set_Value (pps_Weight (pen_PolicySettings n)) n.

Definition weightedRandomDPFUpdatePoolElementNode (n : PoolElementNode) : PoolElementNode :=
  let dpf := penaltyFactor (pps_Distance (pen_PolicySettings n)) (pps_WeightDPF (pen_PolicySettings n))
               PPV_MAX_WEIGHTDPF in
  let value := pps_Weight (pen_PolicySettings n) -
               rint (double_mul (double_of_uint (pps_Weight (pen_PolicySettings n))) dpf) in
  let value := if value <? 0 then 1 else if PPV_MAX_WEIGHT <? value then PPV_MAX_WEIGHT else value in
  set_Value (u32 value) n.

Definition leastUsedDegradationUpdatePoolElementNode (n : PoolElementNode) : PoolElementNode :=
  set_Degradation (getSum (pen_Degradation n) (pps_LoadDegradation (pen_PolicySettings n)) 0) n.

Definition randomizedLeastUsedUpdatePoolElementNode (n : PoolElementNode) : PoolElementNode :=
  set_Value (getValueFraction PPV_MAX_LOAD (pps_Load (pen_PolicySettings n)) 0 0) n.

Definition randomizedLeastUsedDegradationUpdatePoolElementNode (n : PoolElementNode) : PoolElementNode :=
  set_Value (getValueFraction PPV_MAX_LOAD (pps_Load (pen_PolicySettings n)) (pen_Degradation n) 0) n.

Definition randomizedPriorityLeastUsedUpdatePoolElementNode (n : PoolElementNode) : PoolElementNode :=
  set_Value (getValueFraction PPV_MAX_LOAD (pps_Load (pen_PolicySettings n))
    (pps_LoadDegradation (pen_PolicySettings n)) 0) n.

Definition randomizedPriorityLeastUsedDegradationUpdatePoolElementNode (n : PoolElementNode) : PoolElementNode :=
  set_Value (getValueFraction PPV_MAX_LOAD (pps_Load (pen_PolicySettings n))
    (pps_LoadDegradation (pen_PolicySettings n)) (pen_Degradation n)) n.

(** ** The policy table *)

(** The functions a policy points to that work on the pool. *)
Inductive PolicySelection := SelectBySortingOrder | SelectByValueTree.
Inductive PolicyInitialize := InitializeNull | weightedRoundRobinInitialize.
Inductive PolicyPrepare := PrepareNull | weightedRoundRobinPrepare.

Record PoolPolicy := MkPoolPolicy {
  pp_Type : Z;
  pp_Name : string;
  pp_DefaultMaxIncrement : Z;
  pp_ComparisonFunction : PoolElementNode → PoolElementNode → Z;
  pp_SelectionFunction : PolicySelection;
  pp_InitializePoolElementNodeFunction : PolicyInitialize;
  pp_UpdatePoolElementNodeFunction : option (PoolElementNode → PoolElementNode);
  pp_PrepareSelectionFunction : PolicyPrepare
}.

Definition PoolPolicyArray : list PoolPolicy := [
  MkPoolPolicy PPT_ROUNDROBIN "RoundRobin" 1 roundRobinComparison
    SelectBySortingOrder InitializeNull None PrepareNull;
  MkPoolPolicy PPT_WEIGHTED_ROUNDROBIN "WeightedRoundRobin" 1 weightedRoundRobinComparison
    SelectBySortingOrder weightedRoundRobinInitialize (Some weightedRoundRobinUpdatePoolElementNode)
    weightedRoundRobinPrepare;
  MkPoolPolicy PPT_RANDOM "Random" 0 randomComparison
    SelectByValueTree InitializeNull (Some randomUpdatePoolElementNode) PrepareNull;
  MkPoolPolicy PPT_WEIGHTED_RANDOM "WeightedRandom" 0 weightedRandomComparison
    SelectByValueTree InitializeNull (Some weightedRandomUpdatePoolElementNode) PrepareNull;
  MkPoolPolicy PPT_WEIGHTED_RANDOM_DPF "WeightedRandomDPF" 0 weightedRandomDPFComparison
    SelectByValueTree InitializeNull (Some weightedRandomDPFUpdatePoolElementNode) PrepareNull;
  MkPoolPolicy PPT_PRIORITY "Priority" 1 priorityComparison
    SelectBySortingOrder InitializeNull None PrepareNull;
  MkPoolPolicy PPT_LEASTUSED "LeastUsed" 1 leastUsedComparison
    SelectBySortingOrder InitializeNull None PrepareNull;
  MkPoolPolicy PPT_LEASTUSED_DPF "LeastUsedDPF" 1 leastUsedDPFComparison
    SelectBySortingOrder InitializeNull None PrepareNull;
  MkPoolPolicy PPT_PRIORITY_LEASTUSED_DPF "PriorityLeastUsedDPF" 1 priorityLeastUsedDPFComparison
    SelectBySortingOrder InitializeNull None PrepareNull;
  MkPoolPolicy PPT_PRIORITY_LEASTUSED_DEGRADATION_DPF "PriorityLeastUsedDegradationDPF" 1
    priorityLeastUsedDegradationDPFComparison
    SelectBySortingOrder InitializeNull (Some leastUsedDegradationUpdatePoolElementNode) PrepareNull;
  MkPoolPolicy PPT_LEASTUSED_DEGRADATION "LeastUsedDegradation" 1 leastUsedDegradationComparison
    SelectBySortingOrder InitializeNull (Some leastUsedDegradationUpdatePoolElementNode) PrepareNull;
  MkPoolPolicy PPT_LEASTUSED_DEGRADATION_DPF "LeastUsedDegradationDPF" 1 leastUsedDegradationDPFComparison
    SelectBySortingOrder InitializeNull (Some leastUsedDegradationUpdatePoolElementNode) PrepareNull;
  MkPoolPolicy PPT_PRIORITY_LEASTUSED "PriorityLeastUsed" 1 priorityLeastUsedComparison
    SelectBySortingOrder InitializeNull None PrepareNull;
  MkPoolPolicy PPT_PRIORITY_LEASTUSED_DEGRADATION "PriorityLeastUsedDegradation" 1
    priorityLeastUsedDegradationComparison
    SelectBySortingOrder InitializeNull (Some leastUsedDegradationUpdatePoolElementNode) PrepareNull;
  MkPoolPolicy PPT_RANDOMIZED_LEASTUSED "RandomizedLeastUsed" 1 randomizedLeastUsedComparison
    SelectByValueTree InitializeNull (Some randomizedLeastUsedUpdatePoolElementNode) PrepareNull;
  MkPoolPolicy PPT_RANDOMIZED_LEASTUSED_DEGRADATION "RandomizedLeastUsedDegradation" 1
    randomizedLeastUsedDegradationComparison
    SelectByValueTree InitializeNull (Some randomizedLeastUsedDegradationUpdatePoolElementNode) PrepareNull;
  MkPoolPolicy PPT_RANDOMIZED_PRIORITY_LEASTUSED "RandomizedPriorityLeastUsed" 1
    randomizedPriorityLeastUsedComparison
    SelectByValueTree InitializeNull (Some randomizedPriorityLeastUsedUpdatePoolElementNode) PrepareNull;
  MkPoolPolicy PPT_RANDOMIZED_PRIORITY_LEASTUSED_DEGRADATION "RandomizedPriorityLeastUsedDegradation" 1
    randomizedPriorityLeastUsedDegradationComparison
    SelectByValueTree InitializeNull (Some randomizedPriorityLeastUsedDegradationUpdatePoolElementNode)
    PrepareNull
].

Definition poolPolicyGetPoolPolicyByName (policyName : string) : option PoolPolicy :=
  head (filter (λ pp, pp_Name pp = policyName) PoolPolicyArray).

Definition poolPolicyGetPoolPolicyByType (policyType : Z) : option PoolPolicy :=
  head (filter (λ pp, pp_Type pp = policyType) PoolPolicyArray).

(** ** What a policy promises *)

(** Widths of the C members. *)
Definition pen_wf (n : PoolElementNode) : Prop :=
  is_u32 (pen_Identifier n) ∧ is_u32 (pen_Checksum n) ∧ is_u32 (pen_HomeRegistrarIdentifier n) ∧
  pps_wf (pen_PolicySettings n) ∧ is_u32 (pen_SeqNumber n) ∧ is_u32 (pen_RoundCounter n) ∧
  is_u32 (pen_VirtualCounter n) ∧ is_u32 (pen_Degradation n) ∧ is_u32 (pen_Value n).

#[global] Instance pen_wf_dec n : Decision (pen_wf n).
Proof. unfold pen_wf. apply _. Defined.

(** An update function writes the policy's counters only. *)
Definition counters_changed (n n' : PoolElementNode) : Prop :=
  ∃ r c d v, n' = set_Value v (set_Degradation d (set_VirtualCounter c (set_RoundCounter r n))).

(** Does the comparison of this policy end with the sequence number? *)
Definition policyBySeq (t : Z) : bool :=
  bool_decide (t ∈ [PPT_ROUNDROBIN; PPT_WEIGHTED_ROUNDROBIN; PPT_PRIORITY; PPT_LEASTUSED; PPT_LEASTUSED_DPF;
    PPT_PRIORITY_LEASTUSED_DPF; PPT_PRIORITY_LEASTUSED_DEGRADATION_DPF; PPT_LEASTUSED_DEGRADATION;
    PPT_LEASTUSED_DEGRADATION_DPF; PPT_PRIORITY_LEASTUSED; PPT_PRIORITY_LEASTUSED_DEGRADATION]).

(** The keys before the sequence number. *)
Definition policyPrefix (t : Z) (n : PoolElementNode) : list Z :=
  let load := pps_Load (pen_PolicySettings n) in
  let ldeg := pps_LoadDegradation (pen_PolicySettings n) in
  if t =? PPT_WEIGHTED_ROUNDROBIN then [pen_RoundCounter n; pen_VirtualCounter n]
  else if t =? PPT_PRIORITY then [- pps_Weight (pen_PolicySettings n)]
  else if t =? PPT_LEASTUSED then [load]
  else if t =? PPT_LEASTUSED_DPF then
    [clampLoad (rint (double_add (double_of_uint load) (loadPenalty n PPV_MAX_LOAD)))]
  else if t =? PPT_PRIORITY_LEASTUSED_DPF then
    [clampLoad (rint (double_add (double_add (double_of_uint load) (double_of_uint ldeg))
       (loadPenalty n PPV_MAX_LOAD)))]
  else if t =? PPT_PRIORITY_LEASTUSED_DEGRADATION_DPF then
    [clampLoad (rint (double_add (double_add (double_add (double_of_uint load) (double_of_uint ldeg))
       (double_of_uint (pen_Degradation n))) (loadPenalty n PPV_MAX_LOAD)))]
  else if t =? PPT_LEASTUSED_DEGRADATION then [getSum load (pen_Degradation n) 0]
  else if t =? PPT_LEASTUSED_DEGRADATION_DPF then
    [clampLoad (rint (double_add (double_add (double_of_uint load) (double_of_uint (pen_Degradation n)))
       (loadPenalty n PPV_MAX_LOAD)))]
  else if t =? PPT_PRIORITY_LEASTUSED then [getSum load ldeg 0]
  else if t =? PPT_PRIORITY_LEASTUSED_DEGRADATION then [getSum load ldeg (pen_Degradation n)]
  else [].

Definition policyKey (t : Z) (n : PoolElementNode) : list Z :=
  if policyBySeq t then policyPrefix t n ++ [pen_SeqNumber n] else [pen_Identifier n].

Class PolicyLaws (pp : PoolPolicy) : Prop := {
  pl_cmp n1 n2 : pp_ComparisonFunction pp n1 n2 = lexcmp (policyKey (pp_Type pp) n1) (policyKey (pp_Type pp) n2);
  pl_update f n : pp_UpdatePoolElementNodeFunction pp = Some f → pen_wf n →
    counters_changed n (f n) ∧ pen_wf (f n);
  pl_valuetree : pp_SelectionFunction pp = SelectByValueTree → policyBySeq (pp_Type pp) = false;
  pl_prepare : pp_PrepareSelectionFunction pp = weightedRoundRobinPrepare → pp_Type pp = PPT_WEIGHTED_ROUNDROBIN
}.

Lemma getSum_width a b c : is_u32 (getSum a b c).
Proof. apply wrap_in_width. lia. Qed.

Lemma getSum_spec a b c : is_u32 a → is_u32 b → is_u32 c →
  getSum a b c = Z.min (a + b + c) PPV_MAX_LOAD.
Proof.
  unfold in_width, getSum, PPV_MAX_LOAD. change (2 ^ 32) with 4294967296. intros Ha Hb Hc.
  destruct (Z.ltb_spec (a + b + c) 0); [lia|].
  destruct (Z.ltb_spec 0xffffffff (a + b + c)); rewrite wrap_small; unfold in_width; lia.
Qed.

Lemma getValueFraction_spec base a b c : is_u32 base → is_u32 a → is_u32 b → is_u32 c →
  getValueFraction base a b c = Z.max 1 (base - a - b - c) ∧ is_u32 (getValueFraction base a b c).
Proof.
  unfold in_width, getValueFraction, PPV_MAX_WEIGHT. change (2 ^ 32) with 4294967296. intros Hbase Ha Hb Hc.
  destruct (Z.ltb_spec (base - a - b - c) 1).
  - rewrite wrap_small; unfold in_width; lia.
  - destruct (Z.ltb_spec 0xffffffff (base - a - b - c)); [lia|]. rewrite wrap_small; unfold in_width; lia.
Qed.

Lemma compare_asc_end a b : COMPARE_KEY_ASCENDING a b 0 = lexcmp [a] [b].
Proof. done. Qed.

Lemma counters_changed_eq n n' :
  n' = set_Value (pen_Value n') (set_Degradation (pen_Degradation n')
         (set_VirtualCounter (pen_VirtualCounter n') (set_RoundCounter (pen_RoundCounter n') n))) →
  counters_changed n n'.
Proof. intros Heq. by do 4 eexists. Qed.

Lemma counters_changed_value v n : counters_changed n (set_Value v n).
Proof. apply counters_changed_eq. by destruct n. Qed.

Lemma counters_changed_degradation d n : counters_changed n (set_Degradation d n).
Proof. apply counters_changed_eq. by destruct n. Qed.

Lemma counters_changed_refl n : counters_changed n n.
Proof. apply counters_changed_eq. by destruct n. Qed.

Lemma counters_changed_trans n1 n2 n3 : counters_changed n1 n2 → counters_changed n2 n3 → counters_changed n1 n3.
Proof. intros (r & c & d & v & ->) (r' & c' & d' & v' & ->). apply counters_changed_eq. by destruct n1. Qed.

Lemma pen_wf_set_value v n : pen_wf n → is_u32 v → pen_wf (set_Value v n).
Proof. unfold pen_wf. simpl. tauto. Qed.

Lemma pen_wf_set_degradation v n : pen_wf n → is_u32 v → pen_wf (set_Degradation v n).
Proof. unfold pen_wf. simpl. tauto. Qed.

Lemma u32_const z : (0 <=? z) && (z <? 4294967296) = true → is_u32 z.
Proof. intros [H1%Z.leb_le H2%Z.ltb_lt]%andb_true_iff. unfold in_width. lia. Qed.

Lemma pen_wf_pps n : pen_wf n → pps_wf (pen_PolicySettings n).
Proof. unfold pen_wf. tauto. Qed.

Lemma pen_wf_degradation n : pen_wf n → is_u32 (pen_Degradation n).
Proof. unfold pen_wf. tauto. Qed.

Lemma wrr_update_ok n : pen_wf n → counters_changed n (weightedRoundRobinUpdatePoolElementNode n) ∧
  pen_wf (weightedRoundRobinUpdatePoolElementNode n).
Proof.
  intros Hwf. unfold weightedRoundRobinUpdatePoolElementNode. destruct (1 <? _).
  - split; [apply counters_changed_eq; by destruct n|].
    pose proof (wrap_in_width 32 (pen_VirtualCounter n - 1) ltac:(lia)). unfold pen_wf in *. simpl. tauto.
  - split; [apply counters_changed_eq; by destruct n|].
    pose proof (wrap_in_width 32 (pen_RoundCounter n + 1) ltac:(lia)).
    unfold pen_wf, pps_wf in *. simpl. tauto.
Qed.

Lemma degradation_update_ok n : pen_wf n → counters_changed n (leastUsedDegradationUpdatePoolElementNode n) ∧
  pen_wf (leastUsedDegradationUpdatePoolElementNode n).
Proof.
  intros Hwf. split; [apply counters_changed_degradation|]. apply pen_wf_set_degradation; [done|apply getSum_width].
Qed.

Lemma fraction_update_ok n a b c : pen_wf n → is_u32 a → is_u32 b → is_u32 c →
  counters_changed n (set_Value (getValueFraction PPV_MAX_LOAD a b c) n) ∧
  pen_wf (set_Value (getValueFraction PPV_MAX_LOAD a b c) n).
Proof.
  intros Hwf Ha Hb Hc. split; [apply counters_changed_value|]. apply pen_wf_set_value; [done|].
  apply getValueFraction_spec; [by apply u32_const|done..].
Qed.

Lemma value_update_ok n v : pen_wf n → is_u32 v →
  counters_changed n (set_Value v n) ∧ pen_wf (set_Value v n).
Proof. intros. split; [apply counters_changed_value|by apply pen_wf_set_value]. Qed.

Create HintDb policy discriminated.
#[export] Hint Resolve wrr_update_ok degradation_update_ok fraction_update_ok value_update_ok
  pen_wf_degradation wrap_in_width : policy.

Lemma policy_cmp_lexcmp pp n1 n2 : pp ∈ PoolPolicyArray →
  pp_ComparisonFunction pp n1 n2 = lexcmp (policyKey (pp_Type pp) n1) (policyKey (pp_Type pp) n2).
Proof.
  unfold PoolPolicyArray. intros Hpp.
  repeat (apply elem_of_cons in Hpp as [->|Hpp]; [first [reflexivity | exact (compare_desc_lexcmp _ _ [_] [_])]|]).
  by apply not_elem_of_nil in Hpp.
Qed.

Lemma policy_update_ok pp f n : pp ∈ PoolPolicyArray → pp_UpdatePoolElementNodeFunction pp = Some f →
  pen_wf n → counters_changed n (f n) ∧ pen_wf (f n).
Proof.
  unfold PoolPolicyArray. intros Hpp Hf Hwf.
  pose proof (pen_wf_pps n Hwf) as (? & ? & ? & ? & ?). pose proof (pen_wf_degradation n Hwf).
  assert (is_u32 0) by by apply u32_const. assert (is_u32 1) by by apply u32_const.
  repeat (apply elem_of_cons in Hpp as [->|Hpp];
    [simpl in Hf; first [discriminate Hf | injection Hf as <-;
       first [by apply wrr_update_ok | by apply degradation_update_ok | by apply fraction_update_ok |
              by apply value_update_ok | apply value_update_ok; [done|by apply wrap_in_width]]] |]).
  by apply not_elem_of_nil in Hpp.
Qed.

#[global] Instance policy_lawful pp : pp ∈ PoolPolicyArray → PolicyLaws pp.
Proof.
  intros Hpp. constructor.
  - intros n1 n2. by apply policy_cmp_lexcmp.
  - intros f n. by apply policy_update_ok.
  - unfold PoolPolicyArray in Hpp.
    repeat (apply elem_of_cons in Hpp as [->|Hpp]; [done|]). by apply not_elem_of_nil in Hpp.
  - unfold PoolPolicyArray in Hpp.
    repeat (apply elem_of_cons in Hpp as [->|Hpp]; [done|]). by apply not_elem_of_nil in Hpp.
Qed.

Lemma poolPolicyGetPoolPolicyByType_Some t pp : poolPolicyGetPoolPolicyByType t = Some pp →
  pp ∈ PoolPolicyArray ∧ pp_Type pp = t.
Proof.
  unfold poolPolicyGetPoolPolicyByType. intros Hf.
  destruct (filter _ PoolPolicyArray) as [|x f] eqn:E; simpl in Hf; [done|]. injection Hf as ->.
  assert (pp ∈ filter (λ pp, pp_Type pp = t) PoolPolicyArray) as Hin by (rewrite E; left).
  apply list_elem_of_filter in Hin. tauto.
Qed.

(** Key lists of one policy have one length. *)
Lemma policyPrefix_length t n1 n2 : length (policyPrefix t n1) = length (policyPrefix t n2).
Proof. unfold policyPrefix. repeat (case_match; [done|]). done. Qed.

(** The prefix is a function of the settings and counters. *)
Lemma policyPrefix_ext t n1 n2 : pen_PolicySettings n1 = pen_PolicySettings n2 →
  pen_RoundCounter n1 = pen_RoundCounter n2 → pen_VirtualCounter n1 = pen_VirtualCounter n2 →
  pen_Degradation n1 = pen_Degradation n2 → policyPrefix t n1 = policyPrefix t n2.
Proof. unfold policyPrefix, loadPenalty. intros -> -> -> ->. done. Qed.

Lemma policyKey_ext t n1 n2 : pen_PolicySettings n1 = pen_PolicySettings n2 →
  pen_RoundCounter n1 = pen_RoundCounter n2 → pen_VirtualCounter n1 = pen_VirtualCounter n2 →
  pen_Degradation n1 = pen_Degradation n2 → pen_SeqNumber n1 = pen_SeqNumber n2 →
  pen_Identifier n1 = pen_Identifier n2 → policyKey t n1 = policyKey t n2.
Proof.
  intros H1 H2 H3 H4 H5 H6. unfold policyKey. rewrite H5, H6.
  by rewrite (policyPrefix_ext t n1 n2).
Qed.

(** Two elements with one key have the sequence number or the identifier in
    common. *)
Lemma policyKey_inj t n1 n2 : policyKey t n1 = policyKey t n2 →
  if policyBySeq t then pen_SeqNumber n1 = pen_SeqNumber n2 else pen_Identifier n1 = pen_Identifier n2.
Proof.
  unfold policyKey. destruct (policyBySeq t).
  - intros Heq. apply app_inj_1 in Heq as [_ Heq]; [by injection Heq|apply policyPrefix_length].
  - by intros [= ->].
Qed.
