(* ===== verification/HandlespaceState.v ===== *)
(** * The state of a handlespace (poolnode-template.h, poolhandlespacenode-template.h)

    Pool elements and pools are heap objects ([ptr] to record); a
    handlespace is the heap with the four storages and the counters of
    [struct PoolHandlespaceNode].  A [slot] names one of the storages
    together with the comparison function it was created with; the
    operations of a storage run through its slot, so that comparison
    functions read the heap of the moment.

    [slot_inv] is the invariant of a storage, and the lemmas at the end
    show what insertion, removal and search do to a storage that has it. *)

From S2P Require Import Prelude Checksum Addresses PoolBasics Storage PoolElement PoolPolicy.
From stdpp Require Import base list gmap numbers option sorting sets.
#[local] Open Scope Z_scope.

Definition PNF_CONTROLCHANNEL : Z := 1.

Record PoolNode {ST : Type} := MkPoolNode {
  pn_PoolElementSelectionStorage : ST;
  pn_PoolElementIndexStorage : ST;
  pn_OwnerPoolHandlespaceNode : bool;
  pn_Handle : PoolHandle;
  pn_Policy : PoolPolicy;
  pn_Protocol : Z;
  pn_Flags : Z;
  pn_GlobalSeqNumber : Z;
  pn_UserData : Z
}.
Arguments PoolNode : clear implicits.

Inductive PoolNodeUpdateAction := PNUA_Create | PNUA_Delete | PNUA_Update.

(** A call of [PoolNodeUpdateNotification]: the element, the action, the
    checksum and home registrar before the update, and those after it. *)
Record Notification := MkNotification {
  nf_Element : ptr;
  nf_Action : PoolNodeUpdateAction;
  nf_PreUpdateChecksum : Z;
  nf_PreUpdateHomeRegistrar : Z;
  nf_Checksum : Z;
  nf_HomeRegistrar : Z
}.

Record Handlespace {ST : Type} := MkHandlespace {
  hs_PoolElementNodes : gmap ptr PoolElementNode;
  hs_PoolNodes : gmap ptr (PoolNode ST);
  hs_PoolIndexStorage : ST;
  hs_PoolElementTimerStorage : ST;
  hs_PoolElementConnectionStorage : ST;
  hs_PoolElementOwnershipStorage : ST;
  hs_HandlespaceChecksum : Z;
  hs_OwnershipChecksum : Z;
  hs_HomeRegistrarIdentifier : Z;
  hs_PoolElements : Z;
  hs_OwnedPoolElements : Z;
  hs_PoolNodeUpdateNotification : bool;
  hs_Notifications : list Notification
}.
Arguments Handlespace : clear implicits.

Section setters.
Context {ST : Type}.

Definition pn_set_PoolElementSelectionStorage (v : ST) (n : PoolNode ST) : PoolNode ST :=
  {| pn_PoolElementSelectionStorage := v; pn_PoolElementIndexStorage := pn_PoolElementIndexStorage n; pn_OwnerPoolHandlespaceNode := pn_OwnerPoolHandlespaceNode n; pn_Handle := pn_Handle n; pn_Policy := pn_Policy n; pn_Protocol := pn_Protocol n; pn_Flags := pn_Flags n; pn_GlobalSeqNumber := pn_GlobalSeqNumber n; pn_UserData := pn_UserData n |}.

Definition pn_set_PoolElementIndexStorage (v : ST) (n : PoolNode ST) : PoolNode ST :=
  {| pn_PoolElementSelectionStorage := pn_PoolElementSelectionStorage n; pn_PoolElementIndexStorage := v; pn_OwnerPoolHandlespaceNode := pn_OwnerPoolHandlespaceNode n; pn_Handle := pn_Handle n; pn_Policy := pn_Policy n; pn_Protocol := pn_Protocol n; pn_Flags := pn_Flags n; pn_GlobalSeqNumber := pn_GlobalSeqNumber n; pn_UserData := pn_UserData n |}.

Definition pn_set_OwnerPoolHandlespaceNode (v : bool) (n : PoolNode ST) : PoolNode ST :=
  {| pn_PoolElementSelectionStorage := pn_PoolElementSelectionStorage n; pn_PoolElementIndexStorage := pn_PoolElementIndexStorage n; pn_OwnerPoolHandlespaceNode := v; pn_Handle := pn_Handle n; pn_Policy := pn_Policy n; pn_Protocol := pn_Protocol n; pn_Flags := pn_Flags n; pn_GlobalSeqNumber := pn_GlobalSeqNumber n; pn_UserData := pn_UserData n |}.

Definition pn_set_GlobalSeqNumber (v : Z) (n : PoolNode ST) : PoolNode ST :=
  {| pn_PoolElementSelectionStorage := pn_PoolElementSelectionStorage n; pn_PoolElementIndexStorage := pn_PoolElementIndexStorage n; pn_OwnerPoolHandlespaceNode := pn_OwnerPoolHandlespaceNode n; pn_Handle := pn_Handle n; pn_Policy := pn_Policy n; pn_Protocol := pn_Protocol n; pn_Flags := pn_Flags n; pn_GlobalSeqNumber := v; pn_UserData := pn_UserData n |}.

Definition hs_set_PoolElementNodes (v : gmap ptr PoolElementNode) (st : Handlespace ST) : Handlespace ST :=
  {| hs_PoolElementNodes := v; hs_PoolNodes := hs_PoolNodes st; hs_PoolIndexStorage := hs_PoolIndexStorage st; hs_PoolElementTimerStorage := hs_PoolElementTimerStorage st; hs_PoolElementConnectionStorage := hs_PoolElementConnectionStorage st; hs_PoolElementOwnershipStorage := hs_PoolElementOwnershipStorage st; hs_HandlespaceChecksum := hs_HandlespaceChecksum st; hs_OwnershipChecksum := hs_OwnershipChecksum st; hs_HomeRegistrarIdentifier := hs_HomeRegistrarIdentifier st; hs_PoolElements := hs_PoolElements st; hs_OwnedPoolElements := hs_OwnedPoolElements st; hs_PoolNodeUpdateNotification := hs_PoolNodeUpdateNotification st; hs_Notifications := hs_Notifications st |}.

Definition hs_set_PoolNodes (v : gmap ptr (PoolNode ST)) (st : Handlespace ST) : Handlespace ST :=
  {| hs_PoolElementNodes := hs_PoolElementNodes st; hs_PoolNodes := v; hs_PoolIndexStorage := hs_PoolIndexStorage st; hs_PoolElementTimerStorage := hs_PoolElementTimerStorage st; hs_PoolElementConnectionStorage := hs_PoolElementConnectionStorage st; hs_PoolElementOwnershipStorage := hs_PoolElementOwnershipStorage st; hs_HandlespaceChecksum := hs_HandlespaceChecksum st; hs_OwnershipChecksum := hs_OwnershipChecksum st; hs_HomeRegistrarIdentifier := hs_HomeRegistrarIdentifier st; hs_PoolElements := hs_PoolElements st; hs_OwnedPoolElements := hs_OwnedPoolElements st; hs_PoolNodeUpdateNotification := hs_PoolNodeUpdateNotification st; hs_Notifications := hs_Notifications st |}.

Definition hs_set_PoolIndexStorage (v : ST) (st : Handlespace ST) : Handlespace ST :=
  {| hs_PoolElementNodes := hs_PoolElementNodes st; hs_PoolNodes := hs_PoolNodes st; hs_PoolIndexStorage := v; hs_PoolElementTimerStorage := hs_PoolElementTimerStorage st; hs_PoolElementConnectionStorage := hs_PoolElementConnectionStorage st; hs_PoolElementOwnershipStorage := hs_PoolElementOwnershipStorage st; hs_HandlespaceChecksum := hs_HandlespaceChecksum st; hs_OwnershipChecksum := hs_OwnershipChecksum st; hs_HomeRegistrarIdentifier := hs_HomeRegistrarIdentifier st; hs_PoolElements := hs_PoolElements st; hs_OwnedPoolElements := hs_OwnedPoolElements st; hs_PoolNodeUpdateNotification := hs_PoolNodeUpdateNotification st; hs_Notifications := hs_Notifications st |}.

Definition hs_set_PoolElementTimerStorage (v : ST) (st : Handlespace ST) : Handlespace ST :=
  {| hs_PoolElementNodes := hs_PoolElementNodes st; hs_PoolNodes := hs_PoolNodes st; hs_PoolIndexStorage := hs_PoolIndexStorage st; hs_PoolElementTimerStorage := v; hs_PoolElementConnectionStorage := hs_PoolElementConnectionStorage st; hs_PoolElementOwnershipStorage := hs_PoolElementOwnershipStorage st; hs_HandlespaceChecksum := hs_HandlespaceChecksum st; hs_OwnershipChecksum := hs_OwnershipChecksum st; hs_HomeRegistrarIdentifier := hs_HomeRegistrarIdentifier st; hs_PoolElements := hs_PoolElements st; hs_OwnedPoolElements := hs_OwnedPoolElements st; hs_PoolNodeUpdateNotification := hs_PoolNodeUpdateNotification st; hs_Notifications := hs_Notifications st |}.

Definition hs_set_PoolElementConnectionStorage (v : ST) (st : Handlespace ST) : Handlespace ST :=
  {| hs_PoolElementNodes := hs_PoolElementNodes st; hs_PoolNodes := hs_PoolNodes st; hs_PoolIndexStorage := hs_PoolIndexStorage st; hs_PoolElementTimerStorage := hs_PoolElementTimerStorage st; hs_PoolElementConnectionStorage := v; hs_PoolElementOwnershipStorage := hs_PoolElementOwnershipStorage st; hs_HandlespaceChecksum := hs_HandlespaceChecksum st; hs_OwnershipChecksum := hs_OwnershipChecksum st; hs_HomeRegistrarIdentifier := hs_HomeRegistrarIdentifier st; hs_PoolElements := hs_PoolElements st; hs_OwnedPoolElements := hs_OwnedPoolElements st; hs_PoolNodeUpdateNotification := hs_PoolNodeUpdateNotification st; hs_Notifications := hs_Notifications st |}.

Definition hs_set_PoolElementOwnershipStorage (v : ST) (st : Handlespace ST) : Handlespace ST :=
  {| hs_PoolElementNodes := hs_PoolElementNodes st; hs_PoolNodes := hs_PoolNodes st; hs_PoolIndexStorage := hs_PoolIndexStorage st; hs_PoolElementTimerStorage := hs_PoolElementTimerStorage st; hs_PoolElementConnectionStorage := hs_PoolElementConnectionStorage st; hs_PoolElementOwnershipStorage := v; hs_HandlespaceChecksum := hs_HandlespaceChecksum st; hs_OwnershipChecksum := hs_OwnershipChecksum st; hs_HomeRegistrarIdentifier := hs_HomeRegistrarIdentifier st; hs_PoolElements := hs_PoolElements st; hs_OwnedPoolElements := hs_OwnedPoolElements st; hs_PoolNodeUpdateNotification := hs_PoolNodeUpdateNotification st; hs_Notifications := hs_Notifications st |}.

Definition hs_set_HandlespaceChecksum (v : Z) (st : Handlespace ST) : Handlespace ST :=
  {| hs_PoolElementNodes := hs_PoolElementNodes st; hs_PoolNodes := hs_PoolNodes st; hs_PoolIndexStorage := hs_PoolIndexStorage st; hs_PoolElementTimerStorage := hs_PoolElementTimerStorage st; hs_PoolElementConnectionStorage := hs_PoolElementConnectionStorage st; hs_PoolElementOwnershipStorage := hs_PoolElementOwnershipStorage st; hs_HandlespaceChecksum := v; hs_OwnershipChecksum := hs_OwnershipChecksum st; hs_HomeRegistrarIdentifier := hs_HomeRegistrarIdentifier st; hs_PoolElements := hs_PoolElements st; hs_OwnedPoolElements := hs_OwnedPoolElements st; hs_PoolNodeUpdateNotification := hs_PoolNodeUpdateNotification st; hs_Notifications := hs_Notifications st |}.

Definition hs_set_OwnershipChecksum (v : Z) (st : Handlespace ST) : Handlespace ST :=
  {| hs_PoolElementNodes := hs_PoolElementNodes st; hs_PoolNodes := hs_PoolNodes st; hs_PoolIndexStorage := hs_PoolIndexStorage st; hs_PoolElementTimerStorage := hs_PoolElementTimerStorage st; hs_PoolElementConnectionStorage := hs_PoolElementConnectionStorage st; hs_PoolElementOwnershipStorage := hs_PoolElementOwnershipStorage st; hs_HandlespaceChecksum := hs_HandlespaceChecksum st; hs_OwnershipChecksum := v; hs_HomeRegistrarIdentifier := hs_HomeRegistrarIdentifier st; hs_PoolElements := hs_PoolElements st; hs_OwnedPoolElements := hs_OwnedPoolElements st; hs_PoolNodeUpdateNotification := hs_PoolNodeUpdateNotification st; hs_Notifications := hs_Notifications st |}.

Definition hs_set_PoolElements (v : Z) (st : Handlespace ST) : Handlespace ST :=
  {| hs_PoolElementNodes := hs_PoolElementNodes st; hs_PoolNodes := hs_PoolNodes st; hs_PoolIndexStorage := hs_PoolIndexStorage st; hs_PoolElementTimerStorage := hs_PoolElementTimerStorage st; hs_PoolElementConnectionStorage := hs_PoolElementConnectionStorage st; hs_PoolElementOwnershipStorage := hs_PoolElementOwnershipStorage st; hs_HandlespaceChecksum := hs_HandlespaceChecksum st; hs_OwnershipChecksum := hs_OwnershipChecksum st; hs_HomeRegistrarIdentifier := hs_HomeRegistrarIdentifier st; hs_PoolElements := v; hs_OwnedPoolElements := hs_OwnedPoolElements st; hs_PoolNodeUpdateNotification := hs_PoolNodeUpdateNotification st; hs_Notifications := hs_Notifications st |}.

Definition hs_set_OwnedPoolElements (v : Z) (st : Handlespace ST) : Handlespace ST :=
  {| hs_PoolElementNodes := hs_PoolElementNodes st; hs_PoolNodes := hs_PoolNodes st; hs_PoolIndexStorage := hs_PoolIndexStorage st; hs_PoolElementTimerStorage := hs_PoolElementTimerStorage st; hs_PoolElementConnectionStorage := hs_PoolElementConnectionStorage st; hs_PoolElementOwnershipStorage := hs_PoolElementOwnershipStorage st; hs_HandlespaceChecksum := hs_HandlespaceChecksum st; hs_OwnershipChecksum := hs_OwnershipChecksum st; hs_HomeRegistrarIdentifier := hs_HomeRegistrarIdentifier st; hs_PoolElements := hs_PoolElements st; hs_OwnedPoolElements := v; hs_PoolNodeUpdateNotification := hs_PoolNodeUpdateNotification st; hs_Notifications := hs_Notifications st |}.

Definition hs_set_Notifications (v : list Notification) (st : Handlespace ST) : Handlespace ST :=
  {| hs_PoolElementNodes := hs_PoolElementNodes st; hs_PoolNodes := hs_PoolNodes st; hs_PoolIndexStorage := hs_PoolIndexStorage st; hs_PoolElementTimerStorage := hs_PoolElementTimerStorage st; hs_PoolElementConnectionStorage := hs_PoolElementConnectionStorage st; hs_PoolElementOwnershipStorage := hs_PoolElementOwnershipStorage st; hs_HandlespaceChecksum := hs_HandlespaceChecksum st; hs_OwnershipChecksum := hs_OwnershipChecksum st; hs_HomeRegistrarIdentifier := hs_HomeRegistrarIdentifier st; hs_PoolElements := hs_PoolElements st; hs_OwnedPoolElements := hs_OwnedPoolElements st; hs_PoolNodeUpdateNotification := hs_PoolNodeUpdateNotification st; hs_Notifications := v |}.

End setters.

(** ** Heap access *)

Section heap.
Context {ST : Type}.
Abbreviation HS := (Handlespace ST).

Definition pe_get (p : ptr) : M HS PoolElementNode := deref (λ st, hs_PoolElementNodes st !! p).
Definition pool_get (pp : ptr) : M HS (PoolNode ST) := deref (λ st, hs_PoolNodes st !! pp).

Definition pe_store (p : ptr) (n : PoolElementNode) (st : HS) : HS :=
  hs_set_PoolElementNodes (<[p := n]> (hs_PoolElementNodes st)) st.
Definition pool_store (pp : ptr) (pn : PoolNode ST) (st : HS) : HS :=
  hs_set_PoolNodes (<[pp := pn]> (hs_PoolNodes st)) st.

(** Assignments through a pointer. *)
Definition pe_update (p : ptr) (f : PoolElementNode → PoolElementNode) : M HS () :=
  n ← pe_get p; modify (pe_store p (f n)).
Definition pool_update (pp : ptr) (f : PoolNode ST → PoolNode ST) : M HS () :=
  pn ← pool_get pp; modify (pool_store pp (f pn)).

(** The handle of the pool an element belongs to. *)
Definition owner_handle (st : HS) (n : PoolElementNode) : option PoolHandle :=
  pp ← pen_OwnerPoolNode n; pn ← hs_PoolNodes st !! pp; Some (pn_Handle pn).
End heap.

(** ** Slots *)

Inductive slot :=
| SlotSelection (pp : ptr)
| SlotIndex (pp : ptr)
| SlotPools
| SlotTimer
| SlotOwnership
| SlotConnection.

Section slots.
Context {ST : Type} `{Storage ST}.
Abbreviation HS := (Handlespace ST).

Definition slot_get (k : slot) (st : HS) : option ST :=
  match k with
  | SlotSelection pp => pn_PoolElementSelectionStorage <$> hs_PoolNodes st !! pp
  | SlotIndex pp => pn_PoolElementIndexStorage <$> hs_PoolNodes st !! pp
  | SlotPools => Some (hs_PoolIndexStorage st)
  | SlotTimer => Some (hs_PoolElementTimerStorage st)
  | SlotOwnership => Some (hs_PoolElementOwnershipStorage st)
  | SlotConnection => Some (hs_PoolElementConnectionStorage st)
  end.

Definition slot_set (k : slot) (s : ST) (st : HS) : HS :=
  match k with
  | SlotSelection pp => hs_set_PoolNodes (alter (pn_set_PoolElementSelectionStorage s) pp (hs_PoolNodes st)) st
  | SlotIndex pp => hs_set_PoolNodes (alter (pn_set_PoolElementIndexStorage s) pp (hs_PoolNodes st)) st
  | SlotPools => hs_set_PoolIndexStorage s st
  | SlotTimer => hs_set_PoolElementTimerStorage s st
  | SlotOwnership => hs_set_PoolElementOwnershipStorage s st
  | SlotConnection => hs_set_PoolElementConnectionStorage s st
  end.

(** [poolElementSelectionStorageNodeComparison]: the policy is that of the
    first node's pool. *)
Definition poolElementSelectionStorageNodeComparison (st : HS) (n1 n2 : PoolElementNode) : option Z :=
  pp ← pen_OwnerPoolNode n1; pn ← hs_PoolNodes st !! pp;
  Some (pp_ComparisonFunction (pn_Policy pn) n1 n2).

Definition poolIndexStorageNodeComparison (pn1 pn2 : PoolNode ST) : Z :=
  poolHandleComparison (pn_Handle pn1) (pn_Handle pn2).

(** The comparison of two nodes by the function the storage was created
    with; [None] when a pointer it follows is invalid. *)
Definition slot_cmp (k : slot) (st : HS) (p q : ptr) : option Z :=
  match k with
  | SlotPools =>
      pn1 ← hs_PoolNodes st !! p; pn2 ← hs_PoolNodes st !! q;
      Some (poolIndexStorageNodeComparison pn1 pn2)
  | _ =>
      n1 ← hs_PoolElementNodes st !! p; n2 ← hs_PoolElementNodes st !! q;
      match k with
      | SlotSelection _ => poolElementSelectionStorageNodeComparison st n1 n2
      | SlotIndex _ => Some (poolElementIndexStorageNodeComparison n1 n2)
      | SlotTimer =>
          h1 ← owner_handle st n1; h2 ← owner_handle st n2;
          Some (poolElementTimerStorageNodeComparison h1 n1 h2 n2)
      | SlotOwnership =>
          h1 ← owner_handle st n1; h2 ← owner_handle st n2;
          Some (poolElementOwnershipStorageNodeComparison h1 n1 h2 n2)
      | SlotConnection =>
          h1 ← owner_handle st n1; h2 ← owner_handle st n2;
          Some (poolElementConnectionStorageNodeComparison h1 n1 h2 n2)
      | SlotPools => None
      end
  end.

(** [Value] of the storage node of [p]; only selection nodes have one. *)
Definition slot_value (k : slot) (st : HS) (p : ptr) : Z :=
  match k with
  | SlotSelection _ => default 0 (pen_Value <$> hs_PoolElementNodes st !! p)
  | _ => 0
  end.

Definition all_valid (cmp : ptr → option Z) (l : list ptr) : bool :=
  forallb (λ q, match cmp q with Some _ => true | None => false end) l.

(** [ST_METHOD(Insert)], [ST_METHOD(Remove)] *)
Definition storageInsert (k : slot) (p : ptr) : M HS ptr := λ st,
  match slot_get k st with
  | Some s =>
      if all_valid (slot_cmp k st p) (st_list s) then
        match ST_Insert (λ q, default 0 (slot_cmp k st p q)) (slot_value k st) p s with
        | Some (r, s') => Some (r, slot_set k s' st)
        | None => None
        end
      else None
  | None => None
  end.

Definition storageRemove (k : slot) (p : ptr) : M HS ptr := λ st,
  match slot_get k st with
  | Some s =>
      match ST_Remove (slot_value k st) p s with
      | Some (r, s') => Some (r, slot_set k s' st)
      | None => None
      end
  | None => None
  end.

(** [ST_METHOD(Find)], [ST_METHOD(GetNearestNext)] with a comparison node:
    [cmp] compares it with a stored node. *)
Definition storageFind (k : slot) (cmp : HS → ptr → option Z) : M HS (option ptr) := λ st,
  match slot_get k st with
  | Some s =>
      if all_valid (cmp st) (st_list s) then Some (ST_Find (λ q, default 0 (cmp st q)) s, st) else None
  | None => None
  end.

Definition storageGetNearestNext (k : slot) (cmp : HS → ptr → option Z) : M HS (option ptr) := λ st,
  match slot_get k st with
  | Some s =>
      if all_valid (cmp st) (st_list s) then Some (ST_GetNearestNext (λ q, default 0 (cmp st q)) s, st) else None
  | None => None
  end.

Definition storageRead {A} (k : slot) (f : ST → A) : M HS A := λ st,
  match slot_get k st with Some s => Some (f s, st) | None => None end.

Definition storageGetFirst (k : slot) : M HS (option ptr) := storageRead k ST_GetFirst.
Definition storageGetLast (k : slot) : M HS (option ptr) := storageRead k ST_GetLast.
Definition storageGetNext (k : slot) (p : ptr) : M HS (option ptr) := storageRead k (λ s, ST_GetNext s p).
Definition storageGetPrev (k : slot) (p : ptr) : M HS (option ptr) := storageRead k (λ s, ST_GetPrev s p).
Definition storageGetElements (k : slot) : M HS Z := storageRead k ST_GetElements.
Definition storageIsEmpty (k : slot) : M HS bool := storageRead k ST_IsEmpty.
Definition storageIsLinked (k : slot) (p : ptr) : M HS bool := storageRead k (λ s, STN_IsLinked s p).

(** The fuel of a walk over a storage: one step per node. *)
Definition storageFuel (k : slot) : M HS nat := storageRead k (λ s, length (st_list s)).

(** Is the selection (index) node of [p] linked in some pool? *)
Definition linkedInSomePool (storage : PoolNode ST → ST) (p : ptr) (st : HS) : bool :=
  existsb (λ x, STN_IsLinked (storage x.2) p) (map_to_list (hs_PoolNodes st)).
End slots.

(** ** The invariant of a storage *)

Section slot_inv.
Context {ST : Type} `{SL : StorageLaws ST}.
Abbreviation HS := (Handlespace ST).
Implicit Types (st : HS) (k : slot) (p q : ptr).

(** The key of a stored node. *)
Definition slot_key (k : slot) (st : HS) (p : ptr) : list Z :=
  match k with
  | SlotPools => default [] (handleKey ∘ pn_Handle <$> hs_PoolNodes st !! p)
  | SlotSelection pp =>
      default [] (n ← hs_PoolElementNodes st !! p; pn ← hs_PoolNodes st !! pp;
                  Some (policyKey (pp_Type (pn_Policy pn)) n))
  | SlotIndex _ => default [] (indexKey <$> hs_PoolElementNodes st !! p)
  | SlotTimer =>
      default [] (n ← hs_PoolElementNodes st !! p; h ← owner_handle st n; Some (timerKey h n))
  | SlotOwnership =>
      default [] (n ← hs_PoolElementNodes st !! p; h ← owner_handle st n; Some (ownershipKey h n))
  | SlotConnection =>
      default [] (n ← hs_PoolElementNodes st !! p; h ← owner_handle st n; Some (connectionKey h n))
  end.

(** The pointers a comparison with [p] follows are valid. *)
Definition slot_valid (k : slot) (st : HS) (p : ptr) : Prop :=
  match k with
  | SlotPools => is_Some (hs_PoolNodes st !! p)
  | SlotSelection pp => ∃ n pn, hs_PoolElementNodes st !! p = Some n ∧ pen_OwnerPoolNode n = Some pp ∧
      hs_PoolNodes st !! pp = Some pn ∧ pn_Policy pn ∈ PoolPolicyArray
  | SlotIndex _ => is_Some (hs_PoolElementNodes st !! p)
  | _ => ∃ n h, hs_PoolElementNodes st !! p = Some n ∧ owner_handle st n = Some h
  end.

Record slot_inv (k : slot) (st : HS) (s : ST) : Prop := {
  si_ok : st_ok (slot_value k st) s;
  si_sorted : key_sorted (slot_key k st) (st_list s);
  si_valid p : p ∈ st_list s → slot_valid k st p
}.

Lemma slot_cmp_key k st p q : slot_valid k st p → slot_valid k st q →
  slot_cmp k st p q = Some (lexcmp (slot_key k st p) (slot_key k st q)).
Proof.
  destruct k as [pp|pp| | | |]; simpl.
  - intros (n1 & pn & -> & Ho & Hpn & Hpp) (n2 & pn' & -> & _ & Hpn' & _). simplify_eq.
    simpl. unfold poolElementSelectionStorageNodeComparison. rewrite Ho. simpl. rewrite Hpn. simpl.
    f_equal. by apply policy_cmp_lexcmp.
  - by intros [n1 ->] [n2 ->].
  - by intros [n1 ->] [n2 ->].
  - intros (n1 & h1 & -> & Hh1) (n2 & h2 & -> & Hh2). simpl. by rewrite Hh1, Hh2.
  - intros (n1 & h1 & -> & Hh1) (n2 & h2 & -> & Hh2). simpl. by rewrite Hh1, Hh2.
  - intros (n1 & h1 & -> & Hh1) (n2 & h2 & -> & Hh2). simpl. by rewrite Hh1, Hh2.
Qed.

(** A storage is intact in a state in which its nodes look the same. *)
Lemma slot_inv_ext k k' st st' s : slot_inv k st s →
  (∀ p, p ∈ st_list s → slot_key k st p = slot_key k' st' p ∧ slot_value k st p = slot_value k' st' p ∧
     slot_valid k' st' p) →
  slot_inv k' st' s.
Proof.
  intros [Hok Hs Hv] Hext. split.
  - apply (st_ok_value (slot_value k st)); [done|]. intros p Hp. by apply Hext.
  - apply (key_sorted_ext (slot_key k st)); [|done]. intros p Hp. by apply Hext.
  - intros p Hp. by apply Hext.
Qed.

Lemma slot_inv_nodup k st s : slot_inv k st s → NoDup (st_list s).
Proof. intros [_ Hs _]. by eapply key_sorted_nodup. Qed.

Lemma slot_inv_new k st : slot_inv k st ST_New.
Proof.
  destruct (st_new_ok (slot_value k st)) as [Hok Hl]. split; [done|rewrite Hl; constructor|].
  intros p. rewrite Hl. intros Hp. by apply not_elem_of_nil in Hp.
Qed.

Lemma all_valid_iff (cmp : ptr → option Z) l : all_valid cmp l = true ↔ ∀ q, q ∈ l → is_Some (cmp q).
Proof.
  unfold all_valid. rewrite forallb_forall. split.
  - intros Hall q Hq. apply list_elem_of_In in Hq. specialize (Hall q Hq). destruct (cmp q); [eauto|done].
  - intros Hall q Hq. apply list_elem_of_In in Hq. by destruct (Hall q Hq) as [z ->].
Qed.

Lemma slot_all_valid k st s p : slot_inv k st s → slot_valid k st p →
  all_valid (slot_cmp k st p) (st_list s) = true.
Proof.
  intros [_ _ Hv] Hp. apply all_valid_iff. intros q Hq. rewrite slot_cmp_key by auto. eauto.
Qed.

(** The comparison of a stored node with a probe of key [key]. *)
Definition probes (k : slot) (st : HS) (s : ST) (cmp : ptr → option Z) (key : list Z) : Prop :=
  ∀ q, q ∈ st_list s → cmp q = Some (lexcmp key (slot_key k st q)).

Lemma slot_set_same k st s : slot_get k st = Some s → slot_set k s st = st.
Proof.
  assert (∀ m, m = hs_PoolNodes st → hs_set_PoolNodes m st = st) as Hp by (intros m ->; by destruct st).
  destruct k as [pp|pp| | | |]; simpl; intros Hg; try (simplify_eq; by destruct st).
  - apply Hp. apply fmap_Some in Hg as (pn & Hpn & ->). apply map_eq. intros i.
    destruct (decide (pp = i)) as [<-|]; [|by rewrite lookup_alter_ne].
    rewrite lookup_alter_eq, Hpn. simpl. by destruct pn.
  - apply Hp. apply fmap_Some in Hg as (pn & Hpn & ->). apply map_eq. intros i.
    destruct (decide (pp = i)) as [<-|]; [|by rewrite lookup_alter_ne].
    rewrite lookup_alter_eq, Hpn. simpl. by destruct pn.
Qed.

(** Insertion of a node whose key is new. *)
Lemma storageInsert_new k st s p : slot_get k st = Some s → slot_inv k st s → slot_valid k st p →
  p ∉ st_list s → (∀ q, q ∈ st_list s → slot_key k st q ≠ slot_key k st p) →
  ∃ s', storageInsert k p st = Some (p, slot_set k s' st) ∧ slot_inv k st s' ∧
    st_list s' = l_insert (λ q, lexcmp (slot_key k st p) (slot_key k st q)) p (st_list s).
Proof.
  intros Hg Hinv Hp Hn Hnew. unfold storageInsert. rewrite Hg, slot_all_valid by done.
  destruct (keyed_insert_new (slot_key k st) _ (λ q, default 0 (slot_cmp k st p q)) s (si_ok _ _ _ Hinv)
    (si_sorted _ _ _ Hinv) p) as (s' & -> & Hok & Hs & Hl); [|done..|].
  { intros q Hq. rewrite slot_cmp_key; [done..|]. by apply Hinv. }
  exists s'. split; [done|]. split; [|done]. split; [done|done|].
  intros q. rewrite Hl, l_insert_elem. intros [->|Hq]; [done|by apply Hinv].
Qed.

(** Insertion of a node whose key is taken returns the stored node. *)
Lemma storageInsert_dup k st s p q : slot_get k st = Some s → slot_inv k st s → slot_valid k st p →
  p ∉ st_list s → q ∈ st_list s → slot_key k st q = slot_key k st p →
  storageInsert k p st = Some (q, st).
Proof.
  intros Hg Hinv Hp Hn Hq Hkey. unfold storageInsert. rewrite Hg, slot_all_valid by done.
  rewrite (keyed_insert_dup (slot_key k st) _ _ s (si_ok _ _ _ Hinv) (si_sorted _ _ _ Hinv) p q); [|try done..].
  - by rewrite (slot_set_same k st s).
  - intros x Hx. rewrite slot_cmp_key; [done..|]. by apply Hinv.
Qed.

(** Removal of a stored node, in a state in which only that node may look
    different from the state the storage was intact in. *)
Lemma storageRemove_spec k st st0 s p : slot_get k st = Some s → slot_inv k st0 s → p ∈ st_list s →
  (∀ q, q ∈ st_list s → q ≠ p → slot_key k st0 q = slot_key k st q ∧
     slot_value k st0 q = slot_value k st q ∧ slot_valid k st q) →
  ∃ s', storageRemove k p st = Some (p, slot_set k s' st) ∧ slot_inv k st s' ∧
    st_list s' = l_remove p (st_list s).
Proof.
  intros Hg [Hok Hs Hv] Hp Hsame. unfold storageRemove. rewrite Hg.
  destruct (keyed_remove (slot_key k st0) (slot_key k st) (slot_value k st0) (slot_value k st) s p Hok Hs Hp)
    as (s' & -> & Hok' & Hs' & Hl); [intros q Hq Hne; by split; apply Hsame|].
  exists s'. split; [done|]. split; [|done]. split; [done|done|].
  intros q. rewrite Hl, l_remove_elem. intros [Hne Hq]. by apply Hsame.
Qed.

Lemma probes_valid k st s cmp key : probes k st s cmp key → all_valid cmp (st_list s) = true.
Proof. intros Hp. apply all_valid_iff. intros q Hq. rewrite (Hp q Hq). eauto. Qed.

Lemma storageFind_spec k st s cmp key r : slot_get k st = Some s → slot_inv k st s →
  probes k st s (cmp st) key → storageFind k cmp st = Some (r, st) ↔
  match r with
  | Some q => q ∈ st_list s ∧ slot_key k st q = key
  | None => ∀ q, q ∈ st_list s → slot_key k st q ≠ key
  end.
Proof.
  intros Hg [Hok Hs Hv] Hpr. unfold storageFind. rewrite Hg, (probes_valid _ _ _ _ _ Hpr).
  rewrite <- (keyed_find (slot_key k st) _ (λ q, default 0 (cmp st q)) s Hok Hs key r); [naive_solver|].
  intros q Hq. by rewrite (Hpr q Hq).
Qed.

Lemma storageGetNearestNext_spec k st s cmp key : slot_get k st = Some s → slot_inv k st s →
  probes k st s (cmp st) key →
  storageGetNearestNext k cmp st =
    Some (l_nearest_next (λ q, lexcmp key (slot_key k st q)) (st_list s), st).
Proof.
  intros Hg [Hok Hs Hv] Hpr. unfold storageGetNearestNext. rewrite Hg, (probes_valid _ _ _ _ _ Hpr).
  rewrite (keyed_nearest_next (slot_key k st) _ _ s Hok Hs key); [done|]. intros q Hq. by rewrite (Hpr q Hq).
Qed.

Lemma storageRead_eq {A} k st s (f : ST → A) : slot_get k st = Some s → storageRead k f st = Some (f s, st).
Proof. unfold storageRead. by intros ->. Qed.

Lemma storageGetFirst_spec k st s : slot_get k st = Some s → slot_inv k st s →
  storageGetFirst k st = Some (head (st_list s), st).
Proof. intros Hg [Hok _ _]. unfold storageGetFirst. by rewrite (storageRead_eq _ _ _ _ Hg), (st_first_law _ _ Hok). Qed.

Lemma storageGetElements_spec k st s : slot_get k st = Some s → slot_inv k st s →
  storageGetElements k st = Some (Z.of_nat (length (st_list s)), st).
Proof.
  intros Hg [Hok _ _]. unfold storageGetElements. by rewrite (storageRead_eq _ _ _ _ Hg), (st_elements_law _ _ Hok).
Qed.

Lemma storageIsLinked_spec k st s p : slot_get k st = Some s → slot_inv k st s →
  storageIsLinked k p st = Some (bool_decide (p ∈ st_list s), st).
Proof.
  intros Hg [Hok _ _]. unfold storageIsLinked. by rewrite (storageRead_eq _ _ _ _ Hg), (st_linked_law _ _ _ Hok).
Qed.

Lemma storageGetNext_app k st s l1 p l2 v : slot_get k st = Some s → st_ok v s →
  st_list s = l1 ++ p :: l2 → storageGetNext k p st = Some (head l2, st).
Proof.
  intros Hg Hok Hl. unfold storageGetNext.
  pose proof (st_ok_nodup _ _ Hok) as Hnd. rewrite Hl in Hnd. apply NoDup_app in Hnd as (_ & Hnd & _).
  rewrite (storageRead_eq _ _ _ _ Hg), (st_next_law v) by (done || (rewrite Hl; set_solver)).
  rewrite Hl, l_next_app; [done|]. intros Hp. by apply (Hnd p Hp); left.
Qed.

Lemma linkedInSomePool_false (f : PoolNode ST → ST) p st :
  (∀ pp pn, hs_PoolNodes st !! pp = Some pn → ∃ v, st_ok v (f pn) ∧ p ∉ st_list (f pn)) →
  linkedInSomePool f p st = false.
Proof.
  intros Hall. unfold linkedInSomePool. apply not_true_iff_false. intros Hex.
  apply existsb_exists in Hex as ([pp pn] & Hin & Hl). apply list_elem_of_In, elem_of_map_to_list in Hin.
  destruct (Hall pp pn Hin) as (v & Hok & Hn). simpl in Hl. rewrite (st_linked_law v) in Hl by done.
  by rewrite bool_decide_false in Hl.
Qed.
End slot_inv.
