(* ===== verification/PoolNode.v ===== *)
(** * Pools (poolnode-template_impl.h)

    The operations on one pool: compatibility of an element, linking into
    and unlinking from the selection storage, adding, updating, finding and
    removing elements, and the resequencing that avoids a wrap of the
    sequence numbers.  [pool_inv] is the invariant of a pool; the lemmas
    describe the effect of each operation on it. *)

From S2P Require Import Prelude Checksum Addresses PoolBasics Storage PoolElement PoolPolicy HandlespaceState.
From stdpp Require Import base list gmap numbers option sorting sets.
#[local] Open Scope Z_scope.

Section ops.
Context {ST : Type} `{Storage ST}.
Abbreviation HS := (Handlespace ST).

Definition poolNodeNew (poolHandle : PoolHandle) (poolPolicy : PoolPolicy) (protocol flags : Z) :
    option (PoolNode ST) :=
  h ← poolHandleNew (ph_Handle poolHandle) (ph_Size poolHandle);
  Some {| pn_Handle := h; pn_Policy := poolPolicy; pn_Protocol := protocol; pn_Flags := flags;
          pn_GlobalSeqNumber := SeqNumberStart; pn_UserData := 0; pn_OwnerPoolHandlespaceNode := false;
          pn_PoolElementSelectionStorage := ST_New; pn_PoolElementIndexStorage := ST_New |}.

(** [poolHandleDelete] clears the handle; [ST_METHOD(Delete)] the storages. *)
Definition poolNodeDelete (poolNode : ptr) : M HS () :=
  linked ← storageIsLinked SlotPools poolNode;
  CHECK (negb linked);;
  empty ← storageIsEmpty (SlotSelection poolNode);
  CHECK empty;;
  pool_update poolNode (λ pn,
    {| pn_Handle := MkPoolHandle 0 []; pn_Policy := pn_Policy pn; pn_Protocol := 0; pn_Flags := pn_Flags pn;
       pn_GlobalSeqNumber := pn_GlobalSeqNumber pn; pn_UserData := 0;
       pn_OwnerPoolHandlespaceNode := pn_OwnerPoolHandlespaceNode pn;
       pn_PoolElementSelectionStorage := ST_New; pn_PoolElementIndexStorage := ST_New |}).

(** poolElementNodeDelete of poolelementnode-template_impl.h. *)
Definition poolElementNodeDelete (poolElementNode : ptr) : M HS () :=
  selection ← gets (linkedInSomePool pn_PoolElementSelectionStorage poolElementNode);
  CHECK (negb selection);;
  index ← gets (linkedInSomePool pn_PoolElementIndexStorage poolElementNode);
  CHECK (negb index);;
  timer ← storageIsLinked SlotTimer poolElementNode;
  CHECK (negb timer);;
  ownership ← storageIsLinked SlotOwnership poolElementNode;
  CHECK (negb ownership);;
  connection ← storageIsLinked SlotConnection poolElementNode;
  CHECK (negb connection);;
  pe_update poolElementNode poolElementNodeReset.

Definition poolNodeCheckPoolElementNodeCompatibility (pn : PoolNode ST) (n : PoolElementNode) : Z :=
  let ut := pen_UserTransport n in
  let registrator :=
    match pen_RegistratorTransport n with
    | Some rt =>
        if negb (tab_Protocol rt =? IPPROTO_SCTP) then RSPERR_INVALID_REGISTRATOR
        else if flag_test (tab_Flags rt) TABF_CONTROLCHANNEL then RSPERR_INVALID_REGISTRATOR
        else if (tab_Addresses rt <? 1) || (MAX_PE_TRANSPORTADDRESSES <? tab_Addresses rt)
        then RSPERR_INVALID_REGISTRATOR
        else if tab_Port rt =? 0 then RSPERR_INVALID_REGISTRATOR
        else RSPERR_OKAY
    | None => RSPERR_OKAY
    end in
  if pen_Identifier n =? 0 then RSPERR_INVALID_ID
  else if negb (pn_Protocol pn =? tab_Protocol ut) then RSPERR_WRONG_PROTOCOL
  else if negb (registrator =? RSPERR_OKAY) then registrator
  else if (tab_Addresses ut <? 1) || (MAX_PE_TRANSPORTADDRESSES <? tab_Addresses ut) then RSPERR_INVALID_ADDRESSES
  else if tab_Port ut =? 0 then RSPERR_INVALID_ADDRESSES
  else if (if flag_test (pn_Flags pn) PNF_CONTROLCHANNEL
           then negb (flag_test (tab_Flags ut) TABF_CONTROLCHANNEL)
           else flag_test (tab_Flags ut) TABF_CONTROLCHANNEL) then RSPERR_WRONG_CONTROLCHANNEL_HANDLING
  else if negb (poolPolicySettingsIsValid (pen_PolicySettings n)) then RSPERR_INVALID_POOL_POLICY
  else if negb (poolPolicySettingsAdapt (pen_PolicySettings n) (pp_Type (pn_Policy pn)))
  then RSPERR_INCOMPATIBLE_POOL_POLICY
  else RSPERR_OKAY.

Definition poolNodeGetPoolElementNodes (poolNode : ptr) : M HS Z := storageGetElements (SlotIndex poolNode).

Definition poolNodeGetFirstPoolElementNodeFromIndex (poolNode : ptr) : M HS (option ptr) :=
  storageGetFirst (SlotIndex poolNode).

Definition poolNodeGetNextPoolElementNodeFromIndex (poolNode poolElementNode : ptr) : M HS (option ptr) :=
  storageGetNext (SlotIndex poolNode) poolElementNode.

Definition poolNodeGetFirstPoolElementNodeFromSelection (poolNode : ptr) : M HS (option ptr) :=
  storageGetFirst (SlotSelection poolNode).

Definition poolNodeGetLastPoolElementNodeFromSelection (poolNode : ptr) : M HS (option ptr) :=
  storageGetLast (SlotSelection poolNode).

Definition poolNodeGetNextPoolElementNodeFromSelection (poolNode poolElementNode : ptr) : M HS (option ptr) :=
  storageGetNext (SlotSelection poolNode) poolElementNode.

Definition poolNodeGetPrevPoolElementNodeFromSelection (poolNode poolElementNode : ptr) : M HS (option ptr) :=
  storageGetPrev (SlotSelection poolNode) poolElementNode.

Definition poolNodeUnlinkPoolElementNodeFromSelection (poolNode poolElementNode : ptr) : M HS () :=
  node ← storageRemove (SlotSelection poolNode) poolElementNode;
  CHECK (bool_decide (node = poolElementNode)).

(** Calls [Policy->UpdatePoolElementNodeFunction], unless it is NULL. *)
Definition policyUpdatePoolElementNode (poolNode poolElementNode : ptr) : M HS () :=
  pn ← pool_get poolNode;
  match pp_UpdatePoolElementNodeFunction (pn_Policy pn) with
  | Some f => pe_update poolElementNode f
  | None => mret tt
  end.

Definition poolNodeLinkPoolElementNodeToSelection (poolNode poolElementNode : ptr) : M HS () :=
  n ← pe_get poolElementNode;
  CHECK (poolPolicySettingsIsValid (pen_PolicySettings n));;
  policyUpdatePoolElementNode poolNode poolElementNode;;
  node ← storageInsert (SlotSelection poolNode) poolElementNode;
  CHECK (bool_decide (node = poolElementNode)).

(** [x = poolNode->GlobalSeqNumber++] *)
Definition nextSeqNumber (poolNode : ptr) : M HS Z :=
  pn ← pool_get poolNode;
  pool_update poolNode (λ pn, pn_set_GlobalSeqNumber (u32 (pn_GlobalSeqNumber pn + 1)) pn);;
  mret (pn_GlobalSeqNumber pn).

Definition poolNodeResequence (poolNode : ptr) : M HS () :=
  fuel ← storageFuel (SlotSelection poolNode);
  first ← poolNodeGetFirstPoolElementNodeFromSelection poolNode;
  pool_update poolNode (pn_set_GlobalSeqNumber 0);;
  walk fuel (poolNodeGetNextPoolElementNodeFromSelection poolNode)
    (λ _ poolElementNode,
       seq ← nextSeqNumber poolNode;
       pe_update poolElementNode (set_SeqNumber seq))
    first tt.

Definition weightedRoundRobinGetCurrentRoundCounter (poolNode : ptr) : M HS Z :=
  first ← poolNodeGetFirstPoolElementNodeFromSelection poolNode;
  match first with
  | Some poolElementNode => n ← pe_get poolElementNode; mret (pen_RoundCounter n)
  | None => mret SeqNumberStart
  end.

Definition weightedRoundRobinInitializePoolElementNode (poolElementNode : ptr) : M HS () :=
  n ← pe_get poolElementNode;
  poolNode ← deref (λ _, pen_OwnerPoolNode n);
  round ← weightedRoundRobinGetCurrentRoundCounter poolNode;
  pe_update poolElementNode (λ n, set_VirtualCounter (pps_Weight (pen_PolicySettings n)) (set_RoundCounter round n)).

Definition policyInitializePoolElementNode (poolNode poolElementNode : ptr) : M HS () :=
  pn ← pool_get poolNode;
  match pp_InitializePoolElementNodeFunction (pn_Policy pn) with
  | weightedRoundRobinInitialize => weightedRoundRobinInitializePoolElementNode poolElementNode
  | InitializeNull => mret tt
  end.

(** The result and the error code. *)
Definition poolNodeAddPoolElementNode (poolNode poolElementNode : ptr) : M HS (option ptr * Z) :=
  pn ← pool_get poolNode;
  n ← pe_get poolElementNode;
  let errorCode := poolNodeCheckPoolElementNodeCompatibility pn n in
  if negb (errorCode =? RSPERR_OKAY) then mret (None, errorCode)
  else
    result ← storageInsert (SlotIndex poolNode) poolElementNode;
    if bool_decide (result = poolElementNode) then
      (if u32 (pn_GlobalSeqNumber pn + 1) <? pn_GlobalSeqNumber pn
       then poolNodeResequence poolNode else mret tt);;
      pe_update poolElementNode (λ n, set_Flags (flag_set (pen_Flags n) PENF_UPDATED) n);;
      seq ← nextSeqNumber poolNode;
      pe_update poolElementNode (λ n,
        set_OwnerPoolNode (Some poolNode) (set_Degradation 0 (set_SelectionCounter 0
          (set_RoundCounter 0 (set_VirtualCounter 0 (set_SeqNumber seq n))))));;
      policyInitializePoolElementNode poolNode poolElementNode;;
      poolNodeLinkPoolElementNodeToSelection poolNode poolElementNode;;
      mret (Some poolElementNode, RSPERR_OKAY)
    else mret (Some result, RSPERR_DUPLICATE_ID).

Definition poolNodeUpdatePoolElementNode (poolNode poolElementNode : ptr) (source : PoolElementNode) : M HS Z :=
  pn ← pool_get poolNode;
  n ← pe_get poolElementNode;
  let errorCode := poolNodeCheckPoolElementNodeCompatibility pn n in
  if errorCode =? RSPERR_OKAY then
    let '(changed, n') := poolElementNodeUpdate n source in
    pe_update poolElementNode (λ _, n');;
    (if changed : bool then
       poolNodeUnlinkPoolElementNodeFromSelection poolNode poolElementNode;;
       poolNodeLinkPoolElementNodeToSelection poolNode poolElementNode
     else mret tt);;
    mret errorCode
  else mret errorCode.

(** The comparison node has the searched identifier. *)
Definition compareIdentifier (identifier : Z) (st : HS) (q : ptr) : option Z :=
  n ← hs_PoolElementNodes st !! q;
  Some (if identifier <? pen_Identifier n then -1 else if pen_Identifier n <? identifier then 1 else 0).

Definition poolNodeFindPoolElementNode (poolNode : ptr) (identifier : Z) : M HS (option ptr) :=
  storageFind (SlotIndex poolNode) (compareIdentifier identifier).

Definition poolNodeFindNearestNextPoolElementNode (poolNode : ptr) (identifier : Z) : M HS (option ptr) :=
  storageGetNearestNext (SlotIndex poolNode) (compareIdentifier identifier).

Definition poolNodeRemovePoolElementNode (poolNode poolElementNode : ptr) : M HS ptr :=
  result ← storageRemove (SlotIndex poolNode) poolElementNode;
  CHECK (bool_decide (result = poolElementNode));;
  _ ← storageRemove (SlotSelection poolNode) poolElementNode;
  pe_update poolElementNode (set_OwnerPoolNode None);;
  mret poolElementNode.
End ops.

(** ** The invariant of a pool

    [U] are the elements of the pool that are not linked in the selection
    storage at the moment, [D] those that are linked but whose counters
    have changed since.  Between operations both are empty. *)

Section inv.
Context {ST : Type} `{SL : StorageLaws ST}.
Abbreviation HS := (Handlespace ST).
Implicit Types (st : HS) (pn : PoolNode ST) (p q pp : ptr) (U D : list ptr).

Definition sel_inv D st pp (s : ST) : Prop :=
  ∃ st0, slot_inv (SlotSelection pp) st0 s ∧ ∀ q, q ∈ st_list s → q ∉ D →
    slot_key (SlotSelection pp) st0 q = slot_key (SlotSelection pp) st q ∧
    slot_value (SlotSelection pp) st0 q = slot_value (SlotSelection pp) st q ∧
    slot_valid (SlotSelection pp) st q.

Record pool_inv U D st pp pn : Prop := {
  pi_lookup : hs_PoolNodes st !! pp = Some pn;
  pi_policy : pn_Policy pn ∈ PoolPolicyArray;
  pi_handle : handle_wf (pn_Handle pn);
  pi_global : is_u32 (pn_GlobalSeqNumber pn);
  pi_index : slot_inv (SlotIndex pp) st (pn_PoolElementIndexStorage pn);
  pi_selection : sel_inv D st pp (pn_PoolElementSelectionStorage pn);
  pi_same : st_list (pn_PoolElementIndexStorage pn) ≡ₚ U ++ st_list (pn_PoolElementSelectionStorage pn);
  pi_member p n : hs_PoolElementNodes st !! p = Some n → pen_OwnerPoolNode n = Some pp →
    p ∈ st_list (pn_PoolElementIndexStorage pn);
  pi_element p : p ∈ st_list (pn_PoolElementIndexStorage pn) → ∃ n,
    hs_PoolElementNodes st !! p = Some n ∧ pen_wf n ∧
    poolNodeCheckPoolElementNodeCompatibility pn n = RSPERR_OKAY ∧
    (pen_OwnerPoolNode n = Some pp ∧ pen_SeqNumber n < pn_GlobalSeqNumber pn ∨
     pen_OwnerPoolNode n = None ∧ p ∈ U);
  pi_seq p q n m : hs_PoolElementNodes st !! p = Some n → hs_PoolElementNodes st !! q = Some m →
    pen_OwnerPoolNode n = Some pp → pen_OwnerPoolNode m = Some pp →
    pen_SeqNumber n = pen_SeqNumber m → p = q
}.

Lemma sel_inv_clean st pp s : sel_inv [] st pp s ↔ slot_inv (SlotSelection pp) st s.
Proof.
  split.
  - intros (st0 & Hinv & Hsame). apply (slot_inv_ext (SlotSelection pp) (SlotSelection pp) st0); [done|]. intros p Hp.
    destruct (Hsame p Hp) as (? & ? & ?); [apply not_elem_of_nil|]. done.
  - intros Hinv. exists st. split; [done|]. intros q Hq _. repeat split; try done. by apply Hinv.
Qed.

Lemma sel_inv_mono D D' st pp s : D ⊆ D' → sel_inv D st pp s → sel_inv D' st pp s.
Proof. intros HD (st0 & Hinv & Hsame). exists st0. split; [done|]. intros q Hq Hn. apply Hsame; set_solver. Qed.

Lemma pool_inv_dirty U D D' st pp pn : D ⊆ D' → pool_inv U D st pp pn → pool_inv U D' st pp pn.
Proof. intros HD []. split; try done. by eapply sel_inv_mono. Qed.

(** The invariant reads the elements and the pool itself only. *)
Lemma pool_inv_ext U D st st' pp pn : hs_PoolElementNodes st' = hs_PoolElementNodes st →
  hs_PoolNodes st' !! pp = hs_PoolNodes st !! pp → pool_inv U D st pp pn → pool_inv U D st' pp pn.
Proof.
  intros He Hp []. split; rewrite ?He, ?Hp; try done.
  - eapply slot_inv_ext; [done|]. intros p Hin. simpl. rewrite He. repeat split.
    by apply (si_valid _ _ _ pi_index0).
  - destruct pi_selection0 as (st0 & Hinv & Hsame). exists st0. split; [done|]. intros q Hq Hn.
    specialize (Hsame q Hq Hn). simpl in *. by rewrite He, Hp.
Qed.

Lemma pool_inv_elements U D st pp pn p : pool_inv U D st pp pn →
  p ∈ st_list (pn_PoolElementIndexStorage pn) ↔ p ∈ U ∨ p ∈ st_list (pn_PoolElementSelectionStorage pn).
Proof. intros Hinv. rewrite (pi_same _ _ _ _ _ Hinv). apply elem_of_app. Qed.

Lemma pool_inv_nodup U D st pp pn : pool_inv U D st pp pn →
  NoDup (U ++ st_list (pn_PoolElementSelectionStorage pn)).
Proof. intros Hinv. rewrite <- (pi_same _ _ _ _ _ Hinv). eapply slot_inv_nodup, Hinv. Qed.

Lemma pool_inv_not_both U D st pp pn p : pool_inv U D st pp pn → p ∈ U →
  p ∉ st_list (pn_PoolElementSelectionStorage pn).
Proof. intros Hinv%pool_inv_nodup Hp. apply NoDup_app in Hinv as (_ & Hn & _). by apply Hn. Qed.

(** An assignment to members of an element that is no key of a clean
    element keeps the invariant of every pool. *)
Lemma pool_inv_store U D st pp pn p n n' : pool_inv U D st pp pn →
  hs_PoolElementNodes st !! p = Some n →
  pen_wf n' → pen_Identifier n' = pen_Identifier n → pen_OwnerPoolNode n' = pen_OwnerPoolNode n →
  pen_SeqNumber n' = pen_SeqNumber n →
  (p ∈ st_list (pn_PoolElementIndexStorage pn) →
     poolNodeCheckPoolElementNodeCompatibility pn n' = RSPERR_OKAY) →
  (p ∈ st_list (pn_PoolElementSelectionStorage pn) → p ∉ D →
     policyKey (pp_Type (pn_Policy pn)) n' = policyKey (pp_Type (pn_Policy pn)) n ∧ pen_Value n' = pen_Value n) →
  pool_inv U D (pe_store p n' st) pp pn.
Proof.
  intros Hinv Hp Hwf Hid Ho Hseq Hcompat Hkey.
  assert (∀ q, hs_PoolElementNodes (pe_store p n' st) !! q =
    if decide (q = p) then Some n' else hs_PoolElementNodes st !! q) as Hlook.
  { intros q. simpl. destruct (decide (q = p)) as [->|]; [apply lookup_insert_eq|by apply lookup_insert_ne]. }
  destruct Hinv. split; try done.
  - eapply slot_inv_ext; [done|]. intros q Hq. unfold slot_key, slot_value, slot_valid. rewrite Hlook.
    destruct (decide (q = p)) as [->|]; [|split; [done|split; [done|by apply pi_index0]]].
    rewrite Hp. simpl. unfold indexKey. rewrite Hid. eauto.
  - destruct pi_selection0 as (st0 & Hinv & Hsame). exists st0. split; [done|]. intros q Hq Hn.
    destruct (Hsame q Hq Hn) as (Hk & Hv & Hvalid). rewrite Hk, Hv.
    unfold slot_key, slot_value, slot_valid in *. rewrite Hlook.
    destruct (decide (q = p)) as [->|]; [|done]. destruct (Hkey Hq Hn) as [Hk' Hv'].
    rewrite Hp, pi_lookup0 in *. simpl in *. rewrite pi_lookup0. simpl.
    rewrite Hk', Hv'. split; [done|]. split; [done|].
    destruct Hvalid as (n1 & pn1 & ? & ? & ? & ?). simplify_eq. exists n', pn1. rewrite Ho. done.
  - intros q m. rewrite Hlook. case_decide; [intros [= <-] Ho'; subst|by apply pi_member0].
    eapply pi_member0; [done|congruence].
  - intros q Hq. destruct (pi_element0 q Hq) as (m & Hm & ? & ? & ?). rewrite Hlook.
    destruct (decide (q = p)) as [->|]; [|eauto]. simplify_eq. exists n'. rewrite Ho, Hseq. auto.
  - intros q1 q2 m1 m2. rewrite !Hlook.
    destruct (decide (q1 = p)) as [->|], (decide (q2 = p)) as [->|]; try done.
    + intros [= <-] Hm2 Ho1 Ho2 Hs. eapply pi_seq0; try done; congruence.
    + intros Hm1 [= <-] Ho1 Ho2 Hs. eapply pi_seq0; try done; congruence.
    + by apply pi_seq0.
Qed.

(** ** Effects of the operations *)

Lemma pe_get_run st p n : hs_PoolElementNodes st !! p = Some n → pe_get p st = Some (n, st).
Proof. intros Hp. unfold pe_get, deref. by rewrite Hp. Qed.

Lemma pool_get_run st pp pn : hs_PoolNodes st !! pp = Some pn → pool_get pp st = Some (pn, st).
Proof. intros Hp. unfold pool_get, deref. by rewrite Hp. Qed.

Lemma pe_update_run st p n f : hs_PoolElementNodes st !! p = Some n →
  pe_update p f st = Some (tt, pe_store p (f n) st).
Proof. intros Hp. unfold pe_update. by rewrite (run_bind _ _ _ _ _ (pe_get_run _ _ _ Hp)). Qed.

Lemma pool_update_run st pp pn f : hs_PoolNodes st !! pp = Some pn →
  pool_update pp f st = Some (tt, pool_store pp (f pn) st).
Proof. intros Hp. unfold pool_update. by rewrite (run_bind _ _ _ _ _ (pool_get_run _ _ _ Hp)). Qed.

Lemma nextSeqNumber_run st pp pn : hs_PoolNodes st !! pp = Some pn →
  nextSeqNumber pp st = Some (pn_GlobalSeqNumber pn,
    pool_store pp (pn_set_GlobalSeqNumber (u32 (pn_GlobalSeqNumber pn + 1)) pn) st).
Proof.
  intros Hp. unfold nextSeqNumber. rewrite (run_bind _ _ _ _ _ (pool_get_run _ _ _ Hp)).
  by rewrite (run_bind _ _ _ _ _ (pool_update_run _ _ _ _ Hp)).
Qed.

Lemma slot_set_selection st pp pn s : hs_PoolNodes st !! pp = Some pn →
  slot_set (SlotSelection pp) s st = pool_store pp (pn_set_PoolElementSelectionStorage s pn) st.
Proof.
  intros Hp. unfold slot_set, pool_store. f_equal. apply map_eq. intros i.
  destruct (decide (i = pp)) as [->|]; [by rewrite lookup_alter_eq, lookup_insert_eq, Hp|].
  by rewrite lookup_alter_ne, lookup_insert_ne.
Qed.

Lemma slot_set_index st pp pn s : hs_PoolNodes st !! pp = Some pn →
  slot_set (SlotIndex pp) s st = pool_store pp (pn_set_PoolElementIndexStorage s pn) st.
Proof.
  intros Hp. unfold slot_set, pool_store. f_equal. apply map_eq. intros i.
  destruct (decide (i = pp)) as [->|]; [by rewrite lookup_alter_eq, lookup_insert_eq, Hp|].
  by rewrite lookup_alter_ne, lookup_insert_ne.
Qed.

(** What no operation on a pool changes. *)
Definition pool_same pn pn' : Prop :=
  pn_Handle pn' = pn_Handle pn ∧ pn_Policy pn' = pn_Policy pn ∧ pn_Protocol pn' = pn_Protocol pn ∧
  pn_Flags pn' = pn_Flags pn ∧ pn_OwnerPoolHandlespaceNode pn' = pn_OwnerPoolHandlespaceNode pn.

Lemma pool_same_compat pn pn' n : pool_same pn pn' →
  poolNodeCheckPoolElementNodeCompatibility pn' n = poolNodeCheckPoolElementNodeCompatibility pn n.
Proof. intros (? & Hp & Hpr & Hf & _). unfold poolNodeCheckPoolElementNodeCompatibility. by rewrite Hp, Hpr, Hf. Qed.

Lemma pool_same_refl pn : pool_same pn pn.
Proof. done. Qed.

Lemma pool_same_trans pn1 pn2 pn3 : pool_same pn1 pn2 → pool_same pn2 pn3 → pool_same pn1 pn3.
Proof. unfold pool_same. intuition congruence. Qed.

(** The keys of a pool's elements depend on its policy only. *)
Lemma selection_key_pool st st' pp pn pn' q : hs_PoolElementNodes st' = hs_PoolElementNodes st →
  hs_PoolNodes st !! pp = Some pn → hs_PoolNodes st' !! pp = Some pn' → pn_Policy pn' = pn_Policy pn →
  slot_key (SlotSelection pp) st' q = slot_key (SlotSelection pp) st q ∧
  slot_value (SlotSelection pp) st' q = slot_value (SlotSelection pp) st q ∧
  (slot_valid (SlotSelection pp) st q → slot_valid (SlotSelection pp) st' q).
Proof.
  intros He Hp Hp' Hpol. simpl. rewrite He, Hp, Hp'. simpl. split; [|split; [done|]].
  - destruct (hs_PoolElementNodes st !! q); simpl; [|done]. by rewrite Hpol.
  - intros (n & pn1 & ? & ? & ? & ?). simplify_eq. exists n, pn'. by rewrite Hpol.
Qed.

(** A pool keeps its invariant when its storages or counters change
    consistently. *)
Lemma pool_inv_pool_store U D U' D' st pp pn pn' : pool_inv U D st pp pn → pool_same pn pn' →
  is_u32 (pn_GlobalSeqNumber pn') → pn_GlobalSeqNumber pn <= pn_GlobalSeqNumber pn' →
  pn_PoolElementIndexStorage pn' = pn_PoolElementIndexStorage pn →
  sel_inv D' st pp (pn_PoolElementSelectionStorage pn') →
  U ++ st_list (pn_PoolElementSelectionStorage pn) ≡ₚ U' ++ st_list (pn_PoolElementSelectionStorage pn') →
  (∀ p n, p ∈ U → hs_PoolElementNodes st !! p = Some n → pen_OwnerPoolNode n = None → p ∈ U') →
  pool_inv U' D' (pool_store pp pn' st) pp pn'.
Proof.
  intros [] Hsame Hg Hle Hidx Hsel Hperm Hpend. pose proof Hsame as (Hh & Hpol & _).
  split; rewrite ?Hidx; try done.
  - simpl. by rewrite lookup_insert_eq.
  - by rewrite Hpol.
  - by rewrite Hh.
  - eapply slot_inv_ext; [done|]. intros q Hq. repeat split. by apply (si_valid _ _ _ pi_index0).
  - destruct Hsel as (st0 & Hinv & Heq). exists st0. split; [done|]. intros q Hq Hn.
    destruct (Heq q Hq Hn) as (Hk & Hv & Hval).
    destruct (selection_key_pool st (pool_store pp pn' st) pp pn pn' q) as (Hk' & Hv' & Hval'); try done.
    { simpl. by rewrite lookup_insert_eq. }
    rewrite Hk', Hv'. auto.
  - by rewrite <- Hperm.
  - intros p Hp. destruct (pi_element0 p Hp) as (n & Hn & Hwf & Hc & Ho). exists n.
    rewrite (pool_same_compat pn pn') by done. split; [done|]. split; [done|]. split; [done|].
    destruct Ho as [[Ho Hs]|[Ho HU]]; [left; split; [done|lia]|right; eauto].
Qed.

Lemma unlink_spec U D st pp pn p : pool_inv U D st pp pn →
  p ∈ st_list (pn_PoolElementSelectionStorage pn) → D ⊆ [p] → ∃ s',
  poolNodeUnlinkPoolElementNodeFromSelection pp p st =
    Some (tt, pool_store pp (pn_set_PoolElementSelectionStorage s' pn) st) ∧
  st_list s' = l_remove p (st_list (pn_PoolElementSelectionStorage pn)) ∧
  pool_inv (p :: U) [] (pool_store pp (pn_set_PoolElementSelectionStorage s' pn) st) pp
    (pn_set_PoolElementSelectionStorage s' pn).
Proof.
  intros Hinv Hp HD. pose proof (pi_lookup _ _ _ _ _ Hinv) as Hpn.
  destruct (pi_selection _ _ _ _ _ Hinv) as (st0 & Hsel & Hsame).
  destruct (storageRemove_spec (SlotSelection pp) st st0 (pn_PoolElementSelectionStorage pn) p)
    as (s' & Hrun & Hinv' & Hl); [simpl; by rewrite Hpn|done|done| |].
  { intros q Hq Hne. apply Hsame; [done|]. set_solver. }
  exists s'. rewrite <- (slot_set_selection st pp pn s' Hpn). split; [|split; [done|]].
  - unfold poolNodeUnlinkPoolElementNodeFromSelection. rewrite (run_bind _ _ _ _ _ Hrun).
    apply run_check. by rewrite bool_decide_true.
  - rewrite (slot_set_selection st pp pn s' Hpn).
    apply (pool_inv_pool_store U D _ _ st pp pn); try done; [apply Hinv|by apply sel_inv_clean| |set_solver].
    simpl. rewrite Hl. rewrite (l_remove_Permutation p (st_list (pn_PoolElementSelectionStorage pn))) at 1;
      [|eapply slot_inv_nodup, Hsel|done]. by rewrite Permutation_middle.
Qed.

(** The keys of two elements of a pool differ. *)
Lemma pool_keys_differ U D st pp pn p q : pool_inv U D st pp pn → p ≠ q →
  slot_valid (SlotSelection pp) st p → slot_valid (SlotSelection pp) st q →
  slot_key (SlotSelection pp) st q ≠ slot_key (SlotSelection pp) st p.
Proof.
  intros Hinv Hne (n & pn1 & Hn & Ho & Hpn1 & _) (m & pn2 & Hm & Ho' & _ & _) Hk.
  pose proof (pi_lookup _ _ _ _ _ Hinv) as Hpn. simpl in Hk. rewrite Hn, Hm, Hpn in Hk. simpl in Hk.
  apply policyKey_inj in Hk. destruct (policyBySeq _).
  - apply Hne. by eapply (pi_seq _ _ _ _ _ Hinv).
  - apply Hne. apply (key_sorted_inj (slot_key (SlotIndex pp) st) (st_list (pn_PoolElementIndexStorage pn))).
    + apply Hinv.
    + by eapply (pi_member _ _ _ _ _ Hinv).
    + by eapply (pi_member _ _ _ _ _ Hinv).
    + simpl. rewrite Hn, Hm. simpl. unfold indexKey. congruence.
Qed.

(** What [Policy->UpdatePoolElementNodeFunction] makes of an element. *)
Definition policyUpdated pn (n : PoolElementNode) : PoolElementNode :=
  match pp_UpdatePoolElementNodeFunction (pn_Policy pn) with Some f => f n | None => n end.

Lemma policyUpdated_ok pn n : pn_Policy pn ∈ PoolPolicyArray → pen_wf n →
  counters_changed n (policyUpdated pn n) ∧ pen_wf (policyUpdated pn n).
Proof.
  intros Hpp Hwf. unfold policyUpdated. destruct (pp_UpdatePoolElementNodeFunction _) as [f|] eqn:Hf.
  - by eapply policy_update_ok.
  - split; [apply counters_changed_refl|done].
Qed.

Lemma pe_store_same st p n : hs_PoolElementNodes st !! p = Some n → pe_store p n st = st.
Proof. intros Hp. unfold pe_store. rewrite insert_id by done. by destruct st. Qed.

Lemma policyUpdate_run st pp pn p n : hs_PoolNodes st !! pp = Some pn → hs_PoolElementNodes st !! p = Some n →
  policyUpdatePoolElementNode pp p st = Some (tt, pe_store p (policyUpdated pn n) st).
Proof.
  intros Hpn Hn. unfold policyUpdatePoolElementNode, policyUpdated.
  rewrite (run_bind _ _ _ _ _ (pool_get_run _ _ _ Hpn)).
  destruct (pp_UpdatePoolElementNodeFunction _); [by apply pe_update_run|]. by rewrite pe_store_same.
Qed.

Lemma counters_changed_compat pn n n' : counters_changed n n' →
  poolNodeCheckPoolElementNodeCompatibility pn n' = poolNodeCheckPoolElementNodeCompatibility pn n.
Proof. by intros (r & c & d & v & ->). Qed.

(** The counters of an element outside the selection may change. *)
Lemma pool_inv_counters U D st pp pn p n n' : pool_inv U D st pp pn → hs_PoolElementNodes st !! p = Some n →
  p ∈ U ∨ p ∈ D → counters_changed n n' → pen_wf n' → pool_inv U D (pe_store p n' st) pp pn.
Proof.
  intros Hinv Hn HU Hcc Hwf. pose proof (counters_changed_compat pn n n' Hcc) as Hcompat.
  destruct Hcc as (r & c & d & v & ->).
  apply (pool_inv_store U D st pp pn p n); try done.
  - intros Hp. rewrite Hcompat. destruct (pi_element _ _ _ _ _ Hinv p Hp) as (m & ? & ? & ? & ?). by simplify_eq.
  - intros Hp HD. destruct HU as [HU|HU]; [|done]. by eapply pool_inv_not_both in HU.
Qed.

Lemma link_spec U st pp pn p n : pool_inv (p :: U) [] st pp pn →
  hs_PoolElementNodes st !! p = Some n → pen_OwnerPoolNode n = Some pp → ∃ s',
  let st1 := pe_store p (policyUpdated pn n) st in
  let pn' := pn_set_PoolElementSelectionStorage s' pn in
  poolNodeLinkPoolElementNodeToSelection pp p st = Some (tt, pool_store pp pn' st1) ∧
  st_list s' = l_insert (λ q, lexcmp (slot_key (SlotSelection pp) st1 p) (slot_key (SlotSelection pp) st1 q)) p
                 (st_list (pn_PoolElementSelectionStorage pn)) ∧
  pool_inv U [] (pool_store pp pn' st1) pp pn'.
Proof.
  intros Hinv Hn Ho. pose proof (pi_lookup _ _ _ _ _ Hinv) as Hpn.
  assert (p ∈ st_list (pn_PoolElementIndexStorage pn)) as Hidx by by eapply (pi_member _ _ _ _ _ Hinv).
  destruct (pi_element _ _ _ _ _ Hinv p Hidx) as (m & Hm & Hwf & Hc & _). simplify_eq.
  destruct (policyUpdated_ok pn n (pi_policy _ _ _ _ _ Hinv) Hwf) as [Hcc Hwf'].
  set (st1 := pe_store p (policyUpdated pn n) st).
  assert (pool_inv (p :: U) [] st1 pp pn) as Hinv1.
  { eapply pool_inv_counters; try done. left. left. }
  assert (p ∉ st_list (pn_PoolElementSelectionStorage pn)) as Hnin.
  { eapply pool_inv_not_both; [done|left]. }
  pose proof (pi_selection _ _ _ _ _ Hinv1) as Hsel%sel_inv_clean.
  assert (slot_valid (SlotSelection pp) st1 p) as Hvalid.
  { exists (policyUpdated pn n), pn. simpl. rewrite lookup_insert_eq.
    split; [done|]. split; [|split; [done|apply Hinv]].
    destruct Hcc as (r & c & d & v & ->). done. }
  destruct (storageInsert_new (SlotSelection pp) st1 (pn_PoolElementSelectionStorage pn) p)
    as (s' & Hrun & Hinv' & Hl); [simpl; by rewrite Hpn|done..| |].
  { intros q Hq. apply (pool_keys_differ (p :: U) [] st1 pp pn p q); try done; [set_solver|by apply Hsel]. }
  exists s'. simpl. rewrite <- (slot_set_selection st1 pp pn s') by done. split; [|split; [done|]].
  - unfold poolNodeLinkPoolElementNodeToSelection. rewrite (run_bind _ _ _ _ _ (pe_get_run _ _ _ Hn)).
    rewrite (run_bind _ _ _ _ _ (run_check _ _ (pps_wf_valid _ (pen_wf_pps _ Hwf)))).
    rewrite (run_bind _ _ _ _ _ (policyUpdate_run _ _ _ _ _ Hpn Hn)). fold st1.
    rewrite (run_bind _ _ _ _ _ Hrun). apply run_check. by rewrite bool_decide_true.
  - rewrite (slot_set_selection st1 pp pn s') by done.
    apply (pool_inv_pool_store (p :: U) [] _ _ st1 pp pn); try done; [apply Hinv|by apply sel_inv_clean| |].
    + simpl. rewrite Hl, l_insert_Permutation. by rewrite Permutation_middle.
    + intros q m Hq Hm' Hom. apply elem_of_cons in Hq as [->|Hq]; [|done].
      simpl in Hm'. rewrite lookup_insert_eq in Hm'. injection Hm' as <-.
      destruct Hcc as (r & c & d & v & Hcc). rewrite Hcc in Hom. simpl in Hom. congruence.
Qed.
End inv.

(** ** Resequencing *)

Section reseq.
Context {ST : Type} `{SL : StorageLaws ST}.
Abbreviation HS := (Handlespace ST).
Implicit Types (st : HS) (pn : PoolNode ST) (p q pp : ptr) (U D : list ptr).

(** The elements of [l] numbered from 0 in the order of [l]. *)
Definition renumber (l : list ptr) (h : gmap ptr PoolElementNode) : gmap ptr PoolElementNode :=
  map_imap (λ q n, Some (match position q l with Some i => set_SeqNumber i n | None => n end)) h.

Lemma renumber_lookup l h q : renumber l h !! q =
  (λ n, match position q l with Some i => set_SeqNumber i n | None => n end) <$> h !! q.
Proof. unfold renumber. rewrite map_lookup_imap. by destruct (h !! q). Qed.

Lemma renumber_snoc l p h n : p ∉ l → h !! p = Some n →
  <[p := set_SeqNumber (Z.of_nat (length l)) n]> (renumber l h) = renumber (l ++ [p]) h.
Proof.
  intros Hp Hn. apply map_eq. intros q. rewrite renumber_lookup, position_snoc by done.
  destruct (decide (q = p)) as [->|Hne].
  - by rewrite lookup_insert_eq, Hn.
  - by rewrite lookup_insert_ne, renumber_lookup.
Qed.

Lemma renumber_nil h : renumber [] h = h.
Proof. apply map_eq. intros q. rewrite renumber_lookup. simpl. by destruct (h !! q). Qed.

Definition resequenced pp pn st : HS :=
  let l := st_list (pn_PoolElementSelectionStorage pn) in
  pool_store pp (pn_set_GlobalSeqNumber (Z.of_nat (length l)) pn)
    (hs_set_PoolElementNodes (renumber l (hs_PoolElementNodes st)) st).

Lemma resequence_run st pp pn v : hs_PoolNodes st !! pp = Some pn →
  st_ok v (pn_PoolElementSelectionStorage pn) →
  (∀ p, p ∈ st_list (pn_PoolElementSelectionStorage pn) → is_Some (hs_PoolElementNodes st !! p)) →
  Z.of_nat (length (st_list (pn_PoolElementSelectionStorage pn))) < 2 ^ 32 →
  poolNodeResequence pp st = Some (tt, resequenced pp pn st).
Proof.
  intros Hpn Hok Hheap Hlen. set (l := st_list (pn_PoolElementSelectionStorage pn)) in *.
  unfold poolNodeResequence.
  assert (slot_get (SlotSelection pp) st = Some (pn_PoolElementSelectionStorage pn)) as Hg by (simpl; by rewrite Hpn).
  unfold storageFuel. rewrite (run_bind _ _ _ _ _ (storageRead_eq _ _ _ _ Hg)).
  unfold poolNodeGetFirstPoolElementNodeFromSelection, storageGetFirst.
  rewrite (run_bind _ _ _ _ _ (storageRead_eq _ _ _ _ Hg)), (st_first_law _ _ Hok).
  rewrite (run_bind _ _ _ _ _ (pool_update_run _ _ _ _ Hpn)). fold l.
  pose (I := λ (l1 : list ptr) (_ : unit) (s : HS),
    s = pool_store pp (pn_set_GlobalSeqNumber (Z.of_nat (length l1)) pn)
          (hs_set_PoolElementNodes (renumber l1 (hs_PoolElementNodes st)) st)).
  assert (wp (walk (length l) (poolNodeGetNextPoolElementNodeFromSelection pp)
    (λ _ poolElementNode, seq ← nextSeqNumber pp; pe_update poolElementNode (set_SeqNumber seq))
    (head l) tt) (λ u s, I l u s) (pool_store pp (pn_set_GlobalSeqNumber 0 pn) st)) as (u & s' & Hrun & Hs).
  { apply wp_walk; [|lia|].
    - intros l1 p l2 [] s Hl ->.
      pose proof (st_ok_nodup _ _ Hok) as Hnd. fold l in Hnd. rewrite Hl in Hnd.
      apply NoDup_app in Hnd as (_ & Hnin & _).
      assert (p ∉ l1) as Hp1 by (intros Hp1; by apply (Hnin p Hp1); left).
      destruct (Hheap p) as [n Hn]; [rewrite Hl; set_solver|].
      eapply wp_eq; [|split].
      + assert (Z.of_nat (length l1) < Z.of_nat (length l)) as Hlt.
        { rewrite Hl, length_app. simpl. lia. }
        erewrite run_bind; [|apply nextSeqNumber_run; simpl; apply lookup_insert_eq].
        erewrite pe_update_run; [done|]. simpl. rewrite renumber_lookup, Hn. simpl.
        by rewrite position_None.
      + simpl. unfold I, pe_store, pool_store. simpl. rewrite renumber_snoc by done. f_equal.
        rewrite insert_insert_eq, wrap_small.
        * replace (Z.of_nat (length (l1 ++ [p]))) with (Z.of_nat (length l1) + 1) by (rewrite length_app; simpl; lia). done.
        * assert (length l1 < length l)%nat by (rewrite Hl, length_app; simpl; lia). unfold in_width. lia.
      + eapply wp_eq; [|done]. unfold poolNodeGetNextPoolElementNodeFromSelection.
        eapply (storageGetNext_app _ _ _ l1 p l2); [simpl; by rewrite lookup_insert_eq|exact Hok|done].
    - unfold I. rewrite renumber_nil. by destruct st. }
  destruct u. rewrite Hrun. unfold I in Hs. by rewrite Hs.
Qed.

Lemma pool_inv_pending U D st pp pn p n : pool_inv U D st pp pn → (∀ p n, p ∈ U →
  hs_PoolElementNodes st !! p = Some n → pen_OwnerPoolNode n = None) →
  hs_PoolElementNodes st !! p = Some n → pen_OwnerPoolNode n = Some pp →
  p ∈ st_list (pn_PoolElementSelectionStorage pn).
Proof.
  intros Hinv Hpend Hn Ho. pose proof (pi_member _ _ _ _ _ Hinv p n Hn Ho) as Hidx.
  apply (pool_inv_elements _ _ _ _ _ _ Hinv) in Hidx as [HU|]; [|done].
  rewrite (Hpend p n HU Hn) in Ho. done.
Qed.

(** Renumbering in the order of the storage keeps it sorted. *)
Lemma resequence_sorted t (h : gmap ptr PoolElementNode) l :
  key_sorted (λ q, default [] (policyKey t <$> h !! q)) l →
  (∀ q, q ∈ l → is_Some (h !! q)) →
  key_sorted (λ q, default [] (policyKey t <$> renumber l h !! q)) l.
Proof.
  intros Hs Hheap. pose proof (key_sorted_nodup _ _ Hs) as Hnd.
  assert (∀ l1 p l2 q, l = l1 ++ p :: l2 → q ∈ l2 →
    lexcmp (default [] (policyKey t <$> renumber l h !! p)) (default [] (policyKey t <$> renumber l h !! q)) < 0) as Hlt.
  { intros l1 p l2 q Hl Hq.
    destruct (Hheap p) as [n Hn]; [rewrite Hl; set_solver|]. destruct (Hheap q) as [m Hm]; [rewrite Hl; set_solver|].
    assert (lexcmp (policyKey t n) (policyKey t m) < 0) as Hold.
    { rewrite Hl in Hs. apply key_sorted_app in Hs as (_ & Hs & _). apply key_sorted_cons in Hs as [Hs _].
      specialize (Hs q Hq). unfold key_lt in Hs. by rewrite Hn, Hm in Hs. }
    destruct (position_elem p l) as [i Hi]; [rewrite Hl; set_solver|].
    destruct (position_elem q l) as [j Hj]; [rewrite Hl; set_solver|].
    assert (i < j) as Hij.
    { rewrite Hl in *. by eapply position_app_lt. }
    rewrite !renumber_lookup, Hn, Hm, Hi, Hj. simpl.
    unfold policyKey in *. destruct (policyBySeq t); [|exact Hold].
    rewrite lexcmp_app in Hold by apply policyPrefix_length.
    rewrite lexcmp_app by apply policyPrefix_length.
    rewrite (policyPrefix_ext t (set_SeqNumber i n) n), (policyPrefix_ext t (set_SeqNumber j m) m) by done.
    destruct (_ =? 0); [|done]. simpl. by destruct (Z.ltb_spec i j); [|lia]. }
  clear Hs. assert (∀ l2 l1, l = l1 ++ l2 → key_sorted (λ q, default [] (policyKey t <$> renumber l h !! q)) l2) as Hgen.
  { intros l2. induction l2 as [|p l2 IH]; intros l1 Hl; [constructor|]. apply key_sorted_cons. split.
    - intros q Hq. by eapply Hlt.
    - apply (IH (l1 ++ [p])). by rewrite <- app_assoc. }
  by apply (Hgen l []).
Qed.

Lemma pen_wf_set_seq n i : pen_wf n → is_u32 i → pen_wf (set_SeqNumber i n).
Proof. unfold pen_wf. simpl. tauto. Qed.

Lemma slot_key_selection st pp pn q : hs_PoolNodes st !! pp = Some pn →
  slot_key (SlotSelection pp) st q = default [] (policyKey (pp_Type (pn_Policy pn)) <$> hs_PoolElementNodes st !! q).
Proof. intros Hpn. simpl. rewrite Hpn. simpl. by destruct (hs_PoolElementNodes st !! q). Qed.

(** Sequence numbers and identifiers bound the number of elements. *)
Lemma pool_inv_selection_count U D st pp pn : pool_inv U D st pp pn →
  (∀ q, q ∈ st_list (pn_PoolElementSelectionStorage pn) → ∃ n, hs_PoolElementNodes st !! q = Some n ∧
     pen_OwnerPoolNode n = Some pp) →
  Z.of_nat (length (st_list (pn_PoolElementSelectionStorage pn))) <= pn_GlobalSeqNumber pn.
Proof.
  intros Hinv Hown. set (l := st_list _).
  pose (f := λ q, default 0 (pen_SeqNumber <$> hs_PoolElementNodes st !! q)).
  assert (∀ q, q ∈ l → 0 <= f q < pn_GlobalSeqNumber pn) as Hb.
  { intros q Hq. destruct (Hown q Hq) as (n & Hn & Ho). unfold f. rewrite Hn. simpl.
    destruct (pi_element _ _ _ _ _ Hinv q) as (n' & Hn' & Hwf & _ & Hs).
    { apply (pool_inv_elements _ _ _ _ _ _ Hinv). by right. }
    simplify_eq. destruct Hwf as (_ & _ & _ & _ & [Hw _] & _). destruct Hs as [[_ Hs]|[Hs _]]; [lia|congruence]. }
  pose proof (pi_global _ _ _ _ _ Hinv) as [Hg _].
  pose proof (nodup_bounded (f <$> l) 0 (pn_GlobalSeqNumber pn)) as Hcount. rewrite length_fmap in Hcount.
  rewrite Z.max_r in Hcount by lia. rewrite Z.sub_0_r in Hcount. apply Hcount.
  - apply nodup_fmap_inj_on.
    + apply pool_inv_nodup, NoDup_app in Hinv. naive_solver.
    + intros x y Hx Hy Heq. destruct (Hown x Hx) as (n & Hn & Ho), (Hown y Hy) as (m & Hm & Ho').
      unfold f in Heq. rewrite Hn, Hm in Heq. simpl in Heq. by eapply (pi_seq _ _ _ _ _ Hinv).
  - intros z Hz. apply list_elem_of_fmap in Hz as (q & -> & Hq). by apply Hb.
Qed.

Lemma compat_identifier pn n : poolNodeCheckPoolElementNodeCompatibility pn n = RSPERR_OKAY → pen_Identifier n ≠ 0.
Proof.
  unfold poolNodeCheckPoolElementNodeCompatibility. destruct (Z.eqb_spec (pen_Identifier n) 0); [|done].
  by intros Hc.
Qed.

Lemma pool_inv_index_count U D st pp pn : pool_inv U D st pp pn →
  Z.of_nat (length (st_list (pn_PoolElementIndexStorage pn))) < 2 ^ 32.
Proof.
  intros Hinv. set (l := st_list _).
  pose (f := λ q, default 0 (pen_Identifier <$> hs_PoolElementNodes st !! q)).
  pose proof (nodup_bounded (f <$> l) 1 (2 ^ 32)) as Hcount. rewrite length_fmap in Hcount.
  assert (Z.of_nat (length l) <= Z.max 0 (2 ^ 32 - 1)); [|lia]. apply Hcount.
  - apply nodup_fmap_inj_on; [eapply slot_inv_nodup, Hinv|]. intros x y Hx Hy Heq.
    destruct (pi_element _ _ _ _ _ Hinv x Hx) as (n & Hn & _). destruct (pi_element _ _ _ _ _ Hinv y Hy) as (m & Hm & _).
    eapply (key_sorted_inj (slot_key (SlotIndex pp) st)); [apply Hinv|done|done|].
    unfold f in Heq. simpl. rewrite Hn, Hm in *. simpl in *. unfold indexKey. congruence.
  - intros z Hz. apply list_elem_of_fmap in Hz as (q & -> & Hq).
    destruct (pi_element _ _ _ _ _ Hinv q Hq) as (n & Hn & Hwf & Hc%compat_identifier & _).
    unfold f. rewrite Hn. simpl. destruct Hwf as ([Hlo Hhi] & _). lia.
Qed.

(** Only pending elements are outside the selection. *)
Definition all_pending U st : Prop :=
  ∀ p n, p ∈ U → hs_PoolElementNodes st !! p = Some n → pen_OwnerPoolNode n = None.

Lemma pool_inv_resequence U st pp pn : pool_inv U [] st pp pn → all_pending U st →
  poolNodeResequence pp st = Some (tt, resequenced pp pn st) ∧
  pool_inv U [] (resequenced pp pn st) pp
    (pn_set_GlobalSeqNumber (Z.of_nat (length (st_list (pn_PoolElementSelectionStorage pn)))) pn).
Proof.
  intros Hinv Hpend. set (l := st_list _). pose proof (pi_lookup _ _ _ _ _ Hinv) as Hpn.
  pose proof (pi_selection _ _ _ _ _ Hinv) as Hsel%sel_inv_clean.
  assert (∀ q, q ∈ l → ∃ n, hs_PoolElementNodes st !! q = Some n ∧ pen_OwnerPoolNode n = Some pp) as Hown.
  { intros q Hq. destruct (si_valid _ _ _ Hsel q Hq) as (n & _ & ? & ? & _). eauto. }
  assert (∀ q, q ∈ l → is_Some (hs_PoolElementNodes st !! q)) as Hheap.
  { intros q Hq. destruct (Hown q Hq) as (n & -> & _). eauto. }
  pose proof (pi_global _ _ _ _ _ Hinv) as [Hg0 Hg1].
  pose proof (pool_inv_selection_count _ _ _ _ _ Hinv Hown) as Hcount. fold l in Hcount.
  split.
  { eapply resequence_run; [done|apply Hsel|done|]. fold l. lia. }
  set (st' := resequenced pp pn st). set (pn' := pn_set_GlobalSeqNumber _ pn).
  assert (hs_PoolNodes st' !! pp = Some pn') as Hpn' by (simpl; apply lookup_insert_eq).
  assert (∀ q n', hs_PoolElementNodes st' !! q = Some n' → ∃ n, hs_PoolElementNodes st !! q = Some n ∧
    n' = match position q l with Some i => set_SeqNumber i n | None => n end) as Hlook.
  { intros q n' Hn'. simpl in Hn'. rewrite renumber_lookup in Hn'. apply fmap_Some in Hn'. naive_solver. }
  assert (∀ q n, hs_PoolElementNodes st !! q = Some n → hs_PoolElementNodes st' !! q =
    Some (match position q l with Some i => set_SeqNumber i n | None => n end)) as Hlook'.
  { intros q n Hn. simpl. by rewrite renumber_lookup, Hn. }
  destruct Hinv. split; try done.
  - unfold in_width. simpl. lia.
  - eapply slot_inv_ext; [done|]. intros q Hq. destruct (pi_element0 q Hq) as (n & Hn & _). simpl.
    rewrite renumber_lookup, Hn. simpl. by destruct (position q _).
  - apply sel_inv_clean. split.
    + apply (st_ok_value (slot_value (SlotSelection pp) st)); [apply Hsel|]. intros q Hq.
      destruct (Hheap q Hq) as [n Hn]. simpl. rewrite renumber_lookup, Hn. simpl. by destruct (position q _).
    + apply (key_sorted_ext (λ q, default [] (policyKey (pp_Type (pn_Policy pn)) <$> renumber l (hs_PoolElementNodes st) !! q))).
      { intros q _. by rewrite (slot_key_selection st' pp pn'). }
      apply resequence_sorted; [|done].
      eapply key_sorted_ext; [|apply Hsel]. intros q _. by apply slot_key_selection.
    + intros q Hq. destruct (Hown q Hq) as (n & Hn & Ho). exists (match position q l with Some i => set_SeqNumber i n | None => n end), pn'.
      split; [by apply Hlook'|]. split; [by destruct (position q l)|]. done.
  - intros q n' Hn' Ho. destruct (Hlook q n' Hn') as (n & Hn & ->). eapply pi_member0; [done|]. by destruct (position q l).
  - intros q Hq. destruct (pi_element0 q Hq) as (n & Hn & Hwf & Hc & Ho).
    exists (match position q l with Some i => set_SeqNumber i n | None => n end). split; [by apply Hlook'|].
    destruct (position q l) as [i|] eqn:Hi.
    + apply position_Some in Hi as [Hi Hb]. split; [apply pen_wf_set_seq; [done|unfold in_width; lia]|].
      split; [done|]. destruct (Hown q Hi) as (m & Hm & Ho'). simplify_eq. left. split; [done|]. simpl. lia.
    + split; [done|]. split; [done|]. destruct Ho as [[Ho _]|]; [|by right].
      destruct (position_elem q l) as [i Hi']; [|congruence].
      eapply pool_inv_pending; [|done..]. by split.
  - intros q1 q2 n1' n2' Hn1' Hn2' Ho1 Ho2 Hs.
    destruct (Hlook _ _ Hn1') as (n1 & Hn1 & ->), (Hlook _ _ Hn2') as (n2 & Hn2 & ->).
    assert (q1 ∈ l ∧ q2 ∈ l) as [Hq1 Hq2].
    { split; (eapply pool_inv_pending; [by split|done|done|]).
      - by destruct (position q1 l).
      - by destruct (position q2 l). }
    destruct (position_elem q1 l Hq1) as [i Hi], (position_elem q2 l Hq2) as [j Hj].
    rewrite Hi, Hj in Hs. simpl in Hs. subst j. by eapply position_inj.
Qed.
End reseq.

(** ** Frames: what an operation on one pool leaves alone *)

Section frame.
Context {ST : Type} `{SL : StorageLaws ST}.
Abbreviation HS := (Handlespace ST).
Implicit Types (st : HS) (pn : PoolNode ST) (p q pp : ptr) (U D X : list ptr).

(** The members of an element that pools do not change. *)
Definition pe_stable (n n' : PoolElementNode) : Prop :=
  pen_Identifier n' = pen_Identifier n ∧ pen_Checksum n' = pen_Checksum n ∧
  pen_HomeRegistrarIdentifier n' = pen_HomeRegistrarIdentifier n ∧
  pen_TimerTimeStamp n' = pen_TimerTimeStamp n ∧ pen_TimerCode n' = pen_TimerCode n ∧
  pen_ConnectionSocketDescriptor n' = pen_ConnectionSocketDescriptor n ∧
  pen_ConnectionAssocID n' = pen_ConnectionAssocID n ∧
  pen_UserTransport n' = pen_UserTransport n ∧ pen_RegistratorTransport n' = pen_RegistratorTransport n.

Lemma pe_stable_refl n : pe_stable n n.
Proof. done. Qed.

Lemma pe_stable_trans n1 n2 n3 : pe_stable n1 n2 → pe_stable n2 n3 → pe_stable n1 n3.
Proof. unfold pe_stable. intuition congruence. Qed.

Lemma counters_changed_stable n n' : counters_changed n n' → pe_stable n n' ∧ pen_OwnerPoolNode n' = pen_OwnerPoolNode n.
Proof. by intros (r & c & d & v & ->). Qed.

(** [X] are elements about which nothing is said. *)
Record pool_frame X pp st st' : Prop := {
  pf_rest : st' = hs_set_PoolNodes (hs_PoolNodes st') (hs_set_PoolElementNodes (hs_PoolElementNodes st') st);
  pf_pools pp' : pp' ≠ pp → hs_PoolNodes st' !! pp' = hs_PoolNodes st !! pp';
  pf_pool pn : hs_PoolNodes st !! pp = Some pn → ∃ pn', hs_PoolNodes st' !! pp = Some pn' ∧ pool_same pn pn';
  pf_elements p n : p ∉ X → hs_PoolElementNodes st !! p = Some n → ∃ n', hs_PoolElementNodes st' !! p = Some n' ∧
    pe_stable n n' ∧ pen_OwnerPoolNode n' = pen_OwnerPoolNode n ∧ (pen_OwnerPoolNode n ≠ Some pp → n' = n);
  pf_dom p : hs_PoolElementNodes st !! p = None → hs_PoolElementNodes st' !! p = None
}.

Lemma pool_frame_refl X pp st : pool_frame X pp st st.
Proof.
  split; [by destruct st|done| |by eauto 10 using pe_stable_refl|done].
  intros pn Hpn. exists pn. by split.
Qed.

Lemma pool_frame_trans X pp st1 st2 st3 : pool_frame X pp st1 st2 → pool_frame X pp st2 st3 → pool_frame X pp st1 st3.
Proof.
  intros F1 F2. split.
  - rewrite (pf_rest _ _ _ _ F2) at 1. rewrite (pf_rest _ _ _ _ F1) at 1. by destruct st1.
  - intros pp' Hne. by rewrite (pf_pools _ _ _ _ F2), (pf_pools _ _ _ _ F1).
  - intros pn Hpn. destruct (pf_pool _ _ _ _ F1 pn Hpn) as (pn' & Hpn' & Hs).
    destruct (pf_pool _ _ _ _ F2 pn' Hpn') as (pn'' & Hpn'' & Hs'). eauto using pool_same_trans.
  - intros p n HX Hn. destruct (pf_elements _ _ _ _ F1 p n HX Hn) as (n' & Hn' & Hst & Ho & Heq).
    destruct (pf_elements _ _ _ _ F2 p n' HX Hn') as (n'' & Hn'' & Hst' & Ho' & Heq').
    exists n''. split; [done|]. split; [by eapply pe_stable_trans|]. split; [congruence|].
    intros Hne. rewrite Heq'; [by apply Heq|congruence].
  - intros p Hp. by apply F2, F1.
Qed.

Lemma pool_frame_weaken X X' pp st st' : X ⊆ X' → pool_frame X pp st st' → pool_frame X' pp st st'.
Proof. intros HX []. split; try done. intros p n Hp. apply pf_elements0. set_solver. Qed.

Lemma pool_frame_pe_store X pp st p n n' : hs_PoolElementNodes st !! p = Some n →
  (p ∉ X → pe_stable n n' ∧ pen_OwnerPoolNode n' = pen_OwnerPoolNode n ∧ pen_OwnerPoolNode n = Some pp) →
  pool_frame X pp st (pe_store p n' st).
Proof.
  intros Hn Hx. split; [by destruct st|done| | |].
  - intros pn Hpn. exists pn. by split.
  - intros q m Hq Hm. simpl. destruct (decide (q = p)) as [->|Hne].
    + rewrite lookup_insert_eq. simplify_eq. destruct (Hx Hq) as (? & ? & ?). by exists n'.
    + rewrite lookup_insert_ne by done. eauto 10 using pe_stable_refl.
  - intros q Hq. simpl. rewrite lookup_insert_ne; [done|]. intros ->. congruence.
Qed.

Lemma pool_frame_pool_store X pp st pn pn' : hs_PoolNodes st !! pp = Some pn → pool_same pn pn' →
  pool_frame X pp st (pool_store pp pn' st).
Proof.
  intros Hpn Hsame. split; [by destruct st| | |by eauto 10 using pe_stable_refl|done].
  - intros pp' Hne. simpl. by rewrite lookup_insert_ne.
  - intros pn1 Hpn1. simplify_eq. exists pn'. simpl. by rewrite lookup_insert_eq.
Qed.

Lemma pool_frame_resequenced U st pp pn : pool_inv U [] st pp pn →
  pool_frame [] pp st (resequenced pp pn st).
Proof.
  intros Hinv. pose proof (pi_lookup _ _ _ _ _ Hinv) as Hpn. pose proof (pi_selection _ _ _ _ _ Hinv) as Hsel%sel_inv_clean.
  split; [by destruct st| | | |].
  - intros pp' Hne. simpl. by rewrite lookup_insert_ne.
  - intros pn1 Hpn1. simplify_eq. eexists. simpl. rewrite lookup_insert_eq. by split.
  - intros p n _ Hn. simpl. rewrite renumber_lookup, Hn. simpl. eexists. split; [done|].
    destruct (position p _) as [i|] eqn:Hi; [|done]. split; [done|]. split; [done|]. intros Hne.
    apply position_Some in Hi as [Hi _]. destruct (si_valid _ _ _ Hsel p Hi) as (m & _ & ? & ? & _). by simplify_eq.
  - intros p Hp. simpl. by rewrite renumber_lookup, Hp.
Qed.

(** ** Numbering an element *)

(** An element outside the (clean) selection gets the next sequence number
    and belongs to the pool from then on. *)
Lemma pool_inv_number U D st pp pn p n n' : pool_inv U D st pp pn → p ∈ U ∨ p ∈ D →
  p ∈ st_list (pn_PoolElementIndexStorage pn) → hs_PoolElementNodes st !! p = Some n →
  pn_GlobalSeqNumber pn + 1 < 2 ^ 32 →
  pen_wf n' → pen_Identifier n' = pen_Identifier n → pen_OwnerPoolNode n' = Some pp →
  pen_SeqNumber n' = pn_GlobalSeqNumber pn → poolNodeCheckPoolElementNodeCompatibility pn n' = RSPERR_OKAY →
  let pn' := pn_set_GlobalSeqNumber (pn_GlobalSeqNumber pn + 1) pn in
  pool_inv U D (pe_store p n' (pool_store pp pn' st)) pp pn'.
Proof.
  intros Hinv HUD Hidx Hn Hg Hwf Hid Ho Hseq Hc pn'. set (st' := pe_store p n' (pool_store pp pn' st)).
  assert (∀ q, hs_PoolElementNodes st' !! q = if decide (q = p) then Some n' else hs_PoolElementNodes st !! q) as Hlook.
  { intros q. simpl. destruct (decide (q = p)) as [->|]; [apply lookup_insert_eq|by apply lookup_insert_ne]. }
  assert (hs_PoolNodes st' !! pp = Some pn') as Hpn' by (simpl; apply lookup_insert_eq).
  pose proof (pi_global _ _ _ _ _ Hinv) as [Hg0 _]. pose proof (pi_lookup _ _ _ _ _ Hinv) as Hpn.
  assert (∀ q m, q ≠ p → hs_PoolElementNodes st !! q = Some m → pen_OwnerPoolNode m = Some pp →
    pen_SeqNumber m < pn_GlobalSeqNumber pn) as Hless.
  { intros q m Hne Hm Hom. destruct (pi_element _ _ _ _ _ Hinv q) as (m' & ? & _ & _ & Hs);
      [by eapply (pi_member _ _ _ _ _ Hinv)|]. simplify_eq. destruct Hs as [[_ ?]|[? _]]; [done|congruence]. }
  pose proof Hinv as Hinv0. destruct Hinv. split; try done.
  - unfold in_width. simpl. lia.
  - eapply slot_inv_ext; [done|]. intros q Hq. unfold slot_key, slot_value, slot_valid. rewrite Hlook.
    destruct (decide (q = p)) as [->|]; [|split; [done|split; [done|by apply pi_index0]]].
    rewrite Hn. simpl. unfold indexKey. rewrite Hid. eauto.
  - destruct pi_selection0 as (st0 & Hsel & Hsame). exists st0. split; [done|]. intros q Hq HD.
    assert (q ≠ p) as Hne.
    { intros ->. destruct HUD as [HU|]; [|done]. by apply (pool_inv_not_both _ _ _ _ _ _ Hinv0 HU). }
    destruct (Hsame q Hq HD) as (Hk & Hv & Hval). rewrite Hk, Hv.
    unfold slot_key, slot_value, slot_valid in *. rewrite Hlook, decide_False by done. rewrite Hpn, Hpn' in *.
    split; [by destruct (hs_PoolElementNodes st !! q)|]. split; [done|].
    destruct Hval as (m & pn1 & ? & ? & ? & ?). simplify_eq. by exists m, pn'.
  - intros q m. rewrite Hlook. case_decide; [intros _ _; by subst|by apply pi_member0].
  - intros q Hq. rewrite Hlook. destruct (decide (q = p)) as [->|].
    + exists n'. split; [done|]. split; [done|]. split; [done|]. left. split; [done|]. simpl. lia.
    + destruct (pi_element0 q Hq) as (m & ? & ? & ? & Hs). exists m. split; [done|]. split; [done|]. split; [done|].
      destruct Hs as [[? ?]|]; [left; split; [done|]; simpl; lia|by right].
  - intros q1 q2 m1 m2. rewrite !Hlook.
    destruct (decide (q1 = p)) as [->|], (decide (q2 = p)) as [->|]; try done.
    + intros [= <-] Hm2 _ Ho2 Hs. specialize (Hless q2 m2 ltac:(done) Hm2 Ho2). lia.
    + intros Hm1 [= <-] Ho1 _ Hs. specialize (Hless q1 m1 ltac:(done) Hm1 Ho1). lia.
    + by apply pi_seq0.
Qed.
End frame.
