(* ===== verification/PoolEffects.v ===== *)
(** * Adding, updating and removing the elements of a pool

    The effect of [poolNodeAddPoolElementNode], [poolNodeUpdatePoolElementNode]
    and [poolNodeRemovePoolElementNode] on a pool with the invariant
    [pool_inv], on every branch. *)

From S2P Require Import Prelude Checksum Addresses PoolBasics Storage PoolElement PoolPolicy HandlespaceState PoolNode.
From stdpp Require Import base list gmap numbers option sorting sets.
#[local] Open Scope Z_scope.

Section effects.
Context {ST : Type} `{SL : StorageLaws ST}.
Abbreviation HS := (Handlespace ST).
Implicit Types (st : HS) (pn : PoolNode ST) (p q pp : ptr) (U D X : list ptr).

Lemma pool_inv_element U D st pp pn p n : pool_inv U D st pp pn → p ∈ st_list (pn_PoolElementIndexStorage pn) →
  hs_PoolElementNodes st !! p = Some n →
  pen_wf n ∧ poolNodeCheckPoolElementNodeCompatibility pn n = RSPERR_OKAY.
Proof.
  intros Hinv Hp Hn. destruct (pi_element _ _ _ _ _ Hinv p Hp) as (m & Hm & ? & ? & _). by simplify_eq.
Qed.

Lemma initialize_run U st pp pn p n : pool_inv U [] st pp pn → p ∈ U →
  hs_PoolElementNodes st !! p = Some n → pen_OwnerPoolNode n = Some pp → ∃ n',
  policyInitializePoolElementNode pp p st = Some (tt, pe_store p n' st) ∧
  counters_changed n n' ∧ pen_wf n'.
Proof.
  intros Hinv HU Hn Ho. pose proof (pi_lookup _ _ _ _ _ Hinv) as Hpn.
  assert (p ∈ st_list (pn_PoolElementIndexStorage pn)) as Hidx by (apply (pool_inv_elements _ _ _ _ _ _ Hinv); by left).
  destruct (pool_inv_element _ _ _ _ _ _ _ Hinv Hidx Hn) as [Hwf _].
  unfold policyInitializePoolElementNode. rewrite (run_bind _ _ _ _ _ (pool_get_run _ _ _ Hpn)).
  destruct (pp_InitializePoolElementNodeFunction _).
  { exists n. rewrite pe_store_same by done. split; [done|]. split; [apply counters_changed_refl|done]. }
  pose proof (pi_selection _ _ _ _ _ Hinv) as Hsel%sel_inv_clean.
  assert (∃ round, weightedRoundRobinGetCurrentRoundCounter pp st = Some (round, st) ∧ is_u32 round) as (round & Hround & Hw).
  { unfold weightedRoundRobinGetCurrentRoundCounter, poolNodeGetFirstPoolElementNodeFromSelection.
    erewrite run_bind; [|apply storageGetFirst_spec; [simpl; by rewrite Hpn|done]].
    destruct (st_list (pn_PoolElementSelectionStorage pn)) as [|q l] eqn:Hl; simpl.
    - exists SeqNumberStart. split; [done|]. by apply u32_const.
    - destruct (pi_element _ _ _ _ _ Hinv q) as (m & Hm & Hwfm & _).
      { apply (pool_inv_elements _ _ _ _ _ _ Hinv). right. rewrite Hl. left. }
      rewrite (run_bind _ _ _ _ _ (pe_get_run _ _ _ Hm)). exists (pen_RoundCounter m). split; [done|].
      unfold pen_wf in Hwfm. tauto. }
  unfold weightedRoundRobinInitializePoolElementNode. rewrite (run_bind _ _ _ _ _ (pe_get_run _ _ _ Hn)).
  erewrite run_bind; [|unfold deref; by rewrite Ho]. rewrite (run_bind _ _ _ _ _ Hround).
  rewrite (pe_update_run _ _ _ _ Hn). eexists. split; [done|].
  split; [apply counters_changed_eq; by destruct n|]. unfold pen_wf, pps_wf in *. simpl. tauto.
Qed.

(** Inserting a compatible element with a new identifier into the index. *)
Lemma index_insert_spec st pp pn p n : pool_inv [] [] st pp pn →
  hs_PoolElementNodes st !! p = Some n → pen_OwnerPoolNode n = None → pen_wf n →
  poolNodeCheckPoolElementNodeCompatibility pn n = RSPERR_OKAY →
  (∀ q m, hs_PoolElementNodes st !! q = Some m → pen_OwnerPoolNode m = Some pp → pen_Identifier m ≠ pen_Identifier n) →
  ∃ s', let pn' := pn_set_PoolElementIndexStorage s' pn in
  storageInsert (SlotIndex pp) p st = Some (p, pool_store pp pn' st) ∧
  st_list s' ≡ₚ p :: st_list (pn_PoolElementIndexStorage pn) ∧
  pool_inv [p] [] (pool_store pp pn' st) pp pn'.
Proof.
  intros Hinv Hn Ho Hwf Hc Hnew. pose proof (pi_lookup _ _ _ _ _ Hinv) as Hpn.
  assert (∀ q, q ∈ st_list (pn_PoolElementIndexStorage pn) → ∃ m, hs_PoolElementNodes st !! q = Some m ∧
    pen_OwnerPoolNode m = Some pp) as Hown.
  { intros q Hq. destruct (pi_element _ _ _ _ _ Hinv q Hq) as (m & Hm & _ & _ & [[? _]|[_ HU]]); [eauto|].
    by apply not_elem_of_nil in HU. }
  assert (p ∉ st_list (pn_PoolElementIndexStorage pn)) as Hnin.
  { intros Hin. destruct (Hown p Hin) as (m & ? & ?). congruence. }
  destruct (storageInsert_new (SlotIndex pp) st (pn_PoolElementIndexStorage pn) p)
    as (s' & Hrun & Hinv' & Hl); [simpl; by rewrite Hpn|apply Hinv|simpl; eauto|done| |].
  { intros q Hq. destruct (Hown q Hq) as (m & Hm & Hom). simpl. rewrite Hn, Hm. simpl. unfold indexKey.
    intros [= Heq]. by eapply Hnew. }
  exists s'. simpl. rewrite (slot_set_index st pp pn s' Hpn) in Hrun. split; [done|].
  assert (st_list s' ≡ₚ p :: st_list (pn_PoolElementIndexStorage pn)) as Hperm by (rewrite Hl; apply l_insert_Permutation).
  split; [done|]. set (pn' := pn_set_PoolElementIndexStorage s' pn).
  destruct Hinv. split; try done.
  - simpl. apply lookup_insert_eq.
  - simpl. eapply slot_inv_ext; [done|]. intros q Hq. repeat split. by apply (si_valid _ _ _ Hinv').
  - destruct pi_selection as (st0 & Hsel & Hsame). exists st0. split; [done|]. intros q Hq HD.
    destruct (Hsame q Hq HD) as (-> & -> & Hval).
    destruct (selection_key_pool st (pool_store pp pn' st) pp pn pn' q) as (-> & -> & Hval'); try done; [|auto].
    simpl. apply lookup_insert_eq.
  - simpl. rewrite Hperm. simpl. by rewrite pi_same.
  - intros q m Hm Hom. simpl. rewrite Hperm. right. by eapply pi_member.
  - intros q Hq. simpl in Hq. rewrite Hperm in Hq. apply elem_of_cons in Hq as [->|Hq].
    + exists n. split; [done|]. split; [done|]. split; [done|]. right. split; [done|left].
    + destruct (pi_element q Hq) as (m & ? & ? & ? & [?|[_ HU]]); [|by apply not_elem_of_nil in HU].
      exists m. split; [done|]. split; [done|]. split; [done|]. by left.
Qed.

(** Resequencing on a condition. *)
Lemma resequence_if (b : bool) U st pp pn : pool_inv U [] st pp pn → all_pending U st → ∃ st' pn',
  (if b then poolNodeResequence pp else mret tt) st = Some (tt, st') ∧
  pool_inv U [] st' pp pn' ∧ pool_frame [] pp st st' ∧
  pn_PoolElementIndexStorage pn' = pn_PoolElementIndexStorage pn ∧
  pn_PoolElementSelectionStorage pn' = pn_PoolElementSelectionStorage pn ∧
  pn_Policy pn' = pn_Policy pn ∧ pool_same pn pn' ∧
  pn_GlobalSeqNumber pn' =
    (if b then Z.of_nat (length (st_list (pn_PoolElementSelectionStorage pn))) else pn_GlobalSeqNumber pn) ∧
  (∀ q, pen_Value <$> hs_PoolElementNodes st' !! q = pen_Value <$> hs_PoolElementNodes st !! q).
Proof.
  intros Hinv Hpend. destruct b.
  - destruct (pool_inv_resequence U st pp pn Hinv Hpend) as [Hrun Hinv'].
    eexists _, _. split; [exact Hrun|]. split; [exact Hinv'|].
    split; [by eapply pool_frame_resequenced|]. do 5 (split; [done|]). intros q. simpl. rewrite renumber_lookup.
    destruct (hs_PoolElementNodes st !! q); simpl; [|done]. by destruct (position q _).
  - exists st, pn. split; [done|]. split; [done|]. split; [apply pool_frame_refl|]. done.
Qed.

Lemma counters_changed_facts n n' : counters_changed n n' →
  pe_stable n n' ∧ pen_OwnerPoolNode n' = pen_OwnerPoolNode n ∧ pen_SeqNumber n' = pen_SeqNumber n ∧
  pen_PolicySettings n' = pen_PolicySettings n ∧ pen_Flags n' = pen_Flags n.
Proof. by intros (r & c & d & v & ->). Qed.

Lemma all_pending_single st p n : hs_PoolElementNodes st !! p = Some n → pen_OwnerPoolNode n = None → all_pending [p] st.
Proof. intros Hn Ho q m Hq Hm. apply list_elem_of_singleton in Hq as ->. congruence. Qed.

(** The members of a new element after it was added to a pool. *)
Definition pe_added pp (n n' : PoolElementNode) : Prop :=
  pe_stable n n' ∧ pen_OwnerPoolNode n' = Some pp ∧ pen_PolicySettings n' = pen_PolicySettings n ∧
  pen_Flags n' = flag_set (pen_Flags n) PENF_UPDATED.

Lemma pool_frame_pe_store_self pp st p n n' : hs_PoolElementNodes st !! p = Some n →
  pool_frame [p] pp st (pe_store p n' st).
Proof.
  intros Hn. eapply pool_frame_pe_store; [done|]. intros Hp. exfalso. apply Hp. left.
Qed.

(** Linking an element that was just numbered (initialisation, then the
    selection storage). *)
Lemma enter_selection_spec st pp pn p n : pool_inv [p] [] st pp pn → hs_PoolElementNodes st !! p = Some n →
  pen_OwnerPoolNode n = Some pp → ∃ st' pn' n',
  (policyInitializePoolElementNode pp p;; poolNodeLinkPoolElementNodeToSelection pp p) st = Some (tt, st') ∧
  pool_inv [] [] st' pp pn' ∧ pool_frame [p] pp st st' ∧ pool_same pn pn' ∧
  pn_PoolElementIndexStorage pn' = pn_PoolElementIndexStorage pn ∧
  hs_PoolElementNodes st' !! p = Some n' ∧ counters_changed n n'.
Proof.
  intros Hinv Hn Ho. destruct (initialize_run [p] st pp pn p n) as (n1 & Hrun1 & Hcc1 & Hwf1); [done|left|done|done|].
  assert (pool_inv [p] [] (pe_store p n1 st) pp pn) as Hinv1.
  { eapply pool_inv_counters; try done. left. left. }
  assert (hs_PoolElementNodes (pe_store p n1 st) !! p = Some n1) as Hn1 by (simpl; apply lookup_insert_eq).
  pose proof (counters_changed_facts _ _ Hcc1) as (_ & Ho1 & _).
  destruct (link_spec [] (pe_store p n1 st) pp pn p n1) as (s' & Hrun & _ & Hinv'); [done|done|congruence|].
  destruct (policyUpdated_ok pn n1) as [Hcc2 Hwf2]; [apply Hinv|done|].
  eexists _, _, (policyUpdated pn n1). rewrite (run_bind _ _ _ _ _ Hrun1). split; [exact Hrun|]. split; [exact Hinv'|].
  split; [|split; [done|split; [done|split]]].
  - eapply pool_frame_trans; [by apply (pool_frame_pe_store_self pp st p n n1)|].
    eapply pool_frame_trans; [by apply (pool_frame_pe_store_self pp _ p n1 (policyUpdated pn n1))|].
    eapply pool_frame_pool_store; [apply Hinv1|done].
  - simpl. by rewrite lookup_insert_eq.
  - by eapply counters_changed_trans.
Qed.

Lemma seq_no_wrap g : is_u32 g → u32 (g + 1) <? g = false → g + 1 < 2 ^ 32.
Proof.
  unfold in_width. intros Hg Hlt%Z.ltb_ge. destruct (decide (g + 1 < 2 ^ 32)); [done|].
  assert (g = 2 ^ 32 - 1) as -> by lia. by vm_compute in Hlt.
Qed.

Lemma poolNodeAdd_new st pp pn p n : pool_inv [] [] st pp pn → hs_PoolElementNodes st !! p = Some n →
  pen_OwnerPoolNode n = None → pen_wf n → poolNodeCheckPoolElementNodeCompatibility pn n = RSPERR_OKAY →
  (∀ q m, hs_PoolElementNodes st !! q = Some m → pen_OwnerPoolNode m = Some pp → pen_Identifier m ≠ pen_Identifier n) →
  ∃ st' pn' n',
  poolNodeAddPoolElementNode pp p st = Some ((Some p, RSPERR_OKAY), st') ∧
  pool_inv [] [] st' pp pn' ∧ pool_frame [p] pp st st' ∧ pool_same pn pn' ∧
  st_list (pn_PoolElementIndexStorage pn') ≡ₚ p :: st_list (pn_PoolElementIndexStorage pn) ∧
  hs_PoolElementNodes st' !! p = Some n' ∧ pe_added pp n n'.
Proof.
  intros Hinv Hn Ho Hwf Hc Hnew. pose proof (pi_lookup _ _ _ _ _ Hinv) as Hpn.
  destruct (index_insert_spec st pp pn p n) as (s' & Hrun1 & Hperm & Hinv1); try done.
  set (pn1 := pn_set_PoolElementIndexStorage s' pn) in *. set (st1 := pool_store pp pn1 st) in *.
  set (b := u32 (pn_GlobalSeqNumber pn + 1) <? pn_GlobalSeqNumber pn).
  destruct (resequence_if b [p] st1 pp pn1) as (st2 & pn2 & Hrun2 & Hinv2 & Hf2 & Hidx2 & Hsel2 & Hpol2 & Hsame2 & Hg2 & _);
    [done|by eapply all_pending_single|].
  assert (hs_PoolElementNodes st2 !! p = Some n) as Hn2.
  { destruct (pf_elements _ _ _ _ Hf2 p n) as (n2 & Hn2 & _ & _ & Heq); [set_solver|done|].
    rewrite Heq in Hn2; [done|]. by rewrite Ho. }
  assert (pn_GlobalSeqNumber pn2 + 1 < 2 ^ 32) as Hroom.
  { rewrite Hg2. destruct b eqn:Hb.
    - pose proof (pool_inv_index_count _ _ _ _ _ Hinv1) as Hcount. rewrite (pi_same _ _ _ _ _ Hinv1) in Hcount.
      simpl in Hcount. simpl. lia.
    - apply seq_no_wrap; [apply Hinv|done]. }
  set (n3 := set_Flags (flag_set (pen_Flags n) PENF_UPDATED) n).
  set (n4 := set_OwnerPoolNode (Some pp) (set_Degradation 0 (set_SelectionCounter 0
               (set_RoundCounter 0 (set_VirtualCounter 0 (set_SeqNumber (pn_GlobalSeqNumber pn2) n3)))))).
  set (pn4 := pn_set_GlobalSeqNumber (pn_GlobalSeqNumber pn2 + 1) pn2).
  assert (hs_PoolElementNodes (pe_store p n3 st2) !! p = Some n3) as Hn3 by (simpl; apply lookup_insert_eq).
  assert (p ∈ st_list (pn_PoolElementIndexStorage pn2)) as Hidx.
  { rewrite Hidx2. simpl. rewrite Hperm. left. }
  assert (∀ m, pen_Identifier m = pen_Identifier n → pen_UserTransport m = pen_UserTransport n →
    pen_RegistratorTransport m = pen_RegistratorTransport n → pen_PolicySettings m = pen_PolicySettings n →
    poolNodeCheckPoolElementNodeCompatibility pn2 m = RSPERR_OKAY) as Hcompat.
  { intros m Hi Hu Hr Hp. rewrite (pool_same_compat pn1 pn2) by done.
    rewrite <- Hc. unfold poolNodeCheckPoolElementNodeCompatibility. by rewrite Hi, Hu, Hr, Hp. }
  assert (pool_inv [p] [] (pe_store p n3 st2) pp pn2) as Hinv3.
  { apply (pool_inv_store [p] [] st2 pp pn2 p n); try done. intros _. by apply Hcompat. }
  assert (pool_inv [p] [] (pe_store p n4 (pool_store pp pn4 (pe_store p n3 st2))) pp pn4) as Hinv4.
  { apply (pool_inv_number [p] [] (pe_store p n3 st2) pp pn2 p n3); try done; [left; left| |by apply Hcompat].
    assert (is_u32 0) by by apply u32_const. pose proof (pi_global _ _ _ _ _ Hinv2).
    unfold pen_wf in *. simpl. tauto. }
  destruct (enter_selection_spec (pe_store p n4 (pool_store pp pn4 (pe_store p n3 st2))) pp pn4 p n4)
    as (st5 & pn5 & n5 & Hrun5 & Hinv5 & Hf5 & Hsame5 & Hidx5 & Hn5 & Hcc5);
    [done|simpl; apply lookup_insert_eq|done|].
  exists st5, pn5, n5. split; [|split; [done|]]. 
  - unfold poolNodeAddPoolElementNode. rewrite (run_bind _ _ _ _ _ (pool_get_run _ _ _ Hpn)).
    rewrite (run_bind _ _ _ _ _ (pe_get_run _ _ _ Hn)), Hc. simpl (negb _). cbv iota.
    rewrite (run_bind _ _ _ _ _ Hrun1), bool_decide_true by done. fold b. fold st1 in Hrun2.
    rewrite (run_bind _ _ _ _ _ Hrun2), (run_bind _ _ _ _ _ (pe_update_run _ _ _ _ Hn2)). fold n3.
    erewrite run_bind; [|apply nextSeqNumber_run; apply Hinv3].
    rewrite wrap_small by (pose proof (pi_global _ _ _ _ _ Hinv2) as [? ?]; unfold in_width; lia). fold pn4.
    erewrite run_bind; [|apply pe_update_run; simpl; apply lookup_insert_eq]. fold n4.
    by rewrite (run_seq2 _ _ _ _ _ Hrun5).
  - split; [|split; [|split; [|split; [done|]]]].
    + eapply pool_frame_trans; [by eapply (pool_frame_pool_store [p] pp st pn pn1)|].
      eapply pool_frame_trans; [by apply (pool_frame_weaken []); [set_solver|exact Hf2]|].
      eapply pool_frame_trans; [by apply (pool_frame_pe_store_self pp st2 p n n3)|].
      eapply pool_frame_trans; [by eapply (pool_frame_pool_store [p] pp _ pn2 pn4); [apply Hinv3|]|].
      eapply pool_frame_trans; [by apply (pool_frame_pe_store_self pp _ p n3 n4)|]. exact Hf5.
    + eapply pool_same_trans; [exact Hsame2|exact Hsame5].
    + rewrite Hidx5. simpl. rewrite Hidx2. done.
    + destruct (counters_changed_facts _ _ Hcc5) as (Hst & Ho5 & _ & Hp5 & Hf). unfold pe_added. rewrite Ho5, Hp5, Hf. done.
Qed.

Lemma poolNodeAdd_incompatible st pp pn p n : hs_PoolNodes st !! pp = Some pn →
  hs_PoolElementNodes st !! p = Some n →
  poolNodeCheckPoolElementNodeCompatibility pn n ≠ RSPERR_OKAY →
  poolNodeAddPoolElementNode pp p st = Some ((None, poolNodeCheckPoolElementNodeCompatibility pn n), st).
Proof.
  intros Hpn Hn Hc. unfold poolNodeAddPoolElementNode. rewrite (run_bind _ _ _ _ _ (pool_get_run _ _ _ Hpn)).
  rewrite (run_bind _ _ _ _ _ (pe_get_run _ _ _ Hn)). by destruct (Z.eqb_spec (poolNodeCheckPoolElementNodeCompatibility pn n) RSPERR_OKAY).
Qed.

Lemma poolNodeAdd_duplicate st pp pn p n q m : pool_inv [] [] st pp pn → hs_PoolElementNodes st !! p = Some n →
  pen_OwnerPoolNode n = None → poolNodeCheckPoolElementNodeCompatibility pn n = RSPERR_OKAY →
  hs_PoolElementNodes st !! q = Some m → pen_OwnerPoolNode m = Some pp → pen_Identifier m = pen_Identifier n →
  poolNodeAddPoolElementNode pp p st = Some ((Some q, RSPERR_DUPLICATE_ID), st).
Proof.
  intros Hinv Hn Ho Hc Hm Hom Hid. pose proof (pi_lookup _ _ _ _ _ Hinv) as Hpn.
  unfold poolNodeAddPoolElementNode. rewrite (run_bind _ _ _ _ _ (pool_get_run _ _ _ Hpn)).
  rewrite (run_bind _ _ _ _ _ (pe_get_run _ _ _ Hn)), Hc. simpl (negb _). cbv iota.
  erewrite run_bind; [|apply (storageInsert_dup _ _ (pn_PoolElementIndexStorage pn) p q)].
  - rewrite bool_decide_false; [done|]. intros ->. congruence.
  - simpl. by rewrite Hpn.
  - apply Hinv.
  - simpl. eauto.
  - intros Hp. destruct (pi_element _ _ _ _ _ Hinv p Hp) as (n' & ? & _ & _ & [[? _]|[_ HU]]); [congruence|].
    by apply not_elem_of_nil in HU.
  - by eapply (pi_member _ _ _ _ _ Hinv).
  - simpl. rewrite Hn, Hm. simpl. unfold indexKey. congruence.
Qed.

Lemma link_frame st pp pn p n s' : hs_PoolNodes st !! pp = Some pn → hs_PoolElementNodes st !! p = Some n →
  pn_Policy pn ∈ PoolPolicyArray → pen_wf n → pen_OwnerPoolNode n = Some pp →
  pool_frame [] pp st (pool_store pp (pn_set_PoolElementSelectionStorage s' pn) (pe_store p (policyUpdated pn n) st)).
Proof.
  intros Hpn Hn Hpol Hwf Ho. destruct (policyUpdated_ok pn n Hpol Hwf) as [Hcc _].
  destruct (counters_changed_facts _ _ Hcc) as (Hst & Ho' & _).
  apply (pool_frame_trans _ _ _ (pe_store p (policyUpdated pn n) st)).
  - by eapply pool_frame_pe_store.
  - by eapply (pool_frame_pool_store _ _ _ pn).
Qed.

(** ** Updating *)

Lemma compat_policy pn n : poolNodeCheckPoolElementNodeCompatibility pn n = RSPERR_OKAY →
  poolPolicySettingsIsValid (pen_PolicySettings n) = true ∧
  poolPolicySettingsAdapt (pen_PolicySettings n) (pp_Type (pn_Policy pn)) = true.
Proof.
  unfold poolNodeCheckPoolElementNodeCompatibility. intros Hc.
  destruct (pen_Identifier n =? 0); [done|]. destruct (negb (pn_Protocol pn =? _)); [done|].
  destruct (negb (_ =? RSPERR_OKAY)) eqn:Hr.
  { apply negb_true_iff, Z.eqb_neq in Hr. done. }
  destruct (_ || _); [done|]. destruct (tab_Port _ =? 0); [done|].
  destruct (if flag_test (pn_Flags pn) _ then _ else _); [done|].
  destruct (poolPolicySettingsIsValid _); [|done]. by destruct (poolPolicySettingsAdapt _ _).
Qed.

Lemma compat_settings pn n source n' : poolNodeCheckPoolElementNodeCompatibility pn n = RSPERR_OKAY →
  poolNodeCheckPoolElementNodeCompatibility pn source = RSPERR_OKAY →
  pen_Identifier n' = pen_Identifier n → pen_UserTransport n' = pen_UserTransport n →
  pen_RegistratorTransport n' = pen_RegistratorTransport n → pen_PolicySettings n' = pen_PolicySettings source →
  poolNodeCheckPoolElementNodeCompatibility pn n' = RSPERR_OKAY.
Proof.
  intros Hn [Hv Ha]%compat_policy Hi Hu Hr Hp.
  unfold poolNodeCheckPoolElementNodeCompatibility in *. rewrite Hi, Hu, Hr, Hp, Hv, Ha.
  destruct (pen_Identifier n =? 0); [done|]. destruct (negb (pn_Protocol pn =? _)); [done|].
  destruct (negb (_ =? RSPERR_OKAY)) eqn:Hreg.
  { apply negb_true_iff, Z.eqb_neq in Hreg. done. }
  destruct (_ || _); [done|]. destruct (tab_Port _ =? 0); [done|].
  by destruct (if flag_test (pn_Flags pn) _ then _ else _).
Qed.

(** Settings of one type that compare equal are equal. *)
Lemma poolPolicySettingsComparison_eq pps1 pps2 t : poolPolicySettingsComparison pps1 pps2 = false →
  poolPolicySettingsAdapt pps1 t = true → poolPolicySettingsAdapt pps2 t = true → pps1 = pps2.
Proof.
  unfold poolPolicySettingsComparison, poolPolicySettingsAdapt. intros Hc Ht1%Z.eqb_eq Ht2%Z.eqb_eq.
  repeat (apply orb_false_iff in Hc as [Hc ?%negb_false_iff%Z.eqb_eq]).
  apply negb_false_iff, Z.eqb_eq in Hc. destruct pps1, pps2. simpl in *. congruence.
Qed.

Lemma poolElementNodeUpdate_settings n source b n' t : poolElementNodeUpdate n source = (b, n') →
  poolPolicySettingsAdapt (pen_PolicySettings n) t = true →
  poolPolicySettingsAdapt (pen_PolicySettings source) t = true →
  pen_PolicySettings n' = pen_PolicySettings source ∧
  (b = false → n' = set_Flags (flag_clear (flag_clear (pen_Flags n) PENF_MARKED) PENF_UPDATED) n).
Proof.
  unfold poolElementNodeUpdate. simpl. destruct (_ || _) eqn:Hor.
  - destruct (_ <? _); by intros [= <- <-].
  - intros [= <- <-] Ht1 Ht2. apply orb_false_iff in Hor as [Hc _].
    split; [by eapply poolPolicySettingsComparison_eq|done].
Qed.

Lemma poolElementNodeUpdate_wf n source b n' : poolElementNodeUpdate n source = (b, n') →
  pen_wf n → pen_wf source → pen_wf n'.
Proof.
  intros Hu Hwf Hs. assert (is_u32 0) by by apply u32_const.
  unfold poolElementNodeUpdate in Hu. simpl in Hu. destruct (_ || _).
  - unfold pen_wf in *. destruct (_ <? _); injection Hu as <- <-; simpl; [unfold pps_wf in *; tauto|tauto].
  - injection Hu as <- <-. unfold pen_wf in *. simpl. tauto.
Qed.

Lemma poolNodeUpdate_spec st pp pn p n source : pool_inv [] [] st pp pn →
  hs_PoolElementNodes st !! p = Some n → pen_OwnerPoolNode n = Some pp → pen_wf source →
  poolNodeCheckPoolElementNodeCompatibility pn source = RSPERR_OKAY →
  ∃ st' pn' n',
  poolNodeUpdatePoolElementNode pp p source st = Some (RSPERR_OKAY, st') ∧
  pool_inv [] [] st' pp pn' ∧ pool_frame [] pp st st' ∧ pool_same pn pn' ∧
  pn_PoolElementIndexStorage pn' = pn_PoolElementIndexStorage pn ∧
  hs_PoolElementNodes st' !! p = Some n' ∧ pen_OwnerPoolNode n' = Some pp ∧ pe_stable n n' ∧
  pen_PolicySettings n' = pen_PolicySettings source.
Proof.
  intros Hinv Hn Ho Hswf Hsc. pose proof (pi_lookup _ _ _ _ _ Hinv) as Hpn.
  assert (p ∈ st_list (pn_PoolElementIndexStorage pn)) as Hidx by by eapply (pi_member _ _ _ _ _ Hinv).
  destruct (pool_inv_element _ _ _ _ _ _ _ Hinv Hidx Hn) as [Hwf Hc].
  destruct (poolElementNodeUpdate n source) as [b n1] eqn:Hu.
  pose proof (poolElementNodeUpdate_frame _ _ _ _ Hu) as (Hi & Hs & Ho1 & Hch & Hh & Ht & Hsd & Ha & Hv & Hut & Hrt & Hrc).
  destruct (poolElementNodeUpdate_settings n source b n1 (pp_Type (pn_Policy pn)) Hu) as [Hset Hunchanged];
    [by apply compat_policy|by apply compat_policy|].
  pose proof (poolElementNodeUpdate_wf _ _ _ _ Hu Hwf Hswf) as Hwf1.
  assert (pen_TimerCode n1 = pen_TimerCode n) as Htc.
  { clear -Hu. unfold poolElementNodeUpdate in Hu. destruct (_ || _); [destruct (_ <? _)|]; by injection Hu as <- <-. }
  assert (pe_stable n n1) as Hstable by done.
  assert (poolNodeCheckPoolElementNodeCompatibility pn n1 = RSPERR_OKAY) as Hc1 by by eapply (compat_settings pn n source).
  assert (pool_frame [] pp st (pe_store p n1 st)) as Hf1 by by eapply pool_frame_pe_store.
  unfold poolNodeUpdatePoolElementNode. rewrite (run_bind _ _ _ _ _ (pool_get_run _ _ _ Hpn)).
  rewrite (run_bind _ _ _ _ _ (pe_get_run _ _ _ Hn)), Hc, Hu. simpl (RSPERR_OKAY =? _). cbv iota.
  rewrite (run_bind _ _ _ _ _ (pe_update_run _ _ _ _ Hn)). destruct b.
  - (* relink *)
    assert (pool_inv [] [p] (pe_store p n1 st) pp pn) as Hinv1.
    { apply (pool_inv_store [] [p] st pp pn p n); try done; [by eapply pool_inv_dirty; [|exact Hinv]; set_solver|].
      intros _ HD. exfalso. apply HD. left. }
    assert (p ∈ st_list (pn_PoolElementSelectionStorage pn)) as Hsel.
    { apply (pool_inv_elements _ _ _ _ _ _ Hinv) in Hidx as [HU|]; [by apply not_elem_of_nil in HU|done]. }
    destruct (unlink_spec [] [p] (pe_store p n1 st) pp pn p) as (s' & Hrun2 & _ & Hinv2); [done|done|done|].
    destruct (link_spec [] _ pp _ p n1 Hinv2) as (s'' & Hrun3 & _ & Hinv3);
      [simpl; apply lookup_insert_eq|congruence|].
    destruct (policyUpdated_ok (pn_set_PoolElementSelectionStorage s' pn) n1) as [Hcc Hwf3]; [apply Hinv|done|].
    destruct (counters_changed_facts _ _ Hcc) as (Hst3 & Ho3 & _ & Hp3 & _).
    eexists _, _, (policyUpdated (pn_set_PoolElementSelectionStorage s' pn) n1).
    erewrite run_bind; [|rewrite (run_bind _ _ _ _ _ Hrun2); exact Hrun3].
    split; [done|]. split; [exact Hinv3|]. split.
    { eapply pool_frame_trans; [exact Hf1|]. 
      apply (pool_frame_trans _ _ _ (pool_store pp (pn_set_PoolElementSelectionStorage s' pn) (pe_store p n1 st)));
        [by apply (pool_frame_pool_store [] pp _ pn)|].
      apply link_frame; [exact (pi_lookup _ _ _ _ _ Hinv2)|simpl; apply lookup_insert_eq|apply Hinv|done|congruence]. }
    split; [done|]. split; [done|]. split; [simpl; apply lookup_insert_eq|]. split; [congruence|].
    split; [by eapply pe_stable_trans|congruence].
  - (* unchanged position *)
    exists (pe_store p n1 st), pn, n1. split; [done|]. split.
    { apply (pool_inv_store [] [] st pp pn p n); try done. intros _ _. split; [|done].
      rewrite (Hunchanged eq_refl). by apply policyKey_ext. }
    split; [done|]. split; [done|]. split; [done|]. split; [simpl; apply lookup_insert_eq|]. split; [congruence|done].
Qed.

(** ** Removing *)

Lemma poolNodeRemove_spec st pp pn p n : pool_inv [] [] st pp pn → hs_PoolElementNodes st !! p = Some n →
  pen_OwnerPoolNode n = Some pp → ∃ pn',
  let st' := pe_store p (set_OwnerPoolNode None n) (pool_store pp pn' st) in
  poolNodeRemovePoolElementNode pp p st = Some (p, st') ∧
  pool_inv [] [] st' pp pn' ∧ pool_frame [p] pp st st' ∧ pool_same pn pn' ∧
  st_list (pn_PoolElementIndexStorage pn') = l_remove p (st_list (pn_PoolElementIndexStorage pn)).
Proof.
  intros Hinv Hn Ho. pose proof (pi_lookup _ _ _ _ _ Hinv) as Hpn.
  assert (p ∈ st_list (pn_PoolElementIndexStorage pn)) as Hidx by by eapply (pi_member _ _ _ _ _ Hinv).
  assert (p ∈ st_list (pn_PoolElementSelectionStorage pn)) as Hsel.
  { apply (pool_inv_elements _ _ _ _ _ _ Hinv) in Hidx as [HU|]; [by apply not_elem_of_nil in HU|done]. }
  destruct (storageRemove_spec (SlotIndex pp) st st (pn_PoolElementIndexStorage pn) p) as (si & Hrun1 & Hinv1 & Hl1);
    [simpl; by rewrite Hpn|apply Hinv|done|intros q Hq _; repeat split; by apply (si_valid _ _ _ (pi_index _ _ _ _ _ Hinv))|].
  rewrite (slot_set_index st pp pn si Hpn) in Hrun1. set (pn1 := pn_set_PoolElementIndexStorage si pn) in *.
  set (st1 := pool_store pp pn1 st) in *.
  assert (hs_PoolNodes st1 !! pp = Some pn1) as Hpn1 by (simpl; apply lookup_insert_eq).
  pose proof (pi_selection _ _ _ _ _ Hinv) as Hs%sel_inv_clean.
  destruct (storageRemove_spec (SlotSelection pp) st1 st (pn_PoolElementSelectionStorage pn) p) as (ss & Hrun2 & Hinv2 & Hl2);
    [by simpl; rewrite lookup_insert_eq|done|done| |].
  { intros q Hq _. destruct (selection_key_pool st st1 pp pn pn1 q) as (-> & -> & Hval); try done.
    split; [done|]. split; [done|]. apply Hval. by apply Hs. }
  rewrite (slot_set_selection st1 pp pn1 ss Hpn1) in Hrun2.
  set (pn2 := pn_set_PoolElementSelectionStorage ss pn1) in *.
  assert (pool_store pp pn2 st1 = pool_store pp pn2 st) as Hst2.
  { unfold st1, pool_store. simpl. by rewrite insert_insert_eq. }
  rewrite Hst2 in Hrun2. exists pn2. simpl. set (n' := set_OwnerPoolNode None n).
  set (st' := pe_store p n' (pool_store pp pn2 st)).
  assert (hs_PoolNodes st' !! pp = Some pn2) as Hpn2 by (simpl; apply lookup_insert_eq).
  assert (∀ q, q ≠ p → hs_PoolElementNodes st' !! q = hs_PoolElementNodes st !! q) as Hne by (intros; by apply lookup_insert_ne).
  assert (hs_PoolElementNodes st' !! p = Some n') as Hp' by (simpl; apply lookup_insert_eq).
  split; [|split; [|split; [|done]]].
  - unfold poolNodeRemovePoolElementNode. rewrite (run_bind _ _ _ _ _ Hrun1).
    erewrite run_bind; [|apply run_check; by rewrite bool_decide_true].
    rewrite (run_bind _ _ _ _ _ Hrun2). erewrite run_bind; [|by apply pe_update_run]. done.
  - destruct Hinv. split; try done.
    + simpl. eapply slot_inv_ext; [exact Hinv1|]. intros q Hq. rewrite Hl1 in Hq. apply l_remove_elem in Hq as [Hqp Hq].
      unfold slot_key, slot_value, slot_valid. rewrite Hne by done. repeat split. by apply (si_valid _ _ _ pi_index).
    + apply sel_inv_clean. simpl. eapply slot_inv_ext; [exact Hinv2|]. intros q Hq. pose proof Hq as Hq'.
      rewrite Hl2 in Hq. apply l_remove_elem in Hq as [Hqp Hq].
      destruct (si_valid _ _ _ Hs q Hq) as (m & pn3 & Hm & Hom & Hpn3 & Hpol).
      unfold slot_key, slot_value, slot_valid. rewrite Hne, Hpn1, Hpn2 by done. simpl. rewrite Hm.
      split; [done|]. split; [done|]. exists m, pn2. split; [done|]. split; [done|]. split; [done|]. by simplify_eq.
    + simpl. rewrite Hl1, Hl2. simpl. unfold l_remove. by rewrite pi_same.
    + intros q m Hm Hom. simpl. rewrite Hl1. apply l_remove_elem.
      destruct (decide (q = p)) as [->|Hqp]; [rewrite Hp' in Hm; by simplify_eq|]. rewrite Hne in Hm by done. eauto.
    + intros q Hq. simpl in Hq. rewrite Hl1 in Hq. apply l_remove_elem in Hq as [Hqp Hq]. rewrite Hne by done. by apply pi_element.
    + intros q1 q2 m1 m2 Hm1 Hm2 Ho1 Ho2.
      destruct (decide (q1 = p)) as [->|]; [rewrite Hp' in Hm1; by simplify_eq|].
      destruct (decide (q2 = p)) as [->|]; [rewrite Hp' in Hm2; by simplify_eq|].
      rewrite Hne in Hm1, Hm2 by done. by apply (pi_seq q1 q2 m1 m2).
  - eapply pool_frame_trans; [by apply (pool_frame_pool_store [p] pp st pn pn2)|]. by eapply pool_frame_pe_store_self.
Qed.
End effects.
