(* ===== verification/PoolSelection.v ===== *)
(** * Selection of pool elements (poolpolicy-template_impl.h)

    The two selection functions the policies use, and the preparation step
    of weighted round robin.  The theorems show that a selection never
    fails a CHECK, returns distinct elements of the pool and keeps the
    pool's invariant; for round robin they give the new order exactly. *)

From S2P Require Import Prelude Checksum Addresses PoolBasics Storage PoolElement PoolPolicy HandlespaceState PoolNode PoolEffects.
From stdpp Require Import base list gmap numbers option sorting sets.
#[local] Open Scope Z_scope.

Section ops.
Context {ST : Type} `{Storage ST}.
Abbreviation HS := (Handlespace ST).

Definition weightedRoundRobinResetRoundCounters (poolNode : ptr) : M HS () :=
  fuel ← storageFuel (SlotSelection poolNode);
  first ← poolNodeGetFirstPoolElementNodeFromSelection poolNode;
  match first with
  | Some poolElementNode =>
      n ← pe_get poolElementNode;
      let lowestRoundCounter := pen_RoundCounter n in
      walk fuel (poolNodeGetNextPoolElementNodeFromSelection poolNode)
        (λ _ poolElementNode,
           pe_update poolElementNode (λ n, set_RoundCounter (u32 (pen_RoundCounter n - lowestRoundCounter)) n))
        first tt
  | None => mret tt
  end.

Definition weightedRoundRobinPrepareSelection (poolNode : ptr) : M HS () :=
  currentRoundCounter ← weightedRoundRobinGetCurrentRoundCounter poolNode;
  if u32 (currentRoundCounter + 2) <? currentRoundCounter
  then weightedRoundRobinResetRoundCounters poolNode else mret tt.

Definition policyPrepareSelection (poolNode : ptr) : M HS () :=
  pn ← pool_get poolNode;
  match pp_PrepareSelectionFunction (pn_Policy pn) with
  | weightedRoundRobinPrepare => weightedRoundRobinPrepareSelection poolNode
  | PrepareNull => mret tt
  end.

(** The common first part of the selection functions: the CHECK, the
    resequencing and the preparation. *)
Definition beginSelection (poolNode : ptr) (maxPoolElementNodes : Z) : M HS () :=
  CHECK (1 <=? maxPoolElementNodes);;
  pn ← pool_get poolNode;
  (if u32 (pn_GlobalSeqNumber pn + maxPoolElementNodes) <? pn_GlobalSeqNumber pn
   then poolNodeResequence poolNode else mret tt);;
  policyPrepareSelection poolNode.

(** The elements of the array, from [cur] on. *)
Fixpoint collectInOrder (fuel : nat) (poolNode : ptr) (maxPoolElementNodes : Z) (cur : option ptr) :
    M HS (list ptr) :=
  match cur with
  | None => mret []
  | Some poolElementNode =>
      if 0 <? maxPoolElementNodes then
        match fuel with
        | O => abort
        | S fuel' =>
            nxt ← poolNodeGetNextPoolElementNodeFromSelection poolNode poolElementNode;
            rest ← collectInOrder fuel' poolNode (maxPoolElementNodes - 1) nxt;
            mret (poolElementNode :: rest)
        end
      else mret []
  end.

(** [SeqNumber = GlobalSeqNumber++; SelectionCounter++] *)
Definition countSelection (poolNode poolElementNode : ptr) : M HS () :=
  seq ← nextSeqNumber poolNode;
  pe_update poolElementNode (λ n, set_SelectionCounter (u64 (pen_SelectionCounter n + 1)) (set_SeqNumber seq n)).

Definition reinsertSelected (poolNode poolElementNode : ptr) : M HS () :=
  poolNodeUnlinkPoolElementNodeFromSelection poolNode poolElementNode;;
  countSelection poolNode poolElementNode;;
  policyUpdatePoolElementNode poolNode poolElementNode;;
  poolNodeLinkPoolElementNodeToSelection poolNode poolElementNode.

Fixpoint forEach {St} (f : ptr → M St ()) (l : list ptr) : M St () :=
  match l with
  | [] => mret tt
  | p :: l' => f p;; forEach f l'
  end.

Definition effectiveIncrement (pn : PoolNode ST) (maxIncrement : Z) : Z :=
  if maxIncrement =? 0 then pp_DefaultMaxIncrement (pn_Policy pn) else maxIncrement.

(** The result is the contents of [poolElementNodeArray]. *)
Definition poolPolicySelectPoolElementNodesBySortingOrder (poolNode : ptr)
    (maxPoolElementNodes maxIncrement : Z) : M HS (list ptr) :=
  pn ← pool_get poolNode;
  let maxIncrement := effectiveIncrement pn maxIncrement in
  beginSelection poolNode maxPoolElementNodes;;
  fuel ← storageFuel (SlotSelection poolNode);
  first ← poolNodeGetFirstPoolElementNodeFromSelection poolNode;
  poolElementNodeArray ← collectInOrder fuel poolNode maxPoolElementNodes first;
  let elementsToUpdate := Z.min (Z.of_nat (length poolElementNodeArray)) maxIncrement in
  forEach (reinsertSelected poolNode) (take (Z.to_nat elementsToUpdate) poolElementNodeArray);;
  mret poolElementNodeArray.

(** One turn per [i]; [random64 i] is the random number it draws.
    [selected] are the elements taken so far, in reverse. *)
Fixpoint selectByValue (random64 : nat → Z) (poolNode : ptr) (maxIncrement : Z) (turns i : nat)
    (selected : list ptr) : M HS (list ptr) :=
  match turns with
  | O => mret selected
  | S turns' =>
      maxValue ← storageRead (SlotSelection poolNode) ST_GetValueSum;
      if maxValue <? 1 then mret selected
      else
        node ← (λ st, storageRead (SlotSelection poolNode)
                        (ST_GetNodeByValue (slot_value (SlotSelection poolNode) st) (random64 i mod maxValue)) st);
        match node with
        | Some poolElementNode =>
            countSelection poolNode poolElementNode;;
            (if Z.of_nat (length selected) <? maxIncrement
             then policyUpdatePoolElementNode poolNode poolElementNode else mret tt);;
            poolNodeUnlinkPoolElementNodeFromSelection poolNode poolElementNode;;
            selectByValue random64 poolNode maxIncrement turns' (S i) (poolElementNode :: selected)
        | None => mret selected
        end
  end.

Definition poolPolicySelectPoolElementNodesByValueTree (random64 : nat → Z) (poolNode : ptr)
    (maxPoolElementNodes maxIncrement : Z) : M HS (list ptr) :=
  poolElements ← storageGetElements (SlotSelection poolNode);
  pn ← pool_get poolNode;
  let maxIncrement := effectiveIncrement pn maxIncrement in
  beginSelection poolNode maxPoolElementNodes;;
  selected ← selectByValue random64 poolNode maxIncrement
               (Z.to_nat (Z.min poolElements maxPoolElementNodes)) 0 [];
  let poolElementNodeArray := reverse selected in
  forEach (poolNodeLinkPoolElementNodeToSelection poolNode) poolElementNodeArray;;
  mret poolElementNodeArray.

Definition policySelectPoolElementNodes (random64 : nat → Z) (poolNode : ptr)
    (maxPoolElementNodes maxIncrement : Z) : M HS (list ptr) :=
  pn ← pool_get poolNode;
  match pp_SelectionFunction (pn_Policy pn) with
  | SelectBySortingOrder => poolPolicySelectPoolElementNodesBySortingOrder poolNode maxPoolElementNodes maxIncrement
  | SelectByValueTree => poolPolicySelectPoolElementNodesByValueTree random64 poolNode maxPoolElementNodes maxIncrement
  end.
End ops.

Section proofs.
Context {ST : Type} `{SL : StorageLaws ST}.
Abbreviation HS := (Handlespace ST).
Implicit Types (st : HS) (pn : PoolNode ST) (p q pp : ptr) (U D X : list ptr).

Lemma collect_run st pp s v : slot_get (SlotSelection pp) st = Some s → st_ok v s →
  ∀ l2 l1 fuel max, st_list s = l1 ++ l2 → (length l2 <= fuel)%nat →
  collectInOrder fuel pp max (head l2) st = Some (take (Z.to_nat max) l2, st).
Proof.
  intros Hg Hok l2. induction l2 as [|p l2 IH]; intros l1 fuel max Hl Hfuel.
  - destruct fuel; simpl; by rewrite take_nil.
  - destruct fuel as [|fuel]; simpl in Hfuel; [lia|]. cbn [collectInOrder head].
    destruct (Z.ltb_spec 0 max).
    + erewrite run_bind; [|by eapply storageGetNext_app].
      erewrite run_bind; [|apply (IH (l1 ++ [p])); [by rewrite <- app_assoc|lia]].
      replace (Z.to_nat max) with (S (Z.to_nat (max - 1))) by lia. done.
    + replace (Z.to_nat max) with O by lia. done.
Qed.

(** ** Weighted round robin: lowering the round counters *)

Definition lowerRounds (l : list ptr) (lowest : Z) (h : gmap ptr PoolElementNode) : gmap ptr PoolElementNode :=
  map_imap (λ q n, Some (if decide (q ∈ l) then set_RoundCounter (u32 (pen_RoundCounter n - lowest)) n else n)) h.

Lemma lowerRounds_lookup l lowest h q : lowerRounds l lowest h !! q =
  (λ n, if decide (q ∈ l) then set_RoundCounter (u32 (pen_RoundCounter n - lowest)) n else n) <$> h !! q.
Proof. unfold lowerRounds. rewrite map_lookup_imap. by destruct (h !! q). Qed.

Lemma lowerRounds_snoc l p lowest h n : p ∉ l → h !! p = Some n →
  <[p := set_RoundCounter (u32 (pen_RoundCounter n - lowest)) n]> (lowerRounds l lowest h) = lowerRounds (l ++ [p]) lowest h.
Proof.
  intros Hp Hn. apply map_eq. intros q. rewrite lowerRounds_lookup. destruct (decide (q = p)) as [->|Hne].
  - rewrite lookup_insert_eq, Hn. simpl. rewrite decide_True by set_solver. done.
  - rewrite lookup_insert_ne, lowerRounds_lookup by done. f_equal.
    destruct (decide (q ∈ l)) as [Hq|Hq], (decide (q ∈ l ++ [p])) as [Hq'|Hq']; try done; exfalso; set_solver.
Qed.

Lemma lowerRounds_nil lowest h : lowerRounds [] lowest h = h.
Proof.
  apply map_eq. intros q. rewrite lowerRounds_lookup. by destruct (h !! q).
Qed.

Lemma resetRounds_run st pp pn v p0 l n0 : hs_PoolNodes st !! pp = Some pn →
  st_ok v (pn_PoolElementSelectionStorage pn) → st_list (pn_PoolElementSelectionStorage pn) = p0 :: l →
  hs_PoolElementNodes st !! p0 = Some n0 →
  (∀ p, p ∈ st_list (pn_PoolElementSelectionStorage pn) → is_Some (hs_PoolElementNodes st !! p)) →
  weightedRoundRobinResetRoundCounters pp st =
    Some (tt, hs_set_PoolElementNodes (lowerRounds (p0 :: l) (pen_RoundCounter n0) (hs_PoolElementNodes st)) st).
Proof.
  intros Hpn Hok Hl Hn0 Hheap. unfold weightedRoundRobinResetRoundCounters.
  assert (slot_get (SlotSelection pp) st = Some (pn_PoolElementSelectionStorage pn)) as Hg by (simpl; by rewrite Hpn).
  unfold storageFuel. rewrite (run_bind _ _ _ _ _ (storageRead_eq _ _ _ _ Hg)).
  unfold poolNodeGetFirstPoolElementNodeFromSelection, storageGetFirst.
  rewrite (run_bind _ _ _ _ _ (storageRead_eq _ _ _ _ Hg)), (st_first_law _ _ Hok), Hl. cbn [head].
  rewrite (run_bind _ _ _ _ _ (pe_get_run _ _ _ Hn0)). cbv zeta. set (r := pen_RoundCounter n0).
  pose (I := λ (l1 : list ptr) (_ : unit) (s : HS),
    s = hs_set_PoolElementNodes (lowerRounds l1 r (hs_PoolElementNodes st)) st).
  change (Some p0) with (head (p0 :: l)).
  destruct (wp_walk (poolNodeGetNextPoolElementNodeFromSelection pp)
    (λ (_ : unit) poolElementNode, pe_update poolElementNode (λ n, set_RoundCounter (u32 (pen_RoundCounter n - r)) n))
    I (p0 :: l)) with (fuel := length (p0 :: l)) (acc := tt) (st := st) as (u & s' & Hrun & Hs).
  - intros l1 p l2 [] s Hl' ->.
    pose proof (st_ok_nodup _ _ Hok) as Hnd. rewrite Hl, Hl' in Hnd. apply NoDup_app in Hnd as (_ & Hnin & _).
    assert (p ∉ l1) as Hp1 by (intros Hp1; by apply (Hnin p Hp1); left).
    destruct (Hheap p) as [n Hn]; [rewrite Hl, Hl'; set_solver|].
    eapply wp_eq; [|split].
    + apply pe_update_run. simpl. rewrite lowerRounds_lookup, Hn. simpl. by rewrite decide_False.
    + unfold I, pe_store. simpl. by rewrite lowerRounds_snoc.
    + eapply wp_eq; [|done]. eapply (storageGetNext_app _ _ _ l1 p l2); [simpl; by rewrite Hpn|exact Hok|by rewrite Hl].
  - done.
  - unfold I. rewrite lowerRounds_nil. by destruct st.
  - destruct u. rewrite Hrun. by rewrite Hs.
Qed.

Lemma policyKey_wrr n : policyKey PPT_WEIGHTED_ROUNDROBIN n = [pen_RoundCounter n; pen_VirtualCounter n; pen_SeqNumber n].
Proof. done. Qed.

(** Lowering all round counters by the lowest keeps the order. *)
Lemma lowerRounds_sorted (h : gmap ptr PoolElementNode) p0 l n0 :
  key_sorted (λ q, default [] (policyKey PPT_WEIGHTED_ROUNDROBIN <$> h !! q)) (p0 :: l) →
  h !! p0 = Some n0 → (∀ q n, q ∈ p0 :: l → h !! q = Some n → pen_wf n) → (∀ q, q ∈ p0 :: l → is_Some (h !! q)) →
  key_sorted (λ q, default [] (policyKey PPT_WEIGHTED_ROUNDROBIN <$> lowerRounds (p0 :: l) (pen_RoundCounter n0) h !! q)) (p0 :: l).
Proof.
  intros Hs Hn0 Hwf Hheap.
  assert (∀ q n, q ∈ p0 :: l → h !! q = Some n → pen_RoundCounter n0 <= pen_RoundCounter n) as Hlow.
  { intros q n Hq Hn. apply elem_of_cons in Hq as [->|Hq]; [simplify_eq; lia|].
    apply key_sorted_cons in Hs as [Hs _]. specialize (Hs q Hq). unfold key_lt in Hs.
    rewrite Hn0, Hn in Hs. cbn [fmap option_fmap option_map default] in Hs. rewrite !policyKey_wrr in Hs. cbn [lexcmp id] in Hs. revert Hs.
    destruct (Z.ltb_spec (pen_RoundCounter n0) (pen_RoundCounter n)), (Z.ltb_spec (pen_RoundCounter n) (pen_RoundCounter n0)); lia. }
  set (L := p0 :: l) in *. set (r := pen_RoundCounter n0) in *.
  assert (∀ q n, q ∈ L → h !! q = Some n →
    default [] (policyKey PPT_WEIGHTED_ROUNDROBIN <$> lowerRounds L r h !! q) =
      [pen_RoundCounter n - r; pen_VirtualCounter n; pen_SeqNumber n]) as Hkey.
  { intros q n Hq Hn. rewrite lowerRounds_lookup, Hn. simpl. rewrite decide_True by done. rewrite policyKey_wrr. cbn [pen_RoundCounter pen_VirtualCounter pen_SeqNumber set_RoundCounter]. f_equal.
    apply wrap_small. pose proof (Hwf q n Hq Hn) as (_ & _ & _ & _ & _ & [? ?] & _).
    specialize (Hlow q n Hq Hn). pose proof (Hwf p0 n0 ltac:(left) Hn0) as (_ & _ & _ & _ & _ & [? ?] & _).
    unfold in_width. subst r. lia. }
  clearbody L. clear Hlow.
  assert (∀ q, q ∈ L → ∃ n, h !! q = Some n) as Hh by (intros q Hq; by apply Hheap).
  assert (key_sorted (λ q, [default 0 (pen_RoundCounter <$> h !! q) - r; default 0 (pen_VirtualCounter <$> h !! q);
    default 0 (pen_SeqNumber <$> h !! q)]) L) as Hmid.
  { clear -Hs Hh. induction L as [|x y IH]; [constructor|].
    apply key_sorted_cons in Hs as [Hlt Hs]. apply key_sorted_cons. split.
    - intros q Hq. specialize (Hlt q Hq). unfold key_lt in *. destruct (Hh x ltac:(left)) as [a Ha].
      destruct (Hh q ltac:(by right)) as [b Hb]. rewrite Ha, Hb in *.
      cbn [fmap option_fmap option_map default] in *. rewrite !policyKey_wrr in Hlt. cbn [lexcmp id] in *. revert Hlt.
      destruct (Z.ltb_spec (pen_RoundCounter a) (pen_RoundCounter b)), (Z.ltb_spec (pen_RoundCounter b) (pen_RoundCounter a)),
        (Z.ltb_spec (pen_RoundCounter a - r) (pen_RoundCounter b - r)), (Z.ltb_spec (pen_RoundCounter b - r) (pen_RoundCounter a - r)); lia || done.
    - apply IH; [done|]. intros q Hq. apply Hh. by right. }
  eapply key_sorted_ext; [|exact Hmid]. intros q Hq. destruct (Hh q Hq) as [n Hn]. rewrite (Hkey q n Hq Hn). by rewrite Hn.
Qed.

Lemma pool_selection_members st pp pn q : pool_inv [] [] st pp pn →
  q ∈ st_list (pn_PoolElementSelectionStorage pn) → ∃ n, hs_PoolElementNodes st !! q = Some n ∧
  pen_OwnerPoolNode n = Some pp ∧ pen_wf n ∧ poolNodeCheckPoolElementNodeCompatibility pn n = RSPERR_OKAY.
Proof.
  intros Hinv Hq. destruct (pi_element _ _ _ _ _ Hinv q) as (n & Hn & Hwf & Hc & [[Ho _]|[_ HU]]);
    [apply (pool_inv_elements _ _ _ _ _ _ Hinv); by right|eauto|by apply not_elem_of_nil in HU].
Qed.

Lemma pool_inv_lowerRounds st pp pn p0 l n0 : pool_inv [] [] st pp pn →
  pp_Type (pn_Policy pn) = PPT_WEIGHTED_ROUNDROBIN →
  st_list (pn_PoolElementSelectionStorage pn) = p0 :: l → hs_PoolElementNodes st !! p0 = Some n0 →
  let st' := hs_set_PoolElementNodes (lowerRounds (p0 :: l) (pen_RoundCounter n0) (hs_PoolElementNodes st)) st in
  pool_inv [] [] st' pp pn ∧ pool_frame [] pp st st'.
Proof.
  intros Hinv Ht Hl Hn0 st'. pose proof (pi_lookup _ _ _ _ _ Hinv) as Hpn.
  pose proof (pi_selection _ _ _ _ _ Hinv) as Hsel%sel_inv_clean.
  assert (∀ q, q ∈ p0 :: l → ∃ n, hs_PoolElementNodes st !! q = Some n ∧ pen_OwnerPoolNode n = Some pp ∧ pen_wf n ∧
    poolNodeCheckPoolElementNodeCompatibility pn n = RSPERR_OKAY) as Hmem.
  { intros q Hq. rewrite <- Hl in Hq. by apply pool_selection_members. }
  set (low := λ q n, if decide (q ∈ p0 :: l) then set_RoundCounter (u32 (pen_RoundCounter n - pen_RoundCounter n0)) n else n).
  assert (∀ q, hs_PoolElementNodes st' !! q = low q <$> hs_PoolElementNodes st !! q) as Hlook by apply lowerRounds_lookup.
  assert (∀ q n, pe_stable n (low q n) ∧ pen_OwnerPoolNode (low q n) = pen_OwnerPoolNode n ∧
    pen_SeqNumber (low q n) = pen_SeqNumber n ∧ pen_Value (low q n) = pen_Value n ∧ (pen_wf n → pen_wf (low q n)) ∧
    poolNodeCheckPoolElementNodeCompatibility pn (low q n) = poolNodeCheckPoolElementNodeCompatibility pn n) as Hlow.
  { intros q n. unfold low. destruct (decide _); [|done]. do 4 (split; [done|]). split; [|done].
    pose proof (wrap_in_width 32 (pen_RoundCounter n - pen_RoundCounter n0) ltac:(lia)). unfold pen_wf. simpl. tauto. }
  split.
  - destruct Hinv. split; try done.
    + eapply slot_inv_ext; [done|]. intros q Hq. destruct (pi_element q Hq) as (n & Hn & _).
      unfold slot_key, slot_value, slot_valid. rewrite Hlook, Hn. simpl. unfold indexKey.
      destruct (Hlow q n) as ((-> & _) & _). eauto.
    + apply sel_inv_clean. split.
      * apply (st_ok_value (slot_value (SlotSelection pp) st)); [apply Hsel|]. intros q Hq. unfold slot_value. rewrite Hlook.
        destruct (hs_PoolElementNodes st !! q) as [n|]; simpl; [|done]. by destruct (Hlow q n) as (_ & _ & _ & -> & _).
      * rewrite Hl. apply (key_sorted_ext (λ q, default [] (policyKey PPT_WEIGHTED_ROUNDROBIN <$> hs_PoolElementNodes st' !! q))).
        { intros q _. by rewrite (slot_key_selection st' pp pn), Ht. }
        apply lowerRounds_sorted; [|done| |].
        -- eapply key_sorted_ext; [|rewrite <- Hl; apply Hsel]. intros q _. by rewrite (slot_key_selection st pp pn), Ht.
        -- intros q n Hq Hn. destruct (Hmem q Hq) as (m & ? & _ & ? & _). by simplify_eq.
        -- intros q Hq. destruct (Hmem q Hq) as (m & -> & _). eauto.
      * intros q Hq. rewrite Hl in Hq. destruct (Hmem q Hq) as (n & Hn & Ho & _). exists (low q n), pn.
        rewrite Hlook, Hn. destruct (Hlow q n) as (_ & -> & _). done.
    + intros q n' Hn' Ho'. rewrite Hlook in Hn'. apply fmap_Some in Hn' as (n & Hn & ->).
      destruct (Hlow q n) as (_ & Ho & _). eapply pi_member; [done|congruence].
    + intros q Hq. destruct (pi_element q Hq) as (n & Hn & Hwf & Hc & Ho'). exists (low q n). rewrite Hlook, Hn.
      destruct (Hlow q n) as (_ & -> & -> & _ & Hw & ->). auto.
    + intros q1 q2 n1' n2' H1 H2 Ho1 Ho2 Hs. rewrite Hlook in H1, H2.
      apply fmap_Some in H1 as (n1 & Hn1 & ->), H2 as (n2 & Hn2 & ->).
      destruct (Hlow q1 n1) as (_ & Hoo1 & Hss1 & _), (Hlow q2 n2) as (_ & Hoo2 & Hss2 & _).
      eapply pi_seq; try done; congruence.
  - split; [by destruct st|done| | |].
    + intros pn1 Hpn1. exists pn1. by split.
    + intros q n _ Hn. exists (low q n). rewrite Hlook, Hn. destruct (Hlow q n) as (Hst & Ho & _).
      split; [done|]. split; [done|]. split; [done|]. intros Hne. unfold low. rewrite decide_False; [done|].
      intros Hq. destruct (Hmem q Hq) as (m & ? & ? & _). by simplify_eq.
    + intros q Hq. by rewrite Hlook, Hq.
Qed.

Lemma prepare_spec st pp pn : pool_inv [] [] st pp pn → ∃ st',
  policyPrepareSelection pp st = Some (tt, st') ∧ pool_inv [] [] st' pp pn ∧ pool_frame [] pp st st' ∧
  (∀ q, pen_Value <$> hs_PoolElementNodes st' !! q = pen_Value <$> hs_PoolElementNodes st !! q).
Proof.
  intros Hinv. pose proof (pi_lookup _ _ _ _ _ Hinv) as Hpn.
  unfold policyPrepareSelection. rewrite (run_bind _ _ _ _ _ (pool_get_run _ _ _ Hpn)).
  destruct (pp_PrepareSelectionFunction (pn_Policy pn)) eqn:Hprep.
  { exists st. split; [done|]. split; [done|]. split; [apply pool_frame_refl|done]. }
  assert (pp_Type (pn_Policy pn) = PPT_WEIGHTED_ROUNDROBIN) as Ht.
  { apply (@pl_prepare (pn_Policy pn)); [apply policy_lawful, Hinv|done]. }
  unfold weightedRoundRobinPrepareSelection, weightedRoundRobinGetCurrentRoundCounter, poolNodeGetFirstPoolElementNodeFromSelection.
  pose proof (pi_selection _ _ _ _ _ Hinv) as Hsel%sel_inv_clean.
  destruct (st_list (pn_PoolElementSelectionStorage pn)) as [|p0 l] eqn:Hl.
  - erewrite run_bind; [|erewrite run_bind; [|apply storageGetFirst_spec; [simpl; by rewrite Hpn|done]]; rewrite Hl; done].
    exists st. split; [done|]. split; [done|]. split; [apply pool_frame_refl|done].
  - destruct (pool_selection_members st pp pn p0 Hinv) as (n0 & Hn0 & _); [rewrite Hl; left|].
    erewrite run_bind; [|erewrite run_bind; [|apply storageGetFirst_spec; [simpl; by rewrite Hpn|done]];
      rewrite Hl; cbn [head]; by rewrite (run_bind _ _ _ _ _ (pe_get_run _ _ _ Hn0))].
    destruct (_ <? _).
    + destruct (pool_inv_lowerRounds st pp pn p0 l n0) as [Hinv' Hf']; try done.
      eexists. split; [|split; [exact Hinv'|split; [exact Hf'|]]].
      2: { intros q. simpl. rewrite lowerRounds_lookup. destruct (hs_PoolElementNodes st !! q); simpl; [|done]. by destruct (decide _). }
      eapply resetRounds_run; [done|apply Hsel|done|done|]. intros q Hq.
      destruct (pool_selection_members st pp pn q Hinv Hq) as (n & -> & _). eauto.
    + exists st. split; [done|]. split; [done|]. split; [apply pool_frame_refl|done].
Qed.

Lemma no_wrap g max : is_u32 g → 0 <= max < 2 ^ 32 → u32 (g + max) <? g = false → g + max < 2 ^ 32.
Proof.
  unfold in_width, wrap. change (2 ^ 32) with 4294967296. intros Hg Hm Hlt%Z.ltb_ge.
  destruct (decide (g + max < 4294967296)); [done|].
  rewrite <- (Z_mod_plus_full _ (-1)), Z.mod_small in Hlt; lia.
Qed.

(** After the preparation there are enough sequence numbers left. *)
Lemma begin_spec st pp pn max : pool_inv [] [] st pp pn → 1 <= max < 2 ^ 32 →
  2 * Z.of_nat (length (st_list (pn_PoolElementSelectionStorage pn))) < 2 ^ 32 →
  ∃ st' pn', beginSelection pp max st = Some (tt, st') ∧ pool_inv [] [] st' pp pn' ∧ pool_frame [] pp st st' ∧
  pool_same pn pn' ∧
  pn_PoolElementIndexStorage pn' = pn_PoolElementIndexStorage pn ∧
  pn_PoolElementSelectionStorage pn' = pn_PoolElementSelectionStorage pn ∧
  pn_GlobalSeqNumber pn' + Z.min (Z.of_nat (length (st_list (pn_PoolElementSelectionStorage pn)))) max < 2 ^ 32 ∧
  (∀ q, pen_Value <$> hs_PoolElementNodes st' !! q = pen_Value <$> hs_PoolElementNodes st !! q).
Proof.
  intros Hinv Hmax Hlen. pose proof (pi_lookup _ _ _ _ _ Hinv) as Hpn.
  set (b := u32 (pn_GlobalSeqNumber pn + max) <? pn_GlobalSeqNumber pn).
  destruct (resequence_if b [] st pp pn) as (st1 & pn1 & Hrun1 & Hinv1 & Hf1 & Hidx1 & Hsel1 & _ & Hsame1 & Hg1 & Hval1);
    [done|intros p n Hp; by apply not_elem_of_nil in Hp|].
  destruct (prepare_spec st1 pp pn1 Hinv1) as (st2 & Hrun2 & Hinv2 & Hf2 & Hval2).
  exists st2, pn1. split; [|split; [done|split; [by eapply pool_frame_trans|split; [done|split; [done|split; [done|split]]]]]].
  - unfold beginSelection. erewrite run_bind; [|apply run_check; apply Z.leb_le; lia].
    rewrite (run_bind _ _ _ _ _ (pool_get_run _ _ _ Hpn)). fold b. by rewrite (run_bind _ _ _ _ _ Hrun1).
  - rewrite Hg1. destruct b eqn:Hb; [lia|].
    pose proof (no_wrap _ max (pi_global _ _ _ _ _ Hinv) ltac:(lia) Hb). lia.
  - intros q. by rewrite Hval2, Hval1.
Qed.

Lemma l_insert_last (cmp : ptr → Z) p l : (∀ q, q ∈ l → 0 <= cmp q) → l_insert cmp p l = l ++ [p].
Proof.
  induction l as [|q l IH]; intros Hge; simpl; [done|].
  destruct (Z.ltb_spec (cmp q) 0); [specialize (Hge q ltac:(left)); lia|]. rewrite IH; [done|].
  intros x Hx. apply Hge. by right.
Qed.

Definition selected_node (seq : Z) (n : PoolElementNode) : PoolElementNode :=
  set_SelectionCounter (u64 (pen_SelectionCounter n + 1)) (set_SeqNumber seq n).

Lemma selected_node_facts g n : is_u32 g → pen_wf n → pen_wf (selected_node g n) ∧ pe_stable n (selected_node g n) ∧
  pen_OwnerPoolNode (selected_node g n) = pen_OwnerPoolNode n.
Proof. intros Hg Hwf. split; [|done]. unfold pen_wf in *. simpl. tauto. Qed.

(** Numbering a selected element that is unlinked or marked dirty. *)
Lemma countSelection_spec U D st pp pn p n : pool_inv U D st pp pn → p ∈ U ∨ p ∈ D →
  hs_PoolElementNodes st !! p = Some n → pen_OwnerPoolNode n = Some pp → pn_GlobalSeqNumber pn + 1 < 2 ^ 32 →
  let pn' := pn_set_GlobalSeqNumber (pn_GlobalSeqNumber pn + 1) pn in
  let st' := pe_store p (selected_node (pn_GlobalSeqNumber pn) n) (pool_store pp pn' st) in
  countSelection pp p st = Some (tt, st') ∧ pool_inv U D st' pp pn' ∧ pool_frame [] pp st st'.
Proof.
  intros Hinv HUD Hn Ho Hg pn' st'. pose proof (pi_lookup _ _ _ _ _ Hinv) as Hpn.
  assert (p ∈ st_list (pn_PoolElementIndexStorage pn)) as Hidx by by eapply (pi_member _ _ _ _ _ Hinv).
  destruct (pool_inv_element _ _ _ _ _ _ _ Hinv Hidx Hn) as [Hwf Hc].
  pose proof (pi_global _ _ _ _ _ Hinv) as Hgw.
  destruct (selected_node_facts (pn_GlobalSeqNumber pn) n Hgw Hwf) as (Hwf' & Hst' & Ho'). split; [|split].
  - unfold countSelection. rewrite (run_bind _ _ _ _ _ (nextSeqNumber_run _ _ _ Hpn)).
    rewrite wrap_small by (destruct Hgw; unfold in_width; lia). by erewrite pe_update_run.
  - apply (pool_inv_number U D st pp pn p n); done.
  - eapply pool_frame_trans; [by apply (pool_frame_pool_store [] pp st pn pn')|].
    eapply pool_frame_pe_store; [done|]. intros _. by rewrite Ho'.
Qed.

Lemma policyUpdate_spec U D st pp pn p n : pool_inv U D st pp pn → p ∈ U ∨ p ∈ D →
  hs_PoolElementNodes st !! p = Some n → pen_OwnerPoolNode n = Some pp →
  let st' := pe_store p (policyUpdated pn n) st in
  policyUpdatePoolElementNode pp p st = Some (tt, st') ∧ pool_inv U D st' pp pn ∧ pool_frame [] pp st st' ∧
  counters_changed n (policyUpdated pn n).
Proof.
  intros Hinv HUD Hn Ho st'. pose proof (pi_lookup _ _ _ _ _ Hinv) as Hpn.
  assert (p ∈ st_list (pn_PoolElementIndexStorage pn)) as Hidx by by eapply (pi_member _ _ _ _ _ Hinv).
  destruct (pool_inv_element _ _ _ _ _ _ _ Hinv Hidx Hn) as [Hwf Hc].
  destruct (policyUpdated_ok pn n (pi_policy _ _ _ _ _ Hinv) Hwf) as [Hcc Hwf'].
  destruct (counters_changed_facts _ _ Hcc) as (Hst & Ho' & _).
  split; [by apply policyUpdate_run|]. split; [by eapply pool_inv_counters|]. split; [|done].
  eapply pool_frame_pe_store; [done|]. by rewrite Ho'.
Qed.

Lemma reinsert_spec st pp pn p : pool_inv [] [] st pp pn → p ∈ st_list (pn_PoolElementSelectionStorage pn) →
  pn_GlobalSeqNumber pn + 1 < 2 ^ 32 → ∃ st' pn',
  reinsertSelected pp p st = Some (tt, st') ∧ pool_inv [] [] st' pp pn' ∧ pool_frame [] pp st st' ∧ pool_same pn pn' ∧
  pn_GlobalSeqNumber pn' = pn_GlobalSeqNumber pn + 1 ∧
  pn_PoolElementIndexStorage pn' = pn_PoolElementIndexStorage pn ∧
  st_list (pn_PoolElementSelectionStorage pn') ≡ₚ st_list (pn_PoolElementSelectionStorage pn) ∧
  (pp_Type (pn_Policy pn) = PPT_ROUNDROBIN → st_list (pn_PoolElementSelectionStorage pn') =
     l_remove p (st_list (pn_PoolElementSelectionStorage pn)) ++ [p]).
Proof.
  intros Hinv Hp Hg. destruct (pool_selection_members st pp pn p Hinv Hp) as (n & Hn & Ho & Hwf & Hc).
  assert (NoDup (st_list (pn_PoolElementSelectionStorage pn))) as Hnd.
  { apply pool_inv_nodup in Hinv. by apply Hinv. }
  destruct (unlink_spec [] [] st pp pn p) as (s1 & Hrun1 & Hl1 & Hinv1); [done|done|set_solver|].
  set (pn1 := pn_set_PoolElementSelectionStorage s1 pn) in *. set (st1 := pool_store pp pn1 st) in *.
  assert (pool_frame [] pp st st1) as Hf1.
  { eapply pool_frame_pool_store; [apply Hinv|done]. }
  destruct (countSelection_spec [p] [] st1 pp pn1 p n) as (Hrun2 & Hinv2 & Hf2); [done|left; left|done|done|done|].
  set (pn2 := pn_set_GlobalSeqNumber (pn_GlobalSeqNumber pn1 + 1) pn1) in *.
  set (n2 := selected_node (pn_GlobalSeqNumber pn1) n) in *.
  set (st2 := pe_store p n2 (pool_store pp pn2 st1)) in *.
  assert (hs_PoolElementNodes st2 !! p = Some n2) as Hn2 by (simpl; apply lookup_insert_eq).
  destruct (policyUpdate_spec [p] [] st2 pp pn2 p n2) as (Hrun3 & Hinv3 & Hf3 & Hcc3); [done|left; left|done|done|].
  set (n3 := policyUpdated pn2 n2) in *. set (st3 := pe_store p n3 st2) in *.
  assert (hs_PoolElementNodes st3 !! p = Some n3) as Hn3 by (simpl; apply lookup_insert_eq).
  destruct (counters_changed_facts _ _ Hcc3) as (Hst3 & Ho3 & Hs3 & _).
  destruct (link_spec [] st3 pp pn2 p n3) as (s4 & Hrun4 & Hl4 & Hinv4); [done|done|by rewrite Ho3|].
  assert (p ∈ st_list (pn_PoolElementIndexStorage pn2)) as Hidx.
  { apply (pool_inv_elements _ _ _ _ _ _ Hinv3). left. left. }
  destruct (pool_inv_element _ _ _ _ _ _ _ Hinv3 Hidx Hn3) as [Hwf3 _].
  eexists _, _. split; [|split; [exact Hinv4|split; [|split; [done|split; [done|split; [done|split]]]]]].
  - unfold reinsertSelected. rewrite (run_bind _ _ _ _ _ Hrun1), (run_bind _ _ _ _ _ Hrun2), (run_bind _ _ _ _ _ Hrun3).
    exact Hrun4.
  - eapply pool_frame_trans; [exact Hf1|]. eapply pool_frame_trans; [exact Hf2|]. eapply pool_frame_trans; [exact Hf3|].
    apply link_frame; [apply Hinv3|done|apply Hinv|done|by rewrite Ho3].
  - simpl. rewrite Hl4, l_insert_Permutation. simpl. rewrite Hl1. by rewrite <- l_remove_Permutation.
  - intros Ht. change (st_list s4 = l_remove p (st_list (pn_PoolElementSelectionStorage pn)) ++ [p]).
    rewrite Hl4. change (pn_PoolElementSelectionStorage pn2) with s1. rewrite Hl1. apply l_insert_last. intros q Hq.
    apply l_remove_elem in Hq as [Hne Hq]. destruct (pool_selection_members st pp pn q Hinv Hq) as (m & Hm & Hom & _).
    destruct (pi_element _ _ _ _ _ Hinv q) as (m' & ? & _ & _ & [[_ Hlt]|[_ HU]]);
      [apply (pool_inv_elements _ _ _ _ _ _ Hinv); by right| |by apply not_elem_of_nil in HU]. simplify_eq.
    destruct (policyUpdated_ok pn2 n3 (pi_policy _ _ _ _ _ Hinv) Hwf3) as [Hcc4 _].
    destruct (counters_changed_facts _ _ Hcc4) as (_ & _ & Hs4 & _).
    rewrite !(slot_key_selection _ pp pn2) by (simpl; apply lookup_insert_eq). simpl.
    rewrite !lookup_insert_eq, !lookup_insert_ne, Hm by done. simpl. rewrite Ht. cbn [policyKey policyBySeq].
    change (policyKey PPT_ROUNDROBIN ?x) with [pen_SeqNumber x]. rewrite Hs4, Hs3. simpl.
    destruct (Z.ltb_spec (pn_GlobalSeqNumber pn) (pen_SeqNumber m)); [lia|]. destruct (_ <? _); lia.
Qed.

Lemma l_remove_head p l : NoDup (p :: l) → l_remove p (p :: l) = l.
Proof.
  intros Hnd. unfold l_remove. rewrite filter_cons_False by tauto.
  apply (l_remove_not_elem p l). by apply NoDup_cons_1_1 in Hnd.
Qed.

(** What the callers of a selection rely on. *)
Definition selection_result pp st pn st' pn' : Prop :=
  pool_inv [] [] st' pp pn' ∧ pool_frame [] pp st st' ∧ pool_same pn pn' ∧
  pn_PoolElementIndexStorage pn' = pn_PoolElementIndexStorage pn ∧
  st_list (pn_PoolElementSelectionStorage pn') ≡ₚ st_list (pn_PoolElementSelectionStorage pn).

Lemma selection_result_trans pp st1 pn1 st2 pn2 st3 pn3 : selection_result pp st1 pn1 st2 pn2 →
  selection_result pp st2 pn2 st3 pn3 → selection_result pp st1 pn1 st3 pn3.
Proof.
  intros (_ & F1 & S1 & I1 & P1) (Hinv & F2 & S2 & I2 & P2). split; [done|].
  split; [by eapply pool_frame_trans|]. split; [by eapply pool_same_trans|]. split; [congruence|]. by rewrite P2.
Qed.

Lemma forEach_reinsert_spec pp l st pn : pool_inv [] [] st pp pn →
  (∀ p, p ∈ l → p ∈ st_list (pn_PoolElementSelectionStorage pn)) →
  pn_GlobalSeqNumber pn + Z.of_nat (length l) < 2 ^ 32 → ∃ st' pn',
  forEach (reinsertSelected pp) l st = Some (tt, st') ∧ selection_result pp st pn st' pn' ∧
  (pp_Type (pn_Policy pn) = PPT_ROUNDROBIN → ∀ r, st_list (pn_PoolElementSelectionStorage pn) = l ++ r →
     st_list (pn_PoolElementSelectionStorage pn') = r ++ l).
Proof.
  revert st pn. induction l as [|p l IH]; intros st pn Hinv Hin Hg.
  - exists st, pn. split; [done|]. split; [|intros _ r ->; by rewrite app_nil_r].
    split; [done|]. split; [apply pool_frame_refl|done].
  - simpl in Hg. destruct (reinsert_spec st pp pn p) as (st1 & pn1 & Hrun1 & Hinv1 & Hf1 & Hsame1 & Hg1 & Hidx1 & Hperm1 & Hrr1);
      [done|apply Hin; left|lia|].
    destruct (IH st1 pn1) as (st2 & pn2 & Hrun2 & Hres2 & Hrr2); [done| |lia|].
    { intros q Hq. rewrite Hperm1. apply Hin. by right. }
    exists st2, pn2. simpl. rewrite (run_bind _ _ _ _ _ Hrun1). split; [done|].
    split; [by eapply selection_result_trans|]. intros Ht r Hl.
    rewrite (Hrr2 ltac:(destruct Hsame1 as (_ & -> & _); done) (r ++ [p])).
    + by rewrite <- app_assoc.
    + apply pool_inv_nodup in Hinv. rewrite Hl in Hinv. simpl in Hinv, Hl.
      rewrite (Hrr1 Ht), Hl, l_remove_head by done. by rewrite app_assoc.
Qed.

Lemma effectiveIncrement_nonneg pn maxInc : pn_Policy pn ∈ PoolPolicyArray → 0 <= maxInc → 0 <= effectiveIncrement pn maxInc.
Proof.
  intros Hpp Hm. unfold effectiveIncrement. destruct (maxInc =? 0); [|done]. unfold PoolPolicyArray in Hpp.
  repeat (apply elem_of_cons in Hpp as [->|Hpp]; [simpl; lia|]). by apply not_elem_of_nil in Hpp.
Qed.

Lemma selectBySortingOrder_spec st pp pn max maxInc : pool_inv [] [] st pp pn → 1 <= max < 2 ^ 32 → 0 <= maxInc →
  2 * Z.of_nat (length (st_list (pn_PoolElementSelectionStorage pn))) < 2 ^ 32 → ∃ st' pn',
  poolPolicySelectPoolElementNodesBySortingOrder pp max maxInc st =
    Some (take (Z.to_nat max) (st_list (pn_PoolElementSelectionStorage pn)), st') ∧
  selection_result pp st pn st' pn' ∧
  (pp_Type (pn_Policy pn) = PPT_ROUNDROBIN →
     let k := Z.to_nat (Z.min max (effectiveIncrement pn maxInc)) in
     st_list (pn_PoolElementSelectionStorage pn') =
       drop k (st_list (pn_PoolElementSelectionStorage pn)) ++ take k (st_list (pn_PoolElementSelectionStorage pn))).
Proof.
  intros Hinv Hmax HmaxInc Hlen. pose proof (pi_lookup _ _ _ _ _ Hinv) as Hpn.
  pose proof (effectiveIncrement_nonneg pn maxInc (pi_policy _ _ _ _ _ Hinv) HmaxInc) as Heff.
  destruct (begin_spec st pp pn max) as (st1 & pn1 & Hrun1 & Hinv1 & Hf1 & Hsame1 & Hidx1 & Hsel1 & Hroom & Hval1); [done..|].
  set (l := st_list (pn_PoolElementSelectionStorage pn)) in *. set (inc := effectiveIncrement pn maxInc) in *.
  pose proof (pi_selection _ _ _ _ _ Hinv1) as Hs1%sel_inv_clean. rewrite Hsel1 in Hs1.
  assert (slot_get (SlotSelection pp) st1 = Some (pn_PoolElementSelectionStorage pn)) as Hg1.
  { simpl. rewrite (pi_lookup _ _ _ _ _ Hinv1). simpl. by rewrite Hsel1. }
  set (arr := take (Z.to_nat max) l). set (upd := take (Z.to_nat (Z.min (Z.of_nat (length arr)) inc)) arr).
  assert (upd = take (Z.to_nat (Z.min max inc)) l) as Hupd.
  { unfold upd, arr. rewrite take_take, length_take.
    destruct (decide (Z.to_nat max <= length l)%nat); [f_equal; lia|].
    destruct (decide (Z.min max inc < Z.of_nat (length l))); [f_equal; lia|]. rewrite !take_ge by lia. done. }
  assert (length upd ≤ Z.to_nat (Z.min (Z.of_nat (length l)) max))%nat as Hulen by (rewrite Hupd, length_take; lia).
  destruct (forEach_reinsert_spec pp upd st1 pn1) as (st2 & pn2 & Hrun2 & Hres2 & Hrr2); [done| |lia|].
  { intros p Hp. rewrite Hsel1, Hupd in *. by apply subseteq_take in Hp. }
  exists st2, pn2. split; [|split].
  - unfold poolPolicySelectPoolElementNodesBySortingOrder. rewrite (run_bind _ _ _ _ _ (pool_get_run _ _ _ Hpn)).
    cbv zeta. fold inc. rewrite (run_bind _ _ _ _ _ Hrun1). unfold storageFuel.
    rewrite (run_bind _ _ _ _ _ (storageRead_eq _ _ _ _ Hg1)).
    unfold poolNodeGetFirstPoolElementNodeFromSelection. rewrite (run_bind _ _ _ _ _ (storageGetFirst_spec _ _ _ Hg1 Hs1)).
    fold l. erewrite run_bind; [|by eapply (collect_run st1 pp _ _ Hg1 (si_ok _ _ _ Hs1) l [])].
    fold arr upd. by rewrite (run_bind _ _ _ _ _ Hrun2).
  - eapply selection_result_trans; [|exact Hres2]. split; [done|]. split; [done|]. split; [done|]. split; [done|]. by rewrite Hsel1.
  - intros Ht k. destruct Hsame1 as (_ & Hpol & _). rewrite (Hrr2 ltac:(by rewrite Hpol) (drop k l)).
    + by rewrite Hupd.
    + rewrite Hsel1, Hupd. symmetry. apply take_drop.
Qed.

(** ** Selection by value *)

Lemma l_by_value_Some (value : ptr → Z) l v : (∀ p, p ∈ l → 0 <= value p) → 0 <= v < l_valuesum value l →
  ∃ p, l_by_value value v l = Some p ∧ p ∈ l ∧ 0 < value p.
Proof.
  revert v. induction l as [|q l IH]; intros v Hpos Hv; simpl in *; [lia|].
  pose proof (Hpos q ltac:(left)). destruct (Z.ltb_spec v (value q)).
  - exists q. split; [done|]. split; [left|lia].
  - destruct (IH (v - value q)) as (p & ? & ? & ?); [intros p Hp; apply Hpos; by right|lia|].
    exists p. split; [done|]. split; [by right|done].
Qed.

Lemma l_valuesum_bounds (value : ptr → Z) l b : (∀ p, p ∈ l → 0 <= value p <= b) →
  0 <= l_valuesum value l <= b * Z.of_nat (length l).
Proof.
  induction l as [|q l IH]; intros Hb; simpl; [lia|]. pose proof (Hb q ltac:(left)).
  destruct IH; [intros p Hp; apply Hb; by right|]. lia.
Qed.

Lemma l_valuesum_pos (value : ptr → Z) l : l ≠ [] → (∀ p, p ∈ l → 0 < value p) → 1 <= l_valuesum value l.
Proof.
  destruct l as [|q l]; [done|]. intros _ Hpos. simpl. pose proof (Hpos q ltac:(left)).
  destruct (l_valuesum_bounds value l (Z.max 0 (foldr Z.max 0 (value <$> l)))) as [? _]; [|lia].
  intros p Hp. assert (value p <= foldr Z.max 0 (value <$> l)).
  { clear -Hp. induction l as [|x l IH]; [by apply not_elem_of_nil in Hp|]. simpl.
    apply elem_of_cons in Hp as [->|Hp]; [lia|]. specialize (IH Hp). unfold fmap in IH. lia. }
  specialize (Hpos p ltac:(by right)). lia.
Qed.

Lemma pool_inv_Permutation U U' D st pp pn : U ≡ₚ U' → pool_inv U D st pp pn → pool_inv U' D st pp pn.
Proof.
  intros HU []. split; try done; [by rewrite <- HU|]. intros p Hp.
  destruct (pi_element p Hp) as (n & ? & ? & ? & [?|[? Hin]]); exists n; [naive_solver|]. rewrite HU in Hin. naive_solver.
Qed.

(** The value sum of the selection storage, and a draw from it. *)
Lemma draw_spec U st pp pn : pool_inv U [] st pp pn →
  let s := pn_PoolElementSelectionStorage pn in let value := slot_value (SlotSelection pp) st in
  (∀ q, q ∈ st_list s → 0 <= value q < 2 ^ 32) ∧ ST_GetValueSum s = l_valuesum value (st_list s) ∧
  ∀ v, 0 <= v < l_valuesum value (st_list s) →
    ∃ p, ST_GetNodeByValue value v s = Some p ∧ p ∈ st_list s.
Proof.
  intros Hinv s value. pose proof (pi_selection _ _ _ _ _ Hinv) as Hsel%sel_inv_clean. fold s in Hsel.
  assert (∀ q, q ∈ st_list s → 0 <= value q < 2 ^ 32) as Hv.
  { intros q Hq. destruct (pi_element _ _ _ _ _ Hinv q) as (n & Hn & Hwf & _).
    { apply (pool_inv_elements _ _ _ _ _ _ Hinv). by right. }
    unfold value, slot_value. rewrite Hn. unfold pen_wf in Hwf. apply Hwf. }
  assert (l_valuesum value (st_list s) < 2 ^ 64) as Hsum.
  { pose proof (l_valuesum_bounds value (st_list s) (2 ^ 32 - 1)) as [_ Hb]; [intros p Hp; specialize (Hv p Hp); lia|].
    pose proof (pool_inv_index_count _ _ _ _ _ Hinv) as Hc. rewrite (pi_same _ _ _ _ _ Hinv), length_app in Hc.
    fold s in Hc. nia. }
  pose proof (l_valuesum_bounds value (st_list s) (2 ^ 32 - 1)) as [Hpos _]; [intros p Hp; specialize (Hv p Hp); lia|].
  split; [done|]. split.
  - rewrite (st_valuesum_law _ _ (si_ok _ _ _ Hsel)). fold value. apply wrap_small. unfold in_width. lia.
  - intros v Hvb. rewrite (st_by_value_law value s v (si_ok _ _ _ Hsel)) by (done || (intros p Hp; by apply Hv)).
    destruct (l_by_value_Some value (st_list s) v) as (p & ? & ? & _); [intros p Hp; by apply Hv|done|]. eauto.
Qed.

(** One turn of the loop: the drawn element is numbered, updated and
    unlinked. *)
Lemma take_turn_spec U st pp pn p (b : bool) : pool_inv U [] st pp pn →
  p ∈ st_list (pn_PoolElementSelectionStorage pn) → pn_GlobalSeqNumber pn + 1 < 2 ^ 32 → ∃ st' pn',
  (countSelection pp p;; (if b then policyUpdatePoolElementNode pp p else mret tt);;
   poolNodeUnlinkPoolElementNodeFromSelection pp p) st = Some (tt, st') ∧
  pool_inv (p :: U) [] st' pp pn' ∧ pool_frame [] pp st st' ∧ pool_same pn pn' ∧
  pn_GlobalSeqNumber pn' = pn_GlobalSeqNumber pn + 1 ∧
  pn_PoolElementIndexStorage pn' = pn_PoolElementIndexStorage pn ∧
  st_list (pn_PoolElementSelectionStorage pn') = l_remove p (st_list (pn_PoolElementSelectionStorage pn)) ∧
  (∀ q, q ≠ p → slot_value (SlotSelection pp) st' q = slot_value (SlotSelection pp) st q).
Proof.
  intros Hinv Hp Hg. pose proof (pi_selection _ _ _ _ _ Hinv) as Hsel%sel_inv_clean.
  destruct (si_valid _ _ _ Hsel p Hp) as (n & _ & Hn & Ho & _).
  assert (pool_inv U [p] st pp pn) as Hinv0 by (eapply pool_inv_dirty; [|exact Hinv]; set_solver).
  destruct (countSelection_spec U [p] st pp pn p n) as (Hrun1 & Hinv1 & Hf1); [done|right; left|done|done|done|].
  set (pn1 := pn_set_GlobalSeqNumber (pn_GlobalSeqNumber pn + 1) pn) in *.
  set (n1 := selected_node (pn_GlobalSeqNumber pn) n) in *. set (st1 := pe_store p n1 (pool_store pp pn1 st)) in *.
  assert (hs_PoolElementNodes st1 !! p = Some n1) as Hn1 by (simpl; apply lookup_insert_eq).
  destruct (policyUpdate_spec U [p] st1 pp pn1 p n1) as (Hrun2 & Hinv2 & Hf2 & _); [done|right; left|done|done|].
  set (st2 := if b then pe_store p (policyUpdated pn1 n1) st1 else st1).
  assert ((if b then policyUpdatePoolElementNode pp p else mret tt) st1 = Some (tt, st2) ∧
    pool_inv U [p] st2 pp pn1 ∧ pool_frame [] pp st1 st2) as (Hrun2' & Hinv2' & Hf2').
  { unfold st2. destruct b; [done|]. split; [done|]. split; [done|apply pool_frame_refl]. }
  destruct (unlink_spec U [p] st2 pp pn1 p) as (s3 & Hrun3 & Hl3 & Hinv3); [done|done|done|].
  eexists _, _. rewrite (run_bind _ _ _ _ _ Hrun1), (run_bind _ _ _ _ _ Hrun2'). split; [exact Hrun3|].
  split; [exact Hinv3|]. split; [|split; [done|split; [done|split; [done|split; [done|]]]]].
  - eapply pool_frame_trans; [exact Hf1|]. eapply pool_frame_trans; [exact Hf2'|].
    eapply pool_frame_pool_store; [apply Hinv2'|done].
  - intros q Hq. unfold slot_value, st2. destruct b; simpl; rewrite ?lookup_insert_ne by done; done.
Qed.

Lemma selectByValue_spec random64 pp inc turns i U st pn : pool_inv U [] st pp pn →
  (∀ i, 0 <= random64 i) →
  (∀ p, p ∈ U → ∃ n, hs_PoolElementNodes st !! p = Some n ∧ pen_OwnerPoolNode n = Some pp) →
  pn_GlobalSeqNumber pn + Z.of_nat turns < 2 ^ 32 → ∃ news st' pn',
  selectByValue random64 pp inc turns i U st = Some (news ++ U, st') ∧
  pool_inv (news ++ U) [] st' pp pn' ∧ pool_frame [] pp st st' ∧ pool_same pn pn' ∧
  pn_PoolElementIndexStorage pn' = pn_PoolElementIndexStorage pn ∧ (length news <= turns)%nat ∧
  ((turns <= length (st_list (pn_PoolElementSelectionStorage pn)))%nat →
   (∀ q, q ∈ st_list (pn_PoolElementSelectionStorage pn) → 0 < slot_value (SlotSelection pp) st q) →
   length news = turns).
Proof.
  intros Hinv Hrnd. revert i U st pn Hinv. induction turns as [|turns IH]; intros i U st pn Hinv HU Hg.
  { exists [], st, pn. split; [done|]. split; [done|]. split; [apply pool_frame_refl|]. done. }
  pose proof (pi_lookup _ _ _ _ _ Hinv) as Hpn.
  destruct (draw_spec U st pp pn Hinv) as (Hv & Hsum & Hdraw).
  set (s := pn_PoolElementSelectionStorage pn) in *. set (value := slot_value (SlotSelection pp) st) in *.
  assert (slot_get (SlotSelection pp) st = Some s) as Hget by (simpl; by rewrite Hpn).
  cbn [selectByValue]. rewrite (run_bind _ _ _ _ _ (storageRead_eq _ _ _ _ Hget)), Hsum.
  destruct (Z.ltb_spec (l_valuesum value (st_list s)) 1) as [Hz|Hz].
  { exists [], st, pn. split; [done|]. split; [done|]. split; [apply pool_frame_refl|]. split; [done|]. split; [done|].
    split; [simpl; lia|]. intros Hlen Hpos. destruct (st_list s) eqn:Hl; [simpl in Hlen; lia|].
    pose proof (l_valuesum_pos value (p :: l) ltac:(done) Hpos). lia. }
  set (v := random64 i mod l_valuesum value (st_list s)).
  destruct (Hdraw v) as (p & Hnode & Hp); [apply Z.mod_pos_bound; lia|].
  erewrite run_bind; [|exact (storageRead_eq _ _ _ _ Hget)]. fold value. rewrite Hnode.
  destruct (take_turn_spec U st pp pn p (Z.of_nat (length U) <? inc)) as
    (st1 & pn1 & Hrun1 & Hinv1 & Hf1 & Hsame1 & Hg1 & Hidx1 & Hsel1 & Hval1); [done|done|lia|].
  pose proof (pi_selection _ _ _ _ _ Hinv) as Hslot%sel_inv_clean.
  destruct (IH (S i) (p :: U) st1 pn1) as (news & st2 & pn2 & Hrun2 & Hinv2 & Hf2 & Hsame2 & Hidx2 & Hlen2 & Hfull2); [done| |lia|].
  { intros q Hq. assert (∃ n, hs_PoolElementNodes st !! q = Some n ∧ pen_OwnerPoolNode n = Some pp) as (n & Hn & Ho).
    { apply elem_of_cons in Hq as [->|Hq]; [|by apply HU].
      destruct (si_valid _ _ _ Hslot p Hp) as (n & _ & ? & ? & _). eauto. }
    destruct (pf_elements _ _ _ _ Hf1 q n) as (n' & ? & _ & Ho' & _); [set_solver|done|]. exists n'. split; [done|congruence]. }
  exists (news ++ [p]), st2, pn2. rewrite <- app_assoc. split; [|split; [done|split; [by eapply pool_frame_trans|]]].
  - rewrite (run_seq3 _ _ _ _ _ _ Hrun1). exact Hrun2.
  - split; [by eapply pool_same_trans|]. split; [congruence|]. rewrite length_app. simpl. split; [lia|].
    intros Hlen Hpos. rewrite Hfull2; [lia| |].
    + rewrite Hsel1. fold s. rewrite (l_remove_Permutation p (st_list s)) in Hlen; [simpl in Hlen; lia| |done].
      eapply slot_inv_nodup, Hslot.
    + intros q Hq. rewrite Hsel1 in Hq. apply l_remove_elem in Hq as [Hne Hq]. rewrite Hval1 by done. by apply Hpos.
Qed.

Lemma forEach_link_spec pp l st pn : pool_inv l [] st pp pn →
  (∀ p, p ∈ l → ∃ n, hs_PoolElementNodes st !! p = Some n ∧ pen_OwnerPoolNode n = Some pp) → ∃ st' pn',
  forEach (poolNodeLinkPoolElementNodeToSelection pp) l st = Some (tt, st') ∧
  pool_inv [] [] st' pp pn' ∧ pool_frame [] pp st st' ∧ pool_same pn pn' ∧
  pn_PoolElementIndexStorage pn' = pn_PoolElementIndexStorage pn.
Proof.
  revert st pn. induction l as [|p l IH]; intros st pn Hinv Hown.
  { exists st, pn. split; [done|]. split; [done|]. split; [apply pool_frame_refl|done]. }
  destruct (Hown p ltac:(left)) as (n & Hn & Ho).
  destruct (link_spec l st pp pn p n) as (s' & Hrun & _ & Hinv1); [done..|].
  assert (p ∈ st_list (pn_PoolElementIndexStorage pn)) as Hidx by by eapply (pi_member _ _ _ _ _ Hinv).
  destruct (pool_inv_element _ _ _ _ _ _ _ Hinv Hidx Hn) as [Hwf _].
  pose proof (link_frame st pp pn p n s' (pi_lookup _ _ _ _ _ Hinv) Hn (pi_policy _ _ _ _ _ Hinv) Hwf Ho) as Hf1.
  destruct (IH _ _ Hinv1) as (st2 & pn2 & Hrun2 & Hinv2 & Hf2 & Hsame2 & Hidx2).
  { intros q Hq. destruct (Hown q ltac:(by right)) as (m & Hm & Hom).
    destruct (pf_elements _ _ _ _ Hf1 q m) as (m' & ? & _ & Ho' & _); [set_solver|done|]. exists m'. split; [done|congruence]. }
  exists st2, pn2. simpl. rewrite (run_bind _ _ _ _ _ Hrun). split; [done|]. split; [done|].
  split; [by eapply pool_frame_trans|]. done.
Qed.

Lemma selectByValueTree_spec random64 st pp pn max maxInc : pool_inv [] [] st pp pn → (∀ i, 0 <= random64 i) →
  1 <= max < 2 ^ 32 → 2 * Z.of_nat (length (st_list (pn_PoolElementSelectionStorage pn))) < 2 ^ 32 → ∃ arr st' pn',
  poolPolicySelectPoolElementNodesByValueTree random64 pp max maxInc st = Some (arr, st') ∧
  selection_result pp st pn st' pn' ∧ NoDup arr ∧ Z.of_nat (length arr) <= max ∧
  (∀ p, p ∈ arr → p ∈ st_list (pn_PoolElementIndexStorage pn)) ∧
  ((∀ q n, hs_PoolElementNodes st !! q = Some n → pen_OwnerPoolNode n = Some pp → 0 < pen_Value n) →
   Z.of_nat (length arr) = Z.min (Z.of_nat (length (st_list (pn_PoolElementIndexStorage pn)))) max).
Proof.
  intros Hinv Hrnd Hmax Hlen. pose proof (pi_lookup _ _ _ _ _ Hinv) as Hpn.
  pose proof (pi_selection _ _ _ _ _ Hinv) as Hsel%sel_inv_clean.
  destruct (begin_spec st pp pn max) as (st1 & pn1 & Hrun1 & Hinv1 & Hf1 & Hsame1 & Hidx1 & Hsel1 & Hroom & Hval1); [done..|].
  set (l := st_list (pn_PoolElementSelectionStorage pn)) in *.
  destruct (selectByValue_spec random64 pp (effectiveIncrement pn maxInc) (Z.to_nat (Z.min (Z.of_nat (length l)) max)) 0 [] st1 pn1)
    as (news & st2 & pn2 & Hrun2 & Hinv2 & Hf2 & Hsame2 & Hidx2 & Hlen2 & Hfull2); [done|done| |lia|].
  { intros p Hp. by apply not_elem_of_nil in Hp. }
  rewrite app_nil_r in *.
  assert (pool_inv (reverse news) [] st2 pp pn2) as Hinv2' by (eapply pool_inv_Permutation; [by rewrite reverse_Permutation|done]).
  assert (∀ p, p ∈ news → p ∈ st_list (pn_PoolElementIndexStorage pn)) as Hin.
  { intros p Hp. rewrite <- Hidx1, <- Hidx2. apply (pool_inv_elements _ _ _ _ _ _ Hinv2). by left. }
  destruct (forEach_link_spec pp (reverse news) st2 pn2) as (st3 & pn3 & Hrun3 & Hinv3 & Hf3 & Hsame3 & Hidx3); [done| |].
  { intros p Hp. rewrite elem_of_reverse in Hp. destruct (pool_selection_members st pp pn p Hinv) as (n & Hn & Ho & _).
    { apply Hin in Hp. apply (pool_inv_elements _ _ _ _ _ _ Hinv) in Hp as [HU|]; [by apply not_elem_of_nil in HU|done]. }
    destruct (pf_elements _ _ _ _ (pool_frame_trans _ _ _ _ _ Hf1 Hf2) p n) as (n' & ? & _ & Ho' & _); [set_solver|done|].
    exists n'. split; [done|congruence]. }
  exists (reverse news), st3, pn3.
  split; [|split; [|split; [|split; [|split]]]].
  - unfold poolPolicySelectPoolElementNodesByValueTree.
    erewrite run_bind; [|apply storageGetElements_spec; [simpl; by rewrite Hpn|done]].
    rewrite (run_bind _ _ _ _ _ (pool_get_run _ _ _ Hpn)). cbv zeta. rewrite (run_bind _ _ _ _ _ Hrun1).
    fold l. rewrite (run_bind _ _ _ _ _ Hrun2). by rewrite (run_bind _ _ _ _ _ Hrun3).
  - split; [done|]. split; [eapply pool_frame_trans; [exact Hf1|by eapply pool_frame_trans]|].
    split; [eapply pool_same_trans; [exact Hsame1|by eapply pool_same_trans]|]. split; [congruence|].
    pose proof (pi_same _ _ _ _ _ Hinv3) as P3. pose proof (pi_same _ _ _ _ _ Hinv) as P0. simpl in P3, P0.
    rewrite <- P3, <- P0. by rewrite Hidx3, Hidx2, Hidx1.
  - rewrite reverse_Permutation. apply pool_inv_nodup, NoDup_app in Hinv2. by apply Hinv2.
  - rewrite length_reverse. lia.
  - intros p Hp. rewrite elem_of_reverse in Hp. by apply Hin.
  - intros Hpos. rewrite length_reverse. rewrite (pi_same _ _ _ _ _ Hinv). simpl. fold l. rewrite Hfull2; [lia| |].
    + rewrite Hsel1. fold l. lia.
    + intros q Hq. rewrite Hsel1 in Hq. destruct (pool_selection_members st pp pn q Hinv Hq) as (n & Hn & Ho & _).
      unfold slot_value. rewrite Hval1, Hn. simpl. by eapply Hpos.
Qed.
End proofs.
