(* ===== verification/HandlespaceNode.v ===== *)
(** * The handlespace (poolhandlespacenode-template_impl.h)

    Pools by handle, the timer, ownership and connection storages over all
    elements, the checksums and counters, and the operations that keep them
    in step: adding or updating an element, changing its ownership or
    connection, removing it, selecting by policy, and the consistency check
    [poolHandlespaceNodeVerify]. *)

From S2P Require Import Prelude Checksum Addresses PoolBasics Storage PoolElement PoolPolicy HandlespaceState PoolNode PoolSelection.
From stdpp Require Import base list gmap numbers option.
#[local] Open Scope Z_scope.

Section ops.
Context {ST : Type} `{Storage ST} `{Endian}.
Abbreviation HS := (Handlespace ST).

Definition poolHandlespaceNodeNew (homeRegistrarIdentifier : Z) (poolNodeUpdateNotification : bool) : HS :=
  {| hs_PoolElementNodes := ∅; hs_PoolNodes := ∅;
     hs_PoolIndexStorage := ST_New; hs_PoolElementTimerStorage := ST_New;
     hs_PoolElementConnectionStorage := ST_New; hs_PoolElementOwnershipStorage := ST_New;
     hs_HomeRegistrarIdentifier := homeRegistrarIdentifier;
     hs_HandlespaceChecksum := INITIAL_HANDLESPACE_CHECKSUM; hs_OwnershipChecksum := INITIAL_HANDLESPACE_CHECKSUM;
     hs_PoolElements := 0; hs_OwnedPoolElements := 0;
     hs_PoolNodeUpdateNotification := poolNodeUpdateNotification; hs_Notifications := [] |}.

Definition poolHandlespaceNodeDelete : M HS () :=
  e1 ← storageIsEmpty SlotPools; CHECK e1;;
  e2 ← storageIsEmpty SlotTimer; CHECK e2;;
  e3 ← storageIsEmpty SlotOwnership; CHECK e3;;
  e4 ← storageIsEmpty SlotConnection; CHECK e4;;
  modify (λ st, hs_set_OwnedPoolElements 0 (hs_set_PoolElements 0 (hs_set_OwnershipChecksum 0
    (hs_set_HandlespaceChecksum 0 st)))).

Definition poolHandlespaceNodeGetHandlespaceChecksum : M HS Z := gets hs_HandlespaceChecksum.
Definition poolHandlespaceNodeGetOwnershipChecksum : M HS Z := gets hs_OwnershipChecksum.

(** ** Accessors *)

Definition poolHandlespaceNodeGetTimerNodes : M HS Z := storageGetElements SlotTimer.
Definition poolHandlespaceNodeGetFirstPoolElementTimerNode : M HS (option ptr) := storageGetFirst SlotTimer.
Definition poolHandlespaceNodeGetNextPoolElementTimerNode (p : ptr) : M HS (option ptr) := storageGetNext SlotTimer p.

Definition poolHandlespaceNodeGetFirstPoolElementOwnershipNode : M HS (option ptr) := storageGetFirst SlotOwnership.
Definition poolHandlespaceNodeGetPrevPoolElementOwnershipNode (p : ptr) : M HS (option ptr) := storageGetPrev SlotOwnership p.
Definition poolHandlespaceNodeGetNextPoolElementOwnershipNode (p : ptr) : M HS (option ptr) := storageGetNext SlotOwnership p.

Definition poolHandlespaceNodeGetNextPoolElementOwnershipNodeForSameIdentifier (p : ptr) : M HS (option ptr) :=
  node ← storageGetNext SlotOwnership p;
  match node with
  | Some next =>
      n ← pe_get p; m ← pe_get next;
      mret (if pen_HomeRegistrarIdentifier m =? pen_HomeRegistrarIdentifier n then Some next else None)
  | None => mret None
  end.

Definition poolHandlespaceNodeGetConnectionNodes : M HS Z := storageGetElements SlotConnection.
Definition poolHandlespaceNodeGetFirstPoolElementConnectionNode : M HS (option ptr) := storageGetFirst SlotConnection.
Definition poolHandlespaceNodeGetPrevPoolElementConnectionNode (p : ptr) : M HS (option ptr) := storageGetPrev SlotConnection p.
Definition poolHandlespaceNodeGetNextPoolElementConnectionNode (p : ptr) : M HS (option ptr) := storageGetNext SlotConnection p.

Definition sameConnection (n m : PoolElementNode) : bool :=
  (pen_ConnectionSocketDescriptor m =? pen_ConnectionSocketDescriptor n) &&
  (pen_ConnectionAssocID m =? pen_ConnectionAssocID n).

Definition poolHandlespaceNodeGetNextPoolElementConnectionNodeForSameConnection (p : ptr) : M HS (option ptr) :=
  node ← storageGetNext SlotConnection p;
  match node with
  | Some next => n ← pe_get p; m ← pe_get next; mret (if sameConnection n m then Some next else None)
  | None => mret None
  end.

Definition poolHandlespaceNodeGetPoolElementNodes : M HS Z := gets hs_PoolElements.
Definition poolHandlespaceNodeGetOwnedPoolElementNodes : M HS Z := gets hs_OwnedPoolElements.
Definition poolHandlespaceNodeGetPoolNodes : M HS Z := storageGetElements SlotPools.
Definition poolHandlespaceNodeGetFirstPoolNode : M HS (option ptr) := storageGetFirst SlotPools.
Definition poolHandlespaceNodeGetNextPoolNode (pp : ptr) : M HS (option ptr) := storageGetNext SlotPools pp.

(** ** Searching *)

(** [poolHandleNew] of the comparison node; its CHECK can fail. *)
Definition handleForComparison (poolHandle : PoolHandle) : M HS PoolHandle :=
  deref (λ _, poolHandleNew (ph_Handle poolHandle) (ph_Size poolHandle)).

Definition comparePoolHandle (h : PoolHandle) (st : HS) (q : ptr) : option Z :=
  pn ← hs_PoolNodes st !! q; Some (poolHandleComparison h (pn_Handle pn)).

Definition poolHandlespaceNodeFindPoolNode (poolHandle : PoolHandle) : M HS (option ptr) :=
  h ← handleForComparison poolHandle;
  storageFind SlotPools (comparePoolHandle h).

Definition poolHandlespaceNodeFindNearestNextPoolNode (poolHandle : PoolHandle) : M HS (option ptr) :=
  h ← handleForComparison poolHandle;
  storageGetNearestNext SlotPools (comparePoolHandle h).

Definition poolHandlespaceNodeFindPoolElementNode (poolHandle : PoolHandle) (poolElementIdentifier : Z) :
    M HS (option ptr) :=
  poolNode ← poolHandlespaceNodeFindPoolNode poolHandle;
  match poolNode with
  | Some pp => poolNodeFindPoolElementNode pp poolElementIdentifier
  | None => mret None
  end.

Definition poolHandlespaceNodeGetPoolElementNodesOfPool (poolHandle : PoolHandle) : M HS Z :=
  poolNode ← poolHandlespaceNodeFindPoolNode poolHandle;
  match poolNode with
  | Some pp => poolNodeGetPoolElementNodes pp
  | None => mret 0
  end.

(** A local comparison node; the members no comparison reads are arbitrary. *)
Definition cmpPoolElementNode (identifier home sd assoc : Z) : PoolElementNode :=
  poolElementNodeNew identifier home 0 poolPolicySettingsNew (MkTAB 0 0 0 []) None sd assoc.

Definition compareOwnership (h : PoolHandle) (n : PoolElementNode) (st : HS) (q : ptr) : option Z :=
  m ← hs_PoolElementNodes st !! q; h' ← owner_handle st m;
  Some (poolElementOwnershipStorageNodeComparison h n h' m).

Definition poolHandlespaceNodeFindNearestNextPoolElementOwnershipNode (homeRegistrarIdentifier : Z)
    (poolHandle : PoolHandle) (poolElementIdentifier : Z) : M HS (option ptr) :=
  h ← handleForComparison poolHandle;
  storageGetNearestNext SlotOwnership
    (compareOwnership h (cmpPoolElementNode poolElementIdentifier homeRegistrarIdentifier 0 0)).

Definition compareConnection (h : PoolHandle) (n : PoolElementNode) (st : HS) (q : ptr) : option Z :=
  m ← hs_PoolElementNodes st !! q; h' ← owner_handle st m;
  Some (poolElementConnectionStorageNodeComparison h n h' m).

Definition poolHandlespaceNodeFindNearestNextPoolElementConnectionNode (connectionSocketDescriptor assocID : Z)
    (poolHandle : PoolHandle) (poolElementIdentifier : Z) : M HS (option ptr) :=
  h ← handleForComparison poolHandle;
  storageGetNearestNext SlotConnection
    (compareConnection h (cmpPoolElementNode poolElementIdentifier 0 connectionSocketDescriptor assocID)).

(** The handle of one zero byte the searches start with. *)
Definition lastPoolHandle : PoolHandle := MkPoolHandle 1 [0].

(** [while(prev) { if(same) node = prev; else break; prev = getPrev(prev); }] *)
Fixpoint backWhile (fuel : nat) (getPrev : ptr → M HS (option ptr)) (same : PoolElementNode → bool)
    (node : ptr) (prev : option ptr) : M HS ptr :=
  match prev with
  | None => mret node
  | Some q =>
      match fuel with
      | O => abort
      | S fuel' =>
          m ← pe_get q;
          if same m then
            prev' ← getPrev q;
            backWhile fuel' getPrev same q prev'
          else mret node
      end
  end.

(** The common shape of the two functions below. *)
Definition firstNodeFor (k : slot) (same : PoolElementNode → bool) (nearest : option ptr) : M HS (option ptr) :=
  match nearest with
  | Some p =>
      fuel ← storageFuel k;
      prev ← storageGetPrev k p;
      p' ← backWhile fuel (storageGetPrev k) same p prev;
      n ← pe_get p';
      mret (if same n then Some p' else None)
  | None => mret None
  end.

Definition poolHandlespaceNodeGetFirstPoolElementOwnershipNodeForIdentifier (homeRegistrarIdentifier : Z) :
    M HS (option ptr) :=
  nearest ← poolHandlespaceNodeFindNearestNextPoolElementOwnershipNode homeRegistrarIdentifier lastPoolHandle 0;
  firstNodeFor SlotOwnership (λ m, pen_HomeRegistrarIdentifier m =? homeRegistrarIdentifier) nearest.

Definition poolHandlespaceNodeGetFirstPoolElementConnectionNodeForConnection
    (connectionSocketDescriptor assocID : Z) : M HS (option ptr) :=
  nearest ← poolHandlespaceNodeFindNearestNextPoolElementConnectionNode
              connectionSocketDescriptor assocID lastPoolHandle 0;
  firstNodeFor SlotConnection (λ m, (pen_ConnectionSocketDescriptor m =? connectionSocketDescriptor) &&
    (pen_ConnectionAssocID m =? assocID)) nearest.

Definition poolHandlespaceNodeGetOwnershipNodesForIdentifier (homeRegistrarIdentifier : Z) : M HS Z :=
  fuel ← storageFuel SlotOwnership;
  first ← poolHandlespaceNodeGetFirstPoolElementOwnershipNodeForIdentifier homeRegistrarIdentifier;
  walk fuel poolHandlespaceNodeGetNextPoolElementOwnershipNodeForSameIdentifier (λ nodes _, mret (nodes + 1)) first 0.

Definition poolHandlespaceNodeGetConnectionNodesForConnection (connectionSocketDescriptor assocID : Z) : M HS Z :=
  fuel ← storageFuel SlotConnection;
  first ← poolHandlespaceNodeGetFirstPoolElementConnectionNodeForConnection connectionSocketDescriptor assocID;
  walk fuel poolHandlespaceNodeGetNextPoolElementConnectionNodeForSameConnection (λ nodes _, mret (nodes + 1)) first 0.

(** ** Checksums *)

(** [poolElementNodeComputeChecksum] of the element [p]. *)
Definition computeChecksumOf (p : ptr) : M HS Z :=
  n ← pe_get p;
  h ← deref (λ st, owner_handle st n);
  mret (poolElementNodeComputeChecksum h n).

Definition addChecksumOf (sum : Z) (p : ptr) : M HS Z :=
  c ← computeChecksumOf p; mret (handlespaceChecksumAdd sum c).

Definition poolHandlespaceNodeComputeHandlespaceChecksum : M HS Z :=
  fuel ← storageFuel SlotPools;
  first ← poolHandlespaceNodeGetFirstPoolNode;
  walk fuel poolHandlespaceNodeGetNextPoolNode
    (λ sum pp,
       fuel' ← storageFuel (SlotIndex pp);
       first' ← poolNodeGetFirstPoolElementNodeFromIndex pp;
       walk fuel' (poolNodeGetNextPoolElementNodeFromIndex pp) addChecksumOf first' sum)
    first 0.

Definition poolHandlespaceNodeComputeOwnershipChecksum (registrarIdentifier : Z) : M HS Z :=
  fuel ← storageFuel SlotOwnership;
  first ← poolHandlespaceNodeGetFirstPoolElementOwnershipNodeForIdentifier registrarIdentifier;
  walk fuel poolHandlespaceNodeGetNextPoolElementOwnershipNodeForSameIdentifier addChecksumOf first 0.

(** ** Timers *)

Definition poolHandlespaceNodeHasActiveTimer (poolElementNode : ptr) : M HS bool := storageIsLinked SlotTimer poolElementNode.

Definition poolHandlespaceNodeActivateTimer (poolElementNode : ptr) (timerCode timerTimeStamp : Z) : M HS () :=
  linked ← storageIsLinked SlotTimer poolElementNode;
  CHECK (negb linked);;
  pe_update poolElementNode (λ n, set_TimerTimeStamp timerTimeStamp (set_TimerCode timerCode n));;
  result ← storageInsert SlotTimer poolElementNode;
  CHECK (bool_decide (result = poolElementNode)).

(** [if(IsLinked) { result = Remove(...); CHECK(result == node); }] *)
Definition removeIfLinked (k : slot) (poolElementNode : ptr) : M HS () :=
  linked ← storageIsLinked k poolElementNode;
  if linked : bool then
    result ← storageRemove k poolElementNode;
    CHECK (bool_decide (result = poolElementNode))
  else mret tt.

Definition poolHandlespaceNodeDeactivateTimer (poolElementNode : ptr) : M HS () := removeIfLinked SlotTimer poolElementNode.

(** ** Selection *)

(** The selected elements and the error code. *)
Definition poolHandlespaceNodeSelectPoolElementNodesByPolicy (random64 : nat → Z) (poolHandle : PoolHandle)
    (maxPoolElementNodes maxIncrement : Z) : M HS (list ptr * Z) :=
  poolNode ← poolHandlespaceNodeFindPoolNode poolHandle;
  match poolNode with
  | Some pp =>
      arr ← policySelectPoolElementNodes random64 pp maxPoolElementNodes maxIncrement;
      mret (arr, RSPERR_OKAY)
  | None => mret ([], RSPERR_NOT_FOUND)
  end.

(** ** Pools *)

Definition poolHandlespaceNodeAddPoolNode (poolNode : ptr) : M HS ptr :=
  result ← storageInsert SlotPools poolNode;
  (if bool_decide (result = poolNode)
   then pool_update poolNode (pn_set_OwnerPoolHandlespaceNode true) else mret tt);;
  mret result.

Definition poolHandlespaceNodeRemovePoolNode (poolNode : ptr) : M HS ptr :=
  result ← storageRemove SlotPools poolNode;
  CHECK (bool_decide (result = poolNode));;
  pool_update poolNode (pn_set_OwnerPoolHandlespaceNode false);;
  mret poolNode.

(** ** Elements *)

Definition insertChecked (k : slot) (poolElementNode : ptr) : M HS () :=
  result ← storageInsert k poolElementNode;
  CHECK (bool_decide (result = poolElementNode)).

Definition poolHandlespaceNodeAddPoolElementNode (poolNode poolElementNode : ptr) : M HS (option ptr * Z) :=
  r ← poolNodeAddPoolElementNode poolNode poolElementNode;
  let '(result, errorCode) := r in
  if bool_decide (result = Some poolElementNode) then
    CHECK (errorCode =? RSPERR_OKAY);;
    modify (λ st, hs_set_PoolElements (u64 (hs_PoolElements st + 1)) st);;
    n ← pe_get poolElementNode;
    (if negb (pen_HomeRegistrarIdentifier n =? 0) then insertChecked SlotOwnership poolElementNode else mret tt);;
    n ← pe_get poolElementNode;
    (if 0 <? pen_ConnectionSocketDescriptor n then insertChecked SlotConnection poolElementNode else mret tt);;
    mret (result, errorCode)
  else mret (result, errorCode).

(** A call of the notification function, when there is one. *)
Definition notify (poolElementNode : ptr) (updateAction : PoolNodeUpdateAction)
    (preUpdateChecksum preUpdateHomeRegistrar : Z) : M HS () :=
  n ← pe_get poolElementNode;
  modify (λ st,
    if hs_PoolNodeUpdateNotification st then
      hs_set_Notifications (hs_Notifications st ++ [MkNotification poolElementNode updateAction
        preUpdateChecksum preUpdateHomeRegistrar (pen_Checksum n) (pen_HomeRegistrarIdentifier n)]) st
    else st).

Definition subtractHandlespaceChecksum (checksum : Z) : M HS () :=
  modify (λ st, hs_set_HandlespaceChecksum (handlespaceChecksumSub (hs_HandlespaceChecksum st) checksum) st).

Definition addHandlespaceChecksum (checksum : Z) : M HS () :=
  modify (λ st, hs_set_HandlespaceChecksum (handlespaceChecksumAdd (hs_HandlespaceChecksum st) checksum) st).

(** [if(home == this registrar) { CHECK(Owned > 0); Owned--; subtract }] *)
Definition subtractOwned (homeRegistrar checksum : Z) : M HS () :=
  st ← get;
  if homeRegistrar =? hs_HomeRegistrarIdentifier st then
    CHECK (0 <? hs_OwnedPoolElements st);;
    put (hs_set_OwnershipChecksum (handlespaceChecksumSub (hs_OwnershipChecksum st) checksum)
          (hs_set_OwnedPoolElements (hs_OwnedPoolElements st - 1) st))
  else mret tt.

Definition addOwned (homeRegistrar checksum : Z) : M HS () :=
  modify (λ st,
    if homeRegistrar =? hs_HomeRegistrarIdentifier st then
      hs_set_OwnershipChecksum (handlespaceChecksumAdd (hs_OwnershipChecksum st) checksum)
        (hs_set_OwnedPoolElements (u64 (hs_OwnedPoolElements st + 1)) st)
    else st).

(** [poolElementNode->Checksum = poolElementNodeComputeChecksum(poolElementNode)] *)
Definition refreshChecksum (poolElementNode : ptr) : M HS Z :=
  c ← computeChecksumOf poolElementNode;
  pe_update poolElementNode (set_Checksum c);;
  mret c.

Definition poolHandlespaceNodeUpdateOwnershipOfPoolElementNode (poolElementNode : ptr)
    (newHomeRegistrarIdentifier : Z) : M HS () :=
  n ← pe_get poolElementNode;
  let preUpdateChecksum := pen_Checksum n in
  let preUpdateHomeRegistrar := pen_HomeRegistrarIdentifier n in
  (if negb (newHomeRegistrarIdentifier =? pen_HomeRegistrarIdentifier n) then
     removeIfLinked SlotOwnership poolElementNode;;
     pe_update poolElementNode (λ n, set_HomeRegistrarIdentifier newHomeRegistrarIdentifier
       (set_Flags (flag_set (pen_Flags n) PENF_UPDATED) n));;
     insertChecked SlotOwnership poolElementNode
   else
     pe_update poolElementNode (λ n, set_Flags (flag_clear (pen_Flags n) PENF_UPDATED) n));;
  subtractHandlespaceChecksum preUpdateChecksum;;
  subtractOwned preUpdateHomeRegistrar preUpdateChecksum;;
  c ← refreshChecksum poolElementNode;
  addHandlespaceChecksum c;;
  n ← pe_get poolElementNode;
  addOwned (pen_HomeRegistrarIdentifier n) c;;
  notify poolElementNode PNUA_Update preUpdateChecksum preUpdateHomeRegistrar.

Definition poolHandlespaceNodeUpdateConnectionOfPoolElementNode (poolElementNode : ptr)
    (connectionSocketDescriptor connectionAssocID : Z) : M HS () :=
  n ← pe_get poolElementNode;
  if negb (connectionSocketDescriptor =? pen_ConnectionSocketDescriptor n) ||
     negb (connectionAssocID =? pen_ConnectionAssocID n) then
    removeIfLinked SlotConnection poolElementNode;;
    pe_update poolElementNode (λ n, set_ConnectionAssocID connectionAssocID
      (set_ConnectionSocketDescriptor connectionSocketDescriptor n));;
    if 0 <? connectionSocketDescriptor then insertChecked SlotConnection poolElementNode else mret tt
  else mret tt.

Definition poolHandlespaceNodeUpdatePoolElementNode (poolElementNode : ptr) (source : PoolElementNode) : M HS Z :=
  n ← pe_get poolElementNode;
  poolNode ← deref (λ _, pen_OwnerPoolNode n);
  errorCode ← poolNodeUpdatePoolElementNode poolNode poolElementNode source;
  if errorCode =? RSPERR_OKAY then
    poolHandlespaceNodeUpdateConnectionOfPoolElementNode poolElementNode
      (pen_ConnectionSocketDescriptor source) (pen_ConnectionAssocID source);;
    poolHandlespaceNodeUpdateOwnershipOfPoolElementNode poolElementNode (pen_HomeRegistrarIdentifier source);;
    pe_update poolElementNode (λ n, set_Flags (flag_clear (pen_Flags n) PENF_NEW) n);;
    mret errorCode
  else mret errorCode.

(** The result of adding or updating: the element, the error code, and
    whether the caller's [*poolNode] and [*poolElementNode] were set to
    NULL (their memory is now used by the handlespace). *)
Record AddResult := MkAddResult {
  ar_Element : option ptr;
  ar_ErrorCode : Z;
  ar_PoolNodeUsed : bool;
  ar_ElementUsed : bool
}.

Definition poolHandlespaceNodeAddOrUpdatePoolElementNode (poolNode poolElementNode : ptr) : M HS AddResult :=
  newPoolNode ← poolHandlespaceNodeAddPoolNode poolNode;
  r ← poolHandlespaceNodeAddPoolElementNode newPoolNode poolElementNode;
  let '(newPoolElementNode, errorCode) := r in
  e ← match newPoolElementNode with
      | Some p =>
          if negb (bool_decide (p = poolElementNode)) then
            source ← pe_get poolElementNode;
            errorCode' ← poolHandlespaceNodeUpdatePoolElementNode p source;
            mret (errorCode', false)
          else
            c ← refreshChecksum p;
            addHandlespaceChecksum c;;
            n ← pe_get p;
            addOwned (pen_HomeRegistrarIdentifier n) c;;
            notify p PNUA_Create INITIAL_HANDLESPACE_CHECKSUM UNDEFINED_REGISTRAR_IDENTIFIER;;
            pe_update p (λ n, set_Flags (flag_set (pen_Flags n) PENF_NEW) n);;
            mret (errorCode, true)
      | None => mret (errorCode, false)
      end;
  let '(errorCode, used) := e in
  poolUsed ←
    (if bool_decide (newPoolNode = poolNode) then
       match newPoolElementNode with
       | Some _ => mret true
       | None =>
           removed ← poolHandlespaceNodeRemovePoolNode poolNode;
           CHECK (bool_decide (removed = poolNode));;
           mret false
       end
     else mret false);
  mret (MkAddResult newPoolElementNode errorCode poolUsed used).

Definition poolHandlespaceNodeRemovePoolElementNode (poolElementNode : ptr) : M HS ptr :=
  removeIfLinked SlotTimer poolElementNode;;
  removeIfLinked SlotOwnership poolElementNode;;
  removeIfLinked SlotConnection poolElementNode;;
  n ← pe_get poolElementNode;
  poolNode ← deref (λ _, pen_OwnerPoolNode n);
  result2 ← poolNodeRemovePoolElementNode poolNode poolElementNode;
  CHECK (bool_decide (result2 = poolElementNode));;
  st ← get;
  CHECK (0 <? hs_PoolElements st);;
  modify (λ st, hs_set_PoolElements (hs_PoolElements st - 1) st);;
  n ← pe_get poolElementNode;
  subtractHandlespaceChecksum (pen_Checksum n);;
  subtractOwned (pen_HomeRegistrarIdentifier n) (pen_Checksum n);;
  notify poolElementNode PNUA_Delete (pen_Checksum n) (pen_HomeRegistrarIdentifier n);;
  mret poolElementNode.

(** ** Verify *)

(** [ST_METHOD(Verify)] with the comparison function of the storage; a
    comparison that reads an invalid pointer makes it fail. *)
Definition storageVerify (k : slot) : M HS () := λ st,
  match slot_get k st with
  | Some s =>
      if ST_Verify (λ p q, default 0 (slot_cmp k st p q)) (slot_value k st) s then Some (tt, st) else None
  | None => None
  end.

Definition countWalk (k : slot) : M HS Z :=
  fuel ← storageFuel k;
  first ← storageGetFirst k;
  walk fuel (storageGetNext k) (λ i _, mret (i + 1)) first 0.

Definition poolHandlespaceNodeVerify : M HS () :=
  pools ← poolHandlespaceNodeGetPoolNodes;
  poolElements ← poolHandlespaceNodeGetPoolElementNodes;
  timers ← poolHandlespaceNodeGetTimerNodes;
  ownerships ← storageGetElements SlotOwnership;
  storageVerify SlotPools;;
  storageVerify SlotTimer;;
  storageVerify SlotOwnership;;
  i ← countWalk SlotTimer;
  CHECK (i =? timers);;
  home ← gets hs_HomeRegistrarIdentifier;
  fuel ← storageFuel SlotOwnership;
  first ← poolHandlespaceNodeGetFirstPoolElementOwnershipNode;
  r ← walk fuel poolHandlespaceNodeGetNextPoolElementOwnershipNode
        (λ '(ownedPEs, i) p,
           n ← pe_get p;
           mret (if pen_HomeRegistrarIdentifier n =? home then ownedPEs + 1 else ownedPEs, i + 1))
        first (0, 0);
  let '(ownedPEs, i) := r in
  CHECK (i =? ownerships);;
  owned ← poolHandlespaceNodeGetOwnedPoolElementNodes;
  CHECK ((home =? UNDEFINED_REGISTRAR_IDENTIFIER) || (owned =? ownedPEs));;
  fuel ← storageFuel SlotPools;
  first ← poolHandlespaceNodeGetFirstPoolNode;
  r ← walk fuel poolHandlespaceNodeGetNextPoolNode
        (λ '(i, j) pp,
           storageVerify (SlotIndex pp);;
           storageVerify (SlotSelection pp);;
           a ← storageGetElements (SlotSelection pp);
           b ← storageGetElements (SlotIndex pp);
           CHECK (a =? b);;
           c ← poolNodeGetPoolElementNodes pp;
           CHECK (0 <? c);;
           mret (i + 1, j + c))
        first (0, 0);
  let '(i, j) := r in
  CHECK (i =? pools);;
  CHECK (j =? poolElements);;
  CHECK (ownerships <=? poolElements);;
  c ← poolHandlespaceNodeGetHandlespaceChecksum;
  c' ← poolHandlespaceNodeComputeHandlespaceChecksum;
  CHECK (c =? c');;
  if negb (home =? UNDEFINED_REGISTRAR_IDENTIFIER) then
    c ← poolHandlespaceNodeGetOwnershipChecksum;
    c' ← poolHandlespaceNodeComputeOwnershipChecksum home;
    CHECK (c =? c')
  else mret tt.

(** ** Clear *)

(** The disposers are given by the caller. *)
Fixpoint clearElements (fuel : nat) (disposer : ptr → M HS ()) (poolNode : ptr) (cur : option ptr) : M HS () :=
  match cur with
  | None => mret tt
  | Some p =>
      match fuel with
      | O => abort
      | S fuel' =>
          pn ← pool_get poolNode;
          _ ← (if pn_OwnerPoolHandlespaceNode pn
               then poolHandlespaceNodeRemovePoolElementNode p
               else poolNodeRemovePoolElementNode poolNode p);
          poolElementNodeDelete p;;
          disposer p;;
          nxt ← poolNodeGetFirstPoolElementNodeFromSelection poolNode;
          clearElements fuel' disposer poolNode nxt
      end
  end.

Definition poolNodeClear (poolElementNodeDisposer : ptr → M HS ()) (poolNode : ptr) : M HS () :=
  fuel ← storageFuel (SlotSelection poolNode);
  first ← poolNodeGetFirstPoolElementNodeFromSelection poolNode;
  clearElements fuel poolElementNodeDisposer poolNode first.

Fixpoint clearPools (fuel : nat) (poolNodeDisposer poolElementNodeDisposer : ptr → M HS ()) (cur : option ptr) : M HS () :=
  match cur with
  | None => mret tt
  | Some pp =>
      match fuel with
      | O => abort
      | S fuel' =>
          poolNodeClear poolElementNodeDisposer pp;;
          _ ← poolHandlespaceNodeRemovePoolNode pp;
          poolNodeDelete pp;;
          poolNodeDisposer pp;;
          nxt ← poolHandlespaceNodeGetFirstPoolNode;
          clearPools fuel' poolNodeDisposer poolElementNodeDisposer nxt
      end
  end.

Definition poolHandlespaceNodeClear (poolNodeDisposer poolElementNodeDisposer : ptr → M HS ()) : M HS () :=
  fuel ← storageFuel SlotPools;
  first ← poolHandlespaceNodeGetFirstPoolNode;
  clearPools fuel poolNodeDisposer poolElementNodeDisposer first.
End ops.
