(* ===== verification/HandlespaceInv.v ===== *)
(** * The invariant of a handlespace

    [hs_struct]: pools and elements are linked where they belong.
    [hs_acct]: checksums and counters are those of the elements.  The
    lemmas show how the building blocks of the operations change the two. *)

From S2P Require Import Prelude Checksum Addresses PoolBasics Storage PoolElement PoolPolicy HandlespaceState PoolNode PoolEffects PoolSelection HandlespaceNode.
From stdpp Require Import base list gmap numbers option sorting sets.
#[local] Open Scope Z_scope.

(** ** Sums over the elements *)

Section msum.
Implicit Types (f : PoolElementNode → Z) (m : gmap ptr PoolElementNode).

Definition zsum (m : gmap ptr Z) : Z := map_fold (λ _ z acc, z + acc) 0 m.
Definition msum f m : Z := zsum (f <$> m).

Lemma zsum_insert (m : gmap ptr Z) p z : m !! p = None → zsum (<[p := z]> m) = z + zsum m.
Proof. intros Hp. unfold zsum. apply map_fold_insert_L; [|done]. intros. lia. Qed.

Lemma zsum_delete (m : gmap ptr Z) p z : m !! p = Some z → zsum m = z + zsum (delete p m).
Proof. intros Hp. rewrite <- (zsum_insert (delete p m) p z) by apply lookup_delete_eq. by rewrite insert_delete_id. Qed.

Lemma msum_ext f g m m' : (∀ p, f <$> m !! p = g <$> m' !! p) → msum f m = msum g m'.
Proof. intros Heq. unfold msum. f_equal. apply map_eq. intros p. by rewrite !lookup_fmap. Qed.

Lemma msum_insert f m p n : m !! p = None → msum f (<[p := n]> m) = f n + msum f m.
Proof. intros Hp. unfold msum. rewrite fmap_insert. apply zsum_insert. by rewrite lookup_fmap, Hp. Qed.

Lemma msum_update f m p n n' : m !! p = Some n → msum f (<[p := n']> m) = msum f m - f n + f n'.
Proof.
  intros Hp. unfold msum. rewrite fmap_insert, <- insert_delete_eq.
  rewrite zsum_insert by apply lookup_delete_eq.
  rewrite (zsum_delete (f <$> m) p (f n)) by by rewrite lookup_fmap, Hp. lia.
Qed.

Lemma msum_delete f m p n : m !! p = Some n → msum f (delete p m) = msum f m - f n.
Proof.
  intros Hp. unfold msum. rewrite fmap_delete. rewrite (zsum_delete (f <$> m) p (f n)); [lia|].
  by rewrite lookup_fmap, Hp.
Qed.

Lemma msum_empty f : msum f ∅ = 0.
Proof. done. Qed.

Lemma msum_nonneg f m : (∀ n, 0 <= f n) → 0 <= msum f m.
Proof.
  intros Hf. induction m as [|p n m Hp IH] using map_ind; [done|]. rewrite msum_insert by done. specialize (Hf n). lia.
Qed.

Lemma msum_ge f m p n : (∀ n, 0 <= f n) → m !! p = Some n → f n <= msum f m.
Proof.
  intros Hf Hp. pose proof (msum_delete f m p n Hp). pose proof (msum_nonneg f (delete p m) Hf). lia.
Qed.

Lemma msum_le f g m : (∀ n, f n <= g n) → msum f m <= msum g m.
Proof.
  intros Hf. induction m as [|p n m Hp IH] using map_ind; [done|]. rewrite !msum_insert by done. specialize (Hf n). lia.
Qed.

(** The sum along a list that enumerates the elements [f] counts. *)
Lemma msum_list f m (l : list ptr) : NoDup l → (∀ p, p ∈ l → is_Some (m !! p)) →
  (∀ p n, m !! p = Some n → p ∉ l → f n = 0) →
  msum f m = foldr (λ p acc, default 0 (f <$> m !! p) + acc) 0 l.
Proof.
  revert m. induction l as [|p l IH]; intros m Hnd Hin Hout; simpl.
  - induction m as [|q n m Hq IHm] using map_ind; [done|]. rewrite msum_insert by done.
    rewrite (Hout q n); [|apply lookup_insert_eq|apply not_elem_of_nil]. rewrite IHm; [done| |].
    + intros p' Hp'. by apply not_elem_of_nil in Hp'.
    + intros p' n' Hn' Hp'. apply (Hout p'); [|done]. rewrite lookup_insert_ne; [done|]. intros ->. congruence.
  - pose proof (NoDup_cons_1_1 _ _ Hnd) as Hp. apply NoDup_cons_1_2 in Hnd.
    destruct (Hin p ltac:(left)) as [n Hn]. rewrite Hn. simpl.
    pose proof (msum_delete f m p n Hn) as Hdel. rewrite (IH (delete p m)) in Hdel.
    + cut (foldr (λ p0 acc, default 0 (f <$> delete p m !! p0) + acc) 0 l =
           foldr (λ p0 acc, default 0 (f <$> m !! p0) + acc) 0 l); [lia|].
      clear -Hp. induction l as [|q l IHl]; simpl; [done|]. rewrite IHl by set_solver.
      rewrite lookup_delete_ne; [done|set_solver].
    + done.
    + intros q Hq. rewrite lookup_delete_ne by set_solver. apply Hin. by right.
    + intros q n' Hn' Hq. destruct (decide (q = p)) as [->|]; [by rewrite lookup_delete_eq in Hn'|].
      rewrite lookup_delete_ne in Hn' by done. apply (Hout q n' Hn'). set_solver.
Qed.
End msum.

(** What is counted: the linked elements, and those of home registrar [home]. *)
Definition is_member (n : PoolElementNode) : bool := bool_decide (pen_OwnerPoolNode n ≠ None).
Definition is_owned (home : Z) (n : PoolElementNode) : bool :=
  is_member n && (pen_HomeRegistrarIdentifier n =? home).

Definition member_count (n : PoolElementNode) : Z := if is_member n then 1 else 0.
Definition member_checksum (n : PoolElementNode) : Z := if is_member n then pen_Checksum n else 0.
Definition owned_count (home : Z) (n : PoolElementNode) : Z := if is_owned home n then 1 else 0.
Definition owned_checksum (home : Z) (n : PoolElementNode) : Z := if is_owned home n then pen_Checksum n else 0.

Section inv.
Context {ST : Type} `{SL : StorageLaws ST} `{Endian}.
Abbreviation HS := (Handlespace ST).
Implicit Types (st : HS) (pn : PoolNode ST) (p q pp : ptr) (E X XO XC : list ptr).

(** [E]: pools that may be empty; [XO], [XC]: elements that may be missing
    in the ownership and connection storages.  All are empty between
    operations. *)
Record hs_struct E XO XC st : Prop := {
  hi_wf p n : hs_PoolElementNodes st !! p = Some n → pen_wf n;
  hi_pools : slot_inv SlotPools st (hs_PoolIndexStorage st);
  hi_pool pp : pp ∈ st_list (hs_PoolIndexStorage st) → ∃ pn, pool_inv [] [] st pp pn ∧
    pn_OwnerPoolHandlespaceNode pn = true ∧ (pp ∈ E ∨ st_list (pn_PoolElementIndexStorage pn) ≠ []);
  hi_owner p n pp : hs_PoolElementNodes st !! p = Some n → pen_OwnerPoolNode n = Some pp →
    pp ∈ st_list (hs_PoolIndexStorage st);
  hi_unlinked pp pn : hs_PoolNodes st !! pp = Some pn → pp ∉ st_list (hs_PoolIndexStorage st) →
    pool_inv [] [] st pp pn ∧ st_list (pn_PoolElementIndexStorage pn) = [];
  hi_timer : slot_inv SlotTimer st (hs_PoolElementTimerStorage st);
  hi_ownership : slot_inv SlotOwnership st (hs_PoolElementOwnershipStorage st);
  hi_connection : slot_inv SlotConnection st (hs_PoolElementConnectionStorage st);
  hi_owned_in p n : hs_PoolElementNodes st !! p = Some n → pen_OwnerPoolNode n ≠ None →
    pen_HomeRegistrarIdentifier n ≠ 0 → p ∉ XO → p ∈ st_list (hs_PoolElementOwnershipStorage st);
  hi_connected p n : hs_PoolElementNodes st !! p = Some n → pen_OwnerPoolNode n ≠ None →
    0 < pen_ConnectionSocketDescriptor n → p ∉ XC → p ∈ st_list (hs_PoolElementConnectionStorage st)
}.

(** Storages read the heap only. *)
Lemma slot_inv_heap k st st' s : hs_PoolElementNodes st' = hs_PoolElementNodes st →
  hs_PoolNodes st' = hs_PoolNodes st → slot_inv k st s → slot_inv k st' s.
Proof.
  intros He Hp Hinv. eapply slot_inv_ext; [exact Hinv|]. intros q Hq.
  pose proof (si_valid _ _ _ Hinv q Hq) as Hval.
  assert (∀ n, owner_handle st' n = owner_handle st n) as Hoh by (intros n; unfold owner_handle; by rewrite Hp).
  unfold slot_key, slot_value, slot_valid in *. rewrite He, Hp.
  destruct k; try (split; [done|]; split; [done|]; exact Hval).
  - split; [destruct (hs_PoolElementNodes st !! q); simpl; [by rewrite Hoh|done]|]. split; [done|].
    destruct Hval as (n & h & ? & ?). exists n, h. by rewrite Hoh.
  - split; [destruct (hs_PoolElementNodes st !! q); simpl; [by rewrite Hoh|done]|]. split; [done|].
    destruct Hval as (n & h & ? & ?). exists n, h. by rewrite Hoh.
  - split; [destruct (hs_PoolElementNodes st !! q); simpl; [by rewrite Hoh|done]|]. split; [done|].
    destruct Hval as (n & h & ? & ?). exists n, h. by rewrite Hoh.
Qed.

Lemma hs_struct_storages E XO XC XO' XC' st st' : hs_struct E XO XC st →
  hs_PoolElementNodes st' = hs_PoolElementNodes st → hs_PoolNodes st' = hs_PoolNodes st →
  hs_PoolIndexStorage st' = hs_PoolIndexStorage st →
  slot_inv SlotTimer st (hs_PoolElementTimerStorage st') →
  slot_inv SlotOwnership st (hs_PoolElementOwnershipStorage st') →
  slot_inv SlotConnection st (hs_PoolElementConnectionStorage st') →
  (∀ p, p ∈ st_list (hs_PoolElementOwnershipStorage st) → p ∉ XO' → p ∈ st_list (hs_PoolElementOwnershipStorage st')) →
  (∀ p, p ∈ XO → p ∉ XO' → p ∈ st_list (hs_PoolElementOwnershipStorage st')) →
  (∀ p, p ∈ st_list (hs_PoolElementConnectionStorage st) → p ∉ XC' → p ∈ st_list (hs_PoolElementConnectionStorage st')) →
  (∀ p, p ∈ XC → p ∉ XC' → p ∈ st_list (hs_PoolElementConnectionStorage st')) →
  hs_struct E XO' XC' st'.
Proof.
  intros [] He Hp Hi Ht Ho Hc HO1 HO2 HC1 HC2. split; rewrite ?He, ?Hp, ?Hi; try done.
  - by eapply slot_inv_heap.
  - intros pp Hpp. destruct (hi_pool0 pp Hpp) as (pn & Hpn & ? & ?). exists pn. split; [|done].
    eapply pool_inv_ext; [done|by rewrite Hp|done].
  - intros pp pn Hpn Hn. destruct (hi_unlinked0 pp pn Hpn Hn). split; [|done]. eapply pool_inv_ext; [done|by rewrite Hp|done].
  - by eapply slot_inv_heap.
  - by eapply slot_inv_heap.
  - by eapply slot_inv_heap.
  - intros p n Hn Hmem Hh Hx. destruct (decide (p ∈ XO)); [by apply HO2|]. apply HO1; [|done]. by eapply hi_owned_in0.
  - intros p n Hn Hmem Hh Hx. destruct (decide (p ∈ XC)); [by apply HC2|]. apply HC1; [|done]. by eapply hi_connected0.
Qed.

(** Counters and notifications are not part of the structure. *)
Lemma hs_struct_counters E XO XC st st' : hs_struct E XO XC st →
  hs_PoolElementNodes st' = hs_PoolElementNodes st → hs_PoolNodes st' = hs_PoolNodes st →
  hs_PoolIndexStorage st' = hs_PoolIndexStorage st →
  hs_PoolElementTimerStorage st' = hs_PoolElementTimerStorage st →
  hs_PoolElementOwnershipStorage st' = hs_PoolElementOwnershipStorage st →
  hs_PoolElementConnectionStorage st' = hs_PoolElementConnectionStorage st →
  hs_struct E XO XC st'.
Proof.
  intros Hs He Hp Hi Ht Ho Hc. eapply hs_struct_storages; [exact Hs|done..| | | | | | |]; rewrite ?Ht, ?Ho, ?Hc; try apply Hs; done.
Qed.

Lemma owner_handle_frame X pp st st' n n' : pool_frame X pp st st' → is_Some (hs_PoolNodes st !! pp) →
  pen_OwnerPoolNode n' = pen_OwnerPoolNode n → owner_handle st' n' = owner_handle st n.
Proof.
  intros Hf [pn Hpn] Ho. unfold owner_handle. rewrite Ho. destruct (pen_OwnerPoolNode n) as [o|]; simpl; [|done].
  destruct (decide (o = pp)) as [->|Hne].
  - destruct (pf_pool _ _ _ _ Hf pn Hpn) as (pn' & -> & Hh & _). rewrite Hpn. simpl. by rewrite Hh.
  - by rewrite (pf_pools _ _ _ _ Hf).
Qed.

Definition element_slot (k : slot) : bool :=
  match k with SlotTimer | SlotOwnership | SlotConnection => true | _ => false end.

(** The storages over all elements are not affected by an operation on a
    pool. *)
Lemma slot_inv_frame k X pp st st' s : element_slot k = true → pool_frame X pp st st' →
  is_Some (hs_PoolNodes st !! pp) → slot_inv k st s → (∀ q, q ∈ st_list s → q ∉ X) → slot_inv k st' s.
Proof.
  intros Hk Hf Hpp Hinv HX. eapply slot_inv_ext; [exact Hinv|]. intros q Hq.
  pose proof (si_valid _ _ _ Hinv q Hq) as Hval.
  assert (∃ n h, hs_PoolElementNodes st !! q = Some n ∧ owner_handle st n = Some h) as (n & h & Hn & Hh) by by destruct k.
  destruct (pf_elements _ _ _ _ Hf q n (HX q Hq) Hn) as (n' & Hn' & Hst & Ho & _).
  pose proof (owner_handle_frame X pp st st' n n' Hf Hpp Ho) as Hh'. rewrite Hh in Hh'.
  destruct Hst as (Hi & _ & Hhome & Htime & _ & Hsd & Hassoc & _).
  unfold slot_key, slot_value, slot_valid.
  destruct k; try done; rewrite Hn, Hn'; simpl; rewrite Hh, Hh'; simpl;
    unfold timerKey, ownershipKey, connectionKey; rewrite ?Hi, ?Hhome, ?Htime, ?Hsd, ?Hassoc; eauto 10.
Qed.

Lemma slot_pools_frame X pp st st' s : pool_frame X pp st st' → is_Some (hs_PoolNodes st !! pp) →
  slot_inv SlotPools st s → slot_inv SlotPools st' s.
Proof.
  intros Hf [pn Hpn] Hinv. eapply slot_inv_ext; [exact Hinv|]. intros q Hq.
  destruct (si_valid _ _ _ Hinv q Hq) as [pnq Hpnq]. unfold slot_key, slot_value, slot_valid.
  destruct (decide (q = pp)) as [->|Hne].
  - destruct (pf_pool _ _ _ _ Hf pn Hpn) as (pn' & -> & Hh & _). rewrite Hpn. simpl. rewrite Hh. eauto.
  - rewrite (pf_pools _ _ _ _ Hf) by done. rewrite Hpnq. eauto.
Qed.

(** Neither are the other pools. *)
Lemma pool_inv_frame X pp pp' st st' pn : pool_frame X pp st st' → pp' ≠ pp → pool_inv [] [] st pp' pn →
  (∀ q, q ∈ X → q ∉ st_list (pn_PoolElementIndexStorage pn)) →
  (∀ q n, q ∈ X → hs_PoolElementNodes st' !! q = Some n → pen_OwnerPoolNode n ≠ Some pp') →
  pool_inv [] [] st' pp' pn.
Proof.
  intros Hf Hne Hinv HX HX'. pose proof (pi_lookup _ _ _ _ _ Hinv) as Hpn.
  assert (hs_PoolNodes st' !! pp' = Some pn) as Hpn' by by rewrite (pf_pools _ _ _ _ Hf).
  assert (∀ q n, hs_PoolElementNodes st !! q = Some n → pen_OwnerPoolNode n = Some pp' →
    hs_PoolElementNodes st' !! q = Some n) as Hown.
  { intros q n Hn Ho. assert (q ∉ X) as Hq.
    { intros Hq. apply (HX q Hq). by eapply (pi_member _ _ _ _ _ Hinv). }
    destruct (pf_elements _ _ _ _ Hf q n Hq Hn) as (n' & Hn' & _ & _ & Heq). rewrite Heq in Hn'; [done|congruence]. }
  assert (∀ q n, hs_PoolElementNodes st' !! q = Some n → pen_OwnerPoolNode n = Some pp' →
    hs_PoolElementNodes st !! q = Some n) as Hown'.
  { intros q n' Hn' Ho'. destruct (hs_PoolElementNodes st !! q) as [n|] eqn:Hn.
    - assert (q ∉ X) as Hq by (intros Hq; by apply (HX' q n' Hq)).
      destruct (pf_elements _ _ _ _ Hf q n Hq Hn) as (n1 & Hn1 & _ & Ho1 & Heq).
      assert (n1 = n') as -> by congruence. rewrite Heq; [done|congruence].
    - rewrite (pf_dom _ _ _ _ Hf q Hn) in Hn'. done. }
  assert (∀ q, q ∈ st_list (pn_PoolElementIndexStorage pn) → ∃ n, hs_PoolElementNodes st !! q = Some n ∧
    hs_PoolElementNodes st' !! q = Some n ∧ pen_OwnerPoolNode n = Some pp') as Hboth.
  { intros q Hq. destruct (pi_element _ _ _ _ _ Hinv q Hq) as (n & Hn & _ & _ & [[Ho _]|[_ HU]]);
      [|by apply not_elem_of_nil in HU]. exists n. eauto. }
  pose proof (pi_selection _ _ _ _ _ Hinv) as Hsel%sel_inv_clean.
  pose proof Hinv as Hinv0. destruct Hinv. split; try done.
  - eapply slot_inv_ext; [exact pi_index|]. intros q Hq. destruct (Hboth q Hq) as (n & Hn & Hn' & _).
    unfold slot_key, slot_value, slot_valid. rewrite Hn, Hn'. eauto.
  - apply sel_inv_clean. eapply slot_inv_ext; [exact Hsel|]. intros q Hq.
    destruct (Hboth q) as (n & Hn & Hn' & Ho); [apply (pool_inv_elements _ _ _ _ _ _ Hinv0); by right|].
    unfold slot_key, slot_value, slot_valid. rewrite Hn, Hn', Hpn, Hpn'. split; [done|]. split; [done|]. by exists n, pn.
  - intros q n Hn Ho. eapply pi_member; [by apply Hown'|done].
  - intros q Hq. destruct (Hboth q Hq) as (n & Hn & Hn' & Ho). destruct (pi_element q Hq) as (m & ? & ? & ? & Hs).
    simplify_eq. eauto 10.
  - intros q1 q2 n1 n2 H1 H2 Ho1 Ho2. apply (pi_seq q1 q2 n1 n2); [by apply Hown'|by apply Hown'|done|done].
Qed.

Lemma pool_frame_rest X pp st st' : pool_frame X pp st st' →
  hs_PoolIndexStorage st' = hs_PoolIndexStorage st ∧ hs_PoolElementTimerStorage st' = hs_PoolElementTimerStorage st ∧
  hs_PoolElementOwnershipStorage st' = hs_PoolElementOwnershipStorage st ∧
  hs_PoolElementConnectionStorage st' = hs_PoolElementConnectionStorage st ∧
  hs_HandlespaceChecksum st' = hs_HandlespaceChecksum st ∧ hs_OwnershipChecksum st' = hs_OwnershipChecksum st ∧
  hs_HomeRegistrarIdentifier st' = hs_HomeRegistrarIdentifier st ∧ hs_PoolElements st' = hs_PoolElements st ∧
  hs_OwnedPoolElements st' = hs_OwnedPoolElements st ∧
  hs_PoolNodeUpdateNotification st' = hs_PoolNodeUpdateNotification st ∧ hs_Notifications st' = hs_Notifications st.
Proof. intros Hf. rewrite (pf_rest _ _ _ _ Hf). done. Qed.

(** An operation on the linked pool [pp]; the elements of [X] may have
    joined or left it. *)
Lemma hs_struct_frame E E' XO XC XO' XC' X pp st st' pn pn' : hs_struct E XO XC st →
  pp ∈ st_list (hs_PoolIndexStorage st) → pool_inv [] [] st pp pn → pool_frame X pp st st' →
  pool_inv [] [] st' pp pn' → pool_same pn pn' →
  (pp ∈ E' ∨ st_list (pn_PoolElementIndexStorage pn') ≠ []) → (∀ q, q ∈ E → q ≠ pp → q ∈ E') → XO ⊆ XO' → XC ⊆ XC' →
  (∀ q n pp', q ∈ X → hs_PoolElementNodes st !! q = Some n ∨ hs_PoolElementNodes st' !! q = Some n →
     pen_OwnerPoolNode n = Some pp' → pp' = pp) →
  (∀ q, q ∈ X → q ∉ st_list (hs_PoolElementTimerStorage st) ∧ q ∉ st_list (hs_PoolElementOwnershipStorage st) ∧
     q ∉ st_list (hs_PoolElementConnectionStorage st)) →
  (∀ q n, q ∈ X → hs_PoolElementNodes st' !! q = Some n → pen_wf n ∧
     (pen_OwnerPoolNode n ≠ None → q ∈ XO' ∧ q ∈ XC')) →
  hs_struct E' XO' XC' st'.
Proof.
  intros Hs Hpp Hinv Hf Hinv' Hsame Hne HE HXO HXC Hown Hdisj HX.
  destruct (pool_frame_rest _ _ _ _ Hf) as (Ri & Rt & Ro & Rc & _).
  pose proof (pi_lookup _ _ _ _ _ Hinv) as Hpn.
  assert (is_Some (hs_PoolNodes st !! pp)) as Hsome by eauto.
  assert (∀ q n', q ∉ X → hs_PoolElementNodes st' !! q = Some n' → ∃ n, hs_PoolElementNodes st !! q = Some n ∧
    pe_stable n n' ∧ pen_OwnerPoolNode n' = pen_OwnerPoolNode n ∧ (pen_OwnerPoolNode n ≠ Some pp → n' = n)) as Hback.
  { intros q n' Hq Hn'. destruct (hs_PoolElementNodes st !! q) as [n|] eqn:Hn.
    - destruct (pf_elements _ _ _ _ Hf q n Hq Hn) as (n1 & Hn1 & ?). simplify_eq. eauto.
    - rewrite (pf_dom _ _ _ _ Hf q Hn) in Hn'. done. }
  assert (∀ pp' pn0, pp' ≠ pp → pool_inv [] [] st pp' pn0 → pool_inv [] [] st' pp' pn0) as Hothers.
  { intros pp' pn0 Hne' Hinv0. eapply pool_inv_frame; [done|done|done| |].
    - intros q Hq Hin. destruct (pi_element _ _ _ _ _ Hinv0 q Hin) as (n & Hn & _ & _ & [[Ho _]|[_ HU]]);
        [|by apply not_elem_of_nil in HU]. apply Hne'. eapply Hown; eauto.
    - intros q n Hq Hn Ho. apply Hne'. eapply Hown; eauto. }
  destruct Hs. split.
  - intros q n' Hn'. destruct (decide (q ∈ X)) as [Hq|Hq]; [by apply (HX q n' Hq Hn')|].
    destruct (Hback q n' Hq Hn') as (n & Hn & _ & Ho & Heq).
    destruct (decide (pen_OwnerPoolNode n = Some pp)) as [Hpp'|Hpp'].
    + destruct (pi_element _ _ _ _ _ Hinv' q) as (m & ? & ? & _); [eapply (pi_member _ _ _ _ _ Hinv'); [done|congruence]|].
      by simplify_eq.
    + rewrite Heq by done. by eapply hi_wf0.
  - rewrite Ri. by eapply slot_pools_frame.
  - intros pp' Hpp'. rewrite Ri in Hpp'. destruct (decide (pp' = pp)) as [->|Hne'].
    + exists pn'. split; [done|]. split; [|done]. destruct (hi_pool0 pp Hpp) as (pn0 & Hinv0 & Hflag & _).
      pose proof (pi_lookup _ _ _ _ _ Hinv0). simplify_eq. destruct Hsame as (_ & _ & _ & _ & ->). done.
    + destruct (hi_pool0 pp' Hpp') as (pn0 & Hinv0 & ? & Hnz). exists pn0. split; [by apply Hothers|]. split; [done|].
      destruct Hnz; [left; by apply HE|by right].
  - intros q n' pp' Hn' Ho'. rewrite Ri. destruct (decide (q ∈ X)) as [Hq|Hq].
    + assert (pp' = pp) as -> by (eapply Hown; eauto). done.
    + destruct (Hback q n' Hq Hn') as (n & Hn & _ & Ho & _). eapply hi_owner0; [done|congruence].
  - intros pp' pn0 Hpn0 Hnin. rewrite Ri in Hnin. assert (pp' ≠ pp) as Hne' by (intros ->; done).
    rewrite (pf_pools _ _ _ _ Hf) in Hpn0 by done. destruct (hi_unlinked0 pp' pn0 Hpn0 Hnin) as [Hinv0 ?].
    split; [by apply Hothers|done].
  - rewrite Rt. eapply (slot_inv_frame SlotTimer); try done. intros q Hq HqX. by destruct (Hdisj q HqX).
  - rewrite Ro. eapply (slot_inv_frame SlotOwnership); try done. intros q Hq HqX. by destruct (Hdisj q HqX) as (_ & ? & _).
  - rewrite Rc. eapply (slot_inv_frame SlotConnection); try done. intros q Hq HqX. by destruct (Hdisj q HqX) as (_ & _ & ?).
  - intros q n' Hn' Ho' Hh HXO'. rewrite Ro. destruct (decide (q ∈ X)) as [Hq|Hq].
    + destruct (HX q n' Hq Hn') as [_ Hin]. by destruct (Hin Ho').
    + destruct (Hback q n' Hq Hn') as (n & Hn & (_ & _ & Hhome & _) & Ho & _).
      eapply hi_owned_in0; [done|congruence|congruence|set_solver].
  - intros q n' Hn' Ho' Hh HXC'. rewrite Rc. destruct (decide (q ∈ X)) as [Hq|Hq].
    + destruct (HX q n' Hq Hn') as [_ Hin]. by destruct (Hin Ho').
    + destruct (Hback q n' Hq Hn') as (n & Hn & (_ & _ & _ & _ & _ & Hsd & _) & Ho & _).
      eapply hi_connected0; [done|congruence|by rewrite <- Hsd|set_solver].
Qed.

(** ** Elements and their keys *)

Lemma hs_struct_owner E XO XC st p n : hs_struct E XO XC st → hs_PoolElementNodes st !! p = Some n →
  pen_OwnerPoolNode n ≠ None → ∃ pp pn, pen_OwnerPoolNode n = Some pp ∧ pp ∈ st_list (hs_PoolIndexStorage st) ∧
  pool_inv [] [] st pp pn ∧ owner_handle st n = Some (pn_Handle pn) ∧ p ∈ st_list (pn_PoolElementIndexStorage pn).
Proof.
  intros Hs Hn Ho. destruct (pen_OwnerPoolNode n) as [pp|] eqn:Hpp; [|done].
  pose proof (hi_owner _ _ _ _ Hs p n pp Hn Hpp) as Hin.
  destruct (hi_pool _ _ _ _ Hs pp Hin) as (pn & Hinv & _). exists pp, pn. split; [done|]. split; [done|]. split; [done|].
  split; [|by eapply (pi_member _ _ _ _ _ Hinv)].
  unfold owner_handle. rewrite Hpp. simpl. by rewrite (pi_lookup _ _ _ _ _ Hinv).
Qed.

Lemma hs_struct_handle_inj E XO XC st pp pp' pn pn' : hs_struct E XO XC st →
  pp ∈ st_list (hs_PoolIndexStorage st) → pp' ∈ st_list (hs_PoolIndexStorage st) →
  hs_PoolNodes st !! pp = Some pn → hs_PoolNodes st !! pp' = Some pn' → pn_Handle pn = pn_Handle pn' → pp = pp'.
Proof.
  intros Hs Hpp Hpp' Hpn Hpn' Hh. eapply (key_sorted_inj (slot_key SlotPools st)); [apply Hs|done|done|].
  simpl. rewrite Hpn, Hpn'. simpl. by rewrite Hh.
Qed.

(** An element is determined by its pool's handle and its identifier. *)
Lemma hs_struct_element_inj E XO XC st p q n m h : hs_struct E XO XC st →
  hs_PoolElementNodes st !! p = Some n → hs_PoolElementNodes st !! q = Some m →
  owner_handle st n = Some h → owner_handle st m = Some h → pen_Identifier n = pen_Identifier m → p = q.
Proof.
  intros Hs Hn Hm Hhn Hhm Hid.
  assert (∀ x, owner_handle st x = Some h → pen_OwnerPoolNode x ≠ None) as Hnn.
  { intros x Hx. unfold owner_handle in Hx. by destruct (pen_OwnerPoolNode x). }
  destruct (hs_struct_owner E XO XC st p n) as (pp & pn & Ho & Hpp & Hinv & Hh & Hin); [done|done|by apply Hnn|].
  destruct (hs_struct_owner E XO XC st q m) as (pp' & pn' & Ho' & Hpp' & Hinv' & Hh' & Hin'); [done|done|by apply Hnn|].
  assert (pp = pp') as <-.
  { eapply hs_struct_handle_inj; [done|done|done|apply Hinv|apply Hinv'|congruence]. }
  pose proof (pi_lookup _ _ _ _ _ Hinv). pose proof (pi_lookup _ _ _ _ _ Hinv'). simplify_eq.
  eapply (key_sorted_inj (slot_key (SlotIndex pp) st)); [apply Hinv|done|done|].
  simpl. rewrite Hn, Hm. simpl. unfold indexKey. by rewrite Hid.
Qed.

Lemma element_slot_key k st p n h : element_slot k = true → hs_PoolElementNodes st !! p = Some n →
  owner_handle st n = Some h → ∃ l, slot_key k st p = l ++ pen_Identifier n :: handleKey h ∧
  length l = match k with SlotConnection => 2%nat | _ => 1%nat end.
Proof.
  intros Hk Hn Hh. destruct k; try done; simpl; rewrite Hn; simpl; rewrite Hh; simpl.
  - by exists [pen_TimerTimeStamp n].
  - by exists [pen_HomeRegistrarIdentifier n].
  - by exists [pen_ConnectionSocketDescriptor n; pen_ConnectionAssocID n].
Qed.

Lemma element_slot_key_inj k E XO XC st p q : hs_struct E XO XC st → element_slot k = true →
  slot_valid k st p → slot_valid k st q → slot_key k st p = slot_key k st q → p = q.
Proof.
  intros Hs Hk Hp Hq Heq.
  assert (∃ n h, hs_PoolElementNodes st !! p = Some n ∧ owner_handle st n = Some h) as (n & h & Hn & Hh) by by destruct k.
  assert (∃ m h', hs_PoolElementNodes st !! q = Some m ∧ owner_handle st m = Some h') as (m & h' & Hm & Hh') by by destruct k.
  destruct (element_slot_key k st p n h Hk Hn Hh) as (l & Hkp & Hl).
  destruct (element_slot_key k st q m h' Hk Hm Hh') as (l' & Heq' & Hl'). rewrite Hkp, Heq' in Heq.
  apply app_inj_1 in Heq as [_ Heq]; [|congruence]. injection Heq as Hid Hhk1 Hhk2.
  assert (h = h') as <- by (apply handleKey_inj; unfold handleKey; by f_equal).
  by eapply hs_struct_element_inj.
Qed.

Lemma hs_struct_slot k E XO XC st : element_slot k = true → hs_struct E XO XC st → ∃ s, slot_get k st = Some s ∧ slot_inv k st s.
Proof. intros Hk Hs. destruct k; try done; eexists; (split; [done|]); apply Hs. Qed.

Lemma removeIfLinked_spec k E XO XC st s p : element_slot k = true → hs_struct E XO XC st → slot_get k st = Some s → ∃ s',
  removeIfLinked k p st = Some (tt, slot_set k s' st) ∧ slot_inv k st s' ∧ st_list s' = l_remove p (st_list s).
Proof.
  intros Hk Hs Hg. destruct (hs_struct_slot k _ _ _ _ Hk Hs) as (s0 & Hg0 & Hinv). simplify_eq.
  unfold removeIfLinked. rewrite (run_bind _ _ _ _ _ (storageIsLinked_spec _ _ _ p Hg Hinv)).
  case_bool_decide as Hp.
  - destruct (storageRemove_spec k st st s p) as (s' & Hrun & Hinv' & Hl); try done.
    { intros q Hq _. repeat split. by apply Hinv. }
    exists s'. rewrite (run_bind _ _ _ _ _ Hrun). split; [|done]. apply run_check. by rewrite bool_decide_true.
  - exists s. rewrite (slot_set_same k st s) by done. split; [done|]. split; [done|]. by rewrite l_remove_not_elem.
Qed.

Lemma insertChecked_spec k E XO XC st s p : element_slot k = true → hs_struct E XO XC st → slot_get k st = Some s →
  slot_valid k st p → p ∉ st_list s → ∃ s',
  insertChecked k p st = Some (tt, slot_set k s' st) ∧ slot_inv k st s' ∧ st_list s' ≡ₚ p :: st_list s.
Proof.
  intros Hk Hs Hg Hval Hp. destruct (hs_struct_slot k _ _ _ _ Hk Hs) as (s0 & Hg0 & Hinv). simplify_eq.
  destruct (storageInsert_new k st s p) as (s' & Hrun & Hinv' & Hl); try done.
  { intros q Hq Heq. apply Hp. assert (q = p) as <-; [|done].
    eapply element_slot_key_inj; [done|done| |done|done]. by apply Hinv. }
  exists s'. unfold insertChecked. rewrite (run_bind _ _ _ _ _ Hrun). split; [apply run_check; by rewrite bool_decide_true|].
  split; [done|]. rewrite Hl. apply l_insert_Permutation.
Qed.

(** ** Assignments to an element *)

(** The members the pools depend on. *)
Definition pe_core_same (n n' : PoolElementNode) : Prop :=
  pen_Identifier n' = pen_Identifier n ∧ pen_OwnerPoolNode n' = pen_OwnerPoolNode n ∧
  pen_SeqNumber n' = pen_SeqNumber n ∧ pen_UserTransport n' = pen_UserTransport n ∧
  pen_RegistratorTransport n' = pen_RegistratorTransport n ∧ pen_PolicySettings n' = pen_PolicySettings n ∧
  pen_RoundCounter n' = pen_RoundCounter n ∧ pen_VirtualCounter n' = pen_VirtualCounter n ∧
  pen_Degradation n' = pen_Degradation n ∧ pen_Value n' = pen_Value n.

(** The same but for the transport addresses, which the pool only checks
    for compatibility. *)
Definition pe_keys_same (n n' : PoolElementNode) : Prop :=
  pen_Identifier n' = pen_Identifier n ∧ pen_OwnerPoolNode n' = pen_OwnerPoolNode n ∧
  pen_SeqNumber n' = pen_SeqNumber n ∧ pen_PolicySettings n' = pen_PolicySettings n ∧
  pen_RoundCounter n' = pen_RoundCounter n ∧ pen_VirtualCounter n' = pen_VirtualCounter n ∧
  pen_Degradation n' = pen_Degradation n ∧ pen_Value n' = pen_Value n.

Definition compat_kept st (n n' : PoolElementNode) : Prop :=
  ∀ pp pn, pen_OwnerPoolNode n = Some pp → hs_PoolNodes st !! pp = Some pn →
    poolNodeCheckPoolElementNodeCompatibility pn n = RSPERR_OKAY →
    poolNodeCheckPoolElementNodeCompatibility pn n' = RSPERR_OKAY.

Lemma pe_core_keys n n' st : pe_core_same n n' → pe_keys_same n n' ∧ compat_kept st n n'.
Proof.
  intros (Hi & Ho & Hs & Hu & Hr & Hps & Hrc & Hvc & Hd & Hv). split; [done|]. intros pp pn _ _ <-.
  unfold poolNodeCheckPoolElementNodeCompatibility. by rewrite Hi, Hu, Hr, Hps.
Qed.

Lemma pool_inv_store_core st pp pn p n n' : pool_inv [] [] st pp pn → hs_PoolElementNodes st !! p = Some n →
  pen_wf n' → pe_keys_same n n' → compat_kept st n n' → pool_inv [] [] (pe_store p n' st) pp pn.
Proof.
  intros Hinv Hn Hwf (Hi & Ho & Hs & Hps & Hrc & Hvc & Hd & Hv) Hck.
  apply (pool_inv_store [] [] st pp pn p n); try done.
  - intros Hp. destruct (pi_element _ _ _ _ _ Hinv p Hp) as (m & ? & _ & Hc & [[Hop _]|[_ HU]]); [|by apply not_elem_of_nil in HU].
    simplify_eq. eapply Hck; [done|apply Hinv|done].
  - intros _ _. split; [by apply policyKey_ext|done].
Qed.

Lemma owner_handle_store st p n' m : owner_handle (pe_store p n' st) m = owner_handle st m.
Proof. done. Qed.

Lemma hs_struct_assign E XO XC st p n n' : hs_struct E XO XC st → hs_PoolElementNodes st !! p = Some n →
  pen_wf n' → pe_keys_same n n' → compat_kept st n n' →
  (p ∈ st_list (hs_PoolElementTimerStorage st) → pen_TimerTimeStamp n' = pen_TimerTimeStamp n) →
  (p ∈ st_list (hs_PoolElementOwnershipStorage st) → pen_HomeRegistrarIdentifier n' = pen_HomeRegistrarIdentifier n) →
  (p ∈ st_list (hs_PoolElementConnectionStorage st) →
     pen_ConnectionSocketDescriptor n' = pen_ConnectionSocketDescriptor n ∧
     pen_ConnectionAssocID n' = pen_ConnectionAssocID n) →
  (pen_HomeRegistrarIdentifier n' = pen_HomeRegistrarIdentifier n ∨ p ∈ XO) →
  (pen_ConnectionSocketDescriptor n' = pen_ConnectionSocketDescriptor n ∨ p ∈ XC ∨ pen_ConnectionSocketDescriptor n' <= 0) →
  hs_struct E XO XC (pe_store p n' st).
Proof.
  intros Hs Hn Hwf Hcore Hcompat Ht Hh Hc HXO HXC. set (st' := pe_store p n' st).
  assert (∀ q, hs_PoolElementNodes st' !! q = if decide (q = p) then Some n' else hs_PoolElementNodes st !! q) as Hlook.
  { intros q. simpl. destruct (decide (q = p)) as [->|]; [apply lookup_insert_eq|by apply lookup_insert_ne]. }
  assert (pen_Identifier n' = pen_Identifier n) as Hi by apply Hcore.
  assert (pen_OwnerPoolNode n' = pen_OwnerPoolNode n) as Ho by apply Hcore.
  assert (∀ k s, element_slot k = true → slot_inv k st s → (p ∈ st_list s → slot_key k st' p = slot_key k st p) →
    slot_inv k st' s) as Hslot.
  { intros k s Hk Hinv Hkey. eapply slot_inv_ext; [exact Hinv|]. intros q Hq.
    pose proof (si_valid _ _ _ Hinv q Hq) as Hval.
    assert (∃ m h, hs_PoolElementNodes st !! q = Some m ∧ owner_handle st m = Some h) as (m & h & Hm & Hhm) by by destruct k.
    assert (∃ m', hs_PoolElementNodes st' !! q = Some m' ∧ owner_handle st' m' = Some h) as (m' & Hm' & Hhm').
    { rewrite Hlook. destruct (decide (q = p)) as [->|]; [|eauto]. simplify_eq. exists n'. split; [done|].
      unfold owner_handle in *. by rewrite Ho. }
    split; [|split].
    - destruct (decide (q = p)) as [->|Hne]; [symmetry; by apply Hkey|].
      unfold slot_key. rewrite Hlook, decide_False by done. by destruct k.
    - by destruct k.
    - destruct k; try done; by exists m', h. }
  destruct Hs. split.
  - intros q m. rewrite Hlook. case_decide; [by intros [= <-]|by apply hi_wf0].
  - eapply slot_inv_ext; [exact hi_pools0|]. intros q Hq. repeat split. by apply (si_valid _ _ _ hi_pools0).
  - intros pp Hpp. destruct (hi_pool0 pp Hpp) as (pn & ? & ?). exists pn. split; [by eapply pool_inv_store_core|done].
  - intros q m pp. rewrite Hlook. case_decide; [intros [= <-] Ho'|by apply hi_owner0]. subst.
    eapply hi_owner0; [done|congruence].
  - intros pp pn Hpn Hnin. destruct (hi_unlinked0 pp pn Hpn Hnin). split; [by eapply pool_inv_store_core|done].
  - apply Hslot; [done|done|]. intros Hp. unfold slot_key. rewrite Hlook, decide_True, Hn by done. simpl.
    unfold owner_handle. simpl. rewrite Ho. unfold timerKey. by rewrite (Ht Hp), Hi.
  - apply Hslot; [done|done|]. intros Hp. unfold slot_key. rewrite Hlook, decide_True, Hn by done. simpl.
    unfold owner_handle. simpl. rewrite Ho. unfold ownershipKey. by rewrite (Hh Hp), Hi.
  - apply Hslot; [done|done|]. intros Hp. unfold slot_key. rewrite Hlook, decide_True, Hn by done. simpl.
    unfold owner_handle. simpl. rewrite Ho. unfold connectionKey. destruct (Hc Hp) as [-> ->]. by rewrite Hi.
  - intros q m. rewrite Hlook. case_decide; [intros [= <-] Hom Hhm Hx|by apply hi_owned_in0]. subst.
    destruct HXO as [Heq|]; [|done]. eapply hi_owned_in0; [done|congruence|congruence|done].
  - intros q m. rewrite Hlook. case_decide; [intros [= <-] Hom Hhm Hx|by apply hi_connected0]. subst.
    destruct HXC as [Heq|[|]]; [|done|lia]. eapply hi_connected0; [done|congruence|by rewrite <- Heq|done].
Qed.

Lemma hs_struct_store E XO XC st p n n' : hs_struct E XO XC st → hs_PoolElementNodes st !! p = Some n →
  pen_wf n' → pe_core_same n n' →
  (p ∈ st_list (hs_PoolElementTimerStorage st) → pen_TimerTimeStamp n' = pen_TimerTimeStamp n) →
  (p ∈ st_list (hs_PoolElementOwnershipStorage st) → pen_HomeRegistrarIdentifier n' = pen_HomeRegistrarIdentifier n) →
  (p ∈ st_list (hs_PoolElementConnectionStorage st) →
     pen_ConnectionSocketDescriptor n' = pen_ConnectionSocketDescriptor n ∧
     pen_ConnectionAssocID n' = pen_ConnectionAssocID n) →
  (pen_HomeRegistrarIdentifier n' = pen_HomeRegistrarIdentifier n ∨ p ∈ XO) →
  (pen_ConnectionSocketDescriptor n' = pen_ConnectionSocketDescriptor n ∨ p ∈ XC ∨ pen_ConnectionSocketDescriptor n' <= 0) →
  hs_struct E XO XC (pe_store p n' st).
Proof. intros Hs Hn Hwf Hcore. destruct (pe_core_keys n n' st Hcore). by apply hs_struct_assign. Qed.

(** ** Accounting *)

Record hs_acct st : Prop := {
  ha_checksum p n h : hs_PoolElementNodes st !! p = Some n → owner_handle st n = Some h →
    pen_Checksum n = poolElementNodeComputeChecksum h n;
  ha_sum : hs_HandlespaceChecksum st = u32 (msum member_checksum (hs_PoolElementNodes st));
  ha_owned_sum : hs_OwnershipChecksum st =
    u32 (msum (owned_checksum (hs_HomeRegistrarIdentifier st)) (hs_PoolElementNodes st));
  ha_count : hs_PoolElements st = msum member_count (hs_PoolElementNodes st);
  ha_owned_count : hs_OwnedPoolElements st =
    msum (owned_count (hs_HomeRegistrarIdentifier st)) (hs_PoolElementNodes st);
  ha_bound : hs_PoolElements st < 2 ^ 31
}.

(** The invariant between operations. *)
Definition hs_inv st : Prop := hs_struct [] [] [] st ∧ hs_acct st.

Lemma member_count_nonneg n : 0 <= member_count n.
Proof. unfold member_count. destruct (is_member n); lia. Qed.

Lemma owned_count_nonneg home n : 0 <= owned_count home n.
Proof. unfold owned_count. destruct (is_owned home n); lia. Qed.

Lemma owned_count_le home n : owned_count home n <= member_count n.
Proof. unfold owned_count, is_owned, member_count. destruct (is_member n); simpl; [destruct (_ =? _); lia|lia]. Qed.

(** Operations on a pool that keep its elements keep the accounting. *)
Lemma hs_acct_frame pp st st' : hs_acct st → pool_frame [] pp st st' → is_Some (hs_PoolNodes st !! pp) → hs_acct st'.
Proof.
  intros [] Hf Hpp. destruct (pool_frame_rest _ _ _ _ Hf) as (_ & _ & _ & _ & Rs & Ros & Rh & Rc & Roc & _).
  assert (∀ (f : PoolElementNode → Z), (∀ n n', pe_stable n n' → pen_OwnerPoolNode n' = pen_OwnerPoolNode n → f n' = f n) →
    msum f (hs_PoolElementNodes st') = msum f (hs_PoolElementNodes st)) as Hsum.
  { intros f Hfs. apply msum_ext. intros q. destruct (hs_PoolElementNodes st !! q) as [n|] eqn:Hn.
    - destruct (pf_elements _ _ _ _ Hf q n) as (n' & -> & Hst & Ho & _); [apply not_elem_of_nil|done|]. simpl.
      by rewrite (Hfs n n').
    - by rewrite (pf_dom _ _ _ _ Hf q Hn). }
  assert (∀ n n', pe_stable n n' → pen_OwnerPoolNode n' = pen_OwnerPoolNode n →
    is_member n' = is_member n ∧ ∀ home, is_owned home n' = is_owned home n) as Hmem.
  { intros n n' (_ & _ & Hh & _) Ho. unfold is_owned, is_member. by rewrite Ho, Hh. }
  split; rewrite ?Rs, ?Ros, ?Rh, ?Rc, ?Roc; try done.
  - intros q n' h Hn' Hh'. destruct (hs_PoolElementNodes st !! q) as [n|] eqn:Hn; [|by rewrite (pf_dom _ _ _ _ Hf q Hn) in Hn'].
    destruct (pf_elements _ _ _ _ Hf q n) as (n1 & Hn1 & Hst & Ho & _); [apply not_elem_of_nil|done|]. simplify_eq.
    rewrite (owner_handle_frame [] pp st st' n n') in Hh' by done.
    pose proof (ha_checksum0 q n h Hn Hh') as Hc. destruct Hst as (Hi & -> & _). rewrite Hc.
    unfold poolElementNodeComputeChecksum. by rewrite Hi.
  - rewrite ha_sum0. f_equal. symmetry. apply Hsum. intros n n' Hst Ho. unfold member_checksum.
    destruct (Hmem n n' Hst Ho) as [-> _]. by destruct Hst as (_ & -> & _).
  - rewrite ha_owned_sum0. f_equal. symmetry. apply Hsum. intros n n' Hst Ho. unfold owned_checksum.
    destruct (Hmem n n' Hst Ho) as [_ ->]. by destruct Hst as (_ & -> & _).
  - rewrite ha_count0. symmetry. apply Hsum. intros n n' Hst Ho. unfold member_count. by destruct (Hmem n n' Hst Ho) as [-> _].
  - rewrite ha_owned_count0. symmetry. apply Hsum. intros n n' Hst Ho. unfold owned_count. by destruct (Hmem n n' Hst Ho) as [_ ->].
Qed.

Lemma hs_struct_pool_op E XO XC pp st st' pn pn' : hs_struct E XO XC st → pp ∈ st_list (hs_PoolIndexStorage st) →
  pool_inv [] [] st pp pn → pool_frame [] pp st st' → pool_inv [] [] st' pp pn' → pool_same pn pn' →
  st_list (pn_PoolElementIndexStorage pn') = st_list (pn_PoolElementIndexStorage pn) →
  hs_struct E XO XC st'.
Proof.
  intros Hs Hpp Hinv Hf Hinv' Hsame Hidx.
  eapply (hs_struct_frame E E XO XC XO XC [] pp); try done.
  - destruct (hi_pool _ _ _ _ Hs pp Hpp) as (pn0 & Hinv0 & _ & Hne). pose proof (pi_lookup _ _ _ _ _ Hinv0).
    pose proof (pi_lookup _ _ _ _ _ Hinv). simplify_eq. by rewrite Hidx.
  - intros q n pp' Hq. by apply not_elem_of_nil in Hq.
  - intros q Hq. by apply not_elem_of_nil in Hq.
  - intros q n Hq. by apply not_elem_of_nil in Hq.
Qed.

Lemma hs_inv_pool_op pp st st' pn pn' : hs_inv st → pp ∈ st_list (hs_PoolIndexStorage st) →
  pool_inv [] [] st pp pn → pool_frame [] pp st st' → pool_inv [] [] st' pp pn' → pool_same pn pn' →
  st_list (pn_PoolElementIndexStorage pn') = st_list (pn_PoolElementIndexStorage pn) → hs_inv st'.
Proof.
  intros [Hs Ha] Hpp Hinv Hf Hinv' Hsame Hidx. split; [by eapply hs_struct_pool_op|].
  eapply hs_acct_frame; [done|done|]. rewrite (pi_lookup _ _ _ _ _ Hinv). eauto.
Qed.
End inv.
