(* ===== verification/HandlespaceOps.v ===== *)
(** * The operations of the handlespace keep its invariant

    For every operation of HandlespaceNode that changes the state: it runs
    to its end (no CHECK fails, no invalid pointer is followed, no loop
    runs out of fuel) and the invariant holds afterwards. *)

From S2P Require Import Prelude Checksum Addresses PoolBasics Storage PoolElement PoolPolicy HandlespaceState PoolNode PoolEffects PoolSelection HandlespaceNode HandlespaceInv.
From stdpp Require Import base list gmap numbers option sorting sets.
#[local] Open Scope Z_scope.

Section ops.
Context {ST : Type} `{SL : StorageLaws ST} `{En : Endian}.
Abbreviation HS := (Handlespace ST).
Implicit Types (st : HS) (pn : PoolNode ST) (p q pp : ptr) (E X XO XC : list ptr).

Lemma members_count_le (m : gmap ptr PoolElementNode) (l : list ptr) : NoDup l →
  (∀ p, p ∈ l → ∃ n, m !! p = Some n ∧ pen_OwnerPoolNode n ≠ None) → Z.of_nat (length l) <= msum member_count m.
Proof.
  revert m. induction l as [|p l IH]; intros m Hnd Hin; simpl; [apply msum_nonneg, member_count_nonneg|].
  destruct (Hin p ltac:(left)) as (n & Hn & Ho). pose proof (msum_delete member_count m p n Hn) as Hd.
  pose proof (NoDup_cons_1_1 _ _ Hnd) as Hp. apply NoDup_cons_1_2 in Hnd.
  assert (member_count n = 1) as Hone by (unfold member_count, is_member; by rewrite bool_decide_true).
  specialize (IH (delete p m) Hnd). rewrite Hd, Hone in IH. cut (Z.of_nat (length l) <= msum member_count m - 1); [lia|].
  apply IH. intros q Hq. destruct (Hin q ltac:(by right)) as (n' & Hn' & ?). exists n'. rewrite lookup_delete_ne by set_solver. done.
Qed.

Lemma hs_inv_pool_size st pp pn : hs_inv st → pool_inv [] [] st pp pn →
  Z.of_nat (length (st_list (pn_PoolElementIndexStorage pn))) < 2 ^ 31.
Proof.
  intros [Hs Ha] Hinv. pose proof (ha_bound _ Ha). pose proof (ha_count _ Ha).
  pose proof (members_count_le (hs_PoolElementNodes st) (st_list (pn_PoolElementIndexStorage pn))) as Hle.
  assert (Z.of_nat (length (st_list (pn_PoolElementIndexStorage pn))) <= msum member_count (hs_PoolElementNodes st)); [|lia].
  apply Hle; [eapply slot_inv_nodup, Hinv|]. intros p Hp.
  destruct (pi_element _ _ _ _ _ Hinv p Hp) as (n & Hn & _ & _ & [[Ho _]|[_ HU]]); [|by apply not_elem_of_nil in HU].
  exists n. split; [done|]. by rewrite Ho.
Qed.

(** ** Finding *)

Lemma storageFind_ex k st s cmp key : slot_get k st = Some s → slot_inv k st s → probes k st s (cmp st) key → ∃ r,
  storageFind k cmp st = Some (r, st) ∧
  match r with
  | Some q => q ∈ st_list s ∧ slot_key k st q = key
  | None => ∀ q, q ∈ st_list s → slot_key k st q ≠ key
  end.
Proof.
  intros Hg Hinv Hp. assert (∃ r, storageFind k cmp st = Some (r, st)) as [r Hr].
  { unfold storageFind. rewrite Hg, (probes_valid _ _ _ _ _ Hp). eauto. }
  exists r. split; [done|]. by apply (storageFind_spec k st s cmp key).
Qed.

Lemma pools_probe st s h : slot_inv SlotPools st s → probes SlotPools st s (comparePoolHandle h st) (handleKey h).
Proof.
  intros Hinv q Hq. destruct (si_valid _ _ _ Hinv q Hq) as [pn Hpn]. unfold comparePoolHandle. simpl. by rewrite Hpn.
Qed.

Lemma handleForComparison_run st h : handle_wf h → handleForComparison h st = Some (h, st).
Proof. intros Hh. unfold handleForComparison, deref. by rewrite poolHandleNew_self. Qed.

(** The pool with a given handle. *)
Definition pool_of st h pp : Prop :=
  pp ∈ st_list (hs_PoolIndexStorage st) ∧ ∃ pn, hs_PoolNodes st !! pp = Some pn ∧ pn_Handle pn = h.

Lemma findPool_spec E XO XC st h : hs_struct E XO XC st → handle_wf h → ∃ r,
  poolHandlespaceNodeFindPoolNode h st = Some (r, st) ∧
  match r with Some pp => pool_of st h pp | None => ∀ pp, ¬ pool_of st h pp end.
Proof.
  intros Hs Hh. pose proof (hi_pools _ _ _ _ Hs) as Hinv.
  destruct (storageFind_ex SlotPools st (hs_PoolIndexStorage st) (comparePoolHandle h) (handleKey h))
    as (r & Hrun & Hr); [done|done|by apply pools_probe|].
  exists r. unfold poolHandlespaceNodeFindPoolNode. rewrite (run_bind _ _ _ _ _ (handleForComparison_run st h Hh)).
  split; [done|]. destruct r as [pp|].
  - destruct Hr as [Hin Hkey]. split; [done|]. destruct (si_valid _ _ _ Hinv pp Hin) as [pn Hpn]. exists pn.
    split; [done|]. unfold slot_key in Hkey. rewrite Hpn in Hkey. by apply handleKey_inj.
  - intros pp (Hin & pn & Hpn & Hhn). apply (Hr pp Hin). unfold slot_key. rewrite Hpn. simpl. by rewrite Hhn.
Qed.

Lemma pool_of_inv E XO XC st h pp : hs_struct E XO XC st → pool_of st h pp → ∃ pn,
  pool_inv [] [] st pp pn ∧ pn_Handle pn = h.
Proof.
  intros Hs (Hin & pn & Hpn & Hh). destruct (hi_pool _ _ _ _ Hs pp Hin) as (pn' & Hinv & _).
  pose proof (pi_lookup _ _ _ _ _ Hinv). simplify_eq. eauto.
Qed.

(** ** Selection *)

Lemma policySelect_spec random64 st pp pn max maxInc : hs_inv st → pp ∈ st_list (hs_PoolIndexStorage st) →
  pool_inv [] [] st pp pn → (∀ i, 0 <= random64 i) → 1 <= max < 2 ^ 32 → 0 <= maxInc → ∃ arr st',
  policySelectPoolElementNodes random64 pp max maxInc st = Some (arr, st') ∧ hs_inv st' ∧
  NoDup arr ∧ Z.of_nat (length arr) <= max ∧ (∀ p, p ∈ arr → p ∈ st_list (pn_PoolElementIndexStorage pn)) ∧
  pool_frame [] pp st st'.
Proof.
  intros Hinv Hpp Hpool Hrnd Hmax Hinc. pose proof (pi_lookup _ _ _ _ _ Hpool) as Hpn.
  assert (2 * Z.of_nat (length (st_list (pn_PoolElementSelectionStorage pn))) < 2 ^ 32) as Hlen.
  { pose proof (hs_inv_pool_size st pp pn Hinv Hpool) as Hsz. rewrite (pi_same _ _ _ _ _ Hpool) in Hsz. simpl in Hsz. lia. }
  unfold policySelectPoolElementNodes. rewrite (run_bind _ _ _ _ _ (pool_get_run _ _ _ Hpn)).
  destruct (pp_SelectionFunction (pn_Policy pn)).
  - destruct (selectBySortingOrder_spec st pp pn max maxInc) as (st' & pn' & Hrun & (Hinv' & Hf & Hsame & Hidx & _) & _); try done.
    eexists _, st'. split; [exact Hrun|]. split; [eapply hs_inv_pool_op; try done; by rewrite Hidx|].
    split; [|split; [rewrite length_take; lia|split; [|done]]].
    + apply (sublist_NoDup _ (st_list (pn_PoolElementSelectionStorage pn))); [|apply sublist_take].
      apply pool_inv_nodup in Hpool. by apply Hpool.
    + intros p Hp. apply (pool_inv_elements _ _ _ _ _ _ Hpool). right. by apply subseteq_take in Hp.
  - destruct (selectByValueTree_spec random64 st pp pn max maxInc) as
      (arr & st' & pn' & Hrun & (Hinv' & Hf & Hsame & Hidx & _) & Hnd & Hle & Hin & _); try done.
    exists arr, st'. split; [done|]. split; [eapply hs_inv_pool_op; try done; by rewrite Hidx|]. done.
Qed.

(** ** Accounting lemmas *)

Lemma hs_acct_ext st st' : hs_acct st → hs_PoolElementNodes st' = hs_PoolElementNodes st →
  hs_PoolNodes st' = hs_PoolNodes st → hs_HandlespaceChecksum st' = hs_HandlespaceChecksum st →
  hs_OwnershipChecksum st' = hs_OwnershipChecksum st →
  hs_HomeRegistrarIdentifier st' = hs_HomeRegistrarIdentifier st → hs_PoolElements st' = hs_PoolElements st →
  hs_OwnedPoolElements st' = hs_OwnedPoolElements st → hs_acct st'.
Proof.
  intros [] He Hp Hs Hos Hh Hc Hoc. split; rewrite ?He, ?Hs, ?Hos, ?Hh, ?Hc, ?Hoc; try done.
  intros p n h Hn Hown. apply (ha_checksum p n h Hn). unfold owner_handle in *. by rewrite Hp in Hown.
Qed.

Lemma hs_acct_store st p n n' : hs_acct st → hs_PoolElementNodes st !! p = Some n →
  pen_Identifier n' = pen_Identifier n → pen_Checksum n' = pen_Checksum n → pen_OwnerPoolNode n' = pen_OwnerPoolNode n →
  pen_HomeRegistrarIdentifier n' = pen_HomeRegistrarIdentifier n → hs_acct (pe_store p n' st).
Proof.
  intros [] Hn Hi Hc Ho Hh.
  assert (is_member n' = is_member n) as Hm by (unfold is_member; by rewrite Ho).
  assert (∀ home, is_owned home n' = is_owned home n) as Hown by (intros; unfold is_owned; by rewrite Hm, Hh).
  split; simpl; try done.
  - intros q m h Hm' Hoh. destruct (decide (q = p)) as [->|Hne].
    + rewrite lookup_insert_eq in Hm'. injection Hm' as <-. rewrite Hc.
      rewrite (ha_checksum p n h Hn); [unfold poolElementNodeComputeChecksum; by rewrite Hi|].
      unfold owner_handle in *. by rewrite <- Ho.
    + rewrite lookup_insert_ne in Hm' by done. by eapply ha_checksum.
  - rewrite (msum_update _ _ p n) by done. rewrite ha_sum. unfold member_checksum at 3 4. rewrite Hm, Hc. f_equal. lia.
  - rewrite (msum_update _ _ p n) by done. rewrite ha_owned_sum. unfold owned_checksum at 3 4. rewrite Hown, Hc. f_equal. lia.
  - rewrite (msum_update _ _ p n) by done. rewrite ha_count. unfold member_count at 3 4. rewrite Hm. lia.
  - rewrite (msum_update _ _ p n) by done. rewrite ha_owned_count. unfold owned_count at 3 4. rewrite Hown. lia.
Qed.

(** ** Timers *)

Lemma activateTimer_spec st p n code ts : hs_inv st → hs_PoolElementNodes st !! p = Some n →
  pen_OwnerPoolNode n ≠ None → p ∉ st_list (hs_PoolElementTimerStorage st) → ∃ s',
  let st1 := pe_store p (set_TimerTimeStamp ts (set_TimerCode code n)) st in
  poolHandlespaceNodeActivateTimer p code ts st = Some (tt, hs_set_PoolElementTimerStorage s' st1) ∧
  hs_inv (hs_set_PoolElementTimerStorage s' st1) ∧ st_list s' ≡ₚ p :: st_list (hs_PoolElementTimerStorage st).
Proof.
  intros [Hs Ha] Hn Ho Hnin. set (n' := set_TimerTimeStamp ts (set_TimerCode code n)). set (st1 := pe_store p n' st).
  assert (hs_struct [] [] [] st1) as Hs1.
  { apply (hs_struct_store [] [] [] st p n n'); try done; [by apply (hi_wf _ _ _ _ Hs) in Hn|by left|by left]. }
  destruct (hs_struct_owner _ _ _ _ _ _ Hs Hn Ho) as (pp & pn & _ & _ & _ & Hh & _).
  destruct (insertChecked_spec SlotTimer [] [] [] st1 (hs_PoolElementTimerStorage st) p) as (s' & Hrun & Hinv' & Hperm); try done.
  { exists n', (pn_Handle pn). split; [simpl; apply lookup_insert_eq|done]. }
  exists s'. simpl. split; [|split; [split|done]].
  - unfold poolHandlespaceNodeActivateTimer.
    erewrite run_bind; [|apply storageIsLinked_spec; [done|apply Hs]]. rewrite bool_decide_false by done.
    erewrite run_bind; [|by apply run_check]. erewrite run_bind; [|by apply pe_update_run]. exact Hrun.
  - eapply (hs_struct_storages [] [] [] [] []); [exact Hs1|done..| | | | | | |]; try done; apply Hs1.
  - eapply (hs_acct_ext st1); try done. by eapply hs_acct_store.
Qed.

Lemma deactivateTimer_spec st p : hs_inv st → ∃ s',
  poolHandlespaceNodeDeactivateTimer p st = Some (tt, hs_set_PoolElementTimerStorage s' st) ∧
  hs_inv (hs_set_PoolElementTimerStorage s' st) ∧ st_list s' = l_remove p (st_list (hs_PoolElementTimerStorage st)).
Proof.
  intros [Hs Ha]. destruct (removeIfLinked_spec SlotTimer [] [] [] st (hs_PoolElementTimerStorage st) p)
    as (s' & Hrun & Hinv' & Hl); try done.
  exists s'. split; [exact Hrun|]. split; [split|done].
  - eapply (hs_struct_storages [] [] [] [] []); [exact Hs|done..| | | | | | |]; try done; apply Hs.
  - by eapply (hs_acct_ext st).
Qed.

(** ** Linking and unlinking a pool *)

(** Elements unchanged, handles unchanged. *)
Definition same_handles st st' : Prop :=
  hs_PoolElementNodes st' = hs_PoolElementNodes st ∧
  ∀ pp, pn_Handle <$> hs_PoolNodes st' !! pp = pn_Handle <$> hs_PoolNodes st !! pp.

Lemma owner_handle_same st st' n : same_handles st st' → owner_handle st' n = owner_handle st n.
Proof.
  intros [_ Hh]. unfold owner_handle. destruct (pen_OwnerPoolNode n) as [pp|]; simpl; [|done]. specialize (Hh pp).
  destruct (hs_PoolNodes st' !! pp), (hs_PoolNodes st !! pp); simpl in *; congruence.
Qed.

Lemma slot_inv_same k st st' s : same_handles st st' → element_slot k = true ∨ k = SlotPools →
  slot_inv k st s → slot_inv k st' s.
Proof.
  intros Hsame Hk Hinv. eapply slot_inv_ext; [exact Hinv|]. intros q Hq. pose proof (si_valid _ _ _ Hinv q Hq) as Hval.
  destruct Hsame as [He Hh]. assert (∀ n, owner_handle st' n = owner_handle st n) as Hoh by (intros; by apply owner_handle_same).
  unfold slot_key, slot_value, slot_valid in *. rewrite He.
  destruct k; try (by destruct Hk).
  - specialize (Hh q). destruct Hval as [pn Hpn]. rewrite Hpn in *. apply fmap_Some in Hh as (pn' & Hpn' & Hh').
    rewrite Hpn'. simpl. rewrite Hh'. split; [done|]. split; [done|]. by eexists.
  - destruct Hval as (n & h & Hn & Hhn). rewrite Hn. simpl. rewrite Hoh, Hhn. split; [done|]. split; [done|]. exists n, h. by rewrite Hoh.
  - destruct Hval as (n & h & Hn & Hhn). rewrite Hn. simpl. rewrite Hoh, Hhn. split; [done|]. split; [done|]. exists n, h. by rewrite Hoh.
  - destruct Hval as (n & h & Hn & Hhn). rewrite Hn. simpl. rewrite Hoh, Hhn. split; [done|]. split; [done|]. exists n, h. by rewrite Hoh.
Qed.

Lemma hs_acct_same_handles st st' : hs_acct st → same_handles st st' →
  hs_HandlespaceChecksum st' = hs_HandlespaceChecksum st → hs_OwnershipChecksum st' = hs_OwnershipChecksum st →
  hs_HomeRegistrarIdentifier st' = hs_HomeRegistrarIdentifier st → hs_PoolElements st' = hs_PoolElements st →
  hs_OwnedPoolElements st' = hs_OwnedPoolElements st → hs_acct st'.
Proof.
  intros [] Hsame Hs Hos Hh Hc Hoc. pose proof Hsame as [He _]. split; rewrite ?He, ?Hs, ?Hos, ?Hh, ?Hc, ?Hoc; try done.
  intros p n h Hn Hown. apply (ha_checksum p n h Hn). by rewrite <- (owner_handle_same st st' n Hsame).
Qed.

Lemma pool_inv_flag st pp pn b : pool_inv [] [] st pp pn → 
  pool_inv [] [] (pool_store pp (pn_set_OwnerPoolHandlespaceNode b pn) st) pp (pn_set_OwnerPoolHandlespaceNode b pn).
Proof.
  intros Hinv. set (pn' := pn_set_OwnerPoolHandlespaceNode b pn). set (st' := pool_store pp pn' st).
  pose proof (pi_selection _ _ _ _ _ Hinv) as Hsel%sel_inv_clean. pose proof (pi_lookup _ _ _ _ _ Hinv) as Hpn.
  destruct Hinv. split; try done.
  - simpl. apply lookup_insert_eq.
  - eapply slot_inv_ext; [exact pi_index|]. intros q Hq. repeat split. by apply (si_valid _ _ _ pi_index).
  - apply sel_inv_clean. eapply slot_inv_ext; [exact Hsel|]. intros q Hq.
    destruct (selection_key_pool st st' pp pn pn' q) as (-> & -> & Hval); try done; [simpl; apply lookup_insert_eq|].
    split; [done|]. split; [done|]. apply Hval. by apply Hsel.
Qed.

Lemma hs_struct_pools E E' XO XC st s' pp pn b : hs_struct E XO XC st → pool_inv [] [] st pp pn →
  st_list (pn_PoolElementIndexStorage pn) = [] → slot_inv SlotPools st s' →
  (∀ q, q ≠ pp → q ∈ st_list s' ↔ q ∈ st_list (hs_PoolIndexStorage st)) → (pp ∈ st_list s' ↔ b = true) →
  (b = true → pp ∈ E') → (∀ q, q ∈ E → q ≠ pp → q ∈ E') →
  hs_struct E' XO XC (pool_store pp (pn_set_OwnerPoolHandlespaceNode b pn) (hs_set_PoolIndexStorage s' st)).
Proof.
  intros Hs Hinv Hempty Hpools Hothers Hb HE HE'. set (pn' := pn_set_OwnerPoolHandlespaceNode b pn).
  set (st' := pool_store pp pn' (hs_set_PoolIndexStorage s' st)). pose proof (pi_lookup _ _ _ _ _ Hinv) as Hpn.
  assert (same_handles st st') as Hsame.
  { split; [done|]. intros q. simpl. destruct (decide (q = pp)) as [->|]; [by rewrite lookup_insert_eq, Hpn|by rewrite lookup_insert_ne]. }
  assert (pool_inv [] [] st' pp pn') as Hinv'.
  { eapply pool_inv_ext; [| |by apply (pool_inv_flag st pp pn b)]; done. }
  assert (∀ q pnq, q ≠ pp → pool_inv [] [] st q pnq → pool_inv [] [] st' q pnq) as Hoth.
  { intros q pnq Hne Hq. apply (pool_inv_ext [] [] st st'); [done| |exact Hq]. simpl. by rewrite lookup_insert_ne. }
  assert (∀ p n, hs_PoolElementNodes st !! p = Some n → pen_OwnerPoolNode n ≠ Some pp) as Hnone.
  { intros p n Hn Ho. pose proof (pi_member _ _ _ _ _ Hinv p n Hn Ho) as Hp. rewrite Hempty in Hp. by apply not_elem_of_nil in Hp. }
  destruct Hs. split; try done.
  - eapply slot_inv_same; [done|by right|done].
  - intros q Hq. destruct (decide (q = pp)) as [->|Hne].
    + exists pn'. split; [done|]. split; [by apply Hb|]. left. apply HE. by apply Hb.
    + apply Hothers in Hq; [|done]. destruct (hi_pool q Hq) as (pnq & Hq1 & Hq2 & Hq3). exists pnq.
      split; [by apply Hoth|]. split; [done|]. destruct Hq3; [left; by apply HE'|by right].
  - intros p n q Hn Ho. simpl. apply Hothers; [|by eapply hi_owner]. intros ->. by apply (Hnone p n Hn).
  - intros q pnq Hq Hnin. destruct (decide (q = pp)) as [->|Hne].
    + simpl in Hq. rewrite lookup_insert_eq in Hq. injection Hq as <-. split; [done|exact Hempty].
    + simpl in Hq. rewrite lookup_insert_ne in Hq by done. simpl in Hnin.
      destruct (hi_unlinked q pnq Hq) as [Hq1 Hq2]; [rewrite <- Hothers by done; exact Hnin|]. split; [by apply Hoth|done].
  - eapply slot_inv_same; [done|by left|done].
  - eapply slot_inv_same; [done|by left|done].
  - eapply slot_inv_same; [done|by left|done].
Qed.

Lemma addPoolNode_spec st pp pn : hs_struct [] [] [] st → hs_PoolNodes st !! pp = Some pn →
  pp ∉ st_list (hs_PoolIndexStorage st) →
  (∃ q, pool_of st (pn_Handle pn) q ∧ poolHandlespaceNodeAddPoolNode pp st = Some (q, st)) ∨
  (∃ s', let pn' := pn_set_OwnerPoolHandlespaceNode true pn in
     let st' := pool_store pp pn' (hs_set_PoolIndexStorage s' st) in
     (∀ q, ¬ pool_of st (pn_Handle pn) q) ∧
     poolHandlespaceNodeAddPoolNode pp st = Some (pp, st') ∧ hs_struct [pp] [] [] st' ∧
     st_list s' ≡ₚ pp :: st_list (hs_PoolIndexStorage st) ∧ pool_inv [] [] st' pp pn' ∧
     st_list (pn_PoolElementIndexStorage pn) = []).
Proof.
  intros Hs Hpn Hnin. pose proof (hi_pools _ _ _ _ Hs) as Hpools.
  destruct (hi_unlinked _ _ _ _ Hs pp pn Hpn Hnin) as [Hinv Hempty].
  assert (slot_valid SlotPools st pp) as Hval by (simpl; eauto).
  destruct (decide (Exists (λ q, slot_key SlotPools st q = slot_key SlotPools st pp) (st_list (hs_PoolIndexStorage st)))) as [Hex|Hex].
  - left. apply Exists_exists in Hex as (q & Hq & Hkey). exists q. split.
    + split; [done|]. destruct (si_valid _ _ _ Hpools q Hq) as [pnq Hpnq]. exists pnq. split; [done|].
      unfold slot_key in Hkey. rewrite Hpn, Hpnq in Hkey. by apply handleKey_inj.
    + unfold poolHandlespaceNodeAddPoolNode. erewrite run_bind; [|by eapply (storageInsert_dup SlotPools st _ pp q)].
      rewrite bool_decide_false; [done|]. intros ->. done.
  - right. assert (∀ q, q ∈ st_list (hs_PoolIndexStorage st) → slot_key SlotPools st q ≠ slot_key SlotPools st pp) as Hnew.
    { intros q Hq Hk. apply Hex, Exists_exists. eauto. }
    destruct (storageInsert_new SlotPools st (hs_PoolIndexStorage st) pp) as (s' & Hrun & Hinv' & Hl); try done.
    assert (st_list s' ≡ₚ pp :: st_list (hs_PoolIndexStorage st)) as Hperm by (rewrite Hl; apply l_insert_Permutation).
    exists s'. simpl. split; [|split; [|split; [|split; [done|split; [|done]]]]].
    + intros q (Hq & pnq & Hpnq & Hh). apply (Hnew q Hq). unfold slot_key. rewrite Hpn, Hpnq. simpl. by rewrite Hh.
    + unfold poolHandlespaceNodeAddPoolNode. rewrite (run_bind _ _ _ _ _ Hrun), bool_decide_true by done.
      erewrite run_bind; [|apply pool_update_run; exact Hpn]. done.
    + apply (hs_struct_pools []); try done.
      * intros q Hq. rewrite Hperm. set_solver.
      * rewrite Hperm. set_solver.
      * intros _. left.
      * intros q Hq. by apply not_elem_of_nil in Hq.
    + eapply pool_inv_ext; [| |by apply (pool_inv_flag st pp pn true)]; done.
Qed.

Lemma removePoolNode_spec E E' XO XC st pp pn : hs_struct E XO XC st → pp ∈ st_list (hs_PoolIndexStorage st) →
  pool_inv [] [] st pp pn → st_list (pn_PoolElementIndexStorage pn) = [] → (∀ q, q ∈ E → q ≠ pp → q ∈ E') → ∃ s',
  let st' := pool_store pp (pn_set_OwnerPoolHandlespaceNode false pn) (hs_set_PoolIndexStorage s' st) in
  poolHandlespaceNodeRemovePoolNode pp st = Some (pp, st') ∧ hs_struct E' XO XC st' ∧
  st_list s' = l_remove pp (st_list (hs_PoolIndexStorage st)).
Proof.
  intros Hs Hpp Hinv Hempty HE. pose proof (hi_pools _ _ _ _ Hs) as Hpools. pose proof (pi_lookup _ _ _ _ _ Hinv) as Hpn.
  destruct (storageRemove_spec SlotPools st st (hs_PoolIndexStorage st) pp) as (s' & Hrun & Hinv' & Hl); try done.
  { intros q Hq _. repeat split. by apply Hpools. }
  exists s'. simpl. split; [|split; [|done]].
  - unfold poolHandlespaceNodeRemovePoolNode. rewrite (run_bind _ _ _ _ _ Hrun).
    erewrite run_bind; [|apply run_check; by rewrite bool_decide_true].
    erewrite run_bind; [|apply pool_update_run; exact Hpn]. done.
  - apply (hs_struct_pools E); try done.
    + intros q Hq. rewrite Hl, l_remove_elem. naive_solver.
    + rewrite Hl, l_remove_elem. naive_solver.
Qed.

(** ** Accounting for one element *)

(** What a registration consists of, and where it is linked. *)
Definition pe_view_same (n n' : PoolElementNode) : Prop :=
  pen_Identifier n' = pen_Identifier n ∧ pen_Checksum n' = pen_Checksum n ∧
  pen_HomeRegistrarIdentifier n' = pen_HomeRegistrarIdentifier n ∧ pen_OwnerPoolNode n' = pen_OwnerPoolNode n ∧
  pen_ConnectionSocketDescriptor n' = pen_ConnectionSocketDescriptor n ∧
  pen_ConnectionAssocID n' = pen_ConnectionAssocID n ∧ pen_UserTransport n' = pen_UserTransport n ∧
  pen_RegistratorTransport n' = pen_RegistratorTransport n ∧ pen_TimerCode n' = pen_TimerCode n.

(** No element but [p] has changed in one of these members. *)
Definition others_same p st st' : Prop :=
  (∀ q, q ≠ p → match hs_PoolElementNodes st !! q, hs_PoolElementNodes st' !! q with
     | Some n, Some n' => pe_view_same n n'
     | None, None => True
     | _, _ => False
     end) ∧
  ∀ pp, pn_Handle <$> hs_PoolNodes st' !! pp = pn_Handle <$> hs_PoolNodes st !! pp.

Lemma others_same_refl p st : others_same p st st.
Proof. split; [|done]. intros q _. by destruct (hs_PoolElementNodes st !! q). Qed.

Lemma others_same_trans p st1 st2 st3 : others_same p st1 st2 → others_same p st2 st3 → others_same p st1 st3.
Proof.
  intros [He1 Hp1] [He2 Hp2]. split.
  - intros q Hq. specialize (He1 q Hq). specialize (He2 q Hq).
    destruct (hs_PoolElementNodes st1 !! q), (hs_PoolElementNodes st2 !! q), (hs_PoolElementNodes st3 !! q); try done.
    unfold pe_view_same in *. intuition congruence.
  - intros pp. by rewrite Hp2.
Qed.

Lemma others_same_frame p pp st st' : is_Some (hs_PoolNodes st !! pp) → pool_frame [p] pp st st' → others_same p st st'.
Proof.
  intros [pn Hpn] Hf. split.
  - intros q Hq. destruct (hs_PoolElementNodes st !! q) as [n|] eqn:Hn.
    + destruct (pf_elements _ _ _ _ Hf q n) as (n' & -> & (? & ? & ? & _ & ? & ? & ? & ? & ?) & ? & _); [set_solver|done|]. done.
    + by rewrite (pf_dom _ _ _ _ Hf q Hn).
  - intros pp'. destruct (decide (pp' = pp)) as [->|Hne].
    + destruct (pf_pool _ _ _ _ Hf _ Hpn) as (pn'' & -> & Hh & _). rewrite Hpn. simpl. by rewrite Hh.
    + by rewrite (pf_pools _ _ _ _ Hf).
Qed.

Lemma others_same_store p st n' : is_Some (hs_PoolElementNodes st !! p) → others_same p st (pe_store p n' st).
Proof.
  intros _. split; [|done]. intros q Hq. simpl. rewrite lookup_insert_ne by done. by destruct (hs_PoolElementNodes st !! q).
Qed.

Lemma others_same_heap p st st' : hs_PoolElementNodes st' = hs_PoolElementNodes st → hs_PoolNodes st' = hs_PoolNodes st →
  others_same p st st'.
Proof. intros He Hp. split; [|by rewrite Hp]. intros q _. rewrite He. by destruct (hs_PoolElementNodes st !! q). Qed.

Lemma msum_others (f : PoolElementNode → Z) p st st' n n' : others_same p st st' →
  (∀ a b, pen_Checksum b = pen_Checksum a → pen_HomeRegistrarIdentifier b = pen_HomeRegistrarIdentifier a →
     pen_OwnerPoolNode b = pen_OwnerPoolNode a → f b = f a) →
  hs_PoolElementNodes st !! p = Some n → hs_PoolElementNodes st' !! p = Some n' →
  msum f (hs_PoolElementNodes st') = msum f (hs_PoolElementNodes st) - f n + f n'.
Proof.
  intros [He _] Hf Hn Hn'. rewrite <- (msum_update f _ p n n' Hn). apply msum_ext. intros q.
  destruct (decide (q = p)) as [->|Hne]; [by rewrite lookup_insert_eq, Hn'|]. rewrite lookup_insert_ne by done.
  specialize (He q Hne). destruct (hs_PoolElementNodes st !! q) as [a|], (hs_PoolElementNodes st' !! q) as [b|]; try done.
  destruct He as (_ & ? & ? & ? & _). simpl. by rewrite (Hf a b).
Qed.

(** The accounting after a change of one element. *)
Lemma hs_acct_change p st st' n n' : hs_acct st → others_same p st st' →
  (∀ q m pp, hs_PoolElementNodes st !! q = Some m → pen_OwnerPoolNode m = Some pp → is_Some (hs_PoolNodes st !! pp)) →
  hs_PoolElementNodes st !! p = Some n → hs_PoolElementNodes st' !! p = Some n' →
  hs_HomeRegistrarIdentifier st' = hs_HomeRegistrarIdentifier st →
  (∀ h, owner_handle st' n' = Some h → pen_Checksum n' = poolElementNodeComputeChecksum h n') →
  hs_HandlespaceChecksum st' = u32 (hs_HandlespaceChecksum st - member_checksum n + member_checksum n') →
  hs_OwnershipChecksum st' = u32 (hs_OwnershipChecksum st - owned_checksum (hs_HomeRegistrarIdentifier st) n
    + owned_checksum (hs_HomeRegistrarIdentifier st) n') →
  hs_PoolElements st' = hs_PoolElements st - member_count n + member_count n' →
  hs_OwnedPoolElements st' = hs_OwnedPoolElements st - owned_count (hs_HomeRegistrarIdentifier st) n
    + owned_count (hs_HomeRegistrarIdentifier st) n' →
  hs_PoolElements st' < 2 ^ 31 → hs_acct st'.
Proof.
  intros [] Hos Hpools Hn Hn' Hhome Hc Hs Hso Hcnt Hocnt Hb.
  assert (∀ a b : PoolElementNode, pen_OwnerPoolNode b = pen_OwnerPoolNode a → is_member b = is_member a) as Hmem
    by (intros a b Ho; unfold is_member; by rewrite Ho).
  assert (∀ home (a b : PoolElementNode), pen_HomeRegistrarIdentifier b = pen_HomeRegistrarIdentifier a →
    pen_OwnerPoolNode b = pen_OwnerPoolNode a → is_owned home b = is_owned home a) as Hown
    by (intros home a b Hh Ho; unfold is_owned; by rewrite (Hmem a b Ho), Hh).
  split; rewrite ?Hhome.
  - intros q m h Hm Hoh. destruct (decide (q = p)) as [->|Hne]; [simplify_eq; by apply Hc|].
    destruct Hos as [He Hp]. specialize (He q Hne). rewrite Hm in He. destruct (hs_PoolElementNodes st !! q) as [m0|] eqn:Hm0; [|done].
    destruct He as (Hi & Hck & _ & Ho & _). rewrite Hck. rewrite (ha_checksum q m0 h Hm0).
    + unfold poolElementNodeComputeChecksum. by rewrite Hi.
    + unfold owner_handle in *. rewrite Ho in Hoh. destruct (pen_OwnerPoolNode m0) as [pp|] eqn:Hpp; [|done]. simpl in *.
      destruct (Hpools q m0 pp Hm0 Hpp) as [pn Hpn]. specialize (Hp pp).
      rewrite Hpn in *. simpl in *. apply fmap_Some in Hp as (pn' & Hpn' & Hh'). rewrite Hpn' in Hoh. simpl in Hoh. congruence.
  - rewrite Hs, (msum_others _ p st st' n n'), ha_sum, wrap_sub_add; try done.
    intros a b H1 H2 H3. unfold member_checksum. by rewrite (Hmem a b), H1.
  - rewrite Hso, (msum_others _ p st st' n n'), ha_owned_sum, wrap_sub_add; try done.
    intros a b H1 H2 H3. unfold owned_checksum. by rewrite (Hown _ a b), H1.
  - rewrite Hcnt, (msum_others _ p st st' n n'), ha_count; try done. intros a b _ _ Ho. unfold member_count. by rewrite (Hmem a b).
  - rewrite Hocnt, (msum_others _ p st st' n n'), ha_owned_count; try done. intros a b _ Hh Ho. unfold owned_count. by rewrite (Hown _ a b).
  - done.
Qed.
End ops.
