(* ===== verification/HandlespaceEffects.v ===== *)
(** * Adding, updating and removing elements of the handlespace

    The composite operations of poolhandlespacenode-template_impl.h that
    change elements, and that they keep [hs_inv]. *)

From S2P Require Import Prelude Checksum Addresses PoolBasics Storage PoolElement PoolPolicy HandlespaceState PoolNode PoolEffects PoolSelection HandlespaceNode HandlespaceInv HandlespaceOps.
From stdpp Require Import base list gmap numbers option sorting sets.
#[local] Open Scope Z_scope.

Section effects.
Context {ST : Type} `{SL : StorageLaws ST} `{En : Endian}.
Abbreviation HS := (Handlespace ST).
Implicit Types (st : HS) (pn : PoolNode ST) (p q pp : ptr) (E X XO XC : list ptr).

Lemma not_linked k E XO XC st s p n : element_slot k = true → hs_struct E XO XC st → slot_get k st = Some s →
  hs_PoolElementNodes st !! p = Some n → pen_OwnerPoolNode n = None → p ∉ st_list s.
Proof.
  intros Hk Hs Hg Hn Ho Hp. destruct (hs_struct_slot k _ _ _ _ Hk Hs) as (s0 & Hg0 & Hinv). simplify_eq.
  pose proof (si_valid _ _ _ Hinv p Hp) as Hval.
  assert (∃ m h, hs_PoolElementNodes st !! p = Some m ∧ owner_handle st m = Some h) as (m & h & Hm & Hh) by by destruct k.
  simplify_eq. unfold owner_handle in Hh. by rewrite Ho in Hh.
Qed.

Lemma hs_struct_settle E XO XC st : hs_struct E XO XC st →
  (∀ p n, p ∈ XO → hs_PoolElementNodes st !! p = Some n → pen_OwnerPoolNode n ≠ None →
     pen_HomeRegistrarIdentifier n ≠ 0 → p ∈ st_list (hs_PoolElementOwnershipStorage st)) →
  (∀ p n, p ∈ XC → hs_PoolElementNodes st !! p = Some n → pen_OwnerPoolNode n ≠ None →
     0 < pen_ConnectionSocketDescriptor n → p ∈ st_list (hs_PoolElementConnectionStorage st)) →
  hs_struct E [] [] st.
Proof.
  intros [] HO HC. split; try done.
  - intros p n Hn Ho Hh _. destruct (decide (p ∈ XO)); [by eapply HO|by eapply hi_owned_in].
  - intros p n Hn Ho Hh _. destruct (decide (p ∈ XC)); [by eapply HC|by eapply hi_connected].
Qed.

Lemma hs_struct_relax E XO XC XO' XC' st : hs_struct E XO XC st → XO ⊆ XO' → XC ⊆ XC' → hs_struct E XO' XC' st.
Proof.
  intros [] HO HC. split; try done.
  - intros p n Hn Ho Hh Hx. eapply hi_owned_in; [done..|set_solver].
  - intros p n Hn Ho Hh Hx. eapply hi_connected; [done..|set_solver].
Qed.

Lemma insert_if k (b : bool) E XO XC st s p : element_slot k = true → hs_struct E XO XC st → slot_get k st = Some s →
  slot_valid k st p → p ∉ st_list s → ∃ s',
  (if b then insertChecked k p else mret tt) st = Some (tt, slot_set k s' st) ∧ slot_inv k st s' ∧
  (∀ q, q ∈ st_list s → q ∈ st_list s') ∧ (b = true → p ∈ st_list s').
Proof.
  intros Hk Hs Hg Hval Hp. destruct b.
  - destruct (insertChecked_spec k E XO XC st s p) as (s' & Hrun & Hinv & Hperm); try done.
    exists s'. split; [done|]. split; [done|]. split; [intros q Hq; rewrite Hperm; by right|intros _; rewrite Hperm; left].
  - exists s. rewrite (slot_set_same k st s) by done. split; [done|].
    destruct (hs_struct_slot k _ _ _ _ Hk Hs) as (s0 & Hg0 & Hinv). simplify_eq. done.
Qed.

Lemma hs_struct_pools_valid E XO XC st : hs_struct E XO XC st → ∀ q m pp,
  hs_PoolElementNodes st !! q = Some m → pen_OwnerPoolNode m = Some pp → is_Some (hs_PoolNodes st !! pp).
Proof.
  intros Hs q m pp Hm Ho. pose proof (hi_owner _ _ _ _ Hs q m pp Hm Ho) as Hpp.
  destruct (hi_pool _ _ _ _ Hs pp Hpp) as (pn & Hinv & _). rewrite (pi_lookup _ _ _ _ _ Hinv). eauto.
Qed.

(** ** Adding a new element to a linked pool *)

Lemma addPoolElementNode_new E st pp pn p n : hs_struct E [] [] st → E ⊆ [pp] → pp ∈ st_list (hs_PoolIndexStorage st) →
  pool_inv [] [] st pp pn → hs_PoolElementNodes st !! p = Some n → pen_OwnerPoolNode n = None →
  poolNodeCheckPoolElementNodeCompatibility pn n = RSPERR_OKAY →
  (∀ q m, hs_PoolElementNodes st !! q = Some m → pen_OwnerPoolNode m = Some pp → pen_Identifier m ≠ pen_Identifier n) →
  ∃ st1 sO sC n',
  let st2 := hs_set_PoolElementConnectionStorage sC (hs_set_PoolElementOwnershipStorage sO
               (hs_set_PoolElements (u64 (hs_PoolElements st1 + 1)) st1)) in
  poolHandlespaceNodeAddPoolElementNode pp p st = Some ((Some p, RSPERR_OKAY), st2) ∧
  hs_struct [] [] [] st2 ∧ pool_frame [p] pp st st1 ∧ hs_PoolElementNodes st1 !! p = Some n' ∧ pe_added pp n n' ∧
  owner_handle st1 n' = Some (pn_Handle pn).
Proof.
  intros Hs HE Hpp Hinv Hn Ho Hc Hnew. pose proof (hi_wf _ _ _ _ Hs p n Hn) as Hwf.
  destruct (poolNodeAdd_new st pp pn p n) as (st1 & pn1 & n' & Hrun1 & Hinv1 & Hf1 & Hsame1 & Hperm1 & Hn1 & Hadd); try done.
  destruct Hadd as (Hst & Ho' & Hps & Hfl).
  assert (p ∈ st_list (pn_PoolElementIndexStorage pn1)) as Hpi by (rewrite Hperm1; left).
  assert (hs_struct [] [p] [p] st1) as Hs1.
  { apply (hs_struct_frame E [] [] [] [p] [p] [p] pp st st1 pn pn1); [done..| | | | | | |].
    - right. intros Hnil. rewrite Hnil in Hpi. by apply not_elem_of_nil in Hpi.
    - set_solver.
    - set_solver.
    - set_solver.
    - intros q m pp' Hq%list_elem_of_singleton [Hm|Hm] Hom; subst q; [congruence|]. simplify_eq. congruence.
    - intros q Hq%list_elem_of_singleton. subst q.
      split; [by eapply (not_linked SlotTimer _ _ _ st)|]. split; [by eapply (not_linked SlotOwnership _ _ _ st)|by eapply (not_linked SlotConnection _ _ _ st)].
    - intros q m Hq%list_elem_of_singleton Hm. subst q. split; [|intros _; split; left].
      destruct (pi_element _ _ _ _ _ Hinv1 p Hpi) as (m' & ? & ? & _). by simplify_eq. }
  assert (owner_handle st1 n' = Some (pn_Handle pn)) as Hh1.
  { unfold owner_handle. rewrite Ho'. simpl. rewrite (pi_lookup _ _ _ _ _ Hinv1). simpl. by destruct Hsame1 as (-> & _). }
  destruct (pool_frame_rest _ _ _ _ Hf1) as (Ri & Rt & Ro & Rc & _).
  set (st1' := hs_set_PoolElements (u64 (hs_PoolElements st1 + 1)) st1).
  assert (hs_struct [] [p] [p] st1') as Hs1' by (by eapply (hs_struct_counters _ _ _ st1)).
  assert (∀ k, element_slot k = true → slot_valid k st1' p) as Hval.
  { intros k Hk. destruct k; try done; by exists n', (pn_Handle pn). }
  set (b1 := negb (pen_HomeRegistrarIdentifier n' =? 0)). set (b2 := 0 <? pen_ConnectionSocketDescriptor n').
  destruct (insert_if SlotOwnership b1 [] [p] [p] st1' (hs_PoolElementOwnershipStorage st1) p) as (sO & Hrun2 & HinvO & HO1 & HO2);
    [done|done|done|by apply Hval|rewrite Ro; by eapply (not_linked SlotOwnership _ _ _ st)|].
  set (st1o := hs_set_PoolElementOwnershipStorage sO st1').
  assert (hs_struct [] [p] [p] st1o) as Hs2.
  { eapply (hs_struct_storages [] [p] [p] [p] [p] st1'); [exact Hs1'|done..| | | | | | |]; try done; try apply Hs1'.
    intros q Hq Hx. by apply HO1. }
  destruct (insert_if SlotConnection b2 [] [p] [p] st1o (hs_PoolElementConnectionStorage st1) p) as (sC & Hrun3 & HinvC & HC1 & HC2);
    [done|done|done| |rewrite Rc; by eapply (not_linked SlotConnection _ _ _ st)|].
  { by exists n', (pn_Handle pn). }
  set (st2 := hs_set_PoolElementConnectionStorage sC st1o).
  assert (hs_struct [] [p] [p] st2) as Hs3.
  { eapply (hs_struct_storages [] [p] [p] [p] [p] st1o); [exact Hs2|done..| | | | | | |]; try done; try apply Hs2.
    intros q Hq Hx. by apply HC1. }
  exists st1, sO, sC, n'. simpl. split; [|split; [|done]].
  - unfold poolHandlespaceNodeAddPoolElementNode. rewrite (run_bind _ _ _ _ _ Hrun1). cbv beta iota.
    rewrite bool_decide_true by done. erewrite run_bind; [|by apply run_check]. erewrite run_bind; [|done]. fold st1'.
    erewrite run_bind; [|by apply pe_get_run]. fold b1. rewrite (run_bind _ _ _ _ _ Hrun2).
    erewrite run_bind; [|apply pe_get_run; exact Hn1]. fold b2. by rewrite (run_bind _ _ _ _ _ Hrun3).
  - eapply hs_struct_settle; [exact Hs3| |].
    + intros q m Hq%list_elem_of_singleton Hm _ Hh. subst q. simpl in *. simplify_eq. apply HO2. unfold b1.
      by destruct (Z.eqb_spec (pen_HomeRegistrarIdentifier n') 0).
    + intros q m Hq%list_elem_of_singleton Hm _ Hh. subst q. simpl in *. simplify_eq. apply HC2. by apply Z.ltb_lt.
Qed.

(** ** Changing the connection of an element *)

Lemma updateConnection_spec st p n sd assoc : hs_struct [] [] [] st → hs_PoolElementNodes st !! p = Some n →
  pen_OwnerPoolNode n ≠ None → ∃ st' n',
  poolHandlespaceNodeUpdateConnectionOfPoolElementNode p sd assoc st = Some (tt, st') ∧ hs_struct [] [] [] st' ∧
  hs_PoolElementNodes st' !! p = Some n' ∧
  n' = set_ConnectionAssocID assoc (set_ConnectionSocketDescriptor sd n) ∧
  ∃ sC, st' = hs_set_PoolElementConnectionStorage sC (pe_store p n' st).
Proof.
  intros Hs Hn Ho. unfold poolHandlespaceNodeUpdateConnectionOfPoolElementNode.
  rewrite (run_bind _ _ _ _ _ (pe_get_run _ _ _ Hn)). set (n' := set_ConnectionAssocID assoc (set_ConnectionSocketDescriptor sd n)).
  destruct (_ || _) eqn:Hor.
  - destruct (removeIfLinked_spec SlotConnection [] [] [] st (hs_PoolElementConnectionStorage st) p)
      as (s1 & Hrun1 & Hinv1 & Hl1); try done.
    set (st1 := hs_set_PoolElementConnectionStorage s1 st).
    assert (hs_struct [] [] [p] st1) as Hs1.
    { eapply (hs_struct_storages [] [] [] [] [p] st); [exact Hs|done..| | | | | | |]; try done; try apply Hs; [|set_solver].
      intros q Hq Hx. simpl. rewrite Hl1. apply l_remove_elem. split; [|done]. intros ->. apply Hx. left. }
    set (st2 := pe_store p n' st1).
    assert (hs_struct [] [] [p] st2) as Hs2.
    { apply (hs_struct_store [] [] [p] st1 p n n'); try done.
      - exact (hi_wf _ _ _ _ Hs p n Hn).
      - simpl. rewrite Hl1, l_remove_elem. tauto.
      - by left.
      - right. left. left. }
    destruct (hs_struct_owner _ _ _ _ _ _ Hs Hn Ho) as (pp & pn & Hpp & _ & _ & Hh & _).
    destruct (insert_if SlotConnection (0 <? sd) [] [] [p] st2 s1 p) as (s3 & Hrun3 & Hinv3 & Hin3 & Hp3); try done.
    { exists n', (pn_Handle pn). split; [simpl; apply lookup_insert_eq|done]. }
    { rewrite Hl1, l_remove_elem. tauto. }
    set (st3 := hs_set_PoolElementConnectionStorage s3 st2).
    exists st3, n'. split; [|split; [|split; [simpl; apply lookup_insert_eq|split; [done|exists s3; by destruct st]]]].
    + rewrite (run_bind _ _ _ _ _ Hrun1). erewrite run_bind; [|by apply pe_update_run]. exact Hrun3.
    + eapply (hs_struct_settle [] [] [p]); [|set_solver|].
      * eapply (hs_struct_storages [] [] [p] [] [p] st2); [exact Hs2|done..| | | | | | |]; try done; try apply Hs2.
        intros q Hq Hx. simpl in *. by apply Hin3.
      * intros q m Hq%list_elem_of_singleton Hm _ Hsd. subst q. simpl in Hm. rewrite lookup_insert_eq in Hm. injection Hm as <-.
        apply Hp3. simpl in Hsd. by apply Z.ltb_lt.
  - apply orb_false_iff in Hor as [H1%negb_false_iff%Z.eqb_eq H2%negb_false_iff%Z.eqb_eq].
    assert (n' = n) as Heq by (unfold n'; rewrite H1, H2; by destruct n).
    exists st, n. split; [done|]. split; [done|]. split; [done|]. split; [done|].
    exists (hs_PoolElementConnectionStorage st). rewrite pe_store_same by done. by destruct st.
Qed.
(** ** Changing the owner of an element *)

(** All but the elements, counters, checksums and notifications. *)
Definition same_frame st st' : Prop :=
  hs_PoolNodes st' = hs_PoolNodes st ∧ hs_PoolIndexStorage st' = hs_PoolIndexStorage st ∧
  hs_PoolElementTimerStorage st' = hs_PoolElementTimerStorage st ∧
  hs_PoolElementOwnershipStorage st' = hs_PoolElementOwnershipStorage st ∧
  hs_PoolElementConnectionStorage st' = hs_PoolElementConnectionStorage st ∧
  hs_HomeRegistrarIdentifier st' = hs_HomeRegistrarIdentifier st ∧
  hs_PoolNodeUpdateNotification st' = hs_PoolNodeUpdateNotification st.

(** The sequence of notifications after one more. *)
Definition notified st p a preC preH (n : PoolElementNode) : list Notification :=
  if hs_PoolNodeUpdateNotification st
  then hs_Notifications st ++ [MkNotification p a preC preH (pen_Checksum n) (pen_HomeRegistrarIdentifier n)]
  else hs_Notifications st.

Definition when (b : bool) (z : Z) : Z := if b then z else 0.

Lemma computeChecksumOf_run st p n h : hs_PoolElementNodes st !! p = Some n → owner_handle st n = Some h →
  computeChecksumOf p st = Some (poolElementNodeComputeChecksum h n, st).
Proof.
  intros Hn Hh. unfold computeChecksumOf. rewrite (run_bind _ _ _ _ _ (pe_get_run _ _ _ Hn)).
  unfold mbind, M_bind, deref. by rewrite Hh.
Qed.

Lemma refreshChecksum_run st p n h : hs_PoolElementNodes st !! p = Some n → owner_handle st n = Some h →
  let c := poolElementNodeComputeChecksum h n in
  refreshChecksum p st = Some (c, pe_store p (set_Checksum c n) st).
Proof.
  intros Hn Hh c. unfold refreshChecksum. rewrite (run_bind _ _ _ _ _ (computeChecksumOf_run _ _ _ _ Hn Hh)).
  by rewrite (run_bind _ _ _ _ _ (pe_update_run _ _ _ _ Hn)).
Qed.

Lemma notify_run st p n a preC preH : hs_PoolElementNodes st !! p = Some n →
  notify p a preC preH st = Some (tt, hs_set_Notifications (notified st p a preC preH n) st).
Proof.
  intros Hn. unfold notify. rewrite (run_bind _ _ _ _ _ (pe_get_run _ _ _ Hn)). unfold modify, notified.
  destruct (hs_PoolNodeUpdateNotification st) eqn:Hf; [done|]. by destruct st.
Qed.

Lemma subtractOwned_run st home c : (home = hs_HomeRegistrarIdentifier st → 0 < hs_OwnedPoolElements st) →
  is_u32 (hs_OwnershipChecksum st) →
  let b := home =? hs_HomeRegistrarIdentifier st in
  subtractOwned home c st = Some (tt, hs_set_OwnershipChecksum (u32 (hs_OwnershipChecksum st - when b c))
    (hs_set_OwnedPoolElements (hs_OwnedPoolElements st - when b 1) st)).
Proof.
  intros Hpos Hu b. unfold b, subtractOwned, mbind, M_bind, get. destruct (Z.eqb_spec home (hs_HomeRegistrarIdentifier st)) as [Heq|Hne]; unfold when.
  - unfold CHECK. by rewrite (proj2 (Z.ltb_lt _ _) (Hpos Heq)).
  - rewrite !Z.sub_0_r, wrap_small by done. by destruct st.
Qed.

Lemma addOwned_run st home c : is_u32 (hs_OwnershipChecksum st) → 0 <= hs_OwnedPoolElements st < 2 ^ 63 →
  let b := home =? hs_HomeRegistrarIdentifier st in
  addOwned home c st = Some (tt, hs_set_OwnershipChecksum (u32 (hs_OwnershipChecksum st + when b c))
    (hs_set_OwnedPoolElements (hs_OwnedPoolElements st + when b 1) st)).
Proof.
  intros Hu Hb b. unfold b, addOwned, modify. destruct (home =? _); unfold when.
  - rewrite wrap_small; [done|]. unfold in_width. lia.
  - rewrite !Z.add_0_r, wrap_small by done. by destruct st.
Qed.

Lemma recount_spec st p n h preC preH : hs_PoolElementNodes st !! p = Some n → owner_handle st n = Some h →
  (preH = hs_HomeRegistrarIdentifier st → 0 < hs_OwnedPoolElements st) → is_u32 (hs_OwnershipChecksum st) →
  0 <= hs_OwnedPoolElements st < 2 ^ 62 →
  let c := poolElementNodeComputeChecksum h n in
  let n' := set_Checksum c n in
  let home := hs_HomeRegistrarIdentifier st in
  ∃ st',
  (subtractHandlespaceChecksum preC;; subtractOwned preH preC;;
   c ← refreshChecksum p; addHandlespaceChecksum c;;
   n ← pe_get p; addOwned (pen_HomeRegistrarIdentifier n) c;; notify p PNUA_Update preC preH) st = Some (tt, st') ∧
  same_frame st st' ∧ hs_PoolElementNodes st' = <[p := n']> (hs_PoolElementNodes st) ∧
  hs_HandlespaceChecksum st' = u32 (hs_HandlespaceChecksum st - preC + c) ∧
  hs_OwnershipChecksum st' = u32 (hs_OwnershipChecksum st - when (preH =? home) preC
    + when (pen_HomeRegistrarIdentifier n =? home) c) ∧
  hs_PoolElements st' = hs_PoolElements st ∧
  hs_OwnedPoolElements st' = hs_OwnedPoolElements st - when (preH =? home) 1 + when (pen_HomeRegistrarIdentifier n =? home) 1 ∧
  hs_Notifications st' = notified st p PNUA_Update preC preH n'.
Proof.
  intros Hn Hh Hpos Hu Hb c n' home. assert (∀ b, 0 <= when b 1 <= 1) as Hw by (intros []; simpl; lia).
  erewrite run_bind; [|done]. cbv beta.
  erewrite run_bind; [|apply subtractOwned_run; done]. cbv beta.
  erewrite run_bind; [|apply refreshChecksum_run; [exact Hn|exact Hh]]. cbv beta.
  erewrite run_bind; [|done]. cbv beta.
  erewrite run_bind; [|apply pe_get_run; simpl; apply lookup_insert_eq]. cbv beta.
  erewrite run_bind; [|apply addOwned_run; simpl; [apply wrap_in_width; lia|]].
  2:{ pose proof (Hw (preH =? home)). fold home. destruct (Z.eqb_spec preH home); simpl in *; [specialize (Hpos e)|]; lia. }
  eexists. split; [apply notify_run; simpl; apply lookup_insert_eq|].
  split; [done|]. split; [done|]. split; [|split; [|done]].
  - apply wrap_add_l.
  - apply wrap_add_l.
Qed.
(** The element after its move to the registrar [home]. *)
Definition moved_node home (n : PoolElementNode) : PoolElementNode :=
  if home =? pen_HomeRegistrarIdentifier n then set_Flags (flag_clear (pen_Flags n) PENF_UPDATED) n
  else set_HomeRegistrarIdentifier home (set_Flags (flag_set (pen_Flags n) PENF_UPDATED) n).

Lemma moved_node_facts home n : is_u32 home → pen_wf n → pen_wf (moved_node home n) ∧ pe_core_same n (moved_node home n) ∧
  pen_HomeRegistrarIdentifier (moved_node home n) = home ∧ pen_TimerTimeStamp (moved_node home n) = pen_TimerTimeStamp n ∧
  pen_ConnectionSocketDescriptor (moved_node home n) = pen_ConnectionSocketDescriptor n ∧
  pen_ConnectionAssocID (moved_node home n) = pen_ConnectionAssocID n.
Proof. intros Hu Hwf. unfold moved_node. destruct (Z.eqb_spec home (pen_HomeRegistrarIdentifier n)) as [->|]; (split; [unfold pen_wf in *; simpl; tauto|]); (split; [by repeat split|]); done. Qed.

Lemma moveOwnership_spec st p n home : hs_struct [] [] [] st → hs_PoolElementNodes st !! p = Some n →
  pen_OwnerPoolNode n ≠ None → is_u32 home → ∃ sO,
  let st' := hs_set_PoolElementOwnershipStorage sO (pe_store p (moved_node home n) st) in
  (if negb (home =? pen_HomeRegistrarIdentifier n) then
     removeIfLinked SlotOwnership p;;
     pe_update p (λ n, set_HomeRegistrarIdentifier home (set_Flags (flag_set (pen_Flags n) PENF_UPDATED) n));;
     insertChecked SlotOwnership p
   else pe_update p (λ n, set_Flags (flag_clear (pen_Flags n) PENF_UPDATED) n)) st = Some (tt, st') ∧
  hs_struct [] [] [] st'.
Proof.
  intros Hs Hn Ho Hu. set (n' := moved_node home n).
  destruct (moved_node_facts home n Hu (hi_wf _ _ _ _ Hs p n Hn)) as (Hwf' & Hcore & Hhome & Ht & Hsd & Ha). fold n' in Hwf', Hcore, Hhome, Ht, Hsd, Ha.
  assert (n' = if home =? pen_HomeRegistrarIdentifier n then set_Flags (flag_clear (pen_Flags n) PENF_UPDATED) n
    else set_HomeRegistrarIdentifier home (set_Flags (flag_set (pen_Flags n) PENF_UPDATED) n)) as Hdef by done. clearbody n'.
  destruct (home =? pen_HomeRegistrarIdentifier n) eqn:Heq; [apply Z.eqb_eq in Heq|]; simpl (negb _); cbv iota.
  - exists (hs_PoolElementOwnershipStorage st). simpl. split; [rewrite (pe_update_run _ _ _ _ Hn), <- Hdef; by destruct st|].
    assert (hs_struct [] [] [] (pe_store p n' st)) as Hs' by (apply (hs_struct_store [] [] [] st p n n'); try done; try (intros _); try left; congruence).
    by destruct st.
  - destruct (removeIfLinked_spec SlotOwnership [] [] [] st (hs_PoolElementOwnershipStorage st) p)
      as (s1 & Hrun1 & Hinv1 & Hl1); try done.
    set (st1 := hs_set_PoolElementOwnershipStorage s1 st).
    assert (p ∉ st_list s1) as Hout by (rewrite Hl1, l_remove_elem; tauto).
    assert (hs_struct [] [p] [] st1) as Hs1.
    { eapply (hs_struct_storages [] [] [] [p] [] st); [exact Hs|done..| | | | | | |]; try done; try apply Hs; [|set_solver].
      intros q Hq Hx. simpl. rewrite Hl1. apply l_remove_elem. split; [|done]. intros ->. apply Hx. left. }
    set (st2 := pe_store p n' st1).
    assert (hs_struct [] [p] [] st2) as Hs2.
    { apply (hs_struct_store [] [p] [] st1 p n n'); try done; [right; left|by left]. }
    destruct (hs_struct_owner _ _ _ _ _ _ Hs Hn Ho) as (pp & pn & Hpp & _ & _ & Hh & _).
    destruct (insertChecked_spec SlotOwnership [] [p] [] st2 s1 p) as (s3 & Hrun3 & Hinv3 & Hperm3); try done.
    { exists n', (pn_Handle pn). split; [simpl; apply lookup_insert_eq|]. unfold owner_handle in *. destruct Hcore as (_ & -> & _). exact Hh. }
    exists s3. split.
    + rewrite (run_bind _ _ _ _ _ Hrun1). erewrite run_bind; [|by apply pe_update_run]. cbv beta. rewrite <- Hdef. exact Hrun3.
    + eapply (hs_struct_storages [] [p] [] [] [] st2); [exact Hs2|done..| | | | | | |]; try done; try apply Hs2; simpl.
      * intros q Hq _. rewrite Hperm3. by right.
      * intros q Hq%list_elem_of_singleton _. subst q. rewrite Hperm3. left.
Qed.
Lemma member_owned_when home n : pen_OwnerPoolNode n ≠ None →
  member_checksum n = pen_Checksum n ∧ member_count n = 1 ∧
  owned_checksum home n = when (pen_HomeRegistrarIdentifier n =? home) (pen_Checksum n) ∧
  owned_count home n = when (pen_HomeRegistrarIdentifier n =? home) 1.
Proof.
  intros Ho. unfold member_checksum, member_count, owned_checksum, owned_count, is_owned, is_member.
  by rewrite bool_decide_true.
Qed.

Lemma hs_acct_owned st p n : hs_acct st → hs_PoolElementNodes st !! p = Some n → pen_OwnerPoolNode n ≠ None →
  (pen_HomeRegistrarIdentifier n = hs_HomeRegistrarIdentifier st → 0 < hs_OwnedPoolElements st) ∧
  0 <= hs_OwnedPoolElements st < 2 ^ 31 ∧ 0 < hs_PoolElements st < 2 ^ 31 ∧ is_u32 (hs_OwnershipChecksum st) ∧
  is_u32 (hs_HandlespaceChecksum st).
Proof.
  intros Ha Hn Ho. destruct (member_owned_when (hs_HomeRegistrarIdentifier st) n Ho) as (_ & Hm & _ & Hc).
  pose proof (msum_ge member_count _ _ _ member_count_nonneg Hn). pose proof (ha_bound _ Ha). pose proof (ha_count _ Ha).
  set (oc := owned_count (hs_HomeRegistrarIdentifier st)) in *.
  assert (∀ m, 0 <= oc m) as Hnn by (intros; apply owned_count_nonneg).
  pose proof (msum_ge oc _ _ _ Hnn Hn). pose proof (msum_nonneg oc (hs_PoolElementNodes st) Hnn).
  pose proof (msum_le oc member_count (hs_PoolElementNodes st) (owned_count_le _)). pose proof (ha_owned_count _ Ha) as Hoc. fold oc in Hoc.
  split; [intros Heq; rewrite Heq, Z.eqb_refl in Hc; simpl in Hc; lia|]. split; [lia|]. split; [lia|].
  rewrite (ha_owned_sum _ Ha), (ha_sum _ Ha). split; apply wrap_in_width; lia.
Qed.

Lemma updateOwnership_spec st p n home : hs_inv st → hs_PoolElementNodes st !! p = Some n →
  pen_OwnerPoolNode n ≠ None → is_u32 home → ∃ st',
  let n' := moved_node home n in
  poolHandlespaceNodeUpdateOwnershipOfPoolElementNode p home st = Some (tt, st') ∧ hs_inv st' ∧
  hs_PoolElementNodes st' = <[p := n']> (hs_PoolElementNodes st) ∧ hs_PoolNodes st' = hs_PoolNodes st ∧
  hs_HomeRegistrarIdentifier st' = hs_HomeRegistrarIdentifier st ∧
  hs_PoolIndexStorage st' = hs_PoolIndexStorage st ∧ hs_PoolElementTimerStorage st' = hs_PoolElementTimerStorage st ∧
  hs_PoolElementConnectionStorage st' = hs_PoolElementConnectionStorage st ∧
  hs_PoolElements st' = hs_PoolElements st ∧ hs_HandlespaceChecksum st' = hs_HandlespaceChecksum st ∧
  hs_PoolNodeUpdateNotification st' = hs_PoolNodeUpdateNotification st ∧
  hs_Notifications st' = notified st p PNUA_Update (pen_Checksum n) (pen_HomeRegistrarIdentifier n) n'.
Proof.
  intros [Hs Ha] Hn Ho Hu. pose proof (hi_wf _ _ _ _ Hs p n Hn) as Hwf.
  destruct (moveOwnership_spec st p n home Hs Hn Ho Hu) as (sO & Hrun1 & Hs1). set (n1 := moved_node home n) in *.
  destruct (moved_node_facts home n Hu Hwf) as (Hwf1 & Hcore & Hhome1 & Ht1 & Hsd1 & Ha1). fold n1 in Hwf1, Hcore, Hhome1, Ht1, Hsd1, Ha1.
  set (st1 := hs_set_PoolElementOwnershipStorage sO (pe_store p n1 st)) in *.
  destruct (hs_struct_owner _ _ _ _ _ _ Hs Hn Ho) as (pp & pn & Hpp & _ & _ & Hh & _).
  assert (pen_OwnerPoolNode n1 = Some pp) as Ho1 by (destruct Hcore as (_ & -> & _); done).
  assert (owner_handle st1 n1 = Some (pn_Handle pn)) as Hh1 by (unfold owner_handle in *; by rewrite Ho1, <- Hpp).
  assert (poolElementNodeComputeChecksum (pn_Handle pn) n1 = pen_Checksum n) as Hc.
  { rewrite (ha_checksum _ Ha p n _ Hn Hh). unfold poolElementNodeComputeChecksum. by destruct Hcore as (-> & _). }
  assert (set_Checksum (pen_Checksum n) n1 = n1) as Hn1.
  { unfold n1, moved_node. destruct (_ =? _); by destruct n. }
  destruct (hs_acct_owned st p n Ha Hn Ho) as (Hpos & Hob & Hcb & Hou & Hsu).
  destruct (recount_spec st1 p n1 (pn_Handle pn) (pen_Checksum n) (pen_HomeRegistrarIdentifier n))
    as (st2 & Hrun2 & (Fp & Fi & Ft & Fo & Fc & Fh & Fn) & He & Hsum & Hosum & Hcnt & Hocnt & Hnot);
    [simpl; apply lookup_insert_eq|done|done|done|simpl; lia|].
  rewrite Hc, Hn1 in *. simpl in He. rewrite insert_insert_eq in He.
  exists st2. simpl. split; [|split; [split|split; [done|]]].
  - unfold poolHandlespaceNodeUpdateOwnershipOfPoolElementNode. rewrite (run_bind _ _ _ _ _ (pe_get_run _ _ _ Hn)).
    cbv zeta. rewrite (run_bind _ _ _ _ _ Hrun1). exact Hrun2.
  - apply (hs_struct_counters _ _ _ st1); done.
  - assert (pen_OwnerPoolNode n1 ≠ None) as Hnn by by rewrite Ho1.
    destruct (member_owned_when (hs_HomeRegistrarIdentifier st) n Ho) as (Hm1 & Hm2 & Hm3 & Hm4).
    destruct (member_owned_when (hs_HomeRegistrarIdentifier st) n1 Hnn) as (Hk1 & Hk2 & Hk3 & Hk4).
    assert (pen_Checksum n1 = pen_Checksum n) as Hck by by rewrite <- Hn1.
    apply (hs_acct_change p st st2 n n1); try done.
    + apply (others_same_trans _ _ (pe_store p n1 st)); [apply others_same_store; eauto|by apply others_same_heap].
    + by eapply hs_struct_pools_valid.
    + rewrite He. apply lookup_insert_eq.
    + intros h Hoh. assert (owner_handle st2 n1 = owner_handle st1 n1) as Heq by (unfold owner_handle; by rewrite Fp).
      rewrite Heq, Hh1 in Hoh. injection Hoh as <-. congruence.
    + rewrite Hsum, Hm1, Hk1, Hck. done.
    + rewrite Hosum, Hm3, Hk3, Hck. done.
    + rewrite Hcnt, Hm2, Hk2. simpl. lia.
    + rewrite Hocnt, Hm4, Hk4. done.
    + rewrite Hcnt. simpl. lia.
  - repeat (split; [done|]). split; [|done]. rewrite Hsum. simpl (hs_HandlespaceChecksum _).
    rewrite <- (wrap_small 32 (hs_HandlespaceChecksum st)) at 2 by done. f_equal. lia.
Qed.
End effects.
