(* ===== verification/HandlespaceWalks.v ===== *)
(** * Walks over the storages of the handlespace

    What the loops that only read compute: the walks along a storage visit
    its list, those for one registrar (one connection) the block of the
    list that belongs to it. *)

From S2P Require Import Prelude Checksum Addresses PoolBasics Storage PoolElement PoolPolicy HandlespaceState PoolNode PoolEffects PoolSelection HandlespaceNode HandlespaceInv HandlespaceOps.
From stdpp Require Import base list gmap numbers option sorting sets.
#[local] Open Scope Z_scope.

(** ** Pure walks *)

Section pure.
Context {St A : Type}.

(** [next] goes along [l]. *)
Definition steps_along (next : ptr → M St (option ptr)) (st : St) (l : list ptr) : Prop :=
  ∀ l1 p l2, l = l1 ++ p :: l2 → next p st = Some (head l2, st).

Lemma walk_pure (next : ptr → M St (option ptr)) (f : A → ptr → M St A) (g : A → ptr → A) st l fuel acc :
  steps_along next st l → (∀ a p, p ∈ l → f a p st = Some (g a p, st)) → (length l <= fuel)%nat →
  walk fuel next f (head l) acc st = Some (foldl g acc l, st).
Proof.
  intros Hnext Hf Hfuel.
  assert (∀ l2 l1 fuel acc, l = l1 ++ l2 → (length l2 <= fuel)%nat →
    walk fuel next f (head l2) acc st = Some (foldl g acc l2, st)) as Hgen; [|by apply (Hgen l [])].
  clear Hfuel acc fuel. intros l2. induction l2 as [|p l2 IH]; intros l1 fuel acc Hl Hfuel; [by destruct fuel|].
  simpl in Hfuel. destruct fuel as [|fuel]; [lia|]. simpl.
  rewrite (run_bind _ _ _ _ _ (Hf acc p ltac:(subst l; set_solver))).
  rewrite (run_bind _ _ _ _ _ (Hnext _ _ _ Hl)). apply (IH (l1 ++ [p])); [by rewrite <- app_assoc|lia].
Qed.
End pure.

Section count.
Lemma foldl_count {A} (l : list A) (i : Z) : foldl (λ i _, i + 1) i l = i + Z.of_nat (length l).
Proof. revert i. induction l as [|x l IH]; intros i; simpl; [lia|]. rewrite IH. lia. Qed.

Lemma foldl_add (f : ptr → Z) l c : foldl (λ s p, u32 (s + f p)) (u32 c) l = u32 (c + foldr (λ p a, f p + a) 0 l).
Proof.
  revert c. induction l as [|p l IH]; intros c; simpl; [by rewrite Z.add_0_r|].
  rewrite wrap_add_l, IH. f_equal. lia.
Qed.
End count.

(** ** Blocks of a sorted list *)

Section blocks.
Implicit Types (f : ptr → Z).

Lemma sorted_block f (l : list ptr) z : StronglySorted (λ p q, f p <= f q) l → ∃ A B C, l = A ++ B ++ C ∧
  (∀ p, p ∈ A → f p < z) ∧ (∀ p, p ∈ B → f p = z) ∧ (∀ p, p ∈ C → z < f p).
Proof.
  induction 1 as [|p l Hs IH Hp]; [exists [], [], []; set_solver|].
  destruct IH as (A & B & C & -> & HA & HB & HC). rewrite Forall_forall in Hp.
  destruct (Z.lt_trichotomy (f p) z) as [Hlt|[Heq|Hgt]].
  - exists (p :: A), B, C. split; [done|]. set_solver.
  - assert (A = []) as ->.
    { destruct A as [|a A]; [done|]. pose proof (HA a ltac:(left)). pose proof (Hp a ltac:(set_solver)). lia. }
    exists [], (p :: B), C. split; [done|]. set_solver.
  - assert (A = [] ∧ B = []) as [-> ->].
    { split; [destruct A as [|a A]; [done|]|destruct B as [|a B]; [done|]].
      - pose proof (HA a ltac:(left)). pose proof (Hp a ltac:(set_solver)). lia.
      - pose proof (HB a ltac:(left)). pose proof (Hp a ltac:(set_solver)). lia. }
    exists [], [], (p :: C). split; [done|]. split; [set_solver|]. split; [set_solver|]. set_solver.
Qed.

Lemma filter_block (P : ptr → Prop) `{∀ p, Decision (P p)} A B C :
  (∀ p, p ∈ A → ¬ P p) → (∀ p, p ∈ B → P p) → (∀ p, p ∈ C → ¬ P p) → filter P (A ++ B ++ C) = B.
Proof.
  intros HA HB HC. rewrite !filter_app.
  assert (∀ l : list ptr, (∀ p, p ∈ l → ¬ P p) → filter P l = []) as Hnone.
  { intros l Hl. induction l as [|p l IH]; [done|]. rewrite filter_cons_False by (apply Hl; left). apply IH. set_solver. }
  rewrite (Hnone A HA), (Hnone C HC), app_nil_r. simpl.
  induction B as [|p B IH]; [done|]. rewrite filter_cons_True by (apply HB; left). f_equal. apply IH. set_solver.
Qed.

Lemma lexcmp_prefix a b k : lexcmp a b < 0 → lexcmp (take (length k) a) k <= lexcmp (take (length k) b) k.
Proof.
  revert a b. induction k as [|z k IH]; intros a b Hlt; [done|].
  destruct a as [|x a]; simpl; [destruct (lexcmp_cases (take (S (length k)) b) (z :: k)) as [Hc|[Hc|Hc]]; simpl in Hc; rewrite Hc; lia|].
  destruct b as [|y b]; simpl in *; [done|].
  pose proof (lexcmp_cases (take (length k) a) k). pose proof (lexcmp_cases (take (length k) b) k). specialize (IH a b).
  destruct (Z.ltb_spec x y), (Z.ltb_spec y x), (Z.ltb_spec x z), (Z.ltb_spec z x), (Z.ltb_spec y z), (Z.ltb_spec z y); try lia.
Qed.

(** The same, for a prefix [k] of the keys of a sorted list. *)
Lemma key_block (key : ptr → list Z) l k : key_sorted key l → ∃ A B C, l = A ++ B ++ C ∧
  (∀ p, p ∈ A → lexcmp (take (length k) (key p)) k < 0) ∧ (∀ p, p ∈ B → take (length k) (key p) = k) ∧
  (∀ p, p ∈ C → 0 < lexcmp (take (length k) (key p)) k).
Proof.
  intros Hs.
  destruct (sorted_block (λ p, lexcmp (take (length k) (key p)) k) l 0) as (A & B & C & -> & HA & HB & HC).
  - induction Hs as [|p l Hs IH Hp]; constructor; [done|]. rewrite Forall_forall in *. intros q Hq. by apply lexcmp_prefix, Hp.
  - exists A, B, C. split; [done|]. split; [done|]. split; [|done]. intros p Hp. by apply lexcmp_eq, HB.
Qed.
End blocks.

Section walks.
Context {ST : Type} `{SL : StorageLaws ST} `{En : Endian}.
Abbreviation HS := (Handlespace ST).
Implicit Types (st : HS) (pn : PoolNode ST) (p q pp : ptr) (E XO XC : list ptr) (k : slot).

Lemma storage_steps k st s : slot_get k st = Some s → slot_inv k st s → steps_along (storageGetNext k) st (st_list s).
Proof. intros Hg Hinv l1 p l2 Hl. eapply storageGetNext_app; [done|apply Hinv|done]. Qed.

Lemma storageGetPrev_app k st s l1 p l2 : slot_get k st = Some s → slot_inv k st s → st_list s = l1 ++ p :: l2 →
  storageGetPrev k p st = Some (head (reverse l1), st).
Proof.
  intros Hg Hinv Hl. pose proof (slot_inv_nodup _ _ _ Hinv) as Hnd. rewrite Hl in Hnd.
  unfold storageGetPrev. rewrite (storageRead_eq _ _ _ _ Hg).
  rewrite (st_prev_law (slot_value k st)); [|apply Hinv|rewrite Hl; set_solver]. rewrite Hl. unfold l_prev.
  rewrite reverse_app, reverse_cons, <- app_assoc. simpl. rewrite l_next_app; [done|].
  rewrite elem_of_reverse. intros Hp. apply NoDup_app in Hnd as (_ & _ & Hnd). by apply NoDup_cons_1_1 in Hnd.
Qed.

(** The search for the first node of a block [B]. *)
Lemma firstNodeFor_spec k st s (same : PoolElementNode → bool) A B C : slot_get k st = Some s → slot_inv k st s →
  st_list s = A ++ B ++ C →
  (∀ p, p ∈ st_list s → ∃ n, hs_PoolElementNodes st !! p = Some n) →
  (∀ p n, p ∈ A ++ C → hs_PoolElementNodes st !! p = Some n → same n = false) →
  (∀ p n, p ∈ B → hs_PoolElementNodes st !! p = Some n → same n = true) →
  firstNodeFor k same (head (B ++ C)) st = Some (head B, st).
Proof.
  intros Hg Hinv Hl Hval Hout Hin. unfold firstNodeFor. destruct (head (B ++ C)) as [p|] eqn:Hhead.
  2:{ assert (B = []) as -> by (destruct B; [done|by simpl in Hhead]). done. }
  assert (∃ l2, B ++ C = p :: l2) as [l2 Hl2] by (destruct (B ++ C); simpl in Hhead; naive_solver).
  assert (st_list s = A ++ p :: l2) as Hl' by by rewrite Hl, Hl2.
  erewrite run_bind; [|unfold storageFuel; by apply storageRead_eq].
  rewrite (run_bind _ _ _ _ _ (storageGetPrev_app k st s A p l2 Hg Hinv Hl')).
  assert (backWhile (length (st_list s)) (storageGetPrev k) same p (head (reverse A)) st = Some (p, st)) as Hback.
  { rewrite Hl'. destruct (head (reverse A)) as [q|] eqn:Hq; [|by destruct (length _)].
    assert (q ∈ A) as HqA by (apply elem_of_reverse; destruct (reverse A); simpl in Hq; [done|]; injection Hq as ->; left).
    destruct (length (A ++ p :: l2)) eqn:Hlen; [rewrite length_app in Hlen; simpl in Hlen; lia|]. simpl.
    destruct (Hval q) as [m Hm]; [rewrite Hl'; set_solver|]. rewrite (run_bind _ _ _ _ _ (pe_get_run _ _ _ Hm)).
    by rewrite (Hout q m) by set_solver. }
  rewrite (run_bind _ _ _ _ _ Hback). destruct (Hval p) as [n Hn]; [rewrite Hl'; set_solver|].
  rewrite (run_bind _ _ _ _ _ (pe_get_run _ _ _ Hn)). destruct B as [|b B]; simpl in Hl2.
  - rewrite (Hout p n); [done| |done]. subst C. set_solver.
  - injection Hl2 as -> _. rewrite (Hin p n); [done|left|done].
Qed.

(** Steps along a block. *)
Lemma block_steps k st s (same : PoolElementNode → PoolElementNode → bool) A B C : slot_get k st = Some s → slot_inv k st s →
  st_list s = A ++ B ++ C →
  (∀ p, p ∈ st_list s → ∃ n, hs_PoolElementNodes st !! p = Some n) →
  (∀ p q n m, p ∈ B → q ∈ B → hs_PoolElementNodes st !! p = Some n → hs_PoolElementNodes st !! q = Some m → same n m = true) →
  (∀ p q n m, p ∈ B → q ∈ C → hs_PoolElementNodes st !! p = Some n → hs_PoolElementNodes st !! q = Some m → same n m = false) →
  steps_along (λ p, node ← storageGetNext k p;
    match node with
    | Some next => n ← pe_get p; m ← pe_get next; mret (if same n m then Some next else None)
    | None => mret None
    end) st B.
Proof.
  intros Hg Hinv Hl Hval Hin Hout l1 p l2 HB.
  assert (st_list s = (A ++ l1) ++ p :: (l2 ++ C)) as Hl' by (rewrite Hl, HB; by rewrite <- !app_assoc).
  rewrite (run_bind _ _ _ _ _ (storage_steps k st s Hg Hinv _ _ _ Hl')).
  destruct (Hval p) as [n Hn]; [rewrite Hl'; set_solver|].
  destruct l2 as [|q l2]; simpl.
  - destruct C as [|c C]; [done|]. simpl. destruct (Hval c) as [m Hm]; [rewrite Hl'; set_solver|].
    rewrite (run_bind _ _ _ _ _ (pe_get_run _ _ _ Hn)), (run_bind _ _ _ _ _ (pe_get_run _ _ _ Hm)).
    by rewrite (Hout p c n m) by set_solver.
  - destruct (Hval q) as [m Hm]; [rewrite Hl'; set_solver|].
    rewrite (run_bind _ _ _ _ _ (pe_get_run _ _ _ Hn)), (run_bind _ _ _ _ _ (pe_get_run _ _ _ Hm)).
    by rewrite (Hin p q n m) by set_solver.
Qed.

(** ** The elements of one registrar *)

Definition owned_list (home : Z) st : list ptr :=
  filter (λ p, pen_HomeRegistrarIdentifier <$> hs_PoolElementNodes st !! p = Some home)
    (st_list (hs_PoolElementOwnershipStorage st)).

Lemma linked_positive E XO XC st p n : hs_struct E XO XC st → hs_PoolElementNodes st !! p = Some n →
  pen_OwnerPoolNode n ≠ None → 0 < pen_Identifier n.
Proof.
  intros Hs Hn Ho. destruct (hs_struct_owner _ _ _ _ _ _ Hs Hn Ho) as (pp & pn & _ & _ & Hinv & _ & Hin).
  destruct (pi_element _ _ _ _ _ Hinv p Hin) as (m & Hm & Hwf & Hc & _). simplify_eq.
  destruct Hwf as ([Hge _] & _). unfold poolNodeCheckPoolElementNodeCompatibility in Hc.
  destruct (Z.eqb_spec (pen_Identifier n) 0) as [Hz|Hz]; [done|lia].
Qed.

Lemma ownership_blocks E XO XC st home : hs_struct E XO XC st → ∃ A C,
  st_list (hs_PoolElementOwnershipStorage st) = A ++ owned_list home st ++ C ∧
  (∀ p, p ∈ A → ∃ n, hs_PoolElementNodes st !! p = Some n ∧ pen_OwnerPoolNode n ≠ None ∧ pen_HomeRegistrarIdentifier n < home) ∧
  (∀ p, p ∈ owned_list home st → ∃ n, hs_PoolElementNodes st !! p = Some n ∧ pen_OwnerPoolNode n ≠ None ∧ pen_HomeRegistrarIdentifier n = home) ∧
  (∀ p, p ∈ C → ∃ n, hs_PoolElementNodes st !! p = Some n ∧ pen_OwnerPoolNode n ≠ None ∧ home < pen_HomeRegistrarIdentifier n).
Proof.
  intros Hs. pose proof (hi_ownership _ _ _ _ Hs) as Hinv. set (l := st_list (hs_PoolElementOwnershipStorage st)) in *.
  assert (∀ p, p ∈ l → ∃ n h, hs_PoolElementNodes st !! p = Some n ∧ pen_OwnerPoolNode n ≠ None ∧
    slot_key SlotOwnership st p = ownershipKey h n) as Hval.
  { intros p Hp. destruct (si_valid _ _ _ Hinv p Hp) as (n & h & Hn & Hh). exists n, h. split; [done|].
    split; [intros Ho; unfold owner_handle in Hh; by rewrite Ho in Hh|]. simpl. rewrite Hn. simpl. by rewrite Hh. }
  destruct (key_block (slot_key SlotOwnership st) l [home]) as (A & B & C & Hl & HA & HB & HC); [apply Hinv|].
  assert (∀ p, p ∈ A → ∃ n, hs_PoolElementNodes st !! p = Some n ∧ pen_OwnerPoolNode n ≠ None ∧ pen_HomeRegistrarIdentifier n < home) as HA'.
  { intros p Hp. destruct (Hval p) as (n & h & Hn & Ho & Hk); [rewrite Hl, !elem_of_app; auto|]. exists n. split; [done|]. split; [done|].
    specialize (HA p Hp). rewrite Hk in HA. simpl in HA. destruct (Z.ltb_spec (pen_HomeRegistrarIdentifier n) home); [done|].
    destruct (home <? _); lia. }
  assert (∀ p, p ∈ B → ∃ n, hs_PoolElementNodes st !! p = Some n ∧ pen_OwnerPoolNode n ≠ None ∧ pen_HomeRegistrarIdentifier n = home) as HB'.
  { intros p Hp. destruct (Hval p) as (n & h & Hn & Ho & Hk); [rewrite Hl, !elem_of_app; auto|]. exists n. split; [done|]. split; [done|].
    specialize (HB p Hp). rewrite Hk in HB. simpl in HB. by injection HB. }
  assert (∀ p, p ∈ C → ∃ n, hs_PoolElementNodes st !! p = Some n ∧ pen_OwnerPoolNode n ≠ None ∧ home < pen_HomeRegistrarIdentifier n) as HC'.
  { intros p Hp. destruct (Hval p) as (n & h & Hn & Ho & Hk); [rewrite Hl, !elem_of_app; auto|]. exists n. split; [done|]. split; [done|].
    specialize (HC p Hp). rewrite Hk in HC. simpl in HC. destruct (Z.ltb_spec (pen_HomeRegistrarIdentifier n) home); [lia|].
    destruct (Z.ltb_spec home (pen_HomeRegistrarIdentifier n)); [done|lia]. }
  assert (owned_list home st = B) as ->.
  { unfold owned_list. fold l. rewrite Hl. apply filter_block.
    - intros p Hp. destruct (HA' p Hp) as (n & -> & _ & ?). simpl. intros [= ?]. lia.
    - intros p Hp. destruct (HB' p Hp) as (n & -> & _ & Hh). simpl. by rewrite Hh.
    - intros p Hp. destruct (HC' p Hp) as (n & -> & _ & ?). simpl. intros [= ?]. lia. }
  by exists A, C.
Qed.

Lemma firstOwned_run E XO XC st home : hs_struct E XO XC st →
  poolHandlespaceNodeGetFirstPoolElementOwnershipNodeForIdentifier home st = Some (head (owned_list home st), st).
Proof.
  intros Hs. pose proof (hi_ownership _ _ _ _ Hs) as Hinv.
  destruct (ownership_blocks _ _ _ st home Hs) as (A & C & Hl & HA & HB & HC).
  assert (∀ p, p ∈ st_list (hs_PoolElementOwnershipStorage st) → ∃ n, hs_PoolElementNodes st !! p = Some n) as Hval.
  { intros p Hp. destruct (si_valid _ _ _ Hinv p Hp) as (n & h & Hn & _). eauto. }
  unfold poolHandlespaceNodeGetFirstPoolElementOwnershipNodeForIdentifier, poolHandlespaceNodeFindNearestNextPoolElementOwnershipNode.
  set (c := cmpPoolElementNode 0 home 0 0).
  erewrite run_bind; [|erewrite run_bind; [|apply handleForComparison_run; by apply (bool_decide_unpack _)]].
  2:{ apply (storageGetNearestNext_spec SlotOwnership st (hs_PoolElementOwnershipStorage st) _ (ownershipKey lastPoolHandle c)); [done|done|].
      intros q Hq. destruct (si_valid _ _ _ Hinv q Hq) as (n & h & Hn & Hh). unfold compareOwnership. simpl.
      rewrite Hn. simpl. rewrite Hh. done. }
  assert (l_nearest_next (λ q, lexcmp (ownershipKey lastPoolHandle c) (slot_key SlotOwnership st q))
    (st_list (hs_PoolElementOwnershipStorage st)) = head (owned_list home st ++ C)) as ->.
  { unfold l_nearest_next. f_equal. rewrite Hl. rewrite <- (app_nil_r (owned_list home st ++ C)) at 1.
    apply filter_block.
    - intros p Hp. destruct (HA p Hp) as (n & Hn & _ & Hlt). destruct (si_valid _ _ _ Hinv p) as (n' & h & Hn' & Hh); [rewrite Hl; set_solver|].
      assert (n' = n) as -> by congruence. simpl. rewrite Hn. simpl. rewrite Hh. simpl.
      destruct (Z.ltb_spec home (pen_HomeRegistrarIdentifier n)); [lia|]. destruct (Z.ltb_spec (pen_HomeRegistrarIdentifier n) home); lia.
    - intros p Hp. destruct (si_valid _ _ _ Hinv p) as (n & h & Hn & Hh); [rewrite Hl; set_solver|]. simpl. rewrite Hn. simpl. rewrite Hh. simpl.
      apply elem_of_app in Hp as [Hp|Hp].
      + destruct (HB p Hp) as (n' & Hn' & Ho & Hhome). assert (n' = n) as -> by congruence. rewrite Hhome, Z.ltb_irrefl.
        pose proof (linked_positive _ _ _ _ _ _ Hs Hn Ho). destruct (Z.ltb_spec 0 (pen_Identifier n)); lia.
      + destruct (HC p Hp) as (n' & Hn' & _ & Hlt). assert (n' = n) as -> by congruence.
        destruct (Z.ltb_spec home (pen_HomeRegistrarIdentifier n)); lia.
    - intros p Hp. by apply not_elem_of_nil in Hp. }
  apply (firstNodeFor_spec SlotOwnership st (hs_PoolElementOwnershipStorage st) _ A (owned_list home st) C); try done.
  - intros p n Hp Hn. apply Z.eqb_neq. apply elem_of_app in Hp as [Hp|Hp]; [destruct (HA p Hp) as (m & ? & _ & ?)|destruct (HC p Hp) as (m & ? & _ & ?)]; simplify_eq; lia.
  - intros p n Hp Hn. apply Z.eqb_eq. destruct (HB p Hp) as (m & ? & _ & ?). by simplify_eq.
Qed.

Lemma owned_steps E XO XC st home : hs_struct E XO XC st →
  steps_along poolHandlespaceNodeGetNextPoolElementOwnershipNodeForSameIdentifier st (owned_list home st).
Proof.
  intros Hs. pose proof (hi_ownership _ _ _ _ Hs) as Hinv.
  destruct (ownership_blocks _ _ _ st home Hs) as (A & C & Hl & HA & HB & HC).
  apply (block_steps SlotOwnership st (hs_PoolElementOwnershipStorage st)
    (λ n m, pen_HomeRegistrarIdentifier m =? pen_HomeRegistrarIdentifier n) A (owned_list home st) C); try done.
  - intros p Hp. destruct (si_valid _ _ _ Hinv p Hp) as (n & h & Hn & _). eauto.
  - intros p q n m Hp Hq Hn Hm. apply Z.eqb_eq. destruct (HB p Hp) as (? & ? & _ & ?), (HB q Hq) as (? & ? & _ & ?). simplify_eq. congruence.
  - intros p q n m Hp Hq Hn Hm. apply Z.eqb_neq. destruct (HB p Hp) as (? & ? & _ & ?), (HC q Hq) as (? & ? & _ & ?). simplify_eq. lia.
Qed.
End walks.
