(* ===== verification/HandlespaceVerify.v ===== *)
(** * The consistency check of the handlespace succeeds

    [poolHandlespaceNodeVerify] recomputes counters and checksums from the
    storages and CHECKs them.  In every state with the invariant it runs to
    its end without a failing CHECK and without changing the state. *)

From S2P Require Import Prelude Checksum Addresses PoolBasics Storage PoolElement PoolPolicy HandlespaceState PoolNode PoolEffects PoolSelection HandlespaceNode HandlespaceInv HandlespaceOps HandlespaceWalks.
From stdpp Require Import base list gmap numbers option sorting sets.
#[local] Open Scope Z_scope.

Section verify.
Context {ST : Type} `{SL : StorageLaws ST} `{En : Endian}.
Abbreviation HS := (Handlespace ST).
Implicit Types (st : HS) (pn : PoolNode ST) (p q pp : ptr) (k : slot).

Lemma storageVerify_run k st s : slot_get k st = Some s → slot_inv k st s → storageVerify k st = Some (tt, st).
Proof.
  intros Hg [Hok Hs Hv]. unfold storageVerify. rewrite Hg, (keyed_verify (slot_key k st) _ s Hok Hs); [done|].
  intros p q Hp Hq. by rewrite slot_cmp_key by auto.
Qed.

Lemma countWalk_run k st s : slot_get k st = Some s → slot_inv k st s →
  countWalk k st = Some (Z.of_nat (length (st_list s)), st).
Proof.
  intros Hg Hinv. unfold countWalk. erewrite run_bind; [|unfold storageFuel; by apply storageRead_eq].
  rewrite (run_bind _ _ _ _ _ (storageGetFirst_spec _ _ _ Hg Hinv)).
  rewrite (walk_pure _ _ (λ i _, i + 1) st (st_list s)); [by rewrite foldl_count|by apply storage_steps|done|lia].
Qed.

(** ** All elements *)

Definition pool_members st pp : list ptr :=
  match hs_PoolNodes st !! pp with Some pn => st_list (pn_PoolElementIndexStorage pn) | None => [] end.

Definition all_members st : list ptr := mjoin (pool_members st <$> st_list (hs_PoolIndexStorage st)).

Lemma pool_members_elem st pp p : hs_struct [] [] [] st → pp ∈ st_list (hs_PoolIndexStorage st) →
  p ∈ pool_members st pp ↔ ∃ n, hs_PoolElementNodes st !! p = Some n ∧ pen_OwnerPoolNode n = Some pp.
Proof.
  intros Hs Hpp. destruct (hi_pool _ _ _ _ Hs pp Hpp) as (pn & Hinv & _). unfold pool_members.
  rewrite (pi_lookup _ _ _ _ _ Hinv). split.
  - intros Hp. destruct (pi_element _ _ _ _ _ Hinv p Hp) as (n & Hn & _ & _ & [[Ho _]|[_ HU]]); [eauto|by apply not_elem_of_nil in HU].
  - intros (n & Hn & Ho). by eapply (pi_member _ _ _ _ _ Hinv).
Qed.

Lemma all_members_elem st p : hs_struct [] [] [] st →
  p ∈ all_members st ↔ ∃ n, hs_PoolElementNodes st !! p = Some n ∧ pen_OwnerPoolNode n ≠ None.
Proof.
  intros Hs. unfold all_members. rewrite list_elem_of_join. setoid_rewrite list_elem_of_fmap. split.
  - intros (l & Hp & pp & -> & Hpp). apply pool_members_elem in Hp as (n & Hn & Ho); [|done|done]. exists n. by rewrite Ho.
  - intros (n & Hn & Ho). destruct (pen_OwnerPoolNode n) as [pp|] eqn:Hpp; [|done].
    pose proof (hi_owner _ _ _ _ Hs p n pp Hn Hpp) as Hin. exists (pool_members st pp). split; [|eauto].
    apply pool_members_elem; eauto.
Qed.

Lemma all_members_nodup st : hs_struct [] [] [] st → NoDup (all_members st).
Proof.
  intros Hs. unfold all_members. pose proof (slot_inv_nodup _ _ _ (hi_pools _ _ _ _ Hs)) as Hnd.
  assert (∀ l, NoDup l → l ⊆ st_list (hs_PoolIndexStorage st) → NoDup (mjoin (pool_members st <$> l))) as Hall; [|by apply Hall].
  clear Hnd. intros l. induction l as [|pp l IH]; intros Hnd Hsub; simpl; [constructor|].
  pose proof (NoDup_cons_1_1 _ _ Hnd) as Hpp. apply NoDup_cons_1_2 in Hnd.
  apply NoDup_app. split; [|split; [|apply IH; [done|set_solver]]].
  - unfold pool_members. destruct (hi_pool _ _ _ _ Hs pp ltac:(apply Hsub; left)) as (pn & Hinv & _).
    rewrite (pi_lookup _ _ _ _ _ Hinv). eapply slot_inv_nodup, Hinv.
  - intros p Hp Hp'. apply pool_members_elem in Hp as (n & Hn & Ho); [|done|apply Hsub; left].
    apply list_elem_of_join in Hp' as (l' & Hp' & Hl'). apply list_elem_of_fmap in Hl' as (pp' & -> & Hpp').
    apply pool_members_elem in Hp' as (n' & Hn' & Ho'); [|done|set_solver]. congruence.
Qed.

(** Sums over all elements are sums along the list. *)
Lemma msum_members (f : PoolElementNode → Z) st : hs_struct [] [] [] st → (∀ n, pen_OwnerPoolNode n = None → f n = 0) →
  msum f (hs_PoolElementNodes st) = foldr (λ p acc, default 0 (f <$> hs_PoolElementNodes st !! p) + acc) 0 (all_members st).
Proof.
  intros Hs Hf. apply msum_list; [by apply all_members_nodup| |].
  - intros p Hp. apply all_members_elem in Hp as (n & Hn & _); [eauto|done].
  - intros p n Hn Hp. apply Hf. destruct (pen_OwnerPoolNode n) eqn:Ho; [|done]. exfalso. apply Hp.
    apply all_members_elem; [done|]. exists n. by rewrite Ho.
Qed.

Lemma foldr_ones (f : ptr → Z) l : (∀ p, p ∈ l → f p = 1) → foldr (λ p acc, f p + acc) 0 l = Z.of_nat (length l).
Proof. induction l as [|p l IH]; intros Hf; simpl; [done|]. rewrite IH by set_solver. rewrite Hf by left. lia. Qed.

Lemma foldr_sum_ext (f g : ptr → Z) l : (∀ p, p ∈ l → f p = g p) →
  foldr (λ p acc, f p + acc) 0 l = foldr (λ p acc, g p + acc) 0 l.
Proof. induction l as [|p l IH]; intros Hf; simpl; [done|]. rewrite IH by set_solver. by rewrite Hf by left. Qed.

Lemma members_count st : hs_struct [] [] [] st →
  msum member_count (hs_PoolElementNodes st) = Z.of_nat (length (all_members st)).
Proof.
  intros Hs. rewrite msum_members; [|done|intros n Ho; unfold member_count, is_member; by rewrite bool_decide_false by naive_solver].
  apply foldr_ones. intros p Hp. apply all_members_elem in Hp as (n & -> & Ho); [|done]. simpl.
  unfold member_count, is_member. by rewrite bool_decide_true.
Qed.

Lemma owned_list_nodup st home : hs_struct [] [] [] st → NoDup (owned_list home st).
Proof. intros Hs. apply NoDup_filter. eapply slot_inv_nodup, Hs. Qed.

(** The elements of a registrar other than 0 are those in its block. *)
Lemma msum_owned (f : PoolElementNode → Z) st home : hs_struct [] [] [] st → home ≠ 0 →
  (∀ n, is_owned home n = false → f n = 0) →
  msum f (hs_PoolElementNodes st) = foldr (λ p acc, default 0 (f <$> hs_PoolElementNodes st !! p) + acc) 0 (owned_list home st).
Proof.
  intros Hs Hh Hf. apply msum_list; [by apply owned_list_nodup| |].
  - intros p Hp. destruct (ownership_blocks _ _ _ st home Hs) as (A & C & _ & _ & HB & _). destruct (HB p Hp) as (n & ? & _). eauto.
  - intros p n Hn Hp. apply Hf. apply not_true_iff_false. intros Ho. apply Hp. unfold is_owned, is_member in Ho.
    apply andb_true_iff in Ho as [Ho%bool_decide_eq_true Hhome%Z.eqb_eq].
    apply list_elem_of_filter. rewrite Hn. simpl. split; [by rewrite Hhome|].
    apply (hi_owned_in _ _ _ _ Hs p n); [done|done|congruence|apply not_elem_of_nil].
Qed.

Lemma owned_count_length st home : hs_struct [] [] [] st → home ≠ 0 →
  msum (owned_count home) (hs_PoolElementNodes st) = Z.of_nat (length (owned_list home st)).
Proof.
  intros Hs Hh. rewrite (msum_owned _ st home); [|done|done|intros n Hn; unfold owned_count; by rewrite Hn].
  apply foldr_ones. intros p Hp. destruct (ownership_blocks _ _ _ st home Hs) as (A & C & _ & _ & HB & _).
  destruct (HB p Hp) as (n & -> & Ho & Hhome). simpl. unfold owned_count, is_owned, is_member.
  rewrite bool_decide_true by done. by rewrite Hhome, Z.eqb_refl.
Qed.
(** ** Checksums *)

Definition checksum_at st p : Z := default 0 (pen_Checksum <$> hs_PoolElementNodes st !! p).

Lemma addChecksumOf_run st sum p n : hs_inv st → hs_PoolElementNodes st !! p = Some n → pen_OwnerPoolNode n ≠ None →
  addChecksumOf sum p st = Some (u32 (sum + checksum_at st p), st).
Proof.
  intros [Hs Ha] Hn Ho. destruct (hs_struct_owner _ _ _ _ _ _ Hs Hn Ho) as (pp & pn & _ & _ & _ & Hh & _).
  unfold addChecksumOf, computeChecksumOf, checksum_at. rewrite Hn. simpl. rewrite (ha_checksum _ Ha p n _ Hn Hh).
  unfold mbind, M_bind, pe_get, deref. rewrite Hn. simpl. by rewrite Hh.
Qed.

Lemma index_slot st pp pn : hs_PoolNodes st !! pp = Some pn → slot_get (SlotIndex pp) st = Some (pn_PoolElementIndexStorage pn).
Proof. intros Hpn. simpl. by rewrite Hpn. Qed.

Lemma sum_pool_run st pp sum : hs_inv st → pp ∈ st_list (hs_PoolIndexStorage st) →
  (fuel' ← storageFuel (SlotIndex pp); first' ← poolNodeGetFirstPoolElementNodeFromIndex pp;
   walk fuel' (poolNodeGetNextPoolElementNodeFromIndex pp) addChecksumOf first' sum) st =
  Some (foldl (λ s p, u32 (s + checksum_at st p)) sum (pool_members st pp), st).
Proof.
  intros Hi Hpp. pose proof Hi as [Hs Ha]. destruct (hi_pool _ _ _ _ Hs pp Hpp) as (pn & Hinv & _).
  pose proof (pi_lookup _ _ _ _ _ Hinv) as Hpn. pose proof (index_slot st pp pn Hpn) as Hg.
  assert (pool_members st pp = st_list (pn_PoolElementIndexStorage pn)) as Hm by (unfold pool_members; by rewrite Hpn).
  erewrite run_bind; [|unfold storageFuel; apply (storageRead_eq _ _ _ _ Hg)].
  rewrite (run_bind _ _ _ _ _ (storageGetFirst_spec _ _ _ Hg (pi_index _ _ _ _ _ Hinv))). rewrite Hm.
  apply walk_pure; [apply (storage_steps _ _ _ Hg), Hinv| |lia].
  intros a p Hp. rewrite <- Hm in Hp. apply pool_members_elem in Hp as (n & Hn & Ho); [|done|done].
  eapply addChecksumOf_run; [done|done|by rewrite Ho].
Qed.

Lemma foldl_join {A} (g : A → ptr → A) (f : ptr → list ptr) l a :
  foldl (λ a pp, foldl g a (f pp)) a l = foldl g a (mjoin (f <$> l)).
Proof. revert a. induction l as [|pp l IH]; intros a; simpl; [done|]. by rewrite IH, foldl_app. Qed.

Lemma computeHandlespaceChecksum_run st : hs_inv st →
  poolHandlespaceNodeComputeHandlespaceChecksum st = Some (hs_HandlespaceChecksum st, st).
Proof.
  intros Hi. pose proof Hi as [Hs Ha]. pose proof (hi_pools _ _ _ _ Hs) as Hinv. unfold poolHandlespaceNodeComputeHandlespaceChecksum.
  erewrite run_bind; [|unfold storageFuel; by apply storageRead_eq].
  rewrite (run_bind _ _ _ _ _ (storageGetFirst_spec SlotPools _ _ eq_refl Hinv)).
  rewrite (walk_pure _ _ (λ s pp, foldl (λ s p, u32 (s + checksum_at st p)) s (pool_members st pp)) st (st_list (hs_PoolIndexStorage st)));
    [|by apply (storage_steps SlotPools)|intros; by apply sum_pool_run|lia].
  do 2 f_equal. rewrite (foldl_join (λ s p, u32 (s + checksum_at st p))). change 0 with (u32 0) at 1. rewrite foldl_add. rewrite Z.add_0_l.
  rewrite (ha_sum _ Ha), msum_members; [|done|intros n Ho; unfold member_checksum, is_member; by rewrite bool_decide_false by naive_solver].
  f_equal. apply foldr_sum_ext. intros p Hp. apply all_members_elem in Hp as (n & Hn & Ho); [|done]. unfold checksum_at. rewrite Hn. simpl.
  unfold member_checksum, is_member. by rewrite bool_decide_true.
Qed.

Lemma computeOwnershipChecksum_run st home : hs_inv st →
  poolHandlespaceNodeComputeOwnershipChecksum home st =
    Some (u32 (foldr (λ p a, checksum_at st p + a) 0 (owned_list home st)), st).
Proof.
  intros Hi. pose proof Hi as [Hs Ha]. unfold poolHandlespaceNodeComputeOwnershipChecksum.
  erewrite run_bind; [|unfold storageFuel; by apply (storageRead_eq SlotOwnership)].
  rewrite (run_bind _ _ _ _ _ (firstOwned_run _ _ _ st home Hs)).
  destruct (ownership_blocks _ _ _ st home Hs) as (A & C & Hl & _ & HB & _).
  rewrite (walk_pure _ _ (λ s p, u32 (s + checksum_at st p)) st (owned_list home st)).
  - change 0 with (u32 0) at 1. by rewrite foldl_add, Z.add_0_l.
  - by eapply owned_steps.
  - intros a p Hp. destruct (HB p Hp) as (n & Hn & Ho & _). by eapply addChecksumOf_run.
  - rewrite Hl, !length_app. lia.
Qed.

Lemma ownershipChecksum_owned st : hs_inv st → hs_HomeRegistrarIdentifier st ≠ 0 →
  hs_OwnershipChecksum st = u32 (foldr (λ p a, checksum_at st p + a) 0 (owned_list (hs_HomeRegistrarIdentifier st) st)).
Proof.
  intros [Hs Ha] Hh. set (home := hs_HomeRegistrarIdentifier st) in *. rewrite (ha_owned_sum _ Ha). fold home.
  rewrite (msum_owned _ st home); [|done|done|intros n Hn; unfold owned_checksum; by rewrite Hn].
  f_equal. apply foldr_sum_ext. intros p Hp. destruct (ownership_blocks _ _ _ st home Hs) as (A & C & _ & _ & HB & _).
  destruct (HB p Hp) as (n & Hn & Ho & Hhome). unfold checksum_at. rewrite Hn. simpl.
  unfold owned_checksum, is_owned, is_member. rewrite bool_decide_true by done. by rewrite Hhome, Z.eqb_refl.
Qed.

(** ** The check *)

Lemma ownership_walk_run st : hs_inv st →
  let home := hs_HomeRegistrarIdentifier st in
  walk (length (st_list (hs_PoolElementOwnershipStorage st))) poolHandlespaceNodeGetNextPoolElementOwnershipNode
    (λ '(ownedPEs, i) p, n ← pe_get p;
       mret (if pen_HomeRegistrarIdentifier n =? home then ownedPEs + 1 else ownedPEs, i + 1))
    (head (st_list (hs_PoolElementOwnershipStorage st))) (0, 0) st
  = Some ((Z.of_nat (length (owned_list home st)), Z.of_nat (length (st_list (hs_PoolElementOwnershipStorage st)))), st).
Proof.
  intros [Hs Ha] home. pose proof (hi_ownership _ _ _ _ Hs) as Hinv. set (l := st_list (hs_PoolElementOwnershipStorage st)) in *.
  set (P := λ p, pen_HomeRegistrarIdentifier <$> hs_PoolElementNodes st !! p = Some home).
  rewrite (walk_pure _ _ (λ '(o, i) p, (if decide (P p) then o + 1 else o, i + 1)) st l).
  - do 2 f_equal. assert (∀ l o i, foldl (λ '(o, i) p, (if decide (P p) then o + 1 else o, i + 1)) (o, i) l =
      (o + Z.of_nat (length (filter P l)), i + Z.of_nat (length l))) as Hf.
    { clear. intros l. induction l as [|p l IH]; intros o i; simpl; [f_equal; lia|]. rewrite IH, filter_cons.
      case_decide; simpl; f_equal; lia. }
    rewrite Hf. unfold owned_list. fold l. done.
  - by apply (storage_steps SlotOwnership).
  - intros [o i] p Hp. destruct (si_valid _ _ _ Hinv p Hp) as (n & h & Hn & _).
    rewrite (run_bind _ _ _ _ _ (pe_get_run _ _ _ Hn)). unfold P. rewrite Hn. simpl.
    destruct (Z.eqb_spec (pen_HomeRegistrarIdentifier n) home) as [He|He]; [rewrite decide_True by congruence|rewrite decide_False by congruence]; done.
  - done.
Qed.

Lemma pools_walk_run st : hs_inv st →
  walk (length (st_list (hs_PoolIndexStorage st))) poolHandlespaceNodeGetNextPoolNode
    (λ '(i, j) pp,
       storageVerify (SlotIndex pp);;
       storageVerify (SlotSelection pp);;
       a ← storageGetElements (SlotSelection pp);
       b ← storageGetElements (SlotIndex pp);
       CHECK (a =? b);;
       c ← poolNodeGetPoolElementNodes pp;
       CHECK (0 <? c);;
       mret (i + 1, j + c))
    (head (st_list (hs_PoolIndexStorage st))) (0, 0) st
  = Some ((Z.of_nat (length (st_list (hs_PoolIndexStorage st))), Z.of_nat (length (all_members st))), st).
Proof.
  intros [Hs Ha]. pose proof (hi_pools _ _ _ _ Hs) as Hinv. unfold all_members. set (l := st_list (hs_PoolIndexStorage st)) in *.
  rewrite (walk_pure _ _ (λ '(i, j) pp, (i + 1, j + Z.of_nat (length (pool_members st pp)))) st l).
  - do 2 f_equal. assert (∀ l i j, foldl (λ '(i, j) pp, (i + 1, j + Z.of_nat (length (pool_members st pp)))) (i, j) l =
      (i + Z.of_nat (length l), j + Z.of_nat (length (mjoin (pool_members st <$> l))))) as Hf; [|by rewrite Hf].
    clear. intros l. induction l as [|p l IH]; intros i j; simpl; [f_equal; lia|]. rewrite IH, length_app. f_equal; [lia|]. change (list_fmap ptr (list ptr) (pool_members st) l) with (pool_members st <$> l). lia.
  - by apply (storage_steps SlotPools).
  - intros [i j] pp Hpp. destruct (hi_pool _ _ _ _ Hs pp Hpp) as (pn & Hpinv & _ & Hne).
    pose proof (pi_lookup _ _ _ _ _ Hpinv) as Hpn. pose proof (index_slot st pp pn Hpn) as Hg.
    assert (slot_get (SlotSelection pp) st = Some (pn_PoolElementSelectionStorage pn)) as Hg' by (simpl; by rewrite Hpn).
    pose proof (pi_selection _ _ _ _ _ Hpinv) as Hsel%sel_inv_clean. pose proof (pi_index _ _ _ _ _ Hpinv) as Hidx.
    assert (pool_members st pp = st_list (pn_PoolElementIndexStorage pn)) as Hm by (unfold pool_members; by rewrite Hpn).
    rewrite (run_bind _ _ _ _ _ (storageVerify_run _ _ _ Hg Hidx)), (run_bind _ _ _ _ _ (storageVerify_run _ _ _ Hg' Hsel)).
    rewrite (run_bind _ _ _ _ _ (storageGetElements_spec _ _ _ Hg' Hsel)), (run_bind _ _ _ _ _ (storageGetElements_spec _ _ _ Hg Hidx)).
    erewrite run_bind; [|apply run_check, Z.eqb_eq; f_equal; symmetry; apply Permutation_length, Hpinv].
    unfold poolNodeGetPoolElementNodes. rewrite (run_bind _ _ _ _ _ (storageGetElements_spec _ _ _ Hg Hidx)).
    erewrite run_bind; [by rewrite Hm|]. apply run_check, Z.ltb_lt.
    destruct Hne as [HE|Hne]; [by apply not_elem_of_nil in HE|]. destruct (st_list (pn_PoolElementIndexStorage pn)); [done|simpl; lia].
  - done.
Qed.

Lemma verify_run st : hs_inv st → poolHandlespaceNodeVerify st = Some (tt, st).
Proof.
  intros Hi. pose proof Hi as [Hs Ha]. pose proof (hi_pools _ _ _ _ Hs) as HP. pose proof (hi_timer _ _ _ _ Hs) as HT.
  pose proof (hi_ownership _ _ _ _ Hs) as HO. unfold poolHandlespaceNodeVerify.
  erewrite run_bind; [|by apply (storageGetElements_spec SlotPools st (hs_PoolIndexStorage st))]. erewrite run_bind; [|done].
  erewrite run_bind; [|by apply (storageGetElements_spec SlotTimer st (hs_PoolElementTimerStorage st))].
  erewrite run_bind; [|by apply (storageGetElements_spec SlotOwnership st (hs_PoolElementOwnershipStorage st))].
  erewrite run_bind; [|by apply (storageVerify_run SlotPools st (hs_PoolIndexStorage st))]. erewrite run_bind; [|by apply (storageVerify_run SlotTimer st (hs_PoolElementTimerStorage st))].
  erewrite run_bind; [|by apply (storageVerify_run SlotOwnership st (hs_PoolElementOwnershipStorage st))].
  erewrite run_bind; [|by apply (countWalk_run SlotTimer st (hs_PoolElementTimerStorage st))]. erewrite run_bind; [|apply run_check, Z.eqb_refl].
  erewrite run_bind; [|done]. erewrite run_bind; [|unfold storageFuel; by apply (storageRead_eq SlotOwnership)].
  erewrite run_bind; [|by apply (storageGetFirst_spec SlotOwnership st (hs_PoolElementOwnershipStorage st))].
  erewrite run_bind; [|by apply ownership_walk_run]. cbv iota.
  erewrite run_bind; [|apply run_check, Z.eqb_refl]. erewrite run_bind; [|done].
  set (home := hs_HomeRegistrarIdentifier st).
  erewrite run_bind; [|apply run_check; destruct (Z.eqb_spec home UNDEFINED_REGISTRAR_IDENTIFIER); [done|];
    apply Z.eqb_eq; rewrite (ha_owned_count _ Ha); by apply owned_count_length].
  erewrite run_bind; [|unfold storageFuel; by apply (storageRead_eq SlotPools)].
  erewrite run_bind; [|by apply (storageGetFirst_spec SlotPools st (hs_PoolIndexStorage st))].
  erewrite run_bind; [|by apply pools_walk_run]. cbv iota.
  erewrite run_bind; [|apply run_check, Z.eqb_refl].
  erewrite run_bind; [|apply run_check, Z.eqb_eq; rewrite (ha_count _ Ha); symmetry; by apply members_count].
  erewrite run_bind; [|apply run_check, Z.leb_le; rewrite (ha_count _ Ha); apply members_count_le; [by eapply slot_inv_nodup|]].
  2:{ intros p Hp. destruct (si_valid _ _ _ HO p Hp) as (n & h & Hn & Hh). exists n. split; [done|].
      intros Ho. unfold owner_handle in Hh. by rewrite Ho in Hh. }
  erewrite run_bind; [|done]. erewrite run_bind; [|by apply computeHandlespaceChecksum_run].
  erewrite run_bind; [|apply run_check, Z.eqb_refl].
  destruct (Z.eqb_spec home UNDEFINED_REGISTRAR_IDENTIFIER) as [Hz|Hnz]; simpl (negb _); cbv iota; [done|].
  erewrite run_bind; [|done]. erewrite run_bind; [|by apply computeOwnershipChecksum_run].
  apply run_check, Z.eqb_eq. by apply ownershipChecksum_owned.
Qed.
End verify.
