(* ===== verification/HandlespaceUpdate.v ===== *)
(** * Registration and removal in the handlespace

    [poolHandlespaceNodeUpdatePoolElementNode],
    [poolHandlespaceNodeAddOrUpdatePoolElementNode] and
    [poolHandlespaceNodeRemovePoolElementNode]: their results on every
    branch, and that they keep [hs_inv]. *)

From S2P Require Import Prelude Checksum Addresses PoolBasics Storage PoolElement PoolPolicy HandlespaceState PoolNode PoolEffects PoolSelection HandlespaceNode HandlespaceInv HandlespaceOps HandlespaceEffects.
From stdpp Require Import base list gmap numbers option sorting sets.
#[local] Open Scope Z_scope.

Section update.
Context {ST : Type} `{SL : StorageLaws ST} `{En : Endian}.
Abbreviation HS := (Handlespace ST).
Implicit Types (st : HS) (pn : PoolNode ST) (p q pp : ptr) (E X XO XC : list ptr).

(** Assignments to members that no other part of the state depends on. *)
Lemma hs_inv_store st p n n' : hs_inv st → hs_PoolElementNodes st !! p = Some n → pen_wf n' → pe_core_same n n' →
  pen_TimerTimeStamp n' = pen_TimerTimeStamp n → pen_HomeRegistrarIdentifier n' = pen_HomeRegistrarIdentifier n →
  pen_ConnectionSocketDescriptor n' = pen_ConnectionSocketDescriptor n →
  pen_ConnectionAssocID n' = pen_ConnectionAssocID n → pen_Checksum n' = pen_Checksum n → hs_inv (pe_store p n' st).
Proof.
  intros [Hs Ha] Hn Hwf Hcore Ht Hh Hsd Hassoc Hck. split.
  - apply (hs_struct_store [] [] [] st p n n'); try done; by left.
  - eapply hs_acct_store; try done; apply Hcore.
Qed.

Lemma hs_inv_flags st p n f : hs_inv st → hs_PoolElementNodes st !! p = Some n → hs_inv (pe_store p (set_Flags f n) st).
Proof. intros Hi Hn. apply (hs_inv_store st p n); try done. exact (hi_wf _ _ _ _ (proj1 Hi) p n Hn). Qed.

(** The element [n'] after the update of [n] with [source]. *)
Definition pe_updated (source n n' : PoolElementNode) : Prop :=
  pen_Identifier n' = pen_Identifier n ∧ pen_Checksum n' = pen_Checksum n ∧
  pen_OwnerPoolNode n' = pen_OwnerPoolNode n ∧ pen_PolicySettings n' = pen_PolicySettings source ∧
  pen_HomeRegistrarIdentifier n' = pen_HomeRegistrarIdentifier source ∧
  pen_ConnectionSocketDescriptor n' = pen_ConnectionSocketDescriptor source ∧
  pen_ConnectionAssocID n' = pen_ConnectionAssocID source ∧ pen_TimerCode n' = pen_TimerCode n.

(** Counters after an operation that neither adds nor removes. *)
Definition same_counts st st' : Prop :=
  hs_PoolElements st' = hs_PoolElements st ∧ hs_HandlespaceChecksum st' = hs_HandlespaceChecksum st ∧
  hs_HomeRegistrarIdentifier st' = hs_HomeRegistrarIdentifier st ∧
  hs_PoolIndexStorage st' = hs_PoolIndexStorage st ∧
  hs_PoolElementTimerStorage st' = hs_PoolElementTimerStorage st ∧
  hs_PoolNodeUpdateNotification st' = hs_PoolNodeUpdateNotification st.

Lemma same_counts_trans st1 st2 st3 : same_counts st1 st2 → same_counts st2 st3 → same_counts st1 st3.
Proof. intros (? & ? & ? & ? & ? & ?) (? & ? & ? & ? & ? & ?). repeat split; congruence. Qed.

Lemma same_counts_frame X pp st st' : pool_frame X pp st st' → same_counts st st'.
Proof. intros Hf. by destruct (pool_frame_rest _ _ _ _ Hf) as (? & ? & ? & ? & ? & ? & ? & ? & ? & ? & ?). Qed.

Lemma updatePoolElementNode_spec st p n pp pn source : hs_inv st → hs_PoolElementNodes st !! p = Some n →
  pen_OwnerPoolNode n = Some pp → hs_PoolNodes st !! pp = Some pn → pen_wf source →
  poolNodeCheckPoolElementNodeCompatibility pn source = RSPERR_OKAY → ∃ st' n',
  poolHandlespaceNodeUpdatePoolElementNode p source st = Some (RSPERR_OKAY, st') ∧ hs_inv st' ∧
  hs_PoolElementNodes st' !! p = Some n' ∧ pe_updated source n n' ∧ others_same p st st' ∧ same_counts st st' ∧
  (∃ pn', hs_PoolNodes st' !! pp = Some pn' ∧ pool_same pn pn') ∧
  hs_Notifications st' = notified st p PNUA_Update (pen_Checksum n) (pen_HomeRegistrarIdentifier n) n'.
Proof.
  intros Hi Hn Ho Hpn Hwfs Hc. pose proof Hi as [Hs Ha]. pose proof (hi_owner _ _ _ _ Hs p n pp Hn Ho) as Hpp.
  destruct (hi_pool _ _ _ _ Hs pp Hpp) as (pn0 & Hpinv & _). pose proof (pi_lookup _ _ _ _ _ Hpinv). simplify_eq.
  destruct (poolNodeUpdate_spec st pp pn p n source) as (st1 & pn1 & n1 & Hrun1 & Hpinv1 & Hf1 & Hsame1 & Hidx1 & Hn1 & Ho1 & Hst1 & Hps1); try done.
  assert (hs_inv st1) as Hi1 by (eapply (hs_inv_pool_op pp st st1 pn pn1); try done; by rewrite Hidx1).
  destruct (updateConnection_spec st1 p n1 (pen_ConnectionSocketDescriptor source) (pen_ConnectionAssocID source))
    as (st2 & n2 & Hrun2 & Hs2 & Hn2 & Hn2eq & sC & Hst2); [apply Hi1|done|by rewrite Ho1|].
  assert (hs_inv st2) as Hi2.
  { split; [done|]. eapply (hs_acct_ext (pe_store p n2 st1)); try (by rewrite Hst2).
    eapply hs_acct_store; [apply Hi1|exact Hn1|by rewrite Hn2eq..]. }
  assert (pen_OwnerPoolNode n2 ≠ None) as Ho2 by (rewrite Hn2eq; simpl; by rewrite Ho1).
  destruct (updateOwnership_spec st2 p n2 (pen_HomeRegistrarIdentifier source))
    as (st3 & Hrun3 & Hi3 & He3 & Hp3 & Hh3 & Hix3 & Ht3 & Hc3 & Hcnt3 & Hsum3 & Hfl3 & Hnot3); [done|done|done|apply Hwfs|].
  set (n3 := moved_node (pen_HomeRegistrarIdentifier source) n2) in *.
  assert (hs_PoolElementNodes st3 !! p = Some n3) as Hn3 by (rewrite He3; apply lookup_insert_eq).
  destruct (moved_node_facts (pen_HomeRegistrarIdentifier source) n2) as (_ & Hcore & Hhome & _ & Hsd & Has);
    [apply Hwfs|exact (hi_wf _ _ _ _ Hs2 p n2 Hn2)|]. fold n3 in Hcore, Hhome, Hsd, Has.
  assert (pen_Checksum n3 = pen_Checksum n) as Hck.
  { transitivity (pen_Checksum n2); [unfold n3, moved_node; by destruct (_ =? _)|]. rewrite Hn2eq. apply Hst1. }
  set (n4 := set_Flags (flag_clear (pen_Flags n3) PENF_NEW) n3).
  exists (pe_store p n4 st3), n4. split; [|split; [|split; [|split; [|split; [|split; [|split]]]]]].
  - unfold poolHandlespaceNodeUpdatePoolElementNode. rewrite (run_bind _ _ _ _ _ (pe_get_run _ _ _ Hn)).
    erewrite run_bind; [|unfold deref; by rewrite Ho]. rewrite (run_bind _ _ _ _ _ Hrun1). simpl (_ =? _). cbv iota.
    rewrite (run_bind _ _ _ _ _ Hrun2), (run_bind _ _ _ _ _ Hrun3), (run_bind _ _ _ _ _ (pe_update_run _ _ _ _ Hn3)). done.
  - by apply hs_inv_flags.
  - simpl. apply lookup_insert_eq.
  - destruct Hcore as (Hci & Hco & _ & _ & _ & Hcp & _). destruct Hst1 as (Hsi & _ & _ & _ & Htc & _).
    assert (pen_TimerCode n3 = pen_TimerCode n2) as Htc3 by (unfold n3, moved_node; by destruct (_ =? _)).
    unfold pe_updated. simpl. rewrite Hci, Hco, Hcp, Hhome, Hsd, Has, Hck, Htc3, Hn2eq. simpl. rewrite Hsi, Ho1. done.
  - apply (others_same_trans _ _ st1); [eapply (others_same_frame p pp), pool_frame_weaken; [by eauto| |exact Hf1]; set_solver|].
    apply (others_same_trans _ _ (pe_store p n2 st1)); [apply others_same_store; eauto|].
    apply (others_same_trans _ _ st2); [apply others_same_heap; by rewrite Hst2|].
    apply (others_same_trans _ _ (pe_store p n3 st2)); [apply others_same_store; eauto|].
    apply (others_same_trans _ _ st3); [by apply others_same_heap|]. apply others_same_store; eauto.
  - apply (same_counts_trans _ st1); [by eapply same_counts_frame|].
    apply (same_counts_trans _ st2); [by rewrite Hst2|]. by repeat split.
  - exists pn1. split; [|done]. simpl. rewrite Hp3, Hst2. simpl. apply Hpinv1.
  - simpl. rewrite Hnot3. destruct (pool_frame_rest _ _ _ _ Hf1) as (_ & _ & _ & _ & _ & _ & _ & _ & _ & Hfl & Hno).
    unfold notified. rewrite Hst2. simpl. rewrite Hfl, Hno, Hn2eq. simpl.
    destruct Hst1 as (_ & -> & -> & _). done.
Qed.
(** ** A new element *)

(** The element [n'] that [n] has become in pool [pp] with handle [h]. *)
Definition pe_registered h pp (n n' : PoolElementNode) : Prop :=
  pen_Identifier n' = pen_Identifier n ∧ pen_OwnerPoolNode n' = Some pp ∧
  pen_Checksum n' = poolElementNodeComputeChecksum h n ∧ pen_PolicySettings n' = pen_PolicySettings n ∧
  pen_HomeRegistrarIdentifier n' = pen_HomeRegistrarIdentifier n ∧
  pen_ConnectionSocketDescriptor n' = pen_ConnectionSocketDescriptor n ∧
  pen_ConnectionAssocID n' = pen_ConnectionAssocID n ∧
  pen_UserTransport n' = pen_UserTransport n ∧ pen_RegistratorTransport n' = pen_RegistratorTransport n ∧
  pen_Flags n' = flag_set (flag_set (pen_Flags n) PENF_UPDATED) PENF_NEW.

(** The steps of the C code after the element was linked. *)
Definition accountNew p : M HS (Z * bool) :=
  c ← refreshChecksum p;
  addHandlespaceChecksum c;;
  n ← pe_get p;
  addOwned (pen_HomeRegistrarIdentifier n) c;;
  notify p PNUA_Create INITIAL_HANDLESPACE_CHECKSUM UNDEFINED_REGISTRAR_IDENTIFIER;;
  pe_update p (λ n, set_Flags (flag_set (pen_Flags n) PENF_NEW) n);;
  mret (RSPERR_OKAY, true).

Lemma accountNew_run st p n h : hs_PoolElementNodes st !! p = Some n → owner_handle st n = Some h →
  is_u32 (hs_OwnershipChecksum st) → 0 <= hs_OwnedPoolElements st < 2 ^ 62 →
  let c := poolElementNodeComputeChecksum h n in
  let b := pen_HomeRegistrarIdentifier n =? hs_HomeRegistrarIdentifier st in
  let n' := set_Flags (flag_set (pen_Flags n) PENF_NEW) (set_Checksum c n) in ∃ st',
  accountNew p st = Some ((RSPERR_OKAY, true), st') ∧ same_frame st st' ∧
  hs_PoolElementNodes st' = <[p := n']> (hs_PoolElementNodes st) ∧
  hs_HandlespaceChecksum st' = u32 (hs_HandlespaceChecksum st + c) ∧
  hs_OwnershipChecksum st' = u32 (hs_OwnershipChecksum st + when b c) ∧
  hs_PoolElements st' = hs_PoolElements st ∧ hs_OwnedPoolElements st' = hs_OwnedPoolElements st + when b 1 ∧
  hs_Notifications st' = notified st p PNUA_Create INITIAL_HANDLESPACE_CHECKSUM UNDEFINED_REGISTRAR_IDENTIFIER n'.
Proof.
  intros Hn Hh Hu Hb c b n'. unfold accountNew. erewrite run_bind; [|apply refreshChecksum_run; [exact Hn|exact Hh]]. cbv beta.
  erewrite run_bind; [|done]. cbv beta.
  erewrite run_bind; [|apply pe_get_run; simpl; apply lookup_insert_eq]. cbv beta.
  erewrite run_bind; [|apply addOwned_run; simpl; [done|lia]]. cbv beta.
  erewrite run_bind; [|apply notify_run; simpl; apply lookup_insert_eq]. cbv beta.
  erewrite run_bind; [|apply pe_update_run; simpl; apply lookup_insert_eq]. cbv beta.
  eexists. split; [done|]. split; [done|]. split; [|done]. simpl. by rewrite insert_insert_eq.
Qed.

Lemma addNew_spec E st pp pn p n : hs_struct E [] [] st → hs_acct st → E ⊆ [pp] → pp ∈ st_list (hs_PoolIndexStorage st) →
  hs_PoolNodes st !! pp = Some pn → hs_PoolElementNodes st !! p = Some n → pen_OwnerPoolNode n = None →
  poolNodeCheckPoolElementNodeCompatibility pn n = RSPERR_OKAY →
  (∀ q m, hs_PoolElementNodes st !! q = Some m → pen_OwnerPoolNode m = Some pp → pen_Identifier m ≠ pen_Identifier n) →
  hs_PoolElements st + 1 < 2 ^ 31 → ∃ st2 st' n',
  poolHandlespaceNodeAddPoolElementNode pp p st = Some ((Some p, RSPERR_OKAY), st2) ∧
  accountNew p st2 = Some ((RSPERR_OKAY, true), st') ∧ hs_inv st' ∧ hs_PoolElementNodes st' !! p = Some n' ∧
  pe_registered (pn_Handle pn) pp n n' ∧ others_same p st st' ∧ hs_PoolElements st' = hs_PoolElements st + 1 ∧
  hs_HandlespaceChecksum st' = u32 (hs_HandlespaceChecksum st + pen_Checksum n') ∧
  hs_HomeRegistrarIdentifier st' = hs_HomeRegistrarIdentifier st ∧ hs_PoolIndexStorage st' = hs_PoolIndexStorage st ∧
  hs_PoolElementTimerStorage st' = hs_PoolElementTimerStorage st ∧
  hs_PoolNodeUpdateNotification st' = hs_PoolNodeUpdateNotification st ∧
  hs_Notifications st' = notified st p PNUA_Create INITIAL_HANDLESPACE_CHECKSUM UNDEFINED_REGISTRAR_IDENTIFIER n'.
Proof.
  intros Hs Ha HE Hpp Hpn Hn Ho Hc Hnew Hb. destruct (hi_pool _ _ _ _ Hs pp Hpp) as (pn0 & Hpinv & _).
  pose proof (pi_lookup _ _ _ _ _ Hpinv). simplify_eq.
  destruct (addPoolElementNode_new E st pp pn p n) as (st1 & sO & sC & n1 & Hrun1 & Hs2 & Hf1 & Hn1 & Hadd & Hh1); try done.
  set (st2 := hs_set_PoolElementConnectionStorage sC (hs_set_PoolElementOwnershipStorage sO
    (hs_set_PoolElements (u64 (hs_PoolElements st1 + 1)) st1))) in *.
  destruct (pool_frame_rest _ _ _ _ Hf1) as (Ri & Rt & _ & _ & Rs & Ros & Rh & Rc & Roc & Rfl & Rn).
  destruct Hadd as ((Hi1 & Hck1 & Hho1 & Hts1 & _ & Hsd1 & Has1 & Hut1 & Hrt1) & Ho1 & Hps1 & Hflags1).
  assert (0 <= hs_OwnedPoolElements st < 2 ^ 31 ∧ 0 <= hs_PoolElements st) as [Hob Hcb].
  { pose proof (msum_nonneg (owned_count (hs_HomeRegistrarIdentifier st)) (hs_PoolElementNodes st) (owned_count_nonneg _)).
    pose proof (msum_le _ _ (hs_PoolElementNodes st) (owned_count_le (hs_HomeRegistrarIdentifier st))).
    pose proof (ha_owned_count _ Ha). pose proof (ha_count _ Ha). lia. }
  assert (is_u32 (hs_OwnershipChecksum st)) as Hou by (rewrite (ha_owned_sum _ Ha); apply wrap_in_width; lia).
  destruct (accountNew_run st2 p n1 (pn_Handle pn)) as (st' & Hrun2 & (Fp & Fi & Ft & Fo & Fc & Fh & Ffl) & He & Hsum & Hosum & Hcnt & Hocnt & Hnot);
    [done|done|simpl; by rewrite Ros|simpl; rewrite Roc; lia|].
  set (c := poolElementNodeComputeChecksum (pn_Handle pn) n1) in *.
  set (n' := set_Flags (flag_set (pen_Flags n1) PENF_NEW) (set_Checksum c n1)) in *.
  assert (c = poolElementNodeComputeChecksum (pn_Handle pn) n) as Hceq by (unfold c, poolElementNodeComputeChecksum; by rewrite Hi1).
  assert (hs_PoolElementNodes st' !! p = Some n') as Hn' by (rewrite He; apply lookup_insert_eq).
  assert (pen_OwnerPoolNode n' ≠ None) as Ho' by (simpl; by rewrite Ho1).
  assert (others_same p st st') as Hos.
  { apply (others_same_trans _ _ st1); [by eapply (others_same_frame p pp); [eauto|]|].
    apply (others_same_trans _ _ (pe_store p n' st1)); [apply others_same_store; eauto|]. by apply others_same_heap. }
  assert (hs_PoolElements st' = hs_PoolElements st + 1) as Hcnt'.
  { rewrite Hcnt. simpl (hs_PoolElements st2). rewrite Rc, wrap_small; [done|]. unfold in_width. lia. }
  simpl in Hsum, Hosum, Hocnt. rewrite Rs in Hsum. rewrite Ros, Rh in Hosum. rewrite Roc, Rh in Hocnt.
  exists st2, st', n'. split; [done|]. split; [done|]. split; [split|].
  - apply (hs_struct_counters _ _ _ (pe_store p n' st2)); try done.
    apply (hs_struct_store [] [] [] st2 p n1 n'); try done; [|by left|by left].
    pose proof (hi_wf _ _ _ _ Hs2 p n1 Hn1) as Hwf1. unfold pen_wf in *. simpl. split_and!; try apply Hwf1. apply computeChecksum_width.
  - destruct (member_owned_when (hs_HomeRegistrarIdentifier st) n' Ho') as (Hm1 & Hm2 & Hm3 & Hm4).
    assert (is_member n = false) as Hnm by (unfold is_member; by rewrite bool_decide_false by naive_solver).
    apply (hs_acct_change p st st' n n'); try done.
    + by eapply hs_struct_pools_valid.
    + by rewrite Fh, <- Rh.
    + intros h Hoh. simpl. assert (owner_handle st' n' = owner_handle st1 n1) as Heq by (unfold owner_handle; by rewrite Fp).
      rewrite Heq, Hh1 in Hoh. by injection Hoh as <-.
    + rewrite Hm1. unfold member_checksum. rewrite Hnm, Hsum. f_equal. simpl. lia.
    + rewrite Hm3. unfold owned_checksum, is_owned. rewrite Hnm, Hosum. f_equal. simpl. lia.
    + rewrite Hm2, Hcnt'. unfold member_count. rewrite Hnm. lia.
    + rewrite Hm4, Hocnt. unfold owned_count, is_owned. rewrite Hnm. simpl. lia.
    + lia.
  - split; [done|]. split; [unfold pe_registered; simpl; by rewrite Hi1, Ho1, Hceq, Hps1, Hho1, Hsd1, Has1, Hut1, Hrt1, Hflags1|].
    split; [done|]. split; [done|]. split; [done|]. split; [by rewrite Fh, <- Rh|]. split; [by rewrite Fi, <- Ri|].
    split; [by rewrite Ft, <- Rt|]. split; [by rewrite Ffl, <- Rfl|]. rewrite Hnot. unfold notified. simpl. by rewrite Rfl, Rn.
Qed.
(** ** Adding or updating *)

(** Memory prepared for a registration: a pool and an element that are not
    linked anywhere. *)
Definition candidate st pp pn p n : Prop :=
  hs_PoolNodes st !! pp = Some pn ∧ pp ∉ st_list (hs_PoolIndexStorage st) ∧
  hs_PoolElementNodes st !! p = Some n ∧ pen_OwnerPoolNode n = None.

(** What [poolHandlespaceNodeAddPoolNode] leaves: the pool [q] with the
    handle of the candidate, linked. *)
Lemma addPoolNode_target st pp pn : hs_inv st → hs_PoolNodes st !! pp = Some pn → pp ∉ st_list (hs_PoolIndexStorage st) →
  ∃ q pnq st1 E,
  poolHandlespaceNodeAddPoolNode pp st = Some (q, st1) ∧ hs_struct E [] [] st1 ∧ hs_acct st1 ∧ E ⊆ [q] ∧
  q ∈ st_list (hs_PoolIndexStorage st1) ∧ hs_PoolNodes st1 !! q = Some pnq ∧ pn_Handle pnq = pn_Handle pn ∧
  (∀ p, others_same p st st1) ∧ hs_PoolElementNodes st1 = hs_PoolElementNodes st ∧
  hs_PoolElementTimerStorage st1 = hs_PoolElementTimerStorage st ∧ hs_HandlespaceChecksum st1 = hs_HandlespaceChecksum st ∧
  hs_PoolElements st1 = hs_PoolElements st ∧ hs_HomeRegistrarIdentifier st1 = hs_HomeRegistrarIdentifier st ∧
  hs_PoolNodeUpdateNotification st1 = hs_PoolNodeUpdateNotification st ∧
  (∀ p a c h n, notified st1 p a c h n = notified st p a c h n) ∧
  ((q ≠ pp ∧ st1 = st ∧ E = [] ∧ pool_of st (pn_Handle pn) q) ∨
   (q = pp ∧ (∀ q', ¬ pool_of st (pn_Handle pn) q') ∧ pnq = pn_set_OwnerPoolHandlespaceNode true pn ∧
    pool_inv [] [] st1 pp pnq ∧ st_list (pn_PoolElementIndexStorage pnq) = [] ∧ E = [pp] ∧
    ∃ s', st1 = pool_store pp pnq (hs_set_PoolIndexStorage s' st) ∧ st_list s' ≡ₚ pp :: st_list (hs_PoolIndexStorage st))).
Proof.
  intros [Hs Ha] Hpn Hnin. destruct (addPoolNode_spec st pp pn Hs Hpn Hnin)
    as [(q & (Hq & pnq & Hpnq & Hh) & Hrun)|(s' & Hnone & Hrun & Hs1 & Hperm & Hpinv & Hempty)].
  - exists q, pnq, st, []. split; [done|]. split; [done|]. split; [done|]. split; [set_solver|].
    do 3 (split; [done|]). split; [intros; apply others_same_refl|]. do 7 (split; [done|]).
    left. split; [intros ->; done|]. split; [done|]. split; [done|]. split; [done|]. eauto.
  - set (pn' := pn_set_OwnerPoolHandlespaceNode true pn) in *. set (st1 := pool_store pp pn' (hs_set_PoolIndexStorage s' st)) in *.
    assert (same_handles st st1) as Hsame.
    { split; [done|]. intros q. simpl. destruct (decide (q = pp)) as [->|]; [by rewrite lookup_insert_eq, Hpn|by rewrite lookup_insert_ne]. }
    exists pp, pn', st1, [pp]. split; [done|]. split; [done|]. split; [by eapply (hs_acct_same_handles st)|]. split; [set_solver|].
    split; [simpl; rewrite Hperm; left|]. split; [simpl; apply lookup_insert_eq|]. split; [done|].
    split. { intros p. split; [intros r _; simpl; by destruct (hs_PoolElementNodes st !! r)|]. intros r. by apply Hsame. }
    do 7 (split; [done|]). right. repeat (split; [done|]). by exists s'.
Qed.

Inductive registration_outcome st pp pn p n : AddResult → HS → Prop :=
| RegistrationRefused err st' q pnq :
    poolNodeCheckPoolElementNodeCompatibility pnq n = err → err ≠ RSPERR_OKAY →
    (pool_of st (pn_Handle pn) q ∧ hs_PoolNodes st !! q = Some pnq ∨
     (∀ q', ¬ pool_of st (pn_Handle pn) q') ∧ pnq = pn_set_OwnerPoolHandlespaceNode true pn) →
    hs_PoolElementNodes st' = hs_PoolElementNodes st →
    st_list (hs_PoolIndexStorage st') ≡ₚ st_list (hs_PoolIndexStorage st) →
    (∀ r, others_same r st st') → hs_PoolElementTimerStorage st' = hs_PoolElementTimerStorage st →
    hs_PoolNodeUpdateNotification st' = hs_PoolNodeUpdateNotification st →
    hs_Notifications st' = hs_Notifications st →
    registration_outcome st pp pn p n (MkAddResult None err false false) st'
| RegistrationUpdated st' q e m m' pn' :
    hs_PoolNodes st' !! q = Some pn' → poolNodeCheckPoolElementNodeCompatibility pn' n = RSPERR_OKAY →
    pool_of st (pn_Handle pn) q → hs_PoolElementNodes st !! e = Some m → pen_OwnerPoolNode m = Some q →
    pen_Identifier m = pen_Identifier n → hs_PoolElementNodes st' !! e = Some m' → pe_updated n m m' →
    others_same e st st' → same_counts st st' →
    hs_Notifications st' = notified st e PNUA_Update (pen_Checksum m) (pen_HomeRegistrarIdentifier m) m' →
    registration_outcome st pp pn p n (MkAddResult (Some e) RSPERR_OKAY false false) st'
| RegistrationCreated st' q n' (b : bool) :
    (∀ r m, hs_PoolElementNodes st !! r = Some m → owner_handle st m = Some (pn_Handle pn) → pen_Identifier m ≠ pen_Identifier n) →
    (if b then q = pp ∧ (∀ q', ¬ pool_of st (pn_Handle pn) q') ∧
       st_list (hs_PoolIndexStorage st') ≡ₚ pp :: st_list (hs_PoolIndexStorage st)
     else pool_of st (pn_Handle pn) q ∧ hs_PoolIndexStorage st' = hs_PoolIndexStorage st) →
    hs_PoolElementNodes st' !! p = Some n' → pe_registered (pn_Handle pn) q n n' → others_same p st st' →
    hs_PoolElements st' = hs_PoolElements st + 1 →
    hs_HandlespaceChecksum st' = u32 (hs_HandlespaceChecksum st + pen_Checksum n') →
    hs_PoolElementTimerStorage st' = hs_PoolElementTimerStorage st →
    hs_PoolNodeUpdateNotification st' = hs_PoolNodeUpdateNotification st →
    hs_Notifications st' = notified st p PNUA_Create INITIAL_HANDLESPACE_CHECKSUM UNDEFINED_REGISTRAR_IDENTIFIER n' →
    registration_outcome st pp pn p n (MkAddResult (Some p) RSPERR_OKAY b true) st'.

(** Is there an element of pool [q] with this identifier? *)
Lemma element_decide st q id :
  (∃ e m, hs_PoolElementNodes st !! e = Some m ∧ pen_OwnerPoolNode m = Some q ∧ pen_Identifier m = id) ∨
  (∀ e m, hs_PoolElementNodes st !! e = Some m → pen_OwnerPoolNode m = Some q → pen_Identifier m ≠ id).
Proof.
  destruct (decide (map_Exists (λ _ m, pen_OwnerPoolNode m = Some q ∧ pen_Identifier m = id) (hs_PoolElementNodes st)))
    as [(e & m & ? & ? & ?)|Hno]; [left; eauto 10|].
  right. intros e m Hm Ho Hid. apply Hno. exists e, m. done.
Qed.

Lemma add_refused st q pnq p n : hs_PoolNodes st !! q = Some pnq → hs_PoolElementNodes st !! p = Some n →
  poolNodeCheckPoolElementNodeCompatibility pnq n ≠ RSPERR_OKAY →
  poolHandlespaceNodeAddPoolElementNode q p st = Some ((None, poolNodeCheckPoolElementNodeCompatibility pnq n), st).
Proof.
  intros Hq Hn Hc. unfold poolHandlespaceNodeAddPoolElementNode.
  by rewrite (run_bind _ _ _ _ _ (poolNodeAdd_incompatible _ _ _ _ _ Hq Hn Hc)).
Qed.

Lemma add_duplicate st q pnq p n e m : pool_inv [] [] st q pnq → hs_PoolElementNodes st !! p = Some n →
  pen_OwnerPoolNode n = None → poolNodeCheckPoolElementNodeCompatibility pnq n = RSPERR_OKAY →
  hs_PoolElementNodes st !! e = Some m → pen_OwnerPoolNode m = Some q → pen_Identifier m = pen_Identifier n →
  e ≠ p ∧ poolHandlespaceNodeAddPoolElementNode q p st = Some ((Some e, RSPERR_DUPLICATE_ID), st).
Proof.
  intros Hinv Hn Ho Hc Hm Hom Hid. assert (e ≠ p) as Hne by (intros ->; congruence). split; [done|].
  unfold poolHandlespaceNodeAddPoolElementNode.
  rewrite (run_bind _ _ _ _ _ (poolNodeAdd_duplicate _ _ _ _ _ _ _ Hinv Hn Ho Hc Hm Hom Hid)).
  rewrite bool_decide_false by congruence. done.
Qed.

(** A new pool that stays empty is unlinked again. *)
Lemma unlink_new_pool st pp pn st1 pn1 s' : hs_inv st → hs_PoolNodes st !! pp = Some pn →
  pp ∉ st_list (hs_PoolIndexStorage st) → pn1 = pn_set_OwnerPoolHandlespaceNode true pn →
  st1 = pool_store pp pn1 (hs_set_PoolIndexStorage s' st) → st_list s' ≡ₚ pp :: st_list (hs_PoolIndexStorage st) →
  hs_struct [pp] [] [] st1 → pool_inv [] [] st1 pp pn1 → st_list (pn_PoolElementIndexStorage pn1) = [] → ∃ st',
  poolHandlespaceNodeRemovePoolNode pp st1 = Some (pp, st') ∧ hs_inv st' ∧
  hs_PoolElementNodes st' = hs_PoolElementNodes st ∧
  st_list (hs_PoolIndexStorage st') ≡ₚ st_list (hs_PoolIndexStorage st) ∧ (∀ r, others_same r st st') ∧
  hs_PoolElementTimerStorage st' = hs_PoolElementTimerStorage st ∧
  hs_PoolNodeUpdateNotification st' = hs_PoolNodeUpdateNotification st ∧ hs_Notifications st' = hs_Notifications st.
Proof.
  intros [Hs Ha] Hpn Hnin Hpn1 Hst1 Hperm Hs1 Hpinv Hempty.
  destruct (removePoolNode_spec [pp] [] [] [] st1 pp pn1) as (s2 & Hrun & Hs2 & Hl); try done.
  { rewrite Hst1. simpl. rewrite Hperm. left. }
  { set_solver. }
  set (st2 := pool_store pp (pn_set_OwnerPoolHandlespaceNode false pn1) (hs_set_PoolIndexStorage s2 st1)) in *.
  assert (same_handles st st2) as Hsame.
  { unfold st2. rewrite Hst1, Hpn1. split; [done|]. intros q. simpl.
    destruct (decide (q = pp)) as [->|]; [by rewrite lookup_insert_eq, Hpn|by rewrite !lookup_insert_ne]. }
  exists st2. split; [done|]. split; [split; [done|by eapply (hs_acct_same_handles st); subst]|].
  split; [apply Hsame|]. split; [|split; [|by subst]].
  - simpl. rewrite Hl, Hst1. simpl. unfold l_remove. rewrite Hperm. rewrite filter_cons_False by naive_solver.
    change (l_remove pp (st_list (hs_PoolIndexStorage st)) ≡ₚ st_list (hs_PoolIndexStorage st)). by rewrite l_remove_not_elem.
  - intros r. destruct Hsame as [He Hh]. split; [intros x _; rewrite He; by destruct (hs_PoolElementNodes st !! x)|]. intros x. apply Hh.
Qed.

Lemma addOrUpdate_spec st pp pn p n : hs_inv st → candidate st pp pn p n → hs_PoolElements st + 1 < 2 ^ 31 →
  ∃ r st', poolHandlespaceNodeAddOrUpdatePoolElementNode pp p st = Some (r, st') ∧ hs_inv st' ∧
  registration_outcome st pp pn p n r st'.
Proof.
  intros Hi (Hpn & Hnin & Hn & Ho) Hb.
  destruct (addPoolNode_target st pp pn Hi Hpn Hnin) as (q & pnq & st1 & E & Hrun1 & Hs1 & Ha1 & HE & Hq & Hpnq & Hhq &
    Hos1 & He1 & Ht1 & Hsum1 & Hcnt1 & Hhome1 & Hfl1 & Hnot1 & Hcase).
  assert (hs_PoolElementNodes st1 !! p = Some n) as Hn1 by by rewrite He1.
  unfold poolHandlespaceNodeAddOrUpdatePoolElementNode. rewrite (run_bind _ _ _ _ _ Hrun1).
  destruct (decide (poolNodeCheckPoolElementNodeCompatibility pnq n = RSPERR_OKAY)) as [Hc|Hc].
  - destruct (element_decide st1 q (pen_Identifier n)) as [(e & m & Hm & Hom & Hid)|Hnew].
    + assert (q ≠ pp ∧ st1 = st ∧ E = [] ∧ pool_of st (pn_Handle pn) q) as (Hne & -> & -> & Hof).
      { destruct Hcase as [|(-> & _ & _ & Hpinv & Hempty & _)]; [done|]. pose proof (pi_member _ _ _ _ _ Hpinv e m Hm Hom) as Hin.
        rewrite Hempty in Hin. by apply not_elem_of_nil in Hin. }
      destruct (hi_pool _ _ _ _ Hs1 q Hq) as (pn0 & Hpinv & _). pose proof (pi_lookup _ _ _ _ _ Hpinv). simplify_eq.
      destruct (add_duplicate st q pnq p n e m) as [Hep Hrun2]; try done.
      destruct (updatePoolElementNode_spec st e m q pnq n) as (st' & m' & Hrun3 & Hi' & Hm' & Hup & Hos & Hcounts & (pn' & Hpn' & Hsame') & Hnot); try done.
      { exact (hi_wf _ _ _ _ Hs1 p n Hn). }
      eexists _, st'. split; [|split; [done|eapply RegistrationUpdated; try done; by rewrite (pool_same_compat pnq)]].
      rewrite (run_bind _ _ _ _ _ Hrun2). cbv beta iota. rewrite (bool_decide_false (e = p)) by done. simpl (negb _). cbv iota.
      erewrite run_bind; [|rewrite (run_bind _ _ _ _ _ (pe_get_run _ _ _ Hn)), (run_bind _ _ _ _ _ Hrun3); done].
      cbv beta iota. by rewrite bool_decide_false.
    + destruct (addNew_spec E st1 q pnq p n) as (st2 & st' & n' & Hrun2 & Hrun3 & Hi' & Hn' & Hreg & Hos & Hcnt & Hsum & Hhome & Hix & Ht & Hfl & Hnot);
        try done; [by rewrite Hcnt1|].
      exists (MkAddResult (Some p) RSPERR_OKAY (bool_decide (q = pp)) true), st'. split; [|split; [done|]].
      * rewrite (run_bind _ _ _ _ _ Hrun2). cbv beta iota. rewrite (bool_decide_true (p = p)) by done. simpl (negb _). cbv iota.
        erewrite run_bind; [|exact Hrun3]. cbv beta iota. by case_bool_decide.
      * eapply (RegistrationCreated _ _ _ _ _ _ q n'); try done; try congruence.
        -- intros r m Hm Hh. rewrite <- He1 in Hm. destruct (pen_OwnerPoolNode m) as [o|] eqn:Hom; [|by unfold owner_handle in Hh; rewrite Hom in Hh].
           apply (Hnew r m Hm). rewrite Hom. f_equal. pose proof (hi_owner _ _ _ _ Hs1 r m o Hm Hom) as Hoin.
           destruct (hi_pool _ _ _ _ Hs1 o Hoin) as (pno & Hpo & _). pose proof (pi_lookup _ _ _ _ _ Hpo) as Hlo.
           eapply (hs_struct_handle_inj E [] [] st1 o q); try done. rewrite Hhq.
           destruct (Hos1 r) as [_ Hhand]. unfold owner_handle in Hh. rewrite Hom in Hh. simpl in Hh.
           destruct (hs_PoolNodes st !! o) as [pno'|] eqn:Ho'; [|done]. specialize (Hhand o).
           rewrite Hlo, Ho' in Hhand. simpl in *. congruence.
        -- destruct Hcase as [(Hne & -> & _ & Hof)|(-> & Hnone & _ & _ & _ & _ & s' & -> & Hperm)].
           ++ rewrite bool_decide_false by done. done.
           ++ rewrite bool_decide_true by done. rewrite Hix. done.
        -- by eapply others_same_trans.
  - pose proof (add_refused st1 q pnq p n Hpnq Hn1 Hc) as Hrun2.
    destruct Hcase as [(Hne & -> & -> & Hof)|(-> & Hnone & Heq & Hpinv & Hempty & -> & s' & Hst1 & Hperm)].
    + exists (MkAddResult None (poolNodeCheckPoolElementNodeCompatibility pnq n) false false), st. split; [|split; [done|]].
      * rewrite (run_bind _ _ _ _ _ Hrun2). cbv beta iota. erewrite run_bind; [|done]. cbv beta iota. by rewrite bool_decide_false.
      * eapply (RegistrationRefused _ _ _ _ _ _ _ q pnq); try done; [by left].
    + destruct (unlink_new_pool st pp pn st1 pnq s') as (st' & Hrun3 & Hi' & He' & Hix' & Hos' & Ht' & Hfl' & Hnot'); try done.
      exists (MkAddResult None (poolNodeCheckPoolElementNodeCompatibility pnq n) false false), st'. split; [|split; [done|]].
      * rewrite (run_bind _ _ _ _ _ Hrun2). cbv beta iota. erewrite run_bind; [|done]. cbv beta iota.
        rewrite bool_decide_true by done. erewrite run_bind; [done|].
        rewrite (run_bind _ _ _ _ _ Hrun3). erewrite run_bind; [done|]. apply run_check. by rewrite bool_decide_true.
      * eapply (RegistrationRefused _ _ _ _ _ _ _ pp pnq); try done; [by right].
Qed.
(** ** Removal *)

Lemma unlinkElement_spec st p : hs_struct [] [] [] st → ∃ sT sO sC,
  let st' := hs_set_PoolElementConnectionStorage sC (hs_set_PoolElementOwnershipStorage sO
               (hs_set_PoolElementTimerStorage sT st)) in
  (removeIfLinked SlotTimer p;; removeIfLinked SlotOwnership p;; removeIfLinked SlotConnection p) st = Some (tt, st') ∧
  hs_struct [] [p] [p] st' ∧ st_list sT = l_remove p (st_list (hs_PoolElementTimerStorage st)) ∧
  st_list sO = l_remove p (st_list (hs_PoolElementOwnershipStorage st)) ∧
  st_list sC = l_remove p (st_list (hs_PoolElementConnectionStorage st)).
Proof.
  intros Hs.
  destruct (removeIfLinked_spec SlotTimer [] [] [] st (hs_PoolElementTimerStorage st) p) as (sT & Hrun1 & Hinv1 & Hl1); try done.
  set (st1 := hs_set_PoolElementTimerStorage sT st).
  assert (hs_struct [] [] [] st1) as Hs1
    by (eapply (hs_struct_storages [] [] [] [] [] st); [exact Hs|done..| | | | | | |]; try done; apply Hs).
  destruct (removeIfLinked_spec SlotOwnership [] [] [] st1 (hs_PoolElementOwnershipStorage st) p) as (sO & Hrun2 & Hinv2 & Hl2); try done.
  set (st2 := hs_set_PoolElementOwnershipStorage sO st1).
  assert (hs_struct [] [p] [] st2) as Hs2.
  { eapply (hs_struct_storages [] [] [] [p] [] st1); [exact Hs1|done..| | | | | | |]; try done; try apply Hs1; [|set_solver].
    intros q Hq Hx. simpl. rewrite Hl2, l_remove_elem. set_solver. }
  destruct (removeIfLinked_spec SlotConnection [] [p] [] st2 (hs_PoolElementConnectionStorage st) p) as (sC & Hrun3 & Hinv3 & Hl3); try done.
  exists sT, sO, sC. split; [by rewrite (run_bind _ _ _ _ _ Hrun1), (run_bind _ _ _ _ _ Hrun2)|].
  split; [|done].
  eapply (hs_struct_storages [] [p] [] [p] [p] st2); [exact Hs2|done..| | | | | | |]; try done; try apply Hs2; [|set_solver].
  intros q Hq Hx. simpl. rewrite Hl3, l_remove_elem. set_solver.
Qed.

Lemma removePoolElementNode_spec st p n pp pn : hs_inv st → hs_PoolElementNodes st !! p = Some n →
  pen_OwnerPoolNode n = Some pp → hs_PoolNodes st !! pp = Some pn → ∃ st' pn',
  let n' := set_OwnerPoolNode None n in
  poolHandlespaceNodeRemovePoolElementNode p st = Some (p, st') ∧
  hs_struct [pp] [] [] st' ∧ hs_acct st' ∧
  (st_list (pn_PoolElementIndexStorage pn') ≠ [] → hs_inv st') ∧
  pool_inv [] [] st' pp pn' ∧ pool_same pn pn' ∧
  st_list (pn_PoolElementIndexStorage pn') = l_remove p (st_list (pn_PoolElementIndexStorage pn)) ∧
  hs_PoolElementNodes st' = <[p := n']> (hs_PoolElementNodes st) ∧
  hs_PoolNodes st' = <[pp := pn']> (hs_PoolNodes st) ∧ others_same p st st' ∧
  hs_PoolElements st' = hs_PoolElements st - 1 ∧
  hs_HandlespaceChecksum st' = u32 (hs_HandlespaceChecksum st - pen_Checksum n) ∧
  hs_HomeRegistrarIdentifier st' = hs_HomeRegistrarIdentifier st ∧ hs_PoolIndexStorage st' = hs_PoolIndexStorage st ∧
  st_list (hs_PoolElementTimerStorage st') = l_remove p (st_list (hs_PoolElementTimerStorage st)) ∧
  st_list (hs_PoolElementOwnershipStorage st') = l_remove p (st_list (hs_PoolElementOwnershipStorage st)) ∧
  st_list (hs_PoolElementConnectionStorage st') = l_remove p (st_list (hs_PoolElementConnectionStorage st)) ∧
  hs_PoolNodeUpdateNotification st' = hs_PoolNodeUpdateNotification st ∧
  hs_Notifications st' = notified st p PNUA_Delete (pen_Checksum n) (pen_HomeRegistrarIdentifier n) n'.
Proof.
  intros [Hs Ha] Hn Ho Hpn. assert (pen_OwnerPoolNode n ≠ None) as Hnn by by rewrite Ho.
  destruct (unlinkElement_spec st p Hs) as (sT & sO & sC & Hrun1 & Hs1 & HlT & HlO & HlC).
  assert (∀ l, p ∉ l_remove p l) as Hout by (intros l; rewrite l_remove_elem; tauto).
  set (st1 := hs_set_PoolElementConnectionStorage sC (hs_set_PoolElementOwnershipStorage sO
    (hs_set_PoolElementTimerStorage sT st))) in *.
  pose proof (hi_owner _ _ _ _ Hs1 p n pp Hn Ho) as Hpp. destruct (hi_pool _ _ _ _ Hs1 pp Hpp) as (pn0 & Hpinv1 & _).
  pose proof (pi_lookup _ _ _ _ _ Hpinv1) as Hpn0. simpl in Hpn0. simplify_eq.
  destruct (poolNodeRemove_spec st1 pp pn p n) as (pn' & Hrun2 & Hpinv2 & Hf2 & Hsame2 & Hidx2); try done.
  set (n' := set_OwnerPoolNode None n) in *. set (st2 := pe_store p n' (pool_store pp pn' st1)) in *.
  assert (hs_PoolElementNodes st2 !! p = Some n') as Hn' by (simpl; apply lookup_insert_eq).
  assert (∀ E', pp ∈ E' ∨ st_list (pn_PoolElementIndexStorage pn') ≠ [] → hs_struct E' [] [] st2) as Hs2.
  { intros E' HE'. eapply (hs_struct_settle _ [p] [p]).
    - apply (hs_struct_frame [] E' [p] [p] [p] [p] [p] pp st1 st2 pn pn'); [done..| | | | | |].
      + intros q Hq. by apply not_elem_of_nil in Hq.
      + done.
      + done.
      + intros q m pp' Hq%list_elem_of_singleton [Hm|Hm] Hom; subst q.
        * simpl in Hm. congruence.
        * rewrite Hn' in Hm. injection Hm as <-. done.
      + intros q Hq%list_elem_of_singleton. subst q. simpl. by rewrite HlT, HlO, HlC.
      + intros q m Hq%list_elem_of_singleton Hm. subst q. rewrite Hn' in Hm. injection Hm as <-. split; [|by intros []].
        exact (hi_wf _ _ _ _ Hs p n Hn).
    - intros q m Hq%list_elem_of_singleton Hm Hom. subst q. rewrite Hn' in Hm. by injection Hm as <-.
    - intros q m Hq%list_elem_of_singleton Hm Hom. subst q. rewrite Hn' in Hm. by injection Hm as <-. }
  destruct (hs_acct_owned st p n Ha Hn Hnn) as (Hpos & Hob & Hcb & Hou & Hsu).
  set (b := pen_HomeRegistrarIdentifier n =? hs_HomeRegistrarIdentifier st).
  set (st3 := hs_set_Notifications (notified st p PNUA_Delete (pen_Checksum n) (pen_HomeRegistrarIdentifier n) n')
    (hs_set_OwnershipChecksum (u32 (hs_OwnershipChecksum st - when b (pen_Checksum n)))
      (hs_set_OwnedPoolElements (hs_OwnedPoolElements st - when b 1)
        (hs_set_HandlespaceChecksum (u32 (hs_HandlespaceChecksum st - pen_Checksum n))
          (hs_set_PoolElements (hs_PoolElements st - 1) st2))))).
  assert (∀ E', pp ∈ E' ∨ st_list (pn_PoolElementIndexStorage pn') ≠ [] → hs_struct E' [] [] st3) as Hs3.
  { intros E' HE'. by eapply (hs_struct_counters _ _ _ st2); [apply Hs2|..]. }
  assert (others_same p st st3) as Hos.
  { apply (others_same_trans _ _ st1); [by apply others_same_heap|].
    apply (others_same_trans _ _ st2); [by eapply (others_same_frame p pp); [eauto|]|by apply others_same_heap]. }
  assert (hs_acct st3) as Ha3.
  { destruct (member_owned_when (hs_HomeRegistrarIdentifier st) n Hnn) as (Hm1 & Hm2 & Hm3 & Hm4).
    assert (is_member n' = false) as Hnm by (unfold is_member; rewrite bool_decide_false; naive_solver).
    apply (hs_acct_change p st st3 n n'); try done.
    - by eapply hs_struct_pools_valid.
    - rewrite Hm1. unfold member_checksum. rewrite Hnm. simpl. f_equal. lia.
    - rewrite Hm3. unfold owned_checksum, is_owned. rewrite Hnm. simpl. fold b. f_equal. lia.
    - rewrite Hm2. unfold member_count. rewrite Hnm. simpl. lia.
    - rewrite Hm4. unfold owned_count, is_owned. rewrite Hnm. simpl. fold b. lia.
    - simpl. lia. }
  exists st3, pn'. simpl. split.
  { unfold poolHandlespaceNodeRemovePoolElementNode. rewrite (run_seq3 _ _ _ _ _ _ Hrun1).
    erewrite run_bind; [|by apply pe_get_run]. erewrite run_bind; [|unfold deref; by rewrite Ho].
    rewrite (run_bind _ _ _ _ _ Hrun2). erewrite run_bind; [|apply run_check; by rewrite bool_decide_true].
    erewrite run_bind; [|done]. erewrite run_bind; [|apply run_check; apply Z.ltb_lt; simpl; lia].
    erewrite run_bind; [|done]. erewrite run_bind; [|apply pe_get_run; simpl; apply lookup_insert_eq].
    erewrite run_bind; [|done]. erewrite run_bind; [|apply subtractOwned_run; done].
    erewrite run_bind; [|apply notify_run; simpl; apply lookup_insert_eq]. done. }
  split; [apply Hs3; left; left|]. split; [done|]. split; [intros Hne; split; [apply Hs3; by right|done]|].
  split; [eapply pool_inv_ext; [| |exact Hpinv2]; done|]. repeat (split; [done|]). done.
Qed.
End update.
