(* ===== verification/HandlespaceMgt.v ===== *)
(** * Handlespace management (poolhandlespacemanagement-template_impl.h)

    The interface of the handlespace: registration and deregistration with
    their memory management, handle resolution, extraction of handle tables
    and purging.  The results of [malloc] are arguments; the disposers of
    user data are parameters. *)

From S2P Require Import Prelude Checksum Addresses PoolBasics Storage PoolElement PoolPolicy HandlespaceState PoolNode PoolEffects PoolSelection HandlespaceNode.
From stdpp Require Import base list gmap numbers option.
#[local] Open Scope Z_scope.

Definition NTE_MAX_POOL_ELEMENT_NODES : Z := 1024.
Definition HTEF_START : Z := 1.
Definition HTEF_OWNCHILDSONLY : Z := 2.

Record PoolHandlespaceManagement {ST : Type} := MkManagement {
  phm_Handlespace : Handlespace ST;
  phm_NewPoolNode : option ptr;
  phm_NewPoolElementNode : option ptr
}.
Arguments PoolHandlespaceManagement : clear implicits.

(** The results of the allocations of one registration: the pool, the
    element, and the copies of the two address blocks. *)
Record Memory := MkMemory {
  mem_PoolNode : option ptr;
  mem_PoolElementNode : option ptr;
  mem_UserTransport : bool;
  mem_RegistratorTransport : bool
}.

Record HandleTableExtract := MkHandleTableExtract {
  hte_LastPoolHandle : PoolHandle;
  hte_LastPoolElementIdentifier : Z;
  hte_PoolElementNodeArray : list ptr
}.

Section mgt.
Context {ST : Type} `{Storage ST} `{Endian}.
Abbreviation HS := (Handlespace ST).
Abbreviation PHM := (PoolHandlespaceManagement ST).

(** The user's disposers; [None] is NULL. *)
Context (PoolNodeUserDataDisposer PoolElementNodeUserDataDisposer : option (ptr → M HS ())).

Definition phm_set_Handlespace (v : HS) (m : PHM) : PHM :=
  {| phm_Handlespace := v; phm_NewPoolNode := phm_NewPoolNode m; phm_NewPoolElementNode := phm_NewPoolElementNode m |}.
Definition phm_set_NewPoolNode (v : option ptr) (m : PHM) : PHM :=
  {| phm_Handlespace := phm_Handlespace m; phm_NewPoolNode := v; phm_NewPoolElementNode := phm_NewPoolElementNode m |}.
Definition phm_set_NewPoolElementNode (v : option ptr) (m : PHM) : PHM :=
  {| phm_Handlespace := phm_Handlespace m; phm_NewPoolNode := phm_NewPoolNode m; phm_NewPoolElementNode := v |}.

(** An operation on [&poolHandlespaceManagement->Handlespace]. *)
Definition onHandlespace {A} (f : M HS A) : M PHM A := λ m,
  match f (phm_Handlespace m) with
  | Some (a, st) => Some (a, phm_set_Handlespace st m)
  | None => None
  end.

Definition poolHandlespaceManagementNew (homeRegistrarIdentifier : Z) : PHM :=
  {| phm_Handlespace := poolHandlespaceNodeNew homeRegistrarIdentifier true;
     phm_NewPoolNode := None; phm_NewPoolElementNode := None |}.

Definition freeElement (p : ptr) : M HS () :=
  modify (λ st, hs_set_PoolElementNodes (delete p (hs_PoolElementNodes st)) st).
Definition freePool (pp : ptr) : M HS () :=
  modify (λ st, hs_set_PoolNodes (delete pp (hs_PoolNodes st)) st).

(** The address blocks are part of the element and are released with it. *)
Definition poolHandlespaceManagementPoolElementNodeDisposer (poolElementNode : ptr) : M HS () :=
  n ← pe_get poolElementNode;
  match PoolElementNodeUserDataDisposer with
  | Some f => if negb (pen_UserData n =? 0) then f poolElementNode else mret tt
  | None => mret tt
  end;;
  freeElement poolElementNode.

Definition poolHandlespaceManagementPoolNodeDisposer (poolNode : ptr) : M HS () :=
  pn ← pool_get poolNode;
  match PoolNodeUserDataDisposer with
  | Some f => if negb (pn_UserData pn =? 0) then f poolNode else mret tt
  | None => mret tt
  end;;
  freePool poolNode.

Definition poolHandlespaceManagementClear : M PHM () :=
  onHandlespace (poolHandlespaceNodeClear poolHandlespaceManagementPoolNodeDisposer
    poolHandlespaceManagementPoolElementNodeDisposer).

Definition poolHandlespaceManagementDelete : M PHM () :=
  poolHandlespaceManagementClear;;
  onHandlespace poolHandlespaceNodeDelete;;
  m ← get;
  match phm_NewPoolNode m with
  | Some pp => onHandlespace (freePool pp);; modify (phm_set_NewPoolNode None)
  | None => mret tt
  end;;
  m ← get;
  match phm_NewPoolElementNode m with
  | Some p => onHandlespace (freeElement p);; modify (phm_set_NewPoolElementNode None)
  | None => mret tt
  end.

Definition poolHandlespaceManagementGetHandlespaceChecksum : M PHM Z :=
  c ← onHandlespace poolHandlespaceNodeGetHandlespaceChecksum; mret (handlespaceChecksumFinish c).

Definition poolHandlespaceManagementGetOwnershipChecksum : M PHM Z :=
  c ← onHandlespace poolHandlespaceNodeGetOwnershipChecksum; mret (handlespaceChecksumFinish c).

Definition poolHandlespaceManagementVerify : M PHM () := onHandlespace poolHandlespaceNodeVerify.

Definition poolHandlespaceManagementFindPoolElement (poolHandle : PoolHandle) (poolElementIdentifier : Z) :
    M PHM (option ptr) :=
  onHandlespace (poolHandlespaceNodeFindPoolElementNode poolHandle poolElementIdentifier).

(** ** Deregistration *)

Definition deregisterByPtr (poolElementNode : ptr) : M HS Z :=
  n ← pe_get poolElementNode;
  _ ← poolHandlespaceNodeRemovePoolElementNode poolElementNode;
  poolElementNodeDelete poolElementNode;;
  poolHandlespaceManagementPoolElementNodeDisposer poolElementNode;;
  poolNode ← deref (λ _, pen_OwnerPoolNode n);
  elements ← poolNodeGetPoolElementNodes poolNode;
  (if elements =? 0 then
     _ ← poolHandlespaceNodeRemovePoolNode poolNode;
     poolNodeDelete poolNode;;
     poolHandlespaceManagementPoolNodeDisposer poolNode
   else mret tt);;
  mret RSPERR_OKAY.

Definition poolHandlespaceManagementDeregisterPoolElementByPtr (poolElementNode : ptr) : M PHM Z :=
  onHandlespace (deregisterByPtr poolElementNode).

Definition poolHandlespaceManagementDeregisterPoolElement (poolHandle : PoolHandle) (poolElementIdentifier : Z) : M PHM Z :=
  poolElementNode ← onHandlespace (poolHandlespaceNodeFindPoolElementNode poolHandle poolElementIdentifier);
  match poolElementNode with
  | Some p => poolHandlespaceManagementDeregisterPoolElementByPtr p
  | None => mret RSPERR_NOT_FOUND
  end.

(** ** Registration *)

(** The memory of the node to be added: what is left from before, or new. *)
Definition allocatePoolNode (mem : Memory) : M PHM (option ptr) :=
  m ← get;
  match phm_NewPoolNode m with
  | Some pp => mret (Some pp)
  | None => put (phm_set_NewPoolNode (mem_PoolNode mem) m);; mret (mem_PoolNode mem)
  end.

Definition allocatePoolElementNode (mem : Memory) : M PHM (option ptr) :=
  m ← get;
  match phm_NewPoolElementNode m with
  | Some p => mret (Some p)
  | None => put (phm_set_NewPoolElementNode (mem_PoolElementNode mem) m);; mret (mem_PoolElementNode mem)
  end.

(** [AddOrUpdate] sets the pointers of the nodes it uses to NULL. *)
Definition addOrUpdate (poolNode poolElementNode : ptr) : M PHM AddResult :=
  r ← onHandlespace (poolHandlespaceNodeAddOrUpdatePoolElementNode poolNode poolElementNode);
  modify (λ m, phm_set_NewPoolElementNode (if ar_ElementUsed r then None else phm_NewPoolElementNode m)
    (phm_set_NewPoolNode (if ar_PoolNodeUsed r then None else phm_NewPoolNode m) m));;
  mret r.

(** The time stamp, and the copies of the address blocks. *)
Definition completeRegistration (mem : Memory) (poolHandle : PoolHandle) (poolElementIdentifier : Z)
    (userTransport : TransportAddressBlock) (registratorTransport : option TransportAddressBlock)
    (currentTimeStamp : Z) (poolElementNode : ptr) : M PHM (option ptr * Z) :=
  onHandlespace (pe_update poolElementNode (set_LastUpdateTimeStamp currentTimeStamp));;
  let userTransportCopy := transportAddressBlockDuplicate (mem_UserTransport mem) (Some userTransport) in
  let registratorTransportCopy := transportAddressBlockDuplicate (mem_RegistratorTransport mem) registratorTransport in
  match userTransportCopy, bool_decide (registratorTransportCopy ≠ None) || bool_decide (registratorTransport = None) with
  | Some ut, true =>
      onHandlespace (pe_update poolElementNode (set_UserTransport ut));;
      onHandlespace (pe_update poolElementNode (set_RegistratorTransport registratorTransportCopy));;
      mret (Some poolElementNode, RSPERR_OKAY)
  | _, _ =>
      _ ← poolHandlespaceManagementDeregisterPoolElement poolHandle poolElementIdentifier;
      mret (None, RSPERR_OUT_OF_MEMORY)
  end.

Definition poolHandlespaceManagementRegisterPoolElement (mem : Memory) (poolHandle : PoolHandle)
    (homeRegistrarIdentifier poolElementIdentifier registrationLife : Z) (poolPolicySettings : PoolPolicySettings)
    (userTransport : TransportAddressBlock) (registratorTransport : option TransportAddressBlock)
    (connectionSocketDescriptor connectionAssocID currentTimeStamp : Z) : M PHM (option ptr * Z) :=
  if (ph_Size poolHandle <? 1) || (MAX_POOLHANDLESIZE <? ph_Size poolHandle)
  then mret (None, RSPERR_INVALID_POOL_HANDLE)
  else match poolPolicyGetPoolPolicyByType (pps_PolicyType poolPolicySettings) with
  | None => mret (None, RSPERR_INVALID_POOL_POLICY)
  | Some poolPolicy =>
      newPoolNode ← allocatePoolNode mem;
      match newPoolNode with
      | None => mret (None, RSPERR_OUT_OF_MEMORY)
      | Some pp =>
          pn ← deref (λ _, poolNodeNew poolHandle poolPolicy (tab_Protocol userTransport)
                 (if flag_test (tab_Flags userTransport) TABF_CONTROLCHANNEL then PNF_CONTROLCHANNEL else 0));
          onHandlespace (modify (pool_store pp pn));;
          newPoolElementNode ← allocatePoolElementNode mem;
          match newPoolElementNode with
          | None => mret (None, RSPERR_OUT_OF_MEMORY)
          | Some p =>
              onHandlespace (modify (pe_store p (poolElementNodeNew poolElementIdentifier homeRegistrarIdentifier
                registrationLife poolPolicySettings userTransport registratorTransport
                connectionSocketDescriptor connectionAssocID)));;
              r ← addOrUpdate pp p;
              if ar_ErrorCode r =? RSPERR_OKAY then
                e ← deref (λ _, ar_Element r);
                completeRegistration mem poolHandle poolElementIdentifier userTransport registratorTransport
                  currentTimeStamp e
              else mret (ar_Element r, ar_ErrorCode r)
          end
      end
  end.

Definition poolHandlespaceManagementRegisterPoolElementByPtr (mem : Memory) (poolHandle : PoolHandle)
    (original : PoolElementNode) (currentTimeStamp : Z) : M PHM (option ptr * Z) :=
  poolHandlespaceManagementRegisterPoolElement mem poolHandle (pen_HomeRegistrarIdentifier original)
    (pen_Identifier original) (pen_RegistrationLife original) (pen_PolicySettings original)
    (pen_UserTransport original) (pen_RegistratorTransport original)
    (pen_ConnectionSocketDescriptor original) (pen_ConnectionAssocID original) currentTimeStamp.

Definition poolHandlespaceManagementUpdateOwnershipOfPoolElementNode (poolElementNode : ptr)
    (newHomeRegistrarIdentifier : Z) : M PHM () :=
  onHandlespace (poolHandlespaceNodeUpdateOwnershipOfPoolElementNode poolElementNode newHomeRegistrarIdentifier).

Definition poolHandlespaceManagementUpdateConnectionOfPoolElementNode (poolElementNode : ptr)
    (connectionSocketDescriptor connectionAssocID : Z) : M PHM () :=
  onHandlespace (poolHandlespaceNodeUpdateConnectionOfPoolElementNode poolElementNode
    connectionSocketDescriptor connectionAssocID).

Definition poolHandlespaceManagementHandleResolution (random64 : nat → Z) (poolHandle : PoolHandle)
    (maxHandleResolutionItems maxIncrement : Z) : M PHM (list ptr * Z) :=
  onHandlespace (poolHandlespaceNodeSelectPoolElementNodesByPolicy random64 poolHandle
    maxHandleResolutionItems maxIncrement).

(** ** Handle tables *)

(** Takes up to [n] nodes, the first being [cur]. *)
Fixpoint collectNodes (n : nat) (next : ptr → M HS (option ptr)) (cur : option ptr) : M HS (list ptr) :=
  match n, cur with
  | S n', Some p =>
      match n' with
      | O => mret [p]
      | _ => cur' ← next p; l ← collectNodes n' next cur'; mret (p :: l)
      end
  | _, _ => mret []
  end.

(** The end of both functions: where the next call is to continue. *)
Definition finishHandleTable (hte : HandleTableExtract) (l : list ptr) : M HS (bool * HandleTableExtract) :=
  match head (reverse l) with
  | Some p =>
      n ← pe_get p;
      h ← deref (λ st, owner_handle st n);
      mret (true, MkHandleTableExtract h (pen_Identifier n) l)
  | None => mret (false, MkHandleTableExtract (hte_LastPoolHandle hte) (hte_LastPoolElementIdentifier hte) l)
  end.

Definition limitElements (maxElements : Z) : nat :=
  Z.to_nat (if NTE_MAX_POOL_ELEMENT_NODES <? maxElements then NTE_MAX_POOL_ELEMENT_NODES else maxElements).

Definition getOwnershipHandleTable (handleTableExtract : HandleTableExtract) (homeRegistrarIdentifier flags maxElements : Z) :
    M HS (bool * HandleTableExtract) :=
  if maxElements <? 1 then mret (false, handleTableExtract)
  else
    poolElementNode ←
      (if flag_test flags HTEF_START
       then poolHandlespaceNodeGetFirstPoolElementOwnershipNodeForIdentifier homeRegistrarIdentifier
       else poolHandlespaceNodeFindNearestNextPoolElementOwnershipNode homeRegistrarIdentifier
              (hte_LastPoolHandle handleTableExtract) (hte_LastPoolElementIdentifier handleTableExtract));
    l ← collectNodes (limitElements maxElements)
          poolHandlespaceNodeGetNextPoolElementOwnershipNodeForSameIdentifier poolElementNode;
    finishHandleTable handleTableExtract l.

(** The [for(;;)] loop over the pools; [n] nodes are still to be taken. *)
Fixpoint collectPools (fuel n : nat) (poolNode : ptr) (poolElementNode : option ptr) : M HS (list ptr) :=
  l ← collectNodes n (poolNodeGetNextPoolElementNodeFromIndex poolNode) poolElementNode;
  if (n <=? length l)%nat then mret l
  else
    next ← poolHandlespaceNodeGetNextPoolNode poolNode;
    match next with
    | None => mret l
    | Some pp =>
        match fuel with
        | O => abort
        | S fuel' =>
            first ← poolNodeGetFirstPoolElementNodeFromIndex pp;
            l' ← collectPools fuel' (n - length l) pp first;
            mret (l ++ l')
        end
    end.

Definition getGlobalHandleTable (handleTableExtract : HandleTableExtract) (flags maxElements : Z) :
    M HS (bool * HandleTableExtract) :=
  if maxElements <? 1 then mret (false, handleTableExtract)
  else
    let start := flag_test flags HTEF_START in
    let hte := MkHandleTableExtract
      (if start then MkPoolHandle 0 (ph_Handle (hte_LastPoolHandle handleTableExtract)) else hte_LastPoolHandle handleTableExtract)
      (if start then 0 else hte_LastPoolElementIdentifier handleTableExtract) [] in
    poolNode ←
      (if start then poolHandlespaceNodeGetFirstPoolNode
       else
         found ← poolHandlespaceNodeFindPoolNode (hte_LastPoolHandle hte);
         match found with
         | Some pp => mret (Some pp)
         | None => poolHandlespaceNodeFindNearestNextPoolNode (hte_LastPoolHandle hte)
         end);
    match poolNode with
    | None => mret (false, hte)
    | Some pp =>
        poolElementNode ←
          (if start then poolNodeGetFirstPoolElementNodeFromIndex pp
           else
             pn ← pool_get pp;
             if poolHandleComparison (hte_LastPoolHandle hte) (pn_Handle pn) =? 0
             then poolNodeFindNearestNextPoolElementNode pp (hte_LastPoolElementIdentifier hte)
             else poolNodeGetFirstPoolElementNodeFromIndex pp);
        fuel ← storageFuel SlotPools;
        l ← collectPools fuel (limitElements maxElements) pp poolElementNode;
        finishHandleTable hte l
    end.

Definition poolHandlespaceManagementGetHandleTable (homeRegistrarIdentifier : Z)
    (handleTableExtract : HandleTableExtract) (flags maxElements : Z) : M PHM (bool * HandleTableExtract) :=
  onHandlespace
    (if flag_test flags HTEF_OWNCHILDSONLY
     then getOwnershipHandleTable handleTableExtract homeRegistrarIdentifier flags maxElements
     else getGlobalHandleTable handleTableExtract flags maxElements).

(** ** Timers and purging *)

Definition poolHandlespaceManagementRestartPoolElementExpiryTimer (poolElementNode : ptr) (expiryTimeout : Z) : M PHM () :=
  onHandlespace (poolHandlespaceNodeDeactivateTimer poolElementNode);;
  n ← onHandlespace (pe_get poolElementNode);
  onHandlespace (poolHandlespaceNodeActivateTimer poolElementNode PENT_EXPIRY
    (u64 (pen_LastUpdateTimeStamp n + expiryTimeout))).

Fixpoint purgeExpired (fuel : nat) (currentTimeStamp : Z) (poolElementNode : option ptr) (purged : Z) : M HS Z :=
  match poolElementNode with
  | None => mret purged
  | Some p =>
      match fuel with
      | O => abort
      | S fuel' =>
          next ← poolHandlespaceNodeGetNextPoolElementTimerNode p;
          n ← pe_get p;
          CHECK (pen_TimerCode n =? PENT_EXPIRY);;
          linked ← poolHandlespaceNodeHasActiveTimer p;
          CHECK linked;;
          if pen_TimerTimeStamp n <=? currentTimeStamp then
            _ ← deregisterByPtr p;
            purgeExpired fuel' currentTimeStamp next (purged + 1)
          else mret purged
      end
  end.

Definition poolHandlespaceManagementPurgeExpiredPoolElements (currentTimeStamp : Z) : M PHM Z :=
  onHandlespace (
    fuel ← storageFuel SlotTimer;
    first ← poolHandlespaceNodeGetFirstPoolElementTimerNode;
    purgeExpired fuel currentTimeStamp first 0).

(** The loops fetch the next node before they work on the current one. *)
Fixpoint forEachOwned {A} (fuel : nat) (body : ptr → A → M HS A) (poolElementNode : option ptr) (a : A) : M HS A :=
  match poolElementNode with
  | None => mret a
  | Some p =>
      match fuel with
      | O => abort
      | S fuel' =>
          next ← poolHandlespaceNodeGetNextPoolElementOwnershipNodeForSameIdentifier p;
          a' ← body p a;
          forEachOwned fuel' body next a'
      end
  end.

Definition poolHandlespaceManagementMarkPoolElementNodes (ownerID : Z) : M PHM () :=
  onHandlespace (
    fuel ← storageFuel SlotOwnership;
    first ← poolHandlespaceNodeGetFirstPoolElementOwnershipNodeForIdentifier ownerID;
    forEachOwned fuel (λ p _, pe_update p (λ n, set_Flags (flag_set (pen_Flags n) PENF_MARKED) n)) first tt).

Definition poolHandlespaceManagementPurgeMarkedPoolElementNodes (ownerID : Z) : M PHM Z :=
  onHandlespace (
    fuel ← storageFuel SlotOwnership;
    first ← poolHandlespaceNodeGetFirstPoolElementOwnershipNodeForIdentifier ownerID;
    forEachOwned fuel (λ p count,
      n ← pe_get p;
      if flag_test (pen_Flags n) PENF_MARKED then
        result ← deregisterByPtr p;
        CHECK (result =? RSPERR_OKAY);;
        mret (count + 1)
      else mret count) first 0).

(** ** Getters *)

Definition poolHandlespaceManagementGetPools : M PHM Z := onHandlespace poolHandlespaceNodeGetPoolNodes.
Definition poolHandlespaceManagementGetPoolElements : M PHM Z := onHandlespace poolHandlespaceNodeGetPoolElementNodes.
Definition poolHandlespaceManagementGetOwnedPoolElements : M PHM Z :=
  onHandlespace poolHandlespaceNodeGetOwnedPoolElementNodes.
Definition poolHandlespaceManagementGetPoolElementsOfPool (poolHandle : PoolHandle) : M PHM Z :=
  onHandlespace (poolHandlespaceNodeGetPoolElementNodesOfPool poolHandle).
Definition poolHandlespaceManagementGetPoolElementsOfConnection (socketDescriptor assocID : Z) : M PHM Z :=
  onHandlespace (poolHandlespaceNodeGetConnectionNodesForConnection socketDescriptor assocID).

(** [~0] converted to [unsigned long long]. *)
Definition poolHandlespaceManagementGetNextTimerTimeStamp : M PHM Z :=
  onHandlespace (
    nextTimer ← poolHandlespaceNodeGetFirstPoolElementTimerNode;
    match nextTimer with
    | Some p => n ← pe_get p; mret (pen_TimerTimeStamp n)
    | None => mret (2 ^ 64 - 1)
    end).
End mgt.
