(* ===== verification/HandlespaceMgtInv.v ===== *)
(** * The management operations keep the handlespace consistent

    Deregistration and registration with their memory management, and the
    loops that purge, all keep [hs_inv]; nothing is leaked and nothing that
    is linked is freed. *)

From S2P Require Import Prelude Checksum Addresses PoolBasics Storage PoolElement PoolPolicy HandlespaceState PoolNode PoolEffects PoolSelection HandlespaceNode HandlespaceInv HandlespaceOps HandlespaceEffects HandlespaceUpdate HandlespaceMgt.
From stdpp Require Import base list gmap numbers option sorting sets.
#[local] Open Scope Z_scope.

Section mgt.
Context {ST : Type} `{SL : StorageLaws ST} `{En : Endian}.
Abbreviation HS := (Handlespace ST).
Abbreviation PHM := (PoolHandlespaceManagement ST).
Implicit Types (st : HS) (pn : PoolNode ST) (p q pp : ptr) (E XO XC : list ptr).

(** ** Releasing memory *)

Definition without_element p st : HS := hs_set_PoolElementNodes (delete p (hs_PoolElementNodes st)) st.
Definition without_pool pp st : HS := hs_set_PoolNodes (delete pp (hs_PoolNodes st)) st.

Lemma slot_inv_without_element k st s p : slot_inv k st s → p ∉ st_list s → slot_inv k (without_element p st) s.
Proof.
  intros Hinv Hp. eapply slot_inv_ext; [exact Hinv|]. intros q Hq. pose proof (si_valid _ _ _ Hinv q Hq) as Hval.
  assert (hs_PoolElementNodes (without_element p st) !! q = hs_PoolElementNodes st !! q) as Heq.
  { simpl. apply lookup_delete_ne. intros ->. done. }
  unfold slot_key, slot_value, slot_valid in *. rewrite Heq. by destruct k.
Qed.

Lemma pool_inv_without_element st pp pn p n : pool_inv [] [] st pp pn → hs_PoolElementNodes st !! p = Some n →
  pen_OwnerPoolNode n = None → pool_inv [] [] (without_element p st) pp pn.
Proof.
  intros Hinv Hn Ho. pose proof (pi_selection _ _ _ _ _ Hinv) as Hsel%sel_inv_clean.
  assert (p ∉ st_list (pn_PoolElementIndexStorage pn)) as Hp.
  { intros Hp. destruct (pi_element _ _ _ _ _ Hinv p Hp) as (m & ? & _ & _ & [[? _]|[_ HU]]); [congruence|by apply not_elem_of_nil in HU]. }
  assert (p ∉ st_list (pn_PoolElementSelectionStorage pn)) as Hps.
  { intros Hps. apply Hp. apply (pool_inv_elements _ _ _ _ _ _ Hinv). by right. }
  assert (∀ q, q ≠ p → hs_PoolElementNodes (without_element p st) !! q = hs_PoolElementNodes st !! q) as Hne
    by (intros; simpl; by apply lookup_delete_ne).
  assert (∀ q m, hs_PoolElementNodes (without_element p st) !! q = Some m → hs_PoolElementNodes st !! q = Some m) as Hback.
  { intros q m Hm. simpl in Hm. by apply lookup_delete_Some in Hm as [_ ?]. }
  destruct Hinv. split; try done.
  - by apply slot_inv_without_element.
  - apply sel_inv_clean. by apply slot_inv_without_element.
  - intros q m Hm. by eapply pi_member, Hback.
  - intros q Hq. rewrite Hne by (intros ->; done). by apply pi_element.
  - intros q1 q2 m1 m2 Hm1 Hm2. eapply pi_seq; by apply Hback.
Qed.

Lemma hs_struct_without_element E XO XC st p n : hs_struct E XO XC st → hs_PoolElementNodes st !! p = Some n →
  pen_OwnerPoolNode n = None → hs_struct E XO XC (without_element p st).
Proof.
  intros Hs Hn Ho. assert (∀ q m, hs_PoolElementNodes (without_element p st) !! q = Some m → hs_PoolElementNodes st !! q = Some m) as Hback.
  { intros q m Hm. simpl in Hm. by apply lookup_delete_Some in Hm as [_ ?]. }
  pose proof (not_linked SlotTimer _ _ _ _ _ _ _ eq_refl Hs eq_refl Hn Ho).
  pose proof (not_linked SlotOwnership _ _ _ _ _ _ _ eq_refl Hs eq_refl Hn Ho).
  pose proof (not_linked SlotConnection _ _ _ _ _ _ _ eq_refl Hs eq_refl Hn Ho).
  destruct Hs. split; simpl; try by apply slot_inv_without_element.
  - intros q m Hm. by eapply hi_wf, Hback.
  - eapply slot_inv_ext; [exact hi_pools|]. intros q Hq. repeat split. by apply (si_valid _ _ _ hi_pools).
  - intros pp Hpp. destruct (hi_pool pp Hpp) as (pn & ? & ?). exists pn. split; [by eapply pool_inv_without_element|done].
  - intros q m pp Hm. by eapply hi_owner, Hback.
  - intros pp pn Hpn Hnin. destruct (hi_unlinked pp pn Hpn Hnin). split; [by eapply pool_inv_without_element|done].
  - intros q m Hm. by eapply hi_owned_in, Hback.
  - intros q m Hm. by eapply hi_connected, Hback.
Qed.

Lemma hs_acct_without_element st p n : hs_acct st → hs_PoolElementNodes st !! p = Some n →
  pen_OwnerPoolNode n = None → hs_acct (without_element p st).
Proof.
  intros [] Hn Ho. assert (is_member n = false) as Hm by (unfold is_member; rewrite bool_decide_false; naive_solver).
  split; simpl; try done.
  - intros q m h Hq. apply lookup_delete_Some in Hq as [_ Hq]. by apply (ha_checksum q m h Hq).
  - rewrite (msum_delete _ _ p n Hn), ha_sum. unfold member_checksum at 3. rewrite Hm. f_equal. lia.
  - rewrite (msum_delete _ _ p n Hn), ha_owned_sum. unfold owned_checksum at 3, is_owned. rewrite Hm. simpl. f_equal. lia.
  - rewrite (msum_delete _ _ p n Hn), ha_count. unfold member_count at 3. rewrite Hm. lia.
  - rewrite (msum_delete _ _ p n Hn), ha_owned_count. unfold owned_count at 3, is_owned. rewrite Hm. simpl. lia.
Qed.

Lemma owner_without_pool pp st n : pen_OwnerPoolNode n ≠ Some pp → owner_handle (without_pool pp st) n = owner_handle st n.
Proof.
  intros Ho. unfold owner_handle. destruct (pen_OwnerPoolNode n) as [o|]; simpl; [|done].
  rewrite lookup_delete_ne; [done|congruence].
Qed.

(** The pool is not linked and nobody refers to it. *)
Lemma hs_struct_without_pool E XO XC st pp : hs_struct E XO XC st → pp ∉ st_list (hs_PoolIndexStorage st) →
  hs_struct E XO XC (without_pool pp st).
Proof.
  intros Hs Hnin.
  assert (∀ q n, hs_PoolElementNodes st !! q = Some n → pen_OwnerPoolNode n ≠ Some pp) as Hno.
  { intros q n Hn Ho. apply Hnin. by eapply (hi_owner _ _ _ _ Hs). }
  assert (∀ q pn, q ≠ pp → pool_inv [] [] st q pn → pool_inv [] [] (without_pool pp st) q pn) as Hpool.
  { intros q pn Hne Hq. apply (pool_inv_ext [] [] st); [done| |done]. simpl. by apply lookup_delete_ne. }
  assert (∀ k s, element_slot k = true → slot_inv k st s → slot_inv k (without_pool pp st) s) as Hslot.
  { intros k s Hk Hinv. eapply slot_inv_ext; [exact Hinv|]. intros q Hq. pose proof (si_valid _ _ _ Hinv q Hq) as Hval.
    assert (∃ n h, hs_PoolElementNodes st !! q = Some n ∧ owner_handle st n = Some h) as (n & h & Hn & Hh) by by destruct k.
    assert (owner_handle (without_pool pp st) n = Some h) as Hh' by (rewrite owner_without_pool; [done|by eapply Hno]).
    unfold slot_key, slot_value, slot_valid. change (hs_PoolElementNodes (without_pool pp st)) with (hs_PoolElementNodes st).
    destruct k; try done; rewrite Hn; simpl; rewrite Hh, Hh'; eauto 10. }
  destruct Hs. split; simpl; try done; try (by apply Hslot).
  - eapply slot_inv_ext; [exact hi_pools|]. intros q Hq. assert (q ≠ pp) as Hne by (intros ->; done).
    pose proof (si_valid _ _ _ hi_pools q Hq) as [pn Hpn].
    unfold slot_key, slot_value, slot_valid. simpl. rewrite lookup_delete_ne by done. eauto.
  - intros q Hq. destruct (hi_pool q Hq) as (pn & ? & ?). exists pn. split; [apply Hpool; [by intros ->|done]|done].
  - intros q pn Hq Hn. apply lookup_delete_Some in Hq as [Hne Hq]. destruct (hi_unlinked q pn Hq Hn).
    split; [by apply Hpool|done].
Qed.

Lemma hs_acct_without_pool st pp : hs_acct st → hs_acct (without_pool pp st).
Proof.
  intros []. split; simpl; try done. intros q n h Hn Hh. apply (ha_checksum q n h Hn).
  unfold owner_handle in *. destruct (pen_OwnerPoolNode n) as [o|]; [|done]. simpl in *.
  destruct (decide (o = pp)) as [->|]; [by rewrite lookup_delete_eq in Hh|by rewrite lookup_delete_ne in Hh].
Qed.
Lemma hs_struct_any_pool E XO XC st pp pn : hs_struct E XO XC st → hs_PoolNodes st !! pp = Some pn → pool_inv [] [] st pp pn.
Proof.
  intros Hs Hpn. destruct (decide (pp ∈ st_list (hs_PoolIndexStorage st))) as [Hin|Hin]; [|by eapply (hi_unlinked _ _ _ _ Hs)].
  destruct (hi_pool _ _ _ _ Hs pp Hin) as (pn' & Hinv & _). pose proof (pi_lookup _ _ _ _ _ Hinv). by simplify_eq.
Qed.

Lemma poolElementNodeDelete_run E XO XC st p n : hs_struct E XO XC st → hs_PoolElementNodes st !! p = Some n →
  pen_OwnerPoolNode n = None → poolElementNodeDelete p st = Some (tt, pe_store p (poolElementNodeReset n) st).
Proof.
  intros Hs Hn Ho.
  assert (∀ pp pn, hs_PoolNodes st !! pp = Some pn → p ∉ st_list (pn_PoolElementIndexStorage pn) ∧
    p ∉ st_list (pn_PoolElementSelectionStorage pn)) as Hnot.
  { intros pp pn Hpn. pose proof (hs_struct_any_pool _ _ _ _ _ _ Hs Hpn) as Hinv.
    assert (p ∉ st_list (pn_PoolElementIndexStorage pn)) as Hp.
    { intros Hp. destruct (pi_element _ _ _ _ _ Hinv p Hp) as (m & ? & _ & _ & [[? _]|[_ HU]]); [congruence|by apply not_elem_of_nil in HU]. }
    split; [done|]. intros Hps. apply Hp. apply (pool_inv_elements _ _ _ _ _ _ Hinv). by right. }
  pose proof (not_linked SlotTimer _ _ _ _ _ _ _ eq_refl Hs eq_refl Hn Ho).
  pose proof (not_linked SlotOwnership _ _ _ _ _ _ _ eq_refl Hs eq_refl Hn Ho).
  pose proof (not_linked SlotConnection _ _ _ _ _ _ _ eq_refl Hs eq_refl Hn Ho).
  unfold poolElementNodeDelete.
  erewrite run_bind; [|done]. rewrite linkedInSomePool_false.
  2:{ intros pp pn Hpn. pose proof (pi_selection _ _ _ _ _ (hs_struct_any_pool _ _ _ _ _ _ Hs Hpn)) as Hsel%sel_inv_clean.
      eexists. split; [apply Hsel|by eapply Hnot]. }
  erewrite run_bind; [|by apply run_check]. erewrite run_bind; [|done]. rewrite linkedInSomePool_false.
  2:{ intros pp pn Hpn. pose proof (pi_index _ _ _ _ _ (hs_struct_any_pool _ _ _ _ _ _ Hs Hpn)) as Hidx.
      eexists. split; [apply Hidx|by eapply Hnot]. }
  erewrite run_bind; [|by apply run_check].
  erewrite run_bind; [|apply storageIsLinked_spec; [done|apply Hs]]. rewrite bool_decide_false by done.
  erewrite run_bind; [|by apply run_check].
  erewrite run_bind; [|apply storageIsLinked_spec; [done|apply Hs]]. rewrite bool_decide_false by done.
  erewrite run_bind; [|by apply run_check].
  erewrite run_bind; [|apply storageIsLinked_spec; [done|apply Hs]]. rewrite bool_decide_false by done.
  erewrite run_bind; [|by apply run_check]. by apply pe_update_run.
Qed.

(** ** Deregistration *)

Context (poolDisposer elementDisposer : option (ptr → M HS ())).

(** The disposers of the user's data leave the handlespace alone. *)
Definition disposer_ok (d : option (ptr → M HS ())) : Prop := ∀ f q st, d = Some f → f q st = Some (tt, st).
Context (poolDisposer_ok : disposer_ok poolDisposer) (elementDisposer_ok : disposer_ok elementDisposer).

Lemma elementDisposer_run st p n : hs_PoolElementNodes st !! p = Some n →
  poolHandlespaceManagementPoolElementNodeDisposer elementDisposer p st = Some (tt, without_element p st).
Proof.
  intros Hn. unfold poolHandlespaceManagementPoolElementNodeDisposer. rewrite (run_bind _ _ _ _ _ (pe_get_run _ _ _ Hn)).
  erewrite run_bind; [done|]. destruct elementDisposer as [f|] eqn:Hf; [|done].
  destruct (negb _); [|done]. by apply elementDisposer_ok.
Qed.

Lemma poolDisposer_run st pp pn : hs_PoolNodes st !! pp = Some pn →
  poolHandlespaceManagementPoolNodeDisposer poolDisposer pp st = Some (tt, without_pool pp st).
Proof.
  intros Hn. unfold poolHandlespaceManagementPoolNodeDisposer. rewrite (run_bind _ _ _ _ _ (pool_get_run _ _ _ Hn)).
  erewrite run_bind; [done|]. destruct poolDisposer as [f|] eqn:Hf; [|done].
  destruct (negb _); [|done]. by apply poolDisposer_ok.
Qed.

Lemma disposeElement_run E XO XC st p n : hs_struct E XO XC st → hs_PoolElementNodes st !! p = Some n →
  pen_OwnerPoolNode n = None →
  (poolElementNodeDelete p;; poolHandlespaceManagementPoolElementNodeDisposer elementDisposer p) st = Some (tt, without_element p st).
Proof.
  intros Hs Hn Ho. rewrite (run_bind _ _ _ _ _ (poolElementNodeDelete_run _ _ _ _ _ _ Hs Hn Ho)).
  erewrite elementDisposer_run; [|simpl; apply lookup_insert_eq].
  do 2 f_equal. unfold without_element, pe_store. simpl. by rewrite delete_insert_eq.
Qed.

Lemma poolNodeDelete_run E XO XC st pp pn : hs_struct E XO XC st → pp ∉ st_list (hs_PoolIndexStorage st) →
  hs_PoolNodes st !! pp = Some pn → st_list (pn_PoolElementSelectionStorage pn) = [] → ∃ pn',
  poolNodeDelete pp st = Some (tt, pool_store pp pn' st).
Proof.
  intros Hs Hnin Hpn Hsel. pose proof (hs_struct_any_pool _ _ _ _ _ _ Hs Hpn) as Hinv.
  pose proof (pi_selection _ _ _ _ _ Hinv) as Hsi%sel_inv_clean. eexists. unfold poolNodeDelete.
  erewrite run_bind; [|apply storageIsLinked_spec; [done|apply Hs]]. rewrite bool_decide_false by done.
  erewrite run_bind; [|by apply run_check].
  erewrite run_bind; [|unfold storageIsEmpty; apply (storageRead_eq (SlotSelection pp)); simpl; by rewrite Hpn].
  erewrite run_bind; [|apply run_check; erewrite st_isempty_law by apply Hsi; by rewrite Hsel]. by apply pool_update_run.
Qed.

(** An empty pool is unlinked and released. *)
Lemma disposePool_run E st pp pn : hs_struct E [] [] st → hs_acct st → E ⊆ [pp] → pp ∈ st_list (hs_PoolIndexStorage st) →
  hs_PoolNodes st !! pp = Some pn → st_list (pn_PoolElementIndexStorage pn) = [] → ∃ s',
  let st' := hs_set_PoolIndexStorage s' (without_pool pp st) in
  (poolHandlespaceNodeRemovePoolNode pp ≫= λ _, poolNodeDelete pp;; poolHandlespaceManagementPoolNodeDisposer poolDisposer pp) st
    = Some (tt, st') ∧ hs_inv st' ∧ st_list s' = l_remove pp (st_list (hs_PoolIndexStorage st)).
Proof.
  intros Hs Ha HE Hpp Hpn Hempty. pose proof (hs_struct_any_pool _ _ _ _ _ _ Hs Hpn) as Hinv.
  destruct (removePoolNode_spec E [] [] [] st pp pn) as (s' & Hrun & Hs' & Hl); try done; [set_solver|].
  set (pn1 := pn_set_OwnerPoolHandlespaceNode false pn) in *.
  set (st1 := pool_store pp pn1 (hs_set_PoolIndexStorage s' st)) in *.
  assert (hs_PoolNodes st1 !! pp = Some pn1) as Hpn1 by (simpl; apply lookup_insert_eq).
  assert (pp ∉ st_list s') as Hout by (rewrite Hl, l_remove_elem; tauto).
  assert (without_pool pp st1 = hs_set_PoolIndexStorage s' (without_pool pp st)) as Heq.
  { unfold without_pool, st1, pool_store. simpl. by rewrite delete_insert_eq. }
  exists s'. simpl. rewrite (run_bind _ _ _ _ _ Hrun). split; [|split; [|done]].
  - pose proof (hs_struct_any_pool _ _ _ _ _ _ Hs' Hpn1) as Hinv1.
    assert (st_list (pn_PoolElementSelectionStorage pn1) = []) as Hsel.
    { pose proof (pi_same _ _ _ _ _ Hinv1) as Hperm. simpl in Hperm. rewrite Hempty in Hperm. by apply Permutation_nil in Hperm. }
    destruct (poolNodeDelete_run [] [] [] st1 pp pn1) as [pn2 Hdel]; try done. rewrite (run_bind _ _ _ _ _ Hdel).
    erewrite poolDisposer_run; [|simpl; apply lookup_insert_eq]. rewrite <- Heq. do 2 f_equal.
    unfold without_pool, pool_store. simpl. by rewrite !delete_insert_eq.
  - rewrite <- Heq. split; [by apply hs_struct_without_pool|]. apply hs_acct_without_pool.
    eapply (hs_acct_same_handles st); try done. split; [done|]. intros q. simpl.
    destruct (decide (q = pp)) as [->|]; [by rewrite lookup_insert_eq, Hpn|by rewrite lookup_insert_ne].
Qed.
(** What remains after the deregistration of [p], an element [n] of the
    pool [pp]: everything else, except the pool if it is empty now. *)
Record deregistered st p n pp st' : Prop := {
  dr_elements : hs_PoolElementNodes st' = delete p (hs_PoolElementNodes st);
  dr_handles q m : q ≠ p → hs_PoolElementNodes st !! q = Some m → owner_handle st' m = owner_handle st m;
  dr_other_pools q : q ≠ pp → hs_PoolNodes st' !! q = hs_PoolNodes st !! q;
  dr_pools : (∃ q m, q ≠ p ∧ hs_PoolElementNodes st !! q = Some m ∧ pen_OwnerPoolNode m = Some pp) ∧
      hs_PoolIndexStorage st' = hs_PoolIndexStorage st ∨
    (∀ q m, q ≠ p → hs_PoolElementNodes st !! q = Some m → pen_OwnerPoolNode m ≠ Some pp) ∧
      st_list (hs_PoolIndexStorage st') = l_remove pp (st_list (hs_PoolIndexStorage st)) ∧ hs_PoolNodes st' !! pp = None;
  dr_count : hs_PoolElements st' = hs_PoolElements st - 1;
  dr_checksum : hs_HandlespaceChecksum st' = u32 (hs_HandlespaceChecksum st - pen_Checksum n);
  dr_home : hs_HomeRegistrarIdentifier st' = hs_HomeRegistrarIdentifier st;
  dr_timers : st_list (hs_PoolElementTimerStorage st') = l_remove p (st_list (hs_PoolElementTimerStorage st));
  dr_ownership : st_list (hs_PoolElementOwnershipStorage st') = l_remove p (st_list (hs_PoolElementOwnershipStorage st));
  dr_notification : hs_PoolNodeUpdateNotification st' = hs_PoolNodeUpdateNotification st;
  dr_notifications : hs_Notifications st' =
    notified st p PNUA_Delete (pen_Checksum n) (pen_HomeRegistrarIdentifier n) (set_OwnerPoolNode None n)
}.

Lemma deregisterByPtr_spec st p n pp : hs_inv st → hs_PoolElementNodes st !! p = Some n →
  pen_OwnerPoolNode n = Some pp → ∃ st',
  deregisterByPtr poolDisposer elementDisposer p st = Some (RSPERR_OKAY, st') ∧ hs_inv st' ∧ deregistered st p n pp st'.
Proof.
  intros Hi Hn Ho. destruct (hs_struct_pools_valid _ _ _ _ (proj1 Hi) p n pp Hn Ho) as [pn Hpn].
  destruct (removePoolElementNode_spec st p n pp pn) as (st1 & pn1 & Hrun1 & Hs1 & Ha1 & Hi1 & Hpinv1 & Hsame1 & Hidx1 &
    He1 & Hp1 & Hos1 & Hcnt1 & Hsum1 & Hhome1 & Hix1 & Ht1 & Hown1 & _ & Hfl1 & Hnot1); try done.
  set (n' := set_OwnerPoolNode None n) in *.
  assert (hs_PoolElementNodes st1 !! p = Some n') as Hn' by (rewrite He1; apply lookup_insert_eq).
  set (st2 := without_element p st1).
  assert (hs_struct [pp] [] [] st2) as Hs2 by by eapply hs_struct_without_element.
  assert (hs_acct st2) as Ha2 by by eapply hs_acct_without_element.
  assert (hs_PoolElementNodes st2 = delete p (hs_PoolElementNodes st)) as He2.
  { unfold st2. simpl. rewrite He1. by rewrite delete_insert_eq. }
  assert (hs_PoolNodes st2 !! pp = Some pn1) as Hpn2 by apply Hpinv1.
  assert (∀ q m, q ≠ p → hs_PoolElementNodes st !! q = Some m → owner_handle st1 m = owner_handle st m) as Hhand.
  { intros q m Hq Hm. unfold owner_handle. destruct (pen_OwnerPoolNode m) as [o|]; [|done]. simpl. rewrite Hp1.
    destruct (decide (o = pp)) as [->|]; [|by rewrite lookup_insert_ne]. rewrite lookup_insert_eq, Hpn. simpl. by destruct Hsame1 as (-> & _). }
  assert (∀ q, q ∈ st_list (pn_PoolElementIndexStorage pn1) ↔
    ∃ m, q ≠ p ∧ hs_PoolElementNodes st !! q = Some m ∧ pen_OwnerPoolNode m = Some pp) as Hmem.
  { intros q. rewrite Hidx1, l_remove_elem. pose proof (hs_struct_any_pool _ _ _ _ _ _ (proj1 Hi) Hpn) as Hpinv. split.
    - intros [Hq Hin]. destruct (pi_element _ _ _ _ _ Hpinv q Hin) as (m & ? & _ & _ & [[? _]|[_ HU]]); [eauto|by apply not_elem_of_nil in HU].
    - intros (m & ? & ? & ?). split; [done|]. by eapply (pi_member _ _ _ _ _ Hpinv). }
  assert (deregisterByPtr poolDisposer elementDisposer p st =
    ((if Z.of_nat (length (st_list (pn_PoolElementIndexStorage pn1))) =? 0 then
       _ ← poolHandlespaceNodeRemovePoolNode pp; poolNodeDelete pp;;
       poolHandlespaceManagementPoolNodeDisposer poolDisposer pp else mret tt);; mret RSPERR_OKAY) st2) as Hrun.
  { unfold deregisterByPtr. rewrite (run_bind _ _ _ _ _ (pe_get_run _ _ _ Hn)), (run_bind _ _ _ _ _ Hrun1).
    erewrite run_seq2; [|by eapply disposeElement_run]. fold st2. erewrite run_bind; [|unfold deref; by rewrite Ho].
    erewrite run_bind; [done|]. unfold poolNodeGetPoolElementNodes. apply storageGetElements_spec; [cbn [slot_get]; by rewrite Hpn2|].
    apply (hs_struct_any_pool _ _ _ _ _ _ Hs2 Hpn2). }
  rewrite Hrun. destruct (st_list (pn_PoolElementIndexStorage pn1)) as [|q0 l0] eqn:Hlist; simpl (_ =? _); cbv iota.
  - destruct (disposePool_run [pp] st2 pp pn1) as (s' & Hrun3 & Hi3 & Hl3); try done.
    { simpl. rewrite Hix1. by eapply (hi_owner _ _ _ _ (proj1 Hi)). }
    eexists. split; [erewrite run_bind; [done|exact Hrun3]|]. split; [done|]. simpl in Hl3. rewrite Hix1 in Hl3.
    assert (∀ q m, q ≠ p → hs_PoolElementNodes st !! q = Some m → pen_OwnerPoolNode m ≠ Some pp) as Hnone.
    { intros q m Hq Hm Hom. assert (q ∈ []) as Hin by (apply Hmem; eauto). by apply not_elem_of_nil in Hin. }
    split; simpl; try done.
    + intros q m Hq Hm. rewrite <- (Hhand q m Hq Hm). apply (owner_without_pool pp st1). by eapply Hnone.
    + intros q Hq. rewrite lookup_delete_ne, Hp1, lookup_insert_ne by done. done.
    + right. split; [done|]. split; [done|]. by rewrite lookup_delete_eq.
  - exists st2. split; [done|]. split; [|split; simpl; try done].
    + split; [|done]. eapply hs_struct_without_element; [apply Hi1; congruence|done|done].
    + intros q Hq. rewrite Hp1. by rewrite lookup_insert_ne.
    + left. split; [|done]. destruct (proj1 (Hmem q0) ltac:(left)) as (m & ? & ? & ?). eauto.
Qed.
(** ** New memory *)

Lemma poolNodeNew_inv st pp h policy protocol flags pn : poolNodeNew h policy protocol flags = Some pn → handle_wf h →
  policy ∈ PoolPolicyArray → (∀ q n, hs_PoolElementNodes st !! q = Some n → pen_OwnerPoolNode n ≠ Some pp) →
  pool_inv [] [] (pool_store pp pn st) pp pn ∧ st_list (pn_PoolElementIndexStorage pn) = [] ∧ pn_Handle pn = h.
Proof.
  intros Hnew Hh Hpol Hno. unfold poolNodeNew in Hnew. rewrite poolHandleNew_self in Hnew by done. simpl in Hnew. injection Hnew as <-.
  assert (st_list (ST_New : ST) = []) as Hempty by apply (st_new_ok (λ _, 0)).
  split; [split|done]; simpl; try done.
  - apply lookup_insert_eq.
  - apply slot_inv_new.
  - apply sel_inv_clean, slot_inv_new.
  - intros q n Hn Ho. by destruct (Hno q n Hn).
  - intros q Hq. rewrite Hempty in Hq. by apply not_elem_of_nil in Hq.
  - intros q1 q2 n1 n2 Hn1 _ Ho1. by destruct (Hno q1 n1 Hn1).
Qed.

Lemma hs_inv_pool_new st pp pn : hs_inv st → pp ∉ st_list (hs_PoolIndexStorage st) →
  pool_inv [] [] (pool_store pp pn st) pp pn → st_list (pn_PoolElementIndexStorage pn) = [] → hs_inv (pool_store pp pn st).
Proof.
  intros [Hs Ha] Hnin Hinv Hempty. set (st' := pool_store pp pn st) in *.
  assert (∀ q n, hs_PoolElementNodes st !! q = Some n → pen_OwnerPoolNode n ≠ Some pp) as Hno.
  { intros q n Hn Ho. apply Hnin. by eapply (hi_owner _ _ _ _ Hs). }
  assert (∀ n, pen_OwnerPoolNode n ≠ Some pp → owner_handle st' n = owner_handle st n) as Hoh.
  { intros n Ho. unfold owner_handle. destruct (pen_OwnerPoolNode n) as [o|]; simpl; [|done]. rewrite lookup_insert_ne; [done|congruence]. }
  assert (∀ q pnq, q ≠ pp → pool_inv [] [] st q pnq → pool_inv [] [] st' q pnq) as Hpool.
  { intros q pnq Hne Hq. apply (pool_inv_ext [] [] st); [done| |done]. simpl. by apply lookup_insert_ne. }
  assert (∀ k s, element_slot k = true → slot_inv k st s → slot_inv k st' s) as Hslot.
  { intros k s Hk Hsi. eapply slot_inv_ext; [exact Hsi|]. intros q Hq. pose proof (si_valid _ _ _ Hsi q Hq) as Hval.
    assert (∃ n h, hs_PoolElementNodes st !! q = Some n ∧ owner_handle st n = Some h) as (n & h & Hn & Hh) by by destruct k.
    assert (owner_handle st' n = Some h) as Hh' by (rewrite Hoh; [done|by eapply Hno]).
    unfold slot_key, slot_value, slot_valid. change (hs_PoolElementNodes st') with (hs_PoolElementNodes st).
    destruct k; try done; rewrite Hn; simpl; rewrite Hh, Hh'; eauto 10. }
  split.
  - destruct Hs. split; try done; try (by apply Hslot).
    + eapply slot_inv_ext; [exact hi_pools|]. intros q Hq. assert (q ≠ pp) as Hne by (intros ->; done).
      pose proof (si_valid _ _ _ hi_pools q Hq) as [pnq Hpnq].
      unfold slot_key, slot_value, slot_valid. simpl. rewrite lookup_insert_ne by done. eauto.
    + intros q Hq. destruct (hi_pool q Hq) as (pnq & ? & ?). exists pnq. split; [apply Hpool; [by intros ->|done]|done].
    + intros q pnq Hq Hn. destruct (decide (q = pp)) as [->|Hne].
      * simpl in Hq. rewrite lookup_insert_eq in Hq. by injection Hq as <-.
      * simpl in Hq. rewrite lookup_insert_ne in Hq by done. destruct (hi_unlinked q pnq Hq Hn). split; [by apply Hpool|done].
  - destruct Ha. split; simpl; try done. intros q n h Hn Hh. apply (ha_checksum q n h Hn). rewrite <- Hoh; [done|by eapply Hno].
Qed.

Lemma hs_inv_element_fresh st p n : hs_inv st → hs_PoolElementNodes st !! p = None → pen_OwnerPoolNode n = None →
  pen_wf n → hs_inv (pe_store p n st).
Proof.
  intros [Hs Ha] Hp Ho Hwf.
  assert (∀ q, is_Some (hs_PoolElementNodes st !! q) → hs_PoolElementNodes (pe_store p n st) !! q = hs_PoolElementNodes st !! q) as Hsame.
  { intros q [m Hm]. simpl. rewrite lookup_insert_ne; [done|]. intros ->. congruence. }
  assert (∀ k s, slot_inv k st s → slot_inv k (pe_store p n st) s) as Hslot.
  { intros k s Hinv. eapply slot_inv_ext; [exact Hinv|]. intros q Hq. pose proof (si_valid _ _ _ Hinv q Hq) as Hval.
    assert (k = SlotPools ∨ is_Some (hs_PoolElementNodes st !! q)) as [->|Hq'].
    { destruct k; simpl in Hval; try (by left); right; naive_solver. }
    - repeat split. exact Hval.
    - unfold slot_key, slot_value, slot_valid in *. rewrite (Hsame q Hq'). by destruct k. }
  assert (∀ q m pp, hs_PoolElementNodes (pe_store p n st) !! q = Some m → pen_OwnerPoolNode m = Some pp →
    hs_PoolElementNodes st !! q = Some m) as Hback.
  { intros q m pp Hm Hom. simpl in Hm. apply lookup_insert_Some in Hm as [[<- <-]|[_ ?]]; [congruence|done]. }
  assert (∀ pp pn, pool_inv [] [] st pp pn → pool_inv [] [] (pe_store p n st) pp pn) as Hpool.
  { intros pp pn Hinv. pose proof (pi_selection _ _ _ _ _ Hinv) as Hsel%sel_inv_clean. destruct Hinv. split; try done.
    - by apply Hslot.
    - by apply sel_inv_clean, Hslot.
    - intros q m Hm Hom. eapply pi_member; [by eapply Hback|done].
    - intros q Hq. destruct (pi_element q Hq) as (m & Hm & ?). exists m. rewrite Hsame by eauto. done.
    - intros q1 q2 m1 m2 Hm1 Hm2 Ho1 Ho2. eapply pi_seq; [by eapply Hback|by eapply Hback|done|done]. }
  assert (is_member n = false) as Hnm by (unfold is_member; rewrite bool_decide_false; naive_solver).
  split.
  - destruct Hs. split; try (by apply Hslot).
    + intros q m Hm. simpl in Hm. apply lookup_insert_Some in Hm as [[<- <-]|[_ Hm]]; [done|by eapply hi_wf].
    + intros pp Hpp. destruct (hi_pool pp Hpp) as (pn & ? & ?). exists pn. split; [by apply Hpool|done].
    + intros q m pp Hm Hom. eapply hi_owner; [by eapply Hback|done].
    + intros pp pn Hpn Hnin. destruct (hi_unlinked pp pn Hpn Hnin). split; [by apply Hpool|done].
    + intros q m Hm Hom. destruct (pen_OwnerPoolNode m) as [o|] eqn:Heq; [|done]. eapply hi_owned_in; [by eapply Hback|by rewrite Heq].
    + intros q m Hm Hom. destruct (pen_OwnerPoolNode m) as [o|] eqn:Heq; [|done]. eapply hi_connected; [by eapply Hback|by rewrite Heq].
  - destruct Ha. split; simpl; try done.
    + intros q m h Hm Hh. destruct (pen_OwnerPoolNode m) as [o|] eqn:Hom; [|by unfold owner_handle in Hh; rewrite Hom in Hh].
      eapply ha_checksum; [by eapply Hback|done].
    + rewrite msum_insert by done. unfold member_checksum at 1. by rewrite Hnm.
    + rewrite msum_insert by done. unfold owned_checksum at 1, is_owned. by rewrite Hnm.
    + rewrite msum_insert by done. unfold member_count at 1. by rewrite Hnm.
    + rewrite msum_insert by done. unfold owned_count at 1, is_owned. by rewrite Hnm.
Qed.

(** Memory that is not linked can be reused. *)
Lemma hs_inv_element_new st p n : hs_inv st → (∀ m, hs_PoolElementNodes st !! p = Some m → pen_OwnerPoolNode m = None) →
  pen_OwnerPoolNode n = None → pen_wf n → hs_inv (pe_store p n st).
Proof.
  intros Hi Hold Ho Hwf. destruct (hs_PoolElementNodes st !! p) as [m|] eqn:Hm; [|by apply hs_inv_element_fresh].
  assert (pe_store p n st = pe_store p n (without_element p st)) as ->.
  { unfold pe_store, without_element. simpl. by rewrite insert_delete_eq. }
  apply hs_inv_element_fresh; [|simpl; apply lookup_delete_eq|done|done]. destruct Hi as [Hs Ha].
  split; [eapply hs_struct_without_element|eapply hs_acct_without_element]; eauto.
Qed.
End mgt.
