(* ===== verification/HandlespaceNotifications.v ===== *)
(** * What the notifications tell

    The handlespace tells a listener about every element that is created,
    updated or deleted.  [tracked]: the notifications of an operation
    account for every change of the ownership checksums, of all
    registrars.  [steady]: no timer is started or changes its code. *)

From S2P Require Import Prelude Checksum Addresses PoolBasics Storage PoolElement PoolPolicy HandlespaceState PoolNode PoolEffects PoolSelection HandlespaceNode HandlespaceInv HandlespaceOps HandlespaceEffects HandlespaceUpdate HandlespaceMgt HandlespaceMgtInv.
From stdpp Require Import base list gmap numbers option.
#[local] Open Scope Z_scope.

(** What a notification adds to the ownership checksum of [id]. *)
Definition nf_effect (id : Z) (nf : Notification) : Z :=
  let sum := if nf_HomeRegistrar nf =? id then nf_Checksum nf else 0 in
  match nf_Action nf with
  | PNUA_Create => sum
  | PNUA_Delete => - sum
  | PNUA_Update => sum - (if nf_PreUpdateHomeRegistrar nf =? id then nf_PreUpdateChecksum nf else 0)
  end.

Definition nf_effects (id : Z) (l : list Notification) : Z := foldr (λ nf a, nf_effect id nf + a) 0 l.

Lemma nf_effects_app id l1 l2 : nf_effects id (l1 ++ l2) = nf_effects id l1 + nf_effects id l2.
Proof. induction l1 as [|nf l1 IH]; simpl; [lia|]. rewrite IH. lia. Qed.

Section notifications.
Context {ST : Type} `{SL : StorageLaws ST} `{En : Endian}.
Abbreviation HS := (Handlespace ST).
Implicit Types (st : HS) (p q : ptr) (n : PoolElementNode).
Abbreviation els := hs_PoolElementNodes.

Record tracked st st' : Prop := {
  tk_flag : hs_PoolNodeUpdateNotification st' = hs_PoolNodeUpdateNotification st;
  tk_log : ∃ nfs, hs_Notifications st' = hs_Notifications st ++ nfs ∧
    (hs_PoolNodeUpdateNotification st = true → ∀ id,
       msum (owned_checksum id) (els st') = msum (owned_checksum id) (els st) + nf_effects id nfs)
}.

Lemma tracked_refl st : tracked st st.
Proof. split; [done|]. exists []. split; [by rewrite app_nil_r|]. intros _ id. simpl. lia. Qed.

Lemma tracked_trans st1 st2 st3 : tracked st1 st2 → tracked st2 st3 → tracked st1 st3.
Proof.
  intros [Hf1 (l1 & Hl1 & Hs1)] [Hf2 (l2 & Hl2 & Hs2)]. split; [congruence|]. exists (l1 ++ l2).
  split; [by rewrite Hl2, Hl1, app_assoc|]. intros Hf id. rewrite Hs2, Hs1, nf_effects_app by congruence. lia.
Qed.

(** The part of one element. *)
Definition own_at (id : Z) st p : Z := default 0 (owned_checksum id <$> els st !! p).

Lemma msum_at id st p : msum (owned_checksum id) (els st) = own_at id st p + msum (owned_checksum id) (delete p (els st)).
Proof.
  unfold own_at. destruct (els st !! p) as [n|] eqn:Hn; simpl.
  - rewrite (msum_delete _ _ _ _ Hn). lia.
  - by rewrite delete_id.
Qed.

Lemma msum_changed id st st' p : (∀ q, q ≠ p → owned_checksum id <$> els st' !! q = owned_checksum id <$> els st !! q) →
  msum (owned_checksum id) (els st') = msum (owned_checksum id) (els st) + (own_at id st' p - own_at id st p).
Proof.
  intros Hq. rewrite (msum_at id st' p), (msum_at id st p).
  rewrite (msum_ext (owned_checksum id) (owned_checksum id) (delete p (els st')) (delete p (els st))); [lia|].
  intros q. destruct (decide (q = p)) as [->|Hne]; [by rewrite !lookup_delete_eq|]. rewrite !lookup_delete_ne by done. by apply Hq.
Qed.

Lemma others_owned id p st st' : others_same p st st' →
  ∀ q, q ≠ p → owned_checksum id <$> els st' !! q = owned_checksum id <$> els st !! q.
Proof.
  intros [He _] q Hq. specialize (He q Hq). destruct (els st !! q) as [n|], (els st' !! q) as [n'|]; try done. simpl. f_equal.
  destruct He as (_ & Hc & Hh & Ho & _). unfold owned_checksum, is_owned, is_member. by rewrite Hc, Hh, Ho.
Qed.

Lemma owned_at_Some id st p n : els st !! p = Some n → pen_OwnerPoolNode n ≠ None →
  own_at id st p = if pen_HomeRegistrarIdentifier n =? id then pen_Checksum n else 0.
Proof. intros Hn Ho. unfold own_at, owned_checksum, is_owned, is_member. rewrite Hn. simpl. by rewrite bool_decide_true. Qed.

Lemma owned_at_free id st p : (∀ n, els st !! p = Some n → pen_OwnerPoolNode n = None) → own_at id st p = 0.
Proof.
  intros Hn. unfold own_at. destruct (els st !! p) as [n|]; [|done]. simpl. unfold owned_checksum, is_owned, is_member.
  by rewrite bool_decide_false by (rewrite Hn by done; naive_solver).
Qed.

(** Nothing is owned differently, and nothing is told. *)
Lemma tracked_silent st st' p : hs_PoolNodeUpdateNotification st' = hs_PoolNodeUpdateNotification st →
  hs_Notifications st' = hs_Notifications st → others_same p st st' → (∀ id, own_at id st' p = own_at id st p) → tracked st st'.
Proof.
  intros Hf Hl Ho Hp. split; [done|]. exists []. split; [by rewrite Hl, app_nil_r|]. intros _ id.
  rewrite (msum_changed id st st' p) by by apply others_owned. rewrite Hp. simpl. lia.
Qed.

(** One element changes, with its notification. *)
Lemma tracked_one st st' p a preC preH n : hs_PoolNodeUpdateNotification st' = hs_PoolNodeUpdateNotification st →
  hs_Notifications st' = notified st p a preC preH n →
  (∀ id q, q ≠ p → owned_checksum id <$> els st' !! q = owned_checksum id <$> els st !! q) →
  (∀ id, own_at id st' p - own_at id st p =
     nf_effect id (MkNotification p a preC preH (pen_Checksum n) (pen_HomeRegistrarIdentifier n))) → tracked st st'.
Proof.
  intros Hf Hl Hq Hp. split; [done|]. unfold notified in Hl. destruct (hs_PoolNodeUpdateNotification st).
  - eexists. split; [exact Hl|]. intros _ id. rewrite (msum_changed id st st' p) by apply Hq. rewrite Hp. unfold nf_effects, foldr. lia.
  - exists []. by rewrite Hl, app_nil_r.
Qed.

Lemma tracked_deregistered st p n pp st' : els st !! p = Some n → pen_OwnerPoolNode n = Some pp →
  deregistered st p n pp st' → tracked st st'.
Proof.
  intros Hn Ho Hd. pose proof (dr_elements _ _ _ _ _ Hd) as He. eapply (tracked_one st st' p); [apply Hd|apply Hd| |].
  - intros id q Hq. by rewrite He, lookup_delete_ne.
  - intros id. rewrite (owned_at_free id st' p), (owned_at_Some id st p n Hn) by (try (rewrite He, lookup_delete_eq); congruence).
    unfold nf_effect. simpl. lia.
Qed.

Lemma tracked_outcome st pp pn p n r st' : els st !! p = Some n → pen_OwnerPoolNode n = None →
  registration_outcome st pp pn p n r st' → tracked st st'.
Proof.
  intros Hn Ho [err st1 q pnq _ _ _ He _ Hos Hf Hl|st1 q e x x' pn' _ _ _ Hx Hox _ Hx' Hup Hos Hc Hl|st1 q n' b _ _ Hn' Hreg Hos _ _ _ Hf Hl].
  - eapply (tracked_silent st st1 p); [done|done|apply Hos|]. intros id. unfold own_at. by rewrite He.
  - eapply (tracked_one st st1 e); [apply Hc|exact Hl|intros; by apply (others_owned _ e)|]. intros id.
    destruct Hup as (_ & Hck & Hou & _). rewrite (owned_at_Some id st1 e x' Hx'), (owned_at_Some id st e x Hx) by congruence. done.
  - eapply (tracked_one st st1 p); [done|exact Hl|intros; by apply (others_owned _ p)|]. intros id.
    destruct Hreg as (_ & Hou & _). rewrite (owned_at_Some id st1 p n' Hn') by congruence.
    rewrite (owned_at_free id st p) by congruence. unfold nf_effect. simpl. lia.
Qed.

(** Members are assigned that do not matter here. *)
Lemma tracked_store st p n n' : els st !! p = Some n → pen_Checksum n' = pen_Checksum n →
  pen_HomeRegistrarIdentifier n' = pen_HomeRegistrarIdentifier n → pen_OwnerPoolNode n' = pen_OwnerPoolNode n →
  tracked st (pe_store p n' st).
Proof.
  intros Hn Hc Hh Ho. eapply (tracked_silent _ _ p); [done..|apply others_same_store; eauto|]. intros id. unfold own_at. simpl.
  rewrite lookup_insert_eq, Hn. simpl. unfold owned_checksum, is_owned, is_member. by rewrite Hc, Hh, Ho.
Qed.

(** An element that does not belong to a pool is written. *)
Lemma tracked_free st p n : (∀ x, els st !! p = Some x → pen_OwnerPoolNode x = None) → pen_OwnerPoolNode n = None →
  tracked st (pe_store p n st).
Proof.
  intros Hp Ho. split; [done|]. exists []. split; [by rewrite app_nil_r|]. intros _ id.
  rewrite (msum_changed id st (pe_store p n st) p).
  - rewrite (owned_at_free id st p Hp), (owned_at_free id (pe_store p n st) p).
    + simpl. lia.
    + simpl. rewrite lookup_insert_eq. by intros x [= <-].
  - intros q Hq. simpl. by rewrite lookup_insert_ne.
Qed.

(** Only other parts of the state change. *)
Lemma tracked_same st st' : hs_PoolNodeUpdateNotification st' = hs_PoolNodeUpdateNotification st →
  hs_Notifications st' = hs_Notifications st → els st' = els st → tracked st st'.
Proof. intros Hf Hl He. split; [done|]. exists []. split; [by rewrite Hl, app_nil_r|]. intros _ id. rewrite He. simpl. lia. Qed.
(** ** Timers *)

Abbreviation timers st := (st_list (hs_PoolElementTimerStorage st)).

Definition code_at st q : option Z := pen_TimerCode <$> els st !! q.

Definition steady st st' : Prop := ∀ q, q ∈ timers st' → q ∈ timers st ∧ code_at st' q = code_at st q.

Lemma steady_trans st1 st2 st3 : steady st1 st2 → steady st2 st3 → steady st1 st3.
Proof. intros H1 H2 q Hq. destruct (H2 q Hq) as [Hq2 ->]. by apply H1. Qed.

(** All but [p] stay as they are, and [p] keeps its code. *)
Lemma steady_others p st st' : others_same p st st' → timers st' = timers st → (p ∈ timers st → code_at st' p = code_at st p) →
  steady st st'.
Proof.
  intros [He _] Ht Hp q. rewrite Ht. intros Hq. split; [done|]. destruct (decide (q = p)) as [->|Hne]; [by apply Hp|].
  specialize (He q Hne). unfold code_at. destruct (els st !! q), (els st' !! q); try done. simpl. by destruct He as (_ & _ & _ & _ & _ & _ & _ & _ & ->).
Qed.

Lemma linked_valid st p n : slot_inv SlotTimer st (hs_PoolElementTimerStorage st) → p ∈ timers st → els st !! p = Some n → pen_OwnerPoolNode n ≠ None.
Proof.
  intros Hi Hp Hn Ho. destruct (si_valid _ _ _ Hi p Hp) as (x & h & Hx & Hh). rewrite Hn in Hx. injection Hx as <-.
  unfold owner_handle in Hh. by rewrite Ho in Hh.
Qed.

Lemma steady_outcome st pp pn p n r st' : slot_inv SlotTimer st (hs_PoolElementTimerStorage st) → els st !! p = Some n →
  pen_OwnerPoolNode n = None → registration_outcome st pp pn p n r st' → steady st st'.
Proof.
  intros Hi Hn Ho [err st1 q pnq _ _ _ He _ Hos Ht _ _|st1 q e x x' pn' _ _ _ Hx Hox _ Hx' Hup Hos Hc _|st1 q n' b _ _ Hn' Hreg Hos _ _ Ht _ _].
  - apply (steady_others p); [apply Hos|by rewrite Ht|]. unfold code_at. by rewrite He.
  - apply (steady_others e); [done|by destruct Hc as (_ & _ & _ & _ & -> & _)|]. unfold code_at. rewrite Hx, Hx'. simpl.
    by destruct Hup as (_ & _ & _ & _ & _ & _ & _ & ->).
  - apply (steady_others p); [done|by rewrite Ht|]. intros Hp. by destruct (linked_valid st p n Hi Hp Hn).
Qed.

(** ** Both *)

Definition followed st st' : Prop := tracked st st' ∧ steady st st'.

Lemma followed_refl st : followed st st.
Proof. by split; [apply tracked_refl|]. Qed.

Lemma followed_trans st1 st2 st3 : followed st1 st2 → followed st2 st3 → followed st1 st3.
Proof. intros [] []. split; [by eapply tracked_trans|by eapply steady_trans]. Qed.

Lemma followed_same st st' : hs_PoolNodeUpdateNotification st' = hs_PoolNodeUpdateNotification st →
  hs_Notifications st' = hs_Notifications st → els st' = els st → (∀ q, q ∈ timers st' → q ∈ timers st) → followed st st'.
Proof. intros ? ? He Ht. split; [by apply tracked_same|]. intros q Hq. split; [by apply Ht|]. unfold code_at. by rewrite He. Qed.

Lemma followed_store st p n n' : els st !! p = Some n → pen_Checksum n' = pen_Checksum n →
  pen_HomeRegistrarIdentifier n' = pen_HomeRegistrarIdentifier n → pen_OwnerPoolNode n' = pen_OwnerPoolNode n →
  pen_TimerCode n' = pen_TimerCode n → followed st (pe_store p n' st).
Proof.
  intros Hn ? ? ? Hc. split; [by apply (tracked_store _ p n)|]. apply (steady_others p); [apply others_same_store; eauto|done|].
  unfold code_at. simpl. rewrite lookup_insert_eq, Hn. simpl. by rewrite Hc.
Qed.

Lemma followed_free st p n : slot_inv SlotTimer st (hs_PoolElementTimerStorage st) →
  (∀ x, els st !! p = Some x → pen_OwnerPoolNode x = None) → pen_OwnerPoolNode n = None → followed st (pe_store p n st).
Proof.
  intros Hi Hp Ho. split; [by apply tracked_free|]. intros q Hq. split; [done|]. unfold code_at. simpl.
  destruct (decide (q = p)) as [->|]; [|by rewrite lookup_insert_ne]. simpl in Hq.
  destruct (si_valid _ _ _ Hi p Hq) as (x & h & Hx & _). by destruct (linked_valid st p x Hi Hq Hx (Hp x Hx)).
Qed.

Lemma followed_deregistered st p n pp st' : els st !! p = Some n → pen_OwnerPoolNode n = Some pp →
  deregistered st p n pp st' → followed st st'.
Proof.
  intros Hn Ho Hd. split; [by eapply tracked_deregistered|]. intros q. rewrite (dr_timers _ _ _ _ _ Hd). intros [Hne Hq]%l_remove_elem.
  split; [done|]. unfold code_at. by rewrite (dr_elements _ _ _ _ _ Hd), lookup_delete_ne.
Qed.

Lemma followed_outcome st pp pn p n r st' : slot_inv SlotTimer st (hs_PoolElementTimerStorage st) → els st !! p = Some n →
  pen_OwnerPoolNode n = None → registration_outcome st pp pn p n r st' → followed st st'.
Proof. intros. split; [by eapply tracked_outcome|by eapply steady_outcome]. Qed.
End notifications.
