(* ===== verification/HandlespaceRegistration.v ===== *)
(** * Registration and deregistration as operations on a map

    The registrations of a handlespace are a partial function from pool
    handles and element identifiers.  Registering inserts, deregistering
    deletes, a refused registration changes nothing; the error codes tell
    which has happened.  The invariant [phm_inv] also says that no memory
    is lost. *)

From S2P Require Import Prelude Checksum Addresses PoolBasics Storage PoolElement PoolPolicy HandlespaceState PoolNode PoolEffects PoolSelection HandlespaceNode HandlespaceInv HandlespaceOps HandlespaceEffects HandlespaceUpdate HandlespaceMgt HandlespaceMgtInv HandlespaceNotifications.
From stdpp Require Import base list gmap numbers option sorting sets.
#[local] Open Scope Z_scope.

(** ** The abstract view *)

Record Registration := MkRegistration {
  reg_HomeRegistrarIdentifier : Z;
  reg_UserTransport : TransportAddressBlock;
  reg_RegistratorTransport : option TransportAddressBlock;
  reg_ConnectionSocketDescriptor : Z;
  reg_ConnectionAssocID : Z
}.

Definition reg_of (n : PoolElementNode) : Registration :=
  MkRegistration (pen_HomeRegistrarIdentifier n) (pen_UserTransport n) (pen_RegistratorTransport n)
    (pen_ConnectionSocketDescriptor n) (pen_ConnectionAssocID n).

Section registration.
Context {ST : Type} `{SL : StorageLaws ST} `{En : Endian}.
Abbreviation HS := (Handlespace ST).
Abbreviation PHM := (PoolHandlespaceManagement ST).
Implicit Types (st : HS) (pn : PoolNode ST) (p q pp : ptr) (E XO XC : list ptr).

Definition registered_at st p (h : PoolHandle) (id : Z) (r : Registration) : Prop :=
  ∃ n, hs_PoolElementNodes st !! p = Some n ∧ owner_handle st n = Some h ∧ pen_Identifier n = id ∧ reg_of n = r.

Definition registered st h id r : Prop := ∃ p, registered_at st p h id r.

(** A key determines the element and with it the registration. *)
Lemma registered_at_inj E XO XC st p q h id r r' : hs_struct E XO XC st →
  registered_at st p h id r → registered_at st q h id r' → p = q ∧ r = r'.
Proof.
  intros Hs (n & Hn & Hh & Hid & Hr) (m & Hm & Hh' & Hid' & Hr').
  assert (p = q) as <- by (eapply hs_struct_element_inj; [done|exact Hn|exact Hm|done|done|congruence]).
  simplify_eq. done.
Qed.

Lemma registered_at_others E XO XC st st' p q h id r : hs_struct E XO XC st → others_same p st st' → q ≠ p →
  registered_at st' q h id r ↔ registered_at st q h id r.
Proof.
  intros Hs [He Hp] Hq. specialize (He q Hq). unfold registered_at.
  destruct (hs_PoolElementNodes st !! q) as [n|] eqn:Hn, (hs_PoolElementNodes st' !! q) as [n'|] eqn:Hn'; try done; [|naive_solver].
  destruct He as (Hi & _ & Hhome & Ho & Hsd & Has & Hut & Hrt & _).
  assert (owner_handle st' n' = owner_handle st n) as Hoh.
  { unfold owner_handle. rewrite Ho. destruct (pen_OwnerPoolNode n) as [o|] eqn:Heq; [|done]. simpl.
    pose proof (hs_struct_pools_valid _ _ _ _ Hs q n o Hn Heq) as Hsome. specialize (Hp o).
    destruct Hsome as [pn Hpn]. rewrite Hpn in Hp |- *. apply fmap_Some in Hp as (pn' & -> & Hph). simpl. by rewrite Hph. }
  assert (reg_of n' = reg_of n) as Hr by (unfold reg_of; by rewrite Hhome, Hsd, Has, Hut, Hrt).
  split; intros (x & [= <-] & Hx & Hix & Hrx); eexists; (split; [done|]); rewrite ?Hoh, ?Hi, ?Hr in *; done.
Qed.

(** One element set to a new registration: the map is updated there. *)
Lemma view_insert E XO XC E' XO' XC' st st' e h id r : hs_struct E XO XC st → hs_struct E' XO' XC' st' →
  others_same e st st' → registered_at st' e h id r →
  (∀ h' id' r', registered_at st e h' id' r' → h' = h ∧ id' = id) →
  ∀ h' id' r', registered st' h' id' r' ↔
    (h' = h ∧ id' = id ∧ r' = r) ∨ (¬ (h' = h ∧ id' = id) ∧ registered st h' id' r').
Proof.
  intros Hs Hs' Hos He Hold h' id' r'. split.
  - intros [q Hq]. destruct (decide (q = e)) as [->|Hne].
    + left. destruct He as (n & Hn & ? & ? & ?), Hq as (m & ? & ? & ? & ?). simplify_eq. done.
    + right. split; [|exists q; by apply (registered_at_others E XO XC st st' e)]. intros [-> ->]. apply Hne.
      by eapply registered_at_inj.
  - intros [(-> & -> & ->)|[Hne [q Hq]]]; [by exists e|]. exists q.
    eapply registered_at_others; [exact Hs|exact Hos| |done]. intros ->. by apply Hne, (Hold _ _ _ Hq).
Qed.

(** An element removed from the heap: the map loses its key. *)
Lemma view_delete E XO XC st p n pp st' h id r : hs_struct E XO XC st → deregistered st p n pp st' →
  registered_at st p h id r →
  ∀ h' id' r', registered st' h' id' r' ↔ ¬ (h' = h ∧ id' = id) ∧ registered st h' id' r'.
Proof.
  intros Hs Hd Hp h' id' r'. assert (∀ q, q ≠ p → registered_at st' q h' id' r' ↔ registered_at st q h' id' r') as Hsame.
  { intros q Hq. unfold registered_at. rewrite (dr_elements _ _ _ _ _ Hd), lookup_delete_ne by done.
    split; intros (m & Hm & Hh & Hx); exists m; (split; [done|]); [rewrite <- (dr_handles _ _ _ _ _ Hd q)|rewrite (dr_handles _ _ _ _ _ Hd q)]; done. }
  split.
  - intros [q Hq]. assert (q ≠ p) as Hne.
    { intros ->. destruct Hq as (m & Hm & _). by rewrite (dr_elements _ _ _ _ _ Hd), lookup_delete_eq in Hm. }
    apply Hsame in Hq; [|done]. split; [|by exists q]. intros [-> ->]. apply Hne. by eapply registered_at_inj.
  - intros [Hne [q Hq]]. exists q. apply Hsame; [|done]. intros ->. apply Hne.
    destruct Hp as (m & Hm & ? & ? & ?), Hq as (m' & Hm' & ? & ? & ?). simplify_eq. done.
Qed.

(** ** Finding an element *)

Lemma index_probe st pp s id : slot_inv (SlotIndex pp) st s → probes (SlotIndex pp) st s (compareIdentifier id st) [id].
Proof.
  intros Hinv q Hq. destruct (si_valid _ _ _ Hinv q Hq) as [n Hn]. unfold compareIdentifier. simpl. rewrite Hn. simpl.
  unfold indexKey. simpl. by destruct (id <? pen_Identifier n), (pen_Identifier n <? id).
Qed.

Lemma findElement_spec st h id : hs_inv st → handle_wf h → ∃ r,
  poolHandlespaceNodeFindPoolElementNode h id st = Some (r, st) ∧
  match r with
  | Some p => ∃ n, hs_PoolElementNodes st !! p = Some n ∧ owner_handle st n = Some h ∧ pen_Identifier n = id
  | None => ∀ reg, ¬ registered st h id reg
  end.
Proof.
  intros [Hs Ha] Hh. destruct (findPool_spec _ _ _ st h Hs Hh) as (r & Hrun & Hr).
  unfold poolHandlespaceNodeFindPoolElementNode. rewrite (run_bind _ _ _ _ _ Hrun). destruct r as [pp|].
  - destruct (pool_of_inv _ _ _ _ _ _ Hs Hr) as (pn & Hinv & Hph). pose proof (pi_lookup _ _ _ _ _ Hinv) as Hpn.
    destruct (storageFind_ex (SlotIndex pp) st (pn_PoolElementIndexStorage pn) (compareIdentifier id) [id])
      as (r & Hfind & Hspec); [simpl; by rewrite Hpn|apply Hinv|apply index_probe, Hinv|].
    exists r. split; [exact Hfind|]. destruct r as [p|].
    + destruct Hspec as [Hin Hkey]. destruct (pi_element _ _ _ _ _ Hinv p Hin) as (n & Hn & _ & _ & [[Ho _]|[_ HU]]);
        [|by apply not_elem_of_nil in HU]. exists n. split; [done|]. split.
      * unfold owner_handle. rewrite Ho. simpl. rewrite Hpn. simpl. by rewrite Hph.
      * simpl in Hkey. rewrite Hn in Hkey. by injection Hkey.
    + intros reg (p & n & Hn & Hoh & Hid & _). destruct (pen_OwnerPoolNode n) as [o|] eqn:Ho; [|by unfold owner_handle in Hoh; rewrite Ho in Hoh].
      destruct (hs_struct_owner _ _ _ _ p n Hs Hn ltac:(by rewrite Ho)) as (o' & pno & Ho' & Hoin & Hpo & Hoh' & Hpin). simplify_eq.
      assert (o = pp) as ->.
      { destruct Hr as (Hppin & pn0 & Hpn0 & _). eapply hs_struct_handle_inj; [done|done|done|apply Hpo|exact Hpn|congruence]. }
      pose proof (pi_lookup _ _ _ _ _ Hpo). simplify_eq. apply (Hspec p Hpin). simpl. by rewrite Hn.
  - exists None. split; [done|]. intros reg (p & n & Hn & Hoh & _).
    destruct (pen_OwnerPoolNode n) as [o|] eqn:Ho; [|by unfold owner_handle in Hoh; rewrite Ho in Hoh].
    destruct (hs_struct_owner _ _ _ _ p n Hs Hn ltac:(by rewrite Ho)) as (o' & pno & Ho' & Hoin & Hpo & Hoh' & _). simplify_eq.
    apply (Hr o). split; [done|]. exists pno. split; [apply Hpo|congruence].
Qed.
(** ** The invariant of the management *)

(** Besides [hs_inv]: every pool in memory is linked or is [NewPoolNode],
    every element in memory is linked or is [NewPoolElementNode]. *)
Record phm_inv (m : PHM) : Prop := {
  pm_inv : hs_inv (phm_Handlespace m);
  pm_pools pp : is_Some (hs_PoolNodes (phm_Handlespace m) !! pp) ↔
    pp ∈ st_list (hs_PoolIndexStorage (phm_Handlespace m)) ∨ phm_NewPoolNode m = Some pp;
  pm_new_pool pp : phm_NewPoolNode m = Some pp → pp ∉ st_list (hs_PoolIndexStorage (phm_Handlespace m));
  pm_new_element p : (∃ n, hs_PoolElementNodes (phm_Handlespace m) !! p = Some n ∧ pen_OwnerPoolNode n = None) ↔
    phm_NewPoolElementNode m = Some p
}.

Lemma onHandlespace_run {A} (f : M HS A) (m : PHM) a st : f (phm_Handlespace m) = Some (a, st) →
  onHandlespace f m = Some (a, phm_set_Handlespace st m).
Proof. intros Hf. unfold onHandlespace. by rewrite Hf. Qed.

Lemma phm_set_same (m : PHM) : phm_set_Handlespace (phm_Handlespace m) m = m.
Proof. by destruct m. Qed.

(** Changes of members of linked elements. *)
Lemma phm_inv_store m p n n' : phm_inv m → hs_PoolElementNodes (phm_Handlespace m) !! p = Some n →
  pen_OwnerPoolNode n' = pen_OwnerPoolNode n → hs_inv (pe_store p n' (phm_Handlespace m)) →
  phm_inv (phm_set_Handlespace (pe_store p n' (phm_Handlespace m)) m).
Proof.
  intros [] Hn Ho Hi. split; simpl; try done. intros q. rewrite <- pm_new_element0. destruct (decide (q = p)) as [->|Hne].
  - rewrite lookup_insert_eq. rewrite Hn. split; intros (x & [= <-] & Hx); eexists; (split; [done|]); congruence.
  - by rewrite lookup_insert_ne.
Qed.

Context (poolDisposer elementDisposer : option (ptr → M HS ())).
Context (poolDisposer_ok : disposer_ok poolDisposer) (elementDisposer_ok : disposer_ok elementDisposer).

Lemma phm_inv_deregistered m p n pp st' : phm_inv m → hs_PoolElementNodes (phm_Handlespace m) !! p = Some n →
  pen_OwnerPoolNode n = Some pp → hs_inv st' → deregistered (phm_Handlespace m) p n pp st' →
  phm_inv (phm_set_Handlespace st' m).
Proof.
  intros [Hi Hpools Hnew Hel] Hn Ho Hi' Hd. set (st := phm_Handlespace m) in *.
  pose proof (hi_owner _ _ _ _ (proj1 Hi) p n pp Hn Ho) as Hpp.
  assert (phm_NewPoolNode m ≠ Some pp) as Hnpp by (intros Heq; by apply (Hnew pp Heq)).
  assert (∀ q, q ≠ pp → q ∈ st_list (hs_PoolIndexStorage st') ↔ q ∈ st_list (hs_PoolIndexStorage st)) as Hix.
  { intros q Hq. destruct (dr_pools _ _ _ _ _ Hd) as [[_ ->]|(_ & -> & _)]; [done|]. rewrite l_remove_elem. naive_solver. }
  split; simpl; [done| | |].
  - intros q. destruct (decide (q = pp)) as [->|Hq]; [|by rewrite (dr_other_pools _ _ _ _ _ Hd), Hix, Hpools].
    destruct (dr_pools _ _ _ _ _ Hd) as [[_ Heq]|(_ & Heq & Hnone)].
    + rewrite Heq. split; [by left|intros _]. apply (si_valid _ _ _ (hi_pools _ _ _ _ (proj1 Hi')) pp). by rewrite Heq.
    + rewrite Heq, l_remove_elem, Hnone. split; [by intros [? ?]|]. intros [[? _]|?]; [done|congruence].
  - intros q Hq. rewrite Hix; [by apply Hnew|]. congruence.
  - intros q. rewrite (dr_elements _ _ _ _ _ Hd), <- Hel. destruct (decide (q = p)) as [->|Hne].
    + rewrite lookup_delete_eq. split; intros (x & Hx & ?); [done|]. congruence.
    + by rewrite lookup_delete_ne.
Qed.

(** ** Deregistration deletes *)

(** The registrations of [m'] are those of [m] without the key. *)
Definition view_without (m m' : PHM) h id : Prop := ∀ h' id' r',
  registered (phm_Handlespace m') h' id' r' ↔ ¬ (h' = h ∧ id' = id) ∧ registered (phm_Handlespace m) h' id' r'.

(** The registrations of [m'] are those of [m] with the key mapped to [r]. *)
Definition view_with (m m' : PHM) h id r : Prop := ∀ h' id' r',
  registered (phm_Handlespace m') h' id' r' ↔
    (h' = h ∧ id' = id ∧ r' = r) ∨ (¬ (h' = h ∧ id' = id) ∧ registered (phm_Handlespace m) h' id' r').

Definition view_same (m m' : PHM) : Prop := ∀ h' id' r',
  registered (phm_Handlespace m') h' id' r' ↔ registered (phm_Handlespace m) h' id' r'.

(** The notifications account for the changes. *)
Definition follows (m m' : PHM) : Prop := followed (phm_Handlespace m) (phm_Handlespace m').

Lemma deregister_run m h id : phm_inv m → handle_wf h → ∃ err m',
  poolHandlespaceManagementDeregisterPoolElement poolDisposer elementDisposer h id m = Some (err, m') ∧ phm_inv m' ∧
  (err = RSPERR_OKAY ∧ (∃ r, registered (phm_Handlespace m) h id r) ∧ view_without m m' h id ∨
   err = RSPERR_NOT_FOUND ∧ (∀ r, ¬ registered (phm_Handlespace m) h id r) ∧ m' = m) ∧ follows m m'.
Proof.
  intros Hm Hh. pose proof (pm_inv _ Hm) as Hi. destruct (findElement_spec _ h id Hi Hh) as (r & Hfind & Hr).
  unfold poolHandlespaceManagementDeregisterPoolElement.
  rewrite (run_bind _ _ _ _ _ (onHandlespace_run _ _ _ _ Hfind)), phm_set_same. destruct r as [p|].
  - destruct Hr as (n & Hn & Hoh & Hid).
    destruct (pen_OwnerPoolNode n) as [pp|] eqn:Ho; [|by unfold owner_handle in Hoh; rewrite Ho in Hoh].
    destruct (deregisterByPtr_spec _ _ poolDisposer_ok elementDisposer_ok _ p n pp Hi Hn Ho) as (st' & Hrun & Hi' & Hd).
    eexists _, _. split; [by apply onHandlespace_run|]. split; [by eapply phm_inv_deregistered|].
    assert (registered_at (phm_Handlespace m) p h id (reg_of n)) as Hat by (exists n; done).
    split; [|by eapply followed_deregistered].
    left. split; [done|]. split; [by exists (reg_of n), p|]. intros h' id' r'. by eapply view_delete; [apply Hi|..].
  - exists RSPERR_NOT_FOUND, m. split; [done|]. split; [done|]. split; [by right|apply followed_refl].
Qed.
(** ** Registration inserts *)

(** [malloc] returns memory that is not in use. *)
Definition fresh_memory (m : PHM) (mem : Memory) : Prop :=
  (∀ pp, mem_PoolNode mem = Some pp → hs_PoolNodes (phm_Handlespace m) !! pp = None) ∧
  (∀ p, mem_PoolElementNode mem = Some p → hs_PoolElementNodes (phm_Handlespace m) !! p = None).

Lemma preparePool_run m mem h policy protocol flags pn : phm_inv m → fresh_memory m mem → handle_wf h →
  policy ∈ PoolPolicyArray → poolNodeNew h policy protocol flags = Some pn →
  allocatePoolNode mem m = Some (None, m) ∧ phm_NewPoolNode m = None ∧ mem_PoolNode mem = None ∨
  ∃ pp, allocatePoolNode mem m = Some (Some pp, phm_set_NewPoolNode (Some pp) m) ∧
    pp ∉ st_list (hs_PoolIndexStorage (phm_Handlespace m)) ∧
    let m' := phm_set_Handlespace (pool_store pp pn (phm_Handlespace m)) (phm_set_NewPoolNode (Some pp) m) in
    phm_inv m' ∧ view_same m m'.
Proof.
  intros Hm [Hfp Hfe] Hh Hpol Hnew. pose proof (pm_inv _ Hm) as Hi. set (st := phm_Handlespace m) in *.
  assert (∀ pp, pp ∉ st_list (hs_PoolIndexStorage st) →
    (∀ q, phm_NewPoolNode m = Some q → q = pp) → allocatePoolNode mem m = Some (Some pp, phm_set_NewPoolNode (Some pp) m) →
    ∃ pp, allocatePoolNode mem m = Some (Some pp, phm_set_NewPoolNode (Some pp) m) ∧
    pp ∉ st_list (hs_PoolIndexStorage (phm_Handlespace m)) ∧
    let m' := phm_set_Handlespace (pool_store pp pn (phm_Handlespace m)) (phm_set_NewPoolNode (Some pp) m) in
    phm_inv m' ∧ view_same m m') as Hdone.
  { intros pp Hnin Huniq Halloc. exists pp. split; [done|]. split; [done|].
    assert (∀ q n, hs_PoolElementNodes st !! q = Some n → pen_OwnerPoolNode n ≠ Some pp) as Hno.
    { intros q n Hn Ho. apply Hnin. by eapply (hi_owner _ _ _ _ (proj1 Hi)). }
    destruct (poolNodeNew_inv st pp h policy protocol flags pn) as (Hpinv & Hempty & Hph); try done.
    pose proof (hs_inv_pool_new st pp pn Hi Hnin Hpinv Hempty) as Hi'. simpl. fold st.
    split.
    - split; simpl; try done.
      + intros q. destruct (decide (q = pp)) as [->|Hne]; [rewrite lookup_insert_eq; naive_solver|].
        rewrite lookup_insert_ne by done. pose proof (pm_pools _ Hm q) as Hq. fold st in Hq. rewrite Hq.
        split; intros [?|Heq]; try (by left).
        * destruct Hne. by apply Huniq.
        * by simplify_eq.
      + intros q [= <-]. done.
      + apply Hm.
    - intros h' id' r'. unfold registered, registered_at. simpl. fold st.
      assert (∀ n q, hs_PoolElementNodes st !! q = Some n → owner_handle (pool_store pp pn st) n = owner_handle st n) as Hoh.
      { intros n q Hn. unfold owner_handle. destruct (pen_OwnerPoolNode n) as [o|] eqn:Ho; [|done]. simpl.
        rewrite lookup_insert_ne; [done|]. intros <-. by apply (Hno q n Hn). }
      split; intros (q & n & Hn & Ho & Hx); exists q, n; (split; [done|]); [rewrite <- (Hoh n q Hn)|rewrite (Hoh n q Hn)]; done. }
  unfold allocatePoolNode in *. destruct (phm_NewPoolNode m) as [pp|] eqn:Hpp.
  - right. apply (Hdone pp); [by apply (pm_new_pool _ Hm)|by intros q [= <-]|]. unfold mbind, M_bind, get. rewrite Hpp.
    by destruct m; simpl in *; subst.
  - destruct (mem_PoolNode mem) as [pp|] eqn:Hmem.
    + right. apply (Hdone pp); [|done|].
      * intros Hin. pose proof (Hfp pp eq_refl) as Hnone. assert (is_Some (hs_PoolNodes st !! pp)) as [? ?] by (apply (pm_pools _ Hm); by left). congruence.
      * unfold mbind, M_bind, get. by rewrite Hpp.
    + left. unfold mbind, M_bind, get. rewrite Hpp. split; [|done]. unfold put. by destruct m; simpl in *; subst.
Qed.

Lemma prepareElement_run m mem n : phm_inv m →
  (∀ p, mem_PoolElementNode mem = Some p → hs_PoolElementNodes (phm_Handlespace m) !! p = None) → pen_OwnerPoolNode n = None → pen_wf n →
  allocatePoolElementNode mem m = Some (None, m) ∧ phm_NewPoolElementNode m = None ∧ mem_PoolElementNode mem = None ∨
  ∃ p, allocatePoolElementNode mem m = Some (Some p, phm_set_NewPoolElementNode (Some p) m) ∧
    let m' := phm_set_Handlespace (pe_store p n (phm_Handlespace m)) (phm_set_NewPoolElementNode (Some p) m) in
    phm_inv m' ∧ view_same m m' ∧ follows m m'.
Proof.
  intros Hm Hfe Ho Hwf. pose proof (pm_inv _ Hm) as Hi. set (st := phm_Handlespace m) in *.
  assert (∀ p, (∀ x, hs_PoolElementNodes st !! p = Some x → pen_OwnerPoolNode x = None) →
    (∀ q, phm_NewPoolElementNode m = Some q → q = p) →
    allocatePoolElementNode mem m = Some (Some p, phm_set_NewPoolElementNode (Some p) m) →
    ∃ p, allocatePoolElementNode mem m = Some (Some p, phm_set_NewPoolElementNode (Some p) m) ∧
    let m' := phm_set_Handlespace (pe_store p n (phm_Handlespace m)) (phm_set_NewPoolElementNode (Some p) m) in
    phm_inv m' ∧ view_same m m' ∧ follows m m') as Hdone.
  { intros p Hold Huniq Halloc. exists p. split; [done|]. simpl. fold st.
    pose proof (hs_inv_element_new st p n Hi Hold Ho Hwf) as Hi'. split.
    - split; simpl; try done; [apply Hm|apply Hm|]. intros q. fold st. destruct (decide (q = p)) as [->|Hne].
      + rewrite lookup_insert_eq. split; [done|]. intros _. by exists n.
      + rewrite lookup_insert_ne by done. pose proof (pm_new_element _ Hm q) as Hq. fold st in Hq. rewrite Hq.
        split; [intros Heq; by destruct Hne; apply Huniq|intros [= <-]; done].
    - split; [|by apply followed_free; [apply (hi_timer _ _ _ _ (proj1 Hi))|..]]. intros h' id' r'. unfold registered, registered_at. simpl. fold st.
      split; intros (q & x & Hx & Hoh & Hrest); exists q, x; (split; [|done]).
      + apply lookup_insert_Some in Hx as [[-> <-]|[_ ?]]; [|done]. unfold owner_handle in Hoh. by rewrite Ho in Hoh.
      + rewrite lookup_insert_ne; [done|]. intros <-. unfold owner_handle in Hoh. by rewrite (Hold x Hx) in Hoh. }
  unfold allocatePoolElementNode in *. destruct (phm_NewPoolElementNode m) as [p|] eqn:Hp.
  - right. apply (Hdone p); [|by intros q [= <-]|].
    + intros x Hx. destruct (proj2 (pm_new_element _ Hm p) Hp) as (y & Hy & ?). fold st in Hy. by simplify_eq.
    + unfold mbind, M_bind, get. rewrite Hp. by destruct m; simpl in *; subst.
  - destruct (mem_PoolElementNode mem) as [p|] eqn:Hmem.
    + right. apply (Hdone p); [|done|].
      * intros x Hx. pose proof (Hfe p eq_refl) as Hnone. fold st in Hnone. congruence.
      * unfold mbind, M_bind, get. by rewrite Hp.
    + left. unfold mbind, M_bind, get. rewrite Hp. split; [|done]. unfold put. by destruct m; simpl in *; subst.
Qed.
Lemma others_owner e st st' q : others_same e st st' → q ≠ e →
  (∃ n, hs_PoolElementNodes st' !! q = Some n ∧ pen_OwnerPoolNode n = None) ↔
  (∃ n, hs_PoolElementNodes st !! q = Some n ∧ pen_OwnerPoolNode n = None).
Proof.
  intros [He _] Hq. specialize (He q Hq).
  destruct (hs_PoolElementNodes st !! q) as [n|], (hs_PoolElementNodes st' !! q) as [n'|]; try done.
  destruct He as (_ & _ & _ & Ho & _). split; intros (x & [= <-] & Hx); eexists; (split; [done|]); congruence.
Qed.

Lemma others_pools e st st' q : others_same e st st' → is_Some (hs_PoolNodes st' !! q) ↔ is_Some (hs_PoolNodes st !! q).
Proof. intros [_ Hp]. specialize (Hp q). by rewrite <- (fmap_is_Some pn_Handle), Hp, fmap_is_Some. Qed.

Lemma addOrUpdate_run m pp pn p n : phm_inv m → phm_NewPoolNode m = Some pp → phm_NewPoolElementNode m = Some p →
  hs_PoolNodes (phm_Handlespace m) !! pp = Some pn → hs_PoolElementNodes (phm_Handlespace m) !! p = Some n →
  hs_PoolElements (phm_Handlespace m) + 1 < 2 ^ 31 → ∃ r m',
  addOrUpdate pp p m = Some (r, m') ∧ phm_inv m' ∧
  registration_outcome (phm_Handlespace m) pp pn p n r (phm_Handlespace m').
Proof.
  intros Hm Hnp Hne Hpn Hn Hb. set (st := phm_Handlespace m) in *. pose proof (pm_new_pool _ Hm pp Hnp) as Hnin.
  assert (pen_OwnerPoolNode n = None) as Ho by (destruct (proj2 (pm_new_element _ Hm p) Hne) as (x & Hx & ?); fold st in Hx; congruence).
  destruct (addOrUpdate_spec st pp pn p n) as (r & st' & Hrun & Hi' & Hout); [apply Hm|done|done|].
  eexists r, _. unfold addOrUpdate. rewrite (run_bind _ _ _ _ _ (onHandlespace_run _ _ _ _ Hrun)).
  split; [done|]. split; [|done]. pose proof (pm_pools _ Hm) as Hpools. pose proof (pm_new_element _ Hm) as Hels. fold st in Hpools, Hels.
  destruct Hout as [err st' q pnq _ _ _ He Hix Hos _ _ _|st' q e x x' pn' _ _ _ Hx Hox _ Hx' Hup Hos Hc _|st' q n' b _ Hcase Hn' Hreg Hos _ _ _ _ _];
    split; simpl; try done.
  - intros q'. rewrite (others_pools p st st' q') by done. by rewrite Hix.
  - intros q'. rewrite Hix. by apply Hm.
  - by rewrite He.
  - intros q'. rewrite (others_pools e st st' q') by done. by destruct Hc as (_ & _ & _ & -> & _).
  - intros q'. destruct Hc as (_ & _ & _ & -> & _). by apply Hm.
  - intros q'. rewrite <- Hels. destruct (decide (q' = e)) as [->|Hqe]; [|by apply (others_owner e)].
    destruct Hup as (_ & _ & Hou & _). split; intros (y & Hy & ?); [|congruence]. simplify_eq. congruence.
  - intros q'. rewrite (others_pools p st st' q'), Hpools by done. destruct b.
    + destruct Hcase as (-> & _ & Hperm). rewrite Hperm. rewrite Hnp. rewrite elem_of_cons. naive_solver.
    + by destruct Hcase as [_ ->].
  - intros q'. destruct b; [done|]. destruct Hcase as [_ ->]. by apply Hm.
  - intros q'. split; [|done]. intros Hex. destruct (decide (q' = p)) as [->|Hqp].
    + destruct Hex as (y & Hy & ?), Hreg as (_ & Hou & _). congruence.
    + apply (others_owner p st st' q' Hos Hqp), Hels in Hex. congruence.
Qed.

(** The element in its final form. *)
Definition completed ut rt now (n : PoolElementNode) : PoolElementNode :=
  set_RegistratorTransport rt (set_UserTransport ut (set_LastUpdateTimeStamp now n)).

Lemma hs_inv_assign st p n n' : hs_inv st → hs_PoolElementNodes st !! p = Some n → pen_wf n' → pe_keys_same n n' →
  compat_kept st n n' → pen_TimerTimeStamp n' = pen_TimerTimeStamp n →
  pen_HomeRegistrarIdentifier n' = pen_HomeRegistrarIdentifier n →
  pen_ConnectionSocketDescriptor n' = pen_ConnectionSocketDescriptor n →
  pen_ConnectionAssocID n' = pen_ConnectionAssocID n → pen_Checksum n' = pen_Checksum n → hs_inv (pe_store p n' st).
Proof.
  intros [Hs Ha] Hn Hwf Hkeys Hcompat Ht Hh Hsd Hassoc Hck. split.
  - apply (hs_struct_assign [] [] [] st p n n'); try done; by left.
  - eapply hs_acct_store; try done; apply Hkeys.
Qed.

Lemma completed_inv m e n pp pn ut rt now : phm_inv m → hs_PoolElementNodes (phm_Handlespace m) !! e = Some n →
  pen_OwnerPoolNode n = Some pp → hs_PoolNodes (phm_Handlespace m) !! pp = Some pn →
  poolNodeCheckPoolElementNodeCompatibility pn (set_RegistratorTransport rt (set_UserTransport ut n)) = RSPERR_OKAY →
  let m' := phm_set_Handlespace (pe_store e (completed ut rt now n) (phm_Handlespace m)) m in phm_inv m'.
Proof.
  intros Hm Hn Ho Hpn Hc. simpl. apply (phm_inv_store m e n); try done. apply (hs_inv_assign _ e n); try done; try apply Hm.
  - exact (hi_wf _ _ _ _ (proj1 (pm_inv _ Hm)) e n Hn).
  - intros pp' pn' Hpp' Hpn' _. rewrite Ho in Hpp'. injection Hpp' as <-. rewrite Hpn in Hpn'. injection Hpn' as <-. exact Hc.
Qed.
Lemma view_same_store m p n n' : hs_PoolElementNodes (phm_Handlespace m) !! p = Some n →
  pen_Identifier n' = pen_Identifier n → pen_OwnerPoolNode n' = pen_OwnerPoolNode n → reg_of n' = reg_of n →
  view_same m (phm_set_Handlespace (pe_store p n' (phm_Handlespace m)) m).
Proof.
  intros Hn Hi Ho Hr h id r. unfold registered, registered_at. simpl.
  split; intros (q & x & Hx & Hoh & Hid & Hrx).
  - destruct (decide (q = p)) as [->|Hne].
    + rewrite lookup_insert_eq in Hx. injection Hx as <-. exists p, n. split; [done|]. unfold owner_handle in *.
      rewrite Ho in Hoh. split; [done|]. split; congruence.
    + rewrite lookup_insert_ne in Hx by done. by exists q, x.
  - destruct (decide (q = p)) as [->|Hne].
    + exists p, n'. rewrite lookup_insert_eq. rewrite Hn in Hx. injection Hx as <-. split; [done|]. unfold owner_handle in *. rewrite Ho. split; [done|]. split; congruence.
    + exists q, x. by rewrite lookup_insert_ne.
Qed.

Lemma complete_run m e n pp pn mem h id ut rt now : phm_inv m → handle_wf h →
  hs_PoolElementNodes (phm_Handlespace m) !! e = Some n → pen_OwnerPoolNode n = Some pp →
  hs_PoolNodes (phm_Handlespace m) !! pp = Some pn → pn_Handle pn = h → pen_Identifier n = id →
  poolNodeCheckPoolElementNodeCompatibility pn (set_RegistratorTransport rt (set_UserTransport ut n)) = RSPERR_OKAY →
  ∃ r m', completeRegistration poolDisposer elementDisposer mem h id ut rt now e m = Some (r, m') ∧ phm_inv m' ∧
  follows m m' ∧
  (r = (Some e, RSPERR_OKAY) ∧ m' = phm_set_Handlespace (pe_store e (completed ut rt now n) (phm_Handlespace m)) m ∨
   r = (None, RSPERR_OUT_OF_MEMORY) ∧ (mem_UserTransport mem = false ∨ mem_RegistratorTransport mem = false) ∧
     view_without m m' h id).
Proof.
  intros Hm Hh Hn Ho Hpn Hph Hid Hc. set (n1 := set_LastUpdateTimeStamp now n).
  set (m1 := phm_set_Handlespace (pe_store e n1 (phm_Handlespace m)) m).
  assert (hs_PoolElementNodes (phm_Handlespace m1) !! e = Some n1) as Hn1 by (simpl; apply lookup_insert_eq).
  assert (phm_inv m1) as Hm1.
  { apply (phm_inv_store m e n); try done. apply (hs_inv_store _ e n); try done; [apply Hm|].
    exact (hi_wf _ _ _ _ (proj1 (pm_inv _ Hm)) e n Hn). }
  unfold completeRegistration. erewrite run_bind; [|apply onHandlespace_run, pe_update_run; exact Hn]. fold n1 m1.
  assert (∃ r m', (_ ← poolHandlespaceManagementDeregisterPoolElement poolDisposer elementDisposer h id;
    mret (None : option ptr, RSPERR_OUT_OF_MEMORY)) m1 = Some (r, m') ∧ phm_inv m' ∧
    follows m m' ∧ r = (None, RSPERR_OUT_OF_MEMORY) ∧ view_without m m' h id) as Hfail.
  { destruct (deregister_run m1 h id Hm1 Hh) as (err & m' & Hrun & Hm' & Hcase & Htr). eexists _, m'.
    rewrite (run_bind _ _ _ _ _ Hrun). split; [done|]. split; [done|].
    split; [eapply followed_trans; [by apply (followed_store _ e n n1)|exact Htr]|]. split; [done|].
    pose proof (view_same_store m e n n1 Hn eq_refl eq_refl eq_refl) as Hv. fold m1 in Hv.
    destruct Hcase as [(_ & _ & Hw)|(_ & Hno & _)].
    - intros h' id' r'. rewrite (Hw h' id' r'). by rewrite (Hv h' id' r').
    - exfalso. apply (Hno (reg_of n1)). exists e, n1. split; [done|]. split; [|done].
      unfold owner_handle. simpl. rewrite Ho. simpl. rewrite Hpn. simpl. by rewrite Hph. }
  assert (∃ r m', (onHandlespace (pe_update e (set_UserTransport ut));; onHandlespace (pe_update e (set_RegistratorTransport rt));;
    mret (Some e, RSPERR_OKAY)) m1 = Some (r, m') ∧ phm_inv m' ∧ follows m m' ∧ r = (Some e, RSPERR_OKAY) ∧
    m' = phm_set_Handlespace (pe_store e (completed ut rt now n) (phm_Handlespace m)) m) as Hgood.
  { erewrite run_bind; [|apply onHandlespace_run, pe_update_run; exact Hn1]. cbv beta.
    erewrite run_bind; [|apply onHandlespace_run, pe_update_run; simpl; apply lookup_insert_eq]. cbv beta.
    eexists _, _. split; [done|].
    match goal with |- phm_inv ?x ∧ _ => assert (x = phm_set_Handlespace (pe_store e (completed ut rt now n) (phm_Handlespace m)) m) as -> end.
    { unfold m1, phm_set_Handlespace, pe_store. simpl. by rewrite !insert_insert_eq. }
    split; [by eapply completed_inv|]. split; [by apply (followed_store _ e n)|done]. }
  destruct Hfail as (r & m' & Hrun & Hm' & Htr & -> & Hv). destruct Hgood as (r2 & m2 & Hrun2 & Hm2 & Htr2 & -> & ->).
  destruct (mem_UserTransport mem) eqn:Hu; cbn [transportAddressBlockDuplicate]; cbv zeta; cbv iota.
  - destruct rt as [t|]; [destruct (mem_RegistratorTransport mem) eqn:Hr|]; cbn [transportAddressBlockDuplicate].
    + rewrite bool_decide_true by done. cbn [orb]. eauto 12.
    + rewrite !bool_decide_false by naive_solver. cbn [orb]. eauto 12.
    + rewrite (bool_decide_true (None = None)) by done. rewrite orb_true_r. eauto 12.
  - eauto 12.
Qed.

(** ** The registration as a whole *)

Section register.
Context (mem : Memory) (h : PoolHandle) (home id life : Z) (pps : PoolPolicySettings)
  (ut : TransportAddressBlock) (rt : option TransportAddressBlock) (sd assoc now : Z).

Definition candidateElement : PoolElementNode := poolElementNodeNew id home life pps ut rt sd assoc.

(** The pool an element is checked against: the one with the handle, or
    the one that is to be created for it. *)
Definition checked_against st pn : Prop :=
  (∃ q, pool_of st h q ∧ hs_PoolNodes st !! q = Some pn) ∨
  (∀ q, ¬ pool_of st h q) ∧ ∃ policy, poolPolicyGetPoolPolicyByType (pps_PolicyType pps) = Some policy ∧
    pn_Policy pn = policy ∧ pn_Protocol pn = tab_Protocol ut ∧
    pn_Flags pn = if flag_test (tab_Flags ut) TABF_CONTROLCHANNEL then PNF_CONTROLCHANNEL else 0.

Inductive register_result (m : PHM) : option ptr * Z → PHM → Prop :=
| RegisterOkay e m' : registered_at (phm_Handlespace m') e h id (MkRegistration home ut rt sd assoc) →
    view_with m m' h id (MkRegistration home ut rt sd assoc) → register_result m (Some e, RSPERR_OKAY) m'
| RegisterInvalidHandle : ¬ (1 <= ph_Size h <= MAX_POOLHANDLESIZE) → register_result m (None, RSPERR_INVALID_POOL_HANDLE) m
| RegisterInvalidPolicy : 1 <= ph_Size h <= MAX_POOLHANDLESIZE →
    poolPolicyGetPoolPolicyByType (pps_PolicyType pps) = None → register_result m (None, RSPERR_INVALID_POOL_POLICY) m
| RegisterRefused m' pn err : checked_against (phm_Handlespace m) pn →
    poolNodeCheckPoolElementNodeCompatibility pn candidateElement = err → err ≠ RSPERR_OKAY → view_same m m' →
    register_result m (None, err) m'
| RegisterNoMemory m' : mem_PoolNode mem = None ∨ mem_PoolElementNode mem = None → view_same m m' →
    register_result m (None, RSPERR_OUT_OF_MEMORY) m'
| RegisterNoCopy m' : mem_UserTransport mem = false ∨ mem_RegistratorTransport mem = false → view_without m m' h id →
    register_result m (None, RSPERR_OUT_OF_MEMORY) m'.
Lemma view_same_trans m1 m2 m3 : view_same m1 m2 → view_same m2 m3 → view_same m1 m3.
Proof. intros H1 H2 h' id' r'. by rewrite (H2 h' id' r'), (H1 h' id' r'). Qed.

(** The outcome of [addOrUpdate], completed. *)
Lemma outcome_run m m2 pp pn p r m3 st3 : phm_inv m2 → phm_inv m3 → view_same m m2 → handle_wf h →
  hs_PoolElementNodes (phm_Handlespace m2) !! p = Some candidateElement →
  hs_PoolNodes (phm_Handlespace m2) !! pp = Some pn → pn_Handle pn = h →
  (∀ pnq, checked_against (phm_Handlespace m2) pnq → checked_against (phm_Handlespace m) pnq) →
  ((∀ q, ¬ pool_of (phm_Handlespace m2) h q) → checked_against (phm_Handlespace m2) (pn_set_OwnerPoolHandlespaceNode true pn)) →
  phm_Handlespace m3 = st3 → registration_outcome (phm_Handlespace m2) pp pn p candidateElement r st3 → ∃ res m',
  (if ar_ErrorCode r =? RSPERR_OKAY then
     e ← deref (λ _, ar_Element r);
     completeRegistration poolDisposer elementDisposer mem h id ut rt now e
   else mret (ar_Element r, ar_ErrorCode r)) m3 = Some (res, m') ∧ phm_inv m' ∧ register_result m res m' ∧ follows m3 m'.
Proof.
  intros Hm2 Hm3 Hv Hh Hn Hpn Hph Hchk Hchk' Hst3 Hout.
  assert (∀ h' id' r', registered (phm_Handlespace m2) h' id' r' ↔ registered (phm_Handlespace m) h' id' r') as Hv' by exact Hv.
  set (st2 := phm_Handlespace m2) in *.
  set (reg := MkRegistration home ut rt sd assoc).
  assert (∀ e n q pnq, others_same e st2 st3 → hs_PoolElementNodes st3 !! e = Some n → pen_OwnerPoolNode n = Some q →
    hs_PoolNodes st3 !! q = Some pnq → pn_Handle pnq = h → pen_Identifier n = id →
    poolNodeCheckPoolElementNodeCompatibility pnq (set_RegistratorTransport rt (set_UserTransport ut n)) = RSPERR_OKAY →
    pen_HomeRegistrarIdentifier n = home → pen_ConnectionSocketDescriptor n = sd → pen_ConnectionAssocID n = assoc →
    (∀ h' id' r', registered_at st2 e h' id' r' → h' = h ∧ id' = id) → ∃ res m',
    completeRegistration poolDisposer elementDisposer mem h id ut rt now e m3 = Some (res, m') ∧ phm_inv m' ∧
    register_result m res m' ∧ follows m3 m') as Hfinish.
  { intros e n q pnq Hos He Ho Hpnq Hhq Hid Hc Hhome Hsd Has Hold. subst st3. set (st3 := phm_Handlespace m3) in *.
    destruct (complete_run m3 e n q pnq mem h id ut rt now) as (res & m' & Hrun & Hm' & Htr & [[-> Heq]|(-> & Hmem & Hw)]); try done.
    - eexists _, m'. split; [exact Hrun|]. split; [done|].
      assert (registered_at (phm_Handlespace m') e h id reg) as Hat.
      { rewrite Heq. exists (completed ut rt now n). simpl. rewrite lookup_insert_eq. split; [done|].
        unfold owner_handle. simpl. rewrite Ho. simpl. fold st3. rewrite Hpnq. simpl. rewrite Hhq.
        split; [done|]. split; [done|]. unfold reg_of, reg. simpl. by rewrite Hhome, Hsd, Has. }
      split; [|done]. apply RegisterOkay; [done|]. intros h' id' r'.
      rewrite (view_insert [] [] [] [] [] [] st2 (phm_Handlespace m') e h id reg); try done; [|apply Hm2|apply Hm'|].
      { by rewrite Hv'. }
      apply (others_same_trans _ _ st3); [done|]. rewrite Heq. apply others_same_store. eauto.
    - eexists _, m'. split; [exact Hrun|]. split; [done|]. split; [|done]. apply RegisterNoCopy; [done|]. intros h' id' r'.
      rewrite (Hw h' id' r').
      assert (¬ (h' = h ∧ id' = id) → registered st3 h' id' r' ↔ registered st2 h' id' r') as Hsame.
      { intros Hne. split; intros [x Hx]; exists x.
        - assert (x ≠ e) as Hxe.
          { intros ->. apply Hne. destruct Hx as (y & Hy & Hoy & Hiy & _). simplify_eq. split; [|done].
            unfold owner_handle in Hoy. rewrite Ho in Hoy. simpl in Hoy. rewrite Hpnq in Hoy. simpl in Hoy. congruence. }
          by apply (registered_at_others [] [] [] st2 st3 e); [apply Hm2|..].
        - assert (x ≠ e) as Hxe by (intros ->; by apply Hne, (Hold _ _ _ Hx)).
          by apply (registered_at_others [] [] [] st2 st3 e); [apply Hm2|..]. }
      split; intros [Hne Hr]; (split; [done|]).
      + apply Hv'. by apply Hsame.
      + apply Hsame; [done|]. by apply Hv'. }
  destruct Hout as [err st' q pnq Hc Hne Hpool He Hix Hos _ _ _|st' q e x x' pn' Hpn' Hc' Hof Hx Hox Hix Hx' Hup Hos Hcnt _|st' q n' b Hnew Hcase Hn' Hreg Hos _ _ _ _ _]; simpl.
  - rewrite (proj2 (Z.eqb_neq err RSPERR_OKAY)) by done. eexists _, m3. split; [done|]. split; [done|].
    split; [|apply followed_refl]. apply (RegisterRefused _ _ pnq); try done.
    + apply Hchk. destruct Hpool as [[Hof Hq]|[Hno ->]]; [left; exists q; by rewrite <- Hph|]. apply Hchk'. by rewrite <- Hph.
    + apply (view_same_trans _ m2); [done|]. intros h' id' r'. fold st2. rewrite Hst3.
      assert (∀ x, registered_at st' x h' id' r' ↔ registered_at st2 x h' id' r') as Hx.
      { intros x. apply (registered_at_others [] [] [] st2 st' (Pos.succ x)); [apply Hm2|apply Hos|lia]. }
      split; intros [x Hxx]; exists x; by apply Hx.
  - erewrite run_bind; [|done]. destruct Hup as (Hi & _ & Hou & Hps & Hho & Hsd & Has & _).
    assert (pn_Handle pn' = h) as Hph'.
    { destruct Hos as [_ Hp]. destruct Hof as (_ & pnq & Hpnq & Hhq). specialize (Hp q). rewrite Hpn', Hpnq in Hp. simpl in Hp. congruence. }
    eapply (Hfinish e x' q pn'); try done; [congruence|by rewrite Hi, Hix| |].
    + rewrite <- Hc'. unfold poolNodeCheckPoolElementNodeCompatibility. simpl. by rewrite Hi, Hix, Hps.
    + intros h' id' r' (y & Hy & Hoy & Hiy & _). simplify_eq. split; [|done].
      destruct Hof as (_ & pnq & Hpnq & Hhq). unfold owner_handle in Hoy. rewrite Hox in Hoy. simpl in Hoy. rewrite Hpnq in Hoy. simpl in Hoy. congruence.
  - erewrite run_bind; [|done]. destruct Hreg as (Hi & Hou & _ & Hps & Hho & Hsd & Has & Hut & Hrt & _). subst st'.
    destruct (hs_struct_owner _ _ _ _ p n' (proj1 (pm_inv _ Hm3)) Hn' ltac:(by rewrite Hou)) as (q' & pnq & Hou' & _ & Hpinv & Hoh & Hin).
    assert (q' = q) as -> by congruence.
    destruct (pi_element _ _ _ _ _ Hpinv p Hin) as (y & Hy & _ & Hcy & _).
    assert (y = n') as -> by congruence.
    pose proof (pi_lookup _ _ _ _ _ Hpinv) as Hl.
    assert (pn_Handle pnq = h) as Hphq.
    { destruct Hos as [_ Hp]. specialize (Hp q). rewrite Hl in Hp. destruct b.
      - destruct Hcase as (-> & _). rewrite Hpn in Hp. simpl in Hp. congruence.
      - destruct Hcase as [(_ & pn2 & Hpn2 & Hh2) _]. rewrite Hpn2 in Hp. simpl in Hp. congruence. }
    eapply (Hfinish p n' q pnq); try done.
    + rewrite <- Hcy. unfold poolNodeCheckPoolElementNodeCompatibility. simpl. by rewrite Hut, Hrt.
    + intros h' id' r' (y & Hy' & Hoy & _). rewrite Hn in Hy'. by injection Hy' as <-.
Qed.
Lemma register_run m : phm_inv m → fresh_memory m mem → (1 <= ph_Size h <= MAX_POOLHANDLESIZE → handle_wf h) →
  is_u32 id → is_u32 home → pps_wf pps → hs_PoolElements (phm_Handlespace m) + 1 < 2 ^ 31 → ∃ r m',
  poolHandlespaceManagementRegisterPoolElement poolDisposer elementDisposer mem h home id life pps ut rt sd assoc now m
    = Some (r, m') ∧ phm_inv m' ∧ register_result m r m' ∧ follows m m'.
Proof.
  intros Hm Hfresh Hhwf Hid Hhome Hpps Hb. unfold poolHandlespaceManagementRegisterPoolElement.
  destruct (_ || _) eqn:Hsize.
  { eexists _, m. split; [done|]. split; [done|]. split; [|apply followed_refl]. apply RegisterInvalidHandle. apply orb_true_iff in Hsize as [?%Z.ltb_lt|?%Z.ltb_lt]; lia. }
  apply orb_false_iff in Hsize as [Hs1%Z.ltb_ge Hs2%Z.ltb_ge]. assert (handle_wf h) as Hh by (apply Hhwf; lia).
  destruct (poolPolicyGetPoolPolicyByType (pps_PolicyType pps)) as [policy|] eqn:Hpol.
  2:{ eexists _, m. split; [done|]. split; [done|]. split; [by apply RegisterInvalidPolicy|apply followed_refl]. }
  set (flags := if flag_test (tab_Flags ut) TABF_CONTROLCHANNEL then PNF_CONTROLCHANNEL else 0).
  destruct (poolNodeNew h policy (tab_Protocol ut) flags) as [pn|] eqn:Hpn;
    [|unfold poolNodeNew in Hpn; by rewrite poolHandleNew_self in Hpn].
  destruct (preparePool_run m mem h policy (tab_Protocol ut) flags pn) as
    [(Halloc & _ & Hnone)|(pp & Halloc & Hnin & Hm1 & Hv1)]; try done; [by eapply poolPolicyGetPoolPolicyByType_Some| |].
  { eexists _, m. rewrite (run_bind _ _ _ _ _ Halloc). split; [done|]. split; [done|]. split; [by apply RegisterNoMemory; [left|]|apply followed_refl]. }
  set (m1 := phm_set_Handlespace (pool_store pp pn (phm_Handlespace m)) (phm_set_NewPoolNode (Some pp) m)) in *.
  rewrite (run_bind _ _ _ _ _ Halloc). cbv beta iota. fold flags. erewrite run_bind; [|done]. cbv beta.
  erewrite run_bind; [|by apply onHandlespace_run]. cbv beta.
  change (phm_set_Handlespace _ _) with m1.
  destruct (prepareElement_run m1 mem candidateElement) as [(Halloc2 & _ & Hnone)|(p & Halloc2 & Hm2 & Hv2 & Htr2)]; try done.
  { apply Hfresh. }
  { eexists _, m1. rewrite (run_bind _ _ _ _ _ Halloc2). split; [done|]. split; [done|]. split; [by apply RegisterNoMemory; [right|]|by apply followed_same]. }
  set (m2 := phm_set_Handlespace (pe_store p candidateElement (phm_Handlespace m1)) (phm_set_NewPoolElementNode (Some p) m1)) in *.
  rewrite (run_bind _ _ _ _ _ Halloc2). cbv beta iota. erewrite run_bind; [|by apply onHandlespace_run]. cbv beta.
  change (phm_set_Handlespace _ _) with m2.
  destruct (addOrUpdate_run m2 pp pn p candidateElement) as (r & m3 & Hrun3 & Hm3 & Hout); try done; try (simpl; apply lookup_insert_eq).
  rewrite (run_bind _ _ _ _ _ Hrun3).
  assert (pn_Handle pn = h ∧ pn_Policy pn = policy ∧ pn_Protocol pn = tab_Protocol ut ∧ pn_Flags pn = flags) as (Hph & Hpp & Hpr & Hpf).
  { unfold poolNodeNew in Hpn. rewrite poolHandleNew_self in Hpn by done. simpl in Hpn. by injection Hpn as <-. }
  assert (∀ q, pool_of (phm_Handlespace m2) h q ↔ pool_of (phm_Handlespace m) h q) as Hof.
  { intros q. unfold pool_of. simpl. split; intros (Hq & x & Hx & Hxh); (split; [done|]); exists x; (split; [|done]).
    - rewrite lookup_insert_ne in Hx; [done|]. intros ->. done.
    - rewrite lookup_insert_ne; [done|]. intros ->. done. }
  assert (follows m m3) as Htr.
  { apply (followed_trans _ (phm_Handlespace m1)); [by apply followed_same|]. apply (followed_trans _ (phm_Handlespace m2)).
    - exact Htr2.
    - eapply (followed_outcome _ pp pn p candidateElement); [apply (hi_timer _ _ _ _ (proj1 (pm_inv _ Hm2)))|simpl; apply lookup_insert_eq|done|exact Hout]. }
  destruct (outcome_run m m2 pp pn p r m3 (phm_Handlespace m3)) as (res & m' & Hrun & Hm' & Hres & Htr'); try done.
  - by eapply view_same_trans.
  - simpl. apply lookup_insert_eq.
  - simpl. apply lookup_insert_eq.
  - intros pnq [(q & Hq & Hpq)|[Hno Hx]].
    + left. exists q. rewrite <- Hof. split; [done|]. simpl in Hpq. rewrite lookup_insert_ne in Hpq; [done|].
      intros ->. apply Hof in Hq as [Hin _]. done.
    + right. split; [|done]. intros q Hq. by apply (Hno q), Hof.
  - intros Hno. right. split; [done|]. exists policy. done.
  - exists res, m'. split; [done|]. split; [done|]. split; [done|]. by eapply followed_trans.
Qed.
End register.
End registration.
