(* ===== verification/HandlespaceSteps.v ===== *)
(** * Sequences of operations on the handlespace

    The remaining operations of the management, and what holds after any
    sequence of operations: the invariant, and that the next operation runs
    to its end. *)

From S2P Require Import Prelude Checksum Addresses PoolBasics Storage PoolElement PoolPolicy HandlespaceState PoolNode PoolEffects PoolSelection HandlespaceNode HandlespaceInv HandlespaceOps HandlespaceEffects HandlespaceWalks HandlespaceVerify HandlespaceUpdate HandlespaceMgt HandlespaceMgtInv HandlespaceNotifications HandlespaceRegistration.
From stdpp Require Import base list gmap numbers option sorting sets.
#[local] Open Scope Z_scope.

Section steps.
Context {ST : Type} `{SL : StorageLaws ST} `{En : Endian}.
Abbreviation HS := (Handlespace ST).
Abbreviation PHM := (PoolHandlespaceManagement ST).
Implicit Types (st : HS) (pn : PoolNode ST) (p q pp : ptr) (m : PHM).

Lemma phm_inv_new home : phm_inv (poolHandlespaceManagementNew home : PHM).
Proof.
  assert (st_list (ST_New : ST) = []) as Hempty by by apply (st_new_ok (λ _, 0)).
  split; simpl; try done.
  - split.
    + split; simpl; try done; try apply slot_inv_new; rewrite Hempty; intros pp Hpp; by apply not_elem_of_nil in Hpp.
    + split; simpl; done.
  - intros pp. rewrite Hempty. split; [by intros [? ?]|]. intros [Hpp|?]; [by apply not_elem_of_nil in Hpp|done].
  - intros p. split; [by intros (? & ? & _)|done].
Qed.

(** An element is linked: it belongs to a pool. *)
Definition linked m p : Prop :=
  ∃ n, hs_PoolElementNodes (phm_Handlespace m) !! p = Some n ∧ pen_OwnerPoolNode n ≠ None.

(** Operations that neither add nor remove. *)
Lemma phm_inv_same p m st' : phm_inv m → hs_inv st' → others_same p (phm_Handlespace m) st' →
  linked m p → linked (phm_set_Handlespace st' m) p →
  st_list (hs_PoolIndexStorage st') = st_list (hs_PoolIndexStorage (phm_Handlespace m)) →
  phm_inv (phm_set_Handlespace st' m).
Proof.
  intros Hm Hi' Hos (n & Hn & Ho) (n' & Hn' & Ho') Hix. split; simpl; [done| | |].
  - intros q. rewrite (others_pools p _ _ q Hos), Hix. apply Hm.
  - intros q. rewrite Hix. apply Hm.
  - intros q. rewrite <- (pm_new_element _ Hm q). destruct (decide (q = p)) as [->|Hq]; [|by apply (others_owner p)].
    simpl in Hn'. split; intros (x & Hx & ?); congruence.
Qed.

Lemma others_frame pp p st st' : is_Some (hs_PoolNodes st !! pp) → pool_frame [] pp st st' → others_same p st st'.
Proof. intros Hpp Hf. apply (others_same_frame p pp); [done|]. eapply pool_frame_weaken; [|exact Hf]. set_solver. Qed.

Lemma view_others m m' : hs_inv (phm_Handlespace m) → (∀ p, others_same p (phm_Handlespace m) (phm_Handlespace m')) → view_same m m'.
Proof.
  intros [Hs _] Hos h id r.
  assert (∀ x, registered_at (phm_Handlespace m') x h id r ↔ registered_at (phm_Handlespace m) x h id r) as Hx.
  { intros x. apply (registered_at_others [] [] [] _ _ (Pos.succ x)); [done|apply Hos|lia]. }
  split; intros [x Hxx]; exists x; by apply Hx.
Qed.

(** ** Handle resolution *)

Lemma resolution_run m random64 h max maxInc : phm_inv m → handle_wf h → (∀ i, 0 <= random64 i) →
  1 <= max < 2 ^ 32 → 0 <= maxInc → ∃ arr err m',
  poolHandlespaceManagementHandleResolution random64 h max maxInc m = Some ((arr, err), m') ∧ phm_inv m' ∧ follows m m' ∧ view_same m m' ∧
  (err = RSPERR_OKAY ∧ NoDup arr ∧ Z.of_nat (length arr) <= max ∧
     (∀ p, p ∈ arr → ∃ id r, registered_at (phm_Handlespace m) p h id r) ∨
   err = RSPERR_NOT_FOUND ∧ arr = [] ∧ m' = m ∧ ∀ id r, ¬ registered (phm_Handlespace m) h id r).
Proof.
  intros Hm Hh Hrnd Hmax Hinc. pose proof (pm_inv _ Hm) as Hi. set (st := phm_Handlespace m) in *. pose proof Hi as [Hs Ha].
  destruct (findPool_spec _ _ _ st h Hs Hh) as (r & Hrun & Hr).
  unfold poolHandlespaceManagementHandleResolution, poolHandlespaceNodeSelectPoolElementNodesByPolicy. destruct r as [pp|].
  - destruct (pool_of_inv _ _ _ _ _ _ Hs Hr) as (pn & Hinv & Hph). pose proof Hr as [Hpp _].
    destruct (policySelect_spec random64 st pp pn max maxInc) as (arr & st' & Hrun' & Hi' & Hnd & Hle & Hin & Hf); try done.
    exists arr, RSPERR_OKAY, (phm_set_Handlespace st' m). split.
    { apply onHandlespace_run. fold st. rewrite (run_bind _ _ _ _ _ Hrun). by rewrite (run_bind _ _ _ _ _ Hrun'). }
    assert (is_Some (hs_PoolNodes st !! pp)) as Hsome by (rewrite (pi_lookup _ _ _ _ _ Hinv); eauto).
    destruct (hi_pool _ _ _ _ Hs pp Hpp) as (pn0 & Hinv0 & _ & Hne). pose proof (pi_lookup _ _ _ _ _ Hinv0) as Hl0.
    assert (pn0 = pn) as -> by (pose proof (pi_lookup _ _ _ _ _ Hinv); congruence).
    destruct Hne as [HE|Hne]; [by apply not_elem_of_nil in HE|].
    destruct (st_list (pn_PoolElementIndexStorage pn)) as [|p0 l0] eqn:Hlist; [done|].
    destruct (pi_element _ _ _ _ _ Hinv p0) as (n0 & Hn0 & _ & _ & [[Ho0 _]|[_ HU]]); [rewrite Hlist; left| |by apply not_elem_of_nil in HU].
    destruct (pf_elements _ _ _ _ Hf p0 n0) as (n1 & Hn1 & _ & Ho1 & _); [apply not_elem_of_nil|done|].
    split; [|split; [|split]].
    + apply (phm_inv_same p0); [done|done|by apply (others_frame pp)|exists n0; by rewrite Ho0|exists n1; by rewrite Ho1, Ho0|].
      by destruct (pool_frame_rest _ _ _ _ Hf) as (-> & _).
    + destruct (pool_frame_rest _ _ _ _ Hf) as (_ & _ & _ & _ & _ & _ & _ & _ & _ & Hfl & Hno).
      assert (pen_OwnerPoolNode n0 ≠ None) as Hone by congruence.
      destruct (others_frame pp (Pos.succ p0) _ _ Hsome Hf) as [Hoth _]. specialize (Hoth p0 ltac:(lia)).
      rewrite Hn0, Hn1 in Hoth. destruct Hoth as (_ & Hck & Hho & _ & _ & _ & _ & _ & Htc). split.
      2:{ apply (steady_others p0); [by apply (others_frame pp)|simpl; by destruct (same_counts_frame _ _ _ _ Hf) as (_ & _ & _ & _ & -> & _)|].
          intros _. unfold code_at. simpl. fold st. rewrite Hn0, Hn1. simpl. by rewrite Htc. }
      apply (tracked_silent _ _ p0); [done|done|by apply (others_frame pp)|]. intros id.
      etrans; [apply (owned_at_Some id st' p0 n1 Hn1); congruence|]. rewrite Hck, Hho. symmetry. by apply owned_at_Some.
    + apply view_others; [done|]. intros p. by apply (others_frame pp).
    + left. split; [done|]. split; [done|]. split; [done|]. intros p Hp.
      destruct (pi_element _ _ _ _ _ Hinv p) as (n & Hn & _ & _ & [[Ho _]|[_ HU]]); [rewrite Hlist; by apply Hin| |by apply not_elem_of_nil in HU].
      exists (pen_Identifier n), (reg_of n). exists n. split; [done|]. split; [|done].
      unfold owner_handle. rewrite Ho. simpl. fold st. rewrite Hl0. simpl. by rewrite Hph.
  - exists [], RSPERR_NOT_FOUND, m. split.
    { erewrite onHandlespace_run; [by rewrite phm_set_same|]. fold st. by rewrite (run_bind _ _ _ _ _ Hrun). }
    split; [done|]. split; [apply followed_refl|]. split; [done|]. right. split; [done|]. split; [done|]. split; [done|]. intros id r (p & n & Hn & Hoh & _).
    destruct (pen_OwnerPoolNode n) as [o|] eqn:Ho; [|by unfold owner_handle in Hoh; rewrite Ho in Hoh].
    destruct (hs_struct_owner _ _ _ _ p n Hs Hn ltac:(by rewrite Ho)) as (o' & pno & Ho' & Hoin & Hpo & Hoh' & _).
    apply (Hr o'). split; [done|]. exists pno. split; [apply Hpo|congruence].
Qed.
(** ** Ownership, connection and timer *)

Lemma linked_store m p n n' st' : hs_PoolElementNodes st' !! p = Some n' → pen_OwnerPoolNode n' = pen_OwnerPoolNode n →
  pen_OwnerPoolNode n ≠ None → linked (phm_set_Handlespace st' m) p.
Proof. intros Hn' Ho Hne. exists n'. split; [done|congruence]. Qed.

Lemma ownership_run m p home : phm_inv m → linked m p → is_u32 home → ∃ m',
  poolHandlespaceManagementUpdateOwnershipOfPoolElementNode p home m = Some (tt, m') ∧ phm_inv m' ∧ follows m m' ∧
  ∃ n, hs_PoolElementNodes (phm_Handlespace m) !! p = Some n ∧
    hs_PoolElementNodes (phm_Handlespace m') = <[p := moved_node home n]> (hs_PoolElementNodes (phm_Handlespace m)).
Proof.
  intros Hm (n & Hn & Ho) Hu.
  destruct (updateOwnership_spec _ p n home (pm_inv _ Hm) Hn Ho Hu) as (st' & Hrun & Hi' & He & Hp & _ & Hix & Htm & _ & _ & _ & Hfl & Hno).
  eexists. split; [by apply onHandlespace_run|]. split; [|split; [|by exists n]].
  2:{ split.
      2:{ apply (steady_others p); [|by simpl; rewrite Htm|].
          - apply (others_same_trans _ _ (pe_store p (moved_node home n) (phm_Handlespace m))); [apply others_same_store; eauto|by apply others_same_heap].
          - intros _. unfold code_at. simpl. rewrite He, lookup_insert_eq, Hn. simpl. unfold moved_node. by destruct (_ =? _). }
      eapply (tracked_one _ _ p); [exact Hfl|exact Hno|intros id q Hq; simpl; by rewrite He, lookup_insert_ne|]. intros id.
      destruct (moved_node_facts home n Hu (hi_wf _ _ _ _ (proj1 (pm_inv _ Hm)) p n Hn)) as (_ & (_ & Ho' & _) & _).
      rewrite (owned_at_Some id _ p n Hn Ho), (owned_at_Some id _ p (moved_node home n)); [done| |congruence].
      simpl. by rewrite He, lookup_insert_eq. }
  destruct (moved_node_facts home n Hu (hi_wf _ _ _ _ (proj1 (pm_inv _ Hm)) p n Hn)) as (_ & (_ & Ho' & _) & _).
  apply (phm_inv_same p); [done|done| |by exists n| |by rewrite Hix].
  - apply (others_same_trans _ _ (pe_store p (moved_node home n) (phm_Handlespace m))); [apply others_same_store; eauto|by apply others_same_heap].
  - eapply (linked_store _ _ n); [rewrite He; apply lookup_insert_eq|done|done].
Qed.

Lemma connection_run m p sd assoc : phm_inv m → linked m p → ∃ m',
  poolHandlespaceManagementUpdateConnectionOfPoolElementNode p sd assoc m = Some (tt, m') ∧ phm_inv m' ∧ follows m m' ∧
  ∃ n, hs_PoolElementNodes (phm_Handlespace m) !! p = Some n ∧
    hs_PoolElementNodes (phm_Handlespace m') =
      <[p := set_ConnectionAssocID assoc (set_ConnectionSocketDescriptor sd n)]> (hs_PoolElementNodes (phm_Handlespace m)).
Proof.
  intros Hm (n & Hn & Ho). pose proof (pm_inv _ Hm) as [Hs Ha].
  destruct (updateConnection_spec _ p n sd assoc Hs Hn Ho) as (st' & n' & Hrun & Hs' & Hn' & Heq & sC & Hst').
  eexists. split; [by apply onHandlespace_run|]. split; [|split; [|exists n; split; [done|]; simpl; rewrite Hst', <- Heq; done]].
  2:{ apply (followed_trans _ (pe_store p n' (phm_Handlespace m))); [by apply (followed_store _ p n n'); rewrite ?Heq|].
      apply followed_same; simpl; by rewrite Hst'. }
  apply (phm_inv_same p); [done| | |by exists n| |by rewrite Hst'].
  - split; [done|]. eapply (hs_acct_ext (pe_store p n' (phm_Handlespace m))); try (by rewrite Hst').
    eapply hs_acct_store; [done|exact Hn|by rewrite Heq..].
  - apply (others_same_trans _ _ (pe_store p n' (phm_Handlespace m))); [apply others_same_store; eauto|apply others_same_heap; by rewrite Hst'].
  - eapply (linked_store _ _ n); [done|by rewrite Heq|done].
Qed.

Lemma restartTimer_run m p timeout : phm_inv m → linked m p → ∃ m' n,
  poolHandlespaceManagementRestartPoolElementExpiryTimer p timeout m = Some (tt, m') ∧ phm_inv m' ∧
  tracked (phm_Handlespace m) (phm_Handlespace m') ∧
  hs_PoolElementNodes (phm_Handlespace m) !! p = Some n ∧
  hs_PoolElementNodes (phm_Handlespace m') = <[p := set_TimerTimeStamp (u64 (pen_LastUpdateTimeStamp n + timeout))
     (set_TimerCode PENT_EXPIRY n)]> (hs_PoolElementNodes (phm_Handlespace m)) ∧
  st_list (hs_PoolElementTimerStorage (phm_Handlespace m')) ≡ₚ
    p :: l_remove p (st_list (hs_PoolElementTimerStorage (phm_Handlespace m))).
Proof.
  intros Hm (n & Hn & Ho). destruct (deactivateTimer_spec _ p (pm_inv _ Hm)) as (s1 & Hrun1 & Hi1 & Hl1).
  set (st1 := hs_set_PoolElementTimerStorage s1 (phm_Handlespace m)) in *.
  set (ts := u64 (pen_LastUpdateTimeStamp n + timeout)).
  destruct (activateTimer_spec st1 p n PENT_EXPIRY ts) as (s2 & Hrun2 & Hi2 & Hl2); try done.
  { simpl. rewrite Hl1, l_remove_elem. tauto. }
  exists (phm_set_Handlespace (hs_set_PoolElementTimerStorage s2
    (pe_store p (set_TimerTimeStamp ts (set_TimerCode PENT_EXPIRY n)) st1)) m), n. split.
  { unfold poolHandlespaceManagementRestartPoolElementExpiryTimer.
    rewrite (run_bind _ _ _ _ _ (onHandlespace_run _ _ _ _ Hrun1)).
    erewrite run_bind; [|apply onHandlespace_run, pe_get_run; exact Hn]. cbv beta.
    by apply (onHandlespace_run _ (phm_set_Handlespace st1 m)). }
  split; [|split; [|split; [done|split; [done|by rewrite <- Hl1]]]].
  2:{ apply (tracked_trans _ st1); [by apply tracked_same|].
      apply (tracked_trans _ (pe_store p (set_TimerTimeStamp ts (set_TimerCode PENT_EXPIRY n)) st1)); [by apply (tracked_store _ p n)|].
      by apply tracked_same. }
  apply (phm_inv_same p); [done|done| |by exists n| |done].
  - apply (others_same_trans _ _ (pe_store p (set_TimerTimeStamp ts (set_TimerCode PENT_EXPIRY n)) (phm_Handlespace m)));
      [apply others_same_store; eauto|by apply others_same_heap].
  - eapply (linked_store _ _ n); [simpl; apply lookup_insert_eq|done|done].
Qed.

(** ** Loops over the elements of a registrar *)

Lemma forEachOwned_run {A} (body : ptr → A → M HS A) (I : list ptr → A → HS → Prop) :
  (∀ p l a st, I (p :: l) a st → poolHandlespaceNodeGetNextPoolElementOwnershipNodeForSameIdentifier p st = Some (head l, st) ∧
     ∃ a' st', body p a st = Some (a', st') ∧ I l a' st') →
  ∀ l fuel a st, (length l <= fuel)%nat → I l a st → ∃ a' st',
  forEachOwned fuel body (head l) a st = Some (a', st') ∧ I [] a' st'.
Proof.
  intros Hstep l. induction l as [|p l IH]; intros fuel a st Hfuel HI; [exists a, st; by destruct fuel|].
  simpl in Hfuel. destruct fuel as [|fuel]; [lia|]. destruct (Hstep p l a st HI) as (Hnext & a1 & st1 & Hbody & HI1).
  destruct (IH fuel a1 st1) as (a' & st' & Hrun & HI'); [lia|done|]. exists a', st'. split; [|done].
  simpl. by rewrite (run_bind _ _ _ _ _ Hnext), (run_bind _ _ _ _ _ Hbody).
Qed.

(** The loops start with the list of the registrar's elements. *)
Lemma forEachOwned_all {A} (body : ptr → A → M HS A) (I : list ptr → A → HS → Prop) st home a : hs_inv st →
  (∀ p l a st, I (p :: l) a st → poolHandlespaceNodeGetNextPoolElementOwnershipNodeForSameIdentifier p st = Some (head l, st) ∧
     ∃ a' st', body p a st = Some (a', st') ∧ I l a' st') → I (owned_list home st) a st → ∃ a' st',
  (fuel ← storageFuel SlotOwnership; first ← poolHandlespaceNodeGetFirstPoolElementOwnershipNodeForIdentifier home;
   forEachOwned fuel body first a) st = Some (a', st') ∧ I [] a' st'.
Proof.
  intros [Hs Ha] Hstep HI. destruct (forEachOwned_run body I Hstep (owned_list home st)
    (length (st_list (hs_PoolElementOwnershipStorage st))) a st) as (a' & st' & Hrun & HI'); [|done|].
  { apply length_filter. }
  exists a', st'. split; [|done]. erewrite run_bind; [|unfold storageFuel; by apply (storageRead_eq SlotOwnership)].
  by rewrite (run_bind _ _ _ _ _ (firstOwned_run _ _ _ st home Hs)).
Qed.

Lemma owned_list_flags st p n f home : hs_PoolElementNodes st !! p = Some n →
  owned_list home (pe_store p (set_Flags f n) st) = owned_list home st.
Proof.
  intros Hn. unfold owned_list. simpl. apply list_filter_iff. intros q.
  destruct (decide (q = p)) as [->|]; [by rewrite lookup_insert_eq, Hn|by rewrite lookup_insert_ne].
Qed.

Definition mark_node (n : PoolElementNode) : PoolElementNode := set_Flags (flag_set (pen_Flags n) PENF_MARKED) n.

Lemma mark_run m home : phm_inv m → ∃ m',
  poolHandlespaceManagementMarkPoolElementNodes home m = Some (tt, m') ∧ phm_inv m' ∧ follows m m' ∧
  ∀ q, hs_PoolElementNodes (phm_Handlespace m') !! q =
    (if decide (q ∈ owned_list home (phm_Handlespace m)) then mark_node else id) <$> hs_PoolElementNodes (phm_Handlespace m) !! q.
Proof.
  intros Hm. set (st := phm_Handlespace m). set (own := owned_list home st).
  assert (NoDup own) as Hnd by (apply owned_list_nodup, (pm_inv _ Hm)).
  destruct (forEachOwned_all (λ p _, pe_update p mark_node) (λ l (_ : ()) st',
    phm_inv (phm_set_Handlespace st' m) ∧ followed st st' ∧ owned_list home st' = own ∧ ∃ pre, own = pre ++ l ∧
    ∀ q, hs_PoolElementNodes st' !! q = (if decide (q ∈ pre) then mark_node else id) <$> hs_PoolElementNodes st !! q)
    st home tt (pm_inv _ Hm)) as (a & st' & Hrun & Hm' & Htr & _ & pre & Hpre & Hel).
  - intros p l a st1 (Hm1 & Htr1 & Hown1 & pre & Hpre & Hel). pose proof (pm_inv _ Hm1) as Hi1. simpl in Hi1.
    split. { apply (owned_steps _ _ _ st1 home (proj1 Hi1) pre p l). by rewrite Hown1. }
    destruct (ownership_blocks _ _ _ st1 home (proj1 Hi1)) as (A & C & _ & _ & HB & _).
    destruct (HB p) as (n & Hn & Ho & _); [rewrite Hown1, Hpre; set_solver|].
    exists tt, (pe_store p (mark_node n) st1). split; [by apply pe_update_run|].
    split; [apply (phm_inv_store (phm_set_Handlespace st1 m) p n); [done|done|done|by apply hs_inv_flags]|].
    split; [by eapply followed_trans; [exact Htr1|apply (followed_store _ p n)]|].
    split; [unfold mark_node; by rewrite (owned_list_flags st1 p n)|].
    exists (pre ++ [p]). split; [by rewrite <- app_assoc|]. intros q. simpl.
    assert (p ∉ pre) as Hp.
    { rewrite Hpre in Hnd. apply NoDup_app in Hnd as (_ & Hd & _). intros Hp. apply (Hd p Hp). left. }
    destruct (decide (q = p)) as [->|Hne].
    + rewrite lookup_insert_eq. rewrite decide_True by set_solver. rewrite Hel, decide_False in Hn by done.
      apply fmap_Some in Hn as (x & -> & ->). done.
    + rewrite lookup_insert_ne, Hel by done. destruct (decide (q ∈ pre)); [rewrite decide_True by set_solver|rewrite decide_False by set_solver]; done.
  - split; [unfold st; by rewrite phm_set_same|]. split; [apply followed_refl|]. split; [done|]. exists []. split; [done|]. intros q.
    rewrite decide_False by apply not_elem_of_nil. by rewrite option_fmap_id.
  - rewrite app_nil_r in Hpre. subst pre. exists (phm_set_Handlespace st' m). destruct a.
    split; [by apply onHandlespace_run|]. done.
Qed.

(** ** Purging *)

Definition without_all (l : list ptr) (h : gmap ptr PoolElementNode) : gmap ptr PoolElementNode := foldr delete h l.

Lemma without_all_lookup l h q : without_all l h !! q = if decide (q ∈ l) then None else h !! q.
Proof.
  unfold without_all. induction l as [|p l IH]; cbn [foldr]; [by destruct (decide (q ∈ [])) as [Hx%not_elem_of_nil|]|].
  destruct (decide (q = p)) as [->|Hne].
  - rewrite lookup_delete_eq. destruct (decide (p ∈ p :: l)) as [|Hx]; [done|]. destruct Hx. left.
  - rewrite lookup_delete_ne, IH by done. destruct (decide (q ∈ l)), (decide (q ∈ p :: l)); set_solver.
Qed.

Context (poolDisposer elementDisposer : option (ptr → M HS ())).
Context (poolDisposer_ok : disposer_ok poolDisposer) (elementDisposer_ok : disposer_ok elementDisposer).

Definition expired st now p : Prop := ∃ n, hs_PoolElementNodes st !! p = Some n ∧ pen_TimerTimeStamp n <= now.

Lemma timers_sorted st p l q now : hs_inv st → st_list (hs_PoolElementTimerStorage st) = p :: l → q ∈ l →
  ¬ expired st now p → ¬ expired st now q.
Proof.
  intros [Hs _] Hl Hq Hp (m & Hm & Hle). pose proof (hi_timer _ _ _ _ Hs) as Hinv. apply Hp.
  pose proof (si_sorted _ _ _ Hinv) as Hsort. rewrite Hl in Hsort. apply key_sorted_cons in Hsort as [Hlt _].
  specialize (Hlt q Hq). unfold key_lt in Hlt.
  destruct (si_valid _ _ _ Hinv p) as (n & h & Hn & Hh); [rewrite Hl; left|].
  destruct (si_valid _ _ _ Hinv q) as (m' & h' & Hm' & Hh'); [rewrite Hl; by right|]. assert (m' = m) as -> by congruence.
  exists n. split; [done|]. simpl in Hlt. rewrite Hn, Hm in Hlt. simpl in Hlt. rewrite Hh, Hh' in Hlt. simpl in Hlt.
  destruct (Z.ltb_spec (pen_TimerTimeStamp n) (pen_TimerTimeStamp m)); [lia|].
  destruct (Z.ltb_spec (pen_TimerTimeStamp m) (pen_TimerTimeStamp n)); lia.
Qed.

Lemma purgeExpired_run m now l : ∀ st fuel c, phm_inv (phm_set_Handlespace st m) →
  st_list (hs_PoolElementTimerStorage st) = l →
  (∀ p n, p ∈ l → hs_PoolElementNodes st !! p = Some n → pen_TimerCode n = PENT_EXPIRY) → (length l <= fuel)%nat → ∃ st' k,
  purgeExpired poolDisposer elementDisposer fuel now (head l) c st = Some (c + Z.of_nat k, st') ∧
  phm_inv (phm_set_Handlespace st' m) ∧ followed st st' ∧ st_list (hs_PoolElementTimerStorage st') = drop k l ∧
  hs_PoolElementNodes st' = without_all (reverse (take k l)) (hs_PoolElementNodes st) ∧ (k <= length l)%nat ∧
  (∀ p, p ∈ take k l → expired st now p) ∧ (∀ p, p ∈ drop k l → ¬ expired st now p).
Proof.
  induction l as [|p l IH]; intros st fuel c Hm Hl Hcode Hfuel.
  - exists st, 0%nat. split; [destruct fuel; by rewrite Z.add_0_r|]. split; [done|]. split; [apply followed_refl|]. split; [done|]. split; [done|]. split; [done|].
    split; intros p Hp; by apply not_elem_of_nil in Hp.
  - simpl in Hfuel. destruct fuel as [|fuel]; [lia|]. simpl (head _). cbn [purgeExpired].
    pose proof (pm_inv _ Hm) as Hi. simpl in Hi. pose proof Hi as [Hs Ha]. pose proof (hi_timer _ _ _ _ Hs) as Hinv.
    destruct (si_valid _ _ _ Hinv p) as (n & h & Hn & Hh); [rewrite Hl; left|].
    destruct (pen_OwnerPoolNode n) as [pp|] eqn:Ho; [|by unfold owner_handle in Hh; rewrite Ho in Hh].
    unfold poolHandlespaceNodeGetNextPoolElementTimerNode.
    rewrite (run_bind _ _ _ _ _ (storage_steps SlotTimer st _ eq_refl Hinv [] p l Hl)).
    rewrite (run_bind _ _ _ _ _ (pe_get_run _ _ _ Hn)).
    erewrite run_bind; [|apply run_check, Z.eqb_eq; apply (Hcode p n); [left|done]].
    unfold poolHandlespaceNodeHasActiveTimer.
    erewrite run_bind; [|apply storageIsLinked_spec; [done|exact Hinv]].
    erewrite run_bind; [|apply run_check, bool_decide_eq_true; rewrite Hl; left].
    destruct (Z.leb_spec (pen_TimerTimeStamp n) now) as [Hle|Hgt].
    + destruct (deregisterByPtr_spec _ _ poolDisposer_ok elementDisposer_ok st p n pp Hi Hn Ho) as (st1 & Hrun & Hi1 & Hd).
      rewrite (run_bind _ _ _ _ _ Hrun).
      pose proof (slot_inv_nodup _ _ _ Hinv) as Hnd. rewrite Hl in Hnd. pose proof (NoDup_cons_1_1 _ _ Hnd) as Hpl.
      assert (∀ q, q ≠ p → hs_PoolElementNodes st1 !! q = hs_PoolElementNodes st !! q) as Hsame.
      { intros q Hq. rewrite (dr_elements _ _ _ _ _ Hd). by apply lookup_delete_ne. }
      destruct (IH st1 fuel (c + 1)) as (st' & k & Hrun' & Hm' & Htr' & Ht' & He' & Hk & Hexp & Hnot).
      * by eapply (phm_inv_deregistered (phm_set_Handlespace st m)).
      * rewrite (dr_timers _ _ _ _ _ Hd), Hl. by apply l_remove_head.
      * intros q x Hq Hx. apply (Hcode q x); [by right|]. rewrite <- Hsame; [done|]. intros ->. done.
      * lia.
      * assert (∀ q, q ∈ l → expired st1 now q ↔ expired st now q) as Heq.
        { intros q Hq. unfold expired. rewrite Hsame; [done|]. intros ->. done. }
        exists st', (S k). split; [rewrite Hrun'; do 2 f_equal; lia|]. split; [done|].
        split; [eapply followed_trans; [by eapply followed_deregistered|done]|]. split; [done|]. split; [|split; [simpl; lia|split]].
        -- rewrite He', (dr_elements _ _ _ _ _ Hd). simpl. rewrite reverse_cons. unfold without_all. by rewrite foldr_app.
        -- intros q Hq. simpl in Hq. apply elem_of_cons in Hq as [->|Hq]; [by exists n|].
           apply Heq; [by apply subseteq_take in Hq|by apply Hexp].
        -- intros q Hq. simpl in Hq. rewrite <- Heq; [by apply Hnot|by apply subseteq_drop in Hq].
    + exists st, 0%nat. split; [by rewrite Z.add_0_r|]. split; [done|]. split; [apply followed_refl|]. split; [done|]. split; [done|]. split; [lia|]. split.
      * intros q Hq. by apply not_elem_of_nil in Hq.
      * assert (¬ expired st now p) as Hp by (intros (x & Hx & ?); simplify_eq; lia).
        intros q Hq. simpl in Hq. apply elem_of_cons in Hq as [->|Hq]; [done|]. by eapply timers_sorted.
Qed.
Definition is_marked st p : bool :=
  match hs_PoolElementNodes st !! p with Some n => flag_test (pen_Flags n) PENF_MARKED | None => false end.

Lemma owned_list_deregistered st p n pp st' home : deregistered st p n pp st' →
  owned_list home st' = l_remove p (owned_list home st).
Proof.
  intros Hd. unfold owned_list. rewrite (dr_ownership _ _ _ _ _ Hd), (dr_elements _ _ _ _ _ Hd). unfold l_remove.
  rewrite !list_filter_filter. apply list_filter_iff. intros q.
  destruct (decide (q = p)) as [->|Hne]; [naive_solver|]. rewrite lookup_delete_ne by done. naive_solver.
Qed.

Lemma purgeMarked_run m home : phm_inv m → ∃ m',
  let purged := filter (λ p, is_marked (phm_Handlespace m) p = true) (owned_list home (phm_Handlespace m)) in
  poolHandlespaceManagementPurgeMarkedPoolElementNodes poolDisposer elementDisposer home m
    = Some (Z.of_nat (length purged), m') ∧ phm_inv m' ∧ follows m m' ∧
  ∀ q, hs_PoolElementNodes (phm_Handlespace m') !! q =
    if decide (q ∈ purged) then None else hs_PoolElementNodes (phm_Handlespace m) !! q.
Proof.
  intros Hm. set (st := phm_Handlespace m). set (own := owned_list home st). set (P := λ p, is_marked st p = true).
  assert (NoDup own) as Hnd by (apply owned_list_nodup, (pm_inv _ Hm)).
  destruct (forEachOwned_all (λ p count, n ← pe_get p;
      if flag_test (pen_Flags n) PENF_MARKED then
        result ← deregisterByPtr poolDisposer elementDisposer p; CHECK (result =? RSPERR_OKAY);; mret (count + 1)
      else mret count) (λ l count st', phm_inv (phm_set_Handlespace st' m) ∧ followed st st' ∧ ∃ pre, own = pre ++ l ∧
    count = Z.of_nat (length (filter P pre)) ∧ owned_list home st' = filter (λ p, ¬ P p) pre ++ l ∧
    ∀ q, hs_PoolElementNodes st' !! q = if decide (q ∈ filter P pre) then None else hs_PoolElementNodes st !! q)
    st home 0 (pm_inv _ Hm)) as (a & st' & Hrun & Hm' & Htr & pre & Hpre & Ha & _ & Hel).
  - intros p l a st1 (Hm1 & Htr1 & pre & Hpre & Ha & Hown1 & Hel). pose proof (pm_inv _ Hm1) as Hi1. simpl in Hi1.
    assert (p ∉ pre) as Hp.
    { rewrite Hpre in Hnd. apply NoDup_app in Hnd as (_ & Hd & _). intros Hp. apply (Hd p Hp). left. }
    split. { by apply (owned_steps _ _ _ st1 home (proj1 Hi1) (filter (λ p, ¬ P p) pre) p l). }
    destruct (ownership_blocks _ _ _ st1 home (proj1 Hi1)) as (A & C & _ & _ & HB & _).
    destruct (HB p) as (n & Hn & Ho & _); [rewrite Hown1; set_solver|].
    pose proof Hn as Hn0. rewrite Hel, decide_False in Hn0 by (rewrite list_elem_of_filter; naive_solver).
    assert (is_marked st p = flag_test (pen_Flags n) PENF_MARKED) as Hmark by (unfold is_marked; by rewrite Hn0).
    rewrite (run_bind _ _ _ _ _ (pe_get_run _ _ _ Hn)). destruct (flag_test (pen_Flags n) PENF_MARKED).
    + destruct (pen_OwnerPoolNode n) as [pp|] eqn:Hpp; [|done].
      destruct (deregisterByPtr_spec _ _ poolDisposer_ok elementDisposer_ok st1 p n pp Hi1 Hn Hpp) as (st2 & Hrun & Hi2 & Hd).
      exists (a + 1), st2. rewrite (run_bind _ _ _ _ _ Hrun). split; [done|].
      split; [by eapply (phm_inv_deregistered (phm_set_Handlespace st1 m))|].
      split; [eapply followed_trans; [exact Htr1|by eapply followed_deregistered]|].
      exists (pre ++ [p]). split; [by rewrite <- app_assoc|]. rewrite !filter_app, !filter_cons, !filter_nil.
      rewrite decide_True by done. rewrite decide_False by (unfold P; rewrite Hmark; naive_solver).
      split; [rewrite length_app, Ha; simpl; lia|]. split.
      * rewrite (owned_list_deregistered _ _ _ _ _ _ Hd), Hown1, app_nil_r. pose proof (owned_list_nodup _ home (proj1 Hi1)) as Hn1.
        rewrite Hown1 in Hn1. apply NoDup_app in Hn1 as (_ & Hd1 & [? _]%NoDup_cons).
        apply l_remove_middle; [|done]. intros Hp1. apply (Hd1 p Hp1). left.
      * intros q. rewrite (dr_elements _ _ _ _ _ Hd). destruct (decide (q = p)) as [->|Hne].
        -- rewrite lookup_delete_eq, decide_True by set_solver. done.
        -- rewrite lookup_delete_ne, Hel by done. destruct (decide (q ∈ filter P pre)); [rewrite decide_True by set_solver|rewrite decide_False by set_solver]; done.
    + exists a, st1. split; [done|]. split; [done|]. split; [done|]. exists (pre ++ [p]). split; [by rewrite <- app_assoc|].
      rewrite !filter_app, !filter_cons, !filter_nil. rewrite decide_False by (unfold P; by rewrite Hmark).
      rewrite decide_True by (unfold P; by rewrite Hmark). rewrite app_nil_r.
      split; [done|]. split; [rewrite Hown1; by rewrite <- app_assoc|done].
  - split; [unfold st; by rewrite phm_set_same|]. split; [apply followed_refl|]. exists []. split; [done|]. split; [done|]. split; [done|]. intros q.
    by rewrite decide_False by apply not_elem_of_nil.
  - rewrite app_nil_r in Hpre. subst pre a. exists (phm_set_Handlespace st' m). simpl.
    split; [by apply onHandlespace_run|]. split; [done|]. split; [exact Htr|exact Hel].
Qed.
End steps.
