(* ===== verification/HandlespaceTheorems.v ===== *)
(** * What the handlespace management guarantees

    The theorems about the interface of the handlespace, each with an
    application to a concrete handlespace on red-black trees. *)

From S2P Require Import Prelude Checksum Addresses PoolBasics Storage RedBlackTree RedBlackTreeStorage PoolElement PoolPolicy HandlespaceState PoolNode PoolEffects PoolSelection HandlespaceNode HandlespaceInv HandlespaceOps HandlespaceEffects HandlespaceWalks HandlespaceVerify HandlespaceUpdate HandlespaceMgt HandlespaceMgtInv HandlespaceNotifications HandlespaceRegistration HandlespaceSteps.
From stdpp Require Import base list gmap numbers option sorting sets relations.
#[local] Open Scope Z_scope.

(** ** Sequences of operations *)

Inductive operation :=
| OpRegister (mem : Memory) (h : PoolHandle) (home id life : Z) (pps : PoolPolicySettings) (ut : TransportAddressBlock)
    (rt : option TransportAddressBlock) (sd assoc now : Z)
| OpDeregister (h : PoolHandle) (id : Z)
| OpResolve (random64 : nat → Z) (h : PoolHandle) (max maxIncrement : Z)
| OpUpdateOwnership (p : ptr) (home : Z)
| OpUpdateConnection (p : ptr) (sd assoc : Z)
| OpRestartTimer (p : ptr) (timeout : Z)
| OpPurgeExpired (now : Z)
| OpMark (home : Z)
| OpPurgeMarked (home : Z).

Section sequences.
Context {ST : Type} `{SL : StorageLaws ST} `{En : Endian}.
Context (poolDisposer elementDisposer : option (ptr → M (Handlespace ST) ())).
Abbreviation PHM := (PoolHandlespaceManagement ST).
Implicit Types (m : PHM).

Definition discard {A} (f : M PHM A) : M PHM () := _ ← f; mret tt.

Definition execute (op : operation) : M PHM () :=
  match op with
  | OpRegister mem h home id life pps ut rt sd assoc now => discard
      (poolHandlespaceManagementRegisterPoolElement poolDisposer elementDisposer mem h home id life pps ut rt sd assoc now)
  | OpDeregister h id => discard (poolHandlespaceManagementDeregisterPoolElement poolDisposer elementDisposer h id)
  | OpResolve random64 h max inc => discard (poolHandlespaceManagementHandleResolution random64 h max inc)
  | OpUpdateOwnership p home => poolHandlespaceManagementUpdateOwnershipOfPoolElementNode p home
  | OpUpdateConnection p sd assoc => poolHandlespaceManagementUpdateConnectionOfPoolElementNode p sd assoc
  | OpRestartTimer p timeout => poolHandlespaceManagementRestartPoolElementExpiryTimer p timeout
  | OpPurgeExpired now => discard (poolHandlespaceManagementPurgeExpiredPoolElements poolDisposer elementDisposer now)
  | OpMark home => poolHandlespaceManagementMarkPoolElementNodes home
  | OpPurgeMarked home => discard (poolHandlespaceManagementPurgeMarkedPoolElementNodes poolDisposer elementDisposer home)
  end.

(** What a caller has to respect: arguments within their C types, elements
    that are registered, and fresh memory from [malloc]. *)
Definition allowed m (op : operation) : Prop :=
  match op with
  | OpRegister mem h home id life pps ut rt sd assoc now =>
      fresh_memory m mem ∧ (1 <= ph_Size h <= MAX_POOLHANDLESIZE → handle_wf h) ∧ is_u32 id ∧ is_u32 home ∧ pps_wf pps ∧
      hs_PoolElements (phm_Handlespace m) + 1 < 2 ^ 31
  | OpDeregister h id => handle_wf h
  | OpResolve random64 h max inc => handle_wf h ∧ (∀ i, 0 <= random64 i) ∧ 1 <= max < 2 ^ 32 ∧ 0 <= inc
  | OpUpdateOwnership p home => linked m p ∧ is_u32 home
  | OpUpdateConnection p sd assoc => linked m p
  | OpRestartTimer p timeout => linked m p
  | OpPurgeExpired now => ∀ p n, p ∈ st_list (hs_PoolElementTimerStorage (phm_Handlespace m)) →
      hs_PoolElementNodes (phm_Handlespace m) !! p = Some n → pen_TimerCode n = PENT_EXPIRY
  | OpMark home => True
  | OpPurgeMarked home => True
  end.

Inductive phm_step m : PHM → Prop :=
| step_operation op m' : allowed m op → execute op m = Some (tt, m') → phm_step m m'.

Context (poolDisposer_ok : disposer_ok poolDisposer) (elementDisposer_ok : disposer_ok elementDisposer).

Lemma discard_run {A} (f : M PHM A) m a m' : f m = Some (a, m') → discard f m = Some (tt, m').
Proof. intros Hf. unfold discard. by rewrite (run_bind _ _ _ _ _ Hf). Qed.

(** Every allowed operation runs to its end, keeps the invariant and tells
    its listener what it changes. *)
Lemma execute_ok m op : phm_inv m → allowed m op → ∃ m', execute op m = Some (tt, m') ∧ phm_inv m' ∧
  tracked (phm_Handlespace m) (phm_Handlespace m').
Proof.
  intros Hm Hop. destruct op; simpl in *.
  - destruct Hop as (? & ? & ? & ? & ? & ?).
    destruct (register_run _ _ poolDisposer_ok elementDisposer_ok mem h home id life pps ut rt sd assoc now m) as (r & m' & Hrun & ? & _ & [? _]); try done.
    exists m'. split; [by eapply discard_run|done].
  - destruct (deregister_run _ _ poolDisposer_ok elementDisposer_ok m h id) as (r & m' & Hrun & ? & _ & [? _]); try done.
    exists m'. split; [by eapply discard_run|done].
  - destruct Hop as (? & ? & ? & ?). destruct (resolution_run m random64 h max maxIncrement) as (a & e & m' & Hrun & ? & [? _] & _); try done.
    exists m'. split; [by eapply discard_run|done].
  - destruct Hop. destruct (ownership_run m p home) as (m' & ? & ? & [? _] & _); try done. by exists m'.
  - destruct (connection_run m p sd assoc) as (m' & ? & ? & [? _] & _); try done. by exists m'.
  - destruct (restartTimer_run m p timeout) as (m' & n & ? & ? & ? & _); try done. by exists m'.
  - destruct (purgeExpired_run _ _ poolDisposer_ok elementDisposer_ok m now (st_list (hs_PoolElementTimerStorage (phm_Handlespace m)))
      (phm_Handlespace m) (length (st_list (hs_PoolElementTimerStorage (phm_Handlespace m)))) 0) as (st' & k & Hrun & Hm' & [Htr _] & _); try done.
    { by rewrite phm_set_same. }
    exists (phm_set_Handlespace st' m). split; [|done]. eapply discard_run, onHandlespace_run.
    erewrite run_bind; [|unfold storageFuel; by apply (storageRead_eq SlotTimer)].
    erewrite run_bind; [exact Hrun|]. apply (storageGetFirst_spec SlotTimer); [done|apply Hm].
  - destruct (mark_run m home) as (m' & ? & ? & [? _] & _); [done|]. by exists m'.
  - destruct (purgeMarked_run _ _ poolDisposer_ok elementDisposer_ok m home) as (m' & Hrun & ? & [? _] & _); [done|].
    exists m'. split; [by eapply discard_run|done].
Qed.

(** C15: Starting from an empty handlespace, any sequence of registrations,
    deregistrations, handle resolutions, ownership, connection and timer
    changes and purges leaves a handlespace in which the invariant holds,
    [poolHandlespaceNodeVerify] succeeds, and every further operation again
    runs to its end: no CHECK fails, no invalid pointer is followed and no
    loop runs forever. *)
Theorem handlespace_reachable home m : rtc phm_step (poolHandlespaceManagementNew home) m →
  phm_inv m ∧ poolHandlespaceManagementVerify m = Some (tt, m) ∧
  ∀ op, allowed m op → ∃ m', execute op m = Some (tt, m') ∧ phm_inv m'.
Proof.
  intros Hr. assert (phm_inv m) as Hm.
  { remember (poolHandlespaceManagementNew home) as m0 eqn:Heq. assert (phm_inv m0) as H0 by (subst; apply phm_inv_new).
    clear Heq. induction Hr as [|m1 m2 m3 [op m' Hop Hrun] _ IH]; [done|]. apply IH.
    destruct (execute_ok m1 op H0 Hop) as (m2' & Hrun' & ? & _). rewrite Hrun in Hrun'. by injection Hrun' as ->. }
  split; [done|].
  split; [|intros op Hop; destruct (execute_ok m op Hm Hop) as (m' & ? & ? & _); eauto].
  unfold poolHandlespaceManagementVerify. erewrite onHandlespace_run; [by rewrite phm_set_same|]. apply verify_run, Hm.
Qed.
End sequences.

(** ** A concrete handlespace *)

Module Demo.
(** The build uses the simple tree (simpleredblacktree.c). *)
#[export] Instance demo_simple : LeafLinked := false.
#[export] Existing Instances rbt_storage rbt_storage_laws.
#[export] Instance demo_endian : Endian := true.
Abbreviation storage := RedBlackTree.

Definition demo_transport : TransportAddressBlock := MkTAB IPPROTO_TCP 80 0 [sockaddr_in [10; 0; 0; 1] 80].
Definition demo_settings : PoolPolicySettings := MkPPS PPT_ROUNDROBIN 1 0 0 0 0 0.
Definition demo_handle : PoolHandle := MkPoolHandle 3 [65; 66; 67].
Definition demo_memory (pp p : ptr) : Memory := MkMemory (Some pp) (Some p) true true.

Definition demo_register (pp p : ptr) (home id : Z) : M (PoolHandlespaceManagement storage) (option ptr * Z) :=
  poolHandlespaceManagementRegisterPoolElement None None (demo_memory pp p) demo_handle home id 30000 demo_settings
    demo_transport None 7 1 1000.

Definition demo_new : PoolHandlespaceManagement storage := poolHandlespaceManagementNew 1.

(** The state after an operation. *)
Definition after {A} (f : M (PoolHandlespaceManagement storage) A) (m : PoolHandlespaceManagement storage) :=
  match f m with Some (_, m') => m' | None => m end.

Definition demo_one := after (demo_register 1 2 1 7) demo_new.

Lemma disposer_none : disposer_ok (ST := storage) None.
Proof. done. Qed.

Lemma demo_handle_wf : handle_wf demo_handle.
Proof. by apply (bool_decide_unpack _). Qed.

Lemma demo_fresh : fresh_memory demo_new (demo_memory 1 2).
Proof. split; intros q [= <-]; done. Qed.

Lemma demo_register_inv pp p home id m : phm_inv m → fresh_memory m (demo_memory pp p) → is_u32 home → is_u32 id →
  hs_PoolElements (phm_Handlespace m) + 1 < 2 ^ 31 → phm_inv (after (demo_register pp p home id) m).
Proof.
  intros Hm Hf Hhome Hid Hb.
  destruct (register_run None None disposer_none disposer_none (demo_memory pp p) demo_handle home id 30000 demo_settings
    demo_transport None 7 1 1000 m) as (r & m' & Hrun & Hm' & _); try done.
  - by intros _; apply demo_handle_wf.
  - unfold after, demo_register. by rewrite Hrun.
Qed.

Lemma demo_new_inv : phm_inv demo_new.
Proof. apply phm_inv_new. Qed.

Lemma demo_one_inv : phm_inv demo_one.
Proof. apply demo_register_inv; [apply demo_new_inv|apply demo_fresh|by apply (bool_decide_unpack _)..|done]. Qed.

(** Two elements: 7 of registrar 1 at address 2, 8 of registrar 2 at 4. *)
Definition demo_two := after (demo_register 3 4 2 8) demo_one.

Lemma demo_two_inv : phm_inv demo_two.
Proof.
  apply demo_register_inv; [apply demo_one_inv| |by apply (bool_decide_unpack _)..|by vm_compute].
  split; intros q [= <-]; by vm_compute.
Qed.

Lemma demo_two_linked : linked demo_two 2.
Proof. eexists. split; [by vm_compute|done]. Qed.

(** The expiry timer of element 7 is running. *)
Definition demo_timed := after (poolHandlespaceManagementRestartPoolElementExpiryTimer 2 500) demo_two.

Lemma demo_timed_inv : phm_inv demo_timed.
Proof.
  destruct (restartTimer_run demo_two 2%positive 500 demo_two_inv demo_two_linked) as (m' & n & Hrun & Hm' & _).
  unfold demo_timed, after. by rewrite Hrun.
Qed.

Lemma demo_timed_codes p n : p ∈ st_list (hs_PoolElementTimerStorage (phm_Handlespace demo_timed)) →
  hs_PoolElementNodes (phm_Handlespace demo_timed) !! p = Some n → pen_TimerCode n = PENT_EXPIRY.
Proof.
  assert (st_list (hs_PoolElementTimerStorage (phm_Handlespace demo_timed)) = [2%positive]) as -> by (vm_compute; reflexivity).
  intros Hp Hn. apply list_elem_of_singleton in Hp. subst p. vm_compute in Hn. injection Hn as <-. reflexivity.
Qed.

(** The pool of both. *)
Definition demo_pool : option (PoolNode storage) := hs_PoolNodes (phm_Handlespace demo_two) !! (1%positive : ptr).

Lemma demo_pool_inv : ∃ pn, demo_pool = Some pn ∧ pool_inv [] [] (phm_Handlespace demo_two) 1%positive pn ∧
  length (st_list (pn_PoolElementSelectionStorage pn)) = 2%nat ∧ pp_Type (pn_Policy pn) = PPT_ROUNDROBIN.
Proof.
  destruct demo_pool as [pn|] eqn:Hp; [|by vm_compute in Hp]. exists pn. split; [done|].
  split; [eapply hs_struct_any_pool; [apply (pm_inv _ demo_two_inv)|exact Hp]|].
  vm_compute in Hp. injection Hp as <-. done.
Qed.
End Demo.
Import Demo.

Lemma handlespace_reachable_witness :
  rtc (phm_step None None) demo_new demo_one ∧ phm_inv demo_one ∧
  poolHandlespaceManagementVerify demo_one = Some (tt, demo_one).
Proof.
  assert (rtc (phm_step None None) demo_new demo_one) as Hr.
  { apply rtc_once. apply (step_operation None None demo_new
      (OpRegister (demo_memory 1 2) demo_handle 1 7 30000 demo_settings demo_transport None 7 1 1000)); [|by vm_compute].
    split; [exact demo_fresh|]. split; [intros _; exact demo_handle_wf|].
    split; [by apply (bool_decide_unpack _)|]. split; [by apply (bool_decide_unpack _)|].
    split; [by apply (bool_decide_unpack _)|]. done. }
  split; [exact Hr|].
  destruct (handlespace_reachable None None disposer_none disposer_none 1 demo_one Hr) as (H1 & H2 & _). split; assumption.
Defined.

(** ** Registration and deregistration *)

Section claims.
Context {ST : Type} `{SL : StorageLaws ST} `{En : Endian}.
Context (poolDisposer elementDisposer : option (ptr → M (Handlespace ST) ())).
Context (poolDisposer_ok : disposer_ok poolDisposer) (elementDisposer_ok : disposer_ok elementDisposer).
Abbreviation PHM := (PoolHandlespaceManagement ST).
Implicit Types (m : PHM).


(** C17: Deregistration is deletion from the map: it answers [RSPERR_OKAY]
    and removes exactly the key if it was registered, and
    [RSPERR_NOT_FOUND] without any change otherwise. *)
Theorem deregisterPoolElement_refines m h id : phm_inv m → handle_wf h → ∃ err m',
  poolHandlespaceManagementDeregisterPoolElement poolDisposer elementDisposer h id m = Some (err, m') ∧ phm_inv m' ∧
  (err = RSPERR_OKAY ∧ (∃ r, registered (phm_Handlespace m) h id r) ∧ view_without m m' h id ∨
   err = RSPERR_NOT_FOUND ∧ (∀ r, ¬ registered (phm_Handlespace m) h id r) ∧ m' = m).
Proof. intros. destruct (deregister_run _ _ poolDisposer_ok elementDisposer_ok m h id) as (r & m' & ? & ? & ? & _); eauto. Qed.


(** C19: Purging removes exactly the elements whose expiry time has come,
    and says how many they were. *)
Theorem purgeExpired_exact m now : phm_inv m →
  (∀ p n, p ∈ st_list (hs_PoolElementTimerStorage (phm_Handlespace m)) →
     hs_PoolElementNodes (phm_Handlespace m) !! p = Some n → pen_TimerCode n = PENT_EXPIRY) → ∃ k m',
  poolHandlespaceManagementPurgeExpiredPoolElements poolDisposer elementDisposer now m = Some (Z.of_nat k, m') ∧ phm_inv m' ∧
  let timers := st_list (hs_PoolElementTimerStorage (phm_Handlespace m)) in
  st_list (hs_PoolElementTimerStorage (phm_Handlespace m')) = drop k timers ∧ (k <= length timers)%nat ∧
  (∀ p, p ∈ take k timers → expired (phm_Handlespace m) now p) ∧
  (∀ p, p ∈ drop k timers → ¬ expired (phm_Handlespace m) now p) ∧
  ∀ q, hs_PoolElementNodes (phm_Handlespace m') !! q =
    if decide (q ∈ reverse (take k timers)) then None else hs_PoolElementNodes (phm_Handlespace m) !! q.
Proof.
  intros Hm Hcode. set (timers := st_list (hs_PoolElementTimerStorage (phm_Handlespace m))).
  destruct (purgeExpired_run _ _ poolDisposer_ok elementDisposer_ok m now timers (phm_Handlespace m) (length timers) 0)
    as (st' & k & Hrun & Hm' & _ & Ht & He & Hk & Hexp & Hnot); [by rewrite phm_set_same|done|exact Hcode|done|].
  exists k, (phm_set_Handlespace st' m). split; [|split; [done|]].
  - eapply onHandlespace_run. erewrite run_bind; [|unfold storageFuel; by apply (storageRead_eq SlotTimer)].
    erewrite run_bind; [exact Hrun|]. apply (storageGetFirst_spec SlotTimer); [done|apply Hm].
  - repeat (split; [done|]). intros q. simpl. rewrite He. apply without_all_lookup.
Qed.

(** Marking the elements of a registrar sets the mark on exactly those
    whose home is this registrar, and on no other. *)
Theorem markPoolElementNodes_exact m home : phm_inv m → ∃ m',
  poolHandlespaceManagementMarkPoolElementNodes home m = Some (tt, m') ∧ phm_inv m' ∧
  ∀ q, hs_PoolElementNodes (phm_Handlespace m') !! q =
    (if decide (q ∈ owned_list home (phm_Handlespace m)) then mark_node else id) <$> hs_PoolElementNodes (phm_Handlespace m) !! q.
Proof. intros. destruct (mark_run m home) as (m' & ? & ? & _ & ?); eauto. Qed.

(** Purging the marked elements of a registrar removes exactly the
    elements of this registrar that are marked, and says how many they
    were; all other elements stay as they are. *)
Theorem purgeMarked_exact m home : phm_inv m → ∃ m',
  let purged := filter (λ p, is_marked (phm_Handlespace m) p = true) (owned_list home (phm_Handlespace m)) in
  poolHandlespaceManagementPurgeMarkedPoolElementNodes poolDisposer elementDisposer home m
    = Some (Z.of_nat (length purged), m') ∧ phm_inv m' ∧
  ∀ q, hs_PoolElementNodes (phm_Handlespace m') !! q =
    if decide (q ∈ purged) then None else hs_PoolElementNodes (phm_Handlespace m) !! q.
Proof. intros. destruct (purgeMarked_run _ _ poolDisposer_ok elementDisposer_ok m home) as (m' & ? & ? & _ & ?); eauto. Qed.

(** C20: A change of ownership moves exactly one element to the new
    registrar, keeps the handlespace checksum, and moves the element's part
    of the ownership checksum and count (they stay those of the elements
    owned by this registrar, as the invariant says). *)
Theorem updateOwnership_moves m p home : phm_inv m → linked m p → is_u32 home → ∃ m',
  poolHandlespaceManagementUpdateOwnershipOfPoolElementNode p home m = Some (tt, m') ∧ phm_inv m' ∧
  ∃ n, hs_PoolElementNodes (phm_Handlespace m) !! p = Some n ∧
    hs_PoolElementNodes (phm_Handlespace m') = <[p := moved_node home n]> (hs_PoolElementNodes (phm_Handlespace m)).
Proof. intros. destruct (ownership_run m p home) as (m' & ? & ? & _ & ?); eauto. Qed.

(** The consistency check succeeds in every state with the invariant
    and changes nothing. *)
Theorem verify_succeeds (st : Handlespace ST) : hs_inv st → poolHandlespaceNodeVerify st = Some (tt, st).
Proof. apply verify_run. Qed.

(** C21: Round robin is fair: a resolution of [max] elements returns the
    first [max] elements of the selection order, and the elements it
    counts as used, up to the increment, move behind all others. *)
Theorem roundRobin_rotates (st : Handlespace ST) pp pn max maxInc : pool_inv [] [] st pp pn → 1 <= max < 2 ^ 32 → 0 <= maxInc →
  2 * Z.of_nat (length (st_list (pn_PoolElementSelectionStorage pn))) < 2 ^ 32 → pp_Type (pn_Policy pn) = PPT_ROUNDROBIN →
  ∃ st' pn',
  poolPolicySelectPoolElementNodesBySortingOrder pp max maxInc st =
    Some (take (Z.to_nat max) (st_list (pn_PoolElementSelectionStorage pn)), st') ∧ pool_inv [] [] st' pp pn' ∧
  let k := Z.to_nat (Z.min max (effectiveIncrement pn maxInc)) in
  st_list (pn_PoolElementSelectionStorage pn') =
    drop k (st_list (pn_PoolElementSelectionStorage pn)) ++ take k (st_list (pn_PoolElementSelectionStorage pn)).
Proof.
  intros Hinv Hmax Hinc Hlen Ht.
  destruct (selectBySortingOrder_spec st pp pn max maxInc) as (st' & pn' & Hrun & (Hinv' & _) & Hrot); try done.
  exists st', pn'. split; [done|]. split; [done|]. by apply Hrot.
Qed.


(** Resequencing gives the elements of a pool new sequence numbers in
    the order in which they are selected: the order stays, the numbers are
    0, 1, 2, ... along it, the next number follows, and nothing else of any
    element changes. *)
Theorem resequence_keeps_order (st : Handlespace ST) pp pn : pool_inv [] [] st pp pn → ∃ st' pn',
  let l := st_list (pn_PoolElementSelectionStorage pn) in
  poolNodeResequence pp st = Some (tt, st') ∧ pool_inv [] [] st' pp pn' ∧
  st_list (pn_PoolElementSelectionStorage pn') = l ∧ pn_GlobalSeqNumber pn' = Z.of_nat (length l) ∧
  ∀ q, hs_PoolElementNodes st' !! q =
    (λ n, match position q l with Some i => set_SeqNumber i n | None => n end) <$> hs_PoolElementNodes st !! q.
Proof.
  intros Hinv. destruct (pool_inv_resequence [] st pp pn Hinv) as [Hrun Hinv'].
  { intros q n Hq. by apply not_elem_of_nil in Hq. }
  eexists _, _. split; [exact Hrun|]. split; [exact Hinv'|]. split; [done|]. split; [done|]. intros q. apply renumber_lookup.
Qed.
End claims.

(** ** Applications *)


Lemma deregisterPoolElement_refines_witness : ∃ err m',
  poolHandlespaceManagementDeregisterPoolElement None None demo_handle 7 demo_two = Some (err, m') ∧ phm_inv m' ∧
  (err = RSPERR_OKAY ∧ (∃ r, registered (phm_Handlespace demo_two) demo_handle 7 r) ∧ view_without demo_two m' demo_handle 7 ∨
   err = RSPERR_NOT_FOUND ∧ (∀ r, ¬ registered (phm_Handlespace demo_two) demo_handle 7 r) ∧ m' = demo_two).
Proof. exact (deregisterPoolElement_refines None None disposer_none disposer_none demo_two demo_handle 7 demo_two_inv demo_handle_wf). Defined.


Lemma purgeExpired_exact_witness : ∃ k m',
  poolHandlespaceManagementPurgeExpiredPoolElements None None 1500 demo_timed = Some (Z.of_nat k, m') ∧ phm_inv m'.
Proof.
  destruct (purgeExpired_exact None None disposer_none disposer_none demo_timed 1500 demo_timed_inv demo_timed_codes)
    as (k & m' & H1 & H2 & _). exists k, m'. split; [exact H1|exact H2].
Defined.

Lemma markPoolElementNodes_exact_witness : ∃ m',
  poolHandlespaceManagementMarkPoolElementNodes 2 demo_two = Some (tt, m') ∧ phm_inv m' ∧
  ∀ q, hs_PoolElementNodes (phm_Handlespace m') !! q =
    (if decide (q ∈ owned_list 2 (phm_Handlespace demo_two)) then mark_node else id) <$>
      hs_PoolElementNodes (phm_Handlespace demo_two) !! q.
Proof. exact (markPoolElementNodes_exact demo_two 2 demo_two_inv). Defined.

Lemma purgeMarked_exact_witness : ∃ m',
  poolHandlespaceManagementPurgeMarkedPoolElementNodes None None 2 demo_two = Some (0, m') ∧ phm_inv m'.
Proof.
  destruct (purgeMarked_exact None None disposer_none disposer_none demo_two 2 demo_two_inv) as (m' & H1 & H2 & _).
  exists m'. split; [exact H1|exact H2].
Defined.

Lemma updateOwnership_moves_witness : ∃ m',
  poolHandlespaceManagementUpdateOwnershipOfPoolElementNode 2 5 demo_two = Some (tt, m') ∧ phm_inv m'.
Proof.
  destruct (updateOwnership_moves demo_two 2%positive 5 demo_two_inv demo_two_linked) as (m' & H1 & H2 & _);
    [by apply (bool_decide_unpack _)|]. exists m'. split; [exact H1|exact H2].
Defined.

Lemma verify_succeeds_witness :
  poolHandlespaceNodeVerify (phm_Handlespace demo_two) = Some (tt, phm_Handlespace demo_two).
Proof. apply (verify_succeeds (phm_Handlespace demo_two)). exact (pm_inv _ demo_two_inv). Defined.

Lemma roundRobin_rotates_witness : ∃ pn st' pn', demo_pool = Some pn ∧
  poolPolicySelectPoolElementNodesBySortingOrder 1 1 1 (phm_Handlespace demo_two) =
    Some (take 1 (st_list (pn_PoolElementSelectionStorage pn)), st') ∧ pool_inv [] [] st' 1%positive pn'.
Proof.
  destruct demo_pool_inv as (pn & Hp & Hinv & Hlen & Ht).
  destruct (roundRobin_rotates (phm_Handlespace demo_two) 1%positive pn 1 1) as (st' & pn' & H1 & H2 & _);
    [exact Hinv|lia|lia|rewrite Hlen; lia|exact Ht|]. exists pn, st', pn'. split; [exact Hp|]. split; [exact H1|exact H2].
Defined.


Lemma resequence_keeps_order_witness : ∃ pn st' pn', demo_pool = Some pn ∧
  poolNodeResequence 1 (phm_Handlespace demo_two) = Some (tt, st') ∧ pool_inv [] [] st' 1%positive pn' ∧
  st_list (pn_PoolElementSelectionStorage pn') = st_list (pn_PoolElementSelectionStorage pn).
Proof.
  destruct demo_pool_inv as (pn & Hp & Hinv & _).
  destruct (resequence_keeps_order (phm_Handlespace demo_two) 1%positive pn Hinv) as (st' & pn' & H1 & H2 & H3 & _).
  exists pn, st', pn'. split; [exact Hp|]. split; [exact H1|]. split; [exact H2|exact H3].
Defined.

(** ** Handle tables *)

(** The extract of a first request. *)
Definition demo_extract : HandleTableExtract := MkHandleTableExtract (MkPoolHandle 0 []) 0 [].

