(* ===== verification/PeerList.v ===== *)
(** * The peer list (peerlistnode-template_impl.h, peerlist-template_impl.h,
    peerlistmanagement-template_impl.h)

    A registrar's list of the other registrars: nodes are heap objects
    linked in an index storage (by identifier, entries without identifier
    by address) and a timer storage.  Results of [malloc] are arguments,
    as is the handlespace whose ownership checksums the nodes cache. *)

From S2P Require Import Prelude Checksum Addresses PoolBasics Storage PoolElement PoolPolicy HandlespaceState PoolNode PoolEffects PoolSelection HandlespaceNode HandlespaceMgt.
From stdpp Require Import base list gmap numbers option.
#[local] Open Scope Z_scope.

Definition RSPERR_OWN_ID : Z := 0xf001.

Definition PLNF_STATIC : Z := 0.
Definition PLNF_DYNAMIC : Z := 1.
Definition PLNF_FROM_PEER : Z := 2.
Definition PLNF_NEW : Z := 32768.
Definition PLNT_MAX_TIME_NO_RESPONSE : Z := 3001.

(** [pln_UserData] is the handle table extract that the registrar keeps
    there; [pln_Value] the value of the index storage node. *)
Record PeerListNode := MkPeerListNode {
  pln_OwnerPeerList : bool;
  pln_Identifier : Z;
  pln_Flags : Z;
  pln_LastUpdateTimeStamp : Z;
  pln_TimerCode : Z;
  pln_TimerTimeStamp : Z;
  pln_OwnershipChecksum : Z;
  pln_Status : Z;
  pln_TakeoverRegistrarID : Z;
  pln_TakeoverProcess : option ptr;
  pln_AddressBlock : option TransportAddressBlock;
  pln_UserData : option HandleTableExtract;
  pln_Value : Z
}.

Definition pln_set_OwnerPeerList (v : bool) (x : PeerListNode) : PeerListNode :=
  MkPeerListNode v (pln_Identifier x) (pln_Flags x) (pln_LastUpdateTimeStamp x) (pln_TimerCode x)
    (pln_TimerTimeStamp x) (pln_OwnershipChecksum x) (pln_Status x) (pln_TakeoverRegistrarID x)
    (pln_TakeoverProcess x) (pln_AddressBlock x) (pln_UserData x) (pln_Value x).
Definition pln_set_Identifier (v : Z) (x : PeerListNode) : PeerListNode :=
  MkPeerListNode (pln_OwnerPeerList x) v (pln_Flags x) (pln_LastUpdateTimeStamp x) (pln_TimerCode x)
    (pln_TimerTimeStamp x) (pln_OwnershipChecksum x) (pln_Status x) (pln_TakeoverRegistrarID x)
    (pln_TakeoverProcess x) (pln_AddressBlock x) (pln_UserData x) (pln_Value x).
Definition pln_set_Flags (v : Z) (x : PeerListNode) : PeerListNode :=
  MkPeerListNode (pln_OwnerPeerList x) (pln_Identifier x) v (pln_LastUpdateTimeStamp x) (pln_TimerCode x)
    (pln_TimerTimeStamp x) (pln_OwnershipChecksum x) (pln_Status x) (pln_TakeoverRegistrarID x)
    (pln_TakeoverProcess x) (pln_AddressBlock x) (pln_UserData x) (pln_Value x).
Definition pln_set_LastUpdateTimeStamp (v : Z) (x : PeerListNode) : PeerListNode :=
  MkPeerListNode (pln_OwnerPeerList x) (pln_Identifier x) (pln_Flags x) v (pln_TimerCode x)
    (pln_TimerTimeStamp x) (pln_OwnershipChecksum x) (pln_Status x) (pln_TakeoverRegistrarID x)
    (pln_TakeoverProcess x) (pln_AddressBlock x) (pln_UserData x) (pln_Value x).
Definition pln_set_TimerCode (v : Z) (x : PeerListNode) : PeerListNode :=
  MkPeerListNode (pln_OwnerPeerList x) (pln_Identifier x) (pln_Flags x) (pln_LastUpdateTimeStamp x) v
    (pln_TimerTimeStamp x) (pln_OwnershipChecksum x) (pln_Status x) (pln_TakeoverRegistrarID x)
    (pln_TakeoverProcess x) (pln_AddressBlock x) (pln_UserData x) (pln_Value x).
Definition pln_set_TimerTimeStamp (v : Z) (x : PeerListNode) : PeerListNode :=
  MkPeerListNode (pln_OwnerPeerList x) (pln_Identifier x) (pln_Flags x) (pln_LastUpdateTimeStamp x)
    (pln_TimerCode x) v (pln_OwnershipChecksum x) (pln_Status x) (pln_TakeoverRegistrarID x)
    (pln_TakeoverProcess x) (pln_AddressBlock x) (pln_UserData x) (pln_Value x).
Definition pln_set_OwnershipChecksum (v : Z) (x : PeerListNode) : PeerListNode :=
  MkPeerListNode (pln_OwnerPeerList x) (pln_Identifier x) (pln_Flags x) (pln_LastUpdateTimeStamp x)
    (pln_TimerCode x) (pln_TimerTimeStamp x) v (pln_Status x) (pln_TakeoverRegistrarID x)
    (pln_TakeoverProcess x) (pln_AddressBlock x) (pln_UserData x) (pln_Value x).
Definition pln_set_Status (v : Z) (x : PeerListNode) : PeerListNode :=
  MkPeerListNode (pln_OwnerPeerList x) (pln_Identifier x) (pln_Flags x) (pln_LastUpdateTimeStamp x)
    (pln_TimerCode x) (pln_TimerTimeStamp x) (pln_OwnershipChecksum x) v (pln_TakeoverRegistrarID x)
    (pln_TakeoverProcess x) (pln_AddressBlock x) (pln_UserData x) (pln_Value x).
Definition pln_set_TakeoverRegistrarID (v : Z) (x : PeerListNode) : PeerListNode :=
  MkPeerListNode (pln_OwnerPeerList x) (pln_Identifier x) (pln_Flags x) (pln_LastUpdateTimeStamp x)
    (pln_TimerCode x) (pln_TimerTimeStamp x) (pln_OwnershipChecksum x) (pln_Status x) v
    (pln_TakeoverProcess x) (pln_AddressBlock x) (pln_UserData x) (pln_Value x).
Definition pln_set_TakeoverProcess (v : option ptr) (x : PeerListNode) : PeerListNode :=
  MkPeerListNode (pln_OwnerPeerList x) (pln_Identifier x) (pln_Flags x) (pln_LastUpdateTimeStamp x)
    (pln_TimerCode x) (pln_TimerTimeStamp x) (pln_OwnershipChecksum x) (pln_Status x)
    (pln_TakeoverRegistrarID x) v (pln_AddressBlock x) (pln_UserData x) (pln_Value x).
Definition pln_set_AddressBlock (v : option TransportAddressBlock) (x : PeerListNode) : PeerListNode :=
  MkPeerListNode (pln_OwnerPeerList x) (pln_Identifier x) (pln_Flags x) (pln_LastUpdateTimeStamp x)
    (pln_TimerCode x) (pln_TimerTimeStamp x) (pln_OwnershipChecksum x) (pln_Status x)
    (pln_TakeoverRegistrarID x) (pln_TakeoverProcess x) v (pln_UserData x) (pln_Value x).
Definition pln_set_UserData (v : option HandleTableExtract) (x : PeerListNode) : PeerListNode :=
  MkPeerListNode (pln_OwnerPeerList x) (pln_Identifier x) (pln_Flags x) (pln_LastUpdateTimeStamp x)
    (pln_TimerCode x) (pln_TimerTimeStamp x) (pln_OwnershipChecksum x) (pln_Status x)
    (pln_TakeoverRegistrarID x) (pln_TakeoverProcess x) (pln_AddressBlock x) v (pln_Value x).
Definition pln_set_Value (v : Z) (x : PeerListNode) : PeerListNode :=
  MkPeerListNode (pln_OwnerPeerList x) (pln_Identifier x) (pln_Flags x) (pln_LastUpdateTimeStamp x)
    (pln_TimerCode x) (pln_TimerTimeStamp x) (pln_OwnershipChecksum x) (pln_Status x)
    (pln_TakeoverRegistrarID x) (pln_TakeoverProcess x) (pln_AddressBlock x) (pln_UserData x) v.

Record PeerList {ST : Type} := MkPeerList {
  pl_PeerListNodes : gmap ptr PeerListNode;
  pl_PeerListIndexStorage : ST;
  pl_PeerListTimerStorage : ST;
  pl_OwnIdentifier : Z
}.
Arguments PeerList : clear implicits.
Arguments MkPeerList {ST}.

Record PeerListManagement {ST : Type} := MkPeerListManagement {
  plm_List : PeerList ST;
  plm_NewPeerListNode : option ptr
}.
Arguments PeerListManagement : clear implicits.
Arguments MkPeerListManagement {ST}.

(** ** Overlap of address blocks (transportaddressblock.c) *)

Fixpoint overlapInner (a : sockaddr_union) (l2 : list sockaddr_union) : option bool :=
  match l2 with
  | [] => Some false
  | b :: l2' => r ← addresscmp a b false; if r =? 0 then Some true else overlapInner a l2'
  end.

Fixpoint overlapOuter (l1 l2 : list sockaddr_union) : option bool :=
  match l1 with
  | [] => Some false
  | a :: l1' => r ← overlapInner a l2; if r : bool then Some true else overlapOuter l1' l2
  end.

Definition transportAddressBlockOverlapComparison (t1 t2 : option TransportAddressBlock) : option Z :=
  match t1, t2 with
  | None, Some _ => Some (-1)
  | Some _, None => Some 1
  | None, None => Some 0
  | Some t1, Some t2 =>
    if tab_Port t1 <? tab_Port t2 then Some (-1)
    else if tab_Port t2 <? tab_Port t1 then Some 1
    else if tab_Flags t1 <? tab_Flags t2 then Some (-1)
    else if tab_Flags t2 <? tab_Flags t1 then Some 1
    else
      overlap ← overlapOuter (tab_AddressArray t1) (tab_AddressArray t2);
      if overlap : bool then Some 0
      else if tab_Addresses t1 <? tab_Addresses t2 then Some (-1)
      else if tab_Addresses t2 <? tab_Addresses t1 then Some 1
      else addressArrayComparison (tab_AddressArray t1) (tab_AddressArray t2)
  end.

(** ** Nodes *)

Definition peerListIndexStorageNodeComparison (node1 node2 : PeerListNode) : option Z :=
  if pln_Identifier node1 <? pln_Identifier node2 then Some (-1)
  else if pln_Identifier node2 <? pln_Identifier node1 then Some 1
  else if (pln_Identifier node1 =? UNDEFINED_REGISTRAR_IDENTIFIER) && (pln_Identifier node2 =? UNDEFINED_REGISTRAR_IDENTIFIER)
  then transportAddressBlockComparison (pln_AddressBlock node1) (pln_AddressBlock node2)
  else Some 0.

Definition peerListTimerStorageNodeComparison (node1 node2 : PeerListNode) : option Z :=
  if pln_TimerTimeStamp node1 <? pln_TimerTimeStamp node2 then Some (-1)
  else if pln_TimerTimeStamp node2 <? pln_TimerTimeStamp node1 then Some 1
  else if pln_Identifier node1 <? pln_Identifier node2 then Some (-1)
  else if pln_Identifier node2 <? pln_Identifier node1 then Some 1
  else if (pln_Identifier node1 =? UNDEFINED_REGISTRAR_IDENTIFIER) && (pln_Identifier node2 =? UNDEFINED_REGISTRAR_IDENTIFIER)
  then transportAddressBlockComparison (pln_AddressBlock node1) (pln_AddressBlock node2)
  else Some 0.

Definition peerListNodeNew (identifier flags : Z) (transportAddressBlock : option TransportAddressBlock) : PeerListNode :=
  {| pln_OwnerPeerList := false; pln_Identifier := identifier; pln_Flags := flags;
     pln_OwnershipChecksum := INITIAL_HANDLESPACE_CHECKSUM; pln_Status := 0;
     pln_TakeoverRegistrarID := UNDEFINED_REGISTRAR_IDENTIFIER; pln_TakeoverProcess := None;
     pln_LastUpdateTimeStamp := 0; pln_TimerCode := 0; pln_TimerTimeStamp := 0;
     pln_AddressBlock := transportAddressBlock; pln_UserData := None; pln_Value := 0 |}.

Definition peerListNodeUpdate (peerListNode source : PeerListNode) : PeerListNode :=
  pln_set_Flags (pln_Flags source) peerListNode.

Definition peerListNodeGetOwnershipChecksum (peerListNode : PeerListNode) : Z :=
  handlespaceChecksumFinish (pln_OwnershipChecksum peerListNode).

Section peerlist.
Context {ST : Type} `{Storage ST} `{Endian}.
Abbreviation PL := (PeerList ST).
Abbreviation PLM := (PeerListManagement ST).

Definition pl_set_PeerListNodes (v : gmap ptr PeerListNode) (x : PeerList ST) : PeerList ST :=
  MkPeerList v (pl_PeerListIndexStorage x) (pl_PeerListTimerStorage x) (pl_OwnIdentifier x).
Definition pl_set_PeerListIndexStorage (v : ST) (x : PeerList ST) : PeerList ST :=
  MkPeerList (pl_PeerListNodes x) v (pl_PeerListTimerStorage x) (pl_OwnIdentifier x).
Definition pl_set_PeerListTimerStorage (v : ST) (x : PeerList ST) : PeerList ST :=
  MkPeerList (pl_PeerListNodes x) (pl_PeerListIndexStorage x) v (pl_OwnIdentifier x).
Definition pl_set_OwnIdentifier (v : Z) (x : PeerList ST) : PeerList ST :=
  MkPeerList (pl_PeerListNodes x) (pl_PeerListIndexStorage x) (pl_PeerListTimerStorage x) v.

Definition peer_get (p : ptr) : M PL PeerListNode := deref (λ pl, pl_PeerListNodes pl !! p).
Definition peer_store (p : ptr) (n : PeerListNode) (pl : PL) : PL :=
  pl_set_PeerListNodes (<[p := n]> (pl_PeerListNodes pl)) pl.
Definition peer_update (p : ptr) (f : PeerListNode → PeerListNode) : M PL () :=
  n ← peer_get p; modify (peer_store p (f n)).

(** The two storages with their comparison functions. *)
Inductive peerSlot := PeerIndex | PeerTimer.

Definition peerSlot_get (k : peerSlot) (pl : PL) : ST :=
  match k with PeerIndex => pl_PeerListIndexStorage pl | PeerTimer => pl_PeerListTimerStorage pl end.
Definition peerSlot_set (k : peerSlot) (s : ST) (pl : PL) : PL :=
  match k with PeerIndex => pl_set_PeerListIndexStorage s pl | PeerTimer => pl_set_PeerListTimerStorage s pl end.
Definition peerSlot_cmp (k : peerSlot) (pl : PL) (n1 : PeerListNode) (q : ptr) : option Z :=
  n2 ← pl_PeerListNodes pl !! q;
  match k with
  | PeerIndex => peerListIndexStorageNodeComparison n1 n2
  | PeerTimer => peerListTimerStorageNodeComparison n1 n2
  end.
Definition peerSlot_value (k : peerSlot) (pl : PL) (p : ptr) : Z :=
  match k with PeerIndex => default 0 (pln_Value <$> pl_PeerListNodes pl !! p) | PeerTimer => 0 end.

Definition peerInsert (k : peerSlot) (p : ptr) : M PL ptr := λ pl,
  match pl_PeerListNodes pl !! p with
  | Some n =>
      let s := peerSlot_get k pl in
      if all_valid (peerSlot_cmp k pl n) (st_list s) then
        match ST_Insert (λ q, default 0 (peerSlot_cmp k pl n q)) (peerSlot_value k pl) p s with
        | Some (r, s') => Some (r, peerSlot_set k s' pl)
        | None => None
        end
      else None
  | None => None
  end.

Definition peerRemove (k : peerSlot) (p : ptr) : M PL ptr := λ pl,
  match ST_Remove (peerSlot_value k pl) p (peerSlot_get k pl) with
  | Some (r, s') => Some (r, peerSlot_set k s' pl)
  | None => None
  end.

Definition peerSearch (op : (ptr → Z) → ST → option ptr) (cmpElement : PeerListNode) : M PL (option ptr) := λ pl,
  let s := peerSlot_get PeerIndex pl in
  if all_valid (peerSlot_cmp PeerIndex pl cmpElement) (st_list s)
  then Some (op (λ q, default 0 (peerSlot_cmp PeerIndex pl cmpElement q)) s, pl) else None.

Definition peerRead {A} (k : peerSlot) (f : ST → A) : M PL A := gets (λ pl, f (peerSlot_get k pl)).
Definition peerFuel : M PL nat := peerRead PeerIndex (λ s, length (st_list s)).

(** ** The list *)

Definition peerListNew (ownIdentifier : Z) : PL :=
  {| pl_PeerListNodes := ∅; pl_PeerListIndexStorage := ST_New; pl_PeerListTimerStorage := ST_New;
     pl_OwnIdentifier := ownIdentifier |}.

(** [ST_METHOD(Delete)] checks that the storage is empty. *)
Definition peerListDelete : M PL () :=
  empty ← peerRead PeerIndex ST_IsEmpty; CHECK empty;;
  empty ← peerRead PeerTimer ST_IsEmpty; CHECK empty;;
  modify (pl_set_OwnIdentifier UNDEFINED_REGISTRAR_IDENTIFIER).

Definition peerListGetPeerListNodes : M PL Z := peerRead PeerIndex ST_GetElements.
Definition peerListGetFirstPeerListNodeFromIndexStorage : M PL (option ptr) := peerRead PeerIndex ST_GetFirst.
Definition peerListGetLastPeerListNodeFromIndexStorage : M PL (option ptr) := peerRead PeerIndex ST_GetLast.
Definition peerListGetNextPeerListNodeFromIndexStorage (p : ptr) : M PL (option ptr) :=
  peerRead PeerIndex (λ s, ST_GetNext s p).
Definition peerListGetPrevPeerListNodeFromIndexStorage (p : ptr) : M PL (option ptr) :=
  peerRead PeerIndex (λ s, ST_GetPrev s p).
Definition peerListGetFirstPeerListNodeFromTimerStorage : M PL (option ptr) := peerRead PeerTimer ST_GetFirst.
Definition peerListGetLastPeerListNodeFromTimerStorage : M PL (option ptr) := peerRead PeerTimer ST_GetLast.
Definition peerListGetNextPeerListNodeFromTimerStorage (p : ptr) : M PL (option ptr) :=
  peerRead PeerTimer (λ s, ST_GetNext s p).
Definition peerListGetPrevPeerListNodeFromTimerStorage (p : ptr) : M PL (option ptr) :=
  peerRead PeerTimer (λ s, ST_GetPrev s p).

Definition peerListActivateTimer (p : ptr) (timerCode timerTimeStamp : Z) : M PL () :=
  linked ← peerRead PeerTimer (λ s, STN_IsLinked s p);
  CHECK (negb linked);;
  peer_update p (λ n, pln_set_TimerTimeStamp timerTimeStamp (pln_set_TimerCode timerCode n));;
  result ← peerInsert PeerTimer p;
  CHECK (bool_decide (result = p)).

Definition peerListDeactivateTimer (p : ptr) : M PL () :=
  linked ← peerRead PeerTimer (λ s, STN_IsLinked s p);
  if linked : bool then
    result ← peerRemove PeerTimer p;
    CHECK (bool_decide (result = p))
  else mret tt.

Definition peerListCheckPeerListNodeCompatibility (peerListNode : PeerListNode) : M PL Z :=
  gets (λ pl,
    if negb (pl_OwnIdentifier pl =? UNDEFINED_REGISTRAR_IDENTIFIER) && (pln_Identifier peerListNode =? pl_OwnIdentifier pl)
    then RSPERR_OWN_ID else RSPERR_OKAY).

(** The node that is stored now (or already was), and the error code. *)
Definition peerListAddPeerListNode (p : ptr) : M PL (option ptr * Z) :=
  n ← peer_get p;
  errorCode ← peerListCheckPeerListNodeCompatibility n;
  if negb (errorCode =? RSPERR_OKAY) then mret (None, errorCode)
  else
    peer_update p (pln_set_Value 1);;
    result ← peerInsert PeerIndex p;
    if bool_decide (result = p) then
      peer_update p (pln_set_OwnerPeerList true);;
      mret (Some p, RSPERR_OKAY)
    else mret (Some result, RSPERR_DUPLICATE_ID).

Definition peerListUpdatePeerListNode (p : ptr) (source : PeerListNode) : M PL Z :=
  errorCode ← peerListCheckPeerListNodeCompatibility source;
  if errorCode =? RSPERR_OKAY then
    n ← peer_get p;
    (if negb (pln_Identifier n =? pln_Identifier source) then
       result ← peerRemove PeerIndex p;
       CHECK (bool_decide (result = p));;
       peer_update p (pln_set_Identifier (pln_Identifier source));;
       result ← peerInsert PeerIndex p;
       CHECK (bool_decide (result = p))
     else mret tt);;
    peer_update p (λ n, peerListNodeUpdate n source);;
    peer_update p (λ n, pln_set_Flags (flag_clear (pln_Flags n) PLNF_NEW) n);;
    mret errorCode
  else mret errorCode.

(** The node, the error code, and whether the memory of [p] was used. *)
Definition peerListAddOrUpdatePeerListNode (p : ptr) : M PL (option ptr * Z * bool) :=
  r ← peerListAddPeerListNode p;
  match r with
  | (Some q, errorCode) =>
      if bool_decide (q ≠ p) then
        source ← peer_get p;
        errorCode' ← peerListUpdatePeerListNode q source;
        mret (Some q, errorCode', false)
      else
        peer_update q (λ n, pln_set_Flags (flag_set (pln_Flags n) PLNF_NEW) n);;
        mret (Some q, errorCode, true)
  | (None, errorCode) => mret (None, errorCode, false)
  end.

(** The loop of the search by address. *)
Fixpoint findOverlap (fuel : nat) (transportAddressBlock : option TransportAddressBlock) (peerListNode : option ptr) :
    M PL (option ptr) :=
  match peerListNode with
  | None => mret None
  | Some p =>
      match fuel with
      | O => abort
      | S fuel' =>
          n ← peer_get p;
          c ← deref (λ _, transportAddressBlockOverlapComparison (pln_AddressBlock n) transportAddressBlock);
          if c =? 0 then mret (Some p)
          else
            next ← peerListGetNextPeerListNodeFromIndexStorage p;
            findOverlap fuel' transportAddressBlock next
      end
  end.

Definition peerListFindPeerListNode (identifier : Z) (transportAddressBlock : option TransportAddressBlock) :
    M PL (option ptr) :=
  if negb (identifier =? UNDEFINED_REGISTRAR_IDENTIFIER) then
    peerSearch ST_Find (peerListNodeNew identifier 0 transportAddressBlock)
  else
    fuel ← peerFuel;
    first ← peerListGetFirstPeerListNodeFromIndexStorage;
    findOverlap fuel transportAddressBlock first.

Definition peerListFindNearestPrevPeerListNode (identifier : Z) (transportAddressBlock : option TransportAddressBlock) :
    M PL (option ptr) :=
  peerSearch ST_GetNearestPrev (peerListNodeNew identifier 0 transportAddressBlock).

Definition peerListFindNearestNextPeerListNode (identifier : Z) (transportAddressBlock : option TransportAddressBlock) :
    M PL (option ptr) :=
  peerSearch ST_GetNearestNext (peerListNodeNew identifier 0 transportAddressBlock).

Definition peerListRemovePeerListNode (p : ptr) : M PL () :=
  result ← peerRemove PeerIndex p;
  CHECK (bool_decide (result = p));;
  peerListDeactivateTimer p;;
  peer_update p (pln_set_OwnerPeerList false).

(** [random64] is the value the randomizer returned. *)
Definition peerListGetRandomPeerListNode (random64 : Z) : M PL (option ptr) :=
  maxValue ← peerRead PeerIndex ST_GetValueSum;
  if maxValue <? 1 then mret None
  else gets (λ pl, ST_GetNodeByValue (peerSlot_value PeerIndex pl) (random64 mod maxValue) (peerSlot_get PeerIndex pl)).

Definition peerListNodeDelete (p : ptr) : M PL () :=
  linked ← peerRead PeerIndex (λ s, STN_IsLinked s p);
  CHECK (negb linked);;
  linked ← peerRead PeerTimer (λ s, STN_IsLinked s p);
  CHECK (negb linked);;
  peer_update p (λ n, pln_set_TimerTimeStamp 0 (pln_set_TimerCode 0 (pln_set_LastUpdateTimeStamp 0 (pln_set_Flags 0 n)))).

(** [ST_METHOD(Verify)]; a comparison that reads an invalid pointer makes it fail. *)
Definition peerVerify (k : peerSlot) : M PL () := λ pl,
  if ST_Verify (λ p q, default 0 (n ← pl_PeerListNodes pl !! p; peerSlot_cmp k pl n q)) (peerSlot_value k pl) (peerSlot_get k pl)
  then Some (tt, pl) else None.

Definition peerListVerify : M PL () := peerVerify PeerIndex;; peerVerify PeerTimer.

(** One removal per node: [fuel] is the number of nodes. *)
Fixpoint peerListClearLoop (disposer : ptr → M PL ()) (fuel : nat) (peerListNode : option ptr) : M PL () :=
  match peerListNode with
  | None => mret tt
  | Some p =>
      match fuel with
      | O => abort
      | S fuel' =>
          peerListRemovePeerListNode p;;
          peerListNodeDelete p;;
          disposer p;;
          next ← peerListGetFirstPeerListNodeFromIndexStorage;
          peerListClearLoop disposer fuel' next
      end
  end.

Definition peerListClear (disposer : ptr → M PL ()) : M PL () :=
  fuel ← peerFuel;
  first ← peerListGetFirstPeerListNodeFromIndexStorage;
  peerListClearLoop disposer fuel first.

(** ** Management *)

(** The user's disposer; [None] is NULL. *)
Context (PeerListNodeUserDataDisposer : option (ptr → M PL ())).

Definition onList {A} (f : M PL A) : M PLM A := λ m,
  match f (plm_List m) with
  | Some (a, pl) => Some (a, MkPeerListManagement pl (plm_NewPeerListNode m))
  | None => None
  end.

Definition peerListManagementNew (ownRegistrarIdentifier : Z) : PLM :=
  MkPeerListManagement (peerListNew ownRegistrarIdentifier) None.

Definition freePeer (p : ptr) : M PL () := modify (λ pl, pl_set_PeerListNodes (delete p (pl_PeerListNodes pl)) pl).

Definition peerListManagementPeerListNodeDisposer (p : ptr) : M PL () :=
  n ← peer_get p;
  match pln_UserData n, PeerListNodeUserDataDisposer with
  | Some _, Some f => f p
  | _, _ => mret tt
  end;;
  freePeer p.

Definition peerListManagementClear : M PLM () := onList (peerListClear peerListManagementPeerListNodeDisposer).

Definition peerListManagementDelete : M PLM () :=
  peerListManagementClear;;
  m ← get;
  match plm_NewPeerListNode m with
  | Some p => onList (peerListNodeDelete p;; freePeer p);; modify (λ m, MkPeerListManagement (plm_List m) None)
  | None => mret tt
  end;;
  onList peerListDelete.

Definition peerListManagementActivateTimer (p : ptr) (timerCode timerTimeStamp : Z) : M PLM () :=
  onList (peerListActivateTimer p timerCode timerTimeStamp).
Definition peerListManagementDeactivateTimer (p : ptr) : M PLM () := onList (peerListDeactivateTimer p).
Definition peerListManagementVerify : M PLM () := onList peerListVerify.
Definition peerListManagementGetPeers : M PLM Z := onList peerListGetPeerListNodes.
Definition peerListManagementGetFirstPeerListNodeFromIndexStorage : M PLM (option ptr) :=
  onList peerListGetFirstPeerListNodeFromIndexStorage.
Definition peerListManagementGetLastPeerListNodeFromIndexStorage : M PLM (option ptr) :=
  onList peerListGetLastPeerListNodeFromIndexStorage.
Definition peerListManagementGetNextPeerListNodeFromIndexStorage (p : ptr) : M PLM (option ptr) :=
  onList (peerListGetNextPeerListNodeFromIndexStorage p).
Definition peerListManagementGetPrevPeerListNodeFromIndexStorage (p : ptr) : M PLM (option ptr) :=
  onList (peerListGetPrevPeerListNodeFromIndexStorage p).
Definition peerListManagementGetFirstPeerListNodeFromTimerStorage : M PLM (option ptr) :=
  onList peerListGetFirstPeerListNodeFromTimerStorage.
Definition peerListManagementGetLastPeerListNodeFromTimerStorage : M PLM (option ptr) :=
  onList peerListGetLastPeerListNodeFromTimerStorage.
Definition peerListManagementGetNextPeerListNodeFromTimerStorage (p : ptr) : M PLM (option ptr) :=
  onList (peerListGetNextPeerListNodeFromTimerStorage p).
Definition peerListManagementGetPrevPeerListNodeFromTimerStorage (p : ptr) : M PLM (option ptr) :=
  onList (peerListGetPrevPeerListNodeFromTimerStorage p).

Definition peerListManagementFindNearestPrevPeerListNode (registrarIdentifier : Z)
    (transportAddressBlock : option TransportAddressBlock) : M PLM (option ptr) :=
  onList (peerListFindNearestPrevPeerListNode registrarIdentifier transportAddressBlock).
Definition peerListManagementFindNearestNextPeerListNode (registrarIdentifier : Z)
    (transportAddressBlock : option TransportAddressBlock) : M PLM (option ptr) :=
  onList (peerListFindNearestNextPeerListNode registrarIdentifier transportAddressBlock).
Definition peerListManagementGetRandomPeerListNode (random64 : Z) : M PLM (option ptr) :=
  onList (peerListGetRandomPeerListNode random64).

(** [~0], as an [int], is -1; the return type makes it 2^64 - 1. *)
Definition peerListManagementGetNextTimerTimeStamp : M PLM Z :=
  nextTimer ← peerListManagementGetFirstPeerListNodeFromTimerStorage;
  match nextTimer with
  | Some p => n ← onList (peer_get p); mret (pln_TimerTimeStamp n)
  | None => mret (u64 (-1))
  end.

Definition peerListManagementFindPeerListNode (registrarIdentifier : Z)
    (transportAddressBlock : option TransportAddressBlock) : M PLM (option ptr) :=
  onList (peerListFindPeerListNode registrarIdentifier transportAddressBlock).

(** [poolHandlespaceNodeComputeOwnershipChecksum] of the handlespace the
    peer list belongs to, if any. *)
Definition refreshOwnershipChecksum (handlespace : option (Handlespace ST)) (p : ptr) : M PL () :=
  match handlespace with
  | None => mret tt
  | Some hs =>
      n ← peer_get p;
      c ← deref (λ _, fst <$> poolHandlespaceNodeComputeOwnershipChecksum (pln_Identifier n) hs);
      peer_update p (pln_set_OwnershipChecksum c)
  end.

Definition peerListManagementDeregisterPeerListNodeByPtr (p : ptr) : M PL Z :=
  linked ← peerRead PeerTimer (λ s, STN_IsLinked s p);
  (if linked : bool then peerListDeactivateTimer p else mret tt);;
  n ← peer_get p;
  if negb (flag_test (pln_Flags n) PLNF_DYNAMIC) && negb (pln_Identifier n =? UNDEFINED_REGISTRAR_IDENTIFIER) then
    peerListRemovePeerListNode p;;
    peerListNodeDelete p;;
    n ← peer_get p;
    modify (peer_store p (pln_set_UserData (pln_UserData n) (peerListNodeNew 0 (pln_Flags n) (pln_AddressBlock n))));;
    r ← peerListAddPeerListNode p;
    CHECK (r.2 =? RSPERR_OKAY);;
    mret RSPERR_OKAY
  else
    peerListRemovePeerListNode p;;
    peerListNodeDelete p;;
    peerListManagementPeerListNodeDisposer p;;
    mret RSPERR_OKAY.

(** The static entry that a dynamic registration updates. *)
Definition findStaticEntry (registrarIdentifier : Z) (transportAddressBlock : option TransportAddressBlock) :
    M PLM (option ptr) :=
  byID ← peerListManagementFindPeerListNode registrarIdentifier None;
  found ← match byID with
          | Some p => mret (Some p)
          | None => peerListManagementFindPeerListNode UNDEFINED_REGISTRAR_IDENTIFIER transportAddressBlock
          end;
  match found with
  | Some p =>
      n ← onList (peer_get p);
      mret (if flag_test (pln_Flags n) PLNF_DYNAMIC then None else Some p)
  | None => mret None
  end.

Definition updateStaticEntry (handlespace : option (Handlespace ST)) (registrarIdentifier : Z) (p : ptr) : M PL Z :=
  n ← peer_get p;
  let newPeer := pln_Identifier n =? UNDEFINED_REGISTRAR_IDENTIFIER in
  errorCode ← peerListUpdatePeerListNode p
    (peerListNodeNew registrarIdentifier (pln_Flags n) (pln_AddressBlock n));
  (if newPeer then peer_update p (λ n, pln_set_Flags (flag_set (pln_Flags n) PLNF_NEW) n) else mret tt);;
  refreshOwnershipChecksum handlespace p;;
  mret errorCode.

(** The entry gets its time stamp, its own copy of the address block and its
    checksum. *)
Definition finishEntry (duplicated : bool) (handlespace : option (Handlespace ST))
    (transportAddressBlock : option TransportAddressBlock) (currentTimeStamp : Z) (q : ptr) : M PLM (option ptr * Z) :=
  onList (peer_update q (pln_set_LastUpdateTimeStamp currentTimeStamp));;
  match transportAddressBlockDuplicate duplicated transportAddressBlock with
  | Some userTransport =>
      onList (peer_update q (pln_set_AddressBlock (Some userTransport)));;
      onList (refreshOwnershipChecksum handlespace q);;
      mret (Some q, RSPERR_OKAY)
  | None =>
      _ ← onList (peerListManagementDeregisterPeerListNodeByPtr q);
      mret (None, RSPERR_OUT_OF_MEMORY)
  end.

(** [peerNode] and [duplicated] are the results of the two allocations. *)
Definition createOrUpdateEntry (peerNode : option ptr) (duplicated : bool) (handlespace : option (Handlespace ST))
    (registrarIdentifier flags : Z) (transportAddressBlock : option TransportAddressBlock) (currentTimeStamp : Z) :
    M PLM (option ptr * Z) :=
  m ← get;
  let new := match plm_NewPeerListNode m with Some p => Some p | None => peerNode end in
  match new with
  | None => mret (None, RSPERR_OUT_OF_MEMORY)
  | Some p =>
      put (MkPeerListManagement
        (peer_store p (peerListNodeNew registrarIdentifier flags transportAddressBlock) (plm_List m)) (Some p));;
      r ← onList (peerListAddOrUpdatePeerListNode p);
      let '(q, errorCode, used) := r in
      (if used : bool then modify (λ m, MkPeerListManagement (plm_List m) None) else mret tt);;
      if errorCode =? RSPERR_OKAY then
        q ← deref (λ _, q);
        finishEntry duplicated handlespace transportAddressBlock currentTimeStamp q
      else mret (q, errorCode)
  end.

Definition peerListManagementRegisterPeerListNode (peerNode : option ptr) (duplicated : bool)
    (handlespace : option (Handlespace ST)) (registrarIdentifier flags : Z)
    (transportAddressBlock : option TransportAddressBlock) (currentTimeStamp : Z) : M PLM (option ptr * Z) :=
  if flag_test flags PLNF_DYNAMIC then
    if registrarIdentifier =? UNDEFINED_REGISTRAR_IDENTIFIER then mret (None, RSPERR_INVALID_ID)
    else
      static ← findStaticEntry registrarIdentifier transportAddressBlock;
      match static with
      | Some p =>
          errorCode ← onList (updateStaticEntry handlespace registrarIdentifier p);
          mret (Some p, errorCode)
      | None => createOrUpdateEntry peerNode duplicated handlespace registrarIdentifier flags transportAddressBlock currentTimeStamp
      end
  else if negb (registrarIdentifier =? UNDEFINED_REGISTRAR_IDENTIFIER) then mret (None, RSPERR_INVALID_ID)
  else createOrUpdateEntry peerNode duplicated handlespace registrarIdentifier flags transportAddressBlock currentTimeStamp.

Definition peerListManagementDeregisterPeerListNode (registrarIdentifier : Z)
    (transportAddressBlock : option TransportAddressBlock) : M PLM Z :=
  found ← onList (peerListFindPeerListNode registrarIdentifier transportAddressBlock);
  match found with
  | Some p => onList (peerListManagementDeregisterPeerListNodeByPtr p)
  | None => mret RSPERR_NOT_FOUND
  end.

Definition peerListManagementRestartPeerListNodeExpiryTimer (p : ptr) (expiryTimeout : Z) : M PLM () :=
  onList (
    peerListDeactivateTimer p;;
    n ← peer_get p;
    peerListActivateTimer p PLNT_MAX_TIME_NO_RESPONSE (u64 (pln_LastUpdateTimeStamp n + expiryTimeout))).

Fixpoint purgeExpiredPeers (fuel : nat) (currentTimeStamp : Z) (peerListNode : option ptr) (purged : Z) : M PL Z :=
  match peerListNode with
  | None => mret purged
  | Some p =>
      match fuel with
      | O => abort
      | S fuel' =>
          next ← peerListGetNextPeerListNodeFromTimerStorage p;
          n ← peer_get p;
          CHECK (pln_TimerCode n =? PLNT_MAX_TIME_NO_RESPONSE);;
          linked ← peerRead PeerTimer (λ s, STN_IsLinked s p);
          CHECK linked;;
          if pln_TimerTimeStamp n <=? currentTimeStamp then
            _ ← peerListManagementDeregisterPeerListNodeByPtr p;
            purgeExpiredPeers fuel' currentTimeStamp next (purged + 1)
          else mret purged
      end
  end.

Definition peerListManagementPurgeExpiredPeerListNodes (currentTimeStamp : Z) : M PLM Z :=
  onList (
    fuel ← peerRead PeerTimer (λ s, length (st_list s));
    first ← peerListGetFirstPeerListNodeFromTimerStorage;
    purgeExpiredPeers fuel currentTimeStamp first 0).

(** Adds to or subtracts from the cached ownership checksum of a peer. *)
Definition adjustOwnershipChecksum (f : Z → Z) (registrarIdentifier : Z) : M PL () :=
  found ← peerListFindPeerListNode registrarIdentifier None;
  match found with
  | Some p => peer_update p (λ n, pln_set_OwnershipChecksum (f (pln_OwnershipChecksum n)) n)
  | None => mret tt
  end.

(** The callback on a change of the handlespace. *)
Definition peerListManagementPoolNodeUpdateNotification (nf : Notification) : M PL () :=
  match nf_Action nf with
  | PNUA_Create =>
      adjustOwnershipChecksum (λ c, handlespaceChecksumAdd c (nf_Checksum nf)) (nf_HomeRegistrar nf)
  | PNUA_Delete =>
      adjustOwnershipChecksum (λ c, handlespaceChecksumSub c (nf_Checksum nf)) (nf_HomeRegistrar nf)
  | PNUA_Update =>
      adjustOwnershipChecksum (λ c, handlespaceChecksumSub c (nf_PreUpdateChecksum nf)) (nf_PreUpdateHomeRegistrar nf);;
      adjustOwnershipChecksum (λ c, handlespaceChecksumAdd c (nf_Checksum nf)) (nf_HomeRegistrar nf)
  end.

Definition peerListManagementVerifyChecksumsInHandlespace (handlespace : Handlespace ST) : M PL () :=
  fuel ← peerFuel;
  first ← peerListGetFirstPeerListNodeFromIndexStorage;
  walk fuel peerListGetNextPeerListNodeFromIndexStorage (λ _ p,
    n ← peer_get p;
    if negb (pln_Identifier n =? UNDEFINED_REGISTRAR_IDENTIFIER) then
      c ← deref (λ _, fst <$> poolHandlespaceNodeComputeOwnershipChecksum (pln_Identifier n) handlespace);
      CHECK (pln_OwnershipChecksum n =? c)
    else mret tt) first tt.

(** The peer whose identifier, by XOR with the element's, is largest. *)
Definition peerListManagementGetUsefulPeerForPE (peIdentifier : Z) : M PL (option ptr) :=
  own ← gets pl_OwnIdentifier;
  fuel ← peerFuel;
  first ← peerListGetFirstPeerListNodeFromIndexStorage;
  best ← walk fuel peerListGetNextPeerListNodeFromIndexStorage (λ acc p,
    n ← peer_get p;
    let metric := Z.lxor (pln_Identifier n) peIdentifier in
    mret (if negb (pln_Identifier n =? UNDEFINED_REGISTRAR_IDENTIFIER) && (acc.2 <? metric)
          then (Some p, metric) else acc)) first (None, Z.lxor own peIdentifier);
  mret best.1.
End peerlist.
