(* ===== verification/PeerListInv.v ===== *)
(** * The invariant of the peer list

    [pl_inv X pl]: index and timer storage are sorted by the keys their
    comparison functions compare, their nodes are in memory, and the memory
    has no node that is neither linked nor in [X].  The lemmas show what the
    operations on the list do to it. *)

From S2P Require Import Prelude Checksum Addresses PoolBasics Storage PoolElement PoolPolicy HandlespaceState PoolNode PoolEffects PoolSelection HandlespaceNode HandlespaceWalks HandlespaceMgt PeerList.
From stdpp Require Import base list gmap numbers option sorting sets.
#[local] Open Scope Z_scope.

(** ** The keys of address blocks *)

Definition addrKey (a : sockaddr_union) : list Z := default [] (addressKey false a).

Definition blockKey (t : option TransportAddressBlock) : list Z :=
  match t with
  | None => []
  | Some t => [tab_Port t; tab_Flags t; tab_Addresses t] ++ mjoin (addrKey <$> tab_AddressArray t)
  end.

Definition block_ok (t : option TransportAddressBlock) : Prop :=
  match t with None => True | Some t => Forall address_wf (tab_AddressArray t) end.

#[export] Instance block_ok_dec t : Decision (block_ok t).
Proof. destruct t; apply _. Defined.

Lemma addrKey_cmp a1 a2 : address_wf a1 → address_wf a2 →
  addresscmp a1 a2 false = Some (lexcmp (addrKey a1) (addrKey a2)).
Proof.
  intros H1 H2. destruct (addresscmp_key a1 a2 false H1 H2) as (k1 & k2 & Hk1 & Hk2 & ->).
  unfold addrKey. by rewrite Hk1, Hk2.
Qed.

Lemma addrKey_length a : address_wf a → length (addrKey a) = 17%nat.
Proof.
  intros Ha. pose proof (mappedBytes_length _ Ha) as Hl. unfold addrKey, addressKey.
  destruct (getScope a) as [s|] eqn:Hs; [|by destruct a]. destruct (getPort a) as [p|] eqn:Hp; [|by destruct a].
  simpl. by rewrite app_nil_r, Hl.
Qed.

Lemma addressArray_key l1 l2 : Forall address_wf l1 → Forall address_wf l2 → length l1 = length l2 →
  addressArrayComparison l1 l2 = Some (lexcmp (mjoin (addrKey <$> l1)) (mjoin (addrKey <$> l2))).
Proof.
  intros H1. revert l2. induction H1 as [|a l1 Ha H1 IH]; intros [|b l2] H2 Hl; try done.
  apply Forall_cons in H2 as [Hb H2]. simpl. rewrite addrKey_cmp by done. simpl. simplify_eq/=.
  rewrite lexcmp_app by (by rewrite !addrKey_length).
  destruct (Z.eqb_spec (lexcmp (addrKey a) (addrKey b)) 0); simpl; [|done]. by apply IH.
Qed.

Lemma blockComparison_key t1 t2 : block_ok t1 → block_ok t2 →
  transportAddressBlockComparison t1 t2 = Some (lexcmp (blockKey t1) (blockKey t2)).
Proof.
  destruct t1 as [t1|], t2 as [t2|]; simpl; try done. intros H1 H2.
  destruct (tab_Port t1 <? tab_Port t2); [done|]. destruct (tab_Port t2 <? tab_Port t1); [done|].
  destruct (tab_Flags t1 <? tab_Flags t2); [done|]. destruct (tab_Flags t2 <? tab_Flags t1); [done|].
  destruct (Z.ltb_spec (tab_Addresses t1) (tab_Addresses t2)); [done|].
  destruct (Z.ltb_spec (tab_Addresses t2) (tab_Addresses t1)); [done|].
  apply addressArray_key; [done..|]. unfold tab_Addresses in *. lia.
Qed.

Lemma overlap_defined t1 t2 : block_ok t1 → block_ok t2 → is_Some (transportAddressBlockOverlapComparison t1 t2).
Proof.
  intros H1 H2. assert (∀ l a, address_wf a → Forall address_wf l → is_Some (overlapInner a l)) as Hin.
  { intros l a Ha. induction 1 as [|b l Hb _ IH]; simpl; [eauto|]. rewrite addrKey_cmp by done. simpl.
    destruct (_ =? 0); eauto. }
  assert (∀ l1 l2, Forall address_wf l1 → Forall address_wf l2 → is_Some (overlapOuter l1 l2)) as Hout.
  { intros l1 l2 Hl1 Hl2. induction Hl1 as [|a l1 Ha _ IH]; simpl; [eauto|].
    destruct (Hin l2 a Ha Hl2) as [[] ->]; simpl; eauto. }
  destruct t1 as [t1|], t2 as [t2|]; simpl in *; eauto.
  destruct (tab_Port t1 <? tab_Port t2), (tab_Port t2 <? tab_Port t1), (tab_Flags t1 <? tab_Flags t2),
    (tab_Flags t2 <? tab_Flags t1); eauto. destruct (Hout _ _ H1 H2) as [[] ->]; simpl; eauto.
  destruct (Z.ltb_spec (tab_Addresses t1) (tab_Addresses t2)); [eauto|].
  destruct (Z.ltb_spec (tab_Addresses t2) (tab_Addresses t1)); [eauto|].
  rewrite addressArray_key by (unfold tab_Addresses in *; done || lia). eauto.
Qed.

(** ** Nodes *)

Definition peerKey (n : PeerListNode) : list Z :=
  pln_Identifier n :: if pln_Identifier n =? UNDEFINED_REGISTRAR_IDENTIFIER then blockKey (pln_AddressBlock n) else [].

Definition nodeKey (k : peerSlot) (n : PeerListNode) : list Z :=
  match k with PeerIndex => peerKey n | PeerTimer => pln_TimerTimeStamp n :: peerKey n end.

Lemma index_cmp n1 n2 : block_ok (pln_AddressBlock n1) → block_ok (pln_AddressBlock n2) →
  peerListIndexStorageNodeComparison n1 n2 = Some (lexcmp (peerKey n1) (peerKey n2)).
Proof.
  intros H1 H2. unfold peerListIndexStorageNodeComparison, peerKey. cbn [lexcmp].
  destruct (Z.ltb_spec (pln_Identifier n1) (pln_Identifier n2)); [done|].
  destruct (Z.ltb_spec (pln_Identifier n2) (pln_Identifier n1)); [done|].
  assert (pln_Identifier n1 = pln_Identifier n2) as -> by lia.
  destruct (pln_Identifier n2 =? UNDEFINED_REGISTRAR_IDENTIFIER); simpl; [by apply blockComparison_key|done].
Qed.

Lemma timer_cmp n1 n2 : block_ok (pln_AddressBlock n1) → block_ok (pln_AddressBlock n2) →
  peerListTimerStorageNodeComparison n1 n2 = Some (lexcmp (nodeKey PeerTimer n1) (nodeKey PeerTimer n2)).
Proof.
  intros H1 H2. pose proof (index_cmp n1 n2 H1 H2) as Hi. unfold peerListTimerStorageNodeComparison, nodeKey.
  cbn [lexcmp].
  destruct (pln_TimerTimeStamp n1 <? pln_TimerTimeStamp n2); [done|].
  destruct (pln_TimerTimeStamp n2 <? pln_TimerTimeStamp n1); [done|]. exact Hi.
Qed.

Section peers.
Context {ST : Type} `{SL : StorageLaws ST} `{En : Endian}.
Abbreviation PL := (PeerList ST).
Implicit Types (pl : PL) (p q : ptr) (n : PeerListNode) (k : peerSlot) (s : ST) (X : list ptr).

(** ** Storages *)

Definition peerSlot_key k pl p : list Z := default [] (nodeKey k <$> pl_PeerListNodes pl !! p).

Record peer_slot k pl s : Prop := {
  ps_ok : st_ok (peerSlot_value k pl) s;
  ps_sorted : key_sorted (peerSlot_key k pl) (st_list s);
  ps_node p : p ∈ st_list s → ∃ n, pl_PeerListNodes pl !! p = Some n ∧ block_ok (pln_AddressBlock n)
}.

Lemma peerSlot_key_lookup k pl p n : pl_PeerListNodes pl !! p = Some n → peerSlot_key k pl p = nodeKey k n.
Proof. unfold peerSlot_key. by intros ->. Qed.

Lemma peerSlot_cmp_key k pl n q m : pl_PeerListNodes pl !! q = Some m → block_ok (pln_AddressBlock n) →
  block_ok (pln_AddressBlock m) → peerSlot_cmp k pl n q = Some (lexcmp (nodeKey k n) (peerSlot_key k pl q)).
Proof.
  intros Hq Hn Hm. rewrite (peerSlot_key_lookup _ _ _ _ Hq). unfold peerSlot_cmp. rewrite Hq. simpl.
  destruct k; [by apply index_cmp|by apply timer_cmp].
Qed.

Lemma peer_slot_nodup k pl s : peer_slot k pl s → NoDup (st_list s).
Proof. intros [_ Hs _]. by eapply key_sorted_nodup. Qed.

Lemma peer_slot_new k pl : peer_slot k pl ST_New.
Proof.
  destruct (st_new_ok (peerSlot_value k pl)) as [Hok Hl]. split; [done|rewrite Hl; constructor|].
  intros p. rewrite Hl. by intros ?%not_elem_of_nil.
Qed.

Lemma peerCompare_valid k pl s n : peer_slot k pl s → block_ok (pln_AddressBlock n) →
  (∀ q, q ∈ st_list s → default 0 (peerSlot_cmp k pl n q) = lexcmp (nodeKey k n) (peerSlot_key k pl q)) ∧
  all_valid (peerSlot_cmp k pl n) (st_list s) = true.
Proof.
  intros [_ _ Hv] Hn. split; [|apply all_valid_iff]; intros q Hq; destruct (Hv q Hq) as (m & Hm & Hb);
    rewrite (peerSlot_cmp_key _ _ _ _ _ Hm) by done; [done|eauto].
Qed.

(** Nodes that look the same. *)
Lemma peer_slot_ext k pl pl' s : peer_slot k pl s →
  (∀ p n, p ∈ st_list s → pl_PeerListNodes pl !! p = Some n →
     ∃ n', pl_PeerListNodes pl' !! p = Some n' ∧ nodeKey k n' = nodeKey k n ∧ pln_Value n' = pln_Value n ∧
       (block_ok (pln_AddressBlock n) → block_ok (pln_AddressBlock n'))) →
  peer_slot k pl' s.
Proof.
  intros [Hok Hs Hv] Hext. split.
  - apply (st_ok_value (peerSlot_value k pl)); [done|]. intros p Hp. destruct (Hv p Hp) as (n & Hn & Hb).
    destruct (Hext p n Hp Hn) as (n' & Hn' & _ & Hval & _). unfold peerSlot_value. rewrite Hn, Hn'. simpl. by rewrite Hval.
  - eapply key_sorted_ext; [|done]. intros p Hp. destruct (Hv p Hp) as (n & Hn & Hb).
    destruct (Hext p n Hp Hn) as (n' & Hn' & Hk & _). by rewrite !(peerSlot_key_lookup _ _ _ _ Hn), !(peerSlot_key_lookup _ _ _ _ Hn').
  - intros p Hp. destruct (Hv p Hp) as (n & Hn & Hb). destruct (Hext p n Hp Hn) as (n' & ? & _ & _ & ?). eauto.
Qed.

Lemma peerInsert_new k pl p n : peer_slot k pl (peerSlot_get k pl) → pl_PeerListNodes pl !! p = Some n →
  block_ok (pln_AddressBlock n) → p ∉ st_list (peerSlot_get k pl) →
  (∀ q, q ∈ st_list (peerSlot_get k pl) → peerSlot_key k pl q ≠ nodeKey k n) →
  ∃ s', peerInsert k p pl = Some (p, peerSlot_set k s' pl) ∧ peer_slot k pl s' ∧
    st_list s' = l_insert (λ q, lexcmp (nodeKey k n) (peerSlot_key k pl q)) p (st_list (peerSlot_get k pl)).
Proof.
  intros Hs Hp Hb Hn Hnew. destruct (peerCompare_valid k pl _ n Hs Hb) as [Hcmp Hval].
  pose proof (peerSlot_key_lookup k _ _ _ Hp) as Hk. unfold peerInsert. rewrite Hp, Hval.
  rewrite <- Hk in Hcmp, Hnew |- *.
  destruct (keyed_insert_new (peerSlot_key k pl) _ (λ q, default 0 (peerSlot_cmp k pl n q)) _ (ps_ok _ _ _ Hs)
    (ps_sorted _ _ _ Hs) p) as (s' & -> & Hok & Hsort & Hl); [done..|].
  exists s'. split; [done|]. split; [|done]. split; [done..|].
  intros q. rewrite Hl, l_insert_elem. intros [->|Hq]; [eauto|by apply Hs].
Qed.

Lemma peerSlot_set_same k pl : peerSlot_set k (peerSlot_get k pl) pl = pl.
Proof. by destruct k, pl. Qed.

Lemma peerInsert_dup k pl p n q : peer_slot k pl (peerSlot_get k pl) → pl_PeerListNodes pl !! p = Some n →
  block_ok (pln_AddressBlock n) → p ∉ st_list (peerSlot_get k pl) → q ∈ st_list (peerSlot_get k pl) →
  peerSlot_key k pl q = nodeKey k n → peerInsert k p pl = Some (q, pl).
Proof.
  intros Hs Hp Hb Hn Hq Hkey. destruct (peerCompare_valid k pl _ n Hs Hb) as [Hcmp Hval].
  pose proof (peerSlot_key_lookup k _ _ _ Hp) as Hk. unfold peerInsert. rewrite Hp, Hval. rewrite <- Hk in Hcmp, Hkey.
  rewrite (keyed_insert_dup (peerSlot_key k pl) _ _ _ (ps_ok _ _ _ Hs) (ps_sorted _ _ _ Hs) p q) by done.
  by rewrite peerSlot_set_same.
Qed.

Lemma peerRemove_run k pl p : peer_slot k pl (peerSlot_get k pl) → p ∈ st_list (peerSlot_get k pl) →
  ∃ s', peerRemove k p pl = Some (p, peerSlot_set k s' pl) ∧ peer_slot k pl s' ∧
    st_list s' = l_remove p (st_list (peerSlot_get k pl)).
Proof.
  intros [Hok Hs Hv] Hp. unfold peerRemove.
  destruct (keyed_remove (peerSlot_key k pl) (peerSlot_key k pl) _ (peerSlot_value k pl) _ p Hok Hs Hp)
    as (s' & -> & Hok' & Hs' & Hl); [done|].
  exists s'. split; [done|]. split; [|done]. split; [done..|]. intros q. rewrite Hl, l_remove_elem. intros [_ Hq]. by apply Hv.
Qed.

Lemma peerSearch_find pl n r : peer_slot PeerIndex pl (pl_PeerListIndexStorage pl) → block_ok (pln_AddressBlock n) →
  peerSearch ST_Find n pl = Some (r, pl) ↔
  match r with
  | Some q => q ∈ st_list (pl_PeerListIndexStorage pl) ∧ peerSlot_key PeerIndex pl q = peerKey n
  | None => ∀ q, q ∈ st_list (pl_PeerListIndexStorage pl) → peerSlot_key PeerIndex pl q ≠ peerKey n
  end.
Proof.
  intros Hs Hb. change (pl_PeerListIndexStorage pl) with (peerSlot_get PeerIndex pl) in *.
  destruct (peerCompare_valid PeerIndex pl _ n Hs Hb) as [Hcmp Hval]. unfold peerSearch. rewrite Hval.
  rewrite <- (keyed_find (peerSlot_key PeerIndex pl) _ _ _ (ps_ok _ _ _ Hs) (ps_sorted _ _ _ Hs) (peerKey n) r Hcmp).
  naive_solver.
Qed.

Lemma peerVerify_run k pl : peer_slot k pl (peerSlot_get k pl) → peerVerify k pl = Some (tt, pl).
Proof.
  intros Hs. unfold peerVerify.
  rewrite (keyed_verify (peerSlot_key k pl) _ _ (ps_ok _ _ _ Hs) (ps_sorted _ _ _ Hs)); [done|].
  intros p q Hp Hq. destruct (ps_node _ _ _ Hs p Hp) as (n & Hn & Hbn), (ps_node _ _ _ Hs q Hq) as (m & Hm & Hbm).
  rewrite Hn. simpl. rewrite (peerSlot_cmp_key _ _ _ _ _ Hm) by done. by rewrite (peerSlot_key_lookup _ _ _ _ Hn).
Qed.

(** ** The list *)

Abbreviation index pl := (st_list (pl_PeerListIndexStorage pl)).
Abbreviation timers pl := (st_list (pl_PeerListTimerStorage pl)).

Record pl_inv X pl : Prop := {
  pv_index : peer_slot PeerIndex pl (pl_PeerListIndexStorage pl);
  pv_timer : peer_slot PeerTimer pl (pl_PeerListTimerStorage pl);
  pv_timed p : p ∈ timers pl → p ∈ index pl;
  pv_timed_node p n : p ∈ timers pl → pl_PeerListNodes pl !! p = Some n →
    pln_Identifier n ≠ UNDEFINED_REGISTRAR_IDENTIFIER;
  pv_node p n : p ∈ index pl → pl_PeerListNodes pl !! p = Some n →
    pln_Value n = 1 ∧ pln_OwnerPeerList n = true ∧
    (pl_OwnIdentifier pl ≠ UNDEFINED_REGISTRAR_IDENTIFIER → pln_Identifier n ≠ pl_OwnIdentifier pl);
  pv_heap p : is_Some (pl_PeerListNodes pl !! p) ↔ p ∈ index pl ∨ p ∈ X;
  pv_free p : p ∈ X → p ∉ index pl
}.

Lemma pv_lookup X pl p : pl_inv X pl → p ∈ index pl →
  ∃ n, pl_PeerListNodes pl !! p = Some n ∧ block_ok (pln_AddressBlock n).
Proof. intros Hi Hp. by apply (ps_node _ _ _ (pv_index _ _ Hi)). Qed.

Lemma pl_inv_new own : pl_inv [] (peerListNew own).
Proof.
  pose proof (proj2 (st_new_ok (S := ST) (λ _, 0))) as Hl. split; simpl; rewrite ?Hl; try (intros; set_solver).
  - apply (peer_slot_new PeerIndex).
  - apply (peer_slot_new PeerTimer).
  - intros p. rewrite lookup_empty. split; [by intros [? ?]|]. intros [?|?]; set_solver.
Qed.

(** Nodes with the same keys, flags and the like apart. *)
Definition same_role n n' : Prop :=
  pln_Identifier n' = pln_Identifier n ∧
  (pln_Identifier n = UNDEFINED_REGISTRAR_IDENTIFIER → blockKey (pln_AddressBlock n') = blockKey (pln_AddressBlock n)) ∧
  block_ok (pln_AddressBlock n') ∧ pln_TimerTimeStamp n' = pln_TimerTimeStamp n ∧
  pln_Value n' = pln_Value n ∧ pln_OwnerPeerList n' = pln_OwnerPeerList n.

Lemma same_role_key k n n' : same_role n n' → nodeKey k n' = nodeKey k n.
Proof.
  intros (Hid & Hb & _ & Ht & _). unfold nodeKey, peerKey. rewrite Hid, Ht.
  destruct (Z.eqb_spec (pln_Identifier n) UNDEFINED_REGISTRAR_IDENTIFIER); [by rewrite Hb|done].
Qed.

Lemma peer_slot_store k pl p n n' s : peer_slot k pl s → pl_PeerListNodes pl !! p = Some n →
  (p ∈ st_list s → nodeKey k n' = nodeKey k n ∧ pln_Value n' = pln_Value n ∧ block_ok (pln_AddressBlock n')) →
  peer_slot k (peer_store p n' pl) s.
Proof.
  intros Hs Hp Hn'. eapply peer_slot_ext; [done|]. intros q m Hq Hm. simpl. destruct (decide (q = p)) as [->|Hne].
  - rewrite lookup_insert_eq. simplify_eq. exists n'. split; [done|]. destruct (Hn' Hq) as (? & ? & ?). auto.
  - rewrite lookup_insert_ne by done. eauto.
Qed.

Lemma pl_inv_store X pl p n n' : pl_inv X pl → pl_PeerListNodes pl !! p = Some n →
  (p ∈ index pl → same_role n n') → pl_inv X (peer_store p n' pl).
Proof.
  intros Hi Hp Hr. pose proof (ps_node _ _ _ (pv_index _ _ Hi)) as Hnode. split; simpl.
  - eapply peer_slot_store; [apply Hi|done|]. intros Hin. pose proof (Hr Hin) as Hrole.
    split; [by apply same_role_key|]. split; apply Hrole.
  - eapply peer_slot_store; [apply Hi|done|]. intros Hin. pose proof (Hr (pv_timed _ _ Hi _ Hin)) as Hrole.
    split; [by apply same_role_key|]. split; apply Hrole.
  - apply Hi.
  - intros q m Hq. destruct (decide (q = p)) as [->|Hne].
    + rewrite lookup_insert_eq. intros [= <-]. destruct (Hr (pv_timed _ _ Hi _ Hq)) as (-> & _).
      by apply (pv_timed_node _ _ Hi p).
    + rewrite lookup_insert_ne by done. by apply Hi.
  - intros q m Hq. destruct (decide (q = p)) as [->|Hne].
    + rewrite lookup_insert_eq. intros [= <-]. destruct (Hr Hq) as (-> & _ & _ & _ & -> & ->).
      by apply (pv_node _ _ Hi p).
    + rewrite lookup_insert_ne by done. by apply Hi.
  - intros q. rewrite <- (pv_heap _ _ Hi q). destruct (decide (q = p)) as [->|Hne].
    + rewrite lookup_insert_eq, Hp. by split.
    + by rewrite lookup_insert_ne.
  - apply Hi.
Qed.

(** A storage only depends on the nodes. *)
Lemma peer_slot_changed k pl pl' p n n' s : peer_slot k pl s → pl_PeerListNodes pl !! p = Some n →
  pl_PeerListNodes pl' = <[p := n']> (pl_PeerListNodes pl) →
  (p ∈ st_list s → nodeKey k n' = nodeKey k n ∧ pln_Value n' = pln_Value n ∧ block_ok (pln_AddressBlock n')) →
  peer_slot k pl' s.
Proof.
  intros Hs Hp Hn Hn'. eapply peer_slot_ext; [by eapply (peer_slot_store k pl p n n')|]. rewrite Hn. simpl. eauto 10.
Qed.

(** A node is linked in the index, or taken out of it; it has no timer. *)
Lemma pl_inv_relinked X X' pl pl' p n n' : pl_inv X pl → pl_PeerListNodes pl !! p = Some n →
  pl_PeerListNodes pl' = <[p := n']> (pl_PeerListNodes pl) → pl_OwnIdentifier pl' = pl_OwnIdentifier pl →
  peer_slot PeerIndex pl' (pl_PeerListIndexStorage pl') → peer_slot PeerTimer pl (pl_PeerListTimerStorage pl') →
  (∀ q, q ≠ p → (q ∈ index pl' ↔ q ∈ index pl) ∧ (q ∈ X' ↔ q ∈ X)) →
  (∀ q, q ∈ timers pl' → q ≠ p ∧ q ∈ timers pl) →
  (p ∈ index pl' → pln_Value n' = 1 ∧ pln_OwnerPeerList n' = true ∧
     (pl_OwnIdentifier pl ≠ UNDEFINED_REGISTRAR_IDENTIFIER → pln_Identifier n' ≠ pl_OwnIdentifier pl)) →
  (p ∈ X' ↔ p ∉ index pl') → pl_inv X' pl'.
Proof.
  intros [_ _ Hsub Hid Hnode Hh Hf] Hp Hnodes Hown HI HT Hsame Ht Hpn Hx.
  assert (∀ q, q ≠ p → pl_PeerListNodes pl' !! q = pl_PeerListNodes pl !! q) as Hne.
  { intros q Hq. rewrite Hnodes. by apply lookup_insert_ne. }
  assert (pl_PeerListNodes pl' !! p = Some n') as Heq by (rewrite Hnodes; apply lookup_insert_eq).
  split; [done|eapply (peer_slot_changed PeerTimer pl); [done..|]; by intros []%Ht|..].
  - intros q [Hq Hin]%Ht. by apply Hsame, Hsub.
  - intros q m [Hq Hin]%Ht. rewrite Hne by done. by apply Hid.
  - intros q m Hq. destruct (decide (q = p)) as [->|Hqp].
    + rewrite Heq, Hown. intros [= <-]. by apply Hpn.
    + rewrite Hne, Hown by done. apply Hnode. by apply Hsame.
  - intros q. destruct (decide (q = p)) as [->|Hqp]; [rewrite Heq; destruct (decide (p ∈ index pl')); naive_solver|].
    rewrite Hne, Hh by done. destruct (Hsame q Hqp) as [-> ->]. done.
  - intros q. destruct (decide (q = p)) as [->|Hqp]; [tauto|]. destruct (Hsame q Hqp) as [-> ->]. apply Hf.
Qed.

(** ** Reading and writing nodes *)

Lemma wp_peer_get pl p n (Q : PeerListNode → PL → Prop) : pl_PeerListNodes pl !! p = Some n → Q n pl → wp (peer_get p) Q pl.
Proof. intros Hp HQ. eapply wp_deref; [|done]. done. Qed.

Lemma wp_peer_update pl p n f (Q : unit → PL → Prop) : pl_PeerListNodes pl !! p = Some n →
  Q tt (peer_store p (f n) pl) → wp (peer_update p f) Q pl.
Proof. intros Hp HQ. apply wp_bind. eapply wp_peer_get; [done|]. by apply wp_modify. Qed.

Lemma wp_linked k pl p (Q : bool → PL → Prop) : peer_slot k pl (peerSlot_get k pl) →
  Q (bool_decide (p ∈ st_list (peerSlot_get k pl))) pl → wp (peerRead k (λ s, STN_IsLinked s p)) Q pl.
Proof. intros Hs HQ. apply wp_gets. by rewrite (st_linked_law _ _ _ (ps_ok _ _ _ Hs)). Qed.

(** ** The operations on the list *)

(** A state of the list, with its nodes and its lists; [mem] is the set of
    the nodes in the index. *)
Definition looks pl' (nodes : gmap ptr PeerListNode) (mem : ptr → Prop) (timer : list ptr) pl : Prop :=
  pl_PeerListNodes pl' = nodes ∧ (∀ q, q ∈ index pl' ↔ mem q) ∧ timers pl' = timer ∧
  pl_OwnIdentifier pl' = pl_OwnIdentifier pl.

Lemma wp_deactivateTimer X pl p : pl_inv X pl →
  wp (peerListDeactivateTimer p) (λ _ pl', pl_inv X pl' ∧ pl_PeerListIndexStorage pl' = pl_PeerListIndexStorage pl ∧
    pl_PeerListNodes pl' = pl_PeerListNodes pl ∧ timers pl' = l_remove p (timers pl) ∧
    pl_OwnIdentifier pl' = pl_OwnIdentifier pl) pl.
Proof.
  intros Hi. unfold peerListDeactivateTimer. apply wp_bind, (wp_linked PeerTimer); [apply Hi|]. simpl.
  case_bool_decide as Hp.
  - destruct (peerRemove_run PeerTimer pl p) as (s' & Hrun & Hs' & Hl); [apply Hi|done|].
    eapply wp_step; [done|]. apply wp_check; [by apply bool_decide_true|]. simpl in *. split_and!; try done.
    destruct Hi as [HI HT Hsub Hid Hn Hh Hf].
    assert (∀ q, q ∈ st_list s' → q ∈ timers pl) as Hmem by (intros q; rewrite Hl, l_remove_elem; tauto).
    split; simpl; try done; [|eapply (peer_slot_ext PeerTimer pl); [done|]|naive_solver..]; simpl; eauto 10.
    eapply (peer_slot_ext PeerIndex pl); [done|]. simpl. eauto 10.
  - apply wp_ret. split_and!; try done. by rewrite l_remove_not_elem.
Qed.

Lemma wp_removePeer X pl p n : pl_inv X pl → p ∈ index pl → pl_PeerListNodes pl !! p = Some n →
  wp (peerListRemovePeerListNode p) (λ _ pl', pl_inv (p :: X) pl' ∧
    looks pl' (<[p := pln_set_OwnerPeerList false n]> (pl_PeerListNodes pl)) (λ q, q ≠ p ∧ q ∈ index pl)
      (l_remove p (timers pl)) pl) pl.
Proof.
  intros Hi Hp Hn. unfold peerListRemovePeerListNode.
  destruct (peerRemove_run PeerIndex pl p (pv_index _ _ Hi) Hp) as (i' & Hrun & Hi' & Hl). simpl in Hl.
  eapply wp_step; [done|]. apply wp_bind, wp_check; [by apply bool_decide_true|].
  set (pl1 := peerSlot_set PeerIndex i' pl). pose proof (pv_timer _ _ Hi) as HT. unfold peerListDeactivateTimer.
  assert (∀ k s, peer_slot k pl s → peer_slot k pl1 s) as Hext.
  { intros k s Hs. eapply peer_slot_ext; [done|]. simpl. eauto 10. }
  assert (∃ t', (linked ← peerRead PeerTimer (λ s, STN_IsLinked s p);
      if linked : bool then result ← peerRemove PeerTimer p; CHECK (bool_decide (result = p)) else mret tt) pl1 =
      Some (tt, pl_set_PeerListTimerStorage t' pl1) ∧ peer_slot PeerTimer pl t' ∧ st_list t' = l_remove p (timers pl))
    as (t' & Hrun' & Ht' & Hlt).
  { unfold peerRead, gets, mbind, M_bind. simpl. rewrite (st_linked_law _ _ _ (ps_ok _ _ _ HT)).
    case_bool_decide as Hpt.
    - destruct (peerRemove_run PeerTimer pl1 p) as (t' & -> & Ht' & Hlt); [by apply Hext|done|].
      exists t'. unfold CHECK. rewrite bool_decide_true by done. split; [done|]. split; [|done].
      eapply peer_slot_ext; [done|]. simpl. eauto 10.
    - exists (pl_PeerListTimerStorage pl). split; [by destruct pl|]. by rewrite l_remove_not_elem. }
  eapply wp_step; [exact Hrun'|]. eapply wp_peer_update; [exact Hn|]. simpl.
  assert (∀ q, q ∈ st_list i' ↔ q ≠ p ∧ q ∈ index pl) as Hmem by (intros q; by rewrite Hl, l_remove_elem).
  assert (∀ q, q ∈ st_list t' ↔ q ≠ p ∧ q ∈ timers pl) as Hmemt by (intros q; by rewrite Hlt, l_remove_elem).
  split; [|by split_and!]. eapply (pl_inv_relinked X _ pl _ p n); try done; simpl.
  - eapply (peer_slot_changed PeerIndex pl); [done..|]. rewrite Hmem. naive_solver.
  - intros q Hq. rewrite Hmem, elem_of_cons. naive_solver.
  - intros q. rewrite Hmemt. done.
  - rewrite Hmem. naive_solver.
  - rewrite Hmem, elem_of_cons. naive_solver.
Qed.

(** Is this the identifier of the registrar itself? *)
Definition own_id pl (id : Z) : bool :=
  negb (pl_OwnIdentifier pl =? UNDEFINED_REGISTRAR_IDENTIFIER) && (id =? pl_OwnIdentifier pl).

Lemma own_id_false pl id : own_id pl id = false ↔ (pl_OwnIdentifier pl ≠ UNDEFINED_REGISTRAR_IDENTIFIER → id ≠ pl_OwnIdentifier pl).
Proof.
  unfold own_id. destruct (Z.eqb_spec (pl_OwnIdentifier pl) UNDEFINED_REGISTRAR_IDENTIFIER),
    (Z.eqb_spec id (pl_OwnIdentifier pl)); simpl; naive_solver.
Qed.

Lemma addPeer_own pl p n : pl_PeerListNodes pl !! p = Some n → own_id pl (pln_Identifier n) = true →
  peerListAddPeerListNode p pl = Some ((None, RSPERR_OWN_ID), pl).
Proof.
  intros Hn Ho. unfold peerListAddPeerListNode, peer_get, deref, mbind, M_bind. rewrite Hn. unfold peerListCheckPeerListNodeCompatibility, gets.
  fold (own_id pl (pln_Identifier n)). by rewrite Ho.
Qed.

Lemma addPeer_dup X pl p n q : pl_inv X pl → p ∈ X → pl_PeerListNodes pl !! p = Some n → block_ok (pln_AddressBlock n) →
  own_id pl (pln_Identifier n) = false → q ∈ index pl → peerSlot_key PeerIndex pl q = peerKey n →
  peerListAddPeerListNode p pl = Some ((Some q, RSPERR_DUPLICATE_ID), peer_store p (pln_set_Value 1 n) pl).
Proof.
  intros Hi Hp Hn Hb Ho Hq Hk. pose proof (pv_free _ _ Hi p Hp) as Hfree.
  assert (q ≠ p) as Hne by (by intros ->).
  assert (wp (peerListAddPeerListNode p) (λ r pl', r = (Some q, RSPERR_DUPLICATE_ID) ∧ pl' = peer_store p (pln_set_Value 1 n) pl) pl)
    as (r & pl' & Hrun & -> & ->); [|done].
  unfold peerListAddPeerListNode. apply wp_bind. eapply wp_peer_get; [done|]. apply wp_bind, wp_gets.
  fold (own_id pl (pln_Identifier n)). rewrite Ho. simpl. apply wp_bind. eapply wp_peer_update; [done|].
  eapply wp_step; [eapply (peerInsert_dup PeerIndex _ p (pln_set_Value 1 n) q)|].
  - by apply (peer_slot_store PeerIndex pl p n); [apply Hi|done|].
  - apply lookup_insert_eq.
  - done.
  - done.
  - done.
  - unfold peerSlot_key in *. simpl. rewrite lookup_insert_ne by done. exact Hk.
  - rewrite bool_decide_false by done. by apply wp_ret.
Qed.

Lemma wp_addPeer_new X pl p n : pl_inv (p :: X) pl → p ∉ X → pl_PeerListNodes pl !! p = Some n →
  block_ok (pln_AddressBlock n) → own_id pl (pln_Identifier n) = false →
  (∀ q, q ∈ index pl → peerSlot_key PeerIndex pl q ≠ peerKey n) →
  wp (peerListAddPeerListNode p) (λ r pl', r = (Some p, RSPERR_OKAY) ∧ pl_inv X pl' ∧
    looks pl' (<[p := pln_set_OwnerPeerList true (pln_set_Value 1 n)]> (pl_PeerListNodes pl)) (λ q, q = p ∨ q ∈ index pl)
      (timers pl) pl) pl.
Proof.
  intros Hi HpX Hn Hb Ho Hnew. pose proof (pv_free _ _ Hi p ltac:(left)) as Hfree.
  unfold peerListAddPeerListNode. apply wp_bind. eapply wp_peer_get; [done|]. apply wp_bind, wp_gets.
  fold (own_id pl (pln_Identifier n)). rewrite Ho. simpl. apply wp_bind. eapply wp_peer_update; [done|].
  set (pl1 := peer_store p (pln_set_Value 1 n) pl).
  assert (peer_slot PeerIndex pl1 (pl_PeerListIndexStorage pl)) as HI1 by (by apply (peer_slot_store PeerIndex pl p n); [apply Hi|done|]).
  destruct (peerInsert_new PeerIndex pl1 p (pln_set_Value 1 n)) as (i' & Hrun & Hi' & Hl); [done|by apply lookup_insert_eq|done|done| |].
  { intros q Hq. unfold peerSlot_key. simpl. rewrite lookup_insert_ne by (by intros ->). by apply Hnew. }
  eapply wp_step; [exact Hrun|]. rewrite bool_decide_true by done. apply wp_bind.
  eapply wp_peer_update; [by apply lookup_insert_eq|]. apply wp_ret. split; [done|].
  assert (∀ q, q ∈ st_list i' ↔ q = p ∨ q ∈ index pl) as Hmem by (intros q; by rewrite Hl, l_insert_elem).
  split; [|by split_and!; simpl; [rewrite insert_insert_eq|..]].
  assert (p ∉ timers pl) as Hpt by (intros Ht; by apply Hfree, (pv_timed _ _ Hi)).
  eapply (pl_inv_relinked (p :: X) X pl _ p n); try done; simpl.
  - by rewrite insert_insert_eq.
  - eapply (peer_slot_changed PeerIndex pl1); [done|apply lookup_insert_eq|done|done].
  - apply Hi.
  - intros q Hq. rewrite Hmem, elem_of_cons. naive_solver.
  - intros q Hq. split; [by intros ->|done].
  - intros _. split_and!; [done..|]. by apply own_id_false.
  - rewrite Hmem. naive_solver.
Qed.

(** ** Searches *)

Definition overlaps pl (t : option TransportAddressBlock) q : Prop :=
  (n ← pl_PeerListNodes pl !! q; transportAddressBlockOverlapComparison (pln_AddressBlock n) t) = Some 0.

#[export] Instance overlaps_dec pl t q : Decision (overlaps pl t q).
Proof. unfold overlaps. apply _. Defined.

Lemma peerNext_run k pl l1 p l2 : peer_slot k pl (peerSlot_get k pl) → st_list (peerSlot_get k pl) = l1 ++ p :: l2 →
  peerRead k (λ s, ST_GetNext s p) pl = Some (head l2, pl).
Proof.
  intros Hs Hl. pose proof (peer_slot_nodup _ _ _ Hs) as Hnd. rewrite Hl in Hnd. apply NoDup_app in Hnd as (_ & Hd & _).
  unfold peerRead, gets. rewrite (st_next_law _ _ _ (ps_ok _ _ _ Hs)) by (rewrite Hl; set_solver).
  rewrite Hl, l_next_app; [done|]. intros Hp. apply (Hd p Hp). left.
Qed.

Lemma peerFirst_run k pl : peer_slot k pl (peerSlot_get k pl) →
  peerRead k ST_GetFirst pl = Some (head (st_list (peerSlot_get k pl)), pl).
Proof. intros Hs. unfold peerRead, gets. by rewrite (st_first_law _ _ (ps_ok _ _ _ Hs)). Qed.

Lemma findByAddress_run X pl t : pl_inv X pl → block_ok t →
  peerListFindPeerListNode UNDEFINED_REGISTRAR_IDENTIFIER t pl = Some (head (filter (overlaps pl t) (index pl)), pl).
Proof.
  intros Hi Ht. unfold peerListFindPeerListNode. simpl. unfold peerFuel. erewrite run_bind; [|done].
  erewrite run_bind; [|apply (peerFirst_run PeerIndex), Hi]. simpl.
  assert (∀ l2 l1 fuel, index pl = l1 ++ l2 → (length l2 <= fuel)%nat →
    findOverlap fuel t (head l2) pl = Some (head (filter (overlaps pl t) l2), pl)) as Hgen; [|by apply (Hgen _ [])].
  induction l2 as [|p l2 IH]; intros l1 fuel Hl Hf; [by destruct fuel|]. simpl in Hf. destruct fuel as [|fuel]; [lia|].
  destruct (pv_lookup X pl p Hi) as (n & Hn & Hb); [rewrite Hl; set_solver|].
  destruct (overlap_defined (pln_AddressBlock n) t Hb Ht) as [c Hc].
  simpl. unfold peer_get, deref, mbind, M_bind. rewrite Hn, Hc.
  assert (overlaps pl t p ↔ c = 0) as Hov by (unfold overlaps; rewrite Hn; simpl; rewrite Hc; naive_solver).
  destruct (Z.eqb_spec c 0) as [->|Hne]; [by rewrite filter_cons_True by tauto|]. rewrite filter_cons_False by tauto.
  unfold peerListGetNextPeerListNodeFromIndexStorage.
  rewrite (peerNext_run PeerIndex pl l1 p l2); [|apply Hi|done]. apply (IH (l1 ++ [p])); [by rewrite <- app_assoc|lia].
Qed.

(** The entry with an identifier. *)
Definition entry pl (id : Z) p n : Prop :=
  p ∈ index pl ∧ pl_PeerListNodes pl !! p = Some n ∧ pln_Identifier n = id.

Lemma index_key_id X pl q id t : pl_inv X pl → q ∈ index pl → id ≠ UNDEFINED_REGISTRAR_IDENTIFIER →
  peerSlot_key PeerIndex pl q = peerKey (peerListNodeNew id 0 t) ↔ ∃ n, entry pl id q n.
Proof.
  intros Hi Hq Hid. destruct (pv_lookup X pl q Hi Hq) as (n & Hn & _). rewrite (peerSlot_key_lookup _ _ _ _ Hn).
  unfold entry. simpl. unfold peerKey. simpl. rewrite (proj2 (Z.eqb_neq id _)) by done. split.
  - intros [= Heq _]. eauto.
  - intros (m & _ & Hm & <-). simplify_eq. by rewrite (proj2 (Z.eqb_neq (pln_Identifier n) _)).
Qed.

Lemma findById_run X pl id t : pl_inv X pl → id ≠ UNDEFINED_REGISTRAR_IDENTIFIER → block_ok t →
  ∃ r, peerListFindPeerListNode id t pl = Some (r, pl) ∧
    match r with Some p => ∃ n, entry pl id p n | None => ∀ p n, ¬ entry pl id p n end.
Proof.
  intros Hi Hid Ht. unfold peerListFindPeerListNode. rewrite (proj2 (Z.eqb_neq id _)) by done. simpl.
  set (m := peerListNodeNew id 0 t). pose proof (peerSearch_find pl m) as Hfind.
  destruct (peerCompare_valid PeerIndex pl _ m (pv_index _ _ Hi) Ht) as [_ Hval].
  assert (∃ r, peerSearch ST_Find m pl = Some (r, pl)) as [r Hr].
  { unfold peerSearch. simpl. rewrite Hval. eauto. }
  exists r. split; [done|]. apply Hfind in Hr; [|apply Hi|done]. destruct r as [q|].
  - destruct Hr as [Hq Hk]. by apply (index_key_id X pl q id t).
  - intros q n Hq. apply (Hr q); [apply Hq|]. apply (index_key_id X); [done|apply Hq|done|eauto].
Qed.

Lemma entry_inj X pl id p q n m : pl_inv X pl → id ≠ UNDEFINED_REGISTRAR_IDENTIFIER → entry pl id p n → entry pl id q m → p = q.
Proof.
  intros Hi Hid Hp Hq. eapply key_sorted_inj; [apply (ps_sorted _ _ _ (pv_index _ _ Hi))|apply Hp|apply Hq|].
  rewrite (proj2 (index_key_id X pl p id None Hi (proj1 Hp) Hid)) by eauto.
  by rewrite (proj2 (index_key_id X pl q id None Hi (proj1 Hq) Hid)) by eauto.
Qed.
End peers.
