(* ===== verification/PeerListOps.v ===== *)
(** * The operations of the peer list

    Updating an entry, registration, deregistration and timers: what they
    do on every branch, and that they keep [pl_inv]. *)

From S2P Require Import Prelude Checksum Addresses PoolBasics Storage PoolElement PoolPolicy HandlespaceState PoolNode PoolEffects PoolSelection HandlespaceNode HandlespaceWalks HandlespaceMgt PeerList PeerListInv.
From stdpp Require Import base list gmap numbers option sorting sets.
#[local] Open Scope Z_scope.

Section ops.
Context {ST : Type} `{SL : StorageLaws ST} `{En : Endian}.
Abbreviation PL := (PeerList ST).
Implicit Types (pl : PL) (p q : ptr) (n : PeerListNode) (X : list ptr).
Abbreviation index pl := (st_list (pl_PeerListIndexStorage pl)).
Abbreviation timers pl := (st_list (pl_PeerListTimerStorage pl)).

(** ** Updating an entry *)

Lemma updatePeer_own pl p source : own_id pl (pln_Identifier source) = true →
  peerListUpdatePeerListNode p source pl = Some (RSPERR_OWN_ID, pl).
Proof.
  intros Ho. unfold peerListUpdatePeerListNode, peerListCheckPeerListNodeCompatibility, gets, mbind, M_bind.
  fold (own_id pl (pln_Identifier source)). by rewrite Ho.
Qed.

Definition renewed (flags : Z) n : PeerListNode := pln_set_Flags (flag_clear flags PLNF_NEW) n.

Lemma updatePeer_same pl p n source : pl_PeerListNodes pl !! p = Some n → own_id pl (pln_Identifier source) = false →
  pln_Identifier source = pln_Identifier n →
  peerListUpdatePeerListNode p source pl = Some (RSPERR_OKAY, peer_store p (renewed (pln_Flags source) n) pl).
Proof.
  intros Hn Ho Hid. assert (wp (peerListUpdatePeerListNode p source) (λ r pl', r = RSPERR_OKAY ∧
    pl' = peer_store p (renewed (pln_Flags source) n) pl) pl) as (r & pl' & Hrun & -> & ->); [|done].
  unfold peerListUpdatePeerListNode. apply wp_bind, wp_gets. fold (own_id pl (pln_Identifier source)). rewrite Ho. simpl.
  apply wp_bind. eapply wp_peer_get; [done|]. rewrite Hid, Z.eqb_refl. simpl. apply wp_bind, wp_ret.
  apply wp_bind. eapply wp_peer_update; [done|]. apply wp_bind. eapply wp_peer_update; [apply lookup_insert_eq|].
  apply wp_ret. split; [done|]. unfold peer_store. simpl. by rewrite insert_insert_eq.
Qed.

(** An entry gets another identifier; it has no running timer. *)
Lemma wp_updatePeer_id X pl p n source : pl_inv X pl → p ∈ index pl → pl_PeerListNodes pl !! p = Some n →
  own_id pl (pln_Identifier source) = false → pln_Identifier source ≠ UNDEFINED_REGISTRAR_IDENTIFIER →
  pln_Identifier source ≠ pln_Identifier n → (∀ q m, ¬ entry pl (pln_Identifier source) q m) → p ∉ timers pl →
  wp (peerListUpdatePeerListNode p source) (λ r pl', r = RSPERR_OKAY ∧ pl_inv X pl' ∧
    looks pl' (<[p := renewed (pln_Flags source) (pln_set_Identifier (pln_Identifier source) n)]> (pl_PeerListNodes pl))
      (λ q, q ∈ index pl) (timers pl) pl) pl.
Proof.
  intros Hi Hp Hn Ho Hid Hne Hnew Hpt. set (id := pln_Identifier source) in *. unfold peerListUpdatePeerListNode.
  apply wp_bind, wp_gets. fold id. fold (own_id pl id). rewrite Ho. simpl. apply wp_bind. eapply wp_peer_get; [done|].
  fold id. rewrite (proj2 (Z.eqb_neq _ _)) by done. simpl. apply wp_bind.
  destruct (pv_lookup X pl p Hi Hp) as (n' & Hn' & Hb). simplify_eq.
  destruct (peerRemove_run PeerIndex pl p (pv_index _ _ Hi) Hp) as (i1 & Hrun & Hi1 & Hl1). simpl in Hl1.
  eapply wp_step; [exact Hrun|]. apply wp_bind, wp_check; [by apply bool_decide_true|].
  apply wp_bind. eapply wp_peer_update; [exact Hn|]. set (n1 := pln_set_Identifier id n). set (pl1 := peer_store _ _ _).
  assert (∀ q, q ∈ st_list i1 ↔ q ≠ p ∧ q ∈ index pl) as Hmem1 by (intros q; by rewrite Hl1, l_remove_elem).
  assert (peer_slot PeerIndex pl1 i1) as HI1.
  { eapply peer_slot_ext; [exact Hi1|]. intros q m [Hqp _]%Hmem1 Hm. simpl. rewrite lookup_insert_ne by done. eauto. }
  destruct (peerInsert_new PeerIndex pl1 p n1) as (i2 & Hrun2 & Hi2 & Hl2); [done|apply lookup_insert_eq|done| |..].
  { intros Hin%Hmem1. naive_solver. }
  { intros q [Hqp Hq]%Hmem1 Hk. unfold peerSlot_key in Hk. simpl in Hk. rewrite lookup_insert_ne in Hk by done.
    destruct (proj1 (index_key_id X pl q id None Hi Hq Hid)) as [m Hm]; [|by apply (Hnew q m)].
    unfold peerSlot_key. simpl. rewrite Hk. unfold peerKey. simpl. by rewrite (proj2 (Z.eqb_neq id _)). }
  eapply wp_step; [exact Hrun2|]. apply wp_check; [by apply bool_decide_true|].
  apply wp_bind. eapply wp_peer_update; [apply lookup_insert_eq|]. apply wp_bind. eapply wp_peer_update; [apply lookup_insert_eq|].
  apply wp_ret. split; [done|].
  assert (∀ q, q ∈ st_list i2 ↔ q ∈ index pl) as Hmem.
  { intros q. rewrite Hl2, l_insert_elem. simpl. rewrite Hmem1. destruct (decide (q = p)); naive_solver. }
  split; [|by split_and!; simpl; [rewrite !insert_insert_eq|..]].
  eapply (pl_inv_relinked X X pl _ p n); try done; simpl.
  - by rewrite !insert_insert_eq.
  - eapply (peer_slot_changed PeerIndex pl1 _ p n1); [done|apply lookup_insert_eq|simpl; rewrite insert_insert_eq; reflexivity|done].
  - apply Hi.
  - intros q Hq. split; [by intros ->|done].
  - intros _. destruct (pv_node _ _ Hi p n Hp Hn) as (? & ? & _). split_and!; [done..|]. by apply own_id_false.
  - rewrite Hmem. split; [intros Hx; by apply (pv_free _ _ Hi)|done].
Qed.

(** ** Deregistration *)

Lemma l_remove_twice p (l : list ptr) : l_remove p (l_remove p l) = l_remove p l.
Proof. apply l_remove_not_elem. rewrite l_remove_elem. tauto. Qed.

(** The memory of an unlinked node is freed. *)
Lemma pl_inv_freed X pl p : pl_inv (p :: X) pl → p ∉ X →
  pl_inv X (pl_set_PeerListNodes (delete p (pl_PeerListNodes pl)) pl).
Proof.
  intros Hi HpX. pose proof (pv_free _ _ Hi p ltac:(left)) as Hfree.
  assert (∀ q, q ∈ index pl → delete p (pl_PeerListNodes pl) !! q = pl_PeerListNodes pl !! q) as Hsame.
  { intros q Hq. rewrite lookup_delete_ne; [done|]. by intros ->. }
  pose proof (pv_timed _ _ Hi) as Hsub. split; simpl.
  - eapply (peer_slot_ext PeerIndex pl); [apply Hi|]. intros q n Hq Hn. simpl. rewrite Hsame by done. eauto.
  - eapply (peer_slot_ext PeerTimer pl); [apply Hi|]. intros q n Hq Hn. simpl. rewrite Hsame by auto. eauto.
  - done.
  - intros q n Hq. rewrite Hsame by auto. by apply Hi.
  - intros q n Hq. rewrite Hsame by done. by apply Hi.
  - intros q. destruct (decide (q = p)) as [->|Hne].
    + rewrite lookup_delete_eq. split; [by intros [? ?]|]. tauto.
    + rewrite lookup_delete_ne, (pv_heap _ _ Hi), elem_of_cons by done. naive_solver.
  - intros q Hq. apply (pv_free _ _ Hi). by right.
Qed.

(** A static entry that is known keeps its place, without identifier. *)
Definition kept n : bool :=
  negb (flag_test (pln_Flags n) PLNF_DYNAMIC) && negb (pln_Identifier n =? UNDEFINED_REGISTRAR_IDENTIFIER).

Definition reset n : PeerListNode :=
  pln_set_OwnerPeerList true (pln_set_Value 1 (pln_set_UserData (pln_UserData n)
    (peerListNodeNew UNDEFINED_REGISTRAR_IDENTIFIER PLNF_STATIC (pln_AddressBlock n)))).

Lemma wp_peerListNodeDelete X pl p n : pl_inv X pl → p ∈ X → pl_PeerListNodes pl !! p = Some n →
  wp (peerListNodeDelete p) (λ _ pl', pl' = peer_store p (pln_set_TimerTimeStamp 0 (pln_set_TimerCode 0
    (pln_set_LastUpdateTimeStamp 0 (pln_set_Flags 0 n)))) pl ∧ pl_inv X pl') pl.
Proof.
  intros Hi Hp Hn. pose proof (pv_free _ _ Hi p Hp) as Hfree. unfold peerListNodeDelete.
  apply wp_bind, (wp_linked PeerIndex); [apply Hi|]. simpl. rewrite bool_decide_false by done. apply wp_bind, wp_check; [done|].
  apply wp_bind, (wp_linked PeerTimer); [apply Hi|]. simpl. rewrite bool_decide_false by (intros Ht; by apply Hfree, (pv_timed _ _ Hi)).
  apply wp_bind, wp_check; [done|]. eapply wp_peer_update; [done|]. split; [done|]. by eapply pl_inv_store.
Qed.

(** An entry is unlinked and its members are cleared. *)
Lemma wp_takeOut {A} X pl p n (f : () → M PL A) Q : pl_inv X pl → p ∈ index pl → pl_PeerListNodes pl !! p = Some n →
  (∀ pl', pl_inv (p :: X) pl' →
     looks pl' (<[p := pln_set_TimerTimeStamp 0 (pln_set_TimerCode 0 (pln_set_LastUpdateTimeStamp 0 (pln_set_Flags 0
       (pln_set_OwnerPeerList false n))))]> (pl_PeerListNodes pl)) (λ q, q ≠ p ∧ q ∈ index pl) (l_remove p (timers pl)) pl →
     wp (f tt) Q pl') →
  wp (peerListRemovePeerListNode p;; peerListNodeDelete p ≫= f) Q pl.
Proof.
  intros Hi Hp Hn HQ. apply wp_bind. eapply wp_mono; [by apply (wp_removePeer X pl p n)|].
  intros _ pl2 [Hi2 (Hnodes2 & Hmem2 & Ht2 & Hown2)]. apply wp_bind.
  eapply wp_mono; [apply (wp_peerListNodeDelete (p :: X) pl2 p (pln_set_OwnerPeerList false n)); [done|left|by rewrite Hnodes2, lookup_insert_eq]|].
  intros [] pl3 [-> Hi3]. apply HQ; [done|]. split_and!; simpl; try done. by rewrite Hnodes2, insert_insert_eq.
Qed.

Section disposer.
Context (d : option (ptr → M PL ())).

(** The user's disposer does not touch the list. *)
(** The disposer changes nothing but the node it is called for. *)
Definition peer_disposer_ok : Prop := ∀ f q pl n, d = Some f → pl_PeerListNodes pl !! q = Some n → ∃ n', f q pl = Some (tt, peer_store q n' pl).
Context (Hd : peer_disposer_ok).

Lemma wp_disposePeer X pl p n : pl_inv (p :: X) pl → p ∉ X → pl_PeerListNodes pl !! p = Some n →
  wp (peerListManagementPeerListNodeDisposer d p) (λ _ pl', pl_inv X pl' ∧
    pl' = pl_set_PeerListNodes (delete p (pl_PeerListNodes pl)) pl) pl.
Proof.
  intros Hi HpX Hn. unfold peerListManagementPeerListNodeDisposer. apply wp_bind. eapply wp_peer_get; [done|].
  apply (wp_bind (match pln_UserData n, d with Some _, Some f => f p | _, _ => mret tt end)).
  assert (∃ pl1, match pln_UserData n, d with Some _, Some f => f p | _, _ => mret tt end pl = Some (tt, pl1) ∧
    pl_set_PeerListNodes (delete p (pl_PeerListNodes pl1)) pl1 = pl_set_PeerListNodes (delete p (pl_PeerListNodes pl)) pl) as (pl1 & Hrun & Heq).
  { destruct (pln_UserData n); [|by exists pl]. destruct d as [f|] eqn:Hdf; [|by exists pl].
    destruct (Hd f p pl n) as [n' Hf]; [done|done|]. eexists. split; [exact Hf|]. unfold peer_store, pl_set_PeerListNodes. simpl.
    by rewrite delete_insert_eq. }
  exists tt, pl1. split; [exact Hrun|]. apply wp_modify. rewrite Heq. split; [by apply pl_inv_freed|done].
Qed.

Lemma wp_deregisterPeer X pl p n : pl_inv X pl → p ∈ index pl → pl_PeerListNodes pl !! p = Some n →
  (kept n = true → ∀ q m, q ≠ p → entry pl UNDEFINED_REGISTRAR_IDENTIFIER q m →
     blockKey (pln_AddressBlock m) ≠ blockKey (pln_AddressBlock n)) →
  wp (peerListManagementDeregisterPeerListNodeByPtr d p) (λ r pl', r = RSPERR_OKAY ∧ pl_inv X pl' ∧
    looks pl' (if kept n then <[p := reset n]> (pl_PeerListNodes pl) else delete p (pl_PeerListNodes pl))
      (λ q, (q = p → kept n = true) ∧ q ∈ index pl) (l_remove p (timers pl)) pl) pl.
Proof.
  intros Hi Hp Hn Hkeep. pose proof (pv_lookup X pl p Hi Hp) as (? & ? & Hb). simplify_eq.
  assert (p ∉ X) as HpX by (intros Hx; by apply (pv_free _ _ Hi p Hx)).
  unfold peerListManagementDeregisterPeerListNodeByPtr. apply wp_bind, (wp_linked PeerTimer); [apply Hi|]. simpl.
  apply wp_bind. eapply (wp_mono _ (λ _ pl1, pl_inv X pl1 ∧ pl_PeerListIndexStorage pl1 = pl_PeerListIndexStorage pl ∧
    pl_PeerListNodes pl1 = pl_PeerListNodes pl ∧ timers pl1 = l_remove p (timers pl) ∧ pl_OwnIdentifier pl1 = pl_OwnIdentifier pl)).
  { case_bool_decide as Ht; [by apply wp_deactivateTimer|]. apply wp_ret. by rewrite l_remove_not_elem. }
  intros _ pl1 (Hi1 & Hix & Hnodes1 & Ht1 & Hown1). apply wp_bind. eapply wp_peer_get; [by rewrite Hnodes1|].
  fold (kept n). assert (p ∈ index pl1) as Hp1 by (by rewrite Hix).
  destruct (kept n) eqn:Hk; (eapply (wp_takeOut X pl1 p n); [done|done|by rewrite Hnodes1|]);
    intros pl2 Hi2 (Hnodes2 & Hmem2 & Ht2 & Hown2); rewrite Hix in Hmem2; rewrite Hnodes1 in Hnodes2; rewrite Ht1, l_remove_twice in Ht2.
  - apply wp_bind. eapply wp_peer_get; [by rewrite Hnodes2, lookup_insert_eq|]. apply wp_bind, wp_modify. apply wp_bind.
    set (m := pln_set_UserData _ _). assert (∀ q, q ∈ index pl2 → q ≠ p) as Hnp by (intros q Hq%Hmem2; tauto).
    assert (pl_inv (p :: X) (peer_store p m pl2)) as Hi3.
    { eapply pl_inv_store; [done|by rewrite Hnodes2, lookup_insert_eq|]. intros Hq. by apply Hnp in Hq. }
    eapply wp_mono; [apply (wp_addPeer_new X _ p m Hi3 HpX); [apply lookup_insert_eq|done| |]|].
    + apply own_id_false. unfold m. simpl. auto.
    + intros q Hq. simpl in Hq. pose proof Hq as [Hne Hin]%Hmem2. unfold peerSlot_key. simpl.
      rewrite lookup_insert_ne, Hnodes2, lookup_insert_ne by done. destruct (pv_lookup X pl q Hi Hin) as (x & Hx & _). rewrite Hx.
      simpl. unfold peerKey, m. simpl. intros [= Hid Hbk]. rewrite Hid in Hbk. simpl in Hbk. by apply (Hkeep eq_refl q x).
    + intros r pl4 (-> & Hi4 & Hnodes4 & Hmem4 & Ht4 & Hown4). simpl. apply wp_bind, wp_check; [done|]. apply wp_ret.
      split; [done|]. split; [done|]. split_and!; simpl in *; [|..|by rewrite Ht4|congruence].
      * rewrite Hnodes4, Hnodes2, !insert_insert_eq. done.
      * intros q. rewrite Hmem4, Hmem2. destruct (decide (q = p)); naive_solver.
  - apply wp_bind. eapply wp_mono; [eapply (wp_disposePeer X pl2 p _ Hi2 HpX); by rewrite Hnodes2, lookup_insert_eq|].
    intros [] pl3 [Hi3 ->]. apply wp_ret. split; [done|]. split; [done|]. split_and!; simpl; [| |done|congruence].
    + by rewrite Hnodes2, delete_insert_eq.
    + intros q. rewrite Hmem2. naive_solver.
Qed.
End disposer.
End ops.
