(* ===== verification/PeerListSteps.v ===== *)
(** * Registration, timers and purging in the peer list

    [entries pl] is the list as a map from nodes to their contents.  The
    lemmas give the map after each operation of the management layer, with
    [statics], what holds of the entries that are configured statically:
    they have different addresses, also while they are known by an
    identifier. *)

From S2P Require Import Prelude Checksum Addresses PoolBasics Storage PoolElement PoolPolicy HandlespaceState PoolNode PoolEffects PoolSelection HandlespaceNode HandlespaceInv HandlespaceWalks HandlespaceVerify HandlespaceMgt PeerList PeerListInv PeerListOps.
From stdpp Require Import base list gmap numbers option sorting sets.
#[local] Open Scope Z_scope.

(** The flag [PLNF_NEW] is not [PLNF_DYNAMIC]. *)
Lemma test_set_new f : flag_test (flag_set f PLNF_NEW) PLNF_DYNAMIC = flag_test f PLNF_DYNAMIC.
Proof. unfold flag_test, flag_set. by rewrite Z.land_lor_distr_l, Z.lor_0_r. Qed.

Lemma test_clear_new f : flag_test (flag_clear f PLNF_NEW) PLNF_DYNAMIC = flag_test f PLNF_DYNAMIC.
Proof. unfold flag_test, flag_clear. by rewrite Z.ldiff_land, <- Z.land_assoc. Qed.

Section steps.
Context {ST : Type} `{SL : StorageLaws ST} `{En : Endian}.
Abbreviation PL := (PeerList ST).
Abbreviation PLM := (PeerListManagement ST).
Implicit Types (pl : PL) (p q : ptr) (n : PeerListNode) (X : list ptr) (m : PLM).
Abbreviation index pl := (st_list (pl_PeerListIndexStorage pl)).
Abbreviation timers pl := (st_list (pl_PeerListTimerStorage pl)).

(** ** The entries *)

Definition entries pl q : option PeerListNode := if decide (q ∈ index pl) then pl_PeerListNodes pl !! q else None.

Definition dynamic n : bool := flag_test (pln_Flags n) PLNF_DYNAMIC.

Record statics pl : Prop := {
  sv_dynamic p n : entries pl p = Some n → dynamic n = true → pln_Identifier n ≠ UNDEFINED_REGISTRAR_IDENTIFIER;
  sv_distinct p q n n' : entries pl p = Some n → entries pl q = Some n' → dynamic n = false → dynamic n' = false →
    blockKey (pln_AddressBlock n) = blockKey (pln_AddressBlock n') → p = q
}.

Lemma entries_Some pl q n : entries pl q = Some n ↔ q ∈ index pl ∧ pl_PeerListNodes pl !! q = Some n.
Proof. unfold entries. case_decide; naive_solver. Qed.

Lemma entry_entries pl id p n : entry pl id p n ↔ entries pl p = Some n ∧ pln_Identifier n = id.
Proof. unfold entry. rewrite entries_Some. tauto. Qed.

Lemma entries_store pl p n' q : p ∈ index pl → entries (peer_store p n' pl) q = if decide (q = p) then Some n' else entries pl q.
Proof.
  intros Hp. unfold entries. simpl. destruct (decide (q = p)) as [->|Hne].
  - by rewrite decide_True, lookup_insert_eq.
  - by rewrite lookup_insert_ne.
Qed.

Lemma entries_store_free pl p n' q : p ∉ index pl → entries (peer_store p n' pl) q = entries pl q.
Proof. intros Hp. unfold entries. simpl. case_decide; [|done]. rewrite lookup_insert_ne; [done|]. by intros ->. Qed.

(** [entries] after one entry was changed. *)
Lemma statics_change pl pl' p n n' : statics pl → (∀ q, entries pl' q = if decide (q = p) then Some n' else entries pl q) →
  entries pl p = Some n → dynamic n' = dynamic n → (dynamic n = true → pln_Identifier n' ≠ UNDEFINED_REGISTRAR_IDENTIFIER) →
  (dynamic n = false → blockKey (pln_AddressBlock n') = blockKey (pln_AddressBlock n)) → statics pl'.
Proof.
  intros [Hd Hs] He Hp Hdyn Hid Hb. split.
  - intros q x. rewrite He. case_decide; [|by apply Hd]. intros [= <-]. rewrite Hdyn. exact Hid.
  - assert (∀ q x, entries pl' q = Some x → dynamic x = false → ∃ y, entries pl q = Some y ∧ dynamic y = false ∧
      blockKey (pln_AddressBlock x) = blockKey (pln_AddressBlock y)) as Hold.
    { intros q x. rewrite He. case_decide as Hq; [subst q; intros [= <-]; rewrite Hdyn; eauto|eauto]. }
    intros q q' x x' Hx Hx' Hdx Hdx' Hbk. destruct (Hold _ _ Hx Hdx) as (y & Hy & Hyd & Hyb).
    destruct (Hold _ _ Hx' Hdx') as (y' & Hy' & Hyd' & Hyb'). eapply Hs; [exact Hy|exact Hy'|done|done|congruence].
Qed.

Lemma statics_subset pl pl' : statics pl → (∀ q n, entries pl' q = Some n → entries pl q = Some n) → statics pl'.
Proof. intros [Hd Hs] Hsub. split; [naive_solver|]. intros p q n n' Hp Hq. apply Hs; by apply Hsub. Qed.

(** ** Deregistration *)

Section disposer.
Context (d : option (ptr → M PL ())) (Hd : peer_disposer_ok d).

(** What is left of an entry. *)
Definition deregistered n : option PeerListNode := if kept n then Some (reset n) else None.

Lemma wp_deregister X pl p n : pl_inv X pl → statics pl → entries pl p = Some n →
  wp (peerListManagementDeregisterPeerListNodeByPtr d p) (λ r pl', r = RSPERR_OKAY ∧ pl_inv X pl' ∧ statics pl' ∧
    (∀ q, entries pl' q = if decide (q = p) then deregistered n else entries pl q) ∧
    timers pl' = l_remove p (timers pl) ∧ pl_OwnIdentifier pl' = pl_OwnIdentifier pl) pl.
Proof.
  intros Hi Hs Hn. pose proof Hn as [Hp Hl]%entries_Some. eapply wp_mono; [apply (wp_deregisterPeer d Hd X pl p n Hi Hp Hl)|].
  - intros Hk q y Hne [Hq Hid]%entry_entries Hbk. apply andb_true_iff in Hk as [Hst _]. apply negb_true_iff in Hst.
    apply Hne, (sv_distinct _ Hs q p y n); try done. apply not_true_is_false. intros Hdy. by apply (sv_dynamic _ Hs q y).
  - intros r pl' (-> & Hi' & Hnodes & Hmem & Ht & Hown).
    assert (∀ q, entries pl' q = if decide (q = p) then deregistered n else entries pl q) as He.
    { intros q. unfold entries, deregistered. rewrite Hnodes. destruct (decide (q = p)) as [->|Hne].
      - destruct (kept n); [rewrite decide_True by (rewrite Hmem; naive_solver); by rewrite lookup_insert_eq|].
        rewrite decide_False; [done|]. rewrite Hmem. naive_solver.
      - destruct (decide (q ∈ index pl)); [rewrite decide_True by (rewrite Hmem; naive_solver)|rewrite decide_False by (rewrite Hmem; naive_solver)].
        + destruct (kept n); [by rewrite lookup_insert_ne|by rewrite lookup_delete_ne].
        + done. }
    split_and!; try done. unfold deregistered in He. destruct (kept n) eqn:Hk.
    + eapply (statics_change pl pl' p n); try done; apply andb_true_iff in Hk as [Hst _]; apply negb_true_iff in Hst; unfold dynamic.
      * by rewrite Hst.
      * by rewrite Hst.
    + eapply statics_subset; [done|]. intros q y. rewrite He. by case_decide.
Qed.

(** ** Timers *)

Definition timer_set (code ts : Z) n : PeerListNode := pln_set_TimerTimeStamp ts (pln_set_TimerCode code n).

Lemma wp_activateTimer X pl p n code ts : pl_inv X pl → statics pl → entries pl p = Some n →
  pln_Identifier n ≠ UNDEFINED_REGISTRAR_IDENTIFIER → p ∉ timers pl →
  wp (peerListActivateTimer p code ts) (λ _ pl', pl_inv X pl' ∧ statics pl' ∧
    (∀ q, entries pl' q = if decide (q = p) then Some (timer_set code ts n) else entries pl q) ∧
    (∀ q, q ∈ timers pl' ↔ q = p ∨ q ∈ timers pl) ∧ pl_OwnIdentifier pl' = pl_OwnIdentifier pl) pl.
Proof.
  intros Hi Hs Hn Hid Hpt. pose proof Hn as [Hp Hl]%entries_Some. set (n' := timer_set code ts n). unfold peerListActivateTimer.
  apply wp_bind, (wp_linked PeerTimer); [apply Hi|]. simpl. rewrite bool_decide_false by done. apply wp_bind, wp_check; [done|].
  apply wp_bind. eapply wp_peer_update; [done|]. change (pln_set_TimerTimeStamp _ _) with n'. set (pl2 := peer_store p n' pl).
  destruct (pv_lookup X pl p Hi Hp) as (y & Hy & Hb). simplify_eq.
  assert (peer_slot PeerTimer pl2 (pl_PeerListTimerStorage pl)) as HT2.
  { eapply (peer_slot_store PeerTimer pl p n); [apply Hi|done|done]. }
  destruct (peerInsert_new PeerTimer pl2 p n') as (t' & Hrun & Ht' & Hlt); [done|apply lookup_insert_eq|done|done| |].
  { intros q Hq Hk. simpl in Hq. assert (q ≠ p) as Hne by (by intros ->). unfold peerSlot_key in Hk. simpl in Hk.
    rewrite lookup_insert_ne in Hk by done. pose proof (pv_timed _ _ Hi q Hq) as Hqi.
    destruct (pv_lookup X pl q Hi Hqi) as (x & Hx & _). rewrite Hx in Hk. simpl in Hk.
    unfold peerKey in Hk. injection Hk as _ Hxn _. simpl in Hxn.
    apply Hne. by eapply (entry_inj X pl (pln_Identifier n) q p x n). }
  eapply wp_step; [exact Hrun|]. apply wp_check; [by apply bool_decide_true|]. simpl in Hlt.
  assert (∀ q, q ∈ st_list t' ↔ q = p ∨ q ∈ timers pl) as Hmem by (intros q; by rewrite Hlt, l_insert_elem).
  assert (∀ q, entries (peerSlot_set PeerTimer t' pl2) q = if decide (q = p) then Some n' else entries pl q) as He.
  { intros q. unfold entries. simpl. destruct (decide (q = p)) as [->|];
      [by rewrite decide_True, lookup_insert_eq|by rewrite lookup_insert_ne]. }
  split; [|split_and!; try done; by eapply (statics_change pl _ p n n'); try done; intros; apply (sv_dynamic _ Hs p n)].
  destruct Hi as [Hix _ Hsub Htid Hnode Hh Hf]. split; simpl.
  - by eapply (peer_slot_changed PeerIndex pl _ p n n').
  - eapply (peer_slot_ext PeerTimer pl2); [done|]. simpl. eauto 10.
  - intros q [->|Hq]%Hmem; auto.
  - intros q x Hq. destruct (decide (q = p)) as [->|Hne]; [rewrite lookup_insert_eq; by intros [= <-]|].
    rewrite lookup_insert_ne by done. apply Htid. apply Hmem in Hq. naive_solver.
  - intros q x Hq. destruct (decide (q = p)) as [->|Hne]; [|rewrite lookup_insert_ne by done; by apply Hnode].
    rewrite lookup_insert_eq. intros [= <-]. by apply (Hnode p n).
  - intros q. rewrite <- Hh. destruct (decide (q = p)) as [->|Hne]; [by rewrite lookup_insert_eq, Hl|by rewrite lookup_insert_ne].
  - done.
Qed.

Lemma wp_deactivate X pl p : pl_inv X pl → statics pl →
  wp (peerListDeactivateTimer p) (λ _ pl', pl_inv X pl' ∧ statics pl' ∧ (∀ q, entries pl' q = entries pl q) ∧
    timers pl' = l_remove p (timers pl) ∧ pl_OwnIdentifier pl' = pl_OwnIdentifier pl) pl.
Proof.
  intros Hi Hs. eapply wp_mono; [by apply (wp_deactivateTimer X)|]. intros [] pl1 (Hi1 & Hix & Hnodes & Ht & Hown).
  assert (∀ q, entries pl1 q = entries pl q) as He by (intros q; unfold entries; by rewrite Hix, Hnodes).
  split_and!; try done. eapply statics_subset; [done|]. intros q x. by rewrite He.
Qed.

(** Deactivation and activation. *)
Lemma wp_retime X pl p n code ts : pl_inv X pl → statics pl → entries pl p = Some n →
  pln_Identifier n ≠ UNDEFINED_REGISTRAR_IDENTIFIER →
  wp (peerListDeactivateTimer p;; peerListActivateTimer p code ts) (λ _ pl', pl_inv X pl' ∧ statics pl' ∧
    (∀ q, entries pl' q = if decide (q = p) then Some (timer_set code ts n) else entries pl q) ∧
    (∀ q, q ∈ timers pl' ↔ q = p ∨ q ∈ timers pl) ∧ pl_OwnIdentifier pl' = pl_OwnIdentifier pl) pl.
Proof.
  intros Hi Hs Hn Hid. apply wp_bind. eapply wp_mono; [by apply (wp_deactivate X)|].
  intros [] pl1 (Hi1 & Hs1 & He1 & Ht1 & Hown1). eapply wp_mono; [apply (wp_activateTimer X pl1 p n); [done|done|by rewrite He1|done|]|].
  { rewrite Ht1, l_remove_elem. tauto. }
  intros [] pl2 (Hi2 & Hs2 & He2 & Ht2 & Hown2). split_and!; try done; [|..|congruence].
  - intros q. by rewrite He2, He1.
  - intros q. rewrite Ht2, Ht1, l_remove_elem. destruct (decide (q = p)); naive_solver.
Qed.

Lemma wp_restartTimer X pl p n timeout : pl_inv X pl → statics pl → entries pl p = Some n →
  pln_Identifier n ≠ UNDEFINED_REGISTRAR_IDENTIFIER →
  wp (peerListDeactivateTimer p;; n ← peer_get p;
      peerListActivateTimer p PLNT_MAX_TIME_NO_RESPONSE (u64 (pln_LastUpdateTimeStamp n + timeout)))
    (λ _ pl', pl_inv X pl' ∧ statics pl' ∧
      (∀ q, entries pl' q = if decide (q = p) then
        Some (timer_set PLNT_MAX_TIME_NO_RESPONSE (u64 (pln_LastUpdateTimeStamp n + timeout)) n)
        else entries pl q) ∧ (∀ q, q ∈ timers pl' ↔ q = p ∨ q ∈ timers pl) ∧ pl_OwnIdentifier pl' = pl_OwnIdentifier pl) pl.
Proof.
  intros Hi Hs Hn Hid. apply wp_bind. eapply wp_mono; [by apply (wp_deactivate X)|].
  intros [] pl1 (Hi1 & Hs1 & He1 & Ht1 & Hown1). rewrite <- He1 in Hn. pose proof Hn as [_ Hl]%entries_Some.
  apply wp_bind. eapply wp_peer_get; [done|]. eapply wp_mono; [apply (wp_activateTimer X pl1 p n); [done..|]|].
  { rewrite Ht1, l_remove_elem. tauto. }
  intros [] pl2 (Hi2 & Hs2 & He2 & Ht2 & Hown2). split_and!; try done; [|..|congruence].
  - intros q. by rewrite He2, He1.
  - intros q. rewrite Ht2, Ht1, l_remove_elem. destruct (decide (q = p)); naive_solver.
Qed.
(** ** Purging *)

(** The entries whose timer has expired. *)
Definition due pl (now : Z) q : bool :=
  match entries pl q with Some n => bool_decide (q ∈ timers pl) && (pln_TimerTimeStamp n <=? now) | None => false end.

Lemma due_first X pl now p l n : pl_inv X pl → timers pl = p :: l → entries pl p = Some n → now < pln_TimerTimeStamp n →
  ∀ q, due pl now q = false.
Proof.
  intros Hi Hl Hn Hts q. unfold due. destruct (entries pl q) as [x|] eqn:Hx; [|done]. case_bool_decide as Hq; [|done]. simpl.
  apply Z.leb_gt. rewrite Hl in Hq. apply elem_of_cons in Hq as [->|Hq]; [congruence|].
  pose proof (ps_sorted _ _ _ (pv_timer _ _ Hi)) as Hs. rewrite Hl in Hs. apply key_sorted_cons in Hs as [Hlt _].
  specialize (Hlt q Hq). apply entries_Some in Hn as [_ Hn], Hx as [_ Hx]. unfold key_lt, peerSlot_key in Hlt.
  rewrite Hn, Hx in Hlt. simpl in Hlt. destruct (Z.ltb_spec (pln_TimerTimeStamp n) (pln_TimerTimeStamp x)); [lia|].
  destruct (Z.ltb_spec (pln_TimerTimeStamp x) (pln_TimerTimeStamp n)); lia.
Qed.

(** Only this kind of timer is running. *)
Definition purge_timers pl : Prop := ∀ p n, p ∈ timers pl → entries pl p = Some n → pln_TimerCode n = PLNT_MAX_TIME_NO_RESPONSE.

Lemma wp_purge X now : ∀ fuel pl purged, pl_inv X pl → statics pl → purge_timers pl → (length (timers pl) <= fuel)%nat →
  wp (purgeExpiredPeers d fuel now (head (timers pl)) purged) (λ r pl',
    r = purged + Z.of_nat (length (filter (due pl now) (timers pl))) ∧ pl_inv X pl' ∧ statics pl' ∧
    (∀ q, entries pl' q = if due pl now q then entries pl q ≫= deregistered else entries pl q) ∧
    timers pl' = filter (λ q, ¬ due pl now q) (timers pl) ∧ pl_OwnIdentifier pl' = pl_OwnIdentifier pl) pl.
Proof.
  induction fuel as [|fuel IH]; intros pl purged Hi Hs Hcodes Hf; destruct (timers pl) as [|p l] eqn:Hl; simpl in Hf; try lia.
  1,2: apply wp_ret; split_and!; try done; [simpl; lia|intros q; unfold due; rewrite Hl; by destruct (entries pl q)].
  pose proof (pv_timed _ _ Hi p ltac:(rewrite Hl; left)) as Hp. destruct (pv_lookup X pl p Hi Hp) as (n & Hn & _).
  assert (entries pl p = Some n) as Hen by (by apply entries_Some).
  simpl. unfold peerListGetNextPeerListNodeFromTimerStorage.
  eapply wp_step; [by apply (peerNext_run PeerTimer pl [] p l); [apply Hi|]|]. apply wp_bind. eapply wp_peer_get; [done|].
  pose proof (Hcodes p n ltac:(rewrite Hl; left) Hen) as Hcode.
  apply wp_bind, wp_check; [by rewrite Hcode|]. apply wp_bind, (wp_linked PeerTimer); [apply Hi|]. simpl.
  rewrite bool_decide_true by (rewrite Hl; left). apply wp_bind, wp_check; [done|].
  pose proof (peer_slot_nodup _ _ _ (pv_timer _ _ Hi)) as Hnd. rewrite Hl in Hnd. apply NoDup_cons in Hnd as [Hpl Hnd].
  destruct (Z.leb_spec (pln_TimerTimeStamp n) now) as [Hle|Hgt].
  - apply wp_bind. eapply wp_mono; [by apply (wp_deregister X pl p n)|].
    intros r pl1 (_ & Hi1 & Hs1 & He1 & Ht1 & Hown1).
    assert (timers pl1 = l) as Htl.
    { rewrite Ht1, Hl. apply (l_remove_middle p [] l); [apply not_elem_of_nil|done]. }
    assert (due pl now p = true) as Hdue.
    { unfold due. rewrite Hen, Hl, bool_decide_true by left. by apply Z.leb_le. }
    assert (∀ q, due pl1 now q = if decide (q = p) then false else due pl now q) as Hdue1.
    { intros q. unfold due. rewrite He1, Htl, Hl. destruct (decide (q = p)) as [->|Hne].
      - rewrite bool_decide_false by done. by destruct (deregistered n).
      - destruct (entries pl q); [|done]. do 2 f_equal. apply bool_decide_ext. rewrite elem_of_cons. naive_solver. }
    assert (purge_timers pl1) as Hcodes1.
    { intros q x Hq. rewrite Htl in Hq. rewrite He1, decide_False by (intros ->; done). apply Hcodes. rewrite Hl. by right. }
    rewrite <- Htl. eapply wp_mono; [apply IH; [done..|rewrite Htl; lia]|].
    intros r' pl' (-> & Hi' & Hs' & He' & Ht' & Hown').
    assert (∀ (P : ptr → Prop) `{∀ q, Decision (P q)} P' `{∀ q, Decision (P' q)}, (∀ q, q ≠ p → P' q ↔ P q) → filter P' l = filter P l) as Hfl.
    { intros P ? P' ? HP. apply list_filter_ext_in. intros q Hq. apply HP. by intros ->. }
    rewrite Htl in Ht' |- *. split_and!; try done; [|..|congruence].
    + rewrite filter_cons_True by (by rewrite Hdue). simpl. rewrite (Hfl (λ q, due pl now q) _ (λ q, due pl1 now q)); [lia|].
      intros q Hq. by rewrite Hdue1, decide_False.
    + intros q. rewrite He', Hdue1, He1. destruct (decide (q = p)) as [->|Hne]; [|done]. by rewrite Hdue, Hen.
    + rewrite Ht'. rewrite filter_cons_False by (rewrite Hdue; simpl; tauto). apply Hfl. intros q Hq. by rewrite Hdue1, decide_False.
  - pose proof (due_first X pl now p l n Hi Hl Hen ltac:(lia)) as Hnone. apply wp_ret. split_and!; try done.
    + rewrite filter_none; [simpl; lia|]. apply Forall_forall. intros q _. rewrite Hnone. by intros [].
    + intros q. by rewrite Hnone.
    + rewrite filter_all; [done|]. apply Forall_forall. intros q _. rewrite Hnone. by intros [].
Qed.
End disposer.
End steps.
