(* ===== verification/PeerListRegister.v ===== *)
(** * Registration in the peer list

    [peerListManagementRegisterPeerListNode] on all its branches: a known
    peer is updated, a static entry with its address takes its identifier,
    or an entry is created. *)

From S2P Require Import Prelude Checksum Addresses PoolBasics Storage PoolElement PoolPolicy HandlespaceState PoolNode PoolEffects PoolSelection HandlespaceNode HandlespaceInv HandlespaceWalks HandlespaceVerify HandlespaceMgt PeerList PeerListInv PeerListOps PeerListSteps.
From stdpp Require Import base list gmap numbers option sorting sets.
#[local] Open Scope Z_scope.

Section register.
Context {ST : Type} `{SL : StorageLaws ST} `{En : Endian}.
Abbreviation PL := (PeerList ST).
Abbreviation PLM := (PeerListManagement ST).
Implicit Types (pl : PL) (p q : ptr) (n : PeerListNode) (X : list ptr) (m : PLM) (h : option (Handlespace ST)).
Abbreviation index pl := (st_list (pl_PeerListIndexStorage pl)).
Abbreviation timers pl := (st_list (pl_PeerListTimerStorage pl)).

Definition new_nodes m : list ptr := match plm_NewPeerListNode m with Some p => [p] | None => [] end.

Definition plm_inv m : Prop := pl_inv (new_nodes m) (plm_List m) ∧ statics (plm_List m).

Lemma wp_onList {A} (f : M PL A) (Q : A → PLM → Prop) m :
  wp f (λ a pl, Q a (MkPeerListManagement pl (plm_NewPeerListNode m))) (plm_List m) → wp (onList f) Q m.
Proof. intros (a & pl & Hf & HQ). exists a, (MkPeerListManagement pl (plm_NewPeerListNode m)). split; [unfold onList; by rewrite Hf|done]. Qed.

Lemma onList_run {A} (f : M PL A) m a pl : f (plm_List m) = Some (a, pl) →
  onList f m = Some (a, MkPeerListManagement pl (plm_NewPeerListNode m)).
Proof. unfold onList. by intros ->. Qed.

Lemma onList_same {A} (f : M PL A) m a : f (plm_List m) = Some (a, plm_List m) → onList f m = Some (a, m).
Proof. intros Hf. rewrite (onList_run _ _ _ _ Hf). by destruct m. Qed.

(** ** Ownership checksums *)

Definition owner_checksum (hs : Handlespace ST) (id : Z) : Z :=
  u32 (foldr (λ p a, checksum_at hs p + a) 0 (owned_list id hs)).

Definition summed h n : PeerListNode :=
  match h with Some hs => pln_set_OwnershipChecksum (owner_checksum hs (pln_Identifier n)) n | None => n end.

Definition handlespace_ok h : Prop := ∀ hs, h = Some hs → hs_inv hs.

Lemma refresh_run pl p n h : handlespace_ok h → pl_PeerListNodes pl !! p = Some n →
  refreshOwnershipChecksum h p pl = Some (tt, peer_store p (summed h n) pl).
Proof.
  intros Hh Hn. destruct h as [hs|]; simpl.
  - unfold peer_get, deref, mbind, M_bind. rewrite Hn, (computeOwnershipChecksum_run hs _ (Hh hs eq_refl)). simpl.
    unfold peer_update, peer_get, deref, mbind, M_bind. by rewrite Hn.
  - unfold peer_store, mret, M_ret. rewrite insert_id by done. by destruct pl.
Qed.

Lemma summed_role h n : block_ok (pln_AddressBlock n) → same_role n (summed h n).
Proof. intros Hb. destruct h; by split_and!. Qed.

(** ** The static entry of a peer *)

Definition no_entry pl (id : Z) : Prop := ∀ p n, ¬ entry pl id p n.

Inductive static_entry pl (id : Z) (t : option TransportAddressBlock) : option ptr → Prop :=
| static_known p n : entry pl id p n → dynamic n = false → static_entry pl id t (Some p)
| static_address p n : no_entry pl id → head (filter (overlaps pl t) (index pl)) = Some p → entries pl p = Some n →
    dynamic n = false → static_entry pl id t (Some p)
| static_dynamic p n : entry pl id p n → dynamic n = true → static_entry pl id t None
| static_none : no_entry pl id → static_entry pl id t None.

Lemma findStaticEntry_run X m id t : pl_inv X (plm_List m) → id ≠ UNDEFINED_REGISTRAR_IDENTIFIER → block_ok t →
  ∃ r, findStaticEntry id t m = Some (r, m) ∧ static_entry (plm_List m) id t r.
Proof.
  intros Hi Hid Ht. set (pl := plm_List m). unfold findStaticEntry, peerListManagementFindPeerListNode.
  destruct (findById_run X pl id None Hi Hid) as (r & Hr & Hspec); [done|]. rewrite (run_bind _ _ _ _ _ (onList_same _ _ _ Hr)).
  assert (∀ A p n (K : PeerListNode → A), pl_PeerListNodes pl !! p = Some n →
    (n ← onList (peer_get p); mret (K n)) m = Some (K n, m)) as Hget.
  { intros A p n K Hn. erewrite run_bind; [|apply onList_same; unfold peer_get, deref; fold pl; by rewrite Hn]. done. }
  destruct r as [p|].
  - destruct Hspec as [n Hn]. erewrite run_bind; [|done]. cbv beta iota. rewrite (Hget _ p n) by apply Hn. eexists. split; [done|].
    fold (dynamic n). destruct (dynamic n) eqn:Hd; [by eapply static_dynamic|by eapply static_known].
  - rewrite (run_bind _ _ _ _ _ (onList_same _ _ _ (findByAddress_run X pl t Hi Ht))). cbv beta. destruct (head (filter (overlaps pl t) (index pl))) as [p|] eqn:Hp; [|eauto using static_none].
    assert (p ∈ index pl) as Hin.
    { assert (p ∈ filter (overlaps pl t) (index pl)) as Hf by (apply head_Some_elem_of; exact Hp). by apply list_elem_of_filter in Hf as [_ ?]. }
    destruct (pv_lookup X pl p Hi Hin) as (n & Hn & _). cbv beta iota. rewrite (Hget _ p n) by done. eexists. split; [done|].
    fold (dynamic n). destruct (dynamic n) eqn:Hd; [by apply static_none|eapply static_address; [done..| |done]]. by apply entries_Some.
Qed.

(** [entries] with the entry [p] set to [n]. *)
Definition set_entry pl p n pl' : Prop :=
  (∀ q, entries pl' q = if decide (q = p) then Some n else entries pl q) ∧ timers pl' = timers pl ∧
  pl_OwnIdentifier pl' = pl_OwnIdentifier pl.

Definition renew n : PeerListNode := pln_set_Flags (flag_set (pln_Flags n) PLNF_NEW) n.

(** The static entry of a peer with identifier [id]. *)
Definition identified pl (id : Z) n : PeerListNode :=
  let n' := if own_id pl id then n else renewed (pln_Flags n) (pln_set_Identifier id n) in
  if pln_Identifier n =? UNDEFINED_REGISTRAR_IDENTIFIER then renew n' else n'.

Lemma identified_dynamic pl id n : dynamic (identified pl id n) = dynamic n.
Proof.
  unfold identified, dynamic. destruct (own_id pl id), (_ =? _); simpl; by rewrite ?test_set_new, ?test_clear_new.
Qed.

(** The update that gives the entry its identifier. *)
Lemma wp_identify X pl p n id : pl_inv X pl → entries pl p = Some n → id ≠ UNDEFINED_REGISTRAR_IDENTIFIER →
  pln_Identifier n = id ∨ (no_entry pl id ∧ (own_id pl id = false → p ∉ timers pl)) →
  wp (peerListUpdatePeerListNode p (peerListNodeNew id (pln_Flags n) (pln_AddressBlock n)))
    (λ r pl', r = (if own_id pl id then RSPERR_OWN_ID else RSPERR_OKAY) ∧ pl_inv X pl' ∧
       looks pl' (<[p := if own_id pl id then n else renewed (pln_Flags n) (pln_set_Identifier id n)]> (pl_PeerListNodes pl))
         (λ q, q ∈ index pl) (timers pl) pl) pl.
Proof.
  intros Hi Hn Hid Hor. pose proof Hn as [Hp Hl]%entries_Some. destruct (own_id pl id) eqn:Ho.
  { exists RSPERR_OWN_ID, pl. split; [by apply updatePeer_own|]. split; [done|]. split; [done|]. split_and!; try done. by rewrite insert_id. }
  destruct (decide (pln_Identifier n = id)) as [Hsame|Hne].
  - eexists _, _. split; [by apply (updatePeer_same pl p n)|]. split; [done|].
    assert (renewed (pln_Flags n) (pln_set_Identifier id n) = renewed (pln_Flags n) n) as -> by (rewrite <- Hsame; by destruct n).
    destruct (pv_lookup X pl p Hi Hp) as (? & ? & Hb). simplify_eq. split; [by eapply pl_inv_store|by split_and!].
  - destruct Hor as [|[Hno Ht]]; [done|]. apply (wp_updatePeer_id X pl p n (peerListNodeNew id (pln_Flags n) (pln_AddressBlock n))); auto.
Qed.

Lemma wp_updateStatic X pl p n id h : pl_inv X pl → statics pl → handlespace_ok h → entries pl p = Some n →
  dynamic n = false → id ≠ UNDEFINED_REGISTRAR_IDENTIFIER →
  pln_Identifier n = id ∨ (no_entry pl id ∧ (own_id pl id = false → p ∉ timers pl)) →
  wp (updateStaticEntry h id p) (λ r pl', r = (if own_id pl id then RSPERR_OWN_ID else RSPERR_OKAY) ∧ pl_inv X pl' ∧
    statics pl' ∧ set_entry pl p (summed h (identified pl id n)) pl') pl.
Proof.
  intros Hi Hs Hh Hn Hd Hid Hor. pose proof Hn as [Hp Hl]%entries_Some. unfold updateStaticEntry.
  apply wp_bind. eapply wp_peer_get; [done|]. apply wp_bind. eapply wp_mono; [by apply (wp_identify X)|].
  intros r pl1 (-> & Hi1 & Hnodes1 & Hmem1 & Ht1 & Hown1). set (n1 := if own_id pl id then n else _) in *.
  assert (p ∈ index pl1) as Hp1 by (by apply Hmem1).
  assert (pl_PeerListNodes pl1 !! p = Some n1) as Hl1 by (by rewrite Hnodes1, lookup_insert_eq).
  destruct (pv_lookup X pl1 p Hi1 Hp1) as (? & Hl1' & Hb). rewrite Hl1 in Hl1'. injection Hl1' as <-.
  apply wp_bind. eapply (wp_mono _ (λ _ pl2, pl2 = peer_store p (identified pl id n) pl1)).
  { unfold identified. fold n1. destruct (_ =? _); [by eapply wp_peer_update|]. apply wp_ret. unfold peer_store.
    rewrite insert_id by done. by destruct pl1. }
  intros [] ? ->. set (n2 := identified pl id n). assert (same_role n1 n2) as Hr.
  { unfold n2, identified. fold n1. destruct (_ =? _); by split_and!. }
  assert (block_ok (pln_AddressBlock n2)) as Hb2 by apply Hr.
  eapply wp_step; [apply refresh_run; [done|apply lookup_insert_eq]|]. apply wp_ret. split; [done|].
  set (pl3 := peer_store p (summed h n2) _).
  assert (∀ q, entries pl3 q = if decide (q = p) then Some (summed h n2) else entries pl q) as He.
  { intros q. unfold pl3, entries. simpl. rewrite Hnodes1, !insert_insert_eq. destruct (decide (q = p)) as [->|Hne].
    - by rewrite decide_True, lookup_insert_eq.
    - rewrite lookup_insert_ne by done. by apply decide_ext. }
  assert (pl_inv X pl3) as Hi3.
  { eapply pl_inv_store; [eapply pl_inv_store; [done..|by intros _]|apply lookup_insert_eq|]. intros _. by apply summed_role. }
  split; [done|]. split; [|split_and!; try done; simpl; congruence].
  assert (dynamic (summed h n2) = dynamic n) as Hdyn by (rewrite <- (identified_dynamic pl id n); by destruct h).
  eapply (statics_change pl pl3 p n); try done; [by rewrite Hd|]. intros _. destruct h; unfold n2, identified;
    destruct (own_id pl id), (_ =? _); done.
Qed.

(** ** New entries *)

Lemma pl_inv_alloc pl p n : pl_inv [] pl → pl_PeerListNodes pl !! p = None → pl_inv [p] (peer_store p n pl).
Proof.
  intros Hi Hp. assert (p ∉ index pl) as Hpi.
  { intros Hin. destruct (pv_lookup [] pl p Hi Hin) as (x & Hx & _). congruence. }
  assert (∀ q, q ∈ index pl → <[p := n]> (pl_PeerListNodes pl) !! q = pl_PeerListNodes pl !! q) as Hsame.
  { intros q Hq. rewrite lookup_insert_ne; [done|]. by intros ->. }
  pose proof (pv_timed _ _ Hi) as Hsub. split; simpl.
  - eapply (peer_slot_ext PeerIndex pl); [apply Hi|]. intros q x Hq Hx. simpl. rewrite Hsame by done. eauto.
  - eapply (peer_slot_ext PeerTimer pl); [apply Hi|]. intros q x Hq Hx. simpl. rewrite Hsame by auto. eauto.
  - done.
  - intros q x Hq. rewrite Hsame by auto. by apply Hi.
  - intros q x Hq. rewrite Hsame by done. by apply Hi.
  - intros q. destruct (decide (q = p)) as [->|Hne]; [rewrite lookup_insert_eq; set_solver|].
    rewrite lookup_insert_ne, (pv_heap _ _ Hi) by done. set_solver.
  - intros q ->%list_elem_of_singleton. done.
Qed.

Lemma statics_add pl pl' p n : statics pl → (∀ q, entries pl' q = if decide (q = p) then Some n else entries pl q) →
  (dynamic n = true → pln_Identifier n ≠ UNDEFINED_REGISTRAR_IDENTIFIER) →
  (dynamic n = false → ∀ q x, q ≠ p → entries pl q = Some x → dynamic x = false →
     blockKey (pln_AddressBlock x) ≠ blockKey (pln_AddressBlock n)) → statics pl'.
Proof.
  intros [Hd Hs] He Hid Hb. split.
  - intros q x. rewrite He. case_decide; [by intros [= <-]|by apply Hd].
  - intros q q' x x'. rewrite !He. destruct (decide (q = p)) as [->|Hq], (decide (q' = p)) as [->|Hq']; try done; [| |by apply Hs].
    + intros [= <-] Hx' Hdn Hdx Hbk. by exfalso; apply (Hb Hdn q' x').
    + intros Hx [= <-] Hdx Hdn Hbk. by exfalso; apply (Hb Hdn q x).
Qed.

(** What the caller of [createOrUpdateEntry] has established. *)
Record creatable pl (id flags : Z) (t : option TransportAddressBlock) : Prop := {
  cr_dynamic : flag_test flags PLNF_DYNAMIC = negb (id =? UNDEFINED_REGISTRAR_IDENTIFIER);
  cr_known p n : entry pl id p n → id ≠ UNDEFINED_REGISTRAR_IDENTIFIER → dynamic n = true;
  cr_static p n : id = UNDEFINED_REGISTRAR_IDENTIFIER → entries pl p = Some n → dynamic n = false →
    pln_Identifier n ≠ UNDEFINED_REGISTRAR_IDENTIFIER → blockKey (pln_AddressBlock n) ≠ blockKey t;
  cr_block : block_ok t
}.

(** The entry before its address block and checksum are set: a new one in
    the memory [p], or the known one with the flags of the registration. *)
Inductive added pl (p : ptr) (id flags : Z) (t : option TransportAddressBlock) : ptr → PeerListNode → Prop :=
| added_new : (∀ q x, entries pl q = Some x → peerKey x ≠ peerKey (peerListNodeNew id flags t)) →
    added pl p id flags t p (renew (pln_set_OwnerPeerList true (pln_set_Value 1 (peerListNodeNew id flags t))))
| added_known q x : entries pl q = Some x → peerKey x = peerKey (peerListNodeNew id flags t) →
    added pl p id flags t q (renewed flags x).

Lemma key_decide pl k : (∃ q x, entries pl q = Some x ∧ peerKey x = k) ∨ (∀ q x, entries pl q = Some x → peerKey x ≠ k).
Proof.
  destruct (decide (Exists (λ q, (peerKey <$> entries pl q) = Some k) (index pl))) as [Hex|Hno].
  - left. apply Exists_exists in Hex as (q & _ & Hq). apply fmap_Some in Hq as (x & Hx & ->). eauto.
  - right. intros q x Hx <-. apply Hno, Exists_exists. exists q. pose proof Hx as [? _]%entries_Some. by rewrite Hx.
Qed.

Lemma wp_addOrUpdate pl p id flags t : let n := peerListNodeNew id flags t in
  pl_inv [p] pl → pl_PeerListNodes pl !! p = Some n → block_ok t →
  wp (peerListAddOrUpdatePeerListNode p) (λ r pl', timers pl' = timers pl ∧ pl_OwnIdentifier pl' = pl_OwnIdentifier pl ∧
    if own_id pl id then r = (None, RSPERR_OWN_ID, false) ∧ pl' = pl
    else ∃ q n' used, r = (Some q, RSPERR_OKAY, used) ∧ added pl p id flags t q n' ∧
      pl_inv (if used : bool then [] else [p]) pl' ∧ (used = true → q = p) ∧
      (∀ x, entries pl' x = if decide (x = q) then Some n' else entries pl x)) pl.
Proof.
  intros n Hi Hn Hb. pose proof (pv_free _ _ Hi p ltac:(left)) as Hfree. unfold peerListAddOrUpdatePeerListNode.
  destruct (own_id pl id) eqn:Ho; [eapply wp_step; [by apply (addPeer_own pl p n)|]; by apply wp_ret|].
  destruct (key_decide pl (peerKey n)) as [(q & x & Hx & Hk)|Hnew].
  - pose proof Hx as [Hq Hxl]%entries_Some. assert (q ≠ p) as Hne by (by intros ->).
    eapply wp_step; [apply (addPeer_dup [p] pl p n q); [done|left|done..|by rewrite (peerSlot_key_lookup _ _ _ _ Hxl)]|].
    cbv beta iota. rewrite bool_decide_true by done. set (pl1 := peer_store p _ pl). apply wp_bind. eapply wp_peer_get; [apply lookup_insert_eq|].
    assert (pl_inv [p] pl1) as Hi1 by (by eapply pl_inv_store).
    assert (pl_PeerListNodes pl1 !! q = Some x) as Hx1 by (simpl; by rewrite lookup_insert_ne).
    eapply wp_step; [apply (updatePeer_same pl1 q x); [done|done|]; unfold peerKey in Hk; simpl in *; by injection Hk|].
    apply wp_ret. split; [done|]. split; [done|]. eexists q, (renewed flags x), false. split; [done|].
    split; [by apply added_known|]. destruct (pv_lookup [p] pl q Hi Hq) as (? & ? & Hbx). simplify_eq.
    split; [by eapply pl_inv_store|]. split; [done|]. intros y. rewrite entries_store by done. case_decide; [done|].
    by apply entries_store_free.
  - apply wp_bind. eapply wp_mono; [apply (wp_addPeer_new [] pl p n Hi); [apply not_elem_of_nil|done..|]|].
    { intros q Hq. destruct (pv_lookup [p] pl q Hi Hq) as (x & Hx & _). rewrite (peerSlot_key_lookup _ _ _ _ Hx).
      apply (Hnew q x). by apply entries_Some. }
    intros r pl1 (-> & Hi1 & Hnodes1 & Hmem1 & Ht1 & Hown1). cbv beta iota. rewrite bool_decide_false by naive_solver.
    apply wp_bind. eapply wp_peer_update; [by rewrite Hnodes1, lookup_insert_eq|]. apply wp_ret. split; [done|]. split; [done|].
    eexists p, _, true. split; [done|]. split; [by apply added_new|]. split.
    { eapply pl_inv_store; [done|by rewrite Hnodes1, lookup_insert_eq|]. intros _. by split_and!. }
    split; [done|]. intros y. assert (p ∈ index pl1) as Hp1 by (apply Hmem1; auto). rewrite entries_store by done.
    case_decide as Hy; [done|]. unfold entries. rewrite Hnodes1, lookup_insert_ne by done. apply decide_ext. rewrite Hmem1. naive_solver.
Qed.

(** ** Creating or updating an entry *)

Definition node_memory m (peerNode : option ptr) : option ptr :=
  match plm_NewPeerListNode m with Some p => Some p | None => peerNode end.

(** Allocated memory is not in use. *)
Definition fresh_node m (peerNode : option ptr) : Prop :=
  ∀ p, plm_NewPeerListNode m = None → peerNode = Some p → pl_PeerListNodes (plm_List m) !! p = None.

Definition copied (duplicated : bool) (t : option TransportAddressBlock) : bool :=
  match t with Some _ => duplicated | None => false end.

Definition refreshed h (t : option TransportAddressBlock) (now : Z) n : PeerListNode :=
  summed h (pln_set_AddressBlock t (pln_set_LastUpdateTimeStamp now n)).

Lemma allocate_inv m peerNode p n : plm_inv m → fresh_node m peerNode → node_memory m peerNode = Some p →
  pl_inv [p] (peer_store p n (plm_List m)) ∧ (∀ q, entries (peer_store p n (plm_List m)) q = entries (plm_List m) q).
Proof.
  intros [Hi Hs] Hf. unfold node_memory, new_nodes in *. destruct (plm_NewPeerListNode m) as [p'|] eqn:Hn.
  - intros [= ->]. pose proof (pv_free _ _ Hi p ltac:(left)) as Hfree. split; [|intros; by apply entries_store_free].
    destruct (proj2 (pv_heap _ _ Hi p)) as [x Hx]; [by right; left|]. by eapply pl_inv_store.
  - intros ->. pose proof (Hf p Hn eq_refl) as Hnone. split; [by apply pl_inv_alloc|]. intros q. apply entries_store_free.
    intros Hp. destruct (pv_lookup [] _ p Hi Hp) as (x & Hx & _). congruence.
Qed.

(** The entry that was added obeys [statics]. *)
Lemma added_statics pl pl' p id flags t q n : statics pl → creatable pl id flags t → added pl p id flags t q n →
  (∀ x, entries pl' x = if decide (x = q) then Some n else entries pl x) → statics pl' ∧
  pln_Identifier n = id ∧ dynamic n = flag_test flags PLNF_DYNAMIC ∧ (dynamic n = false → blockKey (pln_AddressBlock n) = blockKey t).
Proof.
  intros Hs [Hdyn Hknown Hstat _] Hadd He. destruct Hadd as [Hnew|q x Hx Hk].
  - assert (dynamic (renew (pln_set_OwnerPeerList true (pln_set_Value 1 (peerListNodeNew id flags t)))) = flag_test flags PLNF_DYNAMIC)
      as Hd by apply test_set_new.
    split; [|by split_and!]. eapply statics_add; [done|exact He|..]; rewrite Hd, Hdyn; simpl.
    + by intros ?%negb_true_iff%Z.eqb_neq.
    + intros Hid%negb_false_iff%Z.eqb_eq q x Hne Hx Hdx Hbk. destruct (decide (pln_Identifier x = UNDEFINED_REGISTRAR_IDENTIFIER)) as [Hx0|Hx0].
      * apply (Hnew q x Hx). unfold peerKey. simpl. by rewrite Hx0, Hid, Hbk.
      * by apply (Hstat q x).
  - assert (pln_Identifier x = id) as Hid by (unfold peerKey in Hk; by injection Hk).
    assert (dynamic x = flag_test flags PLNF_DYNAMIC) as Hd.
    { rewrite Hdyn. destruct (Z.eqb_spec id UNDEFINED_REGISTRAR_IDENTIFIER) as [->|Hne]; simpl.
      - apply not_true_is_false. intros Hdx. by apply (sv_dynamic _ Hs q x).
      - by apply (Hknown q x); [apply entry_entries|]. }
    assert (dynamic (renewed flags x) = flag_test flags PLNF_DYNAMIC) as Hd' by apply test_clear_new.
    assert (dynamic x = false → blockKey (pln_AddressBlock x) = blockKey t) as Hbk.
    { rewrite Hd, Hdyn. intros Hi0%negb_false_iff. unfold peerKey in Hk. simpl in Hk. rewrite Hid, Hi0 in Hk. by injection Hk. }
    split; [|split_and!; [done|done|rewrite Hd'; rewrite <- Hd; exact Hbk]].
    eapply (statics_change pl pl' q x); try done; [congruence|]. intros Hdx. by apply (sv_dynamic _ Hs q x).
Qed.

Section disposer.
Context (d : option (ptr → M PL ())) (Hd : peer_disposer_ok d).

Lemma wp_finishEntry m duplicated h t now q n : let pl := plm_List m in
  plm_inv m → handlespace_ok h → block_ok t → entries pl q = Some n →
  (dynamic n = false → blockKey (pln_AddressBlock n) = blockKey t) →
  (dynamic n = true ↔ pln_Identifier n ≠ UNDEFINED_REGISTRAR_IDENTIFIER) →
  wp (finishEntry d duplicated h t now q) (λ r m', plm_inv m' ∧
    if copied duplicated t then r = (Some q, RSPERR_OKAY) ∧ set_entry pl q (refreshed h t now n) (plm_List m')
    else r = (None, RSPERR_OUT_OF_MEMORY) ∧ (∀ x, entries (plm_List m') x = if decide (x = q) then None else entries pl x) ∧
      timers (plm_List m') = l_remove q (timers pl) ∧ pl_OwnIdentifier (plm_List m') = pl_OwnIdentifier pl) m.
Proof.
  intros pl [Hi Hs] Hh Hbt Hq Hbk Hid. pose proof Hq as [Hqi Hql]%entries_Some. fold pl in Hi, Hs.
  destruct (pv_lookup _ pl q Hi Hqi) as (n0 & Hn0 & Hb). rewrite Hql in Hn0. injection Hn0 as <-. unfold finishEntry.
  apply wp_bind, wp_onList. eapply wp_peer_update; [done|]. fold pl. set (n1 := pln_set_LastUpdateTimeStamp now n).
  set (pl1 := peer_store q n1 pl).
  assert (pl_inv (new_nodes m) pl1) as Hi1 by (by eapply pl_inv_store).
  assert (∀ x, entries pl1 x = if decide (x = q) then Some n1 else entries pl x) as He1 by (intros x; by apply entries_store).
  assert (statics pl1) as Hs1 by (by eapply (statics_change pl pl1 q n n1); try done; intros; apply Hid).
  destruct (transportAddressBlockDuplicate duplicated t) as [t'|] eqn:Hdup.
  - assert (t = Some t' ∧ copied duplicated t = true) as [-> Hcop].
    { destruct t as [t0|]; [|done]. simpl in *. destruct duplicated; [|done]. by simplify_eq. }
    apply wp_bind, wp_onList. eapply wp_peer_update; [apply lookup_insert_eq|]. apply wp_bind, wp_onList.
    eexists _, _. split; [apply refresh_run; [done|apply lookup_insert_eq]|]. apply wp_ret. rewrite Hcop. simpl.
    set (pl2 := peer_store q _ (peer_store q _ pl1)).
    assert (∀ x, entries pl2 x = if decide (x = q) then Some (refreshed h (Some t') now n) else entries pl x) as He2.
    { intros x. unfold pl2. rewrite entries_store by done. case_decide; [done|]. rewrite entries_store by done.
      by rewrite decide_False, He1, decide_False. }
    split; [split|by split_and!]; simpl.
    + eapply pl_inv_store; [eapply pl_inv_store; [exact Hi1|apply lookup_insert_eq|]|apply lookup_insert_eq|]; intros _.
      * split_and!; try done. simpl. intros Hid0. symmetry. apply Hbk, not_true_is_false. by intros Hdn%Hid.
      * by apply summed_role.
    + eapply (statics_change pl pl2 q n (refreshed h (Some t') now n)); try done; [by destruct h|intros; destruct h; by apply Hid|].
      intros Hdn. symmetry. rewrite Hbk by done. by destruct h.
  - assert (copied duplicated t = false) as Hcop by (by destruct t, duplicated).
    apply wp_bind, wp_onList. eapply wp_mono; [apply (wp_deregister d Hd _ pl1 q n1 Hi1 Hs1); by rewrite He1, decide_True|].
    intros r pl2 (-> & Hi2 & Hs2 & He2 & Ht2 & Hown2). apply wp_ret. split; [by split|]. rewrite Hcop.
    assert (kept n1 = false) as Hk.
    { unfold kept. change (flag_test (pln_Flags n1) PLNF_DYNAMIC) with (dynamic n). destruct (dynamic n) eqn:Hdn; [done|].
      simpl. destruct (Z.eqb_spec (pln_Identifier n) UNDEFINED_REGISTRAR_IDENTIFIER) as [|Hne]; [done|]. apply Hid in Hne. done. }
    split_and!; [done| |done..]. intros x. simpl. rewrite He2, He1. unfold deregistered. rewrite Hk. by repeat case_decide.
Qed.

Lemma wp_createOrUpdate m peerNode duplicated h id flags t now : let pl := plm_List m in
  plm_inv m → creatable pl id flags t → fresh_node m peerNode → handlespace_ok h →
  wp (createOrUpdateEntry d peerNode duplicated h id flags t now) (λ r m', plm_inv m' ∧
    match node_memory m peerNode with
    | None => r = (None, RSPERR_OUT_OF_MEMORY) ∧ m' = m
    | Some p =>
        if own_id pl id then r = (None, RSPERR_OWN_ID) ∧ (∀ q, entries (plm_List m') q = entries pl q) ∧
          timers (plm_List m') = timers pl ∧ pl_OwnIdentifier (plm_List m') = pl_OwnIdentifier pl
        else ∃ q n, added pl p id flags t q n ∧
          if copied duplicated t then r = (Some q, RSPERR_OKAY) ∧ set_entry pl q (refreshed h t now n) (plm_List m')
          else r = (None, RSPERR_OUT_OF_MEMORY) ∧ (∀ x, entries (plm_List m') x = if decide (x = q) then None else entries pl x) ∧
            timers (plm_List m') = l_remove q (timers pl) ∧ pl_OwnIdentifier (plm_List m') = pl_OwnIdentifier pl
    end) m.
Proof.
  intros pl Hm Hc Hf Hh. pose proof Hm as [Hi Hs]. unfold createOrUpdateEntry. apply wp_bind, wp_get. fold (node_memory m peerNode).
  destruct (node_memory m peerNode) as [p|] eqn:Hp; [|by apply wp_ret].
  destruct (allocate_inv m peerNode p (peerListNodeNew id flags t) Hm Hf Hp) as [Hi1 He1]. fold pl in Hi1, He1 |- *.
  set (pl1 := peer_store p _ pl) in *. apply wp_bind, wp_put, wp_bind, wp_onList. simpl.
  eapply wp_mono; [apply (wp_addOrUpdate pl1 p id flags t Hi1); [apply lookup_insert_eq|apply Hc]|].
  intros r pl2 (Ht2 & Hown2 & Hr). change (own_id pl1 id) with (own_id pl id) in Hr. destruct (own_id pl id) eqn:Ho.
  { destruct Hr as [-> ->]. apply wp_bind, wp_ret, wp_ret. split; [|done]. split; [done|]. eapply statics_subset; [exact Hs|].
    intros q x. simpl. by rewrite He1. }
  destruct Hr as (q & n & used & -> & Hadd & Hi2 & Hused & He2).
  assert (added pl p id flags t q n) as Hadd'.
  { destruct Hadd as [Hnew|q x Hx Hk]; [apply added_new; intros q x; rewrite <- He1; apply Hnew|].
    apply added_known; [by rewrite <- He1|done]. }
  assert (∀ x, entries pl2 x = if decide (x = q) then Some n else entries pl x) as He2' by (intros x; by rewrite He2, He1).
  destruct (added_statics pl pl2 p id flags t q n Hs Hc Hadd' He2') as (Hs2 & Hid & Hdyn & Hbk).
  apply (wp_bind (if used then _ else _)). eapply (wp_mono _ (λ _ m2, m2 = MkPeerListManagement pl2 (if used then None else Some p))).
  { destruct used; [by apply wp_modify|by apply wp_ret]. }
  intros [] ? ->. set (new := if used then None else Some p) in *.
  assert (pl_inv (new_nodes (MkPeerListManagement pl2 new)) pl2) as Hi2' by (by destruct used).
  assert (entries pl2 q = Some n) as Hq2 by (by rewrite He2', decide_True). pose proof Hq2 as [Hqi Hql]%entries_Some.
  destruct (pv_lookup _ pl2 q Hi2' Hqi) as (n0 & Hn0 & Hb). rewrite Hql in Hn0. injection Hn0 as <-. simpl. apply wp_bind, wp_deref with q; [done|].
  eapply wp_mono; [apply (wp_finishEntry (MkPeerListManagement pl2 new) duplicated h t now q n); try done; [apply Hc|]|].
  { rewrite Hdyn, (cr_dynamic _ _ _ _ Hc), Hid, negb_true_iff. apply Z.eqb_neq. }
  intros r m' [Hm' Hr]. split; [done|]. exists q, n. split; [done|]. simpl in Hr.
  assert (∀ q' v, (λ x, if decide (x = q) then v else entries pl2 x) q' = if decide (q' = q) then v else entries pl q') as He3.
  { intros q' v. simpl. case_decide; [done|]. by rewrite He2', decide_False. }
  simpl in He3. destruct (copied duplicated t); destruct Hr as [-> Hr].
  - destruct Hr as (He & Ht & Hown). split; [done|]. split_and!; [intros x; by rewrite He, He3|by rewrite Ht|by rewrite Hown].
  - destruct Hr as (He & Ht & Hown). split_and!; [done|intros x; by rewrite He, He3|rewrite Ht; by f_equal|by rewrite Hown].
Qed.
End disposer.
End register.
