(* ===== verification/PeerListTheorems.v ===== *)
(** * What the peer list guarantees

    The management interface of the peer list over any sequence of
    operations, and the two situations in which it does not keep its own
    order. *)

From S2P Require Import Prelude Checksum Addresses PoolBasics Storage RedBlackTree RedBlackTreeStorage PoolElement PoolPolicy HandlespaceState PoolNode PoolEffects PoolSelection HandlespaceNode HandlespaceInv HandlespaceWalks HandlespaceVerify HandlespaceMgt HandlespaceMgtInv HandlespaceRegistration HandlespaceSteps HandlespaceTheorems PeerList PeerListInv PeerListOps PeerListSteps PeerListRegister.
From stdpp Require Import base list gmap numbers option sorting sets relations.
#[local] Open Scope Z_scope.

Section peerlist.
Context {ST : Type} `{SL : StorageLaws ST} `{En : Endian}.
Abbreviation PL := (PeerList ST).
Abbreviation PLM := (PeerListManagement ST).
Implicit Types (pl : PL) (p q : ptr) (n : PeerListNode) (m : PLM) (h : option (Handlespace ST)).
Abbreviation index pl := (st_list (pl_PeerListIndexStorage pl)).
Abbreviation timers pl := (st_list (pl_PeerListTimerStorage pl)).

(** ** Registration *)

(** Two things a caller must not do: give an identifier to a static entry
    that has another one and a running timer, and configure the addresses
    of a static entry that is known by an identifier once more. *)
Record registrable m (id flags : Z) (t : option TransportAddressBlock) : Prop := {
  rg_block : block_ok t;
  rg_dynamic p n : flag_test flags PLNF_DYNAMIC = true → own_id (plm_List m) id = false → no_entry (plm_List m) id →
    head (filter (overlaps (plm_List m) t) (index (plm_List m))) = Some p → entries (plm_List m) p = Some n →
    dynamic n = false → p ∉ timers (plm_List m);
  rg_static p n : flag_test flags PLNF_DYNAMIC = false → entries (plm_List m) p = Some n → dynamic n = false →
    pln_Identifier n ≠ UNDEFINED_REGISTRAR_IDENTIFIER → blockKey (pln_AddressBlock n) ≠ blockKey t
}.

(** What a registration does, on each of its branches. *)
Inductive peer_registration m (peerNode : option ptr) (duplicated : bool) h (id flags : Z) (t : option TransportAddressBlock)
    (now : Z) : option ptr * Z → PLM → Prop :=
| peer_invalid : flag_test flags PLNF_DYNAMIC = (id =? UNDEFINED_REGISTRAR_IDENTIFIER) →
    peer_registration m peerNode duplicated h id flags t now (None, RSPERR_INVALID_ID) m
| peer_static p n m' : flag_test flags PLNF_DYNAMIC = true → static_entry (plm_List m) id t (Some p) →
    entries (plm_List m) p = Some n → set_entry (plm_List m) p (summed h (identified (plm_List m) id n)) (plm_List m') →
    peer_registration m peerNode duplicated h id flags t now
      (Some p, if own_id (plm_List m) id then RSPERR_OWN_ID else RSPERR_OKAY) m'
| peer_no_memory : node_memory m peerNode = None →
    peer_registration m peerNode duplicated h id flags t now (None, RSPERR_OUT_OF_MEMORY) m
| peer_own m' : own_id (plm_List m) id = true → (∀ q, entries (plm_List m') q = entries (plm_List m) q) →
    timers (plm_List m') = timers (plm_List m) →
    peer_registration m peerNode duplicated h id flags t now (None, RSPERR_OWN_ID) m'
| peer_done p q n m' : node_memory m peerNode = Some p → added (plm_List m) p id flags t q n → copied duplicated t = true →
    set_entry (plm_List m) q (refreshed h t now n) (plm_List m') →
    peer_registration m peerNode duplicated h id flags t now (Some q, RSPERR_OKAY) m'
| peer_uncopied p q n m' : node_memory m peerNode = Some p → added (plm_List m) p id flags t q n →
    copied duplicated t = false →
    (∀ x, entries (plm_List m') x = if decide (x = q) then None else entries (plm_List m) x) →
    timers (plm_List m') = l_remove q (timers (plm_List m)) →
    peer_registration m peerNode duplicated h id flags t now (None, RSPERR_OUT_OF_MEMORY) m'.

Section disposer.
Context (d : option (ptr → M PL ())) (Hd : peer_disposer_ok d).

Lemma wp_create m peerNode duplicated h id flags t now : plm_inv m → creatable (plm_List m) id flags t →
  fresh_node m peerNode → handlespace_ok h →
  wp (createOrUpdateEntry d peerNode duplicated h id flags t now)
    (λ r m', plm_inv m' ∧ peer_registration m peerNode duplicated h id flags t now r m') m.
Proof.
  intros Hm Hc Hf Hh. eapply wp_mono; [by apply wp_createOrUpdate|]. intros r m' [Hm' Hr]. split; [done|].
  destruct (node_memory m peerNode) as [p|] eqn:Hp; [|destruct Hr as [-> ->]; by apply peer_no_memory].
  destruct (own_id (plm_List m) id) eqn:Ho; [destruct Hr as (-> & ? & ? & _); by apply peer_own|].
  destruct Hr as (q & n & Hadd & Hr). destruct (copied duplicated t) eqn:Hcop.
  - destruct Hr as [-> ?]. by eapply peer_done.
  - destruct Hr as (-> & ? & ? & _). by eapply peer_uncopied.
Qed.

Lemma wp_register m peerNode duplicated h id flags t now : plm_inv m → registrable m id flags t →
  fresh_node m peerNode → handlespace_ok h →
  wp (peerListManagementRegisterPeerListNode d peerNode duplicated h id flags t now)
    (λ r m', plm_inv m' ∧ peer_registration m peerNode duplicated h id flags t now r m') m.
Proof.
  intros Hm Hg Hf Hh. pose proof Hm as [Hi Hs]. unfold peerListManagementRegisterPeerListNode.
  destruct (flag_test flags PLNF_DYNAMIC) eqn:Hdyn, (Z.eqb_spec id UNDEFINED_REGISTRAR_IDENTIFIER) as [Hid|Hid]; simpl.
  - apply wp_ret. split; [done|]. apply peer_invalid. rewrite Hdyn. symmetry. by apply Z.eqb_eq.
  - destruct (findStaticEntry_run _ m id t Hi Hid (rg_block _ _ _ _ Hg)) as (r & Hr & Hst). eapply wp_step; [exact Hr|].
    destruct r as [p|]; cbv beta iota.
    + apply wp_bind, wp_onList.
      assert (∃ n, entries (plm_List m) p = Some n ∧ dynamic n = false ∧ (pln_Identifier n = id ∨
        (no_entry (plm_List m) id ∧ (own_id (plm_List m) id = false → p ∉ timers (plm_List m))))) as (n & Hn & Hdn & Hor).
      { inversion Hst as [? n Hn Hdn|? n Hno Hh0 Hn Hdn| |]; subst.
        - apply entry_entries in Hn as [? ?]. eauto.
        - exists n. split_and!; try done. right. split; [done|]. intros Ho. by eapply (rg_dynamic _ _ _ _ Hg). }
      eapply wp_mono; [by eapply (wp_updateStatic (new_nodes m) (plm_List m) p n id h)|].
      intros r pl' (-> & Hi' & Hs' & Hse). apply wp_ret. split; [by split|]. by eapply peer_static.
    + apply wp_create; try done. split; [rewrite Hdyn; symmetry; by apply negb_true_iff, Z.eqb_neq| |done|apply Hg].
      intros p n Hn _. inversion Hst as [| |p' n' Hn' Hdn|Hno]; subst; [|by apply Hno in Hn].
      assert (p = p') as -> by (by eapply entry_inj). destruct Hn as (_ & Hn & _), Hn' as (_ & Hn' & _). congruence.
  - apply wp_create; try done. split; [rewrite Hdyn; symmetry; by apply negb_false_iff, Z.eqb_eq|done| |apply Hg].
    intros p n _. by apply (rg_static _ _ _ _ Hg).
  - apply wp_ret. split; [done|]. apply peer_invalid. rewrite Hdyn. symmetry. by apply Z.eqb_neq.
Qed.

(** ** Deregistration *)

Definition peer_found pl (id : Z) (t : option TransportAddressBlock) (r : option ptr) : Prop :=
  if decide (id = UNDEFINED_REGISTRAR_IDENTIFIER) then r = head (filter (overlaps pl t) (index pl))
  else match r with Some p => ∃ n, entry pl id p n | None => no_entry pl id end.

Lemma findPeer_run X pl id t : pl_inv X pl → block_ok t →
  ∃ r, peerListFindPeerListNode id t pl = Some (r, pl) ∧ peer_found pl id t r ∧ (∀ p, r = Some p → ∃ n, entries pl p = Some n).
Proof.
  intros Hi Ht. unfold peer_found. case_decide as Hid.
  - subst id. eexists. split; [by eapply findByAddress_run|]. split; [done|]. intros p Hp.
    assert (p ∈ filter (overlaps pl t) (index pl)) as [_ Hin]%list_elem_of_filter by (by apply head_Some_elem_of).
    destruct (pv_lookup _ pl p Hi Hin) as (n & Hn & _). exists n. by apply entries_Some.
  - destruct (findById_run X pl id t Hi Hid Ht) as (r & Hr & Hspec). exists r. split; [done|]. split; [done|].
    intros p ->. destruct Hspec as [n [Hn _]%entry_entries]. eauto.
Qed.

(** What a deregistration of the entry [p] leaves. *)
Definition without_entry m p n m' : Prop :=
  (∀ q, entries (plm_List m') q = if decide (q = p) then PeerListSteps.deregistered n else entries (plm_List m) q) ∧
  timers (plm_List m') = l_remove p (timers (plm_List m)).

Lemma wp_deregisterPtr m p n : plm_inv m → entries (plm_List m) p = Some n →
  wp (onList (peerListManagementDeregisterPeerListNodeByPtr d p)) (λ r m', r = RSPERR_OKAY ∧ plm_inv m' ∧ without_entry m p n m') m.
Proof.
  intros [Hi Hs] Hn. apply wp_onList. eapply wp_mono; [by apply (wp_deregister d Hd _ _ _ _ Hi Hs Hn)|].
  intros r pl (-> & Hi' & Hs' & He & Ht & _). done.
Qed.

Lemma wp_deregisterPeerListNode m id t : plm_inv m → block_ok t →
  wp (peerListManagementDeregisterPeerListNode d id t) (λ r m', plm_inv m' ∧
    ((∃ p n, r = RSPERR_OKAY ∧ peer_found (plm_List m) id t (Some p) ∧ entries (plm_List m) p = Some n ∧ without_entry m p n m') ∨
     (r = RSPERR_NOT_FOUND ∧ peer_found (plm_List m) id t None ∧ m' = m))) m.
Proof.
  intros Hm Ht. pose proof Hm as [Hi Hs]. destruct (findPeer_run _ _ id t Hi Ht) as (r & Hr & Hf & Hin).
  unfold peerListManagementDeregisterPeerListNode. eapply wp_step; [by apply onList_same|]. destruct r as [p|].
  - destruct (Hin p eq_refl) as [n Hn]. eapply wp_mono; [by eapply wp_deregisterPtr|]. intros r m' (-> & ? & ?). split; [done|]. left. eauto 7.
  - apply wp_ret. auto.
Qed.

(** ** Timers *)

Definition timed n (timeout : Z) : PeerListNode :=
  timer_set PLNT_MAX_TIME_NO_RESPONSE (u64 (pln_LastUpdateTimeStamp n + timeout)) n.

Lemma wp_restart m p n timeout : plm_inv m → entries (plm_List m) p = Some n → pln_Identifier n ≠ UNDEFINED_REGISTRAR_IDENTIFIER →
  wp (peerListManagementRestartPeerListNodeExpiryTimer p timeout) (λ _ m', plm_inv m' ∧
    (∀ q, entries (plm_List m') q = if decide (q = p) then Some (timed n timeout) else entries (plm_List m) q) ∧
    (∀ q, q ∈ timers (plm_List m') ↔ q = p ∨ q ∈ timers (plm_List m))) m.
Proof.
  intros [Hi Hs] Hn Hid. apply wp_onList. eapply wp_mono; [by apply (wp_restartTimer _ _ _ _ timeout Hi Hs Hn)|].
  intros [] pl (Hi' & Hs' & He & Ht & _). done.
Qed.

Lemma wp_activate m p n code ts : plm_inv m → entries (plm_List m) p = Some n →
  pln_Identifier n ≠ UNDEFINED_REGISTRAR_IDENTIFIER → p ∉ timers (plm_List m) →
  wp (peerListManagementActivateTimer p code ts) (λ _ m', plm_inv m' ∧
    (∀ q, entries (plm_List m') q = if decide (q = p) then Some (timer_set code ts n) else entries (plm_List m) q) ∧
    (∀ q, q ∈ timers (plm_List m') ↔ q = p ∨ q ∈ timers (plm_List m)) ∧
    pl_OwnIdentifier (plm_List m') = pl_OwnIdentifier (plm_List m)) m.
Proof.
  intros [Hi Hs] Hn Hid Hp. apply wp_onList. eapply wp_mono; [by apply (wp_activateTimer _ _ _ _ code ts Hi Hs Hn)|].
  intros [] pl (Hi' & Hs' & He & Ht & Hown). done.
Qed.

Lemma wp_stopTimer m p : plm_inv m →
  wp (peerListManagementDeactivateTimer p) (λ _ m', plm_inv m' ∧ (∀ q, entries (plm_List m') q = entries (plm_List m) q) ∧
    timers (plm_List m') = l_remove p (timers (plm_List m)) ∧ pl_OwnIdentifier (plm_List m') = pl_OwnIdentifier (plm_List m)) m.
Proof.
  intros [Hi Hs]. apply wp_onList. eapply wp_mono; [by apply (wp_deactivate (new_nodes m))|].
  intros [] pl (Hi' & Hs' & He & Ht & Hown). done.
Qed.

Lemma wp_purgeExpired m now : plm_inv m → purge_timers (plm_List m) →
  wp (peerListManagementPurgeExpiredPeerListNodes d now) (λ r m', plm_inv m' ∧
    r = Z.of_nat (length (filter (due (plm_List m) now) (timers (plm_List m)))) ∧
    (∀ q, entries (plm_List m') q =
      if due (plm_List m) now q then entries (plm_List m) q ≫= PeerListSteps.deregistered else entries (plm_List m) q) ∧
    timers (plm_List m') = filter (λ q, ¬ due (plm_List m) now q) (timers (plm_List m))) m.
Proof.
  intros [Hi Hs] Hc. apply wp_onList. eapply wp_step; [done|]. eapply wp_step; [apply peerFirst_run, Hi|].
  eapply wp_mono; [by apply (wp_purge d Hd (new_nodes m) now)|]. intros r pl (-> & Hi' & Hs' & He & Ht & _). done.
Qed.

(** ** Notifications *)

Definition adjusted (f : Z → Z) n : PeerListNode := pln_set_OwnershipChecksum (f (pln_OwnershipChecksum n)) n.

Lemma wp_adjust m f id : plm_inv m → wp (onList (adjustOwnershipChecksum f id)) (λ _ m', plm_inv m' ∧
  timers (plm_List m') = timers (plm_List m) ∧ ∃ r, peer_found (plm_List m) id None r ∧
  ∀ q, entries (plm_List m') q = (if decide (Some q = r) then adjusted f <$> entries (plm_List m) q else entries (plm_List m) q)) m.
Proof.
  intros Hm. pose proof Hm as [Hi Hs]. destruct (findPeer_run _ _ id None Hi) as (r & Hr & Hf & Hin); [done|].
  apply wp_onList. unfold adjustOwnershipChecksum. eapply wp_step; [exact Hr|]. destruct r as [p|].
  - destruct (Hin p eq_refl) as [n Hn]. pose proof Hn as [Hp Hl]%entries_Some. eapply wp_peer_update; [done|].
    destruct (pv_lookup _ _ p Hi Hp) as (n0 & Hn0 & Hb). rewrite Hl in Hn0. injection Hn0 as <-.
    assert (∀ q, entries (peer_store p (adjusted f n) (plm_List m)) q = if decide (q = p) then Some (adjusted f n) else entries (plm_List m) q)
      as He by (intros q; by apply entries_store). split; [split; simpl|split; [done|]].
    + eapply pl_inv_store; [done..|]. by intros _.
    + eapply (statics_change (plm_List m) _ p n (adjusted f n)); try done. intros Hdn. by apply (sv_dynamic _ Hs p n).
    + exists (Some p). split; [done|]. intros q. etrans; [exact (He q)|].
      destruct (decide (q = p)) as [->|Hne]; [by rewrite decide_True, Hn|]. by rewrite decide_False by congruence.
  - apply wp_ret. destruct m. split; [done|]. split; [done|]. by exists None.
Qed.

Lemma wp_onList_seq (f g : M PL ()) Q m : wp (onList f) (λ _ m1, wp (onList g) Q m1) m → wp (onList (f;; g)) Q m.
Proof.
  intros (a & m1 & Hf & b & m2 & Hg & HQ). exists b, m2. split; [|done]. unfold onList, mbind, M_bind in *.
  destruct (f (plm_List m)) as [[? pl1]|]; simplify_eq. simpl in Hg. by destruct (g pl1) as [[? ?]|]; simplify_eq.
Qed.

Lemma wp_notification m nf : plm_inv m →
  wp (onList (peerListManagementPoolNodeUpdateNotification nf)) (λ _ m', plm_inv m') m.
Proof.
  intros Hm. unfold peerListManagementPoolNodeUpdateNotification. destruct (nf_Action nf).
  - eapply wp_mono; [by apply wp_adjust|]. by intros [] m' [? _].
  - eapply wp_mono; [by apply wp_adjust|]. by intros [] m' [? _].
  - apply wp_onList_seq. eapply wp_mono; [by apply wp_adjust|]. intros [] m1 [Hm1 _].
    eapply wp_mono; [by apply wp_adjust|]. by intros [] m2 [? _].
Qed.

(** ** Sequences of operations *)

Inductive peer_operation :=
| PeerRegister (peerNode : option ptr) (duplicated : bool) h (id flags : Z) (t : option TransportAddressBlock) (now : Z)
| PeerDeregister (id : Z) (t : option TransportAddressBlock)
| PeerDeregisterPtr p
| PeerRestartTimer p (timeout : Z)
| PeerActivateTimer p (code ts : Z)
| PeerDeactivateTimer p
| PeerPurge (now : Z)
| PeerNotification (nf : Notification).

Definition perform (op : peer_operation) : M PLM () :=
  match op with
  | PeerRegister peerNode duplicated h id flags t now =>
      _ ← peerListManagementRegisterPeerListNode d peerNode duplicated h id flags t now; mret tt
  | PeerDeregister id t => _ ← peerListManagementDeregisterPeerListNode d id t; mret tt
  | PeerDeregisterPtr p => _ ← onList (peerListManagementDeregisterPeerListNodeByPtr d p); mret tt
  | PeerRestartTimer p timeout => peerListManagementRestartPeerListNodeExpiryTimer p timeout
  | PeerActivateTimer p code ts => peerListManagementActivateTimer p code ts
  | PeerDeactivateTimer p => peerListManagementDeactivateTimer p
  | PeerPurge now => _ ← peerListManagementPurgeExpiredPeerListNodes d now; mret tt
  | PeerNotification nf => onList (peerListManagementPoolNodeUpdateNotification nf)
  end.

(** What a caller has to respect. *)
Definition permitted m (op : peer_operation) : Prop :=
  match op with
  | PeerRegister peerNode duplicated h id flags t now => registrable m id flags t ∧ fresh_node m peerNode ∧ handlespace_ok h
  | PeerDeregister id t => block_ok t
  | PeerDeregisterPtr p => is_Some (entries (plm_List m) p)
  | PeerRestartTimer p timeout =>
      ∃ n, entries (plm_List m) p = Some n ∧ pln_Identifier n ≠ UNDEFINED_REGISTRAR_IDENTIFIER
  | PeerActivateTimer p code ts => p ∉ timers (plm_List m) ∧
      ∃ n, entries (plm_List m) p = Some n ∧ pln_Identifier n ≠ UNDEFINED_REGISTRAR_IDENTIFIER
  | PeerDeactivateTimer p => True
  | PeerPurge now => purge_timers (plm_List m)
  | PeerNotification nf => True
  end.

Inductive plm_step m : PLM → Prop :=
| peer_step op m' : permitted m op → perform op m = Some (tt, m') → plm_step m m'.

Lemma wp_discard {A} (f : M PLM A) m (Q : A → PLM → Prop) : wp f (λ a m', Q a m' ∧ plm_inv m') m → wp (_ ← f; mret tt) (λ _ m', plm_inv m') m.
Proof. intros Hf. apply wp_bind. eapply wp_mono; [exact Hf|]. intros a m' [_ Hm']. by apply wp_ret. Qed.

Lemma perform_ok m op : plm_inv m → permitted m op → wp (perform op) (λ _ m', plm_inv m') m.
Proof.
  intros Hm Hop. destruct op; simpl in *.
  - destruct Hop as (? & ? & ?). apply wp_bind. eapply wp_mono; [by apply wp_register|]. intros ? ? [? _]. by apply wp_ret.
  - apply wp_bind. eapply wp_mono; [by apply wp_deregisterPeerListNode|]. intros ? ? [? _]. by apply wp_ret.
  - destruct Hop as [n Hn]. apply wp_bind. eapply wp_mono; [by eapply wp_deregisterPtr|]. intros ? ? (_ & ? & _). by apply wp_ret.
  - destruct Hop as (n & Hn & Hid). eapply wp_mono; [by eapply wp_restart|]. by intros ? ? [? _].
  - destruct Hop as (Hp & n & Hn & Hid). eapply wp_mono; [by eapply wp_activate|]. by intros ? ? [? _].
  - eapply wp_mono; [by apply wp_stopTimer|]. by intros ? ? [? _].
  - apply wp_bind. eapply wp_mono; [by apply wp_purgeExpired|]. intros ? ? [? _]. by apply wp_ret.
  - by apply wp_notification.
Qed.

Lemma plm_inv_new own : plm_inv (peerListManagementNew own).
Proof.
  split; [apply pl_inv_new|]. assert (∀ q, entries (peerListNew own : PL) q = None) as He.
  { intros q. unfold entries. by case_decide. }
  split; intros *; by rewrite He.
Qed.

Lemma plm_verify m : plm_inv m → peerListManagementVerify m = Some (tt, m).
Proof.
  intros [Hi _]. apply onList_same. unfold peerListVerify. erewrite run_bind; [|apply peerVerify_run, Hi]. apply peerVerify_run, Hi.
Qed.

(** C25: Starting from an empty peer list, any sequence of registrations,
    deregistrations, timer restarts, purges and notifications of the
    handlespace that respects [permitted] leaves a list whose two storages
    are consistent ([peerListVerify] succeeds), and every further permitted
    operation runs to its end: no CHECK fails, no invalid pointer is
    followed and no loop runs forever. *)
Theorem peerList_reachable own m : rtc plm_step (peerListManagementNew own) m →
  plm_inv m ∧ peerListManagementVerify m = Some (tt, m) ∧
  ∀ op, permitted m op → ∃ m', perform op m = Some (tt, m') ∧ plm_inv m'.
Proof.
  intros Hr. assert (plm_inv m) as Hm.
  { remember (peerListManagementNew own) as m0 eqn:Heq. assert (plm_inv m0) as H0 by (subst; apply plm_inv_new).
    clear Heq. induction Hr as [|m1 m2 m3 [op m' Hop Hrun] _ IH]; [done|]. apply IH.
    destruct (perform_ok m1 op H0 Hop) as (? & ? & Hrun' & ?). by simplify_eq. }
  split; [done|]. split; [by apply plm_verify|]. intros op Hop. destruct (perform_ok m op Hm Hop) as ([] & m' & ? & ?). eauto.
Qed.


(** A deregistration removes exactly the entry it finds (by identifier,
    or without one the first with a common address) and its timer; a static
    entry that was known by its identifier stays, without identifier.
    [RSPERR_NOT_FOUND] changes nothing. *)
Theorem deregisterPeer_spec m id t : plm_inv m → block_ok t → ∃ r m',
  peerListManagementDeregisterPeerListNode d id t m = Some (r, m') ∧ plm_inv m' ∧
  ((∃ p n, r = RSPERR_OKAY ∧ peer_found (plm_List m) id t (Some p) ∧ entries (plm_List m) p = Some n ∧ without_entry m p n m') ∨
   (r = RSPERR_NOT_FOUND ∧ peer_found (plm_List m) id t None ∧ m' = m)).
Proof. intros. by apply wp_deregisterPeerListNode. Qed.

(** Purging deregisters exactly the peers whose timer has run out, and
    says how many they were; the timers of the others keep their order. *)
Theorem purgeExpiredPeers_exact m now : plm_inv m → purge_timers (plm_List m) → ∃ r m',
  peerListManagementPurgeExpiredPeerListNodes d now m = Some (r, m') ∧ plm_inv m' ∧
  r = Z.of_nat (length (filter (due (plm_List m) now) (timers (plm_List m)))) ∧
  (∀ q, entries (plm_List m') q =
    if due (plm_List m) now q then entries (plm_List m) q ≫= PeerListSteps.deregistered else entries (plm_List m) q) ∧
  timers (plm_List m') = filter (λ q, ¬ due (plm_List m) now q) (timers (plm_List m)).
Proof. intros. by apply wp_purgeExpired. Qed.
End disposer.
End peerlist.

(** ** A concrete peer list *)

Module PeerDemo.
Export Demo.
Abbreviation peers := (PeerListManagement storage).

Definition peer_block (host port : Z) : option TransportAddressBlock :=
  Some (MkTAB IPPROTO_SCTP port 0 [sockaddr_in [10; 0; 0; host] port]).

Definition peer_demo_register (node : ptr) (id flags host : Z) : M peers (option ptr * Z) :=
  peerListManagementRegisterPeerListNode None (Some node) true (Some (phm_Handlespace demo_two)) id flags (peer_block host 9901) 1000.

Definition peer_after {A} (f : M peers A) (m : peers) : peers := match f m with Some (_, m') => m' | None => m end.

Definition peers_new : peers := peerListManagementNew 1.

(** The static entry 11, then the dynamic peer 2 at 12, with its timer. *)
Definition peers_one := peer_after (peer_demo_register 11 0 PLNF_STATIC 1) peers_new.
Definition peers_two := peer_after (peer_demo_register 12 2 PLNF_DYNAMIC 2) peers_one.
Definition peers_timed := peer_after (peerListManagementRestartPeerListNodeExpiryTimer 12 500) peers_two.

Lemma peer_disposer_none : peer_disposer_ok (ST := storage) None.
Proof. done. Qed.

Lemma handlespace_ok_some (hs : Handlespace storage) : hs_inv hs → handlespace_ok (Some hs).
Proof. by intros Hi hs' [= <-]. Qed.

Lemma demo_handlespace_ok : handlespace_ok (Some (phm_Handlespace demo_two)).
Proof. exact (handlespace_ok_some _ (pm_inv _ demo_two_inv)). Qed.

Lemma peers_one_registrable : registrable peers_new 0 PLNF_STATIC (peer_block 1 9901).
Proof. split; [by apply (bool_decide_unpack _)|done|]. intros p n _ He. by vm_compute in He. Qed.

Lemma fresh_demo (m : peers) (node : ptr) : pl_PeerListNodes (plm_List m) !! node = None → fresh_node m (Some node).
Proof. by intros Hn p _ [= <-]. Qed.

Lemma peer_demo_inv m (node : ptr) id flags host : plm_inv m → registrable m id flags (peer_block host 9901) →
  pl_PeerListNodes (plm_List m) !! node = None → plm_inv (peer_after (peer_demo_register node id flags host) m).
Proof.
  intros Hm Hr Hf. destruct (wp_register None peer_disposer_none m (Some node) true (Some (phm_Handlespace demo_two)) id flags
    (peer_block host 9901) 1000 Hm Hr (fresh_demo _ _ Hf) demo_handlespace_ok) as (r & m' & Hrun & Hm' & _).
  unfold peer_after, peer_demo_register. by rewrite Hrun.
Qed.

Lemma peers_one_inv : plm_inv peers_one.
Proof. apply peer_demo_inv; [apply plm_inv_new|apply peers_one_registrable|done]. Qed.

Lemma peers_two_registrable : registrable peers_one 2 PLNF_DYNAMIC (peer_block 2 9901).
Proof.
  split; [by apply (bool_decide_unpack _)| |]; intros p n Hf.
  - intros _ _ Hh. vm_compute in Hh. discriminate Hh.
  - vm_compute in Hf. discriminate Hf.
Qed.

Lemma peers_two_fresh : fresh_node peers_one (Some 12%positive).
Proof. apply fresh_demo. by vm_compute. Qed.

Lemma peers_two_inv : plm_inv peers_two.
Proof. apply peer_demo_inv; [apply peers_one_inv|apply peers_two_registrable|by vm_compute]. Qed.

Lemma peers_timed_inv : plm_inv peers_timed.
Proof.
  assert (∃ n, entries (plm_List peers_two) 12%positive = Some n ∧ pln_Identifier n ≠ UNDEFINED_REGISTRAR_IDENTIFIER) as (n & Hn & Hid)
    by (eexists; split; [by vm_compute|done]).
  destruct (wp_restart peers_two 12%positive n 500 peers_two_inv Hn Hid) as (r & m' & Hrun & Hm' & _).
  unfold peers_timed, peer_after. by rewrite Hrun.
Qed.

Lemma peers_timed_codes : purge_timers (plm_List peers_timed).
Proof.
  intros p n Hp Hn. assert (st_list (pl_PeerListTimerStorage (plm_List peers_timed)) = [12%positive]) as Heq by (vm_compute; reflexivity).
  rewrite Heq in Hp. apply list_elem_of_singleton in Hp. subst p. vm_compute in Hn. injection Hn as <-. reflexivity.
Qed.
End PeerDemo.
Import PeerDemo.

Lemma peerList_reachable_witness :
  rtc (plm_step None) peers_new peers_one ∧ plm_inv peers_one ∧ peerListManagementVerify peers_one = Some (tt, peers_one).
Proof.
  assert (rtc (plm_step None) peers_new peers_one) as Hr.
  { apply rtc_once. apply (peer_step None peers_new
      (PeerRegister (Some 11%positive) true (Some (phm_Handlespace demo_two)) 0 PLNF_STATIC (peer_block 1 9901) 1000)); [|by vm_compute].
    split; [exact peers_one_registrable|]. split; [by apply fresh_demo|exact demo_handlespace_ok]. }
  split; [exact Hr|].
  destruct (peerList_reachable None peer_disposer_none 1 peers_one Hr) as (H1 & H2 & _). split; assumption.
Defined.


Lemma deregisterPeer_spec_witness : ∃ r m', peerListManagementDeregisterPeerListNode None 2 None peers_timed = Some (r, m') ∧ plm_inv m' ∧
  ((∃ p n, r = RSPERR_OKAY ∧ peer_found (plm_List peers_timed) 2 None (Some p) ∧ entries (plm_List peers_timed) p = Some n ∧
      without_entry peers_timed p n m') ∨
   (r = RSPERR_NOT_FOUND ∧ peer_found (plm_List peers_timed) 2 None None ∧ m' = peers_timed)).
Proof. exact (deregisterPeer_spec None peer_disposer_none peers_timed 2 None peers_timed_inv I). Defined.

Lemma purgeExpiredPeers_exact_witness : ∃ r m',
  peerListManagementPurgeExpiredPeerListNodes None 1500 peers_timed = Some (r, m') ∧ plm_inv m'.
Proof.
  destruct (purgeExpiredPeers_exact None peer_disposer_none peers_timed 1500 peers_timed_inv peers_timed_codes) as (r & m' & H1 & H2 & _).
  exists r, m'. split; [exact H1|exact H2].
Defined.

(** ** Outside of [permitted] *)

(** The static entry becomes peer 5 and gets a timer that runs out when
    that of peer 9 does; then the registrar at its address says that its
    identifier is 20. *)
Definition restarted_with_new_identifier : M peers () :=
  _ ← peer_demo_register 11 0 PLNF_STATIC 1;
  _ ← peer_demo_register 12 5 PLNF_DYNAMIC 1;
  peerListManagementRestartPeerListNodeExpiryTimer 11 500;;
  _ ← peer_demo_register 13 9 PLNF_DYNAMIC 2;
  peerListManagementRestartPeerListNodeExpiryTimer 13 500;;
  _ ← peer_demo_register 14 20 PLNF_DYNAMIC 1;
  mret tt.


(** The addresses of a static entry are configured again while it is known
    as peer 5; then peer 5 disappears. *)
Definition configured_twice : M peers () :=
  _ ← peer_demo_register 11 0 PLNF_STATIC 1;
  _ ← peer_demo_register 12 5 PLNF_DYNAMIC 1;
  _ ← peer_demo_register 13 0 PLNF_STATIC 1;
  mret tt.

(** Two static entries with the same addresses can exist as long as one
    of them is known by its identifier; the deregistration of this one
    adds it again without identifier, and the CHECK that this works
    terminates the program. *)
Theorem static_duplicate_aborts : ∃ m, configured_twice peers_new = Some (tt, m) ∧ peerListManagementVerify m = Some (tt, m) ∧
  peerListManagementDeregisterPeerListNode None 5 None m = None.
Proof. eexists. split; [by vm_compute|]. split; by vm_compute. Qed.
