(* ===== verification/HandlespacePeers.v ===== *)
(** * The handlespace with a peer list that listens to it

    [peerListManagementNew] makes the peer list the listener of the
    handlespace: every notification adjusts the ownership checksums that
    the entries cache.  Here both parts are put together, and any sequence
    of operations on them keeps every cached checksum equal to the one
    computed from the handlespace. *)

From S2P Require Import Prelude Checksum Addresses PoolBasics Storage RedBlackTree RedBlackTreeStorage PoolElement PoolPolicy HandlespaceState PoolNode PoolEffects PoolSelection HandlespaceNode HandlespaceInv HandlespaceWalks HandlespaceVerify HandlespaceMgt HandlespaceMgtInv HandlespaceNotifications HandlespaceRegistration HandlespaceSteps HandlespaceTheorems PeerList PeerListInv PeerListOps PeerListSteps PeerListRegister PeerListTheorems.
From stdpp Require Import base list gmap numbers option sorting sets relations.
#[local] Open Scope Z_scope.

Section listening.
Context {ST : Type} `{SL : StorageLaws ST} `{En : Endian}.
Abbreviation PHM := (PoolHandlespaceManagement ST).
Abbreviation PLM := (PeerListManagement ST).
Implicit Types (m : PHM) (pl : PLM) (p q : ptr) (n : PeerListNode) (S : Z → Z).

(** ** The callback *)

Fixpoint deliver (nfs : list Notification) : M PLM () :=
  match nfs with
  | [] => mret tt
  | nf :: nfs' => onList (peerListManagementPoolNodeUpdateNotification nf);; deliver nfs'
  end.

(** An operation on the handlespace, with its listener. *)
Definition listened {A} (f : M PHM A) : M (PHM * PLM) A := λ s,
  match f s.1 with
  | Some (a, m') =>
      match deliver (drop (length (hs_Notifications (phm_Handlespace s.1))) (hs_Notifications (phm_Handlespace m'))) s.2 with
      | Some (_, pl') => Some (a, (m', pl'))
      | None => None
      end
  | None => None
  end.

Definition onPeers {A} (f : M PLM A) : M (PHM * PLM) A := λ s,
  match f s.2 with Some (a, pl') => Some (a, (s.1, pl')) | None => None end.

(** ** Cached checksums *)

Definition node_ok S n : Prop :=
  pln_AddressBlock n ≠ None ∧
  (pln_Identifier n ≠ UNDEFINED_REGISTRAR_IDENTIFIER → pln_OwnershipChecksum n = u32 (S (pln_Identifier n))).

Definition agree S pl : Prop := ∀ q n, entries (plm_List pl) q = Some n → node_ok S n.

Lemma agree_ext S S' pl : (∀ id, id ≠ UNDEFINED_REGISTRAR_IDENTIFIER → S id = S' id) → agree S pl → agree S' pl.
Proof. intros HS Ha q n Hn. destruct (Ha q n Hn) as [Hb Hc]. split; [done|]. intros Hid. by rewrite <- HS, Hc. Qed.

(** No entry is found without identifier and address. *)
Lemma found_nothing S pl r : agree S pl → peer_found (plm_List pl) UNDEFINED_REGISTRAR_IDENTIFIER None r →
  pl_inv (new_nodes pl) (plm_List pl) → r = None.
Proof.
  intros Ha -> Hi. apply eq_None_not_Some. intros [q Hq].
  assert (q ∈ filter (overlaps (plm_List pl) None) (st_list (pl_PeerListIndexStorage (plm_List pl)))) as Hin
    by by apply head_Some_elem_of.
  apply list_elem_of_filter in Hin as [Ho Hin]. destruct (pv_lookup _ _ q Hi Hin) as (n & Hn & _).
  destruct (Ha q n) as [Hb _]; [by apply entries_Some|]. unfold overlaps in Ho. rewrite Hn in Ho. simpl in Ho.
  by destruct (pln_AddressBlock n).
Qed.

Lemma wp_adjust_agree S pl id (c : Z) f : plm_inv pl → agree S pl → (∀ a, f (u32 a) = u32 (a + c)) →
  wp (onList (adjustOwnershipChecksum f id)) (λ _ pl', plm_inv pl' ∧
    agree (λ i, S i + (if id =? i then c else 0)) pl') pl.
Proof.
  intros Hp Ha Hf. pose proof Hp as [Hi Hs]. eapply wp_mono; [by apply wp_adjust|].
  intros [] pl' (Hp' & _ & r & Hr & He). split; [done|]. intros q n'. rewrite He. intros Hn'.
  destruct (decide (id = UNDEFINED_REGISTRAR_IDENTIFIER)) as [->|Hid].
  { rewrite (found_nothing S pl r Ha Hr Hi) in Hn'. simpl in Hn'. destruct (Ha q n' Hn') as [Hb Hc]. split; [done|].
    intros Hid. rewrite Hc by done. rewrite (proj2 (Z.eqb_neq _ _)) by congruence. by rewrite Z.add_0_r. }
  unfold peer_found in Hr. rewrite decide_False in Hr by done. case_decide as Hq.
  - subst r. destruct Hr as [n [Hn Hidn]%entry_entries]. rewrite Hn in Hn'. simpl in Hn'. injection Hn' as <-.
    destruct (Ha q n Hn) as [Hb Hc]. split; [done|]. unfold adjusted. simpl. intros Hne.
    rewrite Hidn, Z.eqb_refl, Hc, Hf by done. by rewrite Hidn.
  - destruct (Ha q n' Hn') as [Hb Hc]. split; [done|]. intros Hne. rewrite Hc by done.
    destruct (Z.eqb_spec id (pln_Identifier n')) as [Heq|]; [|by rewrite Z.add_0_r]. exfalso.
    assert (entry (plm_List pl) id q n') as Hent by by apply entry_entries.
    destruct r as [p|]; [|by apply Hr in Hent]. destruct Hr as [n Hn]. apply Hq. f_equal. by apply (entry_inj _ _ id q p n' n Hi Hid).
Qed.

Lemma wp_notify_agree S pl nf : plm_inv pl → agree S pl →
  wp (onList (peerListManagementPoolNodeUpdateNotification nf)) (λ _ pl', plm_inv pl' ∧
    agree (λ id, S id + nf_effect id nf) pl') pl.
Proof.
  intros Hp Ha. unfold peerListManagementPoolNodeUpdateNotification, nf_effect. destruct (nf_Action nf).
  - eapply wp_mono; [apply (wp_adjust_agree S pl _ (nf_Checksum nf)); [done..|]|by intros [] pl' ?]. intros a. apply wrap_add_l.
  - eapply wp_mono; [apply (wp_adjust_agree S pl _ (- nf_Checksum nf)); [done..|]|].
    { intros a. unfold handlespaceChecksumSub. by rewrite wrap_sub_l. }
    intros [] pl' [Hp' Ha']. split; [done|]. eapply agree_ext; [|exact Ha']. intros id _. simpl. destruct (_ =? _); lia.
  - apply wp_onList_seq. eapply wp_mono; [apply (wp_adjust_agree S pl _ (- nf_PreUpdateChecksum nf)); [done..|]|].
    { intros a. unfold handlespaceChecksumSub. by rewrite wrap_sub_l. }
    intros [] pl1 [Hp1 Ha1]. eapply wp_mono; [eapply (wp_adjust_agree _ pl1 _ (nf_Checksum nf)); [done|exact Ha1|]|].
    { intros a. apply wrap_add_l. }
    intros [] pl' [Hp' Ha']. split; [done|]. eapply agree_ext; [|exact Ha']. intros id _. simpl.
    destruct (nf_HomeRegistrar nf =? id), (nf_PreUpdateHomeRegistrar nf =? id); lia.
Qed.

Lemma wp_deliver S nfs : ∀ pl, plm_inv pl → agree S pl →
  wp (deliver nfs) (λ _ pl', plm_inv pl' ∧ agree (λ id, S id + nf_effects id nfs) pl') pl.
Proof.
  revert S. induction nfs as [|nf nfs IH]; intros S pl Hp Ha; simpl.
  - apply wp_ret. split; [done|]. eapply agree_ext; [|exact Ha]. intros. lia.
  - apply wp_bind. eapply wp_mono; [by apply wp_notify_agree|]. intros [] pl1 [Hp1 Ha1].
    eapply wp_mono; [by apply (IH _ pl1 Hp1 Ha1)|]. intros [] pl' [Hp' Ha']. split; [done|].
    eapply agree_ext; [|exact Ha']. intros. simpl. lia.
Qed.

(** ** The invariant of both parts *)

Definition owned_sum m (id : Z) : Z := msum (owned_checksum id) (hs_PoolElementNodes (phm_Handlespace m)).

Record listening (s : PHM * PLM) : Prop := {
  ls_handlespace : phm_inv s.1;
  ls_flag : hs_PoolNodeUpdateNotification (phm_Handlespace s.1) = true;
  ls_peers : plm_inv s.2;
  ls_agree : agree (owned_sum s.1) s.2
}.

Lemma owner_checksum_sum (hs : Handlespace ST) id : hs_inv hs → id ≠ UNDEFINED_REGISTRAR_IDENTIFIER →
  owner_checksum hs id = u32 (msum (owned_checksum id) (hs_PoolElementNodes hs)).
Proof.
  intros [Hs Ha] Hid. unfold owner_checksum. rewrite (msum_owned _ hs id); [|done|done|intros n Hn; unfold owned_checksum; by rewrite Hn].
  f_equal. apply foldr_sum_ext. intros p Hp. destruct (ownership_blocks _ _ _ hs id Hs) as (A & C & _ & _ & HB & _).
  destruct (HB p Hp) as (n & Hn & Ho & Hhome). unfold checksum_at. rewrite Hn. simpl.
  unfold owned_checksum, is_owned, is_member. rewrite bool_decide_true by done. by rewrite Hhome, Z.eqb_refl.
Qed.

Lemma listened_run {A} (f : M PHM A) s a m' : listening s → f s.1 = Some (a, m') → phm_inv m' →
  tracked (phm_Handlespace s.1) (phm_Handlespace m') →
  ∃ pl', listened f s = Some (a, (m', pl')) ∧ listening (m', pl').
Proof.
  intros [Hm Hfl Hp Ha] Hf Hm' [Hfl' (nfs & Hl & Hsum)]. unfold listened. rewrite Hf, Hl, drop_app_length.
  destruct (wp_deliver (owned_sum s.1) nfs s.2 Hp Ha) as ([] & pl' & Hrun & Hp' & Ha'). rewrite Hrun. exists pl'. split; [done|].
  split; [done|by rewrite <- Hfl|done|]. eapply agree_ext; [|exact Ha']. intros id _. unfold owned_sum. simpl. by rewrite (Hsum Hfl id).
Qed.

(** ** The check of the cached checksums *)

Lemma verifyChecksums_run (hs : Handlespace ST) pl : hs_inv hs → plm_inv pl →
  agree (λ id, msum (owned_checksum id) (hs_PoolElementNodes hs)) pl →
  onList (peerListManagementVerifyChecksumsInHandlespace hs) pl = Some (tt, pl).
Proof.
  intros Hh [Hi Hs] Ha. apply onList_same. unfold peerListManagementVerifyChecksumsInHandlespace.
  erewrite run_bind; [|done]. erewrite run_bind; [|apply (peerFirst_run PeerIndex), Hi]. simpl.
  assert (∀ (b : ()), b = tt) as Hunit by by intros [].
  erewrite walk_pure with (g := λ _ _, tt); [by rewrite (Hunit (foldl _ _ _))| | |done].
  - intros l1 p l2 Hl. unfold peerListGetNextPeerListNodeFromIndexStorage. eapply (peerNext_run PeerIndex); [apply Hi|exact Hl].
  - intros [] p Hp. destruct (pv_lookup _ _ p Hi Hp) as (n & Hn & _). unfold peer_get.
    erewrite run_bind; [|unfold deref; by rewrite Hn]. cbv beta. destruct (Z.eqb_spec (pln_Identifier n) UNDEFINED_REGISTRAR_IDENTIFIER); [done|].
    simpl. erewrite run_bind; [|unfold deref; rewrite (computeOwnershipChecksum_run hs _ Hh); done]. cbv beta.
    apply run_check, Z.eqb_eq. destruct (Ha p n) as [_ Hc]; [by apply entries_Some|]. rewrite Hc by done.
    symmetry. by apply owner_checksum_sum.
Qed.

(** ** Operations on the peer list *)

Lemma agree_set S pl pl' p n : agree S pl → node_ok S n →
  (∀ q, entries (plm_List pl') q = if decide (q = p) then Some n else entries (plm_List pl) q) → agree S pl'.
Proof. intros Ha Hn He q n'. rewrite He. case_decide; [by intros [= <-]|apply Ha]. Qed.

Lemma agree_unset S pl pl' (f : ptr → bool) : agree S pl →
  (∀ q, entries (plm_List pl') q = if f q then entries (plm_List pl) q ≫= PeerListSteps.deregistered else entries (plm_List pl) q) →
  agree S pl'.
Proof.
  intros Ha He q n'. rewrite He. destruct (f q); [|apply Ha]. destruct (entries (plm_List pl) q) as [n|] eqn:Hn; [|done]. simpl.
  unfold PeerListSteps.deregistered. destruct (kept n); [|done]. intros [= <-]. by destruct (Ha q n Hn) as [Hb _].
Qed.

Lemma summed_ok S hs n : (∀ id, id ≠ UNDEFINED_REGISTRAR_IDENTIFIER → owner_checksum hs id = u32 (S id)) →
  pln_AddressBlock n ≠ None → node_ok S (summed (Some hs) n).
Proof. intros HS Hb. split; [done|]. apply HS. Qed.

Lemma registration_agree S pl hs peerNode duplicated id flags t now r pl' : agree S pl →
  (∀ id, id ≠ UNDEFINED_REGISTRAR_IDENTIFIER → owner_checksum hs id = u32 (S id)) →
  peer_registration pl peerNode duplicated (Some hs) id flags t now r pl' → agree S pl'.
Proof.
  intros Ha HS [|p n m' _ _ Hn (He & _)| |m' _ He _|p q n m' _ _ Hc (He & _)|p q n m' _ _ _ He _]; try done.
  - eapply agree_set; [done| |exact He]. apply summed_ok; [done|]. destruct (Ha p n Hn) as [Hb _].
    unfold identified. by destruct (own_id _ _), (_ =? _).
  - intros q n. rewrite He. apply Ha.
  - eapply agree_set; [done| |exact He]. apply summed_ok; [done|]. by destruct t.
  - intros x n'. rewrite He. case_decide; [done|apply Ha].
Qed.

Section disposer.
Context (d : option (ptr → M (PeerList ST) ())) (Hd : peer_disposer_ok d).
Context (poolDisposer elementDisposer : option (ptr → M (Handlespace ST) ())).
Context (poolDisposer_ok : disposer_ok poolDisposer) (elementDisposer_ok : disposer_ok elementDisposer).

(** Registrations take their checksums from this handlespace, and the
    callback is called by the handlespace only. *)
Definition belongs m (op : peer_operation) : Prop :=
  match op with
  | PeerRegister _ _ h _ _ _ _ => h = Some (phm_Handlespace m)
  | PeerNotification _ => False
  | _ => True
  end.

Lemma perform_agree S m pl op : plm_inv pl → permitted pl op → belongs m op → agree S pl →
  (∀ id, id ≠ UNDEFINED_REGISTRAR_IDENTIFIER → owner_checksum (phm_Handlespace m) id = u32 (S id)) →
  wp (perform d op) (λ _ pl', plm_inv pl' ∧ agree S pl') pl.
Proof.
  intros Hp Hop Hb Ha HS. destruct op as [peerNode duplicated h id flags t now|id t|p|p timeout|p code ts|p|now|nf]; simpl in *.
  - destruct Hop as (? & ? & ?). subst h. apply wp_bind. eapply wp_mono; [by apply wp_register|]. intros r pl' [? ?]. apply wp_ret.
    split; [done|]. by eapply registration_agree.
  - apply wp_bind. eapply wp_mono; [by apply wp_deregisterPeerListNode|]. intros r pl' [Hp' Hcase]. apply wp_ret. split; [done|].
    destruct Hcase as [(p & n & _ & _ & Hn & He & _)|(_ & _ & ->)]; [|done].
    apply (agree_unset S pl pl' (λ q, bool_decide (q = p))); [done|]. intros q. rewrite He. case_decide as Hq.
    + subst q. by rewrite bool_decide_true, Hn.
    + by rewrite bool_decide_false.
  - destruct Hop as [n Hn]. apply wp_bind. eapply wp_mono; [by eapply wp_deregisterPtr|]. intros r pl' (_ & Hp' & He & _). apply wp_ret.
    split; [done|]. apply (agree_unset S pl pl' (λ q, bool_decide (q = p))); [done|]. intros q. rewrite He. case_decide as Hq.
    + subst q. by rewrite bool_decide_true, Hn.
    + by rewrite bool_decide_false.
  - destruct Hop as (n & Hn & Hid). eapply wp_mono; [by eapply wp_restart|]. intros [] pl' (Hp' & He & _). split; [done|].
    eapply agree_set; [done| |exact He]. apply (Ha p n Hn).
  - destruct Hop as (Hpt & n & Hn & Hid). eapply wp_mono; [by eapply wp_activate|]. intros [] pl' (Hp' & He & _). split; [done|].
    eapply agree_set; [done| |exact He]. apply (Ha p n Hn).
  - eapply wp_mono; [by apply wp_stopTimer|]. intros ? pl' (Hp' & He & _). split; [done|]. intros q n. rewrite He. apply Ha.
  - apply wp_bind. eapply wp_mono; [by apply wp_purgeExpired|]. intros r pl' (Hp' & _ & He & _). apply wp_ret. split; [done|].
    by eapply agree_unset.
  - done.
Qed.

(** ** Sequences of operations on both *)

Inductive joint_step (s : PHM * PLM) : PHM * PLM → Prop :=
| joint_handlespace op s' : allowed s.1 op → listened (execute poolDisposer elementDisposer op) s = Some (tt, s') → joint_step s s'
| joint_peers op s' : permitted s.2 op → belongs s.1 op → onPeers (perform d op) s = Some (tt, s') → joint_step s s'.

Lemma joint_handlespace_ok s op : listening s → allowed s.1 op →
  ∃ s', listened (execute poolDisposer elementDisposer op) s = Some (tt, s') ∧ listening s'.
Proof.
  intros Hs Hop. destruct (execute_ok _ _ poolDisposer_ok elementDisposer_ok s.1 op (ls_handlespace _ Hs) Hop) as (m' & Hrun & Hm' & Hf).
  destruct (listened_run _ s tt m' Hs Hrun Hm' Hf) as (pl' & Hl & Hs'). eauto.
Qed.

Lemma joint_peers_ok s op : listening s → permitted s.2 op → belongs s.1 op →
  ∃ s', onPeers (perform d op) s = Some (tt, s') ∧ listening s'.
Proof.
  intros [Hm Hfl Hp Ha] Hop Hb. destruct (perform_agree (owned_sum s.1) s.1 s.2 op) as ([] & pl' & Hrun & Hp' & Ha'); try done.
  { intros id Hid. apply owner_checksum_sum; [apply Hm|done]. }
  exists (s.1, pl'). split; [unfold onPeers; by rewrite Hrun|]. by split.
Qed.

End disposer.
End listening.

(** ** An application *)

Module JointDemo.
Export PeerDemo.

(** Peer 2 becomes known, then a pool element registers with it. *)
Definition joint_peer : peer_operation (ST := storage) :=
  PeerRegister (Some 12%positive) true (Some (phm_Handlespace demo_new)) 2 PLNF_DYNAMIC (peer_block 2 9901) 1000.
Definition joint_element : operation :=
  OpRegister (demo_memory 1 2) demo_handle 2 7 30000 demo_settings demo_transport None 7 1 1000.

Definition joint_new : PoolHandlespaceManagement storage * peers := (demo_new, peers_new).
Definition joint_one := match onPeers (perform None joint_peer) joint_new with Some (_, s) => s | None => joint_new end.
Definition joint_two := match listened (execute None None joint_element) joint_one with Some (_, s) => s | None => joint_one end.

Lemma joint_peer_permitted : permitted peers_new joint_peer.
Proof.
  split; [|split; [by apply fresh_demo|exact (handlespace_ok_some _ (pm_inv _ demo_new_inv))]].
  split; [by apply (bool_decide_unpack _)| |]; intros p n Hf.
  - intros _ _ Hh. vm_compute in Hh. discriminate Hh.
  - vm_compute in Hf. discriminate Hf.
Qed.

Lemma joint_element_allowed : allowed demo_new joint_element.
Proof.
  split; [exact demo_fresh|]. split; [intros _; exact demo_handle_wf|].
  split; [by apply (bool_decide_unpack _)|]. split; [by apply (bool_decide_unpack _)|].
  split; [by apply (bool_decide_unpack _)|]. done.
Qed.

Lemma joint_reachable : rtc (joint_step None None None) joint_new joint_two.
Proof.
  eapply rtc_l; [apply (joint_peers None None None joint_new joint_peer joint_one joint_peer_permitted eq_refl); by vm_compute|].
  apply rtc_once, (joint_handlespace None None None joint_one joint_element joint_two joint_element_allowed). by vm_compute.
Qed.
End JointDemo.
Import JointDemo.

