(* ===== verification/Message.v ===== *)
(** * Messages and their packet buffer (rserpoolmessage.h, rserpoolmessage.c)

    [RSerPoolMessage] is the C structure without the flags that say which
    pointers the destructor frees.  Its packet buffer and its error
    bookkeeping are sub-records.  Pointers into the buffer are offsets; the
    memory of the buffer is the list [pb_Buffer], and an access outside it
    fails.  [rm_Memory] holds the outcomes of the coming allocations (the
    ones behind its end succeed). *)

From S2P Require Import Prelude Addresses PoolBasics Storage PoolElement HandlespaceMgt PeerList.
From stdpp Require Import base list gmap numbers option.
#[local] Open Scope Z_scope.

(** ** Constants *)

Definition RSPERR_UNSUPPORTED_POOL_POLICY : Z := 0x100b.

Definition MAX_MAX_HANDLE_RESOLUTION_ITEMS : Z := 128.
Definition RSPGETADDRS_MAX : Z := 0xffffffff.
Definition PPID_ASAP : Z := 11.
Definition PPID_ENRP : Z := 12.

Definition AHT_ASAP_MODIFIER : Z := 0xaa00.
Definition AHT_REGISTRATION : Z := 0xaa01.
Definition AHT_DEREGISTRATION : Z := 0xaa02.
Definition AHT_REGISTRATION_RESPONSE : Z := 0xaa03.
Definition AHT_DEREGISTRATION_RESPONSE : Z := 0xaa04.
Definition AHT_HANDLE_RESOLUTION : Z := 0xaa05.
Definition AHT_HANDLE_RESOLUTION_RESPONSE : Z := 0xaa06.
Definition AHT_ENDPOINT_KEEP_ALIVE : Z := 0xaa07.
Definition AHT_ENDPOINT_KEEP_ALIVE_ACK : Z := 0xaa08.
Definition AHT_ENDPOINT_UNREACHABLE : Z := 0xaa09.
Definition AHT_SERVER_ANNOUNCE : Z := 0xaa0a.
Definition AHT_COOKIE : Z := 0xaa0b.
Definition AHT_COOKIE_ECHO : Z := 0xaa0c.
Definition AHT_BUSINESS_CARD : Z := 0xaa0d.
Definition AHT_ERROR : Z := 0xaa0e.
Definition AHF_REGISTRATION_REJECT : Z := 1.
Definition AHF_ENDPOINT_KEEP_ALIVE_HOME : Z := 1.

Definition EHT_ENRP_MODIFIER : Z := 0xee00.
Definition EHT_PRESENCE : Z := 0xee01.
Definition EHT_HANDLE_TABLE_REQUEST : Z := 0xee02.
Definition EHT_HANDLE_TABLE_RESPONSE : Z := 0xee03.
Definition EHT_HANDLE_UPDATE : Z := 0xee04.
Definition EHT_LIST_REQUEST : Z := 0xee05.
Definition EHT_LIST_RESPONSE : Z := 0xee06.
Definition EHT_INIT_TAKEOVER : Z := 0xee07.
Definition EHT_INIT_TAKEOVER_ACK : Z := 0xee08.
Definition EHT_TAKEOVER_SERVER : Z := 0xee09.
Definition EHT_ERROR : Z := 0xee0a.
Definition EHF_PRESENCE_REPLY_REQUIRED : Z := 1.
Definition EHF_HANDLE_TABLE_REQUEST_OWN_CHILDREN_ONLY : Z := 1.
Definition EHF_LIST_RESPONSE_REJECT : Z := 1.
Definition EHF_HANDLE_TABLE_RESPONSE_REJECT : Z := 1.
Definition EHF_HANDLE_TABLE_RESPONSE_MORE_TO_SEND : Z := 2.
Definition EHF_TAKEOVER_SUGGESTED : Z := 1.

Definition ATT_ACTION_MASK : Z := 0xc000.
Definition ATT_ACTION_STOP : Z := 0x0000.
Definition ATT_ACTION_STOP_AND_REPORT : Z := 0x4000.
Definition ATT_ACTION_CONTINUE : Z := 0x8000.
Definition ATT_ACTION_CONTINUE_AND_REPORT : Z := 0xc000.
Definition PURE_ATT_TYPE (type : Z) : Z := Z.ldiff type ATT_ACTION_MASK.

Definition ATT_IPv4_ADDRESS : Z := 0x0001.
Definition ATT_IPv6_ADDRESS : Z := 0x0002.
Definition ATT_SCTP_TRANSPORT : Z := 0x0004.
Definition ATT_TCP_TRANSPORT : Z := 0x0005.
Definition ATT_UDP_TRANSPORT : Z := 0x0006.
Definition ATT_POOL_POLICY : Z := 0x0008.
Definition ATT_POOL_HANDLE : Z := 0x0009.
Definition ATT_POOL_ELEMENT : Z := 0x000a.
Definition ATT_SERVER_INFORMATION : Z := 0x000b.
Definition ATT_OPERATION_ERROR : Z := 0x000c.
Definition ATT_COOKIE : Z := 0x000d.
Definition ATT_POOL_ELEMENT_IDENTIFIER : Z := 0x000e.
Definition ATT_POOL_ELEMENT_CHECKSUM : Z := 0x000f.
Definition ATT_HANDLE_RESOLUTION : Z := 0x003f.

Definition UTP_DATA_ONLY : Z := 0x0000.
Definition UTP_DATA_PLUS_CONTROL : Z := 0x0001.

(** ** The structure *)

Record PacketBuffer := MkPacketBuffer {
  pb_Buffer : list Z;
  pb_BufferSize : Z;
  pb_OriginalBufferSize : Z;
  pb_Position : Z
}.

Definition pb_set_Buffer (v : list Z) (x : PacketBuffer) : PacketBuffer :=
  MkPacketBuffer v (pb_BufferSize x) (pb_OriginalBufferSize x) (pb_Position x).
Definition pb_set_BufferSize (v : Z) (x : PacketBuffer) : PacketBuffer :=
  MkPacketBuffer (pb_Buffer x) v (pb_OriginalBufferSize x) (pb_Position x).
Definition pb_set_OriginalBufferSize (v : Z) (x : PacketBuffer) : PacketBuffer :=
  MkPacketBuffer (pb_Buffer x) (pb_BufferSize x) v (pb_Position x).
Definition pb_set_Position (v : Z) (x : PacketBuffer) : PacketBuffer :=
  MkPacketBuffer (pb_Buffer x) (pb_BufferSize x) (pb_OriginalBufferSize x) v.

Record MessageStatus := MkMessageStatus {
  ms_Error : Z;
  ms_OffendingParameterTLV : option Z;
  ms_OffendingParameterTLVLength : Z;
  ms_OperationErrorCode : Z;
  ms_OperationErrorData : option Z;
  ms_OperationErrorLength : Z
}.

Definition ms_set_Error (v : Z) (x : MessageStatus) : MessageStatus :=
  MkMessageStatus v (ms_OffendingParameterTLV x) (ms_OffendingParameterTLVLength x) (ms_OperationErrorCode x)
    (ms_OperationErrorData x) (ms_OperationErrorLength x).
Definition ms_set_OffendingParameterTLV (v : option Z) (x : MessageStatus) : MessageStatus :=
  MkMessageStatus (ms_Error x) v (ms_OffendingParameterTLVLength x) (ms_OperationErrorCode x)
    (ms_OperationErrorData x) (ms_OperationErrorLength x).
Definition ms_set_OffendingParameterTLVLength (v : Z) (x : MessageStatus) : MessageStatus :=
  MkMessageStatus (ms_Error x) (ms_OffendingParameterTLV x) v (ms_OperationErrorCode x)
    (ms_OperationErrorData x) (ms_OperationErrorLength x).
Definition ms_set_OperationErrorCode (v : Z) (x : MessageStatus) : MessageStatus :=
  MkMessageStatus (ms_Error x) (ms_OffendingParameterTLV x) (ms_OffendingParameterTLVLength x) v
    (ms_OperationErrorData x) (ms_OperationErrorLength x).
Definition ms_set_OperationErrorData (v : option Z) (x : MessageStatus) : MessageStatus :=
  MkMessageStatus (ms_Error x) (ms_OffendingParameterTLV x) (ms_OffendingParameterTLVLength x)
    (ms_OperationErrorCode x) v (ms_OperationErrorLength x).
Definition ms_set_OperationErrorLength (v : Z) (x : MessageStatus) : MessageStatus :=
  MkMessageStatus (ms_Error x) (ms_OffendingParameterTLV x) (ms_OffendingParameterTLVLength x)
    (ms_OperationErrorCode x) (ms_OperationErrorData x) v.

Record RSerPoolMessage {ST : Type} := MkRSerPoolMessage {
  rm_Type : Z;
  rm_Flags : Z;
  rm_Action : Z;
  rm_Addresses : Z;
  rm_Status : MessageStatus;
  rm_ErrorCauseParameterTLV : option (list Z);
  rm_ErrorCauseParameterTLVLength : Z;
  rm_Packet : PacketBuffer;
  rm_Identifier : Z;
  rm_Checksum : Z;
  rm_PolicySettings : PoolPolicySettings;
  rm_Handle : PoolHandle;
  rm_RegistrarIdentifier : Z;
  rm_SenderID : Z;
  rm_ReceiverID : Z;
  rm_PoolElementPtr : option PoolElementNode;
  rm_CookiePtr : option (list Z);
  rm_CookieSize : Z;
  rm_PoolElementPtrArray : list (option PoolElementNode);
  rm_PoolElementPtrArraySize : Z;
  rm_PeerListNodePtr : option PeerListNode;
  rm_PeerListPtr : option (PeerListManagement ST);
  rm_HandlespacePtr : option (PoolHandlespaceManagement ST);
  rm_MaxElementsPerHTRequest : Z;
  rm_AssocID : Z;
  rm_PPID : Z;
  rm_SourceAddress : sockaddr_union;
  rm_Memory : list bool
}.
Arguments RSerPoolMessage : clear implicits.
Arguments MkRSerPoolMessage {ST}.

(** ** Network byte order *)

Definition htons (z : Z) : list Z := [z / 256 mod 256; z mod 256].
Definition htonl (z : Z) : list Z := [z / 16777216 mod 256; z / 65536 mod 256; z / 256 mod 256; z mod 256].

Section message.
Context {ST : Type}.
Abbreviation Msg := (RSerPoolMessage ST).

Definition rm_set_Type (v : Z) (x : RSerPoolMessage ST) : RSerPoolMessage ST :=
  MkRSerPoolMessage v (rm_Flags x) (rm_Action x) (rm_Addresses x) (rm_Status x) (rm_ErrorCauseParameterTLV x)
    (rm_ErrorCauseParameterTLVLength x) (rm_Packet x) (rm_Identifier x) (rm_Checksum x) (rm_PolicySettings x)
    (rm_Handle x) (rm_RegistrarIdentifier x) (rm_SenderID x) (rm_ReceiverID x) (rm_PoolElementPtr x)
    (rm_CookiePtr x) (rm_CookieSize x) (rm_PoolElementPtrArray x) (rm_PoolElementPtrArraySize x)
    (rm_PeerListNodePtr x) (rm_PeerListPtr x) (rm_HandlespacePtr x) (rm_MaxElementsPerHTRequest x)
    (rm_AssocID x) (rm_PPID x) (rm_SourceAddress x) (rm_Memory x).
Definition rm_set_Flags (v : Z) (x : RSerPoolMessage ST) : RSerPoolMessage ST :=
  MkRSerPoolMessage (rm_Type x) v (rm_Action x) (rm_Addresses x) (rm_Status x) (rm_ErrorCauseParameterTLV x)
    (rm_ErrorCauseParameterTLVLength x) (rm_Packet x) (rm_Identifier x) (rm_Checksum x) (rm_PolicySettings x)
    (rm_Handle x) (rm_RegistrarIdentifier x) (rm_SenderID x) (rm_ReceiverID x) (rm_PoolElementPtr x)
    (rm_CookiePtr x) (rm_CookieSize x) (rm_PoolElementPtrArray x) (rm_PoolElementPtrArraySize x)
    (rm_PeerListNodePtr x) (rm_PeerListPtr x) (rm_HandlespacePtr x) (rm_MaxElementsPerHTRequest x)
    (rm_AssocID x) (rm_PPID x) (rm_SourceAddress x) (rm_Memory x).
Definition rm_set_Action (v : Z) (x : RSerPoolMessage ST) : RSerPoolMessage ST :=
  MkRSerPoolMessage (rm_Type x) (rm_Flags x) v (rm_Addresses x) (rm_Status x) (rm_ErrorCauseParameterTLV x)
    (rm_ErrorCauseParameterTLVLength x) (rm_Packet x) (rm_Identifier x) (rm_Checksum x) (rm_PolicySettings x)
    (rm_Handle x) (rm_RegistrarIdentifier x) (rm_SenderID x) (rm_ReceiverID x) (rm_PoolElementPtr x)
    (rm_CookiePtr x) (rm_CookieSize x) (rm_PoolElementPtrArray x) (rm_PoolElementPtrArraySize x)
    (rm_PeerListNodePtr x) (rm_PeerListPtr x) (rm_HandlespacePtr x) (rm_MaxElementsPerHTRequest x)
    (rm_AssocID x) (rm_PPID x) (rm_SourceAddress x) (rm_Memory x).
Definition rm_set_Addresses (v : Z) (x : RSerPoolMessage ST) : RSerPoolMessage ST :=
  MkRSerPoolMessage (rm_Type x) (rm_Flags x) (rm_Action x) v (rm_Status x) (rm_ErrorCauseParameterTLV x)
    (rm_ErrorCauseParameterTLVLength x) (rm_Packet x) (rm_Identifier x) (rm_Checksum x) (rm_PolicySettings x)
    (rm_Handle x) (rm_RegistrarIdentifier x) (rm_SenderID x) (rm_ReceiverID x) (rm_PoolElementPtr x)
    (rm_CookiePtr x) (rm_CookieSize x) (rm_PoolElementPtrArray x) (rm_PoolElementPtrArraySize x)
    (rm_PeerListNodePtr x) (rm_PeerListPtr x) (rm_HandlespacePtr x) (rm_MaxElementsPerHTRequest x)
    (rm_AssocID x) (rm_PPID x) (rm_SourceAddress x) (rm_Memory x).
Definition rm_set_Status (v : MessageStatus) (x : RSerPoolMessage ST) : RSerPoolMessage ST :=
  MkRSerPoolMessage (rm_Type x) (rm_Flags x) (rm_Action x) (rm_Addresses x) v (rm_ErrorCauseParameterTLV x)
    (rm_ErrorCauseParameterTLVLength x) (rm_Packet x) (rm_Identifier x) (rm_Checksum x) (rm_PolicySettings x)
    (rm_Handle x) (rm_RegistrarIdentifier x) (rm_SenderID x) (rm_ReceiverID x) (rm_PoolElementPtr x)
    (rm_CookiePtr x) (rm_CookieSize x) (rm_PoolElementPtrArray x) (rm_PoolElementPtrArraySize x)
    (rm_PeerListNodePtr x) (rm_PeerListPtr x) (rm_HandlespacePtr x) (rm_MaxElementsPerHTRequest x)
    (rm_AssocID x) (rm_PPID x) (rm_SourceAddress x) (rm_Memory x).
Definition rm_set_ErrorCauseParameterTLV (v : option (list Z)) (x : RSerPoolMessage ST) : RSerPoolMessage ST :=
  MkRSerPoolMessage (rm_Type x) (rm_Flags x) (rm_Action x) (rm_Addresses x) (rm_Status x) v
    (rm_ErrorCauseParameterTLVLength x) (rm_Packet x) (rm_Identifier x) (rm_Checksum x) (rm_PolicySettings x)
    (rm_Handle x) (rm_RegistrarIdentifier x) (rm_SenderID x) (rm_ReceiverID x) (rm_PoolElementPtr x)
    (rm_CookiePtr x) (rm_CookieSize x) (rm_PoolElementPtrArray x) (rm_PoolElementPtrArraySize x)
    (rm_PeerListNodePtr x) (rm_PeerListPtr x) (rm_HandlespacePtr x) (rm_MaxElementsPerHTRequest x)
    (rm_AssocID x) (rm_PPID x) (rm_SourceAddress x) (rm_Memory x).
Definition rm_set_ErrorCauseParameterTLVLength (v : Z) (x : RSerPoolMessage ST) : RSerPoolMessage ST :=
  MkRSerPoolMessage (rm_Type x) (rm_Flags x) (rm_Action x) (rm_Addresses x) (rm_Status x)
    (rm_ErrorCauseParameterTLV x) v (rm_Packet x) (rm_Identifier x) (rm_Checksum x) (rm_PolicySettings x)
    (rm_Handle x) (rm_RegistrarIdentifier x) (rm_SenderID x) (rm_ReceiverID x) (rm_PoolElementPtr x)
    (rm_CookiePtr x) (rm_CookieSize x) (rm_PoolElementPtrArray x) (rm_PoolElementPtrArraySize x)
    (rm_PeerListNodePtr x) (rm_PeerListPtr x) (rm_HandlespacePtr x) (rm_MaxElementsPerHTRequest x)
    (rm_AssocID x) (rm_PPID x) (rm_SourceAddress x) (rm_Memory x).
Definition rm_set_Packet (v : PacketBuffer) (x : RSerPoolMessage ST) : RSerPoolMessage ST :=
  MkRSerPoolMessage (rm_Type x) (rm_Flags x) (rm_Action x) (rm_Addresses x) (rm_Status x)
    (rm_ErrorCauseParameterTLV x) (rm_ErrorCauseParameterTLVLength x) v (rm_Identifier x) (rm_Checksum x)
    (rm_PolicySettings x) (rm_Handle x) (rm_RegistrarIdentifier x) (rm_SenderID x) (rm_ReceiverID x)
    (rm_PoolElementPtr x) (rm_CookiePtr x) (rm_CookieSize x) (rm_PoolElementPtrArray x)
    (rm_PoolElementPtrArraySize x) (rm_PeerListNodePtr x) (rm_PeerListPtr x) (rm_HandlespacePtr x)
    (rm_MaxElementsPerHTRequest x) (rm_AssocID x) (rm_PPID x) (rm_SourceAddress x) (rm_Memory x).
Definition rm_set_Identifier (v : Z) (x : RSerPoolMessage ST) : RSerPoolMessage ST :=
  MkRSerPoolMessage (rm_Type x) (rm_Flags x) (rm_Action x) (rm_Addresses x) (rm_Status x)
    (rm_ErrorCauseParameterTLV x) (rm_ErrorCauseParameterTLVLength x) (rm_Packet x) v (rm_Checksum x)
    (rm_PolicySettings x) (rm_Handle x) (rm_RegistrarIdentifier x) (rm_SenderID x) (rm_ReceiverID x)
    (rm_PoolElementPtr x) (rm_CookiePtr x) (rm_CookieSize x) (rm_PoolElementPtrArray x)
    (rm_PoolElementPtrArraySize x) (rm_PeerListNodePtr x) (rm_PeerListPtr x) (rm_HandlespacePtr x)
    (rm_MaxElementsPerHTRequest x) (rm_AssocID x) (rm_PPID x) (rm_SourceAddress x) (rm_Memory x).
Definition rm_set_Checksum (v : Z) (x : RSerPoolMessage ST) : RSerPoolMessage ST :=
  MkRSerPoolMessage (rm_Type x) (rm_Flags x) (rm_Action x) (rm_Addresses x) (rm_Status x)
    (rm_ErrorCauseParameterTLV x) (rm_ErrorCauseParameterTLVLength x) (rm_Packet x) (rm_Identifier x) v
    (rm_PolicySettings x) (rm_Handle x) (rm_RegistrarIdentifier x) (rm_SenderID x) (rm_ReceiverID x)
    (rm_PoolElementPtr x) (rm_CookiePtr x) (rm_CookieSize x) (rm_PoolElementPtrArray x)
    (rm_PoolElementPtrArraySize x) (rm_PeerListNodePtr x) (rm_PeerListPtr x) (rm_HandlespacePtr x)
    (rm_MaxElementsPerHTRequest x) (rm_AssocID x) (rm_PPID x) (rm_SourceAddress x) (rm_Memory x).
Definition rm_set_PolicySettings (v : PoolPolicySettings) (x : RSerPoolMessage ST) : RSerPoolMessage ST :=
  MkRSerPoolMessage (rm_Type x) (rm_Flags x) (rm_Action x) (rm_Addresses x) (rm_Status x)
    (rm_ErrorCauseParameterTLV x) (rm_ErrorCauseParameterTLVLength x) (rm_Packet x) (rm_Identifier x)
    (rm_Checksum x) v (rm_Handle x) (rm_RegistrarIdentifier x) (rm_SenderID x) (rm_ReceiverID x)
    (rm_PoolElementPtr x) (rm_CookiePtr x) (rm_CookieSize x) (rm_PoolElementPtrArray x)
    (rm_PoolElementPtrArraySize x) (rm_PeerListNodePtr x) (rm_PeerListPtr x) (rm_HandlespacePtr x)
    (rm_MaxElementsPerHTRequest x) (rm_AssocID x) (rm_PPID x) (rm_SourceAddress x) (rm_Memory x).
Definition rm_set_Handle (v : PoolHandle) (x : RSerPoolMessage ST) : RSerPoolMessage ST :=
  MkRSerPoolMessage (rm_Type x) (rm_Flags x) (rm_Action x) (rm_Addresses x) (rm_Status x)
    (rm_ErrorCauseParameterTLV x) (rm_ErrorCauseParameterTLVLength x) (rm_Packet x) (rm_Identifier x)
    (rm_Checksum x) (rm_PolicySettings x) v (rm_RegistrarIdentifier x) (rm_SenderID x) (rm_ReceiverID x)
    (rm_PoolElementPtr x) (rm_CookiePtr x) (rm_CookieSize x) (rm_PoolElementPtrArray x)
    (rm_PoolElementPtrArraySize x) (rm_PeerListNodePtr x) (rm_PeerListPtr x) (rm_HandlespacePtr x)
    (rm_MaxElementsPerHTRequest x) (rm_AssocID x) (rm_PPID x) (rm_SourceAddress x) (rm_Memory x).
Definition rm_set_RegistrarIdentifier (v : Z) (x : RSerPoolMessage ST) : RSerPoolMessage ST :=
  MkRSerPoolMessage (rm_Type x) (rm_Flags x) (rm_Action x) (rm_Addresses x) (rm_Status x)
    (rm_ErrorCauseParameterTLV x) (rm_ErrorCauseParameterTLVLength x) (rm_Packet x) (rm_Identifier x)
    (rm_Checksum x) (rm_PolicySettings x) (rm_Handle x) v (rm_SenderID x) (rm_ReceiverID x)
    (rm_PoolElementPtr x) (rm_CookiePtr x) (rm_CookieSize x) (rm_PoolElementPtrArray x)
    (rm_PoolElementPtrArraySize x) (rm_PeerListNodePtr x) (rm_PeerListPtr x) (rm_HandlespacePtr x)
    (rm_MaxElementsPerHTRequest x) (rm_AssocID x) (rm_PPID x) (rm_SourceAddress x) (rm_Memory x).
Definition rm_set_SenderID (v : Z) (x : RSerPoolMessage ST) : RSerPoolMessage ST :=
  MkRSerPoolMessage (rm_Type x) (rm_Flags x) (rm_Action x) (rm_Addresses x) (rm_Status x)
    (rm_ErrorCauseParameterTLV x) (rm_ErrorCauseParameterTLVLength x) (rm_Packet x) (rm_Identifier x)
    (rm_Checksum x) (rm_PolicySettings x) (rm_Handle x) (rm_RegistrarIdentifier x) v (rm_ReceiverID x)
    (rm_PoolElementPtr x) (rm_CookiePtr x) (rm_CookieSize x) (rm_PoolElementPtrArray x)
    (rm_PoolElementPtrArraySize x) (rm_PeerListNodePtr x) (rm_PeerListPtr x) (rm_HandlespacePtr x)
    (rm_MaxElementsPerHTRequest x) (rm_AssocID x) (rm_PPID x) (rm_SourceAddress x) (rm_Memory x).
Definition rm_set_ReceiverID (v : Z) (x : RSerPoolMessage ST) : RSerPoolMessage ST :=
  MkRSerPoolMessage (rm_Type x) (rm_Flags x) (rm_Action x) (rm_Addresses x) (rm_Status x)
    (rm_ErrorCauseParameterTLV x) (rm_ErrorCauseParameterTLVLength x) (rm_Packet x) (rm_Identifier x)
    (rm_Checksum x) (rm_PolicySettings x) (rm_Handle x) (rm_RegistrarIdentifier x) (rm_SenderID x) v
    (rm_PoolElementPtr x) (rm_CookiePtr x) (rm_CookieSize x) (rm_PoolElementPtrArray x)
    (rm_PoolElementPtrArraySize x) (rm_PeerListNodePtr x) (rm_PeerListPtr x) (rm_HandlespacePtr x)
    (rm_MaxElementsPerHTRequest x) (rm_AssocID x) (rm_PPID x) (rm_SourceAddress x) (rm_Memory x).
Definition rm_set_PoolElementPtr (v : option PoolElementNode) (x : RSerPoolMessage ST) : RSerPoolMessage ST :=
  MkRSerPoolMessage (rm_Type x) (rm_Flags x) (rm_Action x) (rm_Addresses x) (rm_Status x)
    (rm_ErrorCauseParameterTLV x) (rm_ErrorCauseParameterTLVLength x) (rm_Packet x) (rm_Identifier x)
    (rm_Checksum x) (rm_PolicySettings x) (rm_Handle x) (rm_RegistrarIdentifier x) (rm_SenderID x)
    (rm_ReceiverID x) v (rm_CookiePtr x) (rm_CookieSize x) (rm_PoolElementPtrArray x)
    (rm_PoolElementPtrArraySize x) (rm_PeerListNodePtr x) (rm_PeerListPtr x) (rm_HandlespacePtr x)
    (rm_MaxElementsPerHTRequest x) (rm_AssocID x) (rm_PPID x) (rm_SourceAddress x) (rm_Memory x).
Definition rm_set_CookiePtr (v : option (list Z)) (x : RSerPoolMessage ST) : RSerPoolMessage ST :=
  MkRSerPoolMessage (rm_Type x) (rm_Flags x) (rm_Action x) (rm_Addresses x) (rm_Status x)
    (rm_ErrorCauseParameterTLV x) (rm_ErrorCauseParameterTLVLength x) (rm_Packet x) (rm_Identifier x)
    (rm_Checksum x) (rm_PolicySettings x) (rm_Handle x) (rm_RegistrarIdentifier x) (rm_SenderID x)
    (rm_ReceiverID x) (rm_PoolElementPtr x) v (rm_CookieSize x) (rm_PoolElementPtrArray x)
    (rm_PoolElementPtrArraySize x) (rm_PeerListNodePtr x) (rm_PeerListPtr x) (rm_HandlespacePtr x)
    (rm_MaxElementsPerHTRequest x) (rm_AssocID x) (rm_PPID x) (rm_SourceAddress x) (rm_Memory x).
Definition rm_set_CookieSize (v : Z) (x : RSerPoolMessage ST) : RSerPoolMessage ST :=
  MkRSerPoolMessage (rm_Type x) (rm_Flags x) (rm_Action x) (rm_Addresses x) (rm_Status x)
    (rm_ErrorCauseParameterTLV x) (rm_ErrorCauseParameterTLVLength x) (rm_Packet x) (rm_Identifier x)
    (rm_Checksum x) (rm_PolicySettings x) (rm_Handle x) (rm_RegistrarIdentifier x) (rm_SenderID x)
    (rm_ReceiverID x) (rm_PoolElementPtr x) (rm_CookiePtr x) v (rm_PoolElementPtrArray x)
    (rm_PoolElementPtrArraySize x) (rm_PeerListNodePtr x) (rm_PeerListPtr x) (rm_HandlespacePtr x)
    (rm_MaxElementsPerHTRequest x) (rm_AssocID x) (rm_PPID x) (rm_SourceAddress x) (rm_Memory x).
Definition rm_set_PoolElementPtrArray (v : list (option PoolElementNode)) (x : RSerPoolMessage ST) : RSerPoolMessage ST :=
  MkRSerPoolMessage (rm_Type x) (rm_Flags x) (rm_Action x) (rm_Addresses x) (rm_Status x)
    (rm_ErrorCauseParameterTLV x) (rm_ErrorCauseParameterTLVLength x) (rm_Packet x) (rm_Identifier x)
    (rm_Checksum x) (rm_PolicySettings x) (rm_Handle x) (rm_RegistrarIdentifier x) (rm_SenderID x)
    (rm_ReceiverID x) (rm_PoolElementPtr x) (rm_CookiePtr x) (rm_CookieSize x) v
    (rm_PoolElementPtrArraySize x) (rm_PeerListNodePtr x) (rm_PeerListPtr x) (rm_HandlespacePtr x)
    (rm_MaxElementsPerHTRequest x) (rm_AssocID x) (rm_PPID x) (rm_SourceAddress x) (rm_Memory x).
Definition rm_set_PoolElementPtrArraySize (v : Z) (x : RSerPoolMessage ST) : RSerPoolMessage ST :=
  MkRSerPoolMessage (rm_Type x) (rm_Flags x) (rm_Action x) (rm_Addresses x) (rm_Status x)
    (rm_ErrorCauseParameterTLV x) (rm_ErrorCauseParameterTLVLength x) (rm_Packet x) (rm_Identifier x)
    (rm_Checksum x) (rm_PolicySettings x) (rm_Handle x) (rm_RegistrarIdentifier x) (rm_SenderID x)
    (rm_ReceiverID x) (rm_PoolElementPtr x) (rm_CookiePtr x) (rm_CookieSize x) (rm_PoolElementPtrArray x) v
    (rm_PeerListNodePtr x) (rm_PeerListPtr x) (rm_HandlespacePtr x) (rm_MaxElementsPerHTRequest x)
    (rm_AssocID x) (rm_PPID x) (rm_SourceAddress x) (rm_Memory x).
Definition rm_set_PeerListNodePtr (v : option PeerListNode) (x : RSerPoolMessage ST) : RSerPoolMessage ST :=
  MkRSerPoolMessage (rm_Type x) (rm_Flags x) (rm_Action x) (rm_Addresses x) (rm_Status x)
    (rm_ErrorCauseParameterTLV x) (rm_ErrorCauseParameterTLVLength x) (rm_Packet x) (rm_Identifier x)
    (rm_Checksum x) (rm_PolicySettings x) (rm_Handle x) (rm_RegistrarIdentifier x) (rm_SenderID x)
    (rm_ReceiverID x) (rm_PoolElementPtr x) (rm_CookiePtr x) (rm_CookieSize x) (rm_PoolElementPtrArray x)
    (rm_PoolElementPtrArraySize x) v (rm_PeerListPtr x) (rm_HandlespacePtr x) (rm_MaxElementsPerHTRequest x)
    (rm_AssocID x) (rm_PPID x) (rm_SourceAddress x) (rm_Memory x).
Definition rm_set_PeerListPtr (v : option (PeerListManagement ST)) (x : RSerPoolMessage ST) : RSerPoolMessage ST :=
  MkRSerPoolMessage (rm_Type x) (rm_Flags x) (rm_Action x) (rm_Addresses x) (rm_Status x)
    (rm_ErrorCauseParameterTLV x) (rm_ErrorCauseParameterTLVLength x) (rm_Packet x) (rm_Identifier x)
    (rm_Checksum x) (rm_PolicySettings x) (rm_Handle x) (rm_RegistrarIdentifier x) (rm_SenderID x)
    (rm_ReceiverID x) (rm_PoolElementPtr x) (rm_CookiePtr x) (rm_CookieSize x) (rm_PoolElementPtrArray x)
    (rm_PoolElementPtrArraySize x) (rm_PeerListNodePtr x) v (rm_HandlespacePtr x)
    (rm_MaxElementsPerHTRequest x) (rm_AssocID x) (rm_PPID x) (rm_SourceAddress x) (rm_Memory x).
Definition rm_set_HandlespacePtr (v : option (PoolHandlespaceManagement ST)) (x : RSerPoolMessage ST) : RSerPoolMessage ST :=
  MkRSerPoolMessage (rm_Type x) (rm_Flags x) (rm_Action x) (rm_Addresses x) (rm_Status x)
    (rm_ErrorCauseParameterTLV x) (rm_ErrorCauseParameterTLVLength x) (rm_Packet x) (rm_Identifier x)
    (rm_Checksum x) (rm_PolicySettings x) (rm_Handle x) (rm_RegistrarIdentifier x) (rm_SenderID x)
    (rm_ReceiverID x) (rm_PoolElementPtr x) (rm_CookiePtr x) (rm_CookieSize x) (rm_PoolElementPtrArray x)
    (rm_PoolElementPtrArraySize x) (rm_PeerListNodePtr x) (rm_PeerListPtr x) v (rm_MaxElementsPerHTRequest x)
    (rm_AssocID x) (rm_PPID x) (rm_SourceAddress x) (rm_Memory x).
Definition rm_set_MaxElementsPerHTRequest (v : Z) (x : RSerPoolMessage ST) : RSerPoolMessage ST :=
  MkRSerPoolMessage (rm_Type x) (rm_Flags x) (rm_Action x) (rm_Addresses x) (rm_Status x)
    (rm_ErrorCauseParameterTLV x) (rm_ErrorCauseParameterTLVLength x) (rm_Packet x) (rm_Identifier x)
    (rm_Checksum x) (rm_PolicySettings x) (rm_Handle x) (rm_RegistrarIdentifier x) (rm_SenderID x)
    (rm_ReceiverID x) (rm_PoolElementPtr x) (rm_CookiePtr x) (rm_CookieSize x) (rm_PoolElementPtrArray x)
    (rm_PoolElementPtrArraySize x) (rm_PeerListNodePtr x) (rm_PeerListPtr x) (rm_HandlespacePtr x) v
    (rm_AssocID x) (rm_PPID x) (rm_SourceAddress x) (rm_Memory x).
Definition rm_set_AssocID (v : Z) (x : RSerPoolMessage ST) : RSerPoolMessage ST :=
  MkRSerPoolMessage (rm_Type x) (rm_Flags x) (rm_Action x) (rm_Addresses x) (rm_Status x)
    (rm_ErrorCauseParameterTLV x) (rm_ErrorCauseParameterTLVLength x) (rm_Packet x) (rm_Identifier x)
    (rm_Checksum x) (rm_PolicySettings x) (rm_Handle x) (rm_RegistrarIdentifier x) (rm_SenderID x)
    (rm_ReceiverID x) (rm_PoolElementPtr x) (rm_CookiePtr x) (rm_CookieSize x) (rm_PoolElementPtrArray x)
    (rm_PoolElementPtrArraySize x) (rm_PeerListNodePtr x) (rm_PeerListPtr x) (rm_HandlespacePtr x)
    (rm_MaxElementsPerHTRequest x) v (rm_PPID x) (rm_SourceAddress x) (rm_Memory x).
Definition rm_set_PPID (v : Z) (x : RSerPoolMessage ST) : RSerPoolMessage ST :=
  MkRSerPoolMessage (rm_Type x) (rm_Flags x) (rm_Action x) (rm_Addresses x) (rm_Status x)
    (rm_ErrorCauseParameterTLV x) (rm_ErrorCauseParameterTLVLength x) (rm_Packet x) (rm_Identifier x)
    (rm_Checksum x) (rm_PolicySettings x) (rm_Handle x) (rm_RegistrarIdentifier x) (rm_SenderID x)
    (rm_ReceiverID x) (rm_PoolElementPtr x) (rm_CookiePtr x) (rm_CookieSize x) (rm_PoolElementPtrArray x)
    (rm_PoolElementPtrArraySize x) (rm_PeerListNodePtr x) (rm_PeerListPtr x) (rm_HandlespacePtr x)
    (rm_MaxElementsPerHTRequest x) (rm_AssocID x) v (rm_SourceAddress x) (rm_Memory x).
Definition rm_set_SourceAddress (v : sockaddr_union) (x : RSerPoolMessage ST) : RSerPoolMessage ST :=
  MkRSerPoolMessage (rm_Type x) (rm_Flags x) (rm_Action x) (rm_Addresses x) (rm_Status x)
    (rm_ErrorCauseParameterTLV x) (rm_ErrorCauseParameterTLVLength x) (rm_Packet x) (rm_Identifier x)
    (rm_Checksum x) (rm_PolicySettings x) (rm_Handle x) (rm_RegistrarIdentifier x) (rm_SenderID x)
    (rm_ReceiverID x) (rm_PoolElementPtr x) (rm_CookiePtr x) (rm_CookieSize x) (rm_PoolElementPtrArray x)
    (rm_PoolElementPtrArraySize x) (rm_PeerListNodePtr x) (rm_PeerListPtr x) (rm_HandlespacePtr x)
    (rm_MaxElementsPerHTRequest x) (rm_AssocID x) (rm_PPID x) v (rm_Memory x).
Definition rm_set_Memory (v : list bool) (x : RSerPoolMessage ST) : RSerPoolMessage ST :=
  MkRSerPoolMessage (rm_Type x) (rm_Flags x) (rm_Action x) (rm_Addresses x) (rm_Status x)
    (rm_ErrorCauseParameterTLV x) (rm_ErrorCauseParameterTLVLength x) (rm_Packet x) (rm_Identifier x)
    (rm_Checksum x) (rm_PolicySettings x) (rm_Handle x) (rm_RegistrarIdentifier x) (rm_SenderID x)
    (rm_ReceiverID x) (rm_PoolElementPtr x) (rm_CookiePtr x) (rm_CookieSize x) (rm_PoolElementPtrArray x)
    (rm_PoolElementPtrArraySize x) (rm_PeerListNodePtr x) (rm_PeerListPtr x) (rm_HandlespacePtr x)
    (rm_MaxElementsPerHTRequest x) (rm_AssocID x) (rm_PPID x) (rm_SourceAddress x) v.

Definition Position (m : Msg) : Z := pb_Position (rm_Packet m).
Definition BufferSize (m : Msg) : Z := pb_BufferSize (rm_Packet m).
Definition Buffer (m : Msg) : list Z := pb_Buffer (rm_Packet m).
Definition Error (m : Msg) : Z := ms_Error (rm_Status m).

Definition set_Position (p : Z) (m : Msg) : Msg := rm_set_Packet (pb_set_Position p (rm_Packet m)) m.
Definition set_Buffer (b : list Z) (m : Msg) : Msg := rm_set_Packet (pb_set_Buffer b (rm_Packet m)) m.
Definition on_Status (f : MessageStatus → MessageStatus) (m : Msg) : Msg := rm_set_Status (f (rm_Status m)) m.
Definition set_Error (e : Z) : M Msg () := modify (on_Status (ms_set_Error e)).

(** [malloc]: whether the next allocation succeeds. *)
Definition malloc : M Msg bool := λ m,
  match rm_Memory m with
  | [] => Some (true, m)
  | b :: mem => Some (b, rm_set_Memory mem m)
  end.

(** ** The buffer *)

(** [&message->Buffer[offset]] read or written as [n] bytes. *)
Definition loadBytes (offset n : Z) : M Msg (list Z) := λ m,
  if (0 <=? offset) && (offset + n <=? Z.of_nat (length (Buffer m)))
  then Some (take (Z.to_nat n) (drop (Z.to_nat offset) (Buffer m)), m) else None.

Definition storeBytes (offset : Z) (bytes : list Z) : M Msg () := λ m,
  if (0 <=? offset) && (offset + Z.of_nat (length bytes) <=? Z.of_nat (length (Buffer m)))
  then Some (tt, set_Buffer (take (Z.to_nat offset) (Buffer m) ++ bytes ++
                             drop (Z.to_nat offset + length bytes) (Buffer m)) m)
  else None.

(** [ntohs]/[ntohl] of the bytes at [offset]. *)
Definition ntohsAt (offset : Z) : M Msg Z := b ← loadBytes offset 2; mret (be_value b).
Definition ntohlAt (offset : Z) : M Msg Z := b ← loadBytes offset 4; mret (be_value b).

(** The sum is computed in [size_t]. *)
Definition getSpace (headerSize : Z) : M Msg (option Z) := λ m,
  if u64 (Position m + headerSize) <=? BufferSize m
  then Some (Some (Position m), set_Position (u64 (Position m + headerSize)) m)
  else Some (None, m).

Definition rserpoolMessageClearBuffer : M Msg () :=
  modify (λ m, rm_set_Packet (pb_set_Position 0 (pb_set_BufferSize (pb_OriginalBufferSize (rm_Packet m)) (rm_Packet m))) m).

(** All members zero, but for the buffer. *)
Definition rserpoolMessageNew (buffer : list Z) (bufferSize : Z) : Msg :=
  {| rm_Type := 0; rm_Flags := 0; rm_Action := 0; rm_Addresses := 0;
     rm_Status := MkMessageStatus 0 None 0 0 None 0;
     rm_ErrorCauseParameterTLV := None; rm_ErrorCauseParameterTLVLength := 0;
     rm_Packet := MkPacketBuffer buffer bufferSize bufferSize 0;
     rm_Identifier := 0; rm_Checksum := 0; rm_PolicySettings := MkPPS 0 0 0 0 0 0 0;
     rm_Handle := MkPoolHandle 0 []; rm_RegistrarIdentifier := 0; rm_SenderID := 0; rm_ReceiverID := 0;
     rm_PoolElementPtr := None; rm_CookiePtr := None; rm_CookieSize := 0;
     rm_PoolElementPtrArray := replicate (Z.to_nat MAX_MAX_HANDLE_RESOLUTION_ITEMS) None;
     rm_PoolElementPtrArraySize := 0;
     rm_PeerListNodePtr := None; rm_PeerListPtr := None; rm_HandlespacePtr := None;
     rm_MaxElementsPerHTRequest := 0; rm_AssocID := 0; rm_PPID := 0;
     rm_SourceAddress := sockaddr_other 0; rm_Memory := [] |}.

(** ** Early returns *)

(** [if(c == false) { return(false); } k] *)
Definition andThen (c k : M Msg bool) : M Msg bool := b ← c; if b : bool then k else mret false.

(** [p = getSpace(message, n); if(p == NULL) { return(false); } k] *)
Definition withSpace (n : Z) (k : Z → M Msg bool) : M Msg bool :=
  p ← getSpace n; match p with Some offset => k offset | None => mret false end.
End message.

Declare Scope message_scope.
Delimit Scope message_scope with message.
Infix ">>>" := andThen (at level 62, right associativity) : message_scope.
