(* ===== verification/MessageCreator.v ===== *)
(** * Creation of packets (rserpoolmessagecreator.c)

    One definition per parameter and per message, in the order of the
    source.  A creator returns [true], or [false] when the buffer is full;
    [LOG_END_FATAL], a failed CHECK and [memset] on a NULL pointer fail.
    (The log level is at least LOGLEVEL_ERROR, its default: [LOG_END_FATAL]
    then ends the process.) *)

From S2P Require Import Prelude Addresses PoolBasics Storage PoolElement PoolPolicy HandlespaceState HandlespaceMgt PeerList Message.
From stdpp Require Import base list gmap numbers option.
#[local] Open Scope Z_scope.
#[local] Open Scope message_scope.

(** ** Policies: the members of the wire structure behind the type *)

Inductive PolicyField := FWeight | FLoad | FLoadDegradation | FLoadDPF | FWeightDPF | FDistance.

Definition policyField (pps : PoolPolicySettings) (f : PolicyField) : Z :=
  match f with
  | FWeight => pps_Weight pps
  | FLoad => pps_Load pps
  | FLoadDegradation => pps_LoadDegradation pps
  | FLoadDPF => pps_LoadDPF pps
  | FWeightDPF => pps_WeightDPF pps
  | FDistance => pps_Distance pps
  end.

Definition createdPolicyFields (policyType : Z) : option (list PolicyField) :=
  if policyType =? PPT_RANDOM then Some []
  else if policyType =? PPT_WEIGHTED_RANDOM then Some [FWeight]
  else if policyType =? PPT_WEIGHTED_RANDOM_DPF then Some [FWeight; FWeightDPF; FDistance]
  else if policyType =? PPT_ROUNDROBIN then Some []
  else if policyType =? PPT_WEIGHTED_ROUNDROBIN then Some [FWeight]
  else if policyType =? PPT_PRIORITY then Some [FWeight]
  else if policyType =? PPT_LEASTUSED then Some [FLoad]
  else if policyType =? PPT_LEASTUSED_DPF then Some [FLoad; FLoadDPF; FDistance]
  else if policyType =? PPT_LEASTUSED_DEGRADATION then Some [FLoad; FLoadDegradation]
  else if policyType =? PPT_LEASTUSED_DEGRADATION_DPF then Some [FLoad; FLoadDegradation; FLoadDPF; FDistance]
  else if policyType =? PPT_PRIORITY_LEASTUSED then Some [FLoad; FLoadDegradation]
  else if policyType =? PPT_PRIORITY_LEASTUSED_DEGRADATION then Some [FLoad; FLoadDegradation]
  else if policyType =? PPT_RANDOMIZED_LEASTUSED then Some [FLoad]
  else if policyType =? PPT_RANDOMIZED_LEASTUSED_DEGRADATION then Some [FLoad; FLoadDegradation]
  else if policyType =? PPT_RANDOMIZED_PRIORITY_LEASTUSED then Some [FLoad; FLoadDegradation]
  else if policyType =? PPT_RANDOMIZED_PRIORITY_LEASTUSED_DEGRADATION then Some [FLoad; FLoadDegradation]
  else None.

(** The transport parameter's type, by protocol. *)
Definition transportType (protocol : Z) : option Z :=
  if protocol =? IPPROTO_SCTP then Some ATT_SCTP_TRANSPORT
  else if protocol =? IPPROTO_TCP then Some ATT_TCP_TRANSPORT
  else if protocol =? IPPROTO_UDP then Some ATT_UDP_TRANSPORT
  else None.

Section creator.
Context {ST : Type} `{Storage ST} `{Endian}.
Abbreviation Msg := (RSerPoolMessage ST).

(** ** Headers *)

(** [getSpace] and the assignments to the structure there. *)
Definition putBytes (bytes : list Z) : M Msg bool :=
  withSpace (Z.of_nat (length bytes)) (λ offset, storeBytes offset bytes;; mret true).

Definition beginMessage (type flags ppid : Z) : M Msg bool :=
  withSpace 4 (λ header,
    modify (rm_set_PPID ppid);;
    storeBytes header ([Z.land type 255; flags] ++ [255; 255]);;
    mret true).

(** [pad = getSpace(message, padding); memset(pad, 0, padding)] *)
Definition putPadding (padding : Z) : M Msg () :=
  pad ← getSpace padding;
  match pad with
  | Some offset => storeBytes offset (replicate (Z.to_nat padding) 0)
  | None => CHECK (padding =? 0)
  end.

Definition finishMessage : M Msg bool :=
  m ← get;
  let padding := getPadding (Position m) 4 in
  if 4 <=? BufferSize m then
    storeBytes 2 (htons (Position m));;
    putPadding padding;;
    mret true
  else mret false.

(** Returns [*tlvPosition]. *)
Definition beginTLV (type : Z) : M Msg (option Z) :=
  header ← getSpace 4;
  match header with
  | None => mret None
  | Some tlvPosition =>
      storeBytes tlvPosition (htons type ++ [255; 255]);;
      mret (Some tlvPosition)
  end.

Definition finishTLV (tlvPosition : Z) : M Msg bool :=
  m ← get;
  let length := Position m - tlvPosition in
  let padding := getPadding length 4 in
  if 4 <=? BufferSize m then
    storeBytes (tlvPosition + 2) (htons length);;
    putPadding padding;;
    mret true
  else mret false.

(** A parameter: [beginTLV], the body, [finishTLV]. *)
Definition withinTLV (type : Z) (body : M Msg bool) : M Msg bool :=
  tlv ← beginTLV type;
  match tlv with
  | None => mret false
  | Some tlvPosition => body >>> finishTLV tlvPosition
  end.

(** A message: [beginMessage], the body, [finishMessage]. *)
Definition withinMessage (type flags ppid : Z) (body : M Msg bool) : M Msg bool :=
  beginMessage type flags ppid >>> body >>> finishMessage.

(** ** Parameters *)

Definition createPoolHandleParameter (poolHandle : PoolHandle) : M Msg bool :=
  withinTLV ATT_POOL_HANDLE (putBytes (take (Z.to_nat (ph_Size poolHandle)) (ph_Handle poolHandle))).

Definition createAddressParameter (address : sockaddr_union) : M Msg bool :=
  match address with
  | sockaddr_in a _ => withinTLV ATT_IPv4_ADDRESS (putBytes a)
  | sockaddr_in6 a _ =>
      if negb (IN6_IS_ADDR_V4MAPPED a) then withinTLV ATT_IPv6_ADDRESS (putBytes a)
      else withinTLV ATT_IPv4_ADDRESS (putBytes (drop 12 a))
  | sockaddr_other _ => abort
  end.

(** The loop over the addresses; [i] is the index of the first of [l]. *)
Fixpoint createAddresses (type i : Z) (l : list sockaddr_union) : M Msg bool :=
  match l with
  | [] => mret true
  | a :: l' =>
      createAddressParameter a >>>
      (if (0 <? i) && negb (type =? ATT_SCTP_TRANSPORT) then abort else createAddresses type (i + 1) l')
  end.

Definition createTransportParameter (transportAddressBlock : option TransportAddressBlock) : M Msg bool :=
  match transportAddressBlock with
  | None => abort
  | Some t =>
      type ← deref (λ _, transportType (tab_Protocol t));
      let transportUse := if flag_test (tab_Flags t) TABF_CONTROLCHANNEL then UTP_DATA_PLUS_CONTROL else UTP_DATA_ONLY in
      withinTLV type (
        putBytes (htons (tab_Port t) ++ htons (if type =? ATT_UDP_TRANSPORT then 0 else transportUse)) >>>
        createAddresses type 0 (tab_AddressArray t))
  end.

Definition createPolicyParameter (poolPolicySettings : PoolPolicySettings) : M Msg bool :=
  withinTLV ATT_POOL_POLICY (
    fields ← deref (λ _, createdPolicyFields (pps_PolicyType poolPolicySettings));
    putBytes (htonl (pps_PolicyType poolPolicySettings) ++
              (fields ≫= λ f, htonl (policyField poolPolicySettings f)))).

Definition createPoolElementParameter (poolElement : option PoolElementNode) (includeRegistratorTransport : bool) :
    M Msg bool :=
  match poolElement with
  | None => abort
  | Some pe =>
      withinTLV ATT_POOL_ELEMENT (
        putBytes (htonl (pen_Identifier pe) ++ htonl (pen_HomeRegistrarIdentifier pe) ++ htonl (pen_RegistrationLife pe)) >>>
        createTransportParameter (Some (pen_UserTransport pe)) >>>
        createPolicyParameter (pen_PolicySettings pe) >>>
        (if includeRegistratorTransport then
           CHECK (bool_decide (pen_RegistratorTransport pe ≠ None));;
           createTransportParameter (pen_RegistratorTransport pe)
         else mret true))
  end.

Definition createPoolElementIdentifierParameter (poolElementIdentifier : Z) : M Msg bool :=
  withinTLV ATT_POOL_ELEMENT_IDENTIFIER (putBytes (htonl poolElementIdentifier)).

(** The checksum is stored as it is in memory: in host byte order. *)
Definition createHandlespaceChecksumParameter (poolElementChecksum : Z) : M Msg bool :=
  withinTLV ATT_POOL_ELEMENT_CHECKSUM (putBytes (st16 poolElementChecksum)).

(** The causes that carry the offending parameter. *)
Definition causeHasData (cause : Z) : bool :=
  (cause =? RSPERR_UNRECOGNIZED_PARAMETER) || (cause =? RSPERR_INVALID_TLV) || (cause =? RSPERR_INVALID_VALUE).

Definition createErrorParameter : M Msg bool :=
  withinTLV ATT_OPERATION_ERROR (
    m ← get;
    CHECK (bool_decide (rm_ErrorCauseParameterTLV m ≠ None) || (rm_ErrorCauseParameterTLVLength m =? 0));;
    let cause := Error m in
    let data := if causeHasData cause
                then take (Z.to_nat (rm_ErrorCauseParameterTLVLength m)) (default [] (rm_ErrorCauseParameterTLV m))
                else [] in
    putBytes (htons cause ++ htons (4 + Z.of_nat (length data)) ++ data)).

Definition createCookieParameter (cookie : option (list Z)) (cookieSize : Z) : M Msg bool :=
  withinTLV ATT_COOKIE (
    withSpace cookieSize (λ buffer,
      c ← deref (λ _, cookie);
      storeBytes buffer (take (Z.to_nat cookieSize) c);;
      mret true)).

Definition createServerInformationParameter (peerListNode : option PeerListNode) : M Msg bool :=
  withinTLV ATT_SERVER_INFORMATION (
    withSpace 4 (λ sip,
      n ← deref (λ _, peerListNode);
      storeBytes sip (htonl (pln_Identifier n));;
      createTransportParameter (pln_AddressBlock n))).

Definition createHandleResolutionParameter (items : Z) : M Msg bool :=
  withinTLV (Z.lor ATT_HANDLE_RESOLUTION ATT_ACTION_CONTINUE)
    (putBytes (if items =? RSPGETADDRS_MAX then [255; 255; 255; 255] else htonl items)).

(** ** ASAP messages *)

Definition createEndpointKeepAliveMessage : M Msg bool :=
  m ← get;
  withinMessage AHT_ENDPOINT_KEEP_ALIVE (Z.land (rm_Flags m) AHF_ENDPOINT_KEEP_ALIVE_HOME) PPID_ASAP (
    putBytes (htonl (rm_RegistrarIdentifier m)) >>>
    createPoolHandleParameter (rm_Handle m) >>>
    (if negb (rm_Identifier m =? 0) then createPoolElementIdentifierParameter (rm_Identifier m) else mret true)).

Definition createEndpointKeepAliveAckMessage : M Msg bool :=
  m ← get;
  withinMessage AHT_ENDPOINT_KEEP_ALIVE_ACK (Z.land (rm_Flags m) 0) PPID_ASAP (
    createPoolHandleParameter (rm_Handle m) >>> createPoolElementIdentifierParameter (rm_Identifier m)).

Definition createEndpointUnreachableMessage : M Msg bool :=
  m ← get;
  withinMessage AHT_ENDPOINT_UNREACHABLE (Z.land (rm_Flags m) 0) PPID_ASAP (
    createPoolHandleParameter (rm_Handle m) >>> createPoolElementIdentifierParameter (rm_Identifier m)).

Definition createRegistrationMessage : M Msg bool :=
  m ← get;
  pe ← deref (λ _, rm_PoolElementPtr m);
  CHECK (bool_decide (pen_RegistratorTransport pe = None));;
  withinMessage AHT_REGISTRATION (Z.land (rm_Flags m) 0) PPID_ASAP (
    createPoolHandleParameter (rm_Handle m) >>>
    createPoolElementParameter (rm_PoolElementPtr m) false >>>
    (if negb (Error m =? 0) then createErrorParameter else mret true)).

Definition createRegistrationResponseMessage : M Msg bool :=
  m ← get;
  match rm_PoolElementPtr m with
  | None => abort
  | Some _ =>
      withinMessage AHT_REGISTRATION_RESPONSE (Z.land (rm_Flags m) AHF_REGISTRATION_REJECT) PPID_ASAP (
        createPoolHandleParameter (rm_Handle m) >>>
        createPoolElementIdentifierParameter (rm_Identifier m) >>>
        (if negb (Error m =? 0) then createErrorParameter else mret true))
  end.

Definition createDeregistrationMessage : M Msg bool :=
  m ← get;
  withinMessage AHT_DEREGISTRATION (Z.land (rm_Flags m) 0) PPID_ASAP (
    createPoolHandleParameter (rm_Handle m) >>> createPoolElementIdentifierParameter (rm_Identifier m)).

Definition createDeregistrationResponseMessage : M Msg bool :=
  m ← get;
  withinMessage AHT_DEREGISTRATION_RESPONSE (Z.land (rm_Flags m) 0) PPID_ASAP (
    createPoolHandleParameter (rm_Handle m) >>>
    createPoolElementIdentifierParameter (rm_Identifier m) >>>
    (if negb (Error m =? 0) then createErrorParameter else mret true)).

Definition createHandleResolutionMessage : M Msg bool :=
  m ← get;
  withinMessage AHT_HANDLE_RESOLUTION (Z.land (rm_Flags m) 0) PPID_ASAP (
    createPoolHandleParameter (rm_Handle m) >>>
    (if negb (rm_Addresses m =? 0) then createHandleResolutionParameter (rm_Addresses m) else mret true)).

(** The loop over [PoolElementPtrArray]. *)
Fixpoint createPoolElements (l : list (option PoolElementNode)) : M Msg bool :=
  match l with
  | [] => mret true
  | pe :: l' => createPoolElementParameter pe false >>> createPoolElements l'
  end.

Definition createHandleResolutionResponseMessage : M Msg bool :=
  m ← get;
  CHECK (rm_PoolElementPtrArraySize m <=? MAX_MAX_HANDLE_RESOLUTION_ITEMS);;
  withinMessage AHT_HANDLE_RESOLUTION_RESPONSE (Z.land (rm_Flags m) 0) PPID_ASAP (
    createPoolHandleParameter (rm_Handle m) >>>
    (if Error m =? 0 then
       createPolicyParameter (rm_PolicySettings m) >>>
       createPoolElements (take (Z.to_nat (rm_PoolElementPtrArraySize m)) (rm_PoolElementPtrArray m))
     else createErrorParameter)).

Definition createBusinessCardMessage : M Msg bool :=
  m ← get;
  CHECK (0 <? rm_PoolElementPtrArraySize m);;
  CHECK (rm_PoolElementPtrArraySize m <? MAX_MAX_HANDLE_RESOLUTION_ITEMS);;
  withinMessage AHT_BUSINESS_CARD (Z.land (rm_Flags m) 0) PPID_ASAP (
    createPoolHandleParameter (rm_Handle m) >>>
    createPolicyParameter (rm_PolicySettings m) >>>
    createPoolElements (take (Z.to_nat (rm_PoolElementPtrArraySize m)) (rm_PoolElementPtrArray m))).

Definition createServerAnnounceMessage : M Msg bool :=
  m ← get;
  withinMessage AHT_SERVER_ANNOUNCE (Z.land (rm_Flags m) 0) PPID_ASAP (
    putBytes (htonl (rm_RegistrarIdentifier m))).

Definition createCookieMessage : M Msg bool :=
  m ← get;
  withinMessage AHT_COOKIE (Z.land (rm_Flags m) 0) PPID_ASAP (
    createCookieParameter (rm_CookiePtr m) (rm_CookieSize m)).

Definition createCookieEchoMessage : M Msg bool :=
  m ← get;
  withinMessage AHT_COOKIE_ECHO (Z.land (rm_Flags m) 0) PPID_ASAP (
    createCookieParameter (rm_CookiePtr m) (rm_CookieSize m)).

(** ** ENRP messages *)

(** [struct rserpool_serverparameter] and [struct rserpool_targetparameter] *)
Definition serverParameter (m : Msg) : list Z := htonl (rm_SenderID m) ++ htonl (rm_ReceiverID m).
Definition targetParameter (m : Msg) : list Z :=
  htonl (rm_SenderID m) ++ htonl (rm_ReceiverID m) ++ htonl (rm_RegistrarIdentifier m).

Definition createPresenceMessage : M Msg bool :=
  m ← get;
  withinMessage EHT_PRESENCE (Z.land (rm_Flags m) EHF_PRESENCE_REPLY_REQUIRED) PPID_ENRP (
    putBytes (serverParameter m) >>>
    createHandlespaceChecksumParameter (rm_Checksum m) >>>
    createServerInformationParameter (rm_PeerListNodePtr m)).

Definition createListRequestMessage : M Msg bool :=
  m ← get;
  withinMessage EHT_LIST_REQUEST (Z.land (rm_Flags m) 0) PPID_ENRP (putBytes (serverParameter m)).

(** The list is cut where the buffer is full. *)
Fixpoint createPeers (fuel : nat) (plm : PeerListManagement ST) (peerListNode : option ptr) : M Msg bool :=
  match peerListNode with
  | None => mret true
  | Some p =>
      match fuel with
      | O => abort
      | S fuel' =>
          oldPosition ← gets Position;
          n ← deref (λ _, pl_PeerListNodes (plm_List plm) !! p);
          ok ← createServerInformationParameter (Some n);
          if ok : bool then
            next ← deref (λ _, fst <$> peerListGetNextPeerListNodeFromIndexStorage p (plm_List plm));
            createPeers fuel' plm next
          else
            modify (set_Position oldPosition);;
            mret true
      end
  end.

Definition createListResponseMessage : M Msg bool :=
  m ← get;
  match rm_PeerListPtr m with
  | None => abort
  | Some plm =>
      withinMessage EHT_LIST_RESPONSE (Z.land (rm_Flags m) EHF_LIST_RESPONSE_REJECT) PPID_ENRP (
        putBytes (serverParameter m) >>>
        (first ← deref (λ _, fst <$> peerListGetFirstPeerListNodeFromIndexStorage (plm_List plm));
         createPeers (length (st_list (pl_PeerListIndexStorage (plm_List plm)))) plm first))
  end.

Definition createHandleTableRequestMessage : M Msg bool :=
  m ← get;
  withinMessage EHT_HANDLE_TABLE_REQUEST (Z.land (rm_Flags m) EHF_HANDLE_TABLE_REQUEST_OWN_CHILDREN_ONLY) PPID_ENRP (
    putBytes (serverParameter m)).

(** An operation on [message->HandlespacePtr]. *)
Definition onHandlespacePtr {A} (f : M (PoolHandlespaceManagement ST) A) : M Msg A := λ m,
  match rm_HandlespacePtr m with
  | Some phm =>
      match f phm with
      | Some (a, phm') => Some (a, rm_set_HandlespacePtr (Some phm') m)
      | None => None
      end
  | None => None
  end.

(** [message->PeerListNodePtr->UserData = hte] *)
Definition setExtract (hte : option HandleTableExtract) : M Msg () :=
  modify (λ m, rm_set_PeerListNodePtr (pln_set_UserData hte <$> rm_PeerListNodePtr m) m).

(** [header->ah_flags |= EHF_HANDLE_TABLE_RESPONSE_MORE_TO_SEND]; the
    header is at the begin of the buffer. *)
Definition setMoreToSend : M Msg () :=
  flags ← loadBytes 1 1;
  storeBytes 1 ((λ f, Z.lor f EHF_HANDLE_TABLE_RESPONSE_MORE_TO_SEND) <$> flags).

(** The buffer is full at element [i]: [None] is [return(false)]. *)
Definition cutTable (i oldPosition : Z) : M Msg (option Z) :=
  if i <? 1 then mret None
  else
    modify (set_Position oldPosition);;
    setMoreToSend;;
    mret (Some i).

(** The loop over the elements of the extract; returns [i] after it. *)
Fixpoint createTableElements (nodes : list ptr) (i : Z) (lastPool : option ptr) (oldPosition : Z) (hte : HandleTableExtract) :
    M Msg (option Z) :=
  match nodes with
  | [] => mret (Some i)
  | p :: nodes' =>
      n ← onHandlespacePtr (onHandlespace (pe_get p));
      pp ← deref (λ _, pen_OwnerPoolNode n);
      pn ← onHandlespacePtr (onHandlespace (pool_get pp));
      position ← gets Position;
      let newPool := bool_decide (lastPool ≠ Some pp) in
      let oldPosition := if newPool then position else oldPosition in
      ok ← (if newPool then createPoolHandleParameter (pn_Handle pn) else mret true);
      if ok : bool then
        CHECK (bool_decide (pen_RegistratorTransport n ≠ None));;
        ok ← createPoolElementParameter (Some n) true;
        if ok : bool then
          let hte := MkHandleTableExtract (pn_Handle pn) (pen_Identifier n) (hte_PoolElementNodeArray hte) in
          setExtract (Some hte);;
          position ← gets Position;
          createTableElements nodes' (i + 1) (Some pp) position hte
        else cutTable i oldPosition
      else cutTable i oldPosition
  end.

(** The part of the response behind the server parameter. *)
Definition createTable (peerListNode : PeerListNode) : M Msg bool :=
  m ← get;
  let own := if flag_test (rm_Action m) EHF_HANDLE_TABLE_REQUEST_OWN_CHILDREN_ONLY then HTEF_OWNCHILDSONLY else 0 in
  start ← match pln_UserData peerListNode with
          | Some hte => mret (Some (hte, own))
          | None =>
              ok ← malloc;
              if ok : bool then
                let hte := MkHandleTableExtract (MkPoolHandle 0 []) 0 [] in
                setExtract (Some hte);;
                mret (Some (hte, Z.lor own HTEF_START))
              else mret None
          end;
  match start with
  | None => mret false
  | Some (hte, flags) =>
      oldPosition ← gets Position;
      home ← onHandlespacePtr (onHandlespace (gets hs_HomeRegistrarIdentifier));
      r ← onHandlespacePtr (poolHandlespaceManagementGetHandleTable home hte flags (rm_MaxElementsPerHTRequest m));
      let '(result, hte) := r in
      setExtract (Some hte);;
      done ← (if result : bool then
                written ← createTableElements (hte_PoolElementNodeArray hte) 0 None oldPosition hte;
                match written with
                | None => mret false
                | Some i =>
                    let nodes := Z.of_nat (length (hte_PoolElementNodeArray hte)) in
                    (if (nodes =? Z.min (rm_MaxElementsPerHTRequest m) NTE_MAX_POOL_ELEMENT_NODES) || negb (i =? nodes)
                     then setMoreToSend else mret tt);;
                    mret true
                end
              else mret true);
      if done : bool then
        flags ← loadBytes 1 1;
        (if flag_test (be_value flags) EHF_HANDLE_TABLE_RESPONSE_MORE_TO_SEND then mret tt else setExtract None);;
        mret true
      else mret false
  end.

Definition createHandleTableResponseMessage : M Msg bool :=
  m ← get;
  withinMessage EHT_HANDLE_TABLE_RESPONSE (Z.land (rm_Flags m) EHF_HANDLE_TABLE_RESPONSE_REJECT) PPID_ENRP (
    putBytes (serverParameter m) >>>
    match rm_PeerListNodePtr m with
    | Some peerListNode => createTable peerListNode
    | None => mret true
    end).

Definition createHandleUpdateMessage : M Msg bool :=
  m ← get;
  pe ← deref (λ _, rm_PoolElementPtr m);
  CHECK (bool_decide (pen_RegistratorTransport pe ≠ None));;
  withinMessage EHT_HANDLE_UPDATE (Z.land (rm_Flags m) EHF_TAKEOVER_SUGGESTED) PPID_ENRP (
    putBytes (htonl (rm_SenderID m) ++ htonl (rm_ReceiverID m) ++ htons (rm_Action m) ++ htons 0) >>>
    createPoolHandleParameter (rm_Handle m) >>>
    createPoolElementParameter (rm_PoolElementPtr m) true).

Definition createInitTakeoverMessage : M Msg bool :=
  m ← get;
  withinMessage EHT_INIT_TAKEOVER (Z.land (rm_Flags m) 0) PPID_ENRP (putBytes (targetParameter m)).

Definition createInitTakeoverAckMessage : M Msg bool :=
  m ← get;
  withinMessage EHT_INIT_TAKEOVER_ACK (Z.land (rm_Flags m) 0) PPID_ENRP (putBytes (targetParameter m)).

Definition createTakeoverServerMessage : M Msg bool :=
  m ← get;
  withinMessage EHT_TAKEOVER_SERVER (Z.land (rm_Flags m) 0) PPID_ENRP (putBytes (targetParameter m)).

Definition createENRPErrorMessage : M Msg bool :=
  m ← get;
  withinMessage EHT_ERROR (Z.land (rm_Flags m) 0) PPID_ENRP (putBytes (serverParameter m) >>> createErrorParameter).

Definition createASAPErrorMessage : M Msg bool :=
  m ← get;
  withinMessage AHT_ERROR (Z.land (rm_Flags m) 0) PPID_ASAP createErrorParameter.

(** ** Conversion *)

Definition creatorOf (type : Z) : M Msg bool :=
  if type =? AHT_HANDLE_RESOLUTION then createHandleResolutionMessage
  else if type =? AHT_HANDLE_RESOLUTION_RESPONSE then createHandleResolutionResponseMessage
  else if type =? AHT_ENDPOINT_KEEP_ALIVE then createEndpointKeepAliveMessage
  else if type =? AHT_ENDPOINT_KEEP_ALIVE_ACK then createEndpointKeepAliveAckMessage
  else if type =? AHT_SERVER_ANNOUNCE then createServerAnnounceMessage
  else if type =? AHT_REGISTRATION then createRegistrationMessage
  else if type =? AHT_REGISTRATION_RESPONSE then createRegistrationResponseMessage
  else if type =? AHT_DEREGISTRATION then createDeregistrationMessage
  else if type =? AHT_DEREGISTRATION_RESPONSE then createDeregistrationResponseMessage
  else if type =? AHT_COOKIE then createCookieMessage
  else if type =? AHT_COOKIE_ECHO then createCookieEchoMessage
  else if type =? AHT_BUSINESS_CARD then createBusinessCardMessage
  else if type =? AHT_ENDPOINT_UNREACHABLE then createEndpointUnreachableMessage
  else if type =? AHT_ERROR then createASAPErrorMessage
  else if type =? EHT_PRESENCE then createPresenceMessage
  else if type =? EHT_HANDLE_TABLE_REQUEST then createHandleTableRequestMessage
  else if type =? EHT_HANDLE_TABLE_RESPONSE then createHandleTableResponseMessage
  else if type =? EHT_HANDLE_UPDATE then createHandleUpdateMessage
  else if type =? EHT_LIST_REQUEST then createListRequestMessage
  else if type =? EHT_LIST_RESPONSE then createListResponseMessage
  else if type =? EHT_INIT_TAKEOVER then createInitTakeoverMessage
  else if type =? EHT_INIT_TAKEOVER_ACK then createInitTakeoverAckMessage
  else if type =? EHT_TAKEOVER_SERVER then createTakeoverServerMessage
  else if type =? EHT_ERROR then createENRPErrorMessage
  else abort.

(** "Message creation failed" is fatal. *)
Definition rserpoolMessage2Packet : M Msg Z :=
  rserpoolMessageClearBuffer;;
  m ← get;
  created ← creatorOf (rm_Type m);
  if created : bool then gets Position else abort.
End creator.
