(* ===== verification/MessageParser.v ===== *)
(** * Scanning of packets (rserpoolmessageparser.c)

    One definition per parameter and per message, in the order of the
    source.  Reads outside the memory of the buffer fail, as do failed
    CHECKs; loops have fuel for one round per byte of the packet. *)

From S2P Require Import Prelude Addresses PoolBasics Storage PoolElement PoolPolicy HandlespaceState HandlespaceMgt PeerList Message MessageCreator.
From stdpp Require Import base list gmap numbers option.
#[local] Open Scope Z_scope.
#[local] Open Scope message_scope.

(** Policies: the members behind the type, the error when the parameter is
    too short, and the one when the packet ends within it. *)
Record PolicyLayout := MkLayout { lay_Fields : list PolicyField; lay_TooShort : Z; lay_NoSpace : option Z }.

Definition scannedPolicy (policyType : Z) : option PolicyLayout :=
  let layout fields := Some (MkLayout fields RSPERR_INVALID_VALUE (Some RSPERR_INVALID_VALUE)) in
  if policyType =? PPT_LEASTUSED then layout [FLoad]
  else if policyType =? PPT_LEASTUSED_DPF then layout [FLoad; FLoadDPF; FDistance]
  else if policyType =? PPT_LEASTUSED_DEGRADATION then layout [FLoad; FLoadDegradation]
  else if policyType =? PPT_LEASTUSED_DEGRADATION_DPF then layout [FLoad; FLoadDegradation; FLoadDPF; FDistance]
  else if policyType =? PPT_PRIORITY_LEASTUSED then layout [FLoad; FLoadDegradation]
  else if policyType =? PPT_PRIORITY_LEASTUSED_DEGRADATION then layout [FLoad; FLoadDegradation]
  else if policyType =? PPT_RANDOM then layout []
  else if policyType =? PPT_WEIGHTED_RANDOM then Some (MkLayout [FWeight] RSPERR_INVALID_TLV (Some RSPERR_INVALID_VALUE))
  else if policyType =? PPT_WEIGHTED_RANDOM_DPF then layout [FWeight; FWeightDPF; FDistance]
  else if policyType =? PPT_ROUNDROBIN then layout []
  else if policyType =? PPT_WEIGHTED_ROUNDROBIN then layout [FWeight]
  else if policyType =? PPT_PRIORITY then layout [FWeight]
  else if policyType =? PPT_RANDOMIZED_LEASTUSED then Some (MkLayout [FLoad] RSPERR_INVALID_TLV None)
  else if policyType =? PPT_RANDOMIZED_LEASTUSED_DEGRADATION then Some (MkLayout [FLoad; FLoadDegradation] RSPERR_INVALID_VALUE None)
  else if policyType =? PPT_RANDOMIZED_PRIORITY_LEASTUSED then Some (MkLayout [FLoad; FLoadDegradation] RSPERR_INVALID_VALUE None)
  else if policyType =? PPT_RANDOMIZED_PRIORITY_LEASTUSED_DEGRADATION then Some (MkLayout [FLoad; FLoadDegradation] RSPERR_INVALID_VALUE None)
  else None.

Definition setPolicyField (f : PolicyField) (v : Z) (pps : PoolPolicySettings) : PoolPolicySettings :=
  match f with
  | FWeight => MkPPS (pps_PolicyType pps) v (pps_Load pps) (pps_LoadDegradation pps) (pps_LoadDPF pps) (pps_WeightDPF pps) (pps_Distance pps)
  | FLoad => MkPPS (pps_PolicyType pps) (pps_Weight pps) v (pps_LoadDegradation pps) (pps_LoadDPF pps) (pps_WeightDPF pps) (pps_Distance pps)
  | FLoadDegradation => MkPPS (pps_PolicyType pps) (pps_Weight pps) (pps_Load pps) v (pps_LoadDPF pps) (pps_WeightDPF pps) (pps_Distance pps)
  | FLoadDPF => MkPPS (pps_PolicyType pps) (pps_Weight pps) (pps_Load pps) (pps_LoadDegradation pps) v (pps_WeightDPF pps) (pps_Distance pps)
  | FWeightDPF => MkPPS (pps_PolicyType pps) (pps_Weight pps) (pps_Load pps) (pps_LoadDegradation pps) (pps_LoadDPF pps) v (pps_Distance pps)
  | FDistance => MkPPS (pps_PolicyType pps) (pps_Weight pps) (pps_Load pps) (pps_LoadDegradation pps) (pps_LoadDPF pps) (pps_WeightDPF pps) v
  end.

(** The members of the structure at the begin of [bytes]. *)
Fixpoint assignPolicyFields (fields : list PolicyField) (bytes : list Z) (pps : PoolPolicySettings) : PoolPolicySettings :=
  match fields with
  | [] => pps
  | f :: fields' => assignPolicyFields fields' (drop 4 bytes) (setPolicyField f (be_value (take 4 bytes)) pps)
  end.

Section parser.
Context {ST : Type} `{Storage ST} `{Endian}.
Abbreviation Msg := (RSerPoolMessage ST).

(** ** Headers *)

Definition setOffending (tlv : option Z) (length : Z) : M Msg () :=
  modify (on_Status (λ s, ms_set_OffendingParameterTLVLength length (ms_set_OffendingParameterTLV tlv s))).

Definition peekNextTLVType : M Msg Z :=
  header ← getSpace 4;
  match header with
  | Some offset =>
      modify (λ m, set_Position (Position m - 4) m);;
      ntohsAt offset
  | None => mret 0
  end.

(** [tlvType] and [tlvLength] are the values of the variables before the
    call; the result is whether there is a TLV, its position, and the
    values of the variables after the call. *)
Definition getNextTLV (tlvType tlvLength : Z) : M Msg (bool * Z * Z * Z) :=
  tlvPosition ← gets Position;
  setOffending (Some tlvPosition) 0;;
  header ← getSpace 4;
  match header with
  | None =>
      set_Error RSPERR_INVALID_MESSAGE;;
      mret (false, tlvPosition, tlvType, tlvLength)
  | Some offset =>
      tlvType ← ntohsAt offset;
      tlvLength ← ntohsAt (offset + 2);
      m ← get;
      if BufferSize m <? u64 (Position m + tlvLength - 4) then
        set_Error RSPERR_INVALID_TLV;;
        mret (false, tlvPosition, tlvType, tlvLength)
      else if tlvLength <? 4 then
        set_Error RSPERR_INVALID_TLV;;
        mret (false, tlvPosition, tlvType, tlvLength)
      else
        setOffending (Some tlvPosition) tlvLength;;
        mret (0 <? tlvLength, tlvPosition, tlvType, tlvLength)
  end.

Definition handleUnknownTLV (tlvType tlvLength : Z) : M Msg bool :=
  let action := Z.land tlvType ATT_ACTION_MASK in
  if (action =? ATT_ACTION_CONTINUE) || (action =? ATT_ACTION_CONTINUE_AND_REPORT) then
    ptr ← getSpace (u64 (tlvLength - 4));
    mret (bool_decide (ptr ≠ None))
  else if action =? ATT_ACTION_STOP then
    modify (λ m, set_Position (u64 (Position m - 4)) m);;
    set_Error RSPERR_UNRECOGNIZED_PARAMETER_SILENT;;
    mret false
  else
    modify (λ m, set_Position (u64 (Position m - 4)) m);;
    set_Error RSPERR_UNRECOGNIZED_PARAMETER;;
    mret false.

(** The length (0: error) and [*startPosition]. *)
Definition checkBeginMessage : M Msg (Z * Z) :=
  startPosition ← gets Position;
  modify (on_Status (ms_set_OffendingParameterTLV None));;
  header ← getSpace 4;
  match header with
  | None => set_Error RSPERR_INVALID_MESSAGE;; mret (0, startPosition)
  | Some offset =>
      length ← ntohsAt (offset + 2);
      m ← get;
      if BufferSize m <? u64 (Position m + length - 4) then
        set_Error RSPERR_INVALID_MESSAGE;; mret (0, startPosition)
      else if length <? 4 then
        set_Error RSPERR_INVALID_MESSAGE;; mret (0, startPosition)
      else
        flags ← loadBytes (offset + 1) 1;
        modify (rm_set_Flags (be_value flags));;
        mret (length, startPosition)
  end.

Definition checkFinishMessage (startPosition : Z) : M Msg bool :=
  length ← ntohsAt (startPosition + 2);
  let endPos := startPosition + length in
  let padding := getPadding endPos 4 in
  m ← get;
  if negb (Position m =? endPos + padding) then
    (if Error m =? RSPERR_OKAY then set_Error RSPERR_INVALID_MESSAGE else mret tt);;
    mret false
  else
    setOffending None 0;;
    mret true.

(** The loop; the length (0: error) and [*tlvPosition]. *)
Fixpoint beginTLVLoop (fuel : nat) (expectedType : Z) (checkType : bool) (tlvType tlvLength : Z) : M Msg (Z * Z) :=
  match fuel with
  | O => abort
  | S fuel' =>
      r ← getNextTLV tlvType tlvLength;
      let '(ok, tlvPosition, tlvType, tlvLength) := r in
      if negb ok then mret (tlvLength, tlvPosition)
      else if negb checkType || (PURE_ATT_TYPE tlvType =? expectedType) then mret (tlvLength, tlvPosition)
      else
        known ← handleUnknownTLV tlvType tlvLength;
        if known : bool then beginTLVLoop fuel' expectedType checkType tlvType tlvLength
        else mret (0, tlvPosition)
  end.

Definition packetFuel : M Msg nat := gets (λ m, S (Z.to_nat (BufferSize m))).

Definition checkBeginTLV (expectedType : Z) (checkType : bool) : M Msg (Z * Z) :=
  fuel ← packetFuel;
  beginTLVLoop fuel expectedType checkType 0 0.

Definition checkFinishTLV (tlvPosition : Z) : M Msg bool :=
  length ← ntohsAt (tlvPosition + 2);
  let endPos := tlvPosition + length + getPadding length 4 in
  m ← get;
  if endPos <? Position m then
    set_Error RSPERR_INVALID_TLV;;
    mret false
  else
    skipped ← (if Position m <? endPos then getSpace (endPos - Position m) else mret (Some 0));
    match skipped with
    | None => set_Error RSPERR_INVALID_TLV;; mret false
    | Some _ => setOffending None 0;; mret true
    end.

(** ** Parameters *)

(** [return(false)] with an error set. *)
Definition failWith {A} (error : Z) : M Msg (option A) := set_Error error;; mret None.

(** [if(checkFinishTLV(...) == false) { return(false); } return a] *)
Definition finishWith {A} (tlvPosition : Z) (a : A) : M Msg (option A) :=
  ok ← checkFinishTLV tlvPosition; mret (if ok : bool then Some a else None).

Definition scanAddressBytes (port n tlvLength : Z) (address : list Z → Z → sockaddr_union) : M Msg (option sockaddr_union) :=
  if n <=? tlvLength then
    space ← getSpace n;
    match space with
    | None => failWith RSPERR_INVALID_VALUE
    | Some offset => bytes ← loadBytes offset n; mret (Some (address bytes port))
    end
  else failWith RSPERR_INVALID_VALUE.

Definition scanAddressParameter (port : Z) : M Msg (option sockaddr_union) :=
  r ← checkBeginTLV 0 false;
  let '(tlvLength, tlvPosition) := r in
  if tlvLength =? 0 then failWith RSPERR_BUFFERSIZE_EXCEEDED
  else
    let tlvLength := u64 (tlvLength - 4) in
    tlvType ← ntohsAt tlvPosition;
    address ←
      (if PURE_ATT_TYPE tlvType =? ATT_IPv4_ADDRESS then scanAddressBytes port 4 tlvLength sockaddr_in
       else if PURE_ATT_TYPE tlvType =? ATT_IPv6_ADDRESS then scanAddressBytes port 16 tlvLength sockaddr_in6
       else
         known ← handleUnknownTLV tlvType tlvLength;
         mret (if known : bool then Some (sockaddr_other 0) else None));
    match address with
    | None => mret None
    | Some a => finishWith tlvPosition a
    end.

(** The loop over the addresses; [l] are those found so far, [None] is
    [return(false)]. *)
Fixpoint scanAddresses (fuel : nat) (tlvType port tlvEndPos : Z) (l : list sockaddr_union) :
    M Msg (option (list sockaddr_union)) :=
  m ← get;
  if Position m <? tlvEndPos then
    match fuel with
    | O => abort
    | S fuel' =>
        if MAX_PE_TRANSPORTADDRESSES <=? Z.of_nat (length l) then failWith RSPERR_INVALID_VALUE
        else if negb (tlvType =? ATT_SCTP_TRANSPORT) && (1 <? Z.of_nat (length l)) then failWith RSPERR_INVALID_VALUE
        else
          address ← scanAddressParameter port;
          match address with
          | None => set_Error RSPERR_OKAY;; mret (Some l)
          | Some a =>
              scope ← deref (λ _, getScope a);
              scanAddresses fuel' tlvType port tlvEndPos (if AS_UNICAST_LINKLOCAL <? scope then l ++ [a] else l)
          end
    end
  else mret (Some l).

(** The fixed part: port, protocol and control channel flag. *)
Definition scanTransportHeader (tlvType tlvLength : Z) : M Msg (option (Z * Z * bool)) :=
  let fixed protocol :=
    space ← getSpace 4;
    match space with
    | None => failWith RSPERR_INVALID_TLV
    | Some offset =>
        port ← ntohsAt offset;
        use ← ntohsAt (offset + 2);
        mret (Some (port, protocol, negb (protocol =? IPPROTO_UDP) && (use =? UTP_DATA_PLUS_CONTROL)))
    end in
  if PURE_ATT_TYPE tlvType =? ATT_SCTP_TRANSPORT then fixed IPPROTO_SCTP
  else if PURE_ATT_TYPE tlvType =? ATT_TCP_TRANSPORT then fixed IPPROTO_TCP
  else if PURE_ATT_TYPE tlvType =? ATT_UDP_TRANSPORT then fixed IPPROTO_UDP
  else
    known ← handleUnknownTLV tlvType tlvLength;
    mret (if known : bool then Some (0, 0, false) else None).

(** Success, and what was written to [*transportAddressBlock], if anything. *)
Definition scanTransportParameter : M Msg (bool * option TransportAddressBlock) :=
  r ← checkBeginTLV 0 false;
  let '(tlvLength, tlvPosition) := r in
  if tlvLength <? 4 then set_Error RSPERR_INVALID_TLV;; mret (false, None)
  else
    let tlvLength := tlvLength - 4 in
    tlvEndPos ← gets (λ m, Position m + tlvLength);
    tlvType ← ntohsAt tlvPosition;
    header ← scanTransportHeader tlvType tlvLength;
    match header with
    | None => mret (false, None)
    | Some (port, protocol, hasControlChannel) =>
        fuel ← packetFuel;
        addresses ← scanAddresses fuel tlvType port tlvEndPos [];
        match addresses with
        | None => mret (false, None)
        | Some [] => set_Error RSPERR_INVALID_VALUE;; mret (false, None)
        | Some l =>
            let block := transportAddressBlockNew protocol port
              (if hasControlChannel : bool then TABF_CONTROLCHANNEL else 0) l MAX_PE_TRANSPORTADDRESSES in
            ok ← checkFinishTLV tlvPosition;
            mret (ok, Some block)
        end
    end.

Definition scanPolicyParameter : M Msg (option PoolPolicySettings) :=
  r ← checkBeginTLV ATT_POOL_POLICY true;
  let '(tlvLength, tlvPosition) := r in
  if tlvLength <? 4 then failWith RSPERR_INVALID_TLV
  else
    let tlvLength := tlvLength - 4 in
    if tlvLength <? 4 then failWith RSPERR_INVALID_TLV
    else
      position ← gets Position;
      policyType ← ntohlAt position;
      match scannedPolicy policyType with
      | None => failWith RSPERR_UNSUPPORTED_POOL_POLICY
      | Some layout =>
          let size := 4 + 4 * Z.of_nat (length (lay_Fields layout)) in
          if size <=? tlvLength then
            space ← getSpace size;
            match space with
            | None =>
                match lay_NoSpace layout with Some e => set_Error e | None => mret tt end;;
                mret None
            | Some offset =>
                bytes ← loadBytes offset size;
                finishWith tlvPosition (assignPolicyFields (lay_Fields layout) (drop 4 bytes)
                  (MkPPS (be_value (take 4 bytes)) 0 0 0 0 0 0))
            end
          else failWith (lay_TooShort layout)
      end.

(** The allocations of an element, and its address blocks.  The result of
    the second duplication is not checked. *)
Definition newPoolElement (identifier home life : Z) (pps : PoolPolicySettings)
    (user : TransportAddressBlock) (registrator : option TransportAddressBlock) : M Msg (option PoolElementNode) :=
  ok ← malloc;
  if negb ok then failWith RSPERR_OUT_OF_MEMORY
  else
    ok ← malloc;
    match transportAddressBlockDuplicate ok (Some user) with
    | None => failWith RSPERR_OUT_OF_MEMORY
    | Some newUser =>
        newRegistrator ← match registrator with
                         | Some t => ok ← malloc; mret (transportAddressBlockDuplicate ok (Some t))
                         | None => mret None
                         end;
        mret (Some (poolElementNodeNew identifier home life pps newUser newRegistrator (-1) 0))
    end.

Definition scanPoolElementParameter (registratorTransportRequired mustHaveHomeRegistrar : bool) :
    M Msg (option PoolElementNode) :=
  r ← checkBeginTLV ATT_POOL_ELEMENT true;
  let '(tlvLength, tlvPosition) := r in
  if tlvLength <? 4 then failWith RSPERR_INVALID_TLV
  else
    pep ← getSpace 12;
    match pep with
    | None => failWith RSPERR_INVALID_TLV
    | Some offset =>
        identifier ← ntohlAt offset;
        home ← ntohlAt (offset + 4);
        life ← ntohlAt (offset + 8);
        if mustHaveHomeRegistrar && (home =? UNDEFINED_REGISTRAR_IDENTIFIER) then failWith RSPERR_INVALID_VALUE
        else
          user ← scanTransportParameter;
          match user with
          | (true, Some user) =>
              policy ← scanPolicyParameter;
              match policy with
              | None => mret None
              | Some pps =>
                  registrator ← (if registratorTransportRequired
                                 then t ← scanTransportParameter; mret (if t.1 : bool then t.2 else None)
                                 else mret None);
                  ok ← checkFinishTLV tlvPosition;
                  if ok : bool then newPoolElement identifier home life pps user registrator else mret None
              end
          | _ => mret None
          end
    end.

(** A handle that is too long sets the error, and then fails the CHECK of
    [poolHandleNew]. *)
Definition scanPoolHandleParameter : M Msg bool :=
  r ← checkBeginTLV ATT_POOL_HANDLE true;
  let '(tlvLength, tlvPosition) := r in
  if tlvLength <? 4 then mret false
  else
    let tlvLength := tlvLength - 4 in
    if tlvLength <? 1 then set_Error RSPERR_INVALID_TLV;; mret false
    else
      space ← getSpace tlvLength;
      match space with
      | None => set_Error RSPERR_INVALID_VALUE;; mret false
      | Some offset =>
          (if MAX_POOLHANDLESIZE <? tlvLength then set_Error RSPERR_INVALID_VALUE else mret tt);;
          bytes ← loadBytes offset tlvLength;
          h ← deref (λ _, poolHandleNew bytes tlvLength);
          modify (rm_set_Handle h);;
          checkFinishTLV tlvPosition
      end.

Definition scanPoolElementIdentifierParameter : M Msg bool :=
  r ← checkBeginTLV ATT_POOL_ELEMENT_IDENTIFIER true;
  let '(tlvLength, tlvPosition) := r in
  if tlvLength <? 4 then mret false
  else
    let tlvLength := tlvLength - 4 in
    if negb (tlvLength =? 4) then set_Error RSPERR_INVALID_VALUE;; mret false
    else withSpace tlvLength (λ offset,
      identifier ← ntohlAt offset;
      modify (rm_set_Identifier identifier);;
      checkFinishTLV tlvPosition).

Definition scanHandlespaceChecksumParameter : M Msg bool :=
  r ← checkBeginTLV ATT_POOL_ELEMENT_CHECKSUM true;
  let '(tlvLength, tlvPosition) := r in
  if tlvLength <? 4 then mret false
  else
    let tlvLength := tlvLength - 4 in
    if negb (tlvLength =? 2) then set_Error RSPERR_INVALID_VALUE;; mret false
    else withSpace tlvLength (λ offset,
      bytes ← loadBytes offset 2;
      modify (rm_set_Checksum (ld16 (byteAt bytes 0) (byteAt bytes 1)));;
      checkFinishTLV tlvPosition).

(** The cause is read at the position, which is not advanced behind it. *)
Definition scanErrorParameter : M Msg bool :=
  r ← checkBeginTLV ATT_OPERATION_ERROR true;
  let '(tlvLength, tlvPosition) := r in
  if tlvLength <? 4 then mret false
  else
    let tlvLength := tlvLength - 4 in
    if tlvLength <? 4 then set_Error RSPERR_INVALID_VALUE;; mret false
    else
      aec ← gets Position;
      cause ← ntohsAt aec;
      dataLength ← ntohsAt (aec + 2);
      modify (on_Status (ms_set_OperationErrorCode cause));;
      if dataLength <? 4 then set_Error RSPERR_INVALID_VALUE;; mret false
      else
        withSpace (dataLength - 4) (λ data,
          modify (on_Status (λ s, ms_set_OperationErrorLength (dataLength - 4) (ms_set_OperationErrorData (Some data) s)));;
          checkFinishTLV tlvPosition).

(** Returns without [checkFinishTLV]. *)
Definition scanCookieParameter : M Msg bool :=
  r ← checkBeginTLV ATT_COOKIE true;
  let '(tlvLength, tlvPosition) := r in
  if tlvLength <? 4 then mret false
  else
    let tlvLength := tlvLength - 4 in
    if tlvLength <? 1 then set_Error RSPERR_INVALID_VALUE;; mret false
    else withSpace tlvLength (λ cookie,
      ok ← malloc;
      if ok : bool then
        bytes ← loadBytes cookie tlvLength;
        modify (λ m, rm_set_CookieSize tlvLength (rm_set_CookiePtr (Some bytes) m));;
        mret true
      else modify (rm_set_CookiePtr None);; set_Error RSPERR_OUT_OF_MEMORY;; mret false).

Definition scanServerInformationParameter : M Msg (option PeerListNode) :=
  r ← checkBeginTLV ATT_SERVER_INFORMATION true;
  let '(tlvLength, tlvPosition) := r in
  if tlvLength <? 4 then mret None
  else
    let tlvLength := tlvLength - 4 in
    if tlvLength <? 1 then failWith RSPERR_INVALID_VALUE
    else
      sip ← getSpace 4;
      match sip with
      | None => failWith RSPERR_INVALID_VALUE
      | Some offset =>
          t ← scanTransportParameter;
          match t with
          | (true, Some block) =>
              ok ← malloc;
              if negb ok then failWith RSPERR_OUT_OF_MEMORY
              else
                ok ← malloc;
                match transportAddressBlockDuplicate ok (Some block) with
                | None => failWith RSPERR_OUT_OF_MEMORY
                | Some newBlock =>
                    identifier ← ntohlAt offset;
                    finishWith tlvPosition (peerListNodeNew identifier 0 (Some newBlock))
                end
          | _ => failWith RSPERR_INVALID_VALUE
          end
      end.

Definition scanHandleResolutionParameter : M Msg bool :=
  r ← checkBeginTLV ATT_HANDLE_RESOLUTION true;
  let '(tlvLength, tlvPosition) := r in
  if tlvLength <? 4 then mret false
  else
    let tlvLength := tlvLength - 4 in
    if tlvLength <? 4 then set_Error RSPERR_INVALID_VALUE;; mret false
    else withSpace 4 (λ hrp,
      items ← ntohlAt hrp;
      modify (rm_set_Addresses (if items =? 0xffffffff then RSPGETADDRS_MAX else items));;
      checkFinishTLV tlvPosition).

(** ** ASAP messages *)

Definition scanEndpointKeepAliveMessage : M Msg bool :=
  withSpace 4 (λ offset,
    registrarIdentifier ← ntohlAt offset;
    modify (rm_set_RegistrarIdentifier registrarIdentifier);;
    scanPoolHandleParameter >>>
    (found ← scanPoolElementIdentifierParameter;
     (if found : bool then mret tt else modify (rm_set_Identifier 0));;
     mret true)).

Definition scanEndpointKeepAliveAckMessage : M Msg bool :=
  scanPoolHandleParameter >>> scanPoolElementIdentifierParameter.

Definition scanEndpointUnreachableMessage : M Msg bool :=
  scanPoolHandleParameter >>> scanPoolElementIdentifierParameter.

Definition scanRegistrationMessage : M Msg bool :=
  scanPoolHandleParameter >>>
  (pe ← scanPoolElementParameter false false;
   modify (rm_set_PoolElementPtr pe);;
   match pe with
   | None => mret false
   | Some pe =>
       if bool_decide (pen_RegistratorTransport pe ≠ None)
       then set_Error RSPERR_INVALID_REGISTRATOR;; mret false
       else mret true
   end).

Definition scanDeregistrationMessage : M Msg bool :=
  scanPoolHandleParameter >>> scanPoolElementIdentifierParameter.

(** The optional error parameter at the end of a response. *)
Definition scanOptionalError : M Msg bool :=
  m ← get;
  if Position m <? BufferSize m then scanErrorParameter else mret true.

Definition scanRegistrationResponseMessage : M Msg bool :=
  scanPoolHandleParameter >>> scanPoolElementIdentifierParameter >>> scanOptionalError.

Definition scanDeregistrationResponseMessage : M Msg bool :=
  scanPoolHandleParameter >>> scanPoolElementIdentifierParameter >>> scanOptionalError.

Definition scanHandleResolutionMessage : M Msg bool :=
  scanPoolHandleParameter >>>
  (found ← scanHandleResolutionParameter;
   (if found : bool then mret tt else modify (rm_set_Addresses 0));;
   mret true).

(** [message->PoolElementPtrArray[message->PoolElementPtrArraySize] = pe] *)
Definition storePoolElementPtr (pe : option PoolElementNode) : M Msg () :=
  modify (λ m, rm_set_PoolElementPtrArray
    (<[Z.to_nat (rm_PoolElementPtrArraySize m) := pe]> (rm_PoolElementPtrArray m)) m).
Definition countPoolElementPtr : M Msg () :=
  modify (λ m, rm_set_PoolElementPtrArraySize (rm_PoolElementPtrArraySize m + 1) m).

(** The loops over the pool element parameters; [stop]: does a bad
    parameter end the loop (or is a NULL pointer counted as an element)?
    Every round counts an element, so that the bound of the array bounds
    the rounds. *)
Fixpoint scanPoolElements (fuel : nat) (stop : bool) : M Msg bool :=
  m ← get;
  if Position m <? BufferSize m then
    match fuel with
    | O => abort
    | S fuel' =>
        if MAX_MAX_HANDLE_RESOLUTION_ITEMS <=? rm_PoolElementPtrArraySize m then mret false
        else
          pe ← scanPoolElementParameter false false;
          storePoolElementPtr pe;;
          if bool_decide (pe = None) && stop then mret true
          else
            countPoolElementPtr;;
            scanPoolElements fuel' stop
    end
  else mret true.

Definition scanPoolElementArray (stop : bool) : M Msg bool :=
  modify (rm_set_PoolElementPtrArraySize 0);;
  scanPoolElements (S (Z.to_nat MAX_MAX_HANDLE_RESOLUTION_ITEMS)) stop.

Definition scanPolicySettings : M Msg bool :=
  pps ← scanPolicyParameter;
  match pps with
  | Some pps => modify (rm_set_PolicySettings pps);; mret true
  | None => mret false
  end.

Definition scanHandleResolutionResponseMessage : M Msg bool :=
  scanPoolHandleParameter >>>
  (error ← scanErrorParameter;
   if negb error then scanPolicySettings >>> scanPoolElementArray true else mret true).

(** The loop of the server announce: the last address block written. *)
Fixpoint scanTransports (fuel : nat) (block : option TransportAddressBlock) : M Msg (option TransportAddressBlock) :=
  match fuel with
  | O => abort
  | S fuel' =>
      t ← scanTransportParameter;
      let block := match t.2 with Some b => Some b | None => block end in
      if t.1 && bool_decide ((tab_Protocol <$> block) ≠ Some IPPROTO_SCTP) then scanTransports fuel' block
      else mret block
  end.

Definition scanServerAnnounceMessage : M Msg bool :=
  withSpace 4 (λ offset,
    registrarIdentifier ← ntohlAt offset;
    modify (rm_set_RegistrarIdentifier registrarIdentifier);;
    fuel ← packetFuel;
    scanned ← scanTransports fuel None;
    block ← (if bool_decide ((tab_Protocol <$> scanned) ≠ Some IPPROTO_SCTP) then
               source ← gets rm_SourceAddress;
               port ← deref (λ _, getPort source);
               mret (Some (transportAddressBlockNew IPPROTO_SCTP port 0 [source] 1))
             else mret scanned);
    node ← scanServerInformationParameter;
    modify (rm_set_PeerListNodePtr node);;
    match node with
    | Some _ => mret true
    | None =>
        ok ← malloc;
        if negb ok then set_Error RSPERR_OUT_OF_MEMORY;; mret false
        else
          ok ← malloc;
          match transportAddressBlockDuplicate ok block with
          | None => set_Error RSPERR_OUT_OF_MEMORY;; mret false
          | Some newBlock =>
              modify (rm_set_PeerListNodePtr (Some (peerListNodeNew registrarIdentifier PLNF_DYNAMIC (Some newBlock))));;
              mret true
          end
    end).

Definition scanCookieMessage : M Msg bool := scanCookieParameter.
Definition scanCookieEchoMessage : M Msg bool := scanCookieParameter.

(** The two nested loops have the same condition. *)
Definition scanBusinessCardMessage : M Msg bool :=
  scanPoolHandleParameter >>>
  scanPoolHandleParameter >>>
  scanPolicySettings >>>
  scanPoolElementArray false >>>
  (m ← get;
   if rm_PoolElementPtrArraySize m <? 1 then set_Error RSPERR_INVALID_VALUE;; mret false else mret true).

(** ** ENRP messages *)

(** [struct rserpool_serverparameter]: sender and receiver. *)
Definition scanServerIDs (offset : Z) : M Msg () :=
  sender ← ntohlAt offset;
  receiver ← ntohlAt (offset + 4);
  modify (λ m, rm_set_ReceiverID receiver (rm_set_SenderID sender m)).

(** [getSpace] of the fixed part of an ENRP message. *)
Definition withFixedPart (n : Z) (k : Z → M Msg bool) : M Msg bool :=
  sp ← getSpace n;
  match sp with
  | Some offset => k offset
  | None => set_Error RSPERR_INVALID_VALUE;; mret false
  end.

Definition scanPresenceMessage : M Msg bool :=
  withFixedPart 8 (λ sp,
    scanServerIDs sp;;
    scanHandlespaceChecksumParameter >>>
    (node ← scanServerInformationParameter;
     modify (rm_set_PeerListNodePtr node);;
     mret (bool_decide (is_Some node)))).

Definition scanListRequestMessage : M Msg bool := withFixedPart 8 (λ sp, scanServerIDs sp;; mret true).

(** Registration of a peer in [message->PeerListPtr]; [None] when the list
    cannot be allocated. *)
Definition registerPeer (node : PeerListNode) : M Msg (option Z) :=
  m ← get;
  ok ← match rm_PeerListPtr m with
       | Some _ => mret true
       | None =>
           ok ← malloc;
           modify (rm_set_PeerListPtr (if ok : bool then Some (peerListManagementNew 0) else None));;
           mret ok
       end;
  if negb ok then set_Error RSPERR_OUT_OF_MEMORY;; mret None
  else
    plm ← deref rm_PeerListPtr;
    let flags := Z.lor (pln_Flags node) PLNF_FROM_PEER in
    let flags := if negb (pln_Identifier node =? UNDEFINED_REGISTRAR_IDENTIFIER) then Z.lor flags PLNF_DYNAMIC else flags in
    nodeOk ← malloc;
    blockOk ← malloc;
    let new := if nodeOk : bool then Some (fresh (dom (pl_PeerListNodes (plm_List plm)))) else None in
    r ← deref (λ _, peerListManagementRegisterPeerListNode None new blockOk None (pln_Identifier node) flags
                      (pln_AddressBlock node) 0 plm);
    modify (rm_set_PeerListPtr (Some r.2));;
    mret (Some (r.1).2).

Fixpoint scanPeers (fuel : nat) : M Msg bool :=
  m ← get;
  if Position m <? BufferSize m then
    match fuel with
    | O => abort
    | S fuel' =>
        node ← scanServerInformationParameter;
        match node with
        | None => mret true
        | Some node =>
            r ← registerPeer node;
            match r with
            | None => mret false
            | Some errorCode =>
                if negb (errorCode =? RSPERR_OKAY) then set_Error (u16 errorCode);; mret false
                else scanPeers fuel'
            end
        end
    end
  else mret true.

Definition scanListResponseMessage : M Msg bool :=
  withFixedPart 8 (λ sp,
    scanServerIDs sp;;
    m ← get;
    if negb (flag_test (rm_Flags m) EHF_LIST_RESPONSE_REJECT) then
      fuel ← packetFuel; scanPeers fuel
    else mret true).

Definition scanHandleTableRequestMessage : M Msg bool := withFixedPart 8 (λ sp, scanServerIDs sp;; mret true).

(** Registration of an element in [message->HandlespacePtr]; the time
    stamp is 0. *)
Definition registerElement (pe : PoolElementNode) : M Msg Z :=
  poolOk ← malloc; peOk ← malloc; userOk ← malloc; registratorOk ← malloc;
  m ← get;
  phm ← deref (λ _, rm_HandlespacePtr m);
  let mem := MkMemory
    (if poolOk : bool then Some (fresh (dom (hs_PoolNodes (phm_Handlespace phm)))) else None)
    (if peOk : bool then Some (fresh (dom (hs_PoolElementNodes (phm_Handlespace phm)))) else None)
    userOk registratorOk in
  r ← onHandlespacePtr (poolHandlespaceManagementRegisterPoolElement None None mem (rm_Handle m)
        (pen_HomeRegistrarIdentifier pe) (pen_Identifier pe) (pen_RegistrationLife pe) (pen_PolicySettings pe)
        (pen_UserTransport pe) (pen_RegistratorTransport pe) (-1) 0 0);
  mret r.2.

(** The inner loop: the elements of a pool.  [None] is [return(false)];
    otherwise the number of elements. *)
Fixpoint scanTableElements (fuel : nat) (scanned : Z) : M Msg (option Z) :=
  m ← get;
  type ← (if Error m =? RSPERR_OKAY then peekNextTLVType else mret 0);
  if negb (type =? ATT_POOL_ELEMENT) then mret (Some scanned)
  else
    match fuel with
    | O => abort
    | S fuel' =>
        pe ← scanPoolElementParameter true true;
        match pe with
        | None => mret (Some scanned)
        | Some pe =>
            if bool_decide (pen_RegistratorTransport pe = None) then failWith RSPERR_INVALID_REGISTRATOR
            else
              error ← registerElement pe;
              set_Error error;;
              if negb (error =? RSPERR_OKAY) then mret None
              else scanTableElements fuel' (scanned + 1)
        end
    end.

Fixpoint scanTablePools (fuel : nat) : M Msg bool :=
  m ← get;
  type ← (if Error m =? RSPERR_OKAY then peekNextTLVType else mret 0);
  if negb (type =? ATT_POOL_HANDLE) then mret true
  else
    match fuel with
    | O => abort
    | S fuel' =>
        ok ← scanPoolHandleParameter;
        if negb ok then mret true
        else
          fuelElements ← packetFuel;
          scanned ← scanTableElements fuelElements 0;
          m ← get;
          match scanned with
          | None => mret false
          | Some scanned =>
              if negb (Error m =? RSPERR_OKAY) then mret false
              else if scanned =? 0 then set_Error RSPERR_INVALID_VALUE;; mret false
              else scanTablePools fuel'
          end
    end.

Definition scanHandleTableResponseMessage : M Msg bool :=
  withFixedPart 8 (λ sp,
    scanServerIDs sp;;
    m ← get;
    if negb (flag_test (rm_Flags m) EHF_HANDLE_TABLE_RESPONSE_REJECT) then
      ok ← malloc;
      if negb ok then modify (rm_set_HandlespacePtr None);; set_Error RSPERR_OUT_OF_MEMORY;; mret false
      else
        modify (rm_set_HandlespacePtr (Some (poolHandlespaceManagementNew 0)));;
        fuel ← packetFuel;
        scanTablePools fuel
    else mret true).

Definition scanHandleUpdateMessage : M Msg bool :=
  withFixedPart 12 (λ pnup,
    scanServerIDs pnup;;
    action ← ntohsAt (pnup + 8);
    modify (rm_set_Action action);;
    scanPoolHandleParameter >>>
    (pe ← scanPoolElementParameter true true;
     modify (rm_set_PoolElementPtr pe);;
     match pe with
     | None => mret false
     | Some pe =>
         if bool_decide (pen_RegistratorTransport pe = None)
         then set_Error RSPERR_INVALID_REGISTRATOR;; mret false
         else mret true
     end)).

(** [struct rserpool_targetparameter] *)
Definition scanTarget (tp : Z) : M Msg bool :=
  scanServerIDs tp;;
  target ← ntohlAt (tp + 8);
  modify (rm_set_RegistrarIdentifier target);;
  mret true.

Definition scanInitTakeoverMessage : M Msg bool := withFixedPart 12 scanTarget.
Definition scanInitTakeoverAckMessage : M Msg bool := withFixedPart 12 scanTarget.
Definition scanTakeoverServerMessage : M Msg bool := withFixedPart 12 scanTarget.

Definition scanENRPErrorMessage : M Msg bool :=
  withFixedPart 8 (λ sp, scanServerIDs sp;; scanErrorParameter).

Definition scanASAPErrorMessage : M Msg bool := scanErrorParameter.

(** ** Conversion *)

Definition scannerOf (type : Z) : M Msg bool :=
  if type =? AHT_HANDLE_RESOLUTION then scanHandleResolutionMessage
  else if type =? AHT_HANDLE_RESOLUTION_RESPONSE then scanHandleResolutionResponseMessage
  else if type =? AHT_ENDPOINT_KEEP_ALIVE then scanEndpointKeepAliveMessage
  else if type =? AHT_ENDPOINT_KEEP_ALIVE_ACK then scanEndpointKeepAliveAckMessage
  else if type =? AHT_SERVER_ANNOUNCE then scanServerAnnounceMessage
  else if type =? AHT_COOKIE then scanCookieMessage
  else if type =? AHT_COOKIE_ECHO then scanCookieEchoMessage
  else if type =? AHT_BUSINESS_CARD then scanBusinessCardMessage
  else if type =? AHT_ENDPOINT_UNREACHABLE then scanEndpointUnreachableMessage
  else if type =? AHT_REGISTRATION then scanRegistrationMessage
  else if type =? AHT_DEREGISTRATION then scanDeregistrationMessage
  else if type =? AHT_REGISTRATION_RESPONSE then scanRegistrationResponseMessage
  else if type =? AHT_DEREGISTRATION_RESPONSE then scanDeregistrationResponseMessage
  else if type =? AHT_ERROR then scanASAPErrorMessage
  else if type =? EHT_PRESENCE then scanPresenceMessage
  else if type =? EHT_HANDLE_TABLE_REQUEST then scanHandleTableRequestMessage
  else if type =? EHT_HANDLE_TABLE_RESPONSE then scanHandleTableResponseMessage
  else if type =? EHT_HANDLE_UPDATE then scanHandleUpdateMessage
  else if type =? EHT_LIST_REQUEST then scanListRequestMessage
  else if type =? EHT_LIST_RESPONSE then scanListResponseMessage
  else if type =? EHT_INIT_TAKEOVER then scanInitTakeoverMessage
  else if type =? EHT_INIT_TAKEOVER_ACK then scanInitTakeoverAckMessage
  else if type =? EHT_TAKEOVER_SERVER then scanTakeoverServerMessage
  else if type =? EHT_ERROR then scanENRPErrorMessage
  else mret false.

Definition scanMessage : M Msg bool :=
  r ← checkBeginMessage;
  let '(length, startPosition) := r in
  if length <? 4 then mret false
  else
    header ← loadBytes startPosition 1;
    m ← get;
    let type := be_value header in
    let modifier := if rm_PPID m =? PPID_ASAP then Some AHT_ASAP_MODIFIER
                    else if rm_PPID m =? PPID_ENRP then Some EHT_ENRP_MODIFIER else None in
    match modifier with
    | None => modify (rm_set_Type type);; mret false
    | Some modifier =>
        let type := Z.lor type modifier in
        modify (rm_set_Type type);;
        scannerOf type >>> checkFinishMessage startPosition
    end.

(** The error code and the message; the result of the scan only shows in
    [message->Error].  [memory] are the outcomes of the allocations. *)
Definition rserpoolPacket2Message (memory : list bool) (packet : list Z) (sourceAddress : option sockaddr_union)
    (assocID ppid packetSize minBufferSize : Z) : option (Z * option Msg) :=
  match memory with
  | false :: _ => Some (RSPERR_OUT_OF_MEMORY, None)
  | _ =>
      let message := rserpoolMessageNew packet packetSize in
      let message := rm_set_SourceAddress (default (sockaddr_other 0) sourceAddress) message in
      let message := rm_set_PPID ppid (rm_set_AssocID assocID message) in
      let message := rm_set_Packet (MkPacketBuffer packet packetSize (Z.max packetSize minBufferSize) 0) message in
      match scanMessage (rm_set_Memory (tail memory) message) with
      | Some (ok, message) =>
          Some (RSPERR_OKAY,
            Some (if ok : bool then on_Status (λ s, ms_set_Error (ms_OperationErrorCode s) s) message else message))
      | None => None
      end
  end.
End parser.
