(* ===== verification/MessageWire.v ===== *)
(** * The wire format, and what the creators write

    [tlv], [packet] and the [...Wire] functions give the bytes of every
    parameter as a function of the data; [writes] relates a creator to the
    bytes it appends to the packet: all of them when they fit in the buffer
    (which has a size that is a multiple of four), and an incomplete part,
    with the result [false], when they do not. *)

From S2P Require Import Prelude Addresses PoolBasics Storage PoolElement PoolPolicy HandlespaceState HandlespaceMgt PeerList Message MessageCreator.
From stdpp Require Import base list gmap numbers option.
#[local] Open Scope Z_scope.
#[local] Open Scope message_scope.

(** ** The format *)

Definition zlen (l : list Z) : Z := Z.of_nat (length l).

Definition tlv (type : Z) (body : list Z) : list Z :=
  htons type ++ htons (4 + zlen body) ++ body ++ replicate (Z.to_nat (getPadding (4 + zlen body) 4)) 0.

Definition packet (type flags : Z) (body : list Z) : list Z :=
  [Z.land type 255; flags] ++ htons (4 + zlen body) ++ body.

Definition handleWire (h : PoolHandle) : list Z := tlv ATT_POOL_HANDLE (take (Z.to_nat (ph_Size h)) (ph_Handle h)).

Definition addressWire (a : sockaddr_union) : option (list Z) :=
  match a with
  | sockaddr_in x _ => Some (tlv ATT_IPv4_ADDRESS x)
  | sockaddr_in6 x _ => Some (if IN6_IS_ADDR_V4MAPPED x then tlv ATT_IPv4_ADDRESS (drop 12 x) else tlv ATT_IPv6_ADDRESS x)
  | sockaddr_other _ => None
  end.

Definition transportUse (t : TransportAddressBlock) : Z :=
  if flag_test (tab_Flags t) TABF_CONTROLCHANNEL then UTP_DATA_PLUS_CONTROL else UTP_DATA_ONLY.

(** Only SCTP is multi-homed. *)
Definition transportWire (t : TransportAddressBlock) : option (list Z) :=
  type ← transportType (tab_Protocol t);
  addresses ← mapM addressWire (tab_AddressArray t);
  if negb (type =? ATT_SCTP_TRANSPORT) && (1 <? Z.of_nat (length (tab_AddressArray t))) then None
  else Some (tlv type (htons (tab_Port t) ++ htons (if type =? ATT_UDP_TRANSPORT then 0 else transportUse t) ++ concat addresses)).

Definition policyBytes (pps : PoolPolicySettings) (fields : list PolicyField) : list Z :=
  htonl (pps_PolicyType pps) ++ (fields ≫= λ f, htonl (policyField pps f)).

Definition policyWire (pps : PoolPolicySettings) : option (list Z) :=
  (λ fields, tlv ATT_POOL_POLICY (policyBytes pps fields)) <$> createdPolicyFields (pps_PolicyType pps).

Definition elementWire (pe : PoolElementNode) (withRegistrator : bool) : option (list Z) :=
  user ← transportWire (pen_UserTransport pe);
  policy ← policyWire (pen_PolicySettings pe);
  registrator ← (if withRegistrator then t ← pen_RegistratorTransport pe; transportWire t else Some []);
  Some (tlv ATT_POOL_ELEMENT
    ((htonl (pen_Identifier pe) ++ htonl (pen_HomeRegistrarIdentifier pe) ++ htonl (pen_RegistrationLife pe)) ++
     user ++ policy ++ registrator)).

Definition identifierWire (identifier : Z) : list Z := tlv ATT_POOL_ELEMENT_IDENTIFIER (htonl identifier).
Definition checksumWire `{Endian} (checksum : Z) : list Z := tlv ATT_POOL_ELEMENT_CHECKSUM (st16 checksum).

Definition serverInfoWire (n : PeerListNode) : option (list Z) :=
  t ← pln_AddressBlock n;
  transport ← transportWire t;
  Some (tlv ATT_SERVER_INFORMATION (htonl (pln_Identifier n) ++ transport)).

Definition cookieWire (cookie : list Z) : list Z := tlv ATT_COOKIE cookie.

Definition errorWire (cause : Z) (data : list Z) : list Z :=
  tlv ATT_OPERATION_ERROR (htons cause ++ htons (4 + zlen data) ++ data).

Definition resolutionWire (items : Z) : list Z :=
  tlv (Z.lor ATT_HANDLE_RESOLUTION ATT_ACTION_CONTINUE)
    (if items =? RSPGETADDRS_MAX then [255; 255; 255; 255] else htonl items).

(** ** Lengths *)

Lemma zlen_app l1 l2 : zlen (l1 ++ l2) = zlen l1 + zlen l2.
Proof. unfold zlen. rewrite length_app. lia. Qed.

Lemma zlen_nonneg l : 0 <= zlen l.
Proof. unfold zlen. lia. Qed.

Lemma zlen_htons z : zlen (htons z) = 2.
Proof. done. Qed.

Lemma zlen_htonl z : zlen (htonl z) = 4.
Proof. done. Qed.

Lemma zlen_nil : zlen [] = 0.
Proof. done. Qed.

Lemma zlen_replicate n (x : Z) : zlen (replicate n x) = Z.of_nat n.
Proof. unfold zlen. by rewrite length_replicate. Qed.

Create Rewrite HintDb zlen.
#[export] Hint Rewrite zlen_app zlen_htons zlen_htonl zlen_nil zlen_replicate : zlen.

Lemma padding_range n : 0 <= getPadding n 4 < 4.
Proof. apply getPadding_bounds. lia. Qed.

Lemma zlen_tlv type body : zlen (tlv type body) = 4 + zlen body + getPadding (4 + zlen body) 4.
Proof.
  unfold tlv. autorewrite with zlen. pose proof (padding_range (4 + zlen body)). lia.
Qed.

Lemma tlv_aligned type body : zlen (tlv type body) mod 4 = 0.
Proof. rewrite zlen_tlv. apply getPadding_aligns. lia. Qed.

Lemma aligned_app l1 l2 : zlen l1 mod 4 = 0 → zlen l2 mod 4 = 0 → zlen (l1 ++ l2) mod 4 = 0.
Proof. intros H1 H2. rewrite zlen_app, Z.add_mod, H1, H2 by lia. done. Qed.

Lemma aligned_concat ls : Forall (λ l, zlen l mod 4 = 0) ls → zlen (concat ls) mod 4 = 0.
Proof. induction 1; [done|]. simpl. by apply aligned_app. Qed.

Lemma htonl_aligned z : zlen (htonl z) mod 4 = 0.
Proof. done. Qed.

Create HintDb aligned discriminated.
#[export] Hint Resolve tlv_aligned aligned_app aligned_concat htonl_aligned : aligned.

(** Rounding up to a multiple of four stays below a multiple of four. *)
Lemma padding_fits n room : n <= room → room mod 4 = 0 → n + getPadding n 4 <= room.
Proof.
  intros Hn Hroom. pose proof (getPadding_aligns n 4 ltac:(lia)) as Hp.
  pose proof (padding_range n).
  apply Z.mod_divide in Hp as [a Ha]; [|lia]. apply Z.mod_divide in Hroom as [b Hb]; lia.
Qed.

(** ** Appending to the packet *)

Section writes.
Context {ST : Type} `{Storage ST} `{Endian}.
Abbreviation Msg := (RSerPoolMessage ST).
Implicit Types (m : Msg) (c : M Msg bool).

(** The buffer of a message that is being created. *)
Definition buffer_ok m : Prop :=
  0 <= Position m <= BufferSize m ∧ BufferSize m <= zlen (Buffer m) ∧
  4 <= BufferSize m < 2 ^ 62 ∧ BufferSize m mod 4 = 0.

Definition fits m (bs : list Z) : Prop := Position m + zlen bs <= BufferSize m.

Definition append (bs : list Z) m : Msg :=
  rm_set_Packet (MkPacketBuffer
    (take (Z.to_nat (Position m)) (Buffer m) ++ bs ++ drop (Z.to_nat (Position m) + length bs) (Buffer m))
    (BufferSize m) (pb_OriginalBufferSize (rm_Packet m)) (Position m + zlen bs)) m.

Definition writes c (bs : list Z) m : Prop :=
  (fits m bs → c m = Some (true, append bs m)) ∧
  (¬ fits m bs → ∃ bs', fits m bs' ∧ c m = Some (false, append bs' m)).

Lemma append_position bs m : Position (append bs m) = Position m + zlen bs.
Proof. done. Qed.

Lemma append_size bs m : BufferSize (append bs m) = BufferSize m.
Proof. done. Qed.

Lemma append_nil m : buffer_ok m → append [] m = m.
Proof.
  intros (Hp & _). unfold append. destruct m as [????? ? ? [b s o p] ]. unfold rm_set_Packet, Position, Buffer, BufferSize in *.
  cbn [rm_Packet pb_Position pb_Buffer pb_BufferSize pb_OriginalBufferSize] in *.
  rewrite zlen_nil, Z.add_0_r. cbn [app length]. by rewrite Nat.add_0_r, take_drop.
Qed.

Lemma append_ok bs m : buffer_ok m → fits m bs → buffer_ok (append bs m).
Proof.
  intros (Hp & Hl & Hs & Hm) Hf. unfold buffer_ok, fits in *.
  rewrite append_position, append_size. pose proof (zlen_nonneg bs).
  split; [lia|]. split; [|done]. unfold append, Buffer at 1. cbn -[zlen].
  autorewrite with zlen. unfold zlen in *. rewrite length_take, length_drop. lia.
Qed.

Lemma append_buffer_take bs m : buffer_ok m → fits m bs →
  take (Z.to_nat (Position m)) (Buffer (append bs m)) = take (Z.to_nat (Position m)) (Buffer m).
Proof.
  intros (Hp & Hl & _) Hf. unfold fits, zlen in *. unfold append, Buffer at 1. cbn.
  rewrite take_app_le by (rewrite length_take; lia). rewrite take_take. f_equal. lia.
Qed.

Lemma append_app b1 b2 m : buffer_ok m → fits m (b1 ++ b2) → append b2 (append b1 m) = append (b1 ++ b2) m.
Proof.
  intros (Hp & Hl & _) Hf. unfold fits in Hf. rewrite zlen_app in Hf. unfold zlen in *.
  unfold append. rewrite zlen_app. unfold Position, Buffer, BufferSize in *.
  cbn -[zlen take drop Z.to_nat]. unfold rm_set_Packet. cbn -[zlen take drop Z.to_nat]. f_equal. f_equal.
  - assert (Hto : Z.to_nat (pb_Position (rm_Packet m) + zlen b1) = (Z.to_nat (pb_Position (rm_Packet m)) + length b1)%nat)
      by (unfold zlen; lia).
    rewrite Hto. set (n := Z.to_nat (pb_Position (rm_Packet m))). set (B := pb_Buffer (rm_Packet m)) in *.
    assert (Hn : length (take n B) = n) by (rewrite length_take; lia).
    rewrite (app_assoc (take n B)), take_app_le by (rewrite length_app; lia).
    rewrite take_ge by (rewrite length_app; lia).
    rewrite drop_app_ge by (rewrite length_app; lia). rewrite drop_drop, length_app, Hn, length_app.
    rewrite <- !app_assoc. do 4 f_equal. lia.
  - lia.
Qed.

Lemma fits_app b1 b2 m : fits m (b1 ++ b2) ↔ fits (append b1 m) b2.
Proof. unfold fits. rewrite append_position, append_size, zlen_app. lia. Qed.

Lemma fits_app_l b1 b2 m : fits m (b1 ++ b2) → fits m b1.
Proof. unfold fits. rewrite zlen_app. pose proof (zlen_nonneg b2). lia. Qed.

Lemma fits_dec m bs : fits m bs ∨ ¬ fits m bs.
Proof. unfold fits. lia. Qed.

(** ** The primitives *)

Lemma getSpace_fits m n : buffer_ok m → 0 <= n → Position m + n <= BufferSize m →
  getSpace n m = Some (Some (Position m), set_Position (Position m + n) m).
Proof.
  intros (Hp & _ & Hs & _) Hn Hf. unfold getSpace. rewrite wrap_small by (unfold in_width; lia).
  by rewrite (proj2 (Z.leb_le _ _)) by lia.
Qed.

Lemma getSpace_full m n : buffer_ok m → 0 <= n < 2 ^ 62 → BufferSize m < Position m + n →
  getSpace n m = Some (None, m).
Proof.
  intros (Hp & _ & Hs & _) Hn Hf. unfold getSpace. rewrite wrap_small by (unfold in_width; lia).
  by rewrite (proj2 (Z.leb_gt _ _)) by lia.
Qed.

(** Storing at the old position after [getSpace] is appending. *)
Lemma store_append m bs : buffer_ok m → fits m bs →
  storeBytes (Position m) bs (set_Position (Position m + zlen bs) m) = Some (tt, append bs m).
Proof.
  intros (Hp & Hl & _) Hf. unfold fits in Hf. unfold storeBytes.
  change (Buffer (set_Position (Position m + zlen bs) m)) with (Buffer m). unfold zlen in *.
  rewrite (proj2 (Z.leb_le 0 _)), (proj2 (Z.leb_le _ (Z.of_nat (length (Buffer m))))) by lia. done.
Qed.

(** Overwriting a part of what was appended. *)
Lemma store_appended m b1 old new b2 : buffer_ok m → fits m (b1 ++ old ++ b2) → length new = length old →
  storeBytes (Position m + zlen b1) new (append (b1 ++ old ++ b2) m) = Some (tt, append (b1 ++ new ++ b2) m).
Proof.
  intros (Hp & Hl & _) Hf Hlen. unfold fits in Hf. rewrite !zlen_app in Hf. unfold zlen in *.
  unfold storeBytes, append. unfold Position, BufferSize, Buffer in *. cbn -[zlen take drop Z.to_nat].
  set (n := Z.to_nat (pb_Position (rm_Packet m))). set (B := pb_Buffer (rm_Packet m)) in *.
  assert (Hn : length (take n B) = n) by (rewrite length_take; lia).
  assert (HL : Z.of_nat (length (take n B ++ (b1 ++ old ++ b2) ++ drop (n + length (b1 ++ old ++ b2)) B)) = Z.of_nat (length B)).
  { rewrite !length_app, length_drop, Hn. lia. }
  rewrite HL. rewrite (proj2 (Z.leb_le 0 _)), (proj2 (Z.leb_le _ (Z.of_nat (length B)))) by lia.
  cbn [andb]. do 2 f_equal. unfold set_Buffer, rm_set_Packet. cbn -[zlen take drop Z.to_nat].
  f_equal. unfold pb_set_Buffer. cbn -[zlen take drop Z.to_nat]. f_equal.
  - replace (Z.to_nat (pb_Position (rm_Packet m) + Z.of_nat (length b1))) with (n + length b1)%nat by lia.
    replace (take n B ++ (b1 ++ old ++ b2) ++ drop (n + length (b1 ++ old ++ b2)) B)
      with ((take n B ++ b1) ++ old ++ (b2 ++ drop (n + length (b1 ++ old ++ b2)) B)) by (by rewrite <- !app_assoc).
    rewrite take_app_length' by (rewrite length_app; lia).
    rewrite Hlen, drop_app_ge by (rewrite length_app; lia).
    replace (n + length b1 + length old - length (take n B ++ b1))%nat with (length old) by (rewrite length_app; lia).
    rewrite drop_app_length. rewrite !length_app, Hlen. by rewrite <- !app_assoc.
  - rewrite !zlen_app. unfold zlen. lia.
Qed.
End writes.
