(* ===== verification/MessageWrites.v ===== *)
(** * The creators write the wire format

    Every creator of a parameter [writes] the parameter's bytes, and every
    message is its [packet]: the lemmas compose along the code. *)

From S2P Require Import Prelude Addresses PoolBasics Storage PoolElement PoolPolicy HandlespaceState HandlespaceMgt PeerList Message MessageCreator MessageWire.
From stdpp Require Import base list gmap numbers option.
#[local] Open Scope Z_scope.
#[local] Open Scope message_scope.

Section combinators.
Context {ST : Type}.
Abbreviation Msg := (RSerPoolMessage ST).
Implicit Types (m : Msg) (c : M Msg bool).

Lemma andThen_true c k m m' : c m = Some (true, m') → (c >>> k) m = k m'.
Proof. unfold andThen, mbind, M_bind. by intros ->. Qed.

Lemma andThen_false c k m m' : c m = Some (false, m') → (c >>> k) m = Some (false, m').
Proof. unfold andThen, mbind, M_bind. by intros ->. Qed.

Lemma writes_andThen c1 c2 b1 b2 m : buffer_ok m → writes c1 b1 m →
  (fits m b1 → writes c2 b2 (append b1 m)) → writes (c1 >>> c2) (b1 ++ b2) m.
Proof.
  intros Hok [Hyes1 Hno1] H2. split.
  - intros Hf. pose proof (fits_app_l _ _ _ Hf) as Hf1.
    rewrite (andThen_true _ _ _ _ (Hyes1 Hf1)), (proj1 (H2 Hf1)) by (by apply fits_app).
    by rewrite append_app.
  - intros Hf. destruct (fits_dec m b1) as [Hf1|Hf1].
    + destruct (proj2 (H2 Hf1)) as (bs' & Hf' & Hrun); [by rewrite <- fits_app|].
      exists (b1 ++ bs'). rewrite fits_app. split; [done|].
      rewrite (andThen_true _ _ _ _ (Hyes1 Hf1)), Hrun. rewrite append_app; [done..|]. by apply fits_app.
    + destruct (Hno1 Hf1) as (bs' & Hf' & Hrun). exists bs'. split; [done|]. by apply andThen_false.
Qed.

Lemma writes_nothing m : buffer_ok m → writes (mret true) [] m.
Proof.
  intros Hok. split; intros Hf; [by rewrite append_nil|].
  destruct Hf. unfold fits. rewrite zlen_nil. destruct Hok; lia.
Qed.

Lemma writes_nil_r c bs m : writes c (bs ++ []) m → writes c bs m.
Proof. by rewrite app_nil_r. Qed.

Lemma writes_space bs (k : Z → M Msg bool) m : buffer_ok m → zlen bs < 2 ^ 62 →
  (fits m bs → k (Position m) (set_Position (Position m + zlen bs) m) = Some (true, append bs m)) →
  writes (withSpace (zlen bs) k) bs m.
Proof.
  intros Hok Hl Hk. pose proof (zlen_nonneg bs). split; intros Hf.
  - unfold withSpace, mbind, M_bind. rewrite getSpace_fits by done. by apply Hk.
  - exists []. unfold fits in *. rewrite zlen_nil. split; [destruct Hok; lia|].
    unfold withSpace, mbind, M_bind. rewrite getSpace_full by (done || lia). by rewrite append_nil.
Qed.

Lemma writes_putBytes bs m : buffer_ok m → zlen bs < 2 ^ 62 → writes (putBytes bs) bs m.
Proof.
  intros Hok Hl. unfold putBytes. fold (zlen bs). apply writes_space; [done..|]. intros Hf.
  unfold mbind, M_bind. by rewrite store_append.
Qed.

Lemma writes_deref {A} (o : option A) a k bs m : o = Some a → writes (k a) bs m → writes (deref (λ _, o) ≫= k) bs m.
Proof. intros -> Hw. exact Hw. Qed.

Lemma writes_check b k bs m : b = true → writes k bs m → writes (CHECK b;; k) bs m.
Proof. intros -> Hw. exact Hw. Qed.

Lemma writes_get k bs m : writes (k m) bs m → writes (get ≫= k) bs m.
Proof. done. Qed.

(** ** Parameters *)

Lemma putPadding_run n m : buffer_ok m → 0 <= n → Position m + n <= BufferSize m → 
  putPadding n m = Some (tt, append (replicate (Z.to_nat n) 0) m).
Proof.
  intros Hok Hn Hf. unfold putPadding, mbind, M_bind. rewrite getSpace_fits by done.
  assert (Hz : n = zlen (replicate (Z.to_nat n) 0)) by (rewrite zlen_replicate; lia).
  rewrite Hz at 2. apply store_append; [done|]. unfold fits. lia.
Qed.

Lemma finishTLV_run type body m : buffer_ok m → fits m (tlv type body) →
  finishTLV (Position m) (append ((htons type ++ [255; 255]) ++ body) m) = Some (true, append (tlv type body) m).
Proof.
  intros Hok Hf. unfold finishTLV, mbind, M_bind, get.
  set (m1 := append ((htons type ++ [255; 255]) ++ body) m).
  assert (Hlen : Position m1 - Position m = 4 + zlen body).
  { unfold m1. rewrite append_position. autorewrite with zlen. change (zlen [255; 255]) with 2. lia. }
  rewrite Hlen. change (BufferSize m1) with (BufferSize m).
  rewrite (proj2 (Z.leb_le 4 (BufferSize m))) by (destruct Hok as (_ & _ & ? & _); lia).
  unfold m1. replace ((htons type ++ [255; 255]) ++ body) with (htons type ++ [255; 255] ++ body) by (by rewrite app_assoc).
  set (pad := replicate (Z.to_nat (getPadding (4 + zlen body) 4)) 0).
  assert (Hf1 : fits m ((htons type ++ htons (4 + zlen body) ++ body) ++ pad)).
  { unfold tlv in Hf. by rewrite <- !app_assoc. }
  pose proof (fits_app_l _ _ _ Hf1) as Hf2.
  change (Position m + 2) with (Position m + zlen (htons type)).
  rewrite store_appended by done.
  pose proof (padding_range (4 + zlen body)).
  rewrite putPadding_run; [|by apply append_ok|lia|].
  - rewrite append_app by done. unfold tlv. by rewrite <- !app_assoc.
  - rewrite append_position, append_size. unfold fits in Hf1. rewrite zlen_app in Hf1.
    unfold pad in Hf1. rewrite zlen_replicate in Hf1. lia.
Qed.

Lemma writes_withinTLV type body c m : buffer_ok m → Position m mod 4 = 0 →
  (fits m (htons type ++ [255; 255]) → writes c body (append (htons type ++ [255; 255]) m)) →
  writes (withinTLV type c) (tlv type body) m.
Proof.
  intros Hok Ha Hbody. set (hdr := htons type ++ [255; 255]) in *.
  assert (Hhdr : zlen hdr = 4) by done. pose proof (zlen_tlv type body) as Hlen.
  pose proof (padding_range (4 + zlen body)). pose proof (zlen_nonneg body).
  assert (Hround : fits m (hdr ++ body) → fits m (tlv type body)).
  { unfold fits. rewrite zlen_app, Hlen, Hhdr. intros Hf.
    pose proof (padding_fits (4 + zlen body) (BufferSize m - Position m)) as Hp.
    rewrite Zminus_mod, Ha in Hp. destruct Hok as (_ & _ & _ & Hm). rewrite Hm in Hp.
    specialize (Hp ltac:(lia) eq_refl). lia. }
  assert (Hbegin : fits m hdr → beginTLV type m = Some (Some (Position m), append hdr m)).
  { intros Hf. unfold beginTLV, mbind, M_bind. unfold fits in Hf. rewrite getSpace_fits by (done || lia).
    change 4 with (zlen hdr). by rewrite store_append. }
  split.
  - intros Hf. assert (Hf' : fits m (hdr ++ body)).
    { unfold fits in *. rewrite zlen_app, Hhdr. lia. }
    pose proof (fits_app_l _ _ _ Hf') as Hfh.
    unfold withinTLV, mbind at 1, M_bind at 1. rewrite Hbegin by done.
    rewrite (andThen_true _ _ _ _ (proj1 (Hbody Hfh) (proj1 (fits_app _ _ _) Hf'))).
    rewrite append_app by done. by apply finishTLV_run.
  - intros Hf. destruct (fits_dec m hdr) as [Hfh|Hfh].
    + destruct (proj2 (Hbody Hfh)) as (bs' & Hf' & Hrun).
      { intros Hf'. by apply Hf, Hround, fits_app. }
      exists (hdr ++ bs'). rewrite fits_app. split; [done|].
      unfold withinTLV, mbind at 1, M_bind at 1. rewrite Hbegin by done.
      rewrite (andThen_false _ _ _ _ Hrun). rewrite append_app; [done..|]. by apply fits_app.
    + exists []. unfold fits in *. rewrite zlen_nil. split; [destruct Hok; lia|].
      unfold withinTLV, beginTLV, mbind, M_bind. rewrite getSpace_full by (done || lia). by rewrite append_nil.
Qed.
End combinators.

Section parameters.
Context {ST : Type}.
Abbreviation Msg := (RSerPoolMessage ST).
Implicit Types (m : Msg) (c : M Msg bool).

(** The position is a multiple of four between parameters. *)
Definition ready m : Prop := buffer_ok m ∧ Position m mod 4 = 0.

Lemma ready_ok m : ready m → buffer_ok m.
Proof. by intros [? _]. Qed.

Lemma ready_append bs m : ready m → fits m bs → zlen bs mod 4 = 0 → ready (append bs m).
Proof.
  intros [Hok Ha] Hf Hb. split; [by apply append_ok|].
  rewrite append_position, Z.add_mod, Ha, Hb by lia. done.
Qed.

Lemma writes_tlv type body c m : ready m →
  (∀ m', ready m' → (∃ b, m' = append b m) → writes c body m') → writes (withinTLV type c) (tlv type body) m.
Proof.
  intros [Hok Ha] Hbody. apply writes_withinTLV; [done..|]. intros Hf.
  apply Hbody; [|by eexists]. by apply ready_append.
Qed.

Lemma writes_seq c1 c2 b1 b2 m : ready m → zlen b1 mod 4 = 0 → writes c1 b1 m →
  (∀ m', ready m' → (∃ b, m' = append b m) → writes c2 b2 m') → writes (c1 >>> c2) (b1 ++ b2) m.
Proof.
  intros Hr Ha H1 H2. apply writes_andThen; [by apply ready_ok|done|]. intros Hf.
  apply H2; [by apply ready_append|by eexists].
Qed.

Lemma writes_put bs m : ready m → zlen bs < 2 ^ 62 → writes (putBytes bs) bs m.
Proof. intros Hr. apply writes_putBytes. by apply ready_ok. Qed.

Lemma writes_handle h m : ready m → handle_wf h → writes (createPoolHandleParameter h) (handleWire h) m.
Proof.
  intros Hr (Hs & Hl & _). unfold MAX_POOLHANDLESIZE in *. apply writes_tlv; [done|]. intros m' Hr' _.
  apply writes_put; [done|]. unfold zlen. rewrite length_take. lia.
Qed.

Lemma writes_address a w m : ready m → address_wf a → addressWire a = Some w → writes (createAddressParameter a) w m.
Proof.
  intros Hr Hwf Hw. destruct a as [x p|x p|f]; simpl in *; [..|done].
  - injection Hw as <-. destruct Hwf as (Hl & _). apply writes_tlv; [done|]. intros m' Hr' _.
    apply writes_put; [done|]. unfold zlen. lia.
  - injection Hw as <-. destruct Hwf as (Hl & _). destruct (IN6_IS_ADDR_V4MAPPED x); simpl.
    + apply writes_tlv; [done|]. intros m' Hr' _. apply writes_put; [done|]. unfold zlen. rewrite length_drop. lia.
    + apply writes_tlv; [done|]. intros m' Hr' _. apply writes_put; [done|]. unfold zlen. lia.
Qed.

Lemma addressWire_aligned a w : addressWire a = Some w → zlen w mod 4 = 0.
Proof.
  destruct a; simpl; intros [= <-]; [apply tlv_aligned|]. case_match; apply tlv_aligned.
Qed.

Lemma mapM_cons_Some {A B} (f : A → option B) x l ys :
  mapM f (x :: l) = Some ys → ∃ y ys', f x = Some y ∧ mapM f l = Some ys' ∧ ys = y :: ys'.
Proof.
  simpl. intros Hm. apply bind_Some in Hm as (y & Hy & Hm). apply bind_Some in Hm as (ys' & Hys & [= <-]).
  by exists y, ys'.
Qed.

(** Behind the first address, only SCTP goes on. *)
Lemma writes_addresses type l ws i m : ready m → Forall address_wf l → mapM addressWire l = Some ws → 0 <= i →
  type = ATT_SCTP_TRANSPORT ∨ i + Z.of_nat (length l) <= 1 →
  writes (createAddresses type i l) (concat ws) m.
Proof.
  intros Hr Hwf. revert i m Hr ws. induction Hwf as [|a l Ha Hwf IH]; intros i m Hr ws Hws Hi Hmulti.
  - injection Hws as <-. by apply writes_nothing, ready_ok.
  - apply mapM_cons_Some in Hws as (w & ws' & Hw & Hws & ->). cbn [concat createAddresses].
    apply writes_seq; [done|by eapply addressWire_aligned|by apply writes_address|]. intros m' Hr' _.
    destruct (Z.ltb_spec 0 i); simpl.
    + destruct Hmulti as [->|Hlen]; [|simpl in Hlen; lia]. rewrite Z.eqb_refl. simpl.
      apply IH; [done..|lia|by left].
    + apply IH; [done..|lia|]. destruct Hmulti as [?|Hlen]; [by left|right]. simpl in Hlen. lia.
Qed.

Lemma writes_transport t w m : ready m → Forall address_wf (tab_AddressArray t) → transportWire t = Some w →
  writes (createTransportParameter (Some t)) w m.
Proof.
  intros Hr Hwf Hw. unfold transportWire in Hw. apply bind_Some in Hw as (type & Htype & Hw).
  apply bind_Some in Hw as (ws & Hws & Hw). unfold createTransportParameter.
  apply (writes_deref _ type); [done|].
  destruct (negb (type =? ATT_SCTP_TRANSPORT) && (1 <? Z.of_nat (length (tab_AddressArray t)))) eqn:Hmulti; [done|].
  apply (inj Some) in Hw as <-. apply writes_tlv; [done|]. intros m' Hr' _.
  rewrite (app_assoc (htons (tab_Port t))). apply writes_seq; [done|done|by apply writes_put|]. intros m'' Hr'' _.
  apply writes_addresses; [done..|].
  apply andb_false_iff in Hmulti as [Hm|Hm].
  - left. apply negb_false_iff in Hm. by apply Z.eqb_eq.
  - right. apply Z.ltb_ge in Hm. lia.
Qed.

Lemma policy_few policyType fields : createdPolicyFields policyType = Some fields → (length fields <= 4)%nat.
Proof. unfold createdPolicyFields. repeat case_match; intros [= <-]; simpl; lia. Qed.

Lemma zlen_bind_htonl {A} (f : A → Z) l : zlen (l ≫= λ x, htonl (f x)) = 4 * Z.of_nat (length l).
Proof. induction l as [|x l IH]; [done|]. cbn [mbind list_bind]. rewrite zlen_app, zlen_htonl.
  change (zlen (list_bind _ _ (λ x, htonl (f x)) l)) with (zlen (l ≫= λ x, htonl (f x))). rewrite IH. simpl length. lia. Qed.

Lemma zlen_policyBytes pps fields : zlen (policyBytes pps fields) = 4 + 4 * Z.of_nat (length fields).
Proof. unfold policyBytes. by rewrite zlen_app, zlen_htonl, zlen_bind_htonl. Qed.

Lemma writes_policy pps w m : ready m → policyWire pps = Some w → writes (createPolicyParameter pps) w m.
Proof.
  intros Hr Hw. unfold policyWire in Hw. apply fmap_Some in Hw as (fields & Hfields & ->).
  apply writes_tlv; [done|]. intros m' Hr' _. apply (writes_deref _ fields); [done|].
  apply writes_put; [done|]. fold (policyBytes pps fields). rewrite zlen_policyBytes.
  apply policy_few in Hfields. lia.
Qed.

Lemma transportWire_aligned t w : transportWire t = Some w → zlen w mod 4 = 0.
Proof.
  unfold transportWire. intros Hw. apply bind_Some in Hw as (type & _ & Hw). apply bind_Some in Hw as (ws & _ & Hw).
  destruct (negb _ && _); [done|]. apply (inj Some) in Hw as <-. apply tlv_aligned.
Qed.

Lemma policyWire_aligned pps w : policyWire pps = Some w → zlen w mod 4 = 0.
Proof. unfold policyWire. intros Hw. apply fmap_Some in Hw as (fields & _ & ->). apply tlv_aligned. Qed.

(** The addresses of an element's blocks. *)
Definition element_addresses_wf (pe : PoolElementNode) : Prop :=
  Forall address_wf (tab_AddressArray (pen_UserTransport pe)) ∧
  ∀ t, pen_RegistratorTransport pe = Some t → Forall address_wf (tab_AddressArray t).

Lemma writes_element pe reg w m : ready m → element_addresses_wf pe → elementWire pe reg = Some w →
  writes (createPoolElementParameter (Some pe) reg) w m.
Proof.
  intros Hr [Hu Hg] Hw. unfold elementWire in Hw. apply bind_Some in Hw as (wu & Hwu & Hw).
  apply bind_Some in Hw as (wp & Hwp & Hw). apply bind_Some in Hw as (wr & Hwr & Hw). apply (inj Some) in Hw as <-.
  apply writes_tlv; [done|]. intros m1 Hr1 _.
  apply writes_seq; [done|done|by apply writes_put|]. intros m2 Hr2 _.
  apply writes_seq; [done|by eapply transportWire_aligned|by apply writes_transport|]. intros m3 Hr3 _.
  apply writes_seq; [done|by eapply policyWire_aligned|by apply writes_policy|]. intros m4 Hr4 _.
  destruct reg.
  - apply bind_Some in Hwr as (t & Ht & Hwt). rewrite Ht. apply writes_check; [by apply bool_decide_eq_true|].
    by apply writes_transport; [|apply Hg|].
  - injection Hwr as <-. by apply writes_nothing, ready_ok.
Qed.

Lemma elementWire_aligned pe reg w : elementWire pe reg = Some w → zlen w mod 4 = 0.
Proof.
  unfold elementWire. intros Hw. apply bind_Some in Hw as (? & _ & Hw). apply bind_Some in Hw as (? & _ & Hw).
  apply bind_Some in Hw as (? & _ & [= <-]). apply tlv_aligned.
Qed.

Lemma writes_identifier i m : ready m → writes (createPoolElementIdentifierParameter i) (identifierWire i) m.
Proof. intros Hr. apply writes_tlv; [done|]. intros m' Hr' _. by apply writes_put. Qed.

Lemma writes_checksum `{Endian} z m : ready m → writes (createHandlespaceChecksumParameter z) (checksumWire z) m.
Proof.
  intros Hr. apply writes_tlv; [done|]. intros m' Hr' _. apply writes_put; [done|].
  unfold st16. by case_match.
Qed.

Lemma writes_cookie cookie m : ready m → zlen cookie < 2 ^ 62 →
  writes (createCookieParameter (Some cookie) (zlen cookie)) (cookieWire cookie) m.
Proof.
  intros Hr Hl. apply writes_tlv; [done|]. intros m' Hr' _. apply writes_space; [by apply ready_ok|done|]. intros Hf.
  unfold deref, mbind, M_bind. rewrite take_ge by (unfold zlen; lia). by rewrite store_append by (done || by apply ready_ok).
Qed.

Lemma writes_resolution items m : ready m → writes (createHandleResolutionParameter items) (resolutionWire items) m.
Proof.
  intros Hr. apply writes_tlv; [done|]. intros m' Hr' _. apply writes_put; [done|]. by case_match.
Qed.

Lemma writes_serverInfo n w m : ready m → serverInfoWire n = Some w →
  (∀ t, pln_AddressBlock n = Some t → Forall address_wf (tab_AddressArray t)) →
  writes (createServerInformationParameter (Some n)) w m.
Proof.
  intros Hr Hw Hwf. unfold serverInfoWire in Hw. apply bind_Some in Hw as (t & Ht & Hw).
  apply bind_Some in Hw as (wt & Hwt & Hw). apply (inj Some) in Hw as <-. apply writes_tlv; [done|]. intros m' Hr' _.
  unfold createServerInformationParameter.
  set (k := createTransportParameter (ST := ST) (pln_AddressBlock n)).
  assert (Hk : writes (putBytes (htonl (pln_Identifier n)) >>> k) (htonl (pln_Identifier n) ++ wt) m').
  { apply writes_seq; [done|done|by apply writes_put|]. intros m'' Hr'' _. unfold k. rewrite Ht.
    apply writes_transport; [done|by apply Hwf|done]. }
  unfold andThen, putBytes, withSpace, writes, mbind, M_bind, deref, mret, M_ret in Hk |- *.
  change (Z.of_nat (length (htonl (pln_Identifier n)))) with 4 in Hk.
  destruct (getSpace 4 m') as [[ [o|] m1]|]; [|exact Hk..].
  destruct (storeBytes o (htonl (pln_Identifier n)) m1) as [[ [] m2]|]; exact Hk.
Qed.

(** The data that goes with an error cause. *)
Definition errorData m : list Z :=
  if causeHasData (Error m)
  then take (Z.to_nat (rm_ErrorCauseParameterTLVLength m)) (default [] (rm_ErrorCauseParameterTLV m)) else [].

Lemma writes_error m : ready m → rm_ErrorCauseParameterTLV m ≠ None ∨ rm_ErrorCauseParameterTLVLength m = 0 →
  zlen (errorData m) < 2 ^ 61 → writes createErrorParameter (errorWire (Error m) (errorData m)) m.
Proof.
  intros Hr Hc Hl. apply writes_tlv; [done|]. intros m' Hr' (b & ->). apply writes_get.
  change (rm_ErrorCauseParameterTLV (append b m)) with (rm_ErrorCauseParameterTLV m).
  change (rm_ErrorCauseParameterTLVLength (append b m)) with (rm_ErrorCauseParameterTLVLength m).
  change (Error (append b m)) with (Error m). apply writes_check.
  { apply orb_true_iff. destruct Hc as [Hc| ->]; [left; by apply bool_decide_eq_true|by right]. }
  fold (errorData m). apply writes_put; [done|]. autorewrite with zlen. unfold zlen in *. lia.
Qed.
End parameters.
