(* ===== verification/MessageCreate.v ===== *)
(** * Messages on the wire

    [bodyWire m] gives flags, protocol identifier and body of the packet of
    a message, for every message type but the two that enumerate a peer
    list or a handle table; [None] when the message cannot be sent (the
    creator then ends the process).  [create_run] shows that the creators
    write this packet. *)

From S2P Require Import Prelude Addresses PoolBasics Storage PoolElement PoolPolicy HandlespaceState HandlespaceMgt PeerList Message MessageCreator MessageWire MessageWrites.
From stdpp Require Import base list gmap numbers option.
#[local] Open Scope Z_scope.
#[local] Open Scope message_scope.

(** [Some w] if [P]. *)
Definition provided (P : Prop) `{Decision P} (w : list Z) : option (list Z) := if decide P then Some w else None.

Lemma provided_Some P `{Decision P} w w' : provided P w = Some w' → P ∧ w = w'.
Proof. unfold provided. case_decide; [|done]. intros Hw. by apply (inj Some) in Hw. Qed.

(** Takes an equation between [option]s apart. *)
Ltac split_part H :=
  lazymatch type of H with
  | _ ≫= _ = Some _ =>
      let x := fresh "x" in let Hx := fresh "Hx" in apply bind_Some in H as (x & Hx & H); split_part H
  | provided _ _ = Some _ => let HP := fresh "HP" in apply provided_Some in H as (HP & <-)
  | Some _ = Some _ => apply (inj Some) in H as <-
  | _ => idtac
  end.

Section wire.
Context {ST : Type} `{Storage ST} `{Endian}.
Abbreviation Msg := (RSerPoolMessage ST).
Implicit Types (m : Msg) (c : M Msg bool).

Definition handlePart m : option (list Z) := provided (handle_wf (rm_Handle m)) (handleWire (rm_Handle m)).

Definition block_wf (t : option TransportAddressBlock) : Prop := Forall address_wf (default [] (tab_AddressArray <$> t)).

#[global] Instance block_wf_dec t : Decision (block_wf t).
Proof. unfold block_wf. apply _. Defined.

Definition elementPart (withRegistrator : bool) (pe : option PoolElementNode) : option (list Z) :=
  pe ← pe;
  w ← elementWire pe withRegistrator;
  provided (block_wf (Some (pen_UserTransport pe)) ∧ block_wf (pen_RegistratorTransport pe)) w.

Definition elementsPart (l : list (option PoolElementNode)) : option (list Z) := (λ ws, concat ws) <$> mapM (elementPart false) l.

Definition errorPart m : option (list Z) :=
  provided ((rm_ErrorCauseParameterTLV m ≠ None ∨ rm_ErrorCauseParameterTLVLength m = 0) ∧ zlen (errorData m) < 2 ^ 61)
    (errorWire (Error m) (errorData m)).

Definition optionalErrorPart m : option (list Z) := if Error m =? 0 then Some [] else errorPart m.

Definition serverInfoPart m : option (list Z) :=
  n ← rm_PeerListNodePtr m; w ← serverInfoWire n; provided (block_wf (pln_AddressBlock n)) w.

Definition cookiePart m : option (list Z) :=
  cookie ← rm_CookiePtr m; provided (zlen cookie = rm_CookieSize m ∧ zlen cookie < 2 ^ 62) (cookieWire cookie).

Definition handleAndIdentifier m : option (list Z) :=
  h ← handlePart m; Some (h ++ identifierWire (rm_Identifier m)).

Definition responsePart m : option (list Z) :=
  h ← handlePart m; e ← optionalErrorPart m; Some (h ++ identifierWire (rm_Identifier m) ++ e).

Definition registrationPart m : option (list Z) :=
  pe ← rm_PoolElementPtr m;
  h ← handlePart m; w ← elementPart false (Some pe); e ← optionalErrorPart m;
  provided (pen_RegistratorTransport pe = None) (h ++ w ++ e).

Definition pointedElements m : list (option PoolElementNode) :=
  take (Z.to_nat (rm_PoolElementPtrArraySize m)) (rm_PoolElementPtrArray m).

Definition resolutionResponsePart m : option (list Z) :=
  h ← handlePart m;
  rest ← (if Error m =? 0 then
            p ← policyWire (rm_PolicySettings m); l ← elementsPart (pointedElements m); Some (p ++ l)
          else errorPart m);
  provided (rm_PoolElementPtrArraySize m <= MAX_MAX_HANDLE_RESOLUTION_ITEMS) (h ++ rest).

Definition businessCardPart m : option (list Z) :=
  h ← handlePart m; p ← policyWire (rm_PolicySettings m); l ← elementsPart (pointedElements m);
  provided (0 < rm_PoolElementPtrArraySize m < MAX_MAX_HANDLE_RESOLUTION_ITEMS) (h ++ p ++ l).

Definition handleUpdatePart m : option (list Z) :=
  pe ← rm_PoolElementPtr m;
  h ← handlePart m; w ← elementPart true (Some pe);
  provided (pen_RegistratorTransport pe ≠ None)
    ((htonl (rm_SenderID m) ++ htonl (rm_ReceiverID m) ++ htons (rm_Action m) ++ htons 0) ++ h ++ w).

Definition bodyWire m : option (Z * Z * list Z) :=
  let type := rm_Type m in
  let flags := rm_Flags m in
  let asap flags (body : option (list Z)) := (λ b, (flags, PPID_ASAP, b)) <$> body in
  let enrp flags (body : option (list Z)) := (λ b, (flags, PPID_ENRP, b)) <$> body in
  if type =? AHT_HANDLE_RESOLUTION then
    asap 0 (h ← handlePart m; Some (h ++ if rm_Addresses m =? 0 then [] else resolutionWire (rm_Addresses m)))
  else if type =? AHT_HANDLE_RESOLUTION_RESPONSE then asap 0 (resolutionResponsePart m)
  else if type =? AHT_ENDPOINT_KEEP_ALIVE then
    asap (Z.land flags AHF_ENDPOINT_KEEP_ALIVE_HOME)
      (h ← handlePart m; Some (htonl (rm_RegistrarIdentifier m) ++ h ++
         if rm_Identifier m =? 0 then [] else identifierWire (rm_Identifier m)))
  else if type =? AHT_ENDPOINT_KEEP_ALIVE_ACK then asap 0 (handleAndIdentifier m)
  else if type =? AHT_SERVER_ANNOUNCE then asap 0 (Some (htonl (rm_RegistrarIdentifier m)))
  else if type =? AHT_REGISTRATION then asap 0 (registrationPart m)
  else if type =? AHT_REGISTRATION_RESPONSE then
    asap (Z.land flags AHF_REGISTRATION_REJECT) (_ ← rm_PoolElementPtr m; responsePart m)
  else if type =? AHT_DEREGISTRATION then asap 0 (handleAndIdentifier m)
  else if type =? AHT_DEREGISTRATION_RESPONSE then asap 0 (responsePart m)
  else if type =? AHT_COOKIE then asap 0 (cookiePart m)
  else if type =? AHT_COOKIE_ECHO then asap 0 (cookiePart m)
  else if type =? AHT_BUSINESS_CARD then asap 0 (businessCardPart m)
  else if type =? AHT_ENDPOINT_UNREACHABLE then asap 0 (handleAndIdentifier m)
  else if type =? AHT_ERROR then asap 0 (errorPart m)
  else if type =? EHT_PRESENCE then
    enrp (Z.land flags EHF_PRESENCE_REPLY_REQUIRED)
      (i ← serverInfoPart m; Some (serverParameter m ++ checksumWire (rm_Checksum m) ++ i))
  else if type =? EHT_HANDLE_TABLE_REQUEST then
    enrp (Z.land flags EHF_HANDLE_TABLE_REQUEST_OWN_CHILDREN_ONLY) (Some (serverParameter m))
  else if type =? EHT_HANDLE_UPDATE then enrp (Z.land flags EHF_TAKEOVER_SUGGESTED) (handleUpdatePart m)
  else if type =? EHT_LIST_REQUEST then enrp 0 (Some (serverParameter m))
  else if type =? EHT_INIT_TAKEOVER then enrp 0 (Some (targetParameter m))
  else if type =? EHT_INIT_TAKEOVER_ACK then enrp 0 (Some (targetParameter m))
  else if type =? EHT_TAKEOVER_SERVER then enrp 0 (Some (targetParameter m))
  else if type =? EHT_ERROR then enrp 0 (e ← errorPart m; Some (serverParameter m ++ e))
  else None.

(** ** Messages *)

(** [true] with the packet written, or [false] when it does not fit. *)
Definition creates c (w : list Z) (ppid : Z) m : Prop :=
  (fits m w → c m = Some (true, append w (rm_set_PPID ppid m))) ∧
  (¬ fits m w → ∃ m', c m = Some (false, m')).

Lemma finishMessage_run type flags body m : buffer_ok m → Position m = 0 → zlen body mod 4 = 0 →
  fits m (packet type flags body) →
  finishMessage (append (([Z.land type 255; flags] ++ [255; 255]) ++ body) m) = Some (true, append (packet type flags body) m).
Proof.
  intros Hok Hp Ha Hf. unfold finishMessage, mbind, M_bind, get.
  set (hdr := [Z.land type 255; flags]) in *. rewrite <- (app_assoc hdr).
  set (m1 := append (hdr ++ [255; 255] ++ body) m).
  assert (Hlen : Position m1 = 4 + zlen body).
  { unfold m1. rewrite append_position. autorewrite with zlen. change (zlen [255; 255]) with 2.
    change (zlen hdr) with 2. lia. }
  rewrite Hlen. change (BufferSize m1) with (BufferSize m).
  rewrite (proj2 (Z.leb_le 4 (BufferSize m))) by (destruct Hok as (_ & _ & ? & _); lia).
  assert (Hst : storeBytes 2 (htons (4 + zlen body)) m1 = Some (tt, append (packet type flags body) m)).
  { unfold m1, packet. fold hdr. replace 2 with (Position m + zlen hdr) by (rewrite Hp; done). by apply store_appended. }
  rewrite Hst.
  assert (Hpad : getPadding (4 + zlen body) 4 = 0).
  { unfold getPadding. rewrite Z.add_mod, Ha by lia. done. }
  rewrite Hpad, putPadding_run; [|by apply append_ok|done|].
  - rewrite append_nil by (by apply append_ok). done.
  - rewrite append_position, append_size. unfold fits in Hf. lia.
Qed.

Lemma creates_message type flags ppid body c m : ready m → Position m = 0 → zlen body mod 4 = 0 →
  (∀ m', ready m' → (∃ b, m' = append b (rm_set_PPID ppid m)) → writes c body m') →
  creates (withinMessage type flags ppid c) (packet type flags body) ppid m.
Proof.
  intros [Hok Hal] Hp Ha Hbody. set (hdr := [Z.land type 255; flags] ++ [255; 255]).
  set (m0 := rm_set_PPID ppid m). assert (Hok0 : buffer_ok m0) by done.
  assert (Hsize : 4 <= BufferSize m) by (destruct Hok as (_ & _ & ? & _); lia).
  assert (Hfh : fits m0 hdr).
  { unfold fits. change (zlen hdr) with 4. change (Position m0) with (Position m).
    change (BufferSize m0) with (BufferSize m). lia. }
  assert (Hbegin : beginMessage type flags ppid m = Some (true, append hdr m0)).
  { unfold beginMessage, withSpace, mbind, M_bind, modify. rewrite getSpace_fits by (done || lia).
    change (rm_set_PPID ppid (set_Position (Position m + 4) m)) with (set_Position (Position m0 + zlen hdr) m0).
    change (Position m) with (Position m0). by rewrite store_append. }
  assert (Hlen : zlen (packet type flags body) = zlen (hdr ++ body)).
  { unfold packet, hdr. autorewrite with zlen. change (zlen [255; 255]) with 2. lia. }
  assert (Hfit : fits m (packet type flags body) ↔ fits (append hdr m0) body).
  { rewrite <- fits_app. unfold fits. by rewrite Hlen. }
  assert (Hw : writes c body (append hdr m0)).
  { apply Hbody; [|by eexists]. by apply ready_append. }
  split; unfold withinMessage; rewrite (andThen_true _ _ _ _ Hbegin).
  - intros Hf. rewrite (andThen_true _ _ _ _ (proj1 Hw (proj1 Hfit Hf))).
    rewrite append_app; [|done|by apply fits_app, Hfit]. unfold hdr. by apply finishMessage_run.
  - intros Hf. destruct (proj2 Hw) as (bs & _ & Hrun); [by rewrite <- Hfit|].
    exists (append bs (append hdr m0)). by apply andThen_false.
Qed.

(** ** The parts of the messages *)

(** The fields that error parameters are made of. *)
Definition same_error m m' : Prop :=
  Error m' = Error m ∧ rm_ErrorCauseParameterTLV m' = rm_ErrorCauseParameterTLV m ∧
  rm_ErrorCauseParameterTLVLength m' = rm_ErrorCauseParameterTLVLength m.

(** While [m] is converted, [c] writes [w]. *)
Definition describes m c (w : list Z) : Prop :=
  zlen w mod 4 = 0 ∧ ∀ m', ready m' → same_error m m' → writes c w m'.

Lemma describes_seq m c1 c2 w1 w2 : describes m c1 w1 → describes m c2 w2 → describes m (c1 >>> c2) (w1 ++ w2).
Proof.
  intros [Ha1 H1] [Ha2 H2]. split; [by apply aligned_app|]. intros m' Hr He.
  apply writes_seq; [done..|by apply H1|]. intros m'' Hr' (b & ->). by apply H2.
Qed.

Lemma describes_nothing m : describes m (mret true) [].
Proof. split; [done|]. intros. by apply writes_nothing, ready_ok. Qed.

Lemma describes_put m w : zlen w mod 4 = 0 → zlen w < 2 ^ 62 → describes m (putBytes w) w.
Proof. intros Ha Hl. split; [done|]. intros. by apply writes_put. Qed.

Lemma describes_handle m w : handlePart m = Some w → describes m (createPoolHandleParameter (rm_Handle m)) w.
Proof.
  intros Hw. apply provided_Some in Hw as (Hwf & <-). split; [apply tlv_aligned|]. intros. by apply writes_handle.
Qed.

Lemma describes_element m reg pe w : elementPart reg pe = Some w → describes m (createPoolElementParameter pe reg) w.
Proof.
  intros Hw. apply bind_Some in Hw as (e & -> & Hw). apply bind_Some in Hw as (w' & Hw' & Hw).
  apply provided_Some in Hw as ((Hu & Hg) & <-). split; [by eapply elementWire_aligned|]. intros.
  apply writes_element; [done| |done]. split; [done|]. intros t Ht. by rewrite Ht in Hg.
Qed.

Lemma describes_elements m l w : elementsPart l = Some w → describes m (createPoolElements l) w.
Proof.
  intros Hw. apply fmap_Some in Hw as (ws & Hws & ->). revert ws Hws.
  induction l as [|pe l IH]; intros ws Hws.
  - injection Hws as <-. apply describes_nothing.
  - apply mapM_cons_Some in Hws as (w & ws' & Hw & Hws & ->). apply describes_seq; [by apply describes_element|by apply IH].
Qed.

Lemma describes_policy m pps w : policyWire pps = Some w → describes m (createPolicyParameter pps) w.
Proof. intros Hw. split; [by eapply policyWire_aligned|]. intros. by apply writes_policy. Qed.

Lemma describes_identifier m i : describes m (createPoolElementIdentifierParameter i) (identifierWire i).
Proof. split; [apply tlv_aligned|]. intros. by apply writes_identifier. Qed.

Lemma describes_checksum m z : describes m (createHandlespaceChecksumParameter z) (checksumWire z).
Proof. split; [apply tlv_aligned|]. intros. by apply writes_checksum. Qed.

Lemma describes_resolution m items : describes m (createHandleResolutionParameter items) (resolutionWire items).
Proof. split; [apply tlv_aligned|]. intros. by apply writes_resolution. Qed.

Lemma describes_error m w : errorPart m = Some w → describes m createErrorParameter w.
Proof.
  intros Hw. apply provided_Some in Hw as ((Hc & Hl) & <-). split; [apply tlv_aligned|]. intros m' Hr (He & Ht & Hn).
  assert (Hd : errorData m' = errorData m) by (unfold errorData; by rewrite He, Ht, Hn).
  rewrite <- He, <- Hd. apply writes_error; [done|by rewrite Ht, Hn|by rewrite Hd].
Qed.

Lemma describes_optionalError m w : optionalErrorPart m = Some w →
  describes m (if negb (Error m =? 0) then createErrorParameter else mret true) w.
Proof.
  unfold optionalErrorPart. destruct (Error m =? 0); simpl; intros Hw.
  - apply (inj Some) in Hw as <-. apply describes_nothing.
  - by apply describes_error.
Qed.

Lemma describes_serverInfo m w : serverInfoPart m = Some w →
  describes m (createServerInformationParameter (rm_PeerListNodePtr m)) w.
Proof.
  intros Hw. apply bind_Some in Hw as (n & -> & Hw). apply bind_Some in Hw as (w' & Hw' & Hw).
  apply provided_Some in Hw as (Hwf & <-). split.
  - apply bind_Some in Hw' as (? & _ & Hw'). apply bind_Some in Hw' as (? & _ & Hw').
    apply (inj Some) in Hw' as <-. apply tlv_aligned.
  - intros. apply writes_serverInfo; [done..|]. intros t Ht. by rewrite Ht in Hwf.
Qed.

Lemma describes_cookie m w : cookiePart m = Some w → describes m (createCookieParameter (rm_CookiePtr m) (rm_CookieSize m)) w.
Proof.
  intros Hw. apply bind_Some in Hw as (cookie & -> & Hw). apply provided_Some in Hw as ((<- & Hl) & <-).
  split; [apply tlv_aligned|]. intros. by apply writes_cookie.
Qed.

Create HintDb describes discriminated.
#[local] Hint Resolve describes_seq describes_nothing describes_handle describes_element describes_elements
  describes_policy describes_identifier describes_checksum describes_resolution describes_error
  describes_optionalError describes_serverInfo describes_cookie : describes.
#[local] Hint Extern 1 (describes _ (putBytes _) _) => (apply describes_put; done) : describes.

Lemma creates_described type flags ppid body c m : ready m → Position m = 0 → describes m c body →
  creates (withinMessage type flags ppid c) (packet type flags body) ppid m.
Proof.
  intros Hr Hp [Ha Hc]. apply creates_message; [done..|]. intros m' Hr' (b & ->). by apply Hc.
Qed.

Lemma creates_get k w ppid m : creates (k m) w ppid m → creates (get ≫= k) w ppid m.
Proof. done. Qed.

Lemma creates_deref {A} (o : option A) a k w ppid m : o = Some a → creates (k a) w ppid m → creates (deref (λ _, o) ≫= k) w ppid m.
Proof. intros ->. done. Qed.

Lemma creates_check b k w ppid m : b = true → creates k w ppid m → creates (CHECK b;; k) w ppid m.
Proof. intros ->. done. Qed.

Ltac described := apply creates_get, creates_described; [done..|eauto 8 with describes].

Lemma creates_registration m body : ready m → Position m = 0 → registrationPart m = Some body →
  creates createRegistrationMessage (packet AHT_REGISTRATION 0 body) PPID_ASAP m.
Proof.
  intros Hr Hp Hb. unfold registrationPart in Hb. split_part Hb. apply creates_get.
  apply (creates_deref _ x); [done|]. apply creates_check; [by apply bool_decide_eq_true|].
  rewrite Z.land_0_r, Hx. apply creates_described; [done..|]. eauto 8 with describes.
Qed.

Lemma creates_handleUpdate m body : ready m → Position m = 0 → handleUpdatePart m = Some body →
  creates createHandleUpdateMessage (packet EHT_HANDLE_UPDATE (Z.land (rm_Flags m) EHF_TAKEOVER_SUGGESTED) body) PPID_ENRP m.
Proof.
  intros Hr Hp Hb. unfold handleUpdatePart in Hb. split_part Hb. apply creates_get.
  apply (creates_deref _ x); [done|]. apply creates_check; [by apply bool_decide_eq_true|].
  rewrite Hx. apply creates_described; [done..|]. eauto 8 with describes.
Qed.

Lemma creates_resolutionResponse m body : ready m → Position m = 0 → resolutionResponsePart m = Some body →
  creates createHandleResolutionResponseMessage (packet AHT_HANDLE_RESOLUTION_RESPONSE 0 body) PPID_ASAP m.
Proof.
  intros Hr Hp Hb. unfold resolutionResponsePart in Hb. split_part Hb. apply creates_get.
  apply creates_check; [by apply Z.leb_le|]. rewrite Z.land_0_r. apply creates_described; [done..|].
  apply describes_seq; [by apply describes_handle|]. destruct (Error m =? 0).
  - split_part Hx0. eauto with describes.
  - by apply describes_error.
Qed.

Lemma creates_businessCard m body : ready m → Position m = 0 → businessCardPart m = Some body →
  creates createBusinessCardMessage (packet AHT_BUSINESS_CARD 0 body) PPID_ASAP m.
Proof.
  intros Hr Hp Hb. unfold businessCardPart in Hb. split_part Hb. apply creates_get.
  apply creates_check; [apply Z.ltb_lt; lia|]. apply creates_check; [apply Z.ltb_lt; lia|].
  rewrite Z.land_0_r. apply creates_described; [done..|]. eauto 8 with describes.
Qed.

Lemma creates_registrationResponse m pe body : ready m → Position m = 0 → rm_PoolElementPtr m = Some pe →
  responsePart m = Some body →
  creates createRegistrationResponseMessage
    (packet AHT_REGISTRATION_RESPONSE (Z.land (rm_Flags m) AHF_REGISTRATION_REJECT) body) PPID_ASAP m.
Proof.
  intros Hr Hp Hpe Hb. unfold responsePart in Hb. split_part Hb. apply creates_get. rewrite Hpe.
  apply creates_described; [done..|]. eauto 8 with describes.
Qed.

(** The creator of every message type writes its packet. *)
Lemma create_run m flags ppid body : ready m → Position m = 0 → bodyWire m = Some (flags, ppid, body) →
  creates (creatorOf (rm_Type m)) (packet (rm_Type m) flags body) ppid m.
Proof.
  intros Hr Hp Hb. unfold bodyWire, creatorOf in *.
  repeat match type of Hb with
  | context [if rm_Type m =? ?y then _ else _] =>
      destruct (Z.eqb_spec (rm_Type m) y) as [->|_];
      [apply fmap_Some in Hb as (b & Hb & Heq); injection Heq as -> -> ->|]
  end; [..|done].
  all: try (unfold handleAndIdentifier, responsePart in Hb; split_part Hb; apply creates_get; rewrite ?Z.land_0_r;
            apply creates_described; [done..|]; solve [eauto 8 with describes]).
  - split_part Hb. apply creates_get. rewrite Z.land_0_r. apply creates_described; [done..|].
    apply describes_seq; [by apply describes_handle|]. destruct (rm_Addresses m =? 0); eauto with describes.
  - by apply creates_resolutionResponse.
  - split_part Hb. apply creates_get, creates_described; [done..|].
    apply describes_seq; [by apply describes_put|]. apply describes_seq; [by apply describes_handle|].
    destruct (rm_Identifier m =? 0); eauto with describes.
  - by apply creates_registration.
  - apply bind_Some in Hb as (pe & Hpe & Hb). by apply (creates_registrationResponse _ pe).
  - by apply creates_businessCard.
  - by apply creates_handleUpdate.
Qed.

(** Every body is a sequence of whole parameters. *)
Lemma part_aligned m c w : describes m c w → zlen w mod 4 = 0.
Proof. by intros [? _]. Qed.

Ltac aligned :=
  solve [ done | apply tlv_aligned
        | apply aligned_app; aligned
        | case_match; aligned
        | match goal with m : RSerPoolMessage _ |- _ => eapply (part_aligned m); eauto with describes end ].

Lemma bodyWire_aligned m flags ppid body : bodyWire m = Some (flags, ppid, body) → zlen body mod 4 = 0.
Proof.
  intros Hb. unfold bodyWire in Hb.
  repeat match type of Hb with
  | context [if rm_Type m =? ?y then _ else _] =>
      destruct (rm_Type m =? y);
      [apply fmap_Some in Hb as (b & Hb & Heq); injection Heq as _ _ ->|]
  end; [..|done].
  all: unfold handleAndIdentifier, responsePart, registrationPart, resolutionResponsePart, businessCardPart,
    handleUpdatePart in Hb; split_part Hb; try aligned.
  apply aligned_app; [aligned|]. destruct (Error m =? 0); split_part Hx0; aligned.
Qed.
End wire.
