(* ===== verification/MessageScan.v ===== *)
(** * The parser reads the wire format

    [sees m p bs]: the packet of [m] has [bs] at offset [p].  For every
    parameter of the wire format, the scanner at its begin yields the data
    it was made of, leaves the position behind it and clears the offending
    parameter. *)

From S2P Require Import Prelude Addresses PoolBasics Storage PoolElement PoolPolicy HandlespaceState HandlespaceMgt PeerList Message MessageCreator MessageParser MessageWire MessageWrites.
From stdpp Require Import base list gmap numbers option.
#[local] Open Scope Z_scope.
#[local] Open Scope message_scope.

(** Runs the first command of a sequence. *)
Ltac run_by tac := etransitivity; [eapply run_bind; tac|cbv beta iota].
Ltac run := etransitivity; [eapply run_bind; reflexivity|cbv beta iota].

(** ** Byte order *)

Lemma be_value_htons z : is_u16 z → be_value (htons z) = z.
Proof.
  intros Hz. unfold in_width in Hz. unfold be_value, htons. cbn [foldl].
  pose proof (Z_div_mod_eq_full z 256). pose proof (Z.mod_pos_bound z 256).
  rewrite (Z.mod_small (z / 256)); [lia|]. split; [apply Z.div_pos; lia|apply Z.div_lt_upper_bound; lia].
Qed.

Lemma be_value_htonl z : is_u32 z → be_value (htonl z) = z.
Proof.
  intros Hz. unfold in_width in Hz. unfold be_value, htonl. cbn [foldl].
  change 16777216 with (65536 * 256). change 65536 with (256 * 256) at 2. rewrite <- !Z.div_div by lia.
  change 65536 with (256 * 256). rewrite <- !Z.div_div by lia.
  set (a := z / 256). set (b := a / 256). set (c := b / 256).
  pose proof (Z_div_mod_eq_full z 256). pose proof (Z_div_mod_eq_full a 256). pose proof (Z_div_mod_eq_full b 256).
  fold a in H. fold b in H0. fold c in H1.
  assert (Hc : 0 <= c < 256).
  { unfold c, b, a. rewrite !Z.div_div by lia. split; [apply Z.div_pos; lia|apply Z.div_lt_upper_bound; lia]. }
  rewrite (Z.mod_small c) by done. lia.
Qed.

Lemma ld16_st16 `{Endian} z : is_u16 z → ld16 (byteAt (st16 z) 0) (byteAt (st16 z) 1) = z.
Proof.
  intros Hz. pose proof (be_value_htons z Hz) as Hb. unfold be_value, htons in Hb. cbn [foldl] in Hb.
  unfold ld16, st16. destruct little_endian; cbn; lia.
Qed.

Section sees.
Context {ST : Type} `{Storage ST} `{Endian}.
Abbreviation Msg := (RSerPoolMessage ST).
Implicit Types (m : Msg) (p : Z) (bs : list Z).

Definition sees m p bs : Prop :=
  0 <= p ∧ p + zlen bs <= BufferSize m ∧ BufferSize m <= zlen (Buffer m) ∧ BufferSize m < 2 ^ 62 ∧
  take (length bs) (drop (Z.to_nat p) (Buffer m)) = bs.

Lemma sees_app m p b1 b2 : sees m p (b1 ++ b2) → sees m p b1 ∧ sees m (p + zlen b1) b2.
Proof.
  intros (Hp & He & Hl & Hs & Ht). rewrite zlen_app in He. rewrite length_app in Ht.
  pose proof (zlen_nonneg b1). pose proof (zlen_nonneg b2).
  assert (Hb1 : take (length b1) (drop (Z.to_nat p) (Buffer m)) = b1).
  { apply (f_equal (take (length b1))) in Ht. rewrite take_take, Nat.min_l in Ht by lia.
    by rewrite take_app_length in Ht. }
  repeat split; [lia..|done|lia|lia|done|done|].
  apply (f_equal (drop (length b1))) in Ht. rewrite drop_app_length in Ht.
  rewrite <- Ht at 2. rewrite <- take_drop_commute. f_equal. rewrite drop_drop. f_equal. unfold zlen. lia.
Qed.

Lemma sees_load m p bs n : sees m p bs → zlen bs = n → loadBytes p n m = Some (bs, m).
Proof.
  intros (Hp & He & Hl & _ & Ht) <-. unfold loadBytes. unfold zlen in *.
  rewrite (proj2 (Z.leb_le 0 p)), (proj2 (Z.leb_le _ (Z.of_nat (length (Buffer m))))) by lia.
  cbn [andb]. by rewrite Nat2Z.id, Ht.
Qed.

Lemma sees_ntohs m p z : sees m p (htons z) → is_u16 z → ntohsAt p m = Some (z, m).
Proof.
  intros Hs Hz. unfold ntohsAt, mbind, M_bind. rewrite (sees_load m p _ 2 Hs) by done. by rewrite be_value_htons.
Qed.

Lemma sees_ntohl m p z : sees m p (htonl z) → is_u32 z → ntohlAt p m = Some (z, m).
Proof.
  intros Hs Hz. unfold ntohlAt, mbind, M_bind. rewrite (sees_load m p _ 4 Hs) by done. by rewrite be_value_htonl.
Qed.

Lemma sees_space m bs n : sees m (Position m) bs → 0 <= n <= zlen bs →
  getSpace n m = Some (Some (Position m), set_Position (Position m + n) m).
Proof.
  intros (Hp & He & _ & Hs & _) Hn. unfold getSpace. rewrite wrap_small by (unfold in_width; lia).
  by rewrite (proj2 (Z.leb_le _ (BufferSize m))) by lia.
Qed.

(** The state after a scan: the position and the error bookkeeping. *)
Definition goto m p (s : MessageStatus) : Msg := rm_set_Status s (set_Position p m).

Definition offending (tlvPosition : option Z) (length : Z) (s : MessageStatus) : MessageStatus :=
  ms_set_OffendingParameterTLVLength length (ms_set_OffendingParameterTLV tlvPosition s).

Definition cleared (s : MessageStatus) : MessageStatus := offending None 0 s.

(** A parameter that the 16 bits of its length can describe. *)
Definition tlv_ok (type : Z) (body : list Z) : Prop := is_u16 type ∧ 4 + zlen body < 65536.

Lemma tlv_length_u16 type body : tlv_ok type body → is_u16 (4 + zlen body).
Proof. intros [_ Hl]. pose proof (zlen_nonneg body). unfold in_width. lia. Qed.

(** The parts of a parameter. *)
Lemma sees_tlv m p type body : sees m p (tlv type body) →
  sees m p (htons type) ∧ sees m (p + 2) (htons (4 + zlen body)) ∧ sees m (p + 4) body.
Proof.
  unfold tlv. intros Hs. apply sees_app in Hs as [Ht Hs]. apply sees_app in Hs as [Hl Hs].
  apply sees_app in Hs as [Hb _]. rewrite zlen_htons in Hl, Hb. rewrite zlen_htons in Hb.
  split; [done|]. split; [done|]. replace (p + 4) with (p + 2 + 2) by lia. done.
Qed.

Lemma getNextTLV_run m type body t0 l0 : sees m (Position m) (tlv type body) → tlv_ok type body →
  getNextTLV t0 l0 m = Some (true, Position m, type, 4 + zlen body,
    goto m (Position m + 4) (offending (Some (Position m)) (4 + zlen body) (rm_Status m))).
Proof.
  intros Hs Hok. pose proof (zlen_nonneg body). pose proof (zlen_tlv type body). pose proof (padding_range (4 + zlen body)).
  destruct (sees_tlv _ _ _ _ Hs) as (Ht & Hl & _). pose proof Hs as (Hp & He & _ & Hsize & _).
  unfold getNextTLV, setOffending. run. run.
  set (m1 := on_Status (λ s, _) m). assert (Hs1 : sees m1 (Position m1) (tlv type body)) by done.
  run_by ltac:(eapply (sees_space m1 _ 4 Hs1); lia).
  set (m2 := set_Position (Position m1 + 4) m1).
  run_by ltac:(eapply (sees_ntohs m2 _ type); [exact Ht|apply Hok]).
  run_by ltac:(eapply (sees_ntohs m2 _ (4 + zlen body)); [exact Hl|by eapply tlv_length_u16]).
  run. change (BufferSize m2) with (BufferSize m). change (Position m2) with (Position m + 4).
  rewrite wrap_small by (unfold in_width; lia).
  rewrite (proj2 (Z.ltb_ge (BufferSize m) _)), (proj2 (Z.ltb_ge (4 + zlen body) 4)) by lia. run.
  rewrite (proj2 (Z.ltb_lt 0 (4 + zlen body))) by lia. reflexivity.
Qed.

Lemma checkBeginTLV_run m type body expected check : sees m (Position m) (tlv type body) → tlv_ok type body →
  check = false ∨ PURE_ATT_TYPE type = expected →
  checkBeginTLV expected check m = Some ((4 + zlen body, Position m),
    goto m (Position m + 4) (offending (Some (Position m)) (4 + zlen body) (rm_Status m))).
Proof.
  intros Hs Hok Hc. unfold checkBeginTLV, packetFuel. run. cbn [beginTLVLoop].
  run_by ltac:(apply (getNextTLV_run m type body 0 0 Hs Hok)). cbn [negb].
  replace (negb check || (PURE_ATT_TYPE type =? expected)) with true; [done|].
  destruct Hc as [->| ->]; [done|]. by rewrite Z.eqb_refl, orb_true_r.
Qed.

(** No parameter is left. *)
Lemma checkBeginTLV_end m expected check : Position m = BufferSize m → 0 <= Position m < 2 ^ 62 →
  checkBeginTLV expected check m = Some ((0, Position m),
    goto m (Position m) (ms_set_Error RSPERR_INVALID_MESSAGE (offending (Some (Position m)) 0 (rm_Status m)))).
Proof.
  intros Hend Hp. unfold checkBeginTLV, packetFuel. run. cbn [beginTLVLoop].
  run_by ltac:(unfold getNextTLV, setOffending).
  { run. run. set (m1 := on_Status (λ s, _) m). run_by ltac:(idtac).
    { unfold getSpace. change (Position m1) with (Position m). change (BufferSize m1) with (BufferSize m).
      rewrite wrap_small by (unfold in_width; lia). rewrite (proj2 (Z.leb_gt _ (BufferSize m))) by lia. reflexivity. }
    run. reflexivity. }
  cbn [negb]. unfold goto. by destruct m as [???????[]].
Qed.

(** The next parameter is another one, that ends the scan: the position is
    where it was. *)
Lemma checkBeginTLV_other m type body expected : sees m (Position m) (tlv type body) → tlv_ok type body →
  PURE_ATT_TYPE type ≠ expected → Z.land type ATT_ACTION_MASK = ATT_ACTION_STOP →
  checkBeginTLV expected true m = Some ((0, Position m),
    goto m (Position m) (ms_set_Error RSPERR_UNRECOGNIZED_PARAMETER_SILENT
      (offending (Some (Position m)) (4 + zlen body) (rm_Status m)))).
Proof.
  intros Hs Hok Hne Hstop. unfold checkBeginTLV, packetFuel. run. cbn [beginTLVLoop].
  run_by ltac:(apply (getNextTLV_run m type body 0 0 Hs Hok)). cbn [negb].
  rewrite (proj2 (Z.eqb_neq (PURE_ATT_TYPE type) expected)) by done. cbn [orb].
  set (m1 := goto m (Position m + 4) _).
  run_by ltac:(unfold handleUnknownTLV; rewrite Hstop; cbn [Z.eqb orb ATT_ACTION_STOP ATT_ACTION_CONTINUE ATT_ACTION_CONTINUE_AND_REPORT]).
  { run. run. reflexivity. }
  cbv beta iota. change (Position m1) with (Position m + 4). destruct Hs as (Hp & He & _ & Hsize & _).
  pose proof (zlen_nonneg (tlv type body)). rewrite Z.add_simpl_r, wrap_small by (unfold in_width; lia). reflexivity.
Qed.

Lemma checkFinishTLV_run m p type body : sees m p (tlv type body) → tlv_ok type body →
  p <= Position m <= p + zlen (tlv type body) →
  checkFinishTLV p m = Some (true, goto m (p + zlen (tlv type body)) (cleared (rm_Status m))).
Proof.
  intros Hs Hok Hpos. pose proof (zlen_tlv type body) as Hlen. destruct (sees_tlv _ _ _ _ Hs) as (_ & Hl & _).
  pose proof Hs as (Hp & He & _ & Hsize & _).
  unfold checkFinishTLV. run_by ltac:(eapply (sees_ntohs m _ (4 + zlen body)); [exact Hl|by eapply tlv_length_u16]).
  run. replace (p + (4 + zlen body) + getPadding (4 + zlen body) 4) with (p + zlen (tlv type body)) by lia.
  rewrite (proj2 (Z.ltb_ge _ (Position m))) by lia.
  destruct (Z.ltb_spec (Position m) (p + zlen (tlv type body))).
  - run_by ltac:(idtac).
    { unfold getSpace. rewrite wrap_small by (unfold in_width; lia).
      rewrite (proj2 (Z.leb_le _ (BufferSize m))) by lia. reflexivity. }
    run. unfold goto. by replace (Position m + (p + zlen (tlv type body) - Position m)) with (p + zlen (tlv type body)) by lia.
  - run. run. unfold goto. replace (p + zlen (tlv type body)) with (Position m) by lia. by destruct m as [???????[]].
Qed.

(** ** Parameters *)

Lemma scan_handle m h : sees m (Position m) (handleWire h) → handle_wf h →
  scanPoolHandleParameter m =
    Some (true, rm_set_Handle h (goto m (Position m + zlen (handleWire h)) (cleared (rm_Status m)))).
Proof.
  intros Hs Hwf. pose proof Hwf as (Hsz & Hl & _). unfold MAX_POOLHANDLESIZE in Hsz.
  unfold handleWire in *. rewrite take_ge in * by lia. set (b := ph_Handle h) in *.
  assert (Hz : zlen b = ph_Size h) by done.
  assert (Hok : tlv_ok ATT_POOL_HANDLE b) by (split; [done|lia]).
  destruct (sees_tlv _ _ _ _ Hs) as (_ & _ & Hb).
  unfold scanPoolHandleParameter. run_by ltac:(eapply (checkBeginTLV_run m _ b); [exact Hs|done|by right]).
  rewrite Hz. rewrite (proj2 (Z.ltb_ge (4 + ph_Size h) 4)) by lia.
  replace (4 + ph_Size h - 4) with (ph_Size h) by lia. rewrite (proj2 (Z.ltb_ge (ph_Size h) 1)) by lia.
  set (m1 := goto m _ _).
  run_by ltac:(eapply (sees_space m1 b); [exact Hb|lia]).
  unfold MAX_POOLHANDLESIZE. rewrite (proj2 (Z.ltb_ge 32 (ph_Size h))) by lia. run.
  set (m2 := set_Position _ m1).
  run_by ltac:(eapply (sees_load m2 _ b); [exact Hb|done]).
  run_by ltac:(unfold b, deref; rewrite poolHandleNew_self by done; reflexivity). run.
  set (m3 := rm_set_Handle h m2).
  rewrite (checkFinishTLV_run m3 (Position m) ATT_POOL_HANDLE b); [reflexivity|exact Hs|done|].
  pose proof (zlen_tlv ATT_POOL_HANDLE b). pose proof (padding_range (4 + zlen b)).
  change (Position m3) with (Position m + 4 + ph_Size h). lia.
Qed.

Lemma scan_identifier m i : sees m (Position m) (identifierWire i) → is_u32 i →
  scanPoolElementIdentifierParameter m =
    Some (true, rm_set_Identifier i (goto m (Position m + zlen (identifierWire i)) (cleared (rm_Status m)))).
Proof.
  intros Hs Hi. unfold identifierWire in *.
  assert (Hok : tlv_ok ATT_POOL_ELEMENT_IDENTIFIER (htonl i)) by (split; done).
  destruct (sees_tlv _ _ _ _ Hs) as (_ & _ & Hb).
  unfold scanPoolElementIdentifierParameter. run_by ltac:(eapply (checkBeginTLV_run m _ (htonl i)); [exact Hs|done|by right]).
  rewrite zlen_htonl. cbn -[tlv goto Z.add checkFinishTLV]. unfold withSpace. set (m1 := goto m _ _).
  run_by ltac:(eapply (sees_space m1 (htonl i)); [exact Hb|done]). set (m2 := set_Position _ m1).
  run_by ltac:(eapply (sees_ntohl m2); [exact Hb|done]). run.
  set (m3 := rm_set_Identifier i m2).
  rewrite (checkFinishTLV_run m3 (Position m) ATT_POOL_ELEMENT_IDENTIFIER (htonl i)); [reflexivity|exact Hs|done|].
  change (zlen (tlv ATT_POOL_ELEMENT_IDENTIFIER (htonl i))) with 8.
  change (Position m3) with (Position m + 4 + 4). lia.
Qed.

Lemma scan_checksum m z : sees m (Position m) (checksumWire z) → is_u16 z →
  scanHandlespaceChecksumParameter m =
    Some (true, rm_set_Checksum z (goto m (Position m + zlen (checksumWire z)) (cleared (rm_Status m)))).
Proof.
  intros Hs Hz. unfold checksumWire in *. assert (Hl : zlen (st16 z) = 2) by (unfold st16; by case_match).
  assert (Hok : tlv_ok ATT_POOL_ELEMENT_CHECKSUM (st16 z)) by (split; [done|lia]).
  destruct (sees_tlv _ _ _ _ Hs) as (_ & _ & Hb).
  unfold scanHandlespaceChecksumParameter. run_by ltac:(eapply (checkBeginTLV_run m _ (st16 z)); [exact Hs|done|by right]).
  rewrite Hl. cbn -[tlv goto Z.add checkFinishTLV st16]. unfold withSpace. set (m1 := goto m _ _).
  run_by ltac:(eapply (sees_space m1 (st16 z)); [exact Hb|lia]). set (m2 := set_Position _ m1).
  run_by ltac:(eapply (sees_load m2 _ (st16 z)); [exact Hb|done]). rewrite ld16_st16 by done. run.
  set (m3 := rm_set_Checksum z m2).
  rewrite (checkFinishTLV_run m3 (Position m) ATT_POOL_ELEMENT_CHECKSUM (st16 z)); [reflexivity|exact Hs|done|].
  rewrite zlen_tlv, Hl. change (getPadding (4 + 2) 4) with 2. change (Position m3) with (Position m + 4 + 2). lia.
Qed.

Lemma scan_resolution m items : sees m (Position m) (resolutionWire items) → is_u32 items →
  scanHandleResolutionParameter m =
    Some (true, rm_set_Addresses items (goto m (Position m + zlen (resolutionWire items)) (cleared (rm_Status m)))).
Proof.
  intros Hs Hi. unfold resolutionWire in *.
  assert (Hbytes : (if items =? RSPGETADDRS_MAX then [255; 255; 255; 255] else htonl items) = htonl items).
  { destruct (Z.eqb_spec items RSPGETADDRS_MAX) as [Heq|]; [by rewrite Heq|done]. }
  rewrite Hbytes in *. set (type := Z.lor ATT_HANDLE_RESOLUTION ATT_ACTION_CONTINUE) in *.
  assert (Hok : tlv_ok type (htonl items)) by (split; done).
  destruct (sees_tlv _ _ _ _ Hs) as (_ & _ & Hb).
  unfold scanHandleResolutionParameter. run_by ltac:(eapply (checkBeginTLV_run m type (htonl items)); [exact Hs|done|by right]).
  rewrite zlen_htonl. cbn -[tlv goto Z.add checkFinishTLV]. unfold withSpace. set (m1 := goto m _ _).
  run_by ltac:(eapply (sees_space m1 (htonl items)); [exact Hb|done]). set (m2 := set_Position _ m1).
  run_by ltac:(eapply (sees_ntohl m2); [exact Hb|done]).
  assert (Hmax : (if items =? 4294967295 then RSPGETADDRS_MAX else items) = items).
  { destruct (Z.eqb_spec items 4294967295) as [Heq|]; [by rewrite Heq|done]. }
  rewrite Hmax. run. set (m3 := rm_set_Addresses items m2).
  rewrite (checkFinishTLV_run m3 (Position m) type (htonl items)); [reflexivity|exact Hs|done|].
  change (zlen (tlv type (htonl items))) with 8. change (Position m3) with (Position m + 4 + 4). lia.
Qed.
End sees.
