(* ===== verification/MessageScanBlocks.v ===== *)
(** * The parser reads address blocks, policies and elements

    What the receiver of a parameter gets: addresses carry the port of
    their block, IPv4-mapped addresses arrive as IPv4 addresses, link-local
    addresses are dropped ([received_block]); of the policy settings, only
    the members of the policy's type are transmitted ([wirePolicy]). *)

From S2P Require Import Prelude Addresses PoolBasics Storage PoolElement PoolPolicy HandlespaceState HandlespaceMgt PeerList Message MessageCreator MessageParser MessageWire MessageWrites MessageCreate MessageScan.
From stdpp Require Import base list gmap numbers option.
#[local] Open Scope Z_scope.
#[local] Open Scope message_scope.

(** ** What is received *)

Definition receivedAddress (port : Z) (a : sockaddr_union) : sockaddr_union :=
  match a with
  | sockaddr_in x _ => sockaddr_in x port
  | sockaddr_in6 x _ => if IN6_IS_ADDR_V4MAPPED x then sockaddr_in (drop 12 x) port else sockaddr_in6 x port
  | sockaddr_other f => sockaddr_other f
  end.

(** Wider than link-local. *)
Definition usable (a : sockaddr_union) : Prop := AS_UNICAST_LINKLOCAL < default 0 (getScope a).

#[global] Instance usable_dec a : Decision (usable a).
Proof. unfold usable. apply _. Defined.

Definition receivedAddresses (t : TransportAddressBlock) : list sockaddr_union :=
  filter usable (receivedAddress (tab_Port t) <$> tab_AddressArray t).

Definition received_block (t : TransportAddressBlock) : TransportAddressBlock :=
  transportAddressBlockNew (tab_Protocol t) (tab_Port t)
    (if negb (tab_Protocol t =? IPPROTO_UDP) && flag_test (tab_Flags t) TABF_CONTROLCHANNEL then TABF_CONTROLCHANNEL else 0)
    (receivedAddresses t) MAX_PE_TRANSPORTADDRESSES.

(** A block that its receiver accepts. *)
Definition block_ok (t : TransportAddressBlock) : Prop :=
  block_wf (Some t) ∧ is_u16 (tab_Port t) ∧ Z.of_nat (length (tab_AddressArray t)) <= MAX_PE_TRANSPORTADDRESSES ∧
  receivedAddresses t ≠ [].

#[global] Instance block_ok_dec t : Decision (block_ok t).
Proof. unfold block_ok, block_wf. apply _. Defined.

Definition wirePolicy (pps : PoolPolicySettings) : PoolPolicySettings :=
  foldl (λ acc f, setPolicyField f (policyField pps f) acc) (MkPPS (pps_PolicyType pps) 0 0 0 0 0 0)
    (default [] (createdPolicyFields (pps_PolicyType pps))).

(** The node that the receiver of an element creates. *)
Definition received_element (pe : PoolElementNode) (withRegistrator : bool) : PoolElementNode :=
  poolElementNodeNew (pen_Identifier pe) (pen_HomeRegistrarIdentifier pe) (pen_RegistrationLife pe)
    (wirePolicy (pen_PolicySettings pe)) (received_block (pen_UserTransport pe))
    (if withRegistrator then received_block <$> pen_RegistratorTransport pe else None) (-1) 0.

Section blocks.
Context {ST : Type} `{Storage ST} `{Endian}.
Abbreviation Msg := (RSerPoolMessage ST).
Implicit Types (m : Msg) (p : Z) (bs : list Z).

Lemma scan_address m a w port : sees m (Position m) w → addressWire a = Some w → address_wf a →
  scanAddressParameter port m =
    Some (Some (receivedAddress port a), goto m (Position m + zlen w) (cleared (rm_Status m))).
Proof.
  intros Hs Hw Hwf.
  assert (Hgen : ∀ type n x (f : list Z → Z → sockaddr_union),
    w = tlv type x → zlen x = n → tlv_ok type x →
    (type = ATT_IPv4_ADDRESS ∧ n = 4 ∧ f = sockaddr_in ∨ type = ATT_IPv6_ADDRESS ∧ n = 16 ∧ f = sockaddr_in6) →
    scanAddressParameter port m = Some (Some (f x port), goto m (Position m + zlen w) (cleared (rm_Status m)))).
  { intros type n x f -> Hn Hok Hcase. destruct (sees_tlv _ _ _ _ Hs) as (Ht & _ & Hb).
    unfold scanAddressParameter. run_by ltac:(eapply (checkBeginTLV_run m type x); [exact Hs|done|by left]).
    set (m1 := goto m _ _).
    assert (Hpos : 0 < n) by (destruct Hcase as [(_ & -> & _)|(_ & -> & _)]; lia).
    destruct (Z.eqb_spec (4 + zlen x) 0); [lia|].
    run_by ltac:(eapply (sees_ntohs m1 _ type); [exact Ht|apply Hok]).
    replace (u64 (4 + zlen x - 4)) with n; [|rewrite wrap_small; unfold in_width; destruct Hok; lia].
    set (m2 := set_Position (Position m1 + n) m1).
    assert (Hbytes : scanAddressBytes port n n f m1 = Some (Some (f x port), m2)).
    { unfold scanAddressBytes. rewrite Z.leb_refl. run_by ltac:(eapply (sees_space m1 x); [exact Hb|lia]).
      run_by ltac:(eapply (sees_load m2 _ x n); [exact Hb|done]). done. }
    assert (Hfin : finishWith (Position m) (f x port) m2 =
      Some (Some (f x port), goto m (Position m + zlen (tlv type x)) (cleared (rm_Status m)))).
    { unfold finishWith. run_by ltac:(eapply (checkFinishTLV_run m2 (Position m) type x); [exact Hs|done|]).
      - pose proof (zlen_tlv type x). pose proof (padding_range (4 + zlen x)).
        change (Position m2) with (Position m + 4 + n). lia.
      - reflexivity. }
    destruct Hcase as [(-> & -> & ->)|(-> & -> & ->)]; cbn [Z.eqb PURE_ATT_TYPE].
    - run_by ltac:(exact Hbytes). exact Hfin.
    - run_by ltac:(exact Hbytes). exact Hfin. }
  destruct a as [x q|x q|f]; [..|done]; destruct Hwf as (Hl & _); apply (inj Some) in Hw; symmetry in Hw.
  - apply (Hgen ATT_IPv4_ADDRESS 4); [done|unfold zlen; lia|split; [done|unfold zlen; lia]|by left].
  - unfold receivedAddress. destruct (IN6_IS_ADDR_V4MAPPED x).
    + assert (Hd : zlen (drop 12 x) = 4) by (unfold zlen; rewrite length_drop; lia).
      apply (Hgen ATT_IPv4_ADDRESS 4); [done..|split; [done|lia]|by left].
    + apply (Hgen ATT_IPv6_ADDRESS 16); [done|unfold zlen; lia|split; [done|unfold zlen; lia]|by right].
Qed.

Lemma receivedAddress_scope port a : address_wf a → is_Some (getScope (receivedAddress port a)).
Proof. destruct a as [x q|x q|f]; simpl; [by eexists|case_match; by eexists|done]. Qed.

Lemma addressWire_size a w : addressWire a = Some w → address_wf a → 8 <= zlen w <= 20.
Proof.
  destruct a as [x q|x q|f]; [..|done]; intros Hw (Hl & _); apply (inj Some) in Hw as <-.
  - rewrite zlen_tlv. unfold zlen. rewrite Hl. done.
  - destruct (IN6_IS_ADDR_V4MAPPED x); rewrite zlen_tlv; unfold zlen; [rewrite length_drop|]; by rewrite Hl.
Qed.

Lemma addressesWire_size l ws : mapM addressWire l = Some ws → Forall address_wf l →
  8 * Z.of_nat (length l) <= zlen (concat ws) <= 20 * Z.of_nat (length l).
Proof.
  intros Hws Hwf. revert ws Hws. induction Hwf as [|a l Ha Hwf IH]; intros ws Hws.
  - injection Hws as <-. done.
  - apply mapM_cons_Some in Hws as (w & ws' & Hw & Hws & ->). cbn [concat]. rewrite zlen_app.
    pose proof (addressWire_size _ _ Hw Ha). specialize (IH _ Hws). simpl length. lia.
Qed.

(** The loop over the addresses. *)
Lemma scan_addresses type port l : Forall address_wf l → ∀ fuel m ws acc,
  mapM addressWire l = Some ws → sees m (Position m) (concat ws) → (length l <= fuel)%nat →
  Z.of_nat (length acc + length l) <= MAX_PE_TRANSPORTADDRESSES →
  (type = ATT_SCTP_TRANSPORT ∨ (length acc + length l <= 1)%nat) →
  ∃ s, scanAddresses fuel type port (Position m + zlen (concat ws)) acc m =
    Some (Some (acc ++ filter usable (receivedAddress port <$> l)), goto m (Position m + zlen (concat ws)) s) ∧
    cleared s = cleared (rm_Status m).
Proof.
  unfold MAX_PE_TRANSPORTADDRESSES. induction 1 as [|a l Ha Hwf IH]; intros fuel m ws acc Hws Hs Hfuel Hmax Hmulti.
  - injection Hws as <-. exists (rm_Status m). split; [|done]. cbn [concat]. rewrite zlen_nil, Z.add_0_r, app_nil_r.
    destruct fuel; cbn [scanAddresses]; run; rewrite Z.ltb_irrefl; unfold goto; by destruct m as [???????[]].
  - apply mapM_cons_Some in Hws as (w & ws' & Hw & Hws & ->). cbn [concat] in *.
    apply sees_app in Hs as [Hs1 Hs2]. destruct fuel as [|fuel]; [simpl in Hfuel; lia|].
    pose proof (addressWire_size _ _ Hw Ha). pose proof (zlen_nonneg (concat ws')). rewrite zlen_app.
    cbn [length] in *.
    set (m1 := goto m (Position m + zlen w) (cleared (rm_Status m))).
    set (acc' := if decide (usable (receivedAddress port a)) then acc ++ [receivedAddress port a] else acc).
    assert (Hacc : (length acc' <= length acc + 1)%nat).
    { unfold acc'. case_decide; [rewrite length_app; simpl|]; lia. }
    destruct (IH fuel m1 ws' acc') as (s & Hrun & Hcl); [done|exact Hs2|lia|lia|destruct Hmulti; [by left|right; lia]|].
    exists s. split; [|done]. cbn [scanAddresses]. run. unfold MAX_PE_TRANSPORTADDRESSES.
    rewrite (proj2 (Z.ltb_lt (Position m) _)) by lia.
    rewrite (proj2 (Z.leb_gt 64 (Z.of_nat (length acc)))) by lia.
    assert (Hm : negb (type =? ATT_SCTP_TRANSPORT) && (1 <? Z.of_nat (length acc)) = false).
    { destruct Hmulti as [->|]; [done|]. rewrite (proj2 (Z.ltb_ge 1 _)) by lia. apply andb_false_r. }
    rewrite Hm. run_by ltac:(exact (scan_address m a w port Hs1 Hw Ha)).
    destruct (receivedAddress_scope port a Ha) as [scope Hscope].
    run_by ltac:(unfold deref; rewrite Hscope; reflexivity).
    assert (Hacc' : (if AS_UNICAST_LINKLOCAL <? scope then acc ++ [receivedAddress port a] else acc) = acc').
    { assert (Hus : usable (receivedAddress port a) ↔ AS_UNICAST_LINKLOCAL < scope) by (unfold usable; by rewrite Hscope).
      unfold acc'. destruct (Z.ltb_spec AS_UNICAST_LINKLOCAL scope);
        [by rewrite decide_True by (by apply Hus)|rewrite decide_False; [done|]]. rewrite Hus. lia. }
    rewrite Hacc'. change (Position m1) with (Position m + zlen w) in Hrun.
    replace (Position m + (zlen w + zlen (concat ws'))) with (Position m + zlen w + zlen (concat ws')) by lia.
    fold m1. rewrite Hrun. unfold acc'. cbn [fmap list_fmap]. rewrite filter_cons. f_equal. f_equal. f_equal.
    case_decide; [by rewrite <- app_assoc|done].
Qed.

(** The type of the transport parameter, read back. *)
Lemma scan_transport_header m type protocol port use tlvLength :
  transportType protocol = Some type → sees m (Position m) (htons port ++ htons use) → is_u16 port → is_u16 use →
  scanTransportHeader type tlvLength m =
    Some (Some (port, protocol, negb (protocol =? IPPROTO_UDP) && (use =? UTP_DATA_PLUS_CONTROL)),
          set_Position (Position m + 4) m).
Proof.
  intros Htype Hs Hport Huse. destruct (sees_app _ _ _ _ Hs) as [Hp Hu].
  set (m1 := set_Position (Position m + 4) m).
  assert (Hfixed : ∀ proto,
    (space ← getSpace 4;
     match space with
     | None => failWith RSPERR_INVALID_TLV
     | Some offset =>
        port ← ntohsAt offset; use ← ntohsAt (offset + 2);
        mret (Some (port, proto, negb (proto =? IPPROTO_UDP) && (use =? UTP_DATA_PLUS_CONTROL)))
     end) m = Some (Some (port, proto, negb (proto =? IPPROTO_UDP) && (use =? UTP_DATA_PLUS_CONTROL)), m1)).
  { intros proto. run_by ltac:(eapply (sees_space m _ 4 Hs); done).
    run_by ltac:(eapply (sees_ntohs m1); [exact Hp|done]).
    run_by ltac:(eapply (sees_ntohs m1); [exact Hu|done]). reflexivity. }
  unfold transportType in Htype. unfold scanTransportHeader.
  destruct (Z.eqb_spec protocol IPPROTO_SCTP) as [->|]; [injection Htype as <-; apply Hfixed|].
  destruct (Z.eqb_spec protocol IPPROTO_TCP) as [->|]; [injection Htype as <-; apply Hfixed|].
  destruct (Z.eqb_spec protocol IPPROTO_UDP) as [->|]; [injection Htype as <-; apply Hfixed|done].
Qed.

Lemma scan_transport m t w : sees m (Position m) w → transportWire t = Some w → block_ok t →
  scanTransportParameter m =
    Some ((true, Some (received_block t)), goto m (Position m + zlen w) (cleared (rm_Status m))).
Proof.
  intros Hs Hw (Hwf & Hport & Hmax & Hne). unfold block_wf in Hwf. simpl in Hwf. unfold MAX_PE_TRANSPORTADDRESSES in Hmax.
  unfold transportWire in Hw. apply bind_Some in Hw as (type & Htype & Hw). apply bind_Some in Hw as (ws & Hws & Hw).
  destruct (negb (type =? ATT_SCTP_TRANSPORT) && (1 <? Z.of_nat (length (tab_AddressArray t)))) eqn:Hmulti; [done|].
  apply (inj Some) in Hw. set (use := if type =? ATT_UDP_TRANSPORT then 0 else transportUse t) in *.
  set (body := htons (tab_Port t) ++ htons use ++ concat ws) in *. subst w.
  pose proof (addressesWire_size _ _ Hws Hwf) as Hsize.
  assert (Hlen : zlen body = 4 + zlen (concat ws)) by (unfold body; autorewrite with zlen; lia).
  assert (Hok : tlv_ok type body).
  { split; [|lia]. unfold transportType in Htype. repeat case_match; by simplify_eq. }
  destruct (sees_tlv _ _ _ _ Hs) as (Ht & _ & Hb). pose proof Hs as (_ & He & _).
  unfold scanTransportParameter. run_by ltac:(eapply (checkBeginTLV_run m type body); [exact Hs|done|by left]).
  set (m1 := goto m _ _). rewrite (proj2 (Z.ltb_ge (4 + zlen body) 4)) by lia. run.
  run_by ltac:(eapply (sees_ntohs m1 _ type); [exact Ht|apply Hok]).
  unfold body in Hb. rewrite (app_assoc (htons (tab_Port t))) in Hb. apply sees_app in Hb as [Hfix Haddr].
  assert (Huse : is_u16 use) by (unfold use, transportUse; repeat case_match; done).
  run_by ltac:(eapply (scan_transport_header m1 type (tab_Protocol t) (tab_Port t) use); [done|exact Hfix|done..]).
  set (m2 := set_Position _ m1). run.
  replace (Position m1 + (4 + zlen body - 4)) with (Position m2 + zlen (concat ws))
    by (change (Position m2) with (Position m1 + 4); lia).
  destruct (scan_addresses type (tab_Port t) _ Hwf (S (Z.to_nat (BufferSize m2))) m2 ws [] Hws) as (s & Hrun & Hcl).
  - exact Haddr.
  - change (BufferSize m2) with (BufferSize m). rewrite zlen_tlv in He. pose proof (padding_range (4 + zlen body)).
    destruct Hs as (? & _). lia.
  - unfold MAX_PE_TRANSPORTADDRESSES. simpl length. lia.
  - apply andb_false_iff in Hmulti as [Hm|Hm].
    + left. apply negb_false_iff in Hm. by apply Z.eqb_eq.
    + right. apply Z.ltb_ge in Hm. simpl. lia.
  - run_by ltac:(exact Hrun). rewrite app_nil_l. fold (receivedAddresses t).
    destruct (receivedAddresses t) as [|a l] eqn:Hl; [done|]. set (m3 := goto m2 _ s).
    run_by ltac:(eapply (checkFinishTLV_run m3 (Position m) type body); [exact Hs|done|]).
    { rewrite zlen_tlv. pose proof (padding_range (4 + zlen body)).
      change (Position m3) with (Position m + 4 + 4 + zlen (concat ws)). lia. }
    unfold received_block. rewrite Hl. change (rm_Status m3) with s. rewrite Hcl.
    replace (negb (tab_Protocol t =? IPPROTO_UDP) && (use =? UTP_DATA_PLUS_CONTROL))
      with (negb (tab_Protocol t =? IPPROTO_UDP) && flag_test (tab_Flags t) TABF_CONTROLCHANNEL); [reflexivity|].
    unfold use, transportUse. unfold transportType in Htype.
    destruct (Z.eqb_spec (tab_Protocol t) IPPROTO_SCTP) as [->|]; [injection Htype as <-; cbn; by destruct (flag_test _ _)|].
    destruct (Z.eqb_spec (tab_Protocol t) IPPROTO_TCP) as [->|]; [injection Htype as <-; cbn; by destruct (flag_test _ _)|].
    destruct (Z.eqb_spec (tab_Protocol t) IPPROTO_UDP) as [_|]; done.
Qed.

(** ** Policies *)

Lemma scannedPolicy_created policyType fields : createdPolicyFields policyType = Some fields →
  ∃ layout, scannedPolicy policyType = Some layout ∧ lay_Fields layout = fields.
Proof.
  unfold createdPolicyFields. intros Hf.
  repeat match type of Hf with
  | (if ?x =? ?y then _ else _) = _ =>
      destruct (Z.eqb_spec x y) as [->|]; [injection Hf as <-; by eexists|]
  end. done.
Qed.

Lemma assignPolicyFields_run pps fields acc : pps_wf pps →
  assignPolicyFields fields (fields ≫= λ f, htonl (policyField pps f)) acc =
  foldl (λ acc f, setPolicyField f (policyField pps f) acc) acc fields.
Proof.
  intros (Ht & Hw & Hl & Hd & Hld & Hwd & Hdi). revert acc. induction fields as [|f fields IH]; intros acc; [done|].
  cbn [assignPolicyFields foldl mbind list_bind].
  change (list_bind _ _ (λ f, htonl (policyField pps f)) fields) with (fields ≫= λ f, htonl (policyField pps f)).
  rewrite drop_app_length' by done. rewrite take_app_length' by done.
  rewrite be_value_htonl by (destruct f; done). apply IH.
Qed.

Lemma scan_policy m pps w : sees m (Position m) w → policyWire pps = Some w → pps_wf pps →
  scanPolicyParameter m = Some (Some (wirePolicy pps), goto m (Position m + zlen w) (cleared (rm_Status m))).
Proof.
  intros Hs Hw Hwf. unfold policyWire in Hw. apply fmap_Some in Hw as (fields & Hfields & ->).
  destruct (scannedPolicy_created _ _ Hfields) as (layout & Hlay & Hlf). pose proof (policy_few _ _ Hfields).
  set (body := policyBytes pps fields) in *. assert (Hlen : zlen body = 4 + 4 * Z.of_nat (length fields)) by apply zlen_policyBytes.
  assert (Hok : tlv_ok ATT_POOL_POLICY body) by (split; [done|lia]).
  destruct (sees_tlv _ _ _ _ Hs) as (_ & _ & Hb). unfold scanPolicyParameter.
  run_by ltac:(eapply (checkBeginTLV_run m _ body); [exact Hs|done|by right]). set (m1 := goto m _ _).
  rewrite (proj2 (Z.ltb_ge (4 + zlen body) 4)), (proj2 (Z.ltb_ge (4 + zlen body - 4) 4)) by lia. run.
  pose proof Hb as Hb'. unfold body, policyBytes in Hb'. apply sees_app in Hb' as [Htype _].
  run_by ltac:(eapply (sees_ntohl m1); [exact Htype|apply Hwf]). rewrite Hlay, Hlf.
  rewrite (proj2 (Z.leb_le _ (4 + zlen body - 4))) by lia.
  run_by ltac:(eapply (sees_space m1 body); [exact Hb|lia]). set (m2 := set_Position _ m1).
  run_by ltac:(eapply (sees_load m2 _ body); [exact Hb|done]).
  unfold finishWith. run_by ltac:(eapply (checkFinishTLV_run m2 (Position m) ATT_POOL_POLICY body); [exact Hs|done|]).
  { rewrite zlen_tlv. pose proof (padding_range (4 + zlen body)).
    change (Position m2) with (Position m + 4 + (4 + 4 * Z.of_nat (length fields))). lia. }
  unfold body, policyBytes, wirePolicy. rewrite drop_app_length', take_app_length' by done.
  rewrite be_value_htonl by apply Hwf. rewrite assignPolicyFields_run by done. by rewrite Hfields.
Qed.

(** ** Elements and registrars *)

Lemma transportWire_size t w : transportWire t = Some w → block_ok t → zlen w <= 1292.
Proof.
  intros Hw (Hwf & _ & Hmax & _). unfold block_wf in Hwf. simpl in Hwf. unfold MAX_PE_TRANSPORTADDRESSES in Hmax.
  unfold transportWire in Hw. apply bind_Some in Hw as (type & _ & Hw). apply bind_Some in Hw as (ws & Hws & Hw).
  destruct (negb _ && _); [done|]. apply (inj Some) in Hw as <-. rewrite zlen_tlv. autorewrite with zlen.
  pose proof (addressesWire_size _ _ Hws Hwf). pose proof (padding_range (4 + (2 + (2 + zlen (concat ws))))). lia.
Qed.

Lemma policyWire_size pps w : policyWire pps = Some w → zlen w <= 27.
Proof.
  unfold policyWire. intros Hw. apply fmap_Some in Hw as (fields & Hf & ->). rewrite zlen_tlv, zlen_policyBytes.
  apply policy_few in Hf. pose proof (padding_range (4 + (4 + 4 * Z.of_nat (length fields)))). lia.
Qed.

Lemma elementWire_size pe reg w : elementWire pe reg = Some w → 4 <= zlen w.
Proof.
  intros Hw. unfold elementWire in Hw. split_part Hw. rewrite zlen_tlv.
  match goal with |- context [4 + zlen ?b] => pose proof (zlen_nonneg b); pose proof (padding_range (4 + zlen b)) end. lia.
Qed.

(** An element that its receiver accepts. *)
Definition element_ok (pe : PoolElementNode) (withRegistrator : bool) : Prop :=
  is_u32 (pen_Identifier pe) ∧ is_u32 (pen_HomeRegistrarIdentifier pe) ∧ is_u32 (pen_RegistrationLife pe) ∧
  pps_wf (pen_PolicySettings pe) ∧ block_ok (pen_UserTransport pe) ∧
  if withRegistrator then pen_HomeRegistrarIdentifier pe ≠ UNDEFINED_REGISTRAR_IDENTIFIER ∧
    match pen_RegistratorTransport pe with Some t => block_ok t | None => False end
  else True.

#[global] Instance element_ok_dec pe reg : Decision (element_ok pe reg).
Proof. unfold element_ok. destruct reg; [|apply _]. destruct (pen_RegistratorTransport pe); apply _. Defined.

Lemma newPoolElement_run m identifier home life pps user registrator : rm_Memory m = [] →
  newPoolElement identifier home life pps user registrator m =
    Some (Some (poolElementNodeNew identifier home life pps user registrator (-1) 0), m).
Proof.
  intros Hm. unfold newPoolElement. assert (Hmal : malloc m = Some (true, m)) by (unfold malloc; by rewrite Hm).
  run_by ltac:(exact Hmal). cbn [negb]. run_by ltac:(exact Hmal). cbn [transportAddressBlockDuplicate].
  destruct registrator as [t|].
  - run_by ltac:(run_by ltac:(exact Hmal); reflexivity). reflexivity.
  - run. reflexivity.
Qed.

Lemma scan_element m pe reg w : sees m (Position m) w → elementWire pe reg = Some w → element_ok pe reg →
  rm_Memory m = [] →
  scanPoolElementParameter reg reg m =
    Some (Some (received_element pe reg), goto m (Position m + zlen w) (cleared (rm_Status m))).
Proof.
  intros Hs Hw (Hid & Hhome & Hlife & Hpps & Huser & Hreg) Hmem. unfold elementWire in Hw.
  apply bind_Some in Hw as (wu & Hwu & Hw). apply bind_Some in Hw as (wp & Hwp & Hw).
  apply bind_Some in Hw as (wr & Hwr & Hw). apply (inj Some) in Hw. subst w.
  set (fixed := htonl (pen_Identifier pe) ++ htonl (pen_HomeRegistrarIdentifier pe) ++ htonl (pen_RegistrationLife pe)) in *.
  set (body := fixed ++ wu ++ wp ++ wr) in *.
  assert (Hrlen : zlen wr <= 1292).
  { destruct reg; [|by injection Hwr as <-]. apply bind_Some in Hwr as (t & Ht & Hwt). rewrite Ht in Hreg.
    eapply transportWire_size; [done|apply Hreg]. }
  pose proof (transportWire_size _ _ Hwu Huser). pose proof (policyWire_size _ _ Hwp).
  assert (Hlen : zlen body = 12 + zlen wu + zlen wp + zlen wr) by (unfold body, fixed; autorewrite with zlen; lia).
  assert (Hok : tlv_ok ATT_POOL_ELEMENT body) by (split; [done|lia]).
  destruct (sees_tlv _ _ _ _ Hs) as (_ & _ & Hb). unfold body in Hb. apply sees_app in Hb as [Hfix Hb].
  apply sees_app in Hb as [Hsu Hb]. apply sees_app in Hb as [Hsp Hsr].
  pose proof Hfix as Hf. unfold fixed in Hf. apply sees_app in Hf as [Hf1 Hf]. apply sees_app in Hf as [Hf2 Hf3].
  change (zlen fixed) with 12 in *. rewrite zlen_htonl in *.
  pose proof (zlen_nonneg wu). pose proof (zlen_nonneg wp). pose proof (zlen_nonneg wr).
  unfold scanPoolElementParameter. run_by ltac:(eapply (checkBeginTLV_run m _ body); [exact Hs|done|by right]).
  set (m1 := goto m _ _). rewrite (proj2 (Z.ltb_ge (4 + zlen body) 4)) by lia.
  run_by ltac:(eapply (sees_space m1 fixed 12); [exact Hfix|done]). set (m2 := set_Position _ m1).
  run_by ltac:(eapply (sees_ntohl m2); [exact Hf1|done]).
  run_by ltac:(eapply (sees_ntohl m2); [exact Hf2|done]).
  change (Position m1 + 8) with (Position m + 4 + 8). replace (Position m + 4 + 8) with (Position m + 4 + 4 + 4) by lia.
  run_by ltac:(eapply (sees_ntohl m2); [exact Hf3|done]).
  assert (Hguard : reg && (pen_HomeRegistrarIdentifier pe =? UNDEFINED_REGISTRAR_IDENTIFIER) = false).
  { destruct reg; [|done]. destruct Hreg as [Hne _]. by apply Z.eqb_neq. }
  rewrite Hguard.
  run_by ltac:(eapply (scan_transport m2 _ wu); [exact Hsu|done|done]). set (m3 := goto m2 _ _).
  run_by ltac:(eapply (scan_policy m3 _ wp); [exact Hsp|done|done]). set (m4 := goto m3 _ _).
  set (m5 := goto m (Position m + 4 + 12 + zlen wu + zlen wp + zlen wr) (cleared (rm_Status m))).
  run_by ltac:(instantiate (1 := m5); instantiate (1 := if reg then received_block <$> pen_RegistratorTransport pe else None)).
  { destruct reg.
    - apply bind_Some in Hwr as (t & Ht & Hwt). rewrite Ht in Hreg.
      run_by ltac:(eapply (scan_transport m4 t wr); [exact Hsr|done|apply Hreg]). rewrite Ht. reflexivity.
    - injection Hwr as <-. unfold m5. rewrite zlen_nil, Z.add_0_r. reflexivity. }
  run_by ltac:(eapply (checkFinishTLV_run m5 (Position m) ATT_POOL_ELEMENT body); [exact Hs|done|]).
  { rewrite zlen_tlv. pose proof (padding_range (4 + zlen body)).
    change (Position m5) with (Position m + 4 + 12 + zlen wu + zlen wp + zlen wr). lia. }
  by rewrite newPoolElement_run.
Qed.

(** The peer that a server information parameter describes. *)
Definition received_peer (n : PeerListNode) : PeerListNode :=
  peerListNodeNew (pln_Identifier n) 0 (received_block <$> pln_AddressBlock n).

Definition peer_ok (n : PeerListNode) : Prop :=
  is_u32 (pln_Identifier n) ∧ match pln_AddressBlock n with Some t => block_ok t | None => False end.

#[global] Instance peer_ok_dec n : Decision (peer_ok n).
Proof. unfold peer_ok. destruct (pln_AddressBlock n); apply _. Defined.

Lemma scan_serverInfo m n w : sees m (Position m) w → serverInfoWire n = Some w → peer_ok n → rm_Memory m = [] →
  scanServerInformationParameter m =
    Some (Some (received_peer n), goto m (Position m + zlen w) (cleared (rm_Status m))).
Proof.
  intros Hs Hw [Hid Hblock] Hmem. unfold serverInfoWire in Hw. apply bind_Some in Hw as (t & Ht & Hw).
  apply bind_Some in Hw as (wt & Hwt & Hw). apply (inj Some) in Hw. subst w. rewrite Ht in Hblock.
  pose proof (transportWire_size _ _ Hwt Hblock). pose proof (zlen_nonneg wt). set (body := htonl (pln_Identifier n) ++ wt) in *.
  assert (Hlen : zlen body = 4 + zlen wt) by (unfold body; autorewrite with zlen; lia).
  assert (Hok : tlv_ok ATT_SERVER_INFORMATION body) by (split; [done|lia]).
  destruct (sees_tlv _ _ _ _ Hs) as (_ & _ & Hb). pose proof Hb as Hb'. unfold body in Hb'. apply sees_app in Hb' as [Hf Hst].
  rewrite zlen_htonl in Hst. unfold scanServerInformationParameter.
  run_by ltac:(eapply (checkBeginTLV_run m _ body); [exact Hs|done|by right]). set (m1 := goto m _ _).
  rewrite (proj2 (Z.ltb_ge (4 + zlen body) 4)), (proj2 (Z.ltb_ge (4 + zlen body - 4) 1)) by lia.
  run_by ltac:(eapply (sees_space m1 body); [exact Hb|lia]). set (m2 := set_Position _ m1).
  run_by ltac:(eapply (scan_transport m2 t wt); [exact Hst|done|done]). set (m3 := goto m2 _ _).
  assert (Hmal : malloc m3 = Some (true, m3)) by (unfold malloc; change (rm_Memory m3) with (rm_Memory m); by rewrite Hmem).
  run_by ltac:(exact Hmal). cbn [negb]. run_by ltac:(exact Hmal). cbn [transportAddressBlockDuplicate].
  run_by ltac:(eapply (sees_ntohl m3); [exact Hf|done]). unfold finishWith.
  run_by ltac:(eapply (checkFinishTLV_run m3 (Position m) ATT_SERVER_INFORMATION body); [exact Hs|done|]).
  { rewrite zlen_tlv. pose proof (padding_range (4 + zlen body)).
    change (Position m3) with (Position m + 4 + 4 + zlen wt). lia. }
  unfold received_peer. by rewrite Ht.
Qed.

(** ** Errors and cookies *)

(** The cause is read back; the data pointer is that of the cause itself,
    not of the data behind it. *)
Lemma scan_error m cause data : sees m (Position m) (errorWire cause data) → is_u16 cause → 8 + zlen data < 65536 →
  scanErrorParameter m =
    Some (true, goto m (Position m + zlen (errorWire cause data))
      (ms_set_OperationErrorLength (zlen data) (ms_set_OperationErrorData (Some (Position m + 4))
        (ms_set_OperationErrorCode cause (cleared (rm_Status m)))))).
Proof.
  intros Hs Hc Hd. unfold errorWire in *. set (body := htons cause ++ htons (4 + zlen data) ++ data) in *.
  pose proof (zlen_nonneg data).
  assert (Hlen : zlen body = 4 + zlen data) by (unfold body; autorewrite with zlen; lia).
  assert (Hok : tlv_ok ATT_OPERATION_ERROR body) by (split; [done|lia]).
  destruct (sees_tlv _ _ _ _ Hs) as (_ & _ & Hb). pose proof Hb as Hb'. unfold body in Hb'.
  apply sees_app in Hb' as [Hf1 Hb']. apply sees_app in Hb' as [Hf2 _]. rewrite zlen_htons in Hf2.
  unfold scanErrorParameter. run_by ltac:(eapply (checkBeginTLV_run m _ body); [exact Hs|done|by right]).
  set (m1 := goto m _ _).
  rewrite (proj2 (Z.ltb_ge (4 + zlen body) 4)), (proj2 (Z.ltb_ge (4 + zlen body - 4) 4)) by lia. run.
  run_by ltac:(eapply (sees_ntohs m1); [exact Hf1|done]).
  run_by ltac:(eapply (sees_ntohs m1); [exact Hf2|unfold in_width; lia]). run.
  rewrite (proj2 (Z.ltb_ge (4 + zlen data) 4)) by lia. set (m2 := on_Status _ m1). unfold withSpace.
  run_by ltac:(eapply (sees_space m2 body); [exact Hb|lia]). run.
  replace (4 + zlen data - 4) with (zlen data) by lia. set (m3 := on_Status _ _).
  rewrite (checkFinishTLV_run m3 (Position m) ATT_OPERATION_ERROR body); [reflexivity|exact Hs|done|].
  rewrite zlen_tlv. pose proof (padding_range (4 + zlen body)).
  change (Position m3) with (Position m + 4 + zlen data). lia.
Qed.

(** The position is left before the padding. *)
Lemma scan_cookie m cookie : sees m (Position m) (cookieWire cookie) → 0 < zlen cookie → 4 + zlen cookie < 65536 →
  rm_Memory m = [] →
  scanCookieParameter m =
    Some (true, rm_set_CookieSize (zlen cookie) (rm_set_CookiePtr (Some cookie)
      (goto m (Position m + 4 + zlen cookie) (offending (Some (Position m)) (4 + zlen cookie) (rm_Status m))))).
Proof.
  intros Hs Hpos Hlt Hmem. unfold cookieWire in *. assert (Hok : tlv_ok ATT_COOKIE cookie) by (split; done).
  destruct (sees_tlv _ _ _ _ Hs) as (_ & _ & Hb). unfold scanCookieParameter.
  run_by ltac:(eapply (checkBeginTLV_run m _ cookie); [exact Hs|done|by right]). set (m1 := goto m _ _).
  rewrite (proj2 (Z.ltb_ge (4 + zlen cookie) 4)), (proj2 (Z.ltb_ge (4 + zlen cookie - 4) 1)) by lia.
  replace (4 + zlen cookie - 4) with (zlen cookie) by lia. unfold withSpace.
  run_by ltac:(eapply (sees_space m1 cookie); [exact Hb|lia]). set (m2 := set_Position _ m1).
  run_by ltac:(unfold malloc; change (rm_Memory m2) with (rm_Memory m); rewrite Hmem; reflexivity).
  run_by ltac:(eapply (sees_load m2 _ cookie); [exact Hb|done]). reflexivity.
Qed.
End blocks.
