(* ===== verification/MessageTransmit.v ===== *)
(** * From message to packet to message

    [transmit] composes the two conversions: what the receiver of a message
    gets.  [transmit_run] reduces it to the scanner of the message type, on
    a packet whose bytes [bodyWire] gives. *)

From S2P Require Import Prelude Addresses PoolBasics Storage PoolElement PoolPolicy HandlespaceState HandlespaceMgt PeerList Message MessageCreator MessageParser MessageWire MessageWrites MessageCreate MessageScan MessageScanBlocks.
From stdpp Require Import base list gmap numbers option.
#[local] Open Scope Z_scope.
#[local] Open Scope message_scope.

Lemma zlen_packet type flags body : zlen (packet type flags body) = 4 + zlen body.
Proof. unfold packet. rewrite !zlen_app, zlen_htons. change (zlen [Z.land type 255; flags]) with 2. lia. Qed.

Section transmit.
Context {ST : Type} `{Storage ST} `{Endian}.
Abbreviation Msg := (RSerPoolMessage ST).
Implicit Types (m : Msg).

(** The buffer that a message is created in. *)
Definition sendable m : Prop :=
  let size := pb_OriginalBufferSize (rm_Packet m) in
  4 <= size < 2 ^ 62 ∧ size mod 4 = 0 ∧ size <= zlen (Buffer m).

#[global] Instance sendable_dec m : Decision (sendable m).
Proof. unfold sendable. apply _. Defined.

Definition cleared_buffer m : Msg :=
  rm_set_Packet (pb_set_Position 0 (pb_set_BufferSize (pb_OriginalBufferSize (rm_Packet m)) (rm_Packet m))) m.

Lemma sendable_ready m : sendable m → ready (cleared_buffer m).
Proof. intros (Hs & Hm & Hl). split; [|done]. split; [|done]. change (Position (cleared_buffer m)) with 0.
  change (BufferSize (cleared_buffer m)) with (pb_OriginalBufferSize (rm_Packet m)). lia. Qed.

(** [message2packet] writes the packet, and nothing else fails. *)
Lemma message2packet_run m flags ppid body : sendable m → bodyWire m = Some (flags, ppid, body) →
  let w := packet (rm_Type m) flags body in
  zlen w <= pb_OriginalBufferSize (rm_Packet m) →
  rserpoolMessage2Packet m = Some (zlen w, append w (rm_set_PPID ppid (cleared_buffer m))).
Proof.
  intros Hs Hb w Hw. unfold rserpoolMessage2Packet, rserpoolMessageClearBuffer. run. fold (cleared_buffer m).
  set (m0 := cleared_buffer m). run. assert (Hb0 : bodyWire m0 = Some (flags, ppid, body)) by exact Hb.
  run_by ltac:(apply (proj1 (create_run m0 flags ppid body (sendable_ready m Hs) eq_refl Hb0))).
  - unfold fits. change (Position m0) with 0. change (BufferSize m0) with (pb_OriginalBufferSize (rm_Packet m)). exact Hw.
  - reflexivity.
Qed.

Lemma appended_packet w m : Position m = 0 → take (length w) (Buffer (append w m)) = w.
Proof.
  intros Hp. unfold append. rewrite Hp.
  change (Buffer (rm_set_Packet _ m)) with (w ++ drop (length w) (Buffer m)). apply take_app_length.
Qed.

(** The message before its scan. *)
Definition arrived (w : list Z) (source : option sockaddr_union) (assocID ppid minBufferSize : Z) : Msg :=
  rm_set_Memory [] (rm_set_Packet (MkPacketBuffer w (zlen w) (Z.max (zlen w) minBufferSize) 0)
    (rm_set_PPID ppid (rm_set_AssocID assocID (rm_set_SourceAddress (default (sockaddr_other 0) source)
      (rserpoolMessageNew w (zlen w)))))).

Lemma packet2message_run w source assocID ppid minBufferSize ok m' :
  scanMessage (arrived w source assocID ppid minBufferSize) = Some (ok, m') →
  rserpoolPacket2Message [] w source assocID ppid (zlen w) minBufferSize =
    Some (RSPERR_OKAY, Some (if ok : bool then on_Status (λ s, ms_set_Error (ms_OperationErrorCode s) s) m' else m')).
Proof. intros Hs. unfold rserpoolPacket2Message. unfold arrived in Hs. cbn [tail]. by rewrite Hs. Qed.

(** What the scanners rely on. *)
Record arrives (m : Msg) (w : list Z) (source : option sockaddr_union) (ppid : Z) : Prop := {
  ar_Position : Position m = 0;
  ar_Buffer : Buffer m = w;
  ar_BufferSize : BufferSize m = zlen w;
  ar_Status : rm_Status m = MkMessageStatus 0 None 0 0 None 0;
  ar_Memory : rm_Memory m = [];
  ar_PPID : rm_PPID m = ppid;
  ar_Array : rm_PoolElementPtrArray m = replicate (Z.to_nat MAX_MAX_HANDLE_RESOLUTION_ITEMS) None;
  ar_Source : rm_SourceAddress m = default (sockaddr_other 0) source
}.

Lemma arrived_arrives w source assocID ppid minBufferSize :
  arrives (arrived w source assocID ppid minBufferSize) w source ppid.
Proof. by split. Qed.

Lemma arrives_sees m w source ppid : arrives m w source ppid → zlen w < 2 ^ 62 → sees m 0 w.
Proof.
  intros Hm Hw. unfold sees. rewrite (ar_BufferSize _ _ _ _ Hm), (ar_Buffer _ _ _ _ Hm).
  cbn [Z.to_nat drop]. rewrite take_ge by done. repeat split; lia.
Qed.

Definition modifierOf (ppid : Z) : option Z :=
  if ppid =? PPID_ASAP then Some AHT_ASAP_MODIFIER else if ppid =? PPID_ENRP then Some EHT_ENRP_MODIFIER else None.

(** The message when its scanner starts. *)
Definition opened (type flags : Z) m : Msg :=
  rm_set_Type type (rm_set_Flags flags (goto m 4 (MkMessageStatus 0 None 0 0 None 0))).

Lemma scanMessage_run m type flags body source ppid :
  arrives m (packet type flags body) source ppid → is_u8 flags → 4 + zlen body < 65536 →
  (modifier ← modifierOf ppid; Some (Z.lor (Z.land type 255) modifier)) = Some type →
  scanMessage m = (scannerOf type >>> checkFinishMessage 0) (opened type flags m).
Proof.
  intros Hm Hflags Hlen Htype. set (w := packet type flags body) in *. pose proof (zlen_nonneg body).
  assert (Hzw : zlen w = 4 + zlen body) by apply zlen_packet.
  assert (Hs : sees m 0 w) by (eapply arrives_sees; [done|]; lia). pose proof Hs as Hs'.
  unfold w, packet in Hs'. apply sees_app in Hs' as [Hhdr Hs']. apply sees_app in Hs' as [Hl _].
  change (0 + zlen [Z.land type 255; flags]) with 2 in Hl.
  change [Z.land type 255; flags] with ([Z.land type 255] ++ [flags]) in Hhdr. apply sees_app in Hhdr as [Ht Hf].
  pose proof (ar_Position _ _ _ _ Hm) as Hpos.
  set (m1 := rm_set_Status (MkMessageStatus 0 None 0 0 None 0) m). set (m2 := set_Position 4 m1).
  assert (Hopen : checkBeginMessage m = Some ((4 + zlen body, 0), rm_set_Flags flags m2)).
  { unfold checkBeginMessage. run. run. unfold on_Status. rewrite (ar_Status _ _ _ _ Hm). fold m1.
    assert (Hs1 : sees m1 (Position m1) w) by (change (Position m1) with (Position m); by rewrite Hpos).
    run_by ltac:(eapply (sees_space m1 w 4); [exact Hs1|lia]).
    change (Position m1) with (Position m). rewrite Hpos. fold m2.
    run_by ltac:(eapply (sees_ntohs m2 _ (4 + zlen body)); [exact Hl|unfold in_width; lia]). run.
    change (BufferSize m2) with (BufferSize m). change (Position m2) with 4.
    rewrite (ar_BufferSize _ _ _ _ Hm), wrap_small by (unfold in_width; lia).
    rewrite (proj2 (Z.ltb_ge (zlen w) _)), (proj2 (Z.ltb_ge (4 + zlen body) 4)) by lia.
    run_by ltac:(eapply (sees_load m2 _ [flags]); [exact Hf|done]). run. reflexivity. }
  unfold scanMessage. run_by ltac:(exact Hopen). rewrite (proj2 (Z.ltb_ge (4 + zlen body) 4)) by lia.
  run_by ltac:(eapply (sees_load (rm_set_Flags flags m2) _ [Z.land type 255]); [exact Ht|done]). run.
  change (rm_PPID (rm_set_Flags flags m2)) with (rm_PPID m). rewrite (ar_PPID _ _ _ _ Hm).
  change (be_value [Z.land type 255]) with (0 * 256 + Z.land type 255).
  rewrite Z.add_0_l. fold (modifierOf ppid). apply bind_Some in Htype as (modifier & -> & Htype).
  apply (inj Some) in Htype. rewrite Htype. run. reflexivity.
Qed.

(** The end of the packet is reached. *)
Lemma checkFinishMessage_run type flags body m' :
  4 + zlen body < 65536 → zlen body mod 4 = 0 →
  let w := packet type flags body in
  Position m' = zlen w → Buffer m' = w → BufferSize m' = zlen w →
  checkFinishMessage 0 m' = Some (true, on_Status cleared m').
Proof.
  intros Hlen Ha w Hp HB Hsz. pose proof (zlen_nonneg body).
  assert (Hzw : zlen w = 4 + zlen body) by apply zlen_packet.
  assert (Hs : sees m' 0 w).
  { split; [done|]. rewrite Hsz, HB. cbn [Z.to_nat drop]. rewrite take_ge by done. repeat split; lia. }
  unfold w, packet in Hs. apply sees_app in Hs as [_ Hs]. apply sees_app in Hs as [Hl _].
  unfold checkFinishMessage. run_by ltac:(eapply (sees_ntohs m' _ (4 + zlen body)); [exact Hl|unfold in_width; lia]). run.
  assert (Hpad : getPadding (0 + (4 + zlen body)) 4 = 0).
  { unfold getPadding. rewrite Z.add_0_l, Z.add_mod, Ha by lia. done. }
  rewrite Hpad, Hp, Hzw. replace (4 + zlen body =? 0 + (4 + zlen body) + 0) with true by (symmetry; apply Z.eqb_eq; lia).
  reflexivity.
Qed.

(** What the receiver gets: the packet of [m], scanned. *)
Definition transmit m (source : option sockaddr_union) (assocID minBufferSize : Z) : option (Z * option Msg) :=
  match rserpoolMessage2Packet m with
  | Some (n, m1) =>
      rserpoolPacket2Message [] (take (Z.to_nat n) (Buffer m1)) source assocID (rm_PPID m1) n minBufferSize
  | None => None
  end.

Definition finished m : Msg := on_Status (λ s, ms_set_Error (ms_OperationErrorCode s) s) (on_Status cleared m).

(** A message whose packet fits in its buffer and in its length field. *)
Definition transmittable m (flags ppid : Z) (body : list Z) : Prop :=
  sendable m ∧ bodyWire m = Some (flags, ppid, body) ∧ 4 + zlen body <= pb_OriginalBufferSize (rm_Packet m) ∧
  4 + zlen body < 65536.

Section run.
Context (m : Msg) (flags ppid : Z) (body : list Z) (source : option sockaddr_union) (assocID minBufferSize : Z).
Hypothesis Hm : transmittable m flags ppid body.
Hypothesis Hflags : is_u8 flags.
Hypothesis Htype : (modifier ← modifierOf ppid; Some (Z.lor (Z.land (rm_Type m) 255) modifier)) = Some (rm_Type m).

Abbreviation w := (packet (rm_Type m) flags body).

Lemma transmit_scan (P : Msg → Prop) :
  (∀ m0, arrives m0 w source ppid → ∃ ok m',
    (scannerOf (rm_Type m) >>> checkFinishMessage 0) (opened (rm_Type m) flags m0) = Some (ok, m') ∧
    P (if ok : bool then on_Status (λ s, ms_set_Error (ms_OperationErrorCode s) s) m' else m')) →
  ∃ m', transmit m source assocID minBufferSize = Some (RSPERR_OKAY, Some m') ∧ P m'.
Proof.
  intros Hscan. destruct Hm as (Hs & Hb & Hfit & Hlen).
  pose proof (arrived_arrives w source assocID ppid minBufferSize) as Har.
  destruct (Hscan _ Har) as (ok & m' & Hrun & HP). eexists. split; [|exact HP]. unfold transmit.
  rewrite (message2packet_run m flags ppid body) by (done || by rewrite zlen_packet).
  unfold zlen at 1. rewrite Nat2Z.id, appended_packet by done.
  change (rm_PPID (append w (rm_set_PPID ppid (cleared_buffer m)))) with ppid.
  apply packet2message_run. rewrite <- Hrun. by eapply scanMessage_run.
Qed.

(** The body is where the scanner starts. *)
Lemma opened_sees m0 : arrives m0 w source ppid → sees (opened (rm_Type m) flags m0) 4 body.
Proof.
  intros Har. destruct Hm as (_ & _ & _ & Hlen). assert (Hs : sees m0 0 w).
  { eapply arrives_sees; [done|]. rewrite zlen_packet. lia. }
  unfold w in Hs. apply sees_app in Hs as [_ Hs]. by apply sees_app in Hs as [_ Hs].
Qed.

Lemma transmit_run (P : Msg → Prop) : zlen body mod 4 = 0 →
  (∀ m0, arrives m0 w source ppid → sees (opened (rm_Type m) flags m0) 4 body → ∃ m',
    scannerOf (rm_Type m) (opened (rm_Type m) flags m0) = Some (true, m') ∧
    Position m' = 4 + zlen body ∧ Buffer m' = Buffer m0 ∧ BufferSize m' = BufferSize m0 ∧ P (finished m')) →
  ∃ m', transmit m source assocID minBufferSize = Some (RSPERR_OKAY, Some m') ∧ P m'.
Proof.
  intros Ha Hscan. apply transmit_scan. intros m0 Har.
  destruct (Hscan m0 Har (opened_sees m0 Har)) as (m' & Hrun & Hp & HB & Hsz & HP).
  exists true, (on_Status cleared m'). split; [|exact HP]. rewrite (andThen_true _ _ _ _ Hrun).
  destruct Hm as (_ & _ & _ & Hlen). apply (checkFinishMessage_run (rm_Type m) flags body); [done..| | |].
  - by rewrite Hp, zlen_packet.
  - by rewrite HB, (ar_Buffer _ _ _ _ Har).
  - by rewrite Hsz, (ar_BufferSize _ _ _ _ Har).
Qed.
End run.
End transmit.
