(* ===== verification/MessageTheorems.v ===== *)
(** * Theorems about messages

    The packet of a message, and what the receiver gets: round trips per
    kind of message, and the packets on which the parser does not do what
    it is meant to do. *)

From S2P Require Import Prelude Addresses PoolBasics Storage PoolElement PoolPolicy HandlespaceState HandlespaceMgt PeerList Message MessageCreator MessageParser MessageWire MessageWrites MessageCreate MessageScan MessageScanBlocks MessageTransmit.
From stdpp Require Import base list gmap numbers option.
#[local] Open Scope Z_scope.
#[local] Open Scope message_scope.

Lemma land_1_u8 z : is_u8 (Z.land z 1).
Proof.
  unfold in_width. change 1 with (Z.ones 1). rewrite Z.land_ones by lia. change (2 ^ 1) with 2.
  pose proof (Z.mod_pos_bound z 2). lia.
Qed.

(** The body of a message of known type. *)
Ltac body_of Ht Hb :=
  unfold bodyWire in Hb; rewrite Ht in Hb;
  repeat match type of Hb with
  | context [?a =? ?b] =>
      let v := eval vm_compute in (a =? b) in
      match v with true => idtac | false => idtac end; change (a =? b) with v in Hb; cbv beta iota in Hb
  end;
  apply fmap_Some in Hb as (? & Hb & [= -> -> ->]);
  unfold handleAndIdentifier, responsePart, registrationPart, resolutionResponsePart, businessCardPart,
    handleUpdatePart in Hb; split_part Hb.

Section theorems.
Context {ST : Type} `{Storage ST} `{Endian}.
Abbreviation Msg := (RSerPoolMessage ST).
Implicit Types (m : Msg).
Context (source : option sockaddr_union) (assocID minBufferSize : Z).
Abbreviation received := (λ m, transmit m source assocID minBufferSize).

(** ** Scanners of messages *)

Lemma handlePart_Some m w : handlePart m = Some w → handle_wf (rm_Handle m) ∧ w = handleWire (rm_Handle m).
Proof. intros Hw. apply provided_Some in Hw as [? <-]. done. Qed.

Lemma elementPart_Some reg pe w : elementPart reg (Some pe) = Some w → elementWire pe reg = Some w.
Proof. intros Hw. apply bind_Some in Hw as (w' & Hw' & Hw). by apply provided_Some in Hw as [_ <-]. Qed.

Lemma scan_registration m h pe w : sees m (Position m) (handleWire h ++ w) → handle_wf h →
  elementWire pe false = Some w → element_ok pe false → rm_Memory m = [] →
  scanRegistrationMessage m = Some (true, rm_set_PoolElementPtr (Some (received_element pe false)) (rm_set_Handle h
    (goto m (Position m + zlen (handleWire h) + zlen w) (cleared (rm_Status m))))).
Proof.
  intros Hs Hh Hw Hpe Hmem. apply sees_app in Hs as [Hs1 Hs2]. unfold scanRegistrationMessage.
  rewrite (andThen_true _ _ _ _ (scan_handle m h Hs1 Hh)). set (m1 := rm_set_Handle h _).
  run_by ltac:(eapply (scan_element m1 pe false w); [exact Hs2|done|done|exact Hmem]). run. reflexivity.
Qed.

Lemma scan_handleUpdate m sender receiver action h pe w :
  sees m (Position m) ((htonl sender ++ htonl receiver ++ htons action ++ htons 0) ++ handleWire h ++ w) →
  is_u32 sender → is_u32 receiver → is_u16 action → handle_wf h →
  elementWire pe true = Some w → element_ok pe true → rm_Memory m = [] →
  scanHandleUpdateMessage m = Some (true, rm_set_PoolElementPtr (Some (received_element pe true)) (rm_set_Handle h
    (rm_set_Action action (rm_set_ReceiverID receiver (rm_set_SenderID sender
      (goto m (Position m + 12 + zlen (handleWire h) + zlen w) (cleared (rm_Status m)))))))).
Proof.
  intros Hs Hsnd Hrcv Hact Hh Hw Hpe Hmem. set (fixed := htonl sender ++ _) in Hs.
  apply sees_app in Hs as [Hf Hs]. apply sees_app in Hs as [Hs1 Hs2]. pose proof Hf as Hf'. unfold fixed in Hf'.
  apply sees_app in Hf' as [Hf1 Hf']. apply sees_app in Hf' as [Hf2 Hf']. apply sees_app in Hf' as [Hf3 _].
  rewrite zlen_htonl in Hf2, Hf3. rewrite zlen_htonl in Hf3. change (zlen fixed) with 12 in *.
  unfold scanHandleUpdateMessage, withFixedPart.
  run_by ltac:(eapply (sees_space m fixed 12); [exact Hf|done]). set (m1 := set_Position _ m).
  run_by ltac:(unfold scanServerIDs).
  { run_by ltac:(eapply (sees_ntohl m1); [exact Hf1|done]).
    run_by ltac:(eapply (sees_ntohl m1); [exact Hf2|done]). reflexivity. }
  set (m2 := rm_set_ReceiverID _ _).
  run_by ltac:(eapply (sees_ntohs m2 _ action); [|done]).
  { replace (Position m + 8) with (Position m + 4 + 4) by lia. exact Hf3. }
  run. set (m3 := rm_set_Action action m2).
  rewrite (andThen_true _ _ _ _ (scan_handle m3 h Hs1 Hh)). set (m4 := rm_set_Handle h _).
  run_by ltac:(eapply (scan_element m4 pe true w); [exact Hs2|done|done|exact Hmem]). run.
  destruct Hpe as (_ & _ & _ & _ & _ & _ & Hreg). unfold received_element. cbn [poolElementNodeNew pen_RegistratorTransport].
  destruct (pen_RegistratorTransport pe) as [t|]; [reflexivity|done].
Qed.

Lemma scan_handle_identifier m h i : sees m (Position m) (handleWire h ++ identifierWire i) → handle_wf h → is_u32 i →
  (scanPoolHandleParameter >>> scanPoolElementIdentifierParameter) m = Some (true, rm_set_Identifier i (rm_set_Handle h
    (goto m (Position m + zlen (handleWire h) + zlen (identifierWire i)) (cleared (rm_Status m))))).
Proof.
  intros Hs Hh Hi. apply sees_app in Hs as [Hs1 Hs2].
  rewrite (andThen_true _ _ _ _ (scan_handle m h Hs1 Hh)). set (m1 := rm_set_Handle h _).
  by rewrite (scan_identifier m1 i).
Qed.

Lemma scan_target m sender receiver target :
  sees m (Position m) (htonl sender ++ htonl receiver ++ htonl target) → is_u32 sender → is_u32 receiver → is_u32 target →
  withFixedPart 12 scanTarget m = Some (true, rm_set_RegistrarIdentifier target (rm_set_ReceiverID receiver
    (rm_set_SenderID sender (set_Position (Position m + 12) m)))).
Proof.
  intros Hs Hsnd Hrcv Htgt. unfold withFixedPart, scanTarget, scanServerIDs.
  run_by ltac:(eapply (sees_space m _ 12 Hs); done). set (m1 := set_Position _ m).
  apply sees_app in Hs as [Hs1 Hs]. apply sees_app in Hs as [Hs2 Hs3]. rewrite zlen_htonl in *.
  run_by ltac:(run_by ltac:(eapply (sees_ntohl m1); [exact Hs1|done]);
               run_by ltac:(eapply (sees_ntohl m1); [exact Hs2|done]); reflexivity).
  replace (Position m + 8) with (Position m + 4 + 4) by lia. set (m2 := rm_set_ReceiverID _ _).
  run_by ltac:(eapply (sees_ntohl m2); [exact Hs3|done]). reflexivity.
Qed.

Lemma scan_server m sender receiver (k : M Msg bool) w :
  sees m (Position m) ((htonl sender ++ htonl receiver) ++ w) → is_u32 sender → is_u32 receiver →
  withFixedPart 8 (λ sp, scanServerIDs sp;; k) m = k (rm_set_ReceiverID receiver
    (rm_set_SenderID sender (set_Position (Position m + 8) m))).
Proof.
  intros Hs Hsnd Hrcv. apply sees_app in Hs as [Hs _]. unfold withFixedPart, scanServerIDs.
  run_by ltac:(eapply (sees_space m _ 8 Hs); done). set (m1 := set_Position _ m).
  apply sees_app in Hs as [Hs1 Hs2]. rewrite zlen_htonl in *.
  run_by ltac:(run_by ltac:(eapply (sees_ntohl m1); [exact Hs1|done]);
               run_by ltac:(eapply (sees_ntohl m1); [exact Hs2|done]); reflexivity). reflexivity.
Qed.

(** ** Missing parameters *)

Lemma scan_no_identifier m : Position m = BufferSize m → 0 <= Position m < 2 ^ 62 → ∃ s,
  scanPoolElementIdentifierParameter m = Some (false, goto m (Position m) s) ∧
  ms_OperationErrorCode s = ms_OperationErrorCode (rm_Status m).
Proof.
  intros Hend Hp. eexists. split; [|]. 
  - unfold scanPoolElementIdentifierParameter. run_by ltac:(by apply checkBeginTLV_end). reflexivity.
  - done.
Qed.

Lemma scan_no_resolution m : Position m = BufferSize m → 0 <= Position m < 2 ^ 62 → ∃ s,
  scanHandleResolutionParameter m = Some (false, goto m (Position m) s) ∧
  ms_OperationErrorCode s = ms_OperationErrorCode (rm_Status m).
Proof.
  intros Hend Hp. eexists. split; [|].
  - unfold scanHandleResolutionParameter. run_by ltac:(by apply checkBeginTLV_end). reflexivity.
  - done.
Qed.

(** Where a policy stands, there is no error parameter. *)
Lemma scan_no_error m pps w : sees m (Position m) w → policyWire pps = Some w → ∃ s,
  scanErrorParameter m = Some (false, goto m (Position m) s) ∧
  ms_OperationErrorCode s = ms_OperationErrorCode (rm_Status m).
Proof.
  intros Hs Hw. pose proof (policyWire_size _ _ Hw) as Hl. unfold policyWire in Hw. apply fmap_Some in Hw as (fields & Hf & ->).
  rewrite zlen_tlv in Hl. pose proof (padding_range (4 + zlen (policyBytes pps fields))). eexists. split; [|].
  - unfold scanErrorParameter. run_by ltac:(eapply checkBeginTLV_other; [exact Hs|split; [done|lia]|done|done]). reflexivity.
  - done.
Qed.

(** The error at the end of a response, or none. *)
Lemma scan_optionalError m m0 w : sees m (Position m) w → BufferSize m = Position m + zlen w →
  optionalErrorPart m0 = Some w → is_u16 (Error m0) → 4 + zlen w < 65536 → ms_OperationErrorCode (rm_Status m) = 0 → ∃ s,
  scanOptionalError m = Some (true, goto m (Position m + zlen w) s) ∧ ms_OperationErrorCode s = Error m0.
Proof.
  intros Hs Hend Hw He Hlen Hcode. unfold scanOptionalError, optionalErrorPart in *.
  destruct (Z.eqb_spec (Error m0) 0) as [Hz|Hnz].
  - apply (inj Some) in Hw as <-. rewrite zlen_nil, Z.add_0_r in *. exists (rm_Status m). split; [|by rewrite Hz].
    run. rewrite (proj2 (Z.ltb_ge (Position m) _)) by lia. unfold goto. by destruct m as [???????[]].
  - apply provided_Some in Hw as (_ & <-). eexists. split; [|].
    + run. rewrite (proj2 (Z.ltb_lt (Position m) _)).
      * apply scan_error; [done|done|]. unfold errorWire in Hlen. rewrite zlen_tlv in Hlen. autorewrite with zlen in Hlen.
        pose proof (padding_range (4 + (2 + (2 + zlen (errorData m0))))). lia.
      * rewrite Hend. unfold errorWire. rewrite zlen_tlv. pose proof (padding_range (4 + zlen (htons (Error m0) ++ htons (4 + zlen (errorData m0)) ++ errorData m0))).
        pose proof (zlen_nonneg (htons (Error m0) ++ htons (4 + zlen (errorData m0)) ++ errorData m0)). lia.
    + done.
Qed.

(** ** The packet of a message *)

(** C28: In a buffer whose size is a multiple of four, a message of every
    type (but the two that enumerate peers or handles) is converted to
    exactly its packet, with all lengths and paddings in place, behind
    which the buffer is unchanged; a packet that does not fit is reported
    as a fatal error and never written beyond the buffer. *)
Theorem message2packet_wire m flags ppid body : sendable m → bodyWire m = Some (flags, ppid, body) →
  let w := packet (rm_Type m) flags body in
  let size := pb_OriginalBufferSize (rm_Packet m) in
  zlen w mod 4 = 0 ∧
  (zlen w <= size → ∃ m', rserpoolMessage2Packet m = Some (zlen w, m') ∧ rm_PPID m' = ppid ∧
     Buffer m' = w ++ drop (length w) (Buffer m)) ∧
  (size < zlen w → rserpoolMessage2Packet m = None).
Proof.
  intros Hs Hb w size. split; [|split].
  - unfold w. rewrite zlen_packet, Z.add_mod, (bodyWire_aligned _ _ _ _ Hb) by done. done.
  - intros Hw. eexists. split; [by apply message2packet_run|]. done.
  - intros Hw. unfold rserpoolMessage2Packet, rserpoolMessageClearBuffer. run. fold (cleared_buffer m).
    set (m0 := cleared_buffer m). run. assert (Hb0 : bodyWire m0 = Some (flags, ppid, body)) by exact Hb.
    destruct (proj2 (create_run m0 flags ppid body (sendable_ready m Hs) eq_refl Hb0)) as (m' & Hrun).
    + unfold fits. change (Position m0) with 0. change (BufferSize m0) with size. change (rm_Type m0) with (rm_Type m). fold w. lia.
    + run_by ltac:(exact Hrun). reflexivity.
Qed.

(** ** Round trips *)

(** C29: A registration arrives as it was sent: pool handle, identifier,
    home registrar, life time, policy and usable addresses of the element
    are those of the sender. *)
Theorem registration_transmitted m flags ppid body pe : rm_Type m = AHT_REGISTRATION →
  transmittable m flags ppid body → Error m = RSPERR_OKAY → rm_PoolElementPtr m = Some pe → element_ok pe false →
  ∃ m', received m = Some (RSPERR_OKAY, Some m') ∧ Error m' = RSPERR_OKAY ∧ rm_Type m' = AHT_REGISTRATION ∧
    rm_Handle m' = rm_Handle m ∧ rm_PoolElementPtr m' = Some (received_element pe false).
Proof.
  intros Ht Hm HE Hpe Hok. pose proof Hm as (_ & Hb & _). pose proof (bodyWire_aligned _ _ _ _ Hb) as Ha.
  body_of Ht Hb. rewrite Hpe in Hx. injection Hx as <-. unfold optionalErrorPart in Hx2. rewrite HE in Hx2.
  injection Hx2 as <-. apply handlePart_Some in Hx0 as [Hh ->]. apply elementPart_Some in Hx1.
  apply (transmit_run m 0 PPID_ASAP _ _ _ _ Hm); [done|by rewrite Ht|done|]. intros m0 Har Hs.
  rewrite Ht in *. eexists. split; [|split].
  - rewrite app_nil_r in Hs. apply (scan_registration (opened AHT_REGISTRATION 0 m0) _ pe _ Hs); [done..|].
    exact (ar_Memory _ _ _ _ Har).
  - rewrite !zlen_app, zlen_nil. change (Position (opened AHT_REGISTRATION 0 m0)) with 4. cbn. lia.
  - done.
Qed.

(** An ENRP handle update arrives as it was sent: the registrars, the
    action, the flag, the pool handle and the element with its
    registrator's addresses. *)
Theorem handleUpdate_transmitted m flags ppid body pe : rm_Type m = EHT_HANDLE_UPDATE →
  transmittable m flags ppid body → rm_PoolElementPtr m = Some pe → element_ok pe true →
  is_u32 (rm_SenderID m) → is_u32 (rm_ReceiverID m) → is_u16 (rm_Action m) →
  ∃ m', received m = Some (RSPERR_OKAY, Some m') ∧ Error m' = RSPERR_OKAY ∧ rm_Type m' = EHT_HANDLE_UPDATE ∧
    rm_Flags m' = Z.land (rm_Flags m) EHF_TAKEOVER_SUGGESTED ∧
    rm_SenderID m' = rm_SenderID m ∧ rm_ReceiverID m' = rm_ReceiverID m ∧ rm_Action m' = rm_Action m ∧
    rm_Handle m' = rm_Handle m ∧ rm_PoolElementPtr m' = Some (received_element pe true).
Proof.
  intros Ht Hm Hpe Hok Hsnd Hrcv Hact. pose proof Hm as (_ & Hb & _). pose proof (bodyWire_aligned _ _ _ _ Hb) as Ha.
  body_of Ht Hb. rewrite Hpe in Hx. injection Hx as <-. apply handlePart_Some in Hx0 as [Hh ->]. apply elementPart_Some in Hx1.
  apply (transmit_run m _ PPID_ENRP _ _ _ _ Hm); [apply land_1_u8|by rewrite Ht|done|]. intros m0 Har Hs.
  rewrite Ht in *. set (f := Z.land (rm_Flags m) EHF_TAKEOVER_SUGGESTED) in *. eexists. split; [|split].
  - apply (scan_handleUpdate (opened EHT_HANDLE_UPDATE f m0) _ _ _ _ pe _ Hs); [done..|]. exact (ar_Memory _ _ _ _ Har).
  - rewrite !zlen_app. change (Position (opened EHT_HANDLE_UPDATE f m0)) with 4. autorewrite with zlen. cbn. lia.
  - done.
Qed.

(** A deregistration, a keep-alive acknowledgement and a report of an
    unreachable element arrive with the handle and identifier sent. *)
Theorem handleAndIdentifier_transmitted m flags ppid body :
  rm_Type m ∈ [AHT_DEREGISTRATION; AHT_ENDPOINT_KEEP_ALIVE_ACK; AHT_ENDPOINT_UNREACHABLE] →
  transmittable m flags ppid body → is_u32 (rm_Identifier m) →
  ∃ m', received m = Some (RSPERR_OKAY, Some m') ∧ Error m' = RSPERR_OKAY ∧ rm_Type m' = rm_Type m ∧
    rm_Handle m' = rm_Handle m ∧ rm_Identifier m' = rm_Identifier m.
Proof.
  intros Ht Hm Hi. pose proof Hm as (_ & Hb & _). pose proof (bodyWire_aligned _ _ _ _ Hb) as Ha.
  assert (∃ h, handlePart m = Some h ∧ flags = 0 ∧ ppid = PPID_ASAP ∧ body = h ++ identifierWire (rm_Identifier m) ∧
    scannerOf (rm_Type m) = (scanPoolHandleParameter >>> scanPoolElementIdentifierParameter : M Msg bool))
    as (h & Hx & -> & -> & -> & Hscan).
  { rewrite !elem_of_cons in Ht. destruct Ht as [Ht|[Ht|[Ht|[]%not_elem_of_nil]]];
      body_of Ht Hb; rewrite Ht; eexists; done. }
  apply handlePart_Some in Hx as [Hh ->].
  apply (transmit_run m 0 PPID_ASAP _ _ _ _ Hm); [done| |done|].
  { rewrite !elem_of_cons in Ht. by destruct Ht as [->|[->|[->|[]%not_elem_of_nil]]]. }
  intros m0 Har Hs. rewrite Hscan. eexists. split; [|split].
  - by apply (scan_handle_identifier (opened (rm_Type m) 0 m0)).
  - rewrite !zlen_app. change (Position (opened (rm_Type m) 0 m0)) with 4. cbn. lia.
  - done.
Qed.

(** The packet ends where the body ends. *)
Lemma opened_size m m0 flags ppid body : arrives m0 (packet (rm_Type m) flags body) source ppid →
  BufferSize (opened (rm_Type m) flags m0) = 4 + zlen body.
Proof.
  intros Har. change (BufferSize (opened (rm_Type m) flags m0)) with (BufferSize m0).
  by rewrite (ar_BufferSize _ _ _ _ Har), zlen_packet.
Qed.

(** The responses to a registration and to a deregistration arrive
    with handle, identifier and the error code sent ([RSPERR_OKAY] when
    there is none). *)
Theorem response_transmitted m flags ppid body : rm_Type m ∈ [AHT_REGISTRATION_RESPONSE; AHT_DEREGISTRATION_RESPONSE] →
  transmittable m flags ppid body → is_u32 (rm_Identifier m) → is_u16 (Error m) →
  ∃ m', received m = Some (RSPERR_OKAY, Some m') ∧ Error m' = Error m ∧ rm_Type m' = rm_Type m ∧
    rm_Handle m' = rm_Handle m ∧ rm_Identifier m' = rm_Identifier m ∧
    (rm_Type m = AHT_REGISTRATION_RESPONSE → rm_Flags m' = Z.land (rm_Flags m) AHF_REGISTRATION_REJECT).
Proof.
  intros Ht Hm Hi He. pose proof Hm as (_ & Hb & _ & Hlen). pose proof (bodyWire_aligned _ _ _ _ Hb) as Ha.
  assert (∃ h e, handlePart m = Some h ∧ optionalErrorPart m = Some e ∧ is_u8 flags ∧ ppid = PPID_ASAP ∧
    body = h ++ identifierWire (rm_Identifier m) ++ e ∧
    (rm_Type m = AHT_REGISTRATION_RESPONSE → flags = Z.land (rm_Flags m) AHF_REGISTRATION_REJECT) ∧
    scannerOf (rm_Type m) = (scanPoolHandleParameter >>> scanPoolElementIdentifierParameter >>> scanOptionalError : M Msg bool))
    as (h & e & Hx & Hxe & Hflags & -> & -> & Hreject & Hscan).
  { rewrite !elem_of_cons in Ht. destruct Ht as [Ht|[Ht|[]%not_elem_of_nil]]; body_of Ht Hb; rewrite Ht; do 2 eexists.
    - do 2 (split; [done|]). split; [apply land_1_u8|done].
    - do 2 (split; [done|]). done. }
  apply handlePart_Some in Hx as [Hh ->].
  apply (transmit_run m flags PPID_ASAP _ _ _ _ Hm); [done| |done|].
  { rewrite !elem_of_cons in Ht. by destruct Ht as [->|[->|[]%not_elem_of_nil]]. }
  intros m0 Har Hs. pose proof (opened_size _ _ _ _ _ Har) as Hend. rewrite Hscan.
  set (m1 := opened (rm_Type m) flags m0) in *. change 4 with (Position m1) in Hs at 1.
  apply sees_app in Hs as [Hs1 Hs]. apply sees_app in Hs as [Hs2 Hs3]. rewrite !zlen_app in Hend, Hlen.
  pose proof (scan_handle m1 _ Hs1 Hh) as Hr1. set (m2 := rm_set_Handle _ _) in Hr1.
  pose proof (scan_identifier m2 _ Hs2 Hi) as Hr2. set (m3 := rm_set_Identifier _ _) in Hr2.
  destruct (scan_optionalError m3 m e Hs3) as (st & Hr3 & Hcode); [| done..| | done |].
  - change (BufferSize m3) with (BufferSize m1).
    change (Position m3) with (4 + zlen (handleWire (rm_Handle m)) + zlen (identifierWire (rm_Identifier m))). lia.
  - pose proof (zlen_nonneg (handleWire (rm_Handle m))). pose proof (zlen_nonneg (identifierWire (rm_Identifier m))). lia.
  - eexists. split; [|split; [|split; [|split]]].
    + rewrite (andThen_true _ _ _ _ Hr1), (andThen_true _ _ _ _ Hr2). exact Hr3.
    + rewrite !zlen_app. cbn. lia.
    + done.
    + done.
    + split; [exact Hcode|]. done.
Qed.

(** An optional parameter at the end of the packet: present and scanned, or
    absent with the default taken. *)
Lemma scan_optional m (scan : M Msg bool) (default : Msg → Msg) (present : bool) w (stored : Msg → Msg) :
  (present = true → scan m = Some (true, stored (goto m (Position m + zlen w) (cleared (rm_Status m))))) →
  (present = false → w = [] ∧ ∃ st, scan m = Some (false, goto m (Position m) st) ∧
     ms_OperationErrorCode st = ms_OperationErrorCode (rm_Status m)) → ∃ st,
  (found ← scan; (if found : bool then mret tt else modify default);; mret true) m =
    Some (true, (if present then stored else default) (goto m (Position m + zlen w) st)) ∧
  ms_OperationErrorCode st = ms_OperationErrorCode (rm_Status m).
Proof.
  intros Hp Ha. destruct present.
  - eexists. split; [run_by ltac:(by apply Hp); reflexivity|done].
  - destruct Ha as (-> & st & Hrun & Hst); [done|]. exists st. split; [|done].
    run_by ltac:(exact Hrun). rewrite zlen_nil, Z.add_0_r. reflexivity.
Qed.

(** A request for a handle resolution arrives with the handle and the
    number of elements wanted, also when no number is sent. *)
Theorem handleResolution_transmitted m flags ppid body : rm_Type m = AHT_HANDLE_RESOLUTION →
  transmittable m flags ppid body → is_u32 (rm_Addresses m) →
  ∃ m', received m = Some (RSPERR_OKAY, Some m') ∧ Error m' = RSPERR_OKAY ∧ rm_Type m' = AHT_HANDLE_RESOLUTION ∧
    rm_Handle m' = rm_Handle m ∧ rm_Addresses m' = rm_Addresses m.
Proof.
  intros Ht Hm Hn. pose proof Hm as (_ & Hb & _ & Hlen). pose proof (bodyWire_aligned _ _ _ _ Hb) as Ha.
  body_of Ht Hb. apply handlePart_Some in Hx as [Hh ->].
  apply (transmit_run m _ PPID_ASAP _ _ _ _ Hm); [done|by rewrite Ht|done|]. intros m0 Har Hs.
  pose proof (opened_size _ _ _ _ _ Har) as Hend. rewrite Ht in *.
  set (w := if rm_Addresses m =? 0 then [] else _) in *. set (m1 := opened AHT_HANDLE_RESOLUTION 0 m0) in *.
  change 4 with (Position m1) in Hs at 1. apply sees_app in Hs as [Hs1 Hs2]. rewrite !zlen_app in Hend, Hlen.
  pose proof (scan_handle m1 _ Hs1 Hh) as Hr1. set (m2 := rm_set_Handle _ _) in Hr1. pose proof (zlen_nonneg (handleWire (rm_Handle m))).
  assert (Hp2 : Position m2 = 4 + zlen (handleWire (rm_Handle m))) by done.
  destruct (scan_optional m2 scanHandleResolutionParameter (rm_set_Addresses 0) (negb (rm_Addresses m =? 0)) w
    (rm_set_Addresses (rm_Addresses m))) as (st & Hr2 & Hcode).
  - intros Hz. apply negb_true_iff in Hz. unfold w in *. rewrite Hz in *. by apply scan_resolution.
  - intros Hz. apply negb_false_iff in Hz. unfold w in *. rewrite Hz, zlen_nil in *. split; [done|].
    change (BufferSize m1) with (BufferSize m2) in Hend. apply scan_no_resolution; lia.
  - eexists. split; [|split; [|split; [|split]]].
    + change (scannerOf AHT_HANDLE_RESOLUTION) with (scanHandleResolutionMessage : M Msg bool). unfold scanHandleResolutionMessage.
      rewrite (andThen_true _ _ _ _ Hr1). exact Hr2.
    + rewrite !zlen_app, Z.add_assoc, <- Hp2. by destruct (rm_Addresses m =? 0).
    + by destruct (rm_Addresses m =? 0).
    + by destruct (rm_Addresses m =? 0).
    + destruct (Z.eqb_spec (rm_Addresses m) 0) as [Hz|Hnz]; (split; [exact Hcode|]); [by rewrite Hz|done].
Qed.

(** A keep-alive arrives with the registrar, the handle, the flag and
    the identifier sent, also when no identifier is sent. *)
Theorem keepAlive_transmitted m flags ppid body : rm_Type m = AHT_ENDPOINT_KEEP_ALIVE →
  transmittable m flags ppid body → is_u32 (rm_Identifier m) → is_u32 (rm_RegistrarIdentifier m) →
  ∃ m', received m = Some (RSPERR_OKAY, Some m') ∧ Error m' = RSPERR_OKAY ∧ rm_Type m' = AHT_ENDPOINT_KEEP_ALIVE ∧
    rm_Flags m' = Z.land (rm_Flags m) AHF_ENDPOINT_KEEP_ALIVE_HOME ∧
    rm_RegistrarIdentifier m' = rm_RegistrarIdentifier m ∧ rm_Handle m' = rm_Handle m ∧ rm_Identifier m' = rm_Identifier m.
Proof.
  intros Ht Hm Hn Hr. pose proof Hm as (_ & Hb & _ & Hlen). pose proof (bodyWire_aligned _ _ _ _ Hb) as Ha.
  body_of Ht Hb. apply handlePart_Some in Hx as [Hh ->].
  apply (transmit_run m _ PPID_ASAP _ _ _ _ Hm); [apply land_1_u8|by rewrite Ht|done|]. intros m0 Har Hs.
  pose proof (opened_size _ _ _ _ _ Har) as Hend. rewrite Ht in *.
  set (w := if rm_Identifier m =? 0 then [] else _) in *. set (f := Z.land _ _) in *.
  set (m1 := opened AHT_ENDPOINT_KEEP_ALIVE f m0) in *.
  change 4 with (Position m1) in Hs at 1. apply sees_app in Hs as [Hs0 Hs]. apply sees_app in Hs as [Hs1 Hs2].
  rewrite !zlen_app, zlen_htonl in *.
  set (m2 := rm_set_RegistrarIdentifier (rm_RegistrarIdentifier m) (set_Position (Position m1 + 4) m1)).
  pose proof (scan_handle m2 _ Hs1 Hh) as Hr1. set (m3 := rm_set_Handle _ _) in Hr1. pose proof (zlen_nonneg (handleWire (rm_Handle m))).
  assert (Hp3 : Position m3 = 4 + 4 + zlen (handleWire (rm_Handle m))) by done.
  destruct (scan_optional m3 scanPoolElementIdentifierParameter (rm_set_Identifier 0) (negb (rm_Identifier m =? 0)) w
    (rm_set_Identifier (rm_Identifier m))) as (st & Hr2 & Hcode).
  - intros Hz. apply negb_true_iff in Hz. unfold w in *. rewrite Hz in *. by apply scan_identifier.
  - intros Hz. apply negb_false_iff in Hz. unfold w in *. rewrite Hz, zlen_nil in *. split; [done|].
    change (BufferSize m1) with (BufferSize m3) in Hend. apply scan_no_identifier; lia.
  - eexists. split; [|split; [|split; [|split]]].
    + change (scannerOf AHT_ENDPOINT_KEEP_ALIVE) with (scanEndpointKeepAliveMessage : M Msg bool).
      unfold scanEndpointKeepAliveMessage, withSpace.
      run_by ltac:(eapply (sees_space m1 _ 4 Hs0); done).
      run_by ltac:(eapply (sees_ntohl (set_Position (Position m1 + 4) m1)); [exact Hs0|done]). run. fold m2.
      rewrite (andThen_true _ _ _ _ Hr1). exact Hr2.
    + rewrite !Z.add_assoc, <- Hp3. by destruct (rm_Identifier m =? 0).
    + by destruct (rm_Identifier m =? 0).
    + by destruct (rm_Identifier m =? 0).
    + destruct (Z.eqb_spec (rm_Identifier m) 0) as [Hz|Hnz]; (split; [exact Hcode|]); [by rewrite Hz|done].
Qed.

(** What the loop over the elements of a response keeps. *)
Definition same_response m m' : Prop :=
  Buffer m' = Buffer m ∧ BufferSize m' = BufferSize m ∧ rm_Type m' = rm_Type m ∧ rm_Handle m' = rm_Handle m ∧
  rm_PolicySettings m' = rm_PolicySettings m ∧
  ms_OperationErrorCode (rm_Status m') = ms_OperationErrorCode (rm_Status m).

Lemma scan_elements l : ∀ fuel m ws n, mapM (elementPart false) (Some <$> l) = Some ws →
  sees m (Position m) (concat ws) → BufferSize m = Position m + zlen (concat ws) →
  Forall (λ pe, element_ok pe false) l → rm_Memory m = [] → rm_PoolElementPtrArraySize m = Z.of_nat n →
  Z.of_nat (n + length l) <= MAX_MAX_HANDLE_RESOLUTION_ITEMS → (n + length l <= length (rm_PoolElementPtrArray m))%nat →
  (length l <= fuel)%nat →
  ∃ m', scanPoolElements fuel true m = Some (true, m') ∧ Position m' = BufferSize m ∧ same_response m m' ∧
    rm_PoolElementPtrArraySize m' = Z.of_nat (n + length l) ∧
    take (n + length l) (rm_PoolElementPtrArray m') =
      take n (rm_PoolElementPtrArray m) ++ ((λ pe, Some (received_element pe false)) <$> l).
Proof.
  induction l as [|pe l IH]; intros fuel m ws n Hws Hs Hend Hok Hmem Hsize Hmax Harr Hfuel.
  - injection Hws as <-. cbn [concat] in Hend. rewrite zlen_nil, Z.add_0_r in Hend. exists m. rewrite Nat.add_0_r, app_nil_r.
    split; [|repeat (split; [done|]); done].
    destruct fuel; cbn [scanPoolElements]; run; by rewrite (proj2 (Z.ltb_ge (Position m) _)) by lia.
  - change (Some <$> pe :: l) with (Some pe :: (Some <$> l)) in Hws.
    apply mapM_cons_Some in Hws as (w & ws' & Hw & Hws & ->). apply elementPart_Some in Hw.
    change (concat (w :: ws')) with (w ++ concat ws') in *. apply sees_app in Hs as [Hs1 Hs2]. rewrite zlen_app in Hend.
    inversion_clear Hok as [|? ? Hpe Hl]. cbn [length] in Hmax, Harr, Hfuel. destruct fuel as [|fuel]; [lia|].
    pose proof (elementWire_size _ _ _ Hw). pose proof (zlen_nonneg (concat ws')).
    set (arr := <[n := Some (received_element pe false)]> (rm_PoolElementPtrArray m)).
    set (m2 := rm_set_PoolElementPtrArraySize (Z.of_nat (S n)) (rm_set_PoolElementPtrArray arr
      (goto m (Position m + zlen w) (cleared (rm_Status m))))).
    destruct (IH fuel m2 ws' (S n)) as (m' & Hrun & Hp & Hsame & Hsz & Htake); [done|exact Hs2| |done|done|done|lia| |lia|].
    + change (BufferSize m2) with (BufferSize m). change (Position m2) with (Position m + zlen w). lia.
    + change (rm_PoolElementPtrArray m2) with arr. unfold arr. rewrite length_insert. lia.
    + exists m'. replace (n + length (pe :: l))%nat with (S n + length l)%nat by (cbn [length]; lia).
      split; [|split; [exact Hp|]]; [|split; [exact Hsame|]]; [|split; [exact Hsz|]].
      * cbn [scanPoolElements]. run. rewrite (proj2 (Z.ltb_lt (Position m) _)) by lia.
        rewrite (proj2 (Z.leb_gt _ (rm_PoolElementPtrArraySize m))) by lia.
        run_by ltac:(by apply (scan_element m pe false w)).
        run_by ltac:(unfold storePoolElementPtr; reflexivity). cbn [bool_decide andb]. run.
        rewrite <- Hrun. f_equal. unfold m2, arr. cbn -[Z.of_nat goto].
        change (rm_PoolElementPtrArraySize (goto m _ _)) with (rm_PoolElementPtrArraySize m). rewrite Hsize, Nat2Z.id.
        by replace (Z.of_nat n + 1) with (Z.of_nat (S n)) by lia.
      * rewrite Htake. change (rm_PoolElementPtrArray m2) with arr. unfold arr.
        rewrite (take_S_r _ n (Some (received_element pe false))).
        -- rewrite take_insert_ge by lia. rewrite <- app_assoc. done.
        -- apply list_lookup_insert_eq. lia.
Qed.

(** C30: The response to a handle resolution arrives as it was sent: with
    an error code, or with the pool's policy and every element in the order
    chosen by the registrar. *)
Theorem resolutionResponse_transmitted m flags ppid body l : rm_Type m = AHT_HANDLE_RESOLUTION_RESPONSE →
  transmittable m flags ppid body → is_u16 (Error m) → pps_wf (rm_PolicySettings m) →
  pointedElements m = Some <$> l → Forall (λ pe, element_ok pe false) l →
  ∃ m', received m = Some (RSPERR_OKAY, Some m') ∧ Error m' = Error m ∧ rm_Type m' = AHT_HANDLE_RESOLUTION_RESPONSE ∧
    rm_Handle m' = rm_Handle m ∧
    (Error m = RSPERR_OKAY → rm_PolicySettings m' = wirePolicy (rm_PolicySettings m) ∧
       rm_PoolElementPtrArraySize m' = Z.of_nat (length l) ∧
       pointedElements m' = (λ pe, Some (received_element pe false)) <$> l).
Proof.
  intros Ht Hm He Hpps Hl Hok. pose proof Hm as (_ & Hb & _ & Hlen). pose proof (bodyWire_aligned _ _ _ _ Hb) as Ha.
  body_of Ht Hb. apply handlePart_Some in Hx as [Hh ->].
  apply (transmit_run m _ PPID_ASAP _ _ _ _ Hm); [done|by rewrite Ht|done|]. intros m0 Har Hs.
  pose proof (opened_size _ _ _ _ _ Har) as Hend. rewrite Ht in *.
  set (m1 := opened AHT_HANDLE_RESOLUTION_RESPONSE 0 m0) in *. change 4 with (Position m1) in Hs at 1.
  apply sees_app in Hs as [Hs1 Hs]. rewrite !zlen_app in *.
  pose proof (scan_handle m1 _ Hs1 Hh) as Hr1. set (m2 := rm_set_Handle _ _) in Hr1. pose proof (zlen_nonneg (handleWire (rm_Handle m))).
  change (scannerOf AHT_HANDLE_RESOLUTION_RESPONSE) with (scanHandleResolutionResponseMessage : M Msg bool).
  unfold scanHandleResolutionResponseMessage. rewrite (andThen_true _ _ _ _ Hr1). clear Hr1.
  destruct (Z.eqb_spec (Error m) 0) as [Hz|Hnz].
  - split_part Hx0. rewrite !zlen_app in *.
    match goal with H : elementsPart _ = Some _ |- _ => apply fmap_Some in H as (ws & Hws & ->) end.
    match goal with H : policyWire _ = Some ?y |- _ => rename H into Hpol, y into wp end.
    destruct (scan_no_error m2 (rm_PolicySettings m) wp) as (st & Hr2 & Hcode);
      [by apply sees_app in Hs as [Hs _]|done|]. set (m3 := goto m2 _ st) in Hr2.
    apply sees_app in Hs as [Hs2 Hs3].
    pose proof (scan_policy m3 _ _ Hs2 Hpol Hpps) as Hr3. set (m4 := goto m3 _ _) in Hr3.
    set (m5 := rm_set_PoolElementPtrArraySize 0 (rm_set_PolicySettings (wirePolicy (rm_PolicySettings m)) m4)).
    assert (HM : MAX_MAX_HANDLE_RESOLUTION_ITEMS = 128) by done.
    assert (Hlen5 : (length l <= Z.to_nat MAX_MAX_HANDLE_RESOLUTION_ITEMS)%nat).
    { apply (f_equal length) in Hl. rewrite length_fmap in Hl. unfold pointedElements in Hl. rewrite length_take in Hl. lia. }
    rewrite Hl in Hws.
    destruct (scan_elements l (S (Z.to_nat MAX_MAX_HANDLE_RESOLUTION_ITEMS)) m5 ws 0) as (m' & Hr5 & Hp & Hsame & Hsz & Htake);
      [done|exact Hs3| |done|exact (ar_Memory _ _ _ _ Har)|done|lia| |lia|].
    + change (BufferSize m5) with (BufferSize m1).
      change (Position m5) with (4 + zlen (handleWire (rm_Handle m)) + zlen wp). lia.
    + change (rm_PoolElementPtrArray m5) with (rm_PoolElementPtrArray m0). by rewrite (ar_Array _ _ _ _ Har), length_replicate.
    + destruct Hsame as (HB & HS & HT & HH & HPol & HC). exists m'. split; [|split; [|split; [exact HB|split; [exact HS|]]]].
      * run_by ltac:(exact Hr2). cbn [negb]. erewrite andThen_true; [|unfold scanPolicySettings; run_by ltac:(exact Hr3); reflexivity].
        unfold scanPoolElementArray. run. exact Hr5.
      * rewrite Hp. change (BufferSize m5) with (BufferSize m1). lia.
      * change (Error (finished m')) with (ms_OperationErrorCode (rm_Status m')).
        change (rm_Type (finished m')) with (rm_Type m'). change (rm_Handle (finished m')) with (rm_Handle m').
        change (rm_PolicySettings (finished m')) with (rm_PolicySettings m').
        change (pointedElements (finished m')) with (pointedElements m').
        change (rm_PoolElementPtrArraySize (finished m')) with (rm_PoolElementPtrArraySize m').
        rewrite HC, HT, HH, HPol. split; [by rewrite Hz|]. split; [done|]. split; [done|]. intros _. split; [done|].
        split; [done|]. unfold pointedElements. rewrite Hsz, Nat2Z.id. exact Htake.
  - apply provided_Some in Hx0 as (_ & <-). eexists. split; [|split; [|split; [|split]]].
    + run_by ltac:(eapply (scan_error m2); [exact Hs|done|]); [|reflexivity].
      unfold errorWire in Hlen. rewrite zlen_tlv in Hlen. autorewrite with zlen in Hlen.
      pose proof (padding_range (4 + (2 + (2 + zlen (errorData m))))). lia.
    + change (Position m2) with (4 + zlen (handleWire (rm_Handle m))). cbn -[errorWire Z.add]. lia.
    + done.
    + done.
    + split; [done|]. split; [done|]. split; [done|]. intros HE. done.
Qed.

(** A presence arrives with the registrars, the reply flag, the
    checksum of the handlespace and the description of its sender, when
    both ends have the same byte order (the checksum is not converted). *)
Theorem presence_transmitted m flags ppid body n : rm_Type m = EHT_PRESENCE → transmittable m flags ppid body →
  rm_PeerListNodePtr m = Some n → peer_ok n → is_u16 (rm_Checksum m) → is_u32 (rm_SenderID m) → is_u32 (rm_ReceiverID m) →
  ∃ m', received m = Some (RSPERR_OKAY, Some m') ∧ Error m' = RSPERR_OKAY ∧ rm_Type m' = EHT_PRESENCE ∧
    rm_Flags m' = Z.land (rm_Flags m) EHF_PRESENCE_REPLY_REQUIRED ∧
    rm_SenderID m' = rm_SenderID m ∧ rm_ReceiverID m' = rm_ReceiverID m ∧ rm_Checksum m' = rm_Checksum m ∧
    rm_PeerListNodePtr m' = Some (received_peer n).
Proof.
  intros Ht Hm Hn Hok Hc Hsnd Hrcv. pose proof Hm as (_ & Hb & _). pose proof (bodyWire_aligned _ _ _ _ Hb) as Ha.
  body_of Ht Hb. unfold serverInfoPart in Hx. rewrite Hn in Hx. cbn [mbind option_bind] in Hx. split_part Hx.
  match goal with H : serverInfoWire _ = Some ?y |- _ => rename H into Hw, y into w end.
  apply (transmit_run m _ PPID_ENRP _ _ _ _ Hm); [apply land_1_u8|by rewrite Ht|done|]. intros m0 Har Hs.
  rewrite Ht in *. set (f := Z.land (rm_Flags m) _) in *. set (m1 := opened EHT_PRESENCE f m0) in *.
  change (scannerOf EHT_PRESENCE) with (scanPresenceMessage : M Msg bool). unfold scanPresenceMessage.
  rewrite (scan_server m1 (rm_SenderID m) (rm_ReceiverID m) _ _ Hs) by done. set (m2 := rm_set_ReceiverID _ _).
  apply sees_app in Hs as [_ Hs]. apply sees_app in Hs as [Hs1 Hs2].
  pose proof (scan_checksum m2 _ Hs1 Hc) as Hr1. set (m3 := rm_set_Checksum _ _) in Hr1.
  eexists. split; [|split].
  - rewrite (andThen_true _ _ _ _ Hr1). run_by ltac:(eapply (scan_serverInfo m3 n w); [exact Hs2|done|done|exact (ar_Memory _ _ _ _ Har)]).
    run. reflexivity.
  - rewrite !zlen_app. change (Position m3) with (4 + 8 + zlen (checksumWire (rm_Checksum m))).
    change (zlen (serverParameter m)) with 8. cbn -[checksumWire Z.add]. lia.
  - done.
Qed.

(** The three messages of a takeover arrive with the registrars and
    the target sent. *)
Theorem takeover_transmitted m flags ppid body : rm_Type m ∈ [EHT_INIT_TAKEOVER; EHT_INIT_TAKEOVER_ACK; EHT_TAKEOVER_SERVER] →
  transmittable m flags ppid body → is_u32 (rm_SenderID m) → is_u32 (rm_ReceiverID m) → is_u32 (rm_RegistrarIdentifier m) →
  ∃ m', received m = Some (RSPERR_OKAY, Some m') ∧ Error m' = RSPERR_OKAY ∧ rm_Type m' = rm_Type m ∧
    rm_SenderID m' = rm_SenderID m ∧ rm_ReceiverID m' = rm_ReceiverID m ∧
    rm_RegistrarIdentifier m' = rm_RegistrarIdentifier m.
Proof.
  intros Ht Hm Hsnd Hrcv Htgt. pose proof Hm as (_ & Hb & _). pose proof (bodyWire_aligned _ _ _ _ Hb) as Ha.
  assert (flags = 0 ∧ ppid = PPID_ENRP ∧ body = targetParameter m ∧ scannerOf (rm_Type m) = (withFixedPart 12 scanTarget : M Msg bool))
    as (-> & -> & -> & Hscan).
  { rewrite !elem_of_cons in Ht. destruct Ht as [Ht|[Ht|[Ht|[]%not_elem_of_nil]]]; body_of Ht Hb; by rewrite Ht. }
  apply (transmit_run m 0 PPID_ENRP _ _ _ _ Hm); [done| |done|].
  { rewrite !elem_of_cons in Ht. by destruct Ht as [->|[->|[->|[]%not_elem_of_nil]]]. }
  intros m0 Har Hs. rewrite Hscan. eexists. split; [|split].
  - by apply (scan_target (opened (rm_Type m) 0 m0)).
  - done.
  - done.
Qed.

(** The requests for a peer list and for a handle table arrive with
    the registrars sent; that for a handle table also with its flag. *)
Theorem request_transmitted m flags ppid body : rm_Type m ∈ [EHT_LIST_REQUEST; EHT_HANDLE_TABLE_REQUEST] →
  transmittable m flags ppid body → is_u32 (rm_SenderID m) → is_u32 (rm_ReceiverID m) →
  ∃ m', received m = Some (RSPERR_OKAY, Some m') ∧ Error m' = RSPERR_OKAY ∧ rm_Type m' = rm_Type m ∧
    rm_SenderID m' = rm_SenderID m ∧ rm_ReceiverID m' = rm_ReceiverID m ∧
    (rm_Type m = EHT_HANDLE_TABLE_REQUEST → rm_Flags m' = Z.land (rm_Flags m) EHF_HANDLE_TABLE_REQUEST_OWN_CHILDREN_ONLY).
Proof.
  intros Ht Hm Hsnd Hrcv. pose proof Hm as (_ & Hb & _). pose proof (bodyWire_aligned _ _ _ _ Hb) as Ha.
  assert (is_u8 flags ∧ ppid = PPID_ENRP ∧ body = serverParameter m ∧
    (rm_Type m = EHT_HANDLE_TABLE_REQUEST → flags = Z.land (rm_Flags m) EHF_HANDLE_TABLE_REQUEST_OWN_CHILDREN_ONLY) ∧
    scannerOf (rm_Type m) = (withFixedPart 8 (λ sp, scanServerIDs sp;; mret true) : M Msg bool)) as (Hf & -> & -> & Hown & Hscan).
  { rewrite !elem_of_cons in Ht. destruct Ht as [Ht|[Ht|[]%not_elem_of_nil]]; body_of Ht Hb; rewrite Ht; [done|].
    split; [apply land_1_u8|done]. }
  apply (transmit_run m flags PPID_ENRP _ _ _ _ Hm); [done| |done|].
  { rewrite !elem_of_cons in Ht. by destruct Ht as [->|[->|[]%not_elem_of_nil]]. }
  intros m0 Har Hs. rewrite Hscan. rewrite <- (app_nil_r (serverParameter m)) in Hs. eexists. split; [|split].
  - rewrite (scan_server (opened (rm_Type m) flags m0) (rm_SenderID m) (rm_ReceiverID m) (mret true) []); done.
  - done.
  - done.
Qed.

(** ** Messages that do not arrive *)

Lemma andThen_None (c k : M Msg bool) m : c m = None → (c >>> k) m = None.
Proof. intros Hc. unfold andThen, mbind, M_bind. by rewrite Hc. Qed.


(** A message whose scanner stops before the end of the packet. *)
Lemma checkFinishMessage_short type flags body m' : 4 + zlen body < 65536 → zlen body mod 4 = 0 →
  let w := packet type flags body in
  Position m' < zlen w → Error m' = RSPERR_OKAY → Buffer m' = w → BufferSize m' = zlen w →
  checkFinishMessage 0 m' = Some (false, on_Status (ms_set_Error RSPERR_INVALID_MESSAGE) m').
Proof.
  intros Hlen Ha w Hp HE HB Hsz. pose proof (zlen_nonneg body).
  assert (Hzw : zlen w = 4 + zlen body) by apply zlen_packet.
  assert (Hs : sees m' 0 w).
  { split; [done|]. rewrite Hsz, HB. cbn [Z.to_nat drop]. rewrite take_ge by done. repeat split; lia. }
  unfold w, packet in Hs. apply sees_app in Hs as [_ Hs]. apply sees_app in Hs as [Hl _].
  unfold checkFinishMessage. run_by ltac:(eapply (sees_ntohs m' _ (4 + zlen body)); [exact Hl|unfold in_width; lia]). run.
  assert (Hpad : getPadding (0 + (4 + zlen body)) 4 = 0).
  { unfold getPadding. rewrite Z.add_0_l, Z.add_mod, Ha by lia. done. }
  rewrite Hpad. replace (Position m' =? 0 + (4 + zlen body) + 0) with false by (symmetry; apply Z.eqb_neq; lia).
  rewrite HE. cbn [negb Z.eqb RSPERR_OKAY]. run. reflexivity.
Qed.

(** C31: A cookie arrives, but only a cookie whose size is a multiple of
    four does so without an error: the scanner does not skip the padding,
    so that the receiver takes any other cookie for an invalid message. *)
Theorem cookie_transmitted m flags ppid body cookie : rm_Type m ∈ [AHT_COOKIE; AHT_COOKIE_ECHO] →
  transmittable m flags ppid body → rm_CookiePtr m = Some cookie → 0 < zlen cookie →
  ∃ m', received m = Some (RSPERR_OKAY, Some m') ∧ rm_Type m' = rm_Type m ∧ rm_CookiePtr m' = Some cookie ∧
    rm_CookieSize m' = zlen cookie ∧
    Error m' = if zlen cookie mod 4 =? 0 then RSPERR_OKAY else RSPERR_INVALID_MESSAGE.
Proof.
  intros Ht Hm Hck Hpos. pose proof Hm as (_ & Hb & _ & Hlen). pose proof (bodyWire_aligned _ _ _ _ Hb) as Ha.
  assert (flags = 0 ∧ ppid = PPID_ASAP ∧ body = cookieWire cookie ∧ scannerOf (rm_Type m) = (scanCookieParameter : M Msg bool))
    as (-> & -> & -> & Hscan).
  { rewrite !elem_of_cons in Ht. destruct Ht as [Ht|[Ht|[]%not_elem_of_nil]]; body_of Ht Hb; unfold cookiePart in Hb;
      rewrite Hck in Hb; cbn [mbind option_bind] in Hb; split_part Hb; by rewrite Ht. }
  assert (Htype : (modifier ← modifierOf PPID_ASAP; Some (Z.lor (Z.land (rm_Type m) 255) modifier)) = Some (rm_Type m)).
  { rewrite !elem_of_cons in Ht. by destruct Ht as [->|[->|[]%not_elem_of_nil]]. }
  pose proof (zlen_tlv ATT_COOKIE cookie) as Hzl. fold (cookieWire cookie) in Hzl. pose proof (padding_range (4 + zlen cookie)).
  apply (transmit_scan m 0 PPID_ASAP _ _ _ _ Hm); [done..|]. intros m0 Har.
  pose proof (opened_sees m 0 PPID_ASAP _ _ Hm m0 Har) as Hs. rewrite Hscan.
  set (m1 := opened (rm_Type m) 0 m0) in *.
  pose proof (scan_cookie m1 cookie Hs Hpos ltac:(lia) (ar_Memory _ _ _ _ Har)) as Hr. rewrite (andThen_true _ _ _ _ Hr).
  set (m2 := rm_set_CookieSize _ _) in *. assert (Hp2 : Position m2 = 4 + 4 + zlen cookie) by done.
  assert (HB : Buffer m2 = packet (rm_Type m) 0 (cookieWire cookie)) by apply (ar_Buffer _ _ _ _ Har).
  assert (HS : BufferSize m2 = zlen (packet (rm_Type m) 0 (cookieWire cookie))) by apply (ar_BufferSize _ _ _ _ Har).
  assert (Hpad : (zlen cookie mod 4 =? 0) = (getPadding (4 + zlen cookie) 4 =? 0)).
  { unfold getPadding. replace ((4 + zlen cookie) mod 4) with (zlen cookie mod 4)
      by (rewrite Z.add_mod by done; change (4 mod 4) with 0; by rewrite Z.add_0_l, Z.mod_mod).
    pose proof (Z.mod_pos_bound (zlen cookie) 4 eq_refl). destruct (Z.eqb_spec (zlen cookie mod 4) 0) as [->|Hnz]; [done|].
    symmetry. apply Z.eqb_neq. destruct (Z.eqb_spec (4 - zlen cookie mod 4) 4); lia. }
  rewrite Hpad. destruct (Z.eqb_spec (getPadding (4 + zlen cookie) 4) 0) as [Hz|Hnz].
  - exists true. eexists. split; [apply (checkFinishMessage_run (rm_Type m) 0 (cookieWire cookie)); [lia|done| |done|done]|done].
    rewrite Hp2, zlen_packet. lia.
  - exists false. eexists. split; [apply (checkFinishMessage_short (rm_Type m) 0 (cookieWire cookie)); [lia|done| |done|done|done]|done].
    rewrite Hp2, zlen_packet. lia.
Qed.

(** Where a policy stands, there is no pool handle. *)
Lemma scan_no_handle m pps w : sees m (Position m) w → policyWire pps = Some w → ∃ st,
  scanPoolHandleParameter m = Some (false, goto m (Position m) (ms_set_Error RSPERR_UNRECOGNIZED_PARAMETER_SILENT st)).
Proof.
  intros Hs Hw. pose proof (policyWire_size _ _ Hw) as Hl. unfold policyWire in Hw. apply fmap_Some in Hw as (fields & Hf & ->).
  rewrite zlen_tlv in Hl. pose proof (padding_range (4 + zlen (policyBytes pps fields))). eexists.
  unfold scanPoolHandleParameter. run_by ltac:(eapply checkBeginTLV_other; [exact Hs|split; [done|lia]|done|done]). reflexivity.
Qed.

(** C32: No business card is accepted: the scanner wants the pool handle
    twice, so that every business card that can be sent is rejected with
    [RSPERR_UNRECOGNIZED_PARAMETER_SILENT]. *)
Theorem businessCard_rejected m flags ppid body : rm_Type m = AHT_BUSINESS_CARD → transmittable m flags ppid body →
  ∃ m', received m = Some (RSPERR_OKAY, Some m') ∧ rm_Type m' = AHT_BUSINESS_CARD ∧
    Error m' = RSPERR_UNRECOGNIZED_PARAMETER_SILENT.
Proof.
  intros Ht Hm. pose proof Hm as (_ & Hb & _ & Hlen).
  body_of Ht Hb. apply handlePart_Some in Hx as [Hh ->].
  match goal with H : policyWire _ = Some ?y |- _ => rename H into Hpol, y into wp end.
  apply (transmit_scan m 0 PPID_ASAP _ _ _ _ Hm); [done|by rewrite Ht|]. intros m0 Har.
  pose proof (opened_sees m 0 PPID_ASAP _ _ Hm m0 Har) as Hs. rewrite Ht in *.
  set (m1 := opened AHT_BUSINESS_CARD 0 m0) in *. change 4 with (Position m1) in Hs at 1.
  apply sees_app in Hs as [Hs1 Hs]. apply sees_app in Hs as [Hs2 _].
  pose proof (scan_handle m1 _ Hs1 Hh) as Hr1. set (m2 := rm_set_Handle _ _) in Hr1.
  destruct (scan_no_handle m2 _ _ Hs2 Hpol) as (st & Hr2). exists false. eexists. split; [|split].
  - change (scannerOf AHT_BUSINESS_CARD) with (scanBusinessCardMessage : M Msg bool). apply andThen_false.
    unfold scanBusinessCardMessage. rewrite (andThen_true _ _ _ _ Hr1). apply andThen_false. exact Hr2.
  - done.
  - done.
Qed.

(** The error code of an ASAP error arrives, and so do the bytes that
    describe it; but the pointer to them given to the receiver is that of
    the cause, four bytes before. *)
Theorem error_transmitted m flags ppid body : rm_Type m = AHT_ERROR → transmittable m flags ppid body → is_u16 (Error m) →
  ∃ m', received m = Some (RSPERR_OKAY, Some m') ∧ Error m' = Error m ∧ rm_Type m' = AHT_ERROR ∧
    ms_OperationErrorLength (rm_Status m') = zlen (errorData m) ∧
    take (length (errorData m)) (drop 12 (Buffer m')) = errorData m ∧
    ms_OperationErrorData (rm_Status m') = Some (12 - 4).
Proof.
  intros Ht Hm He. pose proof Hm as (_ & Hb & _ & Hlen). pose proof (bodyWire_aligned _ _ _ _ Hb) as Ha.
  body_of Ht Hb. unfold errorPart in Hb. split_part Hb.
  apply (transmit_run m 0 PPID_ASAP _ _ _ _ Hm); [done|by rewrite Ht|done|]. intros m0 Har Hs. rewrite Ht in *.
  set (m1 := opened AHT_ERROR 0 m0) in *. pose proof Hlen as Hlen'. unfold errorWire in Hlen'. rewrite zlen_tlv in Hlen'.
  autorewrite with zlen in Hlen'. pose proof (padding_range (4 + (2 + (2 + zlen (errorData m))))).
  pose proof (scan_error m1 (Error m) (errorData m) Hs He ltac:(lia)) as Hr. eexists. split; [exact Hr|].
  split; [done|]. split; [done|]. split; [done|]. split; [done|]. split; [done|]. split; [done|]. split; [|done].
  unfold errorWire in Hs. apply sees_tlv in Hs as (_ & _ & Hs). apply sees_app in Hs as [_ Hs]. apply sees_app in Hs as [_ Hs].
  destruct Hs as (_ & _ & _ & _ & Hs). exact Hs.
Qed.

End theorems.

(** ** Concrete messages *)

Module Packets.
#[export] Existing Instance ListStorage.list_storage.
#[export] Instance packets_endian : Endian := true.
Abbreviation Message := (RSerPoolMessage ListStorage.storage).

Definition handle : PoolHandle := MkPoolHandle 3 [65; 66; 67].
Definition block : TransportAddressBlock := MkTAB IPPROTO_SCTP 80 0 [sockaddr_in [10; 0; 0; 1] 80; sockaddr_in [10; 0; 0; 2] 80].
Definition settings : PoolPolicySettings := MkPPS PPT_WEIGHTED_ROUNDROBIN 2 0 0 0 0 0.
Definition element : PoolElementNode := poolElementNodeNew 7 9 30000 settings block None (-1) 0.
Definition ownedElement : PoolElementNode := poolElementNodeNew 7 9 30000 settings block (Some block) (-1) 0.
Definition peer : PeerListNode := peerListNodeNew 11 PLNF_DYNAMIC (Some block).

Definition new (type : Z) : Message := rm_set_Handle handle (rm_set_Type type (rserpoolMessageNew (replicate 256 0) 256)).
Definition between (m : Message) : Message := rm_set_ReceiverID 4 (rm_set_SenderID 3 m).

Definition registration : Message := rm_set_PoolElementPtr (Some element) (new AHT_REGISTRATION).
Definition update : Message := rm_set_PoolElementPtr (Some ownedElement) (rm_set_Action 1 (between (new EHT_HANDLE_UPDATE))).
Definition deregistration : Message := rm_set_Identifier 7 (new AHT_DEREGISTRATION).
Definition refusal : Message :=
  on_Status (ms_set_Error RSPERR_NOT_FOUND) (rm_set_Identifier 7 (new AHT_DEREGISTRATION_RESPONSE)).
Definition resolution : Message := rm_set_Addresses 5 (new AHT_HANDLE_RESOLUTION).
Definition keepAlive : Message := rm_set_RegistrarIdentifier 9 (rm_set_Identifier 7 (new AHT_ENDPOINT_KEEP_ALIVE)).
Definition answer : Message := rm_set_PolicySettings settings
  (rm_set_PoolElementPtrArraySize 1 (rm_set_PoolElementPtrArray [Some element] (new AHT_HANDLE_RESOLUTION_RESPONSE))).
Definition presence : Message := rm_set_Checksum 4660 (rm_set_PeerListNodePtr (Some peer) (between (new EHT_PRESENCE))).
Definition takeover : Message := rm_set_RegistrarIdentifier 5 (between (new EHT_INIT_TAKEOVER)).
Definition listRequest : Message := between (new EHT_LIST_REQUEST).
Definition cookie : Message := rm_set_CookieSize 5 (rm_set_CookiePtr (Some [1; 2; 3; 4; 5]) (new AHT_COOKIE)).
Definition businessCard : Message := rm_set_PolicySettings settings
  (rm_set_PoolElementPtrArraySize 1 (rm_set_PoolElementPtrArray [Some element] (new AHT_BUSINESS_CARD))).
Definition complaint : Message := rm_set_ErrorCauseParameterTLVLength 4 (rm_set_ErrorCauseParameterTLV (Some [1; 2; 3; 4])
  (on_Status (ms_set_Error RSPERR_INVALID_VALUE) (new AHT_ERROR))).

Definition flagsOf (m : Message) : Z := default 0 ((λ b, b.1.1) <$> bodyWire m).
Definition ppidOf (m : Message) : Z := default 0 ((λ b, b.1.2) <$> bodyWire m).
Definition bodyOf (m : Message) : list Z := default [] ((λ b, b.2) <$> bodyWire m).
End Packets.

#[local] Existing Instances ListStorage.list_storage Packets.packets_endian.

#[local] Instance transmittable_dec (m : Packets.Message) flags ppid body : Decision (transmittable m flags ppid body).
Proof. unfold transmittable. apply _. Defined.

(** Decides a hypothesis on a concrete message. *)
Ltac by_computation := apply (bool_decide_unpack _); vm_compute; exact I.

Lemma message2packet_wire_witness :
  let w := packet AHT_REGISTRATION 0 (Packets.bodyOf Packets.registration) in
  zlen w mod 4 = 0 ∧ ∃ m', rserpoolMessage2Packet Packets.registration = Some (zlen w, m') ∧ rm_PPID m' = PPID_ASAP.
Proof.
  destruct (message2packet_wire Packets.registration (Packets.flagsOf Packets.registration) PPID_ASAP
    (Packets.bodyOf Packets.registration)) as (H1 & H2 & _); [by_computation|by_computation|].
  split; [exact H1|]. destruct H2 as (m' & H2 & H3 & _); [by_computation|]. exists m'. split; [exact H2|exact H3].
Defined.

Lemma registration_transmitted_witness : ∃ m', transmit Packets.registration None 0 0 = Some (RSPERR_OKAY, Some m') ∧
  rm_Handle m' = Packets.handle ∧ rm_PoolElementPtr m' = Some (received_element Packets.element false).
Proof.
  destruct (registration_transmitted None 0 0 Packets.registration (Packets.flagsOf Packets.registration) PPID_ASAP
    (Packets.bodyOf Packets.registration) Packets.element) as (m' & H1 & _ & _ & H2 & H3);
    [reflexivity|by_computation|reflexivity|reflexivity|by_computation|]. exists m'. split; [exact H1|]. split; [exact H2|exact H3].
Defined.

Lemma handleUpdate_transmitted_witness : ∃ m', transmit Packets.update None 0 0 = Some (RSPERR_OKAY, Some m') ∧ rm_Action m' = 1 ∧ rm_Handle m' = Packets.handle.
Proof.
  destruct (handleUpdate_transmitted None 0 0 Packets.update (Packets.flagsOf Packets.update) (Packets.ppidOf Packets.update)
    (Packets.bodyOf Packets.update) Packets.ownedElement) as (m' & H1 & _ & _ & _ & _ & _ & H2 & H3 & _); [reflexivity|by_computation|reflexivity|by_computation|by_computation|by_computation|by_computation|]. exists m'. split; [exact H1|]. split; [exact H2|exact H3].
Defined.

Lemma handleAndIdentifier_transmitted_witness : ∃ m', transmit Packets.deregistration None 0 0 = Some (RSPERR_OKAY, Some m') ∧ rm_Handle m' = Packets.handle ∧ rm_Identifier m' = 7.
Proof.
  destruct (handleAndIdentifier_transmitted None 0 0 Packets.deregistration (Packets.flagsOf Packets.deregistration) (Packets.ppidOf Packets.deregistration)
    (Packets.bodyOf Packets.deregistration)) as (m' & H1 & _ & _ & H2 & H3); [by_computation|by_computation|by_computation|]. exists m'. split; [exact H1|]. split; [exact H2|exact H3].
Defined.

Lemma response_transmitted_witness : ∃ m', transmit Packets.refusal None 0 0 = Some (RSPERR_OKAY, Some m') ∧ Error m' = RSPERR_NOT_FOUND ∧ rm_Identifier m' = 7.
Proof.
  destruct (response_transmitted None 0 0 Packets.refusal (Packets.flagsOf Packets.refusal) (Packets.ppidOf Packets.refusal)
    (Packets.bodyOf Packets.refusal)) as (m' & H1 & H2 & _ & _ & H3 & _); [by_computation|by_computation|by_computation|by_computation|]. exists m'. split; [exact H1|]. split; [exact H2|exact H3].
Defined.

Lemma handleResolution_transmitted_witness : ∃ m', transmit Packets.resolution None 0 0 = Some (RSPERR_OKAY, Some m') ∧ rm_Handle m' = Packets.handle ∧ rm_Addresses m' = 5.
Proof.
  destruct (handleResolution_transmitted None 0 0 Packets.resolution (Packets.flagsOf Packets.resolution) (Packets.ppidOf Packets.resolution)
    (Packets.bodyOf Packets.resolution)) as (m' & H1 & _ & _ & H2 & H3); [reflexivity|by_computation|by_computation|]. exists m'. split; [exact H1|]. split; [exact H2|exact H3].
Defined.

Lemma keepAlive_transmitted_witness : ∃ m', transmit Packets.keepAlive None 0 0 = Some (RSPERR_OKAY, Some m') ∧ rm_RegistrarIdentifier m' = 9 ∧ rm_Identifier m' = 7.
Proof.
  destruct (keepAlive_transmitted None 0 0 Packets.keepAlive (Packets.flagsOf Packets.keepAlive) (Packets.ppidOf Packets.keepAlive)
    (Packets.bodyOf Packets.keepAlive)) as (m' & H1 & _ & _ & _ & H2 & _ & H3); [reflexivity|by_computation|by_computation|by_computation|]. exists m'. split; [exact H1|]. split; [exact H2|exact H3].
Defined.

Lemma resolutionResponse_transmitted_witness : ∃ m', transmit Packets.answer None 0 0 = Some (RSPERR_OKAY, Some m') ∧ pointedElements m' = [Some (received_element Packets.element false)].
Proof.
  destruct (resolutionResponse_transmitted None 0 0 Packets.answer (Packets.flagsOf Packets.answer) (Packets.ppidOf Packets.answer)
    (Packets.bodyOf Packets.answer) [Packets.element]) as (m' & H1 & _ & _ & _ & H2); [reflexivity|by_computation|by_computation|by_computation|reflexivity|by_computation|]. exists m'. split; [exact H1|]. destruct (H2 eq_refl) as (_ & _ & H3). exact H3.
Defined.

Lemma presence_transmitted_witness : ∃ m', transmit Packets.presence None 0 0 = Some (RSPERR_OKAY, Some m') ∧ rm_Checksum m' = 4660 ∧ rm_PeerListNodePtr m' = Some (received_peer Packets.peer).
Proof.
  destruct (presence_transmitted None 0 0 Packets.presence (Packets.flagsOf Packets.presence) (Packets.ppidOf Packets.presence)
    (Packets.bodyOf Packets.presence) Packets.peer) as (m' & H1 & _ & _ & _ & _ & _ & H2 & H3); [reflexivity|by_computation|reflexivity|by_computation|by_computation|by_computation|by_computation|]. exists m'. split; [exact H1|]. split; [exact H2|exact H3].
Defined.

Lemma takeover_transmitted_witness : ∃ m', transmit Packets.takeover None 0 0 = Some (RSPERR_OKAY, Some m') ∧ rm_RegistrarIdentifier m' = 5.
Proof.
  destruct (takeover_transmitted None 0 0 Packets.takeover (Packets.flagsOf Packets.takeover) (Packets.ppidOf Packets.takeover)
    (Packets.bodyOf Packets.takeover)) as (m' & H1 & _ & _ & _ & _ & H2); [by_computation|by_computation|by_computation|by_computation|by_computation|]. exists m'. split; [exact H1|exact H2].
Defined.

Lemma request_transmitted_witness : ∃ m', transmit Packets.listRequest None 0 0 = Some (RSPERR_OKAY, Some m') ∧ rm_SenderID m' = 3.
Proof.
  destruct (request_transmitted None 0 0 Packets.listRequest (Packets.flagsOf Packets.listRequest) (Packets.ppidOf Packets.listRequest)
    (Packets.bodyOf Packets.listRequest)) as (m' & H1 & _ & _ & H2 & _); [by_computation|by_computation|by_computation|by_computation|]. exists m'. split; [exact H1|exact H2].
Defined.

Lemma cookie_transmitted_witness : ∃ m', transmit Packets.cookie None 0 0 = Some (RSPERR_OKAY, Some m') ∧ Error m' = RSPERR_INVALID_MESSAGE.
Proof.
  destruct (cookie_transmitted None 0 0 Packets.cookie (Packets.flagsOf Packets.cookie) (Packets.ppidOf Packets.cookie)
    (Packets.bodyOf Packets.cookie) [1; 2; 3; 4; 5]) as (m' & H1 & _ & _ & _ & H2); [by_computation|by_computation|reflexivity|by_computation|]. exists m'. split; [exact H1|exact H2].
Defined.

Lemma businessCard_rejected_witness : ∃ m', transmit Packets.businessCard None 0 0 = Some (RSPERR_OKAY, Some m') ∧ Error m' = RSPERR_UNRECOGNIZED_PARAMETER_SILENT.
Proof.
  destruct (businessCard_rejected None 0 0 Packets.businessCard (Packets.flagsOf Packets.businessCard) (Packets.ppidOf Packets.businessCard)
    (Packets.bodyOf Packets.businessCard)) as (m' & H1 & _ & H2); [reflexivity|by_computation|]. exists m'. split; [exact H1|exact H2].
Defined.

Lemma error_transmitted_witness : ∃ m', transmit Packets.complaint None 0 0 = Some (RSPERR_OKAY, Some m') ∧ take 4 (drop 12 (Buffer m')) = [1; 2; 3; 4] ∧ ms_OperationErrorData (rm_Status m') = Some 8.
Proof.
  destruct (error_transmitted None 0 0 Packets.complaint (Packets.flagsOf Packets.complaint) (Packets.ppidOf Packets.complaint)
    (Packets.bodyOf Packets.complaint)) as (m' & H1 & _ & _ & _ & H2 & H3); [reflexivity|by_computation|by_computation|]. exists m'. split; [exact H1|]. split; [exact H2|exact H3].
Defined.

