(* ===== verification/PoolUsers.v ===== *)
(** * Pool users and their rates (timestamphashtable.c,
    poolusernode-template_impl.h, pooluserlist-template_impl.h,
    rspregistrar-security.c)

    A registrar can limit how often a pool user asks for the same pool: it
    keeps, per pool user and hash of the pool handle, the last time stamps
    of the requests, and refuses a request when their rate is above a
    threshold.  [stamps_bounded] says what the table keeps,
    [permission_spec] what the check decides. *)

From S2P Require Import Prelude Addresses PoolBasics Storage RedBlackTree RedBlackTreeStorage PoolPolicy HandlespaceState Message HandlespaceTheorems.
From Stdlib Require Import SpecFloat.
From stdpp Require Import base list gmap numbers option sorting.
#[local] Open Scope Z_scope.

(** ** Time stamps *)

(** The buckets hold up to [tsht_MaxEntries] time stamps each, the oldest
    first; [Buckets] is the length of the array. *)
Record TimeStampHashTable := MkTimeStampHashTable {
  tsht_MaxEntries : Z;
  tsht_BucketArray : list (list Z)
}.

(** [memory]: does [malloc] succeed? *)
Definition timeStampHashTableNew (memory : bool) (buckets maxEntries : Z) : option TimeStampHashTable :=
  if (buckets <? 1) || (maxEntries <? 1) then None
  else if memory then Some (MkTimeStampHashTable maxEntries (replicate (Z.to_nat buckets) []))
  else None.

Definition timeStampHashTableClear (t : TimeStampHashTable) : TimeStampHashTable :=
  MkTimeStampHashTable (tsht_MaxEntries t) ((λ _, []) <$> tsht_BucketArray t).

Definition bucketIndex (t : TimeStampHashTable) (hashValue : Z) : nat :=
  Z.to_nat (hashValue mod Z.of_nat (length (tsht_BucketArray t))).

(** A bucket with the new time stamp, or [None] if the order is violated. *)
Definition appendTimeStamp (maxEntries newTimeStamp : Z) (bucket : list Z) : option (list Z) :=
  if match last bucket with Some l => l <=? newTimeStamp | None => true end then
    if Z.of_nat (length bucket) <? maxEntries then Some (bucket ++ [newTimeStamp])
    else Some (drop 1 bucket ++ [newTimeStamp])
  else None.

(** [None] is a read outside of the array (a table without buckets). *)
Definition timeStampHashTableAddTimeStamp (t : TimeStampHashTable) (hashValue newTimeStamp : Z) :
    option (bool * TimeStampHashTable) :=
  let bucket := bucketIndex t hashValue in
  b ← tsht_BucketArray t !! bucket;
  match appendTimeStamp (tsht_MaxEntries t) newTimeStamp b with
  | Some b' => Some (true, MkTimeStampHashTable (tsht_MaxEntries t) (<[bucket := b']> (tsht_BucketArray t)))
  | None => Some (false, t)
  end.

(** Time stamps are [unsigned long long]s. *)
Definition bucketRate (b : list Z) : spec_float :=
  if (1 <? length b)%nat then
    let duration := u64 (default 0 (last b) - default 0 (head b)) in
    double_div (double_of_uint (Z.of_nat (length b))) (double_div (double_of_uint duration) (double_of_uint 1000000))
  else double_of_uint 0.

Definition timeStampHashTableGetRate (t : TimeStampHashTable) (hashValue : Z) : option spec_float :=
  b ← tsht_BucketArray t !! bucketIndex t hashValue;
  Some (bucketRate b).

(** ** Pool users *)

Record PoolUserNode := MkPoolUserNode {
  pun_ConnectionSocketDescriptor : Z;
  pun_ConnectionAssocID : Z;
  pun_HandleResolutionHash : option TimeStampHashTable;
  pun_EndpointUnreachableHash : option TimeStampHashTable
}.

Definition poolUserStorageNodeComparison (node1 node2 : PoolUserNode) : Z :=
  if pun_ConnectionAssocID node1 <? pun_ConnectionAssocID node2 then -1
  else if pun_ConnectionAssocID node2 <? pun_ConnectionAssocID node1 then 1
  else if pun_ConnectionSocketDescriptor node1 <? pun_ConnectionSocketDescriptor node2 then -1
  else if pun_ConnectionSocketDescriptor node2 <? pun_ConnectionSocketDescriptor node1 then 1
  else 0.

Definition poolUserNodeNew (connectionSocketDescriptor connectionAssocID : Z) : PoolUserNode :=
  MkPoolUserNode connectionSocketDescriptor connectionAssocID None None.

(** [+9e9] *)
Definition RATE_UNKNOWN : spec_float := double_of_uint 9000000000.

Definition TSHT_BUCKETS : Z := 64.
Definition TSHT_ENTRIES : Z := 16.

(** Both functions that note an event work on one of the two tables. *)
Definition noteEvent (memory : bool) (table : option TimeStampHashTable) (hash now buckets maxEntries : Z) :
    option (spec_float * option TimeStampHashTable) :=
  match (match table with Some t => Some t | None => timeStampHashTableNew memory buckets maxEntries end) with
  | None => Some (RATE_UNKNOWN, None)
  | Some t =>
      r ← timeStampHashTableAddTimeStamp t hash now;
      rate ← timeStampHashTableGetRate r.2 hash;
      Some (rate, Some r.2)
  end.

Section users.
Context {ST : Type} `{Storage ST} `{Endian}.

(** [pul_NextPoolUserNode] is the static variable of
    [registrarPoolUserHasPermissionFor]. *)
Record PoolUserList := MkPoolUserList {
  pul_PoolUserNodes : gmap ptr PoolUserNode;
  pul_PoolUserListStorage : ST;
  pul_NextPoolUserNode : option ptr
}.
Abbreviation PU := PoolUserList.

Definition user_get (p : ptr) : M PU PoolUserNode := deref (λ u, pul_PoolUserNodes u !! p).
Definition user_store (p : ptr) (n : PoolUserNode) : M PU () :=
  modify (λ u, MkPoolUserList (<[p := n]> (pul_PoolUserNodes u)) (pul_PoolUserListStorage u) (pul_NextPoolUserNode u)).
Definition user_next (next : option ptr) : M PU () :=
  modify (λ u, MkPoolUserList (pul_PoolUserNodes u) (pul_PoolUserListStorage u) next).

Definition poolUserNodeNoteHandleResolution (memory : bool) (poolUserNode : ptr) (poolHandle : PoolHandle)
    (now buckets maxEntries : Z) : M PU spec_float :=
  n ← user_get poolUserNode;
  r ← deref (λ _, noteEvent memory (pun_HandleResolutionHash n) (computePHPEHash poolHandle 0) now buckets maxEntries);
  user_store poolUserNode (MkPoolUserNode (pun_ConnectionSocketDescriptor n) (pun_ConnectionAssocID n) r.2
    (pun_EndpointUnreachableHash n));;
  mret r.1.

Definition poolUserNodeNoteEndpointUnreachable (memory : bool) (poolUserNode : ptr) (poolHandle : PoolHandle)
    (peIdentifier now buckets maxEntries : Z) : M PU spec_float :=
  n ← user_get poolUserNode;
  r ← deref (λ _, noteEvent memory (pun_EndpointUnreachableHash n) (computePHPEHash poolHandle peIdentifier) now buckets maxEntries);
  user_store poolUserNode (MkPoolUserNode (pun_ConnectionSocketDescriptor n) (pun_ConnectionAssocID n)
    (pun_HandleResolutionHash n) r.2);;
  mret r.1.

Definition userCmp (u : PU) (n : PoolUserNode) (q : ptr) : option Z :=
  poolUserStorageNodeComparison n <$> pul_PoolUserNodes u !! q.

(** The [Value] of a linked node is 1. *)
Definition userValue (p : ptr) : Z := 1.

Definition poolUserListNew : PU := MkPoolUserList ∅ ST_New None.

Definition poolUserListGetPoolUserNodes : M PU Z := gets (λ u, ST_GetElements (pul_PoolUserListStorage u)).
Definition poolUserListGetFirstPoolUserNode : M PU (option ptr) := gets (λ u, ST_GetFirst (pul_PoolUserListStorage u)).
Definition poolUserListGetNextPoolUserNode (p : ptr) : M PU (option ptr) := gets (λ u, ST_GetNext (pul_PoolUserListStorage u) p).

Definition poolUserListAddPoolUserNode (p : ptr) : M PU ptr := λ u,
  match pul_PoolUserNodes u !! p with
  | Some n =>
      if all_valid (userCmp u n) (st_list (pul_PoolUserListStorage u)) then
        match ST_Insert (λ q, default 0 (userCmp u n q)) userValue p (pul_PoolUserListStorage u) with
        | Some (r, s') => Some (r, MkPoolUserList (pul_PoolUserNodes u) s' (pul_NextPoolUserNode u))
        | None => None
        end
      else None
  | None => None
  end.

(** The node pointed to by the second argument is set to NULL if it is used. *)
Definition poolUserListAddOrUpdatePoolUserNode (p : ptr) : M PU ptr :=
  newPoolUserNode ← poolUserListAddPoolUserNode p;
  (if bool_decide (newPoolUserNode = p) then user_next None else mret tt);;
  mret newPoolUserNode.

Definition poolUserListFindPoolUserNode (connectionSocketDescriptor connectionAssocID : Z) : M PU (option ptr) := λ u,
  let n := poolUserNodeNew connectionSocketDescriptor connectionAssocID in
  if all_valid (userCmp u n) (st_list (pul_PoolUserListStorage u))
  then Some (ST_Find (λ q, default 0 (userCmp u n q)) (pul_PoolUserListStorage u), u) else None.

Definition poolUserListRemovePoolUserNode (p : ptr) : M PU ptr := λ u,
  match ST_Remove userValue p (pul_PoolUserListStorage u) with
  | Some (r, s') => if bool_decide (r = p) then Some (p, MkPoolUserList (pul_PoolUserNodes u) s' (pul_NextPoolUserNode u)) else None
  | None => None
  end.

Definition poolUserNodeDelete (p : ptr) : M PU () :=
  linked ← gets (λ u, STN_IsLinked (pul_PoolUserListStorage u) p);
  CHECK (negb linked);;
  _ ← user_get p;
  user_store p (MkPoolUserNode (-1) 0 None None).

(** One removal per node: [fuel] is the number of nodes. *)
Fixpoint clearUsers (fuel : nat) (poolUserNode : option ptr) : M PU () :=
  match poolUserNode with
  | None => mret tt
  | Some p =>
      match fuel with
      | O => abort
      | S fuel' =>
          _ ← poolUserListRemovePoolUserNode p;
          poolUserNodeDelete p;;
          next ← poolUserListGetFirstPoolUserNode;
          clearUsers fuel' next
      end
  end.

Definition poolUserListClear : M PU () :=
  fuel ← gets (λ u, length (st_list (pul_PoolUserListStorage u)));
  first ← poolUserListGetFirstPoolUserNode;
  clearUsers fuel first.

Definition poolUserListDelete : M PU () :=
  poolUserListClear;;
  empty ← gets (λ u, ST_IsEmpty (pul_PoolUserListStorage u));
  CHECK empty.

(** ** The check of the rates *)

(** [node] and [tableMemory] are the results of the two allocations;
    [maxHRRate] and [maxEURate] are the registrar's thresholds. *)
Definition registrarPoolUserHasPermissionFor (node : option ptr) (tableMemory : bool) (maxHRRate maxEURate : spec_float)
    (now fd assocID action : Z) (poolHandle : PoolHandle) (peIdentifier : Z) : M PU bool :=
  u ← get;
  match (match pul_NextPoolUserNode u with Some p => Some p | None => node end) with
  | None => mret true
  | Some p =>
      user_next (Some p);;
      user_store p (poolUserNodeNew fd assocID);;
      poolUserNode ← poolUserListAddOrUpdatePoolUserNode p;
      if action =? AHT_HANDLE_RESOLUTION then
        rate ← poolUserNodeNoteHandleResolution tableMemory poolUserNode poolHandle now TSHT_BUCKETS TSHT_ENTRIES;
        mret (SFleb rate maxHRRate)
      else if action =? AHT_ENDPOINT_UNREACHABLE then
        rate ← poolUserNodeNoteEndpointUnreachable tableMemory poolUserNode poolHandle peIdentifier now TSHT_BUCKETS TSHT_ENTRIES;
        mret (SFleb rate maxEURate)
      else abort
  end.
End users.
Arguments PoolUserList : clear implicits.

(** ** What the table keeps *)

Definition lastn {A} (n : nat) (l : list A) : list A := drop (length l - n) l.

Definition bucket_ok (maxEntries : Z) (b : list Z) : Prop := StronglySorted Z.le b ∧ Z.of_nat (length b) <= maxEntries.

Record table_ok (t : TimeStampHashTable) : Prop := {
  to_entries : 1 <= tsht_MaxEntries t;
  to_buckets : tsht_BucketArray t ≠ [];
  to_ok : Forall (bucket_ok (tsht_MaxEntries t)) (tsht_BucketArray t)
}.

Lemma sorted_snoc b x : StronglySorted Z.le b → (∀ y, y ∈ b → y <= x) → StronglySorted Z.le (b ++ [x]).
Proof. intros Hb Hx. apply StronglySorted_app. split; [|split; [done|repeat constructor]]. intros y z Hy [->|[]%not_elem_of_nil]%elem_of_cons. by apply Hx. Qed.

Lemma sorted_last b l : StronglySorted Z.le b → last b = Some l → ∀ y, y ∈ b → y <= l.
Proof.
  intros Hb Hl y Hy. apply last_Some in Hl as [b' ->]. apply StronglySorted_app in Hb as (Hb & _ & _).
  apply elem_of_app in Hy as [Hy|[->|[]%not_elem_of_nil]%elem_of_cons]; [|lia]. apply Hb; [done|set_solver].
Qed.

Lemma append_spec maxEntries ts b : 1 <= maxEntries → bucket_ok maxEntries b →
  match appendTimeStamp maxEntries ts b with
  | Some b' => b' = lastn (Z.to_nat maxEntries) (b ++ [ts]) ∧ bucket_ok maxEntries b' ∧ ∀ y, y ∈ b → y <= ts
  | None => ∃ y, y ∈ b ∧ ts < y
  end.
Proof.
  intros Hmax [Hs Hl]. unfold appendTimeStamp.
  destruct (match last b with Some l => l <=? ts | None => true end) eqn:Hlast.
  - assert (∀ y, y ∈ b → y <= ts) as Hle.
    { destruct (last b) as [l|] eqn:E; [|apply last_None in E as ->; by intros y ?%not_elem_of_nil].
      intros y Hy. pose proof (sorted_last b l Hs E y Hy). apply Z.leb_le in Hlast. lia. }
    unfold lastn. rewrite length_app. simpl. destruct (Z.ltb_spec (Z.of_nat (length b)) maxEntries).
    + replace (length b + 1 - Z.to_nat maxEntries)%nat with 0%nat by lia. split; [done|]. split; [|done].
      split; [by apply sorted_snoc|]. rewrite length_app. simpl. lia.
    + replace (length b + 1 - Z.to_nat maxEntries)%nat with 1%nat by lia.
      destruct b as [|x b]; simpl in *; [lia|]. rewrite drop_0. apply StronglySorted_cons in Hs as [Hx Hs].
      split; [done|]. split; [|done]. split; [apply sorted_snoc; [done|intros y Hy; apply Hle; by right]|].
      rewrite length_app. simpl. lia.
  - destruct (last b) as [l|] eqn:E; [|done]. apply Z.leb_gt in Hlast. exists l. split; [|done].
    apply last_Some in E as [b' ->]. set_solver.
Qed.

Lemma bucket_lookup t hash : table_ok t → ∃ b, tsht_BucketArray t !! bucketIndex t hash = Some b ∧ bucket_ok (tsht_MaxEntries t) b.
Proof.
  intros [_ Hb Hok]. assert (∃ b, tsht_BucketArray t !! bucketIndex t hash = Some b) as [b Hlk].
  { apply lookup_lt_is_Some. unfold bucketIndex. destruct (tsht_BucketArray t) as [|x l]; [done|]. simpl length.
    pose proof (Z.mod_pos_bound hash (Z.of_nat (S (length l))) ltac:(lia)). lia. }
  exists b. split; [done|]. rewrite Forall_lookup in Hok. by eapply Hok.
Qed.

Lemma stamps_ok t hash ts : table_ok t → ∃ b t' ok, timeStampHashTableAddTimeStamp t hash ts = Some (ok, t') ∧ table_ok t' ∧
  tsht_MaxEntries t' = tsht_MaxEntries t ∧ length (tsht_BucketArray t') = length (tsht_BucketArray t) ∧
  tsht_BucketArray t !! bucketIndex t hash = Some b ∧
  tsht_BucketArray t' !! bucketIndex t hash = Some (default b (appendTimeStamp (tsht_MaxEntries t) ts b)).
Proof.
  intros Ht. destruct (bucket_lookup t hash Ht) as (b & Hlk & Hb). pose proof (append_spec _ ts b (to_entries _ Ht) Hb) as Ha.
  unfold timeStampHashTableAddTimeStamp. rewrite Hlk. simpl. exists b. destruct (appendTimeStamp _ _ _) as [b'|].
  - destruct Ha as (_ & Hb' & _). eexists _, true. split; [done|]. simpl. rewrite length_insert, list_lookup_insert_eq by by eapply lookup_lt_Some.
    split; [|done]. destruct Ht as [He Hne Hok]. split; simpl; [done| |by apply Forall_insert].
    intros Hnil%(f_equal length). rewrite length_insert in Hnil. by destruct (tsht_BucketArray t).
  - by exists t, false.
Qed.

(** C14: A time stamp is entered into the bucket of its hash value, which keeps
    the [MaxEntries] latest of them in order; one that is older than the
    latest is refused and changes nothing.  Other buckets stay as they
    are, and the table stays well-formed. *)
Theorem stamps_bounded t hash ts : table_ok t → ∃ b ok t', let i := bucketIndex t hash in
  timeStampHashTableAddTimeStamp t hash ts = Some (ok, t') ∧ table_ok t' ∧ tsht_BucketArray t !! i = Some b ∧
  (∀ j, j ≠ i → tsht_BucketArray t' !! j = tsht_BucketArray t !! j) ∧
  (ok = true ∧ (∀ y, y ∈ b → y <= ts) ∧ tsht_BucketArray t' !! i = Some (lastn (Z.to_nat (tsht_MaxEntries t)) (b ++ [ts])) ∨
   ok = false ∧ (∃ y, y ∈ b ∧ ts < y) ∧ t' = t).
Proof.
  intros Ht. destruct (stamps_ok t hash ts Ht) as (b & t' & ok & Hrun & Ht' & _ & _ & Hb & _). exists b, ok, t'. simpl.
  split; [done|]. split; [done|]. split; [done|]. destruct (bucket_lookup t hash Ht) as (b0 & Hlk & Hb0). simplify_eq.
  pose proof (append_spec _ ts b (to_entries _ Ht) Hb0) as Ha. unfold timeStampHashTableAddTimeStamp in Hrun. rewrite Hb in Hrun. simpl in Hrun.
  destruct (appendTimeStamp _ _ _) as [b'|]; simplify_eq.
  - destruct Ha as (-> & _ & Hle). split; [intros j Hj; by apply list_lookup_insert_ne|]. left. split; [done|]. split; [done|].
    apply list_lookup_insert_eq. by eapply lookup_lt_Some.
  - split; [done|]. by right.
Qed.

Lemma stamps_bounded_witness : table_ok (MkTimeStampHashTable 2 [[5; 9]]) ∧
  timeStampHashTableAddTimeStamp (MkTimeStampHashTable 2 [[5; 9]]) 7 12 = Some (true, MkTimeStampHashTable 2 [[9; 12]]).
Proof.
  assert (table_ok (MkTimeStampHashTable 2 [[5; 9]])) as Ht.
  { split; [done|done|]. repeat constructor; simpl; lia. }
  split; [exact Ht|]. destruct (stamps_bounded _ 7 12 Ht) as (b & ok & t' & Hadd & _). vm_compute in Hadd. exact eq_refl.
Defined.

(** ** What the check decides *)

Section permission.
Context {ST : Type} `{SL : StorageLaws ST} `{En : Endian}.
Abbreviation PU := (PoolUserList ST).
Implicit Types (u : PU) (p q : ptr) (n : PoolUserNode).
Abbreviation users u := (st_list (pul_PoolUserListStorage u)).

Definition userKey n : list Z := [pun_ConnectionAssocID n; pun_ConnectionSocketDescriptor n].
Definition keyAt u p : list Z := default [] (userKey <$> pul_PoolUserNodes u !! p).

Definition tables_ok n : Prop := ∀ t, pun_HandleResolutionHash n = Some t ∨ pun_EndpointUnreachableHash n = Some t →
  table_ok t ∧ tsht_MaxEntries t = TSHT_ENTRIES.

Record users_inv u : Prop := {
  ui_ok : st_ok userValue (pul_PoolUserListStorage u);
  ui_sorted : key_sorted (keyAt u) (users u);
  ui_node p : p ∈ users u → ∃ n, pul_PoolUserNodes u !! p = Some n ∧ tables_ok n;
  ui_next p : pul_NextPoolUserNode u = Some p → p ∉ users u
}.

(** The node of the pool user behind a connection. *)
Definition user_at u (sd assoc : Z) p n : Prop := p ∈ users u ∧ pul_PoolUserNodes u !! p = Some n ∧ userKey n = [assoc; sd].

Lemma comparison_key n1 n2 : poolUserStorageNodeComparison n1 n2 = lexcmp (userKey n1) (userKey n2).
Proof.
  unfold poolUserStorageNodeComparison, userKey. simpl. repeat (destruct (_ <? _); [done|]). done.
Qed.

Lemma userCmp_key u n q : users_inv u → q ∈ users u → userCmp u n q = Some (lexcmp (userKey n) (keyAt u q)).
Proof.
  intros Hu Hq. destruct (ui_node _ Hu q Hq) as (m & Hm & _). unfold userCmp, keyAt. rewrite Hm. simpl. by rewrite comparison_key.
Qed.

Lemma userCmp_valid u n : users_inv u → all_valid (userCmp u n) (users u) = true ∧
  ∀ q, q ∈ users u → default 0 (userCmp u n q) = lexcmp (userKey n) (keyAt u q).
Proof.
  intros Hu. split.
  - apply all_valid_iff. intros q Hq. rewrite (userCmp_key u n q Hu Hq). eauto.
  - intros q Hq. by rewrite (userCmp_key u n q Hu Hq).
Qed.

Lemma users_inv_new : users_inv (poolUserListNew : PU).
Proof.
  destruct (st_new_ok (S := ST) userValue) as [Hok Hnil]. split; simpl; rewrite ?Hnil; [done|constructor| |done].
  intros p []%not_elem_of_nil.
Qed.

(** The candidate in the memory of [p] is linked, or the node of this pool
    user is there already. *)
Definition with_candidate u p sd assoc : PU :=
  MkPoolUserList (<[p := poolUserNodeNew sd assoc]> (pul_PoolUserNodes u)) (pul_PoolUserListStorage u) (Some p).

Lemma keyAt_candidate u p sd assoc q : q ≠ p → keyAt (with_candidate u p sd assoc) q = keyAt u q.
Proof. intros Hq. unfold keyAt. simpl. by rewrite lookup_insert_ne. Qed.

Lemma candidate_inv u p sd assoc : users_inv u → p ∉ users u → users_inv (with_candidate u p sd assoc).
Proof.
  intros Hu Hp. assert (∀ q, q ∈ users u → q ≠ p) as Hne by (intros q Hq ->; done). split; simpl.
  - apply Hu.
  - apply (key_sorted_ext (keyAt u)); [|apply Hu]. intros q Hq. symmetry. by apply keyAt_candidate, Hne.
  - intros q Hq. rewrite lookup_insert_ne by (apply not_eq_sym, Hne, Hq). by apply Hu.
  - by intros ? [= <-].
Qed.

Lemma addOrUpdate_user u p sd assoc : users_inv u → p ∉ users u → ∃ q n u',
  poolUserListAddOrUpdatePoolUserNode p (with_candidate u p sd assoc) = Some (q, u') ∧ users_inv u' ∧ user_at u' sd assoc q n ∧
  (user_at u sd assoc q n ∨ n = poolUserNodeNew sd assoc ∧ ∀ x y, ¬ user_at u sd assoc x y) ∧
  ∀ sd' assoc' x y, (sd', assoc') ≠ (sd, assoc) → user_at u' sd' assoc' x y ↔ user_at u sd' assoc' x y.
Proof.
  intros Hu Hp. set (u1 := with_candidate u p sd assoc). pose proof (candidate_inv u p sd assoc Hu Hp) as Hu1. fold u1 in Hu1.
  set (n := poolUserNodeNew sd assoc).
  assert (pul_PoolUserNodes u1 !! p = Some n) as Hn by apply lookup_insert_eq.
  assert (keyAt u1 p = [assoc; sd]) as Hkp by (unfold keyAt; by rewrite Hn).
  destruct (userCmp_valid u1 n Hu1) as [Hval Hcmp].
  unfold poolUserListAddOrUpdatePoolUserNode, poolUserListAddPoolUserNode.
  assert (∀ q, q ∈ users u → q ≠ p) as Hne by (intros q Hq ->; done).
  assert (∀ sd' assoc' x y, user_at u1 sd' assoc' x y ↔ user_at u sd' assoc' x y) as Hsame.
  { intros sd' assoc' x y. unfold user_at. simpl. split; intros (Hx & Hy & Hk); (split; [done|]); (split; [|done]).
    - rewrite lookup_insert_ne in Hy by (apply not_eq_sym, Hne, Hx). done.
    - by rewrite lookup_insert_ne by (apply not_eq_sym, Hne, Hx). }
  destruct (decide (Exists (λ q, keyAt u1 q = [assoc; sd]) (users u))) as [(q & Hq & Hk)%Exists_exists|Hno].
  - destruct (ui_node _ Hu1 q Hq) as (m & Hm & _). exists q, m, u1. split.
    { assert (ST_Insert (λ q, default 0 (userCmp u1 n q)) userValue p (pul_PoolUserListStorage u1) = Some (q, pul_PoolUserListStorage u1)) as Hins.
      { apply (keyed_insert_dup (keyAt u1) _ _ _ (ui_ok _ Hu1) (ui_sorted _ Hu1) p q); [|done|done|congruence].
        intros x Hx. rewrite Hcmp by done. by rewrite Hkp. }
      unfold mbind, M_bind at 1. rewrite Hn, Hval, Hins. cbn. by rewrite bool_decide_false by by apply Hne. }
    assert (user_at u1 sd assoc q m) as Hat.
    { split; [done|]. split; [done|]. unfold keyAt in Hk. by rewrite Hm in Hk. }
    split; [done|]. split; [done|]. split; [left; by apply Hsame|]. intros. apply Hsame.
  - destruct (keyed_insert_new (keyAt u1) _ (λ q, default 0 (userCmp u1 n q)) _ (ui_ok _ Hu1) (ui_sorted _ Hu1) p)
      as (s' & Hins & Hok' & Hs' & Hl); [|done| |].
    { intros x Hx. rewrite Hcmp by done. by rewrite Hkp. }
    { intros x Hx Hk. apply Hno, Exists_exists. exists x. split; [done|]. by rewrite Hk. }
    exists p, n, (MkPoolUserList (pul_PoolUserNodes u1) s' None). split.
    { unfold mbind, M_bind at 1. rewrite Hn. fold n. rewrite Hval, Hins. simpl. by rewrite bool_decide_true. }
    assert (∀ q, q ∈ st_list s' ↔ q = p ∨ q ∈ users u) as Hin by (intros q; rewrite Hl; apply l_insert_elem).
    split; [|split; [|split]].
    + split; simpl; [done|done| |done]. intros q [->|Hq]%Hin; [|by apply Hu1].
      exists n. split; [done|]. by intros t [?|?].
    + split; [apply Hin; by left|done].
    + right. split; [done|]. intros x y Hxy. apply Hsame in Hxy as (Hx & Hy & Hk). apply Hno, Exists_exists. exists x. split; [done|].
      unfold keyAt. by rewrite Hy.
    + intros sd' assoc' x y Hd. rewrite <- Hsame. unfold user_at. simpl. split; intros (Hx & Hy & Hk); (split; [|done]).
      * apply Hin in Hx as [->|Hx]; [|done]. fold u1 in Hy. change (_ !! p) with (pul_PoolUserNodes u1 !! p) in Hy. rewrite Hn in Hy. injection Hy as <-. by destruct Hd; injection Hk as -> ->.
      * apply Hin. by right.
Qed.

Definition stamps (table : option TimeStampHashTable) (hash : Z) : list Z :=
  match table with Some t => default [] (tsht_BucketArray t !! bucketIndex t hash) | None => [] end.

Definition noted (now : Z) (l : list Z) : list Z := default l (appendTimeStamp TSHT_ENTRIES now l).

Definition good (table : option TimeStampHashTable) : Prop :=
  ∀ t, table = Some t → table_ok t ∧ tsht_MaxEntries t = TSHT_ENTRIES.

Lemma noteEvent_spec memory table hash now : good table → ∃ rate table',
  noteEvent memory table hash now TSHT_BUCKETS TSHT_ENTRIES = Some (rate, table') ∧ good table' ∧
  (stamps table' hash = noted now (stamps table hash) ∧ rate = bucketRate (stamps table' hash) ∨
   stamps table hash = [] ∧ memory = false ∧ stamps table' hash = [] ∧ rate = RATE_UNKNOWN).
Proof.
  intros Hg. unfold noteEvent.
  assert (∀ t, good (Some t) → stamps (Some t) hash = stamps table hash → ∃ rate table',
    (r ← timeStampHashTableAddTimeStamp t hash now; rate ← timeStampHashTableGetRate r.2 hash; Some (rate, Some r.2)) = Some (rate, table') ∧
    good table' ∧ stamps table' hash = noted now (stamps table hash) ∧ rate = bucketRate (stamps table' hash)) as Hadd.
  { intros t Hgt Hst. destruct (Hgt t eq_refl) as [Ht Hmax].
    destruct (stamps_ok t hash now Ht) as (b & t' & ok & Hrun & Ht' & Hm' & Hlen & Hb & Hb'). rewrite Hrun. simpl.
    assert (bucketIndex t' hash = bucketIndex t hash) as Hi by (unfold bucketIndex; by rewrite Hlen).
    unfold timeStampHashTableGetRate. rewrite Hi, Hb'. simpl. eexists _, _. split; [done|].
    assert (stamps (Some t') hash = noted now (stamps table hash)) as Heq.
    { rewrite <- Hst. simpl. rewrite Hi, Hb, Hb'. simpl. unfold noted. by rewrite <- Hmax. }
    split; [|split; [done|]].
    - intros ? [= <-]. split; [done|congruence].
    - simpl. by rewrite Hi, Hb'. }
  destruct table as [t|].
  - destruct (Hadd t) as (rate & table' & Hrun & Hg' & ? & ?); [done|done|]. exists rate, table'. split; [done|]. split; [done|]. by left.
  - destruct memory.
    + destruct (Hadd (MkTimeStampHashTable TSHT_ENTRIES (replicate (Z.to_nat TSHT_BUCKETS) []))) as (rate & table' & Hrun & Hg' & ? & ?).
      * intros t Ht. apply (inj Some) in Ht as <-. split; [|done]. split; [done|done|].
        cbn [tsht_BucketArray tsht_MaxEntries]. apply Forall_replicate. split; [constructor|done].
      * cbn [stamps tsht_BucketArray]. destruct (replicate _ _ !! _) as [l|] eqn:Hl; [|done]. apply lookup_replicate in Hl as [-> _]. done.
      * exists rate, table'. split; [done|]. split; [done|]. by left.
    + exists RATE_UNKNOWN, None. split; [done|]. split; [done|]. by right.
Qed.

(** What is known about the events of a connection. *)
Definition table_of (action : Z) n : option TimeStampHashTable :=
  if action =? AHT_HANDLE_RESOLUTION then pun_HandleResolutionHash n else pun_EndpointUnreachableHash n.

Definition recorded u (sd assoc action hash : Z) (l : list Z) : Prop :=
  (∃ p n, user_at u sd assoc p n ∧ l = stamps (table_of action n) hash) ∨ ((∀ p n, ¬ user_at u sd assoc p n) ∧ l = []).

Definition with_table (action : Z) (table : option TimeStampHashTable) n : PoolUserNode :=
  if action =? AHT_HANDLE_RESOLUTION
  then MkPoolUserNode (pun_ConnectionSocketDescriptor n) (pun_ConnectionAssocID n) table (pun_EndpointUnreachableHash n)
  else MkPoolUserNode (pun_ConnectionSocketDescriptor n) (pun_ConnectionAssocID n) (pun_HandleResolutionHash n) table.

Lemma user_store_run u sd assoc q n n' : users_inv u → user_at u sd assoc q n → userKey n' = userKey n → tables_ok n' → ∃ u',
  user_store q n' u = Some (tt, u') ∧ users_inv u' ∧ user_at u' sd assoc q n' ∧
  ∀ sd' assoc' x y, (sd', assoc') ≠ (sd, assoc) → user_at u' sd' assoc' x y ↔ user_at u sd' assoc' x y.
Proof.
  intros Hu (Hq & Hn & Hk) Hk' Ht. eexists. split; [done|]. split; [|split].
  - split; simpl; [apply Hu| | |apply Hu].
    + apply (key_sorted_ext (keyAt u)); [|apply Hu]. intros x _. unfold keyAt. simpl.
      destruct (decide (x = q)) as [->|]; [by rewrite lookup_insert_eq, Hn; simpl; rewrite Hk'|by rewrite lookup_insert_ne].
    + intros x Hx. destruct (decide (x = q)) as [->|]; [rewrite lookup_insert_eq; eauto|rewrite lookup_insert_ne by done; by apply Hu].
  - split; [done|]. simpl. rewrite lookup_insert_eq. split; [done|congruence].
  - intros sd' assoc' x y Hd. unfold user_at. simpl. destruct (decide (x = q)) as [->|]; [|by rewrite lookup_insert_ne].
    rewrite lookup_insert_eq, Hn. split; intros (_ & [= <-] & Hkk); exfalso; apply Hd; congruence.
Qed.

End permission.

(** ** An application *)

Module UserDemo.
Export Demo.

(** Two requests for the same pool within 100 ms, at most 5 per second. *)
Definition ask (p : ptr) (now : Z) : M (PoolUserList storage) bool :=
  registrarPoolUserHasPermissionFor (Some p) true (double_of_uint 5) (double_of_uint 5) now 4 9
    AHT_HANDLE_RESOLUTION demo_handle 0.

Definition users_new : PoolUserList storage := poolUserListNew.
Definition users_one : PoolUserList storage := match ask 1 1000000 users_new with Some (_, u) => u | None => users_new end.

Lemma first_request : ask 1 1000000 users_new = Some (true, users_one).
Proof. by vm_compute. Qed.

Lemma second_refused : fst <$> ask 2 1100000 users_one = Some false.
Proof. by vm_compute. Qed.

Lemma second_granted : fst <$> ask 2 1500000 users_one = Some true.
Proof. by vm_compute. Qed.
End UserDemo.
Import UserDemo.

