(* ===== verification/Registrar.v ===== *)
(** * The registrar (rspregistrar.h, rspregistrar-core.c, -asap.c, -enrp.c,
    -takeover.c, -misc.c, -global.c, takeoverprocess.c, timer.c)

    The registrar is driven by messages, timers and lost associations.  Its
    state is the handlespace, the peer list that listens to it, the pool
    users, the takeover processes, four timers and what it has sent.  The
    outside world is an [Environment]: every question to it (the time,
    [malloc], whether a message could be sent, the addresses of an
    association) takes one tick, and the answer depends on the tick.

    Messages are sent as packets: what is sent is recorded together with the
    message structure it was created from and its destination.  This file
    has the state, the outside world and the loops; the handlers follow in
    RegistrarSend.v, RegistrarAsap.v, RegistrarEnrp.v, RegistrarTakeover.v
    and RegistrarCore.v. *)

From S2P Require Import Prelude Checksum Addresses PoolBasics Storage PoolElement PoolPolicy HandlespaceState PoolNode PoolEffects PoolSelection HandlespaceNode HandlespaceMgt PeerList HandlespacePeers Message MessageCreator MessageParser PoolUsers.
From Stdlib Require Import SpecFloat.
From stdpp Require Import base list gmap numbers option.
#[local] Open Scope Z_scope.

Definition RSPERR_NO_USABLE_ASAP_ADDRESSES : Z := 0xf007.
Definition RSPERR_NO_USABLE_USER_ADDRESSES : Z := 0xf008.

Definition MAX_PE_TRANSPORTADDRESSES : Z := 64.
Definition REGISTRAR_RSERPOOL_MESSAGE_BUFFER_SIZE : Z := 65536.
Definition PENT_KEEPALIVE_TRANSMISSION : Z := 1001.
Definition PENT_KEEPALIVE_TIMEOUT : Z := 1002.
Definition PLNS_LISTSYNC : Z := 1.
Definition PLNS_HTSYNC : Z := 2.
Definition PLNS_MENTOR : Z := 4.
Definition PLNT_MAX_TIME_LAST_HEARD : Z := 3000.
Definition PLNT_TAKEOVER_EXPIRY : Z := 3002.
Definition PNUP_ADD_PE : Z := 0.
Definition PNUP_DEL_PE : Z := 1.
Definition RAND_MAX : Z := 2147483647.

(** ** Doubles *)

Definition double_sub : spec_float → spec_float → spec_float := SFsub 53 1024.

(** The conversion to an integer type, towards zero; as for [rint], a value
    that does not fit is undefined in C and exact here. *)
Definition double_trunc (x : spec_float) : Z :=
  match x with
  | S754_finite s m e =>
      let r := if 0 <=? e then Z.pos m * 2 ^ e else Z.pos m / 2 ^ (- e) in
      if s then - r else r
  | _ => 0
  end.

(** [r] is what [rand()] returned. *)
Definition registrarRandomizeCycle (r interval : Z) : Z :=
  let originalInterval := double_of_uint interval in
  let variation := double_mul (double_div (double_of_uint 1) (double_of_uint 4)) originalInterval in
  u64 (double_trunc (double_add
    (double_sub originalInterval (double_div variation (double_of_uint 2)))
    (double_mul variation (double_div (double_of_uint r) (double_of_uint RAND_MAX))))).

Definition registrarRoundDistance (distance step : Z) : Z :=
  u32 (u32 (rint (double_div (double_of_uint distance) (double_of_uint step))) * step).

(** ** Takeover processes *)

(** The identifiers of the peers that have not yet acknowledged;
    [OutstandingAcks] is their number. *)
Record TakeoverProcess := MkTakeoverProcess { tp_PeerIDArray : list Z }.

Definition takeoverProcessGetOutstandingAcks (t : TakeoverProcess) : Z := Z.of_nat (length (tp_PeerIDArray t)).

(** The loop at index [i]: an entry that matches is removed by moving the
    others up, which also ends the loop over the array. *)
Fixpoint removeAcknowledger (acknowledgerID : Z) (l : list Z) : list Z :=
  match l with
  | [] => []
  | id :: l' => if id =? acknowledgerID then l' else id :: removeAcknowledger acknowledgerID l'
  end.

Definition takeoverProcessAcknowledge (t : TakeoverProcess) (targetID acknowledgerID : Z) : Z * TakeoverProcess :=
  let t' := MkTakeoverProcess (removeAcknowledger acknowledgerID (tp_PeerIDArray t)) in
  (takeoverProcessGetOutstandingAcks t', t').

(** ** State *)

Record RegistrarConfig := MkRegistrarConfig {
  cf_ServerID : Z;
  cf_ASAPSocket : Z;
  cf_ASAPAnnounceSocket : Z;
  cf_ASAPAnnounceAddress : sockaddr_union;
  cf_ASAPSendAnnounces : bool;
  cf_ENRPMulticastOutputSocket : Z;
  cf_ENRPMulticastInputSocket : Z;
  cf_ENRPMulticastAddress : sockaddr_union;
  cf_ENRPUnicastSocket : Z;
  cf_ENRPAnnounceViaMulticast : bool;
  cf_ENRPSupportTakeoverSuggestion : bool;
  cf_DistanceStep : Z;
  cf_MaxBadPEReports : Z;
  cf_ServerAnnounceCycle : Z;
  cf_EndpointKeepAliveTransmissionInterval : Z;
  cf_EndpointKeepAliveTimeoutInterval : Z;
  cf_MinEndpointAddressScope : Z;
  cf_MaxElementsPerHTRequest : Z;
  cf_MaxIncrement : Z;
  cf_MaxHandleResolutionItems : Z;
  cf_PeerHeartbeatCycle : Z;
  cf_PeerMaxTimeLastHeard : Z;
  cf_PeerMaxTimeNoResponse : Z;
  cf_MentorDiscoveryTimeout : Z;
  cf_TakeoverExpiryInterval : Z;
  cf_MaxHRRate : spec_float;
  cf_MaxEURate : spec_float
}.

(** The answers of the outside world at each tick. *)
Record Environment := MkEnvironment {
  env_MicroTime : nat → Z;
  env_Malloc : nat → bool;
  env_Send : nat → bool;
  env_Random64 : nat → nat → Z;
  env_Rand : nat → Z;
  env_getpaddrsplus : nat → Z → Z → list sockaddr_union;
  env_getladdrsplus : nat → Z → Z → list sockaddr_union;
  env_SRTT : nat → Z → Z → option Z;
  env_ParserMemory : nat → list bool
}.

Inductive Output {ST : Type} :=
| MessageSent (sd assocID msgSendFlags : Z) (destination : list sockaddr_union) (message : RSerPoolMessage ST)
| MulticastSent (sd : Z) (destination : sockaddr_union) (message : RSerPoolMessage ST)
| AbortSent (sd assocID : Z).
Arguments Output : clear implicits.

Inductive TimerName := HandlespaceActionTimer | PeerActionTimer | ASAPAnnounceTimer | ENRPAnnounceTimer.

(** The time stamps of the running timers. *)
Record Timers := MkTimers {
  tm_HandlespaceActionTimer : option Z;
  tm_PeerActionTimer : option Z;
  tm_ASAPAnnounceTimer : option Z;
  tm_ENRPAnnounceTimer : option Z
}.

Definition timer_get (t : TimerName) (x : Timers) : option Z :=
  match t with
  | HandlespaceActionTimer => tm_HandlespaceActionTimer x
  | PeerActionTimer => tm_PeerActionTimer x
  | ASAPAnnounceTimer => tm_ASAPAnnounceTimer x
  | ENRPAnnounceTimer => tm_ENRPAnnounceTimer x
  end.

Definition timer_put (t : TimerName) (v : option Z) (x : Timers) : Timers :=
  match t with
  | HandlespaceActionTimer => MkTimers v (tm_PeerActionTimer x) (tm_ASAPAnnounceTimer x) (tm_ENRPAnnounceTimer x)
  | PeerActionTimer => MkTimers (tm_HandlespaceActionTimer x) v (tm_ASAPAnnounceTimer x) (tm_ENRPAnnounceTimer x)
  | ASAPAnnounceTimer => MkTimers (tm_HandlespaceActionTimer x) (tm_PeerActionTimer x) v (tm_ENRPAnnounceTimer x)
  | ENRPAnnounceTimer => MkTimers (tm_HandlespaceActionTimer x) (tm_PeerActionTimer x) (tm_ASAPAnnounceTimer x) v
  end.

Record Registrar {ST : Type} := MkRegistrar {
  rg_Handlespace : PoolHandlespaceManagement ST;
  rg_Peers : PeerListManagement ST;
  rg_PoolUsers : PoolUserList ST;
  rg_TakeoverProcesses : gmap ptr TakeoverProcess;
  rg_Timers : Timers;
  rg_InStartupPhase : bool;
  rg_MentorServerID : Z;
  rg_Outgoing : list (Output ST);
  rg_Tick : nat
}.
Arguments Registrar : clear implicits.
Arguments MkRegistrar {ST}.

Section registrar.
Context {ST : Type} `{Storage ST} `{Endian}.
Context (cfg : RegistrarConfig) (env : Environment).
Abbreviation HS := (Handlespace ST).
Abbreviation PHM := (PoolHandlespaceManagement ST).
Abbreviation PLM := (PeerListManagement ST).
Abbreviation Reg := (Registrar ST).
Abbreviation Msg := (RSerPoolMessage ST).

Definition rg_set_Both (m : PHM) (pl : PLM) (r : Reg) : Reg :=
  MkRegistrar m pl (rg_PoolUsers r) (rg_TakeoverProcesses r) (rg_Timers r) (rg_InStartupPhase r) (rg_MentorServerID r) (rg_Outgoing r) (rg_Tick r).
Definition rg_set_PoolUsers (v : PoolUserList ST) (r : Reg) : Reg :=
  MkRegistrar (rg_Handlespace r) (rg_Peers r) v (rg_TakeoverProcesses r) (rg_Timers r) (rg_InStartupPhase r) (rg_MentorServerID r) (rg_Outgoing r) (rg_Tick r).
Definition rg_set_TakeoverProcesses (v : gmap ptr TakeoverProcess) (r : Reg) : Reg :=
  MkRegistrar (rg_Handlespace r) (rg_Peers r) (rg_PoolUsers r) v (rg_Timers r) (rg_InStartupPhase r) (rg_MentorServerID r) (rg_Outgoing r) (rg_Tick r).
Definition rg_set_Timers (v : Timers) (r : Reg) : Reg :=
  MkRegistrar (rg_Handlespace r) (rg_Peers r) (rg_PoolUsers r) (rg_TakeoverProcesses r) v (rg_InStartupPhase r) (rg_MentorServerID r) (rg_Outgoing r) (rg_Tick r).
Definition rg_set_InStartupPhase (v : bool) (r : Reg) : Reg :=
  MkRegistrar (rg_Handlespace r) (rg_Peers r) (rg_PoolUsers r) (rg_TakeoverProcesses r) (rg_Timers r) v (rg_MentorServerID r) (rg_Outgoing r) (rg_Tick r).
Definition rg_set_MentorServerID (v : Z) (r : Reg) : Reg :=
  MkRegistrar (rg_Handlespace r) (rg_Peers r) (rg_PoolUsers r) (rg_TakeoverProcesses r) (rg_Timers r) (rg_InStartupPhase r) v (rg_Outgoing r) (rg_Tick r).
Definition rg_set_Outgoing (v : list (Output ST)) (r : Reg) : Reg :=
  MkRegistrar (rg_Handlespace r) (rg_Peers r) (rg_PoolUsers r) (rg_TakeoverProcesses r) (rg_Timers r) (rg_InStartupPhase r) (rg_MentorServerID r) v (rg_Tick r).
Definition rg_set_Tick (v : nat) (r : Reg) : Reg :=
  MkRegistrar (rg_Handlespace r) (rg_Peers r) (rg_PoolUsers r) (rg_TakeoverProcesses r) (rg_Timers r) (rg_InStartupPhase r) (rg_MentorServerID r) (rg_Outgoing r) v.

(** ** The outside world *)

Definition observe {A} (f : nat → A) : M Reg A := λ r, Some (f (rg_Tick r), rg_set_Tick (S (rg_Tick r)) r).

Definition getMicroTime : M Reg Z := observe (env_MicroTime env).
Definition mallocResult : M Reg bool := observe (env_Malloc env).

Definition output (o : Output ST) : M Reg () := modify (λ r, rg_set_Outgoing (rg_Outgoing r ++ [o]) r).
Definition sendabort (sd assocID : Z) : M Reg () := output (AbortSent sd assocID).
Definition sendmulticast (sd : Z) (destination : sockaddr_union) (message : Msg) : M Reg () :=
  output (MulticastSent sd destination message).

(** [rserpoolMessage2Packet(message)]; failing to create the packet is fatal. *)
Definition toPacket (message : Msg) : M Reg (Z * Msg) := deref (λ _, rserpoolMessage2Packet message).

(** [destination] is [message->AddressArray]; it is empty for NULL.  Returns
    whether the message was sent, and the message with its packet. *)
Definition rserpoolMessageSend (fd assocID flags : Z) (destination : list sockaddr_union) (message : Msg) : M Reg (bool * Msg) :=
  packet ← toPacket message;
  let '(messageLength, message) := packet in
  if 0 <? messageLength then
    output (MessageSent fd assocID flags destination message);;
    sent ← observe (env_Send env);
    mret (sent, message)
  else mret (false, message).

(** A message in new memory; nothing happens without memory. *)
Definition withMessage (bufferSize : Z) (k : Msg → M Reg ()) : M Reg () :=
  ok ← mallocResult;
  if ok : bool then k (rserpoolMessageNew (replicate (Z.to_nat bufferSize) 0) bufferSize) else mret tt.

Definition peerAddresses (sd assocID : Z) : M Reg (option TransportAddressBlock) :=
  l ← observe (λ t, env_getpaddrsplus env t sd assocID);
  deref (λ _, transportAddressBlockGetAddressesFromSCTPSocket l MAX_PE_TRANSPORTADDRESSES).
Definition localAddresses (sd assocID : Z) : M Reg (option TransportAddressBlock) :=
  l ← observe (λ t, env_getladdrsplus env t sd assocID);
  deref (λ _, transportAddressBlockGetAddressesFromSCTPSocket l MAX_PE_TRANSPORTADDRESSES).

(** ** Parts of the state *)

(** The peer list listens to the handlespace. *)
Definition onHs {A} (f : M PHM A) : M Reg A := λ r,
  match listened f (rg_Handlespace r, rg_Peers r) with
  | Some (a, (m, pl)) => Some (a, rg_set_Both m pl r)
  | None => None
  end.

Definition onPl {A} (f : M PLM A) : M Reg A := λ r,
  match f (rg_Peers r) with
  | Some (a, pl) => Some (a, rg_set_Both (rg_Handlespace r) pl r)
  | None => None
  end.

Definition onUsers {A} (f : M (PoolUserList ST) A) : M Reg A := λ r,
  match f (rg_PoolUsers r) with
  | Some (a, u) => Some (a, rg_set_PoolUsers u r)
  | None => None
  end.

Definition element (p : ptr) : M Reg PoolElementNode := onHs (onHandlespace (pe_get p)).
Definition peer (p : ptr) : M Reg PeerListNode := onPl (onList (peer_get p)).
Definition setPeer (p : ptr) (f : PeerListNode → PeerListNode) : M Reg () := onPl (onList (peer_update p f)).

(** [poolElementNode->OwnerPoolNode->Handle] *)
Definition ownerHandle (n : PoolElementNode) : M Reg PoolHandle := deref (λ r, owner_handle (phm_Handlespace (rg_Handlespace r)) n).

(** [peerListNode->AddressBlock->AddressArray] *)
Definition addressesOf (n : PeerListNode) : M Reg (list sockaddr_union) :=
  deref (λ _, tab_AddressArray <$> pln_AddressBlock n).

(** The disposers of the registrar. *)
Definition poolElementNodeDisposer : option (ptr → M HS ()) := Some (λ _, mret tt).
Definition peerListNodeDisposer : option (ptr → M (PeerList ST) ()) := Some (λ q, peer_update q (pln_set_UserData None)).

Definition deregisterElement (p : ptr) : M Reg Z :=
  onHs (poolHandlespaceManagementDeregisterPoolElementByPtr None poolElementNodeDisposer p).
Definition deregisterPeer (p : ptr) : M Reg Z := onPl (onList (peerListManagementDeregisterPeerListNodeByPtr peerListNodeDisposer p)).

(** The memory of one registration. *)
Definition elementMemory : M Reg Memory :=
  r ← get;
  b1 ← mallocResult; b2 ← mallocResult; b3 ← mallocResult; b4 ← mallocResult;
  let hs := phm_Handlespace (rg_Handlespace r) in
  mret (MkMemory (if b1 : bool then Some (fresh (dom (hs_PoolNodes hs))) else None)
                 (if b2 : bool then Some (fresh (dom (hs_PoolElementNodes hs))) else None) b3 b4).

Definition registerPeer (identifier flags : Z) (t : option TransportAddressBlock) (now : Z) : M Reg (option ptr * Z) :=
  r ← get;
  b1 ← mallocResult; b2 ← mallocResult;
  onPl (peerListManagementRegisterPeerListNode peerListNodeDisposer
    (if b1 : bool then Some (fresh (dom (pl_PeerListNodes (plm_List (rg_Peers r))))) else None) b2
    (Some (phm_Handlespace (rg_Handlespace r))) identifier flags t now).

(** ** Timers *)

Definition timerStart (t : TimerName) (timeStamp : Z) : M Reg () :=
  r ← get;
  CHECK (bool_decide (timer_get t (rg_Timers r) = None));;
  put (rg_set_Timers (timer_put t (Some timeStamp) (rg_Timers r)) r).

Definition timerStop (t : TimerName) : M Reg () := modify (λ r, rg_set_Timers (timer_put t None (rg_Timers r)) r).
Definition timerRestart (t : TimerName) (timeStamp : Z) : M Reg () := timerStop t;; timerStart t timeStamp.

Definition restartHandlespaceTimer : M Reg () :=
  ts ← onHs poolHandlespaceManagementGetNextTimerTimeStamp; timerRestart HandlespaceActionTimer ts.
Definition restartPeerTimer : M Reg () :=
  ts ← onPl peerListManagementGetNextTimerTimeStamp; timerRestart PeerActionTimer ts.

(** ** Loops *)

(** Over the index of the peers; the bodies neither add nor remove one. *)
Definition forAllPeers {A} (body : A → ptr → PeerListNode → M Reg A) (a : A) : M Reg A :=
  fuel ← onPl (onList peerFuel);
  first ← onPl peerListManagementGetFirstPeerListNodeFromIndexStorage;
  walk fuel (λ p, onPl (peerListManagementGetNextPeerListNodeFromIndexStorage p)) (λ a p, n ← peer p; body a p n) first a.

(** Over elements; the next one is fetched before the body works on one. *)
Fixpoint forElements (fuel : nat) (next : ptr → M HS (option ptr)) (body : ptr → M Reg ()) (poolElementNode : option ptr) : M Reg () :=
  match poolElementNode with
  | None => mret tt
  | Some p =>
      match fuel with
      | O => abort
      | S fuel' =>
          nextPoolElementNode ← onHs (onHandlespace (next p));
          body p;;
          forElements fuel' next body nextPoolElementNode
      end
  end.

Definition forOwned (identifier : Z) (body : ptr → M Reg ()) : M Reg () :=
  fuel ← onHs (onHandlespace (storageFuel SlotOwnership));
  first ← onHs (onHandlespace (poolHandlespaceNodeGetFirstPoolElementOwnershipNodeForIdentifier identifier));
  forElements fuel poolHandlespaceNodeGetNextPoolElementOwnershipNodeForSameIdentifier body first.
End registrar.
