(* ===== verification/RegistrarSend.v ===== *)
(** * The messages of the registrar (rspregistrar-asap.c, rspregistrar-enrp.c,
    rspregistrar-takeover.c: the functions that send)

    Each function builds its message from zeroed memory, converts it to its
    packet and sends it; without memory nothing is sent. *)

From S2P Require Import Prelude Checksum Addresses PoolBasics Storage PoolElement PoolPolicy HandlespaceState HandlespaceNode HandlespaceMgt PeerList HandlespacePeers Message MessageCreator MessageParser PoolUsers Registrar.
From stdpp Require Import base list gmap numbers option.
#[local] Open Scope Z_scope.

Section send.
Context {ST : Type} `{Storage ST} `{Endian}.
Context (cfg : RegistrarConfig) (env : Environment).
Abbreviation Reg := (Registrar ST).
Abbreviation Msg := (RSerPoolMessage ST).

(** [message->AddressArray] is [l], [message->Addresses] its length. *)
Definition addressed (l : list sockaddr_union) (message : Msg) : Msg := rm_set_Addresses (Z.of_nat (length l)) message.

(** Sends, ignoring the result. *)
Definition sendOut (sd assocID msgSendFlags : Z) (destination : list sockaddr_union) (message : Msg) : M Reg () :=
  _ ← rserpoolMessageSend env sd assocID msgSendFlags destination (addressed destination message); mret tt.

(** ** ASAP *)

Definition registrarSendASAPEndpointKeepAlive (poolElementNode : ptr) (newHomeRegistrar : bool) : M Reg () :=
  withMessage env 1024 (λ message,
    n ← element poolElementNode;
    handle ← ownerHandle n;
    let message :=
      rm_set_Flags (if newHomeRegistrar then AHF_ENDPOINT_KEEP_ALIVE_HOME else 0)
      (rm_set_Type AHT_ENDPOINT_KEEP_ALIVE
      (rm_set_Identifier (pen_Identifier n)
      (rm_set_RegistrarIdentifier (cf_ServerID cfg)
      (rm_set_Handle handle message)))) in
    result ← (if 0 <=? pen_ConnectionSocketDescriptor n then
                rserpoolMessageSend env (pen_ConnectionSocketDescriptor n) (pen_ConnectionAssocID n) 0 [] message
              else
                transport ← deref (λ _, pen_RegistratorTransport n);
                rserpoolMessageSend env (cf_ASAPSocket cfg) 0 0 (tab_AddressArray transport)
                  (addressed (tab_AddressArray transport) message));
    if negb result.1 then sendabort (cf_ASAPSocket cfg) 0 else mret tt).

(** ** ENRP *)

(** The message about [poolElementNode], which is of pool [handle]. *)
Definition handleUpdateMessage (handle : PoolHandle) (poolElementNode : PoolElementNode) (action : Z) (message : Msg) : Msg :=
  rm_set_PoolElementPtr (Some poolElementNode)
  (rm_set_Handle handle
  (rm_set_SenderID (cf_ServerID cfg)
  (rm_set_Action action
  (rm_set_Flags 0
  (rm_set_Type EHT_HANDLE_UPDATE message))))).

(** One message to each peer; the same memory is used for all of them. *)
Definition sendToPeer (message : Msg) (n : PeerListNode) : M Reg Msg :=
  addresses ← addressesOf n;
  r ← rserpoolMessageSend env (cf_ENRPUnicastSocket cfg) 0 0 addresses
        (addressed addresses (rm_set_ReceiverID (pln_Identifier n) message));
  mret r.2.

Definition registrarSendENRPHandleUpdate (handle : PoolHandle) (poolElementNode : PoolElementNode) (action : Z) : M Reg () :=
  withMessage env 65536 (λ message,
    let message := handleUpdateMessage handle poolElementNode action message in
    betterPeerListNode ←
      (if (action =? PNUP_ADD_PE) && cf_ENRPSupportTakeoverSuggestion cfg &&
          (pen_HomeRegistrarIdentifier poolElementNode =? cf_ServerID cfg)
       then onPl (onList (peerListManagementGetUsefulPeerForPE (pen_Identifier poolElementNode)))
       else mret None);
    message ← forAllPeers (λ message _ n, sendToPeer message n) message;
    match betterPeerListNode with
    | Some p =>
        n ← peer p;
        _ ← sendToPeer (rm_set_Flags (Z.lor (rm_Flags message) EHF_TAKEOVER_SUGGESTED) message) n;
        mret tt
    | None => mret tt
    end).

(** The update about a node of the handlespace. *)
Definition sendHandleUpdateOf (poolElementNode : ptr) (action : Z) : M Reg () :=
  n ← element poolElementNode;
  handle ← ownerHandle n;
  registrarSendENRPHandleUpdate handle n action.

Definition registrarSendENRPListRequest (sd assocID msgSendFlags : Z) (destination : list sockaddr_union) (receiverID : Z) : M Reg () :=
  withMessage env 65536 (λ message,
    sendOut sd assocID msgSendFlags destination
      (rm_set_ReceiverID receiverID
      (rm_set_SenderID (cf_ServerID cfg)
      (rm_set_Flags 0
      (rm_set_AssocID assocID
      (rm_set_PPID PPID_ENRP
      (rm_set_Type EHT_LIST_REQUEST message))))))).

Definition registrarSendENRPHandleTableRequest (sd assocID msgSendFlags : Z) (destination : list sockaddr_union)
    (receiverID flags : Z) : M Reg () :=
  withMessage env 65536 (λ message,
    sendOut sd assocID msgSendFlags destination
      (rm_set_ReceiverID receiverID
      (rm_set_SenderID (cf_ServerID cfg)
      (rm_set_Flags flags
      (rm_set_AssocID assocID
      (rm_set_PPID PPID_ENRP
      (rm_set_Type EHT_HANDLE_TABLE_REQUEST message))))))).

Definition presenceMessage (assocID receiverID : Z) (replyRequired : bool) (checksum : Z) (message : Msg) : Msg :=
  rm_set_Checksum checksum
  (rm_set_ReceiverID receiverID
  (rm_set_SenderID (cf_ServerID cfg)
  (rm_set_Flags (if replyRequired then EHF_PRESENCE_REPLY_REQUIRED else 0)
  (rm_set_AssocID assocID
  (rm_set_PPID PPID_ENRP
  (rm_set_Type EHT_PRESENCE message)))))).

Definition registrarSendENRPPresence (sd assocID msgSendFlags : Z) (destination : list sockaddr_union)
    (receiverID : Z) (replyRequired : bool) : M Reg () :=
  withMessage env 65536 (λ message,
    checksum ← onHs poolHandlespaceManagementGetOwnershipChecksum;
    let message := addressed destination (presenceMessage assocID receiverID replyRequired checksum message) in
    addresses ← localAddresses env (cf_ENRPUnicastSocket cfg) assocID;
    match addresses with
    | Some localAddressArray =>
        let message := rm_set_PeerListNodePtr (Some (peerListNodeNew (cf_ServerID cfg) 0 (Some localAddressArray))) message in
        packet ← toPacket message;
        let '(messageLength, message) := packet in
        if 0 <? messageLength then
          if sd =? cf_ENRPMulticastOutputSocket cfg then
            address ← deref (λ _, head destination);
            sendmulticast (cf_ENRPMulticastOutputSocket cfg) address message
          else
            _ ← rserpoolMessageSend env sd assocID msgSendFlags destination message; mret tt
        else mret tt
    | None => mret tt
    end).

Definition registrarSendENRPPresenceToAllPeers : M Reg () :=
  forAllPeers (λ _ _ n,
    addresses ← addressesOf n;
    registrarSendENRPPresence (cf_ENRPUnicastSocket cfg) 0 0 addresses (pln_Identifier n) false) tt.

(** ** Takeover *)

Definition registrarSendENRPInitTakeoverToAllPeers (targetID : Z) : M Reg () :=
  withMessage env 65536 (λ message,
    let message :=
      rm_set_RegistrarIdentifier targetID
      (rm_set_ReceiverID 0
      (rm_set_SenderID (cf_ServerID cfg)
      (rm_set_Flags 0
      (rm_set_Type EHT_INIT_TAKEOVER message)))) in
    _ ← forAllPeers (λ message _ n, sendToPeer message n) message;
    mret tt).

Definition registrarSendENRPInitTakeoverAck (sd assocID receiverID targetID : Z) : M Reg () :=
  withMessage env 65536 (λ message,
    _ ← rserpoolMessageSend env sd assocID 0 []
          (rm_set_RegistrarIdentifier targetID
          (rm_set_ReceiverID receiverID
          (rm_set_SenderID (cf_ServerID cfg)
          (rm_set_Flags 0
          (rm_set_AssocID assocID
          (rm_set_Type EHT_INIT_TAKEOVER_ACK message))))));
    mret tt).

Definition registrarSendENRPTakeoverServer (sd assocID msgSendFlags : Z) (destination : list sockaddr_union)
    (receiverID targetID : Z) : M Reg () :=
  withMessage env 65536 (λ message,
    sendOut sd assocID msgSendFlags destination
      (rm_set_RegistrarIdentifier targetID
      (rm_set_ReceiverID receiverID
      (rm_set_SenderID (cf_ServerID cfg)
      (rm_set_Flags 0
      (rm_set_AssocID assocID
      (rm_set_PPID PPID_ENRP
      (rm_set_Type EHT_TAKEOVER_SERVER message)))))))).

Definition registrarSendENRPTakeoverServerToAllPeers (targetID : Z) : M Reg () :=
  forAllPeers (λ _ _ n,
    if negb (pln_Identifier n =? UNDEFINED_REGISTRAR_IDENTIFIER)
    then registrarSendENRPTakeoverServer (cf_ENRPUnicastSocket cfg) 0 0 [] (pln_Identifier n) targetID
    else mret tt) tt.

(** ** Startup *)

Definition registrarBeginNormalOperation (initializedFromMentor : bool) : M Reg () :=
  modify (rg_set_InStartupPhase false);;
  if cf_ASAPSendAnnounces cfg then timerStart ASAPAnnounceTimer 0 else mret tt.
End send.
