(* ===== verification/RegistrarAsap.v ===== *)
(** * The ASAP part of the registrar (rspregistrar-asap.c, and
    [registrarUpdateDistance] of rspregistrar-global.c)

    What pool elements and pool users ask for: registrations,
    deregistrations, handle resolutions, keep-alive acknowledgements,
    reports of unreachable elements; and what happens when the timer of an
    element expires or its association is lost. *)

From S2P Require Import Prelude Checksum Addresses PoolBasics Storage PoolElement PoolPolicy HandlespaceState PoolNode HandlespaceNode HandlespaceMgt PeerList HandlespacePeers Message MessageCreator MessageParser PoolUsers Registrar RegistrarSend.
From Stdlib Require Import SpecFloat.
From stdpp Require Import base list gmap numbers option.
#[local] Open Scope Z_scope.

Section asap.
Context {ST : Type} `{Storage ST} `{Endian}.
Context (cfg : RegistrarConfig) (env : Environment).
Abbreviation HS := (Handlespace ST).
Abbreviation Reg := (Registrar ST).
Abbreviation Msg := (RSerPoolMessage ST).

(** ** Announcements *)

Definition registrarHandleASAPAnnounceTimer : M Reg () :=
  CHECK (cf_ASAPSendAnnounces cfg);;
  CHECK (0 <=? cf_ASAPAnnounceSocket cfg);;
  withMessage env 65536 (λ message,
    packet ← toPacket
      (rm_set_RegistrarIdentifier (cf_ServerID cfg)
      (rm_set_Flags 0
      (rm_set_Type AHT_SERVER_ANNOUNCE message)));
    let '(messageLength, message) := packet in
    if 0 <? messageLength
    then sendmulticast (cf_ASAPAnnounceSocket cfg) (cf_ASAPAnnounceAddress cfg) message
    else mret tt);;
  now ← getMicroTime env;
  r ← observe (env_Rand env);
  timerStart ASAPAnnounceTimer (u64 (now + registrarRandomizeCycle r (cf_ServerAnnounceCycle cfg))).

(** ** Elements of the handlespace *)

Definition deactivateElementTimer (p : ptr) : M Reg () := onHs (onHandlespace (poolHandlespaceNodeDeactivateTimer p)).
Definition activateElementTimer (p : ptr) (timerCode timerTimeStamp : Z) : M Reg () :=
  onHs (onHandlespace (poolHandlespaceNodeActivateTimer p timerCode timerTimeStamp)).
Definition elementTimerLinked (p : ptr) : M Reg bool := onHs (onHandlespace (storageIsLinked SlotTimer p)).

(** The removal of an element: the peers are told if it was ours. *)
Definition removeElement (p : ptr) : M Reg Z :=
  n ← element p;
  (if pen_HomeRegistrarIdentifier n =? cf_ServerID cfg then sendHandleUpdateOf cfg env p PNUP_DEL_PE else mret tt);;
  deregisterElement p.

Definition withDistance (distance : Z) (s : PoolPolicySettings) : PoolPolicySettings :=
  MkPPS (pps_PolicyType s) (pps_Weight s) (pps_Load s) (pps_LoadDegradation s) (pps_LoadDPF s) (pps_WeightDPF s) distance.

(** The settings with the distance of the registrar, and the distance.  A
    distance of [0xffffffff] is not known yet. *)
Definition registrarUpdateDistance (fd assocID : Z) (poolElementNode : PoolElementNode) (addDistance : bool) (distance : Z) :
    M Reg (PoolPolicySettings * Z) :=
  let settings := pen_PolicySettings poolElementNode in
  let type := pps_PolicyType settings in
  if (type =? PPT_LEASTUSED_DPF) || (type =? PPT_LEASTUSED_DEGRADATION_DPF) || (type =? PPT_WEIGHTED_RANDOM_DPF) then
    distance ←
      (if distance =? 0xffffffff then
         srtt ← observe (λ t, env_SRTT env t fd assocID);
         mret (match srtt with
               | Some srtt => registrarRoundDistance (srtt / 2) (cf_DistanceStep cfg)
               | None => 0
               end)
       else mret distance);
    mret (withDistance (if addDistance then u32 (pps_Distance settings + distance) else distance) settings, distance)
  else mret (settings, 0).

Definition registerElement (handle : PoolHandle) (home identifier life : Z) (settings : PoolPolicySettings)
    (userTransport : TransportAddressBlock) (registratorTransport : option TransportAddressBlock) (fd assocID : Z) :
    M Reg (option ptr * Z) :=
  now ← getMicroTime env;
  mem ← elementMemory env;
  onHs (poolHandlespaceManagementRegisterPoolElement None poolElementNodeDisposer mem handle home identifier life
    settings userTransport registratorTransport fd assocID now).

(** ** Timers *)

Definition handleElementTimer (p : ptr) (n : PoolElementNode) : M Reg () :=
  if pen_TimerCode n =? PENT_KEEPALIVE_TRANSMISSION then
    deactivateElementTimer p;;
    registrarSendASAPEndpointKeepAlive cfg env p false;;
    now ← getMicroTime env;
    onHs (onHandlespace (pe_update p (set_LastKeepAliveTransmission now)));;
    activateElementTimer p PENT_KEEPALIVE_TIMEOUT (u64 (now + cf_EndpointKeepAliveTimeoutInterval cfg))
  else if (pen_TimerCode n =? PENT_KEEPALIVE_TIMEOUT) || (pen_TimerCode n =? PENT_EXPIRY) then
    (if pen_TimerCode n =? PENT_KEEPALIVE_TIMEOUT
     then sendabort (pen_ConnectionSocketDescriptor n) (pen_ConnectionAssocID n) else mret tt);;
    result ← removeElement p;
    CHECK (result =? RSPERR_OKAY)
  else abort.

Fixpoint elementTimers (fuel : nat) (poolElementNode : option ptr) : M Reg () :=
  match poolElementNode with
  | None => mret tt
  | Some p =>
      match fuel with
      | O => abort
      | S fuel' =>
          n ← element p;
          now ← getMicroTime env;
          if pen_TimerTimeStamp n <=? now then
            nextPoolElementNode ← onHs (onHandlespace (poolHandlespaceNodeGetNextPoolElementTimerNode p));
            handleElementTimer p n;;
            elementTimers fuel' nextPoolElementNode
          else mret tt
      end
  end.

(** An element is met at most twice: when its keep-alive is sent, and when
    the time for the answer is already over. *)
Definition registrarHandlePoolElementEvent : M Reg () :=
  fuel ← onHs (onHandlespace (storageFuel SlotTimer));
  first ← onHs (onHandlespace poolHandlespaceNodeGetFirstPoolElementTimerNode);
  elementTimers (2 * fuel) first;;
  restartHandlespaceTimer.

(** ** Lost associations *)

Definition registrarRemovePoolElementsOfConnection (sd assocID : Z) : M Reg () :=
  fuel ← onHs (onHandlespace (storageFuel SlotConnection));
  first ← onHs (onHandlespace (poolHandlespaceNodeGetFirstPoolElementConnectionNodeForConnection sd assocID));
  forElements fuel poolHandlespaceNodeGetNextPoolElementConnectionNodeForSameConnection (λ p,
    result ← removeElement p;
    CHECK (result =? RSPERR_OKAY)) first.

(** ** Registration *)

(** A reply, or the end of the association. *)
Definition reply (fd assocID : Z) (message : Msg) : M Reg () :=
  r ← rserpoolMessageSend env fd assocID 0 [] message;
  if negb r.1 then sendabort fd assocID else mret tt.

(** The timer of an element that was registered. *)
Definition startElementTimer (p : ptr) (timerCode interval : Z) : M Reg () :=
  linked ← elementTimerLinked p;
  (if linked : bool then deactivateElementTimer p else mret tt);;
  now ← getMicroTime env;
  activateElementTimer p timerCode (u64 (now + interval));;
  restartHandlespaceTimer.

(** With the filtered addresses; returns [message->Error]. *)
Definition registerAtHome (fd assocID : Z) (handle : PoolHandle) (pe : PoolElementNode)
    (userTransport asapTransport : TransportAddressBlock) : M Reg Z :=
  d ← registrarUpdateDistance fd assocID pe false 0xffffffff;
  r ← registerElement handle (cf_ServerID cfg) (pen_Identifier pe) (pen_RegistrationLife pe) d.1
        userTransport (Some asapTransport) fd assocID;
  if r.2 =? RSPERR_OKAY then
    p ← deref (λ _, r.1);
    startElementTimer p PENT_KEEPALIVE_TRANSMISSION (cf_EndpointKeepAliveTransmissionInterval cfg);;
    sendHandleUpdateOf cfg env p PNUP_ADD_PE;;
    mret r.2
  else mret r.2.

Definition filterAddresses (original : TransportAddressBlock) (association : option TransportAddressBlock) (filterPort : bool) :
    M Reg (option TransportAddressBlock) :=
  deref (λ _, transportAddressBlockFilter original association MAX_PE_TRANSPORTADDRESSES filterPort (cf_MinEndpointAddressScope cfg)).

Definition registrarHandleASAPRegistration (fd assocID : Z) (message : Msg) : M Reg () :=
  pe ← deref (λ _, rm_PoolElementPtr message);
  let message := rm_set_Identifier (pen_Identifier pe)
    (on_Status (ms_set_Error RSPERR_OKAY) (rm_set_Flags 0 (rm_set_Type AHT_REGISTRATION_RESPONSE message))) in
  remote ← peerAddresses env fd assocID;
  match remote with
  | None => mret tt
  | Some remoteAddressBlock =>
      user ← filterAddresses (pen_UserTransport pe) (Some remoteAddressBlock) false;
      error ←
        match user with
        | None => mret RSPERR_NO_USABLE_USER_ADDRESSES
        | Some userTransport =>
            asap ← filterAddresses remoteAddressBlock None true;
            match asap with
            | None => mret RSPERR_NO_USABLE_ASAP_ADDRESSES
            | Some asapTransport => registerAtHome fd assocID (rm_Handle message) pe userTransport asapTransport
            end
        end;
      let message := on_Status (ms_set_Error error) message in
      reply fd assocID
        (if negb (error =? 0) then rm_set_Flags (Z.lor (rm_Flags message) AHF_REGISTRATION_REJECT) message else message)
  end.

(** ** Deregistration *)

(** The copies of the element's transports are made before it is removed. *)
Definition registrarHandleASAPDeregistration (fd assocID : Z) (message : Msg) : M Reg () :=
  let message := rm_set_Flags 0 (rm_set_Type AHT_DEREGISTRATION_RESPONSE message) in
  found ← onHs (poolHandlespaceManagementFindPoolElement (rm_Handle message) (rm_Identifier message));
  error ←
    match found with
    | Some p =>
        n ← element p;
        handle ← ownerHandle n;
        m1 ← mallocResult env; m2 ← mallocResult env;
        let registratorTransport := transportAddressBlockDuplicate m1 (pen_RegistratorTransport n) in
        match transportAddressBlockDuplicate m2 (Some (pen_UserTransport n)), registratorTransport with
        | Some userTransport, Some _ =>
            let delPoolElementNode := set_RegistratorTransport registratorTransport (set_UserTransport userTransport n) in
            error ← deregisterElement p;
            (if error =? RSPERR_OKAY then
               registrarSendENRPHandleUpdate cfg env handle
                 (set_HomeRegistrarIdentifier (cf_ServerID cfg) delPoolElementNode) PNUP_DEL_PE
             else mret tt);;
            mret error
        | _, _ => mret RSPERR_OUT_OF_MEMORY
        end
    | None => mret RSPERR_OKAY
    end;
  reply fd assocID (on_Status (ms_set_Error error) message).

(** ** Pool users *)

Definition hasPermission (fd assocID action : Z) (handle : PoolHandle) : M Reg bool :=
  r ← get;
  now ← getMicroTime env;
  b1 ← mallocResult env; b2 ← mallocResult env;
  onUsers (registrarPoolUserHasPermissionFor
    (if b1 : bool then Some (fresh (dom (pul_PoolUserNodes (rg_PoolUsers r)))) else None) b2
    (cf_MaxHRRate cfg) (cf_MaxEURate cfg) now fd assocID action handle 0).

(** [rate > 0.0] *)
Definition limited (rate : spec_float) : bool := SFltb (S754_zero false) rate.

Definition refused (fd assocID action : Z) (rate : spec_float) (handle : PoolHandle) : M Reg bool :=
  if limited rate then permitted ← hasPermission fd assocID action handle; mret (negb permitted) else mret false.

(** The selected elements in the response. *)
Definition selectionMessage (nodes : list PoolElementNode) (message : Msg) : Msg :=
  rm_set_PoolElementPtrArray ((Some <$> nodes) ++ drop (length nodes) (rm_PoolElementPtrArray message))
  (rm_set_PoolElementPtrArraySize (Z.of_nat (length nodes))
  (match nodes with
   | n :: _ => rm_set_PolicySettings (pen_PolicySettings n) message
   | [] => message
   end)).

Fixpoint elements (l : list ptr) : M Reg (list PoolElementNode) :=
  match l with
  | [] => mret []
  | p :: l' => n ← element p; ns ← elements l'; mret (n :: ns)
  end.

Definition registrarHandleASAPHandleResolution (fd assocID : Z) (message : Msg) : M Reg () :=
  let requested := if rm_Addresses message =? 0 then cf_MaxHandleResolutionItems cfg else rm_Addresses message in
  let items := Z.min requested MAX_MAX_HANDLE_RESOLUTION_ITEMS in
  let message := rm_set_Flags 0 (rm_set_Type AHT_HANDLE_RESOLUTION_RESPONSE message) in
  refusal ← refused fd assocID AHT_HANDLE_RESOLUTION (cf_MaxHRRate cfg) (rm_Handle message);
  r ← (if refusal : bool then mret ([], RSPERR_NOT_FOUND)
       else
         random64 ← observe (env_Random64 env);
         onHs (poolHandlespaceManagementHandleResolution random64 (rm_Handle message) items (cf_MaxIncrement cfg)));
  let '(poolElementNodeArray, error) := r in
  let message := on_Status (ms_set_Error error) message in
  message ← (if error =? RSPERR_OKAY
             then nodes ← elements poolElementNodeArray; mret (selectionMessage nodes message)
             else mret message);
  reply fd assocID message.

(** ** Keep-alives and reports *)

Definition registrarHandleASAPEndpointKeepAliveAck (fd assocID : Z) (message : Msg) : M Reg () :=
  found ← onHs (poolHandlespaceManagementFindPoolElement (rm_Handle message) (rm_Identifier message));
  match found with
  | Some p =>
      deactivateElementTimer p;;
      now ← getMicroTime env;
      activateElementTimer p PENT_KEEPALIVE_TRANSMISSION (u64 (now + cf_EndpointKeepAliveTransmissionInterval cfg));;
      restartHandlespaceTimer
  | None => mret tt
  end.

Definition registrarHandleASAPEndpointUnreachable (fd assocID : Z) (message : Msg) : M Reg () :=
  refusal ← refused fd assocID AHT_ENDPOINT_UNREACHABLE (cf_MaxEURate cfg) (rm_Handle message);
  if refusal : bool then mret tt
  else
    found ← onHs (poolHandlespaceManagementFindPoolElement (rm_Handle message) (rm_Identifier message));
    match found with
    | Some p =>
        onHs (onHandlespace (pe_update p (λ n, set_UnreachabilityReports (u32 (pen_UnreachabilityReports n + 1)) n)));;
        n ← element p;
        if cf_MaxBadPEReports cfg <=? pen_UnreachabilityReports n
        then _ ← removeElement p; mret tt
        else mret tt
    | None => mret tt
    end.
End asap.
