(* ===== verification/RegistrarTakeover.v ===== *)
(** * Takeovers (rspregistrar-takeover.c, takeoverprocess.c)

    A registrar that does not hear from a peer any more asks the other peers
    whether it may take over the dead peer's pool elements.  The process is
    over when all of them have acknowledged; if two registrars try the same
    takeover, the one with the lower identifier goes on. *)

From S2P Require Import Prelude Addresses PoolBasics Storage PoolElement PoolPolicy HandlespaceState HandlespaceNode HandlespaceMgt PeerList HandlespacePeers Message MessageCreator PoolUsers Registrar RegistrarSend RegistrarAsap.
From stdpp Require Import base list gmap numbers option.
#[local] Open Scope Z_scope.

Section takeover.
Context {ST : Type} `{Storage ST} `{Endian}.
Context (cfg : RegistrarConfig) (env : Environment).
Abbreviation Reg := (Registrar ST).
Abbreviation Msg := (RSerPoolMessage ST).

(** ** Takeover processes *)

Definition takeover_get (t : ptr) : M Reg TakeoverProcess := deref (λ r, rg_TakeoverProcesses r !! t).
Definition takeover_store (t : ptr) (v : TakeoverProcess) : M Reg () :=
  modify (λ r, rg_set_TakeoverProcesses (<[t := v]> (rg_TakeoverProcesses r)) r).

(** All peers but the target, ourselves and those without identifier. *)
Definition takeoverProcessNew (targetID : Z) : M Reg (option ptr) :=
  CHECK (negb (targetID =? 0));;
  ownIdentifier ← onPl (onList (gets pl_OwnIdentifier));
  CHECK (negb (targetID =? ownIdentifier));;
  ok ← mallocResult env;
  if ok : bool then
    peers ← forAllPeers (λ l _ n,
      mret (if negb (pln_Identifier n =? targetID) && negb (pln_Identifier n =? ownIdentifier) && negb (pln_Identifier n =? 0)
            then l ++ [pln_Identifier n] else l)) [];
    r ← get;
    let t := fresh (dom (rg_TakeoverProcesses r)) in
    takeover_store t (MkTakeoverProcess peers);;
    mret (Some t)
  else mret None.

Definition takeoverProcessDelete (t : ptr) : M Reg () :=
  _ ← takeover_get t;
  modify (λ r, rg_set_TakeoverProcesses (delete t (rg_TakeoverProcesses r)) r).

(** [takeoverProcessDelete(node->TakeoverProcess); node->TakeoverProcess = NULL] *)
Definition dropTakeoverProcess (p t : ptr) : M Reg () := takeoverProcessDelete t;; setPeer p (pln_set_TakeoverProcess None).

Definition findPeer (identifier : Z) : M Reg (option ptr) := onPl (peerListManagementFindPeerListNode identifier None).

(** The timer of a peer, stopped and started again. *)
Definition restartPeer (p : ptr) (timerCode interval : Z) : M Reg () :=
  onPl (peerListManagementDeactivateTimer p);;
  now ← getMicroTime env;
  onPl (peerListManagementActivateTimer p timerCode (u64 (now + interval))).

(** ** Finishing *)

(** One element of the dead peer becomes ours. *)
Definition takeElement (p : ptr) : M Reg () :=
  deactivateElementTimer p;;
  onHs (onHandlespace (poolHandlespaceNodeUpdateOwnershipOfPoolElementNode p (cf_ServerID cfg)));;
  registrarSendASAPEndpointKeepAlive cfg env p true;;
  now ← getMicroTime env;
  activateElementTimer p PENT_KEEPALIVE_TIMEOUT (u64 (now + cf_EndpointKeepAliveTimeoutInterval cfg)).

Definition registrarFinishTakeover (targetID : Z) : M Reg () :=
  registrarSendENRPTakeoverServerToAllPeers cfg env targetID;;
  forOwned targetID takeElement;;
  restartHandlespaceTimer.

(** ** Handlers *)

Definition registrarHandleENRPInitTakeover (fd assocID : Z) (message : Msg) : M Reg () :=
  if rm_SenderID message =? cf_ServerID cfg then mret tt
  else if rm_RegistrarIdentifier message =? cf_ServerID cfg then
    (if cf_ENRPAnnounceViaMulticast cfg
     then registrarSendENRPPresence cfg env (cf_ENRPMulticastOutputSocket cfg) 0 0 [cf_ENRPMulticastAddress cfg] 0 false
     else mret tt);;
    registrarSendENRPPresenceToAllPeers cfg env
  else
    found ← findPeer (rm_RegistrarIdentifier message);
    match found with
    | Some p =>
        n ← peer p;
        match pln_TakeoverProcess n with
        | Some t =>
            if rm_SenderID message <? cf_ServerID cfg then
              setPeer p (pln_set_TakeoverRegistrarID (rm_SenderID message));;
              registrarSendENRPInitTakeoverAck cfg env fd assocID (rm_SenderID message) (rm_RegistrarIdentifier message);;
              dropTakeoverProcess p t;;
              restartPeer p PLNT_MAX_TIME_NO_RESPONSE (cf_PeerMaxTimeNoResponse cfg)
            else mret tt
        | None =>
            setPeer p (pln_set_TakeoverRegistrarID (rm_SenderID message));;
            registrarSendENRPInitTakeoverAck cfg env fd assocID (rm_SenderID message) (rm_RegistrarIdentifier message)
        end
    | None => registrarSendENRPInitTakeoverAck cfg env fd assocID (rm_SenderID message) (rm_RegistrarIdentifier message)
    end.

Definition registrarHandleENRPInitTakeoverAck (fd assocID : Z) (message : Msg) : M Reg () :=
  if rm_SenderID message =? cf_ServerID cfg then mret tt
  else
    found ← findPeer (rm_RegistrarIdentifier message);
    match found with
    | Some p =>
        n ← peer p;
        match pln_TakeoverProcess n with
        | Some t =>
            process ← takeover_get t;
            let '(acksToGo, process) := takeoverProcessAcknowledge process (rm_RegistrarIdentifier message) (rm_SenderID message) in
            takeover_store t process;;
            if 0 <? acksToGo then mret tt
            else
              registrarFinishTakeover (rm_RegistrarIdentifier message);;
              dropTakeoverProcess p t;;
              _ ← deregisterPeer p;
              mret tt
        | None => mret tt
        end
    | None => mret tt
    end.

Definition registrarHandleENRPTakeoverServer (fd assocID : Z) (message : Msg) : M Reg () :=
  if rm_SenderID message =? cf_ServerID cfg then mret tt
  else
    forOwned (rm_RegistrarIdentifier message) (λ p,
      onHs (onHandlespace (poolHandlespaceNodeUpdateOwnershipOfPoolElementNode p (rm_SenderID message)))).
End takeover.
