(* ===== verification/RegistrarEnrp.v ===== *)
(** * The ENRP part of the registrar (rspregistrar-enrp.c)

    What the peers tell: their presence, changes of the handlespace, their
    peer lists and handle tables; and what happens when the timer of a peer
    expires. *)

From S2P Require Import Prelude Checksum Addresses PoolBasics Storage PoolElement PoolPolicy HandlespaceState HandlespaceNode HandlespaceMgt PeerList HandlespacePeers Message MessageCreator MessageParser PoolUsers Registrar RegistrarSend RegistrarAsap RegistrarTakeover.
From stdpp Require Import base list gmap numbers option.
#[local] Open Scope Z_scope.

Section enrp.
Context {ST : Type} `{Storage ST} `{Endian}.
Context (cfg : RegistrarConfig) (env : Environment).
Abbreviation HS := (Handlespace ST).
Abbreviation PLM := (PeerListManagement ST).
Abbreviation PHM := (PoolHandlespaceManagement ST).
Abbreviation Reg := (Registrar ST).
Abbreviation Msg := (RSerPoolMessage ST).

(** ** Announcements *)

Definition registrarHandleENRPAnnounceTimer : M Reg () :=
  r ← get;
  (if rg_InStartupPhase r then registrarBeginNormalOperation cfg false else mret tt);;
  (if cf_ENRPAnnounceViaMulticast cfg
   then registrarSendENRPPresence cfg env (cf_ENRPMulticastOutputSocket cfg) 0 0 [cf_ENRPMulticastAddress cfg] 0 false
   else mret tt);;
  registrarSendENRPPresenceToAllPeers cfg env;;
  now ← getMicroTime env;
  r ← observe (env_Rand env);
  timerStart ENRPAnnounceTimer (u64 (now + registrarRandomizeCycle r (cf_PeerHeartbeatCycle cfg))).

(** ** Timers of peers *)

(** [poolHandlespaceNodeGetFirstPoolElementOwnershipNodeForIdentifier(...) != NULL] *)
Definition ownsElements (identifier : Z) : M Reg bool :=
  first ← onHs (onHandlespace (poolHandlespaceNodeGetFirstPoolElementOwnershipNodeForIdentifier identifier));
  mret (bool_decide (first ≠ None)).

Definition removePeer (p : ptr) : M Reg () := _ ← deregisterPeer p; mret tt.

Definition handlePeerTimer (p : ptr) (n : PeerListNode) : M Reg () :=
  if pln_TimerCode n =? PLNT_MAX_TIME_LAST_HEARD then
    addresses ← addressesOf n;
    registrarSendENRPPresence cfg env (cf_ENRPUnicastSocket cfg) 0 0 addresses (pln_Identifier n) true;;
    restartPeer env p PLNT_MAX_TIME_NO_RESPONSE (cf_PeerMaxTimeNoResponse cfg)
  else if pln_TimerCode n =? PLNT_MAX_TIME_NO_RESPONSE then
    CHECK (bool_decide (pln_TakeoverProcess n = None));;
    if pln_TakeoverRegistrarID n =? UNDEFINED_REGISTRAR_IDENTIFIER then
      owner ← ownsElements (pln_Identifier n);
      if owner : bool then
        process ← takeoverProcessNew env (pln_Identifier n);
        setPeer p (pln_set_TakeoverProcess process);;
        match process with
        | Some _ =>
            registrarSendENRPInitTakeoverToAllPeers cfg env (pln_Identifier n);;
            restartPeer env p PLNT_TAKEOVER_EXPIRY (cf_TakeoverExpiryInterval cfg)
        | None => mret tt
        end
      else removePeer p
    else removePeer p
  else if pln_TimerCode n =? PLNT_TAKEOVER_EXPIRY then
    t ← deref (λ _, pln_TakeoverProcess n);
    dropTakeoverProcess p t;;
    removePeer p
  else abort.

Fixpoint peerTimers (fuel : nat) (peerListNode : option ptr) : M Reg () :=
  match peerListNode with
  | None => mret tt
  | Some p =>
      match fuel with
      | O => abort
      | S fuel' =>
          n ← peer p;
          now ← getMicroTime env;
          if pln_TimerTimeStamp n <=? now then
            nextPeerListNode ← onPl (peerListManagementGetNextPeerListNodeFromTimerStorage p);
            handlePeerTimer p n;;
            peerTimers fuel' nextPeerListNode
          else mret tt
      end
  end.

(** A peer is met at most three times: when it was not heard, when it did
    not respond, and when its takeover expires. *)
Definition registrarHandlePeerEvent : M Reg () :=
  fuel ← onPl (onList (peerRead PeerTimer (λ s, length (st_list s))));
  first ← onPl peerListManagementGetFirstPeerListNodeFromTimerStorage;
  peerTimers (3 * fuel) first;;
  restartPeerTimer.

(** ** Handle updates *)

(** 1000 times the registration life, in [unsigned long long]. *)
Definition lifetime (n : PoolElementNode) : Z := u64 (1000 * pen_RegistrationLife n).

Definition addElement (fd assocID : Z) (message : Msg) (pe : PoolElementNode) : M Reg () :=
  d ← registrarUpdateDistance cfg env fd assocID pe true 0xffffffff;
  r ← registerElement env (rm_Handle message) (pen_HomeRegistrarIdentifier pe) (pen_Identifier pe) (pen_RegistrationLife pe) d.1
        (pen_UserTransport pe) (pen_RegistratorTransport pe) (-1) 0;
  if r.2 =? RSPERR_OKAY then
    p ← deref (λ _, r.1);
    n ← element p;
    startElementTimer env p PENT_EXPIRY (lifetime n);;
    n ← element p;
    if flag_test (rm_Flags message) EHF_TAKEOVER_SUGGESTED && cf_ENRPSupportTakeoverSuggestion cfg &&
       negb (pen_HomeRegistrarIdentifier n =? cf_ServerID cfg)
    then registrarSendASAPEndpointKeepAlive cfg env p true
    else mret tt
  else mret tt.

Definition registrarHandleENRPHandleUpdate (fd assocID : Z) (message : Msg) : M Reg () :=
  if rm_SenderID message =? cf_ServerID cfg then mret tt
  else if rm_Action message =? PNUP_ADD_PE then
    pe ← deref (λ _, rm_PoolElementPtr message);
    if negb (pen_HomeRegistrarIdentifier pe =? cf_ServerID cfg) then addElement fd assocID message pe else mret tt
  else if rm_Action message =? PNUP_DEL_PE then
    pe ← deref (λ _, rm_PoolElementPtr message);
    found ← onHs (poolHandlespaceManagementFindPoolElement (rm_Handle message) (pen_Identifier pe));
    match found with
    | Some p => _ ← deregisterElement p; mret tt
    | None => mret tt
    end
  else mret tt.

(** ** Peer lists *)

Definition registrarHandleENRPListRequest (fd assocID : Z) (message : Msg) : M Reg () :=
  if rm_SenderID message =? cf_ServerID cfg then mret tt
  else
    withMessage env 65536 (λ response,
      r ← get;
      _ ← rserpoolMessageSend env fd assocID 0 []
            (rm_set_PeerListPtr (Some (rg_Peers r))
            (rm_set_ReceiverID (rm_SenderID message)
            (rm_set_SenderID (cf_ServerID cfg)
            (rm_set_Flags 0
            (rm_set_AssocID assocID
            (rm_set_Type EHT_LIST_RESPONSE response))))));
      mret tt).

Definition peerTimerLinked (p : ptr) : M Reg bool := onPl (onList (peerRead PeerTimer (λ s, STN_IsLinked s p))).

(** One entry of the peer's list. *)
Definition learnPeer (n : PeerListNode) : M Reg () :=
  if negb (pln_Identifier n =? UNDEFINED_REGISTRAR_IDENTIFIER) then
    now ← getMicroTime env;
    r ← registerPeer env (pln_Identifier n) (pln_Flags n) (pln_AddressBlock n) now;
    if r.2 =? RSPERR_OKAY then
      p ← deref (λ _, r.1);
      linked ← peerTimerLinked p;
      if negb linked then
        now ← getMicroTime env;
        onPl (peerListManagementActivateTimer p PLNT_MAX_TIME_LAST_HEARD (u64 (now + cf_PeerMaxTimeLastHeard cfg)));;
        new ← peer p;
        addresses ← addressesOf new;
        registrarSendENRPPresence cfg env (cf_ENRPUnicastSocket cfg) 0 0 addresses (pln_Identifier new) false
      else mret tt
    else mret tt
  else mret tt.

(** The walk over the list in the message. *)
Definition learnPeers (list : PLM) : M Reg () :=
  let pl := plm_List list in
  fuel ← deref (λ _, fst <$> peerFuel pl);
  first ← deref (λ _, fst <$> peerListGetFirstPeerListNodeFromIndexStorage pl);
  walk fuel (λ q, deref (λ _, fst <$> peerListGetNextPeerListNodeFromIndexStorage q pl))
    (λ _ q, n ← deref (λ _, pl_PeerListNodes pl !! q); learnPeer n) first tt.

Definition registrarHandleENRPListResponse (fd assocID : Z) (message : Msg) : M Reg () :=
  if rm_SenderID message =? cf_ServerID cfg then mret tt
  else if negb (flag_test (rm_Flags message) EHF_LIST_RESPONSE_REJECT) then
    match rm_PeerListPtr message with
    | Some list => learnPeers list
    | None => mret tt
    end;;
    restartPeerTimer
  else mret tt.

(** ** Handle tables *)

(** The response refers to the peer's node, where its creation keeps how far
    it got, and to the handlespace. *)
Definition registrarHandleENRPHandleTableRequest (fd assocID : Z) (message : Msg) : M Reg () :=
  if rm_SenderID message =? cf_ServerID cfg then mret tt
  else
    found ← findPeer (rm_SenderID message);
    withMessage env 1400 (λ response,
      node ← match found with Some p => n ← peer p; mret (Some n) | None => mret None end;
      r ← get;
      memory ← observe (env_ParserMemory env);
      let response :=
        rm_set_Memory memory
        (rm_set_MaxElementsPerHTRequest (cf_MaxElementsPerHTRequest cfg)
        (rm_set_HandlespacePtr (Some (rg_Handlespace r))
        (rm_set_PeerListNodePtr node
        (rm_set_Action (rm_Flags message)
        (rm_set_ReceiverID (rm_SenderID message)
        (rm_set_SenderID (cf_ServerID cfg)
        (rm_set_Flags (match found with None => EHF_HANDLE_TABLE_RESPONSE_REJECT | Some _ => 0 end)
        (rm_set_AssocID assocID
        (rm_set_Type EHT_HANDLE_TABLE_RESPONSE response))))))))) in
      sent ← rserpoolMessageSend env fd assocID 0 [] response;
      match found with
      | Some p => setPeer p (pln_set_UserData (rm_PeerListNodePtr sent.2 ≫= pln_UserData))
      | None => mret tt
      end).

(** One element of the peer's table, with the distance known so far. *)
Definition learnElement (fd assocID : Z) (hs : HS) (distance : Z) (q : ptr) : M Reg Z :=
  pe ← deref (λ _, hs_PoolElementNodes hs !! q);
  d ← registrarUpdateDistance cfg env fd assocID pe true distance;
  (if negb (pen_HomeRegistrarIdentifier pe =? cf_ServerID cfg) then
     handle ← deref (λ _, owner_handle hs pe);
     r ← registerElement env handle (pen_HomeRegistrarIdentifier pe) (pen_Identifier pe) (pen_RegistrationLife pe) d.1
           (pen_UserTransport pe) (pen_RegistratorTransport pe) (-1) 0;
     if r.2 =? RSPERR_OKAY then
       p ← deref (λ _, r.1);
       linked ← elementTimerLinked p;
       if negb linked then
         n ← element p;
         now ← getMicroTime env;
         activateElementTimer p PENT_EXPIRY (u64 (now + lifetime n))
       else mret tt
     else mret tt
   else mret tt);;
  mret d.2.

(** The walk over the handlespace in the message. *)
Definition learnElements (fd assocID : Z) (table : PHM) : M Reg () :=
  let hs := phm_Handlespace table in
  fuel ← deref (λ _, fst <$> storageFuel SlotOwnership hs);
  first ← deref (λ _, fst <$> poolHandlespaceNodeGetFirstPoolElementOwnershipNode hs);
  _ ← walk fuel (λ q, deref (λ _, fst <$> poolHandlespaceNodeGetNextPoolElementOwnershipNode q hs))
        (learnElement fd assocID hs) first 0xffffffff;
  restartHandlespaceTimer.

(** [peerListNode->Status &= ~(PLNS_MENTOR|PLNS_HTSYNC)] *)
Definition synchronized (p : ptr) : M Reg () :=
  setPeer p (λ n, pln_set_Status (Z.ldiff (pln_Status n) (Z.lor PLNS_MENTOR PLNS_HTSYNC)) n).

Definition registrarHandleENRPHandleTableResponse (fd assocID : Z) (message : Msg) : M Reg () :=
  if rm_SenderID message =? cf_ServerID cfg then mret tt
  else
    found ← findPeer (rm_SenderID message);
    match found with
    | None => mret tt
    | Some p =>
        if negb (flag_test (rm_Flags message) EHF_HANDLE_TABLE_RESPONSE_REJECT) then
          match rm_HandlespacePtr message with
          | Some table =>
              learnElements fd assocID table;;
              if flag_test (rm_Flags message) EHF_HANDLE_TABLE_RESPONSE_MORE_TO_SEND then
                n ← peer p;
                registrarSendENRPHandleTableRequest cfg env fd (rm_AssocID message) 0 [] (rm_SenderID message)
                  (if flag_test (pln_Status n) PLNS_MENTOR then 0 else EHF_HANDLE_TABLE_REQUEST_OWN_CHILDREN_ONLY)
              else
                synchronized p;;
                _ ← onHs (poolHandlespaceManagementPurgeMarkedPoolElementNodes None poolElementNodeDisposer (rm_SenderID message));
                r ← get;
                if rg_InStartupPhase r && (rg_MentorServerID r =? rm_SenderID message)
                then registrarBeginNormalOperation cfg true
                else mret tt
          | None => synchronized p
          end
        else synchronized p
    end.

(** ** Presence *)

(** The addresses under which the peer can be reached; [None] is an early
    return. *)
Definition presenceAddresses (fd assocID : Z) (message : Msg) : M Reg (option TransportAddressBlock) :=
  if fd =? cf_ENRPMulticastInputSocket cfg then
    info ← deref (λ _, rm_PeerListNodePtr message);
    port ← deref (λ _, match pln_AddressBlock info with
                       | Some t => Some (tab_Port t)
                       | None => getPort (rm_SourceAddress message)
                       end);
    mret (Some (transportAddressBlockNew IPPROTO_SCTP port 0 [rm_SourceAddress message] MAX_PE_TRANSPORTADDRESSES))
  else
    remote ← peerAddresses env fd assocID;
    match remote with
    | Some remoteAddressBlock =>
        info ← deref (λ _, rm_PeerListNodePtr message);
        original ← deref (λ _, pln_AddressBlock info);
        filterAddresses cfg original (Some remoteAddressBlock) true
    | None => mret None
    end.

Definition addStatus (p : ptr) (bits : Z) : M Reg () := setPeer p (λ n, pln_set_Status (Z.lor (pln_Status n) bits) n).

Definition askMentor (p : ptr) : M Reg () :=
  r ← get;
  if rg_InStartupPhase r && (rg_MentorServerID r =? UNDEFINED_REGISTRAR_IDENTIFIER) then
    addStatus p (Z.lor PLNS_LISTSYNC (Z.lor PLNS_HTSYNC PLNS_MENTOR));;
    n ← peer p;
    modify (rg_set_MentorServerID (pln_Identifier n));;
    addresses ← addressesOf n;
    registrarSendENRPListRequest cfg env (cf_ENRPUnicastSocket cfg) 0 0 addresses (pln_Identifier n);;
    registrarSendENRPHandleTableRequest cfg env (cf_ENRPUnicastSocket cfg) 0 0 addresses (pln_Identifier n) 0
  else mret tt.

(** Only presences received by SCTP start a synchronization. *)
Definition synchronize (fd assocID : Z) (message : Msg) (p : ptr) : M Reg () :=
  if negb (assocID =? 0) then
    n ← peer p;
    (if negb (flag_test (pln_Status n) PLNS_HTSYNC) then
       if negb (peerListNodeGetOwnershipChecksum n =? rm_Checksum message) then
         addStatus p PLNS_HTSYNC;;
         registrarSendENRPHandleTableRequest cfg env fd assocID 0 [] (pln_Identifier n) EHF_HANDLE_TABLE_REQUEST_OWN_CHILDREN_ONLY;;
         onHs (poolHandlespaceManagementMarkPoolElementNodes (rm_SenderID message))
       else mret tt
     else mret tt);;
    n ← peer p;
    if negb (flag_test (pln_Status n) PLNS_LISTSYNC) then
      addStatus p PLNS_LISTSYNC;;
      registrarSendENRPListRequest cfg env fd assocID 0 [] (pln_Identifier n)
    else mret tt
  else mret tt.

(** What follows the successful registration of the peer. *)
Definition welcomePeer (fd assocID : Z) (message : Msg) (p : ptr) : M Reg () :=
  n ← peer p;
  (if flag_test (pln_Flags n) PLNF_NEW then
     addresses ← addressesOf n;
     registrarSendENRPPresence cfg env (cf_ENRPUnicastSocket cfg) 0 0 addresses (pln_Identifier n) true
   else mret tt);;
  askMentor p;;
  synchronize fd assocID message p;;
  linked ← peerTimerLinked p;
  (if linked : bool then onPl (peerListManagementDeactivateTimer p) else mret tt);;
  now ← getMicroTime env;
  onPl (peerListManagementActivateTimer p PLNT_MAX_TIME_LAST_HEARD (u64 (now + cf_PeerMaxTimeLastHeard cfg)));;
  restartPeerTimer;;
  if flag_test (rm_Flags message) EHF_PRESENCE_REPLY_REQUIRED && negb (fd =? cf_ENRPMulticastOutputSocket cfg) &&
     negb (rm_SenderID message =? UNDEFINED_REGISTRAR_IDENTIFIER)
  then registrarSendENRPPresence cfg env fd (rm_AssocID message) 0 [] (rm_SenderID message) false
  else mret tt.

(** After the registration, [peerListNode] is dereferenced also when it
    failed. *)
Definition registrarHandleENRPPresence (fd assocID : Z) (message : Msg) : M Reg () :=
  if rm_SenderID message =? cf_ServerID cfg then mret tt
  else
    addresses ← presenceAddresses fd assocID message;
    match addresses, rm_PeerListNodePtr message with
    | Some enrpTransportAddressBlock, Some info =>
        now ← getMicroTime env;
        r ← registerPeer env (pln_Identifier info) (Z.lor PLNF_DYNAMIC PLNF_NEW) (Some enrpTransportAddressBlock) now;
        (if r.2 =? RSPERR_OKAY
         then p ← deref (λ _, r.1); welcomePeer fd assocID message p
         else mret tt);;
        p ← deref (λ _, r.1);
        setPeer p (pln_set_TakeoverRegistrarID UNDEFINED_REGISTRAR_IDENTIFIER);;
        n ← peer p;
        match pln_TakeoverProcess n with
        | Some t => dropTakeoverProcess p t
        | None => mret tt
        end
    | _, _ => mret tt
    end.
End enrp.
