(* ===== verification/RegistrarCore.v ===== *)
(** * The core of the registrar (rspregistrar-core.c, rspregistrar-global.c)

    The dispatch of messages to their handlers, what is read from a socket,
    the expiry of a timer, and the construction of a registrar. *)

From S2P Require Import Prelude Addresses PoolBasics Storage HandlespaceState HandlespaceMgt PeerList HandlespacePeers Message MessageCreator MessageParser PoolUsers Registrar RegistrarSend RegistrarAsap RegistrarTakeover RegistrarEnrp.
From Stdlib Require Import SpecFloat.
From stdpp Require Import base list gmap numbers option.
#[local] Open Scope Z_scope.

(** ** Configuration *)

Definition REGISTRAR_DEFAULT_DISTANCE_STEP : Z := 50.
Definition REGISTRAR_DEFAULT_MAX_BAD_PE_REPORTS : Z := 3.
Definition REGISTRAR_DEFAULT_SERVER_ANNOUNCE_CYCLE : Z := 1000000.
Definition REGISTRAR_DEFAULT_ENDPOINT_KEEP_ALIVE_TRANSMISSION_INTERVAL : Z := 5000000.
Definition REGISTRAR_DEFAULT_ENDPOINT_KEEP_ALIVE_TIMEOUT_INTERVAL : Z := 5000000.
Definition REGISTRAR_DEFAULT_MAX_ELEMENTS_PER_HANDLE_TABLE_REQUEST : Z := 128.
Definition REGISTRAR_DEFAULT_MAX_INCREMENT : Z := 0.
Definition REGISTRAR_DEFAULT_MAX_HANDLE_RESOLUTION_ITEMS : Z := 3.
Definition REGISTRAR_DEFAULT_PEER_HEARTBEAT_CYCLE : Z := 2444444.
Definition REGISTRAR_DEFAULT_PEER_MAX_TIME_LAST_HEARD : Z := 5000000.
Definition REGISTRAR_DEFAULT_PEER_MAX_TIME_NO_RESPONSE : Z := 5000000.
Definition REGISTRAR_DEFAULT_MENTOR_DISCOVERY_TIMEOUT : Z := 5000000.
Definition REGISTRAR_DEFAULT_TAKEOVER_EXPIRY_INTERVAL : Z := 5000000.
(** -1.0 is unlimited *)
Definition REGISTRAR_DEFAULT_MAX_RATE : spec_float := S754_finite true 4503599627370496 (-52).

(** What [registrarNew] stores: its arguments and the default values.  The
    two multicast sockets are assigned crosswise. *)
Definition registrarConfig (serverID asapUnicastSocket asapAnnounceSocket enrpUnicastSocket enrpMulticastOutputSocket
    enrpMulticastInputSocket : Z) (asapSendAnnounces : bool) (asapAnnounceAddress : sockaddr_union)
    (enrpAnnounceViaMulticast : bool) (enrpMulticastAddress : sockaddr_union) (random32 : Z) : RegistrarConfig :=
  {| cf_ServerID := if serverID =? 0 then random32 else serverID;
     cf_ASAPSocket := asapUnicastSocket;
     cf_ASAPAnnounceSocket := asapAnnounceSocket;
     cf_ASAPAnnounceAddress := asapAnnounceAddress;
     cf_ASAPSendAnnounces := asapSendAnnounces;
     cf_ENRPMulticastOutputSocket := enrpMulticastInputSocket;
     cf_ENRPMulticastInputSocket := enrpMulticastOutputSocket;
     cf_ENRPMulticastAddress := enrpMulticastAddress;
     cf_ENRPUnicastSocket := enrpUnicastSocket;
     cf_ENRPAnnounceViaMulticast := enrpAnnounceViaMulticast;
     cf_ENRPSupportTakeoverSuggestion := false;
     cf_DistanceStep := REGISTRAR_DEFAULT_DISTANCE_STEP;
     cf_MaxBadPEReports := REGISTRAR_DEFAULT_MAX_BAD_PE_REPORTS;
     cf_ServerAnnounceCycle := REGISTRAR_DEFAULT_SERVER_ANNOUNCE_CYCLE;
     cf_EndpointKeepAliveTransmissionInterval := REGISTRAR_DEFAULT_ENDPOINT_KEEP_ALIVE_TRANSMISSION_INTERVAL;
     cf_EndpointKeepAliveTimeoutInterval := REGISTRAR_DEFAULT_ENDPOINT_KEEP_ALIVE_TIMEOUT_INTERVAL;
     cf_MinEndpointAddressScope := AS_UNICAST_SITELOCAL;
     cf_MaxElementsPerHTRequest := REGISTRAR_DEFAULT_MAX_ELEMENTS_PER_HANDLE_TABLE_REQUEST;
     cf_MaxIncrement := REGISTRAR_DEFAULT_MAX_INCREMENT;
     cf_MaxHandleResolutionItems := REGISTRAR_DEFAULT_MAX_HANDLE_RESOLUTION_ITEMS;
     cf_PeerHeartbeatCycle := REGISTRAR_DEFAULT_PEER_HEARTBEAT_CYCLE;
     cf_PeerMaxTimeLastHeard := REGISTRAR_DEFAULT_PEER_MAX_TIME_LAST_HEARD;
     cf_PeerMaxTimeNoResponse := REGISTRAR_DEFAULT_PEER_MAX_TIME_NO_RESPONSE;
     cf_MentorDiscoveryTimeout := REGISTRAR_DEFAULT_MENTOR_DISCOVERY_TIMEOUT;
     cf_TakeoverExpiryInterval := REGISTRAR_DEFAULT_TAKEOVER_EXPIRY_INTERVAL;
     cf_MaxHRRate := REGISTRAR_DEFAULT_MAX_RATE;
     cf_MaxEURate := REGISTRAR_DEFAULT_MAX_RATE |}.

(** What [messageBufferRead] gives: the memory of the message buffer with the
    number of bytes received and their sender, a notification about an
    association, or nothing. *)
Inductive Received :=
| ReceivedPacket (buffer : list Z) (received : Z) (remoteAddress : sockaddr_union) (ppid assocID : Z)
| AssociationLost (assocID : Z)
| OtherNotification
| NothingReceived.

Section core.
Context {ST : Type} `{Storage ST} `{Endian}.
Context (cfg : RegistrarConfig) (env : Environment).
Abbreviation Reg := (Registrar ST).
Abbreviation Msg := (RSerPoolMessage ST).

(** The state of a new registrar; [now] is the time. *)
Definition registrarNew (now : Z) : Reg :=
  {| rg_Handlespace := poolHandlespaceManagementNew (cf_ServerID cfg);
     rg_Peers := peerListManagementNew (cf_ServerID cfg);
     rg_PoolUsers := poolUserListNew;
     rg_TakeoverProcesses := ∅;
     rg_Timers := MkTimers None None None (Some (u64 (now + cf_MentorDiscoveryTimeout cfg)));
     rg_InStartupPhase := true;
     rg_MentorServerID := 0;
     rg_Outgoing := [];
     rg_Tick := 0 |}.

(** The peer list is deleted first, and with it the callback. *)
Definition registrarDelete : M Reg () :=
  onPl (peerListManagementDelete peerListNodeDisposer);;
  onUsers poolUserListDelete;;
  (λ r, match poolHandlespaceManagementDelete None poolElementNodeDisposer (rg_Handlespace r) with
        | Some (_, m) => Some (tt, rg_set_Both m (rg_Peers r) r)
        | None => None
        end);;
  timerStop ASAPAnnounceTimer;; timerStop ENRPAnnounceTimer;; timerStop HandlespaceActionTimer;; timerStop PeerActionTimer.

Definition registrarAddStaticPeer (identifier : Z) (t : TransportAddressBlock) : M Reg Z :=
  local ← localAddresses env (cf_ENRPUnicastSocket cfg) 0;
  own ← match local with
        | Some localAddressBlock =>
            c ← deref (λ _, transportAddressBlockOverlapComparison (Some localAddressBlock) (Some t)); mret (c =? 0)
        | None => mret false
        end;
  if own : bool then mret RSPERR_OKAY
  else
    now ← getMicroTime env;
    r ← registerPeer env identifier PLNF_STATIC (Some t) now;
    mret r.2.

(** ** Messages *)

Definition handleASAPMessage (message : Msg) (sd : Z) : M Reg () :=
  let type := rm_Type message in
  if type =? AHT_REGISTRATION then registrarHandleASAPRegistration cfg env sd (rm_AssocID message) message
  else if type =? AHT_HANDLE_RESOLUTION then registrarHandleASAPHandleResolution cfg env sd (rm_AssocID message) message
  else if type =? AHT_DEREGISTRATION then registrarHandleASAPDeregistration cfg env sd (rm_AssocID message) message
  else if type =? AHT_ENDPOINT_KEEP_ALIVE_ACK then registrarHandleASAPEndpointKeepAliveAck cfg env sd (rm_AssocID message) message
  else if type =? AHT_ENDPOINT_UNREACHABLE then registrarHandleASAPEndpointUnreachable cfg env sd (rm_AssocID message) message
  else mret tt.

Definition handleENRPMessage (message : Msg) (sd : Z) : M Reg () :=
  let type := rm_Type message in
  if type =? EHT_PRESENCE then registrarHandleENRPPresence cfg env sd (rm_AssocID message) message
  else if type =? EHT_HANDLE_UPDATE then registrarHandleENRPHandleUpdate cfg env sd (rm_AssocID message) message
  else if type =? EHT_LIST_REQUEST then registrarHandleENRPListRequest cfg env sd (rm_AssocID message) message
  else if type =? EHT_LIST_RESPONSE then registrarHandleENRPListResponse cfg env sd (rm_AssocID message) message
  else if type =? EHT_HANDLE_TABLE_REQUEST then registrarHandleENRPHandleTableRequest cfg env sd (rm_AssocID message) message
  else if type =? EHT_HANDLE_TABLE_RESPONSE then registrarHandleENRPHandleTableResponse cfg env sd (rm_AssocID message) message
  else if type =? EHT_INIT_TAKEOVER then registrarHandleENRPInitTakeover cfg env sd (rm_AssocID message) message
  else if type =? EHT_INIT_TAKEOVER_ACK then registrarHandleENRPInitTakeoverAck cfg env sd (rm_AssocID message) message
  else if type =? EHT_TAKEOVER_SERVER then registrarHandleENRPTakeoverServer cfg sd (rm_AssocID message) message
  else mret tt.

Definition registrarHandleMessage (message : Msg) (sd : Z) : M Reg () :=
  if sd =? cf_ENRPMulticastInputSocket cfg then
    if rm_Type message =? EHT_PRESENCE then registrarHandleENRPPresence cfg env sd 0 message else mret tt
  else if sd =? cf_ASAPSocket cfg then handleASAPMessage message sd
  else if sd =? cf_ENRPUnicastSocket cfg then handleENRPMessage message sd
  else mret tt.

(** ** Sockets *)

(** The reply to a message that was not understood. *)
Definition replyError (fd assocID ppid : Z) (message : Msg) : M Reg () :=
  if (ppid =? PPID_ASAP) || (ppid =? PPID_ENRP) then
    message ←
      match ms_OffendingParameterTLV (rm_Status message) with
      | Some offset =>
          ok ← mallocResult env;
          let length := ms_OffendingParameterTLVLength (rm_Status message) in
          tlv ← (if ok : bool then l ← deref (λ _, fst <$> loadBytes offset length message); mret (Some l) else mret None);
          mret (rm_set_ErrorCauseParameterTLVLength length (rm_set_ErrorCauseParameterTLV tlv message))
      | None => mret message
      end;
    _ ← rserpoolMessageSend env fd assocID 0 []
          (if rm_PPID message =? PPID_ASAP then rm_set_Type AHT_ERROR message
           else if rm_PPID message =? PPID_ENRP then rm_set_Type EHT_ERROR message
           else message);
    mret tt
  else mret tt.

Definition handlePacket (fd : Z) (buffer : list Z) (received : Z) (remoteAddress : sockaddr_union) (ppid assocID : Z) : M Reg () :=
  if negb (((ppid =? PPID_ASAP) && negb (fd =? cf_ASAPSocket cfg)) ||
           ((ppid =? PPID_ENRP) && negb (fd =? cf_ENRPUnicastSocket cfg))) then
    let ppid := if fd =? cf_ENRPMulticastInputSocket cfg then PPID_ENRP else ppid in
    memory ← observe (env_ParserMemory env);
    r ← deref (λ _, rserpoolPacket2Message memory buffer (Some remoteAddress) assocID ppid received
                      REGISTRAR_RSERPOOL_MESSAGE_BUFFER_SIZE);
    match r.2 with
    | None => mret tt
    | Some message =>
        if (r.1 =? RSPERR_OKAY) && (Error message =? RSPERR_OKAY) then registrarHandleMessage message fd
        else if negb (Error message =? RSPERR_UNRECOGNIZED_PARAMETER_SILENT) &&
                ((fd =? cf_ASAPSocket cfg) || (fd =? cf_ENRPUnicastSocket cfg)) &&
                negb (rm_Type message =? AHT_ERROR) && negb (rm_Type message =? EHT_ERROR)
        then replyError fd assocID ppid message
        else mret tt
    end
  else sendabort fd assocID.

Definition registrarHandleSocketEvent (fd : Z) (received : Received) : M Reg () :=
  CHECK ((fd =? cf_ASAPSocket cfg) || (fd =? cf_ENRPUnicastSocket cfg) ||
         ((0 <=? cf_ENRPMulticastInputSocket cfg) && (fd =? cf_ENRPMulticastInputSocket cfg)));;
  match received with
  | ReceivedPacket buffer received remoteAddress ppid assocID => handlePacket fd buffer received remoteAddress ppid assocID
  | AssociationLost assocID => registrarRemovePoolElementsOfConnection cfg env fd assocID
  | OtherNotification | NothingReceived => mret tt
  end.

(** ** Timers *)

Definition timerCallback (t : TimerName) : M Reg () :=
  match t with
  | HandlespaceActionTimer => registrarHandlePoolElementEvent cfg env
  | PeerActionTimer => registrarHandlePeerEvent cfg env
  | ASAPAnnounceTimer => registrarHandleASAPAnnounceTimer cfg env
  | ENRPAnnounceTimer => registrarHandleENRPAnnounceTimer cfg env
  end.

(** The dispatcher removes an expired timer and calls its function. *)
Definition timerExpired (t : TimerName) : M Reg () :=
  modify (λ r, rg_set_Timers (timer_put t None (rg_Timers r)) r);;
  timerCallback t.
End core.
