(* ===== verification/RegistrarQuiet.v ===== *)
(** * Partial correctness, and what sending leaves unchanged

    A computation that comes to its end is described by [wlp]; [wpb] is
    [wp] or [wlp], so that one proof serves both.  The registrar may fail to
    create a packet, which is fatal, and therefore what is proved of all its
    handlers is partial, and total where all packets can be created.

    Whatever the registrar sends, its state stays the same but for what is
    sent ([quiet]). *)

From S2P Require Import Prelude Checksum Addresses PoolBasics Storage PoolElement PoolPolicy HandlespaceState HandlespaceNode HandlespaceMgt HandlespaceRegistration PeerList HandlespacePeers Message MessageCreator MessageParser PoolUsers Registrar RegistrarSend RegistrarAsap RegistrarTakeover RegistrarEnrp RegistrarCore.
From stdpp Require Import base list gmap numbers option sorting sets.
#[local] Open Scope Z_scope.

(** ** Partial correctness *)

(** What holds if the computation comes to its end. *)
Definition wlp {S A} (m : M S A) (Q : A → S → Prop) (s : S) : Prop := ∀ a s', m s = Some (a, s') → Q a s'.

Lemma wlp_mono {S A} (m : M S A) (Q Q' : A → S → Prop) s : wlp m Q s → (∀ a s', Q a s' → Q' a s') → wlp m Q' s.
Proof. intros Hm HQ a s' Hr. by apply HQ, Hm. Qed.

Lemma wlp_ret {S A} (a : A) (Q : A → S → Prop) s : Q a s → wlp (mret a) Q s.
Proof. intros HQ a' s' [= <- <-]. done. Qed.

Lemma wlp_bind {S A B} (m : M S A) (k : A → M S B) (Q : B → S → Prop) s : wlp m (λ a s', wlp (k a) Q s') s → wlp (m ≫= k) Q s.
Proof.
  intros Hm b s'' Hr. unfold mbind, M_bind in Hr. destruct (m s) as [[a s']|] eqn:Hm'; [|done].
  by apply (Hm a s' Hm').
Qed.

Lemma wlp_wp {S A} (m : M S A) (Q : A → S → Prop) s : wp m Q s → wlp m Q s.
Proof. intros (a & s' & Hr & HQ) a1 s1 Hr1. rewrite Hr in Hr1. by injection Hr1 as <- <-. Qed.

Lemma wlp_run {S A} (m : M S A) a s' (Q : A → S → Prop) s : m s = Some (a, s') → Q a s' → wlp m Q s.
Proof. intros Hr HQ. apply wlp_wp. by exists a, s'. Qed.

Lemma wlp_true {S A} (m : M S A) s : wlp m (λ _ _, True) s.
Proof. done. Qed.

Lemma wlp_and {S A} (m : M S A) (Q Q' : A → S → Prop) s : wlp m Q s → wlp m Q' s → wlp m (λ a s', Q a s' ∧ Q' a s') s.
Proof. intros H1 H2 a s' Hr. split; [by apply H1|by apply H2]. Qed.

Lemma wlp_get {S} (Q : S → S → Prop) s : Q s s → wlp get Q s.
Proof. intros. by apply wlp_wp, wp_get. Qed.

Lemma wlp_modify {S} (f : S → S) (Q : unit → S → Prop) s : Q tt (f s) → wlp (modify f) Q s.
Proof. intros. by apply wlp_wp, wp_modify. Qed.

Lemma wlp_check {S} (b : bool) (Q : unit → S → Prop) s : (b = true → Q tt s) → wlp (CHECK b) Q s.
Proof. intros HQ a s' Hr. unfold CHECK in Hr. destruct b; [|done]. injection Hr as <- <-. by apply HQ. Qed.

Lemma wlp_deref {S A} (f : S → option A) (Q : A → S → Prop) s : (∀ a, f s = Some a → Q a s) → wlp (deref f) Q s.
Proof. intros HQ a s' Hr. unfold deref in Hr. destruct (f s) as [x|] eqn:Hf; [|done]. injection Hr as <- <-. by apply HQ. Qed.

Lemma wlp_abort {S A} (Q : A → S → Prop) s : wlp abort Q s.
Proof. by intros a s' Hr. Qed.

(** Total or partial. *)
Definition wpb {S A} (total : bool) (m : M S A) (Q : A → S → Prop) (s : S) : Prop := if total then wp m Q s else wlp m Q s.

Lemma wpb_wp {S A} b (m : M S A) (Q : A → S → Prop) s : wp m Q s → wpb b m Q s.
Proof. destruct b; [done|apply wlp_wp]. Qed.

Lemma wpb_mono {S A} b (m : M S A) (Q Q' : A → S → Prop) s : wpb b m Q s → (∀ a s', Q a s' → Q' a s') → wpb b m Q' s.
Proof. destruct b; [apply wp_mono|apply wlp_mono]. Qed.

Lemma wpb_ret {S A} b (a : A) (Q : A → S → Prop) s : Q a s → wpb b (mret a) Q s.
Proof. destruct b; [apply wp_ret|apply wlp_ret]. Qed.

Lemma wpb_bind {S A B} b (m : M S A) (k : A → M S B) (Q : B → S → Prop) s :
  wpb b m (λ a s', wpb b (k a) Q s') s → wpb b (m ≫= k) Q s.
Proof. destruct b; [apply wp_bind|apply wlp_bind]. Qed.

Lemma wpb_get {S} b (Q : S → S → Prop) s : Q s s → wpb b get Q s.
Proof. destruct b; [apply wp_get|apply wlp_get]. Qed.

Lemma wpb_modify {S} b (f : S → S) (Q : unit → S → Prop) s : Q tt (f s) → wpb b (modify f) Q s.
Proof. destruct b; [apply wp_modify|apply wlp_modify]. Qed.

Lemma wpb_run {S A} b (m : M S A) a s' (Q : A → S → Prop) s : m s = Some (a, s') → Q a s' → wpb b m Q s.
Proof. intros Hr HQ. apply wpb_wp. by exists a, s'. Qed.

(** What may fail is only required to succeed in the total case. *)
Lemma wpb_deref {S A} b (f : S → option A) (Q : A → S → Prop) s :
  (b = true → is_Some (f s)) → (∀ a, f s = Some a → Q a s) → wpb b (deref f) Q s.
Proof.
  intros Hs HQ. destruct b; [|by apply wlp_deref]. destruct (Hs eq_refl) as [a Ha]. eapply wp_deref; [exact Ha|by apply HQ].
Qed.

Lemma wpb_check {S} b (c : bool) (Q : unit → S → Prop) s : (b = true → c = true) → (c = true → Q tt s) → wpb b (CHECK c) Q s.
Proof. intros Hc HQ. destruct b; [apply wp_check; auto|by apply wlp_check]. Qed.

(** A walk with an invariant. *)
Lemma wlp_walk {S A} (next : ptr → M S (option ptr)) (f : A → ptr → M S A) (I : A → S → Prop) :
  (∀ acc p s, I acc s → wlp (f acc p) I s) → (∀ acc p s, I acc s → wlp (next p) (λ _ s', I acc s') s) →
  ∀ fuel cur acc s, I acc s → wlp (walk fuel next f cur acc) I s.
Proof.
  intros Hf Hn fuel. induction fuel as [|fuel IH]; intros [p|] acc s HI; simpl.
  - apply wlp_abort.
  - by apply wlp_ret.
  - apply wlp_bind. eapply wlp_mono; [by apply Hf|]. intros acc' s1 HI1. apply wlp_bind.
    eapply wlp_mono; [by apply (Hn acc')|]. intros nxt s2 HI2. by apply IH.
  - by apply wlp_ret.
Qed.

Section registrar_inv.
Context {ST : Type} `{SL : StorageLaws ST} `{En : Endian}.
Context (cfg : RegistrarConfig) (env : Environment).
Abbreviation HS := (Handlespace ST).
Abbreviation PHM := (PoolHandlespaceManagement ST).
Abbreviation PLM := (PeerListManagement ST).
Abbreviation Reg := (Registrar ST).
Abbreviation Msg := (RSerPoolMessage ST).
Implicit Types (r : Reg) (p q : ptr).

(** ** Sending *)

(** The same but for what was sent and the answers of the outside world. *)
Definition same r r' : Prop := rg_set_Outgoing [] (rg_set_Tick 0 r) = rg_set_Outgoing [] (rg_set_Tick 0 r').

Lemma same_refl r : same r r.
Proof. done. Qed.

Lemma same_trans r1 r2 r3 : same r1 r2 → same r2 r3 → same r1 r3.
Proof. unfold same. congruence. Qed.

Lemma same_tick r t : same r (rg_set_Tick t r).
Proof. done. Qed.

Lemma same_outgoing r l : same r (rg_set_Outgoing l r).
Proof. done. Qed.

Lemma same_both r : rg_set_Both (rg_Handlespace r) (rg_Peers r) r = r.
Proof. by destruct r. Qed.

Definition quiet {A} (f : M Reg A) : Prop := ∀ r, wlp f (λ _ r', same r r') r.

Lemma quiet_bind {A B} (f : M Reg A) (k : A → M Reg B) : quiet f → (∀ a, quiet (k a)) → quiet (f ≫= k).
Proof.
  intros Hf Hk r. apply wlp_bind. eapply wlp_mono; [apply Hf|]. intros a r1 H1. eapply wlp_mono; [apply Hk|].
  intros b r2 H2. exact (same_trans _ _ _ H1 H2).
Qed.

Lemma quiet_ret {A} (a : A) : quiet (mret a).
Proof. intros r. by apply wlp_ret. Qed.

Lemma quiet_get : quiet get.
Proof. intros r. by apply wlp_get. Qed.

Lemma quiet_deref {A} (f : Reg → option A) : quiet (deref f).
Proof. intros r. by apply wlp_deref. Qed.

Lemma quiet_check b : quiet (CHECK b).
Proof. intros r. by apply wlp_check. Qed.

Lemma quiet_abort {A} : quiet (abort (A := A)).
Proof. intros r. apply wlp_abort. Qed.

Lemma quiet_observe {A} (f : nat → A) : quiet (observe f).
Proof. intros r. by apply (wlp_run _ (f (rg_Tick r)) (rg_set_Tick (S (rg_Tick r)) r)). Qed.

Lemma wp_observe {A} (f : nat → A) (Q : A → Reg → Prop) r : Q (f (rg_Tick r)) (rg_set_Tick (S (rg_Tick r)) r) → wp (observe f) Q r.
Proof. intros HQ. eexists _, _. by split; [reflexivity|]. Qed.

Lemma quiet_output o : quiet (output o).
Proof. intros r. by apply wlp_modify. Qed.

Lemma quiet_if {A} (b : bool) (f g : M Reg A) : quiet f → quiet g → quiet (if b then f else g).
Proof. by destruct b. Qed.

Lemma quiet_walk {A} (next : ptr → M Reg (option ptr)) (f : A → ptr → M Reg A) fuel cur acc :
  (∀ p, quiet (next p)) → (∀ a p, quiet (f a p)) → quiet (walk fuel next f cur acc).
Proof.
  intros Hn Hf r. apply (wlp_walk next f (λ _ r', same r r')); [| |done].
  - intros a p r1 H1. eapply wlp_mono; [apply Hf|]. intros b r2 H2. exact (same_trans _ _ _ H1 H2).
  - intros a p r1 H1. eapply wlp_mono; [apply Hn|]. intros b r2 H2. exact (same_trans _ _ _ H1 H2).
Qed.

(** Reading the handlespace or the peer list. *)
Definition reads {S A} (f : M S A) : Prop := ∀ s a s', f s = Some (a, s') → s' = s.

Lemma quiet_onHs {A} (f : M PHM A) : reads f → quiet (onHs f).
Proof.
  intros Hf r a r' Hr. unfold onHs, listened in Hr. simpl in Hr. destruct (f (rg_Handlespace r)) as [[b m]|] eqn:Hm; [|done].
  apply Hf in Hm as ->. rewrite drop_all in Hr. simpl in Hr. injection Hr as <- <-. by rewrite same_both.
Qed.

Lemma quiet_onPl {A} (f : M PLM A) : reads f → quiet (onPl f).
Proof.
  intros Hf r a r' Hr. unfold onPl in Hr. destruct (f (rg_Peers r)) as [[b m]|] eqn:Hm; [|done].
  apply Hf in Hm as ->. injection Hr as <- <-. by rewrite same_both.
Qed.

Lemma reads_onHandlespace {A} (f : M HS A) : reads f → reads (onHandlespace f).
Proof.
  intros Hf m a m' Hr. unfold onHandlespace in Hr. destruct (f (phm_Handlespace m)) as [[b st]|] eqn:Hm; [|done].
  apply Hf in Hm as ->. injection Hr as <- <-. apply phm_set_same.
Qed.

Lemma reads_onList {A} (f : M (PeerList ST) A) : reads f → reads (onList f).
Proof.
  intros Hf m a m' Hr. unfold onList in Hr. destruct (f (plm_List m)) as [[b st]|] eqn:Hm; [|done].
  apply Hf in Hm as ->. injection Hr as <- <-. by destruct m.
Qed.

Lemma reads_bind {S A B} (f : M S A) (k : A → M S B) : reads f → (∀ a, reads (k a)) → reads (f ≫= k).
Proof.
  intros Hf Hk s b s' Hr. unfold mbind, M_bind in Hr. destruct (f s) as [[a s1]|] eqn:H1; [|done].
  apply Hf in H1 as ->. by apply Hk in Hr.
Qed.

Lemma reads_ret {S A} (a : A) : reads (mret a : M S A).
Proof. by intros s b s' [= <- <-]. Qed.

Lemma reads_gets {S A} (f : S → A) : reads (gets f).
Proof. by intros s b s' [= <- <-]. Qed.

Lemma reads_get {S} : reads (get (S := S)).
Proof. by intros s b s' [= <- <-]. Qed.

Lemma reads_deref {S A} (f : S → option A) : reads (deref f).
Proof. intros s a s' Hr. unfold deref in Hr. destruct (f s); [|done]. by injection Hr as <- <-. Qed.

Lemma reads_abort {S A} : reads (abort (S := S) (A := A)).
Proof. done. Qed.

Lemma reads_walk {S A} (next : ptr → M S (option ptr)) (f : A → ptr → M S A) fuel cur acc :
  (∀ p, reads (next p)) → (∀ a p, reads (f a p)) → reads (walk fuel next f cur acc).
Proof.
  intros Hn Hf. revert cur acc. induction fuel as [|fuel IH]; intros [p|] acc; simpl; try apply reads_ret; [apply reads_abort|].
  apply reads_bind; [done|]. intros a. apply reads_bind; [done|]. intros c. apply IH.
Qed.

Lemma quiet_modify (f : Reg → Reg) : (∀ r, same r (f r)) → quiet (modify f).
Proof. intros Hf r. apply wlp_modify, Hf. Qed.

Lemma quiet_withMessage size (k : Msg → M Reg ()) : (∀ m, quiet (k m)) → quiet (withMessage env size k).
Proof.
  intros Hk. unfold withMessage, mallocResult. apply quiet_bind; [apply quiet_observe|]. intros []; [apply Hk|apply quiet_ret].
Qed.
End registrar_inv.

#[global] Create HintDb quiet discriminated.
#[export] Hint Constants Opaque : quiet.
#[export] Hint Resolve quiet_ret quiet_get quiet_deref quiet_check quiet_abort quiet_observe quiet_output
  reads_ret reads_get reads_gets reads_deref reads_abort : quiet.

Ltac quiet_step :=
  lazymatch goal with
  | |- quiet (mbind _ _) => apply quiet_bind; [|intros ?]
  | |- quiet (withMessage _ _ _) => apply quiet_withMessage; intros ?
  | |- quiet (walk _ _ _ _ _) => apply quiet_walk; intros
  | |- quiet (onHs _) => apply quiet_onHs
  | |- quiet (onPl _) => apply quiet_onPl
  | |- quiet (match ?x with _ => _ end) => destruct x
  | |- reads (mbind _ _) => apply reads_bind; [|intros ?]
  | |- reads (onHandlespace _) => apply reads_onHandlespace
  | |- reads (onList _) => apply reads_onList
  | |- reads (walk _ _ _ _ _) => apply reads_walk; intros
  | |- reads (match ?x with _ => _ end) => destruct x
  | |- _ => solve [auto with quiet nocore]
  end.
Ltac solve_quiet := cbv beta zeta; repeat (quiet_step; cbv beta zeta).

Section sends.
Context {ST : Type} `{SL : StorageLaws ST} `{En : Endian}.
Context (cfg : RegistrarConfig) (env : Environment).
Abbreviation Reg := (Registrar ST).

Lemma quiet_getMicroTime : quiet (ST := ST) (getMicroTime env).
Proof. unfold getMicroTime. solve_quiet. Qed.

Lemma quiet_mallocResult : quiet (ST := ST) (mallocResult env).
Proof. unfold mallocResult. solve_quiet. Qed.

Lemma quiet_send fd assocID flags destination (message : RSerPoolMessage ST) :
  quiet (rserpoolMessageSend env fd assocID flags destination message).
Proof. unfold rserpoolMessageSend, toPacket. solve_quiet. Qed.

Lemma quiet_sendabort fd assocID : quiet (ST := ST) (sendabort fd assocID).
Proof. unfold sendabort. solve_quiet. Qed.

Lemma quiet_sendmulticast fd a (message : RSerPoolMessage ST) : quiet (sendmulticast fd a message).
Proof. unfold sendmulticast. solve_quiet. Qed.

Lemma quiet_element p : quiet (ST := ST) (element p).
Proof. unfold element, pe_get. solve_quiet. Qed.

Lemma quiet_peer p : quiet (ST := ST) (peer p).
Proof. unfold peer, peer_get. solve_quiet. Qed.

Lemma quiet_ownerHandle n : quiet (ST := ST) (ownerHandle n).
Proof. unfold ownerHandle. solve_quiet. Qed.

Lemma quiet_addressesOf n : quiet (ST := ST) (addressesOf n).
Proof. unfold addressesOf. solve_quiet. Qed.

Lemma quiet_peerAddresses sd assocID : quiet (ST := ST) (peerAddresses env sd assocID).
Proof. unfold peerAddresses. solve_quiet. Qed.

Lemma quiet_localAddresses sd assocID : quiet (ST := ST) (localAddresses env sd assocID).
Proof. unfold localAddresses. solve_quiet. Qed.
End sends.
#[export] Hint Resolve quiet_getMicroTime quiet_mallocResult quiet_send quiet_sendabort quiet_sendmulticast quiet_element quiet_peer
  quiet_ownerHandle quiet_addressesOf quiet_peerAddresses quiet_localAddresses : quiet.

Section sends.
Context {ST : Type} `{SL : StorageLaws ST} `{En : Endian}.
Context (cfg : RegistrarConfig) (env : Environment).
Abbreviation Reg := (Registrar ST).

Lemma quiet_forAllPeers {A} (body : A → ptr → PeerListNode → M Reg A) a :
  (∀ a p n, quiet (body a p n)) → quiet (forAllPeers body a).
Proof.
  intros Hb. unfold forAllPeers, peerListManagementGetFirstPeerListNodeFromIndexStorage, peerListGetFirstPeerListNodeFromIndexStorage,
    peerListManagementGetNextPeerListNodeFromIndexStorage, peerListGetNextPeerListNodeFromIndexStorage, peerFuel, peerRead.
  solve_quiet.
Qed.

Lemma quiet_sendToPeer (message : RSerPoolMessage ST) n : quiet (sendToPeer cfg env message n).
Proof. unfold sendToPeer. solve_quiet. Qed.

Lemma quiet_sendOut sd assocID flags destination (message : RSerPoolMessage ST) : quiet (sendOut env sd assocID flags destination message).
Proof. unfold sendOut. solve_quiet. Qed.

Lemma quiet_keepAlive p home : quiet (ST := ST) (registrarSendASAPEndpointKeepAlive cfg env p home).
Proof. unfold registrarSendASAPEndpointKeepAlive. solve_quiet. Qed.

Lemma reads_usefulPeer id : reads (peerListManagementGetUsefulPeerForPE (ST := ST) id).
Proof.
  unfold peerListManagementGetUsefulPeerForPE, peerListGetFirstPeerListNodeFromIndexStorage,
    peerListGetNextPeerListNodeFromIndexStorage, peerFuel, peerRead, peer_get. solve_quiet.
Qed.
End sends.
#[export] Hint Resolve quiet_forAllPeers quiet_sendToPeer quiet_sendOut quiet_keepAlive reads_usefulPeer : quiet.

Section sends.
Context {ST : Type} `{SL : StorageLaws ST} `{En : Endian}.
Context (cfg : RegistrarConfig) (env : Environment).

Lemma quiet_handleUpdate handle n action : quiet (ST := ST) (registrarSendENRPHandleUpdate cfg env handle n action).
Proof. unfold registrarSendENRPHandleUpdate. solve_quiet. Qed.

Lemma quiet_listRequest sd assocID flags destination id : quiet (ST := ST) (registrarSendENRPListRequest cfg env sd assocID flags destination id).
Proof. unfold registrarSendENRPListRequest. solve_quiet. Qed.

Lemma quiet_tableRequest sd assocID flags destination id f :
  quiet (ST := ST) (registrarSendENRPHandleTableRequest cfg env sd assocID flags destination id f).
Proof. unfold registrarSendENRPHandleTableRequest. solve_quiet. Qed.

Lemma quiet_presence sd assocID flags destination id reply :
  quiet (ST := ST) (registrarSendENRPPresence cfg env sd assocID flags destination id reply).
Proof.
  unfold registrarSendENRPPresence, poolHandlespaceManagementGetOwnershipChecksum, poolHandlespaceNodeGetOwnershipChecksum, toPacket.
  solve_quiet.
Qed.

Lemma quiet_initTakeover id : quiet (ST := ST) (registrarSendENRPInitTakeoverToAllPeers cfg env id).
Proof. unfold registrarSendENRPInitTakeoverToAllPeers. solve_quiet. Qed.

Lemma quiet_initTakeoverAck sd assocID id target : quiet (ST := ST) (registrarSendENRPInitTakeoverAck cfg env sd assocID id target).
Proof. unfold registrarSendENRPInitTakeoverAck. solve_quiet. Qed.

Lemma quiet_takeoverServer sd assocID flags destination id target :
  quiet (ST := ST) (registrarSendENRPTakeoverServer cfg env sd assocID flags destination id target).
Proof. unfold registrarSendENRPTakeoverServer. solve_quiet. Qed.
End sends.
#[export] Hint Resolve quiet_handleUpdate quiet_listRequest quiet_tableRequest quiet_presence quiet_initTakeover quiet_initTakeoverAck
  quiet_takeoverServer : quiet.

Section sends.
Context {ST : Type} `{SL : StorageLaws ST} `{En : Endian}.
Context (cfg : RegistrarConfig) (env : Environment).

Lemma quiet_handleUpdateOf p action : quiet (ST := ST) (sendHandleUpdateOf cfg env p action).
Proof. unfold sendHandleUpdateOf. solve_quiet. Qed.

Lemma quiet_presences : quiet (ST := ST) (registrarSendENRPPresenceToAllPeers cfg env).
Proof. unfold registrarSendENRPPresenceToAllPeers. apply quiet_forAllPeers. intros. solve_quiet. Qed.

Lemma quiet_takeoverServers target : quiet (ST := ST) (registrarSendENRPTakeoverServerToAllPeers cfg env target).
Proof. unfold registrarSendENRPTakeoverServerToAllPeers. apply quiet_forAllPeers. intros. solve_quiet. Qed.

Lemma quiet_distance fd assocID n add distance : quiet (ST := ST) (registrarUpdateDistance cfg env fd assocID n add distance).
Proof. unfold registrarUpdateDistance. solve_quiet. Qed.

Lemma quiet_reply fd assocID (message : RSerPoolMessage ST) : quiet (reply env fd assocID message).
Proof. unfold reply. solve_quiet. Qed.

Lemma quiet_filterAddresses original association port : quiet (ST := ST) (filterAddresses cfg original association port).
Proof. unfold filterAddresses. solve_quiet. Qed.

Lemma quiet_elementMemory : quiet (ST := ST) (elementMemory env).
Proof. unfold elementMemory. solve_quiet. Qed.
End sends.
#[export] Hint Resolve quiet_handleUpdateOf quiet_presences quiet_takeoverServers quiet_distance quiet_reply quiet_filterAddresses
  quiet_elementMemory : quiet.
