(* ===== verification/RegistrarInv.v ===== *)
(** * The invariant of the registrar

    The invariant is that of the two parts with the ownership checksums
    that agree, and what is known about the timers: an element's timer has
    one of the three codes of elements; a peer has a takeover process
    exactly while its takeover timer is running, and every other running
    timer of a peer waits for a sign of life.  The rules of this file say
    how the steps of the handlers change the state. *)

From S2P Require Import Prelude Checksum Addresses PoolBasics Storage PoolElement PoolPolicy HandlespaceState PoolNode PoolEffects PoolSelection HandlespaceNode HandlespaceInv HandlespaceOps HandlespaceWalks HandlespaceVerify HandlespaceUpdate HandlespaceMgt HandlespaceMgtInv HandlespaceNotifications HandlespaceRegistration HandlespaceSteps HandlespaceTheorems PeerList PeerListInv PeerListOps PeerListSteps PeerListRegister PeerListTheorems HandlespacePeers Message MessageCreator MessageParser PoolUsers Registrar RegistrarSend RegistrarAsap RegistrarTakeover RegistrarEnrp RegistrarCore RegistrarQuiet.
From stdpp Require Import base list gmap numbers option sorting sets.
#[local] Open Scope Z_scope.

(** ** Our own identifier stays the same *)

Definition keeps {S X A} (g : S → X) (f : M S A) : Prop := ∀ s a s', f s = Some (a, s') → g s' = g s.

Lemma keeps_bind {S X A B} (g : S → X) (f : M S A) (k : A → M S B) : keeps g f → (∀ a, keeps g (k a)) → keeps g (f ≫= k).
Proof.
  intros Hf Hk s b s' Hr. unfold mbind, M_bind in Hr. destruct (f s) as [[a s1]|] eqn:H1; [|done].
  by rewrite (Hk _ _ _ _ Hr), (Hf _ _ _ H1).
Qed.

Lemma keeps_reads {S X A} (g : S → X) (f : M S A) : reads f → keeps g f.
Proof. intros Hf s a s' Hr. by rewrite (Hf _ _ _ Hr). Qed.

Lemma keeps_modify {S X} (g : S → X) (f : S → S) : (∀ s, g (f s) = g s) → keeps g (modify f).
Proof. by intros Hf s a s' [= <- <-]. Qed.

Lemma reads_check {S} b : reads (CHECK (S := S) b).
Proof. intros s a s' Hr. unfold CHECK in Hr. destruct b; [|done]. by injection Hr as <- <-. Qed.
#[export] Hint Resolve reads_check keeps_reads : quiet.

Ltac keeps_step :=
  lazymatch goal with
  | |- keeps _ (mbind _ _) => apply keeps_bind; [|intros ?]
  | |- keeps _ (match ?x with _ => _ end) => destruct x
  | |- _ => solve [eauto with quiet nocore]
  end.
Ltac solve_keeps := cbv beta zeta; repeat (keeps_step; cbv beta zeta).

Section own.
Context {ST : Type} `{SL : StorageLaws ST} `{En : Endian}.
Abbreviation own := (pl_OwnIdentifier (ST := ST)).
Abbreviation plm_own := (λ m : PeerListManagement ST, pl_OwnIdentifier (plm_List m)).

Lemma keeps_insert k p : keeps own (peerInsert k p).
Proof. intros s a s' Hr. unfold peerInsert in Hr. repeat case_match; try done. injection Hr as <- <-. by destruct k. Qed.

Lemma keeps_remove k p : keeps own (peerRemove k p).
Proof. intros s a s' Hr. unfold peerRemove in Hr. repeat case_match; try done. injection Hr as <- <-. by destruct k. Qed.

Lemma reads_peer_get p : reads (peer_get (ST := ST) p).
Proof. apply reads_deref. Qed.

Lemma keeps_store p n : keeps own (modify (peer_store p n)).
Proof. by apply keeps_modify. Qed.

Lemma keeps_update p f : keeps own (peer_update p f).
Proof. apply keeps_bind; [apply keeps_reads, reads_peer_get|]. intros n. apply keeps_store. Qed.

Lemma reads_peerRead {A} k (f : ST → A) : reads (peerRead k f).
Proof. apply reads_gets. Qed.

Lemma reads_search (op : (ptr → Z) → ST → option ptr) n : reads (peerSearch op n).
Proof. intros s a s' Hr. unfold peerSearch in Hr. case_match; [|done]. by injection Hr as <- <-. Qed.

Lemma reads_compatibility n : reads (peerListCheckPeerListNodeCompatibility (ST := ST) n).
Proof. apply reads_gets. Qed.

Lemma keeps_onList {A} (f : M (PeerList ST) A) : keeps own f → keeps plm_own (onList f).
Proof.
  intros Hf m a m' Hr. unfold onList in Hr. destruct (f (plm_List m)) as [[b pl]|] eqn:Hpl; [|done].
  injection Hr as <- <-. by apply (Hf _ _ _ Hpl).
Qed.
End own.
#[export] Hint Resolve keeps_insert keeps_remove reads_peer_get keeps_store keeps_update reads_peerRead reads_search reads_compatibility
  keeps_onList : quiet.

Section own.
Context {ST : Type} `{SL : StorageLaws ST} `{En : Endian}.
Abbreviation own := (pl_OwnIdentifier (ST := ST)).
Abbreviation plm_own := (λ m : PeerListManagement ST, pl_OwnIdentifier (plm_List m)).

Lemma keeps_deactivate p : keeps own (peerListDeactivateTimer p).
Proof. unfold peerListDeactivateTimer. solve_keeps. Qed.

Lemma keeps_add p : keeps own (peerListAddPeerListNode p).
Proof. unfold peerListAddPeerListNode. solve_keeps. Qed.

Lemma keeps_updateNode p n : keeps own (peerListUpdatePeerListNode p n).
Proof. unfold peerListUpdatePeerListNode. solve_keeps. Qed.

Lemma reads_overlap t : ∀ fuel p, reads (findOverlap (ST := ST) fuel t p).
Proof.
  induction fuel as [|fuel IH]; intros [p|]; cbn [findOverlap]; unfold peerListGetNextPeerListNodeFromIndexStorage; solve_quiet.
Qed.
End own.
#[export] Hint Resolve keeps_deactivate keeps_add keeps_updateNode reads_overlap : quiet.

Section own.
Context {ST : Type} `{SL : StorageLaws ST} `{En : Endian}.
Abbreviation own := (pl_OwnIdentifier (ST := ST)).
Abbreviation plm_own := (λ m : PeerListManagement ST, pl_OwnIdentifier (plm_List m)).

Lemma reads_find id t : reads (peerListFindPeerListNode (ST := ST) id t).
Proof. unfold peerListFindPeerListNode, peerFuel, peerListGetFirstPeerListNodeFromIndexStorage. solve_quiet. Qed.

Lemma keeps_deletion p : keeps own (peerListNodeDelete p).
Proof. unfold peerListNodeDelete. solve_keeps. Qed.

Lemma keeps_removal p : keeps own (peerListRemovePeerListNode p).
Proof. unfold peerListRemovePeerListNode. solve_keeps. Qed.

Lemma keeps_free p : keeps own (freePeer p).
Proof. by apply keeps_modify. Qed.

Lemma keeps_refresh h p : keeps own (refreshOwnershipChecksum h p).
Proof. unfold refreshOwnershipChecksum. solve_keeps. Qed.

Lemma keeps_disposer p : keeps own (peerListManagementPeerListNodeDisposer peerListNodeDisposer p).
Proof. unfold peerListManagementPeerListNodeDisposer, peerListNodeDisposer. solve_keeps. apply keeps_free. Qed.
End own.
#[export] Hint Resolve reads_find keeps_deletion keeps_removal keeps_free keeps_refresh keeps_disposer : quiet.

Section own.
Context {ST : Type} `{SL : StorageLaws ST} `{En : Endian}.
Abbreviation own := (pl_OwnIdentifier (ST := ST)).
Abbreviation plm_own := (λ m : PeerListManagement ST, pl_OwnIdentifier (plm_List m)).

Lemma keeps_deregister p : keeps own (peerListManagementDeregisterPeerListNodeByPtr peerListNodeDisposer p).
Proof. unfold peerListManagementDeregisterPeerListNodeByPtr. solve_keeps. Qed.

Lemma keeps_adjust f id : keeps own (adjustOwnershipChecksum f id).
Proof. unfold adjustOwnershipChecksum. solve_keeps. Qed.

Lemma keeps_notification nf : keeps own (peerListManagementPoolNodeUpdateNotification nf).
Proof. unfold peerListManagementPoolNodeUpdateNotification. destruct (nf_Action nf); [apply keeps_adjust..|].
  apply keeps_bind; [apply keeps_adjust|]. intros. apply keeps_adjust.
Qed.

Lemma keeps_deliver nfs : keeps plm_own (deliver nfs).
Proof.
  induction nfs as [|nf nfs IH]; simpl; [apply keeps_reads, reads_ret|]. apply keeps_bind; [|done].
  apply keeps_onList, keeps_notification.
Qed.

Lemma keeps_updateStatic h id p : keeps own (updateStaticEntry h id p).
Proof. unfold updateStaticEntry. solve_keeps. Qed.

Lemma keeps_addOrUpdate p : keeps own (peerListAddOrUpdatePeerListNode p).
Proof. unfold peerListAddOrUpdatePeerListNode. solve_keeps. Qed.

Lemma keeps_register peerNode duplicated h id flags t now :
  keeps plm_own (peerListManagementRegisterPeerListNode peerListNodeDisposer peerNode duplicated h id flags t now).
Proof.
  pose proof keeps_deregister as Hd. pose proof keeps_updateStatic as Hu. pose proof keeps_addOrUpdate as Ha.
  assert (∀ q, keeps plm_own (finishEntry peerListNodeDisposer duplicated h t now q)) as Hf.
  { intros q. unfold finishEntry. solve_keeps. }
  assert (keeps plm_own (createOrUpdateEntry peerListNodeDisposer peerNode duplicated h id flags t now)) as Hc.
  { intros m a m' Hr. unfold createOrUpdateEntry in Hr. unfold mbind at 1, M_bind at 1, get in Hr. destruct (match plm_NewPeerListNode m with
      Some p => Some p | None => peerNode end) as [p|]; [|by injection Hr as <- <-].
    unfold mbind at 1, M_bind at 1, put in Hr. set (m0 := MkPeerListManagement _ _) in Hr. change (pl_OwnIdentifier (plm_List m)) with (pl_OwnIdentifier (plm_List m0)).
    revert Hr. apply (keeps_bind plm_own); [auto with quiet|]. intros [[q e] u]. apply keeps_bind; [destruct u; [by apply keeps_modify|auto with quiet]|].
    intros _. solve_keeps. }
  unfold peerListManagementRegisterPeerListNode, findStaticEntry, peerListManagementFindPeerListNode. solve_keeps.
Qed.
End own.

(** ** What the callback leaves unchanged *)

Section kept.
Context {ST : Type} `{SL : StorageLaws ST} `{En : Endian}.
Abbreviation PLM := (PeerListManagement ST).
Abbreviation ptimers pl := (st_list (pl_PeerListTimerStorage (plm_List pl))).
Implicit Types (pl : PLM) (n : PeerListNode).

Definition checksumless n : PeerListNode := pln_set_OwnershipChecksum 0 n.

Record kept pl pl' : Prop := {
  kp_timers : ptimers pl' = ptimers pl;
  kp_entries q : checksumless <$> entries (plm_List pl') q = checksumless <$> entries (plm_List pl) q
}.

Lemma kept_refl pl : kept pl pl.
Proof. done. Qed.

Lemma kept_trans pl1 pl2 pl3 : kept pl1 pl2 → kept pl2 pl3 → kept pl1 pl3.
Proof. intros [Ht1 He1] [Ht2 He2]. split; [congruence|]. intros q. by rewrite He2, He1. Qed.

(** Members other than the checksum. *)
Lemma kept_entry pl pl' q n : kept pl pl' → entries (plm_List pl') q = Some n → ∃ n0, entries (plm_List pl) q = Some n0 ∧
  checksumless n = checksumless n0.
Proof.
  intros [_ He] Hn. specialize (He q). rewrite Hn in He. simpl in He. symmetry in He. apply fmap_Some in He as (n0 & H0 & Heq). eauto.
Qed.

Lemma wp_notify_kept pl nf : plm_inv pl →
  wp (onList (peerListManagementPoolNodeUpdateNotification nf)) (λ _ pl', plm_inv pl' ∧ kept pl pl') pl.
Proof.
  assert (∀ f id pl, plm_inv pl → wp (onList (adjustOwnershipChecksum f id)) (λ _ pl', plm_inv pl' ∧ kept pl pl') pl) as Ha.
  { intros f id pl0 Hp. eapply wp_mono; [by apply wp_adjust|]. intros [] pl' (Hp' & Ht & r & _ & He). split; [done|]. split; [done|].
    intros q. rewrite He. case_decide; [|done]. by destruct (entries (plm_List pl0) q). }
  intros Hp. unfold peerListManagementPoolNodeUpdateNotification. destruct (nf_Action nf); [by apply Ha..|].
  apply wp_onList_seq. eapply wp_mono; [by apply Ha|]. intros [] pl1 [Hp1 H1]. eapply wp_mono; [by apply Ha|].
  intros [] pl2 [Hp2 H2]. split; [done|]. by eapply kept_trans.
Qed.

Lemma wp_deliver_kept nfs : ∀ pl, plm_inv pl → wp (deliver nfs) (λ _ pl', kept pl pl') pl.
Proof.
  induction nfs as [|nf nfs IH]; intros pl Hp; simpl; [by apply wp_ret|]. apply wp_bind.
  eapply wp_mono; [by apply wp_notify_kept|]. intros [] pl1 [Hp1 H1]. eapply wp_mono; [by apply IH|].
  intros [] pl2 H2. by eapply kept_trans.
Qed.
End kept.

(** ** The invariant *)

Section inv.
Context {ST : Type} `{SL : StorageLaws ST} `{En : Endian}.
Context (cfg : RegistrarConfig) (env : Environment).
Abbreviation PHM := (PoolHandlespaceManagement ST).
Abbreviation PLM := (PeerListManagement ST).
Abbreviation Reg := (Registrar ST).
Abbreviation ptimers pl := (st_list (pl_PeerListTimerStorage (plm_List pl))).
Implicit Types (r : Reg) (p q : ptr) (m : PHM) (pl : PLM).

Definition hs r : Handlespace ST := phm_Handlespace (rg_Handlespace r).
Definition els r : gmap ptr PoolElementNode := hs_PoolElementNodes (hs r).
Definition etimers r : list ptr := st_list (hs_PoolElementTimerStorage (hs r)).
Definition peers r : PeerList ST := plm_List (rg_Peers r).

Definition element_code (c : Z) : Prop := c = PENT_EXPIRY ∨ c = PENT_KEEPALIVE_TRANSMISSION ∨ c = PENT_KEEPALIVE_TIMEOUT.

Definition element_codes m : Prop :=
  ∀ q c, q ∈ st_list (hs_PoolElementTimerStorage (phm_Handlespace m)) → code_at (phm_Handlespace m) q = Some c → element_code c.

Record base_inv r : Prop := {
  bi_listening : listening (rg_Handlespace r, rg_Peers r);
  bi_own : pl_OwnIdentifier (peers r) = cf_ServerID cfg;
  bi_codes : element_codes (rg_Handlespace r)
}.

(** A peer is being taken over while it has a process and its takeover
    timer is running. *)
Definition takeover_entry (P : gmap ptr TakeoverProcess) (running : Prop) (n : PeerListNode) : Prop :=
  match pln_TakeoverProcess n with
  | Some t => is_Some (P !! t) ∧ running ∧ pln_TimerCode n = PLNT_TAKEOVER_EXPIRY
  | None => running → pln_TimerCode n = PLNT_MAX_TIME_LAST_HEARD ∨ pln_TimerCode n = PLNT_MAX_TIME_NO_RESPONSE
  end.

Record takeovers (P : gmap ptr TakeoverProcess) pl : Prop := {
  tk_entry q n : entries (plm_List pl) q = Some n → takeover_entry P (q ∈ ptimers pl) n;
  tk_distinct q q' n n' t : entries (plm_List pl) q = Some n → entries (plm_List pl) q' = Some n' →
    pln_TakeoverProcess n = Some t → pln_TakeoverProcess n' = Some t → q = q'
}.

Record registrar_inv r : Prop := {
  ri_base : base_inv r;
  ri_takeovers : takeovers (rg_TakeoverProcesses r) (rg_Peers r)
}.

Lemma takeovers_kept P pl pl' : kept pl pl' → takeovers P pl → takeovers P pl'.
Proof.
  intros Hk [He Hd]. split.
  - intros q n Hn. destruct (kept_entry _ _ _ _ Hk Hn) as (n0 & Hn0 & Heq). specialize (He q n0 Hn0). unfold takeover_entry in *.
    destruct n, n0. simpl in *. injection Heq; intros; subst. by rewrite (kp_timers _ _ Hk).
  - intros q q' n n' t Hn Hn' Ht Ht'. destruct (kept_entry _ _ _ _ Hk Hn) as (n0 & Hn0 & Heq), (kept_entry _ _ _ _ Hk Hn') as (n0' & Hn0' & Heq').
    apply (Hd q q' n0 n0' t Hn0 Hn0'); [destruct n, n0|destruct n', n0']; simpl in *; by (injection Heq; injection Heq'; intros; subst).
Qed.

(** ** Nothing but the outside world *)

Lemma same_fields r r' : same r r' → rg_Handlespace r' = rg_Handlespace r ∧ rg_Peers r' = rg_Peers r ∧
  rg_TakeoverProcesses r' = rg_TakeoverProcesses r ∧ rg_Timers r' = rg_Timers r ∧ rg_PoolUsers r' = rg_PoolUsers r.
Proof. destruct r, r'. unfold same, rg_set_Outgoing, rg_set_Tick. simpl. intros [=]. by subst. Qed.

Lemma base_same r r' : same r r' → base_inv r → base_inv r'.
Proof. intros (H1 & H2 & _)%same_fields [? ? ?]. split; unfold peers; by rewrite ?H1, ?H2. Qed.

Lemma inv_same r r' : same r r' → registrar_inv r → registrar_inv r'.
Proof.
  intros Hs [Hb Ht]. pose proof (same_fields _ _ Hs) as (H1 & H2 & H3 & _). split; [by eapply base_same|]. by rewrite H2, H3.
Qed.

(** ** Steps on the handlespace *)

Lemma onHs_run {A} (f : M PHM A) r a m' : listening (rg_Handlespace r, rg_Peers r) → f (rg_Handlespace r) = Some (a, m') → phm_inv m' →
  tracked (hs r) (phm_Handlespace m') →
  ∃ pl', onHs f r = Some (a, rg_set_Both m' pl' r) ∧ listening (m', pl') ∧ kept (rg_Peers r) pl' ∧
    pl_OwnIdentifier (plm_List pl') = pl_OwnIdentifier (peers r).
Proof.
  intros Hl Hf Hm' Htr. destruct (listened_run f _ a m' Hl Hf Hm' Htr) as (pl' & Hrun & Hl'). exists pl'. unfold onHs. rewrite Hrun.
  split; [done|]. split; [done|]. unfold listened in Hrun. simpl in Hrun. rewrite Hf in Hrun.
  destruct (deliver _ _) as [[[] pl1]|] eqn:Hd; [|done]. injection Hrun as ->. split.
  - destruct (wp_deliver_kept (drop (length (hs_Notifications (hs r))) (hs_Notifications (phm_Handlespace m'))) (rg_Peers r))
      as ([] & pl2 & Hd2 & Hk); [by apply (ls_peers _ Hl)|]. unfold hs in Hd2. rewrite Hd in Hd2. by injection Hd2 as ->.
  - by apply (keeps_deliver _ _ _ _ Hd).
Qed.

(** The rest of the state stays. *)
Definition hs_step r r' : Prop := kept (rg_Peers r) (rg_Peers r') ∧ same (rg_set_Both (rg_Handlespace r) (rg_Peers r) r') r.

Lemma hs_step_same r r' : same r r' → hs_step r r'.
Proof.
  intros Hs. pose proof (same_fields _ _ Hs) as (H1 & H2 & _). split; [rewrite H2; apply kept_refl|]. rewrite <- H1, <- H2, same_both. by symmetry.
Qed.

Lemma hs_step_fields r r' : hs_step r r' → rg_TakeoverProcesses r' = rg_TakeoverProcesses r ∧ rg_Timers r' = rg_Timers r ∧
  rg_InStartupPhase r' = rg_InStartupPhase r ∧ rg_PoolUsers r' = rg_PoolUsers r ∧ rg_MentorServerID r' = rg_MentorServerID r.
Proof. intros [_ Hr]. destruct r, r'. unfold same, rg_set_Both, rg_set_Outgoing, rg_set_Tick in Hr. simpl in Hr. injection Hr. intros. by subst. Qed.

Lemma hs_step_trans r1 r2 r3 : hs_step r1 r2 → hs_step r2 r3 → hs_step r1 r3.
Proof.
  intros H1 H2. pose proof (hs_step_fields _ _ H1) as (?&?&?&?&?). pose proof (hs_step_fields _ _ H2) as (?&?&?&?&?).
  split; [by apply (kept_trans _ (rg_Peers r2)); [apply H1|apply H2]|].
  destruct r1, r2, r3. unfold same, rg_set_Both, rg_set_Outgoing, rg_set_Tick in *. simpl in *. by subst.
Qed.

Lemma wp_hs {A} (f : M PHM A) r (R : A → PHM → Prop) : base_inv r →
  (∃ a m', f (rg_Handlespace r) = Some (a, m') ∧ phm_inv m' ∧ tracked (hs r) (phm_Handlespace m') ∧ element_codes m' ∧ R a m') →
  wp (onHs f) (λ a r', base_inv r' ∧ hs_step r r' ∧ R a (rg_Handlespace r')) r.
Proof.
  intros [Hl Ho Hc] (a & m' & Hf & Hm' & Htr & Hc' & HR). destruct (onHs_run f r a m' Hl Hf Hm' Htr) as (pl' & Hrun & Hl' & Hk & Hown).
  exists a, (rg_set_Both m' pl' r). split; [done|]. split; [|split; [split; [done|by destruct r]|done]].
  split; [done| |done]. unfold peers. simpl. by rewrite Hown.
Qed.

Lemma steady_codes m m' : steady (phm_Handlespace m) (phm_Handlespace m') → element_codes m → element_codes m'.
Proof. intros Hs Hc q c Hq Hcode. destruct (Hs q Hq) as [Hq0 Heq]. apply (Hc q c Hq0). by rewrite <- Heq. Qed.

Lemma wp_hs_follows {A} (f : M PHM A) r (R : A → PHM → Prop) : base_inv r →
  (∃ a m', f (rg_Handlespace r) = Some (a, m') ∧ phm_inv m' ∧ follows (rg_Handlespace r) m' ∧ R a m') →
  wp (onHs f) (λ a r', base_inv r' ∧ hs_step r r' ∧ R a (rg_Handlespace r')) r.
Proof.
  intros Hb (a & m' & Hf & Hm' & [Htr Hst] & HR). apply wp_hs; [done|]. exists a, m'. split; [done|]. split; [done|]. split; [done|].
  split; [|done]. by eapply steady_codes, Hb.
Qed.

Lemma takeovers_step r r' : hs_step r r' → takeovers (rg_TakeoverProcesses r) (rg_Peers r) → takeovers (rg_TakeoverProcesses r') (rg_Peers r').
Proof. intros Hs Ht. destruct (hs_step_fields _ _ Hs) as (-> & _). by apply (takeovers_kept _ (rg_Peers r)); [apply Hs|]. Qed.
End inv.
