(* ===== verification/RegistrarSteps.v ===== *)
(** * The steps of the handlers

    Each operation on the handlespace or the peer list, as the handlers
    call it: it comes to its end, keeps the invariant of both parts, and
    changes exactly what is stated. *)

From S2P Require Import Prelude Checksum Addresses PoolBasics Storage PoolElement PoolPolicy HandlespaceState PoolNode PoolEffects PoolSelection HandlespaceNode HandlespaceInv HandlespaceOps HandlespaceEffects HandlespaceWalks HandlespaceVerify HandlespaceUpdate HandlespaceMgt HandlespaceMgtInv HandlespaceNotifications HandlespaceRegistration HandlespaceSteps HandlespaceTheorems PeerList PeerListInv PeerListOps PeerListSteps PeerListRegister PeerListTheorems HandlespacePeers Message MessageCreator MessageParser PoolUsers Registrar RegistrarSend RegistrarAsap RegistrarTakeover RegistrarEnrp RegistrarCore RegistrarQuiet RegistrarInv.
From stdpp Require Import base list gmap numbers option sorting sets.
#[local] Open Scope Z_scope.

Section steps.
Context {ST : Type} `{SL : StorageLaws ST} `{En : Endian}.
Context (cfg : RegistrarConfig) (env : Environment).
Abbreviation PHM := (PoolHandlespaceManagement ST).
Abbreviation PLM := (PeerListManagement ST).
Abbreviation Reg := (Registrar ST).
Abbreviation base_inv := (base_inv cfg).
Abbreviation ptimers r := (st_list (pl_PeerListTimerStorage (peers r))).
Abbreviation pools r := (hs_PoolNodes (hs r)).
Implicit Types (r : Reg) (p q : ptr) (m : PHM).

Lemma phm_inv_base r : base_inv r → phm_inv (rg_Handlespace r).
Proof. intros Hb. apply (ls_handlespace _ (bi_listening _ _ Hb)). Qed.

Lemma hs_inv_base r : base_inv r → hs_inv (hs r).
Proof. intros Hb. apply pm_inv, phm_inv_base, Hb. Qed.

Lemma plm_inv_base r : base_inv r → plm_inv (rg_Peers r).
Proof. intros Hb. apply (ls_peers _ (bi_listening _ _ Hb)). Qed.

Lemma poolElementNodeDisposer_ok : disposer_ok (poolElementNodeDisposer (ST := ST)).
Proof. intros f q st [= <-]. done. Qed.

Lemma noDisposer_ok : disposer_ok (ST := ST) None.
Proof. done. Qed.

Lemma peerListNodeDisposer_ok : peer_disposer_ok (peerListNodeDisposer (ST := ST)).
Proof. intros f q pl n [= <-] Hn. exists (pln_set_UserData None n). unfold peer_update, peer_get, deref, mbind, M_bind. by rewrite Hn. Qed.

(** ** Elements *)

(** The element belongs to a pool. *)
Definition member r p : Prop := linked (rg_Handlespace r) p.

Lemma timer_member r p : base_inv r → p ∈ etimers r → member r p.
Proof.
  intros Hb Hp. destruct (si_valid _ _ _ (hi_timer _ _ _ _ (proj1 (hs_inv_base r Hb))) p Hp) as (n & h & Hn & Hh).
  exists n. split; [done|]. intros Ho. unfold owner_handle in Hh. by rewrite Ho in Hh.
Qed.

Lemma wp_deactivateElement r p : base_inv r →
  wp (deactivateElementTimer p) (λ _ r', base_inv r' ∧ hs_step r r' ∧ els r' = els r ∧ etimers r' = l_remove p (etimers r) ∧ pools r' = pools r) r.
Proof.
  intros Hb. pose proof (phm_inv_base r Hb) as Hm. destruct (deactivateTimer_spec (hs r) p (pm_inv _ Hm)) as (s & Hrun & Hi & Hl).
  apply (wp_hs_follows cfg _ r (λ _ m', hs_PoolElementNodes (phm_Handlespace m') = els r ∧
    st_list (hs_PoolElementTimerStorage (phm_Handlespace m')) = l_remove p (etimers r) ∧ hs_PoolNodes (phm_Handlespace m') = pools r)); [done|].
  exists tt, (phm_set_Handlespace (hs_set_PoolElementTimerStorage s (hs r)) (rg_Handlespace r)).
  split; [by apply onHandlespace_run|]. split; [by destruct Hm; split|].
  split; [|done]. apply followed_same; try done. intros q. simpl. rewrite Hl, l_remove_elem. unfold etimers. tauto.
Qed.

Lemma wp_activateElement r p n code ts : base_inv r → els r !! p = Some n → pen_OwnerPoolNode n ≠ None → p ∉ etimers r → element_code code →
  wp (activateElementTimer p code ts) (λ _ r', base_inv r' ∧ hs_step r r' ∧
    els r' = <[p := set_TimerTimeStamp ts (set_TimerCode code n)]> (els r) ∧ etimers r' ≡ₚ p :: etimers r ∧ pools r' = pools r) r.
Proof.
  intros Hb Hn Ho Hp Hcode. pose proof (phm_inv_base r Hb) as Hm. set (n' := set_TimerTimeStamp ts (set_TimerCode code n)).
  destruct (activateTimer_spec (hs r) p n code ts (pm_inv _ Hm) Hn Ho Hp) as (s & Hrun & Hi & Hl).
  apply (wp_hs cfg _ r (λ _ m', hs_PoolElementNodes (phm_Handlespace m') = <[p := n']> (els r) ∧
    st_list (hs_PoolElementTimerStorage (phm_Handlespace m')) ≡ₚ p :: etimers r ∧ hs_PoolNodes (phm_Handlespace m') = pools r)); [done|].
  exists tt, (phm_set_Handlespace (hs_set_PoolElementTimerStorage s (pe_store p n' (hs r))) (rg_Handlespace r)).
  split; [by apply onHandlespace_run|]. split; [|split; [|split; [|done]]].
  - apply (phm_inv_same p); [done|done| |by exists n| |done].
    + apply (others_same_trans _ _ (pe_store p n' (hs r))); [apply others_same_store; eauto|by apply others_same_heap].
    + eapply (linked_store _ _ n); [simpl; apply lookup_insert_eq|done|done].
  - apply (tracked_trans _ (pe_store p n' (hs r))); [by apply (tracked_store _ p n)|by apply tracked_same].
  - intros q c Hq Hc. simpl in Hq, Hc. unfold code_at in Hc. simpl in Hc. rewrite Hl in Hq.
    destruct (decide (q = p)) as [->|Hne]; [rewrite lookup_insert_eq in Hc; by injection Hc as <-|].
    rewrite lookup_insert_ne in Hc by done. apply elem_of_cons in Hq as [|Hq]; [done|]. by apply (bi_codes _ _ Hb q c Hq).
Qed.

Lemma wp_deregisterElement r p n : base_inv r → els r !! p = Some n → pen_OwnerPoolNode n ≠ None →
  wp (deregisterElement p) (λ e r', e = RSPERR_OKAY ∧ base_inv r' ∧ hs_step r r' ∧ els r' = delete p (els r) ∧
    etimers r' = l_remove p (etimers r)) r.
Proof.
  intros Hb Hn Ho. pose proof (phm_inv_base r Hb) as Hm. destruct (pen_OwnerPoolNode n) as [pp|] eqn:Hpp; [|done].
  destruct (deregisterByPtr_spec None poolElementNodeDisposer noDisposer_ok poolElementNodeDisposer_ok (hs r) p n pp (pm_inv _ Hm) Hn Hpp)
    as (st & Hrun & Hi & Hd).
  eapply wp_mono; [apply (wp_hs_follows cfg _ r (λ e m', e = RSPERR_OKAY ∧ hs_PoolElementNodes (phm_Handlespace m') = delete p (els r) ∧
    st_list (hs_PoolElementTimerStorage (phm_Handlespace m')) = l_remove p (etimers r))); [done|]|naive_solver].
  eexists _, _. split; [by apply onHandlespace_run|]. split; [by eapply phm_inv_deregistered|]. split; [by eapply followed_deregistered|].
  split; [done|]. split; apply Hd.
Qed.

(** Members that no storage depends on. *)
Definition neutral (f : PoolElementNode → PoolElementNode) : Prop := ∀ n,
  pe_core_same n (f n) ∧ (pen_wf n → pen_wf (f n)) ∧ pen_TimerTimeStamp (f n) = pen_TimerTimeStamp n ∧
  pen_HomeRegistrarIdentifier (f n) = pen_HomeRegistrarIdentifier n ∧ pen_ConnectionSocketDescriptor (f n) = pen_ConnectionSocketDescriptor n ∧
  pen_ConnectionAssocID (f n) = pen_ConnectionAssocID n ∧ pen_Checksum (f n) = pen_Checksum n ∧ pen_TimerCode (f n) = pen_TimerCode n ∧
  pen_OwnerPoolNode (f n) = pen_OwnerPoolNode n.

Lemma wp_updateElement r p n f : base_inv r → els r !! p = Some n → neutral f →
  wp (onHs (onHandlespace (pe_update p f))) (λ _ r', base_inv r' ∧ hs_step r r' ∧ els r' = <[p := f n]> (els r) ∧ etimers r' = etimers r) r.
Proof.
  intros Hb Hn Hf. pose proof (phm_inv_base r Hb) as Hm. destruct (Hf n) as (Hc & Hw & Ht & Hh & Hsd & Has & Hck & Hcode & Ho).
  apply (wp_hs_follows cfg _ r (λ _ m', hs_PoolElementNodes (phm_Handlespace m') = <[p := f n]> (els r) ∧
    st_list (hs_PoolElementTimerStorage (phm_Handlespace m')) = etimers r)); [done|].
  exists tt, (phm_set_Handlespace (pe_store p (f n) (hs r)) (rg_Handlespace r)). split; [by apply onHandlespace_run, pe_update_run|].
  split; [|split; [by apply (followed_store _ p n)|done]]. apply (phm_inv_store _ p n); [done|done|done|].
  apply (hs_inv_store _ p n); try done; [apply Hm|]. apply Hw. exact (hi_wf _ _ _ _ (proj1 (pm_inv _ Hm)) p n Hn).
Qed.

Lemma wp_ownership r p n home : base_inv r → els r !! p = Some n → pen_OwnerPoolNode n ≠ None → is_u32 home →
  wp (onHs (onHandlespace (poolHandlespaceNodeUpdateOwnershipOfPoolElementNode p home))) (λ _ r', base_inv r' ∧ hs_step r r' ∧
    els r' = <[p := moved_node home n]> (els r) ∧ etimers r' = etimers r ∧ pools r' = pools r) r.
Proof.
  intros Hb Hn Ho Hu. destruct (ownership_run (rg_Handlespace r) p home (phm_inv_base r Hb)) as (m' & Hrun & Hm' & Hf & n0 & Hn0 & He);
    [by exists n|done|]. assert (n0 = n) as -> by (unfold els, hs in Hn; congruence).
  destruct (updateOwnership_spec _ p n home (hs_inv_base r Hb) Hn Ho Hu) as (st' & Hrun' & _ & _ & Hp & _ & _ & Ht & _).
  unfold poolHandlespaceManagementUpdateOwnershipOfPoolElementNode in Hrun. pose proof Hrun as Heq. rewrite (onHandlespace_run _ _ _ _ Hrun') in Heq.
  injection Heq as <-. eapply wp_mono; [apply (wp_hs_follows cfg _ r (λ _ m', hs_PoolElementNodes (phm_Handlespace m') = <[p := moved_node home n]> (els r) ∧
    hs_PoolElementTimerStorage (phm_Handlespace m') = hs_PoolElementTimerStorage (hs r) ∧ hs_PoolNodes (phm_Handlespace m') = pools r)); [done|]|].
  - eexists tt, _. split; [exact Hrun|]. done.
  - intros [] r' (Hb' & Hs' & He' & Ht' & Hp'). split_and!; try done. unfold etimers. f_equal. exact Ht'.
Qed.

(** *** Registration *)

Definition acceptable (handle : PoolHandle) (home id : Z) (settings : PoolPolicySettings) : Prop :=
  (1 <= ph_Size handle <= MAX_POOLHANDLESIZE → handle_wf handle) ∧ is_u32 id ∧ is_u32 home ∧ pps_wf settings.

Definition room r (k : Z) : Prop := hs_PoolElements (hs r) + k < 2 ^ 31.

Lemma wp_elementMemory r : wp (elementMemory env) (λ mem r', same r r' ∧ fresh_memory (rg_Handlespace r) mem) r.
Proof.
  unfold elementMemory, mallocResult. apply wp_bind, wp_get. do 4 apply wp_bind, wp_observe. cbv zeta. apply wp_ret. split; [done|]. split.
  - intros pp. cbn [mem_PoolNode]. case_match; [|done]. intros [= <-]. apply not_elem_of_dom, is_fresh.
  - intros p. cbn [mem_PoolElementNode]. case_match; [|done]. intros [= <-]. apply not_elem_of_dom, is_fresh.
Qed.

Lemma wp_registerElement r handle home id life settings ut rt fd assoc : base_inv r → acceptable handle home id settings → room r 1 →
  wp (registerElement env handle home id life settings ut rt fd assoc) (λ res r', base_inv r' ∧ hs_step r r' ∧
    ∃ mem, register_result mem handle home id life settings ut rt fd assoc (rg_Handlespace r) res (rg_Handlespace r')) r.
Proof.
  intros Hb (Hh & Hid & Hhome & Hpps) Hroom. unfold registerElement. apply wp_bind.
  unfold getMicroTime. apply wp_observe. set (r1 := rg_set_Tick _ r). assert (same r r1) as H1 by done. apply wp_bind. set (now := env_MicroTime env _).
  eapply wp_mono; [apply wp_elementMemory|]. intros mem r2 [H2 Hmem].
  pose proof (same_trans _ _ _ H1 H2) as H12. pose proof (same_fields _ _ H12) as (Hhs & _). pose proof (same_fields _ _ H1) as (Hhs1 & _).
  rewrite Hhs1 in Hmem. assert (base_inv r2) as Hb2 by by eapply base_same.
  destruct (register_run None poolElementNodeDisposer noDisposer_ok poolElementNodeDisposer_ok mem handle home id life settings ut rt fd assoc now
    (rg_Handlespace r)) as (res & m' & Hrun & Hm' & Hres & Hf); try done; [by apply phm_inv_base|].
  eapply wp_mono; [apply (wp_hs_follows cfg _ r2 (λ res m', register_result mem handle home id life settings ut rt fd assoc
    (rg_Handlespace r) res m')); [done|]|].
  - exists res, m'. by rewrite Hhs.
  - intros res' r' (Hb' & Hs' & Hres'). split; [done|]. split; [|by exists mem]. eapply hs_step_trans; [by apply hs_step_same, H12|done].
Qed.

(** A registered element is a member. *)
Lemma registered_member r p h id reg : registered_at (hs r) p h id reg → ∃ n, els r !! p = Some n ∧ pen_OwnerPoolNode n ≠ None ∧
  owner_handle (hs r) n = Some h ∧ pen_Identifier n = id ∧ reg_of n = reg.
Proof. intros (n & Hn & Hoh & Hid & Hreg). exists n. split_and!; try done. intros Ho. unfold owner_handle in Hoh. by rewrite Ho in Hoh. Qed.

Lemma wp_findElement r h id : base_inv r → handle_wf h →
  wp (onHs (poolHandlespaceManagementFindPoolElement h id)) (λ res r', r' = r ∧
    match res with
    | Some p => ∃ n, els r !! p = Some n ∧ pen_OwnerPoolNode n ≠ None ∧ owner_handle (hs r) n = Some h ∧ pen_Identifier n = id
    | None => ∀ reg, ¬ registered (hs r) h id reg
    end) r.
Proof.
  intros Hb Hh. destruct (findElement_spec (hs r) h id (hs_inv_base r Hb) Hh) as (res & Hrun & Hres). exists res, r. split.
  - unfold onHs, listened, poolHandlespaceManagementFindPoolElement. simpl. erewrite onHandlespace_run; [|exact Hrun].
    unfold hs. rewrite phm_set_same, drop_all. simpl. by rewrite same_both.
  - split; [done|]. destruct res as [p|]; [|done]. destruct Hres as (n & Hn & Hoh & Hid). exists n. split_and!; try done.
    intros Ho. unfold owner_handle in Hoh. by rewrite Ho in Hoh.
Qed.

Lemma wp_resolution r random64 h max inc : base_inv r → handle_wf h → (∀ i, 0 <= random64 i) → 1 <= max < 2 ^ 32 → 0 <= inc →
  wp (onHs (poolHandlespaceManagementHandleResolution random64 h max inc)) (λ res r', base_inv r' ∧ hs_step r r' ∧
    view_same (rg_Handlespace r) (rg_Handlespace r') ∧
    (res.2 = RSPERR_OKAY ∧ NoDup res.1 ∧ Z.of_nat (length res.1) <= max ∧ (∀ p, p ∈ res.1 → ∃ id reg, registered_at (hs r) p h id reg) ∨
     res.2 = RSPERR_NOT_FOUND ∧ res.1 = [] ∧ ∀ id reg, ¬ registered (hs r) h id reg)) r.
Proof.
  intros Hb Hh Hr Hmax Hinc.
  destruct (resolution_run (rg_Handlespace r) random64 h max inc (phm_inv_base r Hb) Hh Hr Hmax Hinc) as (arr & err & m' & Hrun & Hm' & Hf & Hv & Hres).
  apply (wp_hs_follows cfg _ r (λ res m', view_same (rg_Handlespace r) m' ∧
    (res.2 = RSPERR_OKAY ∧ NoDup res.1 ∧ Z.of_nat (length res.1) <= max ∧ (∀ p, p ∈ res.1 → ∃ id reg, registered_at (hs r) p h id reg) ∨
     res.2 = RSPERR_NOT_FOUND ∧ res.1 = [] ∧ ∀ id reg, ¬ registered (hs r) h id reg))); [done|].
  exists (arr, err), m'. split; [done|]. split; [done|]. split; [done|]. split; [done|]. simpl. naive_solver.
Qed.

Lemma wp_mark r home : base_inv r →
  wp (onHs (poolHandlespaceManagementMarkPoolElementNodes home)) (λ _ r', base_inv r' ∧ hs_step r r') r.
Proof.
  intros Hb. destruct (mark_run (rg_Handlespace r) home (phm_inv_base r Hb)) as (m' & Hrun & Hm' & Hf & _).
  eapply wp_mono; [apply (wp_hs_follows cfg _ r (λ _ _, True)); [done|by exists tt, m']|]. naive_solver.
Qed.

Lemma wp_purgeMarked r home : base_inv r →
  wp (onHs (poolHandlespaceManagementPurgeMarkedPoolElementNodes None poolElementNodeDisposer home)) (λ _ r', base_inv r' ∧ hs_step r r') r.
Proof.
  intros Hb. destruct (purgeMarked_run None poolElementNodeDisposer noDisposer_ok poolElementNodeDisposer_ok (rg_Handlespace r) home
    (phm_inv_base r Hb)) as (m' & Hrun & Hm' & Hf & _).
  eapply wp_mono; [apply (wp_hs_follows cfg _ r (λ _ _, True)); [done|by eexists _, m'; split; [exact Hrun|]]|]. naive_solver.
Qed.

(** ** Peers *)

(** Only the peer list changes. *)
Definition pl_step r r' : Prop := same (rg_set_Both (rg_Handlespace r) (rg_Peers r') r) r'.

Lemma pl_step_fields r r' : pl_step r r' → rg_Handlespace r' = rg_Handlespace r ∧ rg_TakeoverProcesses r' = rg_TakeoverProcesses r ∧
  rg_Timers r' = rg_Timers r ∧ rg_InStartupPhase r' = rg_InStartupPhase r ∧ rg_MentorServerID r' = rg_MentorServerID r ∧
  rg_PoolUsers r' = rg_PoolUsers r.
Proof. intros Hr. destruct r, r'. unfold pl_step, same, rg_set_Both, rg_set_Outgoing, rg_set_Tick in Hr. simpl in Hr. injection Hr. intros. by subst. Qed.

Lemma pl_step_same r r' : same r r' → pl_step r r'.
Proof. intros Hs. pose proof (same_fields _ _ Hs) as (_ & H2 & _). unfold pl_step. by rewrite H2, same_both. Qed.

Lemma pl_step_trans r1 r2 r3 : pl_step r1 r2 → pl_step r2 r3 → pl_step r1 r3.
Proof.
  intros H1 H2. destruct r1, r2, r3. unfold pl_step, same, rg_set_Both, rg_set_Outgoing, rg_set_Tick in *. simpl in *.
  injection H1. injection H2. intros. by subst.
Qed.

Abbreviation plm_own := (λ m : PLM, pl_OwnIdentifier (plm_List m)).

Lemma wp_pl {A} (f : M PLM A) r (R : A → PLM → Prop) : base_inv r → keeps plm_own f →
  wp f (λ a pl', plm_inv pl' ∧ agree (owned_sum (rg_Handlespace r)) pl' ∧ R a pl') (rg_Peers r) →
  wp (onPl f) (λ a r', base_inv r' ∧ pl_step r r' ∧ R a (rg_Peers r')) r.
Proof.
  intros [[Hm Hfl _ _] Ho Hc] Hk (a & pl' & Hrun & Hp & Ha & HR). exists a, (rg_set_Both (rg_Handlespace r) pl' r).
  split; [unfold onPl; by rewrite Hrun|]. split; [|split; [done|done]].
  split; [by split| |done]. unfold peers. simpl. by rewrite (Hk _ _ _ Hrun).
Qed.

Lemma agree_base r : base_inv r → agree (owned_sum (rg_Handlespace r)) (rg_Peers r).
Proof. intros Hb. apply (ls_agree _ (bi_listening _ _ Hb)). Qed.

Lemma wp_activatePeer r p n code ts : base_inv r → entries (peers r) p = Some n → pln_Identifier n ≠ UNDEFINED_REGISTRAR_IDENTIFIER →
  p ∉ ptimers r →
  wp (onPl (peerListManagementActivateTimer p code ts)) (λ _ r', base_inv r' ∧ pl_step r r' ∧
    (∀ q, entries (peers r') q = if decide (q = p) then Some (timer_set code ts n) else entries (peers r) q) ∧
    (∀ q, q ∈ ptimers r' ↔ q = p ∨ q ∈ ptimers r)) r.
Proof.
  intros Hb Hn Hid Hp. eapply (wp_pl _ r (λ _ pl', (∀ q, entries (plm_List pl') q = if decide (q = p) then Some (timer_set code ts n) else entries (peers r) q) ∧
    (∀ q, q ∈ st_list (pl_PeerListTimerStorage (plm_List pl')) ↔ q = p ∨ q ∈ ptimers r))); [done| |].
  - unfold peerListManagementActivateTimer. apply keeps_onList. unfold peerListActivateTimer. solve_keeps.
  - eapply wp_mono; [apply (wp_activate (rg_Peers r) p n code ts (plm_inv_base r Hb) Hn Hid Hp)|]. intros [] pl' (Hp' & He & Ht & _).
    split; [done|]. split; [|done]. eapply agree_set; [by apply agree_base| |exact He]. by apply (agree_base r Hb p n).
Qed.

Lemma wp_deactivatePeer r p : base_inv r →
  wp (onPl (peerListManagementDeactivateTimer p)) (λ _ r', base_inv r' ∧ pl_step r r' ∧
    (∀ q, entries (peers r') q = entries (peers r) q) ∧ ptimers r' = l_remove p (ptimers r)) r.
Proof.
  intros Hb. eapply (wp_pl _ r (λ _ pl', (∀ q, entries (plm_List pl') q = entries (peers r) q) ∧
    st_list (pl_PeerListTimerStorage (plm_List pl')) = l_remove p (ptimers r))); [done| |].
  - apply keeps_onList, keeps_deactivate.
  - eapply wp_mono; [apply (wp_stopTimer (rg_Peers r) p (plm_inv_base r Hb))|]. intros [] pl' (Hp' & He & Ht & _).
    split; [done|]. split; [|done]. intros q n. rewrite He. by apply (agree_base r Hb).
Qed.

Lemma wp_peerDeregistered r p n : base_inv r → entries (peers r) p = Some n →
  wp (deregisterPeer p) (λ _ r', base_inv r' ∧ pl_step r r' ∧
    (∀ q, entries (peers r') q = if decide (q = p) then PeerListSteps.deregistered n else entries (peers r) q) ∧
    ptimers r' = l_remove p (ptimers r)) r.
Proof.
  intros Hb Hn. eapply (wp_pl _ r (λ _ pl', (∀ q, entries (plm_List pl') q = if decide (q = p) then PeerListSteps.deregistered n else entries (peers r) q) ∧
    st_list (pl_PeerListTimerStorage (plm_List pl')) = l_remove p (ptimers r))); [done| |].
  - apply keeps_onList, keeps_deregister.
  - eapply wp_mono; [apply (wp_deregisterPtr _ peerListNodeDisposer_ok (rg_Peers r) p n (plm_inv_base r Hb) Hn)|]. intros e pl' (_ & Hp' & He & Ht).
    split; [done|]. split; [|done]. apply (agree_unset _ (rg_Peers r) pl' (λ q, bool_decide (q = p))); [by apply agree_base|].
    intros q. rewrite He. unfold peers in Hn. case_decide as Hq; [subst q; by rewrite bool_decide_true, Hn|by rewrite bool_decide_false].
Qed.

(** Members of an entry that neither the storages nor the checksums depend on. *)
Definition peer_neutral (f : PeerListNode → PeerListNode) : Prop := ∀ n,
  pln_Identifier (f n) = pln_Identifier n ∧ pln_AddressBlock (f n) = pln_AddressBlock n ∧ pln_TimerTimeStamp (f n) = pln_TimerTimeStamp n ∧
  pln_Value (f n) = pln_Value n ∧ pln_OwnerPeerList (f n) = pln_OwnerPeerList n ∧ pln_OwnershipChecksum (f n) = pln_OwnershipChecksum n ∧
  pln_Flags (f n) = pln_Flags n.

Lemma wp_setPeer r p n f : base_inv r → entries (peers r) p = Some n → peer_neutral f →
  wp (setPeer p f) (λ _ r', base_inv r' ∧ pl_step r r' ∧
    (∀ q, entries (peers r') q = if decide (q = p) then Some (f n) else entries (peers r) q) ∧ ptimers r' = ptimers r) r.
Proof.
  intros Hb Hn Hf. eapply (wp_pl _ r (λ _ pl', (∀ q, entries (plm_List pl') q = if decide (q = p) then Some (f n) else entries (peers r) q) ∧
    st_list (pl_PeerListTimerStorage (plm_List pl')) = ptimers r)); [done|apply keeps_onList, keeps_update|].
  pose proof (plm_inv_base r Hb) as [Hi Hs]. pose proof Hn as [Hp Hl]%entries_Some. destruct (Hf n) as (Hid & Hab & Hts & Hv & Ho & Hck & Hfl).
  destruct (pv_lookup _ _ p Hi Hp) as (n0 & Hn0 & Hbk). assert (n0 = n) as -> by (unfold peers in Hl; congruence).
  assert (∀ q, entries (peer_store p (f n) (peers r)) q = if decide (q = p) then Some (f n) else entries (peers r) q) as He
    by (intros q; by apply entries_store).
  apply wp_onList. eapply wp_peer_update; [exact Hl|]. split; [split; simpl|split; [|done]].
  - eapply pl_inv_store; [done|exact Hl|]. intros _. split_and!; try done; by rewrite Hab.
  - eapply (statics_change (peers r) _ p n (f n)); [exact Hs|exact He|done|..]; unfold dynamic; rewrite ?Hid, ?Hab, ?Hfl; try done.
    intros Hdn. by apply (sv_dynamic _ Hs p n).
  - eapply agree_set; [by apply agree_base| |exact He]. destruct (agree_base r Hb p n Hn) as [H1 H2]. split; [by rewrite Hab|]. by rewrite Hid, Hck.
Qed.

Lemma wp_registerPeer r id flags t now : base_inv r → registrable (rg_Peers r) id flags t →
  wp (registerPeer env id flags t now) (λ res r', base_inv r' ∧ pl_step r r' ∧ ∃ peerNode duplicated,
    fresh_node (rg_Peers r) peerNode ∧ peer_registration (rg_Peers r) peerNode duplicated (Some (hs r)) id flags t now res (rg_Peers r')) r.
Proof.
  intros Hb Hg. unfold registerPeer, mallocResult. apply wp_bind, wp_get. do 2 apply wp_bind, wp_observe. cbn [rg_Tick rg_set_Tick].
  set (r1 := rg_set_Tick _ _). assert (same r r1) as H1 by done. pose proof (same_fields _ _ H1) as (Hh1 & Hp1 & _).
  set (peerNode := if env_Malloc env (rg_Tick r) then _ else _). set (duplicated := env_Malloc env _).
  assert (fresh_node (rg_Peers r) peerNode) as Hfr.
  { intros p _ Hpn. unfold peerNode in Hpn. case_match; [|done]. injection Hpn as <-. apply not_elem_of_dom, is_fresh. }
  eapply wp_mono; [apply (wp_pl _ r1 (λ res pl', peer_registration (rg_Peers r) peerNode duplicated (Some (hs r)) id flags t now res pl'))|].
  - by eapply base_same.
  - apply keeps_register.
  - rewrite Hp1. eapply wp_mono; [apply (wp_register _ peerListNodeDisposer_ok (rg_Peers r) peerNode duplicated (Some (hs r)) id flags t now)|].
    + by apply plm_inv_base.
    + done.
    + done.
    + intros hs0 [= <-]. by apply hs_inv_base.
    + intros res pl' [Hp' Hreg]. split; [done|]. split; [|done]. rewrite Hh1. eapply registration_agree; [by apply agree_base| |exact Hreg].
      intros i Hi. apply owner_checksum_sum; [by apply hs_inv_base|done].
  - intros res r' (Hb' & Hs' & Hreg). split; [done|]. split; [by eapply pl_step_trans; [apply pl_step_same, H1|]|]. eauto.
Qed.

Lemma wp_findPeer r id : base_inv r →
  wp (findPeer id) (λ res r', r' = r ∧ peer_found (peers r) id None res ∧ ∀ p, res = Some p → ∃ n, entries (peers r) p = Some n) r.
Proof.
  intros Hb. destruct (findPeer_run _ (peers r) id None (proj1 (plm_inv_base r Hb))) as (res & Hrun & Hf & Hin); [done|].
  exists res, r. split; [|done]. unfold findPeer, onPl, peerListManagementFindPeerListNode. erewrite onList_same; [|exact Hrun]. by rewrite same_both.
Qed.
End steps.
