(* ===== verification/RegistrarPackets.v ===== *)
(** * Messages that can be sent

    The packets of the messages about takeovers, of requests and of
    keep-alives can always be created, so that sending them neither fails
    nor changes the state of the registrar but for what is sent. *)

From S2P Require Import Prelude Checksum Addresses PoolBasics Storage PoolElement PoolPolicy HandlespaceState PoolNode PoolEffects PoolSelection HandlespaceNode HandlespaceInv HandlespaceMgt HandlespaceMgtInv HandlespaceNotifications HandlespaceRegistration HandlespaceSteps HandlespaceTheorems PeerList PeerListInv PeerListOps PeerListSteps PeerListRegister PeerListTheorems HandlespacePeers Message MessageCreator MessageParser MessageWire MessageWrites MessageCreate MessageTransmit PoolUsers Registrar RegistrarSend RegistrarAsap RegistrarTakeover RegistrarEnrp RegistrarCore RegistrarQuiet RegistrarInv RegistrarSteps.
From stdpp Require Import base list gmap numbers option.
#[local] Open Scope Z_scope.

Section packets.
Context {ST : Type} `{SL : StorageLaws ST} `{En : Endian}.
Context (cfg : RegistrarConfig) (env : Environment).
Abbreviation Reg := (Registrar ST).
Abbreviation Msg := (RSerPoolMessage ST).
Implicit Types (r : Reg) (m : Msg).

(** A message whose packet fits into its buffer. *)
Definition packable m : Prop := ∃ flags ppid body, sendable m ∧ bodyWire m = Some (flags, ppid, body) ∧
  4 + zlen body <= pb_OriginalBufferSize (rm_Packet m).

(** The message after its packet was created: it only differs in the buffer
    and the payload protocol identifier. *)
Definition packed m m' : Prop := rm_set_Packet (rm_Packet m) (rm_set_PPID (rm_PPID m) m') = m ∧
  pb_OriginalBufferSize (rm_Packet m') = pb_OriginalBufferSize (rm_Packet m) ∧ zlen (Buffer m') = zlen (Buffer m).

Lemma zlen_append w m : buffer_ok m → fits m w → zlen (Buffer (append w m)) = zlen (Buffer m).
Proof.
  intros Hb Hf. destruct Hb as (Hp & Hs & _). unfold fits in Hf. unfold append, Buffer. cbn [rm_Packet rm_set_Packet set_Position pb_Buffer]. unfold zlen in *.
  simpl. fold (Buffer m). rewrite !length_app, length_take, length_drop. lia.
Qed.

Lemma packet_run m : packable m → ∃ len m', rserpoolMessage2Packet m = Some (len, m') ∧ 0 < len ∧ packed m m'.
Proof.
  intros (flags & ppid & body & Hs & Hb & Hf). eexists _, _. split; [apply (message2packet_run m flags ppid body Hs Hb); by rewrite zlen_packet|].
  split; [rewrite zlen_packet; pose proof (zlen_nonneg body); lia|]. split; [by destruct m|]. split; [done|].
  rewrite zlen_append; [done|apply (sendable_ready m Hs)|]. unfold fits. change (Position _) with 0.
  change (BufferSize _) with (pb_OriginalBufferSize (rm_Packet m)). rewrite zlen_packet. lia.
Qed.

Lemma packed_sendable m m' : packed m m' → sendable m → sendable m'.
Proof. intros (_ & Ho & Hl). unfold sendable. by rewrite Ho, Hl. Qed.

Lemma wp_send fd assocID flags destination m r : packable m →
  wp (rserpoolMessageSend env fd assocID flags destination m) (λ res r', same r r' ∧ packed m res.2 ∧
    rg_Outgoing r' = rg_Outgoing r ++ [MessageSent fd assocID flags destination res.2]) r.
Proof.
  intros Hm. destruct (packet_run m Hm) as (len & m' & Hrun & Hlen & Hpk). unfold rserpoolMessageSend, toPacket.
  apply wp_bind. eapply wp_deref; [exact Hrun|]. cbv beta iota. rewrite (proj2 (Z.ltb_lt 0 len) Hlen).
  apply wp_bind, wp_modify, wp_bind, wp_observe, wp_ret. done.
Qed.

(** New messages. *)
Lemma blank_sendable size : 4 <= size < 2 ^ 62 → size mod 4 = 0 → sendable (rserpoolMessageNew (ST := ST) (replicate (Z.to_nat size) 0) size).
Proof. intros Hs Hm. unfold sendable. cbn [rm_Packet rserpoolMessageNew pb_OriginalBufferSize pb_Buffer Buffer]. rewrite zlen_replicate. lia. Qed.

Lemma wp_withMessage size (k : Msg → M Reg ()) r (Q : () → Reg → Prop) : 4 <= size < 2 ^ 62 → size mod 4 = 0 →
  (∀ r1, same r r1 → rg_Outgoing r1 = rg_Outgoing r → Q tt r1) →
  (∀ m r1, same r r1 → rg_Outgoing r1 = rg_Outgoing r → m = rserpoolMessageNew (replicate (Z.to_nat size) 0) size → sendable m → wp (k m) Q r1) →
  wp (withMessage env size k) Q r.
Proof.
  intros Hs Hm HQ Hk. unfold withMessage, mallocResult. apply wp_bind, wp_observe. destruct (env_Malloc env (rg_Tick r)).
  - apply (Hk _ (rg_set_Tick _ r)); try done. by apply blank_sendable.
  - apply wp_ret. by apply HQ.
Qed.

(** ** Loops over all peers *)

Lemma peers_walk {A} r (body : A → ptr → PeerListNode → M Reg A) (I : list ptr → A → Reg → Prop) a : base_inv cfg r →
  (∀ l1 p n l2 a r1, st_list (pl_PeerListIndexStorage (peers r)) = l1 ++ p :: l2 → entries (peers r) p = Some n → same r r1 → I l1 a r1 →
     wp (body a p n) (λ a' r2, same r1 r2 ∧ I (l1 ++ [p]) a' r2) r1) → I [] a r →
  wp (forAllPeers body a) (λ a' r', same r r' ∧ I (st_list (pl_PeerListIndexStorage (peers r))) a' r') r.
Proof.
  intros Hb Hbody HI. pose proof (plm_inv_base cfg r Hb) as [Hi _]. unfold forAllPeers.
  apply wp_bind. exists (length (st_list (pl_PeerListIndexStorage (peers r)))), r. split.
  { unfold onPl. erewrite onList_same; [|reflexivity]. by rewrite same_both. }
  apply wp_bind. exists (head (st_list (pl_PeerListIndexStorage (peers r)))), r. split.
  { unfold onPl, peerListManagementGetFirstPeerListNodeFromIndexStorage. erewrite onList_same; [by rewrite same_both|].
    apply (peerFirst_run PeerIndex), Hi. }
  apply (wp_walk _ _ (λ l a r1, same r r1 ∧ I l a r1)); [|done|done].
  intros l1 p l2 acc r1 Hl [Hsame HI1]. pose proof (same_fields _ _ Hsame) as (_ & Hp1 & _).
  assert (p ∈ st_list (pl_PeerListIndexStorage (peers r))) as Hin by (rewrite Hl; set_solver).
  destruct (pv_lookup _ _ p Hi Hin) as (n & Hn & _).
  apply wp_bind. exists n, r1. split.
  { unfold peer, onPl. erewrite onList_same; [by rewrite same_both|]. unfold peer_get, deref. rewrite Hp1. by rewrite Hn. }
  eapply wp_mono; [apply (Hbody l1 p n l2 acc r1 Hl); [by apply entries_Some|done|done]|]. intros a' r2 [Hs2 HI2].
  pose proof (same_trans _ _ _ Hsame Hs2) as Hs12. pose proof (same_fields _ _ Hs12) as (_ & Hp2 & _). split; [done|].
  exists (head l2), r2. split; [|done]. unfold onPl, peerListManagementGetNextPeerListNodeFromIndexStorage, peerListGetNextPeerListNodeFromIndexStorage.
  erewrite onList_same; [by rewrite same_both|]. rewrite Hp2. eapply (peerNext_run PeerIndex); [apply Hi|exact Hl].
Qed.

(** Every entry has addresses. *)
Lemma wp_addressesOf r r1 p n : base_inv cfg r → entries (peers r) p = Some n → wp (addressesOf n) (λ _ r', r' = r1) r1.
Proof.
  intros Hb Hn. destruct (agree_base cfg r Hb p n Hn) as [Ha _]. destruct (pln_AddressBlock n) as [t|] eqn:Ht; [|done].
  unfold addressesOf. eapply wp_deref; [rewrite Ht; reflexivity|done].
Qed.

(** ** Messages with a fixed length *)

Lemma packable_fixed m flags ppid body : sendable m → bodyWire m = Some (flags, ppid, body) → zlen body = 12 ∨ zlen body = 8 →
  1024 <= pb_OriginalBufferSize (rm_Packet m) → packable m.
Proof. intros Hs Hb Hl Hsz. exists flags, ppid, body. split; [done|]. split; [done|]. lia. Qed.

(** The message that is sent to the next peer. *)
Definition toPeer (n : PeerListNode) m : Msg := rm_set_ReceiverID (pln_Identifier n) m.

Lemma wp_sendToPeer r r1 p n m : base_inv cfg r → entries (peers r) p = Some n →
  (∀ k, packable (rm_set_Addresses k (toPeer n m))) →
  wp (sendToPeer cfg env m n) (λ m' r2, same r1 r2 ∧ ∃ k, packed (rm_set_Addresses k (toPeer n m)) m') r1.
Proof.
  intros Hb Hn Hm. unfold sendToPeer. apply wp_bind. eapply wp_mono; [by eapply wp_addressesOf|]. intros l r2 ->.
  apply wp_bind. eapply wp_mono; [apply wp_send, Hm|]. intros res r2 (Hs & Hpk & _). apply wp_ret. split; [done|]. eauto.
Qed.

(** ** Keep-alives *)

Lemma pooled_handle r p n : base_inv cfg r → els r !! p = Some n → pen_OwnerPoolNode n ≠ None →
  ∃ h, owner_handle (hs r) n = Some h ∧ handle_wf h.
Proof.
  intros Hb Hn Ho. destruct (hs_struct_owner _ _ _ _ _ _ (proj1 (hs_inv_base cfg r Hb)) Hn Ho) as (pp & pn & _ & _ & Hinv & Hh & _).
  exists (pn_Handle pn). split; [done|]. apply Hinv.
Qed.

Lemma packable_keepAlive m : sendable m → rm_Type m = AHT_ENDPOINT_KEEP_ALIVE → handle_wf (rm_Handle m) →
  1024 <= pb_OriginalBufferSize (rm_Packet m) → packable m.
Proof.
  intros Hs Ht Hh Hsz. exists (Z.land (rm_Flags m) AHF_ENDPOINT_KEEP_ALIVE_HOME), PPID_ASAP,
    (htonl (rm_RegistrarIdentifier m) ++ handleWire (rm_Handle m) ++ if rm_Identifier m =? 0 then [] else identifierWire (rm_Identifier m)).
  split; [done|]. split.
  - unfold bodyWire, handlePart, provided. rewrite Ht, decide_True by done. reflexivity.
  - destruct Hh as ([_ Hl] & Hlen & _). unfold handleWire. rewrite !zlen_app, zlen_htonl, zlen_tlv.
    assert (zlen (take (Z.to_nat (ph_Size (rm_Handle m))) (ph_Handle (rm_Handle m))) <= MAX_POOLHANDLESIZE) as Hz.
    { unfold zlen. rewrite length_take. lia. }
    assert (zlen (if rm_Identifier m =? 0 then [] else identifierWire (rm_Identifier m)) <= 16) as Hi.
    { destruct (_ =? 0); [by rewrite zlen_nil|]. unfold identifierWire. rewrite zlen_tlv, zlen_htonl. pose proof (padding_range (4 + 4)). lia. }
    pose proof (padding_range (4 + zlen (take (Z.to_nat (ph_Size (rm_Handle m))) (ph_Handle (rm_Handle m))))). unfold MAX_POOLHANDLESIZE in Hz. lia.
Qed.

(** The element can be asked: it has a connection or addresses. *)
Definition contactable n : Prop := 0 <= pen_ConnectionSocketDescriptor n ∨ pen_RegistratorTransport n ≠ None.

Lemma wp_element p n r (Q : PoolElementNode → Reg → Prop) : els r !! p = Some n → Q n r → wp (element p) Q r.
Proof.
  intros Hn HQ. exists n, r. split; [|done]. unfold element, onHs, listened, onHandlespace, pe_get, deref. simpl. unfold els, hs in Hn.
  rewrite Hn. simpl. rewrite phm_set_same, drop_all. simpl. by rewrite same_both.
Qed.

Lemma wp_keepAlive r p n home : base_inv cfg r → els r !! p = Some n → pen_OwnerPoolNode n ≠ None → contactable n →
  wp (registrarSendASAPEndpointKeepAlive cfg env p home) (λ _ r', same r r') r.
Proof.
  intros Hb Hn Ho Hc. destruct (pooled_handle r p n Hb Hn Ho) as (h & Hh & Hwf). unfold registrarSendASAPEndpointKeepAlive.
  apply wp_withMessage; [lia|done|done|]. intros m r1 H1 _ Hm Hsm. destruct (same_fields _ _ H1) as (Hhs & _).
  apply wp_bind, (wp_element p n); [unfold els, hs; by rewrite Hhs|]. apply wp_bind.
  unfold ownerHandle. eapply wp_deref; [rewrite Hhs; exact Hh|]. cbv zeta. set (m' := rm_set_Flags _ _).
  assert (∀ k, packable (rm_set_Addresses k m')) as Hp.
  { intros k. apply packable_keepAlive; [| | |]; subst m; try done; by apply blank_sendable. }
  assert (packable m') as Hp' by (specialize (Hp (rm_Addresses m')); by destruct m').
  assert (∀ (res : bool * Msg) r2, same r r2 → wp (if negb res.1 then sendabort (cf_ASAPSocket cfg) 0 else mret tt) (λ _ r', same r r') r2) as Hend.
  { intros res r2 H2. destruct res.1; [by apply wp_ret|]. apply wp_modify. exact H2. }
  apply wp_bind. destruct (Z.leb_spec 0 (pen_ConnectionSocketDescriptor n)).
  - eapply wp_mono; [by apply wp_send|]. intros res r2 (H2 & _). apply Hend. exact (same_trans _ _ _ H1 H2).
  - destruct (pen_RegistratorTransport n) as [t|] eqn:Ht; [|by destruct Hc; [lia|]]. apply wp_bind. eapply wp_deref; [reflexivity|].
    eapply wp_mono; [apply wp_send, Hp|]. intros res r2 (H2 & _). apply Hend. exact (same_trans _ _ _ H1 H2).
Qed.

(** ** Messages about takeovers *)

Definition about_takeover m : Prop :=
  rm_Type m = EHT_INIT_TAKEOVER ∨ rm_Type m = EHT_INIT_TAKEOVER_ACK ∨ rm_Type m = EHT_TAKEOVER_SERVER.

Lemma packable_takeover m : sendable m → about_takeover m → 1024 <= pb_OriginalBufferSize (rm_Packet m) → packable m.
Proof.
  intros Hs Ht Hsz. apply (packable_fixed m 0 PPID_ENRP (targetParameter m)); [done| |left|done].
  - unfold bodyWire. by destruct Ht as [-> | [-> | ->]].
  - unfold targetParameter. by rewrite !zlen_app, !zlen_htonl.
Qed.

Lemma wp_initTakeoverAck r sd assocID id target :
  wp (registrarSendENRPInitTakeoverAck cfg env sd assocID id target) (λ _ r', same r r') r.
Proof.
  unfold registrarSendENRPInitTakeoverAck. apply wp_withMessage; [lia|done|done|]. intros m r1 H1 _ Hm Hsm. apply wp_bind.
  eapply wp_mono; [apply wp_send, packable_takeover|]; subst m; [by apply blank_sendable|by right; left|simpl; lia|].
  intros res r2 (H2 & _). apply wp_ret. exact (same_trans _ _ _ H1 H2).
Qed.

Lemma wp_takeoverServers r target : base_inv cfg r →
  wp (registrarSendENRPTakeoverServerToAllPeers cfg env target) (λ _ r', same r r') r.
Proof.
  intros Hb. unfold registrarSendENRPTakeoverServerToAllPeers.
  eapply wp_mono; [apply (peers_walk r _ (λ _ _ _, True)); [done| |done]|by intros [] r' [? _]].
  intros l1 p n l2 [] r1 _ _ _ _. destruct (negb _); [|by apply wp_ret]. unfold registrarSendENRPTakeoverServer.
  apply wp_withMessage; [lia|done|done|]. intros m r2 H2 _ Hm Hsm. unfold sendOut. apply wp_bind.
  eapply wp_mono; [apply wp_send, packable_takeover|]; subst m; [by apply blank_sendable|by right; right|simpl; lia|].
  intros res r3 (H3 & _). apply wp_ret. split; [|done]. exact (same_trans _ _ _ H2 H3).
Qed.
End packets.
