(* ===== verification/RegistrarAsapSteps.v ===== *)
(** * The ASAP handlers keep the invariant

    Whatever pool elements and pool users send, whenever the timer of an
    element expires and whichever association is lost: the registrar's
    invariant holds again when the handler has come to its end. *)

From S2P Require Import Prelude Checksum Addresses PoolBasics Storage PoolElement PoolPolicy HandlespaceState PoolNode PoolEffects PoolSelection HandlespaceNode HandlespaceInv HandlespaceOps HandlespaceEffects HandlespaceWalks HandlespaceVerify HandlespaceUpdate HandlespaceMgt HandlespaceMgtInv HandlespaceNotifications HandlespaceRegistration HandlespaceSteps HandlespaceTheorems PeerList PeerListInv PeerListOps PeerListSteps PeerListRegister PeerListTheorems HandlespacePeers Message MessageCreator MessageParser PoolUsers Registrar RegistrarSend RegistrarAsap RegistrarTakeover RegistrarEnrp RegistrarCore RegistrarQuiet RegistrarInv RegistrarSteps.
From stdpp Require Import base list gmap numbers option sorting sets.
#[local] Open Scope Z_scope.

(** ** What the invariant does not depend on *)

Section calm.
Context {ST : Type} `{SL : StorageLaws ST} `{En : Endian}.
Context (cfg : RegistrarConfig) (env : Environment).
Abbreviation Reg := (Registrar ST).
Implicit Types (r : Reg) (p q : ptr).

(** Neither the handlespace nor the peers nor the takeovers change. *)
Definition still r r' : Prop :=
  rg_Handlespace r' = rg_Handlespace r ∧ rg_Peers r' = rg_Peers r ∧ rg_TakeoverProcesses r' = rg_TakeoverProcesses r.

Definition calm {A} (f : M Reg A) : Prop := ∀ r, wlp f (λ _ r', still r r') r.

Lemma still_trans r1 r2 r3 : still r1 r2 → still r2 r3 → still r1 r3.
Proof. unfold still. intuition congruence. Qed.

Lemma base_still r r' : still r r' → base_inv cfg r → base_inv cfg r'.
Proof. intros (H1 & H2 & _) [? ? ?]. split; unfold peers; by rewrite ?H1, ?H2. Qed.

Lemma inv_still r r' : still r r' → registrar_inv cfg r → registrar_inv cfg r'.
Proof. intros Hs [Hb Ht]. split; [by eapply base_still|]. destruct Hs as (_ & -> & ->). done. Qed.

Lemma calm_quiet {A} (f : M Reg A) : quiet f → calm f.
Proof. intros Hf r. eapply wlp_mono; [apply Hf|]. intros a r' (? & ? & ? & _)%same_fields. done. Qed.

Lemma calm_bind {A B} (f : M Reg A) (k : A → M Reg B) : calm f → (∀ a, calm (k a)) → calm (f ≫= k).
Proof.
  intros Hf Hk r. apply wlp_bind. eapply wlp_mono; [apply Hf|]. intros a r1 H1. eapply wlp_mono; [apply Hk|].
  intros b r2 H2. exact (still_trans _ _ _ H1 H2).
Qed.

Lemma calm_modify (f : Reg → Reg) : (∀ r, still r (f r)) → calm (modify f).
Proof. intros Hf r. apply wlp_modify, Hf. Qed.

Lemma calm_timerStart t ts : calm (timerStart t ts).
Proof.
  intros r a r' Hr. unfold timerStart, mbind, M_bind, get, CHECK, put in Hr. destruct (bool_decide _); [|done]. by injection Hr as <- <-.
Qed.

Lemma calm_timerRestart t ts : calm (timerRestart t ts).
Proof. apply calm_bind; [by apply calm_modify|]. intros _. apply calm_timerStart. Qed.

Lemma reads_storage {A} k (f : ST → A) : reads (storageRead k f).
Proof. intros s a s' Hr. unfold storageRead in Hr. destruct (slot_get k s); [|done]. by injection Hr as <- <-. Qed.

Lemma calm_onUsers {A} (f : M (PoolUserList ST) A) : calm (onUsers f).
Proof. intros r a r' Hr. unfold onUsers in Hr. case_match; [|done]. case_match. by injection Hr as <- <-. Qed.
End calm.

#[global] Create HintDb calm discriminated.
#[export] Hint Constants Opaque : calm.
#[export] Hint Resolve reads_storage : quiet.
#[export] Hint Resolve calm_timerStart calm_timerRestart calm_onUsers : calm.
Ltac calm_step :=
  lazymatch goal with
  | |- calm (mbind _ _) => first [apply calm_quiet; solve [solve_quiet] | apply calm_bind; [|intros ?]]
  | |- calm (match ?x with _ => _ end) => destruct x
  | |- calm _ => first [solve [auto with calm nocore] | apply calm_quiet; solve [solve_quiet] | apply calm_modify; done]
  end.
Ltac solve_calm := cbv beta zeta; repeat (calm_step; cbv beta zeta).

Section calm.
Context {ST : Type} `{SL : StorageLaws ST} `{En : Endian}.
Context (cfg : RegistrarConfig) (env : Environment).
Abbreviation Reg := (Registrar ST).
Implicit Types (r : Reg) (p q : ptr).

Lemma calm_restartHandlespace : calm (ST := ST) restartHandlespaceTimer.
Proof.
  unfold restartHandlespaceTimer, poolHandlespaceManagementGetNextTimerTimeStamp, poolHandlespaceNodeGetFirstPoolElementTimerNode, storageGetFirst, pe_get. solve_calm.
Qed.

Lemma calm_restartPeer : calm (ST := ST) restartPeerTimer.
Proof. unfold restartPeerTimer, peerListManagementGetNextTimerTimeStamp, peerListManagementGetFirstPeerListNodeFromTimerStorage,
    peerListGetFirstPeerListNodeFromTimerStorage. solve_calm. Qed.

Lemma calm_normalOperation b : calm (ST := ST) (registrarBeginNormalOperation cfg b).
Proof. unfold registrarBeginNormalOperation. solve_calm. Qed.

Lemma calm_announce : calm (ST := ST) (registrarHandleASAPAnnounceTimer cfg env).
Proof. unfold registrarHandleASAPAnnounceTimer, toPacket. solve_calm. Qed.

Lemma calm_refused fd assocID action rate handle : calm (ST := ST) (refused cfg env fd assocID action rate handle).
Proof. unfold refused, hasPermission. solve_calm. Qed.

Lemma calm_elements l : calm (ST := ST) (RegistrarAsap.elements l).
Proof. induction l as [|p l IH]; simpl; solve_calm. Qed.
End calm.
#[export] Hint Resolve calm_restartHandlespace calm_restartPeer calm_normalOperation calm_announce calm_refused calm_elements : calm.

(** ** The invariant along a handler *)

Section safe.
Context {ST : Type} `{SL : StorageLaws ST} `{En : Endian}.
Context (cfg : RegistrarConfig) (env : Environment).
Abbreviation Reg := (Registrar ST).
Abbreviation inv := (registrar_inv cfg).
Implicit Types (r : Reg) (p q : ptr) (n : PoolElementNode).

Definition safe {A} (f : M Reg A) : Prop := ∀ r, inv r → wlp f (λ _ r', inv r') r.

Lemma safe_bind {A B} (f : M Reg A) (k : A → M Reg B) : safe f → (∀ a, safe (k a)) → safe (f ≫= k).
Proof. intros Hf Hk r Hi. apply wlp_bind. eapply wlp_mono; [by apply Hf|]. intros a r1 H1. by apply Hk. Qed.

Lemma safe_calm {A} (f : M Reg A) : calm f → safe f.
Proof. intros Hf r Hi. eapply wlp_mono; [apply Hf|]. intros a r' Hs. exact (inv_still cfg _ _ Hs Hi). Qed.

(** After a step that leaves everything as it is. *)
Lemma wlp_quietly {A B} (f : M Reg A) (k : A → M Reg B) (Q : B → Reg → Prop) r : quiet f →
  (∀ a r', same r r' → wlp (k a) Q r') → wlp (f ≫= k) Q r.
Proof. intros Hf Hk. apply wlp_bind. eapply wlp_mono; [apply Hf|]. exact Hk. Qed.

Lemma inv_hs r r' : inv r → base_inv cfg r' → hs_step r r' → inv r'.
Proof. intros Hi Hb Hs. split; [done|]. eapply takeovers_step; [done|apply Hi]. Qed.

Lemma same_els r r' : same r r' → els r' = els r ∧ etimers r' = etimers r ∧ hs r' = hs r.
Proof. intros (Hh & _)%same_fields. unfold els, etimers, hs. by rewrite Hh. Qed.

(** A read of an element. *)
Lemma wlp_element p r (Q : PoolElementNode → Reg → Prop) : (∀ n, els r !! p = Some n → Q n r) → wlp (element p) Q r.
Proof.
  intros HQ n r' Hr. unfold element, onHs, listened, onHandlespace, pe_get, deref in Hr. simpl in Hr.
  destruct (hs_PoolElementNodes _ !! p) as [x|] eqn:Hx; [|done]. unfold hs in Hr. simpl in Hr.
  rewrite phm_set_same, drop_all in Hr. simpl in Hr. rewrite same_both in Hr. injection Hr as <- <-. by apply HQ.
Qed.

(** An element of a pool, with its node. *)
Definition pooled r p n : Prop := els r !! p = Some n ∧ pen_OwnerPoolNode n ≠ None.

(** The other elements, the running timers but that of [p]. *)
Definition others_kept p r r' : Prop :=
  (∀ q, q ≠ p → els r' !! q = els r !! q) ∧ (∀ q, q ≠ p → q ∈ etimers r → q ∈ etimers r').

Lemma others_kept_trans p r1 r2 r3 : others_kept p r1 r2 → others_kept p r2 r3 → others_kept p r1 r3.
Proof. intros [H1 H1'] [H2 H2']. split; intros q Hq; [rewrite H2, H1 by done; done|auto]. Qed.

Lemma others_kept_same p r r' : same r r' → others_kept p r r'.
Proof. intros (He & Ht & _)%same_els. split; intros q Hq; by rewrite ?He, ?Ht. Qed.

(** A timer that is stopped and started again. *)
Lemma safe_restart {A} r p n code ts (k : M Reg A) Q : inv r → pooled r p n → element_code code →
  (∀ r', inv r' → others_kept p r r' → wlp k Q r') →
  wlp (deactivateElementTimer p;; now ← getMicroTime env; activateElementTimer p code (ts now);; k) Q r.
Proof.
  intros Hi [Hn Ho] Hc Hk. apply wlp_bind. eapply wlp_mono; [apply wlp_wp, (wp_deactivateElement cfg), Hi|]. intros [] r1 (Hb1 & Hs1 & He1 & Ht1 & _).
  apply wlp_quietly; [solve_quiet|]. intros now r2 H2. destruct (same_els _ _ H2) as (He2 & Ht2 & _). apply wlp_bind.
  eapply wlp_mono; [apply wlp_wp, (wp_activateElement cfg _ p n)|].
  - by eapply base_same.
  - by rewrite He2, He1.
  - done.
  - rewrite Ht2, Ht1, l_remove_elem. tauto.
  - done.
  - intros [] r3 (Hb3 & Hs3 & He3 & Ht3 & _). apply Hk.
    + apply (inv_hs r); [done|done|]. eapply hs_step_trans; [exact Hs1|]. eapply hs_step_trans; [by apply hs_step_same|done].
    + split; intros q Hq.
      * rewrite He3, lookup_insert_ne by done. by rewrite He2, He1.
      * rewrite Ht3, Ht2, Ht1, elem_of_cons, l_remove_elem. tauto.
Qed.

Lemma safe_removeElement r p n : inv r → pooled r p n →
  wlp (removeElement cfg env p) (λ _ r', inv r' ∧ others_kept p r r' ∧ els r' !! p = None) r.
Proof.
  intros Hi [Hn Ho]. unfold removeElement. apply wlp_bind, wlp_element. intros n0 Hn0. assert (n0 = n) as -> by congruence.
  apply wlp_quietly; [solve_quiet|]. intros [] r1 H1. destruct (same_els _ _ H1) as (He1 & Ht1 & _).
  eapply wlp_mono; [apply wlp_wp, (wp_deregisterElement cfg _ p n)|].
  - by eapply base_same; [|apply Hi].
  - by rewrite He1.
  - done.
  - intros e r2 (-> & Hb & Hs & He & Ht). split; [|split].
    + apply (inv_hs r); [done|done|]. eapply hs_step_trans; [by apply hs_step_same|done].
    + split; intros q Hq; [rewrite He, He1; by apply lookup_delete_ne|]. rewrite Ht, Ht1, l_remove_elem. tauto.
    + rewrite He, He1. apply lookup_delete_eq.
Qed.
End safe.

(** ** Elements whose timer expires, elements of lost associations *)

Section timers.
Context {ST : Type} `{SL : StorageLaws ST} `{En : Endian}.
Context (cfg : RegistrarConfig) (env : Environment).
Abbreviation Reg := (Registrar ST).
Abbreviation inv := (registrar_inv cfg).
Implicit Types (r : Reg) (p q : ptr) (n : PoolElementNode).

Lemma neutral_transmission now : neutral (set_LastKeepAliveTransmission now).
Proof. intros n. split; [by repeat split|]. split; [unfold pen_wf; by destruct n|done]. Qed.

Lemma neutral_reports f : neutral (λ n, set_UnreachabilityReports (f n) n).
Proof. intros n. split; [by repeat split|]. split; [unfold pen_wf; by destruct n|done]. Qed.

(** A read of the handlespace. *)
Lemma wlp_readHs {A} (f : M (Handlespace ST) A) r (Q : A → Reg → Prop) : reads f → (∀ a, f (hs r) = Some (a, hs r) → Q a r) →
  wlp (onHs (onHandlespace f)) Q r.
Proof.
  intros Hf HQ a r' Hr. unfold onHs, listened, onHandlespace in Hr. simpl in Hr. fold (hs r) in Hr.
  destruct (f (hs r)) as [[b st]|] eqn:Hb; [|done]. pose proof (Hf _ _ _ Hb) as ->. unfold hs in Hr. simpl in Hr.
  rewrite phm_set_same, drop_all in Hr. simpl in Hr. rewrite same_both in Hr. injection Hr as <- <-. by apply HQ.
Qed.

(** The next node of a storage is another one of it. *)
Lemma next_other (l1 l2 : list ptr) p q : NoDup (l1 ++ p :: l2) → head l2 = Some q → q ∈ l1 ++ p :: l2 ∧ q ≠ p.
Proof.
  intros Hnd Hq. destruct l2 as [|x l2]; [done|]. injection Hq as ->. split; [rewrite elem_of_app, !elem_of_cons; tauto|].
  intros ->. apply NoDup_app in Hnd as (_ & _ & Hnd). apply NoDup_cons in Hnd as [Hnin _]. apply Hnin. left.
Qed.

Lemma next_in k st s p q : slot_get k st = Some s → slot_inv k st s → p ∈ st_list s → storageGetNext k p st = Some (Some q, st) →
  q ∈ st_list s ∧ q ≠ p.
Proof.
  intros Hg Hinv Hp Hq. apply list_elem_of_split in Hp as (l1 & l2 & Hl). pose proof (slot_inv_nodup _ _ _ Hinv) as Hnd.
  rewrite (storageGetNext_app k st s l1 p l2 _ Hg (si_ok _ _ _ Hinv) Hl) in Hq. injection Hq as Hq. rewrite Hl in Hnd |- *. by apply (next_other _ l2).
Qed.

Lemma wlp_nextTimer r p (Q : option ptr → Reg → Prop) : inv r → p ∈ etimers r →
  (∀ x, (∀ q, x = Some q → q ∈ etimers r ∧ q ≠ p) → Q x r) →
  wlp (onHs (onHandlespace (poolHandlespaceNodeGetNextPoolElementTimerNode p))) Q r.
Proof.
  intros Hi Hp HQ. apply wlp_readHs; [apply reads_storage|]. intros x Hx. apply HQ. intros q ->.
  eapply (next_in SlotTimer); [done|apply (hs_inv_base cfg r (ri_base _ _ Hi))|done|done].
Qed.

Lemma safe_handleTimer r p n : inv r → p ∈ etimers r → els r !! p = Some n →
  wlp (handleElementTimer cfg env p n) (λ _ r', inv r' ∧ others_kept p r r') r.
Proof.
  intros Hi Hp Hn. pose proof (ri_base _ _ Hi) as Hb. destruct (timer_member cfg r p Hb Hp) as (n0 & Hn0 & Ho).
  assert (n0 = n) as -> by (unfold els, hs in Hn; congruence). assert (pooled r p n) as Hpo by done.
  unfold handleElementTimer. destruct (_ =? PENT_KEEPALIVE_TRANSMISSION).
  - apply wlp_bind. eapply wlp_mono; [apply wlp_wp, (wp_deactivateElement cfg), Hi|]. intros [] r1 (Hb1 & Hs1 & He1 & Ht1 & _).
    apply wlp_quietly; [solve_quiet|]. intros [] r2 H2. apply wlp_quietly; [solve_quiet|]. intros now r3 H3.
    pose proof (same_trans _ _ _ H2 H3) as H23. destruct (same_els _ _ H23) as (He3 & Ht3 & _).
    assert (base_inv cfg r3) as Hb3 by by eapply base_same. assert (els r3 !! p = Some n) as Hn3 by by rewrite He3, He1.
    apply wlp_bind. eapply wlp_mono; [apply wlp_wp, (wp_updateElement cfg _ p n (set_LastKeepAliveTransmission now) Hb3 Hn3), neutral_transmission|].
    intros [] r4 (Hb4 & Hs4 & He4 & Ht4).
    eapply wlp_mono; [apply wlp_wp, (wp_activateElement cfg _ p (set_LastKeepAliveTransmission now n)); [done|rewrite He4; apply lookup_insert_eq|done| |]|].
    + rewrite Ht4, Ht3, Ht1, l_remove_elem. tauto.
    + by right; right.
    + intros [] r5 (Hb5 & Hs5 & He5 & Ht5 & _). split.
      * apply (inv_hs cfg r); [done|done|]. eapply hs_step_trans; [exact Hs1|]. eapply hs_step_trans; [by apply hs_step_same|].
        by eapply hs_step_trans.
      * split; intros q Hq; [by rewrite He5, lookup_insert_ne, He4, lookup_insert_ne, He3, He1 by done|].
        rewrite Ht5, Ht4, Ht3, Ht1, elem_of_cons, l_remove_elem. tauto.
  - destruct (_ || _); [|apply wlp_abort]. apply wlp_quietly; [solve_quiet|]. intros [] r1 H1.
    destruct (same_els _ _ H1) as (He1 & _). apply wlp_bind.
    eapply wlp_mono; [apply (safe_removeElement cfg env r1 p n); [by eapply inv_same|split; [by rewrite He1|done]]|].
    intros e r2 (Hi2 & Ho2 & _). apply wlp_check. intros _. split; [done|]. eapply others_kept_trans; [by apply others_kept_same|done].
Qed.

Lemma safe_elementTimers fuel : ∀ cur r, inv r → (∀ p, cur = Some p → p ∈ etimers r) → wlp (elementTimers cfg env fuel cur) (λ _ r', inv r') r.
Proof.
  induction fuel as [|fuel IH]; intros [p|] r Hi Hcur; cbn [elementTimers]; [apply wlp_abort|by apply wlp_ret| |by apply wlp_ret].
  specialize (Hcur p eq_refl). apply wlp_bind, wlp_element. intros n Hn. apply wlp_quietly; [solve_quiet|]. intros now r1 H1.
  destruct (same_els _ _ H1) as (He1 & Ht1 & _). assert (inv r1) as Hi1 by by eapply inv_same.
  destruct (_ <=? now); [|by apply wlp_ret]. apply wlp_bind, wlp_nextTimer; [done|by rewrite Ht1|]. intros x Hx.
  apply wlp_bind. eapply wlp_mono; [apply (safe_handleTimer r1 p n Hi1)|]; [by rewrite Ht1|by rewrite He1|].
  intros [] r2 [Hi2 [_ Ho2]]. apply IH; [done|]. intros q ->. destruct (Hx q eq_refl). by apply Ho2.
Qed.

Lemma safe_elementEvent : safe cfg (registrarHandlePoolElementEvent (ST := ST) cfg env).
Proof.
  intros r Hi. unfold registrarHandlePoolElementEvent. apply wlp_bind, wlp_readHs; [apply reads_storage|]. intros fuel _.
  apply wlp_bind, wlp_readHs; [apply reads_storage|]. intros first Hf. apply wlp_bind.
  eapply wlp_mono; [apply safe_elementTimers; [done|]|].
  - intros p ->. pose proof (hs_inv_base cfg r (ri_base _ _ Hi)) as [Hst _].
    unfold poolHandlespaceNodeGetFirstPoolElementTimerNode in Hf. rewrite (storageGetFirst_spec SlotTimer _ _ eq_refl (hi_timer _ _ _ _ Hst)) in Hf.
    injection Hf as Hf. by apply head_Some_elem_of.
  - intros [] r1 Hi1. by apply (safe_calm cfg); [apply calm_restartHandlespace|].
Qed.

(** Loops over elements: [P] holds of the elements that are met. *)
Lemma safe_forElements (next : ptr → M (Handlespace ST) (option ptr)) (body : ptr → M Reg ()) (P : Handlespace ST → ptr → Prop) :
  (∀ p, reads (next p)) →
  (∀ st p q, hs_inv st → P st p → next p st = Some (Some q, st) → P st q ∧ q ≠ p) →
  (∀ r p, inv r → P (hs r) p → wlp (body p) (λ _ r', inv r' ∧ ∀ q, q ≠ p → P (hs r) q → P (hs r') q) r) →
  ∀ fuel cur r, inv r → (∀ p, cur = Some p → P (hs r) p) → wlp (forElements fuel next body cur) (λ _ r', inv r') r.
Proof.
  intros Hr Hn Hb fuel. induction fuel as [|fuel IH]; intros [p|] r Hi Hcur; cbn [forElements]; [apply wlp_abort|by apply wlp_ret| |by apply wlp_ret].
  specialize (Hcur p eq_refl). apply wlp_bind, wlp_readHs; [apply Hr|]. intros x Hx. apply wlp_bind.
  eapply wlp_mono; [by apply Hb|]. intros [] r1 [Hi1 H1]. apply IH; [done|]. intros q ->.
  destruct (Hn (hs r) p q) as [? ?]; [apply (hs_inv_base cfg), Hi|done|done|]. by apply H1.
Qed.
End timers.

Section asap.
Context {ST : Type} `{SL : StorageLaws ST} `{En : Endian}.
Context (cfg : RegistrarConfig) (env : Environment).
Abbreviation Reg := (Registrar ST).
Abbreviation inv := (registrar_inv cfg).
Implicit Types (r : Reg) (p q : ptr) (n : PoolElementNode) (st : Handlespace ST).

Lemma reads_pe_get p : reads (pe_get (ST := ST) p).
Proof. apply reads_deref. Qed.

Lemma reads_backWhile prev (f : PoolElementNode → bool) : (∀ p, reads (prev p)) → ∀ fuel p x, reads (backWhile (ST := ST) fuel prev f p x).
Proof.
  intros Hp fuel. induction fuel as [|fuel IH]; intros p [x|]; cbn [backWhile]; auto using reads_abort, reads_ret.
  apply reads_bind; [apply reads_pe_get|]. intros n. destruct (f n); [|apply reads_ret]. apply reads_bind; auto.
Qed.

Lemma prev_in k st s p x : slot_get k st = Some s → slot_inv k st s → p ∈ st_list s → storageGetPrev k p st = Some (x, st) →
  ∀ q, x = Some q → q ∈ st_list s.
Proof.
  intros Hg Hinv Hp Hx q ->. apply list_elem_of_split in Hp as (l1 & l2 & Hl).
  rewrite (storageGetPrev_app k st s l1 p l2 Hg Hinv Hl) in Hx. injection Hx as Hx. apply head_Some_elem_of in Hx.
  rewrite Hl, elem_of_app. left. by apply elem_of_reverse.
Qed.

Lemma backWhile_in k st s f : slot_get k st = Some s → slot_inv k st s → ∀ fuel p x p' st', p ∈ st_list s → (∀ q, x = Some q → q ∈ st_list s) →
  backWhile fuel (storageGetPrev k) f p x st = Some (p', st') → p' ∈ st_list s.
Proof.
  intros Hg Hinv fuel. induction fuel as [|fuel IH]; intros p [x|] p' st' Hp Hx Hr; cbn [backWhile] in Hr; try (by injection Hr as <- <-); [done|].
  unfold mbind, M_bind, pe_get, deref in Hr. destruct (hs_PoolElementNodes st !! x) as [n|]; [|done].
  destruct (f n); [|by injection Hr as <- <-]. destruct (storageGetPrev k x st) as [[y st1]|] eqn:Hy; [|done].
  pose proof (reads_storage _ _ _ _ _ Hy) as ->. eapply IH; [by apply Hx| |exact Hr]. eapply prev_in; [done|done|by apply Hx|done].
Qed.

(** The first node for a key has the key and is in the storage. *)
Lemma firstNodeFor_in k st s (f : PoolElementNode → bool) x p : slot_get k st = Some s → slot_inv k st s → (∀ q, x = Some q → q ∈ st_list s) →
  firstNodeFor k f x st = Some (Some p, st) → p ∈ st_list s ∧ ∃ n, hs_PoolElementNodes st !! p = Some n ∧ f n = true.
Proof.
  intros Hg Hinv Hx Hr. destruct x as [y|]; [|done]. unfold firstNodeFor, mbind, M_bind in Hr.
  destruct (storageFuel k st) as [[fuel st1]|] eqn:H1; [|done]. apply reads_storage in H1 as ->.
  destruct (storageGetPrev k y st) as [[prev st1]|] eqn:H2; [|done]. pose proof (reads_storage _ _ _ _ _ H2) as ->.
  destruct (backWhile fuel (storageGetPrev k) f y prev st) as [[p' st1]|] eqn:H3; [|done].
  pose proof (reads_backWhile (storageGetPrev k) f (λ p, reads_storage k _) _ _ _ _ _ _ H3) as ->.
  unfold pe_get, deref in Hr. destruct (hs_PoolElementNodes st !! p') as [n|] eqn:Hn; [|done]. cbn in Hr.
  destruct (f n) eqn:Hf; [|done]. injection Hr as <-. split; [|eauto].
  eapply backWhile_in; [done|done| | |exact H3]; [by apply Hx|]. eapply prev_in; [done|done| |done]. by apply Hx.
Qed.

Lemma reads_firstNodeFor k f x : reads (firstNodeFor (ST := ST) k f x).
Proof.
  destruct x as [y|]; [|apply reads_ret]. unfold firstNodeFor. apply reads_bind; [apply reads_storage|]. intros fuel.
  apply reads_bind; [apply reads_storage|]. intros prev. apply reads_bind; [apply reads_backWhile; intros; apply reads_storage|].
  intros p'. apply reads_bind; [apply reads_pe_get|]. intros n. apply reads_ret.
Qed.
End asap.
#[export] Hint Resolve reads_pe_get reads_firstNodeFor : quiet.

Section asap.
Context {ST : Type} `{SL : StorageLaws ST} `{En : Endian}.
Context (cfg : RegistrarConfig) (env : Environment).
Abbreviation Reg := (Registrar ST).
Abbreviation inv := (registrar_inv cfg).
Implicit Types (r : Reg) (p q : ptr) (n : PoolElementNode) (st : Handlespace ST).

Definition on_connection (sd : Z) st p : Prop :=
  ∃ n, hs_PoolElementNodes st !! p = Some n ∧ pen_OwnerPoolNode n ≠ None ∧ pen_ConnectionSocketDescriptor n = sd.

Lemma valid_owner st p : slot_valid SlotConnection st p → ∃ n, hs_PoolElementNodes st !! p = Some n ∧ pen_OwnerPoolNode n ≠ None.
Proof. intros (n & h & Hn & Hh). exists n. split; [done|]. intros Ho. unfold owner_handle in Hh. by rewrite Ho in Hh. Qed.

Lemma firstConnection_in st sd assocID p : hs_inv st →
  poolHandlespaceNodeGetFirstPoolElementConnectionNodeForConnection sd assocID st = Some (Some p, st) → on_connection sd st p.
Proof.
  intros [Hs _] Hr. pose proof (hi_connection _ _ _ _ Hs) as Hinv.
  unfold poolHandlespaceNodeGetFirstPoolElementConnectionNodeForConnection, poolHandlespaceNodeFindNearestNextPoolElementConnectionNode in Hr.
  set (c := cmpPoolElementNode 0 0 sd assocID) in Hr. erewrite run_bind in Hr; [|erewrite run_bind; [|apply handleForComparison_run; by apply (bool_decide_unpack _)]].
  2:{ apply (storageGetNearestNext_spec SlotConnection st (hs_PoolElementConnectionStorage st) _ (connectionKey lastPoolHandle c)); [done|done|].
      intros q Hq. destruct (si_valid _ _ _ Hinv q Hq) as (n & h & Hn & Hh). unfold compareConnection. simpl.
      rewrite Hn. simpl. rewrite Hh. done. }
  apply (firstNodeFor_in SlotConnection st (hs_PoolElementConnectionStorage st)) in Hr as (Hp & n & Hn & Hf); [|done|done|].
  2:{ intros q Hq. by apply head_Some_elem_of, list_elem_of_filter in Hq as [_ ?]. }
  destruct (valid_owner st p (si_valid _ _ _ Hinv p Hp)) as (n0 & Hn0 & Ho). simplify_eq. exists n. split_and!; [done|done|].
    apply andb_true_iff in Hf as [Hsd _]. by apply Z.eqb_eq.
Qed.

Lemma safe_lost sd assocID : 0 < sd → safe cfg (registrarRemovePoolElementsOfConnection (ST := ST) cfg env sd assocID).
Proof.
  intros Hsd r Hi. unfold registrarRemovePoolElementsOfConnection. apply wlp_bind, wlp_readHs; [apply reads_storage|]. intros fuel _.
  apply wlp_bind, wlp_readHs.
  { unfold poolHandlespaceNodeGetFirstPoolElementConnectionNodeForConnection, poolHandlespaceNodeFindNearestNextPoolElementConnectionNode,
      handleForComparison. apply reads_bind; [|intros; apply reads_firstNodeFor]. apply reads_bind; [apply reads_deref|].
    intros h st a st' Hr. unfold storageGetNearestNext in Hr. repeat case_match; try done. by injection Hr as <- <-. }
  intros first Hf. apply (safe_forElements cfg _ _ (on_connection sd)); [| | |done|].
  - intros p. unfold poolHandlespaceNodeGetNextPoolElementConnectionNodeForSameConnection, storageGetNext. solve_quiet.
  - intros st p q [Hs _] (n & Hn & Ho & Hc) Hnext. pose proof (hi_connection _ _ _ _ Hs) as Hinv.
    unfold poolHandlespaceNodeGetNextPoolElementConnectionNodeForSameConnection, mbind, M_bind in Hnext.
    destruct (storageGetNext SlotConnection p st) as [[x st1]|] eqn:Hx; [|done]. pose proof (reads_storage _ _ _ _ _ Hx) as ->.
    destruct x as [y|]; [|done]. unfold pe_get, deref in Hnext. rewrite Hn in Hnext. destruct (hs_PoolElementNodes st !! y) as [m|] eqn:Hm; [|done].
    cbn in Hnext. destruct (sameConnection n m) eqn:Hsame; [|done]. injection Hnext as ->.
    destruct (next_in SlotConnection st _ p q eq_refl Hinv) as [Hq Hne]; [|done|].
    { apply (hi_connected _ _ _ _ Hs p n); [done|done|lia|apply not_elem_of_nil]. }
    split; [|done]. destruct (valid_owner st q (si_valid _ _ _ Hinv q Hq)) as (m0 & Hm0 & Hom). simplify_eq.
    exists m. split_and!; [done|done|]. apply andb_true_iff in Hsame as [He%Z.eqb_eq _]. done.
  - intros r1 p Hi1 (n & Hn & Ho & Hc). apply wlp_bind. eapply wlp_mono; [by apply (safe_removeElement cfg env r1 p n)|].
    intros e r2 (Hi2 & [Hel _] & _). apply wlp_check. intros _. split; [done|]. intros q Hq (m & Hm & Hom & Hcm). exists m.
    split; [|done]. unfold els in Hel. by rewrite Hel.
  - intros p ->. eapply firstConnection_in; [apply (hs_inv_base cfg), Hi|exact Hf].
Qed.
End asap.

(** ** Messages *)

(** What the configuration and the environment must give. *)
Record setting_ok (cfg : RegistrarConfig) (env : Environment) : Prop := {
  so_ServerID : is_u32 (cf_ServerID cfg);
  so_Items : 1 <= cf_MaxHandleResolutionItems cfg;
  so_Increment : 0 <= cf_MaxIncrement cfg;
  so_Random t i : 0 <= env_Random64 env t i
}.

Section messages.
Context {ST : Type} `{SL : StorageLaws ST} `{En : Endian}.
Context (cfg : RegistrarConfig) (env : Environment) (Hset : setting_ok cfg env).
Abbreviation Reg := (Registrar ST).
Abbreviation Msg := (RSerPoolMessage ST).
Abbreviation inv := (registrar_inv cfg).
Implicit Types (r : Reg) (p q : ptr) (n : PoolElementNode) (m : Msg).

Lemma wlp_distance r fd assocID n add distance (Q : PoolPolicySettings * Z → Reg → Prop) : pps_wf (pen_PolicySettings n) → is_u32 distance →
  (∀ s d r', same r r' → pps_wf s → is_u32 d → Q (s, d) r') → wlp (registrarUpdateDistance cfg env fd assocID n add distance) Q r.
Proof.
  intros Hp Hd HQ. unfold registrarUpdateDistance. cbv zeta. destruct (_ || _ || _).
  2:{ apply wlp_ret, HQ; [done|done|unfold in_width; lia]. }
  assert (∀ r' d, same r r' → is_u32 d → Q (withDistance (if add then u32 (pps_Distance (pen_PolicySettings n) + d) else d) (pen_PolicySettings n), d) r') as Hfin.
  { intros r' d Hs Hu. apply HQ; [done| |done]. destruct Hp as (?&?&?&?&?&?&?). unfold pps_wf, withDistance. simpl. split_and!; try done.
    destruct add; [by apply wrap_in_width|done]. }
  destruct (distance =? 0xffffffff); [|apply wlp_bind, wlp_ret, wlp_ret; by apply Hfin].
  apply wlp_bind, wlp_quietly; [solve_quiet|]. intros srtt r' Hs. apply wlp_ret, wlp_ret, Hfin; [done|].
  destruct srtt; [by apply wrap_in_width|unfold in_width; lia].
Qed.

Lemma wlp_assoc {S A B C} (f : M S A) (g : A → M S B) (k : B → M S C) Q (s : S) :
  wlp ((f ≫= g) ≫= k) Q s → wlp (f ≫= λ a, g a ≫= k) Q s.
Proof. intros Hw c s' Hr. apply Hw. unfold mbind, M_bind in *. by destruct (f s) as [[a s1]|]. Qed.

(** A timer that is stopped if it is running. *)
Lemma wlp_stopTimer r p : inv r →
  wlp (linked ← elementTimerLinked p; if linked : bool then deactivateElementTimer p else mret tt)
    (λ _ r', base_inv cfg r' ∧ hs_step r r' ∧ els r' = els r ∧ etimers r' = l_remove p (etimers r)) r.
Proof.
  intros Hi. apply wlp_bind, wlp_readHs; [apply reads_storage|]. intros b Hb. pose proof (hs_inv_base cfg r (ri_base _ _ Hi)) as [Hst _].
  assert (b = bool_decide (p ∈ etimers r)) as ->.
  { unfold storageIsLinked, storageRead in Hb. simpl in Hb. injection Hb as <-.
    apply (st_linked_law _ _ _ (si_ok _ _ _ (hi_timer _ _ _ _ Hst))). }
  case_bool_decide as Hp.
  { eapply wlp_mono; [apply wlp_wp, (wp_deactivateElement cfg), Hi|]. naive_solver. }
  apply wlp_ret. split; [apply Hi|].
  split; [by apply hs_step_same|]. split; [done|]. by rewrite l_remove_not_elem.
Qed.

(** The timer of an element that was registered. *)
Lemma safe_startTimer r p n code interval : inv r → pooled r p n → element_code code →
  wlp (startElementTimer env p code interval) (λ _ r', inv r' ∧ ∃ ts, els r' = <[p := set_TimerTimeStamp ts (set_TimerCode code n)]> (els r)) r.
Proof.
  intros Hi [Hn Ho] Hc. unfold startElementTimer.
  apply (wlp_assoc (elementTimerLinked p) (λ linked : bool, if linked then deactivateElementTimer p else mret tt)).
  apply wlp_bind. eapply wlp_mono; [by apply wlp_stopTimer|]. intros [] r1 (Hb1 & Hs1 & He1 & Ht1).
  apply wlp_quietly; [solve_quiet|]. intros now r2 H2. destruct (same_els _ _ H2) as (He2 & Ht2 & _). apply wlp_bind.
  eapply wlp_mono; [apply wlp_wp, (wp_activateElement cfg _ p n); [by eapply base_same|by rewrite He2, He1|done| |done]|].
  - rewrite Ht2, Ht1, l_remove_elem. tauto.
  - intros [] r3 (Hb3 & Hs3 & He3 & _). eapply wlp_mono; [apply calm_restartHandlespace|]. intros [] r4 H4. split.
    + eapply inv_still; [exact H4|]. apply (inv_hs cfg r); [done|done|]. eapply hs_step_trans; [exact Hs1|].
      eapply hs_step_trans; [by apply hs_step_same|done].
    + exists (u64 (now + interval)). destruct H4 as (H4 & _). unfold els, hs in *. by rewrite H4, He3, He2, He1.
Qed.

(** A registration that succeeds gives an element of a pool. *)
Lemma safe_register r handle home id life settings ut rt fd assocID : inv r → acceptable handle home id settings → room r 1 →
  wlp (registerElement env handle home id life settings ut rt fd assocID) (λ res r', inv r' ∧ hs_step r r' ∧
    (res.2 = RSPERR_OKAY → ∃ p n, res.1 = Some p ∧ pooled r' p n)) r.
Proof.
  intros Hi Ha Hr. eapply wlp_mono; [apply wlp_wp, (wp_registerElement cfg env r); [apply Hi|done|done]|].
  intros res r' (Hb & Hs & mem & Hres). split; [by apply (inv_hs cfg r)|]. split; [done|]. intros He. remember (rg_Handlespace r') as m1 eqn:Hm1.
  destruct Hres as [e m' Hat _| | |m' pn err _ _ Hne _|m'|m']; try done. subst m'.
  apply (registered_member r' e) in Hat as (n & Hn & Ho & _). exists e, n. by split.
Qed.

(** A registration message as the parser delivers it. *)
Definition element_ok (handle : PoolHandle) (pe : PoolElementNode) : Prop :=
  (1 <= ph_Size handle <= MAX_POOLHANDLESIZE → handle_wf handle) ∧ is_u32 (pen_Identifier pe) ∧ pps_wf (pen_PolicySettings pe).

Lemma safe_registerAtHome r fd assocID handle pe ut at_ : inv r → element_ok handle pe → room r 1 →
  wlp (registerAtHome cfg env fd assocID handle pe ut at_) (λ _ r', inv r') r.
Proof.
  intros Hi (Hh & Hid & Hp) Hroom. unfold registerAtHome. apply wlp_bind, wlp_distance; [done|unfold in_width; lia|]. intros s d r1 H1 Hs _.
  assert (inv r1) as Hi1 by by eapply inv_same. assert (room r1 1) as Hr1 by (unfold room, hs in *; by rewrite (proj1 (same_fields _ _ H1))).
  apply wlp_bind. eapply wlp_mono; [apply safe_register; [done|by split_and!; [| |apply Hset|]|done]|]. intros [p e] r2 (Hi2 & _ & Hok).
  cbn [fst snd] in *. destruct (Z.eqb_spec e RSPERR_OKAY) as [->|]; [|by apply wlp_ret]. destruct (Hok eq_refl) as (p' & n & -> & Hpo).
  apply wlp_bind, wlp_deref. intros ? [= <-]. apply wlp_bind. eapply wlp_mono; [apply (safe_startTimer r2 p' n _ _ Hi2 Hpo); by right; left|].
  intros [] r3 [Hi3 _]. apply wlp_quietly; [solve_quiet|]. intros [] r4 H4. apply wlp_ret. by eapply inv_same.
Qed.

Lemma safe_registration fd assocID m r : inv r → (∀ pe, rm_PoolElementPtr m = Some pe → element_ok (rm_Handle m) pe) → room r 1 →
  wlp (registrarHandleASAPRegistration cfg env fd assocID m) (λ _ r', inv r') r.
Proof.
  intros Hi Hm Hroom. unfold registrarHandleASAPRegistration. apply wlp_bind, wlp_deref. intros pe Hpe. cbv zeta.
  apply wlp_quietly; [solve_quiet|]. intros remote r1 H1. assert (inv r1) as Hi1 by by eapply inv_same.
  destruct remote as [remote|]; [|by apply wlp_ret]. apply wlp_quietly; [solve_quiet|]. intros user r2 H2.
  apply wlp_bind. apply (wlp_mono _ (λ _ r', inv r')).
  - assert (inv r2) as Hi2 by by eapply inv_same. destruct user as [ut|]; [|by apply wlp_ret].
    apply wlp_quietly; [solve_quiet|]. intros [at_|] r3 H3; [|apply wlp_ret; by eapply inv_same].
    pose proof (same_trans _ _ _ H1 (same_trans _ _ _ H2 H3)) as H13. apply safe_registerAtHome.
    + by eapply inv_same.
    + specialize (Hm pe Hpe). by destruct m.
    + unfold room, hs in *. by rewrite (proj1 (same_fields _ _ H13)).
  - intros e r3 Hi3. by apply (safe_calm cfg); [apply calm_quiet; solve_quiet|].
Qed.

Lemma safe_deregisterElement r p n : inv r → pooled r p n → wlp (deregisterElement p) (λ _ r', inv r') r.
Proof.
  intros Hi [Hn Ho]. eapply wlp_mono; [apply wlp_wp, (wp_deregisterElement cfg r p n); [apply Hi|done|done]|].
  intros e r1 (_ & Hb & Hs & _). by apply (inv_hs cfg r).
Qed.

Lemma wlp_find r h id (Q : option ptr → Reg → Prop) : inv r → handle_wf h →
  (∀ x, (∀ p, x = Some p → ∃ n, pooled r p n) → Q x r) → wlp (onHs (poolHandlespaceManagementFindPoolElement h id)) Q r.
Proof.
  intros Hi Hh HQ. eapply wlp_mono; [apply wlp_wp, (wp_findElement cfg r h id); [apply Hi|done]|]. intros x r' [-> Hx]. apply HQ.
  intros p ->. destruct Hx as (n & Hn & Ho & _). by exists n.
Qed.

Lemma safe_deregistration fd assocID m : handle_wf (rm_Handle m) → safe cfg (registrarHandleASAPDeregistration cfg env fd assocID m).
Proof.
  intros Hh r Hi. unfold registrarHandleASAPDeregistration. cbv zeta. apply wlp_bind, wlp_find; [done|by destruct m|]. intros x Hx.
  apply wlp_bind. apply (wlp_mono _ (λ _ r', inv r')); [|intros e r1 Hi1; by apply (safe_calm cfg); [apply calm_quiet; solve_quiet|]].
  destruct x as [p|]; [|by apply wlp_ret]. destruct (Hx p eq_refl) as (n & Hn & Ho). apply wlp_bind, wlp_element. intros n0 Hn0.
  assert (n0 = n) as -> by congruence. apply wlp_quietly; [solve_quiet|]. intros handle r1 H1.
  apply wlp_quietly; [solve_quiet|]. intros m1 r2 H2. apply wlp_quietly; [solve_quiet|]. intros m2 r3 H3.
  pose proof (same_trans _ _ _ H1 (same_trans _ _ _ H2 H3)) as H13. assert (inv r3) as Hi3 by by eapply inv_same.
  destruct (transportAddressBlockDuplicate m2 (Some (pen_UserTransport n))), (transportAddressBlockDuplicate m1 (pen_RegistratorTransport n)); try (by apply wlp_ret).
  apply wlp_bind. eapply wlp_mono; [apply (safe_deregisterElement r3 p n); [done|split; [by rewrite (proj1 (same_els _ _ H13))|done]]|].
  intros e r4 Hi4. by apply (safe_calm cfg); [apply calm_quiet; solve_quiet|].
Qed.

Lemma safe_resolution fd assocID m : handle_wf (rm_Handle m) → 0 <= rm_Addresses m →
  safe cfg (registrarHandleASAPHandleResolution cfg env fd assocID m).
Proof.
  intros Hh Ha r Hi. unfold registrarHandleASAPHandleResolution. cbv zeta. apply wlp_bind.
  eapply wlp_mono; [apply calm_refused|]. intros refusal r1 H1. assert (inv r1) as Hi1 by exact (inv_still cfg _ _ H1 Hi).
  apply wlp_bind. apply (wlp_mono _ (λ _ r', inv r')).
  - destruct refusal; [by apply wlp_ret|]. apply wlp_bind. unfold observe. apply (wlp_run _ (env_Random64 env (rg_Tick r1)) (rg_set_Tick (S (rg_Tick r1)) r1)); [done|].
    set (r2 := rg_set_Tick _ r1). assert (inv r2) as Hi2 by (by apply (inv_same cfg r1)).
    eapply wlp_mono; [apply wlp_wp, (wp_resolution cfg r2); [apply Hi2|by destruct m| | |apply Hset]|].
    + intros i. apply Hset.
    + pose proof (so_Items _ _ Hset). destruct (Z.eqb_spec (rm_Addresses m) 0); unfold MAX_MAX_HANDLE_RESOLUTION_ITEMS; lia.
    + intros res r3 (Hb & Hs & _). by apply (inv_hs cfg r2).
  - intros [l e] r2 Hi2. apply (safe_calm cfg); [|done]. solve_calm.
Qed.

Lemma safe_keepAliveAck fd assocID m : handle_wf (rm_Handle m) → safe cfg (registrarHandleASAPEndpointKeepAliveAck cfg env fd assocID m).
Proof.
  intros Hh r Hi. unfold registrarHandleASAPEndpointKeepAliveAck. apply wlp_bind, wlp_find; [done|done|]. intros [p|] Hx; [|by apply wlp_ret].
  destruct (Hx p eq_refl) as (n & Hpo). apply (safe_restart cfg env r p n _ (λ now, u64 (now + _))); [done|done|by right; left|].
  intros r1 Hi1 _. by apply (safe_calm cfg); [apply calm_restartHandlespace|].
Qed.

Lemma safe_unreachable fd assocID m : handle_wf (rm_Handle m) → safe cfg (registrarHandleASAPEndpointUnreachable cfg env fd assocID m).
Proof.
  intros Hh r Hi. unfold registrarHandleASAPEndpointUnreachable. apply wlp_bind.
  eapply wlp_mono; [apply calm_refused|]. intros [] r1 H1; [apply wlp_ret; exact (inv_still cfg _ _ H1 Hi)|].
  assert (inv r1) as Hi1 by exact (inv_still cfg _ _ H1 Hi). apply wlp_bind, wlp_find; [done|done|]. intros [p|] Hx; [|by apply wlp_ret].
  destruct (Hx p eq_refl) as (n & Hn & Ho). apply wlp_bind.
  eapply wlp_mono; [apply wlp_wp, (wp_updateElement cfg r1 p n); [apply Hi1|done|apply neutral_reports]|]. intros [] r2 (Hb2 & Hs2 & He2 & _).
  assert (inv r2) as Hi2 by by apply (inv_hs cfg r1). apply wlp_bind, wlp_element. intros n2 Hn2.
  destruct (_ <=? _); [|by apply wlp_ret]. apply wlp_bind.
  eapply wlp_mono; [apply (safe_removeElement cfg env r2 p n2 Hi2); split; [done|]|intros e r3 [Hi3 _]; by apply wlp_ret].
  rewrite He2, lookup_insert_eq in Hn2. by injection Hn2 as <-.
Qed.
End messages.
