(* ===== verification/RegistrarEnrpSteps.v ===== *)
(** * The ENRP handlers keep the invariant

    Whatever the peers send and whenever the timer of a peer expires: the
    registrar's invariant holds again when the handler has come to its end.
    Within a handler the takeover of one peer may be half done: its process
    and its timer change one after the other. *)

From S2P Require Import Prelude Checksum Addresses PoolBasics Storage PoolElement PoolPolicy HandlespaceState PoolNode PoolEffects PoolSelection HandlespaceNode HandlespaceInv HandlespaceOps HandlespaceEffects HandlespaceWalks HandlespaceVerify HandlespaceUpdate HandlespaceMgt HandlespaceMgtInv HandlespaceNotifications HandlespaceRegistration HandlespaceSteps HandlespaceTheorems PeerList PeerListInv PeerListOps PeerListSteps PeerListRegister PeerListTheorems HandlespacePeers Message MessageCreator MessageParser PoolUsers Registrar RegistrarSend RegistrarAsap RegistrarTakeover RegistrarEnrp RegistrarCore RegistrarQuiet RegistrarInv RegistrarSteps RegistrarAsapSteps.
From stdpp Require Import base list gmap numbers option sorting sets.
#[local] Open Scope Z_scope.

Section half.
Context {ST : Type} `{SL : StorageLaws ST} `{En : Endian}.
Context (cfg : RegistrarConfig) (env : Environment).
Abbreviation PLM := (PeerListManagement ST).
Abbreviation Reg := (Registrar ST).
Abbreviation inv := (registrar_inv cfg).
Abbreviation ptimers pl := (st_list (pl_PeerListTimerStorage (plm_List pl))).
Implicit Types (r : Reg) (p q : ptr) (pl : PLM) (n : PeerListNode) (P : gmap ptr TakeoverProcess).

(** ** Takeovers of all peers but one *)

Record mostly p P pl : Prop := {
  mo_entry q n : q ≠ p → entries (plm_List pl) q = Some n → takeover_entry P (q ∈ ptimers pl) n;
  mo_distinct q q' n n' t : entries (plm_List pl) q = Some n → entries (plm_List pl) q' = Some n' →
    pln_TakeoverProcess n = Some t → pln_TakeoverProcess n' = Some t → q = q'
}.

Lemma takeovers_mostly p P pl : takeovers P pl → mostly p P pl.
Proof. intros [He Hd]. split; [intros; by apply He|done]. Qed.

Lemma mostly_takeovers p P pl : mostly p P pl → (∀ n, entries (plm_List pl) p = Some n → takeover_entry P (p ∈ ptimers pl) n) → takeovers P pl.
Proof. intros [He Hd] Hp. split; [|done]. intros q n Hn. destruct (decide (q = p)) as [->|Hq]; [by apply Hp|by apply He]. Qed.

(** [pl'] differs from [pl] in the entry of [p] and its timer only. *)
Definition differs p pl (x : option PeerListNode) pl' : Prop :=
  (∀ q, entries (plm_List pl') q = if decide (q = p) then x else entries (plm_List pl) q) ∧
  (∀ q, q ≠ p → (q ∈ ptimers pl' ↔ q ∈ ptimers pl)).

Lemma takeover_entry_iff P (A B : Prop) n : (A ↔ B) → takeover_entry P A n → takeover_entry P B n.
Proof. intros Hab. unfold takeover_entry. case_match; tauto. Qed.

(** No other peer has the takeover process [t]. *)
Definition unused p pl (t : ptr) : Prop := ∀ q n, q ≠ p → entries (plm_List pl) q = Some n → pln_TakeoverProcess n ≠ Some t.

Lemma mostly_unused p P pl n t : mostly p P pl → entries (plm_List pl) p = Some n → pln_TakeoverProcess n = Some t → unused p pl t.
Proof. intros Hm Hn Ht q n' Hq Hn' Ht'. apply Hq. by apply (mo_distinct _ _ _ Hm q p n' n t). Qed.

Lemma fresh_unused p P pl t : mostly p P pl → P !! t = None → unused p pl t.
Proof.
  intros Hm Hnone q n Hq Hn Ht. pose proof (mo_entry _ _ _ Hm q n Hq Hn) as He. unfold takeover_entry in He. rewrite Ht in He.
  destruct He as [[? ?] _]. congruence.
Qed.

Lemma mostly_differs p P pl x pl' : mostly p P pl → differs p pl x pl' →
  (∀ n t, x = Some n → pln_TakeoverProcess n = Some t → unused p pl t) → mostly p P pl'.
Proof.
  intros [He Hd] [Hx Ht] Hno. split.
  - intros q n Hq Hn. rewrite Hx, decide_False in Hn by done. apply (takeover_entry_iff _ (q ∈ ptimers pl)); [by rewrite Ht|by apply He].
  - intros q q' n n' t. rewrite !Hx. destruct (decide (q = p)) as [->|Hq], (decide (q' = p)) as [->|Hq']; [done| | |by apply Hd].
    + intros Hn Hn' Hnt Hnt'. by destruct (Hno n t Hn Hnt q' n' Hq' Hn').
    + intros Hn Hn' Hnt Hnt'. by destruct (Hno n' t Hn' Hnt' q n Hq Hn).
Qed.

(** The processes of the other peers stay. *)
Lemma mostly_processes p P P' pl : mostly p P pl →
  (∀ q n t, q ≠ p → entries (plm_List pl) q = Some n → pln_TakeoverProcess n = Some t → is_Some (P !! t) → is_Some (P' !! t)) → mostly p P' pl.
Proof.
  intros [He Hd] HP. split; [|done]. intros q n Hq Hn. specialize (He q n Hq Hn). unfold takeover_entry in *.
  destruct (pln_TakeoverProcess n) as [t|] eqn:Ht; [|done]. split; [by apply (HP q n t), He|apply He].
Qed.

Lemma mostly_delete p P pl n t : mostly p P pl → entries (plm_List pl) p = Some n → pln_TakeoverProcess n = Some t → mostly p (delete t P) pl.
Proof.
  intros Hm Hn Ht. apply (mostly_processes _ P); [done|]. intros q n' t' Hq Hn' Ht' Hs. rewrite lookup_delete_ne; [done|].
  intros ->. by apply (mostly_unused p P pl n t' Hm Hn Ht q n').
Qed.

Lemma mostly_insert p P pl t v : mostly p P pl → mostly p (<[t := v]> P) pl.
Proof. intros Hm. apply (mostly_processes _ P); [done|]. intros q n t' _ _ _ Hs. apply lookup_insert_is_Some'. by right. Qed.

(** ** States in the midst of a handler *)

(** The timers of the other peers go on. *)
Definition timers_kept p r r' : Prop := ∀ q, q ≠ p → q ∈ ptimers (rg_Peers r) → q ∈ ptimers (rg_Peers r').

(** The entry of [p] is [n], and everything but [p]'s takeover is in order. *)
Record midst p n r : Prop := {
  ha_base : base_inv cfg r;
  ha_mostly : mostly p (rg_TakeoverProcesses r) (rg_Peers r);
  ha_entry : entries (peers r) p = Some n
}.

Lemma inv_half r p n : inv r → entries (peers r) p = Some n → midst p n r.
Proof. intros Hi Hn. split; [apply Hi|apply takeovers_mostly, Hi|done]. Qed.

Lemma half_inv r p n : midst p n r → takeover_entry (rg_TakeoverProcesses r) (p ∈ ptimers (rg_Peers r)) n → inv r.
Proof.
  intros [Hb Hm Hn] Ht. split; [done|]. apply (mostly_takeovers p); [done|]. intros n' Hn'. unfold peers in Hn. by simplify_eq.
Qed.

Lemma half_same p n r r' : same r r' → midst p n r → midst p n r'.
Proof.
  intros Hs [Hb Hm Hn]. pose proof (same_fields _ _ Hs) as (H1 & H2 & H3 & _). split; [by eapply base_same|by rewrite H2, H3|].
  unfold peers. by rewrite H2.
Qed.

(** A step on the peer list that concerns [p] only. *)
Lemma half_step p n r x r' : midst p n r → pl_step r r' → differs p (rg_Peers r) x (rg_Peers r') →
  (∀ n' t, x = Some n' → pln_TakeoverProcess n' = Some t → pln_TakeoverProcess n = Some t ∨ unused p (rg_Peers r) t) →
  mostly p (rg_TakeoverProcesses r') (rg_Peers r').
Proof.
  intros [Hb Hm Hn] Hs Hd Hx. destruct (pl_step_fields _ _ Hs) as (_ & -> & _). eapply mostly_differs; [exact Hm|exact Hd|].
  intros n' t Hn' Ht. destruct (Hx n' t Hn' Ht) as [Hold|]; [|done]. exact (mostly_unused p _ _ n t Hm Hn Hold).
Qed.

Lemma wlp_peer p n r (Q : PeerListNode → Reg → Prop) : midst p n r → Q n r → wlp (peer p) Q r.
Proof.
  intros Hh HQ x r' Hr. pose proof (ha_entry _ _ _ Hh) as [_ Hn]%entries_Some. unfold peer, onPl, onList, peer_get, deref in Hr. unfold peers in Hn.
  rewrite Hn in Hr. injection Hr as <- <-. replace (MkPeerListManagement _ _) with (rg_Peers r) by (by destruct (rg_Peers r)). by rewrite same_both.
Qed.

Lemma half_set p n r f (Q : () → Reg → Prop) : midst p n r → peer_neutral f →
  (∀ t, pln_TakeoverProcess (f n) = Some t → pln_TakeoverProcess n = Some t ∨ unused p (rg_Peers r) t) →
  (∀ r', midst p (f n) r' → pl_step r r' → ptimers (rg_Peers r') = ptimers (rg_Peers r) →
    (∀ q, q ≠ p → entries (peers r') q = entries (peers r) q) → Q tt r') → wp (setPeer p f) Q r.
Proof.
  intros Hh Hf Ht HQ. eapply wp_mono; [apply (wp_setPeer cfg r p n f); [apply Hh|apply Hh|done]|].
  intros [] r' (Hb & Hs & He & Htm). apply HQ; [|done|done|intros q Hq; by rewrite He, decide_False]. split; [done| |by rewrite He, decide_True].
  eapply half_step; [exact Hh|done|split; [exact He|]|].
  - intros q _. unfold peers in Htm. by rewrite Htm.
  - intros n' t [= <-]. apply Ht.
Qed.

(** The timer, stopped and started again. *)
Lemma half_restart p n r code ts (Q : () → Reg → Prop) : midst p n r → pln_Identifier n ≠ UNDEFINED_REGISTRAR_IDENTIFIER →
  (∀ r' t, midst p (timer_set code t n) r' → pl_step r r' → p ∈ ptimers (rg_Peers r') →
    (∀ q, q ≠ p → q ∈ ptimers (rg_Peers r) → q ∈ ptimers (rg_Peers r')) →
    (∀ q, q ≠ p → entries (peers r') q = entries (peers r) q) → Q tt r') →
  wp (onPl (peerListManagementDeactivateTimer p);; now ← getMicroTime env; onPl (peerListManagementActivateTimer p code (ts now))) Q r.
Proof.
  intros Hh Hid HQ. apply wp_bind. eapply wp_mono; [apply (wp_deactivatePeer cfg), Hh|]. intros [] r1 (Hb1 & Hs1 & He1 & Ht1).
  apply wp_bind. unfold getMicroTime. apply wp_observe. set (r2 := rg_set_Tick _ r1). set (now := env_MicroTime env _). assert (same r1 r2) as H2 by done.
  pose proof (same_fields _ _ H2) as (_ & Hp2 & _).
  assert (pl_step r r2) as Hs2 by (eapply pl_step_trans; [exact Hs1|by apply pl_step_same]).
  eapply wp_mono; [apply (wp_activatePeer cfg r2 p n); [exact (base_same cfg _ _ H2 Hb1)| |done|]|].
  - unfold peers. rewrite Hp2. change (plm_List (rg_Peers r1)) with (peers r1). rewrite He1. apply Hh.
  - unfold peers. rewrite Hp2. change (plm_List (rg_Peers r1)) with (peers r1). rewrite Ht1, l_remove_elem. tauto.
  - intros [] r3 (Hb3 & Hs3 & He3 & Ht3). assert (pl_step r r3) as Hs by by eapply pl_step_trans.
    unfold peers in *. rewrite Hp2 in He3, Ht3. apply (HQ r3 (ts now)); [|done|apply Ht3; by left| |].
    + split; [done| |unfold peers; by rewrite He3, decide_True]. eapply half_step; [exact Hh|done|split|].
      * intros q. rewrite He3. case_decide; [done|by rewrite He1].
      * intros q Hq. rewrite Ht3, Ht1, l_remove_elem. tauto.
      * intros n' t [= <-] Ht. left. exact Ht.
    + intros q Hq Hin. rewrite Ht3, Ht1, l_remove_elem. tauto.
    + intros q Hq. unfold peers. by rewrite He3, decide_False, He1.
Qed.

(** The process is deleted and forgotten. *)
Lemma half_drop b p n r t (Q : () → Reg → Prop) : midst p n r → pln_TakeoverProcess n = Some t →
  (b = true → is_Some (rg_TakeoverProcesses r !! t)) →
  (∀ r', midst p (pln_set_TakeoverProcess None n) r' → ptimers (rg_Peers r') = ptimers (rg_Peers r) → rg_Handlespace r' = rg_Handlespace r →
    rg_TakeoverProcesses r' = delete t (rg_TakeoverProcesses r) →
    (∀ q, q ≠ p → entries (peers r') q = entries (peers r) q) → Q tt r') → wpb b (dropTakeoverProcess p t) Q r.
Proof.
  intros Hh Ht Hsome HQ. unfold dropTakeoverProcess, takeoverProcessDelete, takeover_get. apply wpb_bind, wpb_bind, wpb_deref; [done|]. intros v Hv.
  apply wpb_modify. set (r1 := rg_set_TakeoverProcesses _ r).
  assert (midst p n r1) as H1.
  { destruct Hh as [Hb Hm Hn]. split; [by destruct Hb; split| |done]. by apply (mostly_delete p _ _ n). }
  apply wpb_wp. eapply half_set; [exact H1|by intros []|done|]. intros r' H' Hs Htm He. destruct (pl_step_fields _ _ Hs) as (? & ? & _). by apply HQ.
Qed.

(** The end of a peer. *)
Lemma half_remove p n r : midst p n r →
  wp (removePeer p) (λ _ r', inv r' ∧ timers_kept p r r' ∧ pl_step r r' ∧
    ∀ q, entries (peers r') q = if decide (q = p) then deregistered n else entries (peers r) q) r.
Proof.
  intros Hh. unfold removePeer. apply wp_bind. eapply wp_mono; [apply (wp_peerDeregistered cfg r p n); apply Hh|].
  intros e r1 (Hb & Hs & He & Ht). apply wp_ret. unfold peers in *. split; [|split; [|done]].
  - split; [done|]. apply (mostly_takeovers p).
    + eapply half_step; [exact Hh|done|split; [exact He|]|].
      * intros q Hq. rewrite Ht, l_remove_elem. tauto.
      * intros n' t Hn'. unfold deregistered in Hn'. case_match; [|done]. by injection Hn' as <-.
    + intros n' Hn'. rewrite He, decide_True in Hn' by done. unfold deregistered in Hn'. case_match; [|done]. injection Hn' as <-.
      unfold takeover_entry. simpl. rewrite Ht, l_remove_elem. tauto.
  - intros q Hq Hin. rewrite Ht, l_remove_elem. tauto.
Qed.
End half.

(** ** Peers whose timer expires *)

Section timers.
Context {ST : Type} `{SL : StorageLaws ST} `{En : Endian}.
Context (cfg : RegistrarConfig) (env : Environment).
Abbreviation Reg := (Registrar ST).
Abbreviation inv := (registrar_inv cfg).
Abbreviation ptimers r := (st_list (pl_PeerListTimerStorage (plm_List (rg_Peers r)))).
Implicit Types (r : Reg) (p q : ptr) (n : PeerListNode).

Lemma timed_entry r p : inv r → p ∈ ptimers r → ∃ n, entries (peers r) p = Some n ∧ pln_Identifier n ≠ UNDEFINED_REGISTRAR_IDENTIFIER.
Proof.
  intros Hi Hp. destruct (plm_inv_base cfg r (ri_base _ _ Hi)) as [Hpl _]. pose proof (pv_timed _ _ Hpl p Hp) as Hin.
  destruct (pv_lookup _ _ p Hpl Hin) as (n & Hn & _). exists n. split; [by apply entries_Some|]. by apply (pv_timed_node _ _ Hpl p n).
Qed.

Lemma reads_firstOwned id : reads (poolHandlespaceNodeGetFirstPoolElementOwnershipNodeForIdentifier (ST := ST) id).
Proof.
  unfold poolHandlespaceNodeGetFirstPoolElementOwnershipNodeForIdentifier, poolHandlespaceNodeFindNearestNextPoolElementOwnershipNode,
    handleForComparison. apply reads_bind; [|intros; apply reads_firstNodeFor]. apply reads_bind; [apply reads_deref|].
  intros h st a st' Hr. unfold storageGetNearestNext in Hr. repeat case_match; try done. by injection Hr as <- <-.
Qed.

Lemma quiet_ownsElements id : quiet (ST := ST) (ownsElements id).
Proof. unfold ownsElements. pose proof reads_firstOwned. solve_quiet. Qed.

(** A new process, which no peer has yet. *)
Lemma wlp_processNew p n r id (Q : option ptr → Reg → Prop) : midst cfg p n r →
  (∀ r', same r r' → Q None r') →
  (∀ t r', midst cfg p n r' → rg_Peers r' = rg_Peers r → unused p (rg_Peers r') t → is_Some (rg_TakeoverProcesses r' !! t) → Q (Some t) r') →
  wlp (takeoverProcessNew env id) Q r.
Proof.
  intros Hh HN HS. unfold takeoverProcessNew. apply wlp_quietly; [solve_quiet|]. intros _ r1 H1. apply wlp_quietly; [solve_quiet|].
  intros own r2 H2. apply wlp_quietly; [solve_quiet|]. intros _ r3 H3. apply wlp_quietly; [solve_quiet|]. intros b r4 H4.
  pose proof (same_trans _ _ _ H1 (same_trans _ _ _ H2 (same_trans _ _ _ H3 H4))) as H14.
  destruct b; [|by apply wlp_ret, HN]. apply wlp_quietly; [apply quiet_forAllPeers; intros; solve_quiet|]. intros l r5 H5.
  pose proof (same_trans _ _ _ H14 H5) as H15. apply wlp_bind, wlp_get. unfold takeover_store. apply wlp_bind, wlp_modify, wlp_ret.
  destruct (half_same cfg p n _ _ H15 Hh) as [Hb Hm Hn]. apply HS.
  - split; [by destruct Hb; split|by apply mostly_insert|done].
  - by destruct (same_fields _ _ H15) as (_ & ? & _).
  - eapply fresh_unused; [exact Hm|]. apply not_elem_of_dom, is_fresh.
  - simpl. rewrite lookup_insert_eq. by eexists.
Qed.

Lemma safe_handlePeerTimer r p n : inv r → p ∈ ptimers r → entries (peers r) p = Some n →
  wlp (handlePeerTimer cfg env p n) (λ _ r', inv r' ∧ timers_kept p r r') r.
Proof.
  intros Hi Hp Hn. destruct (timed_entry r p Hi Hp) as (n0 & Hn0 & Hid). assert (n0 = n) as -> by congruence. clear Hn0.
  pose proof (inv_half cfg r p n Hi Hn) as Hh. pose proof (tk_entry _ _ (ri_takeovers _ _ Hi) p n Hn) as Hte. unfold takeover_entry in Hte.
  unfold handlePeerTimer. destruct (Z.eqb_spec (pln_TimerCode n) PLNT_MAX_TIME_LAST_HEARD) as [Hc|_].
  { destruct (pln_TakeoverProcess n) as [t|] eqn:Ht; [destruct Hte as (_ & _ & Hc'); by rewrite Hc in Hc'|].
    apply wlp_quietly; [solve_quiet|]. intros l r1 H1. apply wlp_quietly; [solve_quiet|]. intros [] r2 H2.
    pose proof (same_trans _ _ _ H1 H2) as H12. eapply wlp_wp, (half_restart cfg env); [by eapply half_same|done|]. intros r3 ts H3 Hs Hin Hk _.
    split; [eapply half_inv; [exact H3|]|].
    - unfold takeover_entry. simpl. rewrite Ht. intros _. by right.
    - unfold timers_kept. destruct (same_fields _ _ H12) as (_ & <- & _). exact Hk. }
  destruct (Z.eqb_spec (pln_TimerCode n) PLNT_MAX_TIME_NO_RESPONSE) as [Hc|_].
  { apply wlp_bind, wlp_check. intros Hnone%bool_decide_eq_true. destruct (_ =? UNDEFINED_REGISTRAR_IDENTIFIER); [|eapply wlp_mono; [apply wlp_wp, (half_remove cfg p n), Hh|naive_solver]].
    apply wlp_quietly; [apply quiet_ownsElements|]. intros owner r1 H1. assert (midst cfg p n r1) as Hh1 by by eapply half_same.
    assert (∀ r', rg_Peers r' = rg_Peers r1 → rg_Peers r' = rg_Peers r) as Heq by (intros r' ->; by destruct (same_fields _ _ H1) as (_ & ? & _)).
    destruct owner.
    2:{ eapply wlp_mono; [by apply wlp_wp, (half_remove cfg p n)|]. unfold timers_kept. rewrite (Heq r1 eq_refl). naive_solver. }
    apply wlp_bind. apply (wlp_processNew p n); [done| |].
    - intros r2 H2. apply wlp_bind. assert (midst cfg p n r2) as Hh2 by by eapply half_same.
      eapply wlp_wp, (half_set cfg); [exact Hh2|by intros []|done|]. intros r3 Hh3 Hs Htm _. apply wlp_ret.
      pose proof (Heq r2 (proj1 (proj2 (same_fields _ _ H2)))) as Hp2. split.
      + eapply half_inv; [exact Hh3|]. unfold takeover_entry. simpl. by right.
      + intros q _. by rewrite Htm, Hp2.
    - intros t r2 Hh2 Hp2 Hun Hex. apply Heq in Hp2. apply wlp_bind. eapply wlp_wp, (half_set cfg); [exact Hh2|by intros []|by intros t' [= <-]; right|].
      intros r3 Hh3 Hs Htm _. apply wlp_quietly; [solve_quiet|]. intros [] r4 H4.
      eapply wlp_wp, (half_restart cfg env); [by eapply half_same|done|]. intros r5 ts H5 Hs5 Hin Hk _. split.
      + eapply half_inv; [exact H5|]. unfold takeover_entry. simpl. split; [|done]. destruct (pl_step_fields _ _ Hs5) as (_ & -> & _).
        destruct (same_fields _ _ H4) as (_ & _ & -> & _). destruct (pl_step_fields _ _ Hs) as (_ & -> & _). done.
      + intros q Hq Hqin. apply Hk; [done|]. destruct (same_fields _ _ H4) as (_ & -> & _). by rewrite Htm, Hp2. }
  destruct (Z.eqb_spec (pln_TimerCode n) PLNT_TAKEOVER_EXPIRY) as [Hc|_]; [|apply wlp_abort].
  apply wlp_bind, wlp_deref. intros t Ht. apply wlp_bind. eapply (half_drop cfg false); [exact Hh|done|done|]. intros r1 H1 Htm _ _ _.
  eapply wlp_mono; [by eapply wlp_wp, half_remove|]. intros [] r2 (Hi2 & Hk & _). split; [done|]. intros q Hq Hin. apply Hk; [done|]. by rewrite Htm.
Qed.

Lemma wlp_readPl {A} k (f : ST → A) r (Q : A → Reg → Prop) : Q (f (peerSlot_get k (peers r))) r → wlp (onPl (onList (peerRead k f))) Q r.
Proof.
  intros HQ a r' Hr. unfold onPl, onList, peerRead, gets in Hr. injection Hr as <- <-.
  replace (MkPeerListManagement _ _) with (rg_Peers r) by (by destruct (rg_Peers r)). by rewrite same_both.
Qed.

Lemma timer_slot r : inv r → peer_slot PeerTimer (peers r) (pl_PeerListTimerStorage (peers r)).
Proof. intros Hi. destruct (plm_inv_base cfg r (ri_base _ _ Hi)) as [Hpl _]. apply Hpl. Qed.

Lemma safe_peerTimers fuel : ∀ cur r, inv r → (∀ p, cur = Some p → p ∈ ptimers r) → wlp (peerTimers cfg env fuel cur) (λ _ r', inv r') r.
Proof.
  induction fuel as [|fuel IH]; intros [p|] r Hi Hcur; cbn [peerTimers]; [apply wlp_abort|by apply wlp_ret| |by apply wlp_ret].
  specialize (Hcur p eq_refl). destruct (timed_entry r p Hi Hcur) as (n & Hn & Hid).
  apply wlp_bind, (wlp_peer cfg p n); [by apply inv_half|]. apply wlp_quietly; [solve_quiet|]. intros now r1 H1.
  destruct (same_fields _ _ H1) as (_ & Hp1 & _). assert (inv r1) as Hi1 by by eapply inv_same.
  destruct (_ <=? now); [|by apply wlp_ret]. apply wlp_bind. apply (wlp_readPl PeerTimer). pose proof (timer_slot r1 Hi1) as Hs. cbn [peerSlot_get].
  rewrite <- Hp1 in Hcur. apply list_elem_of_split in Hcur as Hsp. destruct Hsp as (l1 & l2 & Hl). pose proof (peer_slot_nodup _ _ _ Hs) as Hnd.
  change (plm_List (rg_Peers r1)) with (peers r1) in Hl. rewrite Hl in Hnd.
  rewrite (st_next_law _ _ _ (ps_ok _ _ _ Hs)), Hl, l_next_app by (try done; intros Hin; apply NoDup_app in Hnd as (_ & Hd & _); apply (Hd p Hin); left).
  apply wlp_bind. eapply wlp_mono; [apply (safe_handlePeerTimer r1 p n Hi1)|]; [done|unfold peers; by rewrite Hp1|].
  intros [] r2 [Hi2 Hk]. apply IH; [done|]. intros q Hq. destruct (next_other l1 l2 p q Hnd Hq) as [Hq1 Hq2]. apply Hk; [done|].
  change (plm_List (rg_Peers r1)) with (peers r1). by rewrite Hl.
Qed.

Lemma safe_peerEvent : safe cfg (registrarHandlePeerEvent (ST := ST) cfg env).
Proof.
  intros r Hi. unfold registrarHandlePeerEvent. apply wlp_bind, (wlp_readPl PeerTimer). apply wlp_bind, (wlp_readPl PeerTimer). apply wlp_bind.
  eapply wlp_mono; [apply safe_peerTimers; [done|]|].
  - intros p Hf. pose proof (timer_slot r Hi) as Hs. cbn [peerSlot_get] in Hf. rewrite (st_first_law _ _ (ps_ok _ _ _ Hs)) in Hf. by apply head_Some_elem_of.
  - intros [] r1 Hi1. by apply (safe_calm cfg); [apply calm_restartPeer|].
Qed.
End timers.
