(* ===== verification/RegistrarTakeoverSteps.v ===== *)
(** * Takeovers

    The elements of a registrar are moved one after the other, in the order
    of the ownership storage, from which each of them disappears when it is
    moved.  The rules are stated for total and for partial correctness: the
    packets about takeovers can always be created, and a keep-alive can be
    sent to every element that has a connection or addresses. *)

From S2P Require Import Prelude Checksum Addresses PoolBasics Storage PoolElement PoolPolicy HandlespaceState PoolNode PoolEffects PoolSelection HandlespaceNode HandlespaceInv HandlespaceOps HandlespaceEffects HandlespaceWalks HandlespaceVerify HandlespaceUpdate HandlespaceMgt HandlespaceMgtInv HandlespaceNotifications HandlespaceRegistration HandlespaceSteps HandlespaceTheorems PeerList PeerListInv PeerListOps PeerListSteps PeerListRegister PeerListTheorems HandlespacePeers Message MessageCreator MessageParser PoolUsers Registrar RegistrarSend RegistrarAsap RegistrarTakeover RegistrarEnrp RegistrarCore RegistrarQuiet RegistrarInv RegistrarSteps RegistrarPackets RegistrarAsapSteps RegistrarEnrpSteps.
From stdpp Require Import base list gmap numbers option sorting sets.
#[local] Open Scope Z_scope.

Section owned.
Context {ST : Type} `{SL : StorageLaws ST} `{En : Endian}.
Context (cfg : RegistrarConfig) (env : Environment).
Abbreviation Reg := (Registrar ST).
Implicit Types (r : Reg) (p q : ptr) (st : Handlespace ST).

Definition owned_by (home : Z) st p : Prop :=
  ∃ n, hs_PoolElementNodes st !! p = Some n ∧ pen_OwnerPoolNode n ≠ None ∧ pen_HomeRegistrarIdentifier n = home.

#[export] Instance owned_by_dec home st p : Decision (owned_by home st p).
Proof.
  destruct (hs_PoolElementNodes st !! p) as [n|] eqn:Hn; [|right; intros (n & Hn' & _); congruence].
  destruct (decide (pen_OwnerPoolNode n ≠ None ∧ pen_HomeRegistrarIdentifier n = home)) as [[Ho Hh]|Hno]; [left; by exists n|].
  right. intros (n' & Hn' & Ho & Hh). apply Hno. simplify_eq. done.
Defined.

Lemma owned_list_by home st p : hs_inv st → home ≠ 0 → p ∈ owned_list home st ↔ owned_by home st p.
Proof.
  intros [Hs _] Hz. split.
  - destruct (ownership_blocks _ _ _ st home Hs) as (A & C & _ & _ & HB & _). apply HB.
  - intros (n & Hn & Ho & Hh). apply list_elem_of_filter. split; [rewrite Hn; simpl; congruence|].
    apply (hi_owned_in _ _ _ _ Hs p n); [done|done|congruence|apply not_elem_of_nil].
Qed.

Lemma owned_nodup home st : hs_inv st → NoDup (owned_list home st).
Proof. intros [Hs _]. apply NoDup_filter, (slot_inv_nodup _ _ _ (hi_ownership _ _ _ _ Hs)). Qed.

Lemma owned_list_sorted home st : hs_inv st → key_sorted (slot_key SlotOwnership st) (owned_list home st).
Proof. intros [Hs _]. apply key_sorted_filter, (si_sorted _ _ _ (hi_ownership _ _ _ _ Hs)). Qed.

(** The first element is moved away: the others follow in the same order. *)
Lemma owned_list_rest home st st' p l : hs_inv st → hs_inv st' → home ≠ 0 → owned_list home st = p :: l →
  (∀ q, q ≠ p → hs_PoolElementNodes st' !! q = hs_PoolElementNodes st !! q) → hs_PoolNodes st' = hs_PoolNodes st →
  ¬ owned_by home st' p → owned_list home st' = l.
Proof.
  intros Hi Hi' Hz Hl He Hp Hno. pose proof (owned_nodup home st Hi) as Hnd. rewrite Hl in Hnd. apply NoDup_cons in Hnd as [Hpl Hnd].
  assert (∀ q, q ∈ owned_list home st' ↔ q ∈ l) as Hiff.
  { intros q. rewrite (owned_list_by home st') by done. destruct (decide (q = p)) as [->|Hq]; [tauto|].
    assert (owned_by home st' q ↔ owned_by home st q) as -> by (unfold owned_by; by rewrite He).
    rewrite <- (owned_list_by home st), Hl, elem_of_cons by done. tauto. }
  apply (StronglySorted_unique_strong (key_lt (slot_key SlotOwnership st'))).
  - unfold key_lt. intros x y _ _ H1 H2. rewrite lexcmp_opp in H2. lia.
  - by apply owned_list_sorted.
  - pose proof (owned_list_sorted home st Hi) as Hso. rewrite Hl in Hso. apply StronglySorted_inv in Hso as [Hso _].
    eapply key_sorted_ext; [|exact Hso]. intros q Hq. assert (q ≠ p) as Hne by set_solver. unfold slot_key. simpl. rewrite He by done.
    unfold owner_handle. by rewrite Hp.
  - apply NoDup_Permutation; [by apply owned_nodup|done|done].
Qed.

(** ** The loop over the elements of a registrar *)

Lemma wpb_readHs {A} b (f : M (Handlespace ST) A) r a (Q : A → Reg → Prop) : f (hs r) = Some (a, hs r) → Q a r →
  wpb b (onHs (onHandlespace f)) Q r.
Proof.
  intros Hf HQ. apply (wpb_run _ _ a r); [|done]. unfold onHs, listened. simpl. rewrite (onHandlespace_run _ _ _ _ Hf).
  unfold hs. simpl. rewrite phm_set_same, drop_all. simpl. by rewrite same_both.
Qed.

(** [I l r]: the elements [l] are still to be moved. *)
Lemma wpb_forOwned b home (body : ptr → M Reg ()) (I : list ptr → Reg → Prop) r :
  (∀ l r1, I l r1 → base_inv cfg r1 ∧ owned_list home (hs r1) = l) →
  (∀ p l r1, I (p :: l) r1 → wpb b (body p) (λ _ r2, I l r2) r1) →
  I (owned_list home (hs r)) r → wpb b (forOwned home body) (λ _ r', I [] r') r.
Proof.
  intros HI Hbody H0. destruct (HI _ _ H0) as [Hb _]. pose proof (hs_inv_base cfg r Hb) as [Hs _]. unfold forOwned. apply wpb_bind.
  apply (wpb_readHs _ _ _ (length (st_list (hs_PoolElementOwnershipStorage (hs r))))); [done|]. apply wpb_bind.
  apply (wpb_readHs _ _ _ (head (owned_list home (hs r)))); [by eapply firstOwned_run|].
  assert (length (owned_list home (hs r)) <= length (st_list (hs_PoolElementOwnershipStorage (hs r))))%nat as Hlen by apply length_filter.
  set (fuel := length (st_list _)) in *. clearbody fuel. clear Hb Hs. remember (owned_list home (hs r)) as l eqn:Heq. clear Heq.
  revert fuel r Hlen H0. induction l as [|p l IH]; intros fuel r Hlen Hl; [by destruct fuel; apply wpb_ret|].
  destruct fuel as [|fuel]; simpl in Hlen; [lia|]. cbn [head forElements]. destruct (HI _ _ Hl) as [Hb Hol]. pose proof (hs_inv_base cfg r Hb) as [Hs _].
  apply wpb_bind, (wpb_readHs _ _ _ (head l)); [by apply (owned_steps _ _ _ _ home Hs [] p l)|].
  apply wpb_bind. eapply wpb_mono; [by apply Hbody|]. intros [] r1 H1. apply IH; [lia|done].
Qed.

(** ** Moving one element *)

Lemma moved_owner home n : pen_OwnerPoolNode (moved_node home n) = pen_OwnerPoolNode n.
Proof. unfold moved_node. by case_match. Qed.

Lemma moved_home home n : pen_HomeRegistrarIdentifier (moved_node home n) = home.
Proof. unfold moved_node. destruct (Z.eqb_spec home (pen_HomeRegistrarIdentifier n)); done. Qed.

(** The element after the takeover, waiting for the answer to its keep-alive. *)
Definition taken_node (ts : Z) (n : PoolElementNode) : PoolElementNode :=
  set_TimerTimeStamp ts (set_TimerCode PENT_KEEPALIVE_TIMEOUT (moved_node (cf_ServerID cfg) n)).

Lemma wpb_takeElement b r p n : setting_ok cfg env → base_inv cfg r → pooled r p n → (b = true → contactable n) →
  wpb b (takeElement cfg env p) (λ _ r', base_inv cfg r' ∧ hs_step r r' ∧ (∃ ts, els r' = <[p := taken_node ts n]> (els r)) ∧
    etimers r' ≡ₚ p :: l_remove p (etimers r) ∧ hs_PoolNodes (hs r') = hs_PoolNodes (hs r)) r.
Proof.
  intros Hset Hb [Hn Ho] Hc. unfold takeElement. apply wpb_bind, wpb_wp. eapply wp_mono; [by apply (wp_deactivateElement cfg)|].
  intros [] r1 (Hb1 & Hs1 & He1 & Ht1 & Hp1). apply wpb_bind, wpb_wp.
  eapply wp_mono; [apply (wp_ownership cfg r1 p n (cf_ServerID cfg)); [done|by rewrite He1|done|apply Hset]|].
  intros [] r2 (Hb2 & Hs2 & He2 & Ht2 & Hp2). assert (els r2 !! p = Some (moved_node (cf_ServerID cfg) n)) as Hn2 by (rewrite He2; apply lookup_insert_eq).
  assert (pen_OwnerPoolNode (moved_node (cf_ServerID cfg) n) ≠ None) as Ho2 by by rewrite moved_owner.
  apply wpb_bind. apply (wpb_mono _ _ (λ _ r3, same r2 r3)).
  { destruct b; [|apply quiet_keepAlive]. apply (wp_keepAlive cfg env r2 p (moved_node (cf_ServerID cfg) n)); try done.
    specialize (Hc eq_refl). unfold contactable, moved_node in *. by case_match. }
  intros [] r3 H3. apply wpb_bind. unfold getMicroTime. apply wpb_wp, wp_observe. set (r4 := rg_set_Tick _ r3).
  assert (same r2 r4) as H4 by done. destruct (same_els _ _ H4) as (He4 & Ht4 & Hh4). assert (base_inv cfg r4) as Hb4 by exact (base_same cfg _ _ H4 Hb2).
  apply wpb_wp. eapply wp_mono; [apply (wp_activateElement cfg r4 p (moved_node (cf_ServerID cfg) n)); [done|by rewrite He4|done| |by right; right]|].
  - rewrite Ht4, Ht2, Ht1, l_remove_elem. tauto.
  - intros [] r5 (Hb5 & Hs5 & He5 & Ht5 & Hp5). split; [done|]. split; [|split; [|split]].
    + eapply hs_step_trans; [exact Hs1|]. eapply hs_step_trans; [exact Hs2|]. eapply hs_step_trans; [by apply hs_step_same, H4|done].
    + eexists. by rewrite He5, He4, He2, insert_insert_eq, He1.
    + by rewrite Ht5, Ht4, Ht2, Ht1.
    + by rewrite Hp5, Hh4, Hp2, Hp1.
Qed.
End owned.

(** ** Finishing a takeover *)

Section finish.
Context {ST : Type} `{SL : StorageLaws ST} `{En : Endian}.
Context (cfg : RegistrarConfig) (env : Environment) (Hset : setting_ok cfg env).
Abbreviation Reg := (Registrar ST).
Abbreviation Msg := (RSerPoolMessage ST).
Abbreviation inv := (registrar_inv cfg).
Implicit Types (r : Reg) (p q : ptr) (m : Msg) (st : Handlespace ST).

Lemma wp_restartHandlespace r : base_inv cfg r → wp restartHandlespaceTimer (λ _ r', still r r') r.
Proof.
  intros Hb. pose proof (hs_inv_base cfg r Hb) as [Hs _]. pose proof (hi_timer _ _ _ _ Hs) as Ht. unfold restartHandlespaceTimer. apply wp_bind.
  assert (∃ ts, (nextTimer ← poolHandlespaceNodeGetFirstPoolElementTimerNode;
    match nextTimer with Some p => n ← pe_get p; mret (pen_TimerTimeStamp n) | None => mret (2 ^ 64 - 1) end) (hs r) = Some (ts, hs r)) as (ts & Hts).
  { erewrite run_bind; [|apply (storageGetFirst_spec SlotTimer _ _ eq_refl Ht)]. destruct (head _) as [p|] eqn:Hp; [|by eexists].
    apply head_Some_elem_of in Hp. destruct (si_valid _ _ _ Ht p Hp) as (n & h & Hn & _). rewrite (run_bind _ _ _ _ _ (pe_get_run _ _ _ Hn)). by eexists. }
  apply (wpb_readHs true _ _ ts); [exact Hts|]. eexists tt, _.
  split; [unfold timerRestart, timerStop, timerStart, modify, get, put, mbind, M_bind, CHECK; simpl; reflexivity|done].
Qed.

(** What the registrar [r'] has taken over from [target]. *)
Record taken_over (target : Z) r r' : Prop := {
  to_moved q n : owned_by target (hs r) q → els r !! q = Some n → ∃ ts, els r' !! q = Some (taken_node cfg ts n) ∧ q ∈ etimers r';
  to_others q : ¬ owned_by target (hs r) q → els r' !! q = els r !! q ∧ (q ∈ etimers r' ↔ q ∈ etimers r)
}.

(** In the midst of the loop that started in [r]. *)
Record taking (target : Z) r (l : list ptr) r1 : Prop := {
  tg_base : base_inv cfg r1;
  tg_list : owned_list target (hs r1) = l;
  tg_step : hs_step r r1;
  tg_subset q : q ∈ l → owned_by target (hs r) q ∧ els r1 !! q = els r !! q;
  tg_moved q n : q ∉ l → owned_by target (hs r) q → els r !! q = Some n → ∃ ts, els r1 !! q = Some (taken_node cfg ts n) ∧ q ∈ etimers r1;
  tg_others q : ¬ owned_by target (hs r) q → els r1 !! q = els r !! q ∧ (q ∈ etimers r1 ↔ q ∈ etimers r)
}.

Lemma taking_start target r : base_inv cfg r → target ≠ 0 → taking target r (owned_list target (hs r)) r.
Proof.
  intros Hb Hz. pose proof (hs_inv_base cfg r Hb) as Hi. split; [done|done|by apply hs_step_same| | |done].
  - intros q Hq. split; [by apply owned_list_by|done].
  - intros q n Hq Ho. by apply owned_list_by in Ho.
Qed.

Lemma taking_step b target r p l r1 : target ≠ 0 → target ≠ cf_ServerID cfg → taking target r (p :: l) r1 →
  (b = true → ∀ q n, owned_by target (hs r) q → els r !! q = Some n → contactable n) →
  wpb b (takeElement cfg env p) (λ _ r2, taking target r l r2) r1.
Proof.
  intros Hz Hne [Hb Hl Hs Hsub Hmv Hot] Hc. destruct (Hsub p) as [Hop Hep]; [left|]. destruct Hop as (n & Hn & Ho & Hh). pose proof Hn as Hn1.
  change (hs_PoolElementNodes (hs r)) with (els r) in Hn1. rewrite <- Hep in Hn1. pose proof (hs_inv_base cfg r1 Hb) as Hi1.
  pose proof (owned_nodup target _ Hi1) as Hnd. rewrite Hl in Hnd. apply NoDup_cons in Hnd as [Hpl _].
  eapply wpb_mono; [apply (wpb_takeElement cfg env b r1 p n Hset Hb); [done|intros Hbt; apply (Hc Hbt p n); [by exists n|done]]|].
  intros [] r2 (Hb2 & Hs2 & (ts & He2) & Ht2 & Hp2). split; [done| |by eapply hs_step_trans| | |].
  - eapply (owned_list_rest target (hs r1) (hs r2) p); [done|by apply (hs_inv_base cfg)|done|done| |done|].
    + intros q Hq. change (els r2 !! q = els r1 !! q). by rewrite He2, lookup_insert_ne.
    + intros (n' & Hn' & _ & Hh'). change (els r2 !! p = Some n') in Hn'. rewrite He2, lookup_insert_eq in Hn'. injection Hn' as <-.
      change (pen_HomeRegistrarIdentifier (moved_node (cf_ServerID cfg) n) = target) in Hh'. rewrite moved_home in Hh'. congruence.
  - intros q Hq. destruct (Hsub q) as [? Heq]; [by right|]. split; [done|]. rewrite He2, lookup_insert_ne by set_solver. done.
  - intros q n' Hq Hoq Hn'. destruct (decide (q = p)) as [->|Hqp].
    + exists ts. rewrite He2, lookup_insert_eq, Ht2, elem_of_cons. change (els r !! p = Some n) in Hn. split; [congruence|by left].
    + destruct (Hmv q n') as (ts' & He' & Ht'); [set_solver|done|done|]. exists ts'. rewrite He2, lookup_insert_ne, Ht2, elem_of_cons, l_remove_elem by done. tauto.
  - intros q Hq. destruct (Hot q Hq) as [He' Ht']. assert (q ≠ p) as Hqp by (intros ->; apply Hq; by exists n).
    rewrite He2, lookup_insert_ne, Ht2, elem_of_cons, l_remove_elem by done. split; [done|]. rewrite <- Ht'. tauto.
Qed.

Lemma wpb_finishTakeover b target r : base_inv cfg r → target ≠ 0 → target ≠ cf_ServerID cfg →
  (b = true → ∀ q n, owned_by target (hs r) q → els r !! q = Some n → contactable n) →
  wpb b (registrarFinishTakeover cfg env target) (λ _ r', base_inv cfg r' ∧ kept (rg_Peers r) (rg_Peers r') ∧
    rg_TakeoverProcesses r' = rg_TakeoverProcesses r ∧ taken_over target r r') r.
Proof.
  intros Hb Hz Hne Hc. unfold registrarFinishTakeover. apply wpb_bind. apply wpb_wp. eapply wp_mono; [by apply (wp_takeoverServers cfg env)|].
  intros [] r1 H1. destruct (same_els _ _ H1) as (He1 & Ht1 & Hh1). assert (base_inv cfg r1) as Hb1 by exact (base_same cfg _ _ H1 Hb).
  apply wpb_bind. eapply wpb_mono; [apply (wpb_forOwned cfg b target _ (taking target r1)); [by intros l r2 [? ? _ _ _ _]| |by apply taking_start]|].
  - intros p l r2 Htk. apply taking_step; [done|done|done|]. intros Hbt q n. rewrite Hh1, He1. by apply Hc.
  - intros [] r2 [Hb2 _ Hs2 _ Hmv Hot]. apply wpb_wp. eapply wp_mono; [by apply wp_restartHandlespace|]. intros [] r3 H3.
    split; [by eapply base_still|]. destruct H3 as (H3 & H3' & H3''). destruct (same_fields _ _ H1) as (_ & Hp1 & Hk1 & _).
    split; [rewrite H3', <- Hp1; apply Hs2|]. split; [rewrite H3'', <- Hk1; apply (hs_step_fields _ _ Hs2)|].
    assert (els r3 = els r2 ∧ etimers r3 = etimers r2) as [He3 Ht3] by (unfold els, etimers, hs; by rewrite H3).
    split; rewrite He3, Ht3, <- He1, <- ?Ht1, <- Hh1; [|exact Hot]. intros q n Ho Hn. by apply (Hmv q n); [apply not_elem_of_nil|..].
Qed.

(** ** Acknowledgements *)

(** The peer that a message names. *)
Lemma wp_findPeer_half r id (Q : option ptr → Reg → Prop) : inv r → id ≠ UNDEFINED_REGISTRAR_IDENTIFIER →
  (no_entry (peers r) id → Q None r) → (∀ p n, midst cfg p n r → pln_Identifier n = id → Q (Some p) r) → wp (findPeer id) Q r.
Proof.
  intros Hi Hz HN HS. eapply wp_mono; [apply (wp_findPeer cfg r id), Hi|]. intros x r' (-> & Hf & _). unfold peer_found in Hf.
  rewrite decide_False in Hf by done. destruct x as [p|]; [|by apply HN]. destruct Hf as (n & Hn). pose proof Hn as [He Hid]%entry_entries.
  apply (HS p n); [by apply inv_half|done].
Qed.

Lemma wp_peer p n r (Q : PeerListNode → Reg → Prop) : midst cfg p n r → Q n r → wp (peer p) Q r.
Proof.
  intros Hh HQ. exists n, r. split; [|done]. pose proof (ha_entry _ _ _ _ Hh) as [_ Hn]%entries_Some. unfold peer, onPl, onList, peer_get, deref.
  unfold peers in Hn. rewrite Hn. replace (MkPeerListManagement _ _) with (rg_Peers r) by (by destruct (rg_Peers r)). by rewrite same_both.
Qed.

(** An entry is not our own. *)
Lemma entry_not_own r p n : base_inv cfg r → cf_ServerID cfg ≠ 0 → entries (peers r) p = Some n → pln_Identifier n ≠ cf_ServerID cfg.
Proof.
  intros Hb Hz [Hp Hn]%entries_Some. destruct (plm_inv_base cfg r Hb) as [Hpl _]. pose proof (bi_own _ _ Hb) as Ho.
  destruct (pv_node _ _ Hpl p n Hp Hn) as (_ & _ & Hne). unfold peers in Ho. rewrite Ho in Hne. by apply Hne.
Qed.

(** What an acknowledgement from [sender] about [target] does. *)
Inductive acknowledged (target sender : Z) r r' : Prop :=
| ack_unknown : r' = r → no_entry (peers r) target → acknowledged target sender r r'
| ack_none p n : r' = r → entry (peers r) target p n → pln_TakeoverProcess n = None → acknowledged target sender r r'
| ack_waiting p n t v : entry (peers r) target p n → pln_TakeoverProcess n = Some t → rg_TakeoverProcesses r !! t = Some v →
    removeAcknowledger sender (tp_PeerIDArray v) ≠ [] →
    r' = rg_set_TakeoverProcesses (<[t := MkTakeoverProcess (removeAcknowledger sender (tp_PeerIDArray v))]> (rg_TakeoverProcesses r)) r →
    acknowledged target sender r r'
| ack_last p n t v : entry (peers r) target p n → pln_TakeoverProcess n = Some t → rg_TakeoverProcesses r !! t = Some v →
    removeAcknowledger sender (tp_PeerIDArray v) = [] → taken_over target r r' → rg_TakeoverProcesses r' !! t = None →
    (∀ q x, q ≠ p → entries (peers r') q = Some x → ∃ x0, entries (peers r) q = Some x0 ∧ checksumless x = checksumless x0) →
    no_entry (peers r') target → acknowledged target sender r r'.

(** The peer is gone: a static entry stays, without identifier. *)
Lemma removed_no_entry X pl pl' p n id : pl_inv X pl → entries pl p = Some n → pln_Identifier n = id → id ≠ UNDEFINED_REGISTRAR_IDENTIFIER →
  (∀ q, entries pl' q = if decide (q = p) then PeerListSteps.deregistered n else entries pl q) → no_entry pl' id.
Proof.
  intros Hi Hn Hid Hz He q x Hx. apply entry_entries in Hx as [Hx Hidx]. rewrite He in Hx. case_decide as Hq.
  - unfold PeerListSteps.deregistered in Hx. case_match; [|done]. injection Hx as <-. by simpl in Hidx.
  - apply Hq. by apply (entry_inj X pl id q p x n); [done|done|apply entry_entries..].
Qed.

Lemma inv_store r t v : inv r → inv (rg_set_TakeoverProcesses (<[t := v]> (rg_TakeoverProcesses r)) r).
Proof.
  intros [Hb [He Hd]]. split; [by destruct Hb; split|]. split; [|exact Hd]. intros q n Hn. specialize (He q n Hn). unfold takeover_entry in *.
  simpl in *. case_match; [|done]. split; [|apply He]. apply lookup_insert_is_Some'. right. apply He.
Qed.

Lemma wpb_initTakeoverAck b fd assocID m r : inv r → cf_ServerID cfg ≠ 0 → rm_RegistrarIdentifier m ≠ 0 → rm_SenderID m ≠ cf_ServerID cfg →
  (b = true → ∀ q n, owned_by (rm_RegistrarIdentifier m) (hs r) q → els r !! q = Some n → contactable n) →
  wpb b (registrarHandleENRPInitTakeoverAck cfg env fd assocID m)
    (λ _ r', inv r' ∧ acknowledged (rm_RegistrarIdentifier m) (rm_SenderID m) r r') r.
Proof.
  intros Hi Hsz Htz Hss Hc. unfold registrarHandleENRPInitTakeoverAck. rewrite (proj2 (Z.eqb_neq _ _) Hss). set (target := rm_RegistrarIdentifier m) in *.
  apply wpb_bind, wpb_wp, wp_findPeer_half; [done|done| |].
  { intros Hno. apply wpb_ret. split; [done|]. by apply ack_unknown. }
  intros p n Hmid Hid. pose proof (ha_entry _ _ _ _ Hmid) as Hn. assert (entry (peers r) target p n) as Hen by (by apply entry_entries).
  apply wpb_bind, wpb_wp, (wp_peer p n); [done|]. destruct (pln_TakeoverProcess n) as [t|] eqn:Ht.
  2:{ apply wpb_ret. split; [done|]. by apply (ack_none _ _ _ _ p n). }
  pose proof (tk_entry _ _ (ri_takeovers _ _ Hi) p n Hn) as Hte. unfold takeover_entry in Hte. rewrite Ht in Hte. destruct Hte as ([v Hv] & Hrun & Hcode).
  apply wpb_bind. unfold takeover_get. apply wpb_deref; [by rewrite Hv; eexists|]. intros v0 Hv0. assert (v0 = v) as -> by congruence.
  unfold takeoverProcessAcknowledge, takeoverProcessGetOutstandingAcks. cbn [tp_PeerIDArray].
  set (l := removeAcknowledger (rm_SenderID m) (tp_PeerIDArray v)). unfold takeover_store. apply wpb_bind, wpb_modify.
  set (r1 := rg_set_TakeoverProcesses _ r). assert (inv r1) as Hi1 by by apply inv_store.
  destruct (Z.ltb_spec 0 (Z.of_nat (length l))) as [Hl|Hl].
  { apply wpb_ret. split; [done|]. apply (ack_waiting _ _ _ _ p n t v); try done. fold l. intros Hnil. rewrite Hnil in Hl. simpl in Hl. lia. }
  assert (l = []) as Hnil by (apply nil_length_inv; lia). apply wpb_bind.
  eapply wpb_mono; [apply (wpb_finishTakeover b target r1); [apply Hi1|done|rewrite <- Hid; by apply (entry_not_own r p); [apply Hi|..]|done]|].
  intros [] r2 (Hb2 & Hk2 & Hp2 & Hto).
  assert (∃ n2, entries (peers r2) p = Some n2 ∧ checksumless n2 = checksumless n) as (n2 & Hn2 & Heq).
  { pose proof (kp_entries _ _ Hk2 p) as He. change (plm_List (rg_Peers r1)) with (peers r) in He. rewrite Hn in He. simpl in He.
    apply fmap_Some in He as (n2 & H2 & Heq). by exists n2. }
  assert (pln_TakeoverProcess n2 = Some t ∧ pln_Identifier n2 = target) as [Ht2 Hid2].
  { destruct n, n2. simpl in *. injection Heq. intros. by subst. }
  assert (inv r2) as Hi2. { split; [done|]. rewrite Hp2. by apply (takeovers_kept _ (rg_Peers r1)), Hi1. }
  apply wpb_bind. eapply (half_drop cfg b p n2); [by apply inv_half|done|intros _; rewrite Hp2; simpl; rewrite lookup_insert_eq; by eexists|].
  intros r3 H3 _ Hh3 Hp3 He3. apply wpb_wp. eapply wp_mono; [by apply (half_remove cfg p)|]. intros [] r4 (Hi4 & _ & Hs4 & He4). split; [done|].
  destruct (pl_step_fields _ _ Hs4) as (Hh4 & Hp4 & _). apply (ack_last _ _ _ _ p n t v); try done.
  - destruct Hto as [Hmv Hot]. split; unfold els, etimers, hs in *; rewrite Hh4, Hh3; [exact Hmv|exact Hot].
  - rewrite Hp4, Hp3. apply lookup_delete_eq.
  - intros q x Hq Hx. rewrite He4, decide_False, He3 in Hx by done. by apply (kept_entry _ _ q x Hk2).
  - eapply (removed_no_entry _ (peers r3)); [apply (plm_inv_base cfg r3 (ha_base _ _ _ _ H3))|apply H3|exact Hid2|done|exact He4].
Qed.

(** ** Requests *)

(** What the request of [sender] to take over [target] does: an own attempt
    is given up for a sender with a lower identifier only. *)
Inductive requested (target sender : Z) r r' : Prop :=
| rq_unknown : no_entry (peers r) target → same r r' → requested target sender r r'
| rq_granted p n : entry (peers r) target p n → pln_TakeoverProcess n = None → pl_step r r' →
    (∀ q, entries (peers r') q = if decide (q = p) then Some (pln_set_TakeoverRegistrarID sender n) else entries (peers r) q) →
    requested target sender r r'
| rq_insisted p n t : entry (peers r) target p n → pln_TakeoverProcess n = Some t → cf_ServerID cfg <= sender → r' = r →
    requested target sender r r'
| rq_yielded p n t ts : entry (peers r) target p n → pln_TakeoverProcess n = Some t → sender < cf_ServerID cfg →
    rg_Handlespace r' = rg_Handlespace r → rg_TakeoverProcesses r' = delete t (rg_TakeoverProcesses r) →
    (∀ q, entries (peers r') q = if decide (q = p) then Some (timer_set PLNT_MAX_TIME_NO_RESPONSE ts
      (pln_set_TakeoverProcess None (pln_set_TakeoverRegistrarID sender n))) else entries (peers r) q) →
    p ∈ st_list (pl_PeerListTimerStorage (peers r')) → requested target sender r r'.

Lemma wp_initTakeover fd assocID m r : inv r → rm_RegistrarIdentifier m ≠ 0 → rm_SenderID m ≠ cf_ServerID cfg →
  rm_RegistrarIdentifier m ≠ cf_ServerID cfg →
  wp (registrarHandleENRPInitTakeover cfg env fd assocID m) (λ _ r', inv r' ∧ requested (rm_RegistrarIdentifier m) (rm_SenderID m) r r') r.
Proof.
  intros Hi Htz Hss Hts. unfold registrarHandleENRPInitTakeover. rewrite (proj2 (Z.eqb_neq _ _) Hss), (proj2 (Z.eqb_neq _ _) Hts).
  set (target := rm_RegistrarIdentifier m) in *. set (sender := rm_SenderID m) in *. apply wp_bind, wp_findPeer_half; [done|done| |].
  { intros Hno. eapply wp_mono; [apply (wp_initTakeoverAck cfg env)|]. intros [] r1 H1. split; [by eapply inv_same|by apply rq_unknown]. }
  intros p n Hmid Hid. pose proof (ha_entry _ _ _ _ Hmid) as Hn. assert (entry (peers r) target p n) as Hen by (by apply entry_entries).
  pose proof (tk_entry _ _ (ri_takeovers _ _ Hi) p n Hn) as Hte. unfold takeover_entry in Hte. apply wp_bind, (wp_peer p n); [done|].
  destruct (pln_TakeoverProcess n) as [t|] eqn:Ht.
  - destruct Hte as (Hv & Hrun & Hcode). destruct (Z.ltb_spec sender (cf_ServerID cfg)) as [Hlt|Hge].
    2:{ apply wp_ret. split; [done|]. by apply (rq_insisted _ _ _ _ p n t). }
    apply wp_bind. eapply (half_set cfg); [exact Hmid|by intros []|intros t'; simpl; by left|]. intros r1 H1 Hs1 Htm1 He1.
    apply wp_bind. eapply wp_mono; [apply (wp_initTakeoverAck cfg env)|]. intros [] r2 H2. pose proof (same_fields _ _ H2) as (Hh2 & Hpe2 & Hp2 & _).
    destruct (pl_step_fields _ _ Hs1) as (Hh1 & Hp1 & _). assert (midst cfg p (pln_set_TakeoverRegistrarID sender n) r2) as Hm2 by exact (half_same cfg p _ _ _ H2 H1).
    apply wp_bind. eapply (half_drop cfg true p); [exact Hm2|done|intros _; by rewrite Hp2, Hp1|]. intros r3 H3 Htm3 Hh3 Hp3 He3.
    unfold restartPeer. eapply (half_restart cfg env); [exact H3|simpl; by rewrite Hid|]. intros r4 ts H4 Hs4 Hin Hk He4.
    destruct (pl_step_fields _ _ Hs4) as (Hh4 & Hp4 & _). split.
    + eapply half_inv; [exact H4|]. by right.
    + apply (rq_yielded _ _ _ _ p n t ts); try done; [by rewrite Hh4, Hh3, Hh2, Hh1|by rewrite Hp4, Hp3, Hp2, Hp1|].
      intros q. case_decide as Hq; [subst q; apply H4|]. rewrite He4, He3 by done. unfold peers at 1. by rewrite Hpe2, He1.
  - apply wp_bind. eapply (half_set cfg); [exact Hmid|by intros []|intros t'; simpl; by left|]. intros r1 H1 Hs1 Htm1 He1.
    eapply wp_mono; [apply (wp_initTakeoverAck cfg env)|]. intros [] r2 H2. pose proof (same_fields _ _ H2) as (_ & Hpe2 & _).
    assert (midst cfg p (pln_set_TakeoverRegistrarID sender n) r2) as Hm2 by exact (half_same cfg p _ _ _ H2 H1). split.
    + eapply half_inv; [exact Hm2|]. unfold takeover_entry. simpl. rewrite Ht, Hpe2. change (plm_List (rg_Peers r1)) with (peers r1).
      unfold peers. by rewrite Htm1.
    + apply (rq_granted _ _ _ _ p n); [done|done|eapply pl_step_trans; [exact Hs1|by apply pl_step_same]|]. intros q.
      case_decide as Hq; [subst q; apply Hm2|]. unfold peers at 1. by rewrite Hpe2, He1.
Qed.

Lemma safe_initTakeover fd assocID m : rm_RegistrarIdentifier m ≠ 0 → safe cfg (registrarHandleENRPInitTakeover cfg env fd assocID m).
Proof.
  intros Hz r Hi. destruct (decide (rm_SenderID m = cf_ServerID cfg)) as [Hs|Hs].
  { unfold registrarHandleENRPInitTakeover. rewrite (proj2 (Z.eqb_eq _ _) Hs). by apply wlp_ret. }
  destruct (decide (rm_RegistrarIdentifier m = cf_ServerID cfg)) as [Ht|Ht].
  - unfold registrarHandleENRPInitTakeover. rewrite (proj2 (Z.eqb_neq _ _) Hs), (proj2 (Z.eqb_eq _ _) Ht).
    by apply (safe_calm cfg); [apply calm_quiet; solve_quiet|].
  - eapply wlp_mono; [by apply wlp_wp, wp_initTakeover|]. naive_solver.
Qed.

Lemma safe_initTakeoverAck fd assocID m : cf_ServerID cfg ≠ 0 → rm_RegistrarIdentifier m ≠ 0 →
  safe cfg (registrarHandleENRPInitTakeoverAck cfg env fd assocID m).
Proof.
  intros Hsz Hz r Hi. destruct (decide (rm_SenderID m = cf_ServerID cfg)) as [Hs|Hs].
  - unfold registrarHandleENRPInitTakeoverAck. rewrite (proj2 (Z.eqb_eq _ _) Hs). by apply wlp_ret.
  - eapply wlp_mono; [by apply (wpb_initTakeoverAck false)|]. naive_solver.
Qed.

(** ** Announcements of a takeover *)

(** The elements of [target] belong to [sender] now. *)
Definition handed_over (target sender : Z) r r' : Prop :=
  ∀ q, els r' !! q = if decide (owned_by target (hs r) q) then moved_node sender <$> els r !! q else els r !! q.

(** In the midst of the loop that started in [r]. *)
Record handing (target sender : Z) r (l : list ptr) r1 : Prop := {
  hg_base : base_inv cfg r1;
  hg_list : owned_list target (hs r1) = l;
  hg_step : hs_step r r1;
  hg_timers : etimers r1 = etimers r;
  hg_subset q : q ∈ l → owned_by target (hs r) q;
  hg_nodes q : els r1 !! q = if decide (owned_by target (hs r) q ∧ q ∉ l) then moved_node sender <$> els r !! q else els r !! q
}.

Lemma handing_step target sender r p l r1 : target ≠ 0 → target ≠ sender → is_u32 sender → handing target sender r (p :: l) r1 →
  wp (onHs (onHandlespace (poolHandlespaceNodeUpdateOwnershipOfPoolElementNode p sender))) (λ _ r2, handing target sender r l r2) r1.
Proof.
  intros Hz Hne Hu [Hb Hl Hs Ht Hsub Hnd]. pose proof (Hsub p ltac:(left)) as Hop. pose proof Hop as (n & Hn & Ho & Hh).
  change (els r !! p = Some n) in Hn. pose proof (Hnd p) as Hp. rewrite decide_False in Hp by (intros [_ Hp']; apply Hp'; left).
  pose proof (hs_inv_base cfg r1 Hb) as Hi1. pose proof (owned_nodup target _ Hi1) as Hndp. rewrite Hl in Hndp. apply NoDup_cons in Hndp as [Hpl _].
  eapply wp_mono; [apply (wp_ownership cfg r1 p n sender Hb); [congruence|done|done]|]. intros [] r2 (Hb2 & Hs2 & He2 & Ht2 & Hp2).
  split; [done| |by eapply hs_step_trans|congruence|set_solver|].
  - eapply (owned_list_rest target (hs r1) (hs r2) p); [done|by apply (hs_inv_base cfg)|done|done| |done|].
    + intros q Hq. change (els r2 !! q = els r1 !! q). by rewrite He2, lookup_insert_ne.
    + intros (n' & Hn' & _ & Hh'). change (els r2 !! p = Some n') in Hn'. rewrite He2, lookup_insert_eq in Hn'. injection Hn' as <-.
      rewrite moved_home in Hh'. congruence.
  - intros q. rewrite He2. destruct (decide (q = p)) as [->|Hq].
    + rewrite lookup_insert_eq, decide_True by done. by rewrite Hn.
    + rewrite lookup_insert_ne, Hnd by done. apply decide_ext. rewrite not_elem_of_cons. tauto.
Qed.

Lemma wp_takeoverServer fd assocID m r : inv r → rm_RegistrarIdentifier m ≠ 0 → is_u32 (rm_SenderID m) → rm_SenderID m ≠ cf_ServerID cfg →
  rm_RegistrarIdentifier m ≠ rm_SenderID m →
  wp (registrarHandleENRPTakeoverServer cfg fd assocID m) (λ _ r', inv r' ∧ handed_over (rm_RegistrarIdentifier m) (rm_SenderID m) r r' ∧
    etimers r' = etimers r ∧ hs_step r r') r.
Proof.
  intros Hi Hz Hu Hs Hne. unfold registrarHandleENRPTakeoverServer. rewrite (proj2 (Z.eqb_neq _ _) Hs).
  pose proof (hs_inv_base cfg r (ri_base _ _ Hi)) as Hinv.
  eapply wp_mono; [apply (wpb_forOwned cfg true _ _ (handing (rm_RegistrarIdentifier m) (rm_SenderID m) r)); [by intros l r1 []|by intros; apply handing_step|]|].
  - split; [apply Hi|done|by apply hs_step_same|done|intros q Hq; by apply owned_list_by|]. intros q. rewrite decide_False; [done|].
    intros [Ho Hno]. by apply Hno, owned_list_by.
  - intros [] r1 [Hb1 _ Hs1 Ht1 _ Hn1]. split; [by apply (inv_hs cfg r)|]. split; [|done]. intros q. rewrite Hn1. apply decide_ext.
    pose proof (not_elem_of_nil q). tauto.
Qed.

Lemma safe_takeoverServer fd assocID m : rm_RegistrarIdentifier m ≠ 0 → is_u32 (rm_SenderID m) →
  safe cfg (registrarHandleENRPTakeoverServer cfg fd assocID m).
Proof.
  intros Hz Hu r Hi. destruct (decide (rm_SenderID m = cf_ServerID cfg)) as [Hs|Hs].
  { unfold registrarHandleENRPTakeoverServer. rewrite (proj2 (Z.eqb_eq _ _) Hs). by apply wlp_ret. }
  destruct (decide (rm_RegistrarIdentifier m = rm_SenderID m)) as [He|He]; [|eapply wlp_mono; [by apply wlp_wp, wp_takeoverServer|naive_solver]].
  unfold registrarHandleENRPTakeoverServer. rewrite (proj2 (Z.eqb_neq _ _) Hs). unfold forOwned.
  apply wlp_bind, wlp_readHs; [apply reads_storage|]. intros fuel _.
  apply wlp_bind, wlp_readHs; [apply reads_firstOwned|]. intros first Hf.
  apply (safe_forElements cfg _ _ (owned_by (rm_RegistrarIdentifier m))); [| | |done|].
  - intros p. unfold poolHandlespaceNodeGetNextPoolElementOwnershipNodeForSameIdentifier, storageGetNext. solve_quiet.
  - intros st p q Hst Hp Hq. pose proof (owned_nodup (rm_RegistrarIdentifier m) st Hst) as Hnd.
    apply owned_list_by in Hp as (l1 & l2 & Hsp)%list_elem_of_split; [|done..]. rewrite (owned_steps _ _ _ st _ (proj1 Hst) l1 p l2 Hsp) in Hq. injection Hq as Hq.
    rewrite Hsp in Hnd. destruct (next_other l1 l2 p q Hnd Hq) as [Hin Hne]. rewrite <- Hsp in Hin. split; [by apply owned_list_by|done].
  - intros r1 p Hi1 (n & Hn & Ho & Hh). eapply wlp_mono; [apply wlp_wp, (wp_ownership cfg r1 p n); [apply Hi1|done..]|].
    intros [] r2 (Hb2 & Hs2 & He2 & _). split; [by apply (inv_hs cfg r1)|]. intros q Hq (n' & Hn' & ?). exists n'. split; [|done].
    change (els r2 !! q = Some n'). by rewrite He2, lookup_insert_ne.
  - intros p ->. pose proof (hs_inv_base cfg r (ri_base _ _ Hi)) as Hst. rewrite (firstOwned_run _ _ _ _ _ (proj1 Hst)) in Hf. injection Hf as Hf.
    by apply owned_list_by, head_Some_elem_of.
Qed.
End finish.
