(* ===== verification/RegistrarEnrpHandlers.v ===== *)
(** * The other ENRP handlers keep the invariant *)

From S2P Require Import Prelude Checksum Addresses PoolBasics Storage PoolElement PoolPolicy HandlespaceState PoolNode PoolEffects PoolSelection HandlespaceNode HandlespaceInv HandlespaceOps HandlespaceEffects HandlespaceWalks HandlespaceVerify HandlespaceUpdate HandlespaceMgt HandlespaceMgtInv HandlespaceNotifications HandlespaceRegistration HandlespaceSteps HandlespaceTheorems PeerList PeerListInv PeerListOps PeerListSteps PeerListRegister PeerListTheorems HandlespacePeers Message MessageCreator MessageParser PoolUsers Registrar RegistrarSend RegistrarAsap RegistrarTakeover RegistrarEnrp RegistrarCore RegistrarQuiet RegistrarInv RegistrarSteps RegistrarPackets RegistrarAsapSteps RegistrarEnrpSteps RegistrarTakeoverSteps.
From stdpp Require Import base list gmap numbers option sorting sets.
#[local] Open Scope Z_scope.

Section peers.
Context {ST : Type} `{SL : StorageLaws ST} `{En : Endian}.
Context (cfg : RegistrarConfig) (env : Environment).
Abbreviation Reg := (Registrar ST).
Abbreviation PLM := (PeerListManagement ST).
Abbreviation Msg := (RSerPoolMessage ST).
Abbreviation inv := (registrar_inv cfg).
Abbreviation ptimers pl := (st_list (pl_PeerListTimerStorage (plm_List pl))).
Implicit Types (r : Reg) (p q : ptr) (pl : PLM) (m : Msg) (n : PeerListNode).

(** ** Registrations of peers *)

(** What the takeovers see of an entry. *)
Definition alike n n' : Prop := pln_TakeoverProcess n' = pln_TakeoverProcess n ∧ pln_TimerCode n' = pln_TimerCode n.

Lemma takeovers_set P pl pl' p n n' : takeovers P pl → differs p pl (Some n') pl' → (p ∈ ptimers pl' ↔ p ∈ ptimers pl) →
  entries (plm_List pl) p = Some n → alike n n' → takeovers P pl'.
Proof.
  intros Ht Hd Htm Hn [Hp Hc]. pose proof (takeovers_mostly p P pl Ht) as Hm. apply (mostly_takeovers p).
  - eapply mostly_differs; [done|exact Hd|]. intros x t [= <-] Hx. rewrite Hp in Hx. by apply (mostly_unused p P pl n).
  - intros x Hx. destruct Hd as [He _]. rewrite He, decide_True in Hx by done. injection Hx as <-.
    pose proof (tk_entry _ _ Ht p n Hn) as Hte. unfold takeover_entry in *. rewrite Hp, Hc. case_match; tauto.
Qed.

Lemma takeovers_new P pl pl' p n' : takeovers P pl → differs p pl (Some n') pl' → p ∉ ptimers pl' → pln_TakeoverProcess n' = None → takeovers P pl'.
Proof.
  intros Ht Hd Hp Hn. pose proof (takeovers_mostly p P pl Ht) as Hm. apply (mostly_takeovers p).
  - eapply mostly_differs; [done|exact Hd|]. intros x t [= <-] Hx. congruence.
  - intros x Hx. destruct Hd as [He _]. rewrite He, decide_True in Hx by done. injection Hx as <-. unfold takeover_entry. rewrite Hn. tauto.
Qed.

Lemma takeovers_unset P pl pl' p : takeovers P pl → differs p pl None pl' → takeovers P pl'.
Proof.
  intros Ht Hd. apply (mostly_takeovers p); [eapply mostly_differs; [by apply takeovers_mostly|exact Hd|done]|].
  intros x Hx. destruct Hd as [He _]. by rewrite He, decide_True in Hx.
Qed.

Lemma identified_alike (h : option (Handlespace ST)) (list : PeerList ST) id n : alike n (summed h (identified list id n)).
Proof. unfold identified, alike. by destruct h, (own_id list id), (_ =? _). Qed.

(** The node of a new entry has no timer. *)
Lemma new_node_untimed pl peerNode p : plm_inv pl → fresh_node pl peerNode → node_memory pl peerNode = Some p → p ∉ ptimers pl.
Proof.
  intros [Hi _] Hf Hn Hp%(pv_timed _ _ Hi). unfold node_memory, new_nodes in *. destruct (plm_NewPeerListNode pl) as [x|] eqn:Hx.
  - injection Hn as ->. apply (pv_free _ _ Hi p); [left|done].
  - subst peerNode. destruct (pv_lookup _ _ p Hi Hp) as (n & Hl & _). by rewrite (Hf p Hx eq_refl) in Hl.
Qed.

Lemma registration_takeovers P pl peerNode duplicated h id flags t now res pl' : plm_inv pl → fresh_node pl peerNode → takeovers P pl →
  peer_registration pl peerNode duplicated h id flags t now res pl' → takeovers P pl'.
Proof.
  intros Hi Hf Ht Hreg. destruct Hreg as [|p n m' _ _ Hn (He & Htm & _)| |m' _ He Htm|p q n m' Hmem Hadd _ (He & Htm & _)|p q n m' Hmem Hadd _ He Htm]; try done.
  - eapply takeovers_set; [done|split; [exact He|]|by rewrite Htm|exact Hn|apply identified_alike]. intros; by rewrite Htm.
  - destruct Ht as [Hte Hd]. split; [intros q n; rewrite He, Htm; apply Hte|]. intros q q' n n' s. rewrite !He. apply Hd.
  - inversion Hadd as [Hnew|? x Hx Hk]; subst.
    + eapply takeovers_new; [done|split; [exact He|intros; by rewrite Htm]|rewrite Htm; by eapply new_node_untimed|by destruct h].
    + eapply takeovers_set; [done|split; [exact He|intros; by rewrite Htm]|by rewrite Htm|exact Hx|by destruct h].
  - eapply takeovers_unset; [done|split; [exact He|]]. intros x Hx. rewrite Htm, l_remove_elem. tauto.
Qed.

(** The registration of another registrar that gives an entry was
    successful, and the entry has its identifier. *)
Lemma registration_entry pl peerNode duplicated h id flags t now p e pl' : own_id (plm_List pl) id = false → id ≠ UNDEFINED_REGISTRAR_IDENTIFIER →
  peer_registration pl peerNode duplicated h id flags t now (Some p, e) pl' →
  e = RSPERR_OKAY ∧ ∃ n, entries (plm_List pl') p = Some n ∧ pln_Identifier n = id.
Proof.
  intros Hown Hz Hreg. inversion Hreg as [|p' n m' _ _ Hn (He & _)| | |p' q n m' Hmem Hadd _ (He & _)|]; subst.
  - rewrite Hown. split; [done|]. eexists. rewrite He, decide_True by done. split; [done|]. unfold identified. rewrite Hown. by destruct h, (_ =? _).
  - split; [done|]. eexists. rewrite He, decide_True by done. split; [done|]. inversion Hadd as [Hnew|? x Hx Hk]; subst; [by destruct h|].
    unfold peerKey in Hk. simpl in Hk. assert (pln_Identifier x = id) as Hid by congruence. by destruct h.
Qed.

Lemma safe_registerPeer r id flags t now (Q : option ptr * Z → Reg → Prop) : inv r → registrable (rg_Peers r) id flags t →
  id ≠ UNDEFINED_REGISTRAR_IDENTIFIER → id ≠ cf_ServerID cfg → (∀ e r', inv r' → Q (None, e) r') →
  (∀ p n r', inv r' → entries (peers r') p = Some n → pln_Identifier n = id → Q (Some p, RSPERR_OKAY) r') →
  wlp (registerPeer env id flags t now) Q r.
Proof.
  intros Hi Hg Hz Hown HN HS. eapply wlp_mono; [apply wlp_wp, (wp_registerPeer cfg env r id flags t now); [apply Hi|done]|].
  intros [x e] r' (Hb & Hs & peerNode & duplicated & Hf & Hreg). destruct (pl_step_fields _ _ Hs) as (_ & Hp & _).
  assert (inv r') as Hi'.
  { split; [done|]. rewrite Hp. eapply registration_takeovers; [apply (plm_inv_base cfg), Hi|exact Hf|apply Hi|exact Hreg]. }
  destruct x as [p|]; [|by apply HN]. apply registration_entry in Hreg as [-> (n & Hn & Hid)]; [by apply (HS p n)| |done].
  apply own_id_false. intros _. pose proof (bi_own _ _ (ri_base _ _ Hi)) as Ho. unfold peers in Ho. by rewrite Ho.
Qed.

(** Without identifier there is no entry. *)
Lemma registerPeer_zero r flags t now : flag_test flags PLNF_DYNAMIC = true → wlp (registerPeer env 0 flags t now) (λ res r', res.1 = None) r.
Proof.
  intros Hf. unfold registerPeer. do 3 (apply wlp_quietly; [solve_quiet|]; intros ? ? _). intros res r2 Hr.
  unfold onPl, peerListManagementRegisterPeerListNode in Hr. rewrite Hf in Hr. simpl in Hr. by injection Hr as <- <-.
Qed.

(** ** Presence *)

(** The invariant, and the peer [id] at [p]. *)
Definition has p (id : Z) r : Prop := inv r ∧ ∃ n, entries (peers r) p = Some n ∧ pln_Identifier n = id.

Lemma has_still p id r r' : still r r' → has p id r → has p id r'.
Proof. intros Hs [Hi Hn]. split; [exact (inv_still cfg _ _ Hs Hi)|]. unfold peers. by rewrite (proj1 (proj2 Hs)). Qed.

Lemma has_calm {A} p id (f : M Reg A) r : calm f → has p id r → wlp f (λ _ r', has p id r') r.
Proof. intros Hf Hr. eapply wlp_mono; [apply Hf|]. intros a r' Hs. exact (has_still p id _ _ Hs Hr). Qed.

Lemma has_set p id f r : has p id r → peer_neutral f → (∀ n, alike n (f n)) → wlp (setPeer p f) (λ _ r', has p id r') r.
Proof.
  intros [Hi (n & Hn & Hid)] Hf Ha. destruct (Ha n) as [Hp Hc]. apply wlp_wp. eapply (half_set cfg); [by apply inv_half|done| |].
  - intros t Ht. left. congruence.
  - intros r' H' Hs Htm _. split; [|exists (f n); split; [apply H'|destruct (Hf n) as [-> _]; done]]. eapply half_inv; [exact H'|].
    destruct (pl_step_fields _ _ Hs) as (_ & -> & _). rewrite Htm. pose proof (tk_entry _ _ (ri_takeovers _ _ Hi) p n Hn) as Hte.
    unfold takeover_entry in *. by rewrite Hp, Hc.
Qed.

Lemma has_peer p id r (Q : PeerListNode → Reg → Prop) : has p id r → (∀ n, entries (peers r) p = Some n → pln_Identifier n = id → Q n r) → wlp (peer p) Q r.
Proof. intros [Hi (n & Hn & Hid)] HQ. apply (wlp_peer cfg p n); [by apply inv_half|by apply HQ]. Qed.

Lemma has_hs p id r r' : base_inv cfg r' → hs_step r r' → has p id r → has p id r'.
Proof.
  intros Hb Hs [Hi (n & Hn & Hid)]. split; [by apply (inv_hs cfg r)|]. pose proof (kp_entries _ _ (proj1 Hs) p) as He. unfold peers in *.
  rewrite Hn in He. simpl in He. apply fmap_Some in He as (n' & Hn' & Heq). exists n'. split; [done|].
  destruct n, n'. simpl in *. injection Heq. intros. by subst.
Qed.

Lemma has_status p id bits r : has p id r → wlp (addStatus p bits) (λ _ r', has p id r') r.
Proof. intros Hr. apply has_set; [done|by intros []|by intros []]. Qed.

Lemma has_askMentor p id r : has p id r → wlp (askMentor cfg env p) (λ _ r', has p id r') r.
Proof.
  intros Hr. unfold askMentor. apply wlp_bind, wlp_get. destruct (_ && _); [|by apply wlp_ret]. apply wlp_bind.
  eapply wlp_mono; [by apply has_status|]. intros [] r1 H1. apply has_calm; [|done]. apply calm_bind; [apply calm_quiet; solve_quiet|].
  intros n. apply calm_bind; [by apply calm_modify|]. intros _. apply calm_quiet. solve_quiet.
Qed.

Lemma has_synchronize fd assocID m p id r : has p id r → wlp (synchronize cfg env fd assocID m p) (λ _ r', has p id r') r.
Proof.
  intros Hr. unfold synchronize. destruct (negb _); [|by apply wlp_ret]. apply wlp_bind, (has_peer p id); [done|]. intros n _ _. apply wlp_bind.
  apply (wlp_mono _ (λ _ r', has p id r')).
  - destruct (negb _); [|by apply wlp_ret]. destruct (negb _); [|by apply wlp_ret]. apply wlp_bind. eapply wlp_mono; [by apply has_status|].
    intros [] r1 H1. apply wlp_bind. eapply wlp_mono; [apply has_calm; [solve_calm|exact H1]|]. intros [] r2 H2.
    eapply wlp_mono; [apply wlp_wp, (wp_mark cfg r2), H2|]. intros [] r3 [Hb Hs]. exact (has_hs p id _ _ Hb Hs H2).
  - intros [] r1 H1. apply wlp_bind, (has_peer p id); [done|]. intros n1 _ _. destruct (negb _); [|by apply wlp_ret].
    apply wlp_bind. eapply wlp_mono; [by apply has_status|]. intros [] r2 H2. apply has_calm; [|done]. solve_calm.
Qed.

Lemma midst_still p n r r' : still r r' → midst cfg p n r → midst cfg p n r'.
Proof.
  intros Hs [Hb Hm Hn]. split; [by eapply base_still|destruct Hs as (_ & -> & ->); done|]. unfold peers. by rewrite (proj1 (proj2 Hs)).
Qed.

(** A timer that is started. *)
Lemma half_activate p n r code ts : midst cfg p n r → pln_Identifier n ≠ UNDEFINED_REGISTRAR_IDENTIFIER → p ∉ ptimers (rg_Peers r) →
  wp (onPl (peerListManagementActivateTimer p code ts)) (λ _ r', midst cfg p (timer_set code ts n) r') r.
Proof.
  intros Hm Hz Hp. eapply wp_mono; [apply (wp_activatePeer cfg r p n code ts); [apply Hm|apply Hm|done|done]|].
  intros [] r' (Hb & Hs & He & Ht). split; [done| |by rewrite He, decide_True]. eapply half_step; [exact Hm|done|split; [exact He|]|].
  - intros q Hq. unfold peers in Ht. rewrite Ht. tauto.
  - intros n' t [= <-] Hn'. by left.
Qed.

Lemma linked_timer p r : inv r → STN_IsLinked (pl_PeerListTimerStorage (peers r)) p = bool_decide (p ∈ ptimers (rg_Peers r)).
Proof. intros Hi. apply (st_linked_law _ _ _ (ps_ok _ _ _ (timer_slot cfg r Hi))). Qed.

(** A timer that is stopped if it is running. *)
Lemma half_stop p n r (Q : () → Reg → Prop) : inv r → entries (peers r) p = Some n →
  (∀ r', midst cfg p n r' → p ∉ ptimers (rg_Peers r') → Q tt r') →
  wlp (linked ← peerTimerLinked p; if linked : bool then onPl (peerListManagementDeactivateTimer p) else mret tt) Q r.
Proof.
  intros Hi Hn HQ. unfold peerTimerLinked. apply wlp_bind, (wlp_readPl PeerTimer). cbn [peerSlot_get]. rewrite linked_timer by done.
  pose proof (inv_half cfg r p n Hi Hn) as Hm. case_bool_decide as Hp; [|apply wlp_ret; by apply HQ].
  eapply wlp_mono; [apply wlp_wp, (wp_deactivatePeer cfg r p), Hi|]. intros [] r' (Hb & Hs & He & Ht). unfold peers in Ht. apply HQ.
  - split; [done| |by rewrite He]. eapply (half_step cfg p n r (Some n)); [done|done|split|].
    + intros q. case_decide as Hq; [subst q; unfold peers in He, Hn; by rewrite He|apply He].
    + intros q Hq. rewrite Ht, l_remove_elem. tauto.
    + intros n' t [= <-]. by left.
  - rewrite Ht, l_remove_elem. tauto.
Qed.

Lemma welcome_ends fd assocID m p id r : has p id r → id ≠ UNDEFINED_REGISTRAR_IDENTIFIER →
  wlp (welcomePeer cfg env fd assocID m p) (λ _ r', ∃ n, midst cfg p n r' ∧ pln_TimerCode n = PLNT_MAX_TIME_LAST_HEARD) r.
Proof.
  intros Hr Hz. unfold welcomePeer. apply wlp_bind, (has_peer p id); [done|]. intros n0 _ _. apply wlp_bind.
  eapply wlp_mono; [apply has_calm; [solve_calm|exact Hr]|]. intros [] r1 H1. apply wlp_bind. eapply wlp_mono; [by apply has_askMentor|].
  intros [] r2 H2. apply wlp_bind. eapply wlp_mono; [by apply has_synchronize|]. intros [] r3 [Hi (n & Hn & Hid)].
  apply (wlp_assoc (peerTimerLinked p) (λ linked : bool, if linked then onPl (peerListManagementDeactivateTimer p) else mret tt)).
  apply wlp_bind, (half_stop p n); [done|done|]. intros r4 H4 Hp4. apply wlp_quietly; [solve_quiet|]. intros now r5 H5. apply wlp_bind.
  eapply wlp_mono; [apply wlp_wp, (half_activate p n); [exact (half_same cfg _ _ _ _ H5 H4)|by rewrite Hid|]|].
  - by destruct (same_fields _ _ H5) as (_ & -> & _).
  - intros [] r6 H6. eapply wlp_mono; [|intros a r7 Hs; eexists; split; [exact (midst_still _ _ _ _ Hs H6)|done]].
    generalize r6. change (calm (restartPeerTimer;; if flag_test (rm_Flags m) EHF_PRESENCE_REPLY_REQUIRED &&
      negb (fd =? cf_ENRPMulticastOutputSocket cfg) && negb (rm_SenderID m =? UNDEFINED_REGISTRAR_IDENTIFIER)
      then registrarSendENRPPresence cfg env fd (rm_AssocID m) 0 [] (rm_SenderID m) false else mret tt)). solve_calm.
Qed.

(** A presence names its sender, and the registration under its addresses
    is one that the peer list can take. *)
Definition presence_ok fd assocID m r : Prop :=
  (∀ info, rm_PeerListNodePtr m = Some info → pln_Identifier info = rm_SenderID m) ∧
  (∀ t r', presenceAddresses cfg env fd assocID m r = Some (Some t, r') →
    registrable (rg_Peers r) (rm_SenderID m) (Z.lor PLNF_DYNAMIC PLNF_NEW) (Some t)).

Lemma quiet_presenceAddresses fd assocID m : quiet (presenceAddresses (ST := ST) cfg env fd assocID m).
Proof. unfold presenceAddresses. solve_quiet. Qed.

Lemma safe_presence fd assocID m r : inv r → presence_ok fd assocID m r →
  wlp (registrarHandleENRPPresence cfg env fd assocID m) (λ _ r', inv r') r.
Proof.
  intros Hi [Hinfo Hreg]. unfold registrarHandleENRPPresence. destruct (Z.eqb_spec (rm_SenderID m) (cf_ServerID cfg)) as [Hs|Hs]; [by apply wlp_ret|].
  apply wlp_bind. intros x r1 Hx. pose proof (quiet_presenceAddresses fd assocID m r x r1 Hx) as H1. assert (inv r1) as Hi1 by exact (inv_same cfg _ _ H1 Hi).
  destruct x as [t|]; [|by apply wlp_ret]. destruct (rm_PeerListNodePtr m) as [info|] eqn:Hm; [|by apply wlp_ret].
  rewrite (Hinfo info eq_refl). specialize (Hreg t r1 Hx). apply wlp_quietly; [solve_quiet|]. intros now r2 H2.
  pose proof (same_trans _ _ _ H1 H2) as H12. assert (inv r2) as Hi2 by exact (inv_same cfg _ _ H12 Hi).
  destruct (decide (rm_SenderID m = UNDEFINED_REGISTRAR_IDENTIFIER)) as [Hz|Hz].
  { apply wlp_bind. rewrite Hz. eapply wlp_mono; [by apply registerPeer_zero|]. intros [x e] r3 Hnone. simpl in Hnone. subst x.
    apply wlp_bind. apply (wlp_mono _ (λ _ _, True)); [done|]. intros [] r4 _. apply wlp_bind, wlp_deref. done. }
  apply wlp_bind. apply (safe_registerPeer r2 (rm_SenderID m)); [done|by rewrite (proj1 (proj2 (same_fields _ _ H12)))|done|done| |].
  { intros e r3 Hi3. apply wlp_bind. apply (wlp_mono _ (λ _ _, True)); [done|]. intros [] r4 _. apply wlp_bind, wlp_deref. done. }
  intros p n r3 Hi3 Hn3 Hid. cbn [fst snd]. rewrite (proj2 (Z.eqb_eq RSPERR_OKAY RSPERR_OKAY) eq_refl). apply wlp_bind, wlp_bind, wlp_deref. intros ? [= <-].
  eapply wlp_mono; [apply (welcome_ends fd assocID m p (rm_SenderID m)); [split; [done|by exists n]|done]|]. intros [] r4 (n4 & H4 & Hc4).
  apply wlp_bind, wlp_deref. intros ? [= <-]. apply wlp_bind, wlp_wp. eapply (half_set cfg); [exact H4|by intros []|by left|]. intros r5 H5 Hs5 Ht5 _.
  apply wlp_bind. apply (wlp_peer cfg p _ r5 _ H5). cbn [pln_TakeoverProcess pln_set_TakeoverRegistrarID].
  destruct (pln_TakeoverProcess n4) as [t'|] eqn:Htp.
  - eapply (half_drop cfg false); [exact H5|done|done|]. intros r6 H6 _ _ _ _. eapply half_inv; [exact H6|]. unfold takeover_entry. simpl. by left.
  - apply wlp_ret. eapply half_inv; [exact H5|]. unfold takeover_entry. simpl. rewrite Htp. by left.
Qed.
End peers.

(** ** Loops over the contents of a message *)

(** [ok] holds of each node when it is its turn. *)
Fixpoint stepwise {S A} (ok : ptr → S → Prop) (f : A → ptr → M S A) (l : list ptr) (a : A) (s : S) : Prop :=
  match l with
  | [] => True
  | p :: l' => ok p s ∧ ∀ a' s', f a p s = Some (a', s') → stepwise ok f l' a' s'
  end.

Lemma wlp_stepwise {S A} (next : ptr → option (option ptr)) (f : A → ptr → M S A) (ok : ptr → S → Prop) (I : A → S → Prop) :
  (∀ a p s, I a s → ok p s → wlp (f a p) I s) → ∀ l, (∀ l1 p l2, l = l1 ++ p :: l2 → next p = Some (head l2)) →
  ∀ l2 l1 fuel a s, l = l1 ++ l2 → I a s → stepwise ok f l2 a s → wlp (walk fuel (λ p, deref (λ _, next p)) f (head l2) a) I s.
Proof.
  intros Hf l Hn l2. induction l2 as [|p l2 IH]; intros l1 fuel a s Hl HI Hs; destruct fuel as [|fuel]; cbn [walk head]; try (by apply wlp_ret); [apply wlp_abort|].
  destruct Hs as [Hok Hs]. apply wlp_bind. intros a' s' Hr. apply wlp_bind, wlp_deref. intros x Hx. rewrite (Hn l1 p l2 Hl) in Hx. injection Hx as <-.
  apply (IH (l1 ++ [p])); [by rewrite <- app_assoc|by apply (Hf a p s HI Hok)|by apply Hs].
Qed.

Section tables.
Context {ST : Type} `{SL : StorageLaws ST} `{En : Endian}.
Context (cfg : RegistrarConfig) (env : Environment) (Hset : setting_ok cfg env).
Abbreviation Reg := (Registrar ST).
Abbreviation PLM := (PeerListManagement ST).
Abbreviation Msg := (RSerPoolMessage ST).
Abbreviation inv := (registrar_inv cfg).
Abbreviation ptimers pl := (st_list (pl_PeerListTimerStorage (plm_List pl))).
Implicit Types (r : Reg) (p q : ptr) (pl : PLM) (m : Msg).

(** *** Peer lists *)

(** The peer that the entry describes is another one than ourselves. *)
Definition peer_ok (n : PeerListNode) r : Prop :=
  pln_Identifier n ≠ cf_ServerID cfg ∧ registrable (rg_Peers r) (pln_Identifier n) (pln_Flags n) (pln_AddressBlock n).

Lemma safe_learnPeer n r : inv r → peer_ok n r → wlp (learnPeer cfg env n) (λ _ r', inv r') r.
Proof.
  intros Hi [Hown Hg]. unfold learnPeer. destruct (Z.eqb_spec (pln_Identifier n) UNDEFINED_REGISTRAR_IDENTIFIER) as [Hz|Hz]; [by apply wlp_ret|].
  cbn [negb]. apply wlp_quietly; [solve_quiet|]. intros now r1 H1. assert (inv r1) as Hi1 by exact (inv_same cfg _ _ H1 Hi).
  apply wlp_bind, (safe_registerPeer cfg env r1 (pln_Identifier n)); [done|by rewrite (proj1 (proj2 (same_fields _ _ H1)))|done|done| |].
  { intros e r2 Hi2. cbn [fst snd]. destruct (_ =? _); [apply wlp_bind, wlp_deref; done|by apply wlp_ret]. }
  intros p x r2 Hi2 Hx Hid. cbn [fst snd]. rewrite (proj2 (Z.eqb_eq RSPERR_OKAY RSPERR_OKAY) eq_refl). apply wlp_bind, wlp_deref. intros ? [= <-].
  unfold peerTimerLinked. apply wlp_bind, (wlp_readPl PeerTimer). cbn [peerSlot_get]. rewrite (linked_timer cfg) by done.
  case_bool_decide as Hp; [by apply wlp_ret|]. cbn [negb]. apply wlp_quietly; [solve_quiet|]. intros now' r3 H3. apply wlp_bind.
  eapply wlp_mono; [apply wlp_wp, (half_activate cfg p x); [exact (half_same cfg _ _ _ _ H3 (inv_half cfg _ _ _ Hi2 Hx))|by rewrite Hid|]|].
  { by destruct (same_fields _ _ H3) as (_ & -> & _). }
  intros [] r4 H4. apply (safe_calm cfg).
  - solve_calm.
  - eapply half_inv; [exact H4|]. pose proof (tk_entry _ _ (ri_takeovers _ _ Hi2) p x Hx) as Hte. unfold takeover_entry in *. simpl.
    destruct (pln_TakeoverProcess x); [by destruct Hte as (_ & ? & _)|by left].
Qed.

(** The list of a message: well-formed, each entry acceptable in its turn. *)
Definition list_ok m r : Prop := ∀ list, rm_PeerListPtr m = Some list → plm_inv list ∧
  stepwise (λ q r, ∀ n, pl_PeerListNodes (plm_List list) !! q = Some n → peer_ok n r)
    (λ _ q, n ← deref (λ _, pl_PeerListNodes (plm_List list) !! q); learnPeer cfg env n)
    (st_list (pl_PeerListIndexStorage (plm_List list))) tt r.

Lemma safe_learnPeers m list r : rm_PeerListPtr m = Some list → list_ok m r → inv r → wlp (learnPeers cfg env list) (λ _ r', inv r') r.
Proof.
  intros Hm Hok Hi. destruct (Hok list Hm) as [[Hl _] Hst]. unfold learnPeers. cbv zeta. apply wlp_bind, wlp_deref. intros fuel _.
  apply wlp_bind, wlp_deref. intros first Hf. unfold peerListGetFirstPeerListNodeFromIndexStorage in Hf.
  rewrite (peerFirst_run PeerIndex _ (pv_index _ _ Hl)) in Hf. injection Hf as <-.
  eapply (wlp_stepwise (λ q, fst <$> peerListGetNextPeerListNodeFromIndexStorage q (plm_List list)) _ _ (λ _ r, inv r)) with (l1 := []);
    [|intros l1 q l2 Hsp|reflexivity|done|exact Hst].
  - intros [] q r1 Hi1 Hq. apply wlp_bind, wlp_deref. intros n Hn. by apply safe_learnPeer, Hq.
  - unfold peerListGetNextPeerListNodeFromIndexStorage. by rewrite (peerNext_run PeerIndex _ l1 q l2 (pv_index _ _ Hl) Hsp).
Qed.

Lemma safe_listResponse fd assocID m r : inv r → list_ok m r → wlp (registrarHandleENRPListResponse cfg env fd assocID m) (λ _ r', inv r') r.
Proof.
  intros Hi Hok. unfold registrarHandleENRPListResponse. destruct (_ =? _); [by apply wlp_ret|]. destruct (negb _); [|by apply wlp_ret].
  apply wlp_bind. apply (wlp_mono _ (λ _ r', inv r')); [|intros [] r1 Hi1; by apply (safe_calm cfg); [apply calm_restartPeer|]].
  destruct (rm_PeerListPtr m) as [list|] eqn:Hm; [by eapply safe_learnPeers|by apply wlp_ret].
Qed.

Lemma calm_listRequest fd assocID m : calm (registrarHandleENRPListRequest (ST := ST) cfg env fd assocID m).
Proof. unfold registrarHandleENRPListRequest. solve_calm. Qed.

Lemma calm_enrpAnnounce : calm (registrarHandleENRPAnnounceTimer (ST := ST) cfg env).
Proof.
  unfold registrarHandleENRPAnnounceTimer. apply calm_bind; [apply calm_quiet; solve_quiet|]. intros r0.
  apply calm_bind; [destruct (rg_InStartupPhase r0); solve_calm|]. intros _. apply calm_bind; [apply calm_quiet; solve_quiet|]. intros _.
  apply calm_bind; [apply calm_quiet; solve_quiet|]. intros _. apply calm_bind; [apply calm_quiet; solve_quiet|]. intros now.
  apply calm_bind; [apply calm_quiet; solve_quiet|]. intros x. apply calm_timerStart.
Qed.

(** *** Handle updates *)

(** An element that a peer tells about. *)
Definition foreign_ok (handle : PoolHandle) (pe : PoolElementNode) : Prop := element_ok handle pe ∧ is_u32 (pen_HomeRegistrarIdentifier pe).

Lemma room_same r r' k : same r r' → room r k → room r' k.
Proof. intros Hs. unfold room, hs. by rewrite (proj1 (same_fields _ _ Hs)). Qed.

Lemma safe_addElement fd assocID m pe r : inv r → foreign_ok (rm_Handle m) pe → room r 1 →
  wlp (addElement cfg env fd assocID m pe) (λ _ r', inv r') r.
Proof.
  intros Hi ((Hh & Hid & Hp) & Hhome) Hroom. unfold addElement. apply wlp_bind, (wlp_distance cfg env); [done|unfold in_width; lia|].
  intros s d r1 H1 Hs _. apply wlp_bind.
  eapply wlp_mono; [apply (safe_register cfg env); [exact (inv_same cfg _ _ H1 Hi)|done|exact (room_same _ _ _ H1 Hroom)]|]. intros [x e] r2 (Hi2 & _ & Hok).
  cbn [fst snd] in *. destruct (Z.eqb_spec e RSPERR_OKAY) as [->|]; [|by apply wlp_ret]. destruct (Hok eq_refl) as (p & n & -> & Hpo).
  apply wlp_bind, wlp_deref. intros ? [= <-]. apply wlp_bind, wlp_element. intros n' Hn'.
  apply wlp_bind. eapply wlp_mono; [apply (safe_startTimer cfg env r2 p n _ _ Hi2 Hpo); by left|].
  intros [] r3 [Hi3 _]. apply (safe_calm cfg); [|done]. solve_calm.
Qed.

Lemma safe_handleUpdate fd assocID m r : inv r → handle_wf (rm_Handle m) →
  (∀ pe, rm_PoolElementPtr m = Some pe → foreign_ok (rm_Handle m) pe) → room r 1 →
  wlp (registrarHandleENRPHandleUpdate cfg env fd assocID m) (λ _ r', inv r') r.
Proof.
  intros Hi Hh Hm Hroom. unfold registrarHandleENRPHandleUpdate. destruct (_ =? _); [by apply wlp_ret|]. destruct (_ =? PNUP_ADD_PE).
  - apply wlp_bind, wlp_deref. intros pe Hpe. destruct (negb _); [|by apply wlp_ret]. apply safe_addElement; [done|by apply Hm|done].
  - destruct (_ =? PNUP_DEL_PE); [|by apply wlp_ret]. apply wlp_bind, wlp_deref. intros pe Hpe.
    apply wlp_bind, (wlp_find cfg); [done|done|]. intros [p|] Hx; [|by apply wlp_ret]. destruct (Hx p eq_refl) as (n & Hpo). apply wlp_bind.
    eapply wlp_mono; [by apply (safe_deregisterElement cfg r p n)|]. intros e r1 Hi1. by apply wlp_ret.
Qed.

(** *** Handle tables *)

(** The elements of a well-formed table are acceptable. *)
Lemma table_element (table : Handlespace ST) q pe h : hs_inv table → hs_PoolElementNodes table !! q = Some pe → owner_handle table pe = Some h →
  foreign_ok h pe.
Proof.
  intros [Hs _] Hpe Hh. pose proof (hi_wf _ _ _ _ Hs q pe Hpe) as Hwf. assert (pen_OwnerPoolNode pe ≠ None) as Ho.
  { intros Ho. unfold owner_handle in Hh. by rewrite Ho in Hh. }
  destruct (hs_struct_owner _ _ _ _ _ _ Hs Hpe Ho) as (pp & pn & _ & _ & Hinv & Hh' & _). rewrite Hh in Hh'. injection Hh' as ->.
  unfold pen_wf in Hwf. split; [split; [intros _; apply Hinv|]|]; tauto.
Qed.

Lemma safe_learnElement fd assocID (table : Handlespace ST) distance q r : inv r → is_u32 distance → room r 1 → hs_inv table →
  wlp (learnElement cfg env fd assocID table distance q) (λ d r', base_inv cfg r' ∧ hs_step r r' ∧ is_u32 d) r.
Proof.
  intros Hi Hd Hroom Ht. unfold learnElement. apply wlp_bind, wlp_deref. intros pe Hpe. pose proof (hi_wf _ _ _ _ (proj1 Ht) q pe Hpe) as Hwf.
  apply wlp_bind, (wlp_distance cfg env); [unfold pen_wf in Hwf; tauto|done|]. intros s d r1 H1 Hs Hd'. apply wlp_bind.
  assert (inv r1) as Hi1 by exact (inv_same cfg _ _ H1 Hi).
  assert (hs_step r r1) as Hs1 by by apply hs_step_same.
  apply (wlp_mono _ (λ _ r', base_inv cfg r' ∧ hs_step r r')); [|intros [] r2 [Hb2 Hs2]; by apply wlp_ret].
  destruct (negb _); [|apply wlp_ret; by split; [apply Hi1|]].
  apply wlp_bind, wlp_deref. intros h Hh. destruct (table_element table q pe h Ht Hpe Hh) as ((Hwh & Hid & _) & Hhome). apply wlp_bind.
  eapply wlp_mono; [apply (safe_register cfg env); [done|done|exact (room_same _ _ _ H1 Hroom)]|]. intros [x e] r2 (Hi2 & Hs2 & Hok).
  assert (hs_step r r2) as Hs02 by by eapply hs_step_trans.
  cbn [fst snd] in *. destruct (Z.eqb_spec e RSPERR_OKAY) as [->|]; [|apply wlp_ret; by split; [apply Hi2|]]. destruct (Hok eq_refl) as (p & n & -> & Hn & Ho).
  apply wlp_bind, wlp_deref. intros ? [= <-]. unfold elementTimerLinked. apply wlp_bind, wlp_readHs; [apply reads_storage|]. intros b Hb.
  pose proof (hs_inv_base cfg r2 (ri_base _ _ Hi2)) as [Hst _]. assert (b = bool_decide (p ∈ etimers r2)) as ->.
  { unfold storageIsLinked, storageRead in Hb. simpl in Hb. injection Hb as <-. apply (st_linked_law _ _ _ (si_ok _ _ _ (hi_timer _ _ _ _ Hst))). }
  case_bool_decide as Hp; [apply wlp_ret; by split; [apply Hi2|]|]. cbn [negb]. apply wlp_bind, wlp_element. intros n' Hn'. apply wlp_quietly; [solve_quiet|].
  intros now r3 H3. destruct (same_els _ _ H3) as (He3 & Ht3 & _). assert (inv r3) as Hi3 by exact (inv_same cfg _ _ H3 Hi2).
  eapply wlp_mono; [apply wlp_wp, (wp_activateElement cfg r3 p n); [apply Hi3|by rewrite He3|done|by rewrite Ht3|by left]|].
  intros [] r4 (Hb4 & Hs4 & _). split; [done|]. eapply hs_step_trans; [exact Hs02|]. eapply hs_step_trans; [by apply hs_step_same, H3|done].
Qed.

(** The table of a message: well-formed, with room for each element. *)
Definition table_ok fd assocID m r : Prop := ∀ table, rm_HandlespacePtr m = Some table → hs_inv (phm_Handlespace table) ∧
  stepwise (λ _ r, room r 1) (learnElement cfg env fd assocID (phm_Handlespace table))
    (st_list (hs_PoolElementOwnershipStorage (phm_Handlespace table))) 0xffffffff r.

Lemma has_learnElements fd assocID m table p id r : rm_HandlespacePtr m = Some table → table_ok fd assocID m r → has cfg p id r →
  wlp (learnElements cfg env fd assocID table) (λ _ r', has cfg p id r') r.
Proof.
  intros Hm Hok Hi. destruct (Hok table Hm) as [Ht Hst]. pose proof (hi_ownership _ _ _ _ (proj1 Ht)) as Hown. unfold learnElements. cbv zeta.
  apply wlp_bind, wlp_deref. intros fuel _. apply wlp_bind, wlp_deref. intros first Hf.
  unfold poolHandlespaceNodeGetFirstPoolElementOwnershipNode in Hf. rewrite (storageGetFirst_spec SlotOwnership _ _ eq_refl Hown) in Hf. injection Hf as <-.
  apply wlp_bind. eapply wlp_mono; [eapply (wlp_stepwise (λ q, fst <$> poolHandlespaceNodeGetNextPoolElementOwnershipNode q (phm_Handlespace table)) _ _
    (λ d r, has cfg p id r ∧ is_u32 d)) with (l1 := []); [|intros l1 q l2 Hsp|reflexivity| |exact Hst]|].
  - intros d q r1 [Hr1 Hd] Hroom. eapply wlp_mono; [by apply safe_learnElement; [apply Hr1|..]|]. intros d' r2 (Hb2 & Hs2 & Hd').
    split; [exact (has_hs cfg p id _ _ Hb2 Hs2 Hr1)|done].
  - unfold poolHandlespaceNodeGetNextPoolElementOwnershipNode. by rewrite (storageGetNext_app SlotOwnership _ _ l1 q l2 _ eq_refl (si_ok _ _ _ Hown) Hsp).
  - split; [done|unfold in_width; lia].
  - intros d r1 [Hr1 _]. by apply (has_calm cfg); [apply calm_restartHandlespace|].
Qed.

Lemma has_synchronized p id r : has cfg p id r → wlp (synchronized p) (λ _ r', inv r') r.
Proof. intros Hr. eapply wlp_mono; [apply (has_set cfg); [exact Hr|by intros []|by intros []]|]. by intros [] r1 []. Qed.

Lemma safe_tableResponse fd assocID m r : inv r → rm_SenderID m ≠ 0 → table_ok fd assocID m r →
  wlp (registrarHandleENRPHandleTableResponse cfg env fd assocID m) (λ _ r', inv r') r.
Proof.
  intros Hi Hz Hok. unfold registrarHandleENRPHandleTableResponse. destruct (_ =? cf_ServerID cfg); [by apply wlp_ret|].
  apply wlp_bind, wlp_wp, (wp_findPeer_half cfg); [done|done|intros _; by apply wlp_ret|]. intros p n Hmid Hid.
  assert (has cfg p (rm_SenderID m) r) as Hr by (split; [done|exists n; split; [apply Hmid|done]]).
  destruct (negb _); [|by eapply has_synchronized]. destruct (rm_HandlespacePtr m) as [table|] eqn:Hm; [|by eapply has_synchronized].
  apply wlp_bind. eapply wlp_mono; [by apply (has_learnElements fd assocID m table p (rm_SenderID m))|]. intros [] r1 Hr1. destruct (flag_test _ _).
  - apply wlp_bind, (has_peer cfg p (rm_SenderID m)); [done|]. intros n1 _ _. apply (safe_calm cfg); [solve_calm|apply Hr1].
  - apply wlp_bind. eapply wlp_mono; [by eapply has_synchronized|]. intros [] r2 Hi2. apply wlp_bind.
    eapply wlp_mono; [apply wlp_wp, (wp_purgeMarked cfg r2), Hi2|]. intros k r3 [Hb3 Hs3]. apply (safe_calm cfg); [|by apply (inv_hs cfg r2)].
    apply calm_bind; [apply calm_quiet, quiet_get|]. intros r4. destruct (_ && _); [apply calm_normalOperation|apply calm_quiet, quiet_ret].
Qed.

Lemma safe_tableRequest fd assocID m r : inv r → rm_SenderID m ≠ 0 →
  wlp (registrarHandleENRPHandleTableRequest cfg env fd assocID m) (λ _ r', inv r') r.
Proof.
  intros Hi Hz. unfold registrarHandleENRPHandleTableRequest. destruct (_ =? cf_ServerID cfg); [by apply wlp_ret|].
  apply wlp_bind, wlp_wp, (wp_findPeer_half cfg); [done|done| |].
  - intros _. apply (safe_calm cfg); [|done]. apply calm_quiet. solve_quiet.
  - intros p n Hmid Hid. unfold withMessage. apply wlp_quietly; [solve_quiet|]. intros [] r1 H1; [|apply wlp_ret; exact (inv_same cfg _ _ H1 Hi)].
    apply wlp_bind, (wlp_mono _ (λ _ r2, same r1 r2)); [apply quiet_bind; [apply quiet_peer|intros; apply quiet_ret]|]. intros node r2 H2.
    apply wlp_quietly; [solve_quiet|]. intros r3 r4 H4. apply wlp_quietly; [solve_quiet|]. intros memory r5 H5. cbv zeta.
    apply wlp_quietly; [solve_quiet|]. intros sent r6 H6.
    pose proof (same_trans _ _ _ H1 (same_trans _ _ _ H2 (same_trans _ _ _ H4 (same_trans _ _ _ H5 H6)))) as H16.
    eapply wlp_mono; [apply (has_set cfg p (rm_SenderID m)); [|by intros []|by intros []]|by intros [] r7 []].
    pose proof (half_same cfg _ _ _ _ H16 Hmid) as Hm6. split; [exact (inv_same cfg _ _ H16 Hi)|]. exists n. split; [apply Hm6|done].
Qed.
End tables.
