(* ===== verification/RegistrarEvents.v ===== *)
(** * The events of the registrar

    The packets and notifications of its sockets, the timers that expire,
    and the peers that are configured.  Every sequence of events keeps the
    invariant. *)

From S2P Require Import Prelude Checksum Addresses PoolBasics Storage PoolElement PoolPolicy HandlespaceState PoolNode PoolEffects PoolSelection HandlespaceNode HandlespaceInv HandlespaceOps HandlespaceEffects HandlespaceWalks HandlespaceVerify HandlespaceUpdate HandlespaceMgt HandlespaceMgtInv HandlespaceNotifications HandlespaceRegistration HandlespaceSteps HandlespaceTheorems PeerList PeerListInv PeerListOps PeerListSteps PeerListRegister PeerListTheorems HandlespacePeers Message MessageCreator MessageParser PoolUsers Registrar RegistrarSend RegistrarAsap RegistrarTakeover RegistrarEnrp RegistrarCore RegistrarQuiet RegistrarInv RegistrarSteps RegistrarPackets RegistrarAsapSteps RegistrarEnrpSteps RegistrarTakeoverSteps RegistrarEnrpHandlers.
From stdpp Require Import base list gmap numbers option sorting sets relations.
#[local] Open Scope Z_scope.

Section events.
Context {ST : Type} `{SL : StorageLaws ST} `{En : Endian}.
Context (cfg : RegistrarConfig) (env : Environment).
Abbreviation Reg := (Registrar ST).
Abbreviation Msg := (RSerPoolMessage ST).
Abbreviation inv := (registrar_inv cfg).
Implicit Types (r : Reg) (m : Msg).

(** ** Messages that a registrar can take *)

(** What the handlers of ASAP rely on. *)
Record asap_ok m r : Prop := {
  ao_registration : rm_Type m = AHT_REGISTRATION →
    (∀ pe, rm_PoolElementPtr m = Some pe → element_ok (rm_Handle m) pe) ∧ room r 1;
  ao_handle : rm_Type m ≠ AHT_REGISTRATION → handle_wf (rm_Handle m);
  ao_items : 0 <= rm_Addresses m
}.

(** What the handlers of ENRP rely on. *)
Record enrp_ok (fd assocID : Z) m r : Prop := {
  eo_presence : rm_Type m = EHT_PRESENCE → presence_ok cfg env fd assocID m r;
  eo_update : rm_Type m = EHT_HANDLE_UPDATE →
    handle_wf (rm_Handle m) ∧ (∀ pe, rm_PoolElementPtr m = Some pe → foreign_ok (rm_Handle m) pe) ∧ room r 1;
  eo_list : rm_Type m = EHT_LIST_RESPONSE → list_ok cfg env m r;
  eo_table : rm_Type m = EHT_HANDLE_TABLE_RESPONSE → table_ok cfg env fd assocID m r;
  eo_sender : rm_Type m = EHT_HANDLE_TABLE_REQUEST ∨ rm_Type m = EHT_HANDLE_TABLE_RESPONSE ∨ rm_Type m = EHT_TAKEOVER_SERVER →
    rm_SenderID m ≠ 0 ∧ is_u32 (rm_SenderID m);
  eo_target : rm_Type m = EHT_INIT_TAKEOVER ∨ rm_Type m = EHT_INIT_TAKEOVER_ACK ∨ rm_Type m = EHT_TAKEOVER_SERVER →
    rm_RegistrarIdentifier m ≠ 0
}.

Definition message_ok (sd : Z) m r : Prop :=
  if sd =? cf_ENRPMulticastInputSocket cfg then enrp_ok sd 0 m r
  else if sd =? cf_ASAPSocket cfg then asap_ok m r
  else enrp_ok sd (rm_AssocID m) m r.

Context (Hset : setting_ok cfg env) (Hown : cf_ServerID cfg ≠ 0).

Lemma safe_asap sd m r : inv r → asap_ok m r → wlp (handleASAPMessage cfg env m sd) (λ _ r', inv r') r.
Proof.
  intros Hi [Hreg Hh Ha]. unfold handleASAPMessage. cbv zeta.
  destruct (Z.eqb_spec (rm_Type m) AHT_REGISTRATION) as [Ht|Ht]; [destruct (Hreg Ht); by apply safe_registration|]. specialize (Hh Ht).
  destruct (_ =? _); [by apply safe_resolution|]. destruct (_ =? _); [by apply safe_deregistration|].
  destruct (_ =? _); [by apply safe_keepAliveAck|]. destruct (_ =? _); [by apply safe_unreachable|by apply wlp_ret].
Qed.

Lemma safe_enrp sd m r : inv r → enrp_ok sd (rm_AssocID m) m r → wlp (handleENRPMessage cfg env m sd) (λ _ r', inv r') r.
Proof.
  intros Hi [Hp Hu Hl Ht Hs Hg]. unfold handleENRPMessage. cbv zeta.
  destruct (Z.eqb_spec (rm_Type m) EHT_PRESENCE) as [He|_]; [by apply safe_presence; [|apply Hp]|].
  destruct (Z.eqb_spec (rm_Type m) EHT_HANDLE_UPDATE) as [He|_]; [destruct (Hu He) as (? & ? & ?); by apply safe_handleUpdate|].
  destruct (_ =? EHT_LIST_REQUEST); [by apply (safe_calm cfg); [apply calm_listRequest|]|].
  destruct (Z.eqb_spec (rm_Type m) EHT_LIST_RESPONSE) as [He|_]; [by apply safe_listResponse; [|apply Hl]|].
  destruct (Z.eqb_spec (rm_Type m) EHT_HANDLE_TABLE_REQUEST) as [He|_]; [by apply safe_tableRequest; [|apply Hs; left]|].
  destruct (Z.eqb_spec (rm_Type m) EHT_HANDLE_TABLE_RESPONSE) as [He|_]; [by apply safe_tableResponse; [done|apply Hs; right; left|apply Ht]|].
  destruct (Z.eqb_spec (rm_Type m) EHT_INIT_TAKEOVER) as [He|_]; [by apply safe_initTakeover; [apply Hg; left|]|].
  destruct (Z.eqb_spec (rm_Type m) EHT_INIT_TAKEOVER_ACK) as [He|_]; [by apply safe_initTakeoverAck; [done|done|apply Hg; right; left|]|].
  destruct (Z.eqb_spec (rm_Type m) EHT_TAKEOVER_SERVER) as [He|_]; [|by apply wlp_ret].
  refine (safe_takeoverServer cfg env Hset sd (rm_AssocID m) m _ _ r Hi); [apply Hg; by right; right|apply Hs; by right; right].
Qed.

Lemma safe_message sd m r : inv r → message_ok sd m r → wlp (registrarHandleMessage cfg env m sd) (λ _ r', inv r') r.
Proof.
  intros Hi Hm. unfold registrarHandleMessage, message_ok in *. destruct (sd =? cf_ENRPMulticastInputSocket cfg).
  { destruct (Z.eqb_spec (rm_Type m) EHT_PRESENCE) as [He|_]; [by apply safe_presence; [|apply Hm]|by apply wlp_ret]. }
  destruct (sd =? cf_ASAPSocket cfg); [by apply safe_asap|]. destruct (sd =? cf_ENRPUnicastSocket cfg); [by apply safe_enrp|by apply wlp_ret].
Qed.

(** ** Events *)

Inductive event :=
| SocketEvent (fd : Z) (received : Received)
| TimerEvent (t : TimerName)
| StaticPeerEvent (identifier : Z) (t : TransportAddressBlock).

Definition handleEvent (e : event) : M Reg () :=
  match e with
  | SocketEvent fd received => registrarHandleSocketEvent cfg env fd received
  | TimerEvent t => timerExpired cfg env t
  | StaticPeerEvent identifier t => _ ← registrarAddStaticPeer cfg env identifier t; mret tt
  end.

(** The message that the parser makes of the packet is one that the handlers
    can take; associations are those of a socket; a configured peer can be
    added to the list. *)
Definition event_ok (e : event) r : Prop :=
  match e with
  | SocketEvent fd (ReceivedPacket buffer received remoteAddress ppid assocID) => ∀ err m,
      rserpoolPacket2Message (env_ParserMemory env (rg_Tick r)) buffer (Some remoteAddress) assocID
        (if fd =? cf_ENRPMulticastInputSocket cfg then PPID_ENRP else ppid) received REGISTRAR_RSERPOOL_MESSAGE_BUFFER_SIZE = Some (err, Some m) →
      message_ok fd m (rg_set_Tick (S (rg_Tick r)) r)
  | SocketEvent fd (AssociationLost _) => 0 < fd
  | SocketEvent _ _ => True
  | TimerEvent _ => True
  | StaticPeerEvent identifier t => registrable (rg_Peers r) identifier PLNF_STATIC (Some t)
  end.

Lemma calm_replyError fd assocID ppid m : calm (replyError env fd assocID ppid m).
Proof. unfold replyError. solve_calm. Qed.

Lemma safe_packet fd buffer received address ppid assocID r : inv r →
  event_ok (SocketEvent fd (ReceivedPacket buffer received address ppid assocID)) r →
  wlp (handlePacket cfg env fd buffer received address ppid assocID) (λ _ r', inv r') r.
Proof.
  intros Hi Hok. unfold handlePacket. destruct (negb _); [|by apply (safe_calm cfg); [apply calm_quiet; solve_quiet|]]. cbv zeta.
  apply wlp_bind. apply (wlp_run _ (env_ParserMemory env (rg_Tick r)) (rg_set_Tick (S (rg_Tick r)) r)); [done|].
  assert (inv (rg_set_Tick (S (rg_Tick r)) r)) as Hi1 by (by apply (inv_same cfg r)).
  apply wlp_bind, wlp_deref. intros [err x] Hx. cbn [fst snd]. destruct x as [m|]; [|by apply wlp_ret].
  destruct (_ && _); [apply safe_message; [done|by apply (Hok err m)]|]. destruct (_ && _ && _ && _); [|by apply wlp_ret].
  by apply (safe_calm cfg); [apply calm_replyError|].
Qed.

Lemma safe_addStaticPeer identifier t r : inv r → registrable (rg_Peers r) identifier PLNF_STATIC (Some t) →
  wlp (registrarAddStaticPeer cfg env identifier t) (λ _ r', inv r') r.
Proof.
  intros Hi Hg. unfold registrarAddStaticPeer. apply wlp_quietly; [solve_quiet|]. intros local r1 H1.
  apply wlp_quietly; [solve_quiet|]. intros b r2 H2. pose proof (same_trans _ _ _ H1 H2) as H12.
  destruct b; [apply wlp_ret; exact (inv_same cfg _ _ H12 Hi)|]. apply wlp_quietly; [solve_quiet|]. intros now r3 H3.
  pose proof (same_trans _ _ _ H12 H3) as H13. assert (inv r3) as Hi3 by exact (inv_same cfg _ _ H13 Hi). apply wlp_bind.
  eapply wlp_mono; [apply wlp_wp, (wp_registerPeer cfg env r3); [apply Hi3|by rewrite (proj1 (proj2 (same_fields _ _ H13)))]|].
  intros res r4 (Hb & Hs & peerNode & duplicated & Hf & Hreg). apply wlp_ret. destruct (pl_step_fields _ _ Hs) as (_ & Hp & _).
  split; [done|]. rewrite Hp. eapply registration_takeovers; [apply (plm_inv_base cfg), Hi3|exact Hf|apply Hi3|exact Hreg].
Qed.

Lemma safe_timer t : safe cfg (timerExpired cfg env t).
Proof.
  unfold timerExpired. apply safe_bind; [by apply safe_calm, calm_modify|]. intros _. destruct t; simpl.
  - apply safe_elementEvent.
  - apply safe_peerEvent.
  - apply safe_calm, calm_announce.
  - apply safe_calm, calm_enrpAnnounce.
Qed.

Lemma safe_event e r : inv r → event_ok e r → wlp (handleEvent e) (λ _ r', inv r') r.
Proof.
  intros Hi Hok. destruct e as [fd received|t|identifier t]; simpl.
  - unfold registrarHandleSocketEvent. apply wlp_bind, wlp_check. intros _.
    destruct received; [by apply safe_packet|by apply safe_lost|by apply wlp_ret..].
  - by apply safe_timer.
  - apply wlp_bind. eapply wlp_mono; [by apply safe_addStaticPeer|]. intros x r1 Hi1. by apply wlp_ret.
Qed.

Lemma inv_new now : inv (registrarNew cfg now).
Proof.
  assert (∀ q, entries (plm_List (peerListManagementNew (cf_ServerID cfg)) : PeerList ST) q = None) as He.
  { intros q. unfold entries. simpl. rewrite (proj2 (st_new_ok (S := ST) (λ _, 0))). by rewrite decide_False by apply not_elem_of_nil. }
  split; [split; [split|..]|].
  - apply phm_inv_new.
  - done.
  - apply plm_inv_new.
  - intros q n Hn. simpl in Hn. by rewrite He in Hn.
  - done.
  - intros q c Hq. simpl in Hq. rewrite (proj2 (st_new_ok (S := ST) (λ _, 0))) in Hq. by apply not_elem_of_nil in Hq.
  - split; intros q; intros; simpl in *; by rewrite He in *.
Qed.

(** One event. *)
Inductive registrar_step r r' : Prop :=
| RegistrarStep e : event_ok e r → handleEvent e r = Some (tt, r') → registrar_step r r'.

Lemma inv_reachable now r : rtc registrar_step (registrarNew cfg now) r → inv r.
Proof.
  intros Hr. remember (registrarNew cfg now) as r0 eqn:Heq. assert (inv r0) as H0 by (subst; apply inv_new). clear Heq.
  induction Hr as [|r1 r2 r3 [e He Hrun] _ IH]; [done|]. apply IH. by apply (safe_event e r1 H0 He tt r2).
Qed.
End events.
