(* ===== verification/RegistrarDemo.v ===== *)
(** * Concrete runs of the registrar

    An executable check of what the handlers rely on, for the messages of
    the runs below, and the run in which a registrar notices that a peer is
    dead and starts to take over its pool elements. *)

From S2P Require Import Prelude Checksum Addresses PoolBasics Storage PoolElement PoolPolicy HandlespaceState PoolNode PoolEffects PoolSelection HandlespaceNode HandlespaceInv HandlespaceOps HandlespaceMgt HandlespaceMgtInv HandlespaceRegistration HandlespaceSteps HandlespaceTheorems PeerList PeerListInv PeerListOps PeerListSteps PeerListRegister PeerListTheorems HandlespacePeers Message MessageCreator MessageParser PoolUsers Registrar RegistrarSend RegistrarAsap RegistrarTakeover RegistrarEnrp RegistrarCore RegistrarQuiet RegistrarInv RegistrarSteps RegistrarPackets RegistrarAsapSteps RegistrarEnrpSteps RegistrarTakeoverSteps RegistrarEnrpHandlers RegistrarEvents.
From stdpp Require Import base list gmap numbers option sorting sets relations.
#[local] Open Scope Z_scope.

Section check.
Context {ST : Type} `{SL : StorageLaws ST} `{En : Endian}.
Context (cfg : RegistrarConfig) (env : Environment).
Abbreviation Reg := (Registrar ST).
Abbreviation Msg := (RSerPoolMessage ST).
Implicit Types (r : Reg) (m : Msg).

(** No static entries. *)
Definition all_dynamic (pl : PeerListManagement ST) : bool :=
  forallb (λ x, dynamic x.2) (map_to_list (pl_PeerListNodes (plm_List pl))).

Lemma all_dynamic_entries pl q n : all_dynamic pl = true → entries (plm_List pl) q = Some n → dynamic n = true.
Proof.
  intros Ha [_ Hn]%entries_Some. unfold all_dynamic in Ha. rewrite forallb_forall in Ha. apply (Ha (q, n)).
  by apply list_elem_of_In, elem_of_map_to_list.
Qed.

Lemma registrable_dynamic pl id flags t : all_dynamic pl = true → flag_test flags PLNF_DYNAMIC = true → PeerListInv.block_ok t → registrable pl id flags t.
Proof.
  intros Ha Hf Ht. split; [done| |].
  - intros p n _ _ _ _ Hn Hd. rewrite (all_dynamic_entries _ _ _ Ha Hn) in Hd. done.
  - intros p n Hs. congruence.
Qed.

Definition presence_check (fd assocID : Z) m r : bool :=
  match rm_PeerListNodePtr m with Some info => pln_Identifier info =? rm_SenderID m | None => true end &&
  match presenceAddresses cfg env fd assocID m r with
  | Some (Some t, _) => bool_decide (PeerListInv.block_ok (Some t)) && all_dynamic (rg_Peers r)
  | _ => true
  end.

Definition foreign_check (handle : PoolHandle) (pe : PoolElementNode) : bool :=
  bool_decide (is_u32 (pen_Identifier pe) ∧ pps_wf (pen_PolicySettings pe) ∧ is_u32 (pen_HomeRegistrarIdentifier pe)).

Definition update_check m r : bool :=
  bool_decide (handle_wf (rm_Handle m)) && match rm_PoolElementPtr m with Some pe => foreign_check (rm_Handle m) pe | None => true end &&
  (hs_PoolElements (hs r) + 1 <? 2 ^ 31).

(** Messages about presences, handle updates and takeovers. *)
Definition enrp_check (fd assocID : Z) m r : bool :=
  if rm_Type m =? EHT_PRESENCE then presence_check fd assocID m r
  else if rm_Type m =? EHT_HANDLE_UPDATE then update_check m r
  else ((rm_Type m =? EHT_INIT_TAKEOVER) || (rm_Type m =? EHT_INIT_TAKEOVER_ACK) || (rm_Type m =? EHT_TAKEOVER_SERVER)) &&
       negb (rm_RegistrarIdentifier m =? 0) && negb (rm_SenderID m =? 0) && bool_decide (is_u32 (rm_SenderID m)).

Lemma presence_check_ok fd assocID m r : presence_check fd assocID m r = true → presence_ok cfg env fd assocID m r.
Proof.
  intros [Hi Ha]%andb_true_iff. split.
  - intros info Hm. rewrite Hm in Hi. by apply Z.eqb_eq.
  - intros t r' Ht. rewrite Ht in Ha. apply andb_true_iff in Ha as [Hb%bool_decide_eq_true Hd]. by apply registrable_dynamic.
Qed.

Lemma update_check_ok m r : update_check m r = true →
  handle_wf (rm_Handle m) ∧ (∀ pe, rm_PoolElementPtr m = Some pe → foreign_ok (rm_Handle m) pe) ∧ room r 1.
Proof.
  intros [[Hh%bool_decide_eq_true Hp]%andb_true_iff Hr%Z.ltb_lt]%andb_true_iff. split; [done|]. split; [|done].
  intros pe Hpe. rewrite Hpe in Hp. apply bool_decide_eq_true in Hp as (? & ? & ?). by split.
Qed.

Lemma enrp_check_ok fd assocID m r : enrp_check fd assocID m r = true → enrp_ok cfg env fd assocID m r.
Proof.
  intros Hc. unfold enrp_check in Hc. destruct (Z.eqb_spec (rm_Type m) EHT_PRESENCE) as [Ht|Ht].
  { apply presence_check_ok in Hc. split; rewrite Ht; try done; by intros [|[|]]. }
  destruct (Z.eqb_spec (rm_Type m) EHT_HANDLE_UPDATE) as [Ht'|Ht'].
  { apply update_check_ok in Hc. split; rewrite Ht'; try done; by intros [|[|]]. }
  apply andb_true_iff in Hc as [[[Hc Htg]%andb_true_iff Hs]%andb_true_iff Hu%bool_decide_eq_true].
  apply negb_true_iff, Z.eqb_neq in Htg, Hs. rewrite !orb_true_iff, !Z.eqb_eq in Hc.
  split; try done; by (intros He; rewrite He in Hc; destruct Hc as [[|]|]).
Qed.

(** ** Runs *)

(** Messages on the ENRP socket, timers that expire, and time that passes. *)
Inductive action := Message (m : Msg) | Expire (t : TimerName) | Pass (tick : nat).

Definition act (a : action) : M Reg () :=
  match a with
  | Message m => handleENRPMessage cfg env m (cf_ENRPUnicastSocket cfg)
  | Expire t => timerExpired cfg env t
  | Pass tick => modify (rg_set_Tick tick)
  end.

Definition action_check (a : action) r : bool :=
  match a with Message m => enrp_check (cf_ENRPUnicastSocket cfg) (rm_AssocID m) m r | _ => true end.

(** The state after the actions; [None] if an action must not happen or
    does not come to its end. *)
Fixpoint run (l : list action) r : option Reg :=
  match l with
  | [] => Some r
  | a :: l' => if action_check a r then match act a r with Some (_, r') => run l' r' | None => None end else None
  end.

Lemma run_inv l : setting_ok cfg env → cf_ServerID cfg ≠ 0 → ∀ r r', registrar_inv cfg r → run l r = Some r' → registrar_inv cfg r'.
Proof.
  intros Hset Hown. induction l as [|a l IH]; intros r r' Hi Hr; simpl in Hr; [by injection Hr as <-|].
  destruct (action_check a r) eqn:Hc; [|done]. destruct (act a r) as [[[] r1]|] eqn:Ha; [|done]. apply (IH r1); [|done].
  destruct a as [m|t|tick]; simpl in *.
  - by apply (safe_enrp cfg env Hset Hown (cf_ENRPUnicastSocket cfg) m r Hi (enrp_check_ok _ _ _ _ Hc) tt).
  - by apply (safe_timer cfg env t r Hi tt).
  - injection Ha as <-. by apply (inv_same cfg r).
Qed.

(** ** Sequences of events *)

Definition packet_check (fd : Z) (received : Received) r : bool :=
  match received with
  | ReceivedPacket buffer received remoteAddress ppid assocID =>
      (fd =? cf_ENRPUnicastSocket cfg) && negb (fd =? cf_ENRPMulticastInputSocket cfg) && negb (fd =? cf_ASAPSocket cfg) &&
      match rserpoolPacket2Message (ST := ST) (env_ParserMemory env (rg_Tick r)) buffer (Some remoteAddress) assocID ppid received
              REGISTRAR_RSERPOOL_MESSAGE_BUFFER_SIZE with
      | Some (_, Some m) => enrp_check fd (rm_AssocID m) m (rg_set_Tick (S (rg_Tick r)) r)
      | _ => true
      end
  | AssociationLost _ => 0 <? fd
  | _ => true
  end.

Definition event_check (e : event) r : bool :=
  match e with
  | SocketEvent fd received => packet_check fd received r
  | TimerEvent _ => true
  | StaticPeerEvent _ t => bool_decide (PeerListInv.block_ok (Some t)) && bool_decide (pl_PeerListNodes (peers r) = ∅)
  end.

Lemma packet_check_ok fd received r : packet_check fd received r = true → event_ok cfg env (SocketEvent fd received) r.
Proof.
  destruct received as [buffer received address ppid assocID|assocID| |]; simpl; [|by intros ?%Z.ltb_lt|done..].
  intros [[[_ Hm%negb_true_iff]%andb_true_iff Ha%negb_true_iff]%andb_true_iff Hc]%andb_true_iff err m Hp.
  rewrite Hm in Hp. rewrite Hp in Hc. unfold message_ok. rewrite Hm, Ha. by apply enrp_check_ok.
Qed.

Lemma event_check_ok e r : event_check e r = true → event_ok cfg env e r.
Proof.
  destruct e as [fd received|t|identifier t]; [apply packet_check_ok|done|].
  intros [Hb%bool_decide_eq_true He%bool_decide_eq_true]%andb_true_iff.
  assert (∀ p n, entries (peers r) p = Some n → False) as Hno by (intros p n [_ Hn]%entries_Some; by rewrite He in Hn).
  split; [done| |]; [intros p n _ _ _ _ Hn|intros p n _ Hn]; by apply Hno in Hn.
Qed.

Fixpoint events (l : list event) r : option Reg :=
  match l with
  | [] => Some r
  | e :: l' => if event_check e r then match handleEvent cfg env e r with Some (_, r') => events l' r' | None => None end else None
  end.

Lemma events_steps l : ∀ r r', events l r = Some r' → rtc (registrar_step cfg env) r r'.
Proof.
  induction l as [|e l IH]; intros r r' Hr; simpl in Hr; [by injection Hr as <-|].
  destruct (event_check e r) eqn:Hc; [|done]. destruct (handleEvent cfg env e r) as [[[] r1]|] eqn:He; [|done].
  eapply rtc_l; [|exact (IH r1 r' Hr)]. apply (RegistrarStep cfg env r r1 e); [by apply event_check_ok|done].
Qed.
End check.
Arguments action : clear implicits.

(** ** A registrar that takes over a peer *)

Module Takeover.
Import HandlespaceTheorems.Demo.

Definition addr (x port : Z) : sockaddr_union := sockaddr_in [10; 0; 0; x] port.
Definition cfg (id : Z) : RegistrarConfig := registrarConfig id 3 4 7 8 9 false (addr 255 3863) false (addr 254 9901) 0.
Definition env : Environment := MkEnvironment (λ t, 100000 * Z.of_nat t) (λ _, true) (λ _, true) (λ _ _, 0) (λ _, 0)
  (λ _ _ a, [addr a (if a <? 10 then 9901 else 3000)]) (λ _ _ _, [addr 5 9901]) (λ _ _ _, None) (λ _, []).

Definition block (x port : Z) : TransportAddressBlock := MkTAB IPPROTO_SCTP port 0 [addr x port].
Definition element_of (home id : Z) : PoolElementNode :=
  poolElementNodeNew id home 30000 demo_settings (block id 3000) (Some (block id 3000)) (-1) 0.
Definition from (id type : Z) : RSerPoolMessage storage := rm_set_Type type (rm_set_AssocID id (rm_set_SenderID id (rserpoolMessageNew [] 0))).
Definition presence (id : Z) : RSerPoolMessage storage :=
  rm_set_PeerListNodePtr (Some (peerListNodeNew id PLNF_DYNAMIC (Some (block id 9901)))) (from id EHT_PRESENCE).
Definition update (home id : Z) : RSerPoolMessage storage :=
  rm_set_Action PNUP_ADD_PE (rm_set_Handle demo_handle (rm_set_PoolElementPtr (Some (element_of home id)) (from home EHT_HANDLE_UPDATE))).
Definition about (target : Z) (m : RSerPoolMessage storage) : RSerPoolMessage storage := rm_set_RegistrarIdentifier target m.

(** The peers 2 and 3 announce themselves, 2 with two pool elements; then
    only 3 is heard of. *)
Definition silence : list (action storage) :=
  [Message (presence 2); Message (presence 3); Message (update 2 22); Message (update 2 23); Pass 150; Message (presence 3);
   Expire PeerActionTimer; Pass 220; Message (presence 3); Expire PeerActionTimer].

(** Only peer 2 announces itself, with one pool element. *)
Definition alone : list (action storage) :=
  [Message (presence 2); Message (update 2 22); Pass 150; Expire PeerActionTimer; Pass 220; Expire PeerActionTimer].

Definition start (id : Z) : Registrar storage := registrarNew (cfg id) 0.
Definition result (id : Z) (l : list (action storage)) : Registrar storage := default (start id) (run (cfg id) env l (start id)).
Definition waiting (id : Z) : Registrar storage := result id silence.

Lemma cfg_ServerID id : id ≠ 0 → cf_ServerID (cfg id) = id.
Proof. intros Hz. simpl. by rewrite (proj2 (Z.eqb_neq _ _) Hz). Qed.

Lemma setting id : is_u32 id → id ≠ 0 → setting_ok (cfg id) env.
Proof. intros Hid Hz. split; [by rewrite cfg_ServerID|by apply Z.leb_le|by apply Z.leb_le|done]. Qed.

Lemma result_inv id l : is_u32 id → id ≠ 0 → registrar_inv (cfg id) (result id l).
Proof.
  intros Hu Hz. unfold result. pose proof (inv_new (ST := storage) (cfg id) 0) as Hi. destruct (run (cfg id) env l (start id)) as [r|] eqn:Hr; [|exact Hi].
  refine (run_inv (cfg id) env l (setting id Hu Hz) _ _ _ Hi Hr). by rewrite cfg_ServerID.
Qed.

(** The peers, with the outstanding acknowledgements of their takeovers. *)
Definition overview (r : Registrar storage) : list (Z * option (option (list Z))) :=
  (λ p, match pl_PeerListNodes (peers r) !! p with
        | Some n => (pln_Identifier n, (λ t, tp_PeerIDArray <$> rg_TakeoverProcesses r !! t) <$> pln_TakeoverProcess n)
        | None => (0, None) end) <$> st_list (pl_PeerListIndexStorage (peers r)).
(** All elements can be contacted. *)
Definition all_contactable (r : Registrar storage) : bool :=
  forallb (λ x, bool_decide (pen_RegistratorTransport x.2 ≠ None)) (map_to_list (els r)).
(** The elements with their homes. *)
Definition homes (r : Registrar storage) : list (Z * Z) :=
  (λ x, (pen_Identifier x.2, pen_HomeRegistrarIdentifier x.2)) <$> map_to_list (els r).
Definition summary (r : Registrar storage) := (overview r, homes r, all_contactable r).

Lemma summary_parts r x y z : summary r = (x, y, z) → overview r = x ∧ homes r = y ∧ all_contactable r = z.
Proof. unfold summary. intros H. by injection H as -> -> ->. Qed.

Lemma overview_entry r id ids : (id, Some (Some ids)) ∈ overview r → ∃ p n t,
  entry (peers r) id p n ∧ pln_TakeoverProcess n = Some t ∧ rg_TakeoverProcesses r !! t = Some (MkTakeoverProcess ids).
Proof.
  intros (p & Heq & Hp)%list_elem_of_fmap. destruct (pl_PeerListNodes (peers r) !! p) as [n|] eqn:Hn; [|done].
  destruct (pln_TakeoverProcess n) as [t|] eqn:Ht; [|done]. simpl in Heq. injection Heq as -> Heq.
  destruct (rg_TakeoverProcesses r !! t) as [[l]|] eqn:Hl; [|done]. simpl in Heq. injection Heq as ->. exists p, n, t. by split_and!.
Qed.

Lemma all_contactable_spec r q n : all_contactable r = true → els r !! q = Some n → contactable n.
Proof.
  intros Ha Hn. right. unfold all_contactable in Ha. rewrite forallb_forall in Ha. apply (bool_decide_unpack _), Is_true_true, (Ha (q, n)).
  by apply list_elem_of_In, elem_of_map_to_list.
Qed.

(** The registrars 5 and 7 both wait for the acknowledgement of 3. *)
Lemma waiting_5 : summary (waiting 5) = ([(2, Some (Some [3])); (3, None)], [(23, 2); (22, 2)], true).
Proof. vm_compute. reflexivity. Qed.

Lemma waiting_7 : summary (waiting 7) = ([(2, Some (Some [3])); (3, None)], [(23, 2); (22, 2)], true).
Proof. vm_compute. reflexivity. Qed.

(** ** Packets *)

(** The bytes of a message. *)
Definition bytes (m : RSerPoolMessage storage) : list Z :=
  match rserpoolMessage2Packet (rm_set_Packet (MkPacketBuffer (replicate 4096 0) 4096 4096 0) m) with
  | Some (len, m') => take (Z.to_nat len) (Buffer m')
  | None => []
  end.
Definition presence_bytes : list Z := Eval vm_compute in bytes (presence 2).
Definition update_bytes : list Z := Eval vm_compute in bytes (update 2 22).

(** Peer 2 announces itself and one pool element, its association is lost,
    and the timers of peers and elements expire. *)
Definition arrivals : list event :=
  [SocketEvent 7 (ReceivedPacket presence_bytes (Z.of_nat (length presence_bytes)) (addr 2 9901) PPID_ENRP 2);
   SocketEvent 7 (ReceivedPacket update_bytes (Z.of_nat (length update_bytes)) (addr 2 9901) PPID_ENRP 2);
   SocketEvent 7 (AssociationLost 2); TimerEvent PeerActionTimer; TimerEvent HandlespaceActionTimer].
Definition arrived : Registrar storage := default (start 5) (events (cfg 5) env arrivals (start 5)).

Lemma arrivals_run : bool_decide (is_Some (events (cfg 5) env arrivals (start 5))) = true ∧ summary arrived = ([(2, None)], [(22, 2)], true).
Proof. vm_compute. split; reflexivity. Qed.

Lemma arrivals_steps : rtc (registrar_step (cfg 5) env) (start 5) arrived.
Proof.
  destruct arrivals_run as [[r Hr]%bool_decide_eq_true _]. apply (events_steps (cfg 5) env arrivals). unfold arrived. by rewrite Hr.
Qed.
End Takeover.
