(* ===== verification/RegistrarTheorems.v ===== *)
(** * What holds of the registrar

    Every sequence of events keeps the invariant; the takeover handlers are
    described completely; concrete runs show that the hypotheses can hold
    and what happens in the cases where the code goes wrong. *)

From S2P Require Import Prelude Checksum Addresses PoolBasics Storage PoolElement PoolPolicy HandlespaceState PoolNode PoolEffects PoolSelection HandlespaceNode HandlespaceInv HandlespaceOps HandlespaceEffects HandlespaceWalks HandlespaceVerify HandlespaceUpdate HandlespaceMgt HandlespaceMgtInv HandlespaceNotifications HandlespaceRegistration HandlespaceSteps HandlespaceTheorems PeerList PeerListInv PeerListOps PeerListSteps PeerListRegister PeerListTheorems HandlespacePeers Message MessageCreator MessageParser PoolUsers Registrar RegistrarSend RegistrarAsap RegistrarTakeover RegistrarEnrp RegistrarCore RegistrarQuiet RegistrarInv RegistrarSteps RegistrarPackets RegistrarAsapSteps RegistrarEnrpSteps RegistrarTakeoverSteps RegistrarEnrpHandlers RegistrarEvents RegistrarDemo.
From stdpp Require Import base list gmap numbers option sorting sets relations.
#[local] Open Scope Z_scope.

(** ** Takeover processes *)

Lemma removeAcknowledger_filter a l : NoDup l → removeAcknowledger a l = filter (λ id, id ≠ a) l.
Proof.
  induction l as [|x l IH]; [done|]. intros [Hx Hnd]%NoDup_cons. simpl. destruct (Z.eqb_spec x a) as [->|Hne].
  - rewrite filter_cons_False by auto. symmetry. apply filter_all, Forall_forall. intros y Hy ->. done.
  - rewrite filter_cons_True by done. by rewrite IH.
Qed.

(** All acknowledgements, one after the other. *)
Definition acknowledgeAll (t : TakeoverProcess) (target : Z) (acks : list Z) : TakeoverProcess :=
  foldl (λ t a, (takeoverProcessAcknowledge t target a).2) t acks.

Lemma acknowledgeAll_filter target acks : ∀ t, NoDup (tp_PeerIDArray t) →
  tp_PeerIDArray (acknowledgeAll t target acks) = filter (λ id, id ∉ acks) (tp_PeerIDArray t).
Proof.
  induction acks as [|a acks IH]; intros t Hnd; simpl.
  - symmetry. apply filter_all, Forall_forall. intros x _. apply not_elem_of_nil.
  - change (foldl _ ?t' acks) with (acknowledgeAll t' target acks). rewrite IH; simpl; rewrite removeAcknowledger_filter by done; [|by apply NoDup_filter].
    rewrite list_filter_filter. apply list_filter_iff. intros x. rewrite not_elem_of_cons. tauto.
Qed.

Section processes.
Context {ST : Type} `{SL : StorageLaws ST} `{En : Endian}.
Context (cfg : RegistrarConfig) (env : Environment).
Abbreviation Reg := (Registrar ST).
Implicit Types (r : Reg).

(** The peers that have to acknowledge the takeover of [target]. *)
Definition acknowledgers (target : Z) r (ids : list Z) : Prop :=
  NoDup ids ∧ ∀ id, id ∈ ids ↔ id ≠ target ∧ id ≠ 0 ∧ ∃ q n, entry (peers r) id q n.

Lemma acknowledgers_step r target l1 p n l ids : base_inv cfg r → cf_ServerID cfg ≠ 0 → st_list (pl_PeerListIndexStorage (peers r)) = l1 ++ p :: l →
  entries (peers r) p = Some n → NoDup ids →
  (∀ id, id ∈ ids ↔ id ≠ target ∧ id ≠ 0 ∧ ∃ q n, q ∈ l1 ∧ entry (peers r) id q n) →
  let ids' := if negb (pln_Identifier n =? target) && negb (pln_Identifier n =? cf_ServerID cfg) && negb (pln_Identifier n =? 0)
              then ids ++ [pln_Identifier n] else ids in
  NoDup ids' ∧ (∀ id, id ∈ ids' ↔ id ≠ target ∧ id ≠ 0 ∧ ∃ q n, q ∈ l1 ++ [p] ∧ entry (peers r) id q n).
Proof.
  intros Hb Hown Hl Hn Hnd Hids. cbv zeta. destruct (plm_inv_base cfg r Hb) as [Hpl _]. pose proof (entry_not_own cfg r p n Hb Hown Hn) as Hno.
  assert (entry (peers r) (pln_Identifier n) p n) as Hen by (by apply entry_entries).
  assert (∀ id, (∃ q x, q ∈ l1 ++ [p] ∧ entry (peers r) id q x) ↔ id = pln_Identifier n ∨ ∃ q x, q ∈ l1 ∧ entry (peers r) id q x) as Hsplit.
  { intros id. split.
    - intros (q & x & Hq & Hx). apply elem_of_app in Hq as [Hq|Hq]; [right; eauto|]. apply list_elem_of_singleton in Hq as ->. left.
      destruct Hx as (_ & Hx & <-), Hen as (_ & Hy & _). congruence.
    - intros [->|(q & x & Hq & Hx)]; [exists p, n; split; [set_solver|done]|exists q, x; split; [set_solver|done]]. }
  rewrite (proj2 (Z.eqb_neq _ _) Hno). simpl. destruct (Z.eqb_spec (pln_Identifier n) target) as [He|He]; simpl.
  { split; [done|]. intros id. rewrite Hsplit, Hids. naive_solver. }
  destruct (Z.eqb_spec (pln_Identifier n) 0) as [Hz|Hz]; simpl.
  { split; [done|]. intros id. rewrite Hsplit, Hids. naive_solver. }
  split.
  - apply NoDup_app. split; [done|]. split; [|apply NoDup_singleton]. intros id Hid ->%list_elem_of_singleton.
    apply Hids in Hid as (_ & _ & q & x & Hq & Hx). assert (q = p) as -> by (by eapply entry_inj).
    pose proof (peer_slot_nodup _ _ _ (pv_index _ _ Hpl)) as Hd. change (plm_List (rg_Peers r)) with (peers r) in Hd. rewrite Hl in Hd.
    apply NoDup_app in Hd as (_ & Hd & _). apply (Hd p Hq). left.
  - intros id. rewrite elem_of_app, list_elem_of_singleton, Hsplit, Hids. naive_solver.
Qed.

Lemma wp_takeoverProcessNew target r : base_inv cfg r → cf_ServerID cfg ≠ 0 → target ≠ 0 → target ≠ cf_ServerID cfg →
  wp (takeoverProcessNew env target) (λ x r', match x with
    | Some t => rg_TakeoverProcesses r !! t = None ∧ rg_Peers r' = rg_Peers r ∧ rg_Handlespace r' = rg_Handlespace r ∧
        ∃ ids, rg_TakeoverProcesses r' = <[t := MkTakeoverProcess ids]> (rg_TakeoverProcesses r) ∧ acknowledgers target r ids
    | None => same r r' end) r.
Proof.
  intros Hb Hown Hz Hne. unfold takeoverProcessNew. apply wp_bind, wp_check; [by apply negb_true_iff, Z.eqb_neq|].
  apply wp_bind. exists (cf_ServerID cfg), r. split.
  { unfold onPl. erewrite onList_same; [|reflexivity]. pose proof (bi_own _ _ Hb) as Ho. unfold peers in Ho. by rewrite Ho, same_both. }
  apply wp_bind, wp_check; [by apply negb_true_iff, Z.eqb_neq|]. unfold mallocResult. apply wp_bind, wp_observe.
  destruct (env_Malloc env (rg_Tick r)); [|by apply wp_ret]. set (r1 := rg_set_Tick _ r). assert (same r r1) as H1 by done.
  assert (base_inv cfg r1) as Hb1 by exact (base_same cfg _ _ H1 Hb). apply wp_bind.
  eapply wp_mono; [apply (peers_walk cfg r1 _ (λ l ids _, NoDup ids ∧ ∀ id, id ∈ ids ↔ id ≠ target ∧ id ≠ 0 ∧ ∃ q n, q ∈ l ∧ entry (peers r1) id q n)); [done| |]|].
  - intros l1 p n l2 ids r2 Hl Hn _ [Hnd Hids]. apply wp_ret. split; [done|]. by apply (acknowledgers_step r1 target l1 p n l2).
  - split; [apply NoDup_nil_2|]. intros id. split; [by intros ?%elem_of_nil|]. intros (_ & _ & q & n & Hq & _). by apply elem_of_nil in Hq.
  - intros ids r2 [H2 [Hnd Hids]]. pose proof (same_trans _ _ _ H1 H2) as H12. destruct (same_fields _ _ H12) as (Hh & Hp & Ht & _).
    apply wp_bind, wp_get. unfold takeover_store. apply wp_bind, wp_modify, wp_ret. rewrite Ht. split; [apply not_elem_of_dom, is_fresh|].
    split; [done|]. split; [done|]. exists ids. split; [done|]. split; [done|]. intros id. rewrite Hids.
    assert ((∃ q n, q ∈ st_list (pl_PeerListIndexStorage (peers r1)) ∧ entry (peers r1) id q n) ↔ ∃ q n, entry (peers r) id q n) as ->; [|done].
    split; [intros (q & n & _ & ?); eauto|]. intros (q & n & Hen). exists q, n. split; [apply Hen|done].
Qed.

(** A peer has one entry. *)
Lemma entry_node r id p n : registrar_inv cfg r → id ≠ 0 → entry (peers r) id p n → ∀ q x, entry (peers r) id q x → x = n.
Proof.
  intros Hi Hz Hp q x Hq. destruct (plm_inv_base cfg r (ri_base _ _ Hi)) as [Hpl _].
  assert (q = p) as -> by exact (entry_inj _ _ id _ _ _ _ Hpl Hz Hq Hp). destruct Hq as (_ & ? & _), Hp as (_ & ? & _). congruence.
Qed.

(** The last outstanding acknowledgement completes the takeover. *)
Lemma acknowledged_last r r' target sender p n t : registrar_inv cfg r → target ≠ 0 → entry (peers r) target p n →
  pln_TakeoverProcess n = Some t → rg_TakeoverProcesses r !! t = Some (MkTakeoverProcess [sender]) →
  acknowledged cfg target sender r r' → taken_over cfg target r r' ∧ no_entry (peers r') target.
Proof.
  intros Hi Hz Hp Ht Hv Hack. pose proof (entry_node r target p n Hi Hz Hp) as Hu.
  destruct Hack as [_ Hno|p2 n2 _ H2 Hnone|p2 n2 t2 v2 H2 Ht2 Hv2 Hne _|p2 n2 t2 v2 H2 Ht2 Hv2 _ Hto _ _ Hno]; [by apply Hno in Hp| | |done].
  - rewrite (Hu _ _ H2) in Hnone. congruence.
  - rewrite (Hu _ _ H2) in Ht2. assert (t2 = t) as -> by congruence. assert (v2 = MkTakeoverProcess [sender]) as -> by congruence.
    simpl in Hne. by rewrite Z.eqb_refl in Hne.
Qed.
End processes.

(** ** Properties *)

Section properties.
Context {ST : Type} `{SL : StorageLaws ST} `{En : Endian}.
Context (cfg : RegistrarConfig) (env : Environment).
Abbreviation Reg := (Registrar ST).
Abbreviation Msg := (RSerPoolMessage ST).
Abbreviation inv := (registrar_inv cfg).
Implicit Types (r : Reg) (m : Msg).

(** C1: Whatever packets and notifications arrive, whichever timers expire
    and whichever peers are configured, as long as the messages are ones the
    handlers can take: the registrar's handlespace passes its verification,
    every peer's entry has the ownership checksum of the elements of this
    peer in the handlespace, no entry is the registrar itself, an element's
    running timer has one of the three codes of elements, and a peer has a
    takeover process exactly while its takeover timer is running. *)
Theorem registrar_reachable now r : setting_ok cfg env → cf_ServerID cfg ≠ 0 → rtc (registrar_step cfg env) (registrarNew cfg now) r →
  poolHandlespaceNodeVerify (hs r) = Some (tt, hs r) ∧
  (∀ q n, entries (peers r) q = Some n → pln_Identifier n ≠ UNDEFINED_REGISTRAR_IDENTIFIER →
    pln_OwnershipChecksum n = owner_checksum (hs r) (pln_Identifier n) ∧ pln_Identifier n ≠ cf_ServerID cfg) ∧
  (∀ p n, p ∈ etimers r → els r !! p = Some n → element_code (pen_TimerCode n)) ∧
  (∀ q n, entries (peers r) q = Some n → is_Some (pln_TakeoverProcess n) ↔
    q ∈ st_list (pl_PeerListTimerStorage (peers r)) ∧ pln_TimerCode n = PLNT_TAKEOVER_EXPIRY).
Proof.
  intros Hset Hown Hr. pose proof (inv_reachable cfg env Hset Hown now r Hr) as Hi. pose proof (ri_base _ _ Hi) as Hb.
  pose proof (hs_inv_base cfg r Hb) as Hinv. split; [|split; [|split]].
  - by apply verify_run.
  - intros q n Hn Hz. split; [|by apply (entry_not_own cfg r q)]. rewrite owner_checksum_sum by done. by apply (agree_base cfg r Hb q n).
  - intros p n Hp Hn. apply (bi_codes _ _ Hb p); [done|]. unfold code_at. unfold els, hs in Hn. by rewrite Hn.
  - intros q n Hn. pose proof (tk_entry _ _ (ri_takeovers _ _ Hi) q n Hn) as Ht. unfold takeover_entry in Ht.
    destruct (pln_TakeoverProcess n) as [t|]; split; [intros _; apply Ht|by eexists|by intros [? ?]|].
    intros [Hq Hc]. destruct (Ht Hq) as [Hc'|Hc']; by rewrite Hc in Hc'.
Qed.

(** C2: An acknowledgement of a takeover.  It is ignored if the peer is not
    known or is not being taken over; otherwise the acknowledger is crossed
    off, and when nobody is left, all elements of the target and only these
    get this registrar as their home, with a running keep-alive timeout, the
    process is deleted and the target leaves the peer list.  The handler
    always comes to its end, provided that the elements of the target have a
    connection or addresses to which the keep-alives can be sent. *)
Theorem takeover_acknowledged fd assocID m r : setting_ok cfg env → cf_ServerID cfg ≠ 0 → inv r →
  rm_RegistrarIdentifier m ≠ 0 → rm_SenderID m ≠ cf_ServerID cfg →
  (∀ q n, owned_by (rm_RegistrarIdentifier m) (hs r) q → els r !! q = Some n → contactable n) → ∃ r',
  registrarHandleENRPInitTakeoverAck cfg env fd assocID m r = Some (tt, r') ∧ inv r' ∧
  acknowledged cfg (rm_RegistrarIdentifier m) (rm_SenderID m) r r'.
Proof.
  intros Hset Hown Hi Ht Hs Hc. destruct (wpb_initTakeoverAck cfg env Hset true fd assocID m r Hi Hown Ht Hs (λ _, Hc)) as ([] & r' & Hrun & Hres). eauto.
Qed.


(** C5: The announcement that a takeover is done: all elements of the target
    and only these get the sender as their home, and no timer changes. *)
Theorem takeover_announced fd assocID m r : setting_ok cfg env → inv r → rm_RegistrarIdentifier m ≠ 0 → is_u32 (rm_SenderID m) →
  rm_SenderID m ≠ cf_ServerID cfg → rm_RegistrarIdentifier m ≠ rm_SenderID m → ∃ r',
  registrarHandleENRPTakeoverServer cfg fd assocID m r = Some (tt, r') ∧ inv r' ∧
  handed_over (rm_RegistrarIdentifier m) (rm_SenderID m) r r' ∧ etimers r' = etimers r.
Proof.
  intros Hset Hi Ht Hu Hs Hne. destruct (wp_takeoverServer cfg env Hset fd assocID m r Hi Ht Hu Hs Hne) as ([] & r' & Hrun & Hi' & Hh & He & _). eauto 6.
Qed.

(** A takeover starts with the identifiers of all peers but the target
    and those whose identifier is not known yet, each exactly once; without
    memory nothing happens. *)
Theorem takeover_started target r : inv r → cf_ServerID cfg ≠ 0 → target ≠ 0 → target ≠ cf_ServerID cfg → ∃ x r',
  takeoverProcessNew env target r = Some (x, r') ∧
  match x with
  | Some t => rg_TakeoverProcesses r !! t = None ∧ rg_Peers r' = rg_Peers r ∧ rg_Handlespace r' = rg_Handlespace r ∧
      ∃ ids, rg_TakeoverProcesses r' = <[t := MkTakeoverProcess ids]> (rg_TakeoverProcesses r) ∧ acknowledgers target r ids
  | None => same r r'
  end.
Proof. intros Hi Hown Hz Hne. exact (wp_takeoverProcessNew cfg env target r (ri_base _ _ Hi) Hown Hz Hne). Qed.
End properties.

Import HandlespaceTheorems.Demo RegistrarDemo.Takeover.
#[local] Opaque waiting arrived.

Lemma registrar_reachable_witness :
  rtc (registrar_step (cfg 5) env) (start 5) arrived ∧ summary arrived = ([(2, None)], [(22, 2)], true) ∧
  poolHandlespaceNodeVerify (hs arrived) = Some (tt, hs arrived) ∧
  (∀ q n, entries (peers arrived) q = Some n → pln_Identifier n ≠ 0 → pln_OwnershipChecksum n = owner_checksum (hs arrived) (pln_Identifier n)).
Proof.
  split; [exact arrivals_steps|]. split; [exact (proj2 arrivals_run)|].
  destruct (registrar_reachable (cfg 5) env 0 arrived (setting 5 ltac:(clear; done) ltac:(clear; done)) ltac:(clear; done) arrivals_steps) as (H1 & H2 & _).
  split; [exact H1|]. intros q n Hn Hz. exact (proj1 (H2 q n Hn Hz)).
Defined.

Lemma takeover_acknowledged_witness : ∃ r',
  registrarHandleENRPInitTakeoverAck (cfg 5) env 7 3 (about 2 (from 3 EHT_INIT_TAKEOVER_ACK)) (waiting 5) = Some (tt, r') ∧
  registrar_inv (cfg 5) r' ∧ taken_over (cfg 5) 2 (waiting 5) r' ∧ no_entry (peers r') 2.
Proof.
  destruct (summary_parts _ _ _ _ waiting_5) as (Ho & _ & Hc). destruct (overview_entry (waiting 5) 2 [3]) as (p & n & t & Hp & Ht & Hv); [rewrite Ho; left|].
  pose proof (result_inv 5 silence ltac:(clear; done) ltac:(clear; done)) as Hi.
  destruct (takeover_acknowledged (cfg 5) env 7 3 (about 2 (from 3 EHT_INIT_TAKEOVER_ACK)) (waiting 5) (setting 5 ltac:(clear; done) ltac:(clear; done))
    ltac:(clear; done) Hi ltac:(clear; done) ltac:(clear; done) (λ q x _, all_contactable_spec (waiting 5) q x Hc)) as (r' & Hrun & Hi' & Hack).
  exists r'. split; [exact Hrun|]. split; [exact Hi'|].
  exact (acknowledged_last (cfg 5) (waiting 5) r' 2 3 p n t Hi ltac:(clear; done) Hp Ht Hv Hack).
Defined.


Lemma takeover_announced_witness : ∃ r',
  registrarHandleENRPTakeoverServer (cfg 5) 7 3 (about 2 (from 3 EHT_TAKEOVER_SERVER)) (waiting 5) = Some (tt, r') ∧
  registrar_inv (cfg 5) r' ∧ handed_over 2 3 (waiting 5) r' ∧ etimers r' = etimers (waiting 5).
Proof.
  exact (takeover_announced (cfg 5) env 7 3 (about 2 (from 3 EHT_TAKEOVER_SERVER)) (waiting 5) (setting 5 ltac:(clear; done) ltac:(clear; done))
    (result_inv 5 silence ltac:(clear; done) ltac:(clear; done)) ltac:(clear; done) ltac:(clear; done) ltac:(clear; done) ltac:(clear; done)).
Defined.

Lemma takeover_started_witness : ∃ x r', takeoverProcessNew env 3 (waiting 5) = Some (x, r') ∧
  match x with
  | Some t => rg_TakeoverProcesses (waiting 5) !! t = None ∧ ∃ ids,
      rg_TakeoverProcesses r' = <[t := MkTakeoverProcess ids]> (rg_TakeoverProcesses (waiting 5)) ∧ 2 ∈ ids ∧ 3 ∉ ids
  | None => same (waiting 5) r'
  end.
Proof.
  destruct (takeover_started (cfg 5) env 3 (waiting 5) (result_inv 5 silence ltac:(clear; done) ltac:(clear; done)) ltac:(clear; done) ltac:(clear; done) ltac:(clear; done))
    as (x & r' & Hrun & Hx). exists x, r'. split; [exact Hrun|]. destruct x as [t|]; [|exact Hx].
  destruct Hx as (Hf & _ & _ & ids & Hids & _ & Hin). split; [exact Hf|]. exists ids. split; [exact Hids|].
  split; [apply (proj2 (Hin 2))|intros Hne; exact (proj1 (proj1 (Hin 3) Hne) eq_refl)].
  split; [clear; done|]. split; [clear; done|]. destruct (summary_parts _ _ _ _ waiting_5) as (Ho & _ & _).
  destruct (overview_entry (waiting 5) 2 [3]) as (p & n & _ & Hp & _); [rewrite Ho; left|]. exists p, n. exact Hp.
Defined.

(** C6: In whichever order, how often and from whomever the acknowledgements
    arrive: outstanding are exactly the peers that have not yet
    acknowledged, so that none is outstanding exactly when all have. *)
Theorem acknowledgements_any_order ids target acks : NoDup ids →
  tp_PeerIDArray (acknowledgeAll (MkTakeoverProcess ids) target acks) = filter (λ id, id ∉ acks) ids ∧
  (takeoverProcessGetOutstandingAcks (acknowledgeAll (MkTakeoverProcess ids) target acks) = 0 ↔ ∀ id, id ∈ ids → id ∈ acks).
Proof.
  intros Hnd. pose proof (acknowledgeAll_filter target acks (MkTakeoverProcess ids) Hnd) as Hf. simpl in Hf. split; [done|].
  unfold takeoverProcessGetOutstandingAcks. rewrite Hf. split.
  - intros Hl id Hid. destruct (decide (id ∈ acks)) as [|Hno]; [done|]. assert (id ∈ filter (λ id, id ∉ acks) ids) as Hin by (by apply list_elem_of_filter).
    destruct (filter _ ids); [by apply elem_of_nil in Hin|simpl in Hl; lia].
  - intros Hall. destruct (filter (λ id, id ∉ acks) ids) as [|x l] eqn:Heq; [done|].
    assert (x ∈ filter (λ id, id ∉ acks) ids) as [Hno Hx]%list_elem_of_filter by (rewrite Heq; left). by apply Hall in Hx.
Qed.

Lemma acknowledgements_any_order_witness :
  tp_PeerIDArray (acknowledgeAll (MkTakeoverProcess [3; 4; 5]) 2 [5; 9; 3; 5]) = [4] ∧
  takeoverProcessGetOutstandingAcks (acknowledgeAll (MkTakeoverProcess [3; 4; 5]) 2 [5; 4; 9; 3]) = 0.
Proof.
  assert (NoDup [3; 4; 5]) as Hnd by (by apply (bool_decide_unpack _)). split.
  - exact (proj1 (acknowledgements_any_order [3; 4; 5] 2 [5; 9; 3; 5] Hnd)).
  - apply (acknowledgements_any_order [3; 4; 5] 2 [5; 4; 9; 3] Hnd). intros id Hid. set_solver.
Defined.

(** C4: Two registrars that try to take over the same peer and receive each
    other's request: the one with the lower identifier goes on unchanged,
    the other one gives up, records who takes over, and waits for a sign of
    life again. *)
Theorem takeover_conflict_resolved {ST : Type} `{SL : StorageLaws ST} `{En : Endian} (low high : RegistrarConfig) (env env' : Environment)
    (a b : Registrar ST) fd fd' assocID assocID' (ma mb : RSerPoolMessage ST) target p q n n' t t' :
  registrar_inv low a → registrar_inv high b → cf_ServerID low < cf_ServerID high → target ≠ 0 →
  target ≠ cf_ServerID low → target ≠ cf_ServerID high →
  rm_RegistrarIdentifier ma = target → rm_SenderID ma = cf_ServerID high → rm_RegistrarIdentifier mb = target → rm_SenderID mb = cf_ServerID low →
  entry (peers a) target p n → pln_TakeoverProcess n = Some t → entry (peers b) target q n' → pln_TakeoverProcess n' = Some t' → ∃ b' ts,
  registrarHandleENRPInitTakeover low env fd assocID ma a = Some (tt, a) ∧
  registrarHandleENRPInitTakeover high env' fd' assocID' mb b = Some (tt, b') ∧ registrar_inv high b' ∧
  entries (peers b') q = Some (timer_set PLNT_MAX_TIME_NO_RESPONSE ts
    (pln_set_TakeoverProcess None (pln_set_TakeoverRegistrarID (cf_ServerID low) n'))) ∧
  rg_TakeoverProcesses b' !! t' = None.
Proof.
  intros Ha Hb Hlt Hz Hl Hh Hma Hsa Hmb Hsb Hp Ht Hq Ht'.
  destruct (wp_initTakeover low env fd assocID ma a Ha) as ([] & a' & Hra & _ & Hreqa); [congruence|rewrite Hsa; lia|congruence|].
  destruct (wp_initTakeover high env' fd' assocID' mb b Hb) as ([] & b' & Hrb & Hib & Hreqb); [congruence|rewrite Hsb; lia|congruence|].
  rewrite Hma, Hsa in Hreqa. rewrite Hmb, Hsb in Hreqb.
  destruct (plm_inv_base low a (ri_base _ _ Ha)) as [Hpa _]. destruct (plm_inv_base high b (ri_base _ _ Hb)) as [Hpb _].
  assert (∀ q2 n2, entry (peers a) target q2 n2 → n2 = n) as Hua.
  { intros q2 n2 H2. assert (q2 = p) as -> by exact (entry_inj _ _ target _ _ _ _ Hpa Hz H2 Hp). destruct H2 as (_ & ? & _), Hp as (_ & ? & _). congruence. }
  assert (∀ q2 n2, entry (peers b) target q2 n2 → q2 = q ∧ n2 = n') as Hub.
  { intros q2 n2 H2. assert (q2 = q) as -> by exact (entry_inj _ _ target _ _ _ _ Hpb Hz H2 Hq). destruct H2 as (_ & ? & _), Hq as (_ & ? & _). split; congruence. }
  destruct Hreqa as [Hno _|p2 n2 H2 Hnone|p2 n2 t2 H2 Hs2 Hge ->|p2 n2 t2 ts H2 Hs2 Hlow]; [by apply Hno in Hp|by rewrite (Hua _ _ H2) in Hnone; congruence| |lia].
  destruct Hreqb as [Hno _|q2 n3 H3 Hnone|q2 n3 t3 H3 Hs3 Hge'|q2 n3 t3 ts H3 Hs3 Hlow Hhs Hpr Hent Hin]; [by apply Hno in Hq| |lia|].
  { destruct (Hub _ _ H3) as [-> ->]. congruence. }
  destruct (Hub _ _ H3) as [-> ->]. exists b', ts. split_and!; try done.
  - by rewrite Hent, decide_True.
  - rewrite Hpr. assert (t3 = t') as -> by congruence. apply lookup_delete_eq.
Qed.

Lemma takeover_conflict_resolved_witness : ∃ b' q n',
  registrarHandleENRPInitTakeover (cfg 5) env 7 7 (about 2 (from 7 EHT_INIT_TAKEOVER)) (waiting 5) = Some (tt, waiting 5) ∧
  registrarHandleENRPInitTakeover (cfg 7) env 7 5 (about 2 (from 5 EHT_INIT_TAKEOVER)) (waiting 7) = Some (tt, b') ∧
  entry (peers b') 2 q n' ∧ pln_TakeoverProcess n' = None ∧ pln_TakeoverRegistrarID n' = 5.
Proof.
  destruct (summary_parts _ _ _ _ waiting_5) as (Ho & _ & _). destruct (overview_entry (waiting 5) 2 [3]) as (p & n & t & Hp & Ht & _); [rewrite Ho; left|].
  destruct (summary_parts _ _ _ _ waiting_7) as (Ho' & _ & _). destruct (overview_entry (waiting 7) 2 [3]) as (q & n' & t' & Hq & Ht' & _); [rewrite Ho'; left|].
  destruct (takeover_conflict_resolved (cfg 5) (cfg 7) env env (waiting 5) (waiting 7) 7 7 7 5 (about 2 (from 7 EHT_INIT_TAKEOVER))
    (about 2 (from 5 EHT_INIT_TAKEOVER)) 2 p q n n' t t' (result_inv 5 silence ltac:(clear; done) ltac:(clear; done)) (result_inv 7 silence ltac:(clear; done) ltac:(clear; done))
    ltac:(clear; done) ltac:(clear; done) ltac:(clear; done) ltac:(clear; done) eq_refl eq_refl eq_refl eq_refl Hp Ht Hq Ht') as (b' & ts & Ha & Hb & _ & He & _).
  eexists b', q, _. split; [exact Ha|]. split; [exact Hb|]. split.
  { apply entry_entries. split; [exact He|]. exact (proj2 (proj2 Hq)). }
  split; reflexivity.
Defined.

