(* ===== verification/AsapInstance.v ===== *)
(** * The ASAP instance (asapinstance.c, asapinterthreadmessage.c,
    interthreadmessageport.c)

    The library side of ASAP, in a pool element or a pool user.  Threads put
    their requests into a queue; the main loop sends them to the registrar,
    gives the responses back in the order of the requests, and on a timeout
    or a lost connection connects to a registrar again and sends what is
    still in the queue once more.  A request that has been sent too often is
    answered with an error.

    The clock, memory, sending and the search for a registrar
    (registrartable.c) are answers of an [AsapEnvironment]. *)

From S2P Require Import Prelude Checksum Addresses PoolBasics Storage PoolElement PoolPolicy HandlespaceState PoolNode HandlespaceNode HandlespaceMgt Message MessageCreator MessageParser Registrar.
From stdpp Require Import base list gmap numbers option sorting sets.
#[local] Open Scope Z_scope.

Definition RSPERR_NO_REGISTRAR : Z := 0x1007.
Definition RSPERR_TIMEOUT : Z := 0x1008.
Definition ASAP_BUFFER_SIZE : Z := 65536.
Definition ASAP_DEFAULT_REGISTRAR_REQUEST_MAXTRIALS : Z := 1.
Definition ASAP_DEFAULT_REGISTRAR_REQUEST_TIMEOUT : Z := 3000000.
Definition ASAP_DEFAULT_REGISTRAR_RESPONSE_TIMEOUT : Z := 3000000.
Definition HRES_POOL_ELEMENT_NODE_ARRAY_SIZE : Z := 1024.
(** The increment of a selection from the cache. *)
Definition CACHE_MAX_INCREMENT : Z := 1000000000.

(** ** Queues *)

(** The message behind [p]; [None] if [p] is not in the queue. *)
Fixpoint nextMessage (p : ptr) (l : list ptr) : option (option ptr) :=
  match l with
  | [] => None
  | q :: l' => if decide (q = p) then Some (head l') else nextMessage p l'
  end.

(** The queue without [p]; [None] if [p] is not in it. *)
Fixpoint removeMessage (p : ptr) (l : list ptr) : option (list ptr) :=
  match l with
  | [] => None
  | q :: l' => if decide (q = p) then Some l' else r ← removeMessage p l'; Some (q :: r)
  end.

(** ** The environment *)

Record AsapEnvironment := MkAsapEnvironment {
  ae_MicroTime : nat → Z;
  ae_Malloc : nat → bool;
  ae_Send : nat → bool;
  ae_Random64 : nat → nat → Z;
  (** socket and identifier of the registrar that was found, or -1 *)
  ae_GetRegistrar : nat → Z * Z;
  ae_PeelOff : nat → Z → Z;
  ae_ParserMemory : nat → list bool
}.

Record AsapConfig := MkAsapConfig {
  ac_RegistrarHuntSocket : Z;
  ac_RegistrarRequestMaxTrials : Z;
  ac_RegistrarResponseTimeout : Z
}.

Section asap.
Context {ST : Type} `{Storage ST} `{Endian}.
Abbreviation HS := (Handlespace ST).
Abbreviation PHM := (PoolHandlespaceManagement ST).
Abbreviation Msg := (RSerPoolMessage ST).

(** ** State *)

(** [ReplyPort] is the member of the message's node; the ports of the
    waiting threads are named by pointers. *)
Record ASAPInterThreadMessage := MkAITM {
  am_Request : Msg;
  am_Response : option Msg;
  am_ReplyPort : option ptr;
  am_ResponseExpected : bool;
  am_Error : Z;
  am_TransmissionTrials : Z;
  am_ResponseTimeoutTimeStamp : Z;
  am_ResponseTimeoutNeedsScheduling : bool;
  am_CreationTimeStamp : Z;
  am_TransmissionTimeStamp : Z
}.

Inductive AsapOutput :=
| RequestSent (sd : Z) (message : Msg)
| AsapAbortSent (sd assocID : Z).

Record ASAPInstance := MkASAPInstance {
  ai_Messages : gmap ptr ASAPInterThreadMessage;
  ai_MainLoopPort : list ptr;
  ai_ReplyPorts : gmap ptr (list ptr);
  ai_LastAITM : option ptr;
  ai_RegistrarSocket : Z;
  ai_RegistrarIdentifier : Z;
  ai_RegistrarConnectionTimeStamp : Z;
  ai_RegistrarTimeoutTimer : option Z;
  ai_Cache : PoolHandlespaceManagement ST;
  ai_OwnPoolElements : PoolHandlespaceManagement ST;
  ai_Outgoing : list AsapOutput;
  ai_Tick : nat
}.
Abbreviation AI := ASAPInstance.

Definition am_set_Request (v : Msg) (m : ASAPInterThreadMessage) : ASAPInterThreadMessage :=
  MkAITM v (am_Response m) (am_ReplyPort m) (am_ResponseExpected m) (am_Error m) (am_TransmissionTrials m) (am_ResponseTimeoutTimeStamp m) (am_ResponseTimeoutNeedsScheduling m) (am_CreationTimeStamp m) (am_TransmissionTimeStamp m).
Definition am_set_Response (v : option Msg) (m : ASAPInterThreadMessage) : ASAPInterThreadMessage :=
  MkAITM (am_Request m) v (am_ReplyPort m) (am_ResponseExpected m) (am_Error m) (am_TransmissionTrials m) (am_ResponseTimeoutTimeStamp m) (am_ResponseTimeoutNeedsScheduling m) (am_CreationTimeStamp m) (am_TransmissionTimeStamp m).
Definition am_set_ReplyPort (v : option ptr) (m : ASAPInterThreadMessage) : ASAPInterThreadMessage :=
  MkAITM (am_Request m) (am_Response m) v (am_ResponseExpected m) (am_Error m) (am_TransmissionTrials m) (am_ResponseTimeoutTimeStamp m) (am_ResponseTimeoutNeedsScheduling m) (am_CreationTimeStamp m) (am_TransmissionTimeStamp m).
Definition am_set_ResponseExpected (v : bool) (m : ASAPInterThreadMessage) : ASAPInterThreadMessage :=
  MkAITM (am_Request m) (am_Response m) (am_ReplyPort m) v (am_Error m) (am_TransmissionTrials m) (am_ResponseTimeoutTimeStamp m) (am_ResponseTimeoutNeedsScheduling m) (am_CreationTimeStamp m) (am_TransmissionTimeStamp m).
Definition am_set_Error (v : Z) (m : ASAPInterThreadMessage) : ASAPInterThreadMessage :=
  MkAITM (am_Request m) (am_Response m) (am_ReplyPort m) (am_ResponseExpected m) v (am_TransmissionTrials m) (am_ResponseTimeoutTimeStamp m) (am_ResponseTimeoutNeedsScheduling m) (am_CreationTimeStamp m) (am_TransmissionTimeStamp m).
Definition am_set_TransmissionTrials (v : Z) (m : ASAPInterThreadMessage) : ASAPInterThreadMessage :=
  MkAITM (am_Request m) (am_Response m) (am_ReplyPort m) (am_ResponseExpected m) (am_Error m) v (am_ResponseTimeoutTimeStamp m) (am_ResponseTimeoutNeedsScheduling m) (am_CreationTimeStamp m) (am_TransmissionTimeStamp m).
Definition am_set_ResponseTimeoutTimeStamp (v : Z) (m : ASAPInterThreadMessage) : ASAPInterThreadMessage :=
  MkAITM (am_Request m) (am_Response m) (am_ReplyPort m) (am_ResponseExpected m) (am_Error m) (am_TransmissionTrials m) v (am_ResponseTimeoutNeedsScheduling m) (am_CreationTimeStamp m) (am_TransmissionTimeStamp m).
Definition am_set_ResponseTimeoutNeedsScheduling (v : bool) (m : ASAPInterThreadMessage) : ASAPInterThreadMessage :=
  MkAITM (am_Request m) (am_Response m) (am_ReplyPort m) (am_ResponseExpected m) (am_Error m) (am_TransmissionTrials m) (am_ResponseTimeoutTimeStamp m) v (am_CreationTimeStamp m) (am_TransmissionTimeStamp m).
Definition am_set_CreationTimeStamp (v : Z) (m : ASAPInterThreadMessage) : ASAPInterThreadMessage :=
  MkAITM (am_Request m) (am_Response m) (am_ReplyPort m) (am_ResponseExpected m) (am_Error m) (am_TransmissionTrials m) (am_ResponseTimeoutTimeStamp m) (am_ResponseTimeoutNeedsScheduling m) v (am_TransmissionTimeStamp m).
Definition am_set_TransmissionTimeStamp (v : Z) (m : ASAPInterThreadMessage) : ASAPInterThreadMessage :=
  MkAITM (am_Request m) (am_Response m) (am_ReplyPort m) (am_ResponseExpected m) (am_Error m) (am_TransmissionTrials m) (am_ResponseTimeoutTimeStamp m) (am_ResponseTimeoutNeedsScheduling m) (am_CreationTimeStamp m) v.

Definition ai_set_Messages (v : gmap ptr ASAPInterThreadMessage) (a : ASAPInstance) : ASAPInstance :=
  MkASAPInstance v (ai_MainLoopPort a) (ai_ReplyPorts a) (ai_LastAITM a) (ai_RegistrarSocket a) (ai_RegistrarIdentifier a) (ai_RegistrarConnectionTimeStamp a) (ai_RegistrarTimeoutTimer a) (ai_Cache a) (ai_OwnPoolElements a) (ai_Outgoing a) (ai_Tick a).
Definition ai_set_MainLoopPort (v : list ptr) (a : ASAPInstance) : ASAPInstance :=
  MkASAPInstance (ai_Messages a) v (ai_ReplyPorts a) (ai_LastAITM a) (ai_RegistrarSocket a) (ai_RegistrarIdentifier a) (ai_RegistrarConnectionTimeStamp a) (ai_RegistrarTimeoutTimer a) (ai_Cache a) (ai_OwnPoolElements a) (ai_Outgoing a) (ai_Tick a).
Definition ai_set_ReplyPorts (v : gmap ptr (list ptr)) (a : ASAPInstance) : ASAPInstance :=
  MkASAPInstance (ai_Messages a) (ai_MainLoopPort a) v (ai_LastAITM a) (ai_RegistrarSocket a) (ai_RegistrarIdentifier a) (ai_RegistrarConnectionTimeStamp a) (ai_RegistrarTimeoutTimer a) (ai_Cache a) (ai_OwnPoolElements a) (ai_Outgoing a) (ai_Tick a).
Definition ai_set_LastAITM (v : option ptr) (a : ASAPInstance) : ASAPInstance :=
  MkASAPInstance (ai_Messages a) (ai_MainLoopPort a) (ai_ReplyPorts a) v (ai_RegistrarSocket a) (ai_RegistrarIdentifier a) (ai_RegistrarConnectionTimeStamp a) (ai_RegistrarTimeoutTimer a) (ai_Cache a) (ai_OwnPoolElements a) (ai_Outgoing a) (ai_Tick a).
Definition ai_set_RegistrarSocket (v : Z) (a : ASAPInstance) : ASAPInstance :=
  MkASAPInstance (ai_Messages a) (ai_MainLoopPort a) (ai_ReplyPorts a) (ai_LastAITM a) v (ai_RegistrarIdentifier a) (ai_RegistrarConnectionTimeStamp a) (ai_RegistrarTimeoutTimer a) (ai_Cache a) (ai_OwnPoolElements a) (ai_Outgoing a) (ai_Tick a).
Definition ai_set_RegistrarIdentifier (v : Z) (a : ASAPInstance) : ASAPInstance :=
  MkASAPInstance (ai_Messages a) (ai_MainLoopPort a) (ai_ReplyPorts a) (ai_LastAITM a) (ai_RegistrarSocket a) v (ai_RegistrarConnectionTimeStamp a) (ai_RegistrarTimeoutTimer a) (ai_Cache a) (ai_OwnPoolElements a) (ai_Outgoing a) (ai_Tick a).
Definition ai_set_RegistrarConnectionTimeStamp (v : Z) (a : ASAPInstance) : ASAPInstance :=
  MkASAPInstance (ai_Messages a) (ai_MainLoopPort a) (ai_ReplyPorts a) (ai_LastAITM a) (ai_RegistrarSocket a) (ai_RegistrarIdentifier a) v (ai_RegistrarTimeoutTimer a) (ai_Cache a) (ai_OwnPoolElements a) (ai_Outgoing a) (ai_Tick a).
Definition ai_set_RegistrarTimeoutTimer (v : option Z) (a : ASAPInstance) : ASAPInstance :=
  MkASAPInstance (ai_Messages a) (ai_MainLoopPort a) (ai_ReplyPorts a) (ai_LastAITM a) (ai_RegistrarSocket a) (ai_RegistrarIdentifier a) (ai_RegistrarConnectionTimeStamp a) v (ai_Cache a) (ai_OwnPoolElements a) (ai_Outgoing a) (ai_Tick a).
Definition ai_set_Cache (v : PoolHandlespaceManagement ST) (a : ASAPInstance) : ASAPInstance :=
  MkASAPInstance (ai_Messages a) (ai_MainLoopPort a) (ai_ReplyPorts a) (ai_LastAITM a) (ai_RegistrarSocket a) (ai_RegistrarIdentifier a) (ai_RegistrarConnectionTimeStamp a) (ai_RegistrarTimeoutTimer a) v (ai_OwnPoolElements a) (ai_Outgoing a) (ai_Tick a).
Definition ai_set_OwnPoolElements (v : PoolHandlespaceManagement ST) (a : ASAPInstance) : ASAPInstance :=
  MkASAPInstance (ai_Messages a) (ai_MainLoopPort a) (ai_ReplyPorts a) (ai_LastAITM a) (ai_RegistrarSocket a) (ai_RegistrarIdentifier a) (ai_RegistrarConnectionTimeStamp a) (ai_RegistrarTimeoutTimer a) (ai_Cache a) v (ai_Outgoing a) (ai_Tick a).
Definition ai_set_Outgoing (v : list AsapOutput) (a : ASAPInstance) : ASAPInstance :=
  MkASAPInstance (ai_Messages a) (ai_MainLoopPort a) (ai_ReplyPorts a) (ai_LastAITM a) (ai_RegistrarSocket a) (ai_RegistrarIdentifier a) (ai_RegistrarConnectionTimeStamp a) (ai_RegistrarTimeoutTimer a) (ai_Cache a) (ai_OwnPoolElements a) v (ai_Tick a).
Definition ai_set_Tick (v : nat) (a : ASAPInstance) : ASAPInstance :=
  MkASAPInstance (ai_Messages a) (ai_MainLoopPort a) (ai_ReplyPorts a) (ai_LastAITM a) (ai_RegistrarSocket a) (ai_RegistrarIdentifier a) (ai_RegistrarConnectionTimeStamp a) (ai_RegistrarTimeoutTimer a) (ai_Cache a) (ai_OwnPoolElements a) (ai_Outgoing a) v.

Context (cfg : AsapConfig) (env : AsapEnvironment).

Definition ask {A} (f : nat → A) : M AI A := λ a, Some (f (ai_Tick a), ai_set_Tick (S (ai_Tick a)) a).
Definition asapTime : M AI Z := ask (ae_MicroTime env).
Definition asapMalloc : M AI bool := ask (ae_Malloc env).
Definition asapOutput (o : AsapOutput) : M AI () := modify (λ a, ai_set_Outgoing (ai_Outgoing a ++ [o]) a).

Definition aitm_get (p : ptr) : M AI ASAPInterThreadMessage := deref (λ a, ai_Messages a !! p).
Definition aitm_store (p : ptr) (m : ASAPInterThreadMessage) : M AI () := modify (λ a, ai_set_Messages (<[p := m]> (ai_Messages a)) a).
Definition aitm_update (p : ptr) (f : ASAPInterThreadMessage → ASAPInterThreadMessage) : M AI () := m ← aitm_get p; aitm_store p (f m).

(** The pool elements in the cache, and those of this instance. *)
Definition onCache {A} (f : M PHM A) : M AI A := λ a,
  match f (ai_Cache a) with Some (x, m) => Some (x, ai_set_Cache m a) | None => None end.
Definition onOwn {A} (f : M PHM A) : M AI A := λ a,
  match f (ai_OwnPoolElements a) with Some (x, m) => Some (x, ai_set_OwnPoolElements m a) | None => None end.

(** The memory of one registration. *)
Definition nodeMemory (m : PHM) : M AI Memory :=
  b1 ← asapMalloc; b2 ← asapMalloc; b3 ← asapMalloc; b4 ← asapMalloc;
  let hs := phm_Handlespace m in
  mret (MkMemory (if b1 : bool then Some (fresh (dom (hs_PoolNodes hs))) else None)
                 (if b2 : bool then Some (fresh (dom (hs_PoolElementNodes hs))) else None) b3 b4).

(** ** Messages between threads *)

Definition asapInterThreadMessageNew (request : Msg) (responseExpected : bool) : M AI (option ptr) :=
  ok ← asapMalloc;
  if ok : bool then
    now ← asapTime;
    a ← get;
    let p := fresh (dom (ai_Messages a)) in
    aitm_store p (MkAITM request None None responseExpected RSPERR_OKAY 0 0 false now 0);;
    mret (Some p)
  else mret None.

Definition asapInterThreadMessageDelete (p : ptr) : M AI () :=
  _ ← aitm_get p;
  modify (λ a, ai_set_Messages (delete p (ai_Messages a)) a).

Definition replyPort (port : ptr) (a : AI) : list ptr := default [] (ai_ReplyPorts a !! port).

(** [interThreadMessagePortEnqueue] on the port of the main loop and on the
    port of a thread. *)
Definition enqueueRequest (p : ptr) (port : option ptr) : M AI () :=
  aitm_update p (am_set_ReplyPort port);;
  modify (λ a, ai_set_MainLoopPort (ai_MainLoopPort a ++ [p]) a).
Definition enqueueReply (port p : ptr) : M AI () :=
  aitm_update p (am_set_ReplyPort None);;
  modify (λ a, ai_set_ReplyPorts (<[port := replyPort port a ++ [p]]> (ai_ReplyPorts a)) a).

Definition interThreadMessagePortGetFirstMessage : M AI (option ptr) := gets (λ a, head (ai_MainLoopPort a)).
Definition interThreadMessagePortGetNextMessage (p : ptr) : M AI (option ptr) := deref (λ a, nextMessage p (ai_MainLoopPort a)).
Definition interThreadMessagePortRemoveMessage (p : ptr) : M AI () :=
  l ← deref (λ a, removeMessage p (ai_MainLoopPort a)); modify (ai_set_MainLoopPort l).

Definition interThreadMessagePortDequeue : M AI (option ptr) :=
  first ← interThreadMessagePortGetFirstMessage;
  match first with
  | Some p => interThreadMessagePortRemoveMessage p;; mret (Some p)
  | None => mret None
  end.

Definition interThreadMessageReply (p : ptr) : M AI () :=
  m ← aitm_get p;
  port ← deref (λ _, am_ReplyPort m);
  enqueueReply port p.

(** ** The registrar *)

(** [timerStart] and [timerStop] of the timeout. *)
Definition startTimeout (timeStamp : Z) : M AI () :=
  a ← get;
  CHECK (bool_decide (ai_RegistrarTimeoutTimer a = None));;
  put (ai_set_RegistrarTimeoutTimer (Some timeStamp) a).
Definition stopTimeout : M AI () := modify (ai_set_RegistrarTimeoutTimer None).

Definition newConnection (sd : Z) : M AI () :=
  modify (ai_set_RegistrarSocket sd);;
  now ← asapTime;
  modify (ai_set_RegistrarConnectionTimeStamp now);;
  modify (ai_set_LastAITM None).

Definition asapInstanceConnectToRegistrar (sd : Z) : M AI bool :=
  a ← get;
  if ai_RegistrarSocket a <? 0 then
    if sd <? 0 then
      r ← ask (ae_GetRegistrar env);
      modify (ai_set_RegistrarIdentifier r.2);;
      if r.1 <? 0 then mret false
      else newConnection r.1;; mret true
    else newConnection sd;; mret true
  else mret true.

Definition asapInstanceDisconnectFromRegistrar (sendAbort : bool) : M AI () :=
  a ← get;
  if 0 <=? ai_RegistrarSocket a then
    stopTimeout;;
    (if sendAbort then asapOutput (AsapAbortSent (ai_RegistrarSocket a) 0) else mret tt);;
    modify (ai_set_RegistrarSocket (-1));;
    modify (ai_set_RegistrarConnectionTimeStamp 0);;
    modify (ai_set_RegistrarIdentifier UNDEFINED_REGISTRAR_IDENTIFIER);;
    modify (ai_set_LastAITM None)
  else mret tt.

(** [rserpoolMessageSend] on the registrar's socket: whether it was sent, and
    the message with its packet. *)
Definition sendToRegistrar (message : Msg) : M AI (bool * Msg) :=
  packet ← deref (λ _, rserpoolMessage2Packet message);
  let '(messageLength, message) := packet in
  if 0 <? messageLength then
    a ← get;
    asapOutput (RequestSent (ai_RegistrarSocket a) message);;
    sent ← ask (ae_Send env);
    mret (sent, message)
  else mret (false, message).

(** ** Requests *)

Definition asapInstanceSendRequest (request : Msg) (responseExpected : bool) : M AI Z :=
  aitm ← asapInterThreadMessageNew request responseExpected;
  match aitm with
  | None => mret RSPERR_OUT_OF_MEMORY
  | Some p => enqueueRequest p None;; mret RSPERR_OKAY
  end.

Definition asapInstanceBeginIO (itmPort : ptr) (request : Msg) : M AI Z :=
  aitm ← asapInterThreadMessageNew request true;
  match aitm with
  | None => mret RSPERR_OUT_OF_MEMORY
  | Some p => enqueueRequest p (Some itmPort);; mret RSPERR_OKAY
  end.

(** When the thread has been woken up: its port is not empty. *)
Definition asapInstanceWaitIO (itmPort : ptr) : M AI (Z * option Msg) :=
  a ← get;
  match replyPort itmPort a with
  | p :: l =>
      modify (λ a, ai_set_ReplyPorts (<[itmPort := l]> (ai_ReplyPorts a)) a);;
      m ← aitm_get p;
      modify (λ a, ai_set_Messages (delete p (ai_Messages a)) a);;
      mret (am_Error m, am_Response m)
  | [] => abort
  end.

(** ** Responses *)

Definition responseMatches (response request : Z) : bool :=
  ((response =? AHT_REGISTRATION_RESPONSE) && (request =? AHT_REGISTRATION)) ||
  ((response =? AHT_DEREGISTRATION_RESPONSE) && (request =? AHT_DEREGISTRATION)) ||
  ((response =? AHT_HANDLE_RESOLUTION_RESPONSE) && (request =? AHT_HANDLE_RESOLUTION)).

(** Nobody waits for the response, and no address of the pool element can be
    used. *)
Definition reconnectAfter (m : ASAPInterThreadMessage) (response : Msg) : bool :=
  bool_decide (am_ReplyPort m = None) && (rm_Type response =? AHT_REGISTRATION_RESPONSE) &&
  (negb (Error response =? RSPERR_OKAY) || flag_test (rm_Flags response) AHF_REGISTRATION_REJECT) &&
  ((Error response =? RSPERR_NO_USABLE_USER_ADDRESSES) || (Error response =? RSPERR_NO_USABLE_ASAP_ADDRESSES)).

(** The answer, or its end if nobody waits for it. *)
Definition finishRequest (p : ptr) : M AI () :=
  m ← aitm_get p;
  match am_ReplyPort m with
  | Some _ => interThreadMessageReply p
  | None => asapInterThreadMessageDelete p
  end.

Definition asapInstanceHandleResponseFromRegistrar (response : Msg) : M AI () :=
  aitm ← interThreadMessagePortDequeue;
  match aitm with
  | Some p =>
      stopTimeout;;
      m ← aitm_get p;
      (if responseMatches (rm_Type response) (rm_Type (am_Request m)) then
         if reconnectAfter m response then asapInstanceDisconnectFromRegistrar true else mret tt
       else asapInstanceDisconnectFromRegistrar true);;
      aitm_update p (am_set_Response (Some response));;
      a ← get;
      (if bool_decide (ai_LastAITM a = Some p) then modify (ai_set_LastAITM None) else mret tt);;
      finishRequest p;;
      a ← get;
      match ai_LastAITM a with
      | Some _ =>
          next ← interThreadMessagePortGetFirstMessage;
          nextAITM ← deref (λ _, next);
          n ← aitm_get nextAITM;
          startTimeout (am_ResponseTimeoutTimeStamp n)
      | None => mret tt
      end
  | None => asapInstanceDisconnectFromRegistrar true
  end.

Definition asapInstanceHandleRegistrarTimeout : M AI () :=
  a ← get;
  CHECK (bool_decide (ai_LastAITM a ≠ None));;
  modify (ai_set_LastAITM None);;
  asapInstanceDisconnectFromRegistrar true.

(** ** The queue of requests *)

Definition nextRequest : M AI (option ptr) :=
  a ← get;
  match ai_LastAITM a with
  | Some p => interThreadMessagePortGetNextMessage p
  | None => interThreadMessagePortGetFirstMessage
  end.

(** Connects if there is something to do. *)
Definition connectFor (aitm : option ptr) : M AI () :=
  a ← get;
  elements ← onOwn poolHandlespaceManagementGetPoolElements;
  if (ai_RegistrarSocket a <? 0) && (bool_decide (aitm ≠ None) || (0 <? elements))
  then _ ← asapInstanceConnectToRegistrar (-1); mret tt
  else mret tt.

(** The trials of this request are exceeded. *)
Definition giveUp (p : ptr) : M AI () :=
  interThreadMessagePortRemoveMessage p;;
  a ← get;
  m ← aitm_get p;
  match am_ReplyPort m with
  | Some _ =>
      aitm_update p (am_set_Error (if ai_RegistrarSocket a <? 0 then RSPERR_NO_REGISTRAR else RSPERR_TIMEOUT));;
      interThreadMessageReply p
  | None => asapInterThreadMessageDelete p
  end.

(** The request has been sent. *)
Definition requestSent (p : ptr) (request : Msg) : M AI () :=
  now ← asapTime;
  aitm_update p (λ m, am_set_TransmissionTimeStamp now (am_set_Request request m));;
  m ← aitm_get p;
  if negb (am_ResponseExpected m) then
    interThreadMessagePortRemoveMessage p;; asapInterThreadMessageDelete p
  else
    modify (ai_set_LastAITM (Some p));;
    now ← asapTime;
    aitm_update p (λ m, am_set_ResponseTimeoutNeedsScheduling true
      (am_set_ResponseTimeoutTimeStamp (u64 (now + ac_RegistrarResponseTimeout cfg)) m)).

(** One round of the loop; the result says whether it goes on. *)
Definition handleRequest (p : ptr) : M AI bool :=
  aitm_update p (λ m, am_set_TransmissionTrials (am_TransmissionTrials m + 1) m);;
  m ← aitm_get p;
  if ac_RegistrarRequestMaxTrials cfg <? am_TransmissionTrials m then giveUp p;; mret true
  else
    a ← get;
    if 0 <=? ai_RegistrarSocket a then
      result ← sendToRegistrar (am_Request m);
      if negb result.1
      then aitm_update p (am_set_Request result.2);; asapInstanceDisconnectFromRegistrar true;; mret false
      else requestSent p result.2;; mret true
    else mret true.

Fixpoint handleRequests (fuel : nat) (aitm : option ptr) : M AI () :=
  match aitm with
  | None => mret tt
  | Some p =>
      match fuel with
      | O => abort
      | S fuel' =>
          nextAITM ← interThreadMessagePortGetNextMessage p;
          goOn ← handleRequest p;
          if goOn : bool then handleRequests fuel' nextAITM else mret tt
      end
  end.

Fixpoint scheduleTimeouts (l : list ptr) : M AI () :=
  match l with
  | [] => mret tt
  | p :: l' =>
      m ← aitm_get p;
      a ← get;
      (if am_ResponseExpected m && am_ResponseTimeoutNeedsScheduling m then
         if bool_decide (ai_RegistrarTimeoutTimer a = None) then startTimeout (am_ResponseTimeoutTimeStamp m) else mret tt
       else mret tt);;
      aitm_update p (am_set_ResponseTimeoutNeedsScheduling false);;
      scheduleTimeouts l'
  end.

(** The parts between which the port of the main loop is not locked. *)
Definition handleQueue (aitm : option ptr) : M AI () :=
  fuel ← gets (λ a, length (ai_MainLoopPort a));
  handleRequests fuel aitm.
Definition setTimeout : M AI () :=
  l ← gets ai_MainLoopPort;
  scheduleTimeouts l.

Definition asapInstanceHandleQueuedAITMs : M AI () :=
  aitm ← nextRequest;
  connectFor aitm;;
  handleQueue aitm;;
  setTimeout.

(** ** Keep-alives *)

(** The acknowledgement for one element; the message is used again. *)
Definition acknowledge (message : Msg) (identifier : Z) : M AI Msg :=
  r ← sendToRegistrar (rm_set_Identifier identifier (rm_set_Flags 0 (rm_set_Type AHT_ENDPOINT_KEEP_ALIVE_ACK message)));
  mret r.2.

Definition ownElement (p : ptr) : M AI PoolElementNode := onOwn (onHandlespace (pe_get p)).

Definition acknowledgeElements (message : Msg) : M AI () :=
  pools ← onOwn (onHandlespace (storageFuel SlotPools));
  first ← onOwn (onHandlespace poolHandlespaceNodeGetFirstPoolNode);
  _ ← walk pools (λ pp, onOwn (onHandlespace (poolHandlespaceNodeGetNextPoolNode pp))) (λ message pp,
        elements ← onOwn (onHandlespace (storageFuel (SlotIndex pp)));
        first ← onOwn (onHandlespace (poolNodeGetFirstPoolElementNodeFromIndex pp));
        walk elements (λ p, onOwn (onHandlespace (poolNodeGetNextPoolElementNodeFromIndex pp p))) (λ message p,
          n ← ownElement p; acknowledge message (pen_Identifier n)) first message) first message;
  mret tt.

(** The message came by the socket [fd]. *)
Definition asapInstanceHandleEndpointKeepAlive (message : Msg) (fd : Z) : M AI () :=
  (if fd =? ac_RegistrarHuntSocket cfg then
     if flag_test (rm_Flags message) AHF_ENDPOINT_KEEP_ALIVE_HOME then
       sd ← ask (λ t, ae_PeelOff env t (rm_AssocID message));
       if 0 <=? sd then
         asapInstanceDisconnectFromRegistrar true;;
         connected ← asapInstanceConnectToRegistrar sd;
         if connected : bool then modify (ai_set_RegistrarIdentifier (rm_RegistrarIdentifier message)) else mret tt
       else mret tt
     else mret tt
   else
     a ← get;
     if ai_RegistrarIdentifier a =? UNDEFINED_REGISTRAR_IDENTIFIER
     then modify (ai_set_RegistrarIdentifier (rm_RegistrarIdentifier message)) else mret tt);;
  if negb (rm_Identifier message =? 0) then
    found ← onOwn (poolHandlespaceManagementFindPoolElement (rm_Handle message) (rm_Identifier message));
    match found with
    | Some p => n ← ownElement p; _ ← acknowledge message (pen_Identifier n); mret tt
    | None => mret tt
    end
  else acknowledgeElements message.
End asap.
