(* ===== verification/AsapClient.v ===== *)
(** * The operations of the ASAP instance (asapinstance.c)

    What threads ask of it: registration, deregistration, handle resolution
    by the cache or by the registrar, and reports about failures; and the
    events of the registrar's connection.  An operation that waits for the
    registrar is in two parts, before and after the wait ([...Begin],
    [...End]); the first one returns [None] when the second one follows. *)

From S2P Require Import Prelude Checksum Addresses PoolBasics Storage PoolElement PoolPolicy HandlespaceState PoolNode HandlespaceNode HandlespaceMgt Message MessageCreator MessageParser Registrar AsapInstance.
From stdpp Require Import base list gmap numbers option sorting sets.
#[local] Open Scope Z_scope.

(** What [messageBufferRead] returned. *)
Inductive AsapReceived :=
| AsapPacket (buffer : list Z) (received : Z) (sourceAddress : sockaddr_union) (ppid assocID : Z)
| ConnectionLost
| AsapOtherNotification
| PartialMessage
| ReadFailed.

Section client.
Context {ST : Type} `{Storage ST} `{Endian}.
Context (cfg : AsapConfig) (env : AsapEnvironment).
Abbreviation PHM := (PoolHandlespaceManagement ST).
Abbreviation Msg := (RSerPoolMessage ST).
Abbreviation AI := (ASAPInstance (ST := ST)).

(** A new instance; its sockets and its registrar table are not part of the
    state. *)
Definition asapInstanceNew : AI :=
  MkASAPInstance ∅ [] ∅ None (-1) 0 0 None (poolHandlespaceManagementNew 0) (poolHandlespaceManagementNew 0) [] 0.

(** The requests that are still in the queue are deleted. *)
Fixpoint deleteRequests (l : list ptr) : M AI () :=
  match l with
  | [] => mret tt
  | _ :: l' =>
      aitm ← interThreadMessagePortDequeue;
      match aitm with
      | Some p => asapInterThreadMessageDelete p;; deleteRequests l'
      | None => mret tt
      end
  end.

Definition asapInstanceDelete : M AI () :=
  onOwn (poolHandlespaceManagementDelete None None);;
  onCache (poolHandlespaceManagementDelete None None);;
  stopTimeout;;
  l ← gets ai_MainLoopPort;
  deleteRequests l;;
  a ← get;
  CHECK (bool_decide (ai_MainLoopPort a = [])).

(** A message in new memory. *)
Definition newMessage (k : Msg → M AI (option Z)) : M AI (option Z) :=
  ok ← asapMalloc env;
  if ok : bool then k (rserpoolMessageNew (replicate (Z.to_nat ASAP_BUFFER_SIZE) 0) ASAP_BUFFER_SIZE)
  else mret (Some RSPERR_OUT_OF_MEMORY).

(** [asapInstanceDoIO] up to the wait. *)
Definition beginIO (port : ptr) (message : Msg) : M AI (option Z) :=
  result ← asapInstanceBeginIO env port message;
  mret (if result =? RSPERR_OKAY then None else Some result).

(** ** Registration *)

(** [poolElementNode->UserData] is only for the disposers, of which the
    instance has none. *)
Definition registerOwn (handle : PoolHandle) (pe : PoolElementNode) : M AI Z :=
  old ← onOwn (poolHandlespaceManagementFindPoolElement handle (pen_Identifier pe));
  match old with
  | Some p =>
      n ← ownElement p;
      pn ← onOwn (onHandlespace (pp ← deref (λ _, pen_OwnerPoolNode n); pool_get pp));
      mret (poolNodeCheckPoolElementNodeCompatibility pn n)
  | None =>
      a ← get;
      now ← asapTime env;
      mem ← nodeMemory env (ai_OwnPoolElements a);
      r ← onOwn (poolHandlespaceManagementRegisterPoolElement None None mem handle (pen_HomeRegistrarIdentifier pe)
            (pen_Identifier pe) (pen_RegistrationLife pe) (pen_PolicySettings pe) (pen_UserTransport pe) None (-1) 0 now);
      if r.2 =? RSPERR_OKAY then mret r.2 else abort
  end.

Definition asapInstanceRegisterBegin (port : ptr) (handle : PoolHandle) (pe : PoolElementNode) (waitForResponse : bool) : M AI (option Z) :=
  newMessage (λ message,
    let message := rm_set_PoolElementPtr (Some pe) (rm_set_Handle handle (rm_set_Flags 0 (rm_set_Type AHT_REGISTRATION message))) in
    result ← registerOwn handle pe;
    if result =? RSPERR_OKAY then
      if waitForResponse then beginIO port message
      else
        node ← asapMalloc env;
        transport ← (if node : bool then asapMalloc env else mret false);
        match transportAddressBlockDuplicate transport (Some (pen_UserTransport pe)) with
        | Some newUserTransport =>
            let copy := poolElementNodeNew (pen_Identifier pe) (pen_HomeRegistrarIdentifier pe) (pen_RegistrationLife pe)
              (pen_PolicySettings pe) newUserTransport None (-1) 0 in
            result ← asapInstanceSendRequest env (rm_set_PoolElementPtr (Some copy) message) true; mret (Some result)
        | None => mret (Some RSPERR_OUT_OF_MEMORY)
        end
    else mret (Some result)).

Definition asapInstanceRegisterEnd (port : ptr) : M AI Z :=
  r ← asapInstanceWaitIO port;
  if r.1 =? RSPERR_OKAY then
    response ← deref (λ _, r.2);
    if (Error response =? RSPERR_OKAY) && negb (flag_test (rm_Flags response) AHF_REGISTRATION_REJECT)
    then mret r.1 else mret (Error response)
  else mret r.1.

(** ** Deregistration *)

Definition asapInstanceDeregisterBegin (port : ptr) (handle : PoolHandle) (identifier : Z) (waitForResponse : bool) : M AI (option Z) :=
  result ← onOwn (poolHandlespaceManagementDeregisterPoolElement None None handle identifier);
  if negb (result =? RSPERR_OKAY) then mret (Some result)
  else
    newMessage (λ message,
      let message := rm_set_Identifier identifier (rm_set_Handle handle (rm_set_Flags 0 (rm_set_Type AHT_DEREGISTRATION message))) in
      if waitForResponse then beginIO port message
      else result ← asapInstanceSendRequest env message true; mret (Some result)).

(** A response about another element is fatal; an error in the response is
    not returned. *)
Definition asapInstanceDeregisterEnd (port : ptr) (identifier : Z) : M AI Z :=
  r ← asapInstanceWaitIO port;
  (if r.1 =? RSPERR_OKAY then
     response ← deref (λ _, r.2);
     if Error response =? RSPERR_OKAY then CHECK (identifier =? rm_Identifier response) else mret tt
   else mret tt);;
  mret r.1.

(** ** Handle resolution *)

(** [convertFunction]; [None] is a failed conversion. *)
Context {A : Type} (convertFunction : PoolElementNode → option A).

Fixpoint convertAll (l : list ptr) : M AI (option (list A)) :=
  match l with
  | [] => mret (Some [])
  | p :: l' =>
      n ← onCache (onHandlespace (pe_get p));
      rest ← convertAll l';
      mret (x ← convertFunction n; xs ← rest; Some (x :: xs))
  end.

Definition asapInstanceHandleResolutionFromCache (handle : PoolHandle) (poolElementNodes : Z) (purgeOutOfDateElements : bool) :
    M AI (Z * list A) :=
  (if purgeOutOfDateElements then
     now ← asapTime env;
     _ ← onCache (poolHandlespaceManagementPurgeExpiredPoolElements None None now);
     mret tt
   else mret tt);;
  random64 ← ask (ae_Random64 env);
  r ← onCache (poolHandlespaceManagementHandleResolution random64 handle poolElementNodes CACHE_MAX_INCREMENT);
  if r.2 =? RSPERR_OKAY then
    converted ← convertAll r.1;
    mret (match converted with Some l => (RSPERR_OKAY, l) | None => (RSPERR_OUT_OF_MEMORY, []) end)
  else mret (RSPERR_NOT_FOUND, []).

(** One element of the response; the pointer to the new node is used also
    when its registration failed. *)
Definition cacheElement (handle : PoolHandle) (cacheElementTimeout : Z) (pe : PoolElementNode) : M AI () :=
  a ← get;
  now ← asapTime env;
  mem ← nodeMemory env (ai_Cache a);
  r ← onCache (poolHandlespaceManagementRegisterPoolElement None None mem handle (pen_HomeRegistrarIdentifier pe)
        (pen_Identifier pe) (pen_RegistrationLife pe) (pen_PolicySettings pe) (pen_UserTransport pe) None (-1) 0 now);
  p ← deref (λ _, r.1);
  onCache (poolHandlespaceManagementRestartPoolElementExpiryTimer p cacheElementTimeout).

Fixpoint cacheElements (handle : PoolHandle) (cacheElementTimeout : Z) (l : list (option PoolElementNode)) : M AI () :=
  match l with
  | [] => mret tt
  | x :: l' => pe ← deref (λ _, x); cacheElement handle cacheElementTimeout pe;; cacheElements handle cacheElementTimeout l'
  end.

Definition asapInstanceHandleResolutionAtRegistrarBegin (port : ptr) (handle : PoolHandle) (poolElementNodes cacheElementTimeout : Z) :
    M AI (option Z) :=
  newMessage (λ message,
    beginIO port
      (rm_set_Addresses (if negb (poolElementNodes =? RSPGETADDRS_MAX) && (0 <? cacheElementTimeout) then 0 else poolElementNodes)
      (rm_set_Handle handle
      (rm_set_Flags 0
      (rm_set_Type AHT_HANDLE_RESOLUTION message))))).

Definition asapInstanceHandleResolutionAtRegistrarEnd (port : ptr) (handle : PoolHandle) (poolElementNodes cacheElementTimeout : Z) :
    M AI (Z * list A) :=
  r ← asapInstanceWaitIO port;
  if r.1 =? RSPERR_OKAY then
    response ← deref (λ _, r.2);
    if Error response =? RSPERR_OKAY then
      cacheElements handle cacheElementTimeout (take (Z.to_nat (rm_PoolElementPtrArraySize response)) (rm_PoolElementPtrArray response));;
      asapInstanceHandleResolutionFromCache handle poolElementNodes false
    else mret (Error response, [])
  else mret (r.1, []).

(** The result if the cache has one, or if the request cannot be made. *)
Definition asapInstanceHandleResolutionBegin (port : ptr) (handle : PoolHandle) (nodePtrs cacheElementTimeout : Z) :
    M AI (option (Z * list A)) :=
  let originalPoolElementNodes := Z.min HRES_POOL_ELEMENT_NODE_ARRAY_SIZE nodePtrs in
  r ← asapInstanceHandleResolutionFromCache handle originalPoolElementNodes true;
  if negb (r.1 =? RSPERR_OKAY) then
    result ← asapInstanceHandleResolutionAtRegistrarBegin port handle originalPoolElementNodes cacheElementTimeout;
    mret ((λ result, (result, [])) <$> result)
  else mret (Some r).

(** ** Failures *)

Definition asapInstanceReportFailure (handle : PoolHandle) (identifier : Z) : M AI (option Z) :=
  found ← onCache (poolHandlespaceManagementFindPoolElement handle identifier);
  (match found with
   | Some _ =>
       result ← onCache (poolHandlespaceManagementDeregisterPoolElement None None handle identifier);
       CHECK (result =? RSPERR_OKAY)
   | None => mret tt
   end);;
  newMessage (λ message,
    result ← asapInstanceSendRequest env
      (rm_set_Identifier identifier (rm_set_Handle handle (rm_set_Flags 0 (rm_set_Type AHT_ENDPOINT_UNREACHABLE message)))) false;
    mret (Some result)).

(** ** Events of the connection *)

Definition handleAsapPacket (fd : Z) (buffer : list Z) (received : Z) (sourceAddress : sockaddr_union) (ppid assocID : Z) : M AI () :=
  memory ← ask (ae_ParserMemory env);
  r ← deref (λ _, rserpoolPacket2Message memory buffer (Some sourceAddress) assocID ppid received ASAP_BUFFER_SIZE);
  if r.1 =? RSPERR_OKAY then
    message ← deref (λ _, r.2);
    if rm_Type message =? AHT_ENDPOINT_KEEP_ALIVE
    then asapInstanceHandleEndpointKeepAlive cfg env message fd
    else asapInstanceHandleResponseFromRegistrar message
  else
    a ← get;
    if fd =? ai_RegistrarSocket a then asapInstanceDisconnectFromRegistrar true
    else asapOutput (AsapAbortSent fd assocID).

Definition asapInstanceHandleRegistrarConnectionEvent (fd : Z) (received : AsapReceived) : M AI () :=
  a ← get;
  CHECK ((fd =? ac_RegistrarHuntSocket cfg) || (fd =? ai_RegistrarSocket a));;
  match received with
  | AsapPacket buffer received sourceAddress ppid assocID => handleAsapPacket fd buffer received sourceAddress ppid assocID
  | ConnectionLost => if fd =? ai_RegistrarSocket a then asapInstanceDisconnectFromRegistrar true else mret tt
  | AsapOtherNotification | PartialMessage => mret tt
  | ReadFailed => asapInstanceDisconnectFromRegistrar true
  end.

(** The dispatcher removes the expired timer and calls its function. *)
Definition timeoutExpired : M AI () := stopTimeout;; asapInstanceHandleRegistrarTimeout.
End client.
