(* ===== verification/AsapInv.v ===== *)
(** * The invariant of the ASAP instance

    Every message between threads is in the queue of the main loop or in the
    port of exactly one thread, and nowhere else; the requests up to the
    last one that was sent expect a response; what is in the port of a
    thread is answered. *)

From S2P Require Import Prelude Checksum Addresses PoolBasics Storage PoolElement PoolPolicy HandlespaceState PoolNode HandlespaceNode HandlespaceMgt Message MessageCreator MessageParser MessageWire MessageWrites MessageCreate Registrar RegistrarQuiet RegistrarPackets AsapInstance AsapClient.
From stdpp Require Import base list gmap numbers option sorting sets.
#[local] Open Scope Z_scope.

(** ** Queues *)

Lemma removeMessage_split p l1 l2 : p ∉ l1 → removeMessage p (l1 ++ p :: l2) = Some (l1 ++ l2).
Proof.
  induction l1 as [|q l1 IH]; intros Hp; simpl; [by rewrite decide_True|]. apply not_elem_of_cons in Hp as [Hne Hp].
  rewrite decide_False by done. by rewrite IH.
Qed.

Lemma nextMessage_split p l1 l2 : p ∉ l1 → nextMessage p (l1 ++ p :: l2) = Some (head l2).
Proof.
  induction l1 as [|q l1 IH]; intros Hp; simpl; [by rewrite decide_True|]. apply not_elem_of_cons in Hp as [Hne Hp].
  rewrite decide_False by done. by apply IH.
Qed.

(** ** Where messages are *)

Record placed_ok (queue : list ptr) (ports : ptr → list ptr) (heap : gset ptr) : Prop := {
  pk_queue : NoDup queue;
  pk_port port : NoDup (ports port);
  pk_either p port : p ∈ queue → p ∉ ports port;
  pk_one p port port' : p ∈ ports port → p ∈ ports port' → port = port';
  pk_heap p : p ∈ heap ↔ p ∈ queue ∨ ∃ port, p ∈ ports port
}.

(** A port with one more message. *)
Definition delivered_to (port p : ptr) (ports : ptr → list ptr) : ptr → list ptr :=
  λ port', if decide (port' = port) then ports port ++ [p] else ports port'.

Lemma delivered_elem port p ports q port' : q ∈ delivered_to port p ports port' ↔ q ∈ ports port' ∨ q = p ∧ port' = port.
Proof. unfold delivered_to. case_decide; subst; set_solver. Qed.

Lemma placed_ext queue ports ports' heap heap' : (∀ port, ports' port = ports port) → heap' = heap → placed_ok queue ports heap → placed_ok queue ports' heap'.
Proof.
  intros He -> [Hq Hp Hei Ho Hh]. split; [done| | | |].
  - intros port. rewrite He. apply Hp.
  - intros p port. rewrite He. apply Hei.
  - intros p port port'. rewrite !He. apply Ho.
  - intros p. rewrite Hh. by setoid_rewrite He.
Qed.

Lemma placed_added queue ports heap p : placed_ok queue ports heap → p ∉ heap → placed_ok (queue ++ [p]) ports ({[p]} ∪ heap).
Proof.
  intros [Hq Hp Hei Ho Hh] Hno. assert (p ∉ queue ∧ ∀ port, p ∉ ports port) as [Hnq Hnp].
  { split; [|intros port]; intros Hin; apply Hno, Hh; eauto. }
  split; [|done| |done|].
  { apply NoDup_app. split; [done|]. split; [|apply NoDup_singleton]. by intros q Hin ->%list_elem_of_singleton. }
  - intros q port [?| ->%list_elem_of_singleton]%elem_of_app; [by apply Hei|done].
  - intros q. rewrite elem_of_union, elem_of_singleton, elem_of_app, list_elem_of_singleton, Hh. tauto.
Qed.

Lemma placed_dropped l1 p l2 ports heap : placed_ok (l1 ++ p :: l2) ports heap → placed_ok (l1 ++ l2) ports (heap ∖ {[p]}).
Proof.
  intros [Hq Hp Hei Ho Hh]. assert (p ∉ l1 ++ l2 ∧ NoDup (l1 ++ l2)) as [Hnp Hnd].
  { rewrite <- Permutation_middle in Hq. by apply NoDup_cons in Hq. }
  split; [done|done| |done|].
  - intros q port Hin. apply Hei. set_solver.
  - intros q. rewrite elem_of_difference, elem_of_singleton, Hh. assert (q ∈ l1 ++ p :: l2 ↔ q = p ∨ q ∈ l1 ++ l2) as -> by set_solver. split.
    + tauto.
    + intros [Hin|[port Hin]]; (split; [eauto|]); intros ->; [done|]. by apply (Hei p port); [set_solver|].
Qed.

Lemma placed_moved l1 p l2 ports heap port : placed_ok (l1 ++ p :: l2) ports heap → placed_ok (l1 ++ l2) (delivered_to port p ports) heap.
Proof.
  intros [Hq Hp Hei Ho Hh]. assert (p ∉ l1 ++ l2 ∧ NoDup (l1 ++ l2)) as [Hnp Hnd].
  { rewrite <- Permutation_middle in Hq. by apply NoDup_cons in Hq. }
  assert (∀ port', p ∉ ports port') as Hno by (intros port'; apply Hei; set_solver).
  split; [done| | | |].
  - intros port'. unfold delivered_to. case_decide; [|apply Hp]. apply NoDup_app. split; [apply Hp|]. split; [|apply NoDup_singleton].
    intros q Hin ->%list_elem_of_singleton. by apply (Hno port).
  - intros q port' Hin [Hq'|[-> ->]]%delivered_elem; [|done]. apply (Hei q port'); [set_solver|done].
  - intros q port1 port2 [H1|[-> ->]]%delivered_elem [H2|[He ->]]%delivered_elem; [by apply (Ho q)| | |done].
    + subst. by apply Hno in H1.
    + by apply Hno in H2.
  - intros q. rewrite Hh. setoid_rewrite delivered_elem. split.
    + intros [Hin|[port' Hin]]; [|eauto]. apply elem_of_app in Hin as [?|[-> | ?]%elem_of_cons]; [left; set_solver|right; eauto|left; set_solver].
    + intros [Hin|(port' & [Hin|[-> ->]])]; [left; set_solver|eauto|left; set_solver].
Qed.

Lemma placed_taken queue ports heap port p l : placed_ok queue ports heap → ports port = p :: l →
  placed_ok queue (λ port', if decide (port' = port) then l else ports port') (heap ∖ {[p]}).
Proof.
  intros [Hq Hp Hei Ho Hh] Hl. pose proof (Hp port) as Hnd. rewrite Hl in Hnd. apply NoDup_cons in Hnd as [Hnl Hndl].
  assert (∀ q port', q ∈ (if decide (port' = port) then l else ports port') → q ∈ ports port' ∧ q ≠ p) as Hsub.
  { intros q port' Hin. case_decide as Heq; [subst; rewrite Hl; split; [set_solver|congruence]|]. split; [done|]. intros ->.
    apply Heq, (Ho p); [done|]. rewrite Hl. left. }
  split; [done| | | |].
  - intros port'. case_decide; [done|apply Hp].
  - intros q port' Hin Hin'. apply Hsub in Hin' as [Hin' _]. by apply (Hei q port').
  - intros q port1 port2 [H1 _]%Hsub [H2 _]%Hsub. by apply (Ho q).
  - intros q. rewrite elem_of_difference, elem_of_singleton, Hh. split.
    + intros [[Hin|[port' Hin]] Hne]; [by left|]. right. exists port'. case_decide; [|done]. subst. rewrite Hl in Hin. set_solver.
    + intros [Hin|[port' [Hin Hne]%Hsub]]; split; [by left|intros ->|by right; exists port'|done].
      apply (Hei p port); [done|]. rewrite Hl. left.
Qed.

(** ** The invariant *)

Section inv.
Context {ST : Type} `{Storage ST} `{Endian}.
Context (cfg : AsapConfig).
Abbreviation Msg := (RSerPoolMessage ST).
Abbreviation AI := (ASAPInstance (ST := ST)).
Abbreviation AITM := (ASAPInterThreadMessage (ST := ST)).
Implicit Types (a : AI) (m : AITM) (p q port : ptr).

(** A request in the queue: it was not sent too often; if [b], its packet can
    be created. *)
Definition request_ok (b : bool) m : Prop :=
  0 <= am_TransmissionTrials m <= ac_RegistrarRequestMaxTrials cfg ∧ (b = true → packable (am_Request m)).
Definition answered m : Prop := am_Response m ≠ None ∨ am_Error m ≠ RSPERR_OKAY.
Definition expecting a q : Prop := ∃ m, ai_Messages a !! q = Some m ∧ am_ResponseExpected m = true.

Record asap_inv (b : bool) a : Prop := {
  av_placed : placed_ok (ai_MainLoopPort a) (λ port, replyPort port a) (dom (ai_Messages a));
  av_request p m : p ∈ ai_MainLoopPort a → ai_Messages a !! p = Some m → request_ok b m;
  av_answered port p m : p ∈ replyPort port a → ai_Messages a !! p = Some m → answered m;
  av_last p : ai_LastAITM a = Some p → 0 <= ai_RegistrarSocket a ∧
    ∃ l1 l2, ai_MainLoopPort a = l1 ++ p :: l2 ∧ Forall (expecting a) (l1 ++ [p])
}.

(** A timeout is running while a response is expected. *)
Definition scheduled a : Prop := ai_LastAITM a ≠ None → ai_RegistrarTimeoutTimer a ≠ None.
(** A timeout is running, or will be started. *)
Definition schedulable a : Prop := ∀ p, ai_LastAITM a = Some p → ai_RegistrarTimeoutTimer a ≠ None ∨
  ∃ m, ai_Messages a !! p = Some m ∧ am_ResponseExpected m = true ∧ am_ResponseTimeoutNeedsScheduling m = true.

Lemma scheduled_schedulable a : scheduled a → schedulable a.
Proof. intros Hs p Hp. left. apply Hs. by rewrite Hp. Qed.

(** The next request to be sent. *)
Definition upcoming (x : option ptr) a : Prop :=
  ∀ p, x = Some p → ∃ l1 l2, ai_MainLoopPort a = l1 ++ p :: l2 ∧ ai_LastAITM a = last l1.

(** The parts of the state that matter here. *)
Definition alike a a' : Prop :=
  ai_Messages a' = ai_Messages a ∧ ai_MainLoopPort a' = ai_MainLoopPort a ∧ ai_ReplyPorts a' = ai_ReplyPorts a ∧
  ai_LastAITM a' = ai_LastAITM a ∧ ai_RegistrarSocket a' = ai_RegistrarSocket a ∧ ai_RegistrarTimeoutTimer a' = ai_RegistrarTimeoutTimer a.

Lemma alike_refl a : alike a a.
Proof. done. Qed.
Lemma alike_trans a1 a2 a3 : alike a1 a2 → alike a2 a3 → alike a1 a3.
Proof. unfold alike. intuition congruence. Qed.

Lemma alike_inv b a a' : alike a a' → asap_inv b a → asap_inv b a'.
Proof.
  intros (Hm & Hq & Hr & Hl & Hs & _) [Hp Hrq Ha Hla]. assert (∀ port, replyPort port a' = replyPort port a) as He by (intros; unfold replyPort; by rewrite Hr).
  split.
  - rewrite Hq, Hm. by eapply placed_ext; [exact He|done|].
  - rewrite Hq, Hm. done.
  - intros port p m. rewrite He, Hm. apply Ha.
  - intros p. rewrite Hl, Hs, Hq. intros Hp'. destruct (Hla p Hp') as (? & l1 & l2 & ? & Hf). split; [done|]. exists l1, l2. split; [done|].
    eapply Forall_impl; [exact Hf|]. intros q (m & ? & ?). exists m. by rewrite Hm.
Qed.

Lemma alike_upcoming x a a' : alike a a' → upcoming x a → upcoming x a'.
Proof. intros (_ & Hq & _ & Hl & _) Hu. unfold upcoming. by rewrite Hq, Hl. Qed.
Lemma alike_scheduled a a' : alike a a' → scheduled a → scheduled a'.
Proof. intros (_ & _ & _ & Hl & _ & Ht) Hs. unfold scheduled. by rewrite Hl, Ht. Qed.
Lemma alike_schedulable a a' : alike a a' → schedulable a → schedulable a'.
Proof. intros (Hm & _ & _ & Hl & _ & Ht) Hs. unfold schedulable. by rewrite Hl, Ht, Hm. Qed.

Lemma queue_lookup b a p : asap_inv b a → p ∈ ai_MainLoopPort a → ∃ m, ai_Messages a !! p = Some m ∧ request_ok b m.
Proof.
  intros Hi Hp. assert (p ∈ dom (ai_Messages a)) as [m Hm]%elem_of_dom by (apply (pk_heap _ _ _ (av_placed _ _ Hi)); by left).
  exists m. split; [done|]. by apply (av_request _ _ Hi p).
Qed.

Lemma inv_weaken b a : asap_inv b a → asap_inv false a.
Proof. intros [Hp Hr Ha Hl]. split; try done. intros p m Hp' Hm. by destruct (Hr p m Hp' Hm) as [? _]. Qed.

Lemma last_in_queue b a p : asap_inv b a → ai_LastAITM a = Some p → p ∈ ai_MainLoopPort a.
Proof. intros Hi Hl. destruct (av_last _ _ Hi p Hl) as (_ & l1 & l2 & -> & _). set_solver. Qed.
End inv.
