(* ===== verification/AsapSteps.v ===== *)
(** * What the operations of the ASAP instance do to its requests *)

From S2P Require Import Prelude Checksum Addresses PoolBasics Storage PoolElement PoolPolicy HandlespaceState PoolNode HandlespaceNode HandlespaceMgt Message MessageCreator MessageParser MessageWire MessageWrites MessageCreate Registrar RegistrarQuiet RegistrarPackets AsapInstance AsapClient AsapInv.
From stdpp Require Import base list gmap numbers option sorting sets.
#[local] Open Scope Z_scope.

Lemma split_unique {A} (x : A) l1 l2 k1 k2 : x ∉ l1 → x ∉ k1 → l1 ++ x :: l2 = k1 ++ x :: k2 → l1 = k1 ∧ l2 = k2.
Proof.
  revert k1. induction l1 as [|y l1 IH]; intros [|z k1] H1 H2 He; simpl in He.
  - by injection He as ->.
  - injection He as -> _. by apply not_elem_of_cons in H2 as [? _].
  - injection He as -> _. by apply not_elem_of_cons in H1 as [? _].
  - injection He as -> Ht. apply not_elem_of_cons in H1 as [_ H1]. apply not_elem_of_cons in H2 as [_ H2]. by destruct (IH k1 H1 H2 Ht) as [-> ->].
Qed.

Lemma nodup_split {A} (x : A) l1 l2 : NoDup (l1 ++ x :: l2) → x ∉ l1 ∧ x ∉ l2 ∧ NoDup (l1 ++ l2).
Proof. rewrite <- Permutation_middle. intros [Hx Hnd]%NoDup_cons. set_solver. Qed.

(** A list without [p] still has [q] behind what was before it. *)
Lemma split_removed (p q : ptr) l1 l2 k1 k2 : NoDup (l1 ++ p :: l2) → p ≠ q → l1 ++ p :: l2 = k1 ++ q :: k2 →
  ∃ k1' k2', l1 ++ l2 = k1' ++ q :: k2' ∧ k1' ⊆ k1.
Proof.
  intros Hnd Hne He. destruct (nodup_split _ _ _ Hnd) as (Hp1 & Hp2 & _).
  assert (p ∈ k1 ++ q :: k2) as [Hin|[?|Hin]%elem_of_cons]%elem_of_app by (rewrite <- He; set_solver); [|done|].
  - apply list_elem_of_split in Hin as (c1 & c2 & ->). rewrite <- app_assoc in He. simpl in He.
    assert (p ∉ c1) as Hc. { rewrite He in Hnd. by apply nodup_split in Hnd as (? & _). }
    apply split_unique in He as [-> ->]; [|done|done]. exists (c1 ++ c2), k2. rewrite <- app_assoc. split; [done|set_solver].
  - apply list_elem_of_split in Hin as (c1 & c2 & ->).
    assert (p ∉ k1 ++ q :: c1) as Hc. { rewrite He in Hnd. replace (k1 ++ q :: c1 ++ p :: c2) with ((k1 ++ q :: c1) ++ p :: c2) in Hnd by (by rewrite <- app_assoc).
      by apply nodup_split in Hnd as (? & _). }
    replace (k1 ++ q :: c1 ++ p :: c2) with ((k1 ++ q :: c1) ++ p :: c2) in He by (by rewrite <- app_assoc).
    apply split_unique in He as [-> ->]; [|done|done]. exists k1, (c1 ++ c2). rewrite <- app_assoc. simpl. split; [done|set_solver].
Qed.

Section steps.
Context {ST : Type} `{Storage ST} `{Endian}.
Context (cfg : AsapConfig) (env : AsapEnvironment).
Abbreviation Msg := (RSerPoolMessage ST).
Abbreviation AI := (ASAPInstance (ST := ST)).
Abbreviation AITM := (ASAPInterThreadMessage (ST := ST)).
Abbreviation inv := (asap_inv cfg).
Implicit Types (a : AI) (m : AITM) (p q port : ptr) (b : bool).

(** ** Rules *)

Lemma wpb_ask {A} b (f : nat → A) (Q : A → AI → Prop) a : Q (f (ai_Tick a)) (ai_set_Tick (S (ai_Tick a)) a) → wpb b (ask f) Q a.
Proof. intros HQ. apply wpb_wp. by eexists _, _. Qed.

Lemma wpb_aitm_get b p m (Q : AITM → AI → Prop) a : ai_Messages a !! p = Some m → Q m a → wpb b (aitm_get p) Q a.
Proof. intros Hm HQ. eapply wpb_run; [|exact HQ]. unfold aitm_get, deref. by rewrite Hm. Qed.

Lemma wpb_aitm_update b p m f (Q : unit → AI → Prop) a : ai_Messages a !! p = Some m →
  Q tt (ai_set_Messages (<[p := f m]> (ai_Messages a)) a) → wpb b (aitm_update p f) Q a.
Proof. intros Hm HQ. unfold aitm_update. eapply wpb_bind, wpb_aitm_get; [exact Hm|]. by apply wpb_modify. Qed.

(** ** Changes of the state *)

Lemma replyPort_inserted port p a : ∀ port', replyPort port' (ai_set_ReplyPorts (<[port := replyPort port a ++ [p]]> (ai_ReplyPorts a)) a) =
  delivered_to port p (λ port, replyPort port a) port'.
Proof.
  intros port'. unfold delivered_to, replyPort. simpl. case_decide as He; [subst; by rewrite lookup_insert_eq|]. by rewrite lookup_insert_ne by done.
Qed.

(** A message changes, but not whether it expects a response. *)
Lemma inv_message b a p m m' : inv b a → ai_Messages a !! p = Some m → (p ∈ ai_MainLoopPort a → request_ok cfg b m') →
  (∀ port, p ∈ replyPort port a → answered m') → am_ResponseExpected m' = am_ResponseExpected m →
  inv b (ai_set_Messages (<[p := m']> (ai_Messages a)) a).
Proof.
  intros [Hp Hr Ha Hl] Hm Hq Hans He. split; simpl.
  - eapply placed_ext; [done| |exact Hp]. simpl. rewrite dom_insert_L. apply elem_of_dom_2 in Hm. set_solver.
  - intros q x Hin [[-> <-]|[Hne Hx]]%lookup_insert_Some; [by apply Hq|by apply (Hr q)].
  - intros port q x Hin [[-> <-]|[Hne Hx]]%lookup_insert_Some; [by apply (Hans port)|by apply (Ha port q)].
  - intros q Hq'. destruct (Hl q Hq') as (? & l1 & l2 & ? & Hf). split; [done|]. exists l1, l2. split; [done|]. eapply Forall_impl; [exact Hf|].
    intros c (x & Hx & Hex). unfold expecting. simpl. destruct (decide (c = p)) as [->|Hne]; [|rewrite lookup_insert_ne by done; eauto].
    rewrite lookup_insert_eq. exists m'. split; [done|]. congruence.
Qed.

(** A request that is not the last one sent leaves the queue. *)
Lemma inv_leaves b a a' p l1 l2 : inv b a → ai_MainLoopPort a = l1 ++ p :: l2 → ai_LastAITM a ≠ Some p →
  ai_MainLoopPort a' = l1 ++ l2 → ai_LastAITM a' = ai_LastAITM a → ai_RegistrarSocket a' = ai_RegistrarSocket a →
  (∀ q, q ≠ p → ai_Messages a' !! q = ai_Messages a !! q) →
  placed_ok (ai_MainLoopPort a') (λ port, replyPort port a') (dom (ai_Messages a')) →
  (∀ port q m, q ∈ replyPort port a' → ai_Messages a' !! q = Some m → answered m) → inv b a'.
Proof.
  intros [Hp Hr Ha Hl] Hq Hlast Hq' Hl' Hs' Hm Hp' Ha'. pose proof (pk_queue _ _ _ Hp) as Hnd. rewrite Hq in Hnd.
  destruct (nodup_split _ _ _ Hnd) as (Hp1 & Hp2 & _). split; [done| |done|].
  - intros q m Hin Hx. rewrite Hq' in Hin. assert (q ≠ p) as Hne by (intros ->; set_solver). rewrite Hm in Hx by done. apply (Hr q); [rewrite Hq; set_solver|done].
  - intros q Hq1. rewrite Hl' in Hq1. destruct (Hl q Hq1) as (Hsk & k1 & k2 & Hk & Hf). rewrite Hs'. split; [done|].
    assert (p ≠ q) as Hne by congruence. rewrite Hq in Hk. destruct (split_removed p q l1 l2 k1 k2 Hnd Hne Hk) as (k1' & k2' & Hk' & Hsub).
    exists k1', k2'. rewrite Hq'. split; [done|]. apply Forall_forall. intros c Hc. rewrite Forall_forall in Hf.
    destruct (Hf c) as (x & Hx & Hex); [set_solver|]. exists x. rewrite Hm; [done|]. intros ->.
    assert (p ∈ l1 ++ l2) as Hin by (rewrite Hk'; set_solver). set_solver.
Qed.

(** ... and is freed. *)
Lemma inv_freed b a p l1 l2 : inv b a → ai_MainLoopPort a = l1 ++ p :: l2 → ai_LastAITM a ≠ Some p →
  inv b (ai_set_Messages (delete p (ai_Messages a)) (ai_set_MainLoopPort (l1 ++ l2) a)).
Proof.
  intros Hi Hq Hl. pose proof (av_placed _ _ _ Hi) as Hp. rewrite Hq in Hp.
  apply (inv_leaves b a _ p l1 l2); try done; simpl.
  - intros q Hne. by apply lookup_delete_ne.
  - eapply placed_ext; [done| |by apply (placed_dropped l1 p l2)]. by rewrite dom_delete_L.
  - intros port q m Hin [_ Hm]%lookup_delete_Some. by apply (av_answered _ _ _ Hi port q).
Qed.

(** ... and is answered. *)
Lemma inv_replied b a p m l1 l2 port : inv b a → ai_MainLoopPort a = l1 ++ p :: l2 → ai_LastAITM a ≠ Some p → ai_Messages a !! p = Some m → ∀ m',
  answered m' →
  inv b (ai_set_ReplyPorts (<[port := replyPort port a ++ [p]]> (ai_ReplyPorts a))
    (ai_set_Messages (<[p := m']> (ai_Messages a)) (ai_set_MainLoopPort (l1 ++ l2) a))).
Proof.
  intros Hi Hq Hl Hm m' Ha. pose proof (av_placed _ _ _ Hi) as Hp. rewrite Hq in Hp.
  assert (∀ port', replyPort port' (ai_set_ReplyPorts (<[port := replyPort port a ++ [p]]> (ai_ReplyPorts a))
    (ai_set_Messages (<[p := m']> (ai_Messages a)) (ai_set_MainLoopPort (l1 ++ l2) a))) = delivered_to port p (λ port, replyPort port a) port') as He
    by exact (replyPort_inserted port p a).
  apply (inv_leaves b a _ p l1 l2); try done; simpl.
  - intros q Hne. by apply lookup_insert_ne.
  - eapply placed_ext; [exact He| |by apply (placed_moved l1 p l2)]. apply elem_of_dom_2 in Hm. rewrite dom_insert_L. set_solver.
  - intros port' q x Hin [[-> <-]|[Hne Hx]]%lookup_insert_Some; [done|]. rewrite He in Hin. apply delivered_elem in Hin as [Hin|[? _]]; [|done].
    by apply (av_answered _ _ _ Hi port' q).
Qed.

(** ** The connection *)

(** Disconnected; nothing else is lost. *)
Definition cut a a' : Prop :=
  ai_Messages a' = ai_Messages a ∧ ai_MainLoopPort a' = ai_MainLoopPort a ∧ ai_ReplyPorts a' = ai_ReplyPorts a ∧
  ai_LastAITM a' = None ∧ ai_RegistrarSocket a' < 0 ∧ (0 <= ai_RegistrarSocket a → ai_RegistrarTimeoutTimer a' = None) ∧
  (ai_RegistrarSocket a < 0 → ai_RegistrarTimeoutTimer a' = ai_RegistrarTimeoutTimer a).

Lemma cut_inv b a a' : cut a a' → inv b a → inv b a'.
Proof.
  intros (Hm & Hq & Hr & Hl & _) [Hp Hrq Ha _]. assert (∀ port, replyPort port a' = replyPort port a) as He by (intros; unfold replyPort; by rewrite Hr).
  split; rewrite ?Hq, ?Hm; [by eapply placed_ext; [exact He|done|exact Hp]|done| |congruence]. intros port p m. rewrite He. apply Ha.
Qed.

Lemma wpb_disconnect b c s a : inv c a → wpb b (asapInstanceDisconnectFromRegistrar s) (λ _ a', cut a a') a.
Proof.
  intros Hi. unfold asapInstanceDisconnectFromRegistrar. apply wpb_bind, wpb_get. destruct (Z.leb_spec 0 (ai_RegistrarSocket a)) as [Hs|Hs].
  - unfold stopTimeout. apply wpb_bind, wpb_modify. destruct s; repeat first [apply wpb_bind|apply wpb_modify|apply wpb_ret]; (split_and!; [done..|simpl; lia|done|simpl; lia]).
  - apply wpb_ret. split_and!; try done; [|lia]. destruct (ai_LastAITM a) as [p|] eqn:Hl; [|done]. destruct (av_last _ _ _ Hi p Hl). lia.
Qed.

(** Connected if possible. *)
Definition joined a a' : Prop :=
  ai_Messages a' = ai_Messages a ∧ ai_MainLoopPort a' = ai_MainLoopPort a ∧ ai_ReplyPorts a' = ai_ReplyPorts a ∧
  ai_LastAITM a' = ai_LastAITM a ∧ ai_RegistrarTimeoutTimer a' = ai_RegistrarTimeoutTimer a ∧
  (0 <= ai_RegistrarSocket a → ai_RegistrarSocket a' = ai_RegistrarSocket a).

Lemma joined_inv b a a' : joined a a' → inv b a → inv b a'.
Proof.
  intros (Hm & Hq & Hr & Hl & _ & Hs) [Hp Hrq Ha Hla]. assert (∀ port, replyPort port a' = replyPort port a) as He by (intros; unfold replyPort; by rewrite Hr).
  split; rewrite ?Hq, ?Hm, ?Hl; [by eapply placed_ext; [exact He|done|exact Hp]|done| |].
  - intros port p m. rewrite He. apply Ha.
  - intros p Hp'. destruct (Hla p Hp') as (Hsk & l1 & l2 & Hl12 & Hf). rewrite (Hs Hsk). split; [done|]. exists l1, l2. split; [done|].
    eapply Forall_impl; [exact Hf|]. intros q (m & ? & ?). exists m. by rewrite Hm.
Qed.

Lemma no_last b a : inv b a → ai_RegistrarSocket a < 0 → ai_LastAITM a = None.
Proof. intros Hi Hs. destruct (ai_LastAITM a) as [p|] eqn:Hl; [|done]. destruct (av_last _ _ _ Hi p Hl). lia. Qed.

Lemma wpb_connect b c sd a : inv c a → wpb b (asapInstanceConnectToRegistrar env sd) (λ _ a', joined a a') a.
Proof.
  intros Hi. unfold asapInstanceConnectToRegistrar. apply wpb_bind, wpb_get. destruct (Z.ltb_spec (ai_RegistrarSocket a) 0) as [Hs|Hs]; [|by apply wpb_ret].
  pose proof (no_last _ _ Hi Hs) as Hl. destruct (sd <? 0).
  - apply wpb_bind, wpb_ask, wpb_bind, wpb_modify. destruct (_ <? 0); [by apply wpb_ret; split_and!; [done..|simpl; lia]|].
    unfold newConnection, asapTime. repeat first [apply wpb_bind|apply wpb_modify|apply wpb_ask|apply wpb_ret]. split_and!; try done. simpl. lia.
  - unfold newConnection, asapTime. repeat first [apply wpb_bind|apply wpb_modify|apply wpb_ask|apply wpb_ret]. split_and!; try done. simpl. lia.
Qed.

(** ** Sending *)

Lemma packed_packable (m m' : Msg) : packed m m' → packable m → packable m'.
Proof.
  intros Hp (flags & ppid & body & Hs & Hb & Hz). pose proof (packed_sendable _ _ Hp Hs) as Hs'. destruct Hp as (He & Ho & _).
  exists flags, ppid, body. split; [done|]. rewrite Ho. split; [|done]. rewrite <- He in Hb. exact Hb.
Qed.

Lemma wpb_send b (m : Msg) a : (b = true → packable m) →
  wpb b (sendToRegistrar env m) (λ res a', alike a a' ∧ (b = true → packable res.2)) a.
Proof.
  intros Hm. unfold sendToRegistrar. apply wpb_bind, wpb_deref.
  - intros Hb. destruct (packet_run m (Hm Hb)) as (len & m' & Hrun & _). by rewrite Hrun.
  - intros [len m'] Hrun. assert (b = true → packable m') as Hm'.
    { intros Hb. destruct (packet_run m (Hm Hb)) as (len0 & m0 & Hrun0 & _ & Hpk). simplify_eq. by eapply packed_packable; [|apply Hm]. }
    cbv beta iota. destruct (0 <? len); [|by apply wpb_ret]. apply wpb_bind, wpb_get. unfold asapOutput. by apply wpb_bind, wpb_modify, wpb_bind, wpb_ask, wpb_ret.
Qed.

(** ** Requests that leave the queue *)

Lemma remove_run a p l1 l2 : ai_MainLoopPort a = l1 ++ p :: l2 → p ∉ l1 →
  interThreadMessagePortRemoveMessage p a = Some (tt, ai_set_MainLoopPort (l1 ++ l2) a).
Proof. intros Hq Hp. unfold interThreadMessagePortRemoveMessage, mbind, M_bind, deref. rewrite Hq, removeMessage_split by done. reflexivity. Qed.

(** The state after the answer [m'] to the request [p], for the thread that
    waits at [port], or after the end of the request. *)
Definition finished (p : ptr) (port : option ptr) m' a : AI :=
  match port with
  | Some port => ai_set_ReplyPorts (<[port := replyPort port a ++ [p]]> (ai_ReplyPorts a)) (ai_set_Messages (<[p := m']> (ai_Messages a)) a)
  | None => ai_set_Messages (delete p (ai_Messages a)) a
  end.

Lemma reply_run a p m port : ai_Messages a !! p = Some m → am_ReplyPort m = Some port →
  interThreadMessageReply p a = Some (tt, finished p (Some port) (am_set_ReplyPort None m) a).
Proof.
  intros Hm Hport. unfold interThreadMessageReply, enqueueReply, aitm_update, aitm_get, aitm_store, mbind, M_bind, deref, modify. rewrite Hm, Hport. simpl.
  rewrite Hm. reflexivity.
Qed.

Lemma delete_run a p m : ai_Messages a !! p = Some m → asapInterThreadMessageDelete p a = Some (tt, finished p None m a).
Proof. intros Hm. unfold asapInterThreadMessageDelete, aitm_get, mbind, M_bind, deref. by rewrite Hm. Qed.

Lemma finished_store p (port : option ptr) m m' a : finished p port m' (ai_set_Messages (<[p := m]> (ai_Messages a)) a) = finished p port m' a.
Proof. destruct port; simpl; [|by rewrite delete_insert_eq]. unfold ai_set_ReplyPorts, ai_set_Messages. simpl. by rewrite insert_insert_eq. Qed.

Lemma inv_finished b a p m l1 l2 m' : inv b a → ai_MainLoopPort a = l1 ++ p :: l2 → ai_LastAITM a ≠ Some p → ai_Messages a !! p = Some m →
  (am_ReplyPort m ≠ None → answered m') → inv b (finished p (am_ReplyPort m) m' (ai_set_MainLoopPort (l1 ++ l2) a)).
Proof.
  intros Hi Hq Hl Hm Ha. destruct (am_ReplyPort m) as [port|]; [|exact (inv_freed b a p l1 l2 Hi Hq Hl)].
  exact (inv_replied b a p m l1 l2 port Hi Hq Hl Hm m' (Ha ltac:(done))).
Qed.

Lemma finish_run a p m : ai_Messages a !! p = Some m →
  finishRequest p a = Some (tt, finished p (am_ReplyPort m) (am_set_ReplyPort None m) a).
Proof.
  intros Hm. unfold finishRequest. rewrite (run_bind _ _ _ m a) by (unfold aitm_get, deref; by rewrite Hm).
  destruct (am_ReplyPort m) as [port|] eqn:Hport; [by apply reply_run|exact (delete_run a p m Hm)].
Qed.

Definition refusal a : Z := if ai_RegistrarSocket a <? 0 then RSPERR_NO_REGISTRAR else RSPERR_TIMEOUT.

Lemma giveUp_run a p m l1 l2 : ai_MainLoopPort a = l1 ++ p :: l2 → p ∉ l1 → ai_Messages a !! p = Some m →
  giveUp p a = Some (tt, finished p (am_ReplyPort m) (am_set_ReplyPort None (am_set_Error (refusal a) m)) (ai_set_MainLoopPort (l1 ++ l2) a)).
Proof.
  intros Hq Hp Hm. unfold giveUp. rewrite (run_bind _ _ _ tt (ai_set_MainLoopPort (l1 ++ l2) a)) by (by apply remove_run).
  rewrite (run_bind _ _ _ (ai_set_MainLoopPort (l1 ++ l2) a) (ai_set_MainLoopPort (l1 ++ l2) a)) by done.
  rewrite (run_bind _ _ _ m (ai_set_MainLoopPort (l1 ++ l2) a)) by (unfold aitm_get, deref; simpl; by rewrite Hm).
  destruct (am_ReplyPort m) as [port|] eqn:Hport; [|exact (delete_run (ai_set_MainLoopPort (l1 ++ l2) a) p m Hm)]. set (a1 := ai_set_MainLoopPort (l1 ++ l2) a).
  change (if ai_RegistrarSocket a1 <? 0 then RSPERR_NO_REGISTRAR else RSPERR_TIMEOUT) with (refusal a).
  rewrite (run_bind _ _ _ tt (ai_set_Messages (<[p := am_set_Error (refusal a) m]> (ai_Messages a1)) a1))
    by (unfold aitm_update, aitm_get, aitm_store, mbind, M_bind, deref; simpl; by rewrite Hm).
  rewrite (reply_run _ _ (am_set_Error (refusal a) m) port); [|by apply lookup_insert_eq|done]. by rewrite finished_store.
Qed.

(** ** The loop over the requests *)

(** The requests [l1] have been sent, unless there is no connection. *)
Definition sent_up_to (l1 : list ptr) a : Prop := ai_LastAITM a = last l1 ∨ ai_RegistrarSocket a < 0 ∧ ai_LastAITM a = None.

Lemma sent_not p l1 l2 a : NoDup (l1 ++ p :: l2) → sent_up_to l1 a → ai_LastAITM a ≠ Some p.
Proof.
  intros Hnd [Hl|[_ Hl]]; rewrite Hl; [|done]. intros Hp. apply nodup_split in Hnd as (Hno & _). apply Hno.
  apply last_Some in Hp as [l ->]. set_solver.
Qed.

Lemma schedulable_frame p a a' : schedulable a → ai_LastAITM a ≠ Some p → ai_LastAITM a' = ai_LastAITM a →
  ai_RegistrarTimeoutTimer a' = ai_RegistrarTimeoutTimer a → (∀ q, q ≠ p → ai_Messages a' !! q = ai_Messages a !! q) → schedulable a'.
Proof. intros Hs Hp Hl Ht Hm q Hq. rewrite Hl in Hq. rewrite Ht, Hm by congruence. by apply Hs. Qed.

Lemma finished_other p (port : option ptr) m' a q : q ≠ p → ai_Messages (finished p port m' a) !! q = ai_Messages a !! q.
Proof. intros Hne. destruct port; simpl; [by apply lookup_insert_ne|by apply lookup_delete_ne]. Qed.

Lemma finished_fields p (port : option ptr) m' a : ai_MainLoopPort (finished p port m' a) = ai_MainLoopPort a ∧ ai_LastAITM (finished p port m' a) = ai_LastAITM a ∧
  ai_RegistrarSocket (finished p port m' a) = ai_RegistrarSocket a ∧ ai_RegistrarTimeoutTimer (finished p port m' a) = ai_RegistrarTimeoutTimer a.
Proof. by destruct port. Qed.

(** What holds after one round of the loop, before which [l2] were behind
    the request. *)
Definition round_done b (l2 : list ptr) (goOn : bool) a : Prop :=
  inv b a ∧ schedulable a ∧ (goOn = true → ∃ l1, ai_MainLoopPort a = l1 ++ l2 ∧ sent_up_to l1 a).

Lemma round_finished b a p m m' l1 l2 : inv b a → schedulable a → ai_MainLoopPort a = l1 ++ p :: l2 → sent_up_to l1 a → ai_Messages a !! p = Some m →
  (am_ReplyPort m ≠ None → answered m') → round_done b l2 true (finished p (am_ReplyPort m) m' (ai_set_MainLoopPort (l1 ++ l2) a)).
Proof.
  intros Hi Hs Hq Hl Hm Ha. pose proof (pk_queue _ _ _ (av_placed _ _ _ Hi)) as Hnd. rewrite Hq in Hnd. pose proof (sent_not p l1 l2 a Hnd Hl) as Hne.
  destruct (finished_fields p (am_ReplyPort m) m' (ai_set_MainLoopPort (l1 ++ l2) a)) as (Fq & Fl & Fs & Ft). split_and!.
  - by apply (inv_finished b a p m l1 l2).
  - apply (schedulable_frame p a); try done. intros q Hqp. by rewrite finished_other.
  - intros _. exists l1. unfold sent_up_to. by rewrite Fq, Fl, Fs.
Qed.

(** The requests before the next one expect responses. *)
Lemma expecting_sent b a p l1 l2 : inv b a → ai_MainLoopPort a = l1 ++ p :: l2 → ai_LastAITM a = last l1 → Forall (expecting a) l1.
Proof.
  intros Hi Hq Hl. destruct (last l1) as [q|] eqn:Hq1; [|by apply last_None in Hq1 as ->]. apply last_Some in Hq1 as [l ->].
  destruct (av_last _ _ _ Hi q Hl) as (_ & k1 & k2 & Hk & Hf). pose proof (pk_queue _ _ _ (av_placed _ _ _ Hi)) as Hnd.
  rewrite Hk in Hq. assert (q ∉ k1) as Hk1 by (rewrite Hk in Hnd; by apply nodup_split in Hnd as (? & _)).
  rewrite Hk, Hq, <- app_assoc in Hnd. assert (q ∉ l) as Hl1 by (by apply nodup_split in Hnd as (? & _)).
  rewrite <- app_assoc in Hq. simpl in Hq. by apply split_unique in Hq as [-> _].
Qed.

Lemma wpb_requestSent b a p m l1 l2 (request : Msg) : inv b a → schedulable a → ai_MainLoopPort a = l1 ++ p :: l2 → ai_LastAITM a = last l1 →
  0 <= ai_RegistrarSocket a → ai_Messages a !! p = Some m → (b = true → packable request) →
  wpb b (requestSent cfg env p request) (λ _ a', round_done b l2 true a') a.
Proof.
  intros Hi Hs Hq Hl Hsk Hm Hr. pose proof (pk_queue _ _ _ (av_placed _ _ _ Hi)) as Hnd. rewrite Hq in Hnd.
  pose proof (nodup_split _ _ _ Hnd) as (Hp1 & Hp2 & _). assert (p ∈ ai_MainLoopPort a) as Hin by (rewrite Hq; set_solver).
  assert (sent_up_to l1 a) as Hup by (by left). pose proof (sent_not p l1 l2 a Hnd Hup) as Hne.
  assert (∀ port, p ∉ replyPort port a) as Hnp by (intros port; by apply (pk_either _ _ _ (av_placed _ _ _ Hi))).
  destruct (av_request _ _ _ Hi p m Hin Hm) as [Htr _].
  unfold requestSent, asapTime. apply wpb_bind, wpb_ask. set (a0 := ai_set_Tick _ a). apply wpb_bind. eapply wpb_aitm_update; [exact Hm|]. cbv beta.
  set (m1 := am_set_TransmissionTimeStamp _ _). set (a1 := ai_set_Messages _ a0).
  assert (alike a a0) as Ha0 by done. assert (inv b a0) as Hi0 by exact (alike_inv cfg b a a0 Ha0 Hi).
  apply wpb_bind. eapply wpb_aitm_get; [by apply lookup_insert_eq|]. destruct (am_ResponseExpected m1) eqn:Hex; cbn [negb].
  - apply wpb_bind, wpb_modify, wpb_bind, wpb_ask. eapply wpb_aitm_update; [simpl; by apply lookup_insert_eq|]. cbv beta. simpl. set (m2 := am_set_ResponseTimeoutNeedsScheduling _ _). rewrite insert_insert_eq.
    assert (inv b (ai_set_Messages (<[p := m2]> (ai_Messages a0)) a0)) as Hi2.
    { apply (inv_message b a0 p m m2); try done. intros port Hport. by apply Hnp in Hport. }
    split_and!.
    + split; [apply Hi2|apply Hi2|apply Hi2|]. intros q [= <-]. split; [done|]. exists l1, l2. split; [done|]. apply Forall_app. split.
      * eapply Forall_impl; [exact (expecting_sent b _ p l1 l2 Hi2 Hq Hl)|]. done.
      * apply Forall_singleton. exists m2. simpl. by rewrite lookup_insert_eq.
    + intros q [= <-]. right. exists m2. simpl. by rewrite lookup_insert_eq.
    + intros _. exists (l1 ++ [p]). split; [simpl; by rewrite Hq, <- app_assoc|]. left. simpl. by rewrite last_snoc.
  - apply wpb_bind. eapply wpb_run; [by apply (remove_run a1 p l1 l2)|]. eapply wpb_run; [apply delete_run; simpl; by apply lookup_insert_eq|].
    change (finished p None m1 (ai_set_MainLoopPort (l1 ++ l2) a1)) with (finished p None m1 (ai_set_Messages (<[p := m1]> (ai_Messages a0)) (ai_set_MainLoopPort (l1 ++ l2) a0))).
    pose proof (finished_store p None m1 m1 (ai_set_MainLoopPort (l1 ++ l2) a0)) as Hfs. simpl in Hfs |- *. rewrite Hfs.
    split_and!; [exact (inv_freed b a0 p l1 l2 Hi0 Hq Hne)| |].
    + apply (schedulable_frame p a); try done. intros q Hqp. by apply lookup_delete_ne.
    + intros _. by exists l1.
Qed.

Lemma wpb_handleRequest b a p l1 l2 : inv b a → schedulable a → ai_MainLoopPort a = l1 ++ p :: l2 → sent_up_to l1 a →
  wpb b (handleRequest cfg env p) (round_done b l2) a.
Proof.
  intros Hi Hs Hq Hl. pose proof (pk_queue _ _ _ (av_placed _ _ _ Hi)) as Hnd. rewrite Hq in Hnd.
  pose proof (nodup_split _ _ _ Hnd) as (Hp1 & Hp2 & _). assert (p ∈ ai_MainLoopPort a) as Hin by (rewrite Hq; set_solver).
  pose proof (sent_not p l1 l2 a Hnd Hl) as Hne. destruct (queue_lookup cfg b a p Hi Hin) as (m & Hm & Htr & Hpk).
  assert (∀ port, p ∉ replyPort port a) as Hnp by (intros port; by apply (pk_either _ _ _ (av_placed _ _ _ Hi))).
  unfold handleRequest. apply wpb_bind. eapply wpb_aitm_update; [exact Hm|]. cbv beta. set (m1 := am_set_TransmissionTrials _ m). set (a1 := ai_set_Messages _ a).
  assert (ai_Messages a1 !! p = Some m1) as Hm1 by (by apply lookup_insert_eq). apply wpb_bind. eapply wpb_aitm_get; [exact Hm1|].
  destruct (Z.ltb_spec (ac_RegistrarRequestMaxTrials cfg) (am_TransmissionTrials m1)) as [Hmax|Hmax].
  { apply wpb_bind. eapply wpb_run; [by apply (giveUp_run a1 p m1 l1 l2)|]. apply wpb_ret.
    change (ai_set_MainLoopPort (l1 ++ l2) a1) with (ai_set_Messages (<[p := m1]> (ai_Messages a)) (ai_set_MainLoopPort (l1 ++ l2) a)).
    pose proof (finished_store p (am_ReplyPort m1) m1 (am_set_ReplyPort None (am_set_Error (refusal a1) m1)) (ai_set_MainLoopPort (l1 ++ l2) a)) as Hfs. simpl in Hfs |- *. rewrite Hfs.
    apply (round_finished b a p m); try done. intros _. right. unfold refusal. simpl. by destruct (_ <? 0). }
  assert (inv b a1) as Hi1.
  { apply (inv_message b a p m m1); try done; [|by intros port Hport; apply Hnp in Hport]. intros _. split; [simpl in *; lia|done]. }
  assert (schedulable a1) as Hs1 by (apply (schedulable_frame p a); try done; intros q Hqp; by apply lookup_insert_ne).
  apply wpb_bind, wpb_get. destruct (Z.leb_spec 0 (ai_RegistrarSocket a1)) as [Hsk|Hsk].
  - apply wpb_bind. eapply wpb_mono; [apply wpb_send, Hpk|]. intros [sent request] a2 [H2 Hpk2]. cbn [fst snd] in *.
    pose proof H2 as (E1 & E2 & E3 & E4 & E5 & E6). assert (inv b a2) as Hi2 by exact (alike_inv cfg b _ _ H2 Hi1).
    assert (schedulable a2) as Hs2 by exact (alike_schedulable _ _ H2 Hs1). assert (ai_Messages a2 !! p = Some m1) as Hm2 by (by rewrite E1).
    destruct sent; cbn [negb].
    + apply wpb_bind. eapply wpb_mono; [apply (wpb_requestSent b a2 p m1 l1 l2); try done|].
      * by rewrite E2.
      * rewrite E4. destruct Hl as [Hl|[Hl _]]; [done|]. simpl in Hsk. lia.
      * by rewrite E5.
      * intros [] a3 H3. by apply wpb_ret.
    + apply wpb_bind. eapply wpb_aitm_update; [exact Hm2|]. cbv beta. apply wpb_bind.
      assert (inv b (ai_set_Messages (<[p := am_set_Request request m1]> (ai_Messages a2)) a2)) as Hi3.
      { apply (inv_message b a2 p m1); try done.
        - intros _. split; [simpl in *; lia|done].
        - intros port Hport. exfalso. apply (Hnp port). unfold replyPort in *. rewrite E3 in Hport. exact Hport. }
      eapply wpb_mono; [by apply (wpb_disconnect b b)|]. intros [] a4 Hcut. apply wpb_ret. split_and!; [by eapply cut_inv| |done].
      intros q Hq4. destruct Hcut as (_ & _ & _ & Hl4 & _). congruence.
  - apply wpb_ret. split_and!; [done|done|]. intros _. exists (l1 ++ [p]). split; [simpl; by rewrite Hq, <- app_assoc|].
    right. split; [done|]. exact (no_last _ _ Hi1 Hsk).
Qed.

Lemma wpb_handleRequests b fuel : ∀ a x l1 l2, inv b a → schedulable a → ai_MainLoopPort a = l1 ++ l2 → x = head l2 → sent_up_to l1 a →
  (length l2 <= fuel)%nat → wpb b (handleRequests cfg env fuel x) (λ _ a', inv b a' ∧ schedulable a') a.
Proof.
  induction fuel as [|fuel IH]; intros a x l1 [|p l2] Hi Hs Hq -> Hl Hf; simpl in *; [by apply wpb_ret|lia|by apply wpb_ret|].
  pose proof (pk_queue _ _ _ (av_placed _ _ _ Hi)) as Hnd. rewrite Hq in Hnd. pose proof (nodup_split _ _ _ Hnd) as (Hp1 & _).
  apply wpb_bind. eapply wpb_run; [unfold interThreadMessagePortGetNextMessage, deref; rewrite Hq, nextMessage_split by done; reflexivity|].
  apply wpb_bind. eapply wpb_mono; [by apply (wpb_handleRequest b a p l1 l2)|]. intros goOn a1 (Hi1 & Hs1 & Hgo).
  destruct goOn; [|by apply wpb_ret]. destruct (Hgo eq_refl) as (l1' & Hq1 & Hl1). apply (IH a1 (head l2) l1' l2); try done. lia.
Qed.

Lemma wpb_handleQueue b a x : inv b a → scheduled a → upcoming x a → wpb b (handleQueue cfg env x) (λ _ a', inv b a' ∧ schedulable a') a.
Proof.
  intros Hi Hs Hu. apply scheduled_schedulable in Hs. unfold handleQueue. apply wpb_bind. eapply wpb_run; [reflexivity|]. destruct x as [p|].
  - destruct (Hu p eq_refl) as (l1 & l2 & Hq & Hl). apply (wpb_handleRequests b _ a (Some p) l1 (p :: l2)); try done; [by left|]. rewrite Hq, length_app. lia.
  - destruct (length _); by apply wpb_ret.
Qed.

(** ** Timeouts *)

(** A message but for what is to be scheduled. *)
Definition unscheduled : AITM → AITM := am_set_ResponseTimeoutNeedsScheduling false.

(** Nothing but timeouts changes. *)
Definition timed a a' : Prop := (∀ q, unscheduled <$> ai_Messages a' !! q = unscheduled <$> ai_Messages a !! q) ∧
  ai_MainLoopPort a' = ai_MainLoopPort a ∧ ai_ReplyPorts a' = ai_ReplyPorts a ∧ ai_LastAITM a' = ai_LastAITM a ∧
  ai_RegistrarSocket a' = ai_RegistrarSocket a ∧ (ai_RegistrarTimeoutTimer a ≠ None → ai_RegistrarTimeoutTimer a' = ai_RegistrarTimeoutTimer a).

Lemma wpb_scheduleTimeouts b c l : ∀ a, inv c a → (∀ p, p ∈ l → p ∈ ai_MainLoopPort a) → NoDup l →
  wpb b (scheduleTimeouts l) (λ _ a', inv c a' ∧ timed a a' ∧
    ∀ p m, p ∈ l → ai_Messages a !! p = Some m → am_ResponseExpected m = true → am_ResponseTimeoutNeedsScheduling m = true →
      ai_RegistrarTimeoutTimer a' ≠ None) a.
Proof.
  induction l as [|p l IH]; intros a Hi Hsub Hnd; simpl.
  { apply wpb_ret. split_and!; try done. intros p m Hp. by apply elem_of_nil in Hp. }
  apply NoDup_cons in Hnd as [Hpl Hnd]. assert (p ∈ ai_MainLoopPort a) as Hin by (apply Hsub; left).
  destruct (queue_lookup cfg c a p Hi Hin) as (m & Hm & Hok). apply wpb_bind. eapply wpb_aitm_get; [exact Hm|]. apply wpb_bind, wpb_get.
  apply wpb_bind. eapply (wpb_mono _ _ (λ _ a1, ai_Messages a1 = ai_Messages a ∧ inv c a1 ∧ timed a a1 ∧
    (am_ResponseExpected m && am_ResponseTimeoutNeedsScheduling m = true → ai_RegistrarTimeoutTimer a1 ≠ None))).
  { destruct (am_ResponseExpected m && am_ResponseTimeoutNeedsScheduling m); [|by apply wpb_ret]. case_bool_decide as Ht; [|by apply wpb_ret].
    unfold startTimeout. apply wpb_bind, wpb_get, wpb_bind. eapply wpb_run; [by apply run_check, bool_decide_eq_true|]. eapply wpb_run; [reflexivity|].
    split; [done|]. split; [|by split_and!]. destruct Hi. by split. }
  intros [] a1 (Hm1 & Hi1 & Ht1 & Hn1). pose proof Ht1 as (T0 & T1 & T2 & T3 & T4 & T5). apply wpb_bind. eapply wpb_aitm_update; [by rewrite Hm1|]. cbv beta.
  set (m2 := am_set_ResponseTimeoutNeedsScheduling false m). set (a2 := ai_set_Messages _ a1). assert (p ∈ ai_MainLoopPort a1) as Hin1 by (by rewrite T1).
  assert (inv c a2) as Hi2.
  { apply (inv_message c a1 p m m2); try done; [by rewrite Hm1|]. intros port Hport. by apply (pk_either _ _ _ (av_placed _ _ _ Hi1) p port) in Hin1. }
  eapply wpb_mono; [apply (IH a2 Hi2); [|done]|].
  - intros q Hq. simpl. rewrite T1. apply Hsub. by right.
  - intros [] a3 (Hi3 & (U0 & U1 & U2 & U3 & U4 & U5) & Hn3). split; [done|]. simpl in U0, U1, U2, U3, U4, U5. split.
    { split_and!; [|congruence..|intros Ht; rewrite U5; rewrite T5 by done; done]. intros q. rewrite U0, Hm1.
      destruct (decide (q = p)) as [->|Hne]; [by rewrite lookup_insert_eq, Hm|by rewrite lookup_insert_ne]. }
    intros q x Hq Hx Hex Hns. apply elem_of_cons in Hq as [->|Hq].
    + assert (x = m) as -> by congruence. rewrite U5; apply Hn1; by rewrite Hex, Hns.
    + apply (Hn3 q x); try done. simpl. rewrite lookup_insert_ne by (intros ->; done). by rewrite Hm1.
Qed.

Lemma wpb_setTimeout b c a : inv c a → schedulable a → wpb b setTimeout (λ _ a', inv c a' ∧ timed a a' ∧ scheduled a') a.
Proof.
  intros Hi Hs. unfold setTimeout. apply wpb_bind. eapply wpb_run; [reflexivity|].
  eapply wpb_mono; [apply (wpb_scheduleTimeouts b c); [exact Hi|done|apply (av_placed _ _ _ Hi)]|].
  intros [] a' (Hi' & Ht & Hn). split; [done|]. split; [done|]. destruct Ht as (T0 & T1 & T2 & T3 & T4 & T5). intros Hl. rewrite T3 in Hl. destruct (ai_LastAITM a) as [p|] eqn:Hp; [|done].
  destruct (Hs p Hp) as [Ht|(m & Hm & Hex & Hns)]; [by rewrite T5|]. apply (Hn p m); try done. by apply (last_in_queue cfg c).
Qed.

(** ** Beginning of a round *)

Lemma wpb_nextRequest b c a : inv c a → wpb b nextRequest (λ x a', a' = a ∧ upcoming x a) a.
Proof.
  intros Hi. unfold nextRequest. apply wpb_bind, wpb_get. destruct (ai_LastAITM a) as [p|] eqn:Hl.
  - destruct (av_last _ _ _ Hi p Hl) as (_ & l1 & l2 & Hq & _). pose proof (pk_queue _ _ _ (av_placed _ _ _ Hi)) as Hnd. rewrite Hq in Hnd.
    apply nodup_split in Hnd as (Hp1 & _). eapply wpb_run; [unfold interThreadMessagePortGetNextMessage, deref; rewrite Hq, nextMessage_split by done; reflexivity|].
    split; [done|]. intros q Hx. destruct l2 as [|y l2]; simplify_eq/=. exists (l1 ++ [p]), l2. rewrite last_snoc, <- app_assoc. by split.
  - eapply wpb_run; [reflexivity|]. split; [done|]. intros q Hx. destruct (ai_MainLoopPort a) as [|y l] eqn:Hq; simplify_eq/=. by exists [], l.
Qed.

Lemma wpb_connectFor b c x a : inv c a → wpb b (connectFor env x) (λ _ a', joined a a') a.
Proof.
  intros Hi. unfold connectFor. apply wpb_bind, wpb_get, wpb_bind. eapply wpb_run; [reflexivity|]. destruct (_ && _); [|by apply wpb_ret].
  apply wpb_bind. eapply wpb_mono; [apply (wpb_connect b c); by eapply alike_inv; [|exact Hi]|]. intros connected a' Hj. by apply wpb_ret.
Qed.

Lemma joined_upcoming x a a' : joined a a' → upcoming x a → upcoming x a'.
Proof. intros (_ & Hq & _ & Hl & _) Hu. unfold upcoming. by rewrite Hq, Hl. Qed.
Lemma joined_scheduled a a' : joined a a' → scheduled a → scheduled a'.
Proof. intros (_ & _ & _ & Hl & Ht & _) Hs. unfold scheduled. by rewrite Hl, Ht. Qed.

(** ** Responses *)

(** Whether the connection is given up with this response. *)
Definition disconnects m (response : Msg) : bool :=
  negb (responseMatches (rm_Type response) (rm_Type (am_Request m))) || reconnectAfter m response.

(** The first request of the queue, of which [l] is the rest, got the
    response. *)
Definition responded p m (l : list ptr) (response : Msg) a a' : Prop :=
  let m' := am_set_ReplyPort None (am_set_Response (Some response) m) in
  ai_Messages a' = ai_Messages (finished p (am_ReplyPort m) m' a) ∧
  ai_ReplyPorts a' = ai_ReplyPorts (finished p (am_ReplyPort m) m' a) ∧
  ai_MainLoopPort a' = l ∧
  (if disconnects m response then ai_LastAITM a' = None ∧ ai_RegistrarSocket a' < 0
   else ai_LastAITM a' = (if decide (ai_LastAITM a = Some p) then None else ai_LastAITM a) ∧ ai_RegistrarSocket a' = ai_RegistrarSocket a) ∧
  match ai_LastAITM a' with
  | None => ai_RegistrarTimeoutTimer a' = None
  | Some _ => ∃ q l' n, l = q :: l' ∧ ai_Messages a !! q = Some n ∧ ai_RegistrarTimeoutTimer a' = Some (am_ResponseTimeoutTimeStamp n)
  end.

Lemma responded_last p m l response a a' : responded p m l response a a' →
  (ai_LastAITM a' = None ∨ ai_LastAITM a' = ai_LastAITM a ∧ ai_RegistrarSocket a' = ai_RegistrarSocket a) ∧ ai_LastAITM a' ≠ Some p.
Proof.
  intros (_ & _ & _ & Hl & _). destruct (disconnects m response); destruct Hl as [Hl Hs]; [rewrite Hl; by split; [left|]|].
  rewrite Hl. case_decide; [by split; [left|]|]. by split; [right|].
Qed.

Lemma responded_inv b a a' p m l response : inv b a → ai_MainLoopPort a = p :: l → ai_Messages a !! p = Some m → responded p m l response a a' → inv b a'.
Proof.
  intros Hi Hq Hm Hres. pose proof (responded_last _ _ _ _ _ _ Hres) as [R4 R5]. destruct Hres as (R1 & R2 & R3 & _). set (m' := am_set_ReplyPort None _) in *.
  set (a1 := ai_set_LastAITM (ai_LastAITM a') (ai_set_RegistrarSocket (ai_RegistrarSocket a') (ai_set_RegistrarTimeoutTimer (ai_RegistrarTimeoutTimer a') a))).
  assert (inv b a1) as Hi1.
  { destruct Hi as [Hp Hr Ha Hl]. split; [done|done|done|]. intros q Hq1. simpl in *. destruct R4 as [R4|[R4 R6]]; [congruence|].
    rewrite R4 in Hq1. rewrite R6. exact (Hl q Hq1). }
  assert (inv b (finished p (am_ReplyPort m) m' (ai_set_MainLoopPort l a1))) as Hi2.
  { apply (inv_finished b a1 p m [] l); try done. intros _. by left. }
  eapply alike_inv; [|exact Hi2]. destruct (finished_fields p (am_ReplyPort m) m' (ai_set_MainLoopPort l a1)) as (F1 & F2 & F3 & F4).
  split_and!; [rewrite R1; by destruct (am_ReplyPort m)|by rewrite F1|rewrite R2; by destruct (am_ReplyPort m)|by rewrite F2|by rewrite F3|by rewrite F4].
Qed.

Lemma responded_scheduled a a' p m l response : responded p m l response a a' → scheduled a'.
Proof. intros (_ & _ & _ & _ & Ht) Hl. destruct (ai_LastAITM a'); [|done]. destruct Ht as (? & ? & ? & _ & _ & ->). done. Qed.

Lemma startTimeout_run a t : ai_RegistrarTimeoutTimer a = None → startTimeout t a = Some (tt, ai_set_RegistrarTimeoutTimer (Some t) a).
Proof. intros Ht. unfold startTimeout, mbind, M_bind, get. simpl. by rewrite bool_decide_true by done. Qed.

(** The requests before the last one stay in front. *)
Lemma last_behind b a p l q : inv b a → ai_MainLoopPort a = p :: l → ai_LastAITM a = Some q → q ≠ p → ∃ x l', l = x :: l'.
Proof.
  intros Hi Hq Hl Hne. pose proof (last_in_queue cfg b a q Hi Hl) as Hin. rewrite Hq in Hin. apply elem_of_cons in Hin as [?|Hin]; [done|].
  destruct l as [|x l']; [by apply elem_of_nil in Hin|eauto].
Qed.

(** The connection may be given up. *)
Lemma wpb_disconnects b m (response : Msg) a : (ai_RegistrarSocket a < 0 → ai_LastAITM a = None) → ai_RegistrarTimeoutTimer a = None →
  wpb b (if responseMatches (rm_Type response) (rm_Type (am_Request m))
         then if reconnectAfter m response then asapInstanceDisconnectFromRegistrar true else mret tt
         else asapInstanceDisconnectFromRegistrar true)
    (λ _ a2, ai_Messages a2 = ai_Messages a ∧ ai_ReplyPorts a2 = ai_ReplyPorts a ∧ ai_MainLoopPort a2 = ai_MainLoopPort a ∧ ai_RegistrarTimeoutTimer a2 = None ∧
      if disconnects m response then ai_LastAITM a2 = None ∧ ai_RegistrarSocket a2 < 0
      else ai_LastAITM a2 = ai_LastAITM a ∧ ai_RegistrarSocket a2 = ai_RegistrarSocket a) a.
Proof.
  intros Hno Ht. assert (wpb b (asapInstanceDisconnectFromRegistrar (ST := ST) true) (λ _ a2, ai_Messages a2 = ai_Messages a ∧ ai_ReplyPorts a2 = ai_ReplyPorts a ∧
    ai_MainLoopPort a2 = ai_MainLoopPort a ∧ ai_RegistrarTimeoutTimer a2 = None ∧ ai_LastAITM a2 = None ∧ ai_RegistrarSocket a2 < 0) a) as Hd.
  { unfold asapInstanceDisconnectFromRegistrar. apply wpb_bind, wpb_get. destruct (Z.leb_spec 0 (ai_RegistrarSocket a)) as [Hs|Hs].
    - unfold stopTimeout, asapOutput. by repeat first [apply wpb_bind|apply wpb_modify].
    - apply wpb_ret. split_and!; try done. by apply Hno. }
  unfold disconnects. destruct (responseMatches _ _); [|exact Hd]. simpl. destruct (reconnectAfter _ _); [exact Hd|]. by apply wpb_ret.
Qed.

(** The request is finished, and the timeout of the next one is set. *)
Lemma responded_intro a a4 p m l response t : let m1 := am_set_Response (Some response) m in
  ai_Messages a4 = <[p := m1]> (ai_Messages a) → ai_ReplyPorts a4 = ai_ReplyPorts a → ai_MainLoopPort a4 = l →
  (if disconnects m response then ai_LastAITM a4 = None ∧ ai_RegistrarSocket a4 < 0
   else ai_LastAITM a4 = (if decide (ai_LastAITM a = Some p) then None else ai_LastAITM a) ∧ ai_RegistrarSocket a4 = ai_RegistrarSocket a) →
  match ai_LastAITM a4 with
  | None => t = None
  | Some _ => ∃ q l' n, l = q :: l' ∧ ai_Messages a !! q = Some n ∧ t = Some (am_ResponseTimeoutTimeStamp n)
  end →
  responded p m l response a (ai_set_RegistrarTimeoutTimer t (finished p (am_ReplyPort m) (am_set_ReplyPort None m1) a4)).
Proof.
  intros m1 Hm Hr Hq Hd Ht. unfold responded. destruct (am_ReplyPort m) as [port|]; simpl; unfold replyPort; rewrite Hm, ?Hr; split_and!; try done.
  - by rewrite insert_insert_eq.
  - by rewrite delete_insert_eq.
Qed.

Lemma wpb_response b c a p m l response : inv c a → ai_MainLoopPort a = p :: l → ai_Messages a !! p = Some m →
  wpb b (asapInstanceHandleResponseFromRegistrar response) (λ _ a', responded p m l response a a') a.
Proof.
  intros Hi Hq Hm. unfold asapInstanceHandleResponseFromRegistrar. apply wpb_bind. eapply wpb_run.
  { unfold interThreadMessagePortDequeue, interThreadMessagePortGetFirstMessage, gets, mbind, M_bind. simpl. rewrite Hq. simpl.
    unfold interThreadMessagePortRemoveMessage, deref, mbind, M_bind. rewrite Hq. simpl. rewrite decide_True by done. reflexivity. }
  unfold stopTimeout. apply wpb_bind, wpb_modify, wpb_bind. eapply wpb_aitm_get; [exact Hm|].
  set (a1 := ai_set_RegistrarTimeoutTimer None _). apply wpb_bind.
  eapply wpb_mono; [apply (wpb_disconnects b m response a1); [exact (no_last c a Hi)|done]|].
  intros [] a2 (E1 & E2 & E3 & E4 & E5). change (ai_Messages a1) with (ai_Messages a) in E1. change (ai_ReplyPorts a1) with (ai_ReplyPorts a) in E2.
  change (ai_LastAITM a1) with (ai_LastAITM a) in E5. change (ai_RegistrarSocket a1) with (ai_RegistrarSocket a) in E5. apply wpb_bind. eapply wpb_aitm_update; [by rewrite E1|]. cbv beta. set (m1 := am_set_Response _ m).
  apply wpb_bind, wpb_get, wpb_bind. set (a3 := ai_set_Messages _ a2).
  eapply (wpb_mono _ _ (λ _ a4, a4 = ai_set_LastAITM (ai_LastAITM a4) a3 ∧ ai_LastAITM a4 = if decide (ai_LastAITM a2 = Some p) then None else ai_LastAITM a2)).
  { change (ai_LastAITM a3) with (ai_LastAITM a2). case_bool_decide as Hl; [rewrite decide_True by done; by apply wpb_modify|]. rewrite decide_False by done. apply wpb_ret. split; [by destruct a2|done]. }
  intros [] a4 (Ha4 & Hl4).
  assert (if disconnects m response then ai_LastAITM a4 = None ∧ ai_RegistrarSocket a2 < 0
    else ai_LastAITM a4 = (if decide (ai_LastAITM a = Some p) then None else ai_LastAITM a) ∧ ai_RegistrarSocket a2 = ai_RegistrarSocket a) as Hd4.
  { destruct (disconnects m response); destruct E5 as [E5 E6]; rewrite Hl4, E5; (split; [by try case_decide|done]). }
  assert (∀ q, ai_LastAITM a4 = Some q → ai_LastAITM a = Some q ∧ q ≠ p) as Hkept.
  { intros q Hq4. destruct (disconnects m response); destruct Hd4 as [Hd4 _]; [congruence|]. rewrite Hd4 in Hq4. case_decide; [done|]. split; congruence. }
  apply wpb_bind. eapply wpb_run; [apply (finish_run a4 p m1); rewrite Ha4; simpl; by apply lookup_insert_eq|].
  set (m2 := am_set_ReplyPort None m1) in *. apply wpb_bind, wpb_get.
  assert (ai_MainLoopPort a4 = l ∧ ai_RegistrarSocket a4 = ai_RegistrarSocket a2 ∧ ai_ReplyPorts a4 = ai_ReplyPorts a) as (K1 & K2 & K3) by (by rewrite Ha4).
  assert (ai_Messages a4 = <[p := m1]> (ai_Messages a)) as K4 by (by rewrite Ha4, <- E1). rewrite <- K2 in Hd4.
  destruct (finished_fields p (am_ReplyPort m1) m2 a4) as (G1 & G2 & G3 & G4). rewrite G2. destruct (ai_LastAITM a4) as [q|] eqn:Hl.
  - destruct (Hkept q eq_refl) as [Hla Hqp]. destruct (last_behind c a p l q Hi Hq Hla Hqp) as (x & l' & Hl').
    destruct (queue_lookup cfg c a x Hi) as (n & Hn & _); [rewrite Hq, Hl'; set_solver|].
    assert (x ≠ p) as Hne. { intros ->. pose proof (pk_queue _ _ _ (av_placed _ _ _ Hi)) as Hnd. rewrite Hq, Hl' in Hnd. apply NoDup_cons in Hnd as [Hnd _]. set_solver. }
    apply wpb_bind. eapply wpb_run; [unfold interThreadMessagePortGetFirstMessage, gets; rewrite G1, K1, Hl'; reflexivity|].
    apply wpb_bind. eapply wpb_run; [unfold deref; rewrite ?Hl'; reflexivity|]. apply wpb_bind. eapply (wpb_aitm_get _ x n).
    { rewrite finished_other, Ha4 by done. simpl. by rewrite lookup_insert_ne, E1 by done. }
    eapply wpb_run; [apply startTimeout_run; rewrite G4, Ha4; exact E4|]. apply (responded_intro a a4 p m l response); rewrite ?Hl; try done. by exists x, l', n.
  - apply wpb_ret. change (finished _ _ _ _) with (finished p (am_ReplyPort m) m2 a4).
    replace (finished p (am_ReplyPort m) m2 a4) with (ai_set_RegistrarTimeoutTimer None (finished p (am_ReplyPort m) m2 a4)).
    { apply (responded_intro a a4 p m l response); rewrite ?Hl; done. }
    assert (ai_RegistrarTimeoutTimer a4 = None) as Ht4 by (by rewrite Ha4). rewrite <- Ht4. destruct a4. by destruct (am_ReplyPort m).
Qed.

(** A response that nobody waits for. *)
Lemma wpb_response_empty b c a (response : Msg) : inv c a → ai_MainLoopPort a = [] → wpb b (asapInstanceHandleResponseFromRegistrar response) (λ _ a', cut a a') a.
Proof.
  intros Hi Hq. unfold asapInstanceHandleResponseFromRegistrar. apply wpb_bind. eapply wpb_run.
  { unfold interThreadMessagePortDequeue, interThreadMessagePortGetFirstMessage, gets, mbind, M_bind. simpl. rewrite Hq. reflexivity. }
  by apply (wpb_disconnect b c).
Qed.
End steps.
