(* ===== verification/AsapEvents.v ===== *)
(** * Threads, events and the main loop of the ASAP instance

    The main loop handles events of the connection and the timer, and then a
    round of requests; the port of the main loop is unlocked between the
    parts of a round, so that the operations of other threads come in
    between.  [asap_step] interleaves them. *)

From S2P Require Import Prelude Checksum Addresses PoolBasics Storage PoolElement PoolPolicy HandlespaceState PoolNode HandlespaceNode HandlespaceMgt Message MessageCreator MessageParser MessageWire MessageWrites MessageCreate MessageTransmit Registrar RegistrarQuiet RegistrarPackets AsapInstance AsapClient AsapInv AsapSteps.
From stdpp Require Import base list gmap numbers option sorting sets.
#[local] Open Scope Z_scope.

(** The operations of threads; those that wait are in two parts. *)
Inductive ClientOperation :=
| Register (port : ptr) (handle : PoolHandle) (pe : PoolElementNode) (waitForResponse : bool)
| RegisterWait (port : ptr)
| Deregister (port : ptr) (handle : PoolHandle) (identifier : Z) (waitForResponse : bool)
| DeregisterWait (port : ptr) (identifier : Z)
| Resolve (port : ptr) (handle : PoolHandle) (nodePtrs cacheElementTimeout : Z)
| ResolveWait (port : ptr) (handle : PoolHandle) (poolElementNodes cacheElementTimeout : Z)
| ReportFailure (handle : PoolHandle) (identifier : Z).

(** Where the main loop is: between two rounds, or in a round after the
    choice of the first request, after the connection and after the
    requests. *)
Inductive AsapPhase :=
| Idle
| Chosen (aitm : option ptr)
| Connected (aitm : option ptr)
| Handled.

Section events.
Context {ST : Type} `{Storage ST} `{Endian}.
Context (cfg : AsapConfig) (env : AsapEnvironment).
Context {A : Type} (convertFunction : PoolElementNode → option A).
Abbreviation PHM := (PoolHandlespaceManagement ST).
Abbreviation Msg := (RSerPoolMessage ST).
Abbreviation AI := (ASAPInstance (ST := ST)).
Abbreviation inv := (asap_inv cfg).
Implicit Types (a : AI) (p q port : ptr) (b : bool).

Definition clientOperation (c : ClientOperation) : M AI () :=
  match c with
  | Register port handle pe wait => _ ← asapInstanceRegisterBegin env port handle pe wait; mret tt
  | RegisterWait port => _ ← asapInstanceRegisterEnd port; mret tt
  | Deregister port handle identifier wait => _ ← asapInstanceDeregisterBegin env port handle identifier wait; mret tt
  | DeregisterWait port identifier => _ ← asapInstanceDeregisterEnd port identifier; mret tt
  | Resolve port handle n timeout => _ ← asapInstanceHandleResolutionBegin env convertFunction port handle n timeout; mret tt
  | ResolveWait port handle n timeout => _ ← asapInstanceHandleResolutionAtRegistrarEnd env convertFunction port handle n timeout; mret tt
  | ReportFailure handle identifier => _ ← asapInstanceReportFailure env handle identifier; mret tt
  end.

(** ** Operations that leave the requests alone *)

Definition calm {B} (m : M AI B) : Prop := ∀ a, wlp m (λ _ a', alike a a') a.

Lemma calm_ret {B} (x : B) : calm (mret x).
Proof. intros a. by apply wlp_ret. Qed.
Lemma calm_seq {B C} (m : M AI B) (k : B → M AI C) : calm m → (∀ x, calm (k x)) → calm (m ≫= k).
Proof.
  intros Hm Hk a. apply wlp_bind. eapply wlp_mono; [apply Hm|]. intros x a1 H1. cbv beta. eapply wlp_mono; [apply Hk|]. intros y a2 H2. exact (alike_trans _ _ _ H1 H2).
Qed.
Lemma calm_get : calm get.
Proof. intros a. by apply wlp_get. Qed.
Lemma calm_ask {B} (f : nat → B) : calm (ask f).
Proof. intros a. by eapply wlp_run. Qed.
Lemma calm_deref {B} (f : AI → option B) : calm (deref f).
Proof. intros a. by apply wlp_deref. Qed.
Lemma calm_abort {B} : calm (abort (A := B)).
Proof. intros a. apply wlp_abort. Qed.
Lemma calm_check b : calm (CHECK b).
Proof. intros a. by apply wlp_check. Qed.
Lemma calm_onOwn {B} (f : M PHM B) : calm (onOwn f).
Proof. intros a x a' Hr. unfold onOwn in Hr. destruct (f _) as [[y s]|]; [|done]. by injection Hr as _ <-. Qed.
Lemma calm_onCache {B} (f : M PHM B) : calm (onCache f).
Proof. intros a x a' Hr. unfold onCache in Hr. destruct (f _) as [[y s]|]; [|done]. by injection Hr as _ <-. Qed.
Lemma calm_output o : calm (asapOutput o).
Proof. intros a. by apply wlp_modify. Qed.
Lemma calm_identifier i : calm (modify (ai_set_RegistrarIdentifier i)).
Proof. intros a. by apply wlp_modify. Qed.
Lemma calm_walk {B} (next : ptr → M AI (option ptr)) (f : B → ptr → M AI B) fuel cur acc :
  (∀ p, calm (next p)) → (∀ x p, calm (f x p)) → calm (walk fuel next f cur acc).
Proof.
  intros Hn Hf a. apply (wlp_walk next f (λ _ a', alike a a')); [| |done].
  - intros x p a1 H1. eapply wlp_mono; [apply Hf|]. intros y a2 H2. exact (alike_trans _ _ _ H1 H2).
  - intros x p a1 H1. eapply wlp_mono; [apply Hn|]. intros y a2 H2. exact (alike_trans _ _ _ H1 H2).
Qed.
End events.

Create HintDb steady.
#[export] Hint Resolve calm_ret calm_get calm_ask calm_deref calm_abort calm_check calm_onOwn calm_onCache calm_output calm_identifier : steady.

(** Computations that are made of calm ones. *)
Ltac calm_tac :=
  repeat first
    [ solve [eauto with steady] | apply calm_seq | apply calm_walk
    | match goal with
      | |- ∀ _, _ => intros ?
      | |- calm (if ?c then _ else _) => destruct c
      | |- calm (match ?x with _ => _ end) => destruct x
      | |- calm (let _ := _ in _) => cbv zeta
      end ].

Section more_events.
Context {ST : Type} `{Storage ST} `{Endian}.
Context (cfg : AsapConfig) (env : AsapEnvironment).
Context {A : Type} (convertFunction : PoolElementNode → option A).
Abbreviation PHM := (PoolHandlespaceManagement ST).
Abbreviation Msg := (RSerPoolMessage ST).
Abbreviation AI := (ASAPInstance (ST := ST)).
Abbreviation inv := (asap_inv cfg).
Implicit Types (a : AI) (p q port : ptr) (b : bool).

Lemma calm_nodeMemory m : calm (nodeMemory (ST := ST) env m).
Proof. unfold nodeMemory, asapMalloc. calm_tac. Qed.
Lemma calm_registerOwn handle pe : calm (registerOwn (ST := ST) env handle pe).
Proof. unfold registerOwn, ownElement, asapTime. pose proof calm_nodeMemory. calm_tac. Qed.
Lemma calm_cacheElements handle t l : calm (cacheElements (ST := ST) env handle t l).
Proof.
  induction l as [|x l IH]; simpl; [apply calm_ret|]. unfold cacheElement, asapTime. pose proof calm_nodeMemory. calm_tac.
Qed.
Lemma calm_convertAll l : calm (convertAll (ST := ST) convertFunction l).
Proof. induction l as [|p l IH]; simpl; calm_tac. Qed.
Lemma calm_fromCache handle n purge : calm (asapInstanceHandleResolutionFromCache (ST := ST) env convertFunction handle n purge).
Proof. unfold asapInstanceHandleResolutionFromCache, asapTime. pose proof calm_convertAll. calm_tac. Qed.
Lemma calm_send (m : Msg) : calm (sendToRegistrar env m).
Proof. unfold sendToRegistrar. calm_tac. Qed.
Lemma calm_acknowledge (m : Msg) i : calm (acknowledge env m i).
Proof. unfold acknowledge. pose proof calm_send. calm_tac. Qed.
Lemma calm_acknowledgeElements (m : Msg) : calm (acknowledgeElements env m).
Proof. unfold acknowledgeElements, ownElement. pose proof calm_acknowledge. calm_tac. Qed.

(** ** Operations of threads *)

(** New requests are at the end of the queue, and the others are as they
    were. *)
Definition extends a a' : Prop :=
  (∃ k, ai_MainLoopPort a' = ai_MainLoopPort a ++ k) ∧ ai_LastAITM a' = ai_LastAITM a ∧ ai_RegistrarSocket a' = ai_RegistrarSocket a ∧
  ai_RegistrarTimeoutTimer a' = ai_RegistrarTimeoutTimer a ∧ ∀ q, q ∈ ai_MainLoopPort a → ai_Messages a' !! q = ai_Messages a !! q.

Lemma extends_trans a1 a2 a3 : extends a1 a2 → extends a2 a3 → extends a1 a3.
Proof.
  intros ([k1 K1] & L1 & S1 & T1 & M1) ([k2 K2] & L2 & S2 & T2 & M2). split_and!; [|congruence..|].
  - exists (k1 ++ k2). by rewrite K2, K1, app_assoc.
  - intros q Hq. rewrite M2, M1; [done|done|]. rewrite K1. set_solver.
Qed.

Lemma alike_extends a a' : alike a a' → extends a a'.
Proof. intros (E1 & E2 & _ & E4 & E5 & E6). split_and!; try done; [|by rewrite E1]. exists []. by rewrite E2, app_nil_r. Qed.

Lemma extends_scheduled a a' : extends a a' → scheduled a → scheduled a'.
Proof. intros (_ & Hl & _ & Ht & _) Hs. unfold scheduled. by rewrite Hl, Ht. Qed.

Lemma extends_schedulable b a a' : inv b a → extends a a' → schedulable a → schedulable a'.
Proof.
  intros Hi (_ & Hl & _ & Ht & Hm) Hs p Hp. rewrite Hl in Hp. rewrite Ht, Hm by (by apply (last_in_queue cfg b)). by apply Hs.
Qed.

Lemma extends_upcoming x a a' : extends a a' → upcoming x a → upcoming x a'.
Proof.
  intros ([k Hk] & Hl & _) Hu p Hp. destruct (Hu p Hp) as (l1 & l2 & Hq & Hla). exists l1, (l2 ++ k). rewrite Hk, Hq, Hl, <- app_assoc. by split.
Qed.

Definition quietly {B} b (m : M AI B) : Prop := ∀ a, inv b a → wlp m (λ _ a', inv b a' ∧ extends a a') a.

Lemma quietly_bind {B C} b (m : M AI B) (k : B → M AI C) : quietly b m → (∀ x, quietly b (k x)) → quietly b (m ≫= k).
Proof.
  intros Hm Hk a Hi. apply wlp_bind. eapply wlp_mono; [by apply Hm|]. intros x a1 [Hi1 H1]. cbv beta. eapply wlp_mono; [by apply Hk|].
  intros y a2 [Hi2 H2]. split; [done|]. exact (extends_trans _ _ _ H1 H2).
Qed.

Lemma calm_quietly {B} b (m : M AI B) : calm m → quietly b m.
Proof. intros Hm a Hi. eapply wlp_mono; [apply Hm|]. intros x a' Ha. split; [exact (alike_inv cfg b _ _ Ha Hi)|by apply alike_extends]. Qed.

(** A new request. *)
Lemma inv_added b a p m : inv b a → p ∉ dom (ai_Messages a) → request_ok cfg b m →
  inv b (ai_set_MainLoopPort (ai_MainLoopPort a ++ [p]) (ai_set_Messages (<[p := m]> (ai_Messages a)) a)).
Proof.
  intros [Hp Hr Ha Hl] Hno Hm. assert (∀ q, q ∈ dom (ai_Messages a) → q ≠ p) as Hne by (intros q Hq ->; done). split; simpl.
  - eapply placed_ext; [done| |by apply placed_added]. by rewrite dom_insert_L.
  - intros q x Hin [[-> <-]|[? Hx]]%lookup_insert_Some; [done|]. apply (Hr q); [|done]. apply elem_of_app in Hin as [?| ->%list_elem_of_singleton]; done.
  - intros port q x Hin [[-> <-]|[? Hx]]%lookup_insert_Some; [|by apply (Ha port q)]. exfalso. apply Hno, (pk_heap _ _ _ Hp). eauto.
  - intros q Hq. destruct (Hl q Hq) as (? & l1 & l2 & Hl12 & Hf). split; [done|]. exists l1, (l2 ++ [p]). rewrite Hl12, <- app_assoc. split; [done|].
    eapply Forall_impl; [exact Hf|]. intros c (x & Hx & Hex). exists x. simpl. rewrite lookup_insert_ne by (intros <-; apply Hno; by eapply elem_of_dom_2). done.
Qed.

Lemma quietly_submit b (request : Msg) expected (port : option ptr) : 0 <= ac_RegistrarRequestMaxTrials cfg → (b = true → packable request) →
  quietly b (aitm ← asapInterThreadMessageNew env request expected;
    match aitm with None => mret RSPERR_OUT_OF_MEMORY | Some p => enqueueRequest p port;; mret RSPERR_OKAY end).
Proof.
  intros Hmax Hr a Hi. apply wlp_bind. unfold asapInterThreadMessageNew, asapMalloc, asapTime. apply wlp_bind. eapply wlp_run; [reflexivity|].
  set (a1 := ai_set_Tick _ a). assert (alike a a1) as H1 by done. destruct (ae_Malloc env _).
  - apply wlp_bind. eapply wlp_run; [reflexivity|]. apply wlp_bind, wlp_get. set (a2 := ai_set_Tick _ a1). set (p := fresh _). set (m := MkAITM _ _ _ _ _ _ _ _ _ _).
    apply wlp_bind. eapply wlp_run; [reflexivity|]. apply wlp_ret. apply wlp_bind. unfold enqueueRequest. apply wlp_bind.
    apply (wpb_aitm_update false p m); [by apply lookup_insert_eq|]. simpl. rewrite insert_insert_eq.
    eapply wlp_run; [reflexivity|]. apply wlp_ret. assert (p ∉ dom (ai_Messages a2)) as Hno by apply is_fresh.
    split; [apply (inv_added b a2); [exact (alike_inv cfg b a a2 ltac:(done) Hi)|done|done]|].
    split_and!; try done; [by exists [p]|]. intros q Hq. simpl. apply lookup_insert_ne. intros <-. apply Hno, (pk_heap _ _ _ (av_placed _ _ _ Hi)). by left.
  - apply wlp_ret, wlp_ret. split; [exact (alike_inv cfg b _ _ H1 Hi)|by apply alike_extends].
Qed.

Lemma quietly_waitIO b port : quietly b (asapInstanceWaitIO (ST := ST) port).
Proof.
  intros a Hi. unfold asapInstanceWaitIO. apply wlp_bind, wlp_get. destruct (replyPort port a) as [|p l] eqn:Hp; [apply wlp_abort|].
  apply wlp_bind. eapply wlp_run; [reflexivity|]. apply wlp_bind. unfold aitm_get. apply wlp_deref. simpl. intros m Hm. apply wlp_bind. eapply wlp_run; [reflexivity|].
  apply wlp_ret. assert (p ∉ ai_MainLoopPort a) as Hno.
  { intros Hin. apply (pk_either _ _ _ (av_placed _ _ _ Hi) p port) in Hin. apply Hin. rewrite Hp. left. }
  destruct Hi as [Hpl Hr Ha Hl]. split.
  - assert (∀ port', replyPort port' (ai_set_Messages (delete p (ai_Messages a)) (ai_set_ReplyPorts (<[port := l]> (ai_ReplyPorts a)) a)) =
      (if decide (port' = port) then l else replyPort port' a)) as He.
    { intros port'. unfold replyPort. simpl. case_decide; [subst; by rewrite lookup_insert_eq|by rewrite lookup_insert_ne]. }
    split; simpl.
    + eapply placed_ext; [exact He| |by eapply placed_taken]. simpl. by rewrite dom_delete_L.
    + intros q x Hin [_ Hx]%lookup_delete_Some. by apply (Hr q).
    + intros port' q x Hin [_ Hx]%lookup_delete_Some. rewrite He in Hin. apply (Ha port' q); [|done]. case_decide; [subst; rewrite Hp; by right|done].
    + intros q Hq. destruct (Hl q Hq) as (? & l1 & l2 & Hl12 & Hf). split; [done|]. exists l1, l2. split; [done|]. apply Forall_forall. intros c Hc.
      rewrite Forall_forall in Hf. destruct (Hf c Hc) as (x & Hx & Hex). exists x. simpl. rewrite lookup_delete_ne; [done|]. intros <-. apply Hno. rewrite Hl12. set_solver.
  - split_and!; try done; [exists []; by rewrite app_nil_r|]. intros q Hq. simpl. apply lookup_delete_ne. by intros <-.
Qed.

(** ** Requests whose packets can be created *)

Definition blankRequest (type : Z) (handle : PoolHandle) : Msg :=
  rm_set_Handle handle (rm_set_Flags 0 (rm_set_Type type (rserpoolMessageNew (replicate (Z.to_nat ASAP_BUFFER_SIZE) 0) ASAP_BUFFER_SIZE))).

Definition registrationRequest (handle : PoolHandle) (pe : PoolElementNode) : Msg :=
  rm_set_PoolElementPtr (Some pe) (blankRequest AHT_REGISTRATION handle).

(** The copy of the pool element that is sent when nobody waits. *)
Definition sentCopy (pe : PoolElementNode) : PoolElementNode :=
  poolElementNodeNew (pen_Identifier pe) (pen_HomeRegistrarIdentifier pe) (pen_RegistrationLife pe) (pen_PolicySettings pe) (pen_UserTransport pe) None (-1) 0.

Lemma handleWire_short (handle : PoolHandle) : handle_wf handle → zlen (handleWire handle) <= MAX_POOLHANDLESIZE + 8.
Proof.
  intros ([_ Hl] & Hlen & _). unfold handleWire. rewrite zlen_tlv.
  assert (zlen (take (Z.to_nat (ph_Size handle)) (ph_Handle handle)) <= MAX_POOLHANDLESIZE) as Hz by (unfold zlen; rewrite length_take; lia).
  pose proof (padding_range (4 + zlen (take (Z.to_nat (ph_Size handle)) (ph_Handle handle)))). lia.
Qed.

Lemma packable_resolution handle n : handle_wf handle → packable (rm_set_Addresses n (blankRequest AHT_HANDLE_RESOLUTION handle)).
Proof.
  intros Hh. exists 0, PPID_ASAP, (handleWire handle ++ if n =? 0 then [] else resolutionWire n). split; [by apply blank_sendable|]. split.
  - unfold bodyWire, handlePart, provided. cbn -[handleWire resolutionWire handle_wf]. by rewrite decide_True.
  - pose proof (handleWire_short handle Hh). rewrite zlen_app. assert (zlen (if n =? 0 then [] else resolutionWire n) <= 16).
    { destruct (n =? 0); [by rewrite zlen_nil|]. unfold resolutionWire. rewrite zlen_tlv.
      assert (zlen (if n =? RSPGETADDRS_MAX then [255; 255; 255; 255] else htonl n) = 4) as -> by (by destruct (_ =? _)). pose proof (padding_range (4 + 4)). lia. }
    unfold MAX_POOLHANDLESIZE in *. change (pb_OriginalBufferSize _) with 65536. lia.
Qed.

Lemma packable_identified handle type i : handle_wf handle → type = AHT_DEREGISTRATION ∨ type = AHT_ENDPOINT_UNREACHABLE →
  packable (rm_set_Identifier i (blankRequest type handle)).
Proof.
  intros Hh Ht. exists 0, PPID_ASAP, (handleWire handle ++ identifierWire i). split; [by apply blank_sendable|]. split.
  - destruct Ht as [-> | ->]; unfold bodyWire, handleAndIdentifier, handlePart, provided; cbn -[handleWire identifierWire handle_wf]; by rewrite decide_True.
  - pose proof (handleWire_short handle Hh). rewrite zlen_app. assert (zlen (identifierWire i) <= 16).
    { unfold identifierWire. rewrite zlen_tlv, zlen_htonl. pose proof (padding_range (4 + 4)). lia. }
    unfold MAX_POOLHANDLESIZE in *. change (pb_OriginalBufferSize _) with 65536. lia.
Qed.

(** If [b], the packet of the request can be created. *)
Definition client_ok b (c : ClientOperation) : Prop := b = true →
  match c with
  | Register _ handle pe _ => packable (registrationRequest handle pe) ∧ packable (registrationRequest handle (sentCopy pe))
  | Deregister _ handle _ _ | Resolve _ handle _ _ | ReportFailure handle _ => handle_wf handle
  | _ => True
  end.

Lemma quietly_newMessage b (k : Msg → M AI (option Z)) :
  quietly b (k (rserpoolMessageNew (replicate (Z.to_nat ASAP_BUFFER_SIZE) 0) ASAP_BUFFER_SIZE)) → quietly b (newMessage env k).
Proof.
  intros Hk. unfold newMessage, asapMalloc. apply quietly_bind; [apply calm_quietly, calm_ask|]. intros [|]; [done|]. apply calm_quietly, calm_ret.
Qed.

Lemma quietly_beginIO b port (request : Msg) : 0 <= ac_RegistrarRequestMaxTrials cfg → (b = true → packable request) → quietly b (beginIO env port request).
Proof. intros Hmax Hr. unfold beginIO. apply quietly_bind; [by apply quietly_submit|]. intros x. apply calm_quietly, calm_ret. Qed.

Lemma quietly_sendRequest b (request : Msg) expected : 0 <= ac_RegistrarRequestMaxTrials cfg → (b = true → packable request) →
  quietly b (result ← asapInstanceSendRequest env request expected; mret (Some result)).
Proof. intros Hmax Hr. apply quietly_bind; [by apply quietly_submit|]. intros x. apply calm_quietly, calm_ret. Qed.

Lemma quietly_then_unit {B} b (m : M AI B) : quietly b m → quietly b (_ ← m; mret tt).
Proof. intros Hm. apply quietly_bind; [done|]. intros x. apply calm_quietly, calm_ret. Qed.

Lemma quietly_register b port handle pe wait : 0 <= ac_RegistrarRequestMaxTrials cfg → client_ok b (Register port handle pe wait) →
  quietly b (asapInstanceRegisterBegin (ST := ST) env port handle pe wait).
Proof.
  intros Hmax Hok. apply quietly_newMessage, quietly_bind; [apply calm_quietly, calm_registerOwn|]. intros result.
  destruct (result =? RSPERR_OKAY); [|apply calm_quietly, calm_ret]. destruct wait; [apply quietly_beginIO; [done|]; by intros [? _]%Hok|].
  unfold asapMalloc. apply quietly_bind; [apply calm_quietly, calm_ask|]. intros node. apply quietly_bind.
  { destruct node; apply calm_quietly; [apply calm_ask|apply calm_ret]. }
  intros [|]; cbn [transportAddressBlockDuplicate]; [|apply calm_quietly, calm_ret]. apply quietly_sendRequest; [done|]. by intros [_ ?]%Hok.
Qed.

Lemma quietly_deregister b port handle i wait : 0 <= ac_RegistrarRequestMaxTrials cfg → client_ok b (Deregister port handle i wait) →
  quietly b (asapInstanceDeregisterBegin (ST := ST) env port handle i wait).
Proof.
  intros Hmax Hok. unfold asapInstanceDeregisterBegin. apply quietly_bind; [apply calm_quietly, calm_onOwn|]. intros result. destruct (negb _); [apply calm_quietly, calm_ret|].
  apply quietly_newMessage. destruct wait; [apply quietly_beginIO|apply quietly_sendRequest]; try done; intros Hh%Hok; (apply (packable_identified handle); [exact Hh|by left]).
Qed.

Lemma quietly_resolve b port handle n t : 0 <= ac_RegistrarRequestMaxTrials cfg → client_ok b (Resolve port handle n t) →
  quietly b (asapInstanceHandleResolutionBegin (ST := ST) env convertFunction port handle n t).
Proof.
  intros Hmax Hok. unfold asapInstanceHandleResolutionBegin. cbv zeta. apply quietly_bind; [apply calm_quietly, calm_fromCache|]. intros result.
  destruct (negb _); [|apply calm_quietly, calm_ret]. apply quietly_bind; [|intros x; apply calm_quietly, calm_ret].
  apply quietly_newMessage, quietly_beginIO; [done|]. intros Hh%Hok. by apply (packable_resolution handle).
Qed.

Lemma quietly_report b handle i : 0 <= ac_RegistrarRequestMaxTrials cfg → client_ok b (ReportFailure handle i) →
  quietly b (asapInstanceReportFailure (ST := ST) env handle i).
Proof.
  intros Hmax Hok. unfold asapInstanceReportFailure. apply quietly_bind; [apply calm_quietly, calm_onCache|]. intros found.
  apply quietly_bind. { destruct found; apply calm_quietly; calm_tac. } intros [].
  apply quietly_newMessage, quietly_sendRequest; [done|]. intros Hh%Hok. apply (packable_identified handle); [exact Hh|by right].
Qed.

Lemma quietly_client b c : 0 <= ac_RegistrarRequestMaxTrials cfg → client_ok b c → quietly b (clientOperation env convertFunction c).
Proof.
  intros Hmax Hok. destruct c; apply quietly_then_unit; [by apply quietly_register| |by apply quietly_deregister| |by apply quietly_resolve| |by apply quietly_report];
    (apply quietly_bind; [apply quietly_waitIO|]); intros x; apply calm_quietly; pose proof calm_cacheElements; pose proof calm_fromCache; calm_tac.
Qed.

(** ** Events *)

Lemma cut_scheduled a a' : cut a a' → scheduled a'.
Proof. intros (_ & _ & _ & Hl & _) Hn. done. Qed.

Lemma wlp_response b (response : Msg) a : inv b a → wlp (asapInstanceHandleResponseFromRegistrar response) (λ _ a', inv b a' ∧ scheduled a') a.
Proof.
  intros Hi. destruct (ai_MainLoopPort a) as [|p l] eqn:Hq.
  - eapply wlp_mono; [by apply (wpb_response_empty cfg false b)|]. intros [] a' Hc. split; [by eapply cut_inv|by eapply cut_scheduled].
  - destruct (queue_lookup cfg b a p Hi) as (m & Hm & _); [rewrite Hq; left|]. eapply wlp_mono; [by apply (wpb_response cfg false b a p m l)|].
    intros [] a' Hr. split; [by eapply responded_inv|by eapply responded_scheduled].
Qed.

Lemma wlp_disconnected b s a : inv b a → wlp (asapInstanceDisconnectFromRegistrar s) (λ _ a', inv b a' ∧ scheduled a') a.
Proof. intros Hi. eapply wlp_mono; [by apply (wpb_disconnect cfg false b)|]. intros [] a' Hc. split; [by eapply cut_inv|by eapply cut_scheduled]. Qed.

Lemma wlp_calm b {B} (m : M AI B) a : calm m → inv b a → scheduled a → wlp m (λ _ a', inv b a' ∧ scheduled a') a.
Proof. intros Hm Hi Hs. eapply wlp_mono; [apply Hm|]. intros x a' Ha. split; [exact (alike_inv cfg b _ _ Ha Hi)|exact (alike_scheduled _ _ Ha Hs)]. Qed.

Lemma wlp_keepAlive b (message : Msg) fd a : inv b a → scheduled a → wlp (asapInstanceHandleEndpointKeepAlive cfg env message fd) (λ _ a', inv b a' ∧ scheduled a') a.
Proof.
  intros Hi Hs. unfold asapInstanceHandleEndpointKeepAlive. apply wlp_bind. eapply (wlp_mono _ (λ _ a', inv b a' ∧ scheduled a')).
  - destruct (fd =? _); [|by apply wlp_calm; [calm_tac|..]]. destruct (flag_test _ _); [|by apply wlp_ret]. apply wlp_bind. eapply wlp_mono; [by apply (wlp_calm b); [apply calm_ask|..]|].
    intros sd a1 [Hi1 Hs1]. cbv beta. destruct (0 <=? sd); [|by apply wlp_ret]. apply wlp_bind. eapply wlp_mono; [by apply (wlp_disconnected b)|]. intros [] a2 [Hi2 Hs2]. cbv beta.
    apply wlp_bind. eapply wlp_mono; [by apply (wpb_connect cfg env false b)|]. intros connected a3 Hj. cbv beta.
    assert (inv b a3 ∧ scheduled a3) as [Hi3 Hs3] by (split; [exact (joined_inv cfg b _ _ Hj Hi2)|exact (joined_scheduled _ _ Hj Hs2)]). by apply wlp_calm; [calm_tac|..].
  - intros [] a1 [Hi1 Hs1]. cbv beta. apply wlp_calm; [|done..]. unfold ownElement. pose proof calm_acknowledge. pose proof calm_acknowledgeElements. calm_tac.
Qed.

Lemma wlp_event b fd received a : inv b a → scheduled a →
  wlp (asapInstanceHandleRegistrarConnectionEvent cfg env fd received) (λ _ a', inv b a' ∧ scheduled a') a.
Proof.
  intros Hi Hs. unfold asapInstanceHandleRegistrarConnectionEvent. apply wlp_bind, wlp_get, wlp_bind, wlp_check. intros _.
  destruct received as [buffer n source ppid assocID| | | |]; try (by apply wlp_ret); [| |by apply wlp_disconnected].
  - unfold handleAsapPacket. apply wlp_bind. eapply wlp_mono; [by apply (wlp_calm b); [apply calm_ask|..]|]. intros memory a1 [Hi1 Hs1]. cbv beta.
    apply wlp_bind, wlp_deref. intros r Hr. destruct (r.1 =? _).
    + apply wlp_bind, wlp_deref. intros message Hm. destruct (rm_Type message =? _); [by apply wlp_keepAlive|by apply wlp_response].
    + apply wlp_bind, wlp_get. destruct (fd =? _); [by apply wlp_disconnected|]. by apply wlp_calm; [apply calm_output|..].
  - destruct (fd =? _); [by apply wlp_disconnected|by apply wlp_ret].
Qed.

Lemma wlp_timeout b a : inv b a → wlp timeoutExpired (λ _ a', inv b a' ∧ scheduled a') a.
Proof.
  intros Hi. unfold timeoutExpired, stopTimeout, asapInstanceHandleRegistrarTimeout. apply wlp_bind, wlp_modify, wlp_bind, wlp_get, wlp_bind, wlp_check. intros _.
  apply wlp_bind, wlp_modify. apply wlp_disconnected. destruct Hi as [Hp Hr Ha _]. by split.
Qed.
End more_events.
