(* ===== verification/AsapLoop.v ===== *)
(** * The main loop of the ASAP instance

    The steps of the main loop and of other threads, the invariant over all
    their interleavings, and what rounds do while no registrar is found. *)

From S2P Require Import Prelude Checksum Addresses PoolBasics Storage PoolElement PoolPolicy HandlespaceState PoolNode HandlespaceNode HandlespaceMgt Message MessageCreator MessageParser MessageWire MessageWrites MessageCreate MessageTransmit Registrar RegistrarQuiet RegistrarPackets AsapInstance AsapClient AsapInv AsapSteps AsapEvents.
From stdpp Require Import base list gmap numbers option sorting sets.
#[local] Open Scope Z_scope.

Section loop.
Context {ST : Type} `{Storage ST} `{Endian}.
Context (cfg : AsapConfig) (env : AsapEnvironment).
Context {A : Type} (convertFunction : PoolElementNode → option A).
Abbreviation Msg := (RSerPoolMessage ST).
Abbreviation AI := (ASAPInstance (ST := ST)).
Abbreviation AITM := (ASAPInterThreadMessage (ST := ST)).
Abbreviation inv := (asap_inv cfg).
Implicit Types (a : AI) (m : AITM) (p q port : ptr) (b : bool).

(** ** Steps *)

(** If [b], threads only ask for what fits into a packet. *)
Inductive asap_step (b : bool) : AsapPhase * AI → AsapPhase * AI → Prop :=
| step_choose a x a' : nextRequest a = Some (x, a') → asap_step b (Idle, a) (Chosen x, a')
| step_connect x a a' : connectFor env x a = Some (tt, a') → asap_step b (Chosen x, a) (Connected x, a')
| step_handle x a a' : handleQueue cfg env x a = Some (tt, a') → asap_step b (Connected x, a) (Handled, a')
| step_schedule a a' : setTimeout a = Some (tt, a') → asap_step b (Handled, a) (Idle, a')
| step_event fd received a a' : asapInstanceHandleRegistrarConnectionEvent cfg env fd received a = Some (tt, a') → asap_step b (Idle, a) (Idle, a')
| step_timeout a a' : ai_RegistrarTimeoutTimer a ≠ None → timeoutExpired a = Some (tt, a') → asap_step b (Idle, a) (Idle, a')
| step_start a x a' : asapInstanceConnectToRegistrar env (-1) a = Some (x, a') → asap_step b (Idle, a) (Idle, a')
| step_end a a' : asapInstanceDisconnectFromRegistrar false a = Some (tt, a') → asap_step b (Idle, a) (Idle, a')
| step_client c phase a a' : client_ok (ST := ST) b c → clientOperation env convertFunction c a = Some (tt, a') → asap_step b (phase, a) (phase, a').

(** What holds in a phase. *)
Definition phase_ok (phase : AsapPhase) a : Prop :=
  match phase with
  | Idle => scheduled a
  | Chosen x | Connected x => scheduled a ∧ upcoming x a
  | Handled => schedulable a
  end.

Lemma new_inv b : inv b asapInstanceNew ∧ phase_ok Idle asapInstanceNew.
Proof.
  split; [|intros Hn; by destruct Hn]. assert (∀ port, replyPort (ST := ST) port asapInstanceNew = []) as He by (intros; unfold replyPort; simpl; by rewrite lookup_empty).
  split; simpl; [| | |done].
  - split; [constructor|intros port; rewrite He; constructor|by intros p port Hp%elem_of_nil|intros p port port'; rewrite He; by intros Hp%elem_of_nil|].
    intros p. rewrite dom_empty_L. setoid_rewrite He. set_solver.
  - by intros p m Hp%elem_of_nil.
  - intros port p m. rewrite He. by intros Hp%elem_of_nil.
Qed.

Lemma wp_run_of {S} (Q : S → Prop) (m : M S ()) s : wp m (λ _ s', Q s') s → ∃ s', m s = Some (tt, s') ∧ Q s'.
Proof. intros ([] & s' & Hr & HQ). eauto. Qed.

Lemma run_wlp {S B} (m : M S B) (Q : B → S → Prop) s x s' : wlp m Q s → m s = Some (x, s') → Q x s'.
Proof. intros Hm Hr. by apply Hm. Qed.

Lemma wlp_wpb {S B} b (m : M S B) (Q : B → S → Prop) s : wpb b m Q s → wlp m Q s.
Proof. destruct b; [apply wlp_wp|done]. Qed.

Lemma step_inv b s s' : 0 <= ac_RegistrarRequestMaxTrials cfg → asap_step b s s' →
  inv b s.2 ∧ phase_ok s.1 s.2 → inv b s'.2 ∧ phase_ok s'.1 s'.2.
Proof.
  intros Hmax Hstep. destruct Hstep as [a x a' Hr|x a a' Hr|x a a' Hr|a a' Hr|fd received a a' Hr|a a' Ht Hr|a x a' Hr|a a' Hr|c phase a a' Hok Hr]; cbn [fst snd]; intros [Hi Hp].
  - destruct (run_wlp _ _ _ _ _ (wpb_nextRequest cfg false b a Hi) Hr) as [-> Hu]. done.
  - pose proof (run_wlp _ _ _ _ _ (wpb_connectFor cfg env false b x a Hi) Hr) as Hj. destruct Hp as [Hs Hu].
    split; [exact (joined_inv cfg b _ _ Hj Hi)|]. split; [exact (joined_scheduled _ _ Hj Hs)|exact (joined_upcoming x _ _ Hj Hu)].
  - destruct Hp as [Hs Hu]. exact (run_wlp _ _ _ _ _ (wlp_wpb b _ _ _ (wpb_handleQueue cfg env b a x Hi Hs Hu)) Hr).
  - destruct (run_wlp _ _ _ _ _ (wpb_setTimeout cfg false b a Hi Hp) Hr) as (? & _ & ?). done.
  - exact (run_wlp _ _ _ _ _ (wlp_event cfg env b fd received a Hi Hp) Hr).
  - exact (run_wlp _ _ _ _ _ (wlp_timeout cfg b a Hi) Hr).
  - pose proof (run_wlp _ _ _ _ _ (wpb_connect cfg env false b (-1) a Hi) Hr) as Hj. split; [exact (joined_inv cfg b _ _ Hj Hi)|exact (joined_scheduled _ _ Hj Hp)].
  - exact (run_wlp _ _ _ _ _ (wlp_disconnected cfg b false a Hi) Hr).
  - destruct (run_wlp _ _ _ _ _ (quietly_client cfg env convertFunction b c Hmax Hok a Hi) Hr) as [Hi' He]. split; [done|].
    destruct phase as [|x|x|].
    + exact (extends_scheduled _ _ He Hp).
    + destruct Hp as [Hs Hu]. split; [exact (extends_scheduled _ _ He Hs)|exact (extends_upcoming x _ _ He Hu)].
    + destruct Hp as [Hs Hu]. split; [exact (extends_scheduled _ _ He Hs)|exact (extends_upcoming x _ _ He Hu)].
    + exact (extends_schedulable cfg b _ _ Hi He Hp).
Qed.

Lemma steps_inv b s s' : 0 <= ac_RegistrarRequestMaxTrials cfg → rtc (asap_step b) s s' →
  inv b s.2 ∧ phase_ok s.1 s.2 → inv b s'.2 ∧ phase_ok s'.1 s'.2.
Proof. intros Hmax Hs. induction Hs as [s|s1 s2 s3 Hstep _ IH]; [done|]. intros Hi. by apply IH, (step_inv b s1). Qed.

(** Reachable from a new instance. *)
Definition asap_reachable b (phase : AsapPhase) a : Prop := rtc (asap_step b) (Idle, asapInstanceNew) (phase, a).

Lemma reachable_inv b phase a : 0 <= ac_RegistrarRequestMaxTrials cfg → asap_reachable b phase a → inv b a ∧ phase_ok phase a.
Proof. intros Hmax Hr. by apply (steps_inv b _ _ Hmax Hr), new_inv. Qed.

Lemma wp_some {S B} (m : M S B) (Q : B → S → Prop) s : wp m Q s → is_Some (m s).
Proof. intros (x & s' & Hr & _). by rewrite Hr. Qed.

(** The next part of a round. *)
Definition loopPart (phase : AsapPhase) : M AI () :=
  match phase with
  | Idle => _ ← nextRequest; mret tt
  | Chosen x => connectFor env x
  | Connected x => handleQueue cfg env x
  | Handled => setTimeout
  end.

Lemma loopPart_total phase a : inv true a → phase_ok phase a → is_Some (loopPart phase a).
Proof.
  intros Hi Hp. destruct phase as [|x|x|]; simpl in *.
  - apply (wp_some _ (λ _ _, True)), wp_bind. eapply wp_mono; [exact (wpb_nextRequest cfg true true a Hi)|]. intros x a' _. by apply wp_ret.
  - eapply wp_some. exact (wpb_connectFor cfg env true true x a Hi).
  - destruct Hp as [Hs Hu]. eapply wp_some. exact (wpb_handleQueue cfg env true a x Hi Hs Hu).
  - eapply wp_some. exact (wpb_setTimeout cfg true true a Hi Hp).
Qed.

(** ** Without a registrar *)

Definition offline a : Prop := ai_RegistrarSocket a < 0.

(** The request was answered with an error, or freed if nobody waits. *)
Definition refused p (port : option ptr) a : Prop :=
  match port with
  | Some port => p ∈ replyPort port a ∧ ∃ m, ai_Messages a !! p = Some m ∧ am_Error m = RSPERR_NO_REGISTRAR
  | None => ai_Messages a !! p = None
  end.

(** Every request is still in the queue, or it was refused. *)
Definition progress a a' : Prop :=
  (∀ p m, p ∈ ai_MainLoopPort a → ai_Messages a !! p = Some m →
    (p ∈ ai_MainLoopPort a' ∧ ∃ m', ai_Messages a' !! p = Some m' ∧ am_ReplyPort m' = am_ReplyPort m) ∨ refused p (am_ReplyPort m) a') ∧
  ∀ p (port : option ptr), refused p port a → refused p port a'.

Lemma progress_trans a1 a2 a3 : progress a1 a2 → progress a2 a3 → progress a1 a3.
Proof.
  intros [P1 R1] [P2 R2]. split; [|by auto]. intros p m Hp Hm. destruct (P1 p m Hp Hm) as [(Hp2 & m2 & Hm2 & <-)|Hr]; [|by auto]. by apply P2.
Qed.

(** Nothing but the contents of messages changes. *)
Lemma progress_same a a' : ai_MainLoopPort a' = ai_MainLoopPort a → ai_ReplyPorts a' = ai_ReplyPorts a →
  (∀ q, (λ m, (am_ReplyPort m, am_Error m)) <$> ai_Messages a' !! q = (λ m, (am_ReplyPort m, am_Error m)) <$> ai_Messages a !! q) → progress a a'.
Proof.
  intros Hq Hr Hm. split.
  - intros p m Hp Hx. left. split; [by rewrite Hq|]. specialize (Hm p). rewrite Hx in Hm. destruct (ai_Messages a' !! p) as [m'|]; [|done]. injection Hm as He _. eauto.
  - intros p [port|] Hp; specialize (Hm p); simpl in *; unfold replyPort in *; rewrite ?Hr.
    + destruct Hp as (Hp & m & Hx & He). split; [done|]. rewrite Hx in Hm. destruct (ai_Messages a' !! p) as [m'|]; [|done]. injection Hm as _ Hm. exists m'. by rewrite Hm.
    + rewrite Hp in Hm. by destruct (ai_Messages a' !! p).
Qed.

Lemma progress_refused b a p m m' l1 l2 : inv b a → ai_MainLoopPort a = l1 ++ p :: l2 → ai_Messages a !! p = Some m → am_Error m' = RSPERR_NO_REGISTRAR →
  progress a (finished p (am_ReplyPort m) m' (ai_set_MainLoopPort (l1 ++ l2) a)).
Proof.
  intros Hi Hq Hm He. split.
  - intros q x Hin Hx. destruct (decide (q = p)) as [->|Hne].
    + right. assert (x = m) as -> by congruence. destruct (am_ReplyPort m) as [port|]; simpl; [|by apply lookup_delete_eq].
      unfold replyPort at 1. simpl. rewrite !lookup_insert_eq. split; [simpl; set_solver|]. eauto.
    + left. destruct (finished_fields p (am_ReplyPort m) m' (ai_set_MainLoopPort (l1 ++ l2) a)) as (-> & _). rewrite Hq in Hin.
      split; [simpl; set_solver|]. rewrite finished_other by done. eauto.
  - intros q [port|] Hr.
    + destruct Hr as (Hin & x & Hx & Hex). assert (q ≠ p) as Hne.
      { intros ->. eapply (pk_either _ _ _ (av_placed _ _ _ Hi) p port); [rewrite Hq; set_solver|done]. }
      split; [|rewrite finished_other by done; eauto]. destruct (am_ReplyPort m) as [port'|]; [|done]. simpl.
      unfold replyPort at 1. simpl. destruct (decide (port = port')) as [->|Hp]; [rewrite lookup_insert_eq; simpl; set_solver|]. by rewrite lookup_insert_ne.
    + simpl in *. rewrite finished_other; [done|]. congruence.
Qed.

(** What one round of the loop does to the request [p]. *)
Definition retried p m a : AI := ai_set_Messages (<[p := am_set_TransmissionTrials (am_TransmissionTrials m + 1) m]> (ai_Messages a)) a.
Definition refusal_of m : AITM := am_set_ReplyPort None (am_set_Error RSPERR_NO_REGISTRAR (am_set_TransmissionTrials (am_TransmissionTrials m + 1) m)).

Lemma handleRequest_offline a p m l1 l2 : offline a → ai_MainLoopPort a = l1 ++ p :: l2 → p ∉ l1 → ai_Messages a !! p = Some m →
  handleRequest cfg env p a = Some (true,
    if ac_RegistrarRequestMaxTrials cfg <? am_TransmissionTrials m + 1
    then finished p (am_ReplyPort m) (refusal_of m) (ai_set_MainLoopPort (l1 ++ l2) a) else retried p m a).
Proof.
  intros Ho Hq Hp Hm. unfold handleRequest. rewrite (run_bind _ _ _ tt (retried p m a)).
  2: { unfold aitm_update, aitm_get, mbind, M_bind, deref. by rewrite Hm. }
  set (m1 := am_set_TransmissionTrials (am_TransmissionTrials m + 1) m). assert (ai_Messages (retried p m a) !! p = Some m1) as Hm1 by (by apply lookup_insert_eq).
  rewrite (run_bind _ _ _ m1 (retried p m a)) by (unfold aitm_get, deref; by rewrite Hm1). change (am_TransmissionTrials m1) with (am_TransmissionTrials m + 1).
  destruct (_ <? _).
  - erewrite run_bind; [|by apply (giveUp_run (retried p m a) p m1 l1 l2)]. unfold refusal. change (ai_RegistrarSocket (retried p m a)) with (ai_RegistrarSocket a).
    rewrite (proj2 (Z.ltb_lt _ _) Ho). change (ai_set_MainLoopPort (l1 ++ l2) (retried p m a)) with (ai_set_Messages (<[p := m1]> (ai_Messages a)) (ai_set_MainLoopPort (l1 ++ l2) a)).
    pose proof (finished_store p (am_ReplyPort m1) m1 (refusal_of m) (ai_set_MainLoopPort (l1 ++ l2) a)) as Hfs. simpl in Hfs |- *.
    unfold refusal_of in Hfs |- *. fold m1 in Hfs |- *. by rewrite Hfs.
  - unfold offline in Ho. unfold mbind, M_bind, get. change (ai_RegistrarSocket (retried p m a)) with (ai_RegistrarSocket a).
    destruct (Z.leb_spec 0 (ai_RegistrarSocket a)); [lia|]. done.
Qed.

Lemma offline_last b a : inv b a → offline a → ai_LastAITM a = None ∧ schedulable a ∧ ∀ l, sent_up_to l a.
Proof. intros Hi Ho. pose proof (no_last cfg b a Hi Ho) as Hl. split; [done|]. split; [by intros p; rewrite Hl|]. intros l. by right. Qed.

(** At least [k] trials. *)
Definition tried (k : Z) (l : list ptr) a : Prop := ∀ q m, q ∈ l → ai_Messages a !! q = Some m → k <= am_TransmissionTrials m.

Lemma request_offline a p l1 l2 k : inv false a → offline a → ai_MainLoopPort a = l1 ++ p :: l2 → tried (k + 1) l1 a → tried k (p :: l2) a →
  ∃ a' l1', handleRequest cfg env p a = Some (true, a') ∧ inv false a' ∧ offline a' ∧ progress a a' ∧
    ai_MainLoopPort a' = l1' ++ l2 ∧ tried (k + 1) l1' a' ∧ tried k l2 a'.
Proof.
  intros Hi Ho Hq H1 H2. pose proof (pk_queue _ _ _ (av_placed _ _ _ Hi)) as Hnd. rewrite Hq in Hnd. destruct (nodup_split _ _ _ Hnd) as (Hp1 & Hp2 & _).
  destruct (queue_lookup cfg false a p Hi) as (m & Hm & _); [rewrite Hq; set_solver|]. destruct (offline_last false a Hi Ho) as (Hl & Hs & Hup).
  pose proof (handleRequest_offline a p m l1 l2 Ho Hq Hp1 Hm) as Hrun.
  pose proof (wpb_handleRequest cfg env false a p l1 l2 Hi Hs Hq (Hup l1) _ _ Hrun) as (Hi' & _).
  assert (∀ (a' : AI) (l : list ptr) j, (∀ q, q ≠ p → ai_Messages a' !! q = ai_Messages a !! q) → p ∉ l → tried j l a → tried j l a') as Hframe.
  { intros a' l j Hf Hno Ht q x Hin Hx. apply (Ht q); [done|]. rewrite <- Hf; [done|]. by intros ->. }
  assert (tried k l2 a) as H3 by (intros q x Hin; apply H2; by right).
  destruct (_ <? _) eqn:Hmax.
  - eexists _, l1. split; [exact Hrun|]. destruct (finished_fields p (am_ReplyPort m) (refusal_of m) (ai_set_MainLoopPort (l1 ++ l2) a)) as (Fq & _ & Fs & _).
    split_and!; [done|unfold offline; by rewrite Fs|by apply (progress_refused false)|by rewrite Fq| |]; (apply Hframe; [|done|done]); intros q Hne; by rewrite finished_other.
  - eexists _, (l1 ++ [p]). split; [exact Hrun|]. split_and!; [done|done| |simpl; by rewrite Hq, <- app_assoc| |].
    + apply progress_same; [done|done|]. intros q. simpl. destruct (decide (q = p)) as [->|Hne]; [by rewrite lookup_insert_eq, Hm|by rewrite lookup_insert_ne].
    + intros q x [Hin| ->%list_elem_of_singleton]%elem_of_app Hx; simpl in Hx.
      * rewrite lookup_insert_ne in Hx by (by intros ->). by apply (H1 q).
      * rewrite lookup_insert_eq in Hx. injection Hx as <-. simpl. specialize (H2 p m (list_elem_of_here _ _) Hm). lia.
    + apply Hframe; [|done|done]. intros q Hne. by apply lookup_insert_ne.
Qed.

Lemma requests_offline fuel k : ∀ a l1 l2, inv false a → offline a → ai_MainLoopPort a = l1 ++ l2 → (length l2 <= fuel)%nat → tried (k + 1) l1 a → tried k l2 a →
  ∃ a', handleRequests cfg env fuel (head l2) a = Some (tt, a') ∧ inv false a' ∧ offline a' ∧ progress a a' ∧ tried (k + 1) (ai_MainLoopPort a') a'.
Proof.
  assert (∀ a, progress a a) as Hrefl by (intros a; by apply progress_same).
  induction fuel as [|fuel IH]; intros a l1 [|p l2] Hi Ho Hq Hf H1 H2; simpl in *; try lia.
  1, 2: exists a; split_and!; try done; by rewrite Hq, app_nil_r.
  pose proof (pk_queue _ _ _ (av_placed _ _ _ Hi)) as Hnd. rewrite Hq in Hnd. destruct (nodup_split _ _ _ Hnd) as (Hp1 & _).
  destruct (request_offline a p l1 l2 k Hi Ho Hq H1 H2) as (a1 & l1' & Hr1 & Hi1 & Ho1 & P1 & Hq1 & H11 & H12).
  destruct (IH a1 l1' l2 Hi1 Ho1 Hq1 ltac:(lia) H11 H12) as (a2 & Hr2 & Hi2 & Ho2 & P2 & H22). exists a2.
  split; [|split_and!; try done; by eapply progress_trans].
  rewrite (run_bind _ _ _ (head l2) a). 2: { unfold interThreadMessagePortGetNextMessage, deref. by rewrite Hq, nextMessage_split. }
  by rewrite (run_bind _ _ _ true a1).
Qed.

Lemma connect_offline x a : offline a → (∀ t, (ae_GetRegistrar env t).1 < 0) → ∃ a', connectFor env x a = Some (tt, a') ∧ alike a a'.
Proof.
  intros Ho Hno. apply (wp_run_of (λ a', alike a a')). unfold connectFor. apply wp_bind, wp_get, wp_bind. eexists _, _. split; [reflexivity|]. cbv beta. destruct (_ && _); [|by apply wp_ret].
  apply wp_bind. unfold asapInstanceConnectToRegistrar. apply wp_bind, wp_get. destruct (_ <? 0); [|by repeat apply wp_ret].
  cbn [Z.ltb Z.compare]. apply wp_bind. eexists _, _. split; [reflexivity|]. cbv beta. apply wp_bind, wp_modify. rewrite (proj2 (Z.ltb_lt _ _) (Hno _)). by apply wp_ret, wp_ret.
Qed.

Lemma unscheduled_fields m m' : unscheduled m = unscheduled m' →
  am_ReplyPort m = am_ReplyPort m' ∧ am_Error m = am_Error m' ∧ am_TransmissionTrials m = am_TransmissionTrials m'.
Proof.
  intros He. split_and!; [change (am_ReplyPort (unscheduled m) = am_ReplyPort (unscheduled m'))|change (am_Error (unscheduled m) = am_Error (unscheduled m'))|
    change (am_TransmissionTrials (unscheduled m) = am_TransmissionTrials (unscheduled m'))]; by rewrite He.
Qed.

Lemma unscheduled_back a a' q m : unscheduled <$> ai_Messages a' !! q = unscheduled <$> ai_Messages a !! q → ai_Messages a' !! q = Some m →
  ∃ m', ai_Messages a !! q = Some m' ∧ am_TransmissionTrials m = am_TransmissionTrials m'.
Proof.
  intros He Hm. rewrite Hm in He. destruct (ai_Messages a !! q) as [m'|]; [|done]. apply (inj Some) in He. apply unscheduled_fields in He as (_ & _ & He). eauto.
Qed.

Lemma unscheduled_parts a a' q : unscheduled <$> ai_Messages a' !! q = unscheduled <$> ai_Messages a !! q →
  (λ m, (am_ReplyPort m, am_Error m)) <$> ai_Messages a' !! q = (λ m, (am_ReplyPort m, am_Error m)) <$> ai_Messages a !! q.
Proof.
  destruct (ai_Messages a' !! q), (ai_Messages a !! q); try done. intros He%(inj Some). apply unscheduled_fields in He as (Hr & Her & _). simpl. by rewrite Hr, Her.
Qed.

Lemma round_offline k a : inv false a → offline a → (∀ t, (ae_GetRegistrar env t).1 < 0) → tried k (ai_MainLoopPort a) a →
  ∃ a', asapInstanceHandleQueuedAITMs cfg env a = Some (tt, a') ∧ inv false a' ∧ offline a' ∧ progress a a' ∧ tried (k + 1) (ai_MainLoopPort a') a'.
Proof.
  intros Hi Ho Hno Hk. destruct (offline_last false a Hi Ho) as (Hl & _).
  destruct (connect_offline (head (ai_MainLoopPort a)) a Ho Hno) as (a1 & Hr1 & E). pose proof E as (E1 & E2 & E3 & E4 & E5 & E6).
  assert (inv false a1) as Hi1 by exact (alike_inv cfg false _ _ E Hi). assert (offline a1) as Ho1 by (unfold offline; by rewrite E5).
  assert (tried (k + 1) [] a1 ∧ tried k (ai_MainLoopPort a1) a1) as [K0 K1] by (unfold tried; rewrite E1, E2; split; [by intros q m Hq%elem_of_nil|done]).
  destruct (requests_offline (length (ai_MainLoopPort a1)) k a1 [] (ai_MainLoopPort a1) Hi1 Ho1 eq_refl (Nat.le_refl _) K0 K1) as (a2 & Hr2 & Hi2 & Ho2 & P2 & K2).
  destruct (offline_last false a2 Hi2 Ho2) as (_ & Hs2 & _). destruct (wpb_setTimeout cfg true false a2 Hi2 Hs2) as ([] & a3 & Hr3 & Hi3 & (T0 & T1 & T2 & T3 & T4 & _) & _).
  exists a3. split; [|split_and!; [done|unfold offline; by rewrite T4| |]].
  - unfold asapInstanceHandleQueuedAITMs. rewrite (run_bind _ _ _ (head (ai_MainLoopPort a)) a) by (unfold nextRequest, mbind, M_bind, get; by rewrite Hl).
    rewrite (run_bind _ _ _ tt a1) by done. rewrite (run_bind _ _ _ tt a2); [done|]. unfold handleQueue. erewrite run_bind by reflexivity. by rewrite <- E2.
  - apply (progress_trans a a1); [apply progress_same; try done; intros q; by rewrite E1|]. apply (progress_trans a1 a2); [done|]. apply progress_same; [done|done|].
    intros q. by apply unscheduled_parts.
  - intros q m Hq Hm. destruct (unscheduled_back a2 a3 q m (T0 q) Hm) as (m' & Hm' & ->). rewrite T1 in Hq. exact (K2 q m' Hq Hm').
Qed.

(** ** Several rounds *)

Fixpoint rounds (n : nat) : M AI () :=
  match n with
  | O => mret tt
  | S n => asapInstanceHandleQueuedAITMs cfg env;; rounds n
  end.

Lemma rounds_offline n : ∀ k a, inv false a → offline a → (∀ t, (ae_GetRegistrar env t).1 < 0) → tried k (ai_MainLoopPort a) a →
  ∃ a', rounds n a = Some (tt, a') ∧ inv false a' ∧ progress a a' ∧ tried (k + Z.of_nat n) (ai_MainLoopPort a') a'.
Proof.
  induction n as [|n IH]; intros k a Hi Ho Hno Hk.
  - exists a. split_and!; try done; [by apply progress_same|]. by rewrite Z.add_0_r.
  - destruct (round_offline k a Hi Ho Hno Hk) as (a1 & Hr1 & Hi1 & Ho1 & P1 & K1). destruct (IH (k + 1) a1 Hi1 Ho1 Hno K1) as (a2 & Hr2 & Hi2 & P2 & K2).
    exists a2. split; [simpl; by rewrite (run_bind _ _ _ tt a1)|]. split_and!; [done|by eapply progress_trans|]. by replace (k + Z.of_nat (S n)) with (k + 1 + Z.of_nat n) by lia.
Qed.

Lemma rounds_refused n a : inv false a → offline a → (∀ t, (ae_GetRegistrar env t).1 < 0) → ac_RegistrarRequestMaxTrials cfg < Z.of_nat n →
  ∃ a', rounds n a = Some (tt, a') ∧ ai_MainLoopPort a' = [] ∧
    ∀ p m, p ∈ ai_MainLoopPort a → ai_Messages a !! p = Some m → refused p (am_ReplyPort m) a'.
Proof.
  intros Hi Ho Hno Hn. destruct (rounds_offline n 0 a Hi Ho Hno) as (a' & Hr & Hi' & [P _] & K).
  { intros q m Hq Hm. by apply (av_request _ _ _ Hi q m Hq Hm). }
  assert (ai_MainLoopPort a' = []) as Hq.
  { apply elem_of_nil_inv. intros q Hq. destruct (queue_lookup cfg false a' q Hi' Hq) as (m & Hm & [Ht _]). specialize (K q m Hq Hm). lia. }
  exists a'. split_and!; [done|done|]. intros p m Hp Hm. destruct (P p m Hp Hm) as [[Hin _]|?]; [|done]. rewrite Hq in Hin. by apply elem_of_nil in Hin.
Qed.
End loop.
