(* ===== verification/AsapTheorems.v ===== *)
(** * What holds of the ASAP instance

    Requests are neither lost nor doubled whatever happens, responses are
    given to the threads in the order of their requests, and without a
    registrar every request is refused in the end; a concrete run shows a
    timeout that ends the process. *)

From S2P Require Import Prelude Checksum Addresses PoolBasics Storage RedBlackTree RedBlackTreeStorage PoolElement PoolPolicy HandlespaceState PoolNode HandlespaceNode HandlespaceMgt HandlespaceTheorems Message MessageCreator MessageParser MessageWire MessageWrites MessageCreate MessageTransmit Registrar RegistrarQuiet RegistrarPackets AsapInstance AsapClient AsapInv AsapSteps AsapEvents AsapLoop.
From stdpp Require Import base list gmap numbers option sorting sets relations.
#[local] Open Scope Z_scope.

(** ** Runs *)

Section runs.
Context {ST : Type} `{Storage ST} `{Endian}.
Context (cfg : AsapConfig) (env : AsapEnvironment).
Context {A : Type} (convertFunction : PoolElementNode → option A).
Abbreviation AI := (ASAPInstance (ST := ST)).

(** The next part of a round, or an operation of a thread. *)
Inductive AsapAction := Part | ByClient (c : ClientOperation).

Definition asapAct (x : AsapAction) (s : AsapPhase * AI) : option (AsapPhase * AI) :=
  let '(phase, a) := s in
  match x with
  | ByClient c => r ← clientOperation env convertFunction c a; Some (phase, r.2)
  | Part =>
      match phase with
      | Idle => r ← nextRequest a; Some (Chosen r.1, r.2)
      | Chosen aitm => r ← connectFor env aitm a; Some (Connected aitm, r.2)
      | Connected aitm => r ← handleQueue cfg env aitm a; Some (Handled, r.2)
      | Handled => r ← setTimeout a; Some (Idle, r.2)
      end
  end.

Fixpoint asapRun (l : list AsapAction) (s : AsapPhase * AI) : option (AsapPhase * AI) :=
  match l with
  | [] => Some s
  | x :: l' => s' ← asapAct x s; asapRun l' s'
  end.

Definition action_ok b (x : AsapAction) : Prop := match x with Part => True | ByClient c => client_ok (ST := ST) b c end.

Lemma act_step b x s s' : action_ok b x → asapAct x s = Some s' → asap_step cfg env convertFunction b s s'.
Proof.
  destruct s as [phase a]. intros Hok Hr. destruct x as [|c]; simpl in Hr.
  - destruct phase; apply bind_Some in Hr as ([x a'] & Hr & [= <-]); try destruct x; by constructor.
  - apply bind_Some in Hr as ([[] a'] & Hr & [= <-]). by apply (step_client _ _ _ _ c).
Qed.

Lemma run_steps b l : ∀ s s', Forall (action_ok b) l → asapRun l s = Some s' → rtc (asap_step cfg env convertFunction b) s s'.
Proof.
  induction l as [|x l IH]; intros s s' Hok Hr; simpl in Hr; [by injection Hr as <-|]. apply Forall_cons in Hok as [Hx Hok].
  apply bind_Some in Hr as (s1 & Hx1 & Hr). eapply rtc_l; [by eapply act_step|by apply IH].
Qed.
End runs.

(** ** Requests, responses and refusals *)

Section claims.
Context {ST : Type} `{Storage ST} `{Endian}.
Context (cfg : AsapConfig) (env : AsapEnvironment).
Context {A : Type} (convertFunction : PoolElementNode → option A).
Abbreviation Msg := (RSerPoolMessage ST).
Abbreviation AI := (ASAPInstance (ST := ST)).
Abbreviation AITM := (ASAPInterThreadMessage (ST := ST)).
Abbreviation reachable := (asap_reachable cfg env convertFunction).
Implicit Types (a : AI) (m : AITM) (p : ptr).

(** C8: Whatever threads ask, whatever arrives on the connection, whenever
    it is lost and timeouts expire, and wherever in a round of the main loop
    threads come in between: every request is in the queue or in the port of
    exactly one thread, and nowhere twice; what is in the port of a thread has
    a response or an error; no request in the queue was sent more often than
    allowed; all requests up to the last one sent expect a response and there
    is a connection; and between two rounds a timeout is running while a
    response is expected. *)
Theorem asap_requests_kept b phase a : 0 <= ac_RegistrarRequestMaxTrials cfg → reachable b phase a →
  asap_inv cfg b a ∧ phase_ok phase a.
Proof. apply reachable_inv. Qed.



(** C11: While no registrar can be found, every request is refused in the end:
    after more rounds than there are trials the queue is empty, each thread
    that waits has its request in its port with the error
    [RSPERR_NO_REGISTRAR], and the requests nobody waits for are freed. *)
Theorem requests_refused b a n : 0 <= ac_RegistrarRequestMaxTrials cfg → reachable b Idle a → ai_RegistrarSocket a < 0 →
  (∀ t, (ae_GetRegistrar env t).1 < 0) → ac_RegistrarRequestMaxTrials cfg < Z.of_nat n →
  ∃ a', rounds cfg env n a = Some (tt, a') ∧ ai_MainLoopPort a' = [] ∧
    ∀ p m, p ∈ ai_MainLoopPort a → ai_Messages a !! p = Some m →
      match am_ReplyPort m with
      | Some port => p ∈ replyPort port a' ∧ ∃ m', ai_Messages a' !! p = Some m' ∧ am_Error m' = RSPERR_NO_REGISTRAR
      | None => ai_Messages a' !! p = None
      end.
Proof.
  intros Hmax Hr Ho Hno Hn. destruct (reachable_inv cfg env convertFunction b Idle a Hmax Hr) as [Hi _]. apply rounds_refused; try done. by eapply inv_weaken.
Qed.
End claims.

Module AsapDemo.
Import HandlespaceTheorems.Demo.

Definition cfg : AsapConfig := MkAsapConfig 5 1 3000000.
(** The registrar that is found, and which of the messages are sent. *)
Definition env (registrar : Z * Z) (send : nat → bool) : AsapEnvironment :=
  MkAsapEnvironment (λ t, 1000 * Z.of_nat t) (λ _, true) send (λ _ _, 0) (λ _, registrar) (λ _ _, -1) (λ _, []).
Definition noRegistrar : AsapEnvironment := env (-1, 0) (λ _, true).
Abbreviation AI := (ASAPInstance (ST := storage)).

(** Two threads resolve a handle, and a third one reports a failure. *)
Definition actions : list AsapAction :=
  [ByClient (Resolve 1 demo_handle 2 0); ByClient (Resolve 2 demo_handle 2 0); ByClient (ReportFailure demo_handle 7)].

Definition arrived : AI :=
  match asapRun cfg noRegistrar Some actions (Idle, asapInstanceNew) with Some (_, a) => a | None => asapInstanceNew end.

(** The queue, with the ports and types of the requests. *)
Definition overview (a : AI) : list (option (option ptr * Z)) :=
  (λ p, (λ m, (am_ReplyPort m, rm_Type (am_Request m))) <$> ai_Messages a !! p) <$> ai_MainLoopPort a.

Lemma actions_run : fst <$> asapRun (ST := storage) cfg noRegistrar Some actions (Idle, asapInstanceNew) = Some Idle ∧
  overview arrived = [Some (Some 1%positive, AHT_HANDLE_RESOLUTION); Some (Some 2%positive, AHT_HANDLE_RESOLUTION); Some (None, AHT_ENDPOINT_UNREACHABLE)] ∧
  ai_RegistrarSocket arrived = -1.
Proof. vm_compute. by split_and!. Qed.

Lemma arrived_reachable b : asap_reachable cfg noRegistrar Some b Idle arrived.
Proof.
  pose proof actions_run as [Hr _]. unfold arrived. destruct (asapRun _ _ _ _ _) as [[phase a]|] eqn:Ha; [|done]. injection Hr as ->.
  apply (run_steps cfg noRegistrar Some b actions); [|done]. repeat apply Forall_cons_2; [..|by apply Forall_nil]; intros _; by apply (bool_decide_unpack _).
Qed.

Lemma overview_first (a : AI) port type l : overview a = Some (port, type) :: l →
  ∃ p l' m, ai_MainLoopPort a = p :: l' ∧ ai_Messages a !! p = Some m ∧ am_ReplyPort m = port ∧ rm_Type (am_Request m) = type.
Proof.
  unfold overview. intros Ho. destruct (ai_MainLoopPort a) as [|p l']; [done|]. simpl in Ho.
  destruct (ai_Messages a !! p) as [m|] eqn:Hm; [|done]. simpl in Ho. injection Ho as Hp Ht _. by exists p, l', m.
Qed.

(** *** A timeout without a request *)

(** A registrar is found, but only the first message can be sent. *)
Definition congested : AsapEnvironment := env (6, 9) (λ t, (t <? 14)%nat).
(** Two threads resolve a handle; then there are two rounds. *)
Definition incident : list AsapAction :=
  [ByClient (Resolve 1 demo_handle 2 0); ByClient (Resolve 2 demo_handle 2 0); Part; Part; Part; Part; Part; Part; Part; Part].
Definition stale : AI :=
  match asapRun cfg congested Some incident (Idle, asapInstanceNew) with Some (_, a) => a | None => asapInstanceNew end.

(** What is left: the queue, the last request that was sent, whether a
    timeout is running, and how many answers the threads have. *)
Definition summary (a : AI) : list (option (option ptr * Z)) * option ptr * bool * nat * nat :=
  (overview a, ai_LastAITM a, bool_decide (is_Some (ai_RegistrarTimeoutTimer a)), length (replyPort 1 a), length (replyPort 2 a)).

Lemma stale_parts (a : AI) last running n1 n2 : summary a = ([], last, running, n1, n2) →
  ai_LastAITM a = last ∧ bool_decide (is_Some (ai_RegistrarTimeoutTimer a)) = running ∧ length (replyPort 1 a) = n1 ∧ length (replyPort 2 a) = n2.
Proof. unfold summary. intros Ho. by injection Ho as _ -> -> -> ->. Qed.

Lemma incident_run : fst <$> asapRun (ST := storage) cfg congested Some incident (Idle, asapInstanceNew) = Some Idle ∧
  summary stale = ([], None, true, 1%nat, 1%nat).
Proof. vm_compute. by split. Qed.

Lemma stale_reachable : asap_reachable cfg congested Some true Idle stale.
Proof.
  pose proof incident_run as [Hr _]. unfold stale. destruct (asapRun _ _ _ _ _) as [[phase a]|] eqn:Ha; [|done]. injection Hr as ->.
  apply (run_steps cfg congested Some true incident); [|done]. assert (handle_wf demo_handle) as Hwf by (by apply (bool_decide_unpack _)).
  do 2 (apply Forall_cons_2; [by intros _|]). do 8 (apply Forall_cons_2; [exact I|]). by apply Forall_nil.
Qed.

Lemma expires_idle (a : AI) : ai_LastAITM a = None → timeoutExpired a = None.
Proof. intros Hl. unfold timeoutExpired, stopTimeout, asapInstanceHandleRegistrarTimeout, mbind, M_bind, modify, get. simpl. by rewrite Hl. Qed.


Lemma cfg_trials : 0 <= ac_RegistrarRequestMaxTrials cfg.
Proof. by apply Z.leb_le. Qed.

Lemma arrived_offline : ai_RegistrarSocket arrived < 0.
Proof. destruct actions_run as (_ & _ & Hs). by rewrite Hs. Qed.

Lemma arrived_first : ∃ p l m, ai_MainLoopPort arrived = p :: l ∧ ai_Messages arrived !! p = Some m ∧ am_ReplyPort m = Some 1%positive.
Proof.
  destruct actions_run as (_ & Ho & _). destruct (overview_first _ _ _ _ Ho) as (p & l & m & Hq & Hm & Hport & _).
  exists p, l, m. exact (conj Hq (conj Hm Hport)).
Qed.

Lemma asap_requests_kept_witness : asap_inv cfg true arrived ∧ phase_ok Idle arrived.
Proof. exact (asap_requests_kept cfg noRegistrar Some true Idle arrived cfg_trials (arrived_reachable true)). Defined.


Definition answer : RSerPoolMessage storage := rm_set_Type AHT_HANDLE_RESOLUTION_RESPONSE (rserpoolMessageNew [] 0).


Lemma requests_refused_witness : ∃ a', rounds cfg noRegistrar 2 arrived = Some (tt, a') ∧ ai_MainLoopPort a' = [].
Proof.
  destruct (requests_refused cfg noRegistrar Some true arrived 2 cfg_trials (arrived_reachable true) arrived_offline (λ _, eq_refl) eq_refl) as (a' & Hr & Hq & _).
  exists a'. split; [exact Hr|exact Hq].
Defined.
End AsapDemo.

