(* ===== verification/MessageBuffer.v ===== *)
(** * Message buffers (messagebuffer.c)

    A socket gives a message in one or more fragments; a message buffer
    collects them until the end of the record.  What the socket gives is an
    argument. *)

From S2P Require Import Prelude MessageWire.
From stdpp Require Import base list numbers option.
#[local] Open Scope Z_scope.

Definition MBRead_Error : Z := -1.
Definition MBRead_Partial : Z := -2.

Record MessageBuffer := MkMessageBuffer {
  mb_Buffer : list Z;
  mb_BufferSize : Z;
  mb_BufferPos : Z;
  mb_UseEOR : bool
}.

(** What [recvfromplus] gives: the bytes that it has written to the rest of
    the buffer, with the flag [MSG_EOR]; no data; or an error. *)
Inductive Receipt :=
| Fragment (bytes : list Z) (eor : bool)
| NothingReceived
| ReceiveError.

(** [buffer] is the memory. *)
Definition messageBufferNew (buffer : list Z) (bufferSize : Z) (useEOR : bool) : MessageBuffer :=
  MkMessageBuffer buffer bufferSize 0 useEOR.

Definition messageBufferReset : M MessageBuffer () :=
  modify (λ b, MkMessageBuffer (mb_Buffer b) (mb_BufferSize b) 0 (mb_UseEOR b)).

Definition messageBufferHasPartial : M MessageBuffer bool := gets (λ b, 0 <? mb_BufferPos b).

(** The bytes at the position of the buffer; the socket does not write more
    than the rest of the buffer. *)
Definition received (bytes : list Z) (b : MessageBuffer) : MessageBuffer :=
  let pos := Z.to_nat (mb_BufferPos b) in
  MkMessageBuffer (take pos (mb_Buffer b) ++ bytes ++ drop (pos + length bytes) (mb_Buffer b)) (mb_BufferSize b)
    (mb_BufferPos b + zlen bytes) (mb_UseEOR b).

Definition messageBufferRead (receipt : Receipt) : M MessageBuffer Z :=
  match receipt with
  | Fragment bytes eor =>
      b ← get;
      CHECK ((0 <? zlen bytes) && (mb_BufferPos b + zlen bytes <=? mb_BufferSize b));;
      modify (received bytes);;
      if mb_UseEOR b && negb eor then mret MBRead_Partial
      else
        result ← gets mb_BufferPos;
        messageBufferReset;;
        mret result
  | NothingReceived => mret 0
  | ReceiveError => mret MBRead_Error
  end.

#[local] Arguments messageBufferRead : simpl never.

(** A message in fragments. *)
Fixpoint readFragments (l : list (list Z)) (final : list Z) : M MessageBuffer (list Z) :=
  match l with
  | [] => result ← messageBufferRead (Fragment final true); mret [result]
  | f :: l' => result ← messageBufferRead (Fragment f false); results ← readFragments l' final; mret (result :: results)
  end.

Definition buffer_ok (b : MessageBuffer) : Prop := 0 <= mb_BufferPos b <= mb_BufferSize b ∧ zlen (mb_Buffer b) = mb_BufferSize b.

(** The fragment that is in the buffer. *)
Definition pending (b : MessageBuffer) : list Z := take (Z.to_nat (mb_BufferPos b)) (mb_Buffer b).

Lemma received_ok bytes b : buffer_ok b → mb_BufferPos b + zlen bytes <= mb_BufferSize b →
  buffer_ok (received bytes b) ∧ pending (received bytes b) = pending b ++ bytes.
Proof.
  unfold buffer_ok, pending, received, zlen. simpl. intros [Hp Hl] Hs. split; [split; [lia|]|].
  - rewrite !length_app, length_take, length_drop. lia.
  - rewrite app_assoc, take_app_le; [apply take_ge|]; rewrite length_app, length_take; lia.
Qed.

Lemma read_run bytes eor b : buffer_ok b → 0 < zlen bytes → mb_BufferPos b + zlen bytes <= mb_BufferSize b →
  messageBufferRead (Fragment bytes eor) b =
    if mb_UseEOR b && negb eor then Some (MBRead_Partial, received bytes b)
    else Some (mb_BufferPos b + zlen bytes, MkMessageBuffer (mb_Buffer (received bytes b)) (mb_BufferSize b) 0 (mb_UseEOR b)).
Proof.
  intros Hok Hn Hs. unfold messageBufferRead, mbind, M_bind, get, CHECK, modify, gets.
  rewrite (proj2 (Z.ltb_lt _ _) Hn), (proj2 (Z.leb_le _ _) Hs). simpl. by destruct (mb_UseEOR b && negb eor).
Qed.

(** C96: The fragments of a message are put together: as long as the message
    fits, every fragment but the last is reported as partial, the last one
    gives the length, and the buffer begins with the message; the buffer is
    then empty again. A fragment that was left in the buffer is taken for the
    beginning of the message. *)
Theorem fragments_reassembled b l final : buffer_ok b → mb_UseEOR b = true → Forall (λ f, 0 < zlen f) (l ++ [final]) →
  mb_BufferPos b + zlen (concat l ++ final) <= mb_BufferSize b →
  ∃ b', readFragments l final b = Some (replicate (length l) MBRead_Partial ++ [mb_BufferPos b + zlen (concat l ++ final)], b') ∧
    take (Z.to_nat (mb_BufferPos b + zlen (concat l ++ final))) (mb_Buffer b') = pending b ++ concat l ++ final ∧
    mb_BufferPos b' = 0 ∧ buffer_ok b'.
Proof.
  revert b. induction l as [|f l IH]; intros b Hok He Hf Hs; simpl in *.
  - apply (Forall_inv (P := λ f, 0 < zlen f)) in Hf. destruct (received_ok final b Hok Hs) as [[_ Hl] Hp]. 
    eexists. split; [erewrite run_bind; [|rewrite (read_run final true b Hok Hf Hs); rewrite He; reflexivity]; reflexivity|]. split; [exact Hp|]. split; [reflexivity|]. split; [|exact Hl].
    cbn [mb_BufferPos mb_BufferSize]. destruct Hok. lia.
  - pose proof (Forall_inv_tail Hf) as Hl. apply (Forall_inv (P := λ f, 0 < zlen f)) in Hf. rewrite <- app_assoc, zlen_app in Hs. assert (0 <= zlen (concat l ++ final)) as Hnn by (unfold zlen; lia).
    destruct (received_ok f b Hok ltac:(lia)) as [Hok' Hp]. destruct (IH (received f b) Hok' He Hl) as (b' & Hr & Ht & Hz & Hb'); [simpl; lia|].
    simpl in Hr, Ht. exists b'. rewrite <- app_assoc, zlen_app, !Z.add_assoc. split_and!; [|by rewrite Ht, Hp, <- app_assoc|done|done].
    erewrite run_bind; [|rewrite (read_run f false b Hok Hf ltac:(lia)); rewrite He; reflexivity]. by rewrite (run_bind _ _ _ _ _ Hr).
Qed.

Lemma fragments_reassembled_witness : ∃ b', readFragments [[1; 2]; [3]] [4; 5; 6] (messageBufferNew (replicate 8 0) 8 true) = Some ([MBRead_Partial; MBRead_Partial; 6], b') ∧
  take 6 (mb_Buffer b') = [1; 2; 3; 4; 5; 6].
Proof.
  destruct (fragments_reassembled (messageBufferNew (replicate 8 0) 8 true) [[1; 2]; [3]] [4; 5; 6]) as (b' & Hr & Ht & _).
  - by repeat split.
  - done.
  - by repeat constructor.
  - done.
  - exists b'. split; [exact Hr|exact Ht].
Defined.
