(* ===== verification/NotificationQueue.v ===== *)
(** * Notification queues (notificationqueue.c)

    Notifications for the user of a socket, in two linked lists: those to be
    read before and those to be read after the data.  The lists are linked
    through their nodes; they are shown to be two queues. *)

From S2P Require Import Prelude PoolBasics Storage.
From stdpp Require Import base list gmap numbers option sets.
#[local] Open Scope Z_scope.

Definition RSERPOOL_SESSION_CHANGE : Z := 1.
Definition RSERPOOL_FAILOVER : Z := 2.
Definition RSERPOOL_SHUTDOWN_EVENT : Z := 3.
Definition NET_SESSION_CHANGE : Z := Z.shiftl 1 RSERPOOL_SESSION_CHANGE.
Definition NET_FAILOVER : Z := Z.shiftl 1 RSERPOOL_FAILOVER.
Definition NET_SHUTDOWN_EVENT : Z := Z.shiftl 1 RSERPOOL_SHUTDOWN_EVENT.
Definition NET_NOTIFICATION_MASK : Z := Z.lor (Z.lor NET_SESSION_CHANGE NET_FAILOVER) NET_SHUTDOWN_EVENT.

(** The header of the content; the rest is written by the caller. *)
Record NotificationNode := MkNotificationNode {
  nn_Next : option ptr;
  nn_Type : Z;
  nn_Flags : Z
}.

Record NotificationQueue := MkNotificationQueue {
  nq_Nodes : gmap ptr NotificationNode;
  nq_PreReadQueue : option ptr;
  nq_PreReadLast : option ptr;
  nq_PostReadQueue : option ptr;
  nq_PostReadLast : option ptr;
  nq_EventMask : Z
}.
Implicit Types (q : NotificationQueue) (n : NotificationNode) (p : ptr).

Definition notificationQueueNew (nodes : gmap ptr NotificationNode) : NotificationQueue := MkNotificationQueue nodes None None None None 0.

(** The members of one of the two lists. *)
Definition nq_Queue (isPreRead : bool) q : option ptr := if isPreRead then nq_PreReadQueue q else nq_PostReadQueue q.
Definition nq_Last (isPreRead : bool) q : option ptr := if isPreRead then nq_PreReadLast q else nq_PostReadLast q.
Definition nq_set_Queue (isPreRead : bool) (v : option ptr) q : NotificationQueue :=
  if isPreRead then MkNotificationQueue (nq_Nodes q) v (nq_PreReadLast q) (nq_PostReadQueue q) (nq_PostReadLast q) (nq_EventMask q)
  else MkNotificationQueue (nq_Nodes q) (nq_PreReadQueue q) (nq_PreReadLast q) v (nq_PostReadLast q) (nq_EventMask q).
Definition nq_set_Last (isPreRead : bool) (v : option ptr) q : NotificationQueue :=
  if isPreRead then MkNotificationQueue (nq_Nodes q) (nq_PreReadQueue q) v (nq_PostReadQueue q) (nq_PostReadLast q) (nq_EventMask q)
  else MkNotificationQueue (nq_Nodes q) (nq_PreReadQueue q) (nq_PreReadLast q) (nq_PostReadQueue q) v (nq_EventMask q).
Definition nq_set_Nodes (v : gmap ptr NotificationNode) q : NotificationQueue :=
  MkNotificationQueue v (nq_PreReadQueue q) (nq_PreReadLast q) (nq_PostReadQueue q) (nq_PostReadLast q) (nq_EventMask q).

Definition node_get (p : ptr) : M NotificationQueue NotificationNode := deref (λ q, nq_Nodes q !! p).
Definition node_store (p : ptr) (n : NotificationNode) : M NotificationQueue () := modify (λ q, nq_set_Nodes (<[p := n]> (nq_Nodes q)) q).

(** Frees the nodes of one list. *)
Fixpoint clearQueue (fuel : nat) (isPreRead : bool) : M NotificationQueue () :=
  q ← get;
  match nq_Queue isPreRead q with
  | None => mret tt
  | Some p =>
      match fuel with
      | O => abort
      | S fuel' =>
          n ← node_get p;
          modify (λ q, nq_set_Nodes (delete p (nq_Nodes q)) q);;
          modify (nq_set_Queue isPreRead (nn_Next n));;
          clearQueue fuel' isPreRead
      end
  end.

Definition notificationQueueClear : M NotificationQueue () :=
  fuel ← gets (λ q, size (nq_Nodes q));
  clearQueue fuel true;;
  modify (nq_set_Last true None);;
  clearQueue fuel false;;
  modify (nq_set_Last false None).

Definition notificationQueueDelete : M NotificationQueue () := notificationQueueClear.

Definition notificationQueueHasData : M NotificationQueue bool :=
  gets (λ q, bool_decide (nq_PreReadQueue q ≠ None) || bool_decide (nq_PostReadQueue q ≠ None)).

(** A shift of an [int] by 31 or more is undefined. *)
Definition notificationQueueEnqueueNotification (memory : option ptr) (isPreReadNotification : bool) (type : Z) :
    M NotificationQueue (option ptr) :=
  CHECK ((0 <=? type) && (type <? 31));;
  q ← get;
  if negb (Z.land (Z.shiftl 1 type) (nq_EventMask q) =? 0) then
    match memory with
    | Some p =>
        node_store p (MkNotificationNode None type 0);;
        (match nq_Last isPreReadNotification q with
         | Some last => n ← node_get last; node_store last (MkNotificationNode (Some p) (nn_Type n) (nn_Flags n))
         | None => modify (nq_set_Queue isPreReadNotification (Some p))
         end);;
        modify (nq_set_Last isPreReadNotification (Some p));;
        mret (Some p)
    | None => mret None
    end
  else mret None.

Definition notificationQueueDequeueNotification (fromPreReadNotifications : bool) : M NotificationQueue (option ptr) :=
  q ← get;
  let notificationNode := nq_Queue fromPreReadNotifications q in
  (match notificationNode with
   | Some p => n ← node_get p; modify (nq_set_Queue fromPreReadNotifications (nn_Next n))
   | None => mret tt
   end);;
  (if bool_decide (notificationNode = nq_Last fromPreReadNotifications q) then modify (nq_set_Last fromPreReadNotifications None) else mret tt);;
  mret notificationNode.

Definition notificationNodeDelete (p : ptr) : M NotificationQueue () :=
  _ ← node_get p;
  modify (λ q, nq_set_Nodes (delete p (nq_Nodes q)) q).

(** ** The lists *)

(** The nodes [l] with the types [ts] are linked from [first]. *)
Fixpoint linked (nodes : gmap ptr NotificationNode) (first : option ptr) (l : list ptr) (ts : list Z) : Prop :=
  match l, ts with
  | [], [] => first = None
  | p :: l', t :: ts' => first = Some p ∧ ∃ n, nodes !! p = Some n ∧ nn_Type n = t ∧ linked nodes (nn_Next n) l' ts'
  | _, _ => False
  end.

Lemma linked_frame nodes nodes' first l ts : (∀ p, p ∈ l → nodes' !! p = nodes !! p) → linked nodes first l ts → linked nodes' first l ts.
Proof.
  revert first ts. induction l as [|p l IH]; intros first [|t ts] He; simpl; try done. intros (-> & n & Hn & Ht & Hl). split; [done|].
  exists n. rewrite He by left. split_and!; [done|done|]. apply IH; [|done]. intros x Hx. apply He. by right.
Qed.

(** A node is put behind the last one. *)
Lemma linked_snoc nodes first l ts last n p new : linked nodes first (l ++ [last]) ts → NoDup (l ++ [last]) → nodes !! last = Some n → p ∉ l ++ [last] →
  nn_Next new = None → linked (<[last := MkNotificationNode (Some p) (nn_Type n) (nn_Flags n)]> (<[p := new]> nodes)) first ((l ++ [last]) ++ [p]) (ts ++ [nn_Type new]).
Proof.
  revert first ts. induction l as [|x l IH]; intros first [|t ts] Hl Hnd Hn Hp Hnew; simpl in *; try done.
  - destruct Hl as (-> & n' & Hn' & <- & Hl). assert (n' = n) as -> by congruence. split; [done|]. rewrite lookup_insert_eq. eexists. split; [done|]. split; [done|].
    destruct ts; [|done]. simpl. split; [done|]. exists new. rewrite lookup_insert_ne by set_solver. by rewrite lookup_insert_eq.
  - destruct Hl as (-> & m & Hm & <- & Hl). apply NoDup_cons in Hnd as [Hx Hnd]. split; [done|]. exists m.
    rewrite !lookup_insert_ne by set_solver. split_and!; [done|done|]. apply IH; [done|done|done|set_solver|done].
Qed.

(** The types of the notifications in the two queues. *)
Definition Queues : Type := bool → list Z.
Definition queues_set (s : Queues) (isPreRead : bool) (l : list Z) : Queues := λ b, if decide (b = isPreRead) then l else s b.

(** [q] has the queues [s]; their nodes are those of [f]. *)
Record linked_as (f : bool → list ptr) (s : Queues) q : Prop := {
  la_linked b : linked (nq_Nodes q) (nq_Queue b q) (f b) (s b);
  la_last b : nq_Last b q = last (f b);
  la_nodup b : NoDup (f b);
  la_disjoint p : p ∈ f true → p ∉ f false
}.
Definition queues_of (s : Queues) q : Prop := ∃ f, linked_as f s q.

Lemma linked_dom nodes first l ts p : linked nodes first l ts → p ∈ l → p ∈ dom nodes.
Proof.
  revert first ts. induction l as [|x l IH]; intros first [|t ts]; simpl; try done; [by intros _ ?%elem_of_nil|].
  intros (_ & n & Hn & _ & Hl) [->|Hp]%elem_of_cons; [by eapply elem_of_dom_2|by eapply IH].
Qed.

Lemma linked_first nodes first l ts : linked nodes first l ts → first = head l.
Proof. destruct l, ts; simpl; try done. by intros [-> _]. Qed.

Lemma la_apart f s q b b' p : linked_as f s q → b ≠ b' → p ∈ f b → p ∉ f b'.
Proof. intros Hl Hne Hp Hp'. destruct b, b'; try done; by eapply (la_disjoint _ _ _ Hl). Qed.

Lemma nq_Queue_set_Last b b' v q : nq_Queue b (nq_set_Last b' v q) = nq_Queue b q.
Proof. by destruct b, b'. Qed.
Lemma nq_Nodes_sets b v q : nq_Nodes (nq_set_Queue b v q) = nq_Nodes q ∧ nq_Nodes (nq_set_Last b v q) = nq_Nodes q.
Proof. by destruct b. Qed.
(** ** Operations *)

(** Whether the user wants the notification. *)
Definition wanted (mask type : Z) : bool := negb (Z.land (Z.shiftl 1 type) mask =? 0).

Lemma enqueue_queues memory b type s q : queues_of s q → 0 <= type < 31 → (∀ p, memory = Some p → p ∉ dom (nq_Nodes q)) →
  ∃ q', notificationQueueEnqueueNotification memory b type q = Some (if wanted (nq_EventMask q) type then memory else None, q') ∧
    nq_EventMask q' = nq_EventMask q ∧
    queues_of (if wanted (nq_EventMask q) type && bool_decide (memory ≠ None) then queues_set s b (s b ++ [type]) else s) q'.
Proof.
  intros [f Hq] Ht Hm. unfold notificationQueueEnqueueNotification. rewrite (run_bind _ _ _ tt q).
  2: { unfold CHECK. rewrite (proj2 (Z.leb_le 0 type)), (proj2 (Z.ltb_lt type 31)) by lia. done. }
  rewrite (run_bind _ _ _ q q) by done. fold (wanted (nq_EventMask q) type). destruct (wanted _ type); [|by exists q; split_and!; try done; exists f].
  destruct memory as [p|]; [|by exists q; split_and!; try done; exists f]. simpl. specialize (Hm p eq_refl).
  assert (∀ b', p ∉ f b') as Hno by (intros b' Hp; by eapply Hm, linked_dom, Hp; apply Hq).
  set (new := MkNotificationNode None type 0). rewrite (run_bind _ _ _ tt (nq_set_Nodes (<[p := new]> (nq_Nodes q)) q)) by done. rewrite (la_last _ _ _ Hq b).
  assert (∀ q', nq_EventMask q' = nq_EventMask q → (∀ b', b' ≠ b → nq_Queue b' q' = nq_Queue b' q ∧ nq_Last b' q' = nq_Last b' q ∧ ∀ x, x ∈ f b' → nq_Nodes q' !! x = nq_Nodes q !! x) →
    nq_Last b q' = Some p → linked (nq_Nodes q') (nq_Queue b q') (f b ++ [p]) (s b ++ [type]) → queues_of (queues_set s b (s b ++ [type])) q') as Hdone.
  { intros q' _ Ho Hl Hk. exists (λ b', if decide (b' = b) then f b ++ [p] else f b'). unfold queues_set. split.
    - intros b'. case_decide as He; [by subst|]. destruct (Ho b' He) as (-> & _ & Hx). by eapply linked_frame, (la_linked _ _ _ Hq).
    - intros b'. case_decide as He; [subst; by rewrite last_snoc|]. destruct (Ho b' He) as (_ & -> & _). apply Hq.
    - intros b'. case_decide as He; [|apply Hq]. apply NoDup_app. split_and!; [apply Hq| |apply NoDup_singleton]. intros x Hx ->%list_elem_of_singleton. by apply (Hno b).
    - intros x. pose proof (la_disjoint _ _ _ Hq x). pose proof (Hno true). pose proof (Hno false). repeat case_decide; try done; set_solver. }
  destruct (last (f b)) as [x|] eqn:Hx.
  - apply last_Some in Hx as [l Hl]. assert (x ∈ f b) as Hin by (rewrite Hl; set_solver). assert (x ∈ dom (nq_Nodes q)) as [n Hn]%elem_of_dom by (eapply linked_dom, Hin; apply Hq).
    assert (p ≠ x) as Hne by (intros ->; by apply (Hno b)). set (q1 := nq_set_Nodes (<[x := MkNotificationNode (Some p) (nn_Type n) (nn_Flags n)]> (<[p := new]> (nq_Nodes q))) q).
    rewrite (run_bind _ _ _ tt q1). 2: { unfold node_get, node_store, deref, modify, mbind, M_bind. simpl. by rewrite lookup_insert_ne, Hn. }
    eexists. split; [reflexivity|]. split; [by destruct b|]. apply Hdone.
    + by destruct b.
    + intros b' Hb'. split; [by destruct b, b'|]. split; [by destruct b, b'|]. intros y Hy. destruct (nq_Nodes_sets b (Some p) q1) as [_ ->]. simpl.
      rewrite !lookup_insert_ne; [done|intros ->; by apply (Hno b')|intros ->; by eapply (la_apart _ _ _ b b' y Hq)].
    + by destruct b.
    + destruct (nq_Nodes_sets b (Some p) q1) as [_ ->]. rewrite nq_Queue_set_Last, Hl. apply (linked_snoc _ _ l _ x n p new); try done.
      * rewrite <- Hl. replace (nq_Queue b q1) with (nq_Queue b q) by (by destruct b). apply (la_linked _ _ _ Hq).
      * rewrite <- Hl. apply Hq.
      * rewrite <- Hl. apply Hno.
  - apply last_None in Hx. pose proof (la_linked _ _ _ Hq b) as Hk. rewrite Hx in Hk. destruct (s b) eqn:Hs; [|done].
    rewrite (run_bind _ _ _ tt (nq_set_Queue b (Some p) (nq_set_Nodes (<[p := new]> (nq_Nodes q)) q))) by done. eexists. split; [reflexivity|]. split; [by destruct b|]. apply Hdone.
    + by destruct b.
    + intros b' Hb'. split; [by destruct b, b'|]. split; [by destruct b, b'|]. intros y Hy. destruct (nq_Nodes_sets b (Some p) (nq_set_Queue b (Some p) (nq_set_Nodes (<[p := new]> (nq_Nodes q)) q))) as [_ ->].
      destruct (nq_Nodes_sets b (Some p) (nq_set_Nodes (<[p := new]> (nq_Nodes q)) q)) as [-> _]. simpl. apply lookup_insert_ne. intros ->. by apply (Hno b').
    + by destruct b.
    + rewrite Hx. destruct b; simpl; (split; [done|]); exists new; by rewrite lookup_insert_eq.
Qed.

Lemma dequeue_run b q : notificationQueueDequeueNotification b q =
  match nq_Queue b q with
  | Some p => n ← nq_Nodes q !! p;
      Some (Some p, if bool_decide (nq_Queue b q = nq_Last b q) then nq_set_Last b None (nq_set_Queue b (nn_Next n) q) else nq_set_Queue b (nn_Next n) q)
  | None => Some (None, if bool_decide (nq_Queue b q = nq_Last b q) then nq_set_Last b None q else q)
  end.
Proof.
  unfold notificationQueueDequeueNotification. rewrite (run_bind _ _ _ q q) by done. cbv zeta. destruct (bool_decide (nq_Queue b q = nq_Last b q)).
  all: destruct (nq_Queue b q) as [p|]; [|done]; unfold mbind at 1, M_bind at 1, node_get, deref; unfold mbind at 1, M_bind at 1; by destruct (nq_Nodes q !! p).
Qed.

(** The user takes a notification and frees it. *)
Definition takeNotification (isPreRead : bool) : M NotificationQueue (option Z) :=
  r ← notificationQueueDequeueNotification isPreRead;
  match r with
  | Some p => n ← node_get p; notificationNodeDelete p;; mret (Some (nn_Type n))
  | None => mret None
  end.

Lemma take_queues b s q : queues_of s q →
  ∃ q', takeNotification b q = Some (head (s b), q') ∧ nq_EventMask q' = nq_EventMask q ∧ queues_of (queues_set s b (tail (s b))) q'.
Proof.
  intros [f Hq]. pose proof (la_linked _ _ _ Hq b) as Hl. pose proof (la_last _ _ _ Hq b) as Hla. pose proof (dequeue_run b q) as Hrun. unfold takeNotification.
  destruct (f b) as [|p l] eqn:Hf, (s b) as [|t ts] eqn:Hs; simpl in Hl, Hla; try done.
  - rewrite bool_decide_true in Hrun by congruence. rewrite Hl in Hrun. rewrite (run_bind _ _ _ _ _ Hrun). eexists. split; [reflexivity|]. split; [by destruct b|]. exists f. split.
    + intros b'. unfold queues_set. destruct (nq_Nodes_sets b None q) as [_ ->]. rewrite nq_Queue_set_Last. destruct (decide (b' = b)) as [->|_]; [rewrite Hf; exact Hl|apply Hq].
    + intros b'. destruct (decide (b' = b)) as [->|Hne]; [rewrite Hf; by destruct b|]. rewrite <- (la_last _ _ _ Hq b'). by destruct b, b'.
    + apply Hq.
    + apply Hq.
  - destruct Hl as (Hfirst & n & Hn & Ht & Hl). pose proof (la_nodup _ _ _ Hq b) as Hnd. rewrite Hf in Hnd. apply NoDup_cons in Hnd as [Hpl Hnd].
    set (q1 := nq_set_Queue b (nn_Next n) q). set (q2 := if bool_decide (nq_Queue b q = nq_Last b q) then nq_set_Last b None q1 else q1).
    assert (nq_Nodes q2 = nq_Nodes q) as Hn2 by (unfold q2, q1; by destruct (bool_decide _), b).
    exists (nq_set_Nodes (delete p (nq_Nodes q)) q2). split; [|split; [unfold q2, q1; by destruct (bool_decide _), b|]].
    + assert (notificationQueueDequeueNotification b q = Some (Some p, q2)) as Hrun' by (rewrite Hrun; unfold q2, q1; destruct (bool_decide _); rewrite Hfirst, Hn; done). rewrite (run_bind _ _ _ _ _ Hrun').
      assert (node_get p q2 = Some (n, q2)) as Hget by (unfold node_get, deref; by rewrite Hn2, Hn). rewrite (run_bind _ _ _ _ _ Hget).
      rewrite (run_bind _ _ _ tt (nq_set_Nodes (delete p (nq_Nodes q)) q2)); [by rewrite Ht|].
      unfold notificationNodeDelete. rewrite (run_bind _ _ _ _ _ Hget). unfold modify. by rewrite Hn2.
    + exists (λ b', if decide (b' = b) then l else f b'). assert (∀ b' x, b' ≠ b → x ∈ f b' → x ≠ p) as Hother.
      { intros b' x Hb' Hx ->. eapply (la_apart _ _ _ b b' p Hq); [done|rewrite Hf; left|done]. }
      assert (∀ b', nq_Queue b' q2 = if decide (b' = b) then nn_Next n else nq_Queue b' q) as Hqs by (intros b'; unfold q2, q1; by destruct (bool_decide _), b, b').
      split; unfold queues_set; simpl.
      * intros b'. change (nq_Queue b' (nq_set_Nodes (delete p (nq_Nodes q)) q2)) with (nq_Queue b' q2). rewrite Hqs. destruct (decide (b' = b)) as [He|He].
        { eapply linked_frame; [|exact Hl]. intros x Hx. apply lookup_delete_ne. by intros <-. }
        eapply linked_frame; [|apply Hq]. intros x Hx. apply lookup_delete_ne. intros <-. by apply (Hother b' p).
      * intros b'. change (nq_Last b' (nq_set_Nodes (delete p (nq_Nodes q)) q2)) with (nq_Last b' q2). assert (nq_Last b' q2 = if decide (b' = b) then if bool_decide (nq_Queue b q = nq_Last b q) then None else nq_Last b q else nq_Last b' q) as ->
          by (unfold q2, q1; by destruct (bool_decide _), b, b').
        destruct (decide (b' = b)) as [_|_]; [|apply Hq]. rewrite Hfirst, Hla. destruct l as [|y l']; [by rewrite bool_decide_true|]. rewrite bool_decide_false; [done|].
        intros He. change (last (p :: y :: l')) with (last (y :: l')) in He. symmetry in He. apply last_Some in He as [l0 Hl0]. apply Hpl. rewrite Hl0. set_solver.
      * intros b'. destruct (decide (b' = b)); [done|apply Hq].
      * intros x. pose proof (la_disjoint _ _ _ Hq x) as Hd. destruct b; simpl; rewrite Hf in Hd; set_solver.
Qed.

Lemma clear_run b fuel : ∀ l ts q, linked (nq_Nodes q) (nq_Queue b q) l ts → NoDup l → (length l <= fuel)%nat →
  ∃ nodes, clearQueue fuel b q = Some (tt, nq_set_Queue b None (nq_set_Nodes nodes q)) ∧ ∀ p, p ∉ l → nodes !! p = nq_Nodes q !! p.
Proof.
  induction fuel as [|fuel IH]; intros [|p l] [|t ts] q Hl Hnd Hf; simpl in *; try done; try lia.
  1, 2: exists (nq_Nodes q); split; [|done]; rewrite (run_bind _ _ _ q q) by done; rewrite Hl; destruct q, b; simpl in *; by subst.
  destruct Hl as (Hfirst & n & Hn & _ & Hl). apply NoDup_cons in Hnd as [Hp Hnd].
  set (q1 := nq_set_Queue b (nn_Next n) (nq_set_Nodes (delete p (nq_Nodes q)) q)). destruct (IH l ts q1) as (nodes & Hr & Hk); [|done|lia|].
  - assert (nq_Nodes q1 = delete p (nq_Nodes q) ∧ nq_Queue b q1 = nn_Next n) as [-> ->] by (by destruct b). eapply linked_frame; [|exact Hl]. intros x Hx. apply lookup_delete_ne. by intros <-.
  - exists nodes. rewrite (run_bind _ _ _ q q), Hfirst by done. rewrite (run_bind _ _ _ n q) by (unfold node_get, deref; by rewrite Hn).
    rewrite (run_bind _ _ _ tt (nq_set_Nodes (delete p (nq_Nodes q)) q)) by done. rewrite (run_bind _ _ _ tt q1) by done. rewrite Hr. split; [by destruct b|].
    intros x [Hxp Hx]%not_elem_of_cons. rewrite (Hk x Hx). destruct b; simpl; by rewrite lookup_delete_ne.
Qed.

Lemma linked_fuel nodes first l ts : linked nodes first l ts → NoDup l → (length l <= size nodes)%nat.
Proof.
  intros Hl Hnd. rewrite <- size_dom, <- (size_list_to_set (C := gset ptr) l) by done. apply subseteq_size. intros p Hp%elem_of_list_to_set. by eapply linked_dom.
Qed.

Lemma clear_queues s q : queues_of s q → ∃ q', notificationQueueClear q = Some (tt, q') ∧ nq_EventMask q' = nq_EventMask q ∧ queues_of (λ _, []) q'.
Proof.
  intros [f Hq]. pose proof (la_linked _ _ _ Hq) as Hl. pose proof (la_nodup _ _ _ Hq) as Hnd. unfold notificationQueueClear. rewrite (run_bind _ _ _ (size (nq_Nodes q)) q) by done.
  destruct (clear_run true (size (nq_Nodes q)) _ _ q (Hl true) (Hnd true)) as (n1 & Hr1 & Hk1); [by eapply linked_fuel|].
  set (q1 := nq_set_Last true None (nq_set_Queue true None (nq_set_Nodes n1 q))).
  destruct (clear_run false (size (nq_Nodes q)) (f false) (s false) q1) as (n2 & Hr2 & _); [|done|by eapply linked_fuel|].
  { apply (linked_frame (nq_Nodes q)); [|exact (Hl false)]. intros p Hp. apply Hk1. intros Hp'. by apply (la_disjoint _ _ _ Hq p). }
  exists (nq_set_Last false None (nq_set_Queue false None (nq_set_Nodes n2 q1))). split; [|split; [done|]].
  - rewrite (run_bind _ _ _ _ _ Hr1). rewrite (run_bind _ _ _ tt q1) by done. by rewrite (run_bind _ _ _ _ _ Hr2).
  - exists (λ _, []). split; [by intros []|by intros []|constructor|by intros p Hp%elem_of_nil].
Qed.

Lemma hasData_queues s q : queues_of s q → notificationQueueHasData q = Some (bool_decide (s true ≠ [] ∨ s false ≠ []), q).
Proof.
  intros [f Hq]. unfold notificationQueueHasData, gets. do 2 f_equal. pose proof (la_linked _ _ _ Hq true) as H1. pose proof (la_linked _ _ _ Hq false) as H2. simpl in *.
  assert (∀ first l ts, linked (nq_Nodes q) first l ts → first ≠ None ↔ ts ≠ []) as Hne.
  { intros first [|p l] [|t ts]; simpl; try done. intros [-> _]. by split. }
  rewrite <- bool_decide_or. apply bool_decide_ext. by rewrite (Hne _ _ _ H1), (Hne _ _ _ H2).
Qed.

(** ** Sequences of operations *)

Inductive NotificationOperation :=
| EnqueueNotification (isPreRead : bool) (type : Z) (memory : bool)
| TakeNotification (isPreRead : bool)
| HasData
| ClearNotifications.

(** The answer of an operation. *)
Inductive NotificationAnswer := Enqueued (done : bool) | Taken (type : option Z) | Waiting (data : bool) | Cleared.

Definition notificationOperation (o : NotificationOperation) : M NotificationQueue NotificationAnswer :=
  match o with
  | EnqueueNotification b type memory =>
      q ← get;
      r ← notificationQueueEnqueueNotification (if memory then Some (fresh (dom (nq_Nodes q))) else None) b type;
      mret (Enqueued (bool_decide (is_Some r)))
  | TakeNotification b => r ← takeNotification b; mret (Taken r)
  | HasData => r ← notificationQueueHasData; mret (Waiting r)
  | ClearNotifications => notificationQueueClear;; mret Cleared
  end.

(** The same on two queues. *)
Definition queueOperation (mask : Z) (o : NotificationOperation) (s : Queues) : NotificationAnswer * Queues :=
  match o with
  | EnqueueNotification b type memory =>
      if wanted mask type && memory then (Enqueued true, queues_set s b (s b ++ [type])) else (Enqueued false, s)
  | TakeNotification b => (Taken (head (s b)), queues_set s b (tail (s b)))
  | HasData => (Waiting (bool_decide (s true ≠ [] ∨ s false ≠ [])), s)
  | ClearNotifications => (Cleared, λ _, [])
  end.

Fixpoint notificationOperations (l : list NotificationOperation) : M NotificationQueue (list NotificationAnswer) :=
  match l with
  | [] => mret []
  | o :: l' => r ← notificationOperation o; rs ← notificationOperations l'; mret (r :: rs)
  end.

Fixpoint queueOperations (mask : Z) (l : list NotificationOperation) (s : Queues) : list NotificationAnswer :=
  match l with
  | [] => []
  | o :: l' => let '(r, s') := queueOperation mask o s in r :: queueOperations mask l' s'
  end.

Definition valid_type (o : NotificationOperation) : Prop := match o with EnqueueNotification _ type _ => 0 <= type < 31 | _ => True end.

Lemma operation_queues o s q : queues_of s q → valid_type o →
  ∃ q', notificationOperation o q = Some ((queueOperation (nq_EventMask q) o s).1, q') ∧ nq_EventMask q' = nq_EventMask q ∧
    queues_of (queueOperation (nq_EventMask q) o s).2 q'.
Proof.
  intros Hq Ho. destruct o as [b type memory|b| |]; simpl in *.
  - rewrite (run_bind _ _ _ q q) by done. set (mem := if memory then Some (fresh (dom (nq_Nodes q))) else None).
    destruct (enqueue_queues mem b type s q Hq Ho) as (q' & Hr & Hm & Hq'); [unfold mem; destruct memory; [|done]; intros p [= <-]; apply is_fresh|].
    exists q'. rewrite (run_bind _ _ _ _ _ Hr). split_and!; [|done|]; unfold mem in *; destruct (wanted _ type), memory; done.
  - destruct (take_queues b s q Hq) as (q' & Hr & Hm & Hq'). exists q'. by rewrite (run_bind _ _ _ _ _ Hr).
  - exists q. by rewrite (run_bind _ _ _ _ _ (hasData_queues s q Hq)).
  - destruct (clear_queues s q Hq) as (q' & Hr & Hm & Hq'). exists q'. by rewrite (run_bind _ _ _ _ _ Hr).
Qed.

Lemma new_queues nodes mask : queues_of (λ _, []) (MkNotificationQueue nodes None None None None mask).
Proof. exists (λ _, []). split; [by intros []|by intros []|constructor|by intros p Hp%elem_of_nil]. Qed.

Lemma operations_queues l : ∀ s q, queues_of s q → Forall valid_type l →
  ∃ q', notificationOperations l q = Some (queueOperations (nq_EventMask q) l s, q').
Proof.
  induction l as [|o l IH]; intros s q Hq Hv; [by exists q|]. pose proof (Forall_inv Hv) as Ho. pose proof (Forall_inv_tail Hv) as Hl.
  destruct (operation_queues o s q Hq Ho) as (q1 & Hr & Hm & Hq1). destruct (IH _ q1 Hq1 Hl) as (q2 & Hr2). exists q2. cbn [notificationOperations queueOperations].
  rewrite (run_bind _ _ _ _ _ Hr), (run_bind _ _ _ _ _ Hr2), Hm. by destruct (queueOperation (nq_EventMask q) o s).
Qed.

(** C97: The two linked lists of a notification queue are two queues: whatever
    is enqueued, taken and cleared, in whichever order and however memory runs
    short, no invalid pointer is used, only the notifications the user has
    asked for are enqueued, and they are taken in the order in which they
    were enqueued, once each. *)
Theorem notifications_refine_queues nodes mask l : Forall valid_type l →
  ∃ q', notificationOperations l (MkNotificationQueue nodes None None None None mask) = Some (queueOperations mask l (λ _, []), q').
Proof. intros Hv. exact (operations_queues l _ _ (new_queues nodes mask) Hv). Qed.

Lemma notifications_refine_queues_witness : ∃ q',
  notificationOperations [EnqueueNotification true 1 true; EnqueueNotification true 2 true; EnqueueNotification false 3 true; HasData; TakeNotification true; TakeNotification true; TakeNotification true]
    (MkNotificationQueue ∅ None None None None (Z.lor NET_SESSION_CHANGE NET_FAILOVER)) =
  Some ([Enqueued true; Enqueued true; Enqueued false; Waiting true; Taken (Some 1); Taken (Some 2); Taken None], q').
Proof.
  apply (notifications_refine_queues ∅ (Z.lor NET_SESSION_CHANGE NET_FAILOVER)
    [EnqueueNotification true 1 true; EnqueueNotification true 2 true; EnqueueNotification false 3 true; HasData; TakeNotification true; TakeNotification true; TakeNotification true]).
  by repeat constructor.
Defined.
