(* ===== verification/TagList.v ===== *)
(** * Tag lists (tagitem.c)

    Settings are given as arrays of tags with data, which may be continued in
    another array.  A pointer to an item is the number of its array and an
    index; number 0 is the NULL pointer. *)

From S2P Require Import Prelude AsapInstance.
From stdpp Require Import base list gmap numbers option.
#[local] Open Scope Z_scope.

Definition TAG_DONE : Z := 0.
Definition TAG_END : Z := 0.
Definition TAG_IGNORE : Z := 1.
Definition TAG_MORE : Z := 2.
Definition TAG_SKIP : Z := 3.
Definition TAG_USER : Z := 1000000.
Definition TAG_RspLib_RegistrarRequestMaxTrials : Z := TAG_USER + 4005.
Definition TAG_RspLib_RegistrarRequestTimeout : Z := TAG_USER + 4006.
Definition TAG_RspLib_RegistrarResponseTimeout : Z := TAG_USER + 4007.

Record TagItem := MkTagItem { ti_Tag : Z; ti_Data : Z }.
Implicit Types (x : TagItem) (l : list TagItem).

Section tags.
Context (arrays : gmap Z (list TagItem)).

Definition TagPtr : Type := Z * Z.

Definition itemAt (p : TagPtr) : option TagItem :=
  if p.2 <? 0 then None else l ← arrays !! p.1; l !! Z.to_nat p.2.

(** [tagListNext]; [None] is an invalid pointer, or no end. *)
Fixpoint tagListNextFrom (fuel : nat) (updated : bool) (p : TagPtr) : option (option TagPtr) :=
  match fuel with
  | O => None
  | S fuel' =>
      x ← itemAt p;
      let advance (n : Z) := tagListNextFrom fuel' true (p.1, p.2 + n + 1) in
      if ti_Tag x =? TAG_MORE then
        if ti_Data x =? 0 then Some None else tagListNextFrom fuel' updated (ti_Data x, 0)
      else if ti_Tag x =? TAG_IGNORE then advance 0
      else if ti_Tag x =? TAG_END then Some None
      else if ti_Tag x =? TAG_SKIP then advance (ti_Data x)
      else if updated then Some (Some p)
      else advance 0
  end.
Definition tagListNext (fuel : nat) (p : TagPtr) : option (option TagPtr) := tagListNextFrom fuel false p.

Fixpoint tagListFindFrom (fuel : nat) (p : TagPtr) (tag : Z) : option (option TagPtr) :=
  match fuel with
  | O => None
  | S fuel' =>
      x ← itemAt p;
      if ti_Tag x =? tag then Some (Some p)
      else
        next ← tagListNext fuel' p;
        match next with
        | Some p' => tagListFindFrom fuel' p' tag
        | None => Some None
        end
  end.
Definition tagListFind (fuel : nat) (tagList : option TagPtr) (tag : Z) : option (option TagPtr) :=
  match tagList with
  | Some p => tagListFindFrom fuel p tag
  | None => Some None
  end.

Definition tagListGetData (fuel : nat) (tagList : option TagPtr) (tag defaultValue : Z) : option Z :=
  found ← tagListFind fuel tagList tag;
  match found with
  | Some p => x ← itemAt p; Some (ti_Data x)
  | None => Some defaultValue
  end.

(** The settings of the ASAP instance. *)
Definition asapInstanceConfigure (fuel : nat) (registrarHuntSocket : Z) (tags : option TagPtr) : option AsapConfig :=
  trials ← tagListGetData fuel tags TAG_RspLib_RegistrarRequestMaxTrials ASAP_DEFAULT_REGISTRAR_REQUEST_MAXTRIALS;
  _ ← tagListGetData fuel tags TAG_RspLib_RegistrarRequestTimeout ASAP_DEFAULT_REGISTRAR_REQUEST_TIMEOUT;
  timeout ← tagListGetData fuel tags TAG_RspLib_RegistrarResponseTimeout ASAP_DEFAULT_REGISTRAR_RESPONSE_TIMEOUT;
  Some (MkAsapConfig registrarHuntSocket trials timeout).
End tags.

(** [tagListSetData]: the arrays, and whether the tag was found. *)
Definition tagListSetData (arrays : gmap Z (list TagItem)) (fuel : nat) (tagList : option TagPtr) (tag value : Z) :
    option (gmap Z (list TagItem) * option TagPtr) :=
  found ← tagListFind arrays fuel tagList tag;
  match found with
  | Some p =>
      l ← arrays !! p.1;
      x ← itemAt arrays p;
      Some (<[p.1 := <[Z.to_nat p.2 := MkTagItem (ti_Tag x) value]> l]> arrays, Some p)
  | None => Some (arrays, None)
  end.

(** ** Sizes and copies *)

(** The array is an argument; an array without end is read past its end. *)
Fixpoint tagListGetSize l : option Z :=
  match l with
  | [] => None
  | x :: l' => if ti_Tag x =? TAG_DONE then Some 1 else n ← tagListGetSize l'; Some (n + 1)
  end.

Definition tagListDuplicate (memory : bool) l : option (option (list TagItem)) :=
  count ← tagListGetSize l;
  Some (if memory then Some (take (Z.to_nat count) l) else None).

(** The inner loop of [tagListDuplicateFilter]: whether the tag was found, and
    the rest of the filter; it begins with the tag that was found. *)
Fixpoint skipFilter (tag : Z) (filterArray : list Z) : option (bool * list Z) :=
  match filterArray with
  | [] => None
  | f :: filterArray' =>
      if f =? TAG_DONE then Some (false, filterArray)
      else if tag =? f then Some (true, filterArray)
      else skipFilter tag filterArray'
  end.

(** The filter is not read from its beginning for the next item. *)
Fixpoint filterItems l (filterArray : list Z) : option (list TagItem) :=
  match l with
  | [] => Some []
  | x :: l' =>
      r ← skipFilter (ti_Tag x) filterArray;
      rest ← filterItems l' r.2;
      Some (if r.1 : bool then x :: rest else rest)
  end.

Definition tagListDuplicateFilter (memory : bool) l (filterArray : list Z) : option (option (list TagItem)) :=
  count ← tagListGetSize l;
  if memory then copy ← filterItems (take (Z.to_nat count) l) filterArray; Some (Some (copy ++ [MkTagItem TAG_DONE 0]))
  else Some None.

(** ** What they give *)

(** An array without control tags, up to its end. *)
Definition plain l : Prop := Forall (λ x, TAG_USER <= ti_Tag x) l.

Fixpoint firstData (tag : Z) l : option Z :=
  match l with
  | [] => None
  | x :: l' => if ti_Tag x =? tag then Some (ti_Data x) else firstData tag l'
  end.

Lemma find_valid arrays fuel p q tag : tagListFindFrom arrays fuel p tag = Some (Some q) → is_Some (itemAt arrays q).
Proof.
  revert p. induction fuel as [|fuel IH]; intros p; cbn [tagListFindFrom]; [done|]. destruct (itemAt arrays p) as [y|] eqn:Hy; [|done]. simpl.
  destruct (_ =? tag); [intros [= <-]; eauto|]. destruct (tagListNext arrays fuel p) as [[q'|]|]; [apply IH|done|done].
Qed.

Section lookup.
Context (arrays : gmap Z (list TagItem)) (array : Z) (l : list TagItem) (rest : list TagItem) (data : Z).
Hypothesis Harray : arrays !! array = Some (l ++ MkTagItem TAG_END data :: rest).
Hypothesis Hplain : plain l.

Lemma itemAt_array i : itemAt arrays (array, Z.of_nat i) = (l ++ MkTagItem TAG_END data :: rest) !! i.
Proof. unfold itemAt. simpl. destruct (Z.ltb_spec (Z.of_nat i) 0); [lia|]. rewrite Harray. simpl. by rewrite Nat2Z.id. Qed.

Lemma user_tag x : TAG_USER <= ti_Tag x → (ti_Tag x =? TAG_MORE) = false ∧ (ti_Tag x =? TAG_IGNORE) = false ∧ (ti_Tag x =? TAG_END) = false ∧ (ti_Tag x =? TAG_SKIP) = false.
Proof. unfold TAG_USER, TAG_MORE, TAG_IGNORE, TAG_END, TAG_SKIP. intros. repeat split; apply Z.eqb_neq; lia. Qed.

(** The item behind, or the end. *)
Lemma next_plain fuel i : (i < length l)%nat →
  tagListNext arrays (S (S fuel)) (array, Z.of_nat i) = Some (if decide (S i = length l) then None else Some (array, Z.of_nat (S i))).
Proof.
  intros Hi. assert (∀ j, (j <= length l)%nat → ∃ x, (l ++ MkTagItem TAG_END data :: rest) !! j = Some x ∧ if decide (j = length l) then ti_Tag x = TAG_END else TAG_USER <= ti_Tag x) as Hitem.
  { intros j Hj. case_decide as He; [subst; rewrite list_lookup_middle by done; eauto|]. destruct (lookup_lt_is_Some_2 l j) as [x Hx]; [lia|].
    exists x. rewrite lookup_app_l by lia. split; [done|]. unfold plain in Hplain. rewrite Forall_lookup in Hplain. by apply (Hplain j). }
  unfold tagListNext. cbn [tagListNextFrom]. destruct (Hitem i) as (x & Hx & Hu); [lia|]. rewrite decide_False in Hu by lia. rewrite itemAt_array, Hx. simpl.
  destruct (user_tag x Hu) as (-> & -> & -> & ->). replace (Z.of_nat i + 0 + 1) with (Z.of_nat (S i)) by lia.
  destruct (Hitem (S i)) as (y & Hy & Hv); [lia|]. rewrite itemAt_array, Hy. simpl. case_decide; [by rewrite Hv|]. by destruct (user_tag y Hv) as (-> & -> & -> & ->).
Qed.

Lemma find_plain tag fuel i : TAG_USER <= tag → (i < length l)%nat → (length l + 2 < fuel + i)%nat →
  ∃ p, tagListFindFrom arrays fuel (array, Z.of_nat i) tag = Some p ∧
    (x ← p; ti_Data <$> itemAt arrays x) = firstData tag (drop i l) ∧ (p = None → firstData tag (drop i l) = None).
Proof.
  intros Ht. revert i. induction fuel as [|fuel IH]; intros i Hi Hf; [lia|]. destruct (lookup_lt_is_Some_2 l i Hi) as [x Hx].
  cbn [tagListFindFrom]. rewrite itemAt_array, lookup_app_l, Hx by done. simpl. rewrite (drop_S l x i Hx). simpl. destruct (ti_Tag x =? tag) eqn:He.
  - eexists. split; [reflexivity|]. simpl. rewrite itemAt_array, lookup_app_l, Hx by done. done.
  - destruct fuel as [|[|fuel]]; [lia|lia|]. rewrite next_plain by done. simpl. case_decide as Hlast.
    + exists None. split; [done|]. by rewrite drop_ge by lia.
    + apply (IH (S i)); lia.
Qed.

(** The data of a tag is that of its first item, or the default value. *)
Lemma getData_plain tag d fuel : TAG_USER <= tag → (length l + 2 < fuel)%nat →
  tagListGetData arrays fuel (Some (array, 0)) tag d = Some (default d (firstData tag l)).
Proof.
  intros Ht Hf. unfold tagListGetData, tagListFind. change (array, 0) with (array, Z.of_nat 0). destruct (decide (length l = 0%nat)) as [Hz|Hz].
  - pose proof (itemAt_array 0) as H0. rewrite (nil_length_inv l Hz) in H0 |- *. simpl in H0. destruct fuel as [|[|fuel]]; [lia|lia|]. cbn [tagListFindFrom]. rewrite H0. cbn [mbind option_bind ti_Tag].
    rewrite (proj2 (Z.eqb_neq TAG_END tag)) by (unfold TAG_END, TAG_USER in *; lia). unfold tagListNext. cbn [tagListNextFrom]. rewrite H0. reflexivity.
  - destruct (find_plain tag fuel 0 Ht) as (p & Hp & Hd & Hn); [lia|lia|]. rewrite Hp. simpl. rewrite drop_0 in *.
    destruct p as [p|]; [|by rewrite (Hn eq_refl)]. simpl in *. rewrite <- Hd. apply find_valid in Hp as [x Hx]. by rewrite Hx.
Qed.
End lookup.

(** ** The filter *)

Lemma skipFilter_absent tag filterArray rest : tag ∉ filterArray → TAG_DONE ∉ filterArray →
  skipFilter tag (filterArray ++ TAG_DONE :: rest) = Some (false, TAG_DONE :: rest).
Proof.
  induction filterArray as [|f filterArray IH]; intros Ht Hd; [done|]. apply not_elem_of_cons in Ht as [Ht Htl]. apply not_elem_of_cons in Hd as [Hd Hdl]. simpl.
  rewrite (proj2 (Z.eqb_neq f TAG_DONE)), (proj2 (Z.eqb_neq tag f)) by done. by apply IH.
Qed.

Lemma filterItems_exhausted l rest : filterItems l (TAG_DONE :: rest) = Some [].
Proof. induction l as [|x l IH]; [done|]. simpl in *. by rewrite IH. Qed.

Lemma skipFilter_suffix tag filterArray rest : TAG_DONE ∉ filterArray →
  ∃ found suffix, skipFilter tag (filterArray ++ TAG_DONE :: rest) = Some (found, suffix ++ TAG_DONE :: rest) ∧ suffix ⊆ filterArray.
Proof.
  induction filterArray as [|f filterArray IH]; intros Hd; [by exists false, []|]. apply not_elem_of_cons in Hd as [Hd Hdl]. simpl.
  rewrite (proj2 (Z.eqb_neq f TAG_DONE)) by done. destruct (tag =? f); [by exists true, (f :: filterArray)|].
  destruct (IH Hdl) as (found & suffix & Hr & Hs). exists found, suffix. split; [done|]. set_solver.
Qed.

(** Everything behind an item whose tag is not in the filter is lost. *)
Lemma filter_stops l1 x l2 filterArray rest : ti_Tag x ∉ filterArray → TAG_DONE ∉ filterArray →
  filterItems (l1 ++ x :: l2) (filterArray ++ TAG_DONE :: rest) = filterItems l1 (filterArray ++ TAG_DONE :: rest).
Proof.
  revert filterArray. induction l1 as [|y l1 IH]; intros filterArray Hx Hd.
  - cbn [app filterItems]. rewrite skipFilter_absent by done. simpl. by rewrite filterItems_exhausted.
  - cbn [app filterItems]. destruct (skipFilter_suffix (ti_Tag y) filterArray rest Hd) as (found & suffix & -> & Hs). simpl. rewrite IH; [done|set_solver|set_solver].
Qed.
